(* ===== verification/_CoqProject ===== *)
-Q . S2P
Prelude.v
DList.v
NodeTable.v
Wire.v
Locks.v
Node.v
NodeTree.v
NodeOps.v
NodeSpec.v
Slab.v
NodeTheorems.v
Path.v
PathSpec.v
PathQueue.v
PathTree.v
PathTheorems.v
FuseOpt.v
Buf.v
LowLevel.v
Dispatch.v
Loop.v
LoopSpec.v
LoopTheorems.v
Handler.v
F3.v
F3Spec.v
F3Theorems.v
Lib.v
LibOps.v
LibSpec.v
LibCalm.v
LibOpen.v
LibTree.v
LibHide.v
LibRename.v
LibDir.v
LibTheorems.v
Stack.v
StackSpec.v
Subdir.v
SubdirTheorems.v
Iconv.v
IconvTheorems.v
Fusermount.v
FusermountTheorems.v
OptRule.v
Mount.v
MountTheorems.v
Helper.v
HelperTheorems.v
Signals.v
Modules.v
ModulesSpec.v
ModulesOps.v
Startup.v
StartupTheorems.v
