(* ===== verification/Prelude.v ===== *)
(** * F3: a verification development

    F3 is a file system for passing data between serverless functions on a
    Kubernetes cluster.  Its driver (src/f3/fuse/f3.cc) is a FUSE daemon on a
    vendored libfuse (src/f3/fuse/libfuse): it mirrors a shared source tree,
    keeps ID files (marked by an extended attribute or the extension .id) in a
    local cache tree, and asks a transfer client over a Unix socket
    (src/f3/fuse/uds_client.cc) to download an ID when it is opened on another
    node.

    ** How the parts interact

    The kernel writes requests to the FUSE device.  fuse_lowlevel.c reads a
    message (fuse_session_receive_buf), makes a request object, and calls the
    handler of the opcode (fuse_session_process_buf); the handler decodes its
    arguments and calls the file system's function from the table
    fuse_lowlevel_ops; that function replies through fuse_reply_*, which sends
    one message and frees the request.  Data replies and writes move bytes with
    the buffer vectors of buffer.c.  The command line is parsed with fuse_opt.c.

    fuse.c is the other way to use libfuse, the high-level library: it serves
    the same requests by path.  It keeps a node for every file the kernel has
    looked up, builds the path of a node from its ancestors, and locks the nodes
    of a path while an operation of the file system runs on it.  File systems
    can be stacked: the modules subdir and iconv rewrite the paths of a call and
    pass it to the next file system.

    Around a session are the loops that serve it, fuse_loop.c with one thread
    and fuse_loop_mt.c with a pool of workers, and the way to mount it: helper.c
    is the main program of a file system; mount.c sorts the mount options,
    calls mount(2) itself where it may and otherwise runs the set-uid program
    fusermount3 (util/fusermount.c), which checks what an ordinary user asks for
    and passes the open device back.

    ** Files

    - [Prelude]: machine integers, C strings and numbers, error numbers, the
      state monad [ST] with abort.
    - [DList]: the circular doubly linked lists of fuse_lowlevel.c (and
      fuse.c), as a heap of links; [dl m h l] says that the list at [h] holds
      [l].
    - [NodeTable]: the two hash tables of fuse.c, which grow and shrink by
      linear hashing, over the raw hash of a node; [tbl_ok g t S] says that the
      table [t] holds the set [S].
    - [Wire]: little-endian fields, struct stat, entries, locks and directory
      entries as bytes (fuse_kernel.h and the conversions of fuse_lowlevel.c).
    - [Locks]: the byte-range locks of a node (locks_insert, locks_conflict) as
      a list, and the function from owners and offsets to lock types that it
      stands for.
    - [Node]: the nodes of fuse.c with their counters, names, numbers and
      tables, and the operations on them; the memory of nodes is the interface
      [NodeMem].
    - [NodeTree], [NodeOps], [NodeSpec]: the invariant [tree_ok] of that state,
      what each operation does to it, and the abstract tree [abs] it stands for.
    - [Slab]: the slab allocator of fuse.c, which implements [NodeMem] over the
      interface [Pages] of mmap.
    - [NodeTheorems]: requests of the kernel as operations on the abstract tree.
    - [Path]: paths, path locks and the queue of waiting requests.
    - [PathSpec], [PathQueue]: which request holds which lock, and what each
      section of a request does to the locks and the queue.
    - [PathTree]: operations on nodes while other requests hold paths.
    - [PathTheorems]: what requests get and wait for in every interleaving.
    - [FuseOpt]: fuse_opt.c, whole.  The caller's option structure and sscanf
      are the interface [OptData]; allocation outcomes are an input.
    - [Buf]: buffer.c, whole.  File descriptors are the interface [FdOps] with
      the laws [FdLaws] and [FileLaws]; memory is a map from addresses to bytes.
    - [LowLevel]: sessions, requests and replies of fuse_lowlevel.c.  [LL] is
      the state: the session, the request objects and lists, the machine, the
      messages sent, and the state [user] of the file system.  The device is the
      interface [DevOps].
    - [Dispatch]: fuse_lowlevel_ops as the record [fuse_lowlevel_ops], every
      do_* function, interrupts, the INIT negotiation, notifications, and the
      receive and process steps of a session.
    - [Loop]: both session loops; the worker pool as a transition system
      ([step], [run]) with a place per thread.  [LoopSpec] has its invariant and
      [LoopTheorems] the theorems.
    - [Handler]: a program logic for handlers ([wp], [replies], and [replies_dev]
      where the answer of the device matters), used by the two file systems
      below.
    - [F3]: f3.cc and uds_client.cc.  [Fs] is the global fs with a heap of
      [Inode] objects, since the kernel is given their addresses; system calls
      are the interface [Posix] and are recorded in [trace].
    - [F3Spec]: the invariant [fs_ok] of the inode table, and the contract of
      each handler.
    - [F3Theorems]: the theorems about F3 and examples they apply to.
    - [Lib], [LibOps]: the handlers fuse_lib_* of fuse.c over nodes, paths and
      locks, and the calls fuse_fs_* they make of the file system, which is a
      record of callbacks; [fuse_path_ops] is the resulting table for the
      low-level library.
    - [LibSpec], [LibCalm], [LibOpen], [LibTree], [LibHide], [LibRename],
      [LibDir]: what each kind of handler does to the tree, the open files, the
      hidden names and the directory buffers, in terms of the tree and of the
      answers of the file system ([fs_says]).
    - [LibTheorems]: the theorems about the library's handlers.
    - [Stack]: the file systems a module can be put on and the callbacks of a
      module; [StackSpec] says what it means to forward a call.
    - [Subdir], [Iconv] with [SubdirTheorems], [IconvTheorems]: the two modules;
      iconv(3) is the interface [IconvOps], a converter with a state.
    - [Fusermount], [FusermountTheorems]: the mount helper.
    - [OptRule]: a pure reading of a command line for the users of
      fuse_opt_parse.
    - [Mount], [MountTheorems]: mount.c, and mount_util.c's handling of paths.
    - [Helper], [HelperTheorems]: helper.c.
    - [Signals]: fuse_signals.c and the interrupt signal of fuse.c, over the
      dispositions of a process.
    - [Modules]: the list of modules of fuse.c and the stack of file systems;
      [ModulesSpec] has the invariant [mods_ok], which makes the counters exact,
      and [ModulesOps] what each operation does to it.
    - [Startup]: fuse_session_new, fuse_new_31, fuse_loop and fuse_destroy, on
      top of the parts above; [StartupTheorems] has the theorems.

    A name of the source is kept where Rocq allows it; a definition that stands
    for part of a function (a loop body, the code between two labels) has a name
    of its own and a comment.

    ** What the theorems show

    - Options: parsing terminates without a failed assertion and leaves the
      arguments alone on error; escaped options survive being joined and split;
      parsing twice is parsing once.
    - Node tables: the hash table implements a set through every history of
      insertions and removals, whatever [realloc] returns, and a search of one
      bucket by number or by name finds the node.
    - Nodes: lookups, forgets, removals and renames refine operations on an
      abstract tree; without remember the counters of a node are what the kernel
      holds by the replies it got and the forgets it sent, so no node leaks or is
      freed early; no pair of number and generation is given twice; the slabs
      hand out disjoint blocks.
    - Paths: a request gets the right path, and locks that exclude every other
      writer; locks that stay when nothing runs were lost by a failed wait; lookups, forgets, removals and renames of other requests in
      between refine the abstract tree and leave a held path as it is; the first
      request in the queue is served when the locks are released.
    - Byte-range locks: the list implements a function from owners and offsets
      to lock types, and the conflict search is exact.
    - Buffers: a copy between vectors ends, stays within both, and is one linear
      copy of the bytes, in memory and between files.
    - Wire: directory entries and lock ranges are read back as written.
    - Replies: a reply sends one well-formed message and frees the request, and
      the lists of the session stay well formed; a data reply carries the bytes
      of its vector.
    - Dispatch: every message ends with exactly one reply carrying its number,
      given a handler that answers ([answers]); INIT agrees on flags the kernel
      announced, fails exactly if the file system wants more, and has a buffer
      that holds the largest write if the file system does not raise it.
    - Session loops: whatever the interleaving and the failures, the list of
      workers and the counters agree; until the pool stops a few steps of
      workers that are not busy bring one to the device; once told to stop, it
      does in a bounded number of steps.
    - F3: the handlers discharge [answers], so a session serving F3 answers the
      requests of [served] whatever the system returns; lookups and forgets
      keep the reference counts and undo each other; reads wait for a bounded
      time, and it is shown when; sizes of IDs survive writes in any order
      and the trip through the attribute.
    - Library handlers: they discharge [answers] too, for the requests of
      [lib_served]; the lookup count of a node is what the kernel was told, by the
      answer of the device; removal and rename call the file system with the right
      paths, follow its result, and hide a file first exactly if it is open; every entry of a directory is listed
      exactly once whatever the size of the pages.
    - Modules: subdir passes a call on with the path below its base and nothing
      else changed, and a rewritten link still leads to the same file; iconv's
      conversion in pieces is the conversion of the whole path, from the state its
      descriptor is in.
    - Mount helper: an ordinary user's mount has nosuid and nodev and only the
      options permitted to him, on a mount point he may write to; he unmounts
      only his own mounts; the option buffer is long enough.
    - Mounting and main program: the option string that mount.c builds is read
      back by the helper as the same options; parsing never reaches its internal
      error; the main program undoes every step it took on every path; the
      capabilities wanted are the ones the options name.
    - Start and end: fuse_new ends on every command line; what it returns has the
      options of the command line and the modules asked for, in their order, and
      the counters of modules are exact on every path.  fuse_destroy removes the
      hidden files by their paths and frees every node and slab.  Signal handlers
      that were set are given back, the ones of the program are left alone.
    - Where the code departs from its intention, there is a theorem or a
      concrete run: in F3 replies to freed requests, entries of IDs that are
      never erased and a message buffer that is too short ([replies_twice],
      [id_entry_leaks], [download_request_bounds], [fname_done_overreads]), and
      reads of the tail of a file that do not wait ([read_waits]); in the
      negotiation of INIT a buffer that does not follow max_write
      ([init_negotiation]); in fuse.c [clean_frees_held],
      [queue_deadlock], [failed_waiter_leaks], [dotdot_crashes],
      [failed_rename_hides] and [readdirplus_leaks]; in the loops
      [last_worker_leaves] and [exit_unnoticed]; in the modules
      [lseek_truncated], [outside_link_rewritten], [bad_descriptor_accepted] and
      [shift_state_carried_over]; in mounting
      [mount_sys_reports_zero] and
      [atomic_o_trunc_ignored]; at the start and the end
      [destroy_uses_freed_module], [builtin_modules_lost] and
      [failed_set_swallows].

    ** Conventions, bounds and fuel

    Integers are [Z] with [u32], [i64] and the like where the C code wraps.
    [None] of [ST] is an abort, a failed assertion or a use of freed or
    unallocated memory.  [heap] lists the outcomes of the next allocations, an
    empty list meaning that they succeed.  Loops over data the model holds are
    structural or have fuel computed from that data, with a theorem that it
    suffices ([copy_loop_total], [fuse_opt_parse_total], [convpath_converts]).
    Loops whose length only the system decides take an explicit [fuel]: copying
    a file with sendfile, reading a directory stream, restarting an interrupted
    read of the device ([rfuel]) and the turns of the loops with one thread; no
    theorem here speaks of a result that this fuel could withhold.  The waiting
    loop of a read has the bound of the code, 24.

    ** What is not modelled

    Threads inside handlers: a handler of F3 or of the library runs alone, so
    that a wait for a path in the library is an abort.  Threads interleave in two
    places: the critical
    sections of path locking are the steps of [lock_history] and of the
    histories of [PathTree], in any order, and the critical sections, receives
    and processing of workers are the steps of [Loop.run].  A download thread
    of F3 is a separate step.  Freed memory is tracked for requests, nodes,
    directory handles, workers, modules and file systems, not for strings and
    option structures.

    CREATE, READ and READDIRPLUS of the library are modelled without a theorem
    that they answer; [served] and [lib_served] list the requests that have one.

    Log output and help texts.  Effects that are only system calls: fork, exec
    and the sockets between mount.c and the helper, the format of the mount table
    /etc/mtab, going into the background.  The command line and the auto-unmount loop of
    fusermount.  The thread that cleans the cache beside the worker pool, of
    which one turn is [fuse_clean_cache], and dlopen, a parameter of the list of
    modules.  CUSE,
    which F3 does not use, and the examples of libfuse.  cxxopts, a third-party
    header.  The parts in other languages: the Go transfer services, the CSI
    driver, the deployment of OpenWhisk and Ceph, and the benchmark data
    generator. *)

From stdpp Require Export base tactics option list gmap strings.
From Stdlib Require Export ZArith Lia.

Open Scope Z_scope.

(** ** Machine integers

    A [w]-bit unsigned C integer is a [Z] in [0, 2^w); arithmetic on it is
    arithmetic on [Z] followed by [wrap w].  Signed integers use [swrap]. *)

Definition wrap (w z : Z) : Z := z mod 2 ^ w.

Definition swrap (w z : Z) : Z := (z + 2 ^ (w - 1)) mod 2 ^ w - 2 ^ (w - 1).

Abbreviation u8 := (wrap 8).
Abbreviation u16 := (wrap 16).
Abbreviation u32 := (wrap 32).
Abbreviation u64 := (wrap 64).
Abbreviation i32 := (swrap 32).
Abbreviation i64 := (swrap 64).

(** [x & f] used as a C truth value. *)
Definition has (x f : Z) : bool := negb (Z.land x f =? 0).

Lemma wrap_range w z : 0 <= w -> 0 <= wrap w z < 2 ^ w.
Proof. intros; apply Z.mod_pos_bound, Z.pow_pos_nonneg; lia. Qed.

Lemma wrap_id w z : 0 <= z < 2 ^ w -> wrap w z = z.
Proof. apply Z.mod_small. Qed.

Lemma wrap_wrap w z : 0 <= w -> wrap w (wrap w z) = wrap w z.
Proof. intros; apply wrap_id, wrap_range; done. Qed.

Lemma swrap_range w z : 0 < w -> - 2 ^ (w - 1) <= swrap w z < 2 ^ (w - 1).
Proof.
  intros Hw; unfold swrap.
  pose proof (Z.mod_pos_bound (z + 2 ^ (w - 1)) (2 ^ w)) as B.
  assert (2 ^ w = 2 * 2 ^ (w - 1)) as E.
  { rewrite <- Z.pow_succ_r by lia; f_equal; lia. }
  assert (0 < 2 ^ (w - 1)) by (apply Z.pow_pos_nonneg; lia). lia.
Qed.

Lemma swrap_id w z : 0 < w -> - 2 ^ (w - 1) <= z < 2 ^ (w - 1) -> swrap w z = z.
Proof.
  intros Hw Hz; unfold swrap.
  assert (2 ^ w = 2 * 2 ^ (w - 1)) as E.
  { rewrite <- Z.pow_succ_r by lia; f_equal; lia. }
  rewrite Z.mod_small; lia.
Qed.

(** Testing a flag against a union of flags. *)
Lemma land_lor_absorb x f : Z.land (Z.lor x f) f = f.
Proof. apply Z.bits_inj'; intros n Hn; rewrite Z.land_spec, Z.lor_spec.
  by destruct (Z.testbit x n), (Z.testbit f n). Qed.

(** ** Bytes and C strings

    A byte is a [Z] in [0, 256); a C string is the list of its bytes without
    the terminating NUL.  [cstr] reads a NUL-terminated string out of a larger
    buffer, and [lit] turns a literal into bytes. *)

Abbreviation bytes := (list Z).

Definition lit (s : string) : bytes :=
  map (fun c => Z.of_N (Ascii.N_of_ascii c)) (String.list_ascii_of_string s).

Fixpoint cstr (s : bytes) : bytes :=
  match s with
  | [] => []
  | c :: s => if c =? 0 then [] else c :: cstr s
  end.

(** No byte of the string is NUL. *)
Definition nonul (s : bytes) : Prop := Forall (fun c => c <> 0) s.

Lemma cstr_id s : nonul s -> cstr s = s.
Proof. induction 1 as [|c s Hc _ IH]; simpl; [done|]. rewrite IH.
  by destruct (Z.eqb_spec c 0). Qed.

Lemma cstr_nonul s : nonul (cstr s).
Proof. induction s as [|c s IH]; simpl; [constructor|].
  destruct (Z.eqb_spec c 0); constructor; done. Qed.

Lemma cstr_app_nul s t : nonul s -> cstr (s ++ 0 :: t) = s.
Proof. induction 1 as [|c s Hc _ IH]; simpl; [done|]. rewrite IH.
  by destruct (Z.eqb_spec c 0). Qed.

(** [s[i]] of a C string: the terminating NUL past the end. *)
Definition char_at (s : bytes) (i : nat) : Z := default 0 (s !! i).

(** [strchr]: the index of the first occurrence. *)
Fixpoint strchr (s : bytes) (c : Z) : option nat :=
  match s with
  | [] => None
  | d :: s => if d =? c then Some O else S <$> strchr s c
  end.

Lemma strchr_Some s c i : strchr s c = Some i -> s !! i = Some c.
Proof.
  revert i; induction s as [|d s IH]; intros i; simpl; [done|].
  destruct (Z.eqb_spec d c) as [->|]; [by intros [= <-]|].
  destruct (strchr s c) as [j|] eqn:E; simpl; intros [= <-]; simpl; auto.
Qed.

(** [strncmp(s, t, n) == 0] for strings of at least [n] characters, and
    [strcmp(s, t) == 0]. *)
Definition strneq (s t : bytes) (n : nat) : bool := bool_decide (take n s = take n t).

Definition streq (s t : bytes) : bool := bool_decide (s = t).

(** [strtol(s, NULL, 10)]: optional white space and sign, then digits; the
    value saturates.  [atoi] truncates it to an [int]. *)
Definition isspace (c : Z) : bool := (c =? 32) || ((9 <=? c) && (c <=? 13)).

Definition isdigit (c : Z) : bool := (48 <=? c) && (c <=? 57).

Fixpoint digits (acc : Z) (s : bytes) : Z :=
  match s with
  | c :: s => if isdigit c then digits (acc * 10 + (c - 48)) s else acc
  | [] => acc
  end.

Fixpoint strtol (s : bytes) : Z :=
  match s with
  | c :: s' =>
      if isspace c then strtol s' else
      if c =? 45 then Z.max (- 2 ^ 63) (- digits 0 s') else
      if c =? 43 then Z.min (2 ^ 63 - 1) (digits 0 s') else
      Z.min (2 ^ 63 - 1) (digits 0 s)
  | [] => 0
  end.

Definition atoi (s : bytes) : Z := i32 (strtol s).

(** [printf("%lu")]: the decimal digits of a natural number. *)
Fixpoint decimal_fuel (fuel : nat) (z : Z) : bytes :=
  match fuel with
  | O => []
  | S fuel => (if z <? 10 then [] else decimal_fuel fuel (z / 10)) ++ [48 + z mod 10]
  end.

Definition decimal (z : Z) : bytes := decimal_fuel (S (Z.to_nat (Z.log2 z))) z.

(** ** Error numbers *)

Definition ENOENT : Z := 2.
Definition EINTR : Z := 4.
Definition EIO : Z := 5.
Definition EBADF : Z := 9.
Definition EAGAIN : Z := 11.
Definition ENOMEM : Z := 12.
Definition EACCES : Z := 13.
Definition ENODEV : Z := 19.
Definition EINVAL : Z := 22.
Definition ENFILE : Z := 23.
Definition EMFILE : Z := 24.
Definition ENOTTY : Z := 25.
Definition ERANGE : Z := 34.
Definition ENAMETOOLONG : Z := 36.
Definition ENOLCK : Z := 37.
Definition ENOSYS : Z := 38.
Definition ENODATA : Z := 61.
Definition EPROTO : Z := 71.
Definition EOPNOTSUPP : Z := 95.
Definition ENOTSUP : Z := 95.
Definition ENOTCONN : Z := 107.
Definition ECONNREFUSED : Z := 111.

(** ** State with abort

    C code that mutates a structure of type [S] and may call [abort] or fail
    an [assert] is a function to [option (A * S)]: [None] is the abort.  The
    stdpp notation [x ← m; k] threads the state. *)

Definition ST (S A : Type) : Type := S -> option (A * S).

#[export] Instance ST_ret {S} : MRet (ST S) := fun A a s => Some (a, s).
#[export] Instance ST_bind {S} : MBind (ST S) := fun A B k m s =>
  match m s with
  | Some (a, s') => k a s'
  | None => None
  end.

Definition get {S} : ST S S := fun s => Some (s, s).

Definition put {S} (s : S) : ST S unit := fun _ => Some (tt, s).

Definition modify {S} (f : S -> S) : ST S unit := fun s => Some (tt, f s).

Definition abort {S A} : ST S A := fun _ => None.

(** [assert(c)]. *)
Definition check {S} (c : bool) : ST S unit := if c then mret tt else abort.

Lemma bind_Some {S A B} (m : ST S A) (k : A -> ST S B) s r :
  (m ≫= k) s = Some r <-> exists a s', m s = Some (a, s') /\ k a s' = Some r.
Proof.
  unfold mbind, ST_bind; destruct (m s) as [[a s']|]; split.
  - intros H; eauto.
  - intros (a' & s'' & [= <- <-] & H); done.
  - done.
  - intros (? & ? & ? & _); done.
Qed.

Lemma bind_step {S A B} (m : ST S A) (k : A -> ST S B) s a s' :
  m s = Some (a, s') -> (m ≫= k) s = k a s'.
Proof. intros E. unfold mbind, ST_bind. by rewrite E. Qed.

Lemma bind_get {S B} (k : S -> ST S B) s : (get ≫= k) s = k s s.
Proof. done. Qed.

Lemma bind_ret {S A B} (a : A) (k : A -> ST S B) s : (mret a ≫= k) s = k a s.
Proof. done. Qed.

Lemma bind_modify {S B} (g : S -> S) (k : unit -> ST S B) s : (modify g ≫= k) s = k tt (g s).
Proof. done. Qed.

Lemma bind_assoc {S A B C} (m : ST S A) (k : A -> ST S B) (j : B -> ST S C) s :
  ((m ≫= k) ≫= j) s = (m ≫= (fun a => k a ≫= j)) s.
Proof. unfold mbind, ST_bind. by destruct (m s) as [[a s']|]. Qed.

(** Break a chain of binds in a hypothesis into its steps. *)
Ltac st_inv H :=
  lazymatch type of H with
  | (mbind _ _) _ = Some _ =>
      let a := fresh "a" in let s' := fresh "s" in
      let H1 := fresh "Hs" in let H2 := fresh "Hs" in
      apply bind_Some in H; destruct H as (a & s' & H1 & H2);
      st_inv H1; st_inv H2
  | mret _ _ = Some _ => injection H; clear H; intros; subst
  | get _ = Some _ => injection H; clear H; intros; subst
  | put _ _ = Some _ => injection H; clear H; intros; subst
  | modify _ _ = Some _ => injection H; clear H; intros; subst
  | abort _ = Some _ => discriminate H
  | check ?c _ = Some _ =>
      let E := fresh "E" in destruct c eqn:E; [injection H; clear H; intros; subst | discriminate H]
  | _ => idtac
  end.

(** Case analysis on the boolean comparisons of the goal. *)
Ltac zcases :=
  repeat match goal with
  | |- context [?x =? ?y] => destruct (Z.eqb_spec x y)
  | |- context [?x <? ?y] => destruct (Z.ltb_spec x y)
  | |- context [?x <=? ?y] => destruct (Z.leb_spec x y)
  end; try lia.

(** A filter that keeps everything. *)
Lemma filter_all {A} (P : A -> Prop) `{forall x, Decision (P x)} (l : list A) : (forall x, x ∈ l -> P x) -> filter P l = l.
Proof.
  induction l as [|x l IH]; intros Hl; [done|]. rewrite filter_cons_True by (apply Hl; left). f_equal. apply IH. intros y Hy. apply Hl. by right.
Qed.

Create HintDb f3.
#[export] Hint Resolve cstr_nonul : f3.
