(* ===== verification/DList.v ===== *)
(** * Intrusive circular lists

    libfuse keeps requests, pending interrupts, notification requests
    (fuse_lowlevel.c) and its slab and LRU lists (fuse.c) in doubly linked
    circular lists threaded through the objects themselves, each around a head
    that is part of the owner.  The links are a map from the address of a node
    to its [next] and [prev] fields; following a pointer to an address that is
    not in the map is [None].  [dl] says which sequence of nodes a head stands
    for, and the theorems say what each operation does to that sequence. *)

From S2P Require Import Prelude.

Record link := Link { next : Z; prev : Z }.

#[export] Instance link_eq_dec : EqDecision link.
Proof. solve_decision. Defined.

Abbreviation links := (gmap Z link).

(** ** The operations *)

(** [p->next = v] and [p->prev = v] *)
Definition set_next (p v : Z) (m : links) : option links :=
  k ← m !! p; Some (<[p := Link v (prev k)]> m).

Definition set_prev (p v : Z) (m : links) : option links :=
  k ← m !! p; Some (<[p := Link (next k) v]> m).

(** [list_init_req], [list_init_nreq] and [init_list_head]: the node becomes
    an empty list. *)
Definition list_init (req : Z) (m : links) : links := <[req := Link req req]> m.

(** [list_del_req], [list_del_nreq] and [list_del]. *)
Definition list_del (req : Z) (m : links) : option links :=
  k ← m !! req;
  m ← set_next (prev k) (next k) m;
  set_prev (next k) (prev k) m.

(** [list_add_req] and [list_add_nreq]: insert [req] before [nxt]. *)
Definition list_add (req nxt : Z) (m : links) : option links :=
  k ← m !! nxt;
  m ← set_next req nxt m;
  m ← set_prev req (prev k) m;
  m ← set_next (prev k) req m;
  set_prev nxt req m.

(** [list_add(new, prev, next)] of fuse.c, which links between two neighbours. *)
Definition list_link (new prv nxt : Z) (m : links) : option links :=
  m ← set_prev nxt new m;
  m ← set_next new nxt m;
  m ← set_prev new prv m;
  set_next prv new m.

(** [list_add_head(new, head)]. *)
Definition list_add_head (new head : Z) (m : links) : option links :=
  k ← m !! head; list_link new head (next k) m.

(** The nodes from [p] up to [head], in the order the loops
    [for (curr = head->next; curr != head; curr = curr->next)] visit them. *)
Fixpoint walk (fuel : nat) (m : links) (head p : Z) : option (list Z) :=
  match fuel with
  | O => None
  | S fuel =>
      if p =? head then Some [] else
      k ← m !! p; cons p <$> walk fuel m head (next k)
  end.

Definition list_nodes (m : links) (head : Z) : option (list Z) :=
  k ← m !! head; walk (S (size m)) m head (next k).

(** ** What a head stands for *)

Definition linked (m : links) (a b : Z) : Prop :=
  next <$> m !! a = Some b /\ prev <$> m !! b = Some a.

Definition dl (m : links) (h : Z) (l : list Z) : Prop :=
  NoDup (h :: l) /\ Forall2 (linked m) (h :: l) (l ++ [h]).

Lemma next_set_next p v m m' a : set_next p v m = Some m' ->
  next <$> m' !! a = if decide (a = p) then Some v else next <$> m !! a.
Proof.
  unfold set_next. destruct (m !! p) as [k|] eqn:E; simpl; [|done]. intros [= <-].
  destruct (decide (a = p)) as [->|Hn]; [by rewrite lookup_insert_eq|by rewrite lookup_insert_ne].
Qed.

Lemma prev_set_next p v m m' a : set_next p v m = Some m' -> prev <$> m' !! a = prev <$> m !! a.
Proof.
  unfold set_next. destruct (m !! p) as [k|] eqn:E; simpl; [|done]. intros [= <-].
  destruct (decide (a = p)) as [->|Hn]; [by rewrite lookup_insert_eq, E|by rewrite lookup_insert_ne].
Qed.

Lemma prev_set_prev p v m m' a : set_prev p v m = Some m' ->
  prev <$> m' !! a = if decide (a = p) then Some v else prev <$> m !! a.
Proof.
  unfold set_prev. destruct (m !! p) as [k|] eqn:E; simpl; [|done]. intros [= <-].
  destruct (decide (a = p)) as [->|Hn]; [by rewrite lookup_insert_eq|by rewrite lookup_insert_ne].
Qed.

Lemma next_set_prev p v m m' a : set_prev p v m = Some m' -> next <$> m' !! a = next <$> m !! a.
Proof.
  unfold set_prev. destruct (m !! p) as [k|] eqn:E; simpl; [|done]. intros [= <-].
  destruct (decide (a = p)) as [->|Hn]; [by rewrite lookup_insert_eq, E|by rewrite lookup_insert_ne].
Qed.

Lemma set_next_ok p v m : is_Some (m !! p) -> exists m', set_next p v m = Some m'.
Proof. intros [k E]. unfold set_next. rewrite E; simpl; eauto. Qed.

Lemma set_prev_ok p v m : is_Some (m !! p) -> exists m', set_prev p v m = Some m'.
Proof. intros [k E]. unfold set_prev. rewrite E; simpl; eauto. Qed.

Lemma next_is_Some (m : links) a : is_Some (m !! a) <-> is_Some (next <$> m !! a).
Proof. by rewrite fmap_is_Some. Qed.

Lemma prev_is_Some (m : links) a : is_Some (m !! a) <-> is_Some (prev <$> m !! a).
Proof. by rewrite fmap_is_Some. Qed.

(** Two link maps with the same fields are interchangeable. *)
Definition fields (m : links) (a : Z) : option Z * option Z := (next <$> m !! a, prev <$> m !! a).

Lemma next_fields m a : next <$> m !! a = (fields m a).1.
Proof. done. Qed.

Lemma prev_fields m a : prev <$> m !! a = (fields m a).2.
Proof. done. Qed.

Lemma set_next_fields p v m m' a : set_next p v m = Some m' ->
  fields m' a = (if decide (a = p) then Some v else next <$> m !! a, prev <$> m !! a).
Proof. intros E. unfold fields. by rewrite (next_set_next _ _ _ _ _ E), (prev_set_next _ _ _ _ _ E). Qed.

Lemma set_prev_fields p v m m' a : set_prev p v m = Some m' ->
  fields m' a = (next <$> m !! a, if decide (a = p) then Some v else prev <$> m !! a).
Proof. intros E. unfold fields. by rewrite (prev_set_prev _ _ _ _ _ E), (next_set_prev _ _ _ _ _ E). Qed.

(** ** The shape of a list around a position *)

(** The last node of [h :: l1] and the first of [l2 ++ [h]] are neighbours. *)
Lemma split_last (h : Z) l1 : exists A a, h :: l1 = A ++ [a] /\ length A = length l1.
Proof.
  destruct l1 as [|x l1 _] using rev_ind; [by exists [], h|].
  exists (h :: l1), x. split; [done|]. rewrite length_app; simpl; lia.
Qed.

Lemma split_first (h : Z) l2 : exists b B, l2 ++ [h] = b :: B /\ length B = length l2.
Proof. destruct l2 as [|x l2]; simpl; eexists _, _; (split; [done|]); rewrite ?length_app; simpl; lia. Qed.

(** The neighbours of the gap between [l1] and [l2]. *)
Definition gap (h : Z) (l1 l2 A : list Z) (a b : Z) (B : list Z) : Prop :=
  h :: l1 = A ++ [a] /\ l2 ++ [h] = b :: B.

Lemma gap_exists h l1 l2 : exists A a b B, gap h l1 l2 A a b B.
Proof.
  destruct (split_last h l1) as (A & a & E1 & _), (split_first h l2) as (b & B & E2 & _).
  by exists A, a, b, B.
Qed.

Lemma gap_length h l1 l2 A a b B : gap h l1 l2 A a b B ->
  length A = length l1 /\ length B = length l2.
Proof.
  intros [E1 E2]. apply (f_equal length) in E1, E2. rewrite length_app in E1, E2.
  simpl in E1, E2. lia.
Qed.

(** Sources and targets of the links of a list, cut at a gap. *)
Lemma Forall2_gap P h l1 l2 A a b B : gap h l1 l2 A a b B ->
  Forall2 P (h :: l1 ++ l2) ((l1 ++ l2) ++ [h]) <->
  Forall2 P A l1 /\ P a b /\ Forall2 P l2 B.
Proof.
  intros G. destruct (gap_length _ _ _ _ _ _ _ G) as [HA HB]. destruct G as [E1 E2].
  rewrite app_comm_cons, E1, <- !app_assoc, E2. split.
  - intros F. apply Forall2_app_inv in F as [F1 F2]; [|done].
    inversion F2; subst. done.
  - intros (F1 & F2 & F3). apply Forall2_app; [done|]. by constructor.
Qed.

Lemma Forall2_gap_node P h l1 x l2 A a b B : gap h l1 l2 A a b B ->
  Forall2 P (h :: l1 ++ x :: l2) ((l1 ++ x :: l2) ++ [h]) <->
  Forall2 P A l1 /\ P a x /\ P x b /\ Forall2 P l2 B.
Proof.
  intros G. destruct (gap_length _ _ _ _ _ _ _ G) as [HA HB]. destruct G as [E1 E2].
  rewrite app_comm_cons, E1, <- !app_assoc; simpl. rewrite E2. split.
  - intros F. apply Forall2_app_inv in F as [F1 F2]; [|done].
    inversion F2 as [|? ? ? ? ? F3]; subst. inversion F3; subst. done.
  - intros (F1 & F2 & F3 & F4). apply Forall2_app; [done|]. by repeat constructor.
Qed.

(** Links are kept where neither the source's [next] nor the target's [prev]
    changed. *)
Lemma Forall2_linked_frame m m' ss ts :
  (forall a, a ∈ ss -> next <$> m' !! a = next <$> m !! a) ->
  (forall b, b ∈ ts -> prev <$> m' !! b = prev <$> m !! b) ->
  Forall2 (linked m) ss ts -> Forall2 (linked m') ss ts.
Proof.
  intros Hs Ht F. induction F as [|a b ss ts [H1 H2] F IH]; constructor.
  - split; [rewrite Hs|rewrite Ht]; auto; set_solver.
  - apply IH; intros; [apply Hs|apply Ht]; set_solver.
Qed.

Lemma dl_frame m m' h l : (forall a, a ∈ h :: l -> fields m' a = fields m a) -> dl m h l -> dl m' h l.
Proof.
  intros Hf [Hn F]. split; [done|]. revert F. apply Forall2_linked_frame; intros a Ha.
  - specialize (Hf a Ha). unfold fields in Hf. congruence.
  - assert (a ∈ h :: l) as Ha' by set_solver. specialize (Hf a Ha'). unfold fields in Hf. congruence.
Qed.

Lemma dl_mem m h l a : dl m h l -> a ∈ h :: l -> is_Some (m !! a).
Proof.
  intros [_ F] Ha. apply list_elem_of_lookup in Ha as [i Ha].
  destruct (Forall2_lookup_l _ _ _ _ _ F Ha) as (b & _ & [E _]).
  apply next_is_Some. by rewrite E.
Qed.

Lemma dl_init m h : dl (list_init h m) h [].
Proof.
  split; [apply NoDup_singleton|]. constructor; [|constructor].
  unfold linked, list_init. rewrite lookup_insert_eq. done.
Qed.

(** ** Inserting and deleting *)

Section Gap.
Context (h : Z) (l1 l2 : list Z) (A : list Z) (a b : Z) (B : list Z).
Hypothesis G : gap h l1 l2 A a b B.

Lemma gap_NoDup : NoDup (h :: l1 ++ l2) -> NoDup (A ++ a :: l2) /\ NoDup (l1 ++ b :: B).
Proof using G.
  destruct G as [E1 E2]. intros Hn. split.
  - rewrite app_comm_cons, E1, <- app_assoc in Hn. done.
  - rewrite <- E2, app_assoc. rewrite <- Permutation_cons_append. done.
Qed.

Lemma gap_mem : a ∈ h :: l1 ++ l2 /\ b ∈ h :: l1 ++ l2.
Proof using G.
  destruct G as [E1 E2]. split.
  - assert (a ∈ h :: l1) by (rewrite E1; set_solver). set_solver.
  - assert (b ∈ l2 ++ [h]) by (rewrite E2; set_solver). set_solver.
Qed.

(** Where the two neighbours, and a node outside the list, do not occur. *)
Lemma gap_fresh : NoDup (h :: l1 ++ l2) -> (a ∉ A) /\ (b ∉ l1) /\ (a ∉ l2) /\ (b ∉ B).
Proof using G.
  intros Hn. destruct (gap_NoDup Hn) as [Ns Nt].
  apply NoDup_app in Ns as (_ & Ns & Ns2), Nt as (_ & Nt & Nt2).
  apply NoDup_cons in Ns2 as [Ns2 _], Nt2 as [Nt2 _].
  split; [|split; [|split]]; [| |done|done]; intros Hc.
  - apply (Ns a Hc). by left.
  - apply (Nt b Hc). by left.
Qed.

Lemma gap_outside x : x ∉ h :: l1 ++ l2 -> (x ∉ A) /\ (x ∉ l1) /\ (x ∉ l2) /\ (x ∉ B) /\ a <> x /\ b <> x.
Proof using G.
  intros Hx. destruct gap_mem as [Ma Mb], G as [E1 E2].
  apply not_elem_of_cons in Hx as [Hxh Hx]. apply not_elem_of_app in Hx as [Hx1 Hx2].
  assert (x ∉ A ++ [a]) as HA by (rewrite <- E1; by apply not_elem_of_cons).
  assert (x ∉ b :: B) as HB.
  { rewrite <- E2. apply not_elem_of_app. split; [done|]. by apply not_elem_of_cons; split; [|apply not_elem_of_nil]. }
  apply not_elem_of_app in HA as [HA Ha]. apply not_elem_of_cons in HB as [Hb HB], Ha as [Ha _].
  repeat split; congruence.
Qed.

Ltac frame_links Hf :=
  apply Forall2_linked_frame; intros ? ?;
  rewrite ?(next_fields _ _), ?(prev_fields _ _), Hf; simpl; repeat case_decide; subst; done.

(** Any change that links [a - x - b] and nothing else inserts [x]. *)
Lemma dl_insert_gen m m' x : dl m h (l1 ++ l2) -> x ∉ h :: l1 ++ l2 ->
  (forall c, fields m' c =
    (if decide (c = a) then Some x else if decide (c = x) then Some b else next <$> m !! c,
     if decide (c = b) then Some x else if decide (c = x) then Some a else prev <$> m !! c)) ->
  dl m' h (l1 ++ x :: l2).
Proof using G.
  intros [Hn F] Hx Hf. destruct (gap_fresh Hn) as (Ha1 & Hb1 & Ha2 & Hb2).
  destruct (gap_outside x Hx) as (Hx1 & Hx2 & Hx3 & Hx4 & Hax & Hbx).
  apply (Forall2_gap _ _ _ _ _ _ _ _ G) in F as (F1 & _ & F3). split.
  { rewrite <- Permutation_middle, Permutation_swap. by apply NoDup_cons. }
  apply (Forall2_gap_node _ _ _ _ _ _ _ _ _ G). split; [|split; [|split]].
  - revert F1. frame_links Hf.
  - split; rewrite ?next_fields, ?prev_fields, Hf; simpl; repeat case_decide; congruence.
  - split; rewrite ?next_fields, ?prev_fields, Hf; simpl; repeat case_decide; congruence.
  - revert F3. frame_links Hf.
Qed.

(** Any change that links [a - b] and nothing else deletes what was between. *)
Lemma dl_delete_gen m m' x : dl m h (l1 ++ x :: l2) ->
  (forall c, fields m' c =
    (if decide (c = a) then Some b else next <$> m !! c,
     if decide (c = b) then Some a else prev <$> m !! c)) ->
  dl m' h (l1 ++ l2).
Proof using G.
  intros [Hn F] Hf.
  assert (NoDup (h :: l1 ++ l2)) as Hn'.
  { rewrite <- Permutation_middle, Permutation_swap in Hn. by apply NoDup_cons in Hn as [_ Hn]. }
  destruct (gap_fresh Hn') as (Ha1 & Hb1 & Ha2 & Hb2).
  apply (Forall2_gap_node _ _ _ _ _ _ _ _ _ G) in F as (F1 & _ & _ & F3).
  split; [done|]. apply (Forall2_gap _ _ _ _ _ _ _ _ G). split; [|split].
  - revert F1. frame_links Hf.
  - split; rewrite ?next_fields, ?prev_fields, Hf; simpl; repeat case_decide; congruence.
  - revert F3. frame_links Hf.
Qed.
End Gap.

Lemma dl_prev_head m h l k A a b B : gap h l [] A a b B -> dl m h l -> m !! h = Some k -> prev k = a /\ b = h.
Proof.
  intros Gp [_ F] E. rewrite <- (app_nil_r l) in F.
  apply (Forall2_gap _ _ _ _ _ _ _ _ Gp) in F as (_ & [_ Hp] & _).
  destruct Gp as [_ E2]. simplify_list_eq. rewrite E in Hp. simpl in Hp. by simplify_eq.
Qed.

(** Inserting before the head appends; nothing outside the list and the new
    node changes. *)
Lemma list_add_spec m h l x : dl m h l -> x ∉ h :: l -> is_Some (m !! x) ->
  exists m', list_add x h m = Some m' /\ dl m' h (l ++ [x]) /\
    (forall c, c ∉ x :: h :: l -> fields m' c = fields m c) /\ dom m' = dom m.
Proof.
  intros D Hx Sx. destruct (dl_mem _ _ _ h D ltac:(set_solver)) as [k Ek].
  destruct (gap_exists h l []) as (A & a & b & B & Gp).
  destruct (dl_prev_head _ _ _ _ _ _ _ _ Gp D Ek) as [Hk ->].
  destruct (gap_mem _ _ _ _ _ _ _ Gp) as [Ma _]. rewrite app_nil_r in Ma.
  unfold list_add. rewrite Ek; simpl. rewrite Hk.
  destruct (set_next_ok x h m Sx) as [m1 E1]. rewrite E1; simpl.
  destruct (set_prev_ok x a m1) as [m2 E2].
  { apply next_is_Some. rewrite (next_set_next _ _ _ _ _ E1). case_decide; [done|by apply next_is_Some]. }
  rewrite E2; simpl. destruct (set_next_ok a x m2) as [m3 E3].
  { apply prev_is_Some. rewrite (prev_set_prev _ _ _ _ _ E2). case_decide; [done|].
    rewrite (prev_set_next _ _ _ _ _ E1). apply prev_is_Some, (dl_mem _ _ _ _ D Ma). }
  rewrite E3; simpl. destruct (set_prev_ok h x m3) as [m4 E4].
  { apply next_is_Some. rewrite (next_set_next _ _ _ _ _ E3). case_decide; [done|].
    rewrite (next_set_prev _ _ _ _ _ E2), (next_set_next _ _ _ _ _ E1). case_decide; [done|].
    rewrite Ek. done. }
  exists m4. split; [done|].
  assert (forall c, fields m4 c =
    (if decide (c = a) then Some x else if decide (c = x) then Some h else next <$> m !! c,
     if decide (c = h) then Some x else if decide (c = x) then Some a else prev <$> m !! c)) as Hf.
  { intros c. rewrite (set_prev_fields _ _ _ _ _ E4), (next_set_next _ _ _ _ _ E3),
      (prev_set_next _ _ _ _ _ E3), (next_set_prev _ _ _ _ _ E2), (prev_set_prev _ _ _ _ _ E2),
      (next_set_next _ _ _ _ _ E1), (prev_set_next _ _ _ _ _ E1). done. }
  split; [|split].
  - apply (dl_insert_gen _ _ _ _ _ _ _ Gp m m4 x); [by rewrite app_nil_r|by rewrite app_nil_r|done].
  - intros c Hc. rewrite Hf. unfold fields. repeat case_decide; subst; try done; set_solver.
  - apply set_eq; intros c. rewrite !elem_of_dom.
    rewrite (next_is_Some m4), (next_is_Some m). change (next <$> m4 !! c) with (fields m4 c).1.
    rewrite Hf; simpl. repeat case_decide; subst; [|split|done].
    + split; [intros _|done]. apply next_is_Some, (dl_mem _ _ _ _ D Ma).
    + intros _. by apply next_is_Some.
    + done.
Qed.

(** Deleting a member removes it from the sequence; its own links stay. *)
Lemma list_del_spec m h l1 x l2 : dl m h (l1 ++ x :: l2) ->
  exists m', list_del x m = Some m' /\ dl m' h (l1 ++ l2) /\
    (forall c, c ∉ h :: l1 ++ l2 -> fields m' c = fields m c) /\ dom m' = dom m.
Proof.
  intros D. destruct (gap_exists h l1 l2) as (A & a & b & B & Gp).
  pose proof D as [_ F].
  apply (Forall2_gap_node _ _ _ _ _ _ _ _ _ Gp) in F as (_ & [Fa Fa'] & [Fb Fb'] & _).
  destruct (dl_mem _ _ _ x D ltac:(set_solver)) as [k Ek].
  rewrite Ek in Fa', Fb; simpl in Fa', Fb. apply Some_inj in Fa', Fb.
  unfold list_del. rewrite Ek; simpl. rewrite Fa', Fb.
  destruct (set_next_ok a b m) as [m1 E1]; [apply next_is_Some; by rewrite Fa|].
  rewrite E1; simpl. destruct (set_prev_ok b a m1) as [m2 E2].
  { apply prev_is_Some. rewrite (prev_set_next _ _ _ _ _ E1). by rewrite Fb'. }
  exists m2. split; [done|].
  assert (forall c, fields m2 c =
    (if decide (c = a) then Some b else next <$> m !! c,
     if decide (c = b) then Some a else prev <$> m !! c)) as Hf.
  { intros c. by rewrite (set_prev_fields _ _ _ _ _ E2), (next_set_next _ _ _ _ _ E1),
      (prev_set_next _ _ _ _ _ E1). }
  destruct (gap_mem _ _ _ _ _ _ _ Gp) as [Ma Mb]. split; [|split].
  - by apply (dl_delete_gen _ _ _ _ _ _ _ Gp m m2 x).
  - intros c Hc. rewrite Hf. unfold fields. repeat case_decide; subst; done.
  - apply set_eq; intros c. rewrite !elem_of_dom.
    rewrite (next_is_Some m2), (next_is_Some m). change (next <$> m2 !! c) with (fields m2 c).1.
    rewrite Hf; simpl. case_decide; subst; [|done]. by rewrite Fa.
Qed.

Lemma dl_next m h l1 x l2 : dl m h (l1 ++ x :: l2) ->
  x <> h /\ exists k, m !! x = Some k /\ head (l2 ++ [h]) = Some (next k).
Proof.
  intros D. destruct (gap_exists h l1 l2) as (A & a & b & B & Gp). pose proof D as [Hn F]. split.
  { intros ->. apply NoDup_cons in Hn as [Hn _]. apply Hn, elem_of_app. right. by left. }
  apply (Forall2_gap_node _ _ _ _ _ _ _ _ _ Gp) in F as (_ & _ & [Fb _] & _).
  destruct Gp as [_ ->]. destruct (m !! x) as [k|]; [|done]. exists k. split; [done|].
  simpl in *. congruence.
Qed.

(** The loops over a list visit exactly its sequence. *)
Lemma walk_spec m h l1 x l2 fuel : dl m h (l1 ++ x :: l2) -> (length l2 + 1 < fuel)%nat ->
  walk fuel m h x = Some (x :: l2).
Proof.
  revert l1 x fuel. induction l2 as [|y l2 IH]; intros l1 x fuel D Hf;
    (destruct fuel as [|fuel]; [simpl in Hf; lia|]);
    destruct (dl_next _ _ _ _ _ D) as (Hx & k & Ek & Hk); simpl in Hk; injection Hk as Hk;
    cbn [walk]; (destruct (Z.eqb_spec x h); [done|]); rewrite Ek; simpl; rewrite <- Hk.
  - destruct fuel as [|fuel]; [simpl in Hf; lia|]. cbn [walk]. by rewrite Z.eqb_refl.
  - rewrite (IH (l1 ++ [x]) y fuel); [done| |simpl in Hf; lia]. by rewrite <- app_assoc.
Qed.

Lemma dl_size m h l : dl m h l -> (length l < size m)%nat.
Proof.
  intros D. pose proof D as [Hn _]. rewrite <- size_dom.
  assert (list_to_set (h :: l) ⊆ (dom m : gset Z)) as Hs.
  { intros c Hc. apply elem_of_list_to_set in Hc. apply elem_of_dom. by apply (dl_mem _ _ _ _ D). }
  apply subseteq_size in Hs. rewrite size_list_to_set in Hs by done. simpl in Hs. lia.
Qed.

Lemma list_nodes_spec m h l : dl m h l -> list_nodes m h = Some l.
Proof.
  intros D. pose proof D as [Hn F]. destruct (dl_mem _ _ _ h D ltac:(set_solver)) as [k Ek].
  unfold list_nodes. rewrite Ek. simpl. pose proof (dl_size _ _ _ D) as Hs.
  inversion F as [|? b ? bs [Fb _] _ E1 E2]; subst. rewrite Ek in Fb. simpl in Fb. apply Some_inj in Fb.
  rewrite Fb. destruct l as [|x l]; simplify_list_eq; [by rewrite Z.eqb_refl|].
  apply (walk_spec m h [] (next k) l (S (size m)) D). simpl in Hs. lia.
Qed.
#[export] Hint Resolve dl_init dl_mem : f3.
