(* ===== verification/NodeTable.v ===== *)
(** * The hash tables of the high-level library: fuse.c

    The node table of fuse.c is two hash tables over the same nodes, by number
    and by name.  Both grow and shrink by linear hashing: one bucket is split or
    merged at a time, and [split] separates the buckets that have been split
    from those that have not.  The code is written out twice in fuse.c, with
    different hash functions and link fields; here it is written once, over the
    raw hash of a node, and instantiated twice.

    A chain is the list of the nodes reached through [id_next] or [name_next].
    [tbl_ok g t S] says that the table [t] holds exactly the nodes [S]; the
    theorems say that insertion, removal, splitting and merging change [S] as
    they should, and that a search of one bucket finds every node. *)

From S2P Require Import Prelude.

(** ** The table *)

Definition NODE_TABLE_MIN_SIZE : Z := 8192.

(** [struct node_table]; an empty chain is a NULL pointer. *)
Record node_table := NodeTab { array : list (list Z); use : Z; tsize : Z; split : Z }.

Definition with_array (a : list (list Z)) (t : node_table) : node_table := NodeTab a (use t) (tsize t) (split t).
Definition with_use (n : Z) (t : node_table) : node_table := NodeTab (array t) n (tsize t) (split t).
Definition with_split (n : Z) (t : node_table) : node_table := NodeTab (array t) (use t) (tsize t) n.

(** The bucket of a raw hash: the second half of [id_hash] and [name_hash]. *)
Definition bucket (t : node_table) (raw : Z) : Z :=
  let hash := raw mod tsize t in
  let oldhash := hash mod (tsize t / 2) in
  if split t <=? oldhash then oldhash else hash.

(** [t->array[j]]; [None] is out of bounds. *)
Definition chain (t : node_table) (j : Z) : option (list Z) := array t !! Z.to_nat j.

Definition set_chain (j : Z) (l : list Z) (t : node_table) : node_table :=
  with_array (<[Z.to_nat j := l]> (array t)) t.

(** Put a node at the head of a chain. *)
Definition push (j p : Z) (t : node_table) : option node_table :=
  l ← chain t j; Some (set_chain j (p :: l) t).

(** [ok] is the outcome of [realloc]. *)
Definition node_table_reduce (ok : bool) (t : node_table) : node_table :=
  let newsize := tsize t / 2 in
  if newsize <? NODE_TABLE_MIN_SIZE then t else
  NodeTab (if ok then take (Z.to_nat newsize) (array t) else array t) (use t) newsize (newsize / 2).

Definition node_table_resize (ok : bool) (t : node_table) : node_table :=
  if negb ok then t else
  NodeTab (take (Z.to_nat (tsize t)) (array t) ++ replicate (Z.to_nat (tsize t)) []) (use t) (tsize t * 2) 0.

(** At most [iter] buckets are merged back, up to the first that has nodes. *)
Fixpoint remerge_loop (iter : nat) (t : node_table) : option node_table :=
  match iter with
  | O => Some t
  | S iter =>
      if split t <=? 0 then Some t else
      let t := with_split (split t - 1) t in
      upper ← chain t (split t + tsize t / 2);
      if bool_decide (upper = []) then remerge_loop iter t else
      lower ← chain t (split t);
      Some (set_chain (split t + tsize t / 2) [] (set_chain (split t) (lower ++ upper) t))
  end.

Definition remerge (ok : bool) (t : node_table) : option node_table :=
  remerge_loop 8 (if split t =? 0 then node_table_reduce ok t else t).

(** Take the first occurrence of [p] out of a list. *)
Fixpoint unlink (p : Z) (l : list Z) : option (list Z) :=
  match l with
  | [] => None
  | x :: l => if x =? p then Some l else cons x <$> unlink p l
  end.

(** Take [p] out of its chain; [None] of the result if it is not there. *)
Definition unhash (ok : bool) (raw p : Z) (t : node_table) : option (option node_table) :=
  l ← chain t (bucket t raw);
  match unlink p l with
  | None => Some None
  | Some l' =>
      let t := with_use (u64 (use t - 1)) (set_chain (bucket t raw) l' t) in
      if use t <? tsize t / 4 then Some <$> remerge ok t else Some (Some t)
  end.

(** The nodes of the chain [hash] that belong to another bucket move to its
    head; the others, in their order, are returned. *)
Fixpoint rehash_loop (raw : Z -> option Z) (hash : Z) (l : list Z) (t : node_table)
    : option (list Z * node_table) :=
  match l with
  | [] => Some ([], t)
  | p :: l =>
      h ← raw p;
      let newhash := bucket t h in
      if negb (newhash =? hash) then
        t ← push newhash p t; rehash_loop raw hash l t
      else
        r ← rehash_loop raw hash l t; Some (p :: r.1, r.2)
  end.

Definition rehash (ok : bool) (raw : Z -> option Z) (t : node_table) : option node_table :=
  if split t =? tsize t / 2 then Some t else
  let hash := split t in
  let t := with_split (split t + 1) t in
  l ← chain t hash;
  r ← rehash_loop raw hash l t;
  let t := set_chain hash r.1 r.2 in
  Some (if split t =? tsize t / 2 then node_table_resize ok t else t).

Definition hash (ok : bool) (raw : Z -> option Z) (h p : Z) (t : node_table) : option node_table :=
  t ← push (bucket t h) p t;
  let t := with_use (u64 (use t + 1)) t in
  if tsize t / 2 <=? use t then rehash ok raw t else Some t.

(** The first node of the bucket of [h] that satisfies [test]. *)
Fixpoint find_chain (test : Z -> option bool) (l : list Z) : option (option Z) :=
  match l with
  | [] => Some None
  | p :: l => b ← test p; if (b : bool) then Some (Some p) else find_chain test l
  end.

Definition find (test : Z -> option bool) (h : Z) (t : node_table) : option (option Z) :=
  l ← chain t (bucket t h); find_chain test l.

(** [ok] is the outcome of [calloc]; [None] is -1. *)
Definition node_table_init (ok : bool) : option node_table :=
  if negb ok then None else
  Some (NodeTab (replicate (Z.to_nat NODE_TABLE_MIN_SIZE) []) 0 NODE_TABLE_MIN_SIZE 0).

(** *** The two hash functions *)

Definition id_raw (ino : Z) : Z := u32 (u32 ino * 2654435761).

Definition name_raw (parent : Z) (name : bytes) : Z :=
  fold_left (fun hash c => u64 (hash * 31 + c)) name parent.

Definition id_hash (t : node_table) (ino : Z) : Z := bucket t (id_raw ino).

Definition name_hash (t : node_table) (parent : Z) (name : bytes) : Z := bucket t (name_raw parent name).

(** *** The tables by number and by name

    [nodeid_of] and [key_of] read the number of a node, and the number of its
    parent with its name; [None] is a node that is not there. *)

Definition get_node_nocheck (nodeid_of : Z -> option Z) (t : node_table) (nodeid : Z) : option (option Z) :=
  find (fun p => n ← nodeid_of p; Some (n =? nodeid)) (id_raw nodeid) t.

(** [None] is also the [abort] of an unknown number. *)
Definition get_node (nodeid_of : Z -> option Z) (t : node_table) (nodeid : Z) : option Z :=
  mjoin (get_node_nocheck nodeid_of t nodeid).

Definition lookup_node (key_of : Z -> option (Z * bytes)) (t : node_table) (parent : Z) (name : bytes)
    : option (option Z) :=
  find (fun p => k ← key_of p; Some ((k.1 =? parent) && streq k.2 name)) (name_raw parent name) t.

Definition remerge_id := remerge.
Definition remerge_name := remerge.

Definition rehash_id (ok : bool) (nodeid_of : Z -> option Z) : node_table -> option node_table :=
  rehash ok (fun p => n ← nodeid_of p; Some (id_raw n)).

Definition rehash_name (ok : bool) (key_of : Z -> option (Z * bytes)) : node_table -> option node_table :=
  rehash ok (fun p => k ← key_of p; Some (name_raw k.1 k.2)).

Definition hash_id (ok : bool) (nodeid_of : Z -> option Z) (node : Z) (t : node_table) : option node_table :=
  n ← nodeid_of node; hash ok (fun p => n ← nodeid_of p; Some (id_raw n)) (id_raw n) node t.

(** A node that is not in its chain is left alone. *)
Definition unhash_id (ok : bool) (nodeid_of : Z -> option Z) (node : Z) (t : node_table) : option node_table :=
  n ← nodeid_of node; r ← unhash ok (id_raw n) node t; Some (default t r).

(** ** Buckets *)

(** The sizes a table can have. *)
Definition good_size (n : Z) : Prop := exists k : nat, n = NODE_TABLE_MIN_SIZE * 2 ^ Z.of_nat k.

Lemma good_size_half n : good_size n -> 0 < n / 2 /\ n = 2 * (n / 2) /\
  (NODE_TABLE_MIN_SIZE <= n / 2 -> good_size (n / 2) /\ 0 < n / 2 / 2 /\ n / 2 = 2 * (n / 2 / 2)).
Proof.
  intros [k ->]. unfold NODE_TABLE_MIN_SIZE. assert (0 < 2 ^ Z.of_nat k) by (apply Z.pow_pos_nonneg; lia).
  replace (8192 * 2 ^ Z.of_nat k / 2) with (4096 * 2 ^ Z.of_nat k)
    by (replace (8192 * 2 ^ Z.of_nat k) with (4096 * 2 ^ Z.of_nat k * 2) by lia; by rewrite Z.div_mul).
  split; [lia|]. split; [lia|]. intros Hm. destruct k as [|k]; [simpl in Hm; lia|].
  rewrite Nat2Z.inj_succ, Z.pow_succ_r in * by lia. set (x := 2 ^ Z.of_nat k) in *.
  replace (4096 * (2 * x)) with (4096 * x * 2) by lia. rewrite Z.div_mul by lia.
  split; [exists k; unfold NODE_TABLE_MIN_SIZE; lia|]. lia.
Qed.

Lemma good_size_double n : good_size n -> good_size (n * 2).
Proof. intros [k ->]. exists (S k). rewrite Nat2Z.inj_succ, Z.pow_succ_r by lia. lia. Qed.

Lemma mod_half h n m : 0 < m -> n = 2 * m -> (h mod n) mod m = h mod m.
Proof.
  intros Hm ->. rewrite Z.mul_comm, Z.rem_mul_r by lia. rewrite Z.mul_comm, Z_mod_plus_full. by rewrite Z.mod_mod by lia.
Qed.

(** The shape of a table: everything but the chains. *)
Definition shape_ok (t : node_table) : Prop :=
  good_size (tsize t) /\ 0 <= split t <= tsize t / 2 /\ tsize t <= Z.of_nat (length (array t)).

(** A bucket by cases: not split yet, or one of the two halves. *)
Lemma bucket_cases t h : shape_ok t ->
  let m := tsize t / 2 in
  split t <= h mod m /\ bucket t h = h mod m \/
  h mod m < split t /\ bucket t h = h mod tsize t /\ (h mod tsize t = h mod m \/ h mod tsize t = h mod m + m).
Proof.
  intros (Hg & Hs & _) m. destruct (good_size_half _ Hg) as (Hm & Hn & _). fold m in Hm, Hn.
  unfold bucket. fold m. rewrite (mod_half h (tsize t) m) by done.
  destruct (Z.leb_spec (split t) (h mod m)); [by left|]. right. split; [done|]. split; [done|].
  pose proof (Z.mod_pos_bound h (tsize t) ltac:(lia)) as Hb.
  rewrite <- (mod_half h (tsize t) m) by done.
  destruct (Z.lt_ge_cases (h mod tsize t) m).
  - left. by rewrite (Z.mod_small (h mod tsize t) m) by lia.
  - right. rewrite <- (Z.mod_unique (h mod tsize t) m 1 (h mod tsize t - m)) by lia. lia.
Qed.

Lemma bucket_range t h : shape_ok t -> 0 <= bucket t h < tsize t / 2 + split t.
Proof.
  intros Hs. pose proof (bucket_cases t h Hs) as Hc. cbv zeta in Hc. destruct Hs as (Hg & Hs & _).
  destruct (good_size_half _ Hg) as (Hm & Hn & _).
  pose proof (Z.mod_pos_bound h (tsize t / 2) ltac:(lia)).
  destruct Hc as [[? ->]|(? & -> & [->| ->])]; lia.
Qed.

Lemma bucket_chain t h : shape_ok t -> exists l, chain t (bucket t h) = Some l.
Proof.
  intros Hs. pose proof (bucket_range t h Hs). destruct Hs as (Hg & Hs & Hl).
  destruct (good_size_half _ Hg) as (_ & Hn & _).
  destruct (lookup_lt_is_Some_2 (array t) (Z.to_nat (bucket t h))) as [l E]; [lia|]. by exists l.
Qed.

(** Splitting one more bucket moves only nodes of that bucket, and only to the
    new one. *)
Lemma bucket_split t h : shape_ok t -> split t < tsize t / 2 ->
  let t' := with_split (split t + 1) t in
  (bucket t h <> split t -> bucket t' h = bucket t h) /\
  (bucket t h = split t -> bucket t' h = split t \/ bucket t' h = split t + tsize t / 2).
Proof.
  intros Hs Hlt t'. assert (shape_ok t') as Hs' by (destruct Hs as (? & ? & ?); split; [done|]; cbn; lia).
  pose proof (bucket_cases t h Hs) as Hc. pose proof (bucket_cases t' h Hs') as Hc'.
  cbv zeta in Hc, Hc'. cbn [tsize split t' with_split] in Hc'.
  destruct Hc as [[? ?]|(? & ? & [?|?])], Hc' as [[? ?]|(? & ? & [?|?])]; split; intros; lia.
Qed.

(** Doubling a table whose buckets are all split changes no bucket. *)
Lemma bucket_double t h a : shape_ok t -> split t = tsize t / 2 ->
  bucket (NodeTab a (use t) (tsize t * 2) 0) h = bucket t h.
Proof.
  intros Hs Hsp. pose proof (bucket_cases t h Hs) as Hc. cbv zeta in Hc.
  destruct Hs as (Hg & _). destruct (good_size_half _ Hg) as (Hm & Hn & _).
  pose proof (Z.mod_pos_bound h (tsize t / 2) ltac:(lia)).
  unfold bucket at 1. cbn [tsize split]. rewrite Z.div_mul by lia.
  rewrite (mod_half h (tsize t * 2) (tsize t)) by lia.
  pose proof (Z.mod_pos_bound h (tsize t) ltac:(lia)). destruct (Z.leb_spec 0 (h mod tsize t)); [|lia].
  destruct Hc as [[? ?]|(_ & -> & _)]; [lia|done].
Qed.

(** Halving one whose buckets are all merged does not either. *)
Lemma bucket_halve t h a : shape_ok t -> split t = 0 -> NODE_TABLE_MIN_SIZE <= tsize t / 2 ->
  bucket (NodeTab a (use t) (tsize t / 2) (tsize t / 2 / 2)) h = bucket t h.
Proof.
  intros Hs Hsp Hmin. pose proof (bucket_cases t h Hs) as Hc. cbv zeta in Hc.
  destruct Hs as (Hg & _). destruct (good_size_half _ Hg) as (Hm & Hn & Hh). destruct (Hh Hmin) as (_ & Hq & Hhq).
  pose proof (Z.mod_pos_bound h (tsize t / 2) ltac:(lia)).
  unfold bucket at 1. cbn [tsize split]. rewrite (mod_half h (tsize t / 2) (tsize t / 2 / 2)) by lia.
  pose proof (Z.mod_pos_bound h (tsize t / 2 / 2) ltac:(lia)).
  destruct (Z.leb_spec (tsize t / 2 / 2) (h mod (tsize t / 2 / 2))); [lia|].
  destruct Hc as [[_ ->]|(? & _)]; [done|lia].
Qed.

(** ** What a table holds *)

(** Every node of [S] is in the chain of its bucket, once, and nothing else is
    in any chain; [g] is the raw hash. *)
Record chains_ok (g : Z -> Z) (t : node_table) (S : gset Z) : Prop := {
  ok_mem : forall j l p, array t !! j = Some l -> p ∈ l -> p ∈ S /\ bucket t (g p) = Z.of_nat j;
  ok_nodup : forall j l, array t !! j = Some l -> NoDup l;
  ok_has : forall p, p ∈ S -> exists l, chain t (bucket t (g p)) = Some l /\ p ∈ l }.

Definition tbl_ok (g : Z -> Z) (t : node_table) (S : gset Z) : Prop :=
  shape_ok t /\ chains_ok g t S /\ use t = Z.of_nat (size S) /\ Z.of_nat (size S) < 2 ^ 63.

Lemma shape_set_chain j l t : shape_ok t -> shape_ok (set_chain j l t).
Proof. intros (? & ? & ?). split; [done|]. split; [done|]. cbn. by rewrite length_insert. Qed.

Lemma chain_set t j l j' : 0 <= j -> 0 <= j' -> is_Some (chain t j) ->
  chain (set_chain j l t) j' = if decide (j' = j) then Some l else chain t j'.
Proof.
  unfold chain, set_chain. cbn. intros Hj Hj' Hc%lookup_lt_is_Some_1. case_decide as E.
  - subst. by apply list_lookup_insert_eq.
  - apply list_lookup_insert_ne. lia.
Qed.

(** A member, found from its bucket. *)
Lemma mem_bucket g t S p l : chains_ok g t S -> p ∈ S -> chain t (bucket t (g p)) = Some l -> p ∈ l.
Proof. intros Hc Hp E. destruct (ok_has _ _ _ Hc p Hp) as (l' & E' & Hl). congruence. Qed.

(** Chains and positions may be compared bucket by bucket. *)
Lemma chains_ext g t t' S : chains_ok g t S -> (forall p, p ∈ S -> bucket t' (g p) = bucket t (g p)) ->
  (forall j l, array t' !! j = Some l -> l = [] \/ array t !! j = Some l) ->
  (forall p l, p ∈ S -> chain t (bucket t (g p)) = Some l -> chain t' (bucket t (g p)) = Some l) ->
  chains_ok g t' S.
Proof.
  intros Hc Hb Ha Hk. split.
  - intros j l p Hl Hp. destruct (Ha j l Hl) as [->|Hl']; [by apply not_elem_of_nil in Hp|].
    destruct (ok_mem _ _ _ Hc j l p Hl' Hp) as [HS E]. split; [done|]. by rewrite Hb.
  - intros j l Hl. destruct (Ha j l Hl) as [->|Hl']; [constructor|by apply (ok_nodup _ _ _ Hc j)].
  - intros p Hp. destruct (ok_has _ _ _ Hc p Hp) as (l & E & Hl). exists l. rewrite Hb by done. eauto.
Qed.

Lemma resize_ok ok g t S : shape_ok t -> chains_ok g t S -> split t = tsize t / 2 ->
  shape_ok (node_table_resize ok t) /\ chains_ok g (node_table_resize ok t) S.
Proof.
  intros Hs Hc Hsp. unfold node_table_resize. destruct ok; cbn [negb]; [|done].
  pose proof Hs as (Hg & _ & Hl). destruct (good_size_half _ Hg) as (Hm & Hn & _). split.
  - split; [by apply good_size_double|]. cbn. rewrite length_app, length_take, length_replicate. split; [|lia].
    split; [done|]. apply Z.div_pos; lia.
  - apply (chains_ext g t); [done| | |].
    + intros p _. by apply bucket_double.
    + intros j l. cbn. rewrite lookup_app_Some, lookup_take_Some, lookup_replicate. naive_solver.
    + intros p l _ E. pose proof (bucket_range t (g p) Hs). unfold chain in *. cbn.
      rewrite lookup_app_l; [rewrite lookup_take_lt by lia; done|].
      rewrite length_take. lia.
Qed.

Lemma reduce_ok ok g t S : shape_ok t -> chains_ok g t S -> split t = 0 ->
  shape_ok (node_table_reduce ok t) /\ chains_ok g (node_table_reduce ok t) S.
Proof.
  intros Hs Hc Hsp. unfold node_table_reduce. destruct (Z.ltb_spec (tsize t / 2) NODE_TABLE_MIN_SIZE) as [|Hmin]; [done|].
  pose proof Hs as (Hg & _ & Hl). destruct (good_size_half _ Hg) as (Hm & Hn & Hh). destruct (Hh Hmin) as (Hg2 & Hq & Hhq).
  split.
  - split; [done|]. cbn [tsize split array]. split; [lia|]. destruct ok; [rewrite length_take|]; lia.
  - apply (chains_ext g t); [done| | |].
    + intros p _. by apply bucket_halve.
    + intros j l. cbn [array]. destruct ok; [|by right]. rewrite lookup_take_Some. naive_solver.
    + intros p l _ E. pose proof (bucket_range t (g p) Hs). unfold chain in *. cbn [array]. destruct ok; [|done].
      rewrite lookup_take_lt by lia. done.
Qed.

Lemma push_ok g t S p : shape_ok t -> chains_ok g t S -> p ∉ S ->
  exists t', push (bucket t (g p)) p t = Some t' /\ shape_ok t' /\ chains_ok g t' ({[p]} ∪ S) /\
    use t' = use t /\ tsize t' = tsize t /\ split t' = split t.
Proof.
  intros Hs Hc Hp. destruct (bucket_chain t (g p) Hs) as [l El]. pose proof (bucket_range t (g p) Hs) as Hr.
  exists (set_chain (bucket t (g p)) (p :: l) t). split; [unfold push; by rewrite El|].
  split; [by apply shape_set_chain|]. split; [|done]. split.
  - intros j lj x Hj Hx. cbn in Hj. apply list_lookup_insert_Some in Hj as [(<- & <- & _)|[Hne Hj]].
    + apply elem_of_cons in Hx as [->|Hx].
      * split; [set_solver|]. change (bucket _ (g p)) with (bucket t (g p)). lia.
      * destruct (ok_mem _ _ _ Hc _ l x El Hx) as [HS E]. split; [set_solver|]. exact E.
    + destruct (ok_mem _ _ _ Hc _ _ x Hj Hx) as [HS E]. split; [set_solver|exact E].
  - intros j lj Hj. cbn in Hj. apply list_lookup_insert_Some in Hj as [(<- & <- & _)|[Hne Hj]].
    + constructor; [|by apply (ok_nodup _ _ _ Hc _ l El)]. intros Hx. by apply Hp, (ok_mem _ _ _ Hc _ l p El Hx).
    + by apply (ok_nodup _ _ _ Hc j).
  - intros x Hx. change (bucket (set_chain _ _ t) (g x)) with (bucket t (g x)).
    pose proof (bucket_range t (g x) Hs). rewrite chain_set by (lia || done).
    case_decide as E.
    + exists (p :: l). split; [done|]. apply elem_of_union in Hx as [->%elem_of_singleton|Hx]; [by left|right].
      apply (mem_bucket g t S x l); [done|done|by rewrite E].
    + apply elem_of_union in Hx as [->%elem_of_singleton|Hx]; [done|]. by apply (ok_has _ _ _ Hc).
Qed.

(** *** Splitting *)

(** Where the nodes of a chain go, exactly. *)
Lemma rehash_loop_spec raw g hash l t : shape_ok t -> (forall p, p ∈ l -> raw p = Some (g p)) -> 0 <= hash ->
  exists t', rehash_loop raw hash l t = Some (filter (fun p => bucket t (g p) = hash) l, t') /\
    use t' = use t /\ tsize t' = tsize t /\ split t' = split t /\ length (array t') = length (array t) /\
    forall j, array t' !! j =
      (fun c => reverse (filter (fun p => bucket t (g p) <> hash /\ bucket t (g p) = Z.of_nat j) l) ++ c) <$> array t !! j.
Proof.
  intros Hs Hraw Hh. revert t Hs. induction l as [|p l IH]; intros t Hs; cbn [rehash_loop].
  { exists t. repeat split; try done. intros j. by destruct (array t !! j). }
  rewrite (Hraw p) by by left. cbn [mbind option_bind]. pose proof (bucket_range t (g p) Hs) as Hr.
  destruct (Z.eqb_spec (bucket t (g p)) hash) as [E|E]; cbn [negb].
  - destruct (IH (fun x Hx => Hraw x (list_elem_of_further _ _ _ Hx)) t Hs) as (t' & -> & Hu & Hz & Hp & Hl & Ha).
    exists t'. cbn [mbind option_bind fst snd]. rewrite filter_cons_True by done. repeat split; try done.
    intros j. rewrite Ha. rewrite filter_cons_False by tauto. done.
  - destruct (bucket_chain t (g p) Hs) as [c Ec]. unfold push. rewrite Ec. cbn [mbind option_bind].
    set (t1 := set_chain _ _ t).
    destruct (IH (fun x Hx => Hraw x (list_elem_of_further _ _ _ Hx)) t1) as (t' & -> & Hu & Hz & Hp & Hl & Ha);
      [by apply shape_set_chain|].
    exists t'. rewrite filter_cons_False by done. repeat split; try done; [rewrite Hl; cbn; apply length_insert|].
    intros j. rewrite Ha. change (bucket t1) with (bucket t). cbn [array t1 set_chain with_array].
    destruct (decide (Z.of_nat j = bucket t (g p))) as [Ej|Ej].
    + assert (j = Z.to_nat (bucket t (g p))) as -> by lia. unfold chain in Ec.
      rewrite list_lookup_insert_eq by (by eapply lookup_lt_Some). rewrite Ec. cbn [fmap option_fmap option_map].
      rewrite filter_cons_True by lia. rewrite reverse_cons, <- app_assoc. done.
    + rewrite list_lookup_insert_ne by lia. rewrite filter_cons_False by lia. done.
Qed.

(** The chains after a bucket [l] has been split into [kept] and the rest. *)
Lemma split_chains g t S l t3 : shape_ok t -> chains_ok g t S -> 0 <= split t < tsize t / 2 ->
  chain t (split t) = Some l ->
  let t1 := with_split (split t + 1) t in
  (forall h, bucket t3 h = bucket t1 h) ->
  array t3 !! Z.to_nat (split t) = Some (filter (fun p => bucket t1 (g p) = split t) l) ->
  (forall j, Z.of_nat j <> split t -> array t3 !! j =
     (fun c => reverse (filter (fun p => bucket t1 (g p) <> split t /\ bucket t1 (g p) = Z.of_nat j) l) ++ c)
       <$> array t !! j) ->
  chains_ok g t3 S.
Proof.
  intros Hs Hc [H0 Hlt] El t1 Hb3 Hkept Ha.
  assert (shape_ok t1) as Hs1 by (destruct Hs as (? & ? & ?); split; [done|]; cbn; lia).
  assert (forall p, p ∈ l -> p ∈ S /\ bucket t (g p) = split t) as Hl.
  { intros p Hp. destruct (ok_mem _ _ _ Hc _ l p El Hp) as [HS E]. split; [done|]. lia. }
  assert (forall p, bucket t (g p) <> split t -> bucket t1 (g p) = bucket t (g p)) as Hb1.
  { intros p. by apply bucket_split. }
  assert (forall j lj, array t3 !! j = Some lj -> Z.of_nat j <> split t -> exists c, array t !! j = Some c /\
    lj = reverse (filter (fun p => bucket t1 (g p) <> split t /\ bucket t1 (g p) = Z.of_nat j) l) ++ c) as Hother.
  { intros j lj Hj Hne. rewrite Ha in Hj by done. apply fmap_Some in Hj as (c & Ec & ->). by exists c. }
  split.
  - intros j lj p Hj Hpj. rewrite Hb3. destruct (decide (Z.of_nat j = split t)) as [Ej|Ej].
    + replace j with (Z.to_nat (split t)) in Hj by lia. rewrite Hkept in Hj. injection Hj as <-.
      apply list_elem_of_filter in Hpj as [E Hpl]. split; [by apply Hl|]. by rewrite E.
    + destruct (Hother j lj Hj Ej) as (c & Ec & ->). apply elem_of_app in Hpj as [Hpj|Hpj].
      * apply elem_of_reverse, list_elem_of_filter in Hpj as [[_ E] Hpl]. split; [by apply Hl|done].
      * destruct (ok_mem _ _ _ Hc _ c p Ec Hpj) as [HS E]. split; [done|]. rewrite Hb1 by lia. done.
  - intros j lj Hj. destruct (decide (Z.of_nat j = split t)) as [Ej|Ej].
    + replace j with (Z.to_nat (split t)) in Hj by lia. rewrite Hkept in Hj. injection Hj as <-.
      by apply NoDup_filter, (ok_nodup _ _ _ Hc _ l El).
    + destruct (Hother j lj Hj Ej) as (c & Ec & ->). apply NoDup_app.
      split; [rewrite reverse_Permutation; by apply NoDup_filter, (ok_nodup _ _ _ Hc _ l El)|].
      split; [|by apply (ok_nodup _ _ _ Hc j)]. intros p Hpj Hpc.
      apply elem_of_reverse, list_elem_of_filter in Hpj as [_ Hpl].
      destruct (Hl p Hpl) as [_ E1]. destruct (ok_mem _ _ _ Hc _ c p Ec Hpc) as [_ E2]. lia.
  - intros p Hpp. rewrite Hb3. pose proof (bucket_range t1 (g p) Hs1) as Hr.
    destruct (ok_has _ _ _ Hc p Hpp) as (c0 & Ec0 & Hpc).
    destruct (decide (bucket t1 (g p) = split t)) as [E1|E1].
    + rewrite E1. eexists. split; [exact Hkept|]. apply list_elem_of_filter. split; [done|].
      destruct (decide (bucket t (g p) = split t)) as [E|E]; [rewrite E in Ec0; congruence|by rewrite Hb1 in E1].
    + destruct (bucket_chain t1 (g p) Hs1) as [c Ec]. eexists. split.
      * unfold chain in *. rewrite Ha by lia. cbn in Ec. rewrite Ec. reflexivity.
      * apply elem_of_app. destruct (decide (bucket t (g p) = split t)) as [E|E].
        -- left. apply elem_of_reverse, list_elem_of_filter. split; [split; [done|lia]|]. rewrite E in Ec0. congruence.
        -- right. rewrite Hb1 in Ec by done. change (chain t1) with (chain t) in Ec. congruence.
Qed.

Lemma rehash_ok ok raw g t S : shape_ok t -> chains_ok g t S -> (forall p, p ∈ S -> raw p = Some (g p)) ->
  exists t', rehash ok raw t = Some t' /\ shape_ok t' /\ chains_ok g t' S /\ use t' = use t.
Proof.
  intros Hs Hc Hraw. unfold rehash. destruct (Z.eqb_spec (split t) (tsize t / 2)) as [|Hne]; [by exists t|].
  assert (0 <= split t < tsize t / 2) as Hlt by (destruct Hs as (_ & ? & _); lia).
  set (t1 := with_split (split t + 1) t).
  assert (shape_ok t1) as Hs1 by (destruct Hs as (? & ? & ?); split; [done|]; cbn; lia).
  destruct (lookup_lt_is_Some_2 (array t) (Z.to_nat (split t))) as [l El].
  { destruct Hs as (Hg & _ & ?). destruct (good_size_half _ Hg). lia. }
  change (chain t1 (split t)) with (array t !! Z.to_nat (split t)). rewrite El. cbn [mbind option_bind].
  destruct (rehash_loop_spec raw g (split t) l t1 Hs1) as (t2 & -> & Hu & Hz & Hp & Hlen & Ha);
    [intros p Hp; by apply Hraw, (ok_mem _ _ _ Hc _ l p El)|lia|].
  cbn [mbind option_bind fst snd]. set (kept := filter _ l). set (t3 := set_chain (split t) kept t2).
  assert (shape_ok t3) as Hs3.
  { destruct Hs1 as (? & ? & ?). split; cbn; [by rewrite Hz|]. rewrite length_insert, Hz, Hp, Hlen. done. }
  assert (chains_ok g t3 S) as Hc3.
  { apply (split_chains g t S l); try done.
    - intros h. unfold bucket. cbn. by rewrite Hz, Hp.
    - cbn. apply list_lookup_insert_eq. rewrite Hlen. by eapply lookup_lt_Some.
    - intros j Hj. cbn. rewrite list_lookup_insert_ne by lia. apply Ha. }
  destruct (Z.eqb_spec (split t3) (tsize t3 / 2)) as [Ef|Ef].
  - destruct (resize_ok ok g t3 S Hs3 Hc3 Ef). eexists. split; [reflexivity|]. split; [done|]. split; [done|].
    destruct ok; [|done]. exact Hu.
  - eexists. split; [reflexivity|]. split; [done|]. split; [done|]. exact Hu.
Qed.

(** *** Merging *)

(** One step back: the bucket above goes to the end of the one below. *)
Lemma merge_ok g t S upper lower : shape_ok t -> chains_ok g t S -> 0 < split t ->
  let t1 := with_split (split t - 1) t in
  chain t1 (split t1 + tsize t1 / 2) = Some upper -> chain t1 (split t1) = Some lower ->
  let t2 := set_chain (split t1 + tsize t1 / 2) [] (set_chain (split t1) (lower ++ upper) t1) in
  shape_ok t2 /\ chains_ok g t2 S.
Proof.
  intros Hs Hc Hpos t1 Eu El t2. pose proof Hs as (Hg & Hsp & Hlen). destruct (good_size_half _ Hg) as (Hm & Hn & _).
  assert (shape_ok t1) as Hs1 by (split; [done|]; cbn; lia).
  assert (shape_ok t2) as Hs2 by (by do 2 apply shape_set_chain). split; [done|].
  set (a := split t1) in *. set (b := a + tsize t1 / 2) in *.
  assert (0 <= a /\ b = a + tsize t / 2 /\ a < tsize t / 2) as (Ha & Hb & Hab) by (cbn in *; lia).
  assert (forall h, bucket t2 h = bucket t1 h) as Hb2 by done.
  assert (forall h, (bucket t h <> b -> bucket t1 h = bucket t h) /\ (bucket t h = b -> bucket t1 h = a)) as Hmv.
  { intros h. destruct (bucket_split t1 h Hs1) as [B1 B2]; [cbn; lia|]. cbn [split with_split t1 tsize] in B1, B2.
    replace (split t - 1 + 1) with (split t) in B1, B2 by lia.
    assert (with_split (split t) t1 = t) as Et by (by destruct t). rewrite Et in B1, B2.
    pose proof (bucket_range t1 h Hs1) as Hr. cbn [split with_split t1 tsize] in Hr.
    change (split t - 1) with a in B1, B2, Hr. destruct (decide (bucket t1 h = a)) as [E|E]; [|rewrite (B1 E); split; [done|lia]].
    destruct (B2 E) as [E2|E2]; rewrite E2; split; intros; lia. }
  assert (forall j, 0 <= j -> chain t2 j = if decide (j = b) then Some [] else if decide (j = a) then Some (lower ++ upper) else chain t j) as Hch.
  { intros j Hj. unfold t2. rewrite chain_set; [|lia|done|].
    - case_decide; [done|]. rewrite chain_set; [done|done|done|by rewrite El].
    - rewrite chain_set by (lia || by rewrite El). case_decide; [done|by rewrite Eu]. }
  assert (forall j, array t2 !! j = chain t2 (Z.of_nat j)) as Hch' by (intros j; unfold chain; by rewrite Nat2Z.id).
  assert (forall p, p ∈ lower -> p ∈ S /\ bucket t (g p) = a) as Hlow.
  { intros p Hp. destruct (ok_mem _ _ _ Hc _ lower p El Hp). split; [done|lia]. }
  assert (forall p, p ∈ upper -> p ∈ S /\ bucket t (g p) = b) as Hup.
  { intros p Hp. destruct (ok_mem _ _ _ Hc _ upper p Eu Hp). split; [done|lia]. }
  split.
  - intros j l p Hj Hp. rewrite Hch', Hch in Hj by lia. rewrite Hb2. destruct (Hmv (g p)) as [M1 M2].
    case_decide; [injection Hj as <-; by apply not_elem_of_nil in Hp|]. case_decide as Ea.
    + injection Hj as <-. apply elem_of_app in Hp as [[HS E]%Hlow|[HS E]%Hup]; (split; [done|]); [rewrite M1; lia|rewrite M2; lia].
    + unfold chain in Hj. rewrite Nat2Z.id in Hj. destruct (ok_mem _ _ _ Hc _ l p Hj Hp) as [HS E]. split; [done|]. rewrite M1; lia.
  - intros j l Hj. rewrite Hch', Hch in Hj by lia.
    case_decide; [injection Hj as <-; constructor|]. case_decide.
    + injection Hj as <-. apply NoDup_app. split; [by apply (ok_nodup _ _ _ Hc _ _ El)|].
      split; [|by apply (ok_nodup _ _ _ Hc _ _ Eu)]. intros p [_ E1]%Hlow [_ E2]%Hup. lia.
    + unfold chain in Hj. by apply (ok_nodup _ _ _ Hc _ _ Hj).
  - intros p Hp. rewrite Hb2. destruct (Hmv (g p)) as [M1 M2]. pose proof (bucket_range t (g p) Hs).
    destruct (ok_has _ _ _ Hc p Hp) as (l & E & Hl).
    destruct (decide (bucket t (g p) = b)) as [Eb|Eb].
    + rewrite M2 by done. rewrite Hch by lia. rewrite decide_False by lia. rewrite decide_True by done.
      eexists. split; [done|]. apply elem_of_app. right. rewrite Eb in E. change (chain t b) with (chain t1 b) in E. congruence.
    + rewrite M1 by done. rewrite Hch by lia. rewrite decide_False by done. case_decide as Ea; [|by exists l].
      eexists. split; [done|]. apply elem_of_app. left. rewrite Ea in E. change (chain t a) with (chain t1 a) in E. congruence.
Qed.

Lemma remerge_loop_ok g iter t S : shape_ok t -> chains_ok g t S ->
  exists t', remerge_loop iter t = Some t' /\ shape_ok t' /\ chains_ok g t' S /\ use t' = use t.
Proof.
  revert t. induction iter as [|iter IH]; intros t Hs Hc; cbn [remerge_loop]; [by exists t|].
  destruct (Z.leb_spec (split t) 0) as [|Hpos]; [by exists t|]. pose proof Hs as (Hg & Hsp & Hlen).
  destruct (good_size_half _ Hg) as (Hm & Hn & _). set (t1 := with_split (split t - 1) t).
  assert (forall j, 0 <= j < tsize t -> exists l, chain t1 j = Some l) as Hin.
  { intros j Hj. apply lookup_lt_is_Some_2. cbn. lia. }
  destruct (Hin (split t1 + tsize t1 / 2)) as [upper Eu]; [cbn; lia|]. destruct (Hin (split t1)) as [lower El]; [cbn; lia|].
  destruct (merge_ok g t S upper lower Hs Hc Hpos Eu El) as [Hs2 Hc2]. fold t1 in Hs2, Hc2.
  rewrite Eu. cbn [mbind option_bind]. case_bool_decide as Eup.
  - subst upper. rewrite app_nil_r in *.
    assert (set_chain (split t1 + tsize t1 / 2) [] (set_chain (split t1) lower t1) = t1) as Et.
    { unfold set_chain, with_array. cbn. unfold chain in Eu, El. cbn in Eu, El. by rewrite (list_insert_id (array t) (Z.to_nat (split t - 1))), list_insert_id. }
    rewrite Et in Hs2, Hc2. exact (IH t1 Hs2 Hc2).
  - rewrite El. cbn [mbind option_bind]. by eexists.
Qed.

Lemma remerge_ok ok g t S : shape_ok t -> chains_ok g t S ->
  exists t', remerge ok t = Some t' /\ shape_ok t' /\ chains_ok g t' S /\ use t' = use t.
Proof.
  intros Hs Hc. unfold remerge. destruct (Z.eqb_spec (split t) 0) as [E|E]; [|by apply remerge_loop_ok].
  destruct (reduce_ok ok g t S Hs Hc E) as [Hs' Hc']. destruct (remerge_loop_ok g 8 _ S Hs' Hc') as (t' & E1 & H1 & H2 & H3).
  exists t'. split; [done|]. split; [done|]. split; [done|]. rewrite H3. unfold node_table_reduce. by destruct (_ <? _).
Qed.

(** ** The operations on what a table holds *)

Lemma unlink_spec p l : NoDup l -> p ∈ l ->
  exists l', unlink p l = Some l' /\ NoDup l' /\ forall x, x ∈ l' <-> x ∈ l /\ x <> p.
Proof.
  induction l as [|y l IH]; intros Hn Hp; [by apply not_elem_of_nil in Hp|]. apply NoDup_cons in Hn as [Hy Hn]. cbn.
  destruct (Z.eqb_spec y p) as [->|Hne].
  - exists l. split; [done|]. split; [done|]. intros x. rewrite elem_of_cons. split; [|tauto]. intros Hx. split; [by right|]. by intros ->.
  - apply elem_of_cons in Hp as [->|Hp]; [done|]. destruct (IH Hn Hp) as (l' & E & Hn' & Hx). exists (y :: l').
    rewrite E. split; [done|]. split.
    + apply NoDup_cons. split; [|done]. intros [? _]%Hx. done.
    + intros x. rewrite !elem_of_cons, Hx. split; [intros [->|[? ?]]; auto|]. intros [[->|?] ?]; auto.
Qed.

Lemma unlink_None p l : p ∉ l -> unlink p l = None.
Proof.
  induction l as [|y l IH]; [done|]. intros [Hy Hl]%not_elem_of_cons. cbn. destruct (Z.eqb_spec y p); [done|]. by rewrite IH.
Qed.

Lemma hash_ok ok raw g t S p : tbl_ok g t S -> p ∉ S -> (forall x, x ∈ {[p]} ∪ S -> raw x = Some (g x)) ->
  Z.of_nat (size S) + 1 < 2 ^ 63 ->
  exists t', hash ok raw (g p) p t = Some t' /\ tbl_ok g t' ({[p]} ∪ S).
Proof.
  intros (Hs & Hc & Hu & Hb) Hp Hraw Hlt. destruct (push_ok g t S p Hs Hc Hp) as (t1 & E1 & Hs1 & Hc1 & Hu1 & Hz1 & Hp1).
  unfold hash. rewrite E1. cbn [mbind option_bind]. set (t2 := with_use _ t1).
  assert (use t2 = Z.of_nat (size ({[p]} ∪ S))) as Hu2.
  { cbn. rewrite Hu1, Hu, size_union, size_singleton by set_solver. rewrite (wrap_id 64); lia. }
  assert (Z.of_nat (size ({[p]} ∪ S)) < 2 ^ 63) by (rewrite size_union, size_singleton by set_solver; lia).
  assert (chains_ok g t2 ({[p]} ∪ S)) as Hc2 by (by apply (chains_ext g t1); [done|done|by right|]).
  destruct (_ <=? use t2); [|by exists t2].
  destruct (rehash_ok ok raw g t2 _ Hs1 Hc2 Hraw) as (t3 & E3 & Hs3 & Hc3 & Hu3). exists t3. split; [done|].
  split; [done|]. split; [done|]. by rewrite Hu3.
Qed.

(** The hash of a node outside the set does not matter, nor does the counter. *)
Lemma chains_ok_hash g g' t S : (forall p, p ∈ S -> g p = g' p) -> chains_ok g t S -> chains_ok g' t S.
Proof.
  intros Hg Hc. split.
  - intros j l p Hj Hp. destruct (ok_mem _ _ _ Hc j l p Hj Hp) as [HS E]. split; [done|]. by rewrite <- Hg.
  - apply (ok_nodup _ _ _ Hc).
  - intros p Hp. rewrite <- Hg by done. by apply (ok_has _ _ _ Hc).
Qed.

Lemma chains_ok_use g t S n : chains_ok g t S -> chains_ok g (with_use n t) S.
Proof. intros Hc. by apply (chains_ext g t); [done|done|by right|]. Qed.

(** Taking a node out of its chain. *)
Lemma unlink_ok g t S p : shape_ok t -> chains_ok g t S -> p ∈ S ->
  exists l l', chain t (bucket t (g p)) = Some l /\ unlink p l = Some l' /\
    shape_ok (set_chain (bucket t (g p)) l' t) /\ chains_ok g (set_chain (bucket t (g p)) l' t) (S ∖ {[p]}).
Proof.
  intros Hs Hc Hp. destruct (ok_has _ _ _ Hc p Hp) as (l & El & Hl).
  pose proof (bucket_range t (g p) Hs) as Hr. destruct (unlink_spec p l (ok_nodup _ _ _ Hc _ l El) Hl) as (l' & E & Hn' & Hx).
  exists l, l'. split; [done|]. split; [done|]. split; [by apply shape_set_chain|]. set (t1 := set_chain _ _ _). split.
  - intros j lj x Hj Hxj. cbn in Hj. change (bucket t1) with (bucket t).
    apply list_lookup_insert_Some in Hj as [(<- & <- & _)|[Hne Hj]].
    + apply Hx in Hxj as [Hxl Hne]. destruct (ok_mem _ _ _ Hc _ l x El Hxl). split; [set_solver|done].
    + destruct (ok_mem _ _ _ Hc _ lj x Hj Hxj) as [HS E']. split; [|done]. apply elem_of_difference. split; [done|].
      intros ->%elem_of_singleton. lia.
  - intros j lj Hj. cbn in Hj. apply list_lookup_insert_Some in Hj as [(<- & <- & _)|[Hne Hj]]; [done|].
    by apply (ok_nodup _ _ _ Hc j).
  - intros x [HxS Hxp%not_elem_of_singleton]%elem_of_difference. change (bucket t1) with (bucket t).
    pose proof (bucket_range t (g x) Hs). destruct (ok_has _ _ _ Hc x HxS) as (lx & Ex & Hlx). unfold t1.
    rewrite chain_set by (lia || by rewrite El). case_decide as E'; [|by exists lx].
    exists l'. split; [done|]. apply Hx. split; [|done]. rewrite E' in Ex. congruence.
Qed.

Lemma unhash_ok ok g t S p : tbl_ok g t S -> p ∈ S ->
  exists t', unhash ok (g p) p t = Some (Some t') /\ tbl_ok g t' (S ∖ {[p]}).
Proof.
  intros (Hs & Hc & Hu & Hb) Hp. destruct (unlink_ok g t S p Hs Hc Hp) as (l & l' & El & Eu & Hs0 & Hc0).
  unfold unhash. rewrite El. cbn [mbind option_bind]. rewrite Eu. set (t1 := with_use _ _).
  assert (size (S ∖ {[p]}) = size S - 1)%nat as Hsz by (rewrite size_difference, size_singleton by set_solver; done).
  assert (0 < size S)%nat as Hpos.
  { destruct (decide (size S = 0%nat)) as [E0%size_empty_inv|]; [set_solver|lia]. }
  assert (use t1 = Z.of_nat (size (S ∖ {[p]}))) as Hu1.
  { cbn. rewrite Hu, Hsz, (wrap_id 64); lia. }
  assert (chains_ok g t1 (S ∖ {[p]})) as Hc1 by by apply chains_ok_use.
  destruct (_ <? _).
  - destruct (remerge_ok ok g t1 _ Hs0 Hc1) as (t2 & E2 & Hs2 & Hc2 & Hu2). exists t2. rewrite E2. split; [done|].
    split; [done|]. split; [done|]. rewrite Hu2. split; [done|lia].
  - exists t1. split; [done|]. split; [done|]. split; [done|]. split; [done|lia].
Qed.

Lemma find_chain_spec test b l : (forall p, p ∈ l -> test p = Some (b p)) ->
  exists r, find_chain test l = Some r /\
    match r with Some p => p ∈ l /\ b p = true | None => forall p, p ∈ l -> b p = false end.
Proof.
  induction l as [|x l IH]; intros Ht; cbn [find_chain]; [exists None; split; [done|]; by intros p ?%not_elem_of_nil|].
  rewrite (Ht x) by by left. cbn [mbind option_bind]. destruct (b x) eqn:Eb; [exists (Some x); split; [done|]; split; [by left|done]|].
  destruct IH as (r & E & Hr); [intros p Hp; apply Ht; by right|]. exists r. split; [done|].
  destruct r as [p|]; [destruct Hr; split; [by right|done]|]. intros p [->|Hp]%elem_of_cons; auto.
Qed.

(** A search of one bucket finds a node exactly when some node of the table
    passes the test, given that such nodes have the hash that is searched. *)
Lemma find_ok g t S test b h : tbl_ok g t S -> (forall p, p ∈ S -> test p = Some (b p)) ->
  (forall p, p ∈ S -> b p = true -> g p = h) ->
  exists r, find test h t = Some r /\
    match r with Some p => p ∈ S /\ b p = true | None => forall p, p ∈ S -> b p = false end.
Proof.
  intros (Hs & Hc & _) Ht Hh. destruct (bucket_chain t h Hs) as [l El]. unfold find. rewrite El. cbn [mbind option_bind].
  assert (forall p, p ∈ l -> p ∈ S) as Hl by (intros p Hp; by apply (ok_mem _ _ _ Hc _ l p El)).
  destruct (find_chain_spec test b l) as (r & -> & Hr); [auto|]. exists r. split; [done|].
  destruct r as [p|]; [destruct Hr; auto|]. intros p Hp. destruct (b p) eqn:Eb; [|done].
  pose proof (Hh p Hp Eb) as E. apply (mem_bucket g t S p l) in Hp; [|done|by rewrite E]. by rewrite Hr in Eb.
Qed.

(** ** Histories *)

(** An operation, with the outcome of a [realloc] it may do. *)
Inductive tbl_op := Insert (p : Z) (ok : bool) | Remove (p : Z) (ok : bool).

Definition step_table (g : Z -> Z) (o : tbl_op) (t : node_table) : option node_table :=
  match o with
  | Insert p ok => hash ok (fun x => Some (g x)) (g p) p t
  | Remove p ok => mjoin (unhash ok (g p) p t)
  end.

Definition step_set (o : tbl_op) (S : gset Z) : gset Z :=
  match o with Insert p _ => {[p]} ∪ S | Remove p _ => S ∖ {[p]} end.

(** A node is inserted when it is not in the table and removed when it is. *)
Definition allowed (o : tbl_op) (S : gset Z) : Prop :=
  match o with Insert p _ => p ∉ S | Remove p _ => p ∈ S end.

Fixpoint run_table (g : Z -> Z) (ops : list tbl_op) (t : node_table) : option node_table :=
  match ops with [] => Some t | o :: ops => t ← step_table g o t; run_table g ops t end.

Fixpoint run_set (ops : list tbl_op) (S : gset Z) : gset Z :=
  match ops with [] => S | o :: ops => run_set ops (step_set o S) end.

Fixpoint all_allowed (ops : list tbl_op) (S : gset Z) : Prop :=
  match ops with [] => True | o :: ops => allowed o S /\ all_allowed ops (step_set o S) end.

Lemma init_ok g t : node_table_init true = Some t -> tbl_ok g t ∅.
Proof.
  unfold node_table_init. cbn [negb]. set (a := replicate _ _). intros Ht.
  assert (t = NodeTab a 0 NODE_TABLE_MIN_SIZE 0) as -> by congruence. split; [|split; [|done]]; unfold a.
  - split; [by exists O|]. split; [done|]. cbn [array tsize]. rewrite length_replicate. unfold NODE_TABLE_MIN_SIZE. lia.
  - split; cbn [array].
    + intros j l p [-> _]%lookup_replicate Hp. by apply not_elem_of_nil in Hp.
    + intros j l [-> _]%lookup_replicate. constructor.
    + intros p Hp. by apply not_elem_of_empty in Hp.
Qed.

Lemma step_ok g o t S : tbl_ok g t S -> allowed o S -> Z.of_nat (size S) + 1 < 2 ^ 63 ->
  exists t', step_table g o t = Some t' /\ tbl_ok g t' (step_set o S).
Proof.
  intros Ht Ha Hb. destruct o as [p ok|p ok]; cbn [step_table step_set allowed] in *.
  - by apply hash_ok.
  - destruct (unhash_ok ok g t S p Ht Ha) as (t' & E & Ht'). exists t'. by rewrite E.
Qed.

Lemma step_set_size o S : (size (step_set o S) <= size S + 1)%nat.
Proof.
  destruct o as [p ok|p ok]; cbn.
  - destruct (decide (p ∈ S)); [replace ({[p]} ∪ S) with S by set_solver; lia|].
    rewrite size_union, size_singleton by set_solver. lia.
  - assert (size (S ∖ {[p]}) <= size S)%nat by (apply subseteq_size; set_solver). lia.
Qed.

Lemma run_ok g ops t S : tbl_ok g t S -> all_allowed ops S -> Z.of_nat (size S) + Z.of_nat (length ops) < 2 ^ 63 ->
  exists t', run_table g ops t = Some t' /\ tbl_ok g t' (run_set ops S).
Proof.
  revert t S. induction ops as [|o ops IH]; intros t S Ht Ha Hb; cbn [run_table run_set]; [by exists t|].
  destruct Ha as [Ha Hr]. cbn [length] in Hb. pose proof (step_set_size o S).
  destruct (step_ok g o t S Ht Ha) as (t1 & -> & H1); [lia|]. cbn [mbind option_bind]. apply IH; [done|done|lia].
Qed.

(** C34: The hash table implements a set.  After any history of insertions of new
    nodes and removals of present ones, starting from an empty table, with any
    hash function and whatever [realloc] returned, no access was out of bounds,
    the counter is the number of nodes, and searching the bucket of a node finds
    it exactly when it is in the set the history computes. *)
Theorem table_refines_set g ops t : node_table_init true = Some t -> all_allowed ops ∅ ->
  Z.of_nat (length ops) < 2 ^ 63 ->
  exists t', run_table g ops t = Some t' /\ use t' = Z.of_nat (size (run_set ops ∅)) /\
    forall p, find (fun x => Some (x =? p)) (g p) t' =
              Some (if bool_decide (p ∈ run_set ops ∅) then Some p else None).
Proof.
  intros Hi Ha Hb. destruct (run_ok g ops t ∅ (init_ok g t Hi) Ha) as (t' & E & Ht); [rewrite size_empty; lia|].
  exists t'. split; [done|]. pose proof Ht as (_ & _ & Hu & _). split; [done|]. intros p.
  destruct (find_ok g t' _ (fun x => Some (x =? p)) (fun x => x =? p) (g p) Ht) as (r & -> & Hr); [done| |].
  { intros x _ Hx%Z.eqb_eq. by subst. }
  f_equal. destruct r as [q|].
  - destruct Hr as [Hq ->%Z.eqb_eq]. by rewrite bool_decide_eq_true_2.
  - rewrite bool_decide_eq_false_2; [done|]. intros Hp. apply Hr in Hp. by rewrite Z.eqb_refl in Hp.
Qed.

Lemma table_refines_set_witness : exists t t',
  node_table_init true = Some t /\
  run_table id_raw [Insert 5 true; Insert 70 true; Remove 5 false] t = Some t' /\ use t' = 1 /\
  find (fun x => Some (x =? 70)) (id_raw 70) t' = Some (Some 70).
Proof.
  destruct (table_refines_set id_raw [Insert 5 true; Insert 70 true; Remove 5 false]
    (NodeTab (replicate (Z.to_nat NODE_TABLE_MIN_SIZE) []) 0 NODE_TABLE_MIN_SIZE 0)) as (t' & E & U & F).
  - reflexivity.
  - repeat split; set_solver.
  - reflexivity.
  - eexists _, t'. split; [reflexivity|]. split; [exact E|]. split; [rewrite U; vm_compute; reflexivity|].
    rewrite F. vm_compute. reflexivity.
Defined.

(** ** Finding nodes *)

Section Nodes.
(** The nodes of a table, their numbers and their keys. *)
Context (S : gset Z) (num : Z -> Z) (key : Z -> Z * bytes).
Context (nodeid_of : Z -> option Z) (key_of : Z -> option (Z * bytes)).
Hypothesis nodeid_known : forall p, p ∈ S -> nodeid_of p = Some (num p).
Hypothesis key_known : forall p, p ∈ S -> key_of p = Some (key p).
Hypothesis num_inj : forall p q, p ∈ S -> q ∈ S -> num p = num q -> p = q.
Hypothesis key_inj : forall p q, p ∈ S -> q ∈ S -> key p = key q -> p = q.

(** Looking a node up by its number, or by its parent's number and its name,
    searches one bucket and finds the node with that number or name if the table
    holds one, and nothing otherwise. *)
Theorem node_lookup idt namet nodeid parent name :
  tbl_ok (fun p => id_raw (num p)) idt S -> tbl_ok (fun p => name_raw (key p).1 (key p).2) namet S ->
  (exists r, get_node_nocheck nodeid_of idt nodeid = Some r /\
     forall p, r = Some p <-> p ∈ S /\ num p = nodeid) /\
  (exists r, lookup_node key_of namet parent name = Some r /\
     forall p, r = Some p <-> p ∈ S /\ key p = (parent, name)).
Proof.
  intros Hid Hname. split.
  - destruct (find_ok _ idt S (fun p => n ← nodeid_of p; Some (n =? nodeid)) (fun p => num p =? nodeid) (id_raw nodeid) Hid)
      as (r & E & Hr).
    + intros p Hp. by rewrite nodeid_known.
    + intros p _ <-%Z.eqb_eq. done.
    + exists r. split; [exact E|]. intros p. destruct r as [q|].
      * destruct Hr as [Hq Eq%Z.eqb_eq]. split; [by intros [= <-]|]. intros [Hp Ep]. f_equal. apply num_inj; [done|done|congruence].
      * split; [done|]. intros [Hp Ep%Z.eqb_eq]. by rewrite Hr in Ep.
  - set (test := fun p => (( (key p).1 =? parent) && streq (key p).2 name)%bool).
    assert (forall p, test p = true <-> key p = (parent, name)) as Ht.
    { intros p. unfold test, streq. rewrite andb_true_iff, Z.eqb_eq, bool_decide_eq_true. destruct (key p); cbn.
      split; [intros [-> ->]; done|by intros [= -> ->]]. }
    destruct (find_ok _ namet S (fun p => k ← key_of p; Some ((k.1 =? parent) && streq k.2 name)) test (name_raw parent name) Hname)
      as (r & E & Hr).
    + intros p Hp. by rewrite key_known.
    + intros p _ Ep%Ht. by rewrite Ep.
    + exists r. split; [exact E|]. intros p. destruct r as [q|].
      * destruct Hr as [Hq Eq%Ht]. split; [by intros [= <-]|]. intros [Hp Ep]. f_equal. apply key_inj; [done|done|congruence].
      * split; [done|]. intros [Hp Ep%Ht]. by rewrite Hr in Ep.
Qed.
End Nodes.

(** A table with the node at address 100, number 2, named a in the root. *)
Definition small_table (raw : Z) : option node_table :=
  t ← node_table_init true; hash true (fun _ => Some raw) raw 100 t.

Lemma node_lookup_witness : exists idt namet,
  small_table (id_raw 2) = Some idt /\ small_table (name_raw 1 (lit "a")) = Some namet /\
  get_node_nocheck (fun _ => Some 2) idt 2 = Some (Some 100) /\
  lookup_node (fun _ => Some (1, lit "a")) namet 1 (lit "a") = Some (Some 100).
Proof.
  assert (forall raw, exists t, small_table raw = Some t /\ tbl_ok (fun _ => raw) t {[100]}) as Ht.
  { intros raw. unfold small_table. destruct (node_table_init true) as [t|] eqn:Ei; [|discriminate].
    destruct (hash_ok true (fun _ => Some raw) (fun _ => raw) t ∅ 100 (init_ok _ t Ei)) as (t' & E & Hok); [set_solver|done|reflexivity|].
    exists t'. split; [exact E|]. by rewrite (right_id_L ∅ (∪)) in Hok. }
  destruct (Ht (id_raw 2)) as (idt & E1 & H1). destruct (Ht (name_raw 1 (lit "a"))) as (namet & E2 & H2).
  destruct (node_lookup {[100]} (fun _ => 2) (fun _ => (1, lit "a")) (fun _ => Some 2) (fun _ => Some (1, lit "a")))
    with (idt := idt) (namet := namet) (nodeid := 2) (parent := 1) (name := lit "a") as [(r & E3 & Hr) (r' & E4 & Hr')].
  1-2: reflexivity.
  1-2: intros p q Hp Hq _; apply elem_of_singleton in Hp, Hq; congruence.
  1: exact H1.
  1: exact H2.
  exists idt, namet. split; [exact E1|]. split; [exact E2|]. rewrite E3, E4.
  rewrite (proj2 (Hr 100)) by (split; [set_solver|reflexivity]).
  rewrite (proj2 (Hr' 100)) by (split; [set_solver|reflexivity]). split; reflexivity.
Defined.
