(* ===== verification/Wire.v ===== *)
(** * The wire format: libfuse/lib/fuse_lowlevel.c, libfuse/include/fuse_kernel.h

    Messages to and from the kernel are byte strings; integers are little
    endian.  This file holds the conversions between the structures the file
    systems see ([struct stat], [struct fuse_entry_param], ...) and the
    structures on the wire, and the packing of directory entries.  Timeouts are
    C doubles, computed with the binary64 arithmetic of the Standard Library's
    [SpecFloat]. *)

From S2P Require Import Prelude.
From Stdlib Require Import SpecFloat.

(** ** Little-endian integers *)

Fixpoint le (n : nat) (z : Z) : bytes :=
  match n with
  | O => []
  | S n => z mod 256 :: le n (z / 256)
  end.

Fixpoint unle (bs : bytes) : Z :=
  match bs with
  | [] => 0
  | x :: bs => x + 256 * unle bs
  end.

(** Fields of a structure received from the kernel, by offset. *)
Definition u32_at (b : bytes) (off : nat) : Z := unle (take 4 (drop off b)).
Definition u64_at (b : bytes) (off : nat) : Z := unle (take 8 (drop off b)).

(** The NUL-terminated string at an offset of a message. *)
Definition str_at (b : bytes) (off : nat) : bytes := cstr (drop off b).

(** ** Structures of the host *)

Record stat := Stat {
  st_dev : Z; st_ino : Z; st_mode : Z; st_nlink : Z; st_uid : Z; st_gid : Z; st_rdev : Z;
  st_size : Z; st_blksize : Z; st_blocks : Z;
  st_atime : Z; st_mtime : Z; st_ctime : Z;
  st_atimensec : Z; st_mtimensec : Z; st_ctimensec : Z }.

Definition stat0 : stat := Stat 0 0 0 0 0 0 0 0 0 0 0 0 0 0 0 0.

Record statvfs := Statvfs {
  f_bsize : Z; f_frsize : Z; f_blocks : Z; f_bfree : Z; f_bavail : Z;
  f_files : Z; f_ffree : Z; f_namemax : Z }.

Record flock := Flock { l_type : Z; l_whence : Z; l_start : Z; l_len : Z; l_pid : Z }.

Abbreviation double := spec_float.

Record fuse_entry_param := EntryParam {
  e_ino : Z; e_generation : Z; e_attr : stat; e_attr_timeout : double; e_entry_timeout : double }.

Definition entry0 : fuse_entry_param := EntryParam 0 0 stat0 (S754_zero false) (S754_zero false).

(** The fields of [struct fuse_file_info] that libfuse and F3 use. *)
Record fuse_file_info := FileInfo {
  fi_flags : Z; fi_writepage : bool; fi_direct_io : bool; fi_keep_cache : bool; fi_flush : bool;
  fi_nonseekable : bool; fi_flock_release : bool; fi_cache_readdir : bool;
  fi_fh : Z; fi_lock_owner : Z; fi_poll_events : Z }.

(** [memset(&fi, 0, sizeof(fi))] *)
Definition fi0 : fuse_file_info := FileInfo 0 false false false false false false false 0 0 0.

Definition with_flags (v : Z) (f : fuse_file_info) : fuse_file_info :=
  FileInfo v (fi_writepage f) (fi_direct_io f) (fi_keep_cache f) (fi_flush f) (fi_nonseekable
    f) (fi_flock_release f) (fi_cache_readdir f) (fi_fh f) (fi_lock_owner f) (fi_poll_events f).

Definition with_writepage (v : bool) (f : fuse_file_info) : fuse_file_info :=
  FileInfo (fi_flags f) v (fi_direct_io f) (fi_keep_cache f) (fi_flush f) (fi_nonseekable f)
    (fi_flock_release f) (fi_cache_readdir f) (fi_fh f) (fi_lock_owner f) (fi_poll_events f).

Definition with_keep_cache (v : bool) (f : fuse_file_info) : fuse_file_info :=
  FileInfo (fi_flags f) (fi_writepage f) (fi_direct_io f) v (fi_flush f) (fi_nonseekable f)
    (fi_flock_release f) (fi_cache_readdir f) (fi_fh f) (fi_lock_owner f) (fi_poll_events f).

Definition with_flush (v : bool) (f : fuse_file_info) : fuse_file_info :=
  FileInfo (fi_flags f) (fi_writepage f) (fi_direct_io f) (fi_keep_cache f) v (fi_nonseekable
    f) (fi_flock_release f) (fi_cache_readdir f) (fi_fh f) (fi_lock_owner f) (fi_poll_events f).

Definition with_flock_release (v : bool) (f : fuse_file_info) : fuse_file_info :=
  FileInfo (fi_flags f) (fi_writepage f) (fi_direct_io f) (fi_keep_cache f) (fi_flush f)
    (fi_nonseekable f) v (fi_cache_readdir f) (fi_fh f) (fi_lock_owner f) (fi_poll_events f).

Definition with_cache_readdir (v : bool) (f : fuse_file_info) : fuse_file_info :=
  FileInfo (fi_flags f) (fi_writepage f) (fi_direct_io f) (fi_keep_cache f) (fi_flush f)
    (fi_nonseekable f) (fi_flock_release f) v (fi_fh f) (fi_lock_owner f) (fi_poll_events f).

Definition with_fh (v : Z) (f : fuse_file_info) : fuse_file_info :=
  FileInfo (fi_flags f) (fi_writepage f) (fi_direct_io f) (fi_keep_cache f) (fi_flush f)
    (fi_nonseekable f) (fi_flock_release f) (fi_cache_readdir f) v (fi_lock_owner f)
    (fi_poll_events f).

Definition with_lock_owner (v : Z) (f : fuse_file_info) : fuse_file_info :=
  FileInfo (fi_flags f) (fi_writepage f) (fi_direct_io f) (fi_keep_cache f) (fi_flush f)
    (fi_nonseekable f) (fi_flock_release f) (fi_cache_readdir f) (fi_fh f) v (fi_poll_events f).

Definition with_poll_events (v : Z) (f : fuse_file_info) : fuse_file_info :=
  FileInfo (fi_flags f) (fi_writepage f) (fi_direct_io f) (fi_keep_cache f) (fi_flush f)
    (fi_nonseekable f) (fi_flock_release f) (fi_cache_readdir f) (fi_fh f) (fi_lock_owner f) v.

(** ** Structures of the kernel protocol *)

Record fuse_attr := FuseAttr {
  a_ino : Z; a_size : Z; a_blocks : Z; a_atime : Z; a_mtime : Z; a_ctime : Z;
  a_atimensec : Z; a_mtimensec : Z; a_ctimensec : Z; a_mode : Z; a_nlink : Z;
  a_uid : Z; a_gid : Z; a_rdev : Z; a_blksize : Z }.

Definition enc_fuse_attr (a : fuse_attr) : bytes :=
  le 8 (a_ino a) ++ le 8 (a_size a) ++ le 8 (a_blocks a) ++
  le 8 (a_atime a) ++ le 8 (a_mtime a) ++ le 8 (a_ctime a) ++
  le 4 (a_atimensec a) ++ le 4 (a_mtimensec a) ++ le 4 (a_ctimensec a) ++
  le 4 (a_mode a) ++ le 4 (a_nlink a) ++ le 4 (a_uid a) ++ le 4 (a_gid a) ++
  le 4 (a_rdev a) ++ le 4 (a_blksize a) ++ le 4 0.

Record fuse_file_lock := FileLock { lk_start : Z; lk_end : Z; lk_type : Z; lk_pid : Z }.

Record fuse_entry_out := EntryOut {
  eo_nodeid : Z; eo_generation : Z; eo_entry_valid : Z; eo_attr_valid : Z;
  eo_entry_valid_nsec : Z; eo_attr_valid_nsec : Z; eo_attr : fuse_attr }.

Definition enc_fuse_entry_out (e : fuse_entry_out) : bytes :=
  le 8 (eo_nodeid e) ++ le 8 (eo_generation e) ++ le 8 (eo_entry_valid e) ++
  le 8 (eo_attr_valid e) ++ le 4 (eo_entry_valid_nsec e) ++ le 4 (eo_attr_valid_nsec e) ++
  enc_fuse_attr (eo_attr e).

Record fuse_open_out := OpenOut { oo_fh : Z; oo_open_flags : Z }.

Definition enc_fuse_open_out (o : fuse_open_out) : bytes :=
  le 8 (oo_fh o) ++ le 4 (oo_open_flags o) ++ le 4 0.

(** ** Attributes *)

Definition convert_stat (stbuf : stat) : fuse_attr :=
  {| a_ino := u64 (st_ino stbuf); a_mode := u32 (st_mode stbuf); a_nlink := u32 (st_nlink stbuf);
     a_uid := u32 (st_uid stbuf); a_gid := u32 (st_gid stbuf); a_rdev := u32 (st_rdev stbuf);
     a_size := u64 (st_size stbuf); a_blksize := u32 (st_blksize stbuf);
     a_blocks := u64 (st_blocks stbuf); a_atime := u64 (st_atime stbuf);
     a_mtime := u64 (st_mtime stbuf); a_ctime := u64 (st_ctime stbuf);
     a_atimensec := u32 (st_atimensec stbuf); a_mtimensec := u32 (st_mtimensec stbuf);
     a_ctimensec := u32 (st_ctimensec stbuf) |}.

(** The argument is a [struct fuse_setattr_in]: valid 0, fh 8, size 16,
    lock_owner 24, atime 32, mtime 40, ctime 48, the nanoseconds at 56, 60 and
    64, mode 68, uid 76, gid 80; the result starts as zeroes. *)
Definition convert_attr (attr : bytes) : stat :=
  {| st_dev := 0; st_ino := 0; st_mode := u32_at attr 68; st_nlink := 0;
     st_uid := u32_at attr 76; st_gid := u32_at attr 80; st_rdev := 0;
     st_size := i64 (u64_at attr 16); st_blksize := 0; st_blocks := 0;
     st_atime := i64 (u64_at attr 32); st_mtime := i64 (u64_at attr 40);
     st_ctime := i64 (u64_at attr 48); st_atimensec := u32_at attr 56;
     st_mtimensec := u32_at attr 60; st_ctimensec := u32_at attr 64 |}.

(** A [struct fuse_kstatfs], with [spare] and [padding] zero. *)
Definition convert_statfs (stbuf : statvfs) : bytes :=
  le 8 (f_blocks stbuf) ++ le 8 (f_bfree stbuf) ++ le 8 (f_bavail stbuf) ++
  le 8 (f_files stbuf) ++ le 8 (f_ffree stbuf) ++ le 4 (f_bsize stbuf) ++
  le 4 (f_namemax stbuf) ++ le 4 (f_frsize stbuf) ++ le 4 0 ++ replicate 24 0.

(** ** Timeouts *)

Definition ULONG_MAX : Z := 2 ^ 64 - 1.

Definition dbl_of_Z (z : Z) : double := binary_normalize 53 1024 z 0 false.

(** The conversion of a finite double to an integer truncates. *)
Definition dbl_trunc (t : double) : Z :=
  match t with
  | S754_finite s m e =>
      let v := if 0 <=? e then Z.pos m * 2 ^ e else Z.pos m / 2 ^ (- e) in
      if s then - v else v
  | _ => 0
  end.

(** The literals 0.999999999, 1.0e9 and 1.0e-9 (F3's timeout). *)
Definition dbl_almost_one : double := S754_finite false 9007199245733793 (-53).
Definition dbl_1e9 : double := dbl_of_Z 1000000000.
Definition dbl_1e_9 : double := S754_finite false 4835703278458517 (-82).

Definition calc_timeout_sec (t : double) : Z :=
  if SFltb (dbl_of_Z ULONG_MAX) t then ULONG_MAX
  else if SFltb t (S754_zero false) then 0
  else u64 (dbl_trunc t).

Definition calc_timeout_nsec (t : double) : Z :=
  let f := SFsub 53 1024 t (dbl_of_Z (calc_timeout_sec t)) in
  if SFltb f (S754_zero false) then 0
  else if SFleb dbl_almost_one f then 999999999
  else u32 (dbl_trunc (SFmul 53 1024 f dbl_1e9)).

(** ** Entries and open files *)

Definition fill_entry (e : fuse_entry_param) : fuse_entry_out :=
  {| eo_nodeid := u64 (e_ino e); eo_generation := u64 (e_generation e);
     eo_entry_valid := calc_timeout_sec (e_entry_timeout e);
     eo_entry_valid_nsec := calc_timeout_nsec (e_entry_timeout e);
     eo_attr_valid := calc_timeout_sec (e_attr_timeout e);
     eo_attr_valid_nsec := calc_timeout_nsec (e_attr_timeout e);
     eo_attr := convert_stat (e_attr e) |}.

Definition FOPEN_DIRECT_IO : Z := 1.
Definition FOPEN_KEEP_CACHE : Z := 2.
Definition FOPEN_NONSEEKABLE : Z := 4.
Definition FOPEN_CACHE_DIR : Z := 8.

Definition fill_open (f : fuse_file_info) : fuse_open_out :=
  {| oo_fh := u64 (fi_fh f);
     oo_open_flags :=
       Z.lor (Z.lor (Z.lor (if fi_direct_io f then FOPEN_DIRECT_IO else 0)
                           (if fi_keep_cache f then FOPEN_KEEP_CACHE else 0))
                    (if fi_cache_readdir f then FOPEN_CACHE_DIR else 0))
             (if fi_nonseekable f then FOPEN_NONSEEKABLE else 0) |}.

(** ** File locks *)

Definition OFFSET_MAX : Z := 2 ^ 63 - 1.
Definition F_RDLCK : Z := 0.
Definition F_WRLCK : Z := 1.
Definition F_UNLCK : Z := 2.
Definition SEEK_SET : Z := 0.

(** [off_t] fields are assigned from [uint64_t] expressions. *)
Definition convert_fuse_file_lock (fl : fuse_file_lock) : flock :=
  {| l_type := swrap 16 (lk_type fl);
     l_whence := SEEK_SET;
     l_start := i64 (lk_start fl);
     l_len := if lk_end fl =? OFFSET_MAX then 0
              else i64 (u64 (lk_end fl - lk_start fl + 1));
     l_pid := i32 (lk_pid fl) |}.

(** The [struct fuse_file_lock] that [fuse_reply_lock] sends. *)
Definition lock_out (lock : flock) : fuse_file_lock :=
  if negb (l_type lock =? F_UNLCK) then
    FileLock (u64 (l_start lock))
      (if l_len lock =? 0 then OFFSET_MAX else u64 (l_start lock + l_len lock - 1))
      (u32 (l_type lock)) (u32 (l_pid lock))
  else FileLock 0 0 (u32 (l_type lock)) (u32 (l_pid lock)).

Definition enc_fuse_file_lock (l : fuse_file_lock) : bytes :=
  le 8 (lk_start l) ++ le 8 (lk_end l) ++ le 4 (lk_type l) ++ le 4 (lk_pid l).

(** ** Directory entries *)

Definition FUSE_NAME_OFFSET : Z := 24.
Definition FUSE_NAME_OFFSET_DIRENTPLUS : Z := 152.
Definition S_IFMT : Z := 61440.

Definition FUSE_DIRENT_ALIGN (x : Z) : Z := Z.land (u64 (x + 7)) (Z.lnot 7).

(** The bytes written at [dirent], its name padded to [entlen_padded]. *)
Definition put_dirent (ino off namelen mode : Z) (name : bytes) (pad : Z) : bytes :=
  le 8 ino ++ le 8 (u64 off) ++ le 4 namelen ++ le 4 (Z.shiftr (Z.land mode S_IFMT) 12) ++
  name ++ replicate (Z.to_nat pad) 0.

(** The size of the entry, and what is written to the buffer if it fits.
    [buf] tells a non-NULL buffer. *)
Definition fuse_add_direntry (buf : bool) (bufsize : Z) (name : bytes) (stbuf : stat) (off : Z)
    : Z * option bytes :=
  let namelen := Z.of_nat (length name) in
  let entlen := u64 (FUSE_NAME_OFFSET + namelen) in
  let entlen_padded := FUSE_DIRENT_ALIGN entlen in
  if negb buf || (bufsize <? entlen_padded) then (entlen_padded, None) else
  (entlen_padded,
   Some (put_dirent (st_ino stbuf) off namelen (st_mode stbuf) name (entlen_padded - entlen))).

Definition fuse_add_direntry_plus (buf : bool) (bufsize : Z) (name : bytes)
    (e : fuse_entry_param) (off : Z) : Z * option bytes :=
  let namelen := Z.of_nat (length name) in
  let entlen := u64 (FUSE_NAME_OFFSET_DIRENTPLUS + namelen) in
  let entlen_padded := FUSE_DIRENT_ALIGN entlen in
  if negb buf || (bufsize <? entlen_padded) then (entlen_padded, None) else
  (entlen_padded,
   Some (enc_fuse_entry_out (fill_entry e) ++
         put_dirent (st_ino (e_attr e)) off namelen (st_mode (e_attr e)) name
           (entlen_padded - entlen))).

(** ** What the kernel reads

    The reader's side of the directory format: the entries of a READDIR reply,
    each aligned to eight bytes, up to the end of the reply. *)

Record dirent := Dirent { d_ino : Z; d_off : Z; d_type : Z; d_name : bytes }.

Fixpoint parse_dirents (fuel : nat) (b : bytes) : option (list dirent) :=
  match fuel, b with
  | _, [] => Some []
  | O, _ => None
  | S fuel, _ =>
      let namelen := u32_at b 16 in
      let reclen := Z.to_nat (FUSE_DIRENT_ALIGN (FUSE_NAME_OFFSET + namelen)) in
      if bool_decide (length b < reclen)%nat then None else
      cons (Dirent (u64_at b 0) (u64_at b 8) (u32_at b 20) (take (Z.to_nat namelen) (drop 24 b)))
        <$> parse_dirents fuel (drop reclen b)
  end.

(** ** Integers and lengths *)

Lemma length_le n z : length (le n z) = n.
Proof. revert z; induction n as [|n IH]; intros z; simpl; [done|]. by rewrite IH. Qed.

Lemma unle_le n z : unle (le n z) = wrap (8 * Z.of_nat n) z.
Proof.
  unfold wrap. revert z; induction n as [|n IH]; intros z; [by rewrite Z.mod_1_r|].
  cbn [le unle]. rewrite IH, Nat2Z.inj_succ.
  replace (8 * Z.succ (Z.of_nat n)) with (8 + 8 * Z.of_nat n) by lia.
  rewrite Z.pow_add_r by lia. change (2 ^ 8) with 256.
  rewrite Z.rem_mul_r; [done|lia|]. apply Z.pow_pos_nonneg; lia.
Qed.

Lemma take_le n z r : take n (le n z ++ r) = le n z.
Proof. apply take_app_length'. by rewrite length_le. Qed.

Lemma u64_at_0 z r : u64_at (le 8 z ++ r) 0 = u64 z.
Proof. unfold u64_at. rewrite drop_0, take_le. apply unle_le. Qed.

Lemma u64_at_app p z r off : length p = off -> u64_at (p ++ le 8 z ++ r) off = u64 z.
Proof. intros <-. unfold u64_at. rewrite drop_app_length, take_le. apply unle_le. Qed.

Lemma u32_at_app p z r off : length p = off -> u32_at (p ++ le 4 z ++ r) off = u32 z.
Proof. intros <-. unfold u32_at. rewrite drop_app_length, take_le. apply unle_le. Qed.

Lemma length_enc_fuse_attr a : length (enc_fuse_attr a) = 88%nat.
Proof. unfold enc_fuse_attr. by rewrite !length_app, !length_le. Qed.

Lemma length_enc_fuse_entry_out e : length (enc_fuse_entry_out e) = 128%nat.
Proof. unfold enc_fuse_entry_out. by rewrite !length_app, !length_le, length_enc_fuse_attr. Qed.

Lemma align_spec x : 0 <= x < 2 ^ 63 ->
  x <= FUSE_DIRENT_ALIGN x < x + 8 /\ FUSE_DIRENT_ALIGN x mod 8 = 0.
Proof.
  intros Hx. unfold FUSE_DIRENT_ALIGN. rewrite wrap_id by lia.
  assert (Z.land (x + 7) (Z.lnot 7) = (x + 7) / 8 * 8) as ->.
  { change (Z.lnot 7) with (Z.lnot (Z.ones 3)). rewrite <- Z.ldiff_land, Z.ldiff_ones_r by lia.
    by rewrite Z.shiftr_div_pow2, Z.shiftl_mul_pow2 by lia. }
  split; [|by rewrite Z.mod_mul].
  pose proof (Z.div_mod (x + 7) 8) as E. pose proof (Z.mod_pos_bound (x + 7) 8) as B. lia.
Qed.

Lemma length_put_dirent ino off nl mode name pad : 0 <= pad ->
  Z.of_nat (length (put_dirent ino off nl mode name pad)) = 24 + Z.of_nat (length name) + pad.
Proof. intros Hp. unfold put_dirent. rewrite !length_app, !length_le, length_replicate. lia. Qed.

(** ** Directory entries *)

(** One entry a reader finds at the front of the reply. *)
Lemma parse_put_dirent fuel ino off mode name rest :
  let n := Z.of_nat (length name) in
  let pad := FUSE_DIRENT_ALIGN (24 + n) - (24 + n) in
  n < 2 ^ 32 ->
  parse_dirents (S fuel) (put_dirent ino off n mode name pad ++ rest) =
  cons (Dirent (u64 ino) (u64 off) (u32 (Z.shiftr (Z.land mode S_IFMT) 12)) name)
    <$> parse_dirents fuel rest.
Proof.
  intros n pad Hn. destruct (align_spec (24 + n) ltac:(lia)) as [Ha _].
  pose proof (length_put_dirent ino off n mode name pad ltac:(lia)) as HL.
  cbn [parse_dirents]. set (b := put_dirent ino off n mode name pad) in *.
  set (m := Z.shiftr (Z.land mode S_IFMT) 12).
  set (tl := name ++ replicate (Z.to_nat pad) 0).
  assert (b = le 8 ino ++ le 8 (u64 off) ++ le 4 n ++ le 4 m ++ tl) as Eb by done.
  assert (u32_at (b ++ rest) 16 = n) as ->.
  { rewrite Eb. rewrite <- !app_assoc, (app_assoc (le 8 ino)), u32_at_app by done. apply wrap_id. lia. }
  assert (u64_at (b ++ rest) 0 = u64 ino) as ->.
  { rewrite Eb, <- !app_assoc. apply u64_at_0. }
  assert (u64_at (b ++ rest) 8 = u64 off) as ->.
  { rewrite Eb, <- !app_assoc, u64_at_app by done. apply wrap_wrap. lia. }
  assert (u32_at (b ++ rest) 20 = u32 m) as ->.
  { rewrite Eb, <- !app_assoc. by rewrite (app_assoc (le 8 ino)), (app_assoc (_ ++ _)), u32_at_app. }
  assert (take (Z.to_nat n) (drop 24 (b ++ rest)) = name) as ->.
  { rewrite Eb, <- !app_assoc.
    rewrite (app_assoc (le 8 ino)), (app_assoc (_ ++ _)), (app_assoc (_ ++ _)).
    rewrite (drop_app_length' _ _ 24); [|by rewrite !length_app, !length_le].
    unfold tl. rewrite <- app_assoc. apply take_app_length'. lia. }
  assert (Z.to_nat (FUSE_DIRENT_ALIGN (FUSE_NAME_OFFSET + n)) = length b) as ->.
  { unfold FUSE_NAME_OFFSET, pad in *. lia. }
  rewrite drop_app_length, bool_decide_eq_false_2 by (rewrite length_app; lia).
  destruct (b ++ rest) eqn:E; [|done]. apply (f_equal length) in E. rewrite length_app in E.
  simpl in E. unfold pad in *. lia.
Qed.

Lemma add_direntry_Some buf bufsize name st off : Z.of_nat (length name) < 2 ^ 32 ->
  let n := Z.of_nat (length name) in
  let sz := FUSE_DIRENT_ALIGN (24 + n) in
  fuse_add_direntry buf bufsize name st off =
  (sz, if negb buf || (bufsize <? sz) then None
       else Some (put_dirent (st_ino st) off n (st_mode st) name (sz - (24 + n)))).
Proof.
  intros Hn n sz. unfold fuse_add_direntry.
  assert (u64 (FUSE_NAME_OFFSET + n) = 24 + n) as Eu by (apply wrap_id; unfold FUSE_NAME_OFFSET; lia).
  fold n. rewrite Eu. fold sz. by destruct (negb buf || _).
Qed.

(** The way every readdir handler fills its reply: entries are added while they
    fit in what is left of the buffer. *)
Fixpoint fill_dirents (rem : Z) (es : list (bytes * stat * Z)) : bytes :=
  match es with
  | [] => []
  | (name, st, off) :: es =>
      match fuse_add_direntry true rem name st off with
      | (entsize, Some b) => b ++ fill_dirents (rem - entsize) es
      | (_, None) => []
      end
  end.

(** The entry as the kernel sees it. *)
Definition seen (e : bytes * stat * Z) : dirent :=
  let '(name, st, off) := e in
  Dirent (u64 (st_ino st)) (u64 off) (u32 (Z.shiftr (Z.land (st_mode st) S_IFMT) 12)) name.

(** The entries that fit. *)
Fixpoint fitting (rem : Z) (es : list (bytes * stat * Z)) : list (bytes * stat * Z) :=
  match es with
  | [] => []
  | (name, st, off) :: es =>
      let sz := FUSE_DIRENT_ALIGN (24 + Z.of_nat (length name)) in
      if rem <? sz then [] else (name, st, off) :: fitting (rem - sz) es
  end.

Lemma fitting_prefix rem es : fitting rem es `prefix_of` es.
Proof.
  revert rem; induction es as [|[[name st] off] es IH]; intros rem; simpl; [done|].
  destruct (_ <? _); [apply prefix_nil|]. by apply prefix_cons.
Qed.

Lemma fill_parse es bufsize : Forall (fun e => Z.of_nat (length e.1.1) < 2 ^ 32) es -> 0 <= bufsize ->
  parse_dirents (length es) (fill_dirents bufsize es) = Some (seen <$> fitting bufsize es) /\ Z.of_nat (length (fill_dirents bufsize es)) <= bufsize.
Proof.
  intros Hes Hb. revert bufsize Hb.
  induction Hes as [|[[name st] off] es Hn Hes IH]; intros bufsize Hb; [done|].
  cbn [fill_dirents fitting length]. simpl in Hn. rewrite add_direntry_Some by done.
  set (n := Z.of_nat (length name)). set (sz := FUSE_DIRENT_ALIGN (24 + n)).
  destruct (align_spec (24 + n) ltac:(lia)) as [Ha _]. fold sz in Ha.
  destruct (Z.ltb_spec bufsize sz) as [Hs|Hs]; cbn [negb orb]; [done|].
  destruct (IH (bufsize - sz) ltac:(lia)) as [IH1 IH2].
  split.
  - etransitivity; [by apply parse_put_dirent|]. fold n sz. by rewrite IH1.
  - rewrite length_app. pose proof (length_put_dirent (st_ino st) off n (st_mode st) name (sz - (24 + n))). lia.
Qed.

(** Filling a reply buffer with [fuse_add_direntry] never exceeds the
    buffer, and the kernel reads back exactly the leading entries that fit,
    with their inode number, offset, type and name. *)
Theorem dirents_roundtrip es bufsize :
  Forall (fun e => Z.of_nat (length e.1.1) < 2 ^ 32) es -> 0 <= bufsize ->
  let reply := fill_dirents bufsize es in
  parse_dirents (length es) reply = Some (seen <$> fitting bufsize es) /\
  Z.of_nat (length reply) <= bufsize.
Proof. apply fill_parse. Qed.

Lemma dirents_roundtrip_witness :
  parse_dirents 3 (fill_dirents 80 [(lit "a", stat0, 1); (lit "longer.id", stat0, 2); (lit "b", stat0, 3)])
    = Some [Dirent 0 1 0 (lit "a"); Dirent 0 2 0 (lit "longer.id")].
Proof.
  refine (eq_trans (proj1 (dirents_roundtrip
    [(lit "a", stat0, 1); (lit "longer.id", stat0, 2); (lit "b", stat0, 3)] 80 _ _)) _).
  - repeat constructor.
  - lia.
  - vm_compute. reflexivity.
Defined.

(** A READDIRPLUS entry is not larger than the space it reports and fits the
    buffer it is written to. *)
Lemma add_direntry_plus_fits bufsize name e off b : Z.of_nat (length name) < 2 ^ 32 ->
  (fuse_add_direntry_plus true bufsize name e off).2 = Some b ->
  Z.of_nat (length b) = (fuse_add_direntry_plus true bufsize name e off).1 /\
  Z.of_nat (length b) <= bufsize.
Proof.
  intros Hn. unfold fuse_add_direntry_plus.
  set (n := Z.of_nat (length name)) in *.
  assert (u64 (FUSE_NAME_OFFSET_DIRENTPLUS + n) = 152 + n) as ->.
  { apply wrap_id. unfold FUSE_NAME_OFFSET_DIRENTPLUS. lia. }
  destruct (align_spec (152 + n) ltac:(lia)) as [Ha _].
  destruct (Z.ltb_spec bufsize (FUSE_DIRENT_ALIGN (152 + n))) as [Hs|Hs]; cbn [negb orb fst snd]; [done|].
  intros E. apply Some_inj in E. subst b. rewrite length_app, length_enc_fuse_entry_out, Nat2Z.inj_add.
  rewrite length_put_dirent by lia. fold n. lia.
Qed.

(** ** Locks *)

(** A lock range received from the kernel and sent back by
    [fuse_reply_lock] is the same range, including locks to the end of the
    file. *)
Theorem file_lock_roundtrip start en typ pid :
  0 <= start <= en -> en <= OFFSET_MAX -> typ = F_RDLCK \/ typ = F_WRLCK -> 0 <= pid < 2 ^ 31 ->
  lock_out (convert_fuse_file_lock (FileLock start en typ pid)) = FileLock start en typ pid.
Proof.
  intros Hs He Ht Hp. unfold OFFSET_MAX in He. unfold lock_out, convert_fuse_file_lock; cbn [lk_start lk_end lk_type lk_pid l_type l_len l_start l_pid].
  assert (i64 start = start) as -> by (apply swrap_id; lia).
  assert (swrap 16 typ = typ) as -> by (destruct Ht as [-> | ->]; reflexivity).
  assert (u64 start = start) as -> by (apply wrap_id; lia).
  assert (i32 pid = pid) as -> by (apply swrap_id; lia).
  assert (u32 pid = pid) as -> by (apply wrap_id; lia).
  assert (u32 typ = typ) as -> by (destruct Ht as [-> | ->]; reflexivity).
  assert ((typ =? F_UNLCK) = false) as -> by (destruct Ht as [-> | ->]; reflexivity).
  cbn [negb]. destruct (Z.eqb_spec en OFFSET_MAX) as [->|Hne]; [done|]. unfold OFFSET_MAX in Hne.
  assert (i64 (u64 (en - start + 1)) = en - start + 1) as ->.
  { rewrite wrap_id by lia. apply swrap_id; lia. }
  destruct (Z.eqb_spec (en - start + 1) 0) as [Hz|Hz]; [lia|]. f_equal. rewrite wrap_id; lia.
Qed.

Lemma file_lock_roundtrip_witness :
  lock_out (convert_fuse_file_lock (FileLock 100 OFFSET_MAX F_WRLCK 7)) = FileLock 100 OFFSET_MAX F_WRLCK 7.
Proof. apply file_lock_roundtrip; [vm_compute; by split|vm_compute; by intros|by right|lia]. Defined.

(** F3's default timeout is one nanosecond on the wire; without a cache it is
    zero. *)
Example f3_timeout : (calc_timeout_sec dbl_1e_9, calc_timeout_nsec dbl_1e_9) = (0, 1).
Proof. reflexivity. Qed.
