(* ===== verification/Locks.v ===== *)
(** * Byte-range locks of the high-level library: fuse.c

    A node of fuse.c keeps the POSIX locks of its file in a linked list, in
    which the locks of one owner are sorted, disjoint and merged where they
    touch.  Setting a lock edits the list in place: it trims, splits, merges
    and deletes the ranges of the owner that meet the new one.

    The specification of a lock table is the function [held] from owners and
    offsets to lock types.  The theorems say that setting or clearing a lock
    updates that function on the given range and nowhere else, for every list
    in canonical form ([locks_ok]) and back into that form, and that a search
    for a conflict finds one exactly when two owners would conflict at some
    offset. *)

From S2P Require Import Prelude Wire.

(** ** The code *)

(** [struct lock]; [next] is the order of the list. *)
Record lock := Lock { type : Z; start : Z; lend : Z; pid : Z; owner : Z }.

Definition with_start (v : Z) (l : lock) : lock := Lock (type l) v (lend l) (pid l) (owner l).
Definition with_end (v : Z) (l : lock) : lock := Lock (type l) (start l) v (pid l) (owner l).
Definition with_owner (v : Z) (l : lock) : lock := Lock (type l) (start l) (lend l) (pid l) v.

Fixpoint locks_conflict (locks : list lock) (lk : lock) : option lock :=
  match locks with
  | [] => None
  | l :: locks =>
      if negb (owner l =? owner lk) && (start lk <=? lend l) && (start l <=? lend lk) &&
         ((type l =? F_WRLCK) || (type lk =? F_WRLCK))
      then Some l else locks_conflict locks lk
  end.

Definition insert_lock (locks : list lock) (lk : lock) : list lock := lk :: locks.

(** The code after the loop; [newl1] says whether that element was allocated,
    and [None] is a write through a null pointer. *)
Definition insert_place (newl1 : bool) (lk : lock) (locks : list lock) : option (list lock) :=
  if negb (type lk =? F_UNLCK) then
    if newl1 then Some (insert_lock locks lk) else None
  else Some locks.

(** The loop over [*lp]: the list from that position on.  [newl2] says whether
    the second element is allocated and unused.  An iteration leaves out the
    element (deletes it), keeps it and goes on, or stops. *)
Fixpoint insert_loop (fuel : nat) (newl1 newl2 : bool) (lk : lock) (locks : list lock)
    : option (list lock) :=
  match fuel with
  | O => None
  | S fuel =>
  match locks with
  | [] => insert_place newl1 lk []
  | l :: rest =>
      let skip l := cons l <$> insert_loop fuel newl1 newl2 lk rest in
      if negb (owner l =? owner lk) then skip l else
      if type lk =? type l then
        if lend l <? i64 (start lk - 1) then skip l else
        if lend lk <? i64 (start l - 1) then insert_place newl1 lk (l :: rest) else
        if (start l <=? start lk) && (lend lk <=? lend l) then Some (l :: rest) else
        let lk := if start l <? start lk then with_start (start l) lk else lk in
        let lk := if lend lk <? lend l then with_end (lend l) lk else lk in
        insert_loop fuel newl1 newl2 lk rest
      else
        if lend l <? start lk then skip l else
        if lend lk <? start l then insert_place newl1 lk (l :: rest) else
        if (start lk <=? start l) && (lend l <=? lend lk) then
          insert_loop fuel newl1 newl2 lk rest
        else
        if lend l <=? lend lk then skip (with_end (i64 (start lk - 1)) l) else
        if start lk <=? start l then
          insert_place newl1 lk (with_start (i64 (lend lk + 1)) l :: rest)
        else
        if newl2 then
          cons (with_end (i64 (start lk - 1)) l) <$>
            insert_loop fuel newl1 false lk
              (insert_lock rest (with_start (i64 (lend lk + 1)) l))
        else None
  end
  end.

(** [ok1] and [ok2] are the outcomes of the two calls of [malloc].  The result
    is the new list and the value returned; [None] is a write through a null
    pointer.  The caller's lock, which the loop widens, is not used again. *)
Definition locks_insert (ok1 ok2 : bool) (locks : list lock) (lk : lock) : option (list lock * Z) :=
  let need := negb (type lk =? F_UNLCK) || negb (start lk =? 0) || negb (lend lk =? OFFSET_MAX) in
  if need && negb (ok1 && ok2) then Some (locks, - ENOLCK) else
  r ← insert_loop (length locks + 2) need need lk locks; Some (r, 0).

(** The owner is set by the caller. *)
Definition flock_to_lock (fl : flock) : lock :=
  Lock (l_type fl) (l_start fl)
    (if negb (l_len fl =? 0) then i64 (l_start fl + l_len fl - 1) else OFFSET_MAX) (l_pid fl) 0.

Definition lock_to_flock (lk : lock) (fl : flock) : flock :=
  Flock (type lk) (l_whence fl) (start lk)
    (if lend lk =? OFFSET_MAX then 0 else i64 (lend lk - start lk + 1)) (pid lk).

(** ** The specification *)

(** The lock of owner [o] at offset [x], if any. *)
Fixpoint held (locks : list lock) (o x : Z) : option Z :=
  match locks with
  | [] => None
  | l :: locks =>
      if (owner l =? o) && (start l <=? x) && (x <=? lend l) then Some (type l) else held locks o x
  end.

(** A range a lock request can have. *)
Definition range_ok (l : lock) : Prop := 0 <= start l <= lend l /\ lend l <= OFFSET_MAX.

(** A lock of owner [o] begins after [b], and does not touch it when it has the
    type [t]. *)
Definition after (o b t : Z) (l : lock) : Prop :=
  owner l = o -> b < start l /\ (type l = t -> b + 1 < start l).

(** The canonical form: for each owner sorted, disjoint and merged. *)
Fixpoint locks_ok (locks : list lock) : Prop :=
  match locks with
  | [] => True
  | l :: locks =>
      range_ok l /\ type l <> F_UNLCK /\ Forall (after (owner l) (lend l) (type l)) locks /\ locks_ok locks
  end.

(** Setting [lk] in the specification. *)
Definition set_held (h : Z -> Z -> option Z) (lk : lock) (o x : Z) : option Z :=
  if (owner lk =? o) && (start lk <=? x) && (x <=? lend lk)
  then if type lk =? F_UNLCK then None else Some (type lk)
  else h o x.

(** Two types conflict when one of them is exclusive. *)
Definition clash (t u : Z) : bool := (t =? F_WRLCK) || (u =? F_WRLCK).

(** ** Facts *)

Lemma i64_offset z : - 1 <= z <= OFFSET_MAX -> i64 z = z.
Proof. unfold OFFSET_MAX. intros. apply swrap_id; [lia|]. change (2 ^ (64 - 1)) with 9223372036854775808. lia. Qed.

Lemma after_weaken o b b' t l : b' <= b -> after o b t l -> after o b' t l.
Proof. intros Hb Ha Ho. destruct (Ha Ho) as [? Ht]. split; [lia|]. intros E. specialize (Ht E). lia. Qed.

Lemma after_retype o b b' t t' l : b' < b -> after o b t l -> after o b' t' l.
Proof. intros Hb Ha Ho. destruct (Ha Ho) as [? Ht]. split; [lia|]. intros; lia. Qed.

Lemma afters_weaken o b b' t ls : b' <= b -> Forall (after o b t) ls -> Forall (after o b' t) ls.
Proof. intros Hb Hl. eapply Forall_impl; [exact Hl|]. intros l. by apply after_weaken. Qed.

Lemma afters_retype o b b' t t' ls : b' < b -> Forall (after o b t) ls -> Forall (after o b' t') ls.
Proof. intros Hb Hl. eapply Forall_impl; [exact Hl|]. intros l. by apply after_retype. Qed.

Lemma held_before o b t ls x : Forall (after o b t) ls -> x <= b -> held ls o x = None.
Proof.
  intros Hls Hx. induction Hls as [|l ls Hl _ IH]; cbn [held]; [done|]. rewrite IH.
  destruct (Z.eqb_spec (owner l) o) as [E|]; [|done]. destruct (Hl E) as [? _].
  cbn. by destruct (Z.leb_spec (start l) x); [lia|].
Qed.

(** Case analysis on the comparisons of a pointwise equation. *)
Ltac at_point :=
  repeat (zcases; cbn [andb orb negb]; try done; try congruence).

(** Removing and adding one element at the head. *)
Lemma held_cons l ls o x :
  held (l :: ls) o x = if (owner l =? o) && (start l <=? x) && (x <=? lend l) then Some (type l) else held ls o x.
Proof. done. Qed.

(** What the loop must establish from a position on: the canonical form, the
    specification, and that nothing moved towards the front. *)
Definition inserted (lk : lock) (ls ls' : list lock) : Prop :=
  locks_ok ls' /\
  (forall o x, held ls' o x = set_held (held ls) lk o x) /\
  (forall o b t, Forall (after o b t) ls -> after o b t lk -> Forall (after o b t) ls').

Definition newl1_ok (newl1 : bool) (lk : lock) : Prop := type lk = F_UNLCK \/ newl1 = true.

(** Every range of the owner of [lk] lies behind it. *)
Lemma insert_place_ok newl1 lk ls : range_ok lk -> newl1_ok newl1 lk -> locks_ok ls ->
  Forall (after (owner lk) (lend lk) (type lk)) ls ->
  exists ls', insert_place newl1 lk ls = Some ls' /\ inserted lk ls ls'.
Proof.
  intros Hr Hn Hok Ha. unfold insert_place, insert_lock.
  destruct (Z.eqb_spec (type lk) F_UNLCK) as [E|E]; cbn [negb].
  - exists ls. split; [done|]. split; [done|]. split; [|done]. intros o x. unfold set_held.
    destruct (Z.eqb_spec (owner lk) o) as [<-|]; [|done]. zcases; cbn; try done; try congruence.
    eapply held_before; [done|lia].
  - destruct Hn as [?| ->]; [done|]. exists (lk :: ls). split; [done|]. split; [done|]. split.
    + intros o x. rewrite held_cons. unfold set_held. by destruct (Z.eqb_spec (type lk) F_UNLCK).
    + intros o b t Hls Hlk. by constructor.
Qed.

(** Keeping an element that [lk] does not meet. *)
Lemma inserted_skip lk l ls ls' : inserted lk ls ls' -> range_ok l -> type l <> F_UNLCK ->
  Forall (after (owner l) (lend l) (type l)) ls -> after (owner l) (lend l) (type l) lk ->
  inserted lk (l :: ls) (l :: ls').
Proof.
  intros (Hok & Hh & Ha) Hr Ht Hl Hlk. split; [by cbn; auto|]. split.
  - intros o x. rewrite held_cons, Hh. unfold set_held. rewrite held_cons.
    destruct (Z.eqb_spec (owner l) o) as [E|]; cbn; [|done].
    destruct (Z.eqb_spec (owner lk) o) as [E'|]; cbn; [|done].
    destruct (Hlk ltac:(congruence)) as [? _]. unfold range_ok in *. zcases; done.
  - intros o b t [? ?]%Forall_cons ?. constructor; auto.
Qed.

(** Deleting an element that [lk] covers. *)
Lemma inserted_delete lk l ls ls' : inserted lk ls ls' -> owner l = owner lk ->
  start lk <= start l -> lend l <= lend lk -> inserted lk (l :: ls) ls'.
Proof.
  intros (Hok & Hh & Ha) Ho Hs He. split; [done|]. split.
  - intros o x. rewrite Hh. unfold set_held. rewrite held_cons, Ho.
    destruct (Z.eqb_spec (owner lk) o); cbn; [|done]. zcases; done.
  - intros o b t [? ?]%Forall_cons ?. auto.
Qed.

(** [lk] merged with an element of its type that it meets or touches. *)
Definition merge_lock (l lk : lock) : lock :=
  let lk := if start l <? start lk then with_start (start l) lk else lk in
  if lend lk <? lend l then with_end (lend l) lk else lk.

Lemma merge_lock_fields l lk : type (merge_lock l lk) = type lk /\ owner (merge_lock l lk) = owner lk /\
  start (merge_lock l lk) = Z.min (start l) (start lk) /\ lend (merge_lock l lk) = Z.max (lend l) (lend lk).
Proof. unfold merge_lock. zcases; cbn in *; repeat split; lia. Qed.

Lemma inserted_merge lk l ls ls' : inserted (merge_lock l lk) ls ls' -> owner l = owner lk ->
  type l = type lk -> type l <> F_UNLCK -> range_ok l -> range_ok lk ->
  start lk - 1 <= lend l -> start l - 1 <= lend lk ->
  inserted lk (l :: ls) ls'.
Proof.
  intros (Hok & Hh & Ha) Ho Ht Hu Hrl Hr Hs He. destruct (merge_lock_fields l lk) as (Mt & Mo & Ms & Me).
  unfold range_ok in *. split; [done|]. split.
  - intros o x. rewrite Hh. unfold set_held. rewrite held_cons, Mt, Mo, Ms, Me, Ho, Ht.
    destruct (Z.eqb_spec (owner lk) o); cbn; [|done].
    destruct (Z.eqb_spec (type lk) F_UNLCK); [congruence|]. zcases; done.
  - intros o b t [Hl ?]%Forall_cons Hlk. apply Ha; [done|]. intros Eo. rewrite Mo in Eo. rewrite Mt, Ms.
    destruct (Hl ltac:(congruence)) as [? Hl2], (Hlk Eo) as [? Hlk2]. split; [lia|].
    intros E. specialize (Hl2 ltac:(congruence)). specialize (Hlk2 E). lia.
Qed.

(** Keeping the part of an element that lies before [lk]. *)
Lemma inserted_trim lk l ls ls' : inserted lk ls ls' -> owner l = owner lk -> type l <> type lk ->
  type l <> F_UNLCK -> range_ok l -> range_ok lk -> start l < start lk <= lend l ->
  lend l <= lend lk -> Forall (after (owner l) (lend l) (type l)) ls ->
  inserted lk (l :: ls) (with_end (start lk - 1) l :: ls').
Proof.
  intros Hi Ho Ht Hu Hrl Hr Hs He Hf. unfold range_ok in *.
  assert (inserted lk (with_end (start lk - 1) l :: ls) (with_end (start lk - 1) l :: ls')) as (Hok & Hh & Ha).
  { apply inserted_skip; cbn; [done|unfold range_ok; cbn; lia|done| |].
    - eapply afters_weaken; [|done]. lia.
    - intros _. split; [lia|]. intros; congruence. }
  split; [done|]. split.
  - intros o x. rewrite Hh. unfold set_held. rewrite !held_cons. cbn [with_end owner start lend type]. rewrite Ho.
    destruct (Z.eqb_spec (owner lk) o) as [<-|]; cbn; [|done]. zcases; try done.
  - intros o b t [Hl ?]%Forall_cons Hlk. apply Ha; [|done]. by constructor.
Qed.

(** Cutting an element down to the part behind [lk]. *)
Lemma inserted_cut lk l ls ls' : inserted lk (with_start (lend lk + 1) l :: ls) ls' -> owner l = owner lk ->
  range_ok l -> range_ok lk -> start lk <= start l <= lend lk -> lend lk < lend l ->
  inserted lk (l :: ls) ls'.
Proof.
  intros (Hok & Hh & Ha) Ho Hrl Hr Hs He. unfold range_ok in *. split; [done|]. split.
  - intros o x. rewrite Hh. unfold set_held. rewrite !held_cons. cbn [with_start owner start lend type]. rewrite Ho.
    destruct (Z.eqb_spec (owner lk) o) as [<-|]; cbn; [|done]. zcases; done.
  - intros o b t [Hl ?]%Forall_cons Hlk. apply Ha; [|done]. constructor; [|done]. intros E. cbn in *.
    destruct (Hl E) as [? Hl2]. split; [lia|]. intros E2. specialize (Hl2 E2). lia.
Qed.

Lemma locks_ok_cons l ls : locks_ok (l :: ls) ->
  range_ok l /\ type l <> F_UNLCK /\ Forall (after (owner l) (lend l) (type l)) ls /\ locks_ok ls.
Proof. done. Qed.

(** An element of the owner's list that begins behind [lk], and all after it. *)
Lemma afters_head lk l ls : locks_ok (l :: ls) -> owner l = owner lk -> lend lk < start l ->
  (type lk = type l -> lend lk + 1 < start l) -> Forall (after (owner lk) (lend lk) (type lk)) (l :: ls).
Proof.
  intros (Hr & _ & Hf & _) Ho Hs Ht. unfold range_ok in Hr. constructor.
  - intros _. split; [done|]. intros; by apply Ht.
  - rewrite <- Ho. eapply afters_retype; [|done]. lia.
Qed.

(** The rest of an element after [lk] has been cut out of it, in place. *)
Lemma cut_ok lk l ls : locks_ok (l :: ls) -> range_ok lk -> lend lk < lend l ->
  locks_ok (with_start (lend lk + 1) l :: ls).
Proof.
  intros (Hr & Ht & Hf & Hok) Hrk He. unfold range_ok in *. cbn. unfold range_ok; cbn. repeat split; try done; lia.
Qed.

(** Cutting [lk] out of the middle of an element. *)
Lemma inserted_split lk l ls ls' : inserted lk (with_start (lend lk + 1) l :: ls) ls' ->
  locks_ok (l :: ls) -> owner l = owner lk -> type l <> type lk -> range_ok lk ->
  start l < start lk -> lend lk < lend l ->
  inserted lk (l :: ls) (with_end (start lk - 1) l :: ls').
Proof.
  intros (Hok & Hh & Ha) (Hrl & Hu & Hf & _) Ho Ht Hr Hs He. unfold range_ok in *. split; [|split].
  - cbn. unfold range_ok. cbn. repeat split; try done; try lia. apply Ha.
    + constructor; [intros _; cbn; lia|]. eapply afters_weaken; [|done]. lia.
    + intros _. split; [lia|]. congruence.
  - intros o x. rewrite held_cons, Hh. unfold set_held. rewrite !held_cons.
    cbn [with_start with_end owner start lend type]. rewrite Ho.
    destruct (Z.eqb_spec (owner lk) o) as [<-|]; cbn; [|done]. zcases; done.
  - intros o b t [Hl ?]%Forall_cons Hlk. constructor; [exact Hl|]. apply Ha; [|done]. constructor; [|done].
    intros E. cbn in *. destruct (Hl E) as [? Hl2]. split; [lia|]. intros E2. specialize (Hl2 E2). lia.
Qed.

(** One iteration at an element of the owner, from what the rest of the loop
    does. *)
Section Iteration.
Context (newl1 newl2 : bool) (fuel : nat) (lk l : lock) (ls : list lock).
Context (IH : forall lk, range_ok lk -> newl1_ok newl1 lk -> newl2 = true \/ lend lk = OFFSET_MAX ->
  exists ls', insert_loop fuel newl1 newl2 lk ls = Some ls' /\ inserted lk ls ls').
Context (Hfuel : (0 < fuel)%nat) (Hr : range_ok lk) (Hn1 : newl1_ok newl1 lk).
Context (Hn2 : newl2 = true \/ lend lk = OFFSET_MAX) (Hok : locks_ok (l :: ls)) (Ho : owner l = owner lk).

Lemma insert_same_ok : type lk = type l ->
  exists ls', insert_loop (S fuel) newl1 newl2 lk (l :: ls) = Some ls' /\ inserted lk (l :: ls) ls'.
Proof.
  intros Ht. pose proof (locks_ok_cons _ _ Hok) as ([Hrl1 Hrl2] & Hu & Hf & Hok'). pose proof Hr as [Hr1 Hr2].
  destruct (IH lk) as (ls' & E & Hi); try done. cbn [insert_loop].
  rewrite Ho, Z.eqb_refl, Ht, Z.eqb_refl, E, !i64_offset by lia. cbn [negb].
  destruct (Z.ltb_spec (lend l) (start lk - 1)).
  { eexists; split; [done|]. apply inserted_skip; try done. intros _; split; lia. }
  destruct (Z.ltb_spec (lend lk) (start l - 1)).
  { apply insert_place_ok; try done. apply afters_head; try done; lia. }
  destruct ((start l <=? start lk) && (lend lk <=? lend l)) eqn:Ec.
  { apply andb_true_iff in Ec as [?%Z.leb_le ?%Z.leb_le]. exists (l :: ls). split; [done|].
    split; [done|]. split; [|done]. intros o x. unfold set_held. rewrite held_cons, Ht, Ho.
    destruct (Z.eqb_spec (owner lk) o); cbn; [|done]. destruct (Z.eqb_spec (type l) F_UNLCK); [done|]. zcases; done. }
  fold (merge_lock l lk). destruct (merge_lock_fields l lk) as (Mt & Mo & Ms & Me).
  destruct (IH (merge_lock l lk)) as (ls2 & -> & Hi2).
  - unfold range_ok. rewrite Ms, Me. lia.
  - unfold newl1_ok. by rewrite Mt.
  - rewrite Me. destruct Hn2; [by left|right; lia].
  - exists ls2. split; [done|]. apply inserted_merge; try done; lia.
Qed.

Lemma insert_other_ok : type lk <> type l ->
  exists ls', insert_loop (S fuel) newl1 newl2 lk (l :: ls) = Some ls' /\ inserted lk (l :: ls) ls'.
Proof.
  intros Ht. pose proof (locks_ok_cons _ _ Hok) as ([Hrl1 Hrl2] & Hu & Hf & Hok'). pose proof Hr as [Hr1 Hr2].
  destruct (IH lk) as (ls' & E & Hi); try done. cbn [insert_loop].
  destruct (Z.eqb_spec (type lk) (type l)) as [|_]; [done|].
  rewrite Ho, Z.eqb_refl, E, (i64_offset (start lk - 1)) by lia. cbn [negb].
  destruct (Z.ltb_spec (lend l) (start lk)).
  { eexists; split; [done|]. apply inserted_skip; try done. }
  destruct (Z.ltb_spec (lend lk) (start l)); [by apply insert_place_ok, afters_head|].
  destruct ((start lk <=? start l) && (lend l <=? lend lk)) eqn:Ec.
  { apply andb_true_iff in Ec as [?%Z.leb_le ?%Z.leb_le]. exists ls'. split; [done|]. by apply inserted_delete. }
  apply andb_false_iff in Ec.
  destruct (Z.leb_spec (lend l) (lend lk)).
  { destruct Ec as [?%Z.leb_gt|?]; [|done]. eexists; split; [done|]. apply inserted_trim; try done; try lia; congruence. }
  rewrite (i64_offset (lend lk + 1)) by lia. set (l2 := with_start (lend lk + 1) l).
  destruct (insert_place_ok newl1 lk (l2 :: ls)) as (ls2 & Ep & Hi2); try done.
  { by apply cut_ok. } { apply afters_head; [by apply cut_ok|done|cbn; lia|done]. }
  destruct (Z.leb_spec (start lk) (start l)).
  { exists ls2. split; [done|]. apply inserted_cut; try done; lia. }
  destruct Hn2 as [-> |]; [|lia]. destruct fuel as [|fuel']; [lia|]. cbn [insert_loop insert_lock].
  change (owner l2) with (owner l). change (type l2) with (type l). change (lend l2) with (lend l).
  change (start l2) with (lend lk + 1). rewrite Ho, Z.eqb_refl. cbn [negb].
  destruct (Z.eqb_spec (type lk) (type l)) as [|_]; [done|].
  destruct (Z.ltb_spec (lend l) (start lk)); [lia|]. destruct (Z.ltb_spec (lend lk) (lend lk + 1)); [|lia].
  rewrite Ep. eexists; split; [done|]. by apply inserted_split.
Qed.
End Iteration.

(** The loop returns, within its fuel, with the lock set. *)
Lemma insert_loop_ok newl1 newl2 ls : forall fuel lk, (length ls + 2 <= fuel)%nat -> range_ok lk ->
  newl1_ok newl1 lk -> newl2 = true \/ lend lk = OFFSET_MAX -> locks_ok ls ->
  exists ls', insert_loop fuel newl1 newl2 lk ls = Some ls' /\ inserted lk ls ls'.
Proof.
  induction ls as [|l ls IH]; intros [|fuel] lk Hfuel Hr Hn1 Hn2 Hok; cbn [length] in Hfuel; try lia.
  { by apply insert_place_ok. }
  pose proof (locks_ok_cons _ _ Hok) as (Hrl & Hu & Hf & Hok').
  assert (forall lk, range_ok lk -> newl1_ok newl1 lk -> newl2 = true \/ lend lk = OFFSET_MAX ->
    exists ls', insert_loop fuel newl1 newl2 lk ls = Some ls' /\ inserted lk ls ls') as IH' by (intros; apply IH; auto; lia).
  destruct (decide (owner l = owner lk)) as [Ho|Ho].
  - destruct (decide (type lk = type l)); [apply insert_same_ok|apply insert_other_ok]; auto; lia.
  - destruct (IH' lk) as (ls' & E & Hi); try done. cbn [insert_loop]. rewrite E.
    destruct (Z.eqb_spec (owner l) (owner lk)); [done|]. cbn.
    eexists; split; [done|]. apply inserted_skip; try done.
Qed.

(** An allocation is needed, and fails. *)
Definition no_memory (ok1 ok2 : bool) (lk : lock) : bool :=
  (negb (type lk =? F_UNLCK) || negb (start lk =? 0) || negb (lend lk =? OFFSET_MAX)) && negb (ok1 && ok2).

Lemma locks_insert_ok ok1 ok2 ls lk : locks_ok ls -> range_ok lk ->
  if no_memory ok1 ok2 lk then locks_insert ok1 ok2 ls lk = Some (ls, - ENOLCK) else
  exists ls', locks_insert ok1 ok2 ls lk = Some (ls', 0) /\ inserted lk ls ls'.
Proof.
  intros Hok Hr. unfold locks_insert, no_memory. cbv zeta.
  set (need := negb (type lk =? F_UNLCK) || _ || _). destruct (need && negb (ok1 && ok2)); [done|].
  destruct (insert_loop_ok need need ls (length ls + 2) lk) as (ls' & -> & Hi); try done.
  - unfold newl1_ok, need. destruct (Z.eqb_spec (type lk) F_UNLCK); [by left|by right].
  - unfold need. destruct (Z.eqb_spec (lend lk) OFFSET_MAX); [by right|left]. by rewrite orb_true_r.
  - by exists ls'.
Qed.

Lemma locks_ok_elem ls l : locks_ok ls -> l ∈ ls -> range_ok l.
Proof.
  induction ls as [|k ls IH]; [by intros _ ?%not_elem_of_nil|].
  intros (Hr & _ & _ & Hok) [->|Hl]%elem_of_cons; [done|by apply IH].
Qed.

(** An element holds its range. *)
Lemma held_elem ls l x : locks_ok ls -> l ∈ ls -> start l <= x <= lend l -> held ls (owner l) x = Some (type l).
Proof.
  intros Hok Hl Hx. induction ls as [|k ls IH]; [by apply not_elem_of_nil in Hl|].
  destruct Hok as (Hr & _ & Hf & Hok). rewrite held_cons. apply elem_of_cons in Hl as [<-|Hl].
  - rewrite Z.eqb_refl. by zcases.
  - rewrite (IH Hok Hl). rewrite Forall_forall in Hf. destruct (Z.eqb_spec (owner k) (owner l)) as [E|]; [|done].
    destruct (Hf l Hl (eq_sym E)) as [? _]. cbn. zcases; done.
Qed.

(** And what is held is an element's. *)
Lemma held_inv ls o x t : held ls o x = Some t -> exists l, l ∈ ls /\ owner l = o /\ type l = t /\ start l <= x <= lend l.
Proof.
  induction ls as [|l ls IH]; [done|]. rewrite held_cons. intros E.
  destruct ((owner l =? o) && (start l <=? x) && (x <=? lend l)) eqn:Eb.
  - injection E as <-. apply andb_true_iff in Eb as [[?%Z.eqb_eq ?%Z.leb_le]%andb_true_iff ?%Z.leb_le].
    exists l. split; [by left|]. auto.
  - destruct (IH E) as (k & Hk & ?). exists k. split; [by right|done].
Qed.

(** Two locks overlap and conflict. *)
Definition conflicting (l lk : lock) : bool :=
  negb (owner l =? owner lk) && (start lk <=? lend l) && (start l <=? lend lk) && clash (type l) (type lk).

Lemma locks_conflict_find ls lk :
  match locks_conflict ls lk with
  | Some l => l ∈ ls /\ conflicting l lk = true
  | None => forall l, l ∈ ls -> conflicting l lk = false
  end.
Proof.
  induction ls as [|l ls IH]; cbn [locks_conflict]; [intros l Hl; by apply not_elem_of_nil in Hl|].
  fold (clash (type l) (type lk)). fold (conflicting l lk). destruct (conflicting l lk) eqn:E.
  - split; [by left|done].
  - destruct (locks_conflict ls lk) as [k|]; [destruct IH; split; [by right|done]|].
    intros k [->|Hk]%elem_of_cons; [done|by apply IH].
Qed.

(** *** Histories of requests *)

(** A request: the outcomes of the allocations and the lock. *)
Record lock_req := LockReq { ok1 : bool; ok2 : bool; req : lock }.

(** The list of a node after a sequence of requests. *)
Definition run_locks (rs : list lock_req) : option (list lock) :=
  foldl (fun s r => ls ← s; r ← locks_insert (ok1 r) (ok2 r) ls (req r); Some r.1) (Some []) rs.

(** The specification after them: the last successful request that covers an
    offset decides. *)
Definition spec_locks (rs : list lock_req) : Z -> Z -> option Z :=
  foldl (fun h r => if no_memory (ok1 r) (ok2 r) (req r) then h else set_held h (req r)) (fun _ _ => None) rs.

(** C31: The list of locks of a node implements the function from owners and
    offsets to lock types.  After any sequence of requests to lock or unlock
    ranges the code has not failed, the list is sorted, disjoint and merged for
    each owner, and every offset has the type that the last request covering it
    left there for that owner; a request that fails for lack of memory changes
    nothing. *)
Theorem lock_table_refines rs : Forall (fun r => range_ok (req r)) rs ->
  exists ls, run_locks rs = Some ls /\ locks_ok ls /\ forall o x, held ls o x = spec_locks rs o x.
Proof.
  induction rs as [|r rs IH] using rev_ind; intros Hrs.
  { exists []. repeat split; done. }
  apply Forall_app in Hrs as [Hrs [Hr _]%Forall_cons]. destruct (IH Hrs) as (ls & E & Hok & Hh).
  unfold run_locks, spec_locks in *. rewrite !foldl_app, E. cbn [foldl mbind option_bind].
  pose proof (locks_insert_ok (ok1 r) (ok2 r) ls (req r) Hok Hr) as Hi.
  destruct (no_memory (ok1 r) (ok2 r) (req r)).
  - rewrite Hi. cbn. by exists ls.
  - destruct Hi as (ls' & -> & Hok' & Hh' & _). exists ls'. split; [done|]. split; [done|]. intros o x. rewrite Hh'.
    unfold set_held. by rewrite Hh.
Qed.

Lemma lock_table_refines_witness :
  let rs := [LockReq true true (Lock F_RDLCK 0 9 1 7); LockReq true true (Lock F_WRLCK 3 5 1 7);
             LockReq true true (Lock F_RDLCK 4 20 1 8); LockReq true true (Lock F_UNLCK 0 1 1 7);
             LockReq true true (Lock F_RDLCK 3 5 1 7)] in
  run_locks rs = Some [Lock F_RDLCK 4 20 1 8; Lock F_RDLCK 2 9 1 7] /\
  exists ls, run_locks rs = Some ls /\ locks_ok ls /\ forall o x, held ls o x = spec_locks rs o x.
Proof.
  split; [vm_compute; reflexivity|]. apply lock_table_refines. unfold OFFSET_MAX.
  repeat constructor; unfold OFFSET_MAX; cbn; lia.
Defined.

(** The search that answers F_GETLK is exact.  It reports a lock exactly
    when at some offset of the requested range another owner holds a lock and
    one of the two is exclusive; and the lock it reports is such a lock, held
    on the whole of its range. *)
Theorem getlk_exact ls lk : locks_ok ls -> range_ok lk ->
  (is_Some (locks_conflict ls lk) <->
   exists o x t, o <> owner lk /\ start lk <= x <= lend lk /\ held ls o x = Some t /\ clash t (type lk) = true) /\
  (forall l, locks_conflict ls lk = Some l ->
   owner l <> owner lk /\ clash (type l) (type lk) = true /\ start lk <= lend l /\ start l <= lend lk /\
   forall x, start l <= x <= lend l -> held ls (owner l) x = Some (type l)).
Proof.
  intros Hok Hr. pose proof (locks_conflict_find ls lk) as Hf. unfold range_ok in Hr.
  assert (forall l, conflicting l lk = true -> owner l <> owner lk /\ clash (type l) (type lk) = true /\
    start lk <= lend l /\ start l <= lend lk) as Hc.
  { intros l. unfold conflicting. rewrite !andb_true_iff, negb_true_iff, Z.eqb_neq, !Z.leb_le. tauto. }
  split; [split|].
  - intros [l E]. rewrite E in Hf. destruct Hf as [Hl (? & ? & ? & ?)%Hc].
    exists (owner l), (Z.max (start l) (start lk)), (type l). repeat split; try done; try lia.
    apply held_elem; [done|done|]. pose proof (locks_ok_elem ls l Hok Hl) as [? _]. lia.
  - intros (o & x & t & Ho & Hx & (l & Hl & <- & <- & Hxl)%held_inv & Hcl).
    destruct (locks_conflict ls lk); [by eexists|]. specialize (Hf l Hl). unfold conflicting in Hf. revert Hf.
    rewrite Hcl. destruct (Z.eqb_spec (owner l) (owner lk)); [done|]. by zcases.
  - intros l E. rewrite E in Hf. destruct Hf as [Hl (? & ? & ? & ?)%Hc]. repeat split; try done.
    intros x Hx. by apply held_elem.
Qed.

Lemma getlk_exact_witness :
  let ls := [Lock F_RDLCK 4 20 1 8; Lock F_RDLCK 2 9 1 7] in
  locks_conflict ls (Lock F_WRLCK 21 30 1 9) = None /\
  locks_conflict ls (Lock F_WRLCK 8 30 1 8) = Some (Lock F_RDLCK 2 9 1 7) /\
  (is_Some (locks_conflict ls (Lock F_WRLCK 8 30 1 8)) <->
   exists o x t, o <> 8 /\ 8 <= x <= 30 /\ held ls o x = Some t /\ clash t F_WRLCK = true).
Proof.
  cbv zeta. split; [reflexivity|]. split; [reflexivity|].
  apply (getlk_exact [Lock F_RDLCK 4 20 1 8; Lock F_RDLCK 2 9 1 7] (Lock F_WRLCK 8 30 1 8)).
  - unfold OFFSET_MAX, range_ok, after, F_UNLCK, F_RDLCK; cbn. unfold range_ok, OFFSET_MAX; cbn. repeat split; try done; try lia.
    constructor; [|constructor]. intros E; cbn in E; lia.
  - unfold range_ok, OFFSET_MAX; cbn; lia.
Defined.
