(* ===== verification/Node.v ===== *)
(** * The nodes of the high-level library: fuse.c

    The high-level library gives every file the kernel knows a node, with the
    number the kernel uses, a name, and a pointer to the node of its directory.
    A node is alive while the kernel has looked it up or another node names it
    as its directory; when the last reference goes it is taken out of both
    hash tables and freed, and its directory loses a reference in turn.

    This file is the code: a heap of nodes, the two tables of [NodeTable], the
    list of forgotten nodes that the option remember keeps for a while, and the
    operations that change them.  The memory of nodes is the interface
    [NodeMem], which [Slab] implements.  [NodeTree] proves what the operations
    do. *)

From Stdlib Require Import Floats.SpecFloat.
From S2P Require Import Prelude NodeTable Wire Locks.

(** ** Data *)

Definition FUSE_ROOT_ID : Z := 1.
Definition FUSE_UNKNOWN_INO : Z := 4294967295.

Record timespec := Timespec { tv_sec : Z; tv_nsec : Z }.

Definition time0 : timespec := Timespec 0 0.

(** [struct node].  [name_next] and [id_next] are the order of the chains of
    the tables; [inline_name] only decides whether storing a name allocates. *)
Record node := MkNode {
  nodeid : Z; generation : Z; refctr : Z; parent : option Z; name : option bytes; nlookup : Z;
  open_count : Z; stat_updated : timespec; mtime : timespec; nsize : Z; locks : list lock;
  is_hidden : bool; cache_valid : bool; treelock : Z }.

(** What [memset] leaves. *)
Definition node0 : node := MkNode 0 0 0 None None 0 0 time0 time0 0 [] false false 0.

Definition with_ids (i g : Z) (n : node) : node := MkNode i g (refctr n) (parent n) (name n) (nlookup n)
  (open_count n) (stat_updated n) (mtime n) (nsize n) (locks n) (is_hidden n) (cache_valid n) (treelock n).
Definition with_refctr (v : Z) (n : node) : node := MkNode (nodeid n) (generation n) v (parent n) (name n) (nlookup n)
  (open_count n) (stat_updated n) (mtime n) (nsize n) (locks n) (is_hidden n) (cache_valid n) (treelock n).
Definition with_place (d : option Z) (v : option bytes) (n : node) : node := MkNode (nodeid n) (generation n) (refctr n) d v
  (nlookup n) (open_count n) (stat_updated n) (mtime n) (nsize n) (locks n) (is_hidden n) (cache_valid n) (treelock n).
Definition with_nlookup (v : Z) (n : node) : node := MkNode (nodeid n) (generation n) (refctr n) (parent n) (name n) v
  (open_count n) (stat_updated n) (mtime n) (nsize n) (locks n) (is_hidden n) (cache_valid n) (treelock n).
Definition with_open_count (v : Z) (n : node) : node := MkNode (nodeid n) (generation n) (refctr n) (parent n) (name n)
  (nlookup n) v (stat_updated n) (mtime n) (nsize n) (locks n) (is_hidden n) (cache_valid n) (treelock n).
Definition with_stat (u m : timespec) (z : Z) (n : node) : node := MkNode (nodeid n) (generation n) (refctr n) (parent n)
  (name n) (nlookup n) (open_count n) u m z (locks n) (is_hidden n) (cache_valid n) (treelock n).
Definition with_locks (v : list lock) (n : node) : node := MkNode (nodeid n) (generation n) (refctr n) (parent n) (name n)
  (nlookup n) (open_count n) (stat_updated n) (mtime n) (nsize n) v (is_hidden n) (cache_valid n) (treelock n).
Definition with_hidden (v : bool) (n : node) : node := MkNode (nodeid n) (generation n) (refctr n) (parent n) (name n)
  (nlookup n) (open_count n) (stat_updated n) (mtime n) (nsize n) (locks n) v (cache_valid n) (treelock n).
Definition with_cache_valid (v : bool) (n : node) : node := MkNode (nodeid n) (generation n) (refctr n) (parent n) (name n)
  (nlookup n) (open_count n) (stat_updated n) (mtime n) (nsize n) (locks n) (is_hidden n) v (treelock n).
Definition with_treelock (v : Z) (n : node) : node := MkNode (nodeid n) (generation n) (refctr n) (parent n) (name n)
  (nlookup n) (open_count n) (stat_updated n) (mtime n) (nsize n) (locks n) (is_hidden n) (cache_valid n) v.

(** The fields of [struct fuse_config] that are read after start-up. *)
Record fuse_config := Config {
  set_gid : bool; c_gid : Z; set_uid : bool; c_uid : Z; set_mode : bool; c_umask : Z;
  entry_timeout : double; negative_timeout : double; attr_timeout : double; intr : bool;
  remember : Z; hard_remove : bool; use_ino : bool; readdir_ino : bool; direct_io : bool;
  kernel_cache : bool; auto_cache : bool; ac_attr_timeout : double; nullpath_ok : bool }.

(** [struct lock_queue_element].  An element is known by the number [qid] of the
    waiting call.  The code keeps pointers to the caller's variables: [want1]
    says that [path1] is not null, [wr1] that [wnode1] is not, and [path1] and
    [wnode1] are what has been stored there; the same for the second path. *)
Record lock_queue_element := Queued {
  qid : Z;
  nodeid1 : Z; name1 : option bytes; want1 : bool; wr1 : bool; path1 : option bytes; wnode1 : option Z;
  nodeid2 : Z; name2 : option bytes; want2 : bool; wr2 : bool; path2 : option bytes; wnode2 : option Z;
  err : Z; first_locked : bool; second_locked : bool; qdone : bool }.

(** The memory nodes live in.  [None] is a broken heap; [alloc_node] may also
    find no memory. *)
Class NodeMem (M : Type) := {
  alloc_node : M -> option (option Z * M);
  free_node_mem : Z -> M -> option M }.

(** [struct fuse].  [heap] and [clock] are the outcomes of the next allocations
    other than of nodes, and the next readings of the clock. *)
Record fuse (M : Type) := MkFuse {
  name_table : node_table; id_table : node_table; lru_table : list Z;
  ctr : Z; fgeneration : Z; hidectr : Z; conf : fuse_config; lockq : list lock_queue_element;
  slabs : M; nodes : gmap Z node; forget_time : gmap Z timespec; heap : list bool; clock : list timespec }.
Arguments MkFuse {M}.
Arguments name_table {M}.
Arguments id_table {M}.
Arguments lru_table {M}.
Arguments ctr {M}.
Arguments fgeneration {M}.
Arguments hidectr {M}.
Arguments conf {M}.
Arguments lockq {M}.
Arguments slabs {M}.
Arguments nodes {M}.
Arguments forget_time {M}.
Arguments heap {M}.
Arguments clock {M}.

Section Code.
Context {M : Type} `{NodeMem M}.

Abbreviation F := (ST (fuse M)).

(** ** Access to the state *)

Definition set_nodes (m : gmap Z node) (f : fuse M) : fuse M := MkFuse (name_table f) (id_table f) (lru_table f)
  (ctr f) (fgeneration f) (hidectr f) (conf f) (lockq f) (slabs f) m (forget_time f) (heap f) (clock f).
Definition set_name_table (t : node_table) (f : fuse M) : fuse M := MkFuse t (id_table f) (lru_table f)
  (ctr f) (fgeneration f) (hidectr f) (conf f) (lockq f) (slabs f) (nodes f) (forget_time f) (heap f) (clock f).
Definition set_id_table (t : node_table) (f : fuse M) : fuse M := MkFuse (name_table f) t (lru_table f)
  (ctr f) (fgeneration f) (hidectr f) (conf f) (lockq f) (slabs f) (nodes f) (forget_time f) (heap f) (clock f).
Definition set_lru (l : list Z) (f : fuse M) : fuse M := MkFuse (name_table f) (id_table f) l
  (ctr f) (fgeneration f) (hidectr f) (conf f) (lockq f) (slabs f) (nodes f) (forget_time f) (heap f) (clock f).
Definition set_ctr (c g : Z) (f : fuse M) : fuse M := MkFuse (name_table f) (id_table f) (lru_table f)
  c g (hidectr f) (conf f) (lockq f) (slabs f) (nodes f) (forget_time f) (heap f) (clock f).
Definition set_hidectr (c : Z) (f : fuse M) : fuse M := MkFuse (name_table f) (id_table f) (lru_table f)
  (ctr f) (fgeneration f) c (conf f) (lockq f) (slabs f) (nodes f) (forget_time f) (heap f) (clock f).
Definition set_lockq (q : list lock_queue_element) (f : fuse M) : fuse M := MkFuse (name_table f) (id_table f) (lru_table f)
  (ctr f) (fgeneration f) (hidectr f) (conf f) q (slabs f) (nodes f) (forget_time f) (heap f) (clock f).
Definition set_slabs (m : M) (f : fuse M) : fuse M := MkFuse (name_table f) (id_table f) (lru_table f)
  (ctr f) (fgeneration f) (hidectr f) (conf f) (lockq f) m (nodes f) (forget_time f) (heap f) (clock f).
Definition set_forget_times (m : gmap Z timespec) (f : fuse M) : fuse M := MkFuse (name_table f) (id_table f) (lru_table f)
  (ctr f) (fgeneration f) (hidectr f) (conf f) (lockq f) (slabs f) (nodes f) m (heap f) (clock f).
Definition set_heap (h : list bool) (f : fuse M) : fuse M := MkFuse (name_table f) (id_table f) (lru_table f)
  (ctr f) (fgeneration f) (hidectr f) (conf f) (lockq f) (slabs f) (nodes f) (forget_time f) h (clock f).
Definition set_clock (c : list timespec) (f : fuse M) : fuse M := MkFuse (name_table f) (id_table f) (lru_table f)
  (ctr f) (fgeneration f) (hidectr f) (conf f) (lockq f) (slabs f) (nodes f) (forget_time f) (heap f) c.

(** A result that may be missing, and an access that may be out of bounds. *)
Definition some {A} (o : option A) : F A := match o with Some a => mret a | None => abort end.

(** Dereference a node; a freed node aborts. *)
Definition node_at (p : Z) : F node := f ← get; some (nodes f !! p).

(** Assign to fields of a node. *)
Definition update (p : Z) (g : node -> node) : F unit :=
  n ← node_at p; modify (fun f => set_nodes (<[p := g n]> (nodes f)) f).

(** The outcome of the next allocation; an exhausted list succeeds. *)
Definition malloc : F bool := fun f =>
  match heap f with [] => Some (true, f) | b :: h => Some (b, set_heap h f) end.

(** The clock; an exhausted list reads zero. *)
Definition curr_time : F timespec := fun f =>
  match clock f with [] => Some (time0, f) | t :: c => Some (t, set_clock c f) end.

Definition nodeid_of (f : fuse M) (p : Z) : option Z := nodeid <$> nodes f !! p.

(** [node->parent->nodeid] and [node->name]. *)
Definition key_of (f : fuse M) (p : Z) : option (Z * bytes) :=
  n ← nodes f !! p; d ← parent n; dn ← nodes f !! d; nm ← name n; Some (nodeid dn, nm).

Definition lru_enabled (f : fuse M) : bool := 0 <? remember (conf f).

(** ** Nodes and the tables *)

Definition find_id (i : Z) : F (option Z) := f ← get; some (get_node_nocheck (nodeid_of f) (id_table f) i).

(** The number must be known: [get_node] aborts otherwise. *)
Definition get_node_ (i : Z) : F Z := r ← find_id i; some r.

Definition find_name (dir : Z) (nm : bytes) : F (option Z) := f ← get; some (lookup_node (key_of f) (name_table f) dir nm).

Definition list_del_lru (p : Z) : F unit := modify (fun f => set_lru (filter (fun q => q <> p) (lru_table f)) f).

Definition remove_node_lru (p : Z) : F unit := list_del_lru p.

Definition set_forget_time (p : Z) : F unit :=
  _ ← list_del_lru p;
  _ ← modify (fun f => set_lru (lru_table f ++ [p]) f);
  now ← curr_time;
  modify (fun f => set_forget_times (<[p := now]> (forget_time f)) f).

Definition free_node (p : Z) : F unit :=
  _ ← node_at p; f ← get; m ← some (free_node_mem p (slabs f));
  modify (fun f => set_slabs m (set_nodes (delete p (nodes f)) f)).

(** Insertion and removal by number.  Each call reads one allocation outcome,
    which is used if the table is resized. *)
Definition hash_id_ (p : Z) : F unit :=
  ok ← malloc; f ← get; t ← some (hash_id ok (nodeid_of f) p (id_table f)); modify (set_id_table t).

Definition unhash_id_ (p : Z) : F unit :=
  ok ← malloc; f ← get; t ← some (unhash_id ok (nodeid_of f) p (id_table f)); modify (set_id_table t).

(** The tail of [unhash_name]: the counter, and merging buckets. *)
Definition shrink_name_table : F unit :=
  f ← get; let t := with_use (u64 (use (name_table f) - 1)) (name_table f) in
  if use t <? tsize t / 4 then
    ok ← malloc; t ← some (remerge_name ok t); modify (set_name_table t)
  else modify (set_name_table t).

(** [unref] stands for [unref_node]. *)
Definition unhash_name_with (unref : Z -> F unit) (p : Z) : F unit :=
  n ← node_at p;
  match name n with
  | None => mret tt
  | Some nm =>
      d ← some (parent n); dn ← node_at d; f ← get;
      let h := name_hash (name_table f) (nodeid dn) nm in
      l ← some (chain (name_table f) h);
      match unlink p l with
      | None => abort
      | Some l' =>
          _ ← modify (fun f => set_name_table (set_chain h l' (name_table f)) f);
          _ ← unref d;
          _ ← update p (with_place None None);
          shrink_name_table
      end
  end.

Definition delete_node_with (unref : Z -> F unit) (p : Z) : F unit :=
  n ← node_at p;
  _ ← check (treelock n =? 0);
  _ ← unhash_name_with unref p;
  f ← get;
  _ ← (if lru_enabled f then remove_node_lru p else mret tt);
  _ ← unhash_id_ p;
  free_node p.

(** The recursion of [unref_node], [delete_node] and [unhash_name]. *)
Fixpoint unref_fuel (fuel : nat) (p : Z) : F unit :=
  match fuel with
  | O => abort
  | S fuel =>
      n ← node_at p;
      _ ← check (0 <? refctr n);
      _ ← update p (with_refctr (refctr n - 1));
      if refctr n - 1 =? 0 then delete_node_with (unref_fuel fuel) p else mret tt
  end.

(** Each level of the recursion is at a node with references left, so the
    number of nodes is enough fuel. *)
Definition unref_node (p : Z) : F unit := f ← get; unref_fuel (size (nodes f)) p.

Definition delete_node (p : Z) : F unit := f ← get; delete_node_with (unref_fuel (size (nodes f))) p.

Definition unhash_name (p : Z) : F unit := f ← get; unhash_name_with (unref_fuel (size (nodes f))) p.

Definition INLINE_NAME : Z := 32.

(** -1 when the name cannot be stored. *)
Definition hash_name (p dir : Z) (nm : bytes) : F Z :=
  f ← get;
  let h := name_hash (name_table f) dir nm in
  d ← get_node_ dir;
  ok ← (if Z.of_nat (length nm) <? INLINE_NAME then mret true else malloc);
  if negb ok then _ ← update p (fun n => with_place (parent n) None n); mret (-1) else
  _ ← update p (fun n => with_place (parent n) (Some nm) n);
  _ ← update d (fun n => with_refctr (i32 (refctr n + 1)) n);
  _ ← update p (fun n => with_place (Some d) (name n) n);
  f ← get;
  t ← some (push h p (name_table f));
  let t := with_use (u64 (use t + 1)) t in
  _ ← (if tsize t / 2 <=? use t then
         ok ← malloc; f ← get; t ← some (rehash_name ok (key_of f) t); modify (set_name_table t)
       else modify (set_name_table t));
  mret 0.

(** The loop of [next_id]: of any [size + 3] successive counters one is free,
    since two are reserved and at most [size] are taken. *)
Fixpoint next_id_fuel (fuel : nat) : F Z :=
  match fuel with
  | O => abort
  | S fuel =>
      f ← get;
      let c := Z.land (ctr f + 1) 4294967295 in
      let g := if c =? 0 then u32 (fgeneration f + 1) else fgeneration f in
      _ ← modify (set_ctr c g);
      if (c =? 0) || (c =? FUSE_UNKNOWN_INO) then next_id_fuel fuel else
      r ← find_id c;
      match r with
      | Some _ => next_id_fuel fuel
      | None => mret c
      end
  end.

Definition next_id : F Z := f ← get; next_id_fuel (size (nodes f) + 3).

Definition inc_nlookup (p : Z) : F unit :=
  n ← node_at p;
  _ ← (if nlookup n =? 0 then update p (fun n => with_refctr (i32 (refctr n + 1)) n) else mret tt);
  update p (fun n => with_nlookup (u64 (nlookup n + 1)) n).

(** The branch of [find_node] for a file that has no node yet. *)
Definition new_node (dir : Z) (nm : bytes) : F (option Z) :=
  f ← get;
  r ← some (alloc_node (slabs f));
  _ ← modify (set_slabs r.2);
  match r.1 with
  | None => mret None
  | Some p =>
      _ ← modify (fun f => set_nodes (<[p := node0]> (nodes f)) f);
      i ← next_id;
      f ← get;
      _ ← update p (with_ids i (fgeneration f));
      _ ← (if negb (remember (conf f) =? 0) then inc_nlookup p else mret tt);
      r ← hash_name p dir nm;
      if r =? -1 then _ ← free_node p; mret None else
      _ ← hash_id_ p;
      mret (Some p)
  end.

(** [nm] is [None] for a null pointer; a null node is [None]. *)
Definition find_node (dir : Z) (nm : option bytes) : F (option Z) :=
  r ← (match nm with
       | None => p ← get_node_ dir; mret (Some p)
       | Some nm => find_name dir nm
       end);
  match r, nm with
  | Some p, _ =>
      f ← get; n ← node_at p;
      _ ← (if lru_enabled f && (nlookup n =? 1) then remove_node_lru p else mret tt);
      _ ← inc_nlookup p; mret (Some p)
  | None, Some nm =>
      r ← new_node dir nm;
      match r with
      | None => mret None
      | Some p => _ ← inc_nlookup p; mret (Some p)
      end
  | None, None => abort
  end.

(** [strtok_r(path, "/")]: the parts between slashes that are not empty. *)
Fixpoint strtok (cur : bytes) (s : bytes) : list bytes :=
  match s with
  | [] => if bool_decide (cur = []) then [] else [cur]
  | c :: s =>
      if c =? 47 then (if bool_decide (cur = []) then [] else [cur]) ++ strtok [] s
      else strtok (cur ++ [c]) s
  end.

Fixpoint lookup_elements (ino : Z) (es : list bytes) : F (Z + Z) :=
  match es with
  | [] => mret (inr ino)
  | e :: es =>
      r ← find_name ino e;
      match r with
      | None => mret (inl (- ENOENT))
      | Some p => n ← node_at p; lookup_elements (nodeid n) es
      end
  end.

(** An error number, or the number of the node. *)
Definition lookup_path_in_cache (path : bytes) : F (Z + Z) :=
  ok ← malloc; if negb ok then mret (inl (- ENOMEM)) else lookup_elements FUSE_ROOT_ID (strtok [] path).

(** [false] if the call has to wait: the node is in use by another call and
    this would be its last reference. *)
Definition forget_node (i n : Z) : F bool :=
  if i =? FUSE_ROOT_ID then mret true else
  p ← get_node_ i; nd ← node_at p;
  if (nlookup nd =? n) && negb (treelock nd =? 0) then mret false else
  _ ← check (n <=? nlookup nd);
  _ ← update p (with_nlookup (nlookup nd - n));
  f ← get;
  _ ← (if nlookup nd - n =? 0 then unref_node p
       else if lru_enabled f && (nlookup nd - n =? 1) then set_forget_time p else mret tt);
  mret true.

Definition unlink_node (p : Z) : F unit :=
  f ← get;
  _ ← (if negb (remember (conf f) =? 0) then
         n ← node_at p; _ ← check (1 <? nlookup n); update p (with_nlookup (nlookup n - 1))
       else mret tt);
  unhash_name p.

Definition remove_node (dir : Z) (nm : bytes) : F unit :=
  r ← find_name dir nm;
  match r with Some p => unlink_node p | None => mret tt end.

Definition EBUSY : Z := 16.

Definition rename_node (olddir : Z) (oldname : bytes) (newdir : Z) (newname : bytes) (hide : bool) : F Z :=
  r ← find_name olddir oldname;
  r' ← find_name newdir newname;
  match r with
  | None => mret 0
  | Some p =>
      let go : F Z :=
        _ ← unhash_name p;
        e ← hash_name p newdir newname;
        if e =? -1 then mret (- ENOMEM) else
        _ ← (if hide then update p (with_hidden true) else mret tt);
        mret 0 in
      match r' with
      | Some q => if hide then mret (- EBUSY) else _ ← unlink_node q; go
      | None => go
      end
  end.

Definition exchange_node (olddir : Z) (oldname : bytes) (newdir : Z) (newname : bytes) : F Z :=
  o ← find_name olddir oldname;
  n ← find_name newdir newname;
  _ ← (match o with Some p => unhash_name p | None => mret tt end);
  _ ← (match n with Some q => unhash_name q | None => mret tt end);
  e ← (match o with Some p => hash_name p newdir newname | None => mret 0 end);
  if e =? -1 then mret (- ENOMEM) else
  e ← (match n with Some q => hash_name q olddir oldname | None => mret 0 end);
  if e =? -1 then mret (- ENOMEM) else mret 0.

Definition lookup_nodeid (dir : Z) (nm : bytes) : F Z :=
  r ← find_name dir nm;
  match r with Some p => n ← node_at p; mret (nodeid n) | None => mret FUSE_UNKNOWN_INO end.

Definition is_open (dir : Z) (nm : bytes) : F bool :=
  r ← find_name dir nm;
  match r with Some p => n ← node_at p; mret (0 <? open_count n) | None => mret false end.

(** ** Attributes *)

Definition set_stat (i : Z) (st : stat) : F stat :=
  f ← get;
  let c := conf f in
  mret (Stat (st_dev st) (if use_ino c then st_ino st else i)
    (if set_mode c then Z.lor (Z.land (st_mode st) S_IFMT) (Z.land 511 (Z.lnot (c_umask c))) else st_mode st)
    (st_nlink st) (if set_uid c then c_uid c else st_uid st) (if set_gid c then c_gid c else st_gid st)
    (st_rdev st) (st_size st) (st_blksize st) (st_blocks st) (st_atime st) (st_mtime st) (st_ctime st)
    (st_atimensec st) (st_mtimensec st) (st_ctimensec st)).

Definition mtime_eq (st : stat) (ts : timespec) : bool :=
  (st_mtime st =? tv_sec ts) && (st_mtimensec st =? tv_nsec ts).

Definition update_stat (p : Z) (st : stat) : F unit :=
  n ← node_at p;
  _ ← (if cache_valid n && (negb (mtime_eq st (mtime n)) || negb (st_size st =? nsize n))
       then update p (with_cache_valid false) else mret tt);
  now ← curr_time;
  update p (with_stat now (Timespec (st_mtime st) (st_mtimensec st)) (st_size st)).

(** [e] carries the attributes. *)
Definition do_lookup (dir : Z) (nm : option bytes) (e : fuse_entry_param) : F (Z * fuse_entry_param) :=
  r ← find_node dir nm;
  match r with
  | None => mret (- ENOMEM, e)
  | Some p =>
      n ← node_at p; f ← get;
      _ ← (if auto_cache (conf f) then update_stat p (e_attr e) else mret tt);
      st ← set_stat (nodeid n) (e_attr e);
      mret (0, EntryParam (nodeid n) (generation n) st (attr_timeout (conf f)) (entry_timeout (conf f)))
  end.

(** ** Nodes that are remembered *)

Definition diff_timespec (t1 t2 : timespec) : double :=
  SFadd 53 1024 (dbl_of_Z (tv_sec t1 - tv_sec t2))
    (SFdiv 53 1024 (SFsub 53 1024 (dbl_of_Z (tv_nsec t1)) (dbl_of_Z (tv_nsec t2))) dbl_1e9).

Definition clean_delay : F Z :=
  f ← get;
  let sleep_time := Z.quot (remember (conf f)) 10 in
  mret (if 3600 <? sleep_time then 3600 else if sleep_time <? 60 then 60 else sleep_time).

(** The element after [p]; [None] is the head of the list. *)
Fixpoint after_lru (p : Z) (l : list Z) : option Z :=
  match l with
  | [] => None
  | q :: l => if q =? p then head l else after_lru p l
  end.

(** The loop of [fuse_clean_cache] at [curr]; an element that is no longer in
    the list is freed memory. *)
Fixpoint clean_loop (fuel : nat) (now : timespec) (curr : option Z) : F unit :=
  match fuel, curr with
  | _, None => mret tt
  | O, Some _ => abort
  | S fuel, Some p =>
      f ← get;
      _ ← check (bool_decide (p ∈ lru_table f));
      let next := after_lru p (lru_table f) in
      n ← node_at p;
      ft ← some (forget_time f !! p);
      if SFleb (diff_timespec now ft) (dbl_of_Z (remember (conf f))) then mret tt else
      _ ← check (nlookup n =? 1);
      _ ← (if 1 <? refctr n then mret tt else
           _ ← update p (with_nlookup 0);
           _ ← unhash_name p;
           unref_node p);
      clean_loop fuel now next
  end.

Definition fuse_clean_cache : F Z :=
  now ← curr_time;
  f ← get;
  _ ← clean_loop (length (lru_table f)) now (head (lru_table f));
  clean_delay.

(** ** Start-up

    The part of [fuse_new_31] that makes the tables and the root, on a
    structure that is all zero but for its options; [None] of the result is a
    failure to allocate. *)
Definition empty_fuse (c : fuse_config) (m : M) (h : list bool) (k : list timespec) : fuse M :=
  MkFuse (NodeTab [] 0 0 0) (NodeTab [] 0 0 0) [] 0 0 0 c [] m ∅ ∅ h k.

Definition make_root : F (option Z) :=
  ok ← malloc;
  match node_table_init ok with
  | None => mret None
  | Some t =>
      _ ← modify (set_name_table t);
      ok ← malloc;
      match node_table_init ok with
      | None => mret None
      | Some t =>
          _ ← modify (set_id_table t);
          f ← get;
          r ← some (alloc_node (slabs f));
          _ ← modify (set_slabs r.2);
          match r.1 with
          | None => mret None
          | Some p =>
              _ ← modify (fun f => set_nodes (<[p := with_ids FUSE_ROOT_ID 0 (with_place None (Some (lit "/")) node0)]> (nodes f)) f);
              _ ← inc_nlookup p;
              _ ← hash_id_ p;
              mret (Some p)
          end
      end
  end.

End Code.
