(* ===== verification/NodeTree.v ===== *)
(** * What the operations on nodes do

    [tree_inv] is the invariant of the node structures of [Node]: every node is
    in the table by number, every node with a directory is in the table by name,
    names in one directory are distinct, and the reference counter of a node is
    the number of its reasons to exist.  The invariant is stated for the states
    inside the recursion that frees nodes too, and specialised by [tree_ok] to
    the states between operations.

    [abs] forgets tables, pointers and counters: a map from the number of a
    node to its count of lookups and its place, a directory and a name.  The
    theorems say that the operations of fuse.c act on that map as they should,
    and that exactly the nodes the kernel can still reach are kept. *)

From S2P Require Import Prelude NodeTable Wire Locks Node.

(** ** The interface of node memory *)

(** [mem_ok m S]: the nodes in use are [S].  Allocation returns memory that is
    not in use, and memory in use can be freed. *)
Class NodeMemLaws (M : Type) `{NodeMem M} := {
  mem_ok : M -> gset Z -> Prop;
  alloc_law : forall m S, mem_ok m S -> exists r m', alloc_node m = Some (r, m') /\
    match r with Some p => (p ∉ S) /\ mem_ok m' ({[p]} ∪ S) | None => mem_ok m' S end;
  free_law : forall m S p, mem_ok m S -> p ∈ S ->
    exists m', free_node_mem p m = Some m' /\ mem_ok m' (S ∖ {[p]}) }.

(** ** Shape of the tree *)

(** The nodes whose directory is [d], but for those in [U], which have been
    taken out of the table by name and still have to be updated. *)
Definition kids (U : gset Z) (N : gmap Z node) (d : Z) : gset Z :=
  dom (filter (fun kv => parent kv.2 = Some d /\ kv.1 ∉ U) N).

(** The nodes in the table by name. *)
Definition named (U : gset Z) (N : gmap Z node) : gset Z :=
  dom (filter (fun kv => is_Some (parent kv.2) /\ kv.1 ∉ U) N).

Definition key_in (N : gmap Z node) (p : Z) : option (Z * bytes) :=
  n ← N !! p; d ← parent n; dn ← N !! d; nm ← name n; Some (nodeid dn, nm).

(** The raw hashes of a node in the two tables. *)
Definition id_g (N : gmap Z node) (p : Z) : Z :=
  match N !! p with Some n => id_raw (nodeid n) | None => 0 end.

Definition name_g (N : gmap Z node) (p : Z) : Z :=
  match key_in N p with Some k => name_raw k.1 k.2 | None => 0 end.

(** A reference from the kernel. *)
Definition looked_up (n : node) : Z := if nlookup n =? 0 then 0 else 1.

Lemma elem_of_kids U N d q : q ∈ kids U N d <-> exists n, N !! q = Some n /\ parent n = Some d /\ q ∉ U.
Proof.
  unfold kids. rewrite elem_of_dom. unfold is_Some. setoid_rewrite map_lookup_filter_Some. cbn. naive_solver.
Qed.

Lemma elem_of_named U N q : q ∈ named U N <-> exists n d, N !! q = Some n /\ parent n = Some d /\ q ∉ U.
Proof.
  unfold named. rewrite elem_of_dom. unfold is_Some at 1. setoid_rewrite map_lookup_filter_Some. cbn. split.
  - intros (n & E & [[d Hd] HU]). eauto 10.
  - intros (n & d & E & Hd & HU). exists n. split; [done|]. split; [by exists d|done].
Qed.

(** Two heaps that differ only in fields that are not about places. *)
Definition shape (n : node) : Z * option Z * option bytes := (nodeid n, parent n, name n).

Definition same_shape (N N' : gmap Z node) : Prop := shape <$> N = shape <$> N'.

Lemma same_shape_lookup N N' p n : same_shape N N' -> N !! p = Some n -> exists n', N' !! p = Some n' /\ shape n = shape n'.
Proof.
  intros Hs E. assert ((shape <$> N) !! p = Some (shape n)) as E' by by rewrite lookup_fmap, E.
  rewrite Hs, lookup_fmap, fmap_Some in E'. destruct E' as (n' & ? & ?). eauto.
Qed.

Lemma same_shape_sym N N' : same_shape N N' -> same_shape N' N.
Proof. by unfold same_shape. Qed.

Lemma same_shape_insert N p n n' : N !! p = Some n -> shape n' = shape n -> same_shape N (<[p := n']> N).
Proof.
  intros E Hs. unfold same_shape. rewrite fmap_insert, Hs. symmetry. apply insert_id. by rewrite lookup_fmap, E.
Qed.

Lemma same_shape_dom N N' : same_shape N N' -> dom N = dom N'.
Proof. intros Hs. by rewrite <- (dom_fmap_L shape N), Hs, dom_fmap_L. Qed.

Lemma same_shape_kids U N N' d : same_shape N N' -> kids U N d = kids U N' d.
Proof.
  intros Hs. apply set_eq. intros q. rewrite !elem_of_kids. split; intros (n & E & Hd & HU).
  - destruct (same_shape_lookup _ _ _ _ Hs E) as (n' & E' & [= _ Hp _]). exists n'. split; [done|]. split; [congruence|done].
  - destruct (same_shape_lookup _ _ _ _ (same_shape_sym _ _ Hs) E) as (n' & E' & [= _ Hp _]).
    exists n'. split; [done|]. split; [congruence|done].
Qed.

Lemma same_shape_named U N N' : same_shape N N' -> named U N = named U N'.
Proof.
  intros Hs. apply set_eq. intros q. rewrite !elem_of_named. split; intros (n & d & E & Hd & HU).
  - destruct (same_shape_lookup _ _ _ _ Hs E) as (n' & E' & [= _ Hp _]). exists n', d. split; [done|]. split; [congruence|done].
  - destruct (same_shape_lookup _ _ _ _ (same_shape_sym _ _ Hs) E) as (n' & E' & [= _ Hp _]).
    exists n', d. split; [done|]. split; [congruence|done].
Qed.

Lemma same_shape_key N N' p : same_shape N N' -> key_in N p = key_in N' p.
Proof.
  intros Hs. unfold key_in. destruct (N !! p) as [n|] eqn:E.
  - destruct (same_shape_lookup _ _ _ _ Hs E) as (n' & -> & [= _ Hp Hn]). cbn. rewrite <- Hp, <- Hn.
    destruct (parent n) as [d|]; [|done]. cbn. destruct (N !! d) as [dn|] eqn:Ed.
    + destruct (same_shape_lookup _ _ _ _ Hs Ed) as (dn' & -> & [= Hi _ _]). cbn. by rewrite Hi.
    + destruct (N' !! d) as [dn'|] eqn:Ed'; [|done].
      destruct (same_shape_lookup _ _ _ _ (same_shape_sym _ _ Hs) Ed') as (? & ? & _). congruence.
  - destruct (N' !! p) as [n'|] eqn:E'; [|done].
    destruct (same_shape_lookup _ _ _ _ (same_shape_sym _ _ Hs) E') as (? & ? & _). congruence.
Qed.

Lemma same_shape_id_g N N' p : same_shape N N' -> id_g N p = id_g N' p.
Proof.
  intros Hs. unfold id_g. destruct (N !! p) as [n|] eqn:E.
  - destruct (same_shape_lookup _ _ _ _ Hs E) as (n' & -> & [= -> _ _]). done.
  - destruct (N' !! p) as [n'|] eqn:E'; [|done].
    destruct (same_shape_lookup _ _ _ _ (same_shape_sym _ _ Hs) E') as (? & ? & _). congruence.
Qed.

(** ** The invariant *)

Section Invariant.
Context {M : Type} `{NodeMemLaws M}.

(** [W]: new nodes that are not in the table by number yet. *)
Context (W : gset Z).

(** [U]: nodes out of the table by name whose place is stale.  [E]: nodes about
    to be freed.  [x]: references held by running code, besides those of the
    kernel and of named nodes. *)
Record tree_inv (U E : gset Z) (x : Z -> Z) (f : fuse M) : Prop := {
  t_root : exists r n, nodes f !! r = Some n /\ nodeid n = FUSE_ROOT_ID /\ parent n = None /\ 0 < nlookup n;
  t_parent : forall p n d, nodes f !! p = Some n -> p ∉ U -> parent n = Some d -> is_Some (nodes f !! d);
  t_name : forall p n, nodes f !! p = Some n -> is_Some (parent n) <-> is_Some (name n) /\ nodeid n <> FUSE_ROOT_ID;
  t_num : forall p q n m, nodes f !! p = Some n -> nodes f !! q = Some m -> nodeid n = nodeid m -> p = q;
  t_key : forall p q n m, nodes f !! p = Some n -> nodes f !! q = Some m -> p ∉ U -> q ∉ U ->
    is_Some (parent n) -> parent n = parent m -> name n = name m -> p = q;
  t_ids : tbl_ok (id_g (nodes f)) (id_table f) (dom (nodes f) ∖ W);
  t_shape : shape_ok (name_table f);
  t_chains : chains_ok (name_g (nodes f)) (name_table f) (named U (nodes f));
  t_use : use (name_table f) = Z.of_nat (size (named U (nodes f)) + size U);
  t_ref : forall p n, nodes f !! p = Some n ->
    refctr n = x p + looked_up n + Z.of_nat (size (kids U (nodes f) p));
  t_pos : forall p n, nodes f !! p = Some n -> p ∉ E -> 0 < refctr n;
  t_x : forall p, 0 <= x p;
  t_stale : forall u, u ∈ U -> exists n, nodes f !! u = Some n /\ is_Some (parent n) /\
    (nlookup n <> 0 \/ kids U (nodes f) u = ∅);
  t_lock : forall p n, nodes f !! p = Some n -> treelock n <> 0 ->
    nlookup n <> 0 \/ exists q m, q ∈ kids U (nodes f) p /\ nodes f !! q = Some m /\ treelock m <> 0;
  t_lru : NoDup (lru_table f) /\ (forall p, p ∈ lru_table f -> is_Some (nodes f !! p)) /\
    (lru_enabled f = false -> lru_table f = []);
  t_mem : mem_ok (slabs f) (dom (nodes f));
  t_size : Z.of_nat (size (nodes f)) < 2 ^ 30;
  t_nlookup : forall p n, nodes f !! p = Some n -> 0 <= nlookup n < 2 ^ 64;
  t_nodeid : forall p n, nodes f !! p = Some n -> p ∉ W -> 0 < nodeid n < FUSE_UNKNOWN_INO;
  t_ctr : 0 <= ctr f < 2 ^ 32;
  t_gen : 0 <= fgeneration f < 2 ^ 32 }.

(** One more reference to [p]. *)
Definition bump (p : Z) (x : Z -> Z) (q : Z) : Z := if decide (q = p) then x q + 1 else x q.

Lemma looked_up_range n : 0 <= looked_up n <= 1.
Proof. unfold looked_up. by destruct (_ =? _). Qed.

(** The heap of [f] replaced by one with the same shape, and other locks. *)
Lemma tree_inv_relock U E x x' f N' : tree_inv U E x f -> same_shape (nodes f) N' -> (forall p, 0 <= x' p) ->
  (forall p n, N' !! p = Some n -> exists m, nodes f !! p = Some m /\
     refctr n - x' p - looked_up n = refctr m - x p - looked_up m /\ (p ∉ E -> 0 < refctr n) /\
     0 <= nlookup n < 2 ^ 64 /\
     (nlookup m <> 0 -> nlookup n <> 0 \/ nodeid m <> FUSE_ROOT_ID /\ p ∉ U)) ->
  (forall p n, N' !! p = Some n -> treelock n <> 0 ->
     nlookup n <> 0 \/ exists q m, q ∈ kids U N' p /\ N' !! q = Some m /\ treelock m <> 0) ->
  tree_inv U E x' (set_nodes N' f).
Proof.
  intros Hf Hs Hx HN Hlk. assert (forall p m, nodes f !! p = Some m -> exists n, N' !! p = Some n /\ shape m = shape n) as HN'
    by (intros p m; by apply same_shape_lookup).
  pose proof (same_shape_dom _ _ Hs) as Hd.
  assert (forall p n, N' !! p = Some n -> exists m, nodes f !! p = Some m /\ shape m = shape n) as HN''.
  { intros p n Hn. destruct (same_shape_lookup _ _ _ _ (same_shape_sym _ _ Hs) Hn) as (m & ? & ?). eauto. }
  destruct Hf as [Hroot Hpar Hname Hnum Hkey Hids Hsh Hch Huse Href Hpos Hx0 Hst Hlock Hlru Hmem Hsz Hnl Hni Hc Hge].
  split; cbn [nodes id_table name_table lru_table slabs set_nodes ctr]; try done.
  - destruct Hroot as (r & n & Hn & Hi & Hp & Hl). destruct (HN' r n Hn) as (m & Hm & [= H1 H2 H3]).
    destruct (HN r m Hm) as (n' & Hn' & _ & _ & Hb & Hz). exists r, m. split; [done|]. repeat split; try congruence.
    assert (n' = n) as -> by congruence. destruct (Hz ltac:(lia)) as [?|[? _]]; [lia|done].
  - intros p n d Hn HU Hpd. destruct (HN'' p n Hn) as (m & Hm & [= H1 H2 H3]).
    destruct (Hpar p m d Hm HU ltac:(congruence)) as [dn Hdn]. destruct (HN' d dn Hdn) as (dm & ? & _). by exists dm.
  - intros p n Hn. destruct (HN'' p n Hn) as (m & Hm & [= H1 H2 H3]). rewrite <- H1, <- H2, <- H3. by apply (Hname p).
  - intros p q n m Hn Hm Hi. destruct (HN'' p n Hn) as (n' & Hn' & [= H1 _ _]), (HN'' q m Hm) as (m' & Hm' & [= H4 _ _]).
    apply (Hnum p q n' m'); congruence.
  - intros p q n m Hn Hm Hpu Hqu Hp Hpe Hne. destruct (HN'' p n Hn) as (n' & Hn' & [= _ H2 H3]), (HN'' q m Hm) as (m' & Hm' & [= _ H5 H6]).
    apply (Hkey p q n' m'); try done; congruence.
  - rewrite <- Hd. destruct Hids as (? & Hcc & ?). split; [done|]. split; [|done]. eapply chains_ok_hash; [|done].
    intros p _. by apply same_shape_id_g.
  - rewrite <- (same_shape_named U _ _ Hs). eapply chains_ok_hash; [|done]. intros p _. unfold name_g.
    by rewrite (same_shape_key _ _ p Hs).
  - by rewrite <- (same_shape_named U _ _ Hs).
  - intros p n Hn. rewrite <- (same_shape_kids U _ _ p Hs). destruct (HN p n Hn) as (m & Hm & Hr & _).
    pose proof (Href p m Hm). lia.
  - intros p n Hn HE. destruct (HN p n Hn) as (m & _ & _ & Hp & _). auto.
  - intros u Hu. destruct (Hst u Hu) as (n & Hn & Hp & Hk). destruct (HN' u n Hn) as (m & Hm & [= H1 H2 H3]).
    destruct (HN u m Hm) as (n' & Hn' & _ & _ & _ & Hz). exists m. split; [done|]. split; [congruence|].
    rewrite <- (same_shape_kids U _ _ u Hs). assert (n' = n) as -> by congruence.
    destruct Hk as [Hk|Hk]; [left|by right]. destruct (Hz Hk) as [|(_ & ?)]; done.
  - destruct Hlru as (Hn & Hin & He). split; [done|]. split; [|done]. intros p Hp. destruct (Hin p Hp) as [m Hm].
    destruct (HN' p m Hm) as (n & ? & _). by exists n.
  - by rewrite <- Hd.
  - rewrite <- size_dom, <- Hd, size_dom. done.
  - intros p n Hn. by destruct (HN p n Hn) as (_ & _ & _ & _ & ? & _).
  - intros p n Hn HW. destruct (HN'' p n Hn) as (m & Hm & [= H1 _ _]). rewrite <- H1. by apply (Hni p).
Qed.

(** The heap of [f] replaced by one with the same shape. *)
Lemma tree_inv_nodes U E x x' f N' : tree_inv U E x f -> same_shape (nodes f) N' -> (forall p, 0 <= x' p) ->
  (forall p n, N' !! p = Some n -> exists m, nodes f !! p = Some m /\
     refctr n - x' p - looked_up n = refctr m - x p - looked_up m /\ (p ∉ E -> 0 < refctr n) /\
     0 <= nlookup n < 2 ^ 64 /\
     (nlookup m <> 0 -> nlookup n <> 0 \/ nodeid m <> FUSE_ROOT_ID /\ p ∉ U /\ treelock m = 0) /\
     (treelock n <> 0 <-> treelock m <> 0)) ->
  tree_inv U E x' (set_nodes N' f).
Proof.
  intros Hf Hs Hx HN. apply (tree_inv_relock U E x); [done|done|done| |].
  - intros p n Hn. destruct (HN p n Hn) as (m & Hm & Hr & Hp & Hb & Hz & _). exists m. split; [done|]. split; [done|]. split; [done|]. split; [done|].
    intros Hl. destruct (Hz Hl) as [|(? & ? & _)]; auto.
  - intros p n Hn Ht. destruct (HN p n Hn) as (m & Hm & _ & _ & _ & Hz & Htl). apply Htl in Ht.
    destruct (t_lock _ _ _ _ Hf p m Hm Ht) as [Hl|(q & k & Hq & Hk & Htk)]; [left; destruct (Hz Hl) as [|(_ & _ & ?)]; done|right].
    destruct (same_shape_lookup _ _ _ _ Hs Hk) as (k' & Hk' & _). destruct (HN q k' Hk') as (k2 & Hk2 & _ & _ & _ & _ & Htl').
    exists q, k'. rewrite <- (same_shape_kids U _ _ p Hs). split; [done|]. split; [done|]. apply Htl'. congruence.
Qed.

(** Code that reads or writes one node. *)
Lemma node_at_eq (f : fuse M) p n : nodes f !! p = Some n -> node_at p f = Some (n, f).
Proof. intros E. unfold node_at, some, get, mbind, ST_bind. by rewrite E. Qed.

Lemma update_eq (f : fuse M) p g n : nodes f !! p = Some n -> update p g f = Some (tt, set_nodes (<[p := g n]> (nodes f)) f).
Proof. intros E. unfold update. by rewrite (bind_step _ _ _ _ _ (node_at_eq f p n E)). Qed.

(** A change to one node that keeps its shape. *)
Lemma tree_inv_update U E x x' f p n n' : tree_inv U E x f -> nodes f !! p = Some n -> shape n' = shape n ->
  (forall q, q <> p -> x' q = x q) -> 0 <= x' p ->
  refctr n' - x' p - looked_up n' = refctr n - x p - looked_up n -> (p ∉ E -> 0 < refctr n') ->
  0 <= nlookup n' < 2 ^ 64 -> (nlookup n <> 0 -> nlookup n' <> 0) -> treelock n' = treelock n ->
  tree_inv U E x' (set_nodes (<[p := n']> (nodes f)) f).
Proof.
  intros Hf Hn Hs Hx Hx0 Hr Hp Hl Hz Ht. apply (tree_inv_nodes U E x); [done|by eapply same_shape_insert| |].
  - intros q. destruct (decide (q = p)) as [->|]; [done|]. rewrite Hx by done. by apply (t_x _ _ _ _ Hf).
  - intros q m. rewrite lookup_insert_Some. intros [[<- <-]|[Hne Hm]].
    + exists n. split; [done|]. split; [done|]. split; [done|]. split; [done|]. split; [by left; auto|]. by rewrite Ht.
    + exists m. split; [done|]. rewrite Hx by done. split; [done|]. split; [by apply (t_pos _ _ _ _ Hf)|].
      split; [by apply (t_nlookup _ _ _ _ Hf q)|]. split; [by left|done].
Qed.

(** The kernel gives up its last reference to [p]: running code has one. *)
Lemma tree_inv_forget U E x f p n : tree_inv U E x f -> nodes f !! p = Some n -> p ∉ U -> nodeid n <> FUSE_ROOT_ID ->
  nlookup n <> 0 -> treelock n = 0 ->
  tree_inv U E (bump p x) (set_nodes (<[p := with_nlookup 0 n]> (nodes f)) f).
Proof.
  intros Hf Hn HU Hr Hl Ht. apply (tree_inv_nodes U E x); [done|by eapply same_shape_insert| |].
  - intros q. pose proof (t_x _ _ _ _ Hf q). unfold bump. case_decide; lia.
  - intros q m. unfold bump. rewrite lookup_insert_Some. intros [[<- <-]|[Hne Hm]].
    + exists n. split; [done|]. rewrite decide_True by done. unfold looked_up. cbn.
      destruct (Z.eqb_spec (nlookup n) 0); [done|]. split; [lia|]. split; [by apply (t_pos _ _ _ _ Hf)|].
      split; [lia|]. split; [by right|done].
    + exists m. split; [done|]. rewrite decide_False by done. split; [done|]. split; [by apply (t_pos _ _ _ _ Hf)|].
      split; [by apply (t_nlookup _ _ _ _ Hf q)|]. split; [by left|done].
Qed.

(** *** Searching *)

Lemma nodeid_of_eq (f : fuse M) p : p ∈ dom (nodes f) -> (h ← nodeid_of f p; Some (id_raw h)) = Some (id_g (nodes f) p).
Proof. intros [n En]%elem_of_dom. unfold nodeid_of, id_g. by rewrite En. Qed.

Lemma find_id_ok U E x f i : tree_inv U E x f ->
  exists r, find_id i f = Some (r, f) /\
    forall p, r = Some p <-> exists n, nodes f !! p = Some n /\ nodeid n = i /\ p ∉ W.
Proof.
  intros Hf. unfold find_id, get, mbind, ST_bind, get_node_nocheck.
  destruct (find_ok (id_g (nodes f)) (id_table f) (dom (nodes f) ∖ W) (fun p => n ← nodeid_of f p; Some (n =? i))
    (fun p => match nodes f !! p with Some n => nodeid n =? i | None => false end) (id_raw i) (t_ids _ _ _ _ Hf)) as (r & Er & Hr).
  - intros p [[n En]%elem_of_dom _]%elem_of_difference. unfold nodeid_of. by rewrite En.
  - intros p [[n En]%elem_of_dom _]%elem_of_difference. unfold id_g. rewrite En. by intros <-%Z.eqb_eq.
  - exists r. rewrite Er. split; [done|]. intros p. destruct r as [q|].
    + destruct Hr as [[[n En]%elem_of_dom HW]%elem_of_difference Hq]. rewrite En in Hq. apply Z.eqb_eq in Hq. split.
      * intros [= <-]. eauto.
      * intros (m & Em & Ei & _). f_equal. apply (t_num _ _ _ _ Hf q p n m); congruence.
    + split; [done|]. intros (m & Em & Ei & HW). specialize (Hr p). rewrite Em in Hr.
      assert (p ∈ dom (nodes f) ∖ W) as Hp by (apply elem_of_difference; split; [apply elem_of_dom; eauto|done]). apply Hr, Z.eqb_neq in Hp. done.
Qed.

Lemma get_node_ok U E x f p n : tree_inv U E x f -> nodes f !! p = Some n -> p ∉ W -> get_node_ (nodeid n) f = Some (p, f).
Proof.
  intros Hf Hn HW. unfold get_node_. destruct (find_id_ok U E x f (nodeid n) Hf) as (r & Er & Hr).
  rewrite (bind_step _ _ _ _ _ Er). assert (r = Some p) as -> by (apply Hr; eauto). done.
Qed.

(** The key of a node in the table by name. *)
Lemma key_named U E x f p n d : tree_inv U E x f -> nodes f !! p = Some n -> p ∉ U -> parent n = Some d ->
  exists dn nm, nodes f !! d = Some dn /\ name n = Some nm /\ key_in (nodes f) p = Some (nodeid dn, nm).
Proof.
  intros Hf Hn HU Hd. destruct (t_parent _ _ _ _ Hf p n d Hn HU Hd) as [dn Hdn].
  destruct (proj1 (t_name _ _ _ _ Hf p n Hn)) as [[nm Hnm] _]; [by exists d|].
  exists dn, nm. split; [done|]. split; [done|]. unfold key_in. rewrite Hn. cbn. rewrite Hd. cbn. rewrite Hdn. cbn. by rewrite Hnm.
Qed.

Lemma find_name_ok U E x f i nm : tree_inv U E x f ->
  exists r, find_name i nm f = Some (r, f) /\
    forall p, r = Some p <-> p ∈ named U (nodes f) /\ key_in (nodes f) p = Some (i, nm).
Proof.
  intros Hf. unfold find_name, get, mbind, ST_bind, lookup_node.
  pose (b p := match key_in (nodes f) p with Some k => ((k.1 =? i) && streq k.2 nm)%bool | None => false end).
  assert (forall p, b p = true <-> key_in (nodes f) p = Some (i, nm)) as Hb.
  { intros p. unfold b, streq. destruct (key_in (nodes f) p) as [[j s]|]; [|split; congruence]. cbn.
    rewrite andb_true_iff, Z.eqb_eq, bool_decide_eq_true. split; [by intros [-> ->]|by intros [= -> ->]]. }
  assert (forall p, p ∈ named U (nodes f) -> exists k, key_in (nodes f) p = Some k) as Hk.
  { intros p (n & d & Hn & Hd & HU)%elem_of_named. destruct (key_named U E x f p n d Hf Hn HU Hd) as (? & ? & _ & _ & ?). eauto. }
  destruct (find_ok (name_g (nodes f)) (with_use (Z.of_nat (size (named U (nodes f)))) (name_table f)) (named U (nodes f))
    (fun p => k ← key_of f p; Some ((k.1 =? i) && streq k.2 nm)) b (name_raw i nm)) as (r & Er & Hr).
  - split; [apply (t_shape _ _ _ _ Hf)|]. split; [apply chains_ok_use, (t_chains _ _ _ _ Hf)|]. split; [done|].
    assert (size (named U (nodes f)) <= size (nodes f))%nat.
    { rewrite <- (size_dom (nodes f)). apply subseteq_size. intros q (n & d & Hn & _)%elem_of_named. apply elem_of_dom; eauto. }
    pose proof (t_size _ _ _ _ Hf). lia.
  - intros p Hp. destruct (Hk p Hp) as [k Ek]. unfold b. change (key_of f p) with (key_in (nodes f) p). by rewrite Ek.
  - intros p Hp Ek%Hb. unfold name_g. by rewrite Ek.
  - exists r. change (find _ _ (with_use _ ?t)) with (find (fun p => k ← key_of f p; Some ((k.1 =? i) && streq k.2 nm)) (name_raw i nm) t) in Er.
    rewrite Er. split; [done|]. intros p. destruct r as [q|].
    + destruct Hr as [Hq Hqb%Hb]. split; [by intros [= <-]|]. intros [Hp Hpk]. f_equal.
      apply elem_of_named in Hq as (n & d & Hn & Hd & HU), Hp as (m & e & Hm & He & HU').
      destruct (key_named U E x f q n d Hf Hn HU Hd) as (dn & s & Hdn & Hs & Ek).
      destruct (key_named U E x f p m e Hf Hm HU' He) as (en & s' & Hen & Hs' & Ek').
      assert (d = e) as <- by (apply (t_num _ _ _ _ Hf d e dn en); congruence).
      apply (t_key _ _ _ _ Hf q p n m); try done; congruence.
    + split; [done|]. intros [Hp Hpk%Hb]. by rewrite (Hr p Hp) in Hpk.
Qed.

(** *** Taking a node out of the table by name *)

Lemma kids_unlink U N p q : kids ({[p]} ∪ U) N q = kids U N q ∖ {[p]}.
Proof. apply set_eq. intros c. rewrite elem_of_difference, !elem_of_kids. set_solver. Qed.

Lemma named_unlink U N p : named ({[p]} ∪ U) N = named U N ∖ {[p]}.
Proof. apply set_eq. intros c. rewrite elem_of_difference, !elem_of_named. set_solver. Qed.

Lemma size_remove (S : gset Z) p : p ∈ S -> size S = Datatypes.S (size (S ∖ {[p]})).
Proof.
  intros Hp. rewrite size_difference, size_singleton by set_solver.
  destruct (decide (size S = 0%nat)) as [E0%size_empty_inv|]; [set_solver|lia].
Qed.

Lemma size_add (S : gset Z) p : p ∉ S -> size ({[p]} ∪ S) = Datatypes.S (size S).
Proof. intros Hp. by rewrite size_union, size_singleton by set_solver. Qed.

Lemma unlink_inv U E x f p n d dn nm : tree_inv U E x f -> nodes f !! p = Some n -> p ∉ U ->
  parent n = Some d -> nodes f !! d = Some dn -> name n = Some nm ->
  nlookup n <> 0 \/ kids U (nodes f) p = ∅ -> (treelock n <> 0 -> nlookup dn <> 0) ->
  let h := name_hash (name_table f) (nodeid dn) nm in
  exists l l', chain (name_table f) h = Some l /\ unlink p l = Some l' /\
    tree_inv ({[p]} ∪ U) E (bump d x) (set_name_table (set_chain h l' (name_table f)) f).
Proof.
  intros Hf Hn HU Hd Hdn Hnm Hk Ht h.
  assert (p ∈ named U (nodes f)) as Hp by (apply elem_of_named; eauto 10).
  assert (name_g (nodes f) p = name_raw (nodeid dn) nm) as Hg.
  { unfold name_g. destruct (key_named U E x f p n d Hf Hn HU Hd) as (dn' & nm' & E1 & E2 & ->).
    assert (dn' = dn) as -> by congruence. assert (nm' = nm) as -> by congruence. done. }
  destruct (unlink_ok (name_g (nodes f)) (name_table f) (named U (nodes f)) p) as (l & l' & El & Eu & Hs & Hc);
    [apply (t_shape _ _ _ _ Hf)|apply (t_chains _ _ _ _ Hf)|done|].
  rewrite Hg in El, Hs, Hc. exists l, l'. split; [done|]. split; [done|].
  assert (p ∈ kids U (nodes f) d) as Hpd by (apply elem_of_kids; eauto).
  destruct Hf as [Hroot Hpar Hname Hnum Hkey Hids Hsh Hch Huse Href Hpos Hx0 Hst Hlock Hlru Hmem Hsz Hnl Hni Hct Hge].
  split; cbn [nodes id_table name_table lru_table slabs set_name_table ctr]; try done.
  - intros q m e Hm HqU Hpe. apply (Hpar q m e); [done|set_solver|done].
  - intros q q' m m' Hm Hm' Hq Hq' ? ? ?. apply (Hkey q q' m m'); try done; set_solver.
  - by rewrite named_unlink.
  - rewrite named_unlink. cbn [use set_chain with_array]. rewrite Huse, (size_remove _ _ Hp), (size_add _ _ HU). lia.
  - intros q m Hm. rewrite kids_unlink. unfold bump. rewrite (Href q m Hm). case_decide as Eq.
    + subst q. rewrite (size_remove _ _ Hpd). lia.
    + replace (kids U (nodes f) q ∖ {[p]}) with (kids U (nodes f) q); [lia|]. apply set_eq. intros c.
      rewrite elem_of_difference, elem_of_singleton, elem_of_kids. split; [|tauto]. intros (k & Hkc & Hpk & ?).
      split; [eauto|]. intros ->. congruence.
  - intros q. unfold bump. case_decide; [|done]. specialize (Hx0 q). lia.
  - intros u Hu. apply elem_of_union in Hu as [->%elem_of_singleton|Hu].
    + exists n. split; [done|]. split; [by exists d|]. rewrite kids_unlink. destruct Hk as [|Hk]; [by left|right; set_solver].
    + destruct (Hst u Hu) as (m & Hm & Hpm & Hkm). exists m. split; [done|]. split; [done|]. rewrite kids_unlink.
      destruct Hkm as [|Hkm]; [by left|right; set_solver].
  - intros q m Hm Hq. destruct (Hlock q m Hm Hq) as [|(c & k & Hc' & Hkc & Htk)]; [by left|].
    destruct (decide (c = p)) as [->|Hne]; [|right; exists c, k; rewrite kids_unlink; set_solver].
    left. apply elem_of_kids in Hc' as (k' & Hk' & Hpk & _). assert (q = d) as -> by congruence.
    assert (m = dn) as -> by congruence. apply Ht. congruence.
Qed.

(** What an operation leaves alone. *)
Definition env (f : fuse M) := (conf f, ctr f, fgeneration f, hidectr f, lockq f, forget_time f, clock f).

Lemma malloc_eq (f : fuse M) : exists b h, malloc f = Some (b, set_heap h f).
Proof. unfold malloc. destruct (heap f) as [|b h] eqn:E; [|eauto]. exists true, []. rewrite <- E at 1. by destruct f. Qed.

Lemma tree_inv_heap U E x f h : tree_inv U E x f -> tree_inv U E x (set_heap h f).
Proof. intros Hf. destruct Hf. split; done. Qed.

(** The heap after the place of [p] has been cleared. *)
Section Cleared.
Context (U : gset Z) (N : gmap Z node) (p : Z) (n : node).
Context (Hn : N !! p = Some n) (HU : p ∉ U).
Let N' := <[p := with_place None None n]> N.

Lemma cleared_kids q : kids U N' q = kids ({[p]} ∪ U) N q.
Proof using Hn HU.
  apply set_eq. intros c. rewrite !elem_of_kids. unfold N'. split.
  - intros (m & [[<- <-]|[Hne Hm]]%lookup_insert_Some & Hp & Hc); [done|]. exists m. set_solver.
  - intros (m & Hm & Hp & Hc). exists m. rewrite lookup_insert_ne by set_solver. set_solver.
Qed.

Lemma cleared_named : named U N' = named ({[p]} ∪ U) N.
Proof using Hn HU.
  apply set_eq. intros c. rewrite !elem_of_named. unfold N'. split.
  - intros (m & d & [[<- <-]|[Hne Hm]]%lookup_insert_Some & Hp & Hc); [done|]. exists m, d. set_solver.
  - intros (m & d & Hm & Hp & Hc). exists m, d. rewrite lookup_insert_ne by set_solver. set_solver.
Qed.

Lemma cleared_key q : q <> p -> key_in N' q = key_in N q.
Proof using Hn.
  intros Hq. unfold key_in, N'. rewrite lookup_insert_ne by done. destruct (N !! q) as [m|]; [|done]. cbn.
  destruct (parent m) as [d|]; [|done]. cbn. destruct (decide (d = p)) as [->|]; [|by rewrite lookup_insert_ne].
  by rewrite lookup_insert_eq, Hn.
Qed.

Lemma cleared_id q : id_g N' q = id_g N q.
Proof using Hn. unfold id_g, N'. destruct (decide (q = p)) as [->|]; [by rewrite lookup_insert_eq, Hn|by rewrite lookup_insert_ne]. Qed.
End Cleared.

Lemma cleared_inv U E x f p n : tree_inv ({[p]} ∪ U) E x f -> p ∉ U -> nodes f !! p = Some n ->
  tree_inv U E x (set_name_table (with_use (u64 (use (name_table f) - 1)) (name_table f))
    (set_nodes (<[p := with_place None None n]> (nodes f)) f)).
Proof.
  intros Hf HU Hn. set (N' := <[p := _]> _).
  assert (forall q m, N' !! q = Some m -> q <> p -> nodes f !! q = Some m) as HN by (intros q m; unfold N'; intros ? ?; by rewrite lookup_insert_ne in *).
  assert (forall q m, N' !! q = Some m -> exists m', nodes f !! q = Some m' /\ nodeid m = nodeid m' /\ refctr m = refctr m' /\
    nlookup m = nlookup m' /\ treelock m = treelock m') as HN2.
  { intros q m. unfold N'. rewrite lookup_insert_Some. intros [[<- <-]|[_ Hm]]; eauto 10. }
  destruct Hf as [Hroot Hpar Hname Hnum Hkey Hids Hsh Hch Huse Href Hpos Hx0 Hst Hlock Hlru Hmem Hsz Hnl Hni Hct Hge].
  destruct (Hst p) as (n0 & Hn0 & Hpar0 & Hk0); [set_solver|]. assert (n0 = n) as -> by congruence.
  assert (dom N' = dom (nodes f)) as Hdom by (unfold N'; rewrite dom_insert_L; apply elem_of_dom_2 in Hn; set_solver).
  split; cbn [nodes id_table name_table lru_table slabs set_name_table set_nodes ctr]; try done.
  - destruct Hroot as (r & m & Hm & Hi & Hp & Hl). exists r, m. split; [|done]. unfold N'.
    rewrite lookup_insert_ne; [done|]. intros <-. assert (m = n) as -> by congruence. rewrite Hp in Hpar0. by destruct Hpar0.
  - intros q m d Hm Hq Hd. destruct (decide (q = p)) as [->|Hne].
    { unfold N' in Hm. rewrite lookup_insert_eq in Hm. injection Hm as <-. done. }
    destruct (Hpar q m d (HN q m Hm Hne)) as [dn Hdn]; [set_solver|done|]. apply elem_of_dom. rewrite Hdom. apply elem_of_dom. eauto.
  - intros q m Hm. unfold N' in Hm. apply lookup_insert_Some in Hm as [[<- <-]|[_ Hm]]; [|by apply (Hname q)].
    cbn. split; [by intros [? ?]|by intros [[? ?] _]].
  - intros q q' m m' Hm Hm' Hi. destruct (HN2 q m Hm) as (k & Hk & E1 & _), (HN2 q' m' Hm') as (k' & Hk' & E2 & _).
    apply (Hnum q q' k k'); congruence.
  - intros q q' m m' Hm Hm' Hq Hq' Hp Hpe Hne.
    assert (forall a k, N' !! a = Some k -> is_Some (parent k) -> a <> p) as Ha.
    { intros a k Hk Hpk ->. unfold N' in Hk. rewrite lookup_insert_eq in Hk. injection Hk as <-. by destruct Hpk. }
    assert (q <> p) by eauto. assert (q' <> p) by (eapply Ha; [done|congruence]).
    apply (Hkey q q' m m'); try done; try set_solver; by apply HN.
  - rewrite Hdom. destruct Hids as (? & Hcc & ?). split; [done|]. split; [|done]. eapply chains_ok_hash; [|done].
    intros q _. symmetry. unfold N'. by apply cleared_id.
  - unfold N'. rewrite cleared_named by done. apply chains_ok_use. eapply chains_ok_hash; [|done].
    intros q Hq%elem_of_named. destruct Hq as (m & d & _ & _ & Hq). unfold name_g. rewrite cleared_key; [done|done|set_solver].
  - unfold N'. rewrite cleared_named by done. cbn [use with_use]. rewrite Huse, (size_add _ _ HU).
    assert (size (named ({[p]} ∪ U) (nodes f)) + size U <= 2 * size (nodes f))%nat.
    { rewrite <- (size_dom (nodes f)). assert (size (named ({[p]} ∪ U) (nodes f)) <= size (dom (nodes f)))%nat; [|assert (size U <= size (dom (nodes f)))%nat; [|lia]].
      - apply subseteq_size. intros q (m & d & Hm & _)%elem_of_named. apply elem_of_dom; eauto.
      - apply subseteq_size. intros u Hu. destruct (Hst u) as (m & Hm & _); [set_solver|]. apply elem_of_dom; eauto. }
    rewrite (wrap_id 64); lia.
  - intros q m Hm. destruct (HN2 q m Hm) as (k & Hk & _ & Er & El & _). unfold N'. rewrite cleared_kids by done.
    rewrite Er. unfold looked_up. rewrite El. by apply (Href q).
  - intros q m Hm Hq. destruct (HN2 q m Hm) as (k & Hk & _ & -> & _). by apply (Hpos q).
  - intros u Hu. destruct (Hst u) as (m & Hm & Hp & Hk); [set_solver|]. exists m. unfold N'.
    rewrite lookup_insert_ne, cleared_kids by set_solver. done.
  - intros q m Hm Hq. destruct (HN2 q m Hm) as (k & Hk & _ & _ & El & Et). rewrite El. rewrite Et in Hq.
    destruct (Hlock q k Hk Hq) as [|(c & j & Hc & Hj & Htj)]; [by left|right]. exists c.
    unfold N'. rewrite cleared_kids by done. exists j. split; [done|]. split; [|done].
    apply elem_of_kids in Hc as (_ & _ & _ & Hc). by rewrite lookup_insert_ne by set_solver.
  - destruct Hlru as (? & Hin & ?). split; [done|]. split; [|done]. intros q Hq. apply elem_of_dom. rewrite Hdom. apply elem_of_dom. auto.
  - by rewrite Hdom.
  - rewrite <- size_dom, Hdom, size_dom. done.
  - intros q m Hm. destruct (HN2 q m Hm) as (k & Hk & _ & _ & -> & _). by apply (Hnl q).
  - intros q m Hm HqW. destruct (HN2 q m Hm) as (k & Hk & -> & _). by apply (Hni q).
Qed.

Lemma tree_inv_table U E x f t : tree_inv U E x f -> shape_ok t ->
  chains_ok (name_g (nodes f)) t (named U (nodes f)) -> use t = use (name_table f) ->
  tree_inv U E x (set_name_table t f).
Proof.
  intros Hf Hs Hc Hu. destruct Hf. split; try done. cbn [name_table set_name_table nodes]. by rewrite Hu.
Qed.

Lemma tree_inv_exempt U E E' x f : E ⊆ E' -> tree_inv U E x f -> tree_inv U E' x f.
Proof. intros HE Hf. destruct Hf as [? ? ? ? ? ? ? ? ? ? Hpos ?]. split; try done. intros p n Hn Hp. apply (Hpos p n Hn). set_solver. Qed.

(** Clearing the place of a node, with the counter and merging. *)
Lemma place_ok U E x f p n : tree_inv ({[p]} ∪ U) E x f -> p ∉ U -> nodes f !! p = Some n ->
  exists f', (update p (with_place None None) ≫= fun _ => shrink_name_table) f = Some (tt, f') /\ tree_inv U E x f' /\
    nodes f' = <[p := with_place None None n]> (nodes f) /\ env f' = env f /\ lru_table f' = lru_table f.
Proof.
  intros Hf HU Hn. rewrite (bind_step _ _ _ _ _ (update_eq f p (with_place None None) n Hn)).
  pose proof (cleared_inv U E x f p n Hf HU Hn) as Hi. set (f1 := set_nodes _ f) in *.
  unfold shrink_name_table. rewrite bind_get. cbv zeta. change (name_table f1) with (name_table f).
  set (t := with_use _ (name_table f)) in *. destruct (use t <? tsize t / 4); [|by eexists].
  destruct (malloc_eq f1) as (ok & h & Em). rewrite (bind_step _ _ _ _ _ Em).
  destruct (remerge_ok ok (name_g (nodes f1)) t (named U (nodes f1)) (t_shape _ _ _ _ Hi) (t_chains _ _ _ _ Hi)) as (t' & Et & Hs & Hc & Hu).
  unfold some, remerge_name. rewrite Et. eexists. split; [done|]. split; [|done].
  exact (tree_inv_heap U E x _ h (tree_inv_table U E x _ t' Hi Hs Hc Hu)).
Qed.

(** From one state to another only nodes that are not looked up disappear, and
    of the rest, but for [P], only the counters change. *)
Record evolves (P : gset Z) (f f' : fuse M) : Prop := {
  ev_env : env f' = env f;
  ev_node : forall q n', nodes f' !! q = Some n' -> q ∉ P -> exists n, nodes f !! q = Some n /\ n' = with_refctr (refctr n') n;
  ev_gone : forall q n, nodes f !! q = Some n -> nodes f' !! q = None -> nlookup n = 0;
  ev_old : forall q, is_Some (nodes f' !! q) -> is_Some (nodes f !! q);
  ev_lru : lru_table f' = filter (fun q => is_Some (nodes f' !! q)) (lru_table f) }.

Lemma with_refctr_twice a b n : with_refctr a (with_refctr b n) = with_refctr a n.
Proof. done. Qed.

Lemma with_refctr_self n : with_refctr (refctr n) n = n.
Proof. by destruct n. Qed.

Lemma lru_filter_id (f : fuse M) : (forall p, p ∈ lru_table f -> is_Some (nodes f !! p)) ->
  filter (fun q => is_Some (nodes f !! q)) (lru_table f) = lru_table f.
Proof.
  intros Hl. induction (lru_table f) as [|p l IH]; [done|]. rewrite filter_cons_True by (apply Hl; by left).
  f_equal. apply IH. intros q Hq. apply Hl. by right.
Qed.

Lemma filter_absorb (N N' : gmap Z node) (l : list Z) : (forall q, is_Some (N' !! q) -> is_Some (N !! q)) ->
  filter (fun q => is_Some (N' !! q)) (filter (fun q => is_Some (N !! q)) l) = filter (fun q => is_Some (N' !! q)) l.
Proof. intros HN. by apply list_filter_filter_l. Qed.

Lemma evolves_trans P f1 f2 f3 : evolves P f1 f2 -> evolves P f2 f3 ->
  (forall q n1 n2, q ∈ P -> nodes f1 !! q = Some n1 -> nodes f2 !! q = Some n2 -> nodes f3 !! q = None -> nlookup n1 = nlookup n2) ->
  evolves P f1 f3.
Proof.
  intros [E1 N1 G1 O1 L1] [E2 N2 G2 O2 L2] HP. split.
  - congruence.
  - intros q n Hn Hq. destruct (N2 q n Hn Hq) as (n2 & Hn2 & ->). destruct (N1 q n2 Hn2 Hq) as (n1 & Hn1 & ->). eauto.
  - intros q n Hn Hg. destruct (nodes f2 !! q) as [n2|] eqn:En2; [|by apply (G1 q)].
    pose proof (G2 q n2 En2 Hg) as Hz. destruct (decide (q ∈ P)) as [HqP|HqP]; [by rewrite (HP q n n2)|].
    destruct (N1 q n2 En2 HqP) as (n1 & Hn1 & E). assert (n1 = n) as -> by congruence. rewrite E in Hz. done.
  - auto.
  - by rewrite L2, L1, filter_absorb by done.
Qed.

(** The nodes that have references. *)
Definition mu (N : gmap Z node) : nat := size (filter (fun kv => 0 < refctr kv.2) N).

Lemma mu_drop N p n : N !! p = Some n -> 0 < refctr n -> (mu (<[p := with_refctr 0 n]> N) < mu N)%nat.
Proof.
  intros Hn Hr. unfold mu. rewrite map_filter_insert_False by (cbn; lia). rewrite map_filter_delete.
  assert (filter (fun kv => 0 < refctr kv.2) N !! p = Some n) as Ep by by apply map_lookup_filter_Some.
  rewrite map_size_delete, Ep. assert (size (filter (fun kv => 0 < refctr kv.2) N) <> 0%nat); [|lia].
  intros E0%map_size_empty_inv. by rewrite E0, lookup_empty in Ep.
Qed.

Lemma mu_le N : (mu N <= size N)%nat.
Proof. apply map_subseteq_size, map_filter_subseteq. Qed.

End Invariant.

(** ** Dropping references *)

Section References.
Context {M : Type} `{NodeMemLaws M}.

(** Between operations. *)
Definition tree_ok (f : fuse M) : Prop := tree_inv ∅ ∅ ∅ (fun _ => 0) f.

(** What [unhash_name] needs of [unref_node] on the directory of [p]. *)
Definition unref_spec (K : nat) (U E : gset Z) (x : Z -> Z) (unref : Z -> ST (fuse M) unit) : Prop :=
  forall f d dn, tree_inv ∅ U E (bump d x) f -> nodes f !! d = Some dn -> (d ∈ U -> nlookup dn <> 0) ->
    (mu (nodes f) <= K)%nat -> exists f', unref d f = Some (tt, f') /\ tree_inv ∅ U E x f' /\ evolves ∅ f f'.

Lemma root_looked_up U E x f p n : tree_inv ∅ U E x f -> nodes f !! p = Some n -> nodeid n = FUSE_ROOT_ID -> nlookup n <> 0.
Proof.
  intros Hf Hn Hi. destruct (t_root _ _ _ _ _ Hf) as (r & m & Hm & Hmi & _ & Hl).
  assert (p = r) as -> by (apply (t_num _ _ _ _ _ Hf p r n m); congruence). assert (n = m) as -> by congruence. lia.
Qed.

Lemma evolves_weaken P P' (f f' : fuse M) : P ⊆ P' -> evolves P f f' -> evolves P' f f'.
Proof. intros HP [? Hn ? ? ?]. split; try done. intros q n' Hn' Hq. apply Hn; [done|set_solver]. Qed.

Lemma unhash_with_ok K U E x unref f p n : unref_spec K ({[p]} ∪ U) E x unref -> (mu (nodes f) <= K)%nat ->
  tree_inv ∅ U E x f -> nodes f !! p = Some n -> p ∉ U -> nodeid n <> FUSE_ROOT_ID ->
  nlookup n <> 0 \/ kids U (nodes f) p = ∅ ->
  (forall d dn, parent n = Some d -> nodes f !! d = Some dn -> treelock n <> 0 -> nlookup dn <> 0) ->
  exists f' n', unhash_name_with unref p f = Some (tt, f') /\ tree_inv ∅ U E x f' /\ nodes f' !! p = Some n' /\
    n' = with_place None None (with_refctr (refctr n') n) /\ evolves {[p]} f f'.
Proof.
  intros Hun HK Hf Hn HU Hroot Hk Ht. unfold unhash_name_with. rewrite (bind_step _ _ _ _ _ (node_at_eq f p n Hn)).
  pose proof (t_name _ _ _ _ _ Hf p n Hn) as Hpn. destruct (name n) as [nm|] eqn:Enm.
  2: { destruct (parent n) as [d|] eqn:Ed; [destruct Hpn as [[[? ?] _] _]; [by eexists|done]|].
    exists f, n. split; [done|]. split; [done|]. split; [done|].
    split; [rewrite with_refctr_self; destruct n; cbn in *; by subst|]. split; try done; try congruence.
    - intros q m Hm _. exists m. by rewrite with_refctr_self.
    - symmetry. apply lru_filter_id. apply (t_lru _ _ _ _ _ Hf). }
  destruct (parent n) as [d|] eqn:Ed; [|destruct Hpn as [_ []]; [split; [by eexists|done]|done]].
  destruct (t_parent _ _ _ _ _ Hf p n d Hn HU Ed) as [dn Hdn].
  destruct (unlink_inv ∅ U E x f p n d dn nm Hf Hn HU Ed Hdn Enm Hk (Ht d dn eq_refl Hdn)) as (l & l' & El & Eu & Hi).
  cbn [some]. rewrite bind_ret, (bind_step _ _ _ _ _ (node_at_eq f d dn Hdn)), bind_get.
  cbv zeta. rewrite El. cbn [some]. rewrite bind_ret, Eu, bind_modify. set (f2 := set_name_table _ f) in *.
  destruct (Hun f2 d dn Hi Hdn) as (f3 & E3 & Hi3 & Hev); [|done|].
  { intros Hd. assert (p ∈ kids U (nodes f) d) as Hpd by (apply elem_of_kids; eauto).
    apply elem_of_union in Hd as [->%elem_of_singleton|Hd].
    - assert (dn = n) as -> by congruence. destruct Hk as [|Hk]; [done|set_solver].
    - destruct (t_stale _ _ _ _ _ Hf d Hd) as (m & Hm & _ & Hkm). assert (m = dn) as -> by congruence.
      destruct Hkm as [|Hkm]; [done|set_solver]. }
  rewrite (bind_step _ _ _ _ _ E3).
  destruct (t_stale _ _ _ _ _ Hi3 p) as (n3 & Hn3 & _); [set_solver|].
  destruct (ev_node _ _ _ Hev p n3 Hn3) as (n0 & Hn0 & En3); [set_solver|]. assert (n0 = n) as -> by (cbn in Hn0; congruence).
  destruct (place_ok ∅ U E x f3 p n3 Hi3 HU Hn3) as (f4 & E4 & Hi4 & HN4 & He4 & Hl4).
  exists f4, (with_place None None n3). split; [exact E4|]. split; [done|]. rewrite HN4, lookup_insert_eq. split; [done|].
  split; [by rewrite En3|]. split.
  - rewrite He4. exact (ev_env _ _ _ Hev).
  - intros q m. rewrite HN4. intros Hm Hq. rewrite lookup_insert_ne in Hm by set_solver. apply (ev_node _ _ _ Hev q m Hm). set_solver.
  - intros q m Hm. rewrite HN4. intros [Hg _]%lookup_insert_None. by apply (ev_gone _ _ _ Hev q).
  - intros q. rewrite HN4. intros [m [[<- _]|[_ Hm]]%lookup_insert_Some]; [by exists n|]. apply (ev_old _ _ _ Hev q). by exists m.
  - rewrite Hl4, (ev_lru _ _ _ Hev). apply list_filter_iff. intros q. rewrite HN4. split.
    + intros [m Hm]. destruct (decide (q = p)) as [->|]; [by rewrite lookup_insert_eq|]. rewrite lookup_insert_ne by done. by exists m.
    + intros [m [[<- _]|[_ Hm]]%lookup_insert_Some]; by eexists.
Qed.

(** The end of [delete_node]: out of the list of forgotten nodes and of the
    table by number, and freed. *)
Lemma kids_delete U N p n d : N !! p = Some n -> parent n = None -> kids U (delete p N) d = kids U N d.
Proof.
  intros Hn Hp. apply set_eq. intros c. rewrite !elem_of_kids. split; intros (m & Hm & Hc).
  - apply lookup_delete_Some in Hm as [_ Hm]. eauto.
  - exists m. split; [|done]. rewrite lookup_delete_ne; [done|]. intros <-. destruct Hc as [Hc _]. congruence.
Qed.

Lemma named_delete U N p n : N !! p = Some n -> parent n = None -> named U (delete p N) = named U N.
Proof.
  intros Hn Hp. apply set_eq. intros c. rewrite !elem_of_named. split; intros (m & d & Hm & Hc).
  - apply lookup_delete_Some in Hm as [_ Hm]. eauto.
  - exists m, d. split; [|done]. rewrite lookup_delete_ne; [done|]. intros <-. destruct Hc as [Hc _]. congruence.
Qed.

Lemma freed_inv U E x f p n t m l : tree_inv ∅ U ({[p]} ∪ E) x f -> nodes f !! p = Some n -> p ∉ U -> parent n = None ->
  refctr n = 0 -> tbl_ok (id_g (nodes f)) t (dom (nodes f) ∖ ∅ ∖ {[p]}) -> mem_ok m (dom (nodes f) ∖ {[p]}) ->
  l = filter (fun q => q <> p) (lru_table f) ->
  tree_inv ∅ U E x (set_slabs m (set_nodes (delete p (nodes f)) (set_id_table t (set_lru l f)))).
Proof.
  intros Hf Hn HU Hp Hr Ht Hm ->. pose proof (looked_up_range n) as Hlu.
  destruct Hf as [Hroot Hpar Hname Hnum Hkey Hids Hsh Hch Huse Href Hpos Hx0 Hst Hlock Hlru Hmem Hsz Hnl Hni Hct Hge].
  pose proof (Href p n Hn) as Hrp. pose proof (Hx0 p).
  assert (kids U (nodes f) p = ∅) as Hk by (apply leibniz_equiv, size_empty_inv; lia).
  assert (nlookup n = 0) as Hl by (unfold looked_up in *; destruct (Z.eqb_spec (nlookup n) 0); lia).
  assert (forall q k, delete p (nodes f) !! q = Some k -> nodes f !! q = Some k /\ q <> p) as HD.
  { intros q k. rewrite lookup_delete_Some. naive_solver. }
  assert (forall q k, nodes f !! q = Some k -> q <> p -> delete p (nodes f) !! q = Some k) as HD'.
  { intros q k ? ?. by rewrite lookup_delete_ne. }
  split; cbn [nodes id_table name_table lru_table slabs set_nodes set_slabs set_id_table set_lru ctr]; try done.
  - destruct Hroot as (r & k & Hk' & Hi & Hpk & Hl'). exists r, k. split; [|done]. apply HD'; [done|]. intros ->.
    assert (k = n) as -> by congruence. lia.
  - intros q k d [Hq Hne]%HD HqU Hd. destruct (Hpar q k d Hq HqU Hd) as [dn Hdn]. exists dn. apply HD'; [done|]. intros ->.
    assert (q ∈ kids U (nodes f) p) by (apply elem_of_kids; eauto). set_solver.
  - intros q k [Hq _]%HD. by apply (Hname q).
  - intros q q' k k' [Hq _]%HD [Hq' _]%HD. by apply Hnum.
  - intros q q' k k' [Hq _]%HD [Hq' _]%HD. by apply Hkey.
  - rewrite dom_delete_L. replace (dom (nodes f) ∖ {[p]} ∖ ∅) with (dom (nodes f) ∖ ∅ ∖ {[p]}) by set_solver. destruct Ht as (? & Hcc & ?). split; [done|]. split; [|done]. eapply chains_ok_hash; [|done].
    intros q Hq. unfold id_g. rewrite lookup_delete_ne by set_solver. done.
  - rewrite (named_delete U _ p n) by done. eapply chains_ok_hash; [|done]. intros q (k & d & Hq & Hd & HqU)%elem_of_named.
    unfold name_g, key_in. rewrite (HD' q k) by (done || congruence). rewrite Hq. cbn. rewrite Hd. cbn.
    destruct (Hpar q k d Hq HqU Hd) as [dn Hdn]. rewrite Hdn. rewrite (HD' d dn); [done|done|].
    intros ->. assert (q ∈ kids U (nodes f) p) by (apply elem_of_kids; eauto). set_solver.
  - by rewrite (named_delete U _ p n).
  - intros q k [Hq _]%HD. rewrite (kids_delete U _ p n) by done. by apply Href.
  - intros q k [Hq Hne]%HD HqE. apply (Hpos q k Hq). set_solver.
  - intros u Hu. destruct (Hst u Hu) as (k & Hk' & Hpk & Hkk). exists k. rewrite (kids_delete U _ p n) by done.
    split; [|done]. apply HD'; [done|set_solver].
  - intros q k [Hq Hne]%HD Htl. destruct (Hlock q k Hq Htl) as [|(c & j & Hc & Hj & Htj)]; [by left|right]. exists c, j.
    rewrite (kids_delete U _ p n) by done. split; [done|]. split; [|done]. apply HD'; [done|]. intros ->.
    apply elem_of_kids in Hc as (k' & Hk' & Hpk & _). congruence.
  - destruct Hlru as (Hnd & Hin & Hen). split; [by apply NoDup_filter|]. split.
    + intros q [Hq Hql]%list_elem_of_filter. destruct (Hin q Hql) as [k Hqk]. exists k. by apply HD'.
    + intros Hen'. change (lru_enabled _) with (lru_enabled f) in Hen'. by rewrite (Hen Hen').
  - by rewrite dom_delete_L.
  - assert (size (delete p (nodes f)) <= size (nodes f))%nat; [|lia]. apply map_subseteq_size, delete_subseteq.
  - intros q k [Hq _]%HD. by apply (Hnl q).
  - intros q k [Hq _]%HD HqW. by apply (Hni q).
Qed.

Lemma unhash_id_ok U E x f p n : tree_inv ∅ U E x f -> nodes f !! p = Some n ->
  exists t h, unhash_id_ p f = Some (tt, set_id_table t (set_heap h f)) /\ tbl_ok (id_g (nodes f)) t (dom (nodes f) ∖ ∅ ∖ {[p]}).
Proof.
  intros Hf Hn. unfold unhash_id_. destruct (malloc_eq f) as (ok & h & Em). rewrite (bind_step _ _ _ _ _ Em), bind_get.
  assert (p ∈ dom (nodes f) ∖ ∅) as Hp by (rewrite difference_empty_L; apply elem_of_dom; eauto).
  destruct (unhash_ok ok (id_g (nodes f)) (id_table f) (dom (nodes f) ∖ ∅) p (t_ids _ _ _ _ _ Hf) Hp) as (t & Et & Ht).
  exists t, h. split; [|done]. unfold unhash_id, nodeid_of. cbn [nodes set_heap id_table]. rewrite Hn. cbn [fmap option_fmap option_map mbind option_bind].
  unfold id_g in Et. rewrite Hn in Et. rewrite Et. done.
Qed.

(** The end of [delete_node]. *)
Lemma free_ok U E x f p n : tree_inv ∅ U ({[p]} ∪ E) x f -> nodes f !! p = Some n -> p ∉ U -> parent n = None -> refctr n = 0 ->
  exists f', (f0 ← get; _ ← (if lru_enabled f0 then remove_node_lru p else mret tt); _ ← unhash_id_ p; free_node p) f = Some (tt, f') /\
    tree_inv ∅ U E x f' /\ nodes f' = delete p (nodes f) /\ env f' = env f /\ lru_table f' = filter (fun q => q <> p) (lru_table f).
Proof.
  intros Hf Hn HU Hp Hr. rewrite bind_get.
  set (f1 := set_lru (filter (fun q => q <> p) (lru_table f)) f).
  assert ((if lru_enabled f then remove_node_lru p else mret tt) f = Some (tt, f1)) as E0.
  { destruct (lru_enabled f) eqn:El; [done|]. unfold f1. rewrite (proj2 (proj2 (t_lru _ _ _ _ _ Hf)) El). cbn.
    rewrite <- (proj2 (proj2 (t_lru _ _ _ _ _ Hf)) El). by destruct f. }
  rewrite (bind_step _ _ _ _ _ E0).
  assert (tree_inv ∅ U ({[p]} ∪ E) x f1) as Hf1.
  { pose proof (t_lru _ _ _ _ _ Hf) as (Hnd & Hin & Hen). destruct Hf. split; try done. split; [by apply NoDup_filter|].
    split; [intros q [_ Hq]%list_elem_of_filter; by apply Hin|]. intros Hen'. cbn. by rewrite (Hen Hen'). }
  destruct (unhash_id_ok U _ x f1 p n Hf1 Hn) as (t & h & E1 & Ht). rewrite (bind_step _ _ _ _ _ E1).
  unfold free_node. set (f2 := set_id_table t _). rewrite (bind_step _ _ _ _ _ (node_at_eq f2 p n Hn)), bind_get.
  destruct (free_law (slabs f) (dom (nodes f)) p (t_mem _ _ _ _ _ Hf)) as (m & Em & Hm); [apply elem_of_dom; eauto|].
  change (slabs f2) with (slabs f). rewrite Em. cbn [some]. rewrite bind_ret. eexists. split; [reflexivity|].
  split; [|done]. exact (tree_inv_heap ∅ _ _ _ _ h (freed_inv U E x f p n t m _ Hf Hn HU Hp Hr Ht Hm eq_refl)).
Qed.

(** The recursion that drops a reference ends, and leaves the invariant. *)
Lemma unref_fuel_ok fuel : forall U E x f p n, tree_inv ∅ U E (bump p x) f -> (forall q, 0 <= x q) ->
  nodes f !! p = Some n -> (p ∈ U -> nlookup n <> 0) -> (mu (nodes f) <= fuel)%nat ->
  exists f', unref_fuel fuel p f = Some (tt, f') /\ tree_inv ∅ U E x f' /\ evolves ∅ f f'.
Proof.
  induction fuel as [|fuel IH]; intros U E x f p n Hf Hx Hn HpU Hmu; pose proof (t_ref _ _ _ _ _ Hf p n Hn) as Hr;
    unfold bump in Hr; rewrite decide_True in Hr by done; pose proof (Hx p); pose proof (looked_up_range n).
  { pose proof (mu_drop (nodes f) p n Hn). lia. }
  cbn [unref_fuel]. rewrite (bind_step _ _ _ _ _ (node_at_eq f p n Hn)).
  destruct (Z.ltb_spec 0 (refctr n)); [|lia]. cbn [check]. rewrite bind_ret.
  rewrite (bind_step _ _ _ _ _ (update_eq f p _ n Hn)). set (f1 := set_nodes _ f).
  assert (forall E', E ⊆ E' -> (p ∉ E' -> 0 < refctr n - 1) -> tree_inv ∅ U E' x f1) as Hf1.
  { intros E' HE Hp. apply (tree_inv_update ∅ U E' (bump p x) x f p n); try done.
    - by apply (tree_inv_exempt ∅ U E).
    - intros q Hq. unfold bump. by rewrite decide_False.
    - unfold bump. rewrite decide_True by done. unfold looked_up. cbn. lia.
    - exact (t_nlookup _ _ _ _ _ Hf p n Hn). }
  assert (evolves ∅ f f1) as Hev1.
  { split; try done; unfold f1; cbn [nodes set_nodes lru_table].
    - intros q m [[<- <-]|[Hne Hm]]%lookup_insert_Some _; [by exists n|]. exists m. by rewrite with_refctr_self.
    - intros q m Hm [Hm' _]%lookup_insert_None. congruence.
    - intros q [m [[<- _]|[_ Hm]]%lookup_insert_Some]; by eexists.
    - symmetry. apply (lru_filter_id f1). intros q Hq. destruct (proj1 (proj2 (t_lru _ _ _ _ _ Hf)) q Hq) as [m Hm].
      cbn. destruct (decide (q = p)) as [->|]; [rewrite lookup_insert_eq; by eexists|rewrite lookup_insert_ne by done; by exists m]. }
  destruct (Z.eqb_spec (refctr n - 1) 0) as [Hz|Hz]; [|exists f1; split; [done|]; split; [apply Hf1; [done|lia]|done]].
  assert (refctr n = 1) as Hr1 by lia. assert (x p = 0) as Hxp by lia.
  assert (nlookup n = 0) as Hl by (unfold looked_up in *; destruct (Z.eqb_spec (nlookup n) 0); lia).
  assert (p ∉ U) as HU by (intros Hp; by apply HpU).
  pose proof (Hf1 ({[p]} ∪ E) ltac:(set_solver) ltac:(set_solver)) as Hi1. set (n1 := with_refctr (refctr n - 1) n) in *.
  assert (nodes f1 !! p = Some n1) as Hn1 by apply lookup_insert_eq.
  assert (kids U (nodes f1) p = ∅) as Hk.
  { apply leibniz_equiv, size_empty_inv. pose proof (t_ref _ _ _ _ _ Hi1 p n1 Hn1) as Hr'. unfold n1 in Hr' at 1. cbn [refctr with_refctr] in Hr'.
    pose proof (looked_up_range n1). lia. }
  assert (treelock n = 0) as Htl.
  { destruct (decide (treelock n = 0)) as [|Ht]; [done|]. destruct (t_lock _ _ _ _ _ Hi1 p n1 Hn1 Ht) as [?|(q & m & Hq & _)]; [done|set_solver]. }
  unfold delete_node_with. rewrite (bind_step _ _ _ _ _ (node_at_eq f1 p n1 Hn1)).
  change (treelock n1) with (treelock n). rewrite Htl. cbn [check Z.eqb]. rewrite bind_ret.
  destruct (unhash_with_ok fuel U ({[p]} ∪ E) x (unref_fuel fuel) f1 p n1) as (f3 & n3 & E3 & Hi3 & Hn3 & En3 & Hev3); try done.
  - intros g d dn Hg Hd HdU Hmg. by apply (IH _ _ x g d dn).
  - assert (mu (nodes f1) < mu (nodes f))%nat; [|lia]. cbn. unfold n1. rewrite Hr1. apply mu_drop; [done|lia].
  - intros Hi. by apply (root_looked_up U ({[p]} ∪ E) x f1 p n1).
  - by right.
  - rewrite (bind_step _ _ _ _ _ E3).
    assert (refctr n3 = 0) as Hr3.
    { pose proof (t_ref _ _ _ _ _ Hi3 p n3 Hn3) as Hr3. rewrite Hr3, Hxp. rewrite En3. unfold looked_up. cbn. rewrite Hl. cbn.
      destruct (decide (size (kids U (nodes f3) p) = 0%nat)) as [->|Hne]; [done|]. exfalso.
      destruct (set_choose_or_empty (kids U (nodes f3) p)) as [[c Hc]|He]; [|rewrite He in Hne; by rewrite size_empty in Hne].
      apply elem_of_kids in Hc as (m & Hm & Hpm & HcU).
      destruct (decide (c = p)) as [->|Hcp]; [assert (m = n3) as -> by congruence; by rewrite En3 in Hpm|].
      destruct (ev_node _ _ _ Hev3 c m Hm) as (m0 & Hm0 & Em); [set_solver|].
      assert (c ∈ kids U (nodes f1) p); [|set_solver]. apply elem_of_kids. exists m0. split; [done|]. rewrite Em in Hpm. done. }
    destruct (free_ok U E x f3 p n3 Hi3 Hn3 HU) as (f4 & E4 & Hi4 & HN4 & He4 & Hl4); [by rewrite En3|done|].
    exists f4. split; [exact E4|]. split; [done|]. apply (evolves_trans ∅ f f1 f4); [done| |set_solver]. split.
    + rewrite He4. exact (ev_env _ _ _ Hev3).
    + intros q m. rewrite HN4. intros [Hne Hm]%lookup_delete_Some _. apply (ev_node _ _ _ Hev3 q m Hm). set_solver.
    + intros q m Hm. rewrite HN4. intros [->|Hg]%lookup_delete_None; [|by apply (ev_gone _ _ _ Hev3 q)]. assert (m = n1) as -> by congruence. done.
    + intros q. rewrite HN4. intros [m [_ Hm]%lookup_delete_Some]. apply (ev_old _ _ _ Hev3 q). by exists m.
    + rewrite Hl4, (ev_lru _ _ _ Hev3), list_filter_filter. apply list_filter_iff. intros q. rewrite HN4. split.
      * intros [Hne [m Hm]]. exists m. by rewrite lookup_delete_ne.
      * intros [m [Hne Hm]%lookup_delete_Some]. split; [done|by exists m].
Qed.

End References.
