(* ===== verification/NodeOps.v ===== *)
(** * Operations on the tree of nodes

    Inserting, finding, forgetting, renaming and removing nodes, against the
    invariant of [NodeTree]; then the tree as the kernel sees it, and the
    theorem that a history of operations acts on it as its specification
    says. *)

From S2P Require Import Prelude NodeTable Wire Locks Node NodeTree.

(** ** Inserting by name *)

Section Insert.
Context {M : Type} `{NodeMemLaws M}.
Context (U : gset Z).

(** The heap after [p] has been given the place [d], [nm]. *)
Definition placed (N : gmap Z node) (p d : Z) (nm : bytes) (n dn : node) : gmap Z node :=
  <[p := with_place (Some d) (Some nm) n]> (<[d := with_refctr (refctr dn + 1) dn]> N).

Section Placed.
Context (N : gmap Z node) (p d : Z) (nm : bytes) (n dn : node).
Context (Hn : N !! p = Some n) (Hdn : N !! d = Some dn) (Hpd : p <> d) (HU : p ∉ U).
Context (Hp : parent n = None).

Lemma placed_lookup q m : placed N p d nm n dn !! q = Some m ->
  q = p /\ m = with_place (Some d) (Some nm) n \/ q = d /\ m = with_refctr (refctr dn + 1) dn \/
  q <> p /\ q <> d /\ N !! q = Some m.
Proof using.
  unfold placed. rewrite !lookup_insert_Some. intros [[<- <-]|[? [[<- <-]|[? ?]]]]; [by left|by right; left|by right; right].
Qed.

Lemma placed_p : placed N p d nm n dn !! p = Some (with_place (Some d) (Some nm) n).
Proof using. apply lookup_insert_eq. Qed.

Lemma placed_d : placed N p d nm n dn !! d = Some (with_refctr (refctr dn + 1) dn).
Proof using Hpd. unfold placed. by rewrite lookup_insert_ne, lookup_insert_eq. Qed.

Lemma placed_other q : q <> p -> q <> d -> placed N p d nm n dn !! q = N !! q.
Proof using. intros. unfold placed. by rewrite !lookup_insert_ne. Qed.

(** The old node, but for its place and counter. *)
Lemma placed_old q m : placed N p d nm n dn !! q = Some m -> exists k, N !! q = Some k /\ nodeid m = nodeid k /\
  nlookup m = nlookup k /\ treelock m = treelock k /\ refctr m = refctr k + (if decide (q = d) then 1 else 0) /\
  (q <> p -> parent m = parent k /\ name m = name k).
Proof using Hn Hdn Hpd.
  intros [[-> ->]|[[-> ->]|(? & ? & Hm)]]%placed_lookup.
  - exists n. rewrite decide_False by done. repeat split; cbn; try done; lia.
  - exists dn. rewrite decide_True by done. done.
  - exists m. rewrite decide_False by done. repeat split; try done; lia.
Qed.

Lemma placed_new q k : N !! q = Some k -> exists m, placed N p d nm n dn !! q = Some m /\ nodeid m = nodeid k /\
  nlookup m = nlookup k /\ treelock m = treelock k /\ (q <> p -> parent m = parent k /\ name m = name k).
Proof using Hn Hdn Hpd.
  intros Hk. destruct (decide (q = p)) as [->|]; [|destruct (decide (q = d)) as [->|]].
  - eexists. rewrite placed_p. assert (k = n) as -> by congruence. done.
  - eexists. rewrite placed_d. assert (k = dn) as -> by congruence. done.
  - eexists. rewrite placed_other by done. rewrite Hk. done.
Qed.

Lemma placed_dom : dom (placed N p d nm n dn) = dom N.
Proof using Hn Hdn. clear - Hn Hdn. unfold placed. rewrite !dom_insert_L. apply elem_of_dom_2 in Hn, Hdn. set_solver. Qed.

Lemma placed_kids q : kids U (placed N p d nm n dn) q = if decide (q = d) then {[p]} ∪ kids U N d else kids U N q.
Proof using Hn Hdn Hpd HU Hp.
  apply set_eq. intros c. assert (c ∈ (if decide (q = d) then {[p]} ∪ kids U N d else kids U N q) <->
    (q = d /\ c = p) \/ c ∈ kids U N q) as -> by (case_decide; [subst|]; set_solver).
  rewrite !elem_of_kids. split.
  - intros (m & Hm & Hpm & Hc). destruct (placed_old c m Hm) as (k & Hk & _ & _ & _ & _ & Hpl).
    destruct (decide (c = p)) as [->|Hcp].
    + left. rewrite placed_p in Hm. injection Hm as <-. cbn in Hpm. split; [congruence|done].
    + right. exists k. split; [done|]. destruct (Hpl Hcp). split; [congruence|done].
  - intros [[-> ->]|(k & Hk & Hpk & Hc)]; [eexists; rewrite placed_p; done|].
    destruct (placed_new c k Hk) as (m & Hm & _ & _ & _ & Hpl). exists m. split; [done|].
    destruct (decide (c = p)) as [->|Hcp]; [congruence|]. destruct (Hpl Hcp). split; [congruence|done].
Qed.

Lemma placed_named : named U (placed N p d nm n dn) = {[p]} ∪ named U N.
Proof using Hn Hdn Hpd HU Hp.
  apply set_eq. intros c. rewrite elem_of_union, elem_of_singleton, !elem_of_named. split.
  - intros (m & e & Hm & Hpm & Hc). destruct (placed_old c m Hm) as (k & Hk & _ & _ & _ & _ & Hpl).
    destruct (decide (c = p)) as [->|Hcp]; [by left|right]. exists k, e. destruct (Hpl Hcp). split; [done|]. split; [congruence|done].
  - intros [->|(k & e & Hk & Hpk & Hc)]; [eexists _, d; rewrite placed_p; done|].
    destruct (placed_new c k Hk) as (m & Hm & _ & _ & _ & Hpl). exists m, e. split; [done|].
    destruct (decide (c = p)) as [->|Hcp]; [congruence|]. destruct (Hpl Hcp). split; [congruence|done].
Qed.

Lemma placed_key q : q <> p -> key_in (placed N p d nm n dn) q = key_in N q.
Proof using Hn Hdn Hpd.
  intros Hq. unfold key_in. destruct (N !! q) as [k|] eqn:Hk.
  - destruct (placed_new q k Hk) as (m & -> & _ & _ & _ & Hpl). cbn. destruct (Hpl Hq) as [-> ->].
    destruct (parent k) as [e|]; [|done]. cbn. destruct (N !! e) as [en|] eqn:He.
    + destruct (placed_new e en He) as (em & -> & Hi & _). cbn. by rewrite Hi.
    + destruct (placed N p d nm n dn !! e) as [em|] eqn:Hem; [|done]. destruct (placed_old e em Hem) as (? & ? & _). congruence.
  - destruct (placed N p d nm n dn !! q) as [m|] eqn:Hm; [|done]. destruct (placed_old q m Hm) as (? & ? & _). congruence.
Qed.

Lemma placed_key_p : key_in (placed N p d nm n dn) p = Some (nodeid dn, nm).
Proof using Hpd. unfold key_in. rewrite placed_p. cbn. rewrite placed_d. done. Qed.

Lemma placed_id q : id_g (placed N p d nm n dn) q = id_g N q.
Proof using Hn Hdn Hpd.
  unfold id_g. destruct (N !! q) as [k|] eqn:Hk; [by destruct (placed_new q k Hk) as (m & -> & -> & _)|].
  destruct (placed N p d nm n dn !! q) as [m|] eqn:Hm; [|done]. destruct (placed_old q m Hm) as (? & ? & _). congruence.
Qed.
End Placed.

Context (W E : gset Z) (x : Z -> Z).

Lemma named_size (f : fuse M) : tree_inv W U E x f -> (size (named U (nodes f)) + size U <= 2 * size (nodes f))%nat.
Proof.
  intros Hf. rewrite <- (size_dom (nodes f)).
  assert (size (named U (nodes f)) <= size (dom (nodes f)))%nat; [|assert (size U <= size (dom (nodes f)))%nat; [|lia]].
  - apply subseteq_size. intros q (m & d & Hm & _)%elem_of_named. apply elem_of_dom; eauto.
  - apply subseteq_size. intros u Hu. destruct (t_stale _ _ _ _ _ Hf u Hu) as (m & Hm & _). apply elem_of_dom; eauto.
Qed.

Lemma kids_size (f : fuse M) d : (size (kids U (nodes f) d) <= size (nodes f))%nat.
Proof.
  rewrite <- (size_dom (nodes f)). apply subseteq_size. intros q (m & Hm & _)%elem_of_kids. apply elem_of_dom; eauto.
Qed.

Lemma placed_inv f p d nm n dn t : tree_inv W U E x f -> nodes f !! p = Some n -> nodes f !! d = Some dn -> p <> d ->
  p ∉ U -> d ∉ U -> parent n = None -> nodeid n <> FUSE_ROOT_ID ->
  (forall q m, nodes f !! q = Some m -> q ∉ U -> parent m = Some d -> name m = Some nm -> q = p) ->
  shape_ok t -> chains_ok (name_g (placed (nodes f) p d nm n dn)) t ({[p]} ∪ named U (nodes f)) ->
  use t = use (name_table f) + 1 ->
  tree_inv W U E x (set_name_table t (set_nodes (placed (nodes f) p d nm n dn) f)).
Proof.
  intros Hf Hn Hdn Hpd HU HdU Hp Hr Hfresh Hs Hc Hu.
  pose proof (fun q m => placed_old (nodes f) p d nm n dn Hn Hdn Hpd q m) as Hold.
  pose proof (fun q m => placed_new (nodes f) p d nm n dn Hn Hdn Hpd q m) as Hnew.
  assert (p ∉ named U (nodes f)) as Hpn by (intros (m & e & Hm & Hpm & _)%elem_of_named; congruence).
  destruct Hf as [Hroot Hpar Hname Hnum Hkey Hids Hsh Hch Huse Href Hpos Hx0 Hst Hlock Hlru Hmem Hsz Hnl Hni Hct Hge].
  split; cbn [nodes id_table name_table lru_table slabs set_name_table set_nodes ctr];
    rewrite ?(placed_dom (nodes f) p d nm n dn Hn Hdn), ?(placed_named (nodes f) p d nm n dn Hn Hdn Hpd HU Hp); try done.
  - destruct Hroot as (r & k & Hk & Hi & Hpk & Hl). destruct (Hnew r k Hk) as (m & Hm & Hmi & Hml & _ & Hpl).
    exists r, m. split; [done|]. rewrite Hmi, Hml. split; [done|]. split; [|done]. destruct Hpl; [|congruence].
    intros ->. assert (k = n) as -> by congruence. done.
  - intros q m e Hm HqU Hpm. destruct (decide (q = p)) as [->|Hq].
    + rewrite placed_p in Hm. injection Hm as <-. cbn in Hpm. injection Hpm as <-. rewrite placed_d by done. by eexists.
    + destruct (Hold q m Hm) as (k & Hk & _ & _ & _ & _ & Hpl). destruct (Hpl Hq) as [Hpl1 _].
      destruct (Hpar q k e Hk HqU ltac:(congruence)) as [en Hen]. destruct (Hnew e en Hen) as (em & Hem & _). by exists em.
  - intros q m Hm. destruct (decide (q = p)) as [->|Hq].
    + rewrite placed_p in Hm. injection Hm as <-. cbn. split; [by eauto|]. by eexists.
    + destruct (Hold q m Hm) as (k & Hk & -> & _ & _ & _ & Hpl). destruct (Hpl Hq) as [-> ->]. by apply (Hname q).
  - intros q q' m m' Hm Hm' Hi. destruct (Hold q m Hm) as (k & Hk & Hki & _), (Hold q' m' Hm') as (k' & Hk' & Hki' & _).
    apply (Hnum q q' k k'); congruence.
  - assert (forall q m, placed (nodes f) p d nm n dn !! q = Some m -> q ∉ U -> parent m = Some d -> name m = Some nm -> q = p) as Hfr.
    { intros q m Hm HqU Hpm Hnm. destruct (decide (q = p)) as [|Hq]; [done|].
      destruct (Hold q m Hm) as (k & Hk & _ & _ & _ & _ & Hpl). destruct (Hpl Hq). apply (Hfresh q k); congruence. }
    intros q q' m m' Hm Hm' HqU HqU' Hsm Hpe Hne.
    destruct (decide (q = p)) as [->|Hq]; [|destruct (decide (q' = p)) as [->|Hq']].
    + rewrite placed_p in Hm. injection Hm as <-. symmetry. cbn in *. by apply (Hfr q' m').
    + rewrite placed_p in Hm'. injection Hm' as <-. by apply (Hfr q m).
    + destruct (Hold q m Hm) as (k & Hk & _ & _ & _ & _ & Hpl), (Hold q' m' Hm') as (k' & Hk' & _ & _ & _ & _ & Hpl').
      destruct (Hpl Hq) as [E1 E2], (Hpl' Hq') as [E3 E4]. apply (Hkey q q' k k'); congruence.
  - destruct Hids as (? & Hcc & ?). split; [done|]. split; [|done]. eapply chains_ok_hash; [|done]. intros q _. by rewrite placed_id.
  - rewrite Hu, Huse, size_add by done. lia.
  - intros q m Hm. destruct (Hold q m Hm) as (k & Hk & _ & Hl & _ & Hrf & _). rewrite Hrf, (Href q k Hk).
    rewrite (placed_kids (nodes f) p d nm n dn Hn Hdn Hpd HU Hp). unfold looked_up. rewrite Hl. case_decide; [subst q|lia].
    rewrite size_add; [lia|]. intros (j & Hj & Hpj & _)%elem_of_kids. congruence.
  - intros q m Hm HqE. destruct (Hold q m Hm) as (k & Hk & _ & _ & _ & -> & _). pose proof (Hpos q k Hk HqE). case_decide; lia.
  - intros u Hu'. destruct (Hst u Hu') as (k & Hk & Hsk & Hkk). destruct (Hnew u k Hk) as (m & Hm & _ & Hl & _ & Hpl).
    exists m. split; [done|]. assert (u <> p) as Hup by set_solver. destruct (Hpl Hup) as [-> _]. split; [done|].
    rewrite Hl, (placed_kids (nodes f) p d nm n dn Hn Hdn Hpd HU Hp), decide_False by set_solver. done.
  - intros q m Hm Ht. destruct (Hold q m Hm) as (k & Hk & _ & Hl & Htl & _). rewrite Hl. rewrite Htl in Ht.
    destruct (Hlock q k Hk Ht) as [|(c & j & Hcq & Hj & Htj)]; [by left|right].
    destruct (Hnew c j Hj) as (j' & Hj' & _ & _ & Htj' & _). exists c, j'.
    rewrite (placed_kids (nodes f) p d nm n dn Hn Hdn Hpd HU Hp). split; [case_decide; [subst|]; set_solver|]. split; [done|congruence].
  - destruct Hlru as (? & Hin & ?). split; [done|]. split; [|done]. intros q Hq. destruct (Hin q Hq) as [k Hk].
    destruct (Hnew q k Hk) as (m & Hm & _). by exists m.
  - rewrite <- size_dom, (placed_dom (nodes f) p d nm n dn Hn Hdn), size_dom. done.
  - intros q m Hm. destruct (Hold q m Hm) as (k & Hk & _ & -> & _). by apply (Hnl q).
  - intros q m Hm HqW. destruct (Hold q m Hm) as (k & Hk & -> & _). by apply (Hni q).
Qed.

(** [hash_name] gives [p] a place in the directory [d], or fails for lack of
    memory and changes nothing. *)
Lemma hash_name_ok f p d nm n dn : tree_inv W U E x f -> nodes f !! p = Some n -> nodes f !! d = Some dn -> p <> d ->
  p ∉ U -> d ∉ U -> d ∉ W -> parent n = None -> name n = None -> nodeid n <> FUSE_ROOT_ID -> x d <= 1 ->
  (forall q m, nodes f !! q = Some m -> q ∉ U -> parent m = Some d -> name m = Some nm -> q = p) ->
  (exists h, hash_name p (nodeid dn) nm f = Some (-1, set_heap h f)) \/
  (exists f', hash_name p (nodeid dn) nm f = Some (0, f') /\ tree_inv W U E x f' /\
     nodes f' = placed (nodes f) p d nm n dn /\ env f' = env f /\ lru_table f' = lru_table f /\
     id_table f' = id_table f /\ slabs f' = slabs f).
Proof.
  intros Hf Hn Hdn Hpd HU HdU HdW Hp Hnm Hr Hxd Hfresh. unfold hash_name. rewrite bind_get. cbv zeta.
  rewrite (bind_step _ _ _ _ _ (get_node_ok W U E x f d dn Hf Hdn HdW)).
  assert (exists ok h, (if Z.of_nat (length nm) <? INLINE_NAME then mret true else malloc) f = Some (ok, set_heap h f)) as (ok & h & Eok).
  { destruct (_ <? _); [exists true, (heap f); by destruct f|apply malloc_eq]. }
  rewrite (bind_step _ _ _ _ _ Eok). set (f1 := set_heap h f).
  assert (forall g, update p g f1 = Some (tt, set_nodes (<[p := g n]> (nodes f1)) f1)) as Eu by (intros g; by apply update_eq).
  destruct ok; cbn [negb].
  2: { left. exists h. rewrite (bind_step _ _ _ _ _ (Eu _)). unfold mret, ST_ret. do 2 f_equal.
    replace (with_place (parent n) None n) with n by (rewrite <- Hnm; by destruct n). unfold f1. cbn.
    rewrite insert_id by done. by destruct f. }
  right. rewrite (bind_step _ _ _ _ _ (Eu _)). set (f2 := set_nodes _ f1).
  assert (nodes f2 !! d = Some dn) as Hd2 by (cbn; by rewrite lookup_insert_ne).
  rewrite (bind_step _ _ _ _ _ (update_eq f2 d _ dn Hd2)). set (f3 := set_nodes _ f2).
  assert (nodes f3 !! p = Some (with_place (parent n) (Some nm) n)) as Hp3 by (cbn; rewrite lookup_insert_ne, lookup_insert_eq; done).
  rewrite (bind_step _ _ _ _ _ (update_eq f3 p _ _ Hp3)). set (f4 := set_nodes _ f3). rewrite bind_get.
  assert (i32 (refctr dn + 1) = refctr dn + 1) as Hi.
  { apply swrap_id; [lia|]. rewrite (t_ref _ _ _ _ _ Hf d dn Hdn). pose proof (looked_up_range dn). pose proof (t_x _ _ _ _ _ Hf d).
    pose proof (t_size _ _ _ _ _ Hf). pose proof (kids_size f d). change (2 ^ (32 - 1)) with (2 * 2 ^ 30). lia. }
  assert (nodes f4 = placed (nodes f) p d nm n dn) as HN4.
  { cbn. unfold placed. rewrite Hi. rewrite (insert_insert_ne _ d p) by done. rewrite insert_insert_eq. done. }
  change (name_table f4) with (name_table f). set (g := name_g (placed (nodes f) p d nm n dn)).
  assert (g p = name_raw (nodeid dn) nm) as Hg by (unfold g, name_g; by rewrite placed_key_p).
  destruct (push_ok g (name_table f) (named U (nodes f)) p) as (t1 & E1 & Hs1 & Hc1 & Hu1 & Hz1 & Hsp1).
  { apply (t_shape _ _ _ _ _ Hf). }
  { eapply chains_ok_hash; [|apply (t_chains _ _ _ _ _ Hf)]. intros q (m & e & Hm & Hpm & _)%elem_of_named. unfold g, name_g.
    rewrite placed_key; [done..|]. intros ->. congruence. }
  { intros (m & e & Hm & Hpm & _)%elem_of_named. congruence. }
  rewrite Hg in E1. unfold name_hash. rewrite E1. cbn [some]. rewrite bind_ret. set (t2 := with_use _ t1).
  assert (use t2 = use (name_table f) + 1) as Hu2.
  { cbn. rewrite Hu1, (t_use _ _ _ _ _ Hf). pose proof (named_size f Hf). pose proof (t_size _ _ _ _ _ Hf). apply (wrap_id 64). lia. }
  assert (exists t' h', (if tsize t2 / 2 <=? use t2 then ok ← malloc; f0 ← get; t ← some (rehash_name ok (key_of f0) t2); modify (set_name_table t)
     else modify (set_name_table t2)) f4 = Some (tt, set_name_table t' (set_heap h' f4)) /\
     shape_ok t' /\ chains_ok g t' ({[p]} ∪ named U (nodes f)) /\ use t' = use t2) as (t' & h' & Et & Hs' & Hc' & Hu').
  { destruct (_ <=? _).
    - destruct (malloc_eq f4) as (ok & h' & Em). rewrite (bind_step _ _ _ _ _ Em), bind_get.
      destruct (rehash_ok ok (fun q => k ← key_of (set_heap h' f4) q; Some (name_raw k.1 k.2)) g t2 ({[p]} ∪ named U (nodes f)) Hs1)
        as (t' & Et & Hs' & Hc' & Hu'); [by apply chains_ok_use| |].
      + intros q Hq. change (key_of (set_heap h' f4) q) with (key_in (nodes f4) q). rewrite HN4. unfold g, name_g.
        apply elem_of_union in Hq as [->%elem_of_singleton|(m & e & Hm & Hpm & HqU)%elem_of_named]; [by rewrite placed_key_p|].
        rewrite placed_key; [|done..|intros ->; congruence].
        by destruct (key_named W U E x f q m e Hf Hm HqU Hpm) as (? & ? & _ & _ & ->).
      + exists t', h'. unfold rehash_name. rewrite Et. done.
    - exists t2, (heap f4). split; [by destruct f4|]. split; [done|]. split; [by apply chains_ok_use|done]. }
  rewrite (bind_step _ _ _ _ _ Et). eexists. split; [reflexivity|]. split; [|split; [exact HN4|done]].
  pose proof (placed_inv f p d nm n dn t' Hf Hn Hdn Hpd HU HdU Hp Hr Hfresh Hs' Hc' ltac:(congruence)) as Hi'.
  apply (tree_inv_heap W U E x _ h') in Hi'. rewrite <- HN4 in Hi'. exact Hi'.
Qed.

End Insert.

(** ** Numbers *)

Section Numbers.
Context {M : Type} `{NodeMemLaws M}.

(** The counter and the generation as one 64-bit number. *)
Definition stamp (g c : Z) : Z := g * 2 ^ 32 + c.

(** The [k]-th number after [c]. *)
Definition nth_id (c : Z) (k : nat) : Z := (c + Z.of_nat k) mod 2 ^ 32.

Lemma nth_id_next c k : Z.land (nth_id c k + 1) 4294967295 = nth_id c (S k).
Proof.
  change 4294967295 with (Z.ones 32). rewrite Z.land_ones by lia. unfold nth_id.
  rewrite Z.add_mod_idemp_l by lia. f_equal. lia.
Qed.

Lemma nth_id_nodup c k : (Z.of_nat k <= 2 ^ 32) -> NoDup (nth_id c <$> seq 1 k).
Proof.
  intros Hk. apply NoDup_fmap_2_strong; [|apply NoDup_seq]. intros i j Hi%elem_of_seq Hj%elem_of_seq. unfold nth_id. intros Eq.
  pose proof (Z.div_mod (c + Z.of_nat i) (2 ^ 32) ltac:(lia)). pose proof (Z.div_mod (c + Z.of_nat j) (2 ^ 32) ltac:(lia)).
  assert ((c + Z.of_nat i) / 2 ^ 32 = (c + Z.of_nat j) / 2 ^ 32) by nia. nia.
Qed.

Lemma nodup_bound (l : list Z) (B : gset Z) : NoDup l -> (forall z, z ∈ l -> z ∈ B) -> (length l <= size B)%nat.
Proof.
  intros Hl HB. rewrite <- (size_list_to_set (C := gset Z) l Hl). apply subseteq_size. intros z Hz%elem_of_list_to_set. auto.
Qed.

Lemma find_id_ctr (f : fuse M) c g i r : find_id i f = Some (r, f) -> find_id i (set_ctr c g f) = Some (r, set_ctr c g f).
Proof.
  unfold find_id. rewrite !bind_get. change (nodeid_of (set_ctr c g f)) with (nodeid_of f).
  change (id_table (set_ctr c g f)) with (id_table f). by destruct (get_node_nocheck _ _ _) as [r'|]; [intros [= <-]|].
Qed.

Definition reserved : gset Z := {[0; FUSE_UNKNOWN_INO]}.

(** The numbers that cannot be given out. *)
Definition taken (f : fuse M) : gset Z := reserved ∪ list_to_set ((fun kv => nodeid kv.2) <$> map_to_list (nodes f)).

Lemma list_to_set_size (l : list Z) : (size (list_to_set l : gset Z) <= length l)%nat.
Proof.
  induction l as [|z l IH]; [done|]. cbn [list_to_set length]. rewrite size_union_alt, size_singleton.
  assert (size ((list_to_set l : gset Z) ∖ {[z]}) <= size (list_to_set l : gset Z))%nat by (apply subseteq_size; set_solver). lia.
Qed.

Lemma taken_size (f : fuse M) : (size (taken f) <= size (nodes f) + 2)%nat.
Proof.
  unfold taken. rewrite size_union_alt. assert (size reserved = 2%nat) as -> by done.
  assert (size (list_to_set ((fun kv => nodeid kv.2) <$> map_to_list (nodes f)) : gset Z) <= size (nodes f))%nat.
  { rewrite <- (length_map_to_list (nodes f)), <- (length_fmap (fun kv : Z * node => nodeid kv.2)).
    apply list_to_set_size. }
  assert (size ((list_to_set ((fun kv => nodeid kv.2) <$> map_to_list (nodes f)) : gset Z) ∖ reserved) <=
    size (list_to_set ((fun kv => nodeid kv.2) <$> map_to_list (nodes f)) : gset Z))%nat by (apply subseteq_size; set_solver).
  lia.
Qed.

Lemma elem_of_taken (f : fuse M) i : i ∈ taken f <-> i = 0 \/ i = FUSE_UNKNOWN_INO \/ exists p n, nodes f !! p = Some n /\ nodeid n = i.
Proof.
  unfold taken, reserved. rewrite !elem_of_union, !elem_of_singleton, elem_of_list_to_set, list_elem_of_fmap. split.
  - intros [[?|?]|([p n] & -> & Hpn%elem_of_map_to_list)]; eauto 10.
  - intros [->|[->|(p & n & Hn & <-)]]; [tauto|tauto|]. right. exists (p, n). split; [done|]. by apply elem_of_map_to_list.
Qed.

(** One step of the counter. *)
Definition next_ctr (g c : Z) : Z * Z :=
  let c := Z.land (c + 1) 4294967295 in (if c =? 0 then u32 (g + 1) else g, c).

Lemma next_ctr_stamp g c : 0 <= g < 2 ^ 32 -> 0 <= c < 2 ^ 32 ->
  0 <= (next_ctr g c).1 < 2 ^ 32 /\ 0 <= (next_ctr g c).2 < 2 ^ 32 /\
  stamp (next_ctr g c).1 (next_ctr g c).2 = (stamp g c + 1) mod 2 ^ 64.
Proof.
  intros Hg Hc. unfold next_ctr, stamp. cbv zeta. change 4294967295 with (Z.ones 32). rewrite Z.land_ones by lia.
  destruct (decide (c = 2 ^ 32 - 1)) as [->|Hne].
  - replace ((2 ^ 32 - 1 + 1) mod 2 ^ 32) with 0 by done. cbn [Z.eqb fst snd]. pose proof (wrap_range 32 (g + 1) ltac:(lia)).
    split; [done|]. split; [lia|]. destruct (decide (g = 2 ^ 32 - 1)) as [->|]; [done|].
    rewrite (wrap_id 32) by lia. rewrite Z.mod_small; lia.
  - rewrite (Z.mod_small (c + 1)) by lia. destruct (Z.eqb_spec (c + 1) 0); [lia|]. cbn [fst snd].
    split; [done|]. split; [lia|]. rewrite Z.mod_small; lia.
Qed.

(** The loop of [next_id] stops at the first number that is not taken. *)
Lemma next_id_fuel_ok W U E x fuel f c0 g0 : tree_inv W U E x f -> (forall w n, w ∈ W -> nodes f !! w = Some n -> nodeid n = 0) ->
  forall k g, 0 <= g0 < 2 ^ 32 -> 0 <= g < 2 ^ 32 -> (forall j, (1 <= j <= k)%nat -> nth_id c0 j ∈ taken f) ->
  stamp g (nth_id c0 k) = (stamp g0 c0 + Z.of_nat k) mod 2 ^ 64 ->
  (size (taken f) < fuel + k)%nat ->
  exists j g' i, next_id_fuel fuel (set_ctr (nth_id c0 k) g f) = Some (i, set_ctr i g' f) /\ i ∉ taken f /\ 0 <= i < 2 ^ 32 /\
    0 <= g' < 2 ^ 32 /\ (k < j <= size (taken f) + 1)%nat /\ stamp g' i = (stamp g0 c0 + Z.of_nat j) mod 2 ^ 64.
Proof.
  intros Hf HW. assert (Z.of_nat (size (taken f)) < 2 ^ 31) as Hsz by (pose proof (taken_size f); pose proof (t_size _ _ _ _ _ Hf); lia).
  assert (forall k, (forall j, (1 <= j <= k)%nat -> nth_id c0 j ∈ taken f) -> (k <= size (taken f))%nat) as Hbound.
  { intros k Hk. destruct (decide (k <= size (taken f))%nat) as [|Hgt]; [done|]. exfalso.
    assert (length (nth_id c0 <$> seq 1 (S (size (taken f)))) <= size (taken f))%nat; [|rewrite length_fmap, length_seq in *; lia].
    apply nodup_bound; [apply nth_id_nodup; lia|]. intros z (j & -> & Hj%elem_of_seq)%list_elem_of_fmap. apply Hk. lia. }
  induction fuel as [|fuel IH]; intros k g Hg0 Hg Hk Hst Hfu; [specialize (Hbound k Hk); lia|].
  assert (0 <= nth_id c0 k < 2 ^ 32) as Hr by (apply Z.mod_pos_bound; lia).
  cbn [next_id_fuel]. rewrite bind_get. change (ctr (set_ctr (nth_id c0 k) g f)) with (nth_id c0 k).
  change (fgeneration (set_ctr (nth_id c0 k) g f)) with g. cbv zeta.
  destruct (next_ctr_stamp g (nth_id c0 k) Hg Hr) as (Hg' & Hr' & Hst'). unfold next_ctr in Hg', Hr', Hst'. cbv zeta in Hg', Hr', Hst'.
  cbn [fst snd] in Hg', Hr', Hst'. rewrite nth_id_next in Hg', Hr', Hst' |- *. set (g1 := if nth_id c0 (S k) =? 0 then _ else _) in *.
  set (i := nth_id c0 (S k)) in *. rewrite bind_modify. change (set_ctr i g1 (set_ctr _ g f)) with (set_ctr i g1 f).
  assert (stamp g1 i = (stamp g0 c0 + Z.of_nat (S k)) mod 2 ^ 64) as Hst2.
  { rewrite Hst', Hst, Z.add_mod_idemp_l by lia. f_equal. lia. }
  assert (i ∈ taken f -> exists j g' i', next_id_fuel fuel (set_ctr i g1 f) = Some (i', set_ctr i' g' f) /\ i' ∉ taken f /\
    0 <= i' < 2 ^ 32 /\ 0 <= g' < 2 ^ 32 /\ (k < j <= size (taken f) + 1)%nat /\ stamp g' i' = (stamp g0 c0 + Z.of_nat j) mod 2 ^ 64) as Hrec.
  { intros Hi. destruct (IH (S k) g1) as (j & g' & i' & E1 & H1 & H2 & H3 & H4 & H5); try done; [|lia|].
    - intros j Hj. destruct (decide (j = S k)) as [->|]; [done|]. apply Hk. lia.
    - exists j, g', i'. split; [done|]. split; [done|]. split; [done|]. split; [done|]. split; [lia|done]. }
  destruct (Z.eqb_spec i 0) as [Ei|Hi0]; [cbn [orb]; apply Hrec, elem_of_taken; tauto|].
  destruct (Z.eqb_spec i FUSE_UNKNOWN_INO) as [Ei|Hi1]; [cbn [orb]; apply Hrec, elem_of_taken; tauto|]. cbn [orb].
  destruct (find_id_ok W U E x f i Hf) as (r & Er & Hrr). rewrite (bind_step _ _ _ _ _ (find_id_ctr f i g1 i r Er)).
  destruct r as [p|].
  - apply Hrec, elem_of_taken. destruct (proj1 (Hrr p) eq_refl) as (n & Hn & Hi & _). eauto 10.
  - exists (S k), g1, i. split; [done|]. split; [|split; [done|split; [done|split; [specialize (Hbound k Hk); lia|done]]]].
    intros [|[|(p & n & Hn & Hi)]]%elem_of_taken; [done|done|].
    assert (p ∈ W \/ p ∉ W) as [Hp|Hp] by (destruct (decide (p ∈ W)); auto).
    + specialize (HW p n Hp Hn). congruence.
    + assert (None = Some p) by (apply Hrr; eauto). done.
Qed.

Lemma next_id_ok W U E x f : tree_inv W U E x f -> (forall w n, w ∈ W -> nodes f !! w = Some n -> nodeid n = 0) ->
  exists j g i, next_id f = Some (i, set_ctr i g f) /\ i ∉ taken f /\ 0 <= i < 2 ^ 32 /\ 0 <= g < 2 ^ 32 /\
    (0 < j <= size (nodes f) + 3)%nat /\ stamp g i = (stamp (fgeneration f) (ctr f) + Z.of_nat j) mod 2 ^ 64.
Proof.
  intros Hf HW. pose proof (t_ctr _ _ _ _ _ Hf) as Hc. pose proof (t_gen _ _ _ _ _ Hf) as Hg. pose proof (taken_size f).
  destruct (next_id_fuel_ok W U E x (size (nodes f) + 3) f (ctr f) (fgeneration f) Hf HW 0 (fgeneration f)) as (j & g & i & E1 & ? & ? & ? & Hj & ?);
    try done.
  - intros j Hj. lia.
  - unfold nth_id, stamp. rewrite Z.add_0_r, (Z.mod_small (ctr f)), Z.add_0_r, Z.mod_small; lia.
  - lia.
  - exists j, g, i. split; [|repeat split; try done; lia]. unfold next_id. rewrite bind_get.
    rewrite <- E1. f_equal. unfold nth_id. rewrite Z.add_0_r, Z.mod_small by done. by destruct f.
Qed.
End Numbers.

(** ** New nodes *)

Section New.
Context {M : Type} `{NodeMemLaws M}.

Lemma tree_inv_ctr W U E x (f : fuse M) c g : tree_inv W U E x f -> 0 <= c < 2 ^ 32 -> 0 <= g < 2 ^ 32 ->
  tree_inv W U E x (set_ctr c g f).
Proof. intros Hf Hc Hg. destruct Hf. split; done. Qed.

Lemma tree_inv_pos W U E E' x (f : fuse M) : tree_inv W U E x f ->
  (forall p n, nodes f !! p = Some n -> p ∉ E' -> 0 < refctr n) -> tree_inv W U E' x f.
Proof. intros Hf Hp. destruct Hf. by split. Qed.

(** A node that is in use by nobody yet, at a new address. *)
Lemma fresh_inv x (f : fuse M) p n0 m : tree_inv ∅ ∅ ∅ x f -> p ∉ dom (nodes f) -> x p = 0 ->
  mem_ok m ({[p]} ∪ dom (nodes f)) -> parent n0 = None -> name n0 = None -> nodeid n0 <> FUSE_ROOT_ID ->
  (forall q n, nodes f !! q = Some n -> nodeid n <> nodeid n0) -> refctr n0 = looked_up n0 -> treelock n0 = 0 ->
  0 <= nlookup n0 < 2 ^ 64 -> Z.of_nat (size (nodes f)) + 1 < 2 ^ 30 ->
  tree_inv {[p]} ∅ {[p]} x (set_slabs m (set_nodes (<[p := n0]> (nodes f)) f)).
Proof.
  intros Hf Hp Hxp Hm Hp0 Hn0 Hr0 Hi0 Hrf Ht0 Hl0 Hsize. apply not_elem_of_dom in Hp.
  assert (forall q n, <[p := n0]> (nodes f) !! q = Some n -> q = p /\ n = n0 \/ q <> p /\ nodes f !! q = Some n) as HL.
  { intros q n. rewrite lookup_insert_Some. naive_solver. }
  assert (forall q n, nodes f !! q = Some n -> q <> p /\ <[p := n0]> (nodes f) !! q = Some n) as HL'.
  { intros q n Hq. assert (q <> p) by congruence. by rewrite lookup_insert_ne. }
  assert (forall q, kids ∅ (<[p := n0]> (nodes f)) q = kids ∅ (nodes f) q) as Hk.
  { intros q. apply set_eq. intros c. rewrite !elem_of_kids. split; intros (n & Hn & Hpn & Hc).
    - destruct (HL c n Hn) as [[-> ->]|[_ ?]]; [congruence|eauto].
    - exists n. split; [by apply HL'|done]. }
  assert (named ∅ (<[p := n0]> (nodes f)) = named ∅ (nodes f)) as Hnm.
  { apply set_eq. intros c. rewrite !elem_of_named. split; intros (n & d & Hn & Hpn & Hc).
    - destruct (HL c n Hn) as [[-> ->]|[_ ?]]; [congruence|eauto 10].
    - exists n, d. split; [by apply HL'|done]. }
  assert (dom (<[p := n0]> (nodes f)) ∖ {[p]} = dom (nodes f) ∖ ∅) as Hd.
  { rewrite dom_insert_L. apply not_elem_of_dom in Hp. set_solver. }
  destruct Hf as [Hroot Hpar Hname Hnum Hkey Hids Hsh Hch Huse Href Hpos Hx0 Hst Hlock Hlru Hmem Hsz Hnl Hni Hct Hge].
  split; cbn [nodes id_table name_table lru_table slabs set_slabs set_nodes ctr fgeneration]; rewrite ?Hnm, ?Hd; try done.
  - destruct Hroot as (r & n & Hn & ?). exists r, n. split; [by apply HL'|done].
  - intros q n d Hn Hq Hpn. destruct (HL q n Hn) as [[-> ->]|[_ Hn']]; [congruence|].
    destruct (Hpar q n d Hn' Hq Hpn) as [dn Hdn]. exists dn. by apply HL'.
  - intros q n Hn. destruct (HL q n Hn) as [[-> ->]|[_ Hn']]; [|by apply (Hname q)]. rewrite Hp0, Hn0.
    split; [by intros []|by intros [[] _]].
  - intros q q' n n' Hn Hn' Hi. destruct (HL q n Hn) as [[-> ->]|[_ ?]], (HL q' n' Hn') as [[-> ->]|[_ ?]]; try done.
    + by destruct (Hi0 q' n').
    + by destruct (Hi0 q n).
    + by apply (Hnum q q' n n').
  - intros q q' n n' Hn Hn' Hq Hq' Hsp Hpe Hne. destruct (HL q n Hn) as [[-> ->]|[_ ?]]; [rewrite Hp0 in Hsp; by destruct Hsp|].
    destruct (HL q' n' Hn') as [[-> ->]|[_ ?]]; [rewrite Hpe, Hp0 in Hsp; by destruct Hsp|]. by apply (Hkey q q' n n').
  - destruct Hids as (? & Hcc & ?). split; [done|]. split; [|done]. eapply chains_ok_hash; [|done].
    intros q Hq. unfold id_g. rewrite lookup_insert_ne; [done|]. intros <-. apply not_elem_of_dom in Hp. set_solver.
  - eapply chains_ok_hash; [|done]. intros q (n & d & Hn & Hpn & Hq)%elem_of_named. unfold name_g, key_in.
    rewrite (proj2 (HL' q n Hn)), Hn. cbn. rewrite Hpn. cbn. destruct (Hpar q n d Hn Hq Hpn) as [dn Hdn].
    by rewrite (proj2 (HL' d dn Hdn)), Hdn.
  - intros q n Hn. rewrite Hk. destruct (HL q n Hn) as [[-> ->]|[_ ?]]; [|by apply Href].
    assert (kids ∅ (nodes f) p = ∅) as ->; [|rewrite size_empty; lia].
    apply set_eq. intros c. rewrite elem_of_kids. split; [|set_solver]. intros (k & Hkc & Hpk & Hc).
    destruct (Hpar c k p Hkc Hc Hpk) as [? ?]. congruence.
  - intros q n Hn Hq. destruct (HL q n Hn) as [[-> ->]|[_ ?]]; [set_solver|]. apply (Hpos q n); [done|set_solver].
  - intros q n Hn Ht. destruct (HL q n Hn) as [[-> ->]|[_ Hn']]; [done|].
    destruct (Hlock q n Hn' Ht) as [|(c & k & Hc & Hkc & Htk)]; [by left|right]. exists c, k. rewrite Hk. split; [done|].
    split; [by apply HL'|done].
  - destruct Hlru as (? & Hin & ?). split; [done|]. split; [|done]. intros q Hq. destruct (Hin q Hq) as [n Hn]. exists n. by apply HL'.
  - by rewrite dom_insert_L.
  - rewrite map_size_insert_None by done. lia.
  - intros q n Hn. destruct (HL q n Hn) as [[-> ->]|[_ ?]]; [done|]. by apply (Hnl q).
  - intros q n Hn Hq. destruct (HL q n Hn) as [[-> ->]|[_ ?]]; [set_solver|]. apply (Hni q n); [done|set_solver].
Qed.

Lemma hash_id_ok E x (f : fuse M) p n : tree_inv {[p]} ∅ E x f -> nodes f !! p = Some n -> 0 < nodeid n < FUSE_UNKNOWN_INO ->
  exists t h, hash_id_ p f = Some (tt, set_id_table t (set_heap h f)) /\ tree_inv ∅ ∅ E x (set_id_table t (set_heap h f)).
Proof.
  intros Hf Hn Hi. unfold hash_id_. destruct (malloc_eq f) as (ok & h & Em). rewrite (bind_step _ _ _ _ _ Em), bind_get.
  assert ({[p]} ∪ dom (nodes f) ∖ {[p]} = dom (nodes f)) as Hd.
  { apply elem_of_dom_2 in Hn. apply set_eq. intros q. destruct (decide (q = p)); set_solver. }
  destruct (hash_ok ok (fun q => h ← nodeid_of (set_heap h f) q; Some (id_raw h)) (id_g (nodes f)) (id_table f) (dom (nodes f) ∖ {[p]}) p)
    as (t & Et & Ht).
  - apply (t_ids _ _ _ _ _ Hf).
  - set_solver.
  - rewrite Hd. intros q Hq. by apply (nodeid_of_eq f).
  - assert (size (dom (nodes f) ∖ {[p]}) <= size (dom (nodes f)))%nat as Hs by (apply subseteq_size; set_solver).
    rewrite size_dom in Hs. pose proof (t_size _ _ _ _ _ Hf). lia.
  - exists t, h. split.
    + assert (id_g (nodes f) p = id_raw (nodeid n)) as Hg by (unfold id_g; by rewrite Hn). rewrite Hg in Et.
      assert (nodeid_of (set_heap h f) p = Some (nodeid n)) as Hno by (unfold nodeid_of; cbn; by rewrite Hn).
      unfold hash_id. rewrite Hno. cbn [mbind option_bind]. change (id_table (set_heap h f)) with (id_table f). by rewrite Et.
    + rewrite Hd in Ht. destruct Hf. split; try done; cbn [nodes id_table set_id_table set_heap].
      * by rewrite difference_empty_L.
      * intros q m Hm _. destruct (decide (q = p)) as [->|]; [assert (m = n) as -> by congruence; done|]. apply (t_nodeid q); [done|set_solver].
Qed.

(** One more lookup of [p]. *)
Definition once_more (n : node) : node :=
  with_nlookup (nlookup n + 1) (with_refctr (refctr n + (1 - looked_up n)) n).

Lemma inc_nlookup_ok W U E E' x (f : fuse M) p n : tree_inv W U E x f -> nodes f !! p = Some n -> nlookup n + 1 < 2 ^ 64 ->
  x p <= 1 -> E ⊆ {[p]} ∪ E' ->
  inc_nlookup p f = Some (tt, set_nodes (<[p := once_more n]> (nodes f)) f) /\
  tree_inv W U E' x (set_nodes (<[p := once_more n]> (nodes f)) f).
Proof.
  intros Hf Hn Hl Hxp HE. pose proof (t_nlookup _ _ _ _ _ Hf p n Hn) as Hr. pose proof (t_ref _ _ _ _ _ Hf p n Hn) as Hrf.
  pose proof (looked_up_range n) as Hlu. pose proof (t_size _ _ _ _ _ Hf). pose proof (kids_size U f p).
  pose proof (t_x _ _ _ _ _ Hf p).
  assert (i32 (refctr n + 1) = refctr n + 1) as Hi.
  { apply swrap_id; [lia|]. change (2 ^ (32 - 1)) with (2 * 2 ^ 30). lia. }
  assert (looked_up (once_more n) = 1) as Ho by (unfold looked_up; cbn; destruct (Z.eqb_spec (nlookup n + 1) 0); lia).
  split.
  - unfold inc_nlookup. rewrite (bind_step _ _ _ _ _ (node_at_eq f p n Hn)). unfold once_more, looked_up.
    destruct (Z.eqb_spec (nlookup n) 0) as [Hz|Hz].
    + rewrite (bind_step _ _ _ _ _ (update_eq f p _ n Hn)). set (f1 := set_nodes _ f).
      assert (nodes f1 !! p = Some (with_refctr (refctr n + 1) n)) as H1' by (cbn; rewrite Hi; apply lookup_insert_eq).
      rewrite (update_eq f1 p _ _ H1'). do 2 f_equal. unfold f1. cbn. rewrite insert_insert_eq, (wrap_id 64) by lia. done.
    + rewrite bind_ret, (update_eq f p _ _ Hn). rewrite (wrap_id 64) by lia.
      replace (refctr n + (1 - 1)) with (refctr n) by lia. by rewrite with_refctr_self.
  - assert (tree_inv W U E x (set_nodes (<[p := once_more n]> (nodes f)) f)) as Hf'.
    { apply (tree_inv_update W U E x x f p n); try done; try (cbn; lia). }
    apply (tree_inv_pos W U E E' x _ Hf'). intros q m Hm Hq. cbn [nodes set_nodes] in Hm.
    apply lookup_insert_Some in Hm as [[<- <-]|[Hne Hm]]; [cbn; lia|].
    apply (t_pos _ _ _ _ _ Hf q m Hm). set_solver.
Qed.

(** What [new_node] makes: number, generation, and the lookup that keeps it. *)
Definition newborn (f : fuse M) (i g : Z) : node :=
  let n := with_ids i g node0 in if remember (conf f) =? 0 then n else once_more n.

(** The settings and the clock are unchanged. *)
Definition same_conf (f f' : fuse M) : Prop :=
  conf f' = conf f /\ lockq f' = lockq f /\ hidectr f' = hidectr f /\ forget_time f' = forget_time f /\ clock f' = clock f.

(** The counter behind the numbers of new nodes. *)
Definition counter (f : fuse M) : Z := stamp (fgeneration f) (ctr f).

Lemma counter_range W U E x (f : fuse M) : tree_inv W U E x f -> 0 <= counter f < 2 ^ 64.
Proof.
  intros Hf. pose proof (t_ctr _ _ _ _ _ Hf). pose proof (t_gen _ _ _ _ _ Hf). unfold counter, stamp.
  change (2 ^ 64) with (2 ^ 32 * 2 ^ 32). nia.
Qed.

Lemma new_node_ok x (f : fuse M) d dn nm : tree_inv ∅ ∅ ∅ x f -> nodes f !! d = Some dn ->
  (forall p, p ∉ dom (nodes f) -> x p = 0) -> x d <= 1 -> Z.of_nat (size (nodes f)) + 1 < 2 ^ 30 ->
  (forall q m, nodes f !! q = Some m -> parent m = Some d -> name m <> Some nm) ->
  exists r f', new_node (nodeid dn) nm f = Some (r, f') /\ same_conf f f' /\ lru_table f' = lru_table f /\
    match r with
    | None => tree_inv ∅ ∅ ∅ x f' /\ nodes f' = nodes f /\
        exists j, (j <= size (nodes f) + 4)%nat /\ counter f' = (counter f + Z.of_nat j) mod 2 ^ 64
    | Some p => tree_inv ∅ ∅ {[p]} x f' /\ p ∉ dom (nodes f) /\ exists i g j,
        i ∉ taken f /\ fgeneration f' = g /\ ctr f' = i /\ (0 < j <= size (nodes f) + 4)%nat /\
        stamp g i = (stamp (fgeneration f) (ctr f) + Z.of_nat j) mod 2 ^ 64 /\
        nodes f' = placed (<[p := newborn f i g]> (nodes f)) p d nm (newborn f i g) dn
    end.
Proof.
  intros Hf Hdn Hx Hxd Hsz Hfresh. unfold new_node. rewrite bind_get.
  destruct (alloc_law (slabs f) _ (t_mem _ _ _ _ _ Hf)) as (r & m & Er & Ha). rewrite Er. cbn [some].
  rewrite bind_ret, bind_modify. cbn [fst snd]. destruct r as [p|].
  2: { eexists None, _. split; [reflexivity|]. split; [done|]. split; [done|]. split; [destruct Hf; by split|].
    split; [done|]. exists O. split; [lia|]. rewrite Z.add_0_r, Z.mod_small; [done|by eapply counter_range]. }
  destruct Ha as [Hp Hm]. rewrite bind_modify. set (f1 := set_nodes _ _).
  assert (p <> d) as Hpd by (apply elem_of_dom_2 in Hdn; set_solver).
  assert (forall q k, nodes f !! q = Some k -> 0 < nodeid k < FUSE_UNKNOWN_INO) as Hid.
  { intros q k Hk. apply (t_nodeid _ _ _ _ _ Hf q k Hk). set_solver. }
  assert (tree_inv {[p]} ∅ {[p]} x f1) as Hf1.
  { apply (fresh_inv x f p node0 m); try done; [by apply Hx|]. intros q k Hk. specialize (Hid q k Hk). cbn. lia. }
  destruct (next_id_ok {[p]} ∅ {[p]} x f1 Hf1) as (j & g & i & E1 & Hi & Hi2 & Hg & Hj & Hst).
  { intros w k ->%elem_of_singleton. cbn. rewrite lookup_insert_eq. by intros [= <-]. }
  assert (i ∉ taken f) as Hif.
  { rewrite elem_of_taken in Hi |- *. intros [|[|(q & k & Hk & Hik)]]; [tauto|tauto|]. apply Hi. right; right. exists q, k.
    split; [|done]. cbn. rewrite lookup_insert_ne; [done|]. intros <-. apply Hp. apply elem_of_dom. eauto. }
  assert (i <> 0 /\ i <> FUSE_UNKNOWN_INO /\ forall q k, nodes f !! q = Some k -> nodeid k <> i) as (Hi0 & Hi1 & Hinew).
  { rewrite elem_of_taken in Hif. repeat split; [tauto|tauto|]. intros q k Hk Ek. apply Hif. eauto 10. }
  assert (i <> FUSE_ROOT_ID) as Hir.
  { destruct (t_root _ _ _ _ _ Hf) as (r & k & Hk & <- & _). intros E0. by apply (Hinew r k). }
  rewrite (bind_step _ _ _ _ _ E1), bind_get. set (f2 := set_ctr i g f1). change (fgeneration f2) with g. change (conf f2) with (conf f).
  rewrite (bind_step _ _ _ _ _ (update_eq f2 p _ node0 (lookup_insert_eq _ _ _))).
  set (f3 := set_nodes _ f2).
  assert (nodes f3 !! p = Some (with_ids i g node0)) as Hp3 by apply lookup_insert_eq.
  assert (tree_inv {[p]} ∅ {[p]} x f3) as Hf3.
  { pose proof (fresh_inv x f p (with_ids i g node0) m Hf Hp (Hx p Hp) Hm eq_refl eq_refl Hir Hinew eq_refl eq_refl ltac:(done) Hsz) as Hi3.
    apply (tree_inv_ctr _ _ _ _ _ i g) in Hi3; [|done|done]. unfold f3, f2, f1. cbn. rewrite insert_insert_eq. exact Hi3. }
  assert (exists f4, (if negb (remember (conf f) =? 0) then inc_nlookup p else mret tt) f3 = Some (tt, f4) /\ tree_inv {[p]} ∅ {[p]} x f4 /\
    f4 = set_nodes (<[p := newborn f i g]> (nodes f3)) f3) as (f4 & E4 & Hf4 & Ef4).
  { unfold newborn. destruct (remember (conf f) =? 0); cbn [negb].
    - exists f3. split; [done|]. split; [done|]. rewrite insert_id by done. by destruct f3.
    - destruct (inc_nlookup_ok {[p]} ∅ {[p]} {[p]} x f3 p (with_ids i g node0) Hf3 Hp3) as [E4 Hf4]; [done|rewrite (Hx p Hp); lia|set_solver|].
      eexists. split; [exact E4|]. split; [exact Hf4|done]. }
  rewrite (bind_step _ _ _ _ _ E4).
  assert (nodes f4 = <[p := newborn f i g]> (nodes f)) as HN4.
  { rewrite Ef4. unfold f3, f2, f1. cbn. by rewrite !insert_insert_eq. }
  assert (nodes f4 !! p = Some (newborn f i g)) as Hp4 by (rewrite HN4; apply lookup_insert_eq).
  assert (nodes f4 !! d = Some dn) as Hd4 by (rewrite HN4, lookup_insert_ne; done).
  assert (parent (newborn f i g) = None /\ name (newborn f i g) = None /\ nodeid (newborn f i g) = i) as (Hnp & Hnn & Hni).
  { unfold newborn. by destruct (_ =? _). }
  assert (forall q k, nodes f4 !! q = Some k -> q ∉ (∅ : gset Z) -> parent k = Some d -> name k = Some nm -> q = p) as Hfr4.
  { intros q k. rewrite HN4. intros [[<- _]|[Hne Hk]]%lookup_insert_Some Hq Hpk Hnk; [done|]. by destruct (Hfresh q k). }
  assert (d ∉ ({[p]} : gset Z)) as HdW by (intros ->%elem_of_singleton; done).
  destruct (hash_name_ok ∅ {[p]} {[p]} x f4 p d nm (newborn f i g) dn Hf4 Hp4 Hd4 Hpd (not_elem_of_empty p) (not_elem_of_empty d) HdW Hnp Hnn
    ltac:(by rewrite Hni) Hxd Hfr4) as [(h & E5)|(f5 & E5 & Hf5 & HN5 & He5 & Hl5 & Hid5 & Hsl5)].
  - rewrite (bind_step _ _ _ _ _ E5). change (-1 =? -1) with true. cbv iota. unfold free_node. rewrite bind_assoc.
    assert (nodes (set_heap h f4) !! p = Some (newborn f i g)) as Hp5 by done.
    rewrite (bind_step _ _ _ _ _ (node_at_eq _ p _ Hp5)), bind_assoc, bind_get, bind_assoc.
    change (slabs (set_heap h f4)) with (slabs f4). assert (slabs f4 = m) as -> by by rewrite Ef4.
    destruct (free_law m ({[p]} ∪ dom (nodes f)) p Hm) as (m' & Em & Hm'); [set_solver|]. rewrite Em. cbn [some].
    rewrite bind_ret, bind_modify. eexists None, _. split; [reflexivity|].
    assert (delete p (nodes f4) = nodes f) as HD by (rewrite HN4, delete_insert_eq, delete_id by (by apply not_elem_of_dom); done).
    replace ((({[p]} ∪ dom (nodes f)) : gset Z) ∖ {[p]}) with (dom (nodes f)) in Hm' by set_solver.
    cbn [set_heap nodes]. rewrite HD, Ef4. split; [done|]. split; [done|]. split; [|split; [done|]].
    2: { exists j. split; [|exact Hst]. cbn in Hj. rewrite map_size_insert_None in Hj by by apply not_elem_of_dom. lia. }
    assert (tree_inv ∅ ∅ ∅ x (set_slabs m' f)) as Hf' by (destruct Hf; by split).
    apply (tree_inv_ctr _ _ _ _ _ i g) in Hf'; [|done|done]. by apply (tree_inv_heap _ _ _ _ _ h) in Hf'.
  - rewrite (bind_step _ _ _ _ _ E5). change (0 =? -1) with false. cbv iota.
    assert (nodes f5 !! p = Some (with_place (Some d) (Some nm) (newborn f i g))) as Hp5 by (rewrite HN5; apply placed_p).
    destruct (hash_id_ok {[p]} x f5 p _ Hf5 Hp5) as (t & h & E6 & Hf6); [cbn; rewrite Hni; unfold FUSE_UNKNOWN_INO in *; lia|].
    rewrite (bind_step _ _ _ _ _ E6). eexists (Some p), _. split; [reflexivity|].
    assert (env f5 = env f2) as He by (rewrite He5, Ef4; done). unfold env in He. injection He as Hc1 Hc2 Hc3 Hc4 Hc5 Hc6 Hc7.
    split; [by repeat split|]. split; [cbn; rewrite Hl5, Ef4; done|]. split; [done|]. split; [done|]. exists i, g, j.
    split; [done|]. split; [done|]. split; [done|]. split; [|split; [exact Hst|cbn; by rewrite HN5, HN4]].
    cbn in Hj. rewrite map_size_insert_None in Hj by by apply not_elem_of_dom. lia.
Qed.
End New.
