(* ===== verification/NodeSpec.v ===== *)
(** * The tree the kernel sees

    [abs] is the abstraction of the node structures of fuse.c: a map from the
    number of a node to the number of times the kernel has looked it up, its
    place (the number of its directory and its name), and its generation.  A
    node is [live] when the kernel holds it, or holds a node below it; [collect]
    says that a tree has lost exactly the nodes that are not live.

    The theorems say that the operations of [Node] refine operations on that
    map, in every history the kernel's protocol allows: no assertion fails, no
    freed node is used, nothing is freed that the kernel can still name, and
    nothing else is kept. *)

From S2P Require Import Prelude NodeTable Wire Locks Node NodeTree NodeOps.

(** ** Abstract trees *)

Record entry := Entry { count : Z; place : option (Z * bytes); gen : Z }.

Abbreviation tree := (gmap Z entry).

Inductive live (A : tree) : Z -> Prop :=
  | live_ref i e : A !! i = Some e -> count e <> 0 -> live A i
  | live_dir i e d nm : live A i -> A !! i = Some e -> place e = Some (d, nm) -> live A d.

(** The path of [i] to the top has length [k]. *)
Inductive depth (A : tree) : nat -> Z -> Prop :=
  | depth_top i e : A !! i = Some e -> place e = None -> depth A 0 i
  | depth_dir i e d nm k : A !! i = Some e -> place e = Some (d, nm) -> depth A k d -> depth A (S k) i.

Definition acyclic (A : tree) : Prop := forall i, is_Some (A !! i) -> exists k, depth A k i.

(** [j] is [i] or below it. *)
Inductive below (A : tree) (i : Z) : Z -> Prop :=
  | below_self : below A i i
  | below_dir j e d nm : A !! j = Some e -> place e = Some (d, nm) -> below A i d -> below A i j.

Definition collect (A A' : tree) : Prop := forall i e, A' !! i = Some e <-> A !! i = Some e /\ live A i.

Lemma depth_fun A k k' i : depth A k i -> depth A k' i -> k = k'.
Proof.
  intros Hk. revert k'. induction Hk as [i e Hi Hp|i e d nm k Hi Hp Hd IH]; intros k' Hk'; inversion Hk'; simplify_eq; [done|].
  f_equal. by apply IH.
Qed.

(** Depths are bounded. *)
Lemma depth_bound A : acyclic A -> exists K, forall i, is_Some (A !! i) -> exists k, depth A k i /\ (k <= K)%nat.
Proof.
  intros HA. assert (exists K, forall i, i ∈ elements (dom A) -> exists k, depth A k i /\ (k <= K)%nat) as [K HK].
  { assert (forall i, i ∈ elements (dom A) -> is_Some (A !! i)) as Hin by (intros i Hi%elem_of_elements; by apply elem_of_dom).
    induction (elements (dom A)) as [|i l IH]; [exists O; by intros i ?%not_elem_of_nil|].
    destruct IH as [K HK]; [intros j Hj; apply Hin; by right|]. destruct (HA i) as [k Hk]; [apply Hin; by left|].
    exists (Nat.max k K). intros j [->|Hj]%elem_of_cons; [exists k; split; [done|lia]|].
    destruct (HK j Hj) as (k' & ? & ?). exists k'. split; [done|lia]. }
  exists K. intros i Hi. apply HK, elem_of_elements, elem_of_dom, Hi.
Qed.

(** If every entry that is not looked up is some entry's directory, all are
    live. *)
Lemma all_live A : acyclic A ->
  (forall i e, A !! i = Some e -> count e = 0 -> exists j e' nm, A !! j = Some e' /\ place e' = Some (i, nm)) ->
  forall i, is_Some (A !! i) -> live A i.
Proof.
  intros HA Hk. destruct (depth_bound A HA) as [K HK].
  assert (forall m i, is_Some (A !! i) -> (exists k, depth A k i /\ (K - k <= m)%nat /\ (k <= K)%nat) -> live A i) as Hm.
  { induction m as [|m IH]; intros i [e He] (k & Hd & Hle & HkK).
    all: destruct (decide (count e = 0)) as [Hc|Hc]; [|by apply (live_ref A i e)].
    all: destruct (Hk i e He Hc) as (j & e' & nm & Hj & Hp); destruct (HK j) as (k' & Hd' & HkK'); [by exists e'|].
    all: assert (k' = S k) as -> by (apply (depth_fun A _ _ j Hd'); by apply (depth_dir A j e' i nm)).
    - lia.
    - apply (live_dir A j e' i nm); try done. apply IH; [by exists e'|]. exists (S k). split; [done|]. lia. }
  intros i Hi. destruct (HK i Hi) as (k & Hd & Hle). apply (Hm (K - k)%nat i Hi). eauto.
Qed.

(** ** Abstraction *)

Definition entry_of (N : gmap Z node) (p : Z) (n : node) : entry := Entry (nlookup n) (key_in N p) (generation n).

Definition abs_nodes (N : gmap Z node) : tree :=
  list_to_map ((fun kv => (nodeid kv.2, entry_of N kv.1 kv.2)) <$> map_to_list N).

Definition abs {M} (f : fuse M) : tree := abs_nodes (nodes f).

(** Numbers are distinct, and directories exist. *)
Definition num_inj (N : gmap Z node) : Prop :=
  forall p q n m, N !! p = Some n -> N !! q = Some m -> nodeid n = nodeid m -> p = q.

Definition closed (N : gmap Z node) : Prop :=
  forall p n d, N !! p = Some n -> parent n = Some d -> is_Some (N !! d) /\ is_Some (name n).

Lemma abs_iff N i e : num_inj N -> abs_nodes N !! i = Some e <-> exists p n, N !! p = Some n /\ nodeid n = i /\ e = entry_of N p n.
Proof.
  intros Hinj. unfold abs_nodes. rewrite <- elem_of_list_to_map.
  - rewrite list_elem_of_fmap. split.
    + intros ([p n] & [= -> ->] & Hpn%elem_of_map_to_list). eauto.
    + intros (p & n & Hn & <- & ->). exists (p, n). split; [done|]. by apply elem_of_map_to_list.
  - rewrite <- list_fmap_compose. apply NoDup_fmap_2_strong; [|apply NoDup_map_to_list].
    intros [p n] [q m] Hp%elem_of_map_to_list Hq%elem_of_map_to_list Hi. cbn in Hi.
    assert (p = q) as <- by (by apply (Hinj p q n m)). congruence.
Qed.

Lemma abs_nodes_size N : num_inj N -> size (abs_nodes N) = size N.
Proof.
  intros Hin. unfold abs_nodes. rewrite <- (length_map_to_list (list_to_map _)), map_to_list_to_map, length_fmap, length_map_to_list; [done|].
  rewrite <- list_fmap_compose. apply NoDup_fmap_2_strong; [|apply NoDup_map_to_list].
  intros [p n] [q m] Hp%elem_of_map_to_list Hq%elem_of_map_to_list E. cbn in E. assert (p = q) as <- by (by apply (Hin p q n m)). congruence.
Qed.

Lemma abs_Some N p n : num_inj N -> N !! p = Some n -> abs_nodes N !! nodeid n = Some (entry_of N p n).
Proof. intros Hi Hn. apply abs_iff; eauto. Qed.

Lemma key_in_closed N p n d : closed N -> N !! p = Some n -> parent n = Some d ->
  exists dn nm, N !! d = Some dn /\ name n = Some nm /\ key_in N p = Some (nodeid dn, nm).
Proof.
  intros Hc Hn Hd. destruct (Hc p n d Hn Hd) as [[dn Hdn] [nm Hnm]]. exists dn, nm. split; [done|]. split; [done|].
  unfold key_in. rewrite Hn. cbn. rewrite Hd. cbn. rewrite Hdn. cbn. by rewrite Hnm.
Qed.

Lemma key_in_inv N p i nm : key_in N p = Some (i, nm) ->
  exists n d dn, N !! p = Some n /\ parent n = Some d /\ N !! d = Some dn /\ nodeid dn = i /\ name n = Some nm.
Proof.
  unfold key_in. destruct (N !! p) as [n|]; [|done]. cbn. destruct (parent n) as [d|] eqn:Ed; [|done]. cbn.
  destruct (N !! d) as [dn|] eqn:Edn; [|done]. cbn. destruct (name n) as [s|] eqn:En; [|done]. cbn. intros [= <- <-]. eauto 10.
Qed.

Lemma key_in_none N p n : closed N -> N !! p = Some n -> key_in N p = None <-> parent n = None.
Proof.
  intros Hc Hn. split; intros Hp.
  - destruct (parent n) as [d|] eqn:Ed; [|done]. destruct (key_in_closed N p n d Hc Hn Ed) as (? & ? & _ & _ & ?). congruence.
  - unfold key_in. rewrite Hn. cbn. by rewrite Hp.
Qed.

(** ** Collecting *)

(** [N'] is [N1] with counters changed and some nodes gone, none of them looked
    up. *)
Record shrunk (N1 N' : gmap Z node) : Prop := {
  sh_node : forall q n', N' !! q = Some n' -> exists n, N1 !! q = Some n /\ n' = with_refctr (refctr n') n;
  sh_gone : forall q n, N1 !! q = Some n -> N' !! q = None -> nlookup n = 0 }.

Section Collect.
Context (N1 N' : gmap Z node).
Context (Hs : shrunk N1 N') (Hi1 : num_inj N1) (Hc1 : closed N1) (Hi' : num_inj N') (Hc' : closed N').

Lemma shrunk_key q n' : N' !! q = Some n' -> key_in N' q = key_in N1 q.
Proof using Hs Hc'.
  intros Hn'. destruct (sh_node _ _ Hs q n' Hn') as (n & Hn & E). destruct (parent n') as [d|] eqn:Ed.
  - destruct (key_in_closed N' q n' d Hc' Hn' Ed) as (dn' & nm & Hdn' & Hnm & ->).
    destruct (sh_node _ _ Hs d dn' Hdn') as (dn & Hdn & Ed'). unfold key_in. rewrite Hn. cbn.
    rewrite E in Ed, Hnm. cbn in Ed, Hnm. rewrite Ed. cbn. rewrite Hdn. cbn. rewrite Hnm. cbn. rewrite Ed'. done.
  - rewrite (proj2 (key_in_none N' q n' Hc' Hn') Ed). unfold key_in. rewrite Hn. cbn. rewrite E in Ed. cbn in Ed. by rewrite Ed.
Qed.

Lemma shrunk_entry i e : abs_nodes N' !! i = Some e -> abs_nodes N1 !! i = Some e.
Proof using Hs Hi1 Hi' Hc'.
  intros (p & n' & Hn' & <- & ->)%(abs_iff N' i e Hi'). destruct (sh_node _ _ Hs p n' Hn') as (n & Hn & E).
  apply abs_iff; [done|]. exists p, n. split; [done|]. rewrite E. split; [done|].
  unfold entry_of. by rewrite (shrunk_key p n' Hn').
Qed.

Lemma shrunk_live i : live (abs_nodes N1) i -> forall e, abs_nodes N1 !! i = Some e -> abs_nodes N' !! i = Some e.
Proof using Hs Hi1 Hc1 Hi' Hc'.
  assert (forall j e, abs_nodes N1 !! j = Some e -> is_Some (abs_nodes N' !! j) -> abs_nodes N' !! j = Some e) as Hup.
  { intros j e He [e' He']. pose proof (shrunk_entry j e' He'). congruence. }
  intros Hl. induction Hl as [i e He Hc|i e d nm Hl IH He Hp]; intros e0 He0.
  - apply Hup; [done|]. apply abs_iff in He as (p & n & Hn & <- & ->); [|done]. destruct (N' !! p) as [n'|] eqn:En'.
    + destruct (sh_node _ _ Hs p n' En') as (m & Hm & E). assert (m = n) as -> by congruence.
      exists (entry_of N' p n'). replace (nodeid n) with (nodeid n') by (by rewrite E). by apply abs_Some.
    + by destruct Hc; apply (sh_gone _ _ Hs p n Hn En').
  - apply Hup; [done|]. specialize (IH e He). apply abs_iff in IH as (p & n' & Hn' & <- & ->); [|done].
    destruct (key_in_inv N' p d nm Hp) as (k & dp & dn & Hk & _ & Hdn & <- & _). eexists. by apply abs_Some.
Qed.

Lemma depth_shrunk k i : depth (abs_nodes N1) k i -> is_Some (abs_nodes N' !! i) -> depth (abs_nodes N') k i.
Proof using Hs Hi1 Hc1 Hi' Hc'.
  induction 1 as [i e Hi Hp|i e d nm k Hi Hp Hd IH]; intros [e' He']; pose proof (shrunk_entry i e' He'); simplify_eq.
  - by apply (depth_top _ i e).
  - apply (depth_dir _ i e d nm); [done|done|]. apply IH. apply abs_iff in He' as (p & n' & Hn' & <- & ->); [|done].
    destruct (key_in_inv N' p d nm Hp) as (m & dp & dn & Hm & _ & Hdn & <- & _). eexists. by apply abs_Some.
Qed.

(** What is left is what is live, if everything left has a reason to be. *)
Lemma collect_ok : acyclic (abs_nodes N1) -> (acyclic (abs_nodes N') -> forall i, is_Some (abs_nodes N' !! i) -> live (abs_nodes N') i) ->
  collect (abs_nodes N1) (abs_nodes N').
Proof using Hs Hi1 Hc1 Hi' Hc'.
  intros Ha Hall i e. split; [|intros [? ?]; by apply shrunk_live]. intros He. pose proof (shrunk_entry i e He) as He1. split; [done|].
  assert (live (abs_nodes N') i) as Hl.
  { apply Hall; [|by exists e]. intros j [ej Hj]. destruct (Ha j) as [k Hk]; [exists ej; by apply shrunk_entry|].
    exists k. apply depth_shrunk; [done|by exists ej]. }
  clear He He1 Hall. induction Hl as [i ei Hi Hc|i ei d nm Hl IH Hi Hp].
  - apply (live_ref _ i ei); [by apply shrunk_entry|done].
  - apply (live_dir _ i ei d nm); [done|by apply shrunk_entry|done].
Qed.
End Collect.

(** Nothing is collected when all is live. *)
Lemma collect_all A A' : collect A A' -> (forall i, is_Some (A !! i) -> live A i) -> A' = A.
Proof.
  intros Hc Hl. apply map_eq. intros i. destruct (A !! i) as [e|] eqn:E.
  - apply Hc. split; [done|]. apply Hl. by exists e.
  - destruct (A' !! i) as [e'|] eqn:E'; [|done]. apply Hc in E' as [? _]. congruence.
Qed.

(** ** The operations on the abstraction *)

Section Operations.
Context {M : Type} `{NodeMemLaws M}.
Implicit Types (f : fuse M).

Lemma tree_closed f : tree_ok f -> closed (nodes f).
Proof.
  intros Hf p n d Hn Hd. split; [by apply (t_parent _ _ _ _ _ Hf p n d Hn)|].
  apply (t_name _ _ _ _ _ Hf p n Hn). by exists d.
Qed.

Lemma tree_num f : tree_ok f -> num_inj (nodes f).
Proof. intros Hf p q n m. apply (t_num _ _ _ _ _ Hf). Qed.

(** Every node has a reason to exist. *)
Lemma tree_live f : tree_ok f -> acyclic (abs f) -> forall i, is_Some (abs f !! i) -> live (abs f) i.
Proof.
  intros Hf Ha. apply all_live; [done|]. intros i e He Hc. apply abs_iff in He as (p & n & Hn & <- & ->); [|by apply tree_num].
  pose proof (t_pos _ _ _ _ _ Hf p n Hn ltac:(set_solver)) as Hp. rewrite (t_ref _ _ _ _ _ Hf p n Hn) in Hp.
  unfold looked_up in Hp. cbn in Hc. rewrite Hc in Hp. cbn in Hp.
  destruct (set_choose_or_empty (kids ∅ (nodes f) p)) as [[c Hcc]|He]; [|rewrite He, size_empty in Hp; lia].
  apply elem_of_kids in Hcc as (m & Hm & Hpm & _).
  destruct (key_in_closed (nodes f) c m p (tree_closed f Hf) Hm Hpm) as (dn & nm & Hdn & Hnm & Hk).
  assert (dn = n) as -> by congruence. exists (nodeid m), (entry_of (nodes f) c m), nm.
  split; [apply abs_Some; [by apply tree_num|done]|exact Hk].
Qed.

(** A change to one node that keeps its shape and its generation. *)
Lemma abs_update N p n n' : num_inj N -> N !! p = Some n -> shape n' = shape n ->
  abs_nodes (<[p := n']> N) = <[nodeid n := Entry (nlookup n') (key_in N p) (generation n')]> (abs_nodes N).
Proof.
  intros Hi Hn Hs. pose proof (same_shape_insert N p n n' Hn Hs) as Hss. pose proof Hs as [= Hs1 Hs2 Hs3].
  assert (num_inj (<[p := n']> N)) as Hi'.
  { intros q r m k Hm Hk E. destruct (same_shape_lookup _ _ _ _ (same_shape_sym _ _ Hss) Hm) as (m0 & Hm0 & [= E1 _ _]).
    destruct (same_shape_lookup _ _ _ _ (same_shape_sym _ _ Hss) Hk) as (k0 & Hk0 & [= E2 _ _]). apply (Hi q r m0 k0); congruence. }
  apply map_eq. intros i. apply option_eq. intros e. rewrite abs_iff, lookup_insert_Some, abs_iff by done. split.
  - intros (q & m & Hm & <- & ->). unfold entry_of. rewrite <- (same_shape_key _ _ q Hss).
    apply lookup_insert_Some in Hm as [[<- <-]|[Hne Hm]]; [left; split; [congruence|done]|right].
    split; [intros E; apply Hne; by apply (Hi p q n m)|]. exists q, m. done.
  - intros [[<- <-]|[Hne (q & m & Hm & <- & ->)]].
    + exists p, n'. rewrite lookup_insert_eq. split; [done|]. split; [done|]. unfold entry_of. by rewrite <- (same_shape_key _ _ p Hss).
    + exists q, m. rewrite lookup_insert_ne by congruence. split; [done|]. split; [done|]. unfold entry_of. by rewrite <- (same_shape_key _ _ q Hss).
Qed.

(** No node is new, and numbers and locks are left alone. *)
Definition same_locks f f' : Prop :=
  forall q n', nodes f' !! q = Some n' -> exists n, nodes f !! q = Some n /\ nodeid n' = nodeid n /\ treelock n' = treelock n.

Lemma unref_node_ok U E x f p n : tree_inv ∅ U E (bump p x) f -> (forall q, 0 <= x q) -> nodes f !! p = Some n ->
  (p ∈ U -> nlookup n <> 0) -> exists f', unref_node p f = Some (tt, f') /\ tree_inv ∅ U E x f' /\ evolves ∅ f f'.
Proof.
  intros Hf Hx Hn Hp. unfold unref_node. rewrite bind_get. apply (unref_fuel_ok _ U E x f p n); try done. apply mu_le.
Qed.

Lemma evolves_shrunk f f' : evolves ∅ f f' -> shrunk (nodes f) (nodes f').
Proof. intros Hev. split; [|apply (ev_gone _ _ _ Hev)]. intros q n' Hn'. apply (ev_node _ _ _ Hev q n' Hn'). set_solver. Qed.

(** Entries may go, and lose their place. *)
Lemma acyclic_same (A A' : tree) :
  (forall i e', A' !! i = Some e' -> exists e, A !! i = Some e /\ (place e' = place e \/ place e' = None)) ->
  (forall i e' d nm, A' !! i = Some e' -> place e' = Some (d, nm) -> is_Some (A' !! d)) -> acyclic A -> acyclic A'.
Proof.
  intros Hp Hc Ha i [e' He']. destruct (Hp i e' He') as (e & He & _). destruct (Ha i) as [k Hk]; [by exists e|]. clear He e. revert e' He'.
  induction Hk as [i e He Hpl|i e d nm k He Hpl Hk IH]; intros e' He'; destruct (Hp i e' He') as (e0 & He0 & Hpe); simplify_eq.
  - exists O. apply (depth_top _ i e'); [done|]. destruct Hpe; congruence.
  - destruct (place e') as [[d' nm']|] eqn:Ep; [|exists O; by apply (depth_top _ i e')]. destruct Hpe as [Hpe|]; [|done]. simplify_eq.
    destruct (Hc i e' d nm He') as [ed Hed]; [congruence|]. destruct (IH ed Hed) as [k' Hk']. exists (S k'). by apply (depth_dir _ i e' d nm); [|congruence|].
Qed.

(** Directories of entries are entries. *)
Lemma abs_closed N i e d nm : num_inj N -> abs_nodes N !! i = Some e -> place e = Some (d, nm) -> is_Some (abs_nodes N !! d).
Proof.
  intros Hi (p & n & Hn & <- & ->)%abs_iff Hp; [|done]. destruct (key_in_inv N p d nm Hp) as (? & dp & dn & _ & _ & Hdn & <- & _).
  eexists. by apply abs_Some.
Qed.

(** Changing an entry but not its place. *)
Lemma acyclic_update N i e e' : num_inj N -> abs_nodes N !! i = Some e -> place e' = place e -> acyclic (abs_nodes N) ->
  acyclic (<[i := e']> (abs_nodes N)).
Proof.
  intros Hin He Hp. apply acyclic_same.
  - intros j ej [[<- <-]|[_ ?]]%lookup_insert_Some; by eauto.
  - intros j ej d nm Hj Hd. assert (is_Some (abs_nodes N !! d)) as [ed Hed].
    { apply lookup_insert_Some in Hj as [[<- <-]|[_ Hj]]; [rewrite Hp in Hd|]; by eapply abs_closed. }
    destruct (decide (d = i)) as [->|]; [rewrite lookup_insert_eq; by eexists|rewrite lookup_insert_ne by done; by exists ed].
Qed.

Lemma curr_time_eq f : exists t c, curr_time f = Some (t, set_clock c f).
Proof. unfold curr_time. destruct (clock f) as [|t c] eqn:E; [|eauto]. exists time0, []. rewrite <- E at 1. by destruct f. Qed.

Lemma set_forget_time_ok W U E x f p n : tree_inv W U E x f -> lru_enabled f = true -> nodes f !! p = Some n ->
  exists f', set_forget_time p f = Some (tt, f') /\ tree_inv W U E x f' /\ nodes f' = nodes f /\ (conf f', ctr f', fgeneration f', lockq f') = (conf f, ctr f, fgeneration f, lockq f).
Proof.
  intros Hf Hen Hn. unfold set_forget_time, list_del_lru. rewrite !bind_modify. set (f1 := set_lru _ _).
  destruct (curr_time_eq f1) as (t & c & Ec). rewrite (bind_step _ _ _ _ _ Ec). eexists. split; [reflexivity|]. split; [|done].
  pose proof (t_lru _ _ _ _ _ Hf) as (Hnd & Hl & _). destruct Hf. split; try done. cbn. split; [|split].
  - apply NoDup_app. split; [by apply NoDup_filter|]. split; [|apply NoDup_singleton].
    intros q [Hq _]%list_elem_of_filter ->%list_elem_of_singleton. done.
  - intros q [[_ Hq]%list_elem_of_filter| ->%list_elem_of_singleton]%elem_of_app; [by apply Hl|by exists n].
  - intros El. change (lru_enabled f = false) in El. congruence.
Qed.

(** The kernel forgets [k] of the lookups of node [i]. *)
Lemma forget_ok f i k e : tree_ok f -> acyclic (abs f) -> abs f !! i = Some e -> i <> FUSE_ROOT_ID -> 0 < k <= count e ->
  (k = count e -> forall p n, nodes f !! p = Some n -> nodeid n = i -> treelock n = 0) ->
  exists f', forget_node i k f = Some (true, f') /\ tree_ok f' /\ acyclic (abs f') /\ (conf f', ctr f', fgeneration f', lockq f') = (conf f, ctr f, fgeneration f, lockq f) /\ same_locks f f' /\
    collect (<[i := Entry (count e - k) (place e) (gen e)]> (abs f)) (abs f').
Proof.
  intros Hf Ha He Hir Hk Ht. pose proof (tree_num f Hf) as Hin. pose proof (tree_closed f Hf) as Hcl.
  apply abs_iff in He as (p & n & Hn & <- & ->); [|done]. cbn [count place gen entry_of] in *.
  unfold forget_node. rewrite (proj2 (Z.eqb_neq _ _) Hir).
  rewrite (bind_step _ _ _ _ _ (get_node_ok ∅ ∅ ∅ _ f p n Hf Hn ltac:(set_solver))), (bind_step _ _ _ _ _ (node_at_eq f p n Hn)).
  assert ((nlookup n =? k) && negb (treelock n =? 0) = false) as ->.
  { destruct (Z.eqb_spec (nlookup n) k) as [E|]; [|done]. rewrite (Ht (eq_sym E) p n Hn eq_refl). done. }
  destruct (Z.leb_spec k (nlookup n)); [|lia]. cbn [check]. rewrite bind_ret, (bind_step _ _ _ _ _ (update_eq f p _ n Hn)).
  set (n1 := with_nlookup (nlookup n - k) n). set (f1 := set_nodes _ f). rewrite bind_get.
  pose proof (t_nlookup _ _ _ _ _ Hf p n Hn) as Hl. pose proof (abs_update (nodes f) p n n1 Hin Hn eq_refl) as HA.
  change (nodeid n) with (nodeid n) in HA. change (abs_nodes (<[p := n1]> (nodes f))) with (abs f1) in HA.
  assert (same_shape (nodes f) (nodes f1)) as Hss by by eapply same_shape_insert.
  assert (acyclic (abs f1)) as Ha1.
  { rewrite HA. by apply (acyclic_update _ _ (entry_of (nodes f) p n)); [|apply abs_Some| |]. }
  destruct (Z.eqb_spec (nlookup n - k) 0) as [Hz|Hz].
  - assert (treelock n = 0) as Htn by (apply (Ht ltac:(lia) p n Hn eq_refl)).
    assert (tree_inv ∅ ∅ ∅ (bump p (fun _ => 0)) f1) as Hf1.
    { unfold f1, n1. rewrite Hz. apply tree_inv_forget; try done; lia. }
    destruct (unref_node_ok ∅ ∅ (fun _ => 0) f1 p n1 Hf1) as (f2 & E2 & Hf2 & Hev); [done|apply lookup_insert_eq|set_solver|].
    rewrite (bind_step _ _ _ _ _ E2). exists f2. split; [done|]. split; [done|].
    assert (num_inj (nodes f1)) as Hi1 by (intros q r a b; apply (t_num _ _ _ _ _ Hf1)).
    assert (closed (nodes f1)) as Hc1.
    { intros q a d Hq Hd. split; [by apply (t_parent _ _ _ _ _ Hf1 q a d Hq)|]. apply (t_name _ _ _ _ _ Hf1 q a Hq). by exists d. }
    assert (collect (abs f1) (abs f2)) as Hcol.
    { apply collect_ok; try done; [by apply evolves_shrunk|by apply tree_num|by apply tree_closed|]. by apply tree_live. }
    split; [|split; [|split]].
    + apply (acyclic_same (abs f1)); [intros j e' [He' _]%Hcol; exists e'; auto| |done].
      intros j e' d nm He' Hp'. by apply (abs_closed (nodes f2) j e' d nm (tree_num _ Hf2)).
    + pose proof (ev_env _ _ _ Hev) as [= -> -> -> _ -> _ _]. done.
    + intros q m' Hm'. destruct (ev_node _ _ _ Hev q m' Hm') as (m & Hm & E0); [set_solver|].
      cbn in Hm. apply lookup_insert_Some in Hm as [[<- <-]|[_ Hm]]; [exists n|exists m]; rewrite E0; done.
    + rewrite HA in Hcol. exact Hcol.
  - assert (tree_ok f1) as Hf1.
    { apply (tree_inv_update ∅ ∅ ∅ (fun _ => 0)  (fun _ => 0) f p n); try done.
      - cbn. unfold looked_up. cbn. destruct (Z.eqb_spec (nlookup n) 0), (Z.eqb_spec (nlookup n - k) 0); lia.
      - intros _. apply (t_pos _ _ _ _ _ Hf p n Hn). set_solver.
      - cbn. lia. }
    assert (exists f2, (if lru_enabled f1 && (nlookup n - k =? 1) then set_forget_time p else mret tt) f1 = Some (tt, f2) /\
      tree_ok f2 /\ nodes f2 = nodes f1 /\ (conf f2, ctr f2, fgeneration f2, lockq f2) = (conf f1, ctr f1, fgeneration f1, lockq f1)) as (f2 & E2 & Hf2 & HN2 & Hc2).
    { destruct (lru_enabled f1) eqn:Elr; cbn [andb]; [|by exists f1]. destruct (_ =? 1); [|by exists f1].
      by apply (set_forget_time_ok ∅ ∅ ∅ _ f1 p n1 Hf1 Elr), lookup_insert_eq. }
    rewrite (bind_step _ _ _ _ _ E2). exists f2. split; [done|]. split; [done|]. unfold abs. rewrite HN2. change (abs_nodes (nodes f1)) with (abs f1).
    split; [done|]. split; [done|]. split.
    + intros q m' Hm'. rewrite HN2 in Hm'. cbn in Hm'. apply lookup_insert_Some in Hm' as [[<- <-]|[_ Hm]]; [exists n|exists m']; done.
    + assert (collect (abs f1) (abs f1)) as Hcol.
      { intros j e. split; [|tauto]. intros Hj. split; [done|]. apply tree_live; [done|done|by exists e]. }
      rewrite HA in Hcol at 1. exact Hcol.
Qed.
(** Taking the name of [p] away. *)
Section Unname.
Context (N : gmap Z node) (p : Z) (n : node).
Context (Hin : num_inj N) (Hcl : closed N) (Hn : N !! p = Some n).
Let N1 := <[p := with_place None None n]> N.

Lemma unnamed_old q m : N1 !! q = Some m -> exists k, N !! q = Some k /\ nodeid m = nodeid k /\ nlookup m = nlookup k /\
  generation m = generation k /\ treelock m = treelock k /\ (q <> p -> m = k).
Proof using Hn. unfold N1. intros [[<- <-]|[Hne Hm]]%lookup_insert_Some; [exists n|exists m]; done. Qed.

Lemma unnamed_new q k : N !! q = Some k -> exists m, N1 !! q = Some m /\ nodeid m = nodeid k.
Proof using Hn.
  intros Hk. unfold N1. destruct (decide (q = p)) as [->|]; [rewrite lookup_insert_eq|rewrite lookup_insert_ne by done; eauto].
  eexists. split; [done|]. cbn. congruence.
Qed.

Lemma unnamed_num : num_inj N1.
Proof using Hin Hn.
  intros q r a b Ha Hb E. destruct (unnamed_old q a Ha) as (a' & Ha' & Ea & _), (unnamed_old r b Hb) as (b' & Hb' & Eb & _).
  apply (Hin q r a' b'); congruence.
Qed.

Lemma unnamed_closed : closed N1.
Proof using Hcl Hn.
  intros q m d Hm Hd. destruct (decide (q = p)) as [->|Hq]; [unfold N1 in Hm; rewrite lookup_insert_eq in Hm; by simplify_eq|].
  destruct (unnamed_old q m Hm) as (k & Hk & _ & _ & _ & _ & E). rewrite (E Hq) in *. destruct (Hcl q k d Hk Hd) as [[dn Hdn] ?].
  split; [|done]. destruct (unnamed_new d dn Hdn) as (dm & ? & _). by exists dm.
Qed.

Lemma unnamed_abs : abs_nodes N1 = <[nodeid n := Entry (nlookup n) None (generation n)]> (abs_nodes N).
Proof using Hin Hcl Hn.
  apply map_eq. intros i. apply option_eq. intros e. rewrite (abs_iff N1), lookup_insert_Some, abs_iff by (done || apply unnamed_num).
  assert (key_in N1 p = None) as Hkp by (unfold key_in, N1; by rewrite lookup_insert_eq).
  assert (forall q, q <> p -> key_in N1 q = key_in N q) as Hkq by (intros q Hq; by apply cleared_key). split.
  - intros (q & m & Hm & <- & ->). destruct (unnamed_old q m Hm) as (k & Hk & Ei & El & Eg & _ & E). destruct (decide (q = p)) as [->|Hq].
    + left. assert (k = n) as -> by congruence. split; [done|]. unfold entry_of. by rewrite Hkp, El, Eg.
    + right. rewrite (E Hq) in *. split; [intros E'; apply Hq; apply (Hin q p k n); congruence|]. exists q, k. split; [done|]. split; [done|].
      unfold entry_of. by rewrite Hkq.
  - intros [[<- <-]|[Hne (q & m & Hm & <- & ->)]].
    + exists p, (with_place None None n). unfold N1 at 1. rewrite lookup_insert_eq. split; [done|]. split; [done|]. unfold entry_of. by rewrite Hkp.
    + assert (q <> p) as Hq by congruence. exists q, m. unfold N1 at 1. rewrite lookup_insert_ne by done. split; [done|]. split; [done|].
      unfold entry_of. by rewrite Hkq.
Qed.
End Unname.

(** Losing a place, for an entry that is looked up, in a directory that is. *)
Lemma unname_live A i e : A !! i = Some e -> count e <> 0 ->
  (forall d nm ed, place e = Some (d, nm) -> A !! d = Some ed -> count ed <> 0) ->
  (forall j ej d nm, A !! j = Some ej -> place ej = Some (d, nm) -> is_Some (A !! d)) ->
  (forall j, is_Some (A !! j) -> live A j) ->
  forall j, is_Some (<[i := Entry (count e) None (gen e)]> A !! j) -> live (<[i := Entry (count e) None (gen e)]> A) j.
Proof.
  intros Hi Hc Hd Hcl Hl j Hj. assert (forall k ek, A !! k = Some ek -> count ek <> 0 -> live (<[i := Entry (count e) None (gen e)]> A) k) as Href.
  { intros k ek Hk Hck. destruct (decide (k = i)) as [->|].
    - apply (live_ref _ i (Entry (count e) None (gen e))); [apply lookup_insert_eq|done].
    - apply (live_ref _ k ek); [by rewrite lookup_insert_ne|done]. }
  assert (is_Some (A !! j)) as Hj' by (destruct Hj as [ej [[<- _]|[_ ?]]%lookup_insert_Some]; by eexists).
  specialize (Hl j Hj'). clear Hj Hj'. induction Hl as [j ej Hj Hcj|j ej d nm Hlj IH Hj Hp]; [by eapply Href|].
  destruct (decide (j = i)) as [->|Hne].
  - assert (ej = e) as -> by congruence. destruct (Hcl i e d nm Hi Hp) as [ed Hed]. apply (Href d ed Hed). by apply (Hd d nm).
  - apply (live_dir _ j ej d nm); [done|by rewrite lookup_insert_ne|done].
Qed.

Lemma unname_ok f p n : tree_ok f -> acyclic (abs f) -> nodes f !! p = Some n -> nodeid n <> FUSE_ROOT_ID -> nlookup n <> 0 ->
  (forall d dn, parent n = Some d -> nodes f !! d = Some dn -> nlookup dn <> 0) ->
  exists f', unhash_name p f = Some (tt, f') /\ tree_ok f' /\ acyclic (abs f') /\ env f' = env f /\
    (exists r, nodes f' !! p = Some (with_place None None (with_refctr r n))) /\
    (forall q m', nodes f' !! q = Some m' -> q <> p -> exists m, nodes f !! q = Some m /\ m' = with_refctr (refctr m') m) /\
    (forall q, is_Some (nodes f !! q) -> is_Some (nodes f' !! q)) /\
    abs f' = <[nodeid n := Entry (nlookup n) None (generation n)]> (abs f).
Proof.
  intros Hf Ha Hn Hr Hl Hd. pose proof (tree_num f Hf) as Hin. pose proof (tree_closed f Hf) as Hcl.
  unfold unhash_name. rewrite bind_get.
  destruct (unhash_with_ok (size (nodes f)) ∅ ∅ (fun _ => 0) (unref_fuel (size (nodes f))) f p n) as (f' & n' & E1 & Hf' & Hn' & En' & Hev); try done.
  { intros g d dn Hg Hdn HdU Hmu. by apply (unref_fuel_ok _ _ _ _ g d dn). } { apply mu_le. } { by left. } { intros d dn Ed Hdn _. by apply (Hd d). }
  exists f'. split; [done|]. split; [done|]. set (N1 := <[p := with_place None None n]> (nodes f)).
  pose proof (unnamed_abs (nodes f) p n Hin Hcl Hn) as HA. fold N1 in HA.
  assert (shrunk N1 (nodes f')) as Hs.
  { split.
    - intros q m Hm. unfold N1. destruct (decide (q = p)) as [->|Hq].
      + rewrite lookup_insert_eq. eexists. split; [done|]. assert (m = n') as -> by congruence. rewrite En' at 1. done.
      + rewrite lookup_insert_ne by done. apply (ev_node _ _ _ Hev q m Hm). set_solver.
    - intros q m Hm Hq. unfold N1 in Hm. apply lookup_insert_Some in Hm as [[<- <-]|[_ Hm]]; [congruence|]. by apply (ev_gone _ _ _ Hev q). }
  assert (acyclic (abs_nodes N1)) as Ha1.
  { rewrite HA. apply (acyclic_same (abs f)); [| |done].
    - intros j ej [[<- <-]|[_ ?]]%lookup_insert_Some; [|by eauto]. eexists. split; [by apply abs_Some|by right].
    - rewrite <- HA. intros j ej d nm Hj Hpj. by apply (abs_closed N1 j ej d nm (unnamed_num (nodes f) p n Hin Hn)). }
  assert (collect (abs_nodes N1) (abs f')) as Hcol.
  { apply collect_ok; try done; [by apply unnamed_num|by apply unnamed_closed|by apply tree_num|by apply tree_closed|by apply tree_live]. }
  assert (abs f' = abs_nodes N1) as HA'.
  { apply collect_all; [done|]. rewrite HA.
    apply (unname_live (abs f) (nodeid n) (entry_of (nodes f) p n) (abs_Some _ _ _ Hin Hn) Hl); [| |by apply tree_live].
    - intros d nm ed Hp Hed. destruct (key_in_inv (nodes f) p d nm Hp) as (k & dp & dn & Hk & Hdp & Hdn & <- & _).
      assert (k = n) as -> by congruence. unfold abs in Hed. rewrite (abs_Some _ _ _ Hin Hdn) in Hed. injection Hed as <-. by apply (Hd dp).
    - intros j ej d nm. by apply abs_closed. }
  split; [by rewrite HA'|]. split; [apply (ev_env _ _ _ Hev)|]. split; [exists (refctr n'); by rewrite Hn', En' at 1|].
  split; [intros q m Hm Hq; apply (ev_node _ _ _ Hev q m Hm); set_solver|]. split; [|by rewrite HA'].
  intros q [m Hm]. destruct (unnamed_new (nodes f) p n Hn q m Hm) as (m1 & Hm1 & Ei).
  pose proof (abs_Some N1 q m1 (unnamed_num (nodes f) p n Hin Hn) Hm1) as Hq. rewrite <- HA' in Hq.
  apply abs_iff in Hq as (r & k & Hk & Ek & _); [|by apply tree_num]. destruct (sh_node _ _ Hs r k Hk) as (k1 & Hk1 & Ek1).
  assert (q = r) as -> by (apply (unnamed_num (nodes f) p n Hin Hn q r m1 k1 Hm1 Hk1); rewrite Ek1 in Ek; cbn in Ek; congruence). by exists k.
Qed.

(** *** Giving a node a place *)

Lemma acyclic_place A i c d nm g : acyclic A -> is_Some (A !! d) -> ~ below A i d ->
  (forall j e d' nm', A !! j = Some e -> place e = Some (d', nm') -> is_Some (A !! d')) ->
  acyclic (<[i := Entry c (Some (d, nm)) g]> A).
Proof.
  intros Ha Hd Hb Hcl. set (A' := <[i := _]> A).
  assert (forall k j, depth A k j -> ~ below A i j -> depth A' k j) as Hkeep.
  { intros k j. induction 1 as [j e Hj Hp|j e dj nj k Hj Hp Hk IH]; intros Hnb; assert (j <> i) by (intros ->; apply Hnb; constructor).
    - apply (depth_top _ j e); [unfold A'; by rewrite lookup_insert_ne|done].
    - apply (depth_dir _ j e dj nj); [unfold A'; by rewrite lookup_insert_ne|done|]. apply IH. intros Hbd. apply Hnb. by apply (below_dir A i j e dj nj). }
  assert (exists k, depth A' k i) as [ki Hi].
  { destruct (Ha d Hd) as [k Hk]. exists (S k). apply (depth_dir _ i (Entry c (Some (d, nm)) g) d nm); [apply lookup_insert_eq|done|by apply Hkeep]. }
  intros j [e [[<- _]|[Hne He]]%lookup_insert_Some]; [by exists ki|]. destruct (Ha j) as [k Hk]; [by exists e|]. clear He e.
  revert Hne. induction Hk as [j e Hj Hp|j e dj nj k Hj Hp Hk IH]; intros Hne.
  - exists O. apply (depth_top _ j e); [unfold A'; by rewrite lookup_insert_ne|done].
  - assert (exists k, depth A' k dj) as [k' Hk'].
    { destruct (decide (i = dj)) as [<-|Hdj]; [by exists ki|by apply IH]. }
    exists (S k'). apply (depth_dir _ j e dj nj); [unfold A'; by rewrite lookup_insert_ne|done|done].
Qed.

Lemma placed_abs N p d nm n dn : num_inj N -> closed N -> N !! p = Some n -> N !! d = Some dn -> p <> d -> parent n = None ->
  abs_nodes (placed N p d nm n dn) = <[nodeid n := Entry (nlookup n) (Some (nodeid dn, nm)) (generation n)]> (abs_nodes N).
Proof.
  intros Hin Hcl Hn Hdn Hpd Hp.
  assert (forall q m, placed N p d nm n dn !! q = Some m -> exists k, N !! q = Some k /\ nodeid m = nodeid k /\ nlookup m = nlookup k /\ generation m = generation k) as Hold.
  { intros q m [[-> ->]|[[-> ->]|(? & ? & Hm)]]%placed_lookup; eauto. }
  assert (forall q k, N !! q = Some k -> exists m, placed N p d nm n dn !! q = Some m /\ nodeid m = nodeid k /\ nlookup m = nlookup k /\ generation m = generation k) as Hnew.
  { intros q k Hk. destruct (decide (q = p)) as [->|]; [|destruct (decide (q = d)) as [->|]].
    - eexists. rewrite placed_p. assert (k = n) as -> by congruence. done.
    - eexists. rewrite placed_d by done. assert (k = dn) as -> by congruence. done.
    - eexists. rewrite placed_other by done. rewrite Hk. done. }
  assert (num_inj (placed N p d nm n dn)) as Hin'.
  { intros q r a b Ha Hb E. destruct (Hold q a Ha) as (a' & Ha' & Ea & _), (Hold r b Hb) as (b' & Hb' & Eb & _). apply (Hin q r a' b'); congruence. }
  apply map_eq. intros i. apply option_eq. intros e. rewrite (abs_iff (placed _ _ _ _ _ _)), lookup_insert_Some, abs_iff by done.
  unfold entry_of. split.
  - intros (q & m & Hm & <- & ->). destruct (Hold q m Hm) as (k & Hk & Ei & El & Eg). rewrite Ei, El, Eg. destruct (decide (q = p)) as [->|Hq].
    + left. assert (k = n) as -> by congruence. split; [done|]. by rewrite placed_key_p.
    + right. split; [intros E; apply Hq; by apply (Hin q p k n)|]. exists q, k. by rewrite placed_key.
  - intros [[<- <-]|[Hne (q & k & Hk & <- & ->)]].
    + destruct (Hnew p n Hn) as (m & Hm & Ei & El & Eg). exists p, m. rewrite placed_key_p, El, Eg by done. done.
    + destruct (Hnew q k Hk) as (m & Hm & Ei & El & Eg). exists q, m. rewrite placed_key, El, Eg by (done || congruence). done.
Qed.

Definition unlocked f : Prop := forall p n, nodes f !! p = Some n -> treelock n = 0.

(** Every node stays where it is, with its number and its locks; new nodes are
    not locked. *)
Definition steady (N N' : gmap Z node) : Prop :=
  (forall q n, N !! q = Some n -> exists n', N' !! q = Some n' /\ nodeid n' = nodeid n /\ treelock n' = treelock n) /\
  (forall q n', N' !! q = Some n' -> N !! q = None -> treelock n' = 0).

Lemma steady_refl N : steady N N.
Proof. split; [eauto|congruence]. Qed.

Lemma steady_trans N1 N2 N3 : steady N1 N2 -> steady N2 N3 -> steady N1 N3.
Proof.
  intros [H1 H1'] [H2 H2']. split.
  - intros q n Hn. destruct (H1 q n Hn) as (n2 & Hn2 & E2 & L2), (H2 q n2 Hn2) as (n3 & Hn3 & E3 & L3). exists n3. split; [done|]. split; congruence.
  - intros q n3 Hn3 Hn. destruct (N2 !! q) as [n2|] eqn:Hn2; [|by apply (H2' q)].
    destruct (H2 q n2 Hn2) as (m & Hm & _ & L). assert (m = n3) as -> by congruence. rewrite L. by apply (H1' q).
Qed.

Lemma steady_insert N p n n' : N !! p = Some n -> nodeid n' = nodeid n -> treelock n' = treelock n -> steady N (<[p := n']> N).
Proof.
  intros Hn Ei El. split.
  - intros q m Hm. rewrite lookup_insert. case_decide as E; [subst; simplify_eq|]; eauto.
  - intros q m [[<- <-]|[_ Hm]]%lookup_insert_Some; congruence.
Qed.

Lemma steady_fresh N p n : N !! p = None -> treelock n = 0 -> steady N (<[p := n]> N).
Proof.
  intros Hn Hl. split.
  - intros q m Hm. rewrite lookup_insert_ne by congruence. eauto.
  - intros q m [[<- <-]|[_ Hm]]%lookup_insert_Some; congruence.
Qed.

Lemma steady_placed N p d nm n dn : N !! p = Some n -> N !! d = Some dn -> p <> d -> steady N (placed N p d nm n dn).
Proof.
  intros Hn Hdn Hpd. apply (steady_trans N (<[d := with_refctr (refctr dn + 1) dn]> N)); [by eapply steady_insert|].
  unfold placed. eapply steady_insert; [by rewrite lookup_insert_ne|done|done].
Qed.

Lemma steady_unlocked f f' : steady (nodes f) (nodes f') -> unlocked f -> unlocked f'.
Proof.
  intros [H1 H2] Hu p n' Hn'. destruct (nodes f !! p) as [n|] eqn:Hn; [|by apply (H2 p)].
  destruct (H1 p n Hn) as (m & Hm & _ & L). assert (m = n') as -> by congruence. rewrite L. by apply (Hu p).
Qed.

(** No entry has the place [(i, nm)]. *)
Definition vacant (A : tree) (i : Z) (nm : bytes) : Prop := forall j e, A !! j = Some e -> place e <> Some (i, nm).

Lemma name_ok f p n d dn nm : tree_ok f -> acyclic (abs f) -> nodes f !! p = Some n -> parent n = None -> name n = None ->
  nodeid n <> FUSE_ROOT_ID -> nodes f !! d = Some dn -> ~ below (abs f) (nodeid n) (nodeid dn) -> vacant (abs f) (nodeid dn) nm ->
  exists r f', hash_name p (nodeid dn) nm f = Some (r, f') /\ tree_ok f' /\ acyclic (abs f') /\ env f' = env f /\ steady (nodes f) (nodes f') /\
    (r = -1 /\ nodes f' = nodes f \/
     r = 0 /\ nodes f' = placed (nodes f) p d nm n dn /\
     abs f' = <[nodeid n := Entry (nlookup n) (Some (nodeid dn, nm)) (generation n)]> (abs f)).
Proof.
  intros Hf Ha Hn Hp Hnm Hr Hdn Hb Hv. pose proof (tree_num f Hf) as Hin. pose proof (tree_closed f Hf) as Hcl.
  assert (p <> d) as Hpd by (intros ->; assert (dn = n) as -> by congruence; apply Hb; constructor).
  destruct (hash_name_ok ∅ ∅ ∅ (fun _ => 0) f p d nm n dn Hf Hn Hdn Hpd) as [[h E]|(f' & E & Hf' & HN & He & Hl & _)]; try done; try (apply not_elem_of_empty).
  - intros q m Hm _ Hpm Hnmm. destruct (key_in_closed (nodes f) q m d Hcl Hm Hpm) as (dn' & nm' & Hdn' & Hnm' & Hk).
    assert (dn' = dn) as -> by congruence. assert (nm' = nm) as -> by congruence.
    destruct (Hv (nodeid m) (entry_of (nodes f) q m)); [by apply abs_Some|exact Hk].
  - exists (-1), (set_heap h f). split; [done|]. split; [by apply tree_inv_heap|]. split; [done|]. split; [done|]. split; [apply steady_refl|]. by left.
  - exists 0, f'. split; [done|]. split; [done|]. unfold abs. rewrite HN, placed_abs by done. split; [|split; [done|split; [|by right]]].
    + apply acyclic_place; [done|eexists; by apply abs_Some|done|]. intros j e d' nm'. by apply abs_closed.
    + by apply steady_placed.
Qed.

(** *** Finding *)

Lemma abs_fresh N p n : num_inj N -> closed N -> N !! p = None -> parent n = None -> (forall q m, N !! q = Some m -> nodeid m <> nodeid n) ->
  num_inj (<[p := n]> N) /\ closed (<[p := n]> N) /\
  abs_nodes (<[p := n]> N) = <[nodeid n := Entry (nlookup n) None (generation n)]> (abs_nodes N).
Proof.
  intros Hin Hcl Hp Hpn Hi.
  assert (forall q m, N !! q = Some m -> q <> p /\ <[p := n]> N !! q = Some m) as HL by (intros q m Hm; assert (q <> p) by congruence; by rewrite lookup_insert_ne).
  assert (num_inj (<[p := n]> N)) as Hin'.
  { intros q r a b [[<- <-]|[_ Ha]]%lookup_insert_Some [[<- <-]|[_ Hb]]%lookup_insert_Some E; [done|by destruct (Hi r b)|by destruct (Hi q a)|by apply (Hin q r a b)]. }
  assert (forall q, q <> p -> key_in (<[p := n]> N) q = key_in N q) as Hk.
  { intros q Hq. unfold key_in. rewrite lookup_insert_ne by done. destruct (N !! q) as [m|] eqn:Hm; [|done]. cbn.
    destruct (parent m) as [d|] eqn:Hd; [|done]. cbn. destruct (Hcl q m d Hm Hd) as [[dn Hdn] _]. by rewrite (proj2 (HL d dn Hdn)), Hdn. }
  split; [done|]. split.
  - intros q m d [[<- <-]|[_ Hm]]%lookup_insert_Some Hd; [congruence|]. destruct (Hcl q m d Hm Hd) as [[dn Hdn] ?]. split; [|done].
    exists dn. by apply HL.
  - apply map_eq. intros i. apply option_eq. intros e. rewrite (abs_iff (<[p := n]> N)), lookup_insert_Some, abs_iff by done. unfold entry_of. split.
    + intros (q & m & [[<- <-]|[Hne Hm]]%lookup_insert_Some & <- & ->).
      * left. split; [done|]. unfold key_in. rewrite lookup_insert_eq. cbn. by rewrite Hpn.
      * right. split; [by apply not_eq_sym, Hi with q|]. exists q, m. rewrite Hk by done. done.
    + intros [[<- <-]|[Hne (q & m & Hm & <- & ->)]].
      * exists p, n. rewrite lookup_insert_eq. split; [done|]. split; [done|]. unfold key_in. rewrite lookup_insert_eq. cbn. by rewrite Hpn.
      * exists q, m. destruct (HL q m Hm) as [Hq HqL]. rewrite Hk by done. done.
Qed.

(** One more lookup of an entry. *)
Definition inc (e : entry) : entry := Entry (count e + 1) (place e) (gen e).

Lemma remove_lru_ok f p n : tree_ok f -> exists f', (if lru_enabled f && (nlookup n =? 1) then remove_node_lru p else mret tt) f = Some (tt, f') /\
  tree_ok f' /\ nodes f' = nodes f /\ conf f' = conf f /\ env f' = env f.
Proof.
  intros Hf. destruct (lru_enabled f && _); [|by exists f]. eexists. split; [reflexivity|]. split; [|done].
  pose proof (t_lru _ _ _ _ _ Hf) as (Hnd & Hl & He). destruct Hf. split; try done. cbn. split; [by apply NoDup_filter|]. split.
  - intros q [_ Hq]%list_elem_of_filter. by apply Hl.
  - intros E. change (lru_enabled f = false) in E. by rewrite (He E).
Qed.

(** Looking a node up that exists. *)
Lemma find_old_ok f p n : tree_ok f -> acyclic (abs f) -> nodes f !! p = Some n -> nlookup n + 1 < 2 ^ 64 ->
  exists f', (f0 ← get; n ← node_at p; _ ← (if lru_enabled f0 && (nlookup n =? 1) then remove_node_lru p else mret tt);
              _ ← inc_nlookup p; mret (Some p)) f = Some (Some p, f') /\ tree_ok f' /\ acyclic (abs f') /\ env f' = env f /\
    steady (nodes f) (nodes f') /\ nodes f' = <[p := once_more n]> (nodes f) /\
    abs f' = <[nodeid n := inc (entry_of (nodes f) p n)]> (abs f).
Proof.
  intros Hf Ha Hn Hl. rewrite bind_get, (bind_step _ _ _ _ _ (node_at_eq f p n Hn)).
  destruct (remove_lru_ok f p n Hf) as (f1 & E1 & Hf1 & HN1 & Hc1 & He1). rewrite (bind_step _ _ _ _ _ E1).
  rewrite <- HN1 in Hn. destruct (inc_nlookup_ok ∅ ∅ ∅ ∅ (fun _ => 0) f1 p n Hf1 Hn Hl) as [E2 Hf2]; [lia|set_solver|].
  rewrite (bind_step _ _ _ _ _ E2). eexists. split; [reflexivity|]. split; [exact Hf2|].
  assert (abs (set_nodes (<[p := once_more n]> (nodes f1)) f1) = <[nodeid n := inc (entry_of (nodes f) p n)]> (abs f)) as HA.
  { unfold abs. cbn. rewrite HN1 in *. rewrite (abs_update _ p n) by (done || by apply tree_num). done. }
  rewrite HA. split; [apply (acyclic_update _ _ (entry_of (nodes f) p n)); [by apply tree_num|rewrite HN1 in Hn; apply abs_Some; [by apply tree_num|done]|done|done]|].
  split; [exact He1|]. split; [|split; [cbn; by rewrite HN1|done]].
  cbn [nodes set_nodes]. rewrite HN1 in *. by eapply steady_insert.
Qed.

(** The place of an entry determines it. *)
Lemma place_inj f i j e e' k : tree_ok f -> abs f !! i = Some e -> abs f !! j = Some e' -> place e = Some k -> place e' = Some k -> i = j.
Proof.
  intros Hf (p & n & Hn & <- & ->)%abs_iff (q & m & Hm & <- & ->)%abs_iff Hp Hq; [|by apply tree_num..]. destruct k as [d nm]. cbn in Hp, Hq.
  destruct (key_in_inv _ _ _ _ Hp) as (n' & dp & dn & Hn' & Hdp & Hdn & Hi & Hnm), (key_in_inv _ _ _ _ Hq) as (m' & dq & dm & Hm' & Hdq & Hdm & Hi' & Hnm').
  simplify_eq. assert (dp = dq) as <- by (apply (t_num _ _ _ _ _ Hf dp dq dn dm Hdn Hdm); congruence).
  assert (p = q) as <- by (apply (t_key _ _ _ _ _ Hf p q n m); try done; try (apply not_elem_of_empty); congruence). congruence.
Qed.

(** A search by name, on the abstraction. *)
Lemma find_name_abs f i nm : tree_ok f -> exists r, find_name i nm f = Some (r, f) /\
  match r with
  | Some p => exists n, nodes f !! p = Some n /\ key_in (nodes f) p = Some (i, nm)
  | None => vacant (abs f) i nm
  end.
Proof.
  intros Hf. destruct (find_name_ok ∅ ∅ ∅ _ f i nm Hf) as (r & E & Hr). exists r. split; [done|]. destruct r as [p|].
  - destruct (proj1 (Hr p) eq_refl) as [(n & d & Hn & _)%elem_of_named Hk]. eauto.
  - intros j e (p & n & Hn & <- & ->)%abs_iff Hp; [|by apply tree_num]. cbn in Hp.
    destruct (key_in_inv _ _ _ _ Hp) as (n' & d & dn & Hn' & Hd & _). assert (None = Some p); [|done]. apply Hr.
    split; [|done]. apply elem_of_named. exists n', d. split; [done|]. split; [done|]. apply not_elem_of_empty.
Qed.

Lemma below_out (A : tree) i j : A !! i = None -> is_Some (A !! j) ->
  (forall k e d nm, A !! k = Some e -> place e = Some (d, nm) -> is_Some (A !! d)) -> ~ below A i j.
Proof.
  intros Hi Hj Hcl Hb. revert Hj. induction Hb as [|j e d nm He Hp _ IH]; [rewrite Hi; by intros []|]. intros _. apply IH. by apply (Hcl j e d nm).
Qed.

(** Looking a file up that has no node. *)
Lemma find_new_ok f d dn nm : tree_ok f -> acyclic (abs f) -> nodes f !! d = Some dn -> vacant (abs f) (nodeid dn) nm ->
  Z.of_nat (size (nodes f)) + 1 < 2 ^ 30 ->
  exists r f', (r ← new_node (nodeid dn) nm; match r with None => mret None | Some p => _ ← inc_nlookup p; mret (Some p) end) f = Some (r, f') /\
    tree_ok f' /\ acyclic (abs f') /\ same_conf f f' /\ steady (nodes f) (nodes f') /\
    match r with
    | None => abs f' = abs f /\ exists j, (j <= size (nodes f) + 4)%nat /\ counter f' = (counter f + Z.of_nat j) mod 2 ^ 64
    | Some p => exists n i g j, nodes f' !! p = Some n /\ nodeid n = i /\ generation n = g /\ abs f !! i = None /\ 0 < i < FUSE_UNKNOWN_INO /\
        fgeneration f' = g /\ ctr f' = i /\ (0 < j <= size (nodes f) + 4)%nat /\
        stamp g i = (stamp (fgeneration f) (ctr f) + Z.of_nat j) mod 2 ^ 64 /\
        abs f' = <[i := Entry (if remember (conf f) =? 0 then 1 else 2) (Some (nodeid dn, nm)) g]> (abs f)
    end.
Proof.
  intros Hf Ha Hdn Hv Hsz. pose proof (tree_num f Hf) as Hin. pose proof (tree_closed f Hf) as Hcl.
  destruct (new_node_ok (fun _ => 0) f d dn nm Hf Hdn) as (r & f1 & E1 & Hsc & Hlru & Hr); try done.
  { intros q m Hm Hpm Hnm. destruct (key_in_closed (nodes f) q m d Hcl Hm Hpm) as (dn' & nm' & Hdn' & Hnm' & Hk). simplify_eq.
    by apply (Hv (nodeid m) (entry_of (nodes f) q m)); [apply abs_Some|]. }
  rewrite (bind_step _ _ _ _ _ E1). destruct r as [p|].
  2: { destruct Hr as (Hf1 & HN & Hcnt). exists None, f1. split; [done|]. split; [done|]. unfold abs. rewrite HN. split; [done|]. split; [done|]. by split; [apply steady_refl|]. }
  destruct Hr as (Hf1 & Hp & i & g & j & Hi & Hg & Hc & Hj & Hst & HN). set (nb := newborn f i g) in *.
  assert (nodeid nb = i /\ parent nb = None /\ generation nb = g /\ treelock nb = 0 /\ nlookup nb = if remember (conf f) =? 0 then 0 else 1) as (Hbi & Hbp & Hbg & Hbt & Hbl).
  { unfold nb, newborn. by destruct (_ =? _). }
  apply not_elem_of_dom in Hp. rewrite elem_of_taken in Hi.
  destruct (abs_fresh (nodes f) p nb Hin Hcl Hp Hbp) as (Hin1 & Hcl1 & HA1).
  { intros q m Hm E. apply Hi. right; right. exists q, m. split; [done|congruence]. }
  assert (p <> d) as Hpd by congruence. assert (<[p := nb]> (nodes f) !! p = Some nb) as Hpb by apply lookup_insert_eq.
  assert (<[p := nb]> (nodes f) !! d = Some dn) as Hd1 by by rewrite lookup_insert_ne.
  pose proof (placed_abs _ p d nm nb dn Hin1 Hcl1 Hpb Hd1 Hpd Hbp) as HA2. rewrite HA1, insert_insert_eq, <- HN in HA2.
  set (n1 := with_place (Some d) (Some nm) nb). assert (nodes f1 !! p = Some n1) as Hn1 by (rewrite HN; apply placed_p).
  destruct (inc_nlookup_ok ∅ ∅ {[p]} ∅ (fun _ => 0) f1 p n1 Hf1 Hn1) as [E2 Hf2]; [cbn; rewrite Hbl; destruct (_ =? _); lia|lia|set_solver|].
  rewrite (bind_step _ _ _ _ _ E2). set (f2 := set_nodes _ f1) in *. exists (Some p), f2. split; [done|]. split; [done|].
  assert (num_inj (nodes f1)) as Hin2 by (intros q q' a b; apply (t_num _ _ _ _ _ Hf1)).
  assert (key_in (nodes f1) p = Some (nodeid dn, nm)) as Hk1 by (rewrite HN; by apply placed_key_p).
  assert (abs f2 = <[i := Entry (if remember (conf f) =? 0 then 1 else 2) (Some (nodeid dn, nm)) g]> (abs f)) as HA.
  { unfold abs. cbn. rewrite (abs_update (nodes f1) p n1) by done. rewrite HA2, Hk1. cbn. rewrite Hbi, insert_insert_eq, Hbl, Hbg. by destruct (_ =? _). }
  assert (abs f !! i = None) as Hfi.
  { destruct (abs f !! i) as [e|] eqn:He; [|done]. apply abs_iff in He as (q & m & Hm & Em & _); [|done]. destruct Hi. eauto 10. }
  split; [|split; [done|split]].
  - rewrite HA. assert (is_Some (abs f !! nodeid dn)) by (eexists; by apply abs_Some).
    assert (forall k e d' nm', abs f !! k = Some e -> place e = Some (d', nm') -> is_Some (abs f !! d')) by (intros k e d' nm'; by apply abs_closed).
    apply acyclic_place; [done|done|by apply below_out|done].
  - apply (steady_trans _ (<[p := nb]> (nodes f))); [by apply steady_fresh|]. apply (steady_trans _ (nodes f1)); [rewrite HN; by apply steady_placed|].
    by eapply steady_insert.
  - assert (nodes f2 !! p = Some (once_more n1)) as Hp2 by apply lookup_insert_eq.
    exists (once_more n1), i, g, j. split; [done|]. split; [exact Hbi|]. split; [exact Hbg|]. split; [done|]. split; [|done].
    rewrite <- Hbi. exact (t_nodeid _ _ _ _ _ Hf2 p _ Hp2 (not_elem_of_empty p)).
Qed.

(** *** Losing and changing places *)

Definition remembers f : bool := negb (remember (conf f) =? 0).

(** An entry that loses its name, and with it the lookup that remembers it. *)
Definition unnamed (rem : bool) (e : entry) : entry := Entry (count e - (if rem then 1 else 0)) None (gen e).

Definition spare (rem : bool) (e : entry) : Prop := (if rem then 1 else 0) < count e.

(** The kernel holds the node. *)
Definition holds (A : tree) (d : Z) : Prop := exists e, A !! d = Some e /\ count e <> 0.

Lemma holds_node f d : tree_ok f -> holds (abs f) d -> exists p n, nodes f !! p = Some n /\ nodeid n = d /\ nlookup n <> 0.
Proof. intros Hf (e & He & Hc). apply abs_iff in He as (p & n & Hn & Hi & ->); [eauto|by apply tree_num]. Qed.

Lemma placed_not_root f p n k : tree_ok f -> nodes f !! p = Some n -> key_in (nodes f) p = Some k -> nodeid n <> FUSE_ROOT_ID.
Proof.
  intros Hf Hn Hk. destruct k as [d nm]. destruct (key_in_inv _ _ _ _ Hk) as (n' & dp & dn & Hn' & Hd & _). simplify_eq.
  destruct (proj1 (t_name _ _ _ _ _ Hf p _ Hn)) as [_ ?]; [by exists dp|done].
Qed.

(** [unname_ok] for an entry in a directory that the kernel holds. *)
Lemma unname_holds f p n d nm : tree_ok f -> acyclic (abs f) -> nodes f !! p = Some n -> key_in (nodes f) p = Some (d, nm) ->
  nlookup n <> 0 -> holds (abs f) d ->
  exists f', unhash_name p f = Some (tt, f') /\ tree_ok f' /\ acyclic (abs f') /\ env f' = env f /\ steady (nodes f) (nodes f') /\
    (exists n', nodes f' !! p = Some n' /\ nodeid n' = nodeid n /\ nlookup n' = nlookup n /\ generation n' = generation n /\
       parent n' = None /\ name n' = None) /\
    (forall q m, nodes f !! q = Some m -> q <> p -> exists r, nodes f' !! q = Some (with_refctr r m)) /\
    abs f' = <[nodeid n := Entry (nlookup n) None (generation n)]> (abs f).
Proof.
  intros Hf Ha Hn Hk Hl (e & He & Hc). pose proof (tree_num f Hf) as Hin.
  destruct (unname_ok f p n Hf Ha Hn) as (f' & E & Hf' & Ha' & Hev & (r & Hp) & Hother & Hkeep & HA); try done.
  - by apply (placed_not_root f p n (d, nm)).
  - intros d' dn' Hd' Hdn'. destruct (key_in_inv _ _ _ _ Hk) as (n' & dp & dn & Hn' & Hdp & Hdn & Hi & _). assert (n' = n) as -> by congruence.
    assert (dp = d') as -> by congruence. assert (dn = dn') as -> by congruence. subst d.
    unfold abs in He. rewrite (abs_Some _ _ _ Hin Hdn) in He. by injection He as <-.
  - exists f'. split; [done|]. split; [done|]. split; [done|]. split; [done|]. split; [|split; [by eexists|split; [|done]]].
    + split.
      * intros q m Hm. destruct (decide (q = p)) as [->|Hq]; [rewrite Hp; eexists; split; [done|]; by simplify_eq|].
        destruct (Hkeep q) as [m' Hm']; [by exists m|]. destruct (Hother q m' Hm' Hq) as (k & Hkq & E'). exists m'. split; [done|]. rewrite E'. by simplify_eq.
      * intros q m' Hm' Hq. destruct (decide (q = p)) as [->|Hne]; [congruence|]. destruct (Hother q m' Hm' Hne) as (k & Hkq & _). congruence.
    + intros q m Hm Hq. destruct (Hkeep q) as [m' Hm']; [by exists m|]. destruct (Hother q m' Hm' Hq) as (k & Hkq & E'). exists (refctr m'). congruence.
Qed.

(** The count of one entry is lowered but not to zero. *)
Lemma lower_ok f p n c : tree_ok f -> acyclic (abs f) -> nodes f !! p = Some n -> nlookup n <> 0 -> 0 < c < 2 ^ 64 ->
  exists f', update p (with_nlookup c) f = Some (tt, f') /\ tree_ok f' /\ acyclic (abs f') /\ env f' = env f /\ steady (nodes f) (nodes f') /\
    nodes f' = <[p := with_nlookup c n]> (nodes f) /\
    abs f' = <[nodeid n := Entry c (key_in (nodes f) p) (generation n)]> (abs f).
Proof.
  intros Hf Ha Hn Hl Hc. rewrite (update_eq f p _ n Hn). eexists. split; [reflexivity|].
  assert (abs (set_nodes (<[p := with_nlookup c n]> (nodes f)) f) = <[nodeid n := Entry c (key_in (nodes f) p) (generation n)]> (abs f)) as HA.
  { unfold abs. cbn. by rewrite (abs_update (nodes f) p n) by (done || by apply tree_num). }
  rewrite HA. split; [|split; [|split; [done|split; [|done]]]].
  - apply (tree_inv_update ∅ ∅ ∅ (fun _ => 0) (fun _ => 0) f p n); try done; cbn.
    + unfold looked_up. cbn. destruct (Z.eqb_spec (nlookup n) 0), (Z.eqb_spec c 0); lia.
    + intros _. apply (t_pos _ _ _ _ _ Hf p n Hn), not_elem_of_empty.
    + lia.
    + lia.
  - apply (acyclic_update _ _ (entry_of (nodes f) p n)); [by apply tree_num|apply abs_Some; [by apply tree_num|done]|done|done].
  - by eapply steady_insert.
Qed.

Lemma holds_update A i e e' d : A !! i = Some e -> (count e <> 0 -> count e' <> 0) -> holds A d -> holds (<[i := e']> A) d.
Proof.
  intros Hi Hc (ed & Hd & Hcd). destruct (decide (d = i)) as [->|]; [|exists ed; by rewrite lookup_insert_ne].
  exists e'. rewrite lookup_insert_eq. split; [done|]. apply Hc. congruence.
Qed.

Lemma unlink_node_ok f p n d nm : tree_ok f -> acyclic (abs f) -> nodes f !! p = Some n -> key_in (nodes f) p = Some (d, nm) ->
  spare (remembers f) (entry_of (nodes f) p n) -> holds (abs f) d ->
  exists f', unlink_node p f = Some (tt, f') /\ tree_ok f' /\ acyclic (abs f') /\ env f' = env f /\ steady (nodes f) (nodes f') /\
    (exists n', nodes f' !! p = Some n' /\ nodeid n' = nodeid n) /\
    (forall q m, nodes f !! q = Some m -> q <> p -> exists r, nodes f' !! q = Some (with_refctr r m)) /\
    abs f' = <[nodeid n := unnamed (remembers f) (entry_of (nodes f) p n)]> (abs f).
Proof.
  intros Hf Ha Hn Hk Hs Hd. unfold unlink_node. rewrite bind_get. unfold spare, unnamed, remembers in *. cbn in Hs.
  pose proof (t_nlookup _ _ _ _ _ Hf p n Hn). destruct (negb (remember (conf f) =? 0)).
  - rewrite bind_assoc, (bind_step _ _ _ _ _ (node_at_eq f p n Hn)), bind_assoc.
    destruct (Z.ltb_spec 1 (nlookup n)); [|lia]. cbn [check]. rewrite bind_ret.
    destruct (lower_ok f p n (nlookup n - 1)) as (f1 & E1 & Hf1 & Ha1 & He1 & Hu1 & HN1 & HA1); try done; try lia. rewrite (bind_step _ _ _ _ _ E1).
    set (n1 := with_nlookup (nlookup n - 1) n). assert (nodes f1 !! p = Some n1) as Hn1 by (rewrite HN1; apply lookup_insert_eq).
    assert (key_in (nodes f1) p = Some (d, nm)) as Hk1.
    { rewrite HN1, <- Hk. symmetry. apply same_shape_key. by eapply same_shape_insert. }
    destruct (unname_holds f1 p n1 d nm) as (f2 & E2 & Hf2 & Ha2 & He2 & Hu2 & (n' & Hn' & Hi' & _) & Ho2 & HA2); try done; [cbn; lia| |].
    { rewrite HA1. apply (holds_update _ _ (entry_of (nodes f) p n)); [apply abs_Some; [by apply tree_num|done]|cbn; lia|done]. }
    exists f2. split; [done|]. split; [done|]. split; [done|]. split; [congruence|]. split; [by eapply steady_trans|].
    split; [by exists n'|]. split; [intros q m Hm Hq; apply Ho2; [rewrite HN1, lookup_insert_ne by done|]; done|].
    rewrite HA2, HA1. cbn. by rewrite insert_insert_eq.
  - rewrite bind_ret. destruct (unname_holds f p n d nm) as (f2 & E2 & Hf2 & Ha2 & He2 & Hu2 & (n' & Hn' & Hi' & _) & Ho2 & HA2); try done; [lia|].
    exists f2. split; [done|]. split; [done|]. split; [done|]. split; [done|]. split; [done|]. split; [by exists n'|]. split; [done|]. rewrite HA2. cbn. by rewrite Z.sub_0_r.
Qed.

Lemma below_unplace (A : tree) i j k e' : place e' = None -> below (<[k := e']> A) i j -> below A i j.
Proof.
  intros He. induction 1 as [|j e d nm [[<- <-]|[_ Hj]]%lookup_insert_Some Hp _ IH]; [constructor|congruence|]. by apply (below_dir A i j e d nm).
Qed.

Lemma vacant_unplace (A : tree) k e' d nm : place e' = None -> vacant A d nm -> vacant (<[k := e']> A) d nm.
Proof. intros He Hv j e [[<- <-]|[_ Hj]]%lookup_insert_Some; [congruence|by apply (Hv j)]. Qed.

(** A node without a place gets one in a directory, or memory is short. *)
Lemma move_ok f p n nd nn : tree_ok f -> acyclic (abs f) -> nodes f !! p = Some n -> parent n = None -> name n = None ->
  nodeid n <> FUSE_ROOT_ID -> is_Some (abs f !! nd) -> ~ below (abs f) (nodeid n) nd -> vacant (abs f) nd nn ->
  exists r f', hash_name p nd nn f = Some (r, f') /\ tree_ok f' /\ acyclic (abs f') /\ env f' = env f /\ steady (nodes f) (nodes f') /\
    (exists n', nodes f' !! p = Some n' /\ nodeid n' = nodeid n) /\
    (r = -1 /\ nodes f' = nodes f \/
     r = 0 /\ abs f' = <[nodeid n := Entry (nlookup n) (Some (nd, nn)) (generation n)]> (abs f) /\
     forall q m, nodes f !! q = Some m -> q <> p -> exists r, nodes f' !! q = Some (with_refctr r m)).
Proof.
  intros Hf Ha Hn Hp Hnm Hr [e He] Hb Hv. apply abs_iff in He as (d & dn & Hdn & <- & _); [|by apply tree_num].
  destruct (name_ok f p n d dn nn) as (r & f' & E & Hf' & Ha' & He & Hu & Hcase); try done.
  exists r, f'. split; [done|]. split; [done|]. split; [done|]. split; [done|]. split; [done|].
  destruct Hcase as [[-> HN]|(-> & HN & HA)]; rewrite HN; [split; [eauto|by left]|]. split; [eexists; split; [apply placed_p|done]|right].
  split; [done|]. split; [done|]. intros q m Hm Hq. destruct (decide (q = d)) as [->|Hqd].
  - exists (refctr dn + 1). rewrite placed_d by done. congruence.
  - exists (refctr m). rewrite placed_other by done. by rewrite with_refctr_self.
Qed.

Lemma env_conf f f' : env f' = env f -> conf f' = conf f.
Proof. by intros [= E _ _ _ _ _ _]. Qed.

Lemma env_remembers f f' : env f' = env f -> remembers f' = remembers f.
Proof. intros E%env_conf. unfold remembers. by rewrite E. Qed.

(** The tree after [i] has got the place [k]. *)
Definition set_place (i : Z) (k : option (Z * bytes)) (A : tree) : tree :=
  match A !! i with Some e => <[i := Entry (count e) k (gen e)]> A | None => A end.

(** The last two steps of a rename: [i] leaves its place for another. *)
Lemma rename_move_ok f p n od on nd nn hide : tree_ok f -> acyclic (abs f) -> nodes f !! p = Some n -> key_in (nodes f) p = Some (od, on) ->
  nlookup n <> 0 -> holds (abs f) od -> holds (abs f) nd -> ~ below (abs f) (nodeid n) nd -> vacant (abs f) nd nn ->
  exists r f', (_ ← unhash_name p; e ← hash_name p nd nn; if e =? -1 then mret (- ENOMEM) else
      _ ← (if hide : bool then update p (with_hidden true) else mret tt); mret 0) f = Some (r, f') /\
    tree_ok f' /\ acyclic (abs f') /\ env f' = env f /\ steady (nodes f) (nodes f') /\
    (r = 0 /\ abs f' = set_place (nodeid n) (Some (nd, nn)) (abs f) \/ r = - ENOMEM /\ abs f' = set_place (nodeid n) None (abs f)).
Proof.
  intros Hf Ha Hn Hk Hl Hod Hnd Hb Hv. pose proof (tree_num f Hf) as Hin.
  destruct (unname_holds f p n od on) as (f1 & E1 & Hf1 & Ha1 & He1 & Hu1 & (n1 & Hn1 & Ei1 & El1 & Eg1 & Hp1 & Hnm1) & _ & HA1); try done.
  rewrite (bind_step _ _ _ _ _ E1).
  assert (abs f !! nodeid n = Some (entry_of (nodes f) p n)) as Hin0 by by apply abs_Some.
  destruct (move_ok f1 p n1 nd nn) as (r & f2 & E2 & Hf2 & Ha2 & He2 & Hu2 & (n2 & Hn2 & _) & Hcase); try done.
  - rewrite Ei1. by apply (placed_not_root f p n (od, on)).
  - rewrite HA1. destruct Hnd as (e & He & _). destruct (decide (nd = nodeid n)) as [->|]; [rewrite lookup_insert_eq|rewrite lookup_insert_ne by done]; by eexists.
  - rewrite HA1, Ei1. intros Hb'. apply Hb. by eapply below_unplace, Hb'.
  - rewrite HA1. by apply vacant_unplace.
  - rewrite (bind_step _ _ _ _ _ E2). unfold set_place. rewrite Hin0. cbn [count gen entry_of].
    destruct Hcase as [[-> HN]|(-> & HA & _)].
    + change (-1 =? -1) with true. cbv iota. eexists _, f2. split; [reflexivity|]. split; [done|]. split; [done|]. split; [congruence|].
      split; [by eapply steady_trans|]. right. split; [done|]. unfold abs at 1. rewrite HN. exact HA1.
    + change (0 =? -1) with false. cbv iota. rewrite HA1, Ei1, El1, Eg1, insert_insert_eq in HA.
      assert (exists f3, (if hide : bool then update p (with_hidden true) else mret tt) f2 = Some (tt, f3) /\ tree_ok f3 /\ abs f3 = abs f2 /\
        env f3 = env f2 /\ steady (nodes f2) (nodes f3)) as (f3 & E3 & Hf3 & HA3 & He3 & Hu3).
      { destruct hide; [|exists f2; split; [done|]; split; [done|]; split; [done|]; split; [done|apply steady_refl]]. rewrite (update_eq f2 p _ n2 Hn2). eexists. split; [reflexivity|]. split; [|split; [|split; [done|]]].
        - apply (tree_inv_update ∅ ∅ ∅ (fun _ => 0) (fun _ => 0) f2 p n2); try done; cbn.
          + intros _. apply (t_pos _ _ _ _ _ Hf2 p n2 Hn2), not_elem_of_empty.
          + apply (t_nlookup _ _ _ _ _ Hf2 p n2 Hn2).
        - unfold abs. cbn. rewrite (abs_update (nodes f2) p n2) by (done || by apply tree_num). exact (insert_id _ _ _ (abs_Some _ _ _ (tree_num _ Hf2) Hn2)).
        - by eapply steady_insert. }
      rewrite (bind_step _ _ _ _ _ E3). eexists _, f3. split; [reflexivity|]. split; [done|]. split; [by rewrite HA3|]. split; [congruence|].
      split; [eapply steady_trans; [exact Hu1|]; by eapply steady_trans|]. left. split; [done|]. by rewrite HA3, HA.
Qed.

(** *** Exchange *)

(** What every operation keeps. *)
Definition good f f' : Prop := tree_ok f' /\ acyclic (abs f') /\ env f' = env f /\ steady (nodes f) (nodes f').

Definition ptr f (p i : Z) : Prop := exists n, nodes f !! p = Some n /\ nodeid n = i.

Definition keeps f f' : Prop := good f f' /\ forall q j, ptr f q j -> ptr f' q j.

Lemma keeps_refl f : tree_ok f -> acyclic (abs f) -> keeps f f.
Proof. intros Hf Ha. split; [|done]. split; [done|]. split; [done|]. split; [done|apply steady_refl]. Qed.

Lemma keeps_trans f f1 f2 : keeps f f1 -> keeps f1 f2 -> keeps f f2.
Proof.
  intros [(? & ? & E1 & ?) ?] [(? & ? & E2 & ?) ?]. split; [|auto]. split; [done|]. split; [done|]. split; [by rewrite E2|by eapply steady_trans].
Qed.

Lemma ptr_abs f p i e : tree_ok f -> ptr f p i -> abs f !! i = Some e -> exists n, nodes f !! p = Some n /\ nodeid n = i /\ e = entry_of (nodes f) p n.
Proof.
  intros Hf (n & Hn & Hi) (q & m & Hm & Hj & ->)%abs_iff; [|by apply tree_num].
  assert (p = q) as <- by (apply (tree_num f Hf p q n m); congruence). eauto.
Qed.

(** A node above another is not below it. *)
Lemma acyclic_up (A : tree) i e d nm : acyclic A -> A !! i = Some e -> place e = Some (d, nm) -> ~ below A i d.
Proof.
  intros Ha Hi Hp Hb. destruct (Ha i) as [k Hk]; [by exists e|].
  assert (forall j m, below A i j -> depth A m j -> exists k', (k' <= m)%nat /\ depth A k' i) as Hup.
  { intros j m Hj. revert m. induction Hj as [|j ej dj nj Hj Hpj _ IH]; intros m Hm; [exists m; split; [lia|done]|].
    inversion Hm; simplify_eq. destruct (IH k0) as (k' & ? & ?); [done|]. exists k'. split; [lia|done]. }
  inversion Hk; simplify_eq. destruct (Hup d k0 Hb) as (k' & Hle & Hk'); [done|]. pose proof (depth_fun A _ _ i Hk Hk'). lia.
Qed.

Lemma below_place (A : tree) i j k e' : ~ below A i k -> below (<[i := e']> A) j k -> below A j k.
Proof.
  intros Hn Hb. induction Hb as [|k e d nm Hk Hp _ IH]; [constructor|].
  destruct (decide (k = i)) as [->|Hne]; [destruct Hn; constructor|]. rewrite lookup_insert_ne in Hk by done.
  apply (below_dir A j k e d nm Hk Hp), IH. intros Hd. apply Hn. by apply (below_dir A i k e d nm).
Qed.

Lemma detach_ok f p i e d nm : tree_ok f -> acyclic (abs f) -> ptr f p i -> abs f !! i = Some e -> place e = Some (d, nm) ->
  count e <> 0 -> holds (abs f) d -> exists f', unhash_name p f = Some (tt, f') /\ keeps f f' /\ abs f' = set_place i None (abs f).
Proof.
  intros Hf Ha Hpi He Hp Hc Hd. destruct (ptr_abs f p i e Hf Hpi He) as (n & Hn & <- & ->). unfold set_place. rewrite He.
  destruct (unname_holds f p n d nm) as (f' & E & Hf' & Ha' & He' & Hu & (n' & Hn' & Hi & _) & Hother & HA); try done.
  exists f'. split; [done|]. split; [|done]. split; [done|]. intros q j (m & Hm & Hj). destruct (decide (q = p)) as [->|Hq].
  - exists n'. split; [done|]. congruence.
  - destruct (Hother q m Hm Hq) as [r Hr]. by exists (with_refctr r m).
Qed.

Lemma attach_ok f p i e d nm : tree_ok f -> acyclic (abs f) -> ptr f p i -> abs f !! i = Some e -> place e = None -> i <> FUSE_ROOT_ID ->
  is_Some (abs f !! d) -> ~ below (abs f) i d -> vacant (abs f) d nm ->
  exists r f', hash_name p d nm f = Some (r, f') /\ keeps f f' /\
    (r = -1 /\ abs f' = abs f \/ r = 0 /\ abs f' = set_place i (Some (d, nm)) (abs f)).
Proof.
  intros Hf Ha Hpi He Hp Hr Hd Hb Hv. destruct (ptr_abs f p i e Hf Hpi He) as (n & Hn & <- & ->). unfold set_place. rewrite He.
  apply (key_in_none _ p n (tree_closed f Hf) Hn) in Hp. assert (name n = None) as Hnm.
  { destruct (name n) eqn:En; [|done]. destruct (proj2 (t_name _ _ _ _ _ Hf p n Hn)) as [x Hx]; [by rewrite En|congruence]. }
  destruct (move_ok f p n d nm) as (r & f' & E & Hf' & Ha' & He' & Hu & (n' & Hn' & Hi) & Hcase); try done.
  exists r, f'. split; [done|]. split; [|destruct Hcase as [[-> HN]|(-> & HA & _)]; [left; unfold abs; by rewrite HN|by right]].
  split; [done|]. intros q j (m & Hm & Hj). destruct (decide (q = p)) as [->|Hq]; [exists n'; split; [done|]; congruence|].
  destruct Hcase as [[-> HN]|(-> & _ & Hother)]; [exists m; by rewrite HN|]. destruct (Hother q m Hm Hq) as [x Hx]. by exists (with_refctr x m).
Qed.

End Operations.
