(* ===== verification/Slab.v ===== *)
(** * The memory of nodes: the slab allocator of fuse.c

    Nodes live in slabs of one page.  A slab starts with its header; the rest is
    cut into cells of the size of a node, and the cells that are free form a
    list.  Slabs with a free cell are in the list [partial_slabs], the others in
    [full_slabs], and a slab whose last node goes is given back to the system.
    The header of the slab of a node is found by clearing the low bits of the
    address.

    [mmap] and [munmap] are the system's: what a call of [mmap] returns is a
    parameter, with the law that a page is new and aligned.  This file
    implements the interface [NodeMem] and discharges [NodeMemLaws]. *)

From S2P Require Import Prelude NodeTable Wire Locks Node NodeTree.

(** The outcome of the [k]-th call of [mmap] for [sz] bytes, when the pages in
    [P] are mapped; [None] is [MAP_FAILED]. *)
Class Pages := { mmap : nat -> Z -> gset Z -> option Z }.

Definition page_size (sz : Z) : Prop := exists s, 12 <= s <= 30 /\ sz = 2 ^ s.

Class PagesLaws `{Pages} := {
  mmap_law : forall k sz P a, page_size sz -> mmap k sz P = Some a ->
    (a ∉ P) /\ 0 < a /\ a + sz <= 2 ^ 64 /\ a mod sz = 0 }.

(** [struct node_slab], at its address; [slab->list] is the order of the two
    lists of slabs. *)
Record node_slab := NodeSlab { freelist : list Z; used : Z }.

(** The fields of [struct fuse] the allocator uses; [lru] says that nodes have
    room for the list of forgotten nodes.  [mapped] is what is at the addresses
    mapped and [calls] the number of calls of [mmap] so far. *)
Record slab_mem := SlabMem {
  pagesize : Z; lru : bool; partial_slabs : list Z; full_slabs : list Z; mapped : gmap Z node_slab; calls : nat }.

(** Sizes on a 64-bit machine. *)
Definition sizeof_node_slab : Z := 40.
Definition sizeof_node : Z := 152.
Definition sizeof_node_lru : Z := 184.

Definition get_node_size (m : slab_mem) : Z := if lru m then sizeof_node_lru else sizeof_node.

Definition node_to_slab (m : slab_mem) (p : Z) : Z := Z.land p (Z.lnot (pagesize m - 1)).

(** The addresses of the cells of a slab at [mem]. *)
Definition cells (psz nsz mem : Z) : list Z :=
  let num := (psz - sizeof_node_slab) / nsz in
  let start := mem + psz - num * nsz in
  (fun i => start + Z.of_nat i * nsz) <$> seq 0 (Z.to_nat num).

Section Code.
Context `{Pages}.

(** [None] of the result is -1. *)
Definition alloc_slab (m : slab_mem) : option slab_mem * slab_mem :=
  let m' := SlabMem (pagesize m) (lru m) (partial_slabs m) (full_slabs m) (mapped m) (S (calls m)) in
  match mmap (calls m) (pagesize m) (dom (mapped m)) with
  | None => (None, m')
  | Some mem =>
      let sl := NodeSlab (cells (pagesize m) (get_node_size m) mem) 0 in
      (Some (SlabMem (pagesize m) (lru m) (partial_slabs m ++ [mem]) (full_slabs m) (<[mem := sl]> (mapped m)) (S (calls m))), m')
  end.

(** [alloc_node] when [partial_slabs] is not empty; [None] is an access outside
    the mapped pages. *)
Definition take_node (m : slab_mem) : option (Z * slab_mem) :=
  a ← head (partial_slabs m);
  sl ← mapped m !! a;
  match freelist sl with
  | [] => None
  | p :: l =>
      let sl' := NodeSlab l (i32 (used sl + 1)) in
      let part := if decide (l = []) then filter (fun b => b <> a) (partial_slabs m) else partial_slabs m in
      let full := if decide (l = []) then full_slabs m ++ [a] else full_slabs m in
      Some (p, SlabMem (pagesize m) (lru m) part full (<[a := sl']> (mapped m)) (calls m))
  end.

Definition slab_alloc (m : slab_mem) : option (option Z * slab_mem) :=
  match partial_slabs m with
  | [] =>
      match alloc_slab m with
      | (None, m) => Some (None, m)
      | (Some m, _) => r ← take_node m; Some (Some r.1, r.2)
      end
  | _ :: _ => r ← take_node m; Some (Some r.1, r.2)
  end.

(** [munmap] of a page that is mapped does not fail. *)
Definition free_slab (a : Z) (m : slab_mem) : slab_mem :=
  SlabMem (pagesize m) (lru m) (filter (fun b => b <> a) (partial_slabs m)) (filter (fun b => b <> a) (full_slabs m))
    (delete a (mapped m)) (calls m).

Definition slab_free (p : Z) (m : slab_mem) : option slab_mem :=
  let a := node_to_slab m p in
  sl ← mapped m !! a;
  let u := i32 (used sl - 1) in
  Some (if negb (u =? 0) then
          let part := if decide (freelist sl = []) then filter (fun b => b <> a) (partial_slabs m) ++ [a] else partial_slabs m in
          let full := if decide (freelist sl = []) then filter (fun b => b <> a) (full_slabs m) else full_slabs m in
          SlabMem (pagesize m) (lru m) part full (<[a := NodeSlab (p :: freelist sl) u]> (mapped m)) (calls m)
        else free_slab a (SlabMem (pagesize m) (lru m) (partial_slabs m) (full_slabs m) (<[a := NodeSlab (freelist sl) u]> (mapped m)) (calls m))).

#[export] Instance slab_node_mem : NodeMem slab_mem := { alloc_node := slab_alloc; free_node_mem := slab_free }.

End Code.

(** What [fuse_new_31] leaves. *)
Definition no_slabs (sz : Z) (l : bool) : slab_mem := SlabMem sz l [] [] ∅ 0.

(** ** Cells *)

Section Cells.
Context (m : slab_mem) (Hsz : page_size (pagesize m)).
Abbreviation psz := (pagesize m).
Abbreviation nsz := (get_node_size m).
Abbreviation num := ((psz - sizeof_node_slab) / nsz).

Lemma node_size_range : 152 <= nsz <= 184.
Proof. unfold get_node_size, sizeof_node, sizeof_node_lru. destruct (lru m); lia. Qed.

Lemma page_range : 4096 <= psz <= 2 ^ 30.
Proof using Hsz.
  destruct Hsz as (s & Hs & ->). split; [change 4096 with (2 ^ 12)|]; apply Z.pow_le_mono_r; lia.
Qed.

Lemma num_range : 0 < num < 2 ^ 30 /\ num * nsz <= psz - sizeof_node_slab.
Proof using Hsz.
  pose proof node_size_range. pose proof page_range. unfold sizeof_node_slab.
  pose proof (Z.mul_div_le (psz - 40) nsz ltac:(lia)). pose proof (Z.mul_succ_div_gt (psz - 40) nsz ltac:(lia)). nia.
Qed.

Lemma elem_of_cells a p : p ∈ cells psz nsz a <-> exists i, 0 <= i < num /\ p = a + psz - num * nsz + i * nsz.
Proof using Hsz.
  pose proof num_range. unfold cells. rewrite list_elem_of_fmap. split.
  - intros (i & -> & Hi%elem_of_seq). exists (Z.of_nat i). split; [lia|done].
  - intros (i & Hi & ->). exists (Z.to_nat i). rewrite elem_of_seq. split; [|lia]. by rewrite Z2Nat.id by lia.
Qed.

Lemma cells_length a : length (cells psz nsz a) = Z.to_nat num.
Proof. unfold cells. by rewrite length_fmap, length_seq. Qed.

Lemma cells_NoDup a : NoDup (cells psz nsz a).
Proof. pose proof node_size_range. apply NoDup_fmap_2_strong; [|apply NoDup_seq]. intros i j _ _ E. nia. Qed.

Lemma cells_in a p : p ∈ cells psz nsz a -> a + sizeof_node_slab <= p /\ p + nsz <= a + psz.
Proof using Hsz. pose proof num_range. pose proof node_size_range. intros (i & Hi & ->)%elem_of_cells. nia. Qed.

(** Two cells are the same or do not overlap. *)
Lemma cells_apart a p q : p ∈ cells psz nsz a -> q ∈ cells psz nsz a -> p <> q -> p + nsz <= q \/ q + nsz <= p.
Proof using Hsz. intros (i & Hi & ->)%elem_of_cells (j & Hj & ->)%elem_of_cells Hne. pose proof node_size_range. destruct (Z.lt_total i j) as [?|[->|?]]; nia. Qed.

(** Clearing the low bits of an address in a page finds the page. *)
Lemma node_to_slab_eq a p : a mod psz = 0 -> a <= p < a + psz -> node_to_slab m p = a.
Proof using Hsz.
  intros Ha Hp. unfold node_to_slab. destruct Hsz as (s & Hs & Es). rewrite Es in *.
  replace (2 ^ s - 1) with (Z.ones s) by (rewrite Z.ones_equiv; lia).
  rewrite <- Z.ldiff_land, Z.ldiff_ones_r, Z.shiftr_div_pow2, Z.shiftl_mul_pow2 by lia.
  apply Z.mod_divide in Ha; [|lia]. destruct Ha as [k ->].
  replace (p / 2 ^ s) with k; [done|]. apply (Z.div_unique p (2 ^ s) k (p - k * 2 ^ s)); lia.
Qed.
End Cells.

(** ** The invariant *)

Record slab_ok (psz nsz a : Z) (sl : node_slab) : Prop := {
  s_addr : 0 < a /\ a + psz <= 2 ^ 64 /\ a mod psz = 0;
  s_nodup : NoDup (freelist sl);
  s_cells : forall p, p ∈ freelist sl -> p ∈ cells psz nsz a;
  s_used : used sl = Z.of_nat (length (cells psz nsz a)) - Z.of_nat (length (freelist sl)) }.

(** [p] is handed out from the slab at [a]. *)
Definition taken_from (m : slab_mem) (a p : Z) : Prop :=
  exists sl, mapped m !! a = Some sl /\ p ∈ cells (pagesize m) (get_node_size m) a /\ p ∉ freelist sl.

(** The nodes handed out are those in [S].  Slabs in [W] may have none of their
    nodes handed out. *)
Record slabs_inv (W : gset Z) (m : slab_mem) (S : gset Z) : Prop := {
  m_page : page_size (pagesize m);
  m_slab : forall a sl, mapped m !! a = Some sl -> slab_ok (pagesize m) (get_node_size m) a sl;
  m_used : forall a sl, mapped m !! a = Some sl -> a ∉ W -> 0 < used sl;
  m_lists : NoDup (partial_slabs m ++ full_slabs m);
  m_partial : forall a, a ∈ partial_slabs m <-> exists sl, mapped m !! a = Some sl /\ freelist sl <> [];
  m_full : forall a, a ∈ full_slabs m <-> exists sl, mapped m !! a = Some sl /\ freelist sl = [];
  m_taken : forall p, p ∈ S <-> exists a, taken_from m a p }.

Abbreviation slabs_ok := (slabs_inv ∅).

Lemma no_slabs_ok sz l : page_size sz -> slabs_ok (no_slabs sz l) ∅.
Proof.
  intros Hsz. split; cbn; try done; [constructor| | |].
  - intros a. rewrite elem_of_nil. split; [done|]. by intros (? & ? & _).
  - intros a. rewrite elem_of_nil. split; [done|]. by intros (? & ? & _).
  - intros p. split; [set_solver|]. by intros (a & ? & ? & _).
Qed.

(** A node is in one slab only. *)
Lemma taken_slab W m S a p : slabs_inv W m S -> taken_from m a p -> node_to_slab m p = a.
Proof.
  intros Hm (sl & Hsl & Hp & _). pose proof (m_page W m S Hm) as Hsz. pose proof (node_size_range m).
  destruct (s_addr _ _ a sl (m_slab W m S Hm a sl Hsl)) as (_ & _ & Ha). apply (node_to_slab_eq m Hsz a p Ha).
  pose proof (cells_in m Hsz a p Hp). unfold sizeof_node_slab in *. lia.
Qed.

(** A slab list without a slab, and with a slab at its end. *)
Lemma filter_out (a : Z) (l : list Z) : a ∉ l -> filter (fun b => b <> a) l = l.
Proof. intros Ha. apply filter_all. by intros b Hb ->. Qed.

Lemma lists_del (a : Z) (l1 l2 : list Z) : NoDup (l1 ++ l2) -> NoDup (filter (fun b => b <> a) l1 ++ filter (fun b => b <> a) l2).
Proof.
  rewrite <- filter_app. apply NoDup_filter.
Qed.

Lemma lists_move (a : Z) (l1 l2 : list Z) : NoDup (l1 ++ l2) -> a ∈ l1 -> NoDup (filter (fun b => b <> a) l1 ++ (l2 ++ [a])).
Proof.
  intros (H1 & H12 & H2)%NoDup_app Ha. apply NoDup_app. split; [by apply NoDup_filter|]. split.
  - intros b [Hb Hb1]%list_elem_of_filter [Hb2| ->%list_elem_of_singleton]%elem_of_app; [by apply (H12 b)|done].
  - apply NoDup_app. split; [done|]. split; [|apply NoDup_singleton]. intros b Hb ->%list_elem_of_singleton. by apply (H12 a).
Qed.

Section Laws.
Context `{PagesLaws}.

Lemma alloc_slab_ok m S : slabs_ok m S -> partial_slabs m = [] ->
  match alloc_slab m with
  | (None, m') => slabs_ok m' S
  | (Some m', _) => exists a, partial_slabs m' = [a] /\ slabs_inv {[a]} m' S
  end.
Proof.
  intros Hm Hp. unfold alloc_slab. destruct (mmap _ _ _) as [a|] eqn:E; [|destruct Hm; by split].
  destruct (mmap_law _ _ _ _ (m_page _ m S Hm) E) as (Hd & Ha). apply not_elem_of_dom in Hd.
  set (c := cells (pagesize m) (get_node_size m) a). assert (c <> []) as Hc.
  { intros Hc. pose proof (cells_length m a) as Hl. pose proof (num_range m (m_page _ m S Hm)). fold c in Hl. rewrite Hc in Hl. cbn in Hl. lia. }
  exists a. cbn. rewrite Hp. split; [done|].
  assert (forall b sl, <[a := NodeSlab c 0]> (mapped m) !! b = Some sl <-> b = a /\ sl = NodeSlab c 0 \/ b <> a /\ mapped m !! b = Some sl) as HL.
  { intros b sl. rewrite lookup_insert_Some. naive_solver. }
  split; cbn; [apply (m_page _ m S Hm)|..].
  - intros b sl [[-> ->]|[_ Hb]]%HL; [|by apply (m_slab _ m S Hm)]. split; [done|apply cells_NoDup|done|]. symmetry. apply Z.sub_diag.
  - intros b sl [[-> ->]|[_ Hb]]%HL; [set_solver|]. intros _. by apply (m_used _ m S Hm b).
  - apply NoDup_cons. split; [|pose proof (m_lists _ m S Hm) as Hl; by rewrite Hp in Hl].
    intros (sl & Hsl & _)%(m_full _ m S Hm). congruence.
  - intros b. rewrite list_elem_of_singleton. split.
    + intros ->. exists (NodeSlab c 0). rewrite HL. auto.
    + intros (sl & [[-> _]|[_ Hb]]%HL & Hf); [done|]. assert (b ∈ partial_slabs m) as Hb' by (apply (m_partial _ m S Hm); eauto).
      rewrite Hp in Hb'. by apply elem_of_nil in Hb'.
  - intros b. rewrite (m_full _ m S Hm). split.
    + intros (sl & Hb & Hf). exists sl. rewrite HL. split; [right; split; [congruence|done]|done].
    + intros (sl & [[-> ->]|[_ Hb]]%HL & Hf); [done|eauto].
  - intros p. rewrite (m_taken _ m S Hm). split.
    + intros (b & sl & Hb & ?). exists b, sl. cbn. rewrite HL. split; [right; split; [congruence|done]|done].
    + intros (b & sl & Hsl & Hpc & Hpf). cbn in Hsl, Hpc. apply HL in Hsl as [[-> ->]|[_ Hb]]; [done|]. by exists b, sl.
Qed.

(** One slab changes. *)
Lemma change_ok W m S a sl sl' part full S' : slabs_inv W m S -> W ⊆ {[a]} -> mapped m !! a = Some sl ->
  slab_ok (pagesize m) (get_node_size m) a sl' -> 0 < used sl' -> NoDup (part ++ full) ->
  (forall b, b ∈ part <-> (b = a /\ freelist sl' <> [] \/ b <> a /\ b ∈ partial_slabs m)) ->
  (forall b, b ∈ full <-> (b = a /\ freelist sl' = [] \/ b <> a /\ b ∈ full_slabs m)) ->
  (forall p, p ∈ S' <-> (p ∈ cells (pagesize m) (get_node_size m) a /\ p ∉ freelist sl' \/ p ∈ S /\ node_to_slab m p <> a)) ->
  slabs_ok (SlabMem (pagesize m) (lru m) part full (<[a := sl']> (mapped m)) (calls m)) S'.
Proof.
  intros Hm HW Hsl Hs Hu Hnd Hpart Hfull HS.
  assert (forall b x, <[a := sl']> (mapped m) !! b = Some x <-> b = a /\ x = sl' \/ b <> a /\ mapped m !! b = Some x) as HL.
  { intros b x. rewrite lookup_insert_Some. naive_solver. }
  split; cbn; [apply (m_page _ m S Hm)| | |done|..].
  - intros b x [[-> ->]|[_ Hb]]%HL; [done|by apply (m_slab _ m S Hm)].
  - intros b x [[-> ->]|[Hne Hb]]%HL _; [done|]. apply (m_used _ m S Hm b x Hb). set_solver.
  - intros b. rewrite Hpart, (m_partial _ m S Hm). setoid_rewrite HL. naive_solver.
  - intros b. rewrite Hfull, (m_full _ m S Hm). setoid_rewrite HL. naive_solver.
  - intros p. rewrite HS, (m_taken _ m S Hm). unfold taken_from. cbn. setoid_rewrite HL. split.
    + intros [[Hp Hpf]|[(b & x & Hx & Hp & Hpf) Ha]]; [exists a, sl'; auto|]. exists b, x. split; [|done]. right. split; [|done].
      intros ->. apply Ha. apply (taken_slab _ m S a p Hm). by exists x.
    + intros (b & x & [[-> ->]|[Hb Hx]] & Hp & Hpf); [by left|right]. split; [by exists b, x|].
      rewrite (taken_slab _ m S b p Hm); [done|]. by exists x.
Qed.

(** A free cell of a slab. *)
Lemma cell_slab W m S a sl p : slabs_inv W m S -> mapped m !! a = Some sl -> p ∈ cells (pagesize m) (get_node_size m) a ->
  node_to_slab m p = a /\ (p ∈ S <-> p ∉ freelist sl).
Proof.
  intros Hm Hsl Hp. pose proof (m_page _ m S Hm) as Hsz. assert (node_to_slab m p = a) as Ea.
  { apply (node_to_slab_eq m Hsz); [apply (s_addr _ _ _ _ (m_slab _ m S Hm a sl Hsl))|]. pose proof (cells_in m Hsz a p Hp).
    pose proof (node_size_range m). unfold sizeof_node_slab in *. lia. }
  split; [done|]. rewrite (m_taken _ m S Hm). split; [|intros Hf; by exists a, sl].
  intros (b & Hb). pose proof (taken_slab _ m S b p Hm Hb) as Eb. destruct Hb as (x & Hx & _ & Hf). congruence.
Qed.

(** The counter of a slab does not overflow. *)
Lemma used_range W m S a sl : slabs_inv W m S -> mapped m !! a = Some sl -> 0 <= used sl < 2 ^ 30 /\
  (freelist sl <> [] -> used sl + 1 < 2 ^ 30).
Proof.
  intros Hm Hsl. pose proof (m_slab _ m S Hm a sl Hsl) as Hs. pose proof (num_range m (m_page _ m S Hm)) as [Hnum _].
  assert (length (freelist sl) <= length (cells (pagesize m) (get_node_size m) a))%nat as Hl.
  { apply submseteq_length, NoDup_submseteq; [apply (s_nodup _ _ _ _ Hs)|apply (s_cells _ _ _ _ Hs)]. }
  rewrite (s_used _ _ _ _ Hs), cells_length, Z2Nat.id by lia. rewrite cells_length in Hl.
  split; [lia|]. destruct (freelist sl); [done|]. cbn in *. lia.
Qed.

Lemma take_node_ok W m S a l : slabs_inv W m S -> W ⊆ {[a]} -> partial_slabs m = a :: l ->
  exists p m', take_node m = Some (p, m') /\ p ∉ S /\ slabs_ok m' ({[p]} ∪ S).
Proof.
  intros Hm HW Hp. assert (a ∈ partial_slabs m) as Hpa by (rewrite Hp; left).
  destruct (proj1 (m_partial _ m S Hm a) Hpa) as (sl & Hsl & Hf).
  pose proof (m_slab _ m S Hm a sl Hsl) as Hs. pose proof (used_range _ m S a sl Hm Hsl) as [Hu0 Hu].
  unfold take_node. rewrite Hp. cbn [head mbind option_bind]. rewrite <- Hp, Hsl. cbn [mbind option_bind].
  destruct (freelist sl) as [|p fl] eqn:Efl; [done|]. eexists p, _. split; [reflexivity|].
  assert (p ∈ cells (pagesize m) (get_node_size m) a) as Hpc by (apply (s_cells _ _ _ _ Hs); rewrite Efl; left).
  pose proof (s_nodup _ _ _ _ Hs) as Hnd. rewrite Efl in Hnd. apply NoDup_cons in Hnd as [Hpf Hnd]. specialize (Hu ltac:(done)).
  assert (i32 (used sl + 1) = used sl + 1) as -> by (apply swrap_id; [lia|]; change (2 ^ (32 - 1)) with (2 * 2 ^ 30); lia).
  assert (a ∉ full_slabs m) as Hnf by (intros (x & Hx & ?)%(m_full _ m S Hm); congruence).
  destruct (cell_slab _ m S a sl p Hm Hsl Hpc) as [Ea HpS]. rewrite Efl, not_elem_of_cons in HpS.
  split; [rewrite HpS; tauto|]. apply (change_ok W m S a sl); cbn; try done; [|lia|..].
  - split; cbn; [apply (s_addr _ _ _ _ Hs)|done| |rewrite (s_used _ _ _ _ Hs), Efl; cbn [length]; lia].
    intros q Hq. apply (s_cells _ _ _ _ Hs). rewrite Efl. by right.
  - destruct (decide (fl = [])); [|by apply (m_lists _ m S Hm)]. apply lists_move; [by apply (m_lists _ m S Hm)|done].
  - intros b. destruct (decide (fl = [])); [rewrite list_elem_of_filter|]; destruct (decide (b = a)) as [->|]; tauto.
  - intros b. destruct (decide (fl = [])); [rewrite elem_of_app, list_elem_of_singleton|]; destruct (decide (b = a)) as [->|]; tauto.
  - intros q. rewrite elem_of_union, elem_of_singleton. destruct (decide (q ∈ cells (pagesize m) (get_node_size m) a)) as [Hq|Hq].
    + destruct (cell_slab _ m S a sl q Hm Hsl Hq) as [Eq HqS]. rewrite Efl, not_elem_of_cons in HqS. destruct (decide (q = p)) as [->|]; tauto.
    + assert (q <> p) by congruence. split; [|tauto]. intros [?|HqS]; [done|]. right. split; [done|]. intros Eq.
      apply (m_taken _ m S Hm) in HqS as (b & Hb). pose proof (taken_slab _ m S b q Hm Hb). destruct Hb as (? & ? & ? & ?). congruence.
Qed.

Lemma slab_alloc_ok m S : slabs_ok m S -> exists r m', slab_alloc m = Some (r, m') /\
  match r with Some p => (p ∉ S) /\ slabs_ok m' ({[p]} ∪ S) | None => slabs_ok m' S end.
Proof.
  intros Hm. unfold slab_alloc. destruct (partial_slabs m) as [|a l] eqn:Hp.
  - pose proof (alloc_slab_ok m S Hm Hp) as Ha. destruct (alloc_slab m) as [[m1|] m0]; [|by eauto].
    destruct Ha as (a & Hpa & Hm1). destruct (take_node_ok {[a]} m1 S a []) as (p & m' & E & ? & ?); [done..|]. rewrite E. by exists (Some p), m'.
  - destruct (take_node_ok ∅ m S a l) as (p & m' & E & ? & ?); [done|set_solver|done|]. rewrite E. by exists (Some p), m'.
Qed.

(** A cell is taken or not. *)
Lemma taken_split W m S a sl q : slabs_inv W m S -> mapped m !! a = Some sl ->
  q ∈ S <-> (q ∈ cells (pagesize m) (get_node_size m) a /\ q ∉ freelist sl \/ q ∈ S /\ node_to_slab m q <> a).
Proof.
  intros Hm Hsl. split; [|intros [[Hq Hf]|[? _]]; [by apply (cell_slab _ m S a sl q Hm Hsl Hq)|done]].
  intros Hq. destruct (decide (node_to_slab m q = a)) as [Ea|]; [left|by right].
  apply (m_taken _ m S Hm) in Hq as (b & Hb). pose proof (taken_slab _ m S b q Hm Hb). destruct Hb as (x & Hx & ? & ?).
  assert (b = a) as -> by congruence. assert (x = sl) as -> by congruence. done.
Qed.

(** The slab of the last node goes. *)
Lemma drop_slab_ok m S a sl p : slabs_ok m S -> mapped m !! a = Some sl -> used sl = 1 ->
  p ∈ cells (pagesize m) (get_node_size m) a -> p ∉ freelist sl ->
  slabs_ok (SlabMem (pagesize m) (lru m) (filter (fun b => b <> a) (partial_slabs m)) (filter (fun b => b <> a) (full_slabs m))
    (delete a (mapped m)) (calls m)) (S ∖ {[p]}).
Proof.
  intros Hm Hsl Hu Hp Hpf. pose proof (m_slab _ m S Hm a sl Hsl) as Hs.
  assert (forall q, q ∈ cells (pagesize m) (get_node_size m) a -> q ∉ freelist sl -> q = p) as Honly.
  { intros q Hq Hqf. destruct (decide (q = p)) as [|Hne]; [done|exfalso].
    assert (length (q :: p :: freelist sl) <= length (cells (pagesize m) (get_node_size m) a))%nat as Hl.
    { apply submseteq_length, NoDup_submseteq.
      - rewrite !NoDup_cons, not_elem_of_cons. split; [done|]. split; [done|apply (s_nodup _ _ _ _ Hs)].
      - intros r. rewrite !elem_of_cons. intros [->|[->|Hr]]; [done|done|by apply (s_cells _ _ _ _ Hs)]. }
    pose proof (s_used _ _ _ _ Hs). cbn in Hl. lia. }
  assert (forall b x, delete a (mapped m) !! b = Some x <-> b <> a /\ mapped m !! b = Some x) as HL.
  { intros b x. rewrite lookup_delete_Some. naive_solver. }
  split; cbn; [apply (m_page _ m S Hm)| | |by apply lists_del, (m_lists _ m S Hm)|..].
  - intros b x [_ Hb]%HL. by apply (m_slab _ m S Hm).
  - intros b x [_ Hb]%HL. by apply (m_used _ m S Hm).
  - intros b. rewrite list_elem_of_filter, (m_partial _ m S Hm). setoid_rewrite HL. naive_solver.
  - intros b. rewrite list_elem_of_filter, (m_full _ m S Hm). setoid_rewrite HL. naive_solver.
  - intros q. rewrite elem_of_difference, elem_of_singleton, (m_taken _ m S Hm). unfold taken_from. cbn. setoid_rewrite HL. split.
    + intros [(b & x & Hx & Hq & Hqf) Hne]. exists b, x. split; [|done]. split; [|done]. intros ->. apply Hne, Honly; congruence.
    + intros (b & x & [Hb Hx] & Hq & Hqf). split; [by exists b, x|]. intros ->. apply Hb.
      rewrite <- (proj1 (cell_slab _ m S a sl p Hm Hsl Hp)). symmetry. apply (proj1 (cell_slab _ m S b x p Hm Hx Hq)).
Qed.

Lemma slab_free_ok m S p : slabs_ok m S -> p ∈ S -> exists m', slab_free p m = Some m' /\ slabs_ok m' (S ∖ {[p]}).
Proof.
  intros Hm HpS. destruct (proj1 (m_taken _ m S Hm p) HpS) as (a & Ha). pose proof (taken_slab _ m S a p Hm Ha) as Ea.
  destruct Ha as (sl & Hsl & Hpc & Hpf). pose proof (m_slab _ m S Hm a sl Hsl) as Hs. pose proof (used_range _ m S a sl Hm Hsl) as [Hu0 _].
  pose proof (m_used _ m S Hm a sl Hsl (not_elem_of_empty a)) as Hu.
  unfold slab_free. rewrite Ea, Hsl. cbn [mbind option_bind]. eexists. split; [reflexivity|].
  assert (i32 (used sl - 1) = used sl - 1) as -> by (apply swrap_id; [lia|]; change (2 ^ (32 - 1)) with (2 * 2 ^ 30); lia).
  pose proof (m_lists _ m S Hm) as Hnd. assert (NoDup (p :: freelist sl)) as Hpn by (apply NoDup_cons; split; [done|apply (s_nodup _ _ _ _ Hs)]).
  assert (forall q, q ∈ p :: freelist sl -> q ∈ cells (pagesize m) (get_node_size m) a) as Hsub.
  { intros q [->|Hq]%elem_of_cons; [done|by apply (s_cells _ _ _ _ Hs)]. }
  destruct (Z.eqb_spec (used sl - 1) 0) as [Hz|Hz]; cbn [negb].
  - unfold free_slab. cbn. rewrite delete_insert_eq. apply (drop_slab_ok m S a sl p); try done. lia.
  - assert (a ∈ partial_slabs m <-> freelist sl <> []) as Hpa by (rewrite (m_partial _ m S Hm); rewrite Hsl; naive_solver).
    assert (a ∈ full_slabs m <-> freelist sl = []) as Hfa by (rewrite (m_full _ m S Hm); rewrite Hsl; naive_solver).
    apply (change_ok ∅ m S a sl); cbn; try done; [|lia|..].
    + split; cbn; [apply (s_addr _ _ _ _ Hs)|done|done|rewrite (s_used _ _ _ _ Hs); lia].
    + destruct (decide (freelist sl = [])) as [Hf|Hf]; [|done]. rewrite Permutation_app_comm.
      rewrite (filter_out a (partial_slabs m)) by (rewrite Hpa; tauto). apply lists_move; [by rewrite Permutation_app_comm|tauto].
    + intros b. destruct (decide (freelist sl = [])); [rewrite elem_of_app, list_elem_of_filter, list_elem_of_singleton|]; destruct (decide (b = a)) as [->|]; naive_solver.
    + intros b. destruct (decide (freelist sl = [])); [rewrite list_elem_of_filter|]; destruct (decide (b = a)) as [->|]; naive_solver.
    + intros q. rewrite elem_of_difference, elem_of_singleton, (taken_split _ m S a sl q Hm Hsl), not_elem_of_cons.
      destruct (decide (q = p)) as [->|]; tauto.
Qed.

#[export] Instance slab_laws : NodeMemLaws slab_mem := { mem_ok := slabs_inv ∅; alloc_law := slab_alloc_ok; free_law := slab_free_ok }.

End Laws.

(** ** Histories of the allocator *)

Inductive mem_op := MAlloc | MFree (p : Z).

Section Traces.
Context `{Pages}.

(** The addresses handed out are kept beside the state; a free must be of one
    of them. *)
Definition mem_step (o : mem_op) (s : slab_mem * gset Z) : option (slab_mem * gset Z) :=
  match o with
  | MAlloc => r ← slab_alloc s.1; Some (r.2, match r.1 with Some p => {[p]} ∪ s.2 | None => s.2 end)
  | MFree p => if decide (p ∈ s.2) then m ← slab_free p s.1; Some (m, s.2 ∖ {[p]}) else Some s
  end.

Fixpoint mem_run (os : list mem_op) (s : slab_mem * gset Z) : option (slab_mem * gset Z) :=
  match os with [] => Some s | o :: os => s ← mem_step o s; mem_run os s end.

Context `{!PagesLaws}.

Lemma slab_const m r m' : slab_alloc m = Some (r, m') -> pagesize m' = pagesize m /\ lru m' = lru m.
Proof using.
  assert (forall m p m', take_node m = Some (p, m') -> pagesize m' = pagesize m /\ lru m' = lru m) as Ht.
  { clear. intros m p m'. unfold take_node. destruct (head _) as [a|]; [|done]. cbn. destruct (mapped m !! a) as [sl|]; [|done]. cbn.
    destruct (freelist sl); [done|]. by intros [= _ <-]. }
  unfold slab_alloc, alloc_slab. destruct (partial_slabs m) eqn:Ep; [destruct (mmap _ _ _) as [a|]; [|by intros [= _ <-]]|].
  all: destruct (take_node _) as [[p m1]|] eqn:E; [|done]; intros [= _ <-]; by apply Ht in E.
Qed.

Lemma mem_run_ok os s : slabs_ok s.1 s.2 -> exists s', mem_run os s = Some s' /\ slabs_ok s'.1 s'.2 /\
  pagesize s'.1 = pagesize s.1 /\ lru s'.1 = lru s.1.
Proof.
  revert s. induction os as [|o os IH]; intros [m S] Hm; [by eexists|]. cbn [mem_run].
  assert (exists s', mem_step o (m, S) = Some s' /\ slabs_ok s'.1 s'.2 /\ pagesize s'.1 = pagesize m /\ lru s'.1 = lru m)
    as (s1 & E & H1 & Ep & El).
  { destruct o as [|p]; cbn.
    - destruct (slab_alloc_ok m S Hm) as (r & m' & E & Hr). rewrite E. cbn. destruct (slab_const m r m' E). eexists. split; [done|]. cbn.
      destruct r; [destruct Hr|]; done.
    - destruct (decide _) as [Hp|]; [|by eexists]. destruct (slab_free_ok m S p Hm Hp) as (m' & E & Hm'). rewrite E. cbn. eexists. split; [done|].
      split; [done|]. cbn. revert E. unfold slab_free. destruct (mapped m !! _); [|done]. cbn. destruct (negb _); by intros [= <-]. }
  rewrite E. cbn [mbind option_bind]. destruct (IH s1 H1) as (s' & E' & H' & Ep' & El'). exists s'. cbn. split; [done|]. split; [done|]. split; congruence.
Qed.

(** Aligned pages are the same or do not overlap. *)
Lemma pages_apart sz a b : 0 < sz -> a mod sz = 0 -> b mod sz = 0 -> a <> b -> a + sz <= b \/ b + sz <= a.
Proof.
  intros Hsz [j ->]%Z.mod_divide [k ->]%Z.mod_divide Hne; [|lia|lia]. destruct (Z.lt_total j k) as [?|[->|?]]; nia.
Qed.

(** C32: the slab allocator never breaks: from the empty state, any sequence of
    calls of [alloc_node], and of [free_node_mem] on nodes handed out, in any
    order and whatever [mmap] answers, runs to its end; the nodes handed out
    are then blocks of the size of a node that do not overlap, each inside a
    mapped page and past the header of its slab; and no page is leaked: each
    page that is mapped holds a node. *)
Theorem slab_blocks sz l os : page_size sz -> exists m S, mem_run os (no_slabs sz l, ∅) = Some (m, S) /\
  (forall p, p ∈ S -> exists a, is_Some (mapped m !! a) /\ a + sizeof_node_slab <= p /\ p + get_node_size m <= a + sz) /\
  (forall p q, p ∈ S -> q ∈ S -> p <> q -> p + get_node_size m <= q \/ q + get_node_size m <= p) /\
  (forall a, is_Some (mapped m !! a) -> exists p, p ∈ S /\ a <= p < a + sz).
Proof.
  intros Hsz. destruct (mem_run_ok os (no_slabs sz l, ∅) (no_slabs_ok sz l Hsz)) as ([m S] & E & Hm & Ep & _). cbn in Hm, Ep. exists m, S.
  split; [done|]. rewrite <- Ep in *. pose proof (page_range m Hsz) as Hpg. pose proof (node_size_range m) as Hns. split; [|split].
  - intros p (a & sl & Hsl & Hp & _)%(m_taken _ m S Hm). exists a. split; [by exists sl|]. by apply cells_in.
  - intros p q (a & sl & Hsl & Hp & _)%(m_taken _ m S Hm) (b & sl' & Hsl' & Hq & _)%(m_taken _ m S Hm) Hne.
    destruct (decide (a = b)) as [->|Hab]; [by apply (cells_apart m Hsz b)|].
    destruct (pages_apart (pagesize m) a b) as [?|?]; try done; [lia|by apply (m_slab _ m S Hm a sl)|by apply (m_slab _ m S Hm b sl')|..].
    all: pose proof (cells_in m Hsz a p Hp); pose proof (cells_in m Hsz b q Hq); unfold sizeof_node_slab in *; lia.
  - intros a [sl Hsl]. pose proof (m_slab _ m S Hm a sl Hsl) as Hs. pose proof (m_used _ m S Hm a sl Hsl (not_elem_of_empty a)) as Hu.
    rewrite (s_used _ _ _ _ Hs) in Hu. destruct (decide (Exists (fun p => p ∉ freelist sl) (cells (pagesize m) (get_node_size m) a))) as [Hx|Hx].
    + apply Exists_exists in Hx as (p & Hp & Hpf). exists p. split; [apply (m_taken _ m S Hm); by exists a, sl|].
      pose proof (cells_in m Hsz a p Hp). unfold sizeof_node_slab in *. lia.
    + exfalso. assert (length (cells (pagesize m) (get_node_size m) a) <= length (freelist sl))%nat; [|lia].
      apply submseteq_length, NoDup_submseteq; [apply cells_NoDup|]. intros p Hp. destruct (decide (p ∈ freelist sl)); [done|].
      destruct Hx. apply Exists_exists. eauto.
Qed.
End Traces.

(** ** A system that maps pages upwards *)

Definition bump_pages : Pages := {| mmap := fun k sz P => let a := sz * (1 + set_fold Z.max 0 (set_map (fun b => b / sz) P : gset Z)) in
  if (a + sz <=? 2 ^ 64) && negb (bool_decide (a ∈ P)) then Some a else None |}.

Lemma bump_laws : @PagesLaws bump_pages.
Proof.
  split. intros k sz P a (s & Hs & ->). cbn. set (b := 2 ^ s * _). destruct (_ && _) eqn:E; [|done]. intros [= <-].
  apply andb_prop in E as [E1%Z.leb_le E2%negb_true_iff%bool_decide_eq_false]. pose proof (Z.pow_pos_nonneg 2 s ltac:(lia) ltac:(lia)).
  assert (0 <= set_fold Z.max 0 (set_map (fun b => b / 2 ^ s) P : gset Z)) as Hm.
  { apply (set_fold_ind_L (fun r _ => 0 <= r)); [done|]. intros. lia. }
  split; [done|]. split; [unfold b; nia|]. split; [done|]. unfold b. rewrite Z.mul_comm. apply Z.mod_mul. lia.
Qed.

Lemma slab_blocks_witness : page_size 4096 /\
  exists m S, @mem_run bump_pages [MAlloc; MAlloc; MFree 4240; MAlloc] (no_slabs 4096 false, ∅) = Some (m, S) /\
    forall p, p ∈ S -> exists a, is_Some (mapped m !! a) /\ a + sizeof_node_slab <= p /\ p + get_node_size m <= a + 4096.
Proof.
  assert (page_size 4096) as Hp by (exists 12; split; [lia|reflexivity]). split; [exact Hp|].
  destruct (@slab_blocks bump_pages bump_laws 4096 false [MAlloc; MAlloc; MFree 4240; MAlloc] Hp) as (m & S & E & HS & _).
  exists m, S. split; [exact E|exact HS].
Defined.
