(* ===== verification/NodeTheorems.v ===== *)
(** * What the kernel may rely on: theorems about the nodes of fuse.c

    The requests that change the tree of nodes, an abstract specification of
    each, and the theorems that the code of [Node] meets it in every history
    that keeps to the protocol of the kernel: a directory named in a request is
    one the kernel holds, so is a file that is removed or moved, a directory is
    not moved below itself, and no more lookups are forgotten than were made. *)

From S2P Require Import Prelude NodeTable Wire Locks Node NodeTree NodeOps NodeSpec Slab.

(** ** Requests *)

Inductive op :=
  | OFind (d : Z) (nm : option bytes)
  | OForget (i k : Z)
  | ORemove (d : Z) (nm : bytes)
  | ORename (od : Z) (on : bytes) (nd : Z) (nn : bytes) (hide : bool)
  | OExchange (od : Z) (on : bytes) (nd : Z) (nn : bytes).

(** The number and the generation of a node, success, a wait, or a result. *)
Inductive reply := RNode (r : option (Z * Z)) | RDone | RWait | RCode (e : Z).

Section Requests.
Context {M : Type} `{NodeMem M}.

Definition run_op (o : op) : ST (fuse M) reply :=
  match o with
  | OFind d nm =>
      r ← find_node d nm;
      match r with
      | Some p => n ← node_at p; mret (RNode (Some (nodeid n, generation n)))
      | None => mret (RNode None)
      end
  | OForget i k => r ← forget_node i k; mret (if r : bool then RDone else RWait)
  | ORemove d nm => _ ← remove_node d nm; mret RDone
  | ORename od on nd nn hide => e ← rename_node od on nd nn hide; mret (RCode e)
  | OExchange od on nd nn => e ← exchange_node od on nd nn; mret (RCode e)
  end.
End Requests.

(** ** Specification *)

(** The entry at a place, if any. *)
Definition found (A : tree) (d : Z) (nm : bytes) (o : option Z) : Prop :=
  match o with
  | Some i => exists e, A !! i = Some e /\ place e = Some (d, nm)
  | None => vacant A d nm
  end.

(** The tree when what is at a place is unlinked. *)
Definition displaced (rem : bool) (A : tree) (d : Z) (nm : bytes) (A' : tree) : Prop :=
  vacant A d nm /\ A' = A \/ exists i e, A !! i = Some e /\ place e = Some (d, nm) /\ A' = <[i := unnamed rem e]> A.

Definition opt_place (o : option Z) (k : option (Z * bytes)) (A : tree) : tree :=
  match o with Some i => set_place i k A | None => A end.

(** The result of each request.  Where memory is short a rename or an exchange
    has taken names away: the files stay without a name. *)
Inductive spec (rem : bool) (A : tree) : op -> reply -> tree -> Prop :=
  | SFindSelf d e : A !! d = Some e -> spec rem A (OFind d None) (RNode (Some (d, gen e))) (<[d := inc e]> A)
  | SFindOld d nm i e : A !! i = Some e -> place e = Some (d, nm) ->
      spec rem A (OFind d (Some nm)) (RNode (Some (i, gen e))) (<[i := inc e]> A)
  | SFindNew d nm i g : vacant A d nm -> A !! i = None -> 0 < i < FUSE_UNKNOWN_INO ->
      spec rem A (OFind d (Some nm)) (RNode (Some (i, g))) (<[i := Entry (if rem then 2 else 1) (Some (d, nm)) g]> A)
  | SFindFail d nm : vacant A d nm -> spec rem A (OFind d (Some nm)) (RNode None) A
  | SForgetRoot k : spec rem A (OForget FUSE_ROOT_ID k) RDone A
  | SForget i k e A' : i <> FUSE_ROOT_ID -> A !! i = Some e -> collect (<[i := Entry (count e - k) (place e) (gen e)]> A) A' ->
      spec rem A (OForget i k) RDone A'
  | SRemove d nm A' : displaced rem A d nm A' -> spec rem A (ORemove d nm) RDone A'
  | SRenameNone od on nd nn hide : vacant A od on -> spec rem A (ORename od on nd nn hide) (RCode 0) A
  | SRenameBusy od on nd nn i j : found A od on (Some i) -> found A nd nn (Some j) ->
      spec rem A (ORename od on nd nn true) (RCode (- EBUSY)) A
  | SRename od on nd nn hide i A' : found A od on (Some i) -> displaced rem A nd nn A' -> (hide = true -> vacant A nd nn) ->
      spec rem A (ORename od on nd nn hide) (RCode 0) (set_place i (Some (nd, nn)) A')
  | SRenameFail od on nd nn hide i A' : found A od on (Some i) -> displaced rem A nd nn A' -> (hide = true -> vacant A nd nn) ->
      spec rem A (ORename od on nd nn hide) (RCode (- ENOMEM)) (set_place i None A')
  | SExchange od on nd nn o n : found A od on o -> found A nd nn n ->
      spec rem A (OExchange od on nd nn) (RCode 0)
        (opt_place n (Some (od, on)) (opt_place o (Some (nd, nn)) (opt_place n None (opt_place o None A))))
  | SExchangeFail1 od on nd nn i n : found A od on (Some i) -> found A nd nn n ->
      spec rem A (OExchange od on nd nn) (RCode (- ENOMEM)) (opt_place n None (set_place i None A))
  | SExchangeFail2 od on nd nn o j : found A od on o -> found A nd nn (Some j) ->
      spec rem A (OExchange od on nd nn) (RCode (- ENOMEM)) (opt_place o (Some (nd, nn)) (set_place j None (opt_place o None A))).

(** The entry at a place, if any, satisfies [P]. *)
Definition at_place (A : tree) (d : Z) (nm : bytes) (P : Z -> entry -> Prop) : Prop :=
  forall i e, A !! i = Some e -> place e = Some (d, nm) -> P i e.

(** The protocol of the kernel, and room for one more node and lookup. *)
Definition allowed (rem : bool) (A : tree) (o : op) : Prop :=
  match o with
  | OFind d nm => holds A d /\ Z.of_nat (size A) + 1 < 2 ^ 30 /\ forall i e, A !! i = Some e -> count e + 1 < 2 ^ 64
  | OForget i k => i = FUSE_ROOT_ID \/ exists e, A !! i = Some e /\ 0 < k <= count e
  | ORemove d nm => holds A d /\ at_place A d nm (fun _ e => spare rem e)
  | ORename od on nd nn hide => holds A od /\ holds A nd /\ (od, on) <> (nd, nn) /\
      at_place A od on (fun i e => count e <> 0 /\ ~ below A i nd) /\ at_place A nd nn (fun _ e => spare rem e)
  | OExchange od on nd nn => holds A od /\ holds A nd /\ (od, on) <> (nd, nn) /\
      at_place A od on (fun i e => count e <> 0 /\ ~ below A i nd) /\ at_place A nd nn (fun i e => count e <> 0 /\ ~ below A i od)
  end.

(** ** Each request meets its specification *)

Section Refinement.
Context {M : Type} `{NodeMemLaws M}.
Implicit Types (f : fuse M).

Definition inv f : Prop := tree_ok f /\ acyclic (abs f).

(** Nodes that stay keep their number and their locks, new nodes are not locked,
    and a node goes only with its entry. *)
Record settled f f' : Prop := {
  st_keep : forall q n n', nodes f !! q = Some n -> nodes f' !! q = Some n' -> nodeid n' = nodeid n /\ treelock n' = treelock n;
  st_new : forall q n', nodes f' !! q = Some n' -> nodes f !! q = None -> treelock n' = 0;
  st_gone : forall q n, nodes f !! q = Some n -> is_Some (abs f' !! nodeid n) -> is_Some (nodes f' !! q);
  st_queue : lockq f' = lockq f }.

Lemma steady_settled f f' : steady (nodes f) (nodes f') -> lockq f' = lockq f -> settled f f'.
Proof.
  intros [H1 H2] HL. split; [|done| |done].
  - intros q n n' Hn Hn'. destruct (H1 q n Hn) as (m & Hm & ?). congruence.
  - intros q n Hn _. destruct (H1 q n Hn) as (m & Hm & _). by exists m.
Qed.

Lemma settled_unlocked f f' : settled f f' -> unlocked f -> unlocked f'.
Proof.
  intros Hs Hu q n' Hn'. destruct (nodes f !! q) as [n|] eqn:Hn; [|by apply (st_new _ _ Hs q)].
  destruct (st_keep _ _ Hs q n n' Hn Hn') as [_ ->]. by apply (Hu q).
Qed.

(** The last lookups of a node are not forgotten while it is locked. *)
Definition ready f (o : op) : Prop :=
  match o with
  | OForget i k => forall p n, nodes f !! p = Some n -> nodeid n = i -> nlookup n = k -> treelock n = 0
  | _ => True
  end.

(** How far the counter of numbers moves: a new node takes its value. *)
Definition advanced f (r : reply) f' : Prop :=
  exists j, 0 <= j <= Z.of_nat (size (nodes f)) + 4 /\ counter f' = (counter f + j) mod 2 ^ 64 /\
    match r with
    | RNode (Some (i, g)) => abs f !! i = None -> 0 < j /\ stamp g i = counter f'
    | _ => True
    end.

Definition meets f (o : op) (r : reply) f' : Prop :=
  inv f' /\ settled f f' /\ conf f' = conf f /\ advanced f r f' /\ spec (remembers f) (abs f) o r (abs f').

(** The counter stays. *)
Lemma advanced_same f r f' : tree_ok f -> counter f' = counter f ->
  match r with RNode (Some (i, _)) => is_Some (abs f !! i) | _ => True end -> advanced f r f'.
Proof.
  intros Hf Hc Hr. exists 0. pose proof (counter_range _ _ _ _ _ Hf). rewrite Z.add_0_r, Z.mod_small by done.
  split; [lia|]. split; [done|]. destruct r as [[[i g]|]| | |]; try done. destruct Hr as [e He]. congruence.
Qed.

Lemma env_counter f f' : env f' = env f -> conf f' = conf f /\ counter f' = counter f.
Proof. intros [= E1 E2 E3 _ _ _ _]. unfold counter. by rewrite E1, E2, E3. Qed.

Lemma env_lockq f f' : env f' = env f -> lockq f' = lockq f.
Proof. by intros [= _ _ _ _ E _ _]. Qed.

Lemma good_refl f : inv f -> good f f.
Proof. intros (Hf & Ha). split; [done|]. split; [done|]. split; [done|apply steady_refl]. Qed.

Lemma good_inv f f' : good f f' -> inv f'.
Proof. intros (Hf & Ha & _). by split. Qed.

Lemma good_trans f f1 f2 : good f f1 -> good f1 f2 -> good f f2.
Proof. intros (? & ? & E1 & ?) (? & ? & E2 & ?). split; [done|]. split; [done|]. split; [by rewrite E2|by eapply steady_trans]. Qed.

(** The common end of the requests that leave the counter alone. *)
Lemma good_meets f o r f' : inv f -> good f f' -> match r with RNode (Some (i, _)) => is_Some (abs f !! i) | _ => True end ->
  spec (remembers f) (abs f) o r (abs f') -> meets f o r f'.
Proof.
  intros (Hf & Ha) (Hf' & Ha' & He & Hu') Hr Hs. destruct (env_counter f f' He) as [Hc Hcnt].
  split; [done|]. split; [by apply steady_settled, env_lockq|]. split; [done|]. split; [by apply advanced_same|done].
Qed.

Lemma get_node_abs f i : tree_ok f -> is_Some (abs f !! i) -> exists p n, get_node_ i f = Some (p, f) /\ nodes f !! p = Some n /\ nodeid n = i.
Proof.
  intros Hf [e (p & n & Hn & <- & _)%abs_iff]; [|by apply tree_num]. exists p, n.
  split; [by apply (get_node_ok ∅ ∅ ∅ (fun _ => 0) f p n Hf Hn (not_elem_of_empty p))|done].
Qed.

Lemma abs_size f : tree_ok f -> size (abs f) = size (nodes f).
Proof. intros Hf. by apply abs_nodes_size, tree_num. Qed.

(** The node that was found. *)
Lemma found_node f p n d nm : tree_ok f -> nodes f !! p = Some n -> key_in (nodes f) p = Some (d, nm) ->
  abs f !! nodeid n = Some (entry_of (nodes f) p n) /\ place (entry_of (nodes f) p n) = Some (d, nm).
Proof. intros Hf Hn Hk. split; [apply abs_Some; [by apply tree_num|done]|done]. Qed.

Lemma op_find_old f p n : inv f -> nodes f !! p = Some n -> nlookup n + 1 < 2 ^ 64 ->
  exists f', (f0 ← get; n ← node_at p; _ ← (if lru_enabled f0 && (nlookup n =? 1) then remove_node_lru p else mret tt);
      _ ← inc_nlookup p; mret (Some p)) f = Some (Some p, f') /\ good f f' /\ nodes f' !! p = Some (once_more n) /\
    abs f' = <[nodeid n := inc (entry_of (nodes f) p n)]> (abs f).
Proof.
  intros (Hf & Ha) Hn Hl. destruct (find_old_ok f p n Hf Ha Hn Hl) as (f' & E & Hf' & Ha' & He & Hu' & HN & HA).
  exists f'. split; [done|]. split; [done|]. split; [rewrite HN; apply lookup_insert_eq|done].
Qed.

Definition refines f (o : op) : Prop := exists r f', run_op o f = Some (r, f') /\ meets f o r f'.

Lemma refine_find f d nm : inv f -> allowed (remembers f) (abs f) (OFind d nm) -> refines f (OFind d nm).
Proof.
  intros Hi ((e & He & Hc) & Hsz & Hcnt). pose proof Hi as (Hf & Ha). unfold refines, run_op, find_node. rewrite bind_assoc.
  assert (forall p n, nodes f !! p = Some n -> nlookup n + 1 < 2 ^ 64) as Hl.
  { intros p n Hn. exact (Hcnt _ _ (abs_Some _ _ _ (tree_num f Hf) Hn)). }
  destruct nm as [nm|].
  - destruct (find_name_abs f d nm Hf) as (r & Er & Hr). rewrite (bind_step _ _ _ _ _ Er). destruct r as [p|].
    + destruct Hr as (n & Hn & Hk). destruct (op_find_old f p n Hi Hn (Hl p n Hn)) as (f' & E & Hg & Hn' & HA).
      rewrite (bind_step _ _ _ _ _ E), (bind_step _ _ _ _ _ (node_at_eq f' p _ Hn')). eexists _, f'. split; [reflexivity|].
      destruct (found_node f p n d nm Hf Hn Hk) as [He' Hp]. apply good_meets; [done|done|by eexists|]. rewrite HA.
      by apply (SFindOld _ _ d nm (nodeid n) (entry_of (nodes f) p n)).
    + apply abs_iff in He as (q & dn & Hdn & <- & ->); [|by apply tree_num].
      destruct (find_new_ok f q dn nm Hf Ha Hdn Hr) as (r & f' & E & Hf' & Ha' & (Hcf & Hlq & _) & Hu' & Hcase); [by rewrite <- abs_size|].
      rewrite (bind_step _ _ _ _ _ E). destruct r as [p|].
      * destruct Hcase as (n & i & g & j & Hn & Hni & Hng & Hfr & Hir & Hg & Hct & Hj & Hst & HA).
        rewrite (bind_step _ _ _ _ _ (node_at_eq f' p n Hn)), Hni, Hng. eexists _, f'. split; [reflexivity|].
        assert (counter f' = stamp g i) as Hcs by (unfold counter; by rewrite Hg, Hct).
        split; [done|]. split; [by apply steady_settled|]. split; [done|]. split; [exists (Z.of_nat j); rewrite Hcs, Hst; split; [lia|]; split; [done|]; lia|].
        rewrite HA. replace (if remember (conf f) =? 0 then 1 else 2) with (if remembers f then 2 else 1) by (unfold remembers; by destruct (_ =? _)).
        by apply SFindNew.
      * destruct Hcase as (HA & j & Hj & Hc'). eexists _, f'. split; [reflexivity|]. split; [done|]. split; [by apply steady_settled|]. split; [done|].
        split; [exists (Z.of_nat j); split; [lia|done]|]. rewrite HA. by apply SFindFail.
  - destruct (get_node_abs f d Hf) as (p & n & E & Hn & Hni); [by eexists|]. rewrite bind_assoc, (bind_step _ _ _ _ _ E), bind_ret.
    destruct (op_find_old f p n Hi Hn (Hl p n Hn)) as (f' & E' & Hg & Hn' & HA).
    rewrite (bind_step _ _ _ _ _ E'), (bind_step _ _ _ _ _ (node_at_eq f' p _ Hn')). eexists _, f'. split; [reflexivity|].
    assert (abs f !! nodeid n = Some (entry_of (nodes f) p n)) as Hen by (apply abs_Some; [by apply tree_num|done]).
    apply good_meets; [done|done|by eexists|]. rewrite HA. rewrite <- Hni. by apply (SFindSelf _ _ (nodeid n) (entry_of (nodes f) p n)).
Qed.

Lemma refine_forget f i k : inv f -> allowed (remembers f) (abs f) (OForget i k) -> ready f (OForget i k) -> refines f (OForget i k).
Proof.
  intros Hi Ho Hrd. pose proof Hi as (Hf & Ha). unfold refines, run_op. destruct (decide (i = FUSE_ROOT_ID)) as [->|Hr].
  - eexists _, f. split; [reflexivity|]. apply good_meets; [done|by apply good_refl|done|constructor].
  - destruct Ho as [?|(e & He & Hk)]; [done|].
    destruct (forget_ok f i k e Hf Ha He Hr Hk) as (f' & E & Hf' & Ha' & Hc & Hl & Hcol).
    { intros -> p n Hn <-. apply (Hrd p n Hn eq_refl). unfold abs in He. rewrite (abs_Some _ _ _ (tree_num f Hf) Hn) in He. by injection He as <-. }
    rewrite (bind_step _ _ _ _ _ E). eexists _, f'. split; [reflexivity|]. injection Hc as Hc1 Hc2 Hc3 Hc4. split; [done|]. split; [|split; [done|split]].
    + split; [| | |done].
      * intros q n n' Hn Hn'. destruct (Hl q n' Hn') as (m & Hm & ?). congruence.
      * intros q n' Hn' Hn. destruct (Hl q n' Hn') as (m & Hm & ?). congruence.
      * intros q n Hn [e' He']. apply abs_iff in He' as (q' & n' & Hn' & Ei & _); [|by apply tree_num].
        destruct (Hl q' n' Hn') as (m & Hm & Em & _). assert (q = q') as -> by (apply (tree_num f Hf q q' n m); congruence). by eexists.
    + apply advanced_same; [done| |done]. unfold counter. by rewrite Hc2, Hc3.
    + by apply (SForget _ _ i k e).
Qed.

(** Unlinking what is at a place, on the abstraction. *)
Lemma unlink_found f p n d nm : inv f -> nodes f !! p = Some n -> key_in (nodes f) p = Some (d, nm) ->
  at_place (abs f) d nm (fun _ e => spare (remembers f) e) -> holds (abs f) d ->
  exists f', unlink_node p f = Some (tt, f') /\ keeps f f' /\ abs f' = <[nodeid n := unnamed (remembers f) (entry_of (nodes f) p n)]> (abs f) /\
    displaced (remembers f) (abs f) d nm (abs f').
Proof.
  intros (Hf & Ha) Hn Hk Hs Hd. destruct (found_node f p n d nm Hf Hn Hk) as [He Hp].
  destruct (unlink_node_ok f p n d nm Hf Ha Hn Hk (Hs _ _ He Hp) Hd) as (f' & E & Hf' & Ha' & He' & Hu' & (n' & Hn' & Hi') & Hother & HA).
  exists f'. split; [done|]. split; [|split; [done|right; eauto 10]]. split; [done|].
  intros q j (m & Hm & <-). destruct (decide (q = p)) as [->|Hq]; [|destruct (Hother q m Hm Hq) as [x Hx]; by exists (with_refctr x m)].
  exists n'. split; [done|]. congruence.
Qed.

Lemma refine_remove f d nm : inv f -> allowed (remembers f) (abs f) (ORemove d nm) -> refines f (ORemove d nm).
Proof.
  intros Hi [Hd Hs]. pose proof Hi as (Hf & Ha). unfold refines, run_op, remove_node. rewrite bind_assoc.
  destruct (find_name_abs f d nm Hf) as (r & Er & Hr). rewrite (bind_step _ _ _ _ _ Er). destruct r as [p|].
  - destruct Hr as (n & Hn & Hk). destruct (unlink_found f p n d nm Hi Hn Hk Hs Hd) as (f' & E & [Hg _] & _ & Hdis).
    rewrite (bind_step _ _ _ _ _ E). eexists _, f'. split; [reflexivity|]. apply good_meets; try done. by constructor.
  - rewrite bind_ret. eexists _, f. split; [reflexivity|]. apply good_meets; [done|by apply good_refl|done|]. constructor. by left.
Qed.

Lemma key_ptr f p i e : tree_ok f -> ptr f p i -> abs f !! i = Some e ->
  exists n, nodes f !! p = Some n /\ nodeid n = i /\ key_in (nodes f) p = place e /\ nlookup n = count e.
Proof. intros Hf Hp He. destruct (ptr_abs f p i e Hf Hp He) as (n & Hn & Hi & ->). eauto. Qed.

(** The steps of a rename once the target is free. *)
Lemma rename_rest f p i e od on nd nn hide : inv f -> ptr f p i -> abs f !! i = Some e -> place e = Some (od, on) -> count e <> 0 ->
  holds (abs f) od -> holds (abs f) nd -> ~ below (abs f) i nd -> vacant (abs f) nd nn ->
  exists r f', (_ ← unhash_name p; e ← hash_name p nd nn; if e =? -1 then mret (- ENOMEM) else
      _ ← (if hide : bool then update p (with_hidden true) else mret tt); mret 0) f = Some (r, f') /\ good f f' /\
    (r = 0 /\ abs f' = set_place i (Some (nd, nn)) (abs f) \/ r = - ENOMEM /\ abs f' = set_place i None (abs f)).
Proof.
  intros (Hf & Ha) Hp He Hpl Hc Hod Hnd Hb Hv. destruct (key_ptr f p i e Hf Hp He) as (n & Hn & <- & Hk & Hl).
  destruct (rename_move_ok f p n od on nd nn hide) as (r & f' & E & Hf' & Ha' & He' & Hu' & Hcase); try done; [congruence|congruence|].
  exists r, f'. done.
Qed.

(** A rename over a target, which may not exist. *)
Lemma refine_rename f od on nd nn hide : inv f -> allowed (remembers f) (abs f) (ORename od on nd nn hide) -> refines f (ORename od on nd nn hide).
Proof.
  intros Hi (Hod & Hnd & Hne & Hsrc & Htgt). pose proof Hi as (Hf & Ha). unfold refines, run_op, rename_node. rewrite bind_assoc.
  destruct (find_name_abs f od on Hf) as (r & Er & Hr), (find_name_abs f nd nn Hf) as (r' & Er' & Hr').
  rewrite (bind_step _ _ _ _ _ Er), bind_assoc, (bind_step _ _ _ _ _ Er'). destruct r as [p|].
  2: { eexists _, f. split; [reflexivity|]. apply good_meets; [done|by apply good_refl|done|]. by apply SRenameNone. }
  destruct Hr as (n & Hn & Hk). destruct (found_node f p n od on Hf Hn Hk) as [He Hp]. destruct (Hsrc _ _ He Hp) as [Hc Hb].
  assert (found (abs f) od on (Some (nodeid n))) as Hfo by (eexists; done). destruct r' as [q|].
  - destruct Hr' as (m & Hm & Hk'). destruct (found_node f q m nd nn Hf Hm Hk') as [He' Hp'].
    assert (found (abs f) nd nn (Some (nodeid m))) as Hft by (eexists; done).
    destruct hide; [eexists _, f; split; [reflexivity|]; apply good_meets; [done|by apply good_refl|done|]; by eapply SRenameBusy|].
    assert (nodeid m <> nodeid n) as Hmn by (intros E; assert (q = p) by (apply (tree_num f Hf q p m n); done); congruence).
    destruct (unlink_found f q m nd nn Hi Hm Hk' Htgt Hnd) as (f1 & E1 & [Hg1 Hp1] & HA1 & Hdis). rewrite bind_assoc, (bind_step _ _ _ _ _ E1).
    assert (forall d, holds (abs f) d -> holds (abs f1) d) as Hh.
    { intros d Hd. rewrite HA1. apply (holds_update _ _ (entry_of (nodes f) q m)); [done| |done]. cbn. pose proof (Htgt _ _ He' Hp') as Hs.
      unfold spare in Hs. cbn in Hs. destruct (remembers f); lia. }
    destruct (rename_rest f1 p (nodeid n) (entry_of (nodes f) p n) od on nd nn false) as (r & f2 & E2 & Hg2 & Hcase); try done;
      [by apply (good_inv f f1)|by apply Hp1; exists n|by rewrite HA1, lookup_insert_ne|by apply Hh|by apply Hh| |..].
    { rewrite HA1. intros Hb'. apply Hb. by eapply below_unplace, Hb'. }
    { rewrite HA1. intros j ej [[<- <-]|[Hj Hjj]]%lookup_insert_Some; [done|]. intros Hpj. apply Hj. by apply (place_inj f _ _ _ _ _ Hf He' Hjj Hp'). }
    rewrite (bind_step _ _ _ _ _ E2). eexists _, f2. split; [reflexivity|]. apply good_meets; [done|by eapply good_trans|done|].
    destruct Hcase as [[-> ->]|[-> ->]]; [by apply (SRename _ _ _ _ _ _ _ _ (abs f1))|by apply (SRenameFail _ _ _ _ _ _ _ _ (abs f1))].
  - destruct (rename_rest f p (nodeid n) (entry_of (nodes f) p n) od on nd nn hide) as (r & f2 & E2 & Hg2 & Hcase); try done; [by exists n|].
    rewrite (bind_step _ _ _ _ _ E2). eexists _, f2. split; [reflexivity|]. apply good_meets; [done|done|done|].
    assert (displaced (remembers f) (abs f) nd nn (abs f)) by by left.
    destruct Hcase as [[-> ->]|[-> ->]]; [by apply SRename|by apply SRenameFail].
Qed.

(** *** Exchange *)

Lemma set_place_lookup (A : tree) i k j e : set_place i k A !! j = Some e <->
  (j <> i /\ A !! j = Some e \/ j = i /\ exists e0, A !! i = Some e0 /\ e = Entry (count e0) k (gen e0)).
Proof.
  unfold set_place. destruct (A !! i) as [e0|] eqn:E.
  - rewrite lookup_insert_Some. naive_solver.
  - split; [|naive_solver]. intros Hj. left. split; [congruence|done].
Qed.

Lemma opt_place_holds o k (A : tree) d : holds A d -> holds (opt_place o k A) d.
Proof.
  destruct o as [i|]; [|done]. intros (e & He & Hc). destruct (decide (d = i)) as [->|Hd].
  - exists (Entry (count e) k (gen e)). split; [|done]. apply set_place_lookup. eauto.
  - exists e. split; [|done]. apply set_place_lookup. auto.
Qed.

Lemma opt_place_below o (A : tree) i j : below (opt_place o None A) i j -> below A i j.
Proof.
  destruct o as [k|]; [|done]. cbn. unfold set_place. destruct (A !! k); [|done]. by apply below_unplace.
Qed.

Lemma opt_place_vacant o k (A : tree) d nm : k <> Some (d, nm) -> vacant A d nm -> vacant (opt_place o k A) d nm.
Proof.
  intros Hk Hv. destruct o as [i|]; [|done]. intros j e [[_ Hj]|[_ (e0 & _ & ->)]]%set_place_lookup; [by apply (Hv j)|done].
Qed.

(** An entry at another place is not touched. *)
Lemma opt_place_other o k (A : tree) d nm i e d' nm' : found A d nm o -> (d, nm) <> (d', nm') -> A !! i = Some e -> place e = Some (d', nm') ->
  opt_place o k A !! i = Some e.
Proof.
  intros Ho Hne Hi Hp. destruct o as [j|]; [|done]. apply set_place_lookup. left. split; [|done].
  intros ->. destruct Ho as (e' & He' & Hp'). congruence.
Qed.

Lemma opt_place_found o k (A : tree) d nm o' d' nm' : found A d nm o -> (d, nm) <> (d', nm') -> k <> Some (d', nm') ->
  found A d' nm' o' -> found (opt_place o k A) d' nm' o'.
Proof.
  intros Ho Hne Hk Hf. destruct o' as [i|]; [|by apply opt_place_vacant]. destruct Hf as (e & He & Hp). exists e. split; [|done].
  by apply (opt_place_other o k A d nm i e d' nm').
Qed.

Definition opt_ptr f (op oi : option Z) : Prop :=
  match op, oi with Some p, Some i => ptr f p i | None, None => True | _, _ => False end.

Lemma opt_ptr_keeps f f' op oi : keeps f f' -> opt_ptr f op oi -> opt_ptr f' op oi.
Proof. intros [_ Hk]. destruct op, oi; try done. apply Hk. Qed.

Lemma find_opt f d nm : tree_ok f -> exists op oi, find_name d nm f = Some (op, f) /\ opt_ptr f op oi /\ found (abs f) d nm oi.
Proof.
  intros Hf. destruct (find_name_abs f d nm Hf) as (r & E & Hr). destruct r as [p|].
  - destruct Hr as (n & Hn & Hk). exists (Some p), (Some (nodeid n)). split; [done|]. split; [by exists n|]. eexists. by apply found_node.
  - by exists None, None.
Qed.

Lemma detach_opt f op oi d nm : inv f -> opt_ptr f op oi -> found (abs f) d nm oi -> at_place (abs f) d nm (fun _ e => count e <> 0) -> holds (abs f) d ->
  exists f', (match op with Some p => unhash_name p | None => mret tt end) f = Some (tt, f') /\ keeps f f' /\
    abs f' = opt_place oi None (abs f) /\ vacant (abs f') d nm.
Proof.
  intros (Hf & Ha) Hp Hfo Hc Hd. destruct op as [p|], oi as [i|]; try done; [|exists f; split; [done|]; split; [by apply keeps_refl|done]].
  destruct Hfo as (e & He & Hpl). destruct (detach_ok f p i e d nm) as (f' & E & Hk & HA); try done; [by apply (Hc i)|].
  exists f'. split; [done|]. split; [done|]. split; [done|]. rewrite HA.
  intros j ej [[Hj Hej]|[_ (e0 & _ & ->)]]%set_place_lookup; [|done]. intros Hpj. apply Hj. by apply (place_inj f j i ej e _ Hf Hej He Hpj).
Qed.

Lemma attach_opt f op oi d nm : inv f -> opt_ptr f op oi ->
  (forall i, oi = Some i -> i <> FUSE_ROOT_ID /\ ~ below (abs f) i d /\ exists e, abs f !! i = Some e /\ place e = None) ->
  holds (abs f) d -> vacant (abs f) d nm ->
  exists r f', (match op with Some p => hash_name p d nm | None => mret 0 end) f = Some (r, f') /\ keeps f f' /\
    (r = -1 /\ is_Some oi /\ abs f' = abs f \/ r = 0 /\ abs f' = opt_place oi (Some (d, nm)) (abs f)).
Proof.
  intros (Hf & Ha) Hp Hi (ed & Hd & _) Hv. destruct op as [p|], oi as [i|]; try done; [|exists 0, f; split; [done|]; split; [by apply keeps_refl|by right]].
  destruct (Hi i eq_refl) as (Hr & Hb & e & He & Hpl). destruct (attach_ok f p i e d nm) as (r & f' & E & Hk & Hcase); try done.
  exists r, f'. split; [done|]. split; [done|]. destruct Hcase as [[-> HA]|[-> HA]]; [left; by eauto|by right].
Qed.

(** An entry with a place, after that place is taken away. *)
Lemma opt_place_self o k (A : tree) d nm i : found A d nm o -> o = Some i -> exists e, A !! i = Some e /\ place e = Some (d, nm) /\
  opt_place o k A !! i = Some (Entry (count e) k (gen e)).
Proof. intros Hf ->. destruct Hf as (e & He & Hp). exists e. split; [done|]. split; [done|]. apply set_place_lookup. eauto. Qed.

Lemma found_not_root f d nm i : tree_ok f -> found (abs f) d nm (Some i) -> i <> FUSE_ROOT_ID.
Proof.
  intros Hf (e & (p & n & Hn & <- & ->)%abs_iff & Hp); [|by apply tree_num]. by apply (placed_not_root f p n (d, nm)).
Qed.

Lemma refine_exchange f od on nd nn : inv f -> allowed (remembers f) (abs f) (OExchange od on nd nn) -> refines f (OExchange od on nd nn).
Proof.
  intros Hi (Hod & Hnd & Hne & Ho & Hn). pose proof Hi as (Hf & Ha). unfold refines, run_op, exchange_node. rewrite bind_assoc.
  destruct (find_opt f od on Hf) as (op & oi & E1 & Hpo & Hfo), (find_opt f nd nn Hf) as (np & ni & E2 & Hpn & Hfn).
  rewrite (bind_step _ _ _ _ _ E1), bind_assoc, (bind_step _ _ _ _ _ E2), bind_assoc.
  destruct (detach_opt f op oi od on Hi Hpo Hfo) as (f1 & E3 & Hk1 & HA1 & Hv1); [intros i e He Hp; by apply (Ho i)|done|].
  rewrite (bind_step _ _ _ _ _ E3), bind_assoc.
  assert (found (abs f1) nd nn ni) as Hfn1 by (rewrite HA1; by apply (opt_place_found oi None _ od on)).
  destruct (detach_opt f1 np ni nd nn) as (f2 & E4 & Hk2 & HA2 & Hv2); [eapply good_inv, Hk1|by apply (opt_ptr_keeps f f1)|done| |by rewrite HA1; apply opt_place_holds|].
  { intros i e He Hp. rewrite HA1 in He. destruct oi as [k|]; [|by apply (Hn i e)].
    apply set_place_lookup in He as [[_ He]|[_ (e0 & _ & ->)]]; [by apply (Hn i e)|done]. }
  rewrite (bind_step _ _ _ _ _ E4), bind_assoc. pose proof (keeps_trans _ _ _ Hk1 Hk2) as Hk12.
  assert (forall i j, below (abs f2) i j -> below (abs f) i j) as Hbl by (rewrite HA2, HA1; intros i j Hb; by apply opt_place_below, opt_place_below in Hb).
  assert (vacant (abs f2) od on) as Hv2' by (rewrite HA2; by apply opt_place_vacant).
  assert (forall d, holds (abs f) d -> holds (abs f2) d) as Hh by (rewrite HA2, HA1; intros d Hd; by apply opt_place_holds, opt_place_holds).
  destruct (attach_opt f2 op oi nd nn) as (r & f3 & E5 & Hk3 & Hcase); [eapply good_inv, Hk12|by apply (opt_ptr_keeps f f2)| |by apply Hh|done|].
  { intros i ->. split; [by apply (found_not_root f od on)|]. destruct (opt_place_self (Some i) None (abs f) od on i Hfo eq_refl) as (e & He & Hp & He1).
    split; [intros Hb; apply (Ho i e He Hp), Hbl, Hb|]. rewrite <- HA1 in He1. rewrite HA2. exists (Entry (count e) None (gen e)). split; [|done].
    destruct ni as [j|]; [|done]. apply set_place_lookup. left. split; [|done]. intros ->. destruct Hfn1 as (e' & He' & Hp'). rewrite He1 in He'. by simplify_eq. }
  rewrite (bind_step _ _ _ _ _ E5). pose proof (keeps_trans _ _ _ Hk12 Hk3) as Hk13. destruct Hcase as [(-> & [i ->] & HA3)|(-> & HA3)].
  { change (-1 =? -1) with true. cbv iota. eexists _, f3. split; [reflexivity|]. apply good_meets; [done|apply Hk13|done|].
    rewrite HA3, HA2, HA1. by apply SExchangeFail1. }
  change (0 =? -1) with false. cbv iota. rewrite bind_assoc.
  destruct (attach_opt f3 np ni od on) as (r & f4 & E6 & Hk4 & Hcase); [eapply good_inv, Hk13|by apply (opt_ptr_keeps f f3)| | | |].
  { intros j ->. split; [by apply (found_not_root f nd nn)|]. destruct (opt_place_self (Some j) None (abs f1) nd nn j Hfn1 eq_refl) as (e & He & Hp & He1).
    rewrite <- HA2 in He1. assert (oi <> Some j) as Hoj.
    { intros ->. destruct Hfo as (e1 & He1' & Hp1), Hfn as (e2 & He2 & Hp2). congruence. }
    assert (abs f !! j = Some e) as Hje. { rewrite HA1 in He. destruct oi as [i|]; [|done]. by apply set_place_lookup in He as [[_ ?]|[? _]]; [|congruence]. }
    split.
    - intros Hb. apply (Hn j e Hje Hp). rewrite HA3 in Hb. destruct oi as [i|]; [|by apply Hbl]. cbn in Hb. unfold set_place in Hb.
      destruct (abs f2 !! i) as [ei|]; [|by apply Hbl]. apply Hbl. eapply below_place; [|exact Hb]. intros Hb2%Hbl.
      destruct Hfo as (e1 & He1' & Hp1). by apply (acyclic_up _ _ _ _ _ Ha He1' Hp1).
    - exists (Entry (count e) None (gen e)). split; [|done]. rewrite HA3. destruct oi as [i|]; [|done]. apply set_place_lookup. left. split; [congruence|done]. }
  { rewrite HA3. by apply opt_place_holds, Hh. }
  { rewrite HA3. apply opt_place_vacant; [congruence|done]. }
  rewrite (bind_step _ _ _ _ _ E6). pose proof (keeps_trans _ _ _ Hk13 Hk4) as Hk14. destruct Hcase as [(-> & [j ->] & HA4)|(-> & HA4)].
  - change (-1 =? -1) with true. cbv iota. eexists _, f4. split; [reflexivity|]. apply good_meets; [done|apply Hk14|done|].
    rewrite HA4, HA3, HA2, HA1. by apply SExchangeFail2.
  - change (0 =? -1) with false. cbv iota. eexists _, f4. split; [reflexivity|]. apply good_meets; [done|apply Hk14|done|].
    rewrite HA4, HA3, HA2, HA1. by apply SExchange.
Qed.

Lemma refine_op f o : inv f -> allowed (remembers f) (abs f) o -> ready f o -> refines f o.
Proof.
  destruct o; intros ? ? ?; [by apply refine_find|by apply refine_forget|by apply refine_remove|by apply refine_rename|by apply refine_exchange].
Qed.

Lemma unlocked_ready f o : unlocked f -> ready f o.
Proof. intros Hu. destruct o; cbn; try done. intros p n Hn _ _. by apply (Hu p).
Qed.

(** *** The start *)

(** The state [make_root] builds before the root is in the table by number. *)
Lemma root_inv c m h k t p n : mem_ok m {[p]} -> node_table_init true = Some t -> nodeid n = FUSE_ROOT_ID -> parent n = None ->
  refctr n = 1 -> nlookup n = 1 -> treelock n = 0 ->
  tree_inv {[p]} ∅ ∅ (fun _ => 0) (MkFuse t t [] 0 0 0 c [] m {[p := n]} ∅ h k).
Proof.
  intros Hm Ht Hi Hp Hr Hl Hlk.
  assert (forall q n', ({[p := n]} : gmap Z node) !! q = Some n' -> q = p /\ n' = n) as HL by (intros q n' [-> ->]%lookup_singleton_Some; done).
  assert (forall q, kids ∅ {[p := n]} q = ∅) as Hk.
  { intros q. apply set_eq. intros x. rewrite elem_of_kids. split; [|set_solver]. intros (n' & [-> ->]%HL & Hn' & _). congruence. }
  assert (named ∅ {[p := n]} = ∅) as Hnm.
  { apply set_eq. intros x. rewrite elem_of_named. split; [|set_solver]. intros (n' & d & [-> ->]%HL & Hn' & _). congruence. }
  pose proof (init_ok (name_g {[p := n]}) t Ht) as (Hs & Hc & Hu & _).
  split; cbn [nodes id_table name_table lru_table ctr fgeneration slabs].
  - exists p, n. rewrite lookup_singleton_eq. split; [done|]. split; [done|]. split; [done|lia].
  - intros q n' d [-> ->]%HL _ Hd. congruence.
  - intros q n' [-> ->]%HL. rewrite Hp. split; [by intros []|by intros []].
  - intros q r a b [-> ->]%HL [-> ->]%HL. done.
  - intros q r a b [-> ->]%HL [-> ->]%HL. done.
  - rewrite dom_singleton_L, difference_diag_L. by apply init_ok.
  - done.
  - rewrite Hnm. exact Hc.
  - rewrite Hnm, !size_empty, Hu. done.
  - intros q n' [-> ->]%HL. unfold looked_up. rewrite Hr, Hl, Hk, size_empty. done.
  - intros q n' [-> ->]%HL _. lia.
  - done.
  - intros u Hu'. by apply not_elem_of_empty in Hu'.
  - intros q n' [-> ->]%HL. congruence.
  - split; [constructor|]. split; [by intros q ?%not_elem_of_nil|done].
  - by rewrite dom_singleton_L.
  - rewrite map_size_singleton. done.
  - intros q n' [-> ->]%HL. rewrite Hl. done.
  - intros q n' [-> ->]%HL Hq. by destruct Hq; apply elem_of_singleton.
  - done.
  - done.
Qed.

Definition root_tree : tree := {[FUSE_ROOT_ID := Entry 1 None 0]}.

Lemma make_root_ok c m h k : mem_ok m ∅ -> exists r f, make_root (empty_fuse c m h k) = Some (r, f) /\
  match r with Some _ => inv f /\ unlocked f /\ conf f = c /\ counter f = 0 /\ abs f = root_tree | None => True end.
Proof.
  intros Hm. unfold make_root. destruct (malloc_eq (empty_fuse c m h k)) as (ok & h1 & E1). rewrite (bind_step _ _ _ _ _ E1).
  destruct ok; [|by eexists None, _]. destruct (node_table_init true) as [t|] eqn:Ht; [|done]. rewrite bind_modify.
  set (f1 := set_name_table t _). destruct (malloc_eq f1) as (ok & h2 & E2). rewrite (bind_step _ _ _ _ _ E2).
  destruct ok; [|by eexists None, _]. rewrite Ht, bind_modify, bind_get. cbn [slabs set_id_table set_heap f1 set_name_table empty_fuse].
  destruct (alloc_law m ∅ Hm) as (r & m' & Ea & Hr). rewrite Ea. cbn [some]. rewrite bind_ret, bind_modify. cbn [fst snd].
  destruct r as [p|]; [|by eexists None, _]. rewrite bind_modify. destruct Hr as [_ Hm']. rewrite union_empty_r_L in Hm'.
  set (n0 := with_ids _ _ _). set (f2 := set_nodes _ _). set (n1 := with_nlookup 1 (with_refctr 1 n0)).
  assert (nodes f2 = {[p := n0]}) as HN2 by reflexivity.
  assert (inc_nlookup p f2 = Some (tt, set_nodes {[p := n1]} f2)) as E3.
  { unfold inc_nlookup. assert (nodes f2 !! p = Some n0) as Hn by (rewrite HN2; apply lookup_singleton_eq).
    rewrite (bind_step _ _ _ _ _ (node_at_eq f2 p n0 Hn)). change (nlookup n0 =? 0) with true. cbv iota.
    rewrite (bind_step _ _ _ _ _ (update_eq f2 p _ n0 Hn)). set (f3 := set_nodes _ f2).
    assert (nodes f3 !! p = Some (with_refctr 1 n0)) as Hn3 by apply lookup_insert_eq. rewrite (update_eq f3 p _ _ Hn3).
    unfold f3. cbn [nodes set_nodes]. by rewrite insert_insert_eq, HN2, insert_singleton_eq. }
  rewrite (bind_step _ _ _ _ _ E3). set (f3 := set_nodes _ f2).
  assert (tree_inv {[p]} ∅ ∅ (fun _ => 0) f3) as Hf3 by (by apply (root_inv c m' h2 k t p n1)).
  destruct (hash_id_ok ∅ (fun _ => 0) f3 p n1 Hf3) as (t' & h' & E4 & Hf4); [apply lookup_singleton_eq|done|].
  rewrite (bind_step _ _ _ _ _ E4). eexists (Some p), _. split; [reflexivity|]. set (f4 := set_id_table t' _) in *.
  assert (abs f4 = root_tree) as HA.
  { apply map_eq. intros i. apply option_eq. intros e. unfold abs. rewrite abs_iff by exact (tree_num f4 Hf4). unfold root_tree. rewrite lookup_singleton_Some.
    change (nodes f4) with ({[p := n1]} : gmap Z node). assert (key_in {[p := n1]} p = None) as Hk by (unfold key_in; by rewrite lookup_singleton_eq).
    split.
    - intros (q & n & [<- <-]%lookup_singleton_Some & <- & ->). split; [done|]. unfold entry_of. by rewrite Hk.
    - intros [<- <-]. exists p, n1. rewrite lookup_singleton_eq. split; [done|]. split; [done|]. unfold entry_of. by rewrite Hk. }
  assert (acyclic (abs f4) /\ unlocked f4) as [? ?]; [|done]. rewrite HA. split.
  - intros i [e He]. exists O. unfold root_tree in *. by apply (depth_top _ i e); [|apply lookup_singleton_Some in He as [_ <-]].
  - intros q n Hq. change (nodes f4) with ({[p := n1]} : gmap Z node) in Hq. by apply lookup_singleton_Some in Hq as [_ <-].
Qed.

(** *** Histories *)

(** The states after any number of requests the kernel may make, and the
    identities, as stamps, of the nodes made on the way, the last first. *)
Inductive history (f0 : fuse M) : fuse M -> nat -> list Z -> Prop :=
  | history_start : history f0 f0 0 []
  | history_step f n l o r f' : history f0 f n l -> allowed (remembers f) (abs f) o -> run_op o f = Some (r, f') ->
      history f0 f' (S n) (match r with
        | RNode (Some (i, g)) => if decide (abs f !! i = None) then stamp g i :: l else l
        | _ => l
        end).

Lemma history_new f0 f n l o i g f' : history f0 f n l -> allowed (remembers f) (abs f) o -> run_op o f = Some (RNode (Some (i, g)), f') ->
  abs f !! i = None -> history f0 f' (S n) (stamp g i :: l).
Proof.
  intros Hh Ha E Hi. pose proof (history_step f0 f n l o _ f' Hh Ha E) as Hs. cbn in Hs. by rewrite decide_True in Hs.
Qed.

Definition initial f : Prop := exists p m c h k, mem_ok m ∅ /\ make_root (empty_fuse c m h k) = Some (Some p, f).

Lemma initial_ok f : initial f -> inv f /\ unlocked f /\ counter f = 0 /\ abs f = root_tree.
Proof.
  intros (p & m & c & h & k & Hm & E). destruct (make_root_ok c m h k Hm) as (r & f' & E' & Hr).
  rewrite E in E'. injection E' as <- <-. tauto.
Qed.

Lemma history_ok f0 f n l : initial f0 -> history f0 f n l -> inv f /\ unlocked f.
Proof.
  intros Hst%initial_ok Hh. induction Hh as [|f n l o r f' Hh [IH Hu] Ha E]; [tauto|].
  destruct (refine_op f o IH Ha (unlocked_ready f o Hu)) as (r' & f1 & E' & Hi & Hst' & _). rewrite E in E'. injection E' as <- <-.
  split; [done|by eapply settled_unlocked].
Qed.

(** C6: the requests of the kernel refine operations on an abstract tree: in
    every state reached from the start by requests that keep to the protocol,
    each next such request runs to its end — no assertion fails, no freed node
    is touched, no loop runs out — and its reply and the new tree are the ones
    the specification allows: a lookup finds the file at the place or makes one
    with an unused number, forgetting removes exactly what is no longer live,
    removing, renaming and exchanging change places and nothing else. *)
Theorem tree_refines f0 f n l o : initial f0 -> history f0 f n l -> allowed (remembers f) (abs f) o ->
  exists r f', run_op o f = Some (r, f') /\ spec (remembers f) (abs f) o r (abs f') /\ acyclic (abs f').
Proof.
  intros Hst Hh Ha. destruct (history_ok _ _ _ _ Hst Hh) as [Hi Hu].
  destruct (refine_op f o Hi Ha (unlocked_ready f o Hu)) as (r & f' & E & (_ & Hac) & _ & _ & _ & Hs). eauto.
Qed.

(** *** What the kernel knows *)

(** The lookups of node [i] that the kernel holds after a conversation, counted
    from the requests and replies alone, the last one first: every reply with the
    node is one more, every FORGET takes some away. *)
Fixpoint held (h : list (op * reply)) (i : Z) : Z :=
  match h with
  | [] => 0
  | (OFind _ _, RNode (Some (j, _))) :: h => held h i + (if j =? i then 1 else 0)
  | (OForget j k, _) :: h => held h i - (if j =? i then k else 0)
  | _ :: h => held h i
  end.

(** The protocol: the kernel forgets no more than it holds. *)
Definition protocol (h : list (op * reply)) f (o : op) : Prop :=
  match o with
  | OForget i k => i = FUSE_ROOT_ID \/ 0 < k <= held h i
  | _ => allowed (remembers f) (abs f) o
  end.

Inductive conversation (f0 : fuse M) : list (op * reply) -> fuse M -> Prop :=
  | conv_start : conversation f0 [] f0
  | conv_step h f o r f' : conversation f0 h f -> protocol h f o -> run_op o f = Some (r, f') ->
      conversation f0 ((o, r) :: h) f'.

(** A node that has to be in memory: the root, one the kernel holds, and a
    directory above such a node. *)
Inductive needed (h : list (op * reply)) f : Z -> Prop :=
  | needed_root p n : nodes f !! p = Some n -> nodeid n = FUSE_ROOT_ID -> needed h f p
  | needed_held p n : nodes f !! p = Some n -> 0 < held h (nodeid n) -> needed h f p
  | needed_dir p n d : needed h f p -> nodes f !! p = Some n -> parent n = Some d -> needed h f d.

(** The counts of the tree are those of the conversation. *)
Definition agrees (h : list (op * reply)) (A : tree) : Prop := forall i, i <> FUSE_ROOT_ID ->
  match A !! i with Some e => count e = held h i | None => held h i = 0 end.

Lemma agrees_same h h' (A A' : tree) : agrees h A ->
  (forall i, i <> FUSE_ROOT_ID -> count <$> A' !! i = count <$> A !! i) -> (forall i, i <> FUSE_ROOT_ID -> held h' i = held h i) -> agrees h' A'.
Proof.
  intros Ha Hc Hh i Hi. specialize (Ha i Hi). specialize (Hc i Hi). rewrite (Hh i Hi).
  destruct (A' !! i), (A !! i); cbn in Hc; try done. by injection Hc as ->.
Qed.

Lemma set_place_count i k (A : tree) j : count <$> set_place i k A !! j = count <$> A !! j.
Proof.
  unfold set_place. destruct (A !! i) as [e|] eqn:E; [|done]. destruct (decide (j = i)) as [->|Hj].
  - rewrite lookup_insert_eq. by rewrite E.
  - by rewrite lookup_insert_ne.
Qed.

Lemma opt_place_count o k (A : tree) j : count <$> opt_place o k A !! j = count <$> A !! j.
Proof. destruct o; [apply set_place_count|done]. Qed.

Lemma displaced_count (A : tree) d nm A' j : displaced false A d nm A' -> count <$> A' !! j = count <$> A !! j.
Proof.
  intros [[_ ->]|(i & e & He & _ & ->)]; [done|]. destruct (decide (j = i)) as [->|Hj]; [|by rewrite lookup_insert_ne].
  rewrite lookup_insert_eq, He. cbn. f_equal. lia.
Qed.

(** A reply with a node is one lookup more. *)
Lemma agrees_found h (A : tree) d nm i g e : agrees h A -> (i <> FUSE_ROOT_ID -> count e = held h i + 1) ->
  agrees ((OFind d nm, RNode (Some (i, g))) :: h) (<[i := e]> A).
Proof.
  intros Ha He j Hj. cbn [held]. destruct (Z.eqb_spec i j) as [->|Hn].
  - rewrite lookup_insert_eq. by rewrite He.
  - rewrite lookup_insert_ne by done. specialize (Ha j Hj). destruct (A !! j); lia.
Qed.

(** Without remember, every request keeps the counts. *)
Lemma spec_agrees h (A : tree) o r A' : agrees h A -> spec false A o r A' -> agrees ((o, r) :: h) A'.
Proof.
  intros Ha Hs. destruct Hs as [d e He|d nm i e He Hp|d nm i g Hv Hi Hr|d nm Hv|k|i k e A' Hr He Hc|d nm A' Hd| | |od on nd nn hide i A' Hf Hd Hh
      |od on nd nn hide i A' Hf Hd Hh| | |].
  - apply agrees_found; [done|]. intros Hd. specialize (Ha d Hd). rewrite He in Ha. cbn. lia.
  - apply agrees_found; [done|]. intros Hn. specialize (Ha i Hn). rewrite He in Ha. cbn. lia.
  - apply agrees_found; [done|]. intros Hn. specialize (Ha i Hn). rewrite Hi in Ha. cbn. lia.
  - done.
  - eapply agrees_same; [exact Ha|done|]. intros i Hi. cbn [held]. destruct (Z.eqb_spec FUSE_ROOT_ID i); [congruence|lia].
  - intros j Hj. cbn [held]. set (B := <[i := Entry (count e - k) (place e) (gen e)]> A) in Hc.
    assert (match B !! j with Some e' => count e' = held h j - (if i =? j then k else 0) | None => held h j - (if i =? j then k else 0) = 0 end) as HB.
    { unfold B. destruct (Z.eqb_spec i j) as [->|Hn].
      - rewrite lookup_insert_eq. specialize (Ha j Hj). rewrite He in Ha. cbn. lia.
      - rewrite lookup_insert_ne by done. specialize (Ha j Hj). destruct (A !! j); lia. }
    destruct (A' !! j) as [e'|] eqn:E'.
    + apply Hc in E' as [E' _]. rewrite E' in HB. done.
    + destruct (B !! j) as [e'|] eqn:EB; [|done]. destruct (Z.eq_dec (count e') 0) as [Hz|Hz]; [lia|].
      assert (A' !! j = Some e') as E2; [|congruence]. apply Hc. split; [done|]. by eapply live_ref.
  - apply (agrees_same h _ A); [done| |done]. intros x _. by apply (displaced_count A d nm).
  - done.
  - done.
  - apply (agrees_same h _ A); [done| |done]. intros x _. rewrite set_place_count. by apply (displaced_count A nd nn).
  - apply (agrees_same h _ A); [done| |done]. intros x _. rewrite set_place_count. by apply (displaced_count A nd nn).
  - apply (agrees_same h _ A); [done| |done]. intros x _. by rewrite !opt_place_count.
  - apply (agrees_same h _ A); [done| |done]. intros x _. by rewrite opt_place_count, set_place_count.
  - apply (agrees_same h _ A); [done| |done]. intros x _. by rewrite opt_place_count, set_place_count, opt_place_count.
Qed.

Lemma protocol_allowed h f o : agrees h (abs f) -> protocol h f o -> allowed (remembers f) (abs f) o.
Proof.
  intros Ha Hp. destruct o as [| i k| | |]; try done. destruct Hp as [->|Hk]; [by left|]. destruct (decide (i = FUSE_ROOT_ID)) as [->|Hi]; [by left|].
  right. specialize (Ha i Hi). destruct (abs f !! i) as [e|]; [|lia]. exists e. split; [done|]. by rewrite Ha.
Qed.

Lemma conversation_ok f0 h f : initial f0 -> remembers f0 = false -> conversation f0 h f ->
  inv f /\ unlocked f /\ remembers f = false /\ agrees h (abs f).
Proof.
  intros (Hi & Hu & _ & Ht)%initial_ok Hr Hh. induction Hh as [|h f o r f' Hh (IH & Hu' & Hr' & Ha) Hp E].
  { split; [done|]. split; [done|]. split; [done|]. intros i Hn. rewrite Ht. unfold root_tree. by rewrite lookup_singleton_ne. }
  destruct (refine_op f o IH (protocol_allowed h f o Ha Hp) (unlocked_ready f o Hu')) as (r' & f1 & E' & Hi' & Hs & Hc & _ & Hsp).
  rewrite E in E'. injection E' as <- <-. rewrite Hr' in Hsp. split; [done|]. split; [by eapply settled_unlocked|].
  split; [unfold remembers in *; by rewrite Hc|by apply (spec_agrees h (abs f))].
Qed.

(** What is live in the tree is needed in memory. *)
Lemma live_needed h f i : tree_ok f -> agrees h (abs f) -> live (abs f) i -> exists p, ptr f p i /\ needed h f p.
Proof.
  intros Hf Ha Hl. induction Hl as [i e He Hc|i e d nm _ (p & (n & Hn & Hi) & IH) He Hp].
  - pose proof He as (p & n & Hn & Hi & ->)%abs_iff; [|by apply tree_num]. exists p. split; [by exists n|]. cbn in Hc.
    destruct (decide (i = FUSE_ROOT_ID)) as [->|Hr]; [by eapply needed_root|]. eapply needed_held; [exact Hn|].
    specialize (Ha i Hr). rewrite He in Ha. cbn in Ha. pose proof (t_nlookup _ _ _ _ _ Hf p n Hn). rewrite Hi. lia.
  - destruct (ptr_abs f p i e Hf) as (n' & Hn' & _ & ->); [by exists n|done|]. cbn in Hp.
    destruct (key_in_inv _ _ _ _ Hp) as (m & dp & dn & Hm & Hd & Hdn & Hdi & _). simplify_eq. exists dp. split; [by exists dn|].
    by eapply needed_dir.
Qed.

(** C7: no node leaks and none is freed early, without the option remember.
    After every conversation with a kernel that keeps to the protocol, in which
    it forgets no more than it holds, counting what it holds from the replies and
    its FORGETs alone: every node that the kernel holds is found by [get_node],
    every node in memory but the root has exactly that count as its lookups, and
    its reference counter is one for being looked up and one for each node in it;
    and every node in memory is the root, held by the kernel, or a directory on
    the way to a node that is.  (With remember, fuse_clean_cache also frees
    nodes, see [clean_frees_held].) *)
Theorem tree_exact f0 h f : initial f0 -> remembers f0 = false -> conversation f0 h f ->
  (forall i, i <> FUSE_ROOT_ID -> 0 < held h i -> exists p n, get_node_ i f = Some (p, f) /\ nodes f !! p = Some n /\ nodeid n = i) /\
  (forall p n, nodes f !! p = Some n -> nodeid n <> FUSE_ROOT_ID -> nlookup n = held h (nodeid n)) /\
  (forall p n, nodes f !! p = Some n -> refctr n = (if nlookup n =? 0 then 0 else 1) + Z.of_nat (size (kids ∅ (nodes f) p))) /\
  (forall p n, nodes f !! p = Some n -> needed h f p).
Proof.
  intros Hst Hr Hh. destruct (conversation_ok f0 h f Hst Hr Hh) as ((Hf & Hac) & _ & _ & Ha). split_and!.
  - intros i Hi Hp. specialize (Ha i Hi). destruct (abs f !! i) as [e|] eqn:He; [|lia].
    destruct (get_node_abs f i Hf) as (p & n & E & Hn & Hj); [by eexists|]. by exists p, n.
  - intros p n Hn Hi. specialize (Ha (nodeid n) Hi). unfold abs in Ha. by rewrite (abs_Some (nodes f) p n (tree_num f Hf) Hn) in Ha.
  - intros p n Hn. exact (t_ref _ _ _ _ _ Hf p n Hn).
  - intros p n Hn. destruct (live_needed h f (nodeid n) Hf Ha) as (q & (m & Hm & Hi) & Hq).
    { apply tree_live; [done|done|]. eexists. by apply abs_Some; [apply tree_num|]. }
    by rewrite (tree_num f Hf p q n m Hn Hm).
Qed.

Lemma history_counter f0 f n l : initial f0 -> history f0 f n l -> Z.of_nat n < 2 ^ 33 ->
  counter f <= Z.of_nat n * 2 ^ 31 /\ Forall (fun s => s <= counter f) l /\ NoDup l.
Proof.
  intros Hst Hh. induction Hh as [|f n l o r f' Hh IH Ha E]; intros Hn.
  { destruct (initial_ok f0 Hst) as (_ & _ & -> & _). split; [lia|]. split; constructor. }
  destruct IH as (Hc & Hl & Hnd); [lia|]. destruct (history_ok _ _ _ _ Hst Hh) as [Hi Hu].
  destruct (refine_op f o Hi Ha (unlocked_ready f o Hu)) as (r' & f1 & E' & _ & _ & _ & (j & Hj & Hcn & Hr) & _). rewrite E in E'. injection E' as <- <-.
  destruct Hi as [Hf _]. pose proof (counter_range _ _ _ _ _ Hf) as Hcr. pose proof (t_size _ _ _ _ _ Hf) as Hsz.
  assert (counter f' = counter f + j) as Hc' by (rewrite Hcn; apply Z.mod_small; change (2 ^ 64) with (2 ^ 33 * 2 ^ 31); lia).
  assert (Forall (fun s => s <= counter f') l) as Hl' by (eapply Forall_impl; [exact Hl|]; cbn; lia).
  split; [lia|]. destruct r as [[[i g]|]| | |]; try done. destruct (decide (abs f !! i = None)) as [Hnone|]; [|done].
  destruct (Hr Hnone) as [Hj0 Hs]. rewrite Hs. split; [constructor; [lia|done]|]. constructor; [|done].
  intros Hin. rewrite Forall_forall in Hl. specialize (Hl _ Hin). cbn in Hl. lia.
Qed.

(** C33: no identity is used twice: over any history of less than 2^33 requests
    the pairs of generation and number given to new nodes are all different,
    though the 32-bit counter of numbers wraps around and numbers are used
    again once their nodes are gone. *)
Theorem identities_unique f0 f n l : initial f0 -> history f0 f n l -> Z.of_nat n < 2 ^ 33 -> NoDup l.
Proof. intros Hst Hh Hn. by apply (history_counter f0 f n l Hst Hh Hn). Qed.

End Refinement.

(** ** A run *)

Definition conf0 (rem : Z) : fuse_config :=
  Config false 0 false 0 false 0 (dbl_of_Z 1) (dbl_of_Z 0) (dbl_of_Z 1) false rem false false false false false false (dbl_of_Z 1) false.

#[local] Existing Instance bump_pages.
#[local] Existing Instance bump_laws.

(** The state after start-up and some requests. *)
Definition start_up (rem : Z) : option (fuse slab_mem) :=
  match make_root (empty_fuse (conf0 rem) (no_slabs 4096 (0 <? rem)) [] []) with Some (Some _, f) => Some f | _ => None end.

Fixpoint run_ops (os : list op) (f : fuse slab_mem) : option (fuse slab_mem) :=
  match os with [] => Some f | o :: os => r ← run_op o f; run_ops os r.2 end.

Definition demo (rem : Z) (os : list op) : fuse slab_mem :=
  default (empty_fuse (conf0 rem) (no_slabs 4096 (0 <? rem)) [] []) (f0 ← start_up rem; run_ops os f0).

Lemma demo_initial : initial (demo 0 []).
Proof.
  exists 4240, (no_slabs 4096 false), (conf0 0), [], []. split; [|by vm_compute].
  apply no_slabs_ok. exists 12. split; [lia|done].
Qed.

(** A lookup in the root is always allowed in a small tree. *)
Lemma allowed_find rem (A : tree) nm e : A !! FUSE_ROOT_ID = Some e -> (count e =? 0) = false -> (Z.of_nat (size A) + 1 <? 2 ^ 30) = true ->
  bool_decide (map_Forall (fun _ e => count e + 1 < 2 ^ 64) A) = true -> allowed rem A (OFind FUSE_ROOT_ID (Some nm)).
Proof.
  intros He Hc%Z.eqb_neq Hs%Z.ltb_lt Hb%bool_decide_eq_true. split; [by exists e|]. split; [done|exact Hb].
Qed.

(** An entry at a place, decided by looking at all entries. *)
Lemma at_place_all (A : tree) d nm (P : Z -> entry -> Prop) :
  map_Forall (fun i e => place e = Some (d, nm) -> P i e) A -> at_place A d nm P.
Proof. done. Qed.

(** The top is below nothing else. *)
Lemma below_top (A : tree) i j e : A !! j = Some e -> place e = None -> i <> j -> ~ below A i j.
Proof. intros Hj Hp Hne Hb. inversion Hb; simplify_eq. Qed.

Abbreviation find_a := (OFind FUSE_ROOT_ID (Some (lit "a"))).
Abbreviation find_b := (OFind FUSE_ROOT_ID (Some (lit "b"))).

Lemma demo_history : history (demo 0 []) (demo 0 [find_a; find_b]) 2 [stamp 0 3; stamp 0 2].
Proof.
  assert (history (demo 0 []) (demo 0 [find_a]) 1 [stamp 0 2]) as H1.
  { eapply (history_new _ _ _ _ find_a); [constructor| |by vm_compute|by vm_compute]. eapply allowed_find; by vm_compute. }
  eapply (history_new _ _ _ _ find_b); [exact H1| |by vm_compute|by vm_compute]. eapply allowed_find; by vm_compute.
Qed.

Lemma tree_refines_witness : exists f0 f n l o r f', initial f0 /\ history f0 f n l /\ allowed (remembers f) (abs f) o /\
  run_op o f = Some (r, f') /\ spec (remembers f) (abs f) o r (abs f').
Proof.
  set (o := ORename FUSE_ROOT_ID (lit "a") FUSE_ROOT_ID (lit "b") false).
  assert (allowed (remembers (demo 0 [find_a; find_b])) (abs (demo 0 [find_a; find_b])) o) as Ha.
  { assert (abs (demo 0 [find_a; find_b]) !! FUSE_ROOT_ID = Some (Entry 1 None 0)) as Hr by by vm_compute.
    assert (holds (abs (demo 0 [find_a; find_b])) FUSE_ROOT_ID) as Hh by (eexists; split; [exact Hr|done]).
    split; [exact Hh|]. split; [exact Hh|]. split; [by vm_compute|]. split.
    - apply at_place_all. intros i e Hi Hp. split.
      + revert i e Hi Hp. apply (bool_decide_unpack (map_Forall (fun _ e => place e = Some (FUSE_ROOT_ID, lit "a") -> count e <> 0) _)). by vm_compute.
      + apply (below_top _ _ _ _ Hr); [done|]. intros ->. rewrite Hr in Hi. injection Hi as <-. discriminate Hp.
    - apply (bool_decide_unpack (map_Forall (fun _ e => place e = Some (FUSE_ROOT_ID, lit "b") -> 0 < count e) _)). by vm_compute. }
  destruct (tree_refines _ _ _ _ o demo_initial demo_history Ha) as (r & f' & E & Hs & _).
  exists (demo 0 []), (demo 0 [find_a; find_b]), 2%nat, [stamp 0 3; stamp 0 2], o, r, f'.
  split; [exact demo_initial|]. split; [exact demo_history|]. split; [exact Ha|]. split; [exact E|exact Hs].
Defined.

(** Two lookups, and one of them forgotten. *)
Abbreviation forget_a := (OForget 2 1).
Definition demo_talk : list (op * reply) :=
  [(forget_a, RDone); (find_b, RNode (Some (3, 0))); (find_a, RNode (Some (2, 0)))].

Lemma demo_conversation : conversation (demo 0 []) demo_talk (demo 0 [find_a; find_b; forget_a]).
Proof.
  assert (conversation (demo 0 []) [(find_a, RNode (Some (2, 0)))] (demo 0 [find_a])) as H1.
  { eapply conv_step; [constructor| |by vm_compute]. eapply allowed_find; by vm_compute. }
  assert (conversation (demo 0 []) [(find_b, RNode (Some (3, 0))); (find_a, RNode (Some (2, 0)))] (demo 0 [find_a; find_b])) as H2.
  { eapply conv_step; [exact H1| |by vm_compute]. eapply allowed_find; by vm_compute. }
  eapply conv_step; [exact H2| |by vm_compute]. right. by vm_compute.
Qed.

Lemma tree_exact_witness : conversation (demo 0 []) demo_talk (demo 0 [find_a; find_b; forget_a]) /\
  held demo_talk 2 = 0 /\ held demo_talk 3 = 1 /\ size (nodes (demo 0 [find_a; find_b; forget_a])) = 2%nat /\
  exists p n, get_node_ 3 (demo 0 [find_a; find_b; forget_a]) = Some (p, demo 0 [find_a; find_b; forget_a]) /\
    nodes (demo 0 [find_a; find_b; forget_a]) !! p = Some n /\ nodeid n = 3.
Proof.
  split; [exact demo_conversation|]. split; [reflexivity|]. split; [reflexivity|]. split; [by vm_compute|].
  apply (tree_exact (demo 0 []) demo_talk _ demo_initial ltac:(by vm_compute) demo_conversation); [done|by vm_compute].
Defined.

Lemma identities_unique_witness : initial (demo 0 []) /\ NoDup [stamp 0 3; stamp 0 2].
Proof.
  split; [exact demo_initial|]. apply (identities_unique _ _ _ _ demo_initial demo_history). lia.
Defined.

(** with the option remember, [fuse_clean_cache] can free a node the kernel
    still holds.  The kernel looks a file up twice, the file is removed, and the
    kernel forgets one of the two lookups; [forget_node] takes the node's last
    lookup for the one that only remembers it, puts the node on the list of
    forgotten nodes, and once the time is over it is freed.  When the kernel
    then forgets its own last lookup the node does not exist and the program
    aborts. *)
Theorem clean_frees_held :
  let f := demo 10 [find_a; find_a; ORemove FUSE_ROOT_ID (lit "a"); OForget 2 1] in
  abs f !! 2 = Some (Entry 1 None 0) /\
  exists f', fuse_clean_cache (set_clock [Timespec 100 0] f) = Some (60, f') /\ abs f' !! 2 = None /\ run_op (OForget 2 1) f' = None.
Proof. split; [by vm_compute|]. eexists. split; [by vm_compute|]. split; by vm_compute. Qed.
