(* ===== verification/Path.v ===== *)
(** * Paths and path locks: fuse.c

    A request names files by node number; the file system wants paths.
    [try_get_path] climbs from a node to the root and writes the path from the
    end of a buffer, and on the way it locks the nodes, so that no other request
    renames or removes a file while the path is in use: a node on a path is
    locked for reading, the node a request is about to rename or remove is
    locked for writing.  [treelock] is the number of readers, or -1 for a
    writer; while a writer waits [INT_MIN] is added, so that the value is
    negative and there are no new readers.

    A request that cannot have its locks waits in [lockq]; each release wakes
    the queue up.  All of this runs under one mutex; the definitions here are
    the sections between taking and releasing it, which are the steps of the
    concurrent program. *)

From S2P Require Import Prelude NodeTable Wire Locks Node.

Definition TREELOCK_WRITE : Z := -1.
Definition TREELOCK_WAIT_OFFSET : Z := - 2 ^ 31.

Definition ENOTEMPTY : Z := 39.

(** ** The buffer of a path *)

(** The buffer and the offset [s - buf].  Memory that is not initialised is
    [junk]. *)
Record path_buf := PathBuf { mem : bytes; pos : Z }.

Definition junk : Z := 165.

(** The doubling of [newbufsize]; it reaches any size below [2^32] in 33 steps
    and never a larger one. *)
Fixpoint grow (fuel : nat) (newbufsize need : Z) : option Z :=
  match fuel with
  | O => None
  | S fuel =>
      if newbufsize <? need then
        grow fuel (if 2147483648 <=? newbufsize then 4294967295 else newbufsize * 2) need
      else Some newbufsize
  end.

(** [memcpy] and [memmove] into a buffer; [None] is an access out of bounds. *)
Definition store (m : bytes) (at_ : Z) (s : bytes) : option bytes :=
  if (0 <=? at_) && (at_ + Z.of_nat (length s) <=? Z.of_nat (length m))
  then Some (take (Z.to_nat at_) m ++ s ++ drop (Z.to_nat at_ + length s) m) else None.

Definition load (m : bytes) (at_ len : Z) : option bytes :=
  if (0 <=? at_) && (0 <=? len) && (at_ + len <=? Z.of_nat (length m))
  then Some (take (Z.to_nat len) (drop (Z.to_nat at_) m)) else None.

(** The part of [add_name] that makes room; [ok] is the outcome of [realloc].
    The outer [None] is an access out of bounds or a loop that does not end, the
    inner one no memory. *)
Definition make_room (ok : bool) (b : path_buf) (len : Z) : option (option path_buf) :=
  let bufsize := Z.of_nat (length (mem b)) in
  let pathlen := u32 (bufsize - pos b) in
  newbufsize ← grow 33 bufsize (pathlen + len + 1);
  if negb ok then Some None else
  let newbuf := take (Z.to_nat newbufsize) (mem b ++ replicate (Z.to_nat newbufsize - length (mem b)) junk) in
  let s := newbufsize - pathlen in
  tail ← load newbuf (bufsize - pathlen) pathlen;
  m ← store newbuf s tail;
  Some (Some (PathBuf m s)).

(** The part that writes. *)
Definition prepend (b : path_buf) (name : bytes) : option path_buf :=
  let s := pos b - Z.of_nat (length name) in
  m ← store (mem b) s name;
  m ← store m (s - 1) (lit "/");
  Some (PathBuf m (s - 1)).

(** The string at [s]. *)
Definition path_at (b : path_buf) : bytes := cstr (drop (Z.to_nat (pos b)) (mem b)).

Section Code.
Context {M : Type} `{NodeMem M}.

Abbreviation F := (ST (fuse M)).

(** [None] when there is no memory. *)
Definition add_name (b : path_buf) (name : bytes) : F (option path_buf) :=
  let len := Z.of_nat (length name) in
  r ← (if pos b <=? len then ok ← malloc; some (make_room ok b len) else mret (Some b));
  match r with
  | None => mret None
  | Some b => b ← some (prepend b name); mret (Some b)
  end.

(** ** Locks on a path *)

(** The loop of [unlock_path] from [p]; [end_] may be null. *)
Fixpoint unlock_climb (fuel : nat) (p : Z) (end_ : option Z) : F unit :=
  match fuel with
  | O => abort
  | S fuel =>
      if bool_decide (Some p = end_) then mret tt else
      n ← node_at p;
      if nodeid n =? FUSE_ROOT_ID then mret tt else
      _ ← check (negb (treelock n =? 0));
      _ ← check (negb (treelock n =? TREELOCK_WAIT_OFFSET));
      _ ← check (negb (treelock n =? TREELOCK_WRITE));
      let v := i32 (treelock n - 1) in
      _ ← update p (with_treelock (if v =? TREELOCK_WAIT_OFFSET then 0 else v));
      d ← some (parent n);
      unlock_climb fuel d end_
  end.

(** A path has no more nodes than there are. *)
Definition unlock_path (i : Z) (wnode end_ : option Z) : F unit :=
  _ ← (match wnode with
       | Some w => n ← node_at w; _ ← check (treelock n =? TREELOCK_WRITE); update w (with_treelock 0)
       | None => mret tt
       end);
  p ← get_node_ i;
  f ← get;
  unlock_climb (S (size (nodes f))) p end_.

(** The loop of [try_get_path] from [p]: an error and the node it is at, or the
    buffer. *)
Fixpoint lock_climb (fuel : nat) (need_lock : bool) (p : Z) (b : path_buf) : F ((Z * Z) + path_buf) :=
  match fuel with
  | O => abort
  | S fuel =>
      n ← node_at p;
      if nodeid n =? FUSE_ROOT_ID then mret (inr b) else
      match name n, parent n with
      | Some nm, Some d =>
          r ← add_name b nm;
          match r with
          | None => mret (inl (- ENOMEM, p))
          | Some b =>
              if need_lock then
                if treelock n <? 0 then mret (inl (- EAGAIN, p)) else
                _ ← update p (with_treelock (i32 (treelock n + 1)));
                lock_climb fuel need_lock d b
              else lock_climb fuel need_lock d b
          end
      | _, _ => mret (inl (- ENOENT, p))
      end
  end.

(** The write lock on the file [name] in the directory, if it has a node:
    an error, or the node. *)
Definition lock_wnode (i : Z) (nm : option bytes) : F (Z + option Z) :=
  nm ← some nm;
  w ← find_name i nm;
  match w with
  | None => mret (inr None)
  | Some w =>
      n ← node_at w;
      if negb (treelock n =? 0) then
        _ ← (if 0 <? treelock n then update w (with_treelock (i32 (treelock n + TREELOCK_WAIT_OFFSET))) else mret tt);
        mret (inl (- EAGAIN))
      else _ ← update w (with_treelock TREELOCK_WRITE); mret (inr (Some w))
  end.

(** An error, or the path and the node locked for writing.  [wr] says that
    [wnodep] is not null. *)
Definition try_get_path (i : Z) (nm : option bytes) (wr need_lock : bool) : F (Z + bytes * option Z) :=
  ok ← malloc;
  if negb ok then mret (inl (- ENOMEM)) else
  let b := PathBuf (replicate 255 junk ++ [0]) 255 in
  r ← (match nm with Some nm => add_name b nm | None => mret (Some b) end);
  match r with
  | None => mret (inl (- ENOMEM))
  | Some b =>
      w ← (if wr then _ ← check need_lock; lock_wnode i nm else mret (inr None));
      match w with
      | inl e => mret (inl e)
      | inr w =>
          p ← get_node_ i;
          f ← get;
          r ← lock_climb (S (size (nodes f))) need_lock p b;
          match r with
          | inl (e, q) => _ ← (if need_lock then unlock_path i w (Some q) else mret tt); mret (inl e)
          | inr b => let s := path_at b in mret (inr (if bool_decide (s = []) then lit "/" else s, w))
          end
      end
  end.

(** [try_get_path2]; both locks or none. *)
Definition try_get_path2 (i1 : Z) (nm1 : option bytes) (i2 : Z) (nm2 : option bytes) (wr1 wr2 : bool) :
    F (Z + (bytes * option Z) * (bytes * option Z)) :=
  r1 ← try_get_path i1 nm1 wr1 true;
  match r1 with
  | inl e => mret (inl e)
  | inr pw1 =>
      r2 ← try_get_path i2 nm2 wr2 true;
      match r2 with
      | inl e => _ ← unlock_path i1 pw1.2 None; mret (inl e)
      | inr pw2 => mret (inr (pw1, pw2))
      end
  end.

(** ** The queue *)

Definition qe_update (q : Z) (g : lock_queue_element -> lock_queue_element) : F unit :=
  modify (fun f => set_lockq ((fun e => if qid e =? q then g e else e) <$> lockq f) f).

Definition qe_at (q : Z) : F lock_queue_element := f ← get; some (list_find (fun e => qid e = q) (lockq f) ≫= fun r => Some r.2).

Definition with_first (pw : bytes * option Z) (e : lock_queue_element) : lock_queue_element :=
  Queued (qid e) (nodeid1 e) (name1 e) (want1 e) (wr1 e) (Some pw.1) (if wr1 e then pw.2 else wnode1 e)
    (nodeid2 e) (name2 e) (want2 e) (wr2 e) (path2 e) (wnode2 e) (err e) true (second_locked e) (qdone e).
Definition with_second (pw : bytes * option Z) (e : lock_queue_element) : lock_queue_element :=
  Queued (qid e) (nodeid1 e) (name1 e) (want1 e) (wr1 e) (path1 e) (wnode1 e)
    (nodeid2 e) (name2 e) (want2 e) (wr2 e) (Some pw.1) (if wr2 e then pw.2 else wnode2 e) (err e) (first_locked e) true (qdone e).
Definition without_first (e : lock_queue_element) : lock_queue_element :=
  Queued (qid e) (nodeid1 e) (name1 e) (want1 e) (wr1 e) (path1 e) (wnode1 e)
    (nodeid2 e) (name2 e) (want2 e) (wr2 e) (path2 e) (wnode2 e) (err e) false (second_locked e) (qdone e).
Definition without_second (e : lock_queue_element) : lock_queue_element :=
  Queued (qid e) (nodeid1 e) (name1 e) (want1 e) (wr1 e) (path1 e) (wnode1 e)
    (nodeid2 e) (name2 e) (want2 e) (wr2 e) (path2 e) (wnode2 e) (err e) (first_locked e) false (qdone e).
Definition with_done (x : Z) (e : lock_queue_element) : lock_queue_element :=
  Queued (qid e) (nodeid1 e) (name1 e) (want1 e) (wr1 e) (path1 e) (wnode1 e)
    (nodeid2 e) (name2 e) (want2 e) (wr2 e) (path2 e) (wnode2 e) x (first_locked e) (second_locked e) true.

Definition with_path1 (v : option bytes) (e : lock_queue_element) : lock_queue_element :=
  Queued (qid e) (nodeid1 e) (name1 e) (want1 e) (wr1 e) v (wnode1 e)
    (nodeid2 e) (name2 e) (want2 e) (wr2 e) (path2 e) (wnode2 e) (err e) (first_locked e) (second_locked e) (qdone e).
Definition with_path2 (v : option bytes) (e : lock_queue_element) : lock_queue_element :=
  Queued (qid e) (nodeid1 e) (name1 e) (want1 e) (wr1 e) (path1 e) (wnode1 e)
    (nodeid2 e) (name2 e) (want2 e) (wr2 e) v (wnode2 e) (err e) (first_locked e) (second_locked e) (qdone e).

Definition queue_element_unlock (q : Z) : F unit :=
  e ← qe_at q;
  _ ← (if first_locked e then
         _ ← unlock_path (nodeid1 e) (if wr1 e then wnode1 e else None) None; qe_update q without_first
       else mret tt);
  e ← qe_at q;
  if second_locked e then
    _ ← unlock_path (nodeid2 e) (if wr2 e then wnode2 e else None) None; qe_update q without_second
  else mret tt.

(** The two attempts of [queue_element_wakeup]: 0, or the error. *)
Definition try_first (q : Z) : F Z :=
  e ← qe_at q;
  if first_locked e then mret 0 else
  r ← try_get_path (nodeid1 e) (name1 e) (wr1 e) true;
  match r with
  | inr pw => _ ← qe_update q (with_first pw); mret 0
  | inl x => _ ← qe_update q (with_path1 None); mret x
  end.

Definition try_second (q : Z) : F Z :=
  e ← qe_at q;
  if second_locked e || negb (want2 e) then mret 0 else
  r ← try_get_path (nodeid2 e) (name2 e) (wr2 e) true;
  match r with
  | inr pw => _ ← qe_update q (with_second pw); mret 0
  | inl x => _ ← qe_update q (with_path2 None); mret x
  end.

(** Signals to the waiting thread do not change the state: the thread looks at
    it again. *)
Definition queue_element_wakeup (q : Z) : F unit :=
  e ← qe_at q;
  f ← get;
  let first := bool_decide (qid <$> head (lockq f) = Some q) in
  if negb (want1 e) then p ← get_node_ (nodeid1 e); _ ← node_at p; mret tt else
  let err_unlock (x : Z) : F unit := _ ← queue_element_unlock q; qe_update q (with_done x) in
  x ← try_first q;
  if negb (x =? 0) && negb (x =? - EAGAIN) then err_unlock x else
  x ← try_second q;
  if negb (x =? 0) && negb (x =? - EAGAIN) then err_unlock x else
  e ← qe_at q;
  if first_locked e && (second_locked e || negb (want2 e)) then qe_update q (with_done 0) else
  if negb first then queue_element_unlock q else mret tt.

Fixpoint wake_up_all (qs : list Z) : F unit :=
  match qs with [] => mret tt | q :: qs => _ ← queue_element_wakeup q; wake_up_all qs end.

(** Waking an element up does not change which elements there are. *)
Definition wake_up_queued : F unit := f ← get; wake_up_all (qid <$> lockq f).

Definition queue_path (e : lock_queue_element) : F unit := modify (fun f => set_lockq (lockq f ++ [e]) f).

Definition dequeue_path (q : Z) : F unit :=
  _ ← qe_at q; modify (fun f => set_lockq (filter (fun e => qid e <> q) (lockq f)) f).

(** ** The sections of a request

    [get_path_common] up to the wait: [None] if it waits, under the number
    [q]. *)
Definition get_path_common (q i : Z) (nm : option bytes) (wr : bool) : F (option (Z + bytes * option Z)) :=
  r ← try_get_path i nm wr true;
  match r with
  | inl x =>
      if x =? - EAGAIN then
        _ ← queue_path (Queued q i nm true wr None None 0 None false false None None 0 false false false); mret None
      else mret (Some (inl x))
  | inr pw => mret (Some (inr pw))
  end.

Definition get_path (q i : Z) : F (option (Z + bytes * option Z)) := get_path_common q i None false.
Definition get_path_name (q i : Z) (nm : bytes) : F (option (Z + bytes * option Z)) := get_path_common q i (Some nm) false.
Definition get_path_wrlock (q i : Z) (nm : bytes) : F (option (Z + bytes * option Z)) := get_path_common q i (Some nm) true.

(** [get_path2], without the check for loops that only FreeBSD has. *)
Definition get_path2 (q i1 : Z) (nm1 : option bytes) (i2 : Z) (nm2 : option bytes) (wr1 wr2 : bool) :
    F (option (Z + (bytes * option Z) * (bytes * option Z))) :=
  r ← try_get_path2 i1 nm1 i2 nm2 wr1 wr2;
  match r with
  | inl x =>
      if x =? - EAGAIN then
        _ ← queue_path (Queued q i1 nm1 true wr1 None None i2 nm2 true wr2 None None 0 false false false); mret None
      else mret (Some (inl x))
  | inr pws => mret (Some (inr pws))
  end.

(** The end of [wait_path], when the thread runs again: [None] if it still has
    to wait, else the element with the result in [err]. *)
Definition wait_path (q : Z) : F (option lock_queue_element) :=
  e ← qe_at q;
  if qdone e then _ ← dequeue_path q; mret (Some e) else mret None.

Definition free_path_wrlock (i : Z) (wnode : option Z) : F unit :=
  _ ← unlock_path i wnode None;
  f ← get;
  if bool_decide (lockq f = []) then mret tt else wake_up_queued.

(** [path] may be null. *)
Definition free_path (i : Z) (path : option bytes) : F unit :=
  match path with Some _ => free_path_wrlock i None | None => mret tt end.

Definition free_path2 (i1 i2 : Z) (wnode1 wnode2 : option Z) : F unit :=
  _ ← unlock_path i1 wnode1 None; _ ← unlock_path i2 wnode2 None; wake_up_queued.

(** [forget_node] with its wait, for a node that is locked and loses its last
    lookups: [false] if it waits, under the number [q]. *)
Definition forget_begin (q i n : Z) : F bool :=
  r ← forget_node i n;
  if r : bool then mret true else
  _ ← queue_path (Queued q i None false false None None 0 None false false None None 0 false false false); mret false.

(** The same when the thread runs again: [false] if it still has to wait. *)
Definition forget_again (q i n : Z) : F bool :=
  p ← get_node_ i; nd ← node_at p;
  if (nlookup nd =? n) && negb (treelock nd =? 0) then mret false else
  _ ← dequeue_path q; forget_node i n.

End Code.
