(* ===== verification/PathSpec.v ===== *)
(** * Path locks: what they guarantee

    Requests that hold locks are kept in a ghost list of [hold]s: a node, the
    nodes on its path to the root, and the node locked for writing.
    [locks_inv] says that the counters in the nodes are exactly those of the
    holds.  The lemmas say what taking, releasing and waiting do to it, and that
    the path that is returned is the one of the tree. *)

From S2P Require Import Prelude NodeTable Wire Locks Node NodeTree NodeOps NodeSpec Path.

(** ** The buffer *)

(** The buffer holds the string [t], up to its end. *)
Record buf_ok (b : path_buf) (t : bytes) : Prop := {
  b_pos : 0 <= pos b;
  b_len : pos b + Z.of_nat (length t) + 1 = Z.of_nat (length (mem b));
  b_str : drop (Z.to_nat (pos b)) (mem b) = t ++ [0];
  b_min : 256 <= Z.of_nat (length (mem b)) <= 4294967295 }.

Lemma path_at_ok b t : buf_ok b t -> nonul t -> path_at b = t.
Proof. intros Hb Ht. unfold path_at. rewrite (b_str _ _ Hb). by apply cstr_app_nul. Qed.

(** The doubling ends at a size that is enough, if there is one. *)
Lemma grow_ok fuel n need : 0 < n <= 4294967295 -> need <= 4294967295 -> (n < need -> 8589934592 <= n * 2 ^ Z.of_nat fuel) -> (0 < fuel)%nat ->
  exists m, grow fuel n need = Some m /\ n <= m <= 4294967295 /\ need <= m.
Proof.
  revert n. induction fuel as [|fuel IH]; intros n Hn Hneed Hf Hf0; [lia|]. cbn [grow].
  destruct (Z.ltb_spec n need) as [Hlt|]; [|exists n; split; [done|lia]]. specialize (Hf Hlt).
  assert (2 ^ Z.of_nat (S fuel) = 2 * 2 ^ Z.of_nat fuel) as E by (rewrite Nat2Z.inj_succ, Z.pow_succ_r; lia). rewrite E in Hf.
  assert (0 < fuel)%nat as Hf1 by (destruct fuel; [cbn in Hf|]; lia).
  destruct (Z.leb_spec 2147483648 n) as [Hbig|Hsmall].
  - destruct (IH 4294967295) as (m & E' & Hm); [lia..|]. exists m. split; [done|lia].
  - destruct (IH (n * 2)) as (m & E' & Hm); [lia..|]. exists m. split; [done|lia].
Qed.

Lemma store_ok (m : bytes) a (s : bytes) : 0 <= a -> a + Z.of_nat (length s) <= Z.of_nat (length m) ->
  store m a s = Some (take (Z.to_nat a) m ++ s ++ drop (Z.to_nat a + length s) m).
Proof.
  intros Ha Hl. unfold store. destruct (Z.leb_spec 0 a), (Z.leb_spec (a + Z.of_nat (length s)) (Z.of_nat (length m))); [done|lia..].
Qed.

Lemma length_store (m : bytes) a (s : bytes) : 0 <= a -> a + Z.of_nat (length s) <= Z.of_nat (length m) ->
  length (take (Z.to_nat a) m ++ s ++ drop (Z.to_nat a + length s) m) = length m.
Proof. intros Ha Hl. rewrite !length_app, length_take, length_drop. lia. Qed.

Lemma drop_store (m : bytes) a (s : bytes) : 0 <= a -> a + Z.of_nat (length s) <= Z.of_nat (length m) ->
  drop (Z.to_nat a) (take (Z.to_nat a) m ++ s ++ drop (Z.to_nat a + length s) m) = s ++ drop (Z.to_nat a + length s) m.
Proof. intros Ha Hl. rewrite drop_app_length'; [done|]. rewrite length_take. lia. Qed.

Lemma prepend_ok b t nm : buf_ok b t -> Z.of_nat (length nm) < pos b -> exists b', prepend b nm = Some b' /\ buf_ok b' (lit "/" ++ nm ++ t).
Proof.
  intros Hb Hl. pose proof (b_len _ _ Hb) as Hlen. pose proof (b_min _ _ Hb) as Hmin. unfold prepend. set (a := pos b - _).
  assert (length (lit "/") = 1%nat) as Hs by done.
  rewrite (store_ok (mem b) a nm) by lia. cbn [mbind option_bind]. set (m1 := take _ _ ++ _).
  assert (length m1 = length (mem b)) as Hl1 by (apply length_store; lia).
  rewrite (store_ok m1 (a - 1) (lit "/")) by lia. cbn [mbind option_bind]. set (m2 := take _ m1 ++ _).
  assert (length m2 = length (mem b)) as Hl2 by (rewrite <- Hl1; apply (length_store m1 (a - 1) (lit "/")); lia).
  eexists. split; [reflexivity|]. split; cbn [mem pos].
  - lia.
  - rewrite Hl2, !length_app. lia.
  - unfold m2. rewrite (drop_store m1 (a - 1) (lit "/")), Hs by lia.
    replace (Z.to_nat (a - 1) + 1)%nat with (Z.to_nat a) by lia. unfold m1. rewrite (drop_store (mem b) a nm) by lia.
    replace (Z.to_nat a + length nm)%nat with (Z.to_nat (pos b)) by lia. by rewrite (b_str _ _ Hb), <- !app_assoc.
  - by rewrite Hl2.
Qed.

Lemma make_room_ok ok b t len : buf_ok b t -> 0 <= len -> Z.of_nat (length t) + len + 2 <= 4294967295 ->
  exists r, make_room ok b len = Some r /\ match r with Some b' => buf_ok b' t /\ len < pos b' | None => True end.
Proof.
  intros Hb Hl Hn. pose proof (b_len _ _ Hb) as Hlen. pose proof (b_min _ _ Hb) as Hmin. pose proof (b_pos _ _ Hb) as Hpos. unfold make_room.
  set (bs := Z.of_nat (length (mem b))) in *. assert (u32 (bs - pos b) = Z.of_nat (length t) + 1) as -> by (rewrite wrap_id; lia).
  destruct (grow_ok 33 bs (Z.of_nat (length t) + 1 + len + 1)) as (nb & E & Hnb & Hneed); [lia|lia|change (2 ^ Z.of_nat 33) with 8589934592; lia|lia|].
  rewrite E. cbn [mbind option_bind]. destruct ok; cbn [negb]; [|by exists None].
  set (nbuf := take (Z.to_nat nb) (mem b ++ replicate (Z.to_nat nb - length (mem b)) junk)).
  assert (length nbuf = Z.to_nat nb) as Hnl by (unfold nbuf; rewrite length_take, length_app, length_replicate; lia).
  assert (take (Z.to_nat (Z.of_nat (length t) + 1)) (drop (Z.to_nat (bs - (Z.of_nat (length t) + 1))) nbuf) = t ++ [0]) as Ht.
  { replace (bs - (Z.of_nat (length t) + 1)) with (pos b) by lia. unfold nbuf.
    rewrite (take_ge (mem b ++ _)) by (rewrite length_app, length_replicate; lia). rewrite drop_app_le by lia.
    rewrite (b_str _ _ Hb), take_app_le by (rewrite length_app; cbn; lia). by rewrite take_ge by (rewrite length_app; cbn; lia). }
  assert (load nbuf (bs - (Z.of_nat (length t) + 1)) (Z.of_nat (length t) + 1) = Some (t ++ [0])) as ->.
  { unfold load. rewrite Hnl, Ht. zcases. done. }
  cbn [mbind option_bind]. assert (length (t ++ [0]) = S (length t)) as Hlt by (rewrite length_app; cbn; lia).
  rewrite store_ok by (rewrite ?Hnl, ?Hlt; lia). cbn [mbind option_bind]. eexists. split; [reflexivity|].
  cbn [mem pos]. split; [|cbn; lia]. split; cbn [mem pos].
  - lia.
  - rewrite length_store; rewrite ?Hnl, ?Hlt; lia.
  - rewrite drop_store by (rewrite ?Hnl, ?Hlt; lia). rewrite (drop_ge nbuf) by (rewrite Hnl, Hlt; lia). by rewrite app_nil_r.
  - rewrite length_store; rewrite ?Hnl, ?Hlt; lia.
Qed.

(** The initial buffer. *)
Lemma new_buf_ok : buf_ok (PathBuf (replicate 255 junk ++ [0]) 255) [].
Proof. by split; vm_compute. Qed.

Section Climb.
Context {M : Type} `{NodeMemLaws M}.
Implicit Types (f : fuse M) (N : gmap Z node).

Lemma add_name_ok f b t nm : buf_ok b t -> Z.of_nat (length t) + Z.of_nat (length nm) + 2 <= 4294967295 ->
  exists r h, add_name b nm f = Some (r, set_heap h f) /\ match r with Some b' => buf_ok b' (lit "/" ++ nm ++ t) | None => True end.
Proof.
  intros Hb Hl. unfold add_name.
  assert (exists r h, (if pos b <=? Z.of_nat (length nm) then ok ← malloc; some (make_room ok b (Z.of_nat (length nm))) else mret (Some b)) f =
    Some (r, set_heap h f) /\ match r with Some b' => buf_ok b' t /\ Z.of_nat (length nm) < pos b' | None => True end) as (r & h & E & Hr).
  { destruct (Z.leb_spec (pos b) (Z.of_nat (length nm))).
    - destruct (malloc_eq f) as (ok & h & Em). rewrite (bind_step _ _ _ _ _ Em).
      destruct (make_room_ok ok b t (Z.of_nat (length nm)) Hb) as (r & E & Hr); [lia|lia|]. exists r, h. by rewrite E.
    - exists (Some b), (heap f). split; [by destruct f|]. split; [done|lia]. }
  rewrite (bind_step _ _ _ _ _ E). destruct r as [b1|]; [|by exists None, h]. destruct Hr as [Hb1 Hp].
  destruct (prepend_ok b1 t nm Hb1 Hp) as (b2 & E2 & Hb2). rewrite E2. by exists (Some b2), h.
Qed.

(** ** Paths in the tree *)

(** [l] is the way from [p] up to [e], without [e]; no node of it is the
    root. *)
Inductive segment N : Z -> list Z -> Z -> Prop :=
  | seg_nil p : is_Some (N !! p) -> segment N p [] p
  | seg_cons p n d nm l e : N !! p = Some n -> nodeid n <> FUSE_ROOT_ID -> parent n = Some d -> name n = Some nm -> segment N d l e ->
      segment N p (p :: l) e.

Definition is_root N (e : Z) : Prop := exists n, N !! e = Some n /\ nodeid n = FUSE_ROOT_ID.

(** The whole path of [p]. *)
Definition full_path N (p : Z) (l : list Z) : Prop := exists e, segment N p l e /\ is_root N e.

(** The string of the nodes [l] followed by [t]. *)
Fixpoint path_string N (l : list Z) (t : bytes) : bytes :=
  match l with
  | [] => t
  | p :: l => path_string N l (lit "/" ++ default [] (n ← N !! p; name n) ++ t)
  end.

(** The locks of the nodes in [l] changed by [g]. *)
Definition relock (g : Z -> Z) (l : list Z) N : gmap Z node :=
  map_imap (fun p n => Some (if bool_decide (p ∈ l) then with_treelock (g (treelock n)) n else n)) N.

Lemma relock_lookup g l N p : relock g l N !! p = (fun n => if bool_decide (p ∈ l) then with_treelock (g (treelock n)) n else n) <$> N !! p.
Proof. unfold relock. rewrite map_lookup_imap. by destruct (N !! p). Qed.

Lemma relock_nil g N : relock g [] N = N.
Proof. apply map_eq. intros p. rewrite relock_lookup. rewrite bool_decide_eq_false_2 by apply not_elem_of_nil. by destruct (N !! p). Qed.

(** One node first. *)
Lemma relock_cons g p l N n : N !! p = Some n -> p ∉ l -> relock g l (<[p := with_treelock (g (treelock n)) n]> N) = relock g (p :: l) N.
Proof.
  intros Hn Hp. apply map_eq. intros q. rewrite !relock_lookup. destruct (decide (q = p)) as [->|Hq].
  - rewrite lookup_insert_eq, Hn. cbn. rewrite bool_decide_eq_false_2 by done. by rewrite bool_decide_eq_true_2 by left.
  - rewrite lookup_insert_ne by done. destruct (N !! q); [|done]. cbn. f_equal.
    rewrite (bool_decide_ext (q ∈ p :: l) (q ∈ l)) by (rewrite elem_of_cons; tauto). done.
Qed.

(** Locks do not change the tree. *)
Definition lock_only N N' : Prop := forall p, (with_treelock 0 <$> N' !! p) = (with_treelock 0 <$> N !! p).

#[global] Instance lock_only_equiv : Equivalence lock_only.
Proof. split; [by intros N p|by intros N N' E p|intros N1 N2 N3 E1 E2 p; by rewrite E2, E1]. Qed.

Lemma relock_lock_only g l N : lock_only N (relock g l N).
Proof. intros p. rewrite relock_lookup. destruct (N !! p); [|done]. cbn. by destruct (bool_decide _). Qed.

Lemma insert_lock_only N p n v : N !! p = Some n -> lock_only N (<[p := with_treelock v n]> N).
Proof.
  intros Hn q. destruct (decide (q = p)) as [->|]; [by rewrite lookup_insert_eq, Hn|by rewrite lookup_insert_ne].
Qed.

Lemma lock_only_lookup N N' p n : lock_only N N' -> N !! p = Some n -> exists v, N' !! p = Some (with_treelock v n).
Proof.
  intros E Hn. specialize (E p). rewrite Hn in E. destruct (N' !! p) as [m|]; [|done]. exists (treelock m). apply (inj Some) in E.
  transitivity (Some (with_treelock (treelock m) (with_treelock 0 m))); [by destruct m|]. rewrite E. by destruct n.
Qed.

Lemma segment_lock_only N N' p l e : lock_only N N' -> segment N p l e -> segment N' p l e.
Proof.
  intros E Hs. induction Hs as [p [n Hn]|p n d nm l e Hn Hr Hd Hnm Hs IH].
  - destruct (lock_only_lookup N N' p n E Hn) as [v Hv]. constructor. by eexists.
  - destruct (lock_only_lookup N N' p n E Hn) as [v Hv]. by apply (seg_cons N' p (with_treelock v n) d nm).
Qed.

Lemma is_root_lock_only N N' e : lock_only N N' -> is_root N e -> is_root N' e.
Proof. intros E (n & Hn & Hr). destruct (lock_only_lookup N N' e n E Hn) as [v Hv]. by exists (with_treelock v n). Qed.

Lemma full_path_lock_only N N' p l : lock_only N N' -> full_path N p l -> full_path N' p l.
Proof. intros E (e & Hs & He). exists e. split; [by eapply segment_lock_only|by eapply is_root_lock_only]. Qed.

Lemma path_string_lock_only N N' l t : lock_only N N' -> path_string N' l t = path_string N l t.
Proof.
  intros E. revert t. induction l as [|p l IH]; intros t; [done|]. cbn [path_string]. rewrite IH. do 3 f_equal.
  destruct (N !! p) as [n|] eqn:Hn.
  - destruct (lock_only_lookup N N' p n E Hn) as [v ->]. done.
  - specialize (E p). rewrite Hn in E. by destruct (N' !! p).
Qed.

(** In a tree a way does not meet itself. *)
Lemma segment_depth N p l e k n : num_inj N -> closed N -> segment N p l e -> N !! p = Some n -> depth (abs_nodes N) k (nodeid n) ->
  (exists m j, N !! e = Some m /\ depth (abs_nodes N) j (nodeid m) /\ (j + length l = k)%nat) /\ NoDup l /\
  forall q, q ∈ l -> exists m j, N !! q = Some m /\ depth (abs_nodes N) j (nodeid m) /\ (k < j + length l <= k + length l)%nat.
Proof.
  intros Hin Hcl Hs. revert k n. induction Hs as [p Hp|p n d nm l e Hn Hr Hd Hnm Hs IH]; intros k n' Hn' Hk.
  - split; [exists n', k; split; [done|]; split; [done|cbn; lia]|]. split; [constructor|]. by intros q ?%not_elem_of_nil.
  - assert (n' = n) as -> by congruence. destruct (key_in_closed N p n d Hcl Hn Hd) as (dn & nm' & Hdn & _ & Hkey).
    pose proof (abs_Some N p n Hin Hn) as Hp. inversion Hk as [i e' He Hpl|i e' d' nm'' k' He Hpl Hk']; subst; rewrite He in Hp; injection Hp as ->;
      unfold entry_of in Hpl; cbn in Hpl; rewrite Hkey in Hpl; [done|]. injection Hpl as <- <-.
    destruct (IH k' dn Hdn Hk') as ((m & j & Hm & Hj & Ej) & Hnd & Hall). split; [exists m, j; cbn; split; [done|]; split; [done|lia]|]. split.
    + constructor; [|done]. intros Hp. destruct (Hall p Hp) as (m' & j' & Hm' & Hj' & Hlt). assert (m' = n) as -> by congruence.
      pose proof (depth_fun _ _ _ _ Hk Hj'). lia.
    + intros q [->|Hq]%elem_of_cons; [exists n, (S k'); split; [done|]; split; [done|cbn; lia]|].
      destruct (Hall q Hq) as (m' & j' & Hm' & Hj' & Hlt). exists m', j'. cbn. split; [done|]. split; [done|lia].
Qed.

(** The depth of a node is less than the number of nodes. *)
Lemma depth_size (A : tree) k i : depth A k i -> (k < size A)%nat.
Proof.
  intros Hk. assert (exists s : gset Z, size s = S k /\ s ⊆ dom A /\ forall j, j ∈ s -> exists k', (k' <= k)%nat /\ depth A k' j) as (s & Hs & Hsub & _).
  { induction Hk as [i e Hi Hp|i e d nm k Hi Hp Hk (s & Hs & Hsub & Hd)].
    - exists {[i]}. rewrite size_singleton. split; [done|]. split; [apply elem_of_dom_2 in Hi; set_solver|].
      intros j ->%elem_of_singleton. exists O. split; [lia|]. by apply (depth_top A i e).
    - exists ({[i]} ∪ s). assert (i ∉ s) as Hni.
      { intros Hin. destruct (Hd i Hin) as (k' & Hk' & Hdi). pose proof (depth_dir A i e d nm k Hi Hp Hk) as Hds.
        pose proof (depth_fun _ _ _ _ Hds Hdi). lia. }
      rewrite size_union, size_singleton by set_solver. split; [lia|]. split; [apply elem_of_dom_2 in Hi; set_solver|].
      intros j [->%elem_of_singleton|Hj]%elem_of_union; [exists (S k); split; [lia|]; by apply (depth_dir A i e d nm)|].
      destruct (Hd j Hj) as (k' & ? & ?). exists k'. split; [lia|done]. }
  apply subseteq_size in Hsub. rewrite size_dom in Hsub. lia.
Qed.

(** The tree without its locks. *)
Record sound N : Prop := {
  n_inj : num_inj N; n_closed : closed N; n_acyclic : acyclic (abs_nodes N) }.

Lemma segment_ok N p l e : sound N -> segment N p l e -> NoDup l /\ (length l < size N)%nat /\ e ∉ l.
Proof.
  intros [Hin Hcl Ha] Hs. assert (is_Some (N !! p)) as [n Hn] by (inversion Hs; subst; [done|by eexists]).
  destruct (Ha (nodeid n)) as [k Hk]; [eexists; by apply abs_Some|].
  destruct (segment_depth N p l e k n Hin Hcl Hs Hn Hk) as ((m & j & Hm & Hj & Ej) & Hnd & Hall). split; [done|].
  pose proof (depth_size _ _ _ Hk) as Hsz. rewrite abs_nodes_size in Hsz by done. split; [lia|].
  intros He. destruct (Hall e He) as (m' & j' & Hm' & Hj' & Hlt). assert (m' = m) as -> by congruence. pose proof (depth_fun _ _ _ _ Hj Hj'). lia.
Qed.

(** ** Climbing *)

Definition read_lock (v : Z) : Z := i32 (v + 1).

Definition read_unlock (v : Z) : Z := let v := i32 (v - 1) in if v =? TREELOCK_WAIT_OFFSET then 0 else v.

(** Why climbing stops below the root. *)
Definition stuck N (e er : Z) : Prop := exists m, N !! e = Some m /\ nodeid m <> FUSE_ROOT_ID /\
  (er = - ENOENT /\ (name m = None \/ parent m = None) \/ er = - ENOMEM \/ er = - EAGAIN /\ treelock m < 0).

(** There is room for the paths from [p] in front of [t]. *)
Definition fits N (p : Z) (t : bytes) : Prop := forall l e, segment N p l e -> Z.of_nat (length (path_string N l t)) + 1 <= 4294967295.

Lemma stuck_lock_only N p n e er v : N !! p = Some n -> e <> p -> stuck (<[p := with_treelock v n]> N) e er -> stuck N e er.
Proof. intros Hn Hne (m & Hm & ?). rewrite lookup_insert_ne in Hm by done. by exists m. Qed.

Lemma key_lock_only N N' p : lock_only N N' -> key_in N' p = key_in N p.
Proof.
  intros E. assert (lock_only N' N) as E' by by symmetry. unfold key_in. destruct (N !! p) as [n|] eqn:Hn.
  - destruct (lock_only_lookup N N' p n E Hn) as [v ->]. cbn. destruct (parent n) as [d|]; [|done]. cbn.
    destruct (N !! d) as [dn|] eqn:Hdn; [destruct (lock_only_lookup N N' d dn E Hdn) as [u ->]; done|].
    destruct (N' !! d) as [dn|] eqn:Hdn'; [destruct (lock_only_lookup N' N d dn E' Hdn') as [u ?]; congruence|done].
  - destruct (N' !! p) as [n|] eqn:Hn'; [destruct (lock_only_lookup N' N p n E' Hn') as [u ?]; congruence|done].
Qed.

Lemma sound_lock_only N N' : lock_only N N' -> sound N -> sound N'.
Proof.
  intros E [Hin Hcl Ha]. assert (lock_only N' N) as E' by by symmetry.
  assert (forall p, key_in N' p = key_in N p) as Hk by (intros p; by apply key_lock_only).
  assert (num_inj N') as Hin'.
  { intros p q n m Hn Hm Ei. destruct (lock_only_lookup N' N p n E' Hn) as [u Hu], (lock_only_lookup N' N q m E' Hm) as [v Hv].
    by apply (Hin p q _ _ Hu Hv). }
  split; [done| |].
  - intros p n d Hn Hd. destruct (lock_only_lookup N' N p n E' Hn) as [u Hu]. destruct (Hcl p _ d Hu Hd) as [[dn Hdn] ?]. split; [|done].
    destruct (lock_only_lookup N N' d dn E Hdn) as [v ->]. by eexists.
  - replace (abs_nodes N') with (abs_nodes N); [done|]. apply map_eq. intros i. apply option_eq. intros e. rewrite !abs_iff by done. unfold entry_of. split.
    + intros (p & n & Hn & <- & ->). destruct (lock_only_lookup N N' p n E Hn) as [v Hv]. exists p, (with_treelock v n). by rewrite Hk.
    + intros (p & n & Hn & <- & ->). destruct (lock_only_lookup N' N p n E' Hn) as [v Hv]. exists p, (with_treelock v n). by rewrite Hk.
Qed.

Lemma lock_climb_ok fuel f p b t : sound (nodes f) -> is_Some (nodes f !! p) -> buf_ok b t -> fits (nodes f) p t ->
  (forall l e, segment (nodes f) p l e -> (length l < fuel)%nat) ->
  exists r h l e, lock_climb fuel true p b f = Some (r, set_nodes (relock read_lock l (nodes f)) (set_heap h f)) /\
    segment (nodes f) p l e /\ (forall q m, q ∈ l -> nodes f !! q = Some m -> 0 <= treelock m) /\
    match r with
    | inr b' => is_root (nodes f) e /\ buf_ok b' (path_string (nodes f) l t)
    | inl (er, q) => q = e /\ stuck (nodes f) e er
    end.
Proof.
  revert f p b t. induction fuel as [|fuel IH]; intros f p b t Hs [n Hn] Hb Hfit Hfuel.
  { specialize (Hfuel [] p (seg_nil _ p (ex_intro _ n Hn))). lia. }
  assert (segment (nodes f) p [] p) as Hnil by (constructor; by exists n).
  assert (forall (r : (Z * Z) + path_buf) h, Some (r, set_heap h f) = Some (r, set_nodes (relock read_lock [] (nodes f)) (set_heap h f))) as Hsame.
  { intros r h. rewrite relock_nil. by destruct f. }
  cbn [lock_climb]. rewrite (bind_step _ _ _ _ _ (node_at_eq f p n Hn)). destruct (Z.eqb_spec (nodeid n) FUSE_ROOT_ID) as [Hr|Hr].
  { exists (inr b), (heap f), [], p. split; [rewrite <- Hsame; by destruct f|]. split; [done|]. split; [by intros q m ?%not_elem_of_nil|].
    split; [by exists n|done]. }
  assert (forall (P : Z -> node -> Prop) q m, q ∈ [] -> nodes f !! q = Some m -> P q m) as Hno by (by intros P q m ?%not_elem_of_nil).
  destruct (name n) as [nm|] eqn:Enm, (parent n) as [d|] eqn:Ed.
  2,3,4: eexists (inl (_, _)), (heap f), [], p; split; [rewrite <- Hsame; by destruct f|]; split; [done|]; split; [by apply Hno|];
    split; [done|]; exists n; split; [done|]; split; [done|]; left; split; [done|]; by rewrite ?Enm, ?Ed; auto.
  assert (segment (nodes f) p [p] d) as Hone.
  { apply (seg_cons _ p n d nm); try done. constructor. by apply (n_closed _ Hs p n d). }
  assert (path_string (nodes f) [p] t = lit "/" ++ nm ++ t) as Hps by (cbn [path_string]; rewrite Hn; cbn; by rewrite Enm).
  destruct (add_name_ok f b t nm Hb) as (r & h & E & Hr').
  { specialize (Hfit _ _ Hone). rewrite Hps, !length_app in Hfit. change (length (lit "/")) with 1%nat in Hfit. lia. }
  rewrite (bind_step _ _ _ _ _ E). destruct r as [b1|].
  2: { exists (inl (- ENOMEM, p)), h, [], p. split; [by rewrite <- Hsame|]. split; [done|]. split; [by apply Hno|]. split; [done|]. exists n. auto. }
  destruct (Z.ltb_spec (treelock n) 0) as [Hneg|Hpos].
  { exists (inl (- EAGAIN, p)), h, [], p. split; [by rewrite <- Hsame|]. split; [done|]. split; [by apply Hno|]. split; [done|]. exists n. auto 10. }
  assert (nodes (set_heap h f) !! p = Some n) as Hn' by done. rewrite (bind_step _ _ _ _ _ (update_eq _ p _ n Hn')). set (f1 := set_nodes _ _).
  assert (lock_only (nodes f) (nodes f1)) as Hlo by by apply insert_lock_only.
  assert (forall l e, segment (nodes f1) d l e -> segment (nodes f) p (p :: l) e) as Hseg.
  { intros l e Hse. apply (seg_cons _ p n d nm); try done. eapply segment_lock_only, Hse. by symmetry. }
  destruct (IH f1 d b1 (lit "/" ++ nm ++ t)) as (r & h' & l & e & E1 & Hse & Hge & Hres); [by eapply sound_lock_only| |done| | |].
  - destruct (n_closed _ Hs p n d Hn Ed) as [[dn Hdn] _]. destruct (lock_only_lookup _ _ d dn Hlo Hdn) as [v Hv]. by exists (with_treelock v dn).
  - intros l e Hse. rewrite (path_string_lock_only _ _ l _ Hlo). specialize (Hfit _ _ (Hseg l e Hse)). cbn [path_string] in Hfit. rewrite Hn in Hfit.
    cbn in Hfit. rewrite Enm in Hfit. exact Hfit.
  - intros l e Hse. specialize (Hfuel _ _ (Hseg l e Hse)). cbn in Hfuel. lia.
  - pose proof (Hseg l e Hse) as Hpl. destruct (segment_ok _ _ _ _ Hs Hpl) as (Hnd & _ & He). apply NoDup_cons in Hnd as [Hpl' _].
    rewrite not_elem_of_cons in He. exists r, h', (p :: l), e. split; [|split; [done|split]].
    + rewrite E1. unfold f1. cbn [nodes set_nodes]. by rewrite <- (relock_cons read_lock p l (nodes f) n Hn Hpl').
    + intros q m [->|Hq]%elem_of_cons Hm; [congruence|]. apply (Hge q m Hq). cbn. rewrite lookup_insert_ne; [done|]. by intros <-.
    + destruct r as [[er q]|b'].
      * destruct Hres as [-> Hst]. split; [done|]. apply (stuck_lock_only _ p n _ _ (read_lock (treelock n)) Hn); [tauto|exact Hst].
      * destruct Hres as [Hro Hb']. split; [eapply is_root_lock_only, Hro; by symmetry|]. rewrite (path_string_lock_only _ _ l _ Hlo) in Hb'.
        cbn [path_string]. rewrite Hn. cbn. rewrite Enm. exact Hb'.
Qed.

Definition locked_read (v : Z) : Prop := v <> 0 /\ v <> TREELOCK_WAIT_OFFSET /\ v <> TREELOCK_WRITE.

Lemma unlock_climb_ok fuel f p l e end_ : sound (nodes f) -> segment (nodes f) p l e -> (end_ = Some e \/ end_ = None /\ is_root (nodes f) e) ->
  (length l < fuel)%nat -> (forall q m, q ∈ l -> nodes f !! q = Some m -> locked_read (treelock m)) ->
  unlock_climb fuel p end_ f = Some (tt, set_nodes (relock read_unlock l (nodes f)) f).
Proof.
  revert f p l. induction fuel as [|fuel IH]; intros f p l Hs Hse Hend Hlen Hlk; [lia|]. cbn [unlock_climb].
  destruct (segment_ok _ _ _ _ Hs Hse) as (Hnd & _ & He). inversion Hse as [q [n Hn]|q n d nm l' e' Hn Hr Hd Hnm Hse']; subst.
  - rewrite relock_nil. destruct Hend as [->|[-> (n' & Hn' & Hr)]]; [rewrite bool_decide_eq_true_2 by done; by destruct f|].
    rewrite bool_decide_eq_false_2 by done. rewrite (bind_step _ _ _ _ _ (node_at_eq f e n' Hn')), Hr. by destruct f.
  - rewrite not_elem_of_cons in He. apply NoDup_cons in Hnd as [Hp _].
    rewrite bool_decide_eq_false_2 by (destruct Hend as [->|[-> _]]; [naive_solver|done]).
    rewrite (bind_step _ _ _ _ _ (node_at_eq f p n Hn)), (proj2 (Z.eqb_neq _ _) Hr). destruct (Hlk p n ltac:(left) Hn) as (H0' & H1' & H2').
    rewrite (proj2 (Z.eqb_neq _ _) H0'), (proj2 (Z.eqb_neq _ _) H1'), (proj2 (Z.eqb_neq _ _) H2'). cbn [check negb]. rewrite !bind_ret.
    rewrite (bind_step _ _ _ _ _ (update_eq f p _ n Hn)), Hd. cbn [some]. rewrite bind_ret. set (f1 := set_nodes _ f).
    assert (lock_only (nodes f) (nodes f1)) as Hlo by by apply insert_lock_only.
    rewrite (IH f1 d l'); [|by eapply sound_lock_only|by eapply segment_lock_only| |cbn in Hlen; lia|].
    + unfold f1. cbn [nodes set_nodes]. by rewrite <- (relock_cons read_unlock p l' (nodes f) n Hn Hp).
    + destruct Hend as [->|[-> Hro]]; [by left|right]. split; [done|]. by eapply is_root_lock_only.
    + intros q m Hq. cbn. rewrite lookup_insert_ne by (by intros <-). intros Hm. apply (Hlk q m); [by right|done].
Qed.

(** ** Holds *)

(** A request that holds locks: on the path of [h_node], and for writing. *)
Record hold := Hold { h_node : Z; h_path : list Z; h_write : option Z }.

Definition readers (G : list hold) (p : Z) : Z := Z.of_nat (length (filter (fun h => p ∈ h_path h) G)).
Definition writers (G : list hold) (p : Z) : Z := Z.of_nat (length (filter (fun h => h_write h = Some p) G)).

(** The value of [treelock] for [r] readers and [w] writers. *)
Definition lock_value (v r w : Z) : Prop :=
  w = 0 /\ (v = r \/ 0 < r /\ v = r + TREELOCK_WAIT_OFFSET) \/ w = 1 /\ r = 0 /\ v = TREELOCK_WRITE.

(** The kernel holds the nodes the request names. *)
Definition hold_ok N (h : hold) : Prop :=
  full_path N (h_node h) (h_path h) /\ (exists n, N !! h_node h = Some n /\ nlookup n <> 0) /\
  forall w, h_write h = Some w -> exists n, N !! w = Some n /\ nlookup n <> 0.

Record locks_inv N (G : list hold) : Prop := {
  l_holds : Forall (hold_ok N) G;
  l_value : forall p n, N !! p = Some n -> lock_value (treelock n) (readers G p) (writers G p);
  l_few : Z.of_nat (length G) < 2 ^ 31 - 1 }.

Lemma readers_cons h G p : readers (h :: G) p = (if bool_decide (p ∈ h_path h) then 1 else 0) + readers G p.
Proof. unfold readers. rewrite filter_cons. destruct (decide _) as [E|E]; [rewrite bool_decide_eq_true_2 by done; cbn; lia|by rewrite bool_decide_eq_false_2]. Qed.

Lemma writers_cons h G p : writers (h :: G) p = (if bool_decide (h_write h = Some p) then 1 else 0) + writers G p.
Proof. unfold writers. rewrite filter_cons. destruct (decide _) as [E|E]; [rewrite bool_decide_eq_true_2 by done; cbn; lia|by rewrite bool_decide_eq_false_2]. Qed.

Lemma readers_range G p : 0 <= readers G p <= Z.of_nat (length G).
Proof. unfold readers. pose proof (length_filter (fun h => p ∈ h_path h) G). lia. Qed.

Lemma writers_range G p : 0 <= writers G p.
Proof. unfold writers. lia. Qed.

Lemma readers_pos G h p : h ∈ G -> p ∈ h_path h -> 0 < readers G p.
Proof.
  intros Hh Hp. unfold readers. assert (h ∈ filter (fun h => p ∈ h_path h) G) as Hf by by apply list_elem_of_filter.
  destruct (filter _ G); [by apply not_elem_of_nil in Hf|cbn; lia].
Qed.

Lemma writers_pos G h p : h ∈ G -> h_write h = Some p -> 0 < writers G p.
Proof.
  intros Hh Hp. unfold writers. assert (h ∈ filter (fun h => h_write h = Some p) G) as Hf by by apply list_elem_of_filter.
  destruct (filter _ G); [by apply not_elem_of_nil in Hf|cbn; lia].
Qed.

Lemma readers_perm G G' p : G ≡ₚ G' -> readers G' p = readers G p.
Proof. intros E. unfold readers. by rewrite E. Qed.

Lemma writers_perm G G' p : G ≡ₚ G' -> writers G' p = writers G p.
Proof. intros E. unfold writers. by rewrite E. Qed.

#[global] Instance locks_inv_perm N : Proper ((≡ₚ) ==> iff) (locks_inv N).
Proof.
  assert (forall G G', G ≡ₚ G' -> locks_inv N G -> locks_inv N G') as Hone.
  { intros G G' E [Hh Hv Hf]. split; [by rewrite <- E| |by rewrite <- E]. intros p n Hn. rewrite (readers_perm G G' p E), (writers_perm G G' p E). by apply Hv. }
  intros G G' E. split; apply Hone; [done|by symmetry].
Qed.

Lemma hold_ok_lock_only N N' h : lock_only N N' -> hold_ok N h -> hold_ok N' h.
Proof.
  intros E (Hp & (n & Hn & Hl) & Hw). split; [by eapply full_path_lock_only|]. split.
  - destruct (lock_only_lookup _ _ _ _ E Hn) as [v ->]. by eexists.
  - intros w Ew. destruct (Hw w Ew) as (m & Hm & ?). destruct (lock_only_lookup _ _ _ _ E Hm) as [v ->]. by eexists.
Qed.

(** A node that is locked is held. *)
Lemma locked_held N G p n : locks_inv N G -> N !! p = Some n -> treelock n <> 0 -> exists h, h ∈ G /\ (p ∈ h_path h \/ h_write h = Some p).
Proof.
  intros HG Hn Hl. destruct (l_value _ _ HG p n Hn) as [[Hw Hv]|(Hw & _ & _)].
  - assert (0 < readers G p) as Hr by (pose proof (readers_range G p); destruct Hv as [Hv|[? _]]; lia). unfold readers in Hr.
    destruct (filter (fun h => p ∈ h_path h) G) as [|h l] eqn:E; [cbn in Hr; lia|].
    assert (h ∈ filter (fun h => p ∈ h_path h) G) as [? ?]%list_elem_of_filter by (rewrite E; left). eauto.
  - unfold writers in Hw. destruct (filter (fun h => h_write h = Some p) G) as [|h l] eqn:E; [cbn in Hw; lia|].
    assert (h ∈ filter (fun h => h_write h = Some p) G) as [? ?]%list_elem_of_filter by (rewrite E; left). eauto.
Qed.

Lemma held_locked N G h p n : locks_inv N G -> h ∈ G -> p ∈ h_path h -> N !! p = Some n -> writers G p = 0 /\ locked_read (treelock n) /\
  lock_value (read_unlock (treelock n)) (readers G p - 1) 0.
Proof.
  intros HG Hh Hp Hn. pose proof (readers_pos G h p Hh Hp) as Hr.
  pose proof (readers_range G p) as Hrr. pose proof (l_few _ _ HG) as Hfew. destruct (l_value _ _ HG p n Hn) as [[Hw Hv]|(_ & ? & _)]; [|lia].
  split; [done|]. unfold locked_read, read_unlock, lock_value, TREELOCK_WAIT_OFFSET, TREELOCK_WRITE in *.
  assert (i32 (treelock n - 1) = treelock n - 1) as -> by (apply swrap_id; [lia|change (2 ^ (32 - 1)) with (2 ^ 31); lia]).
  split; [lia|]. left. split; [done|]. destruct (Z.eqb_spec (treelock n - 1) (- 2 ^ 31)); lia.
Qed.

(** ** Taking and releasing *)

Lemma set_nodes_self f : set_nodes (nodes f) f = f.
Proof. by destruct f. Qed.

(** A value is changed to another that means the same. *)
Lemma locks_inv_insert N G p n v : locks_inv N G -> N !! p = Some n -> lock_value v (readers G p) (writers G p) ->
  locks_inv (<[p := with_treelock v n]> N) G.
Proof.
  intros HG Hn Hv. split; [|intros q m [[<- <-]|[_ Hm]]%lookup_insert_Some; [done|by apply (l_value _ _ HG)]|apply (l_few _ _ HG)].
  eapply Forall_impl; [apply (l_holds _ _ HG)|]. intros h. apply hold_ok_lock_only. by apply insert_lock_only.
Qed.

Lemma lock_wnode_ok f i nm : tree_ok f -> exists r N', lock_wnode i (Some nm) f = Some (r, set_nodes N' f) /\
  match r with
  | inr None => vacant (abs f) i nm /\ N' = nodes f
  | inr (Some w) => exists n, nodes f !! w = Some n /\ key_in (nodes f) w = Some (i, nm) /\ treelock n = 0 /\
      N' = <[w := with_treelock TREELOCK_WRITE n]> (nodes f)
  | inl e => e = - EAGAIN /\ lock_only (nodes f) N' /\ (forall G, locks_inv (nodes f) G -> locks_inv N' G) /\
      exists w n, nodes f !! w = Some n /\ key_in (nodes f) w = Some (i, nm) /\ treelock n <> 0
  end.
Proof.
  intros Hf. unfold lock_wnode. cbn [some]. rewrite bind_ret.
  destruct (find_name_abs f i nm Hf) as (r & Er & Hr). rewrite (bind_step _ _ _ _ _ Er). destruct r as [w|].
  2: { exists (inr None), (nodes f). by rewrite set_nodes_self. }
  destruct Hr as (n & Hn & Hk). rewrite (bind_step _ _ _ _ _ (node_at_eq f w n Hn)). destruct (Z.eqb_spec (treelock n) 0) as [Hz|Hz]; cbn [negb].
  { rewrite (bind_step _ _ _ _ _ (update_eq f w _ n Hn)). exists (inr (Some w)). eexists. split; [reflexivity|]. by exists n. }
  destruct (Z.ltb_spec 0 (treelock n)).
  - rewrite (bind_step _ _ _ _ _ (update_eq f w _ n Hn)). eexists (inl _), _. split; [reflexivity|]. split; [done|].
    split; [by apply insert_lock_only|]. split; [|by exists w, n]. intros G HG. apply locks_inv_insert; [done|done|].
    pose proof (readers_range G w). pose proof (l_few _ _ HG). unfold TREELOCK_WAIT_OFFSET, TREELOCK_WRITE in *.
    destruct (l_value _ _ HG w n Hn) as [[Hw Hv]|(_ & _ & Hv)]; unfold TREELOCK_WAIT_OFFSET, TREELOCK_WRITE in *; [|lia]. left. split; [done|right]. split; [lia|].
    unfold TREELOCK_WAIT_OFFSET; rewrite swrap_id; [lia|lia|change (2 ^ (32 - 1)) with (2 ^ 31); lia].
  - rewrite bind_ret. eexists (inl _), (nodes f). rewrite set_nodes_self. split; [reflexivity|]. split; [done|]. split; [done|]. split; [done|]. by exists w, n.
Qed.

(** The request gets its locks. *)
Lemma locks_inv_take N G p l w : locks_inv N G -> hold_ok N (Hold p l w) -> Z.of_nat (length G) + 1 < 2 ^ 31 - 1 ->
  (forall q n, w = Some q -> N !! q = Some n -> treelock n = 0) ->
  (forall q n, q ∈ l -> N !! q = Some n -> 0 <= treelock n /\ w <> Some q) ->
  locks_inv (relock read_lock l (match w with Some q => match N !! q with Some n => <[q := with_treelock TREELOCK_WRITE n]> N | None => N end | None => N end))
    (Hold p l w :: G).
Proof.
  intros HG Hh Hfew Hw Hl. set (N1 := match w with Some _ => _ | None => _ end).
  assert (forall q m, N1 !! q = Some m -> exists n, N !! q = Some n /\
    (w = Some q /\ treelock n = 0 /\ m = with_treelock TREELOCK_WRITE n \/ w <> Some q /\ m = n)) as HN1.
  { intros q m. unfold N1. destruct w as [x|]; [|intros Hm; exists m; split; [done|by right]]. destruct (N !! x) as [n|] eqn:Hx.
    - intros [[<- <-]|[Hne Hm]]%lookup_insert_Some; [exists n; split; [done|left]; split; [done|]; split; [by apply (Hw x)|done]|].
      exists m. split; [done|right]. split; [congruence|done].
    - intros Hm. exists m. split; [done|right]. split; [congruence|done]. }
  assert (lock_only N N1) as Hlo.
  { unfold N1. destruct w as [x|]; [|reflexivity]. destruct (N !! x) eqn:Hx; [by apply insert_lock_only|reflexivity]. }
  assert (lock_only N (relock read_lock l N1)) as Hlo' by (transitivity N1; [done|apply relock_lock_only]).
  split; [|intros q m|cbn [length]; lia].
  - constructor; [by eapply hold_ok_lock_only|]. eapply Forall_impl; [apply (l_holds _ _ HG)|]. intros h. by apply hold_ok_lock_only.
  - rewrite relock_lookup, readers_cons, writers_cons. cbn [h_path h_write]. intros Hm. apply fmap_Some in Hm as (m1 & Hm1 & ->).
    destruct (HN1 q m1 Hm1) as (n & Hn & Hcase). pose proof (readers_range G q) as Hr. pose proof (writers_range G q) as Hwr.
    pose proof (l_value _ _ HG q n Hn) as Hv. destruct (bool_decide_reflect (q ∈ l)) as [Hq|Hq].
    + destruct (Hl q n Hq Hn) as [Hpos Hne]. rewrite bool_decide_eq_false_2 by done. destruct Hcase as [[? _]|[_ ->]]; [done|].
      cbn [treelock with_treelock]. unfold read_lock, lock_value, TREELOCK_WAIT_OFFSET, TREELOCK_WRITE in *.
      rewrite swrap_id; [lia|lia|change (2 ^ (32 - 1)) with (2 ^ 31); lia].
    + destruct Hcase as [(-> & Hz & ->)|[Hne ->]].
      * rewrite bool_decide_eq_true_2 by done. cbn [treelock with_treelock]. unfold lock_value, TREELOCK_WAIT_OFFSET, TREELOCK_WRITE in *. lia.
      * rewrite bool_decide_eq_false_2 by done. exact Hv.
Qed.

(** Locks taken on a part of a path are given back. *)
Lemma relock_back N l : (forall q n, q ∈ l -> N !! q = Some n -> 0 <= treelock n < 2 ^ 31 - 1) ->
  relock read_unlock l (relock read_lock l N) = N.
Proof.
  intros Hl. apply map_eq. intros q. rewrite !relock_lookup. destruct (N !! q) as [n|] eqn:Hn; [|done]. cbn. f_equal.
  destruct (bool_decide_reflect (q ∈ l)) as [Hq|]; [|done]. specialize (Hl q n Hq Hn). cbn [treelock with_treelock].
  unfold read_unlock, read_lock, TREELOCK_WAIT_OFFSET. rewrite (swrap_id 32 (treelock n + 1)) by (try lia; change (2 ^ (32 - 1)) with (2 ^ 31); lia).
  replace (treelock n + 1 - 1) with (treelock n) by lia. rewrite swrap_id by (try lia; change (2 ^ (32 - 1)) with (2 ^ 31); lia).
  destruct (Z.eqb_spec (treelock n) (- 2 ^ 31)); [lia|]. by destruct n.
Qed.

(** Searches by number do not look at locks. *)
Lemma find_chain_ext g g' l : (forall p, g p = g' p) -> find_chain g l = find_chain g' l.
Proof. intros E. induction l as [|p l IH]; [done|]. cbn [find_chain]. rewrite E. destruct (g' p) as [[]|]; [done|exact IH|done]. Qed.

Lemma get_node_lock_only f N' h i p : lock_only (nodes f) N' -> get_node_ i f = Some (p, f) ->
  get_node_ i (set_nodes N' (set_heap h f)) = Some (p, set_nodes N' (set_heap h f)).
Proof.
  intros E. unfold get_node_, find_id, get_node_nocheck. set (f' := set_nodes N' _).
  assert (find (fun q => n ← nodeid_of f' q; Some (n =? i)) (id_raw i) (id_table f') =
          find (fun q => n ← nodeid_of f q; Some (n =? i)) (id_raw i) (id_table f)) as Ef.
  { unfold find. cbn [id_table set_nodes set_heap f']. destruct (chain _ _) as [l|]; [|done]. cbn. apply find_chain_ext. intros q. unfold nodeid_of. cbn.
    specialize (E q). destruct (nodes f !! q) as [n|], (N' !! q) as [n'|]; try done. cbn in E. injection E as E. cbn. by destruct n, n'; cbn in *; simplify_eq. }
  rewrite !bind_assoc, !bind_get, Ef. clear Ef. destruct (find _ _ _) as [[q|]|]; [|discriminate|discriminate]. intros E2. injection E2 as ->. done.
Qed.

(** The state after locks have changed. *)
Lemma tree_ok_locks f N' G h : tree_ok f -> lock_only (nodes f) N' -> locks_inv N' G -> tree_ok (set_nodes N' (set_heap h f)).
Proof.
  intros Hf E HG. assert (lock_only N' (nodes f)) as E' by by symmetry.
  assert (forall p n', N' !! p = Some n' -> exists v, nodes f !! p = Some (with_treelock v n')) as Hold by (intros p n'; by apply lock_only_lookup).
  assert (forall p n, nodes f !! p = Some n -> exists v, N' !! p = Some (with_treelock v n)) as Hnew by (intros p n; by apply lock_only_lookup).
  assert (same_shape (nodes f) N') as Hss.
  { apply map_eq. intros p. rewrite !lookup_fmap. destruct (nodes f !! p) as [n|] eqn:Hn; [destruct (Hnew p n Hn) as [v ->]; done|].
    destruct (N' !! p) as [n'|] eqn:Hn'; [destruct (Hold p n' Hn'); congruence|done]. }
  apply (tree_inv_relock ∅ ∅ ∅ (fun _ => 0)); [by apply tree_inv_heap|done|done| |]; cbn [nodes set_heap].
  - intros p n' Hn'. destruct (Hold p n' Hn') as [v Hv]. eexists. split; [exact Hv|]. cbn. split; [done|].
    split; [intros _; apply (t_pos _ _ _ _ _ Hf p _ Hv), not_elem_of_empty|]. split; [apply (t_nlookup _ _ _ _ _ Hf p _ Hv)|]. by left.
  - intros p n' Hn' Ht. destruct (locked_held N' G p n' HG Hn' Ht) as (h0 & Hh & Hp).
    pose proof (l_holds _ _ HG) as Hall. rewrite Forall_forall in Hall. destruct (Hall h0 Hh) as ((e & Hse & _) & (b & Hb & Hbl) & Hw).
    destruct Hp as [Hp|Hp]; [|left; destruct (Hw p Hp) as (m & Hm & ?); congruence].
    assert (p = h_node h0 \/ exists q m, q ∈ h_path h0 /\ N' !! q = Some m /\ parent m = Some p) as [->|(q & m & Hq & Hm & Hpm)].
    { clear Hb Hbl Hw Ht Hh. induction Hse as [x Hx|x n d nm l e Hn Hr Hd Hnm Hse IH]; [by apply not_elem_of_nil in Hp|].
      apply elem_of_cons in Hp as [->|Hp]; [by left|right]. destruct (IH Hp) as [->|(q & m & Hq & ?)]; [exists x, n; split; [by left|done]|].
      exists q, m. split; [by right|done]. }
    + left. congruence.
    + right. exists q, m. split; [|split; [done|]].
      * apply elem_of_kids. exists m. split; [done|]. split; [done|apply not_elem_of_empty].
      * destruct (held_locked N' G h0 q m HG Hh Hq Hm) as (_ & (? & _) & _). done.
Qed.

Lemma tree_sound f : tree_ok f -> acyclic (abs f) -> sound (nodes f).
Proof. intros Hf Ha. split; [by apply tree_num|by apply tree_closed|done]. Qed.

(** Releasing the locks of a request. *)
Lemma unlock_path_ok f G i p l w : tree_ok f -> acyclic (abs f) -> ptr f p i -> locks_inv (nodes f) (Hold p l w :: G) ->
  exists N', unlock_path i w None f = Some (tt, set_nodes N' f) /\ lock_only (nodes f) N' /\ locks_inv N' G.
Proof.
  intros Hf Ha (n & Hn & <-) HG. unfold unlock_path.
  assert (exists N1, (match w with Some w => n ← node_at w; _ ← check (treelock n =? TREELOCK_WRITE); update w (with_treelock 0) | None => mret tt end) f =
    Some (tt, set_nodes N1 f) /\ lock_only (nodes f) N1 /\ locks_inv N1 (Hold p l None :: G)) as (N1 & E1 & Hlo & HG1).
  { assert (forall q, readers (Hold p l None :: G) q = readers (Hold p l w :: G) q) as Hrd by (intros q; by rewrite !readers_cons).
    destruct w as [w|]; [|exists (nodes f); by rewrite set_nodes_self].
    pose proof (l_holds _ _ HG) as Hh. apply Forall_cons in Hh as [(Hp & Hb & Hw) Hh]. destruct (Hw w eq_refl) as (m & Hm & Hlm).
    pose proof (l_value _ _ HG w m Hm) as Hv. rewrite writers_cons, bool_decide_eq_true_2 in Hv by done. pose proof (writers_range G w).
    assert (treelock m = TREELOCK_WRITE /\ readers (Hold p l (Some w) :: G) w = 0 /\ writers G w = 0) as (Ht & Hr0 & Hw0) by (unfold lock_value in Hv; lia).
    rewrite (bind_step _ _ _ _ _ (node_at_eq f w m Hm)), Ht. cbn [check Z.eqb TREELOCK_WRITE Pos.eqb]. rewrite bind_ret, (update_eq f w _ m Hm).
    eexists. split; [reflexivity|]. split; [by apply insert_lock_only|]. split; [| |apply (l_few _ _ HG)].
    - constructor; [eapply hold_ok_lock_only; [by apply insert_lock_only|]; done|]. eapply Forall_impl; [exact Hh|].
      intros h. apply hold_ok_lock_only. by apply insert_lock_only.
    - intros q k. rewrite Hrd, writers_cons. cbn [h_write]. rewrite bool_decide_eq_false_2 by done.
      intros [[<- <-]|[Hne Hk]]%lookup_insert_Some; [rewrite Hr0, Hw0; left; by auto|].
      pose proof (l_value _ _ HG q k Hk) as Hvq. rewrite writers_cons in Hvq. cbn [h_write] in Hvq. by rewrite bool_decide_eq_false_2 in Hvq by congruence. }
  rewrite (bind_step _ _ _ _ _ E1). set (f1 := set_nodes N1 f).
  assert (get_node_ (nodeid n) f1 = Some (p, f1)) as Eg.
  { pose proof (get_node_lock_only f N1 (heap f) (nodeid n) p Hlo (get_node_ok ∅ ∅ ∅ _ f p n Hf Hn (not_elem_of_empty p))) as Eg.
    replace (set_heap (heap f) f) with f in Eg by (by destruct f). exact Eg. }
  rewrite (bind_step _ _ _ _ _ Eg), bind_get. pose proof (l_holds _ _ HG1) as Hh. apply Forall_cons in Hh as [((e & Hse & He) & _ & _) Hh]. cbn in Hse.
  assert (sound (nodes f1)) as Hs by (eapply sound_lock_only; [exact Hlo|by apply tree_sound]).
  destruct (segment_ok _ _ _ _ Hs Hse) as (Hnd & Hlen & _). change (nodes f1) with N1 in *.
  rewrite (unlock_climb_ok _ f1 p l e); [|done|done|by right|cbn; lia|].
  - exists (relock read_unlock l N1). split; [done|]. assert (lock_only N1 (relock read_unlock l N1)) as Hlo2 by apply relock_lock_only.
    split; [by transitivity N1|]. split; [eapply Forall_impl; [exact Hh|]; intros h; by apply hold_ok_lock_only| |pose proof (l_few _ _ HG1); cbn in *; lia].
    intros q m. rewrite relock_lookup. intros Hm. apply fmap_Some in Hm as (m1 & Hm1 & ->). pose proof (l_value _ _ HG1 q m1 Hm1) as Hv.
    rewrite readers_cons, writers_cons in Hv. cbn [h_path h_write] in Hv. rewrite (bool_decide_eq_false_2 (None = Some q)) in Hv by done.
    destruct (bool_decide_reflect (q ∈ l)) as [Hq|Hq]; [|exact Hv]. cbn [treelock with_treelock].
    destruct (held_locked N1 _ (Hold p l None) q m1 HG1 ltac:(left) Hq Hm1) as (Hw & _ & Hv'). rewrite readers_cons, writers_cons in *.
    cbn [h_path h_write] in *. rewrite (bool_decide_eq_true_2 (q ∈ l)), (bool_decide_eq_false_2 (None = Some q)) in * by done.
    replace (readers G q) with (1 + readers G q - 1) by lia. replace (writers G q) with 0 by lia. exact Hv'.
  - intros q m Hq Hm. by destruct (held_locked N1 _ (Hold p l None) q m HG1 ltac:(left) Hq Hm) as (_ & ? & _).
Qed.

(** ** A request for a path *)

(** The tail of the path and the string returned. *)
Definition tail_of (nm : option bytes) : bytes := match nm with Some nm => lit "/" ++ nm | None => [] end.

Definition shown (s : bytes) : bytes := if bool_decide (s = []) then lit "/" else s.

(** Somebody else's lock is in the way. *)
Definition blocked N (p i : Z) (nm : option bytes) (wr : bool) : Prop :=
  (exists l e m, segment N p l e /\ N !! e = Some m /\ treelock m < 0) \/
  (wr = true /\ exists w m s, nm = Some s /\ N !! w = Some m /\ key_in N w = Some (i, s) /\ treelock m <> 0).

Definition reason N (p i : Z) (nm : option bytes) (wr : bool) (er : Z) : Prop :=
  er = - ENOMEM \/ er = - ENOENT /\ (forall l, ~ full_path N p l) \/ er = - EAGAIN /\ blocked N p i nm wr.

Lemma stuck_no_path N p l e m : segment N p l e -> N !! e = Some m -> nodeid m <> FUSE_ROOT_ID -> (name m = None \/ parent m = None) ->
  forall l', ~ full_path N p l'.
Proof.
  intros Hs He Hr Hno. induction Hs as [p _|p n d nm l e Hn Hnr Hd Hnm Hs IH]; intros l' (e' & Hs' & (k & Hk & Hkr));
    inversion Hs' as [q Hq|q n' d' nm' l'' e'' Hn' Hnr' Hd' Hnm' Hs'']; subst; simplify_eq.
  - destruct Hno; congruence.
  - apply (IH He l''). exists e'. split; [done|by exists k].
Qed.

(** A node is not on the path of its own directory. *)
Lemma child_not_above N p l w n dn i s : sound N -> N !! w = Some n -> nodeid n <> FUSE_ROOT_ID -> key_in N w = Some (i, s) ->
  N !! p = Some dn -> nodeid dn = i -> ~ segment N p l w.
Proof.
  intros Hs Hn Hr Hk Hp Hi Hse. destruct (key_in_inv N w i s Hk) as (n' & d & dn' & Hn' & Hd & Hdn' & Hi' & Hnm). simplify_eq.
  assert (d = p) as -> by (by apply (n_inj _ Hs d p dn' dn)).
  destruct (segment_ok N w (w :: l) w Hs) as (_ & _ & Hw); [by apply (seg_cons N w n p s)|]. apply Hw. left.
Qed.

(** The state of the nodes once [w] is locked for writing. *)
Definition write_locked N (w : option Z) : gmap Z node :=
  match w with Some q => match N !! q with Some n => <[q := with_treelock TREELOCK_WRITE n]> N | None => N end | None => N end.

Lemma write_locked_only N w : lock_only N (write_locked N w).
Proof. unfold write_locked. destruct w as [q|]; [|reflexivity]. destruct (N !! q) eqn:E; [by apply insert_lock_only|reflexivity]. Qed.

Lemma write_locked_lookup N w q m : write_locked N w !! q = Some m -> exists n, N !! q = Some n /\
  (w = Some q /\ m = with_treelock TREELOCK_WRITE n \/ w <> Some q /\ m = n).
Proof.
  unfold write_locked. destruct w as [x|]; [|intros Hm; exists m; split; [done|by right]]. destruct (N !! x) as [n|] eqn:Hx.
  - intros [[<- <-]|[Hne Hm]]%lookup_insert_Some; [exists n; split; [done|by left]|exists m; split; [done|right; split; [congruence|done]]].
  - intros Hm. exists m. split; [done|right]. split; [congruence|done].
Qed.

(** A request that does not get its path gives back what it has taken. *)
Lemma unlock_partial f N i p dn l e w : tree_ok f -> sound N -> lock_only (nodes f) N -> nodes f !! p = Some dn -> nodeid dn = i ->
  (forall q, w = Some q -> exists n, N !! q = Some n /\ treelock n = 0) ->
  segment N p l e -> (forall q m, q ∈ l -> write_locked N w !! q = Some m -> 0 <= treelock m < 2 ^ 31 - 1) ->
  unlock_path i w (Some e) (set_nodes (relock read_lock l (write_locked N w)) f) = Some (tt, set_nodes N f).
Proof.
  intros Hf Hs Hlo Hp <- Hw Hse Hl. set (f2 := set_nodes _ f).
  assert (forall q, w = Some q -> q ∉ l) as Hwl.
  { intros q -> Hq. destruct (Hw q eq_refl) as (n & Hn & _). specialize (Hl q (with_treelock TREELOCK_WRITE n) Hq).
    unfold write_locked in Hl. rewrite Hn, lookup_insert_eq in Hl. specialize (Hl eq_refl). cbn in Hl. unfold TREELOCK_WRITE in Hl. lia. }
  assert ((match w with Some w => n ← node_at w; _ ← check (treelock n =? TREELOCK_WRITE); update w (with_treelock 0) | None => mret tt end) f2 =
    Some (tt, set_nodes (relock read_lock l N) f)) as E1.
  { destruct w as [w|]; [|done]. destruct (Hw w eq_refl) as (n & Hn & Hz). specialize (Hwl w eq_refl).
    assert (nodes f2 !! w = Some (with_treelock TREELOCK_WRITE n)) as H2'.
    { cbn. rewrite relock_lookup. unfold write_locked. rewrite Hn, lookup_insert_eq. cbn. by rewrite bool_decide_eq_false_2. }
    rewrite (bind_step _ _ _ _ _ (node_at_eq f2 w _ H2')). cbn [check treelock with_treelock Z.eqb TREELOCK_WRITE Pos.eqb].
    rewrite bind_ret, (update_eq f2 w _ _ H2'). do 2 f_equal. unfold f2. cbn [nodes set_nodes]. unfold set_nodes. cbn. f_equal.
    apply map_eq. intros q. destruct (decide (q = w)) as [->|Hq].
    - rewrite lookup_insert_eq, relock_lookup, Hn. cbn. rewrite bool_decide_eq_false_2 by done. f_equal. destruct n. cbn in *. by subst.
    - rewrite lookup_insert_ne, !relock_lookup by done. unfold write_locked. rewrite Hn, lookup_insert_ne by done. done. }
  unfold unlock_path. rewrite (bind_step _ _ _ _ _ E1). set (f3 := set_nodes _ f).
  assert (lock_only (nodes f) (relock read_lock l N)) as Hlo3 by (transitivity N; [done|apply relock_lock_only]).
  assert (get_node_ (nodeid dn) f3 = Some (p, f3)) as Eg.
  { pose proof (get_node_lock_only f (relock read_lock l N) (heap f) (nodeid dn) p Hlo3 (get_node_ok ∅ ∅ ∅ _ f p dn Hf Hp (not_elem_of_empty p))) as Eg.
    replace (set_heap (heap f) f) with f in Eg by (by destruct f). exact Eg. }
  rewrite (bind_step _ _ _ _ _ Eg), bind_get. assert (lock_only N (nodes f3)) as Hlo' by apply relock_lock_only.
  assert (forall q n, q ∈ l -> N !! q = Some n -> 0 <= treelock n < 2 ^ 31 - 1) as Hl'.
  { intros q n Hq Hn. destruct w as [w|]; [|by apply (Hl q n Hq)]. specialize (Hwl w eq_refl). apply (Hl q n Hq). unfold write_locked.
    destruct (N !! w); [rewrite lookup_insert_ne by (by intros ->)|]; done. }
  pose proof (sound_lock_only _ _ Hlo' Hs) as Hs3. pose proof (segment_lock_only _ _ _ _ _ Hlo' Hse) as Hse3.
  destruct (segment_ok _ _ _ _ Hs3 Hse3) as (_ & Hlen & _).
  rewrite (unlock_climb_ok _ f3 p l e); [|done|done|by left|cbn in *; lia|].
  - cbn [nodes set_nodes f3]. by rewrite relock_back.
  - intros q m Hq. cbn. rewrite relock_lookup. intros Hm. apply fmap_Some in Hm as (n & Hn & ->). rewrite bool_decide_eq_true_2 by done.
    cbn [treelock with_treelock]. specialize (Hl' q n Hq Hn). unfold locked_read, read_lock, TREELOCK_WAIT_OFFSET, TREELOCK_WRITE.
    rewrite swrap_id by (try lia; change (2 ^ (32 - 1)) with (2 ^ 31); lia). lia.
Qed.

(** The part of [try_get_path] after the write lock. *)
Lemma climb_ok f G i nm wr p dn b t w : tree_ok f -> acyclic (abs f) -> locks_inv (nodes f) G -> nodes f !! p = Some dn -> nodeid dn = i -> nlookup dn <> 0 ->
  Z.of_nat (length G) + 1 < 2 ^ 31 - 1 -> buf_ok b t -> fits (nodes f) p t ->
  (forall q, w = Some q -> exists n s, nodes f !! q = Some n /\ treelock n = 0 /\ nlookup n <> 0 /\ key_in (nodes f) q = Some (i, s)) ->
  exists r N' h, (p ← get_node_ i; f ← get; r ← lock_climb (S (size (nodes f))) true p b;
      match r with
      | inl (e, q) => _ ← unlock_path i w (Some q); mret (inl e)
      | inr b => mret (inr (shown (path_at b), w))
      end) (set_nodes (write_locked (nodes f) w) f) = Some (r, set_nodes N' (set_heap h f)) /\
    match r with
    | inr (s, w') => w' = w /\ exists l b', full_path (nodes f) p l /\ buf_ok b' (path_string (nodes f) l t) /\ s = shown (path_at b') /\
        N' = relock read_lock l (write_locked (nodes f) w) /\ lock_only (nodes f) N' /\ locks_inv N' (Hold p l w :: G)
    | inl e => N' = nodes f /\ reason (nodes f) p i nm wr e
    end.
Proof.
  intros Hf Ha HG Hp Hi Hnl Hfew Hb Hfit Hw. pose proof (tree_sound f Hf Ha) as Hs. pose proof (write_locked_only (nodes f) w) as Hlo.
  set (N1 := write_locked (nodes f) w) in *. set (f1 := set_nodes N1 f).
  assert (get_node_ i f1 = Some (p, f1)) as Eg.
  { pose proof (get_node_lock_only f N1 (heap f) i p Hlo) as Eg. replace (set_heap (heap f) f) with f in Eg by (by destruct f). apply Eg.
    subst i. by apply (get_node_ok ∅ ∅ ∅ (fun _ => 0)); [|done|apply not_elem_of_empty]. }
  rewrite (bind_step _ _ _ _ _ Eg), bind_get.
  assert (is_Some (nodes f1 !! p)) as Hp1 by (destruct (lock_only_lookup _ _ _ _ Hlo Hp) as [v Hv]; by eexists).
  assert (forall l e, segment N1 p l e -> segment (nodes f) p l e) as Hseg by (intros l e Hse; eapply segment_lock_only, Hse; by symmetry).
  destruct (lock_climb_ok (S (size (nodes f1))) f1 p b t) as (r & h & l & e & E & Hse & Hge & Hr); [by eapply sound_lock_only|done|done| | |].
  { intros l e Hse. change (nodes f1) with N1. rewrite (path_string_lock_only _ _ l t Hlo). by apply (Hfit l e), Hseg. }
  { intros l e Hse. destruct (segment_ok _ _ _ _ (sound_lock_only _ _ Hlo Hs) Hse) as (_ & Hlen & _). change (nodes f1) with N1. lia. }
  change (nodes f1) with N1 in *. rewrite (bind_step _ _ _ _ _ E). pose proof (Hseg _ _ Hse) as Hse'.
  assert (forall q n, q ∈ l -> nodes f !! q = Some n -> 0 <= treelock n /\ w <> Some q) as Hl.
  { intros q n Hq Hn. destruct (lock_only_lookup _ _ _ _ Hlo Hn) as [v Hv]. specialize (Hge q _ Hq Hv).
    destruct (write_locked_lookup _ _ _ _ Hv) as (n' & Hn' & [[_ Em]|[Hne Em]]).
    - rewrite Em in Hge. cbn in Hge. unfold TREELOCK_WRITE in Hge. lia.
    - rewrite Em in Hge. assert (n' = n) as -> by congruence. done. }
  destruct r as [[er q]|b'].
  - destruct Hr as [-> (m & Hm & Hmr & Hst)]. assert (forall q n, nodes f !! q = Some n -> treelock n < 2 ^ 31 - 1) as Hsmall.
    { intros q n Hn. pose proof (l_value _ _ HG q n Hn) as Hv. pose proof (readers_range G q). unfold lock_value, TREELOCK_WAIT_OFFSET, TREELOCK_WRITE in Hv. lia. }
    pose proof (unlock_partial (set_heap h f) (nodes f) i p dn l e w) as Hun. cbn [set_heap nodes] in Hun.
    assert (tree_ok (set_heap h f)) as Hfh by by apply tree_inv_heap. specialize (Hun Hfh Hs (reflexivity _) Hp Hi).
    assert (forall q, w = Some q -> exists n, nodes f !! q = Some n /\ treelock n = 0) as Hwz.
    { intros q ->. destruct (Hw q eq_refl) as (n & s & Hn & Hz & _). by exists n. }
    assert (forall q m, q ∈ l -> N1 !! q = Some m -> 0 <= treelock m < 2 ^ 31 - 1) as Hlz.
    { intros q m' Hq Hm'. split; [by apply (Hge q m' Hq)|]. destruct (write_locked_lookup _ _ _ _ Hm') as (n & Hn & [[_ ->]|[_ ->]]); [done|by apply (Hsmall q)]. }
    rewrite (bind_step _ _ _ _ _ (Hun Hwz Hse' Hlz)). eexists (inl er), (nodes f), h. split; [reflexivity|]. split; [done|]. destruct (write_locked_lookup _ _ _ _ Hm) as (m0 & Hm0 & Hcase).
    assert (nodeid m = nodeid m0 /\ name m = name m0 /\ parent m = parent m0) as (Ei & En & Ep) by (destruct Hcase as [[_ ->]|[_ ->]]; done).
    destruct Hst as [[-> Hno]|[->|[-> Hneg]]]; [right; left|by left|right; right].
    + split; [done|]. rewrite En, Ep in Hno. rewrite Ei in Hmr. by apply (stuck_no_path (nodes f) p l e m0).
    + split; [done|]. left. exists l, e, m0. split; [done|]. split; [done|]. destruct Hcase as [[Hwe _]|[_ ->]]; [|done]. exfalso.
      destruct (Hw e Hwe) as (n & s & Hn & _ & _ & Hk). rewrite Ei in Hmr. assert (n = m0) as -> by congruence.
      by apply (child_not_above (nodes f) p l e m0 dn i s).
  - destruct Hr as [Hro Hb']. assert (is_root (nodes f) e) as Hro' by (eapply is_root_lock_only, Hro; by symmetry).
    assert (full_path (nodes f) p l) as Hfp by (exists e; done).
    eexists (inr (_, w)), (relock read_lock l N1), h. split; [reflexivity|]. split; [done|]. exists l, b'. split; [done|].
    split; [by rewrite <- (path_string_lock_only _ _ l t Hlo)|]. split; [done|]. split; [done|]. split; [transitivity N1; [done|apply relock_lock_only]|].
    apply (locks_inv_take (nodes f) G p l w HG); [|done| |done].
    + split; [done|]. split; [by exists dn|]. cbn. intros q ->. destruct (Hw q eq_refl) as (n & s & Hn & _ & Hln & _). by exists n.
    + intros q n -> Hn. destruct (Hw q eq_refl) as (n' & s & Hn' & Hz & _). congruence.
Qed.

(** Names are C strings. *)
Definition c_names N : Prop := forall p i nm, key_in N p = Some (i, nm) -> nonul nm.

Lemma slash_nonul s : nonul s -> nonul (lit "/" ++ s).
Proof. intros Hs. by constructor. Qed.

Lemma path_string_nonul N p l e t : c_names N -> segment N p l e -> nonul t -> nonul (path_string N l t).
Proof.
  intros HN Hs. revert t. induction Hs as [p Hp|p n d nm l e Hn Hr Hd Hnm Hs IH]; intros t Ht; [done|]. cbn [path_string].
  apply IH, slash_nonul, Forall_app. split; [|done]. rewrite Hn. cbn. rewrite Hnm. cbn.
  assert (is_Some (N !! d)) as [dn Hdn] by (by inversion Hs; subst; [|eexists]). apply (HN p (nodeid dn)). unfold key_in.
  rewrite Hn. cbn. rewrite Hd. cbn. rewrite Hdn. cbn. by rewrite Hnm.
Qed.

(** What a request for a path needs: the kernel holds the node, and the file to
    be locked for writing; the path is not longer than 4 GiB. *)
Record request_ok f (p i : Z) (nm : option bytes) (wr : bool) : Prop := {
  r_node : exists dn, nodes f !! p = Some dn /\ nodeid dn = i /\ nlookup dn <> 0;
  r_name : match nm with Some s => nonul s /\ Z.of_nat (length s) + 2 <= 4294967295 | None => True end;
  r_fits : fits (nodes f) p (tail_of nm);
  r_write : wr = true -> exists s, nm = Some s /\ forall w n, nodes f !! w = Some n -> key_in (nodes f) w = Some (i, s) -> nlookup n <> 0 }.

(** The file locked for writing. *)
Definition write_node f (i : Z) (nm : option bytes) (wr : bool) (w : option Z) : Prop :=
  match w with
  | Some q => wr = true /\ exists s, nm = Some s /\ key_in (nodes f) q = Some (i, s)
  | None => wr = true -> exists s, nm = Some s /\ vacant (abs f) i s
  end.

Lemma try_get_path_ok f G p i nm wr : tree_ok f -> acyclic (abs f) -> c_names (nodes f) -> locks_inv (nodes f) G -> request_ok f p i nm wr ->
  Z.of_nat (length G) + 1 < 2 ^ 31 - 1 ->
  exists r N' h, try_get_path i nm wr true f = Some (r, set_nodes N' (set_heap h f)) /\ lock_only (nodes f) N' /\
    match r with
    | inr (s, w) => write_node f i nm wr w /\ exists l, full_path (nodes f) p l /\ s = shown (path_string (nodes f) l (tail_of nm)) /\ locks_inv N' (Hold p l w :: G) /\
        N' = relock read_lock l (write_locked (nodes f) w)
    | inl e => locks_inv N' G /\ reason (nodes f) p i nm wr e
    end.
Proof.
  intros Hf Ha Hcn HG Hrq Hfew. destruct (r_node _ _ _ _ _ Hrq) as (dn & Hp & Hi & Hnl). unfold try_get_path.
  assert (forall h, Some (@inl Z (bytes * option Z) (- ENOMEM), set_heap h f) = Some (inl (- ENOMEM), set_nodes (nodes f) (set_heap h f))) as Hsame by (intros h; by destruct f).
  destruct (malloc_eq f) as (ok & h1 & E1). rewrite (bind_step _ _ _ _ _ E1). destruct ok; cbn [negb].
  2: { exists (inl (- ENOMEM)), (nodes f), h1. split; [by rewrite <- Hsame|]. split; [done|]. split; [done|by left]. }
  set (b0 := PathBuf _ _).
  assert (exists r h, (match nm with Some nm => add_name b0 nm | None => mret (Some b0) end) (set_heap h1 f) = Some (r, set_heap h f) /\
    match r with Some b => buf_ok b (tail_of nm) | None => True end) as (r & h2 & E2 & Hr).
  { pose proof (r_name _ _ _ _ _ Hrq) as Hn. destruct nm as [s|]; [|exists (Some b0), h1; split; [done|apply new_buf_ok]]. destruct Hn as [_ Hn].
    destruct (add_name_ok (set_heap h1 f) b0 [] s new_buf_ok) as (r & h & E & Hr); [cbn; lia|]. exists r, h. split; [done|].
    destruct r; [|done]. by rewrite app_nil_r in Hr. }
  rewrite (bind_step _ _ _ _ _ E2). destruct r as [b|].
  2: { exists (inl (- ENOMEM)), (nodes f), h2. split; [by rewrite <- Hsame|]. split; [done|]. split; [done|by left]. }
  set (f2 := set_heap h2 f). assert (tree_ok f2) as Hf2 by by apply tree_inv_heap.
  assert (nonul (tail_of nm)) as Htn by (pose proof (r_name _ _ _ _ _ Hrq) as Hn; destruct nm; [apply slash_nonul; tauto|constructor]).
  assert (exists w N1, (if wr then _ ← check true; lock_wnode i nm else mret (inr None)) f2 = Some (w, set_nodes N1 f2) /\ lock_only (nodes f) N1 /\
    match w with
    | inl e => locks_inv N1 G /\ reason (nodes f) p i nm wr e
    | inr w => N1 = write_locked (nodes f) w /\ write_node f i nm wr w /\
        forall q, w = Some q -> exists n s, nodes f !! q = Some n /\ treelock n = 0 /\ nlookup n <> 0 /\ key_in (nodes f) q = Some (i, s)
    end) as (w & N1 & E3 & Hlo1 & Hw).
  { pose proof (r_write _ _ _ _ _ Hrq) as Hwr. destruct wr; [|exists (inr None), (nodes f2); by rewrite set_nodes_self]. cbn [check]. rewrite bind_ret.
    destruct (Hwr eq_refl) as (s & -> & Hln). destruct (lock_wnode_ok f2 i s Hf2) as (w & N1 & E & Hw). exists w, N1. split; [done|].
    destruct w as [e|[w|]].
    - destruct Hw as (-> & Hlo & HGs & w & n & Hn & Hk & Hz). split; [done|]. split; [by apply HGs|]. right; right. split; [done|]. right. split; [done|]. eauto 10.
    - destruct Hw as (n & Hn & Hk & Hz & ->). split; [by apply insert_lock_only|]. change (nodes f2) with (nodes f) in *.
      split; [cbn; by rewrite Hn|]. split; [split; [done|by exists s]|]. intros q [= <-]. exists n, s. split; [done|]. split; [done|]. split; [by apply (Hln w)|done].
    - destruct Hw as [Hv ->]. split; [done|]. split; [done|]. split; [|done]. intros _. by exists s. }
  rewrite (bind_step _ _ _ _ _ E3). destruct w as [e|w]; [exists (inl e), N1, h2; split; [done|]; split; [done|exact Hw]|].
  destruct Hw as (-> & Hwn & Hw).
  destruct (climb_ok f2 G i nm wr p dn b (tail_of nm) w Hf2 Ha HG Hp Hi Hnl Hfew Hr (r_fits _ _ _ _ _ Hrq) Hw) as (r & N' & h & E & Hr').
  exists r, N', h. split; [exact E|]. destruct r as [e|[s w']].
  - destruct Hr' as [-> Hre]. by split.
  - destruct Hr' as (-> & l & b' & Hfp & Hb' & -> & HN & Hlo & HG'). split; [done|]. split; [done|]. exists l. split; [done|]. split; [|done].
    f_equal. apply path_at_ok; [done|]. destruct Hfp as (e & Hse & _). by eapply path_string_nonul.
Qed.

End Climb.
