(* ===== verification/PathQueue.v ===== *)
(** * The queue of requests that wait for a path

    The elements of the queue of [Path] hold locks too.  [sys_inv f G] says that
    the locks in the nodes are those of the requests [G] that run and of the
    elements of the queue; every section of code that takes or gives back a path
    keeps it. *)

From S2P Require Import Prelude NodeTable Wire Locks Node NodeTree NodeOps NodeSpec Path PathSpec.

Section Queue.
Context {M : Type} `{NodeMemLaws M}.
Implicit Types (f : fuse M) (N : gmap Z node) (e : lock_queue_element).

(** ** Elements of the queue *)

Definition ptr_in N (p i : Z) : Prop := exists n, N !! p = Some n /\ nodeid n = i.

(** The holds of one of the two paths of an element. *)
Definition part_holds N (locked : bool) (i : Z) (wr : bool) (wn : option Z) (Q : list hold) : Prop :=
  if locked then exists p l, ptr_in N p i /\ Q = [Hold p l (if wr then wn else None)] else Q = [].

(** The nodes an element names are held by the kernel while it waits. *)
Record elem_req f e : Prop := {
  q_one : want1 e = true -> exists p, request_ok f p (nodeid1 e) (name1 e) (wr1 e);
  q_two : want2 e = true -> exists p, request_ok f p (nodeid2 e) (name2 e) (wr2 e);
  q_forget : want1 e = false -> first_locked e = false /\ second_locked e = false /\ exists p n, nodes f !! p = Some n /\ nodeid n = nodeid1 e /\ nlookup n <> 0;
  q_single : want2 e = false -> second_locked e = false }.

(** What does not change while an element waits. *)
Definition same_req e e' : Prop :=
  (qid e', nodeid1 e', name1 e', want1 e', wr1 e', nodeid2 e', name2 e', want2 e', wr2 e') =
  (qid e, nodeid1 e, name1 e, want1 e, wr1 e, nodeid2 e, name2 e, want2 e, wr2 e).

(** The element [e] between [L1] and [L2], with its holds [Q1] and [Q2]; [R] are
    all other holds. *)
Record at_elem f L1 e L2 (Q1 Q2 R : list hold) : Prop := {
  a_tree : tree_ok f; a_acyclic : acyclic (abs f); a_names : c_names (nodes f);
  a_queue : lockq f = L1 ++ e :: L2; a_nodup : NoDup (qid <$> lockq f); a_req : elem_req f e;
  a_first : part_holds (nodes f) (first_locked e) (nodeid1 e) (wr1 e) (wnode1 e) Q1;
  a_second : part_holds (nodes f) (second_locked e) (nodeid2 e) (wr2 e) (wnode2 e) Q2;
  a_locks : locks_inv (nodes f) (Q1 ++ Q2 ++ R);
  a_few : Z.of_nat (length R) + 3 < 2 ^ 31 - 1 }.

Lemma ptr_lock_only N N' p i : lock_only N N' -> ptr_in N p i -> ptr_in N' p i.
Proof. intros E (n & Hn & Hi). destruct (lock_only_lookup _ _ _ _ E Hn) as [v Hv]. by exists (with_treelock v n). Qed.

Lemma part_lock_only N N' b i wr wn Q : lock_only N N' -> part_holds N b i wr wn Q -> part_holds N' b i wr wn Q.
Proof. intros E. destruct b; [|done]. intros (p & l & Hp & ->). exists p, l. split; [by eapply ptr_lock_only|done]. Qed.

Lemma request_lock_only f f' p i nm wr : lock_only (nodes f) (nodes f') -> request_ok f p i nm wr -> request_ok f' p i nm wr.
Proof.
  intros E [(dn & Hdn & Hi & Hl) Hn Hfit Hw]. assert (lock_only (nodes f') (nodes f)) as E' by by symmetry. split; [|done| |].
  - destruct (lock_only_lookup _ _ _ _ E Hdn) as [v Hv]. by exists (with_treelock v dn).
  - intros l e Hse. rewrite (path_string_lock_only _ _ _ _ E). apply (Hfit l e). by eapply segment_lock_only.
  - intros Hwr. destruct (Hw Hwr) as (s & Hs & Hk). exists s. split; [done|]. intros w n Hn' Hkn.
    destruct (lock_only_lookup _ _ _ _ E' Hn') as [v Hv]. rewrite (key_lock_only _ _ _ E) in Hkn. exact (Hk w _ Hv Hkn).
Qed.

Lemma elem_lock_only f f' e e' : lock_only (nodes f) (nodes f') -> same_req e e' ->
  (want1 e = false -> first_locked e' = false /\ second_locked e' = false) -> (want2 e = false -> second_locked e' = false) ->
  elem_req f e -> elem_req f' e'.
Proof.
  intros E [= E1 E2 E3 E4 E5 E6 E7 E8 E9] Hfo Hsi [H1 H2 H3 H4]. split; rewrite ?E2, ?E3, ?E4, ?E5, ?E6, ?E7, ?E8, ?E9.
  - intros Hw. destruct (H1 Hw) as [p Hp]. exists p. by eapply request_lock_only.
  - intros Hw. destruct (H2 Hw) as [p Hp]. exists p. by eapply request_lock_only.
  - intros Hw. destruct (Hfo Hw), (H3 Hw) as (_ & _ & p & n & Hn & Hi & Hl). split; [done|]. split; [done|].
    destruct (lock_only_lookup _ _ _ _ E Hn) as [v Hv]. by exists p, (with_treelock v n).
  - done.
Qed.

Lemma names_lock_only N N' : lock_only N N' -> c_names N -> c_names N'.
Proof. intros E Hc p i nm. rewrite (key_lock_only _ _ _ E). apply Hc. Qed.

Lemma abs_lock_only N N' : lock_only N N' -> num_inj N -> abs_nodes N' = abs_nodes N.
Proof.
  intros E Hin. assert (lock_only N' N) as E' by by symmetry. assert (num_inj N') as Hin'.
  { intros p q n m Hn Hm Ei. destruct (lock_only_lookup _ _ p n E' Hn) as [u Hu], (lock_only_lookup _ _ q m E' Hm) as [v Hv]. by apply (Hin p q _ _ Hu Hv). }
  apply map_eq. intros i. apply option_eq. intros e. rewrite !abs_iff by done. unfold entry_of. split.
  - intros (p & n & Hn & <- & ->). destruct (lock_only_lookup N' N p n E' Hn) as [v Hv]. exists p, (with_treelock v n). by rewrite (key_lock_only _ _ _ E).
  - intros (p & n & Hn & <- & ->). destruct (lock_only_lookup N N' p n E Hn) as [v Hv]. exists p, (with_treelock v n). by rewrite (key_lock_only _ _ _ E).
Qed.

Lemma tree_ok_lockq f L : tree_ok f -> tree_ok (set_lockq L f).
Proof. intros Hf. destruct Hf. by split. Qed.

Lemma qe_at_ok f L1 e L2 : lockq f = L1 ++ e :: L2 -> NoDup (qid <$> lockq f) -> qe_at (qid e) f = Some (e, f).
Proof.
  intros HL Hnd. unfold qe_at. rewrite bind_get, HL. rewrite HL, fmap_app, fmap_cons in Hnd. apply NoDup_app in Hnd as (_ & Hno & _).
  rewrite list_find_app_r; [cbn; rewrite decide_True by done; done|]. apply list_find_None, Forall_forall.
  intros x Hx Ex. apply (Hno (qid e)); [|left]. rewrite <- Ex. by apply list_elem_of_fmap_2.
Qed.

Lemma qe_update_ok f L1 e L2 g : lockq f = L1 ++ e :: L2 -> NoDup (qid <$> lockq f) ->
  qe_update (qid e) g f = Some (tt, set_lockq (L1 ++ g e :: L2) f).
Proof.
  intros HL Hnd. unfold qe_update, modify. do 3 f_equal. rewrite HL in Hnd |- *. rewrite fmap_app, fmap_cons in Hnd. rewrite fmap_app, fmap_cons. apply NoDup_app in Hnd as (_ & Hno & [Hno2 _]%NoDup_cons).
  assert (forall l : list lock_queue_element, qid e ∉ (qid <$> l) -> (fun e0 => if qid e0 =? qid e then g e0 else e0) <$> l = l) as Hid.
  { intros l Hl. rewrite <- (list_fmap_id l) at 2. apply list_fmap_ext. intros j x Hx. cbn.
    destruct (Z.eqb_spec (qid x) (qid e)) as [Ex|]; [|done]. destruct Hl. rewrite <- Ex. apply list_elem_of_fmap_2. by eapply list_elem_of_lookup_2. }
  rewrite Z.eqb_refl. rewrite (Hid L1), (Hid L2); [done|done|]. intros Hin. apply (Hno (qid e)); [done|left].
Qed.

(** ** Steps at an element *)

(** Code at the element that changes locks and the element. *)
Definition elem_state f N' h L1 e' L2 : fuse M := set_lockq (L1 ++ e' :: L2) (set_nodes N' (set_heap h f)).

Lemma at_elem_step f L1 e L2 Q1 Q2 R N' h e' Q1' Q2' : at_elem f L1 e L2 Q1 Q2 R -> lock_only (nodes f) N' -> same_req e e' ->
  (want1 e = false -> first_locked e' = false /\ second_locked e' = false) -> (want2 e = false -> second_locked e' = false) ->
  part_holds N' (first_locked e') (nodeid1 e') (wr1 e') (wnode1 e') Q1' -> part_holds N' (second_locked e') (nodeid2 e') (wr2 e') (wnode2 e') Q2' ->
  locks_inv N' (Q1' ++ Q2' ++ R) -> at_elem (elem_state f N' h L1 e' L2) L1 e' L2 Q1' Q2' R.
Proof.
  intros Ha E Hsr Hfo Hsi H1 H2 Hl. destruct Ha as [Ht Hac Hcn Hq Hnd Hreq _ _ _ Hfew]. pose proof Hsr as [= Eq _ _ _ _ _ _ _ _].
  split; try done; unfold elem_state.
  - apply tree_ok_lockq. by apply (tree_ok_locks f N' _ h Ht E Hl).
  - change (acyclic (abs_nodes N')). by rewrite (abs_lock_only _ _ E (tree_num f Ht)).
  - by eapply names_lock_only.
  - cbn. rewrite Hq in Hnd. rewrite fmap_app, fmap_cons in Hnd |- *. by rewrite Eq.
  - eapply (elem_lock_only f _ e e'); try done.
Qed.

(** A step that only touches the element. *)
Lemma at_elem_same f L1 e L2 Q1 Q2 R g : at_elem f L1 e L2 Q1 Q2 R -> same_req e (g e) ->
  (first_locked (g e), wnode1 (g e), second_locked (g e), wnode2 (g e)) = (first_locked e, wnode1 e, second_locked e, wnode2 e) ->
  exists f', qe_update (qid e) g f = Some (tt, f') /\ at_elem f' L1 (g e) L2 Q1 Q2 R /\ nodes f' = nodes f.
Proof.
  intros Ha Hsr [= E1 E2 E3 E4]. rewrite (qe_update_ok f L1 e L2 g (a_queue _ _ _ _ _ _ _ Ha) (a_nodup _ _ _ _ _ _ _ Ha)). eexists. split; [reflexivity|]. split; [|done].
  pose proof Hsr as [= _ I1 _ _ W1 I2 _ _ W2]. pose proof (a_req _ _ _ _ _ _ _ Ha) as Hr.
  pose proof (at_elem_step f L1 e L2 Q1 Q2 R (nodes f) (heap f) (g e) Q1 Q2 Ha) as Hs. unfold elem_state in Hs.
  replace (set_nodes (nodes f) (set_heap (heap f) f)) with f in Hs by (by destruct f). apply Hs; try done; rewrite ?E1, ?E2, ?E3, ?E4, ?I1, ?I2, ?W1, ?W2.
  - intros Hw. destruct (q_forget _ _ Hr Hw) as (? & ? & _). done.
  - apply (q_single _ _ Hr).
  - apply (a_first _ _ _ _ _ _ _ Ha).
  - apply (a_second _ _ _ _ _ _ _ Ha).
  - apply (a_locks _ _ _ _ _ _ _ Ha).
Qed.

(** A request at an element: the element after it, for each outcome. *)
Lemma part_length N b i wr wn Q : part_holds N b i wr wn Q -> (length Q <= 1)%nat.
Proof. destruct b; [intros (p & l & _ & ->); cbn; lia|intros ->; cbn; lia]. Qed.

Lemma write_node_none f i nm w : write_node f i nm false w -> w = None.
Proof. destruct w; [|done]. by intros [? _]. Qed.

Lemma reason_nonzero N p i nm wr x : reason N p i nm wr x -> x <> 0.
Proof. intros [->|[[-> _]|[-> _]]]; done. Qed.

Definition first_only e e' : Prop := (second_locked e', wnode2 e', qdone e', err e') = (second_locked e, wnode2 e, qdone e, err e).
Definition second_only e e' : Prop := (first_locked e', wnode1 e', qdone e', err e') = (first_locked e, wnode1 e, qdone e, err e).

Lemma try_first_ok f L1 e L2 Q1 Q2 R : at_elem f L1 e L2 Q1 Q2 R -> want1 e = true ->
  exists x f' e' Q1', try_first (qid e) f = Some (x, f') /\ at_elem f' L1 e' L2 Q1' Q2 R /\ lock_only (nodes f) (nodes f') /\ same_req e e' /\ first_only e e' /\
    (x = 0 /\ first_locked e' = true /\ (nodes f' = nodes f \/ exists p l w, ptr_in (nodes f) p (nodeid1 e) /\ full_path (nodes f) p l /\
        write_node f (nodeid1 e) (name1 e) (wr1 e) w /\ nodes f' = relock read_lock l (write_locked (nodes f) w)) \/
     x <> 0 /\ first_locked e' = false /\ first_locked e = false /\ exists p, ptr_in (nodes f) p (nodeid1 e) /\ reason (nodes f) p (nodeid1 e) (name1 e) (wr1 e) x).
Proof.
  intros Ha Hw. unfold try_first. rewrite (bind_step _ _ _ _ _ (qe_at_ok f L1 e L2 (a_queue _ _ _ _ _ _ _ Ha) (a_nodup _ _ _ _ _ _ _ Ha))).
  destruct (first_locked e) eqn:Efl; [exists 0, f, e, Q1; split; [done|]; split; [done|]; split; [done|]; split; [done|]; split; [done|]; left; by auto|].
  pose proof (a_req _ _ _ _ _ _ _ Ha) as Hreq. destruct (q_one _ _ Hreq Hw) as [p Hp]. pose proof (a_few _ _ _ _ _ _ _ Ha) as Hfew.
  pose proof (a_first _ _ _ _ _ _ _ Ha) as H1. rewrite Efl in H1. cbn in H1. subst Q1. pose proof (a_second _ _ _ _ _ _ _ Ha) as H2. pose proof (part_length _ _ _ _ _ _ H2).
  destruct (try_get_path_ok f (Q2 ++ R) p (nodeid1 e) (name1 e) (wr1 e) (a_tree _ _ _ _ _ _ _ Ha) (a_acyclic _ _ _ _ _ _ _ Ha) (a_names _ _ _ _ _ _ _ Ha)
    (a_locks _ _ _ _ _ _ _ Ha) Hp) as (r & N' & h & E & Hlo & Hr); [rewrite length_app; lia|].
  rewrite (bind_step _ _ _ _ _ E). set (f1 := set_nodes N' _). assert (lockq f1 = L1 ++ e :: L2) as HL by apply (a_queue _ _ _ _ _ _ _ Ha).
  assert (NoDup (qid <$> lockq f1)) as Hnd by apply (a_nodup _ _ _ _ _ _ _ Ha).
  assert (ptr_in (nodes f) p (nodeid1 e)) as Hpi by (destruct (r_node _ _ _ _ _ Hp) as (dn & ? & ? & _); by exists dn).
  destruct r as [x|[s w]]; rewrite (bind_step _ _ _ _ _ (qe_update_ok f1 L1 e L2 _ HL Hnd)).
  - destruct Hr as [HG Hre]. eexists x, _, (with_path1 None e), []. split; [reflexivity|]. split; [|split; [done|split; [done|split; [done|right]]]].
    + apply (at_elem_step f L1 e L2 [] Q2 R N' h); try done; cbn.
      * intros Hf. by destruct (q_forget _ _ Hreq Hf) as (? & ? & _).
      * apply (q_single _ _ Hreq).
      * by rewrite Efl.
      * by eapply part_lock_only.
    + split; [by eapply reason_nonzero|]. split; [done|]. split; [done|]. eauto.
  - destruct Hr as (Hwn & l & Hfp & _ & HG & HN). eexists 0, _, (with_first (s, w) e), [Hold p l w]. split; [reflexivity|].
    split; [|split; [done|split; [done|split; [done|left; split; [done|split; [done|right; exists p, l, w; done]]]]]]. apply (at_elem_step f L1 e L2 [] Q2 R N' h); try done; cbn.
    + congruence.
    + apply (q_single _ _ Hreq).
    + exists p, l. split; [by eapply ptr_lock_only|]. destruct (wr1 e); [done|]. by rewrite (write_node_none _ _ _ _ Hwn).
    + by eapply part_lock_only.
Qed.

Lemma try_second_ok f L1 e L2 Q1 Q2 R : at_elem f L1 e L2 Q1 Q2 R -> want1 e = true ->
  exists x f' e' Q2', try_second (qid e) f = Some (x, f') /\ at_elem f' L1 e' L2 Q1 Q2' R /\ lock_only (nodes f) (nodes f') /\ same_req e e' /\ second_only e e' /\
    (x = 0 /\ (want2 e = true -> second_locked e' = true) \/
     x <> 0 /\ second_locked e' = false /\ second_locked e = false /\ want2 e = true /\
       exists p, ptr_in (nodes f) p (nodeid2 e) /\ reason (nodes f) p (nodeid2 e) (name2 e) (wr2 e) x).
Proof.
  intros Ha Hw. unfold try_second. rewrite (bind_step _ _ _ _ _ (qe_at_ok f L1 e L2 (a_queue _ _ _ _ _ _ _ Ha) (a_nodup _ _ _ _ _ _ _ Ha))).
  destruct (second_locked e) eqn:Esl; cbn [orb]; [exists 0, f, e, Q2; split; [done|]; split; [done|]; split; [done|]; split; [done|]; split; [done|]; left; by auto|].
  destruct (want2 e) eqn:Ew2; cbn [negb]; [|exists 0, f, e, Q2; split; [done|]; split; [done|]; split; [done|]; split; [done|]; split; [done|]; left; by auto].
  pose proof (a_req _ _ _ _ _ _ _ Ha) as Hreq. destruct (q_two _ _ Hreq Ew2) as [p Hp]. pose proof (a_few _ _ _ _ _ _ _ Ha) as Hfew.
  pose proof (a_second _ _ _ _ _ _ _ Ha) as H2. rewrite Esl in H2. cbn in H2. subst Q2. pose proof (a_first _ _ _ _ _ _ _ Ha) as H1. pose proof (part_length _ _ _ _ _ _ H1).
  destruct (try_get_path_ok f (Q1 ++ R) p (nodeid2 e) (name2 e) (wr2 e) (a_tree _ _ _ _ _ _ _ Ha) (a_acyclic _ _ _ _ _ _ _ Ha) (a_names _ _ _ _ _ _ _ Ha)
    (a_locks _ _ _ _ _ _ _ Ha) Hp) as (r & N' & h & E & Hlo & Hr); [rewrite length_app; lia|].
  rewrite (bind_step _ _ _ _ _ E). set (f1 := set_nodes N' _). assert (lockq f1 = L1 ++ e :: L2) as HL by apply (a_queue _ _ _ _ _ _ _ Ha).
  assert (NoDup (qid <$> lockq f1)) as Hnd by apply (a_nodup _ _ _ _ _ _ _ Ha).
  assert (ptr_in (nodes f) p (nodeid2 e)) as Hpi by (destruct (r_node _ _ _ _ _ Hp) as (dn & ? & ? & _); by exists dn).
  destruct r as [x|[s w]]; rewrite (bind_step _ _ _ _ _ (qe_update_ok f1 L1 e L2 _ HL Hnd)).
  - destruct Hr as [HG Hre]. eexists x, _, (with_path2 None e), []. split; [reflexivity|]. split; [|split; [done|split; [done|split; [done|right]]]].
    + apply (at_elem_step f L1 e L2 Q1 [] R N' h); try done; cbn.
      * congruence.
      * by eapply part_lock_only.
      * by rewrite Esl.
    + split; [by eapply reason_nonzero|]. split; [done|]. split; [done|]. split; [done|]. eauto.
  - destruct Hr as (Hwn & l & Hfp & _ & HG & _). eexists 0, _, (with_second (s, w) e), [Hold p l w]. split; [reflexivity|].
    split; [|split; [done|split; [done|split; [done|left; done]]]]. apply (at_elem_step f L1 e L2 Q1 [] R N' h); try done; cbn.
    + congruence.
    + congruence.
    + by eapply part_lock_only.
    + exists p, l. split; [by eapply ptr_lock_only|]. destruct (wr2 e); [done|]. by rewrite (write_node_none _ _ _ _ Hwn).
    + by rewrite (Permutation_middle Q1 R (Hold p l w)) in HG.
Qed.

Lemma ptr_of f p i : ptr_in (nodes f) p i -> ptr f p i.
Proof. done. Qed.

Lemma unlock_first_ok f L1 e L2 Q1 Q2 R : at_elem f L1 e L2 Q1 Q2 R ->
  exists f' e', (if first_locked e then
      _ ← unlock_path (nodeid1 e) (if wr1 e then wnode1 e else None) None; qe_update (qid e) without_first else mret tt) f = Some (tt, f') /\
    at_elem f' L1 e' L2 [] Q2 R /\ lock_only (nodes f) (nodes f') /\ same_req e e' /\ first_only e e' /\ first_locked e' = false.
Proof.
  intros Ha. pose proof (a_first _ _ _ _ _ _ _ Ha) as H1. destruct (first_locked e) eqn:Efl; cbn in H1.
  2: { subst Q1. by exists f, e. }
  destruct H1 as (p & l & Hp & ->). pose proof (a_req _ _ _ _ _ _ _ Ha) as Hreq.
  destruct (unlock_path_ok f (Q2 ++ R) (nodeid1 e) p l (if wr1 e then wnode1 e else None) (a_tree _ _ _ _ _ _ _ Ha) (a_acyclic _ _ _ _ _ _ _ Ha) (ptr_of _ _ _ Hp)
    (a_locks _ _ _ _ _ _ _ Ha)) as (N' & E & Hlo & HG). rewrite (bind_step _ _ _ _ _ E). set (f1 := set_nodes N' f).
  rewrite (qe_update_ok f1 L1 e L2 _ (a_queue _ _ _ _ _ _ _ Ha) (a_nodup _ _ _ _ _ _ _ Ha)). eexists _, (without_first e). split; [reflexivity|].
  split; [|done]. pose proof (at_elem_step f L1 e L2 _ Q2 R N' (heap f) (without_first e) [] Q2 Ha Hlo) as Hs. unfold elem_state in Hs.
  replace (set_heap (heap f) f) with f in Hs by (by destruct f). apply Hs; try done; cbn.
  - intros Hf. by destruct (q_forget _ _ Hreq Hf) as (? & ? & _).
  - apply (q_single _ _ Hreq).
  - eapply part_lock_only; [exact Hlo|apply (a_second _ _ _ _ _ _ _ Ha)].
Qed.

Lemma unlock_second_ok f L1 e L2 Q1 Q2 R : at_elem f L1 e L2 Q1 Q2 R ->
  exists f' e', (if second_locked e then
      _ ← unlock_path (nodeid2 e) (if wr2 e then wnode2 e else None) None; qe_update (qid e) without_second else mret tt) f = Some (tt, f') /\
    at_elem f' L1 e' L2 Q1 [] R /\ lock_only (nodes f) (nodes f') /\ same_req e e' /\ second_only e e' /\ second_locked e' = false.
Proof.
  intros Ha. pose proof (a_second _ _ _ _ _ _ _ Ha) as H1. destruct (second_locked e) eqn:Efl; cbn in H1.
  2: { subst Q2. by exists f, e. }
  destruct H1 as (p & l & Hp & ->). pose proof (a_req _ _ _ _ _ _ _ Ha) as Hreq. pose proof (a_locks _ _ _ _ _ _ _ Ha) as HL.
  cbn [app] in HL. rewrite <- Permutation_middle in HL.
  destruct (unlock_path_ok f (Q1 ++ R) (nodeid2 e) p l (if wr2 e then wnode2 e else None) (a_tree _ _ _ _ _ _ _ Ha) (a_acyclic _ _ _ _ _ _ _ Ha) (ptr_of _ _ _ Hp) HL)
    as (N' & E & Hlo & HG). rewrite (bind_step _ _ _ _ _ E). set (f1 := set_nodes N' f).
  rewrite (qe_update_ok f1 L1 e L2 _ (a_queue _ _ _ _ _ _ _ Ha) (a_nodup _ _ _ _ _ _ _ Ha)). eexists _, (without_second e). split; [reflexivity|].
  split; [|done]. pose proof (at_elem_step f L1 e L2 Q1 _ R N' (heap f) (without_second e) Q1 [] Ha Hlo) as Hs. unfold elem_state in Hs.
  replace (set_heap (heap f) f) with f in Hs by (by destruct f). apply Hs; try done; cbn.
  - intros Hf. by destruct (q_forget _ _ Hreq Hf) as (? & ? & _).
  - eapply part_lock_only; [exact Hlo|apply (a_first _ _ _ _ _ _ _ Ha)].
Qed.

Lemma same_req_trans e e1 e2 : same_req e e1 -> same_req e1 e2 -> same_req e e2.
Proof. unfold same_req. congruence. Qed.

Lemma unlock_element_ok f L1 e L2 Q1 Q2 R : at_elem f L1 e L2 Q1 Q2 R ->
  exists f' e', queue_element_unlock (qid e) f = Some (tt, f') /\ at_elem f' L1 e' L2 [] [] R /\ lock_only (nodes f) (nodes f') /\ same_req e e' /\
    (qdone e', err e') = (qdone e, err e) /\ first_locked e' = false /\ second_locked e' = false.
Proof.
  intros Ha. unfold queue_element_unlock. rewrite (bind_step _ _ _ _ _ (qe_at_ok f L1 e L2 (a_queue _ _ _ _ _ _ _ Ha) (a_nodup _ _ _ _ _ _ _ Ha))).
  destruct (unlock_first_ok f L1 e L2 Q1 Q2 R Ha) as (f1 & e1 & E1 & Ha1 & Hlo1 & Hs1 & Hf1 & Hfl). rewrite (bind_step _ _ _ _ _ E1).
  pose proof Hs1 as [= Eq _ _ _ _ _ _ _ _]. rewrite <- Eq.
  rewrite (bind_step _ _ _ _ _ (qe_at_ok f1 L1 e1 L2 (a_queue _ _ _ _ _ _ _ Ha1) (a_nodup _ _ _ _ _ _ _ Ha1))).
  destruct (unlock_second_ok f1 L1 e1 L2 [] Q2 R Ha1) as (f2 & e2 & E2 & Ha2 & Hlo2 & Hs2 & Hf2 & Hsl). exists f2, e2. split; [done|]. split; [done|].
  split; [by transitivity (nodes f1)|]. split; [by eapply same_req_trans|]. injection Hf1 as ? ? ? ?. injection Hf2 as ? ? ? ?. split; [congruence|]. split; [congruence|done].
Qed.

(** A lock is in the way of an element: of its first path, or of its second once
    it has the first. *)
Definition hindered N e : Prop :=
  (exists p, ptr_in N p (nodeid1 e) /\ blocked N p (nodeid1 e) (name1 e) (wr1 e)) \/
  want2 e = true /\ exists p N1, ptr_in N p (nodeid2 e) /\ blocked N1 p (nodeid2 e) (name2 e) (wr2 e) /\
    (N1 = N \/ exists p1 l w, ptr_in N p1 (nodeid1 e) /\ full_path N p1 l /\ N1 = relock read_lock l (write_locked N w) /\
       forall q, w = Some q -> wr1 e = true /\ exists s, name1 e = Some s /\ key_in N q = Some (nodeid1 e, s)).

(** What waking an element up does: it is served, it has failed and holds
    nothing, or it goes on waiting; only the first element may then hold one of
    its two paths. *)
Definition woken N (first : bool) e e' (Q1 Q2 : list hold) : Prop :=
  qdone e' = true /\ err e' = 0 /\ first_locked e' = true /\ (want2 e = true -> second_locked e' = true) \/
  qdone e' = true /\ err e' <> 0 /\ Q1 = [] /\ Q2 = [] \/
  (qdone e', err e') = (qdone e, err e) /\ (first = true \/ Q1 = [] /\ Q2 = []) /\ hindered N e.

Lemma fail_ok f L1 e L2 Q1 Q2 R x : at_elem f L1 e L2 Q1 Q2 R -> x <> 0 ->
  exists f' e', (_ ← queue_element_unlock (qid e); qe_update (qid e) (with_done x)) f = Some (tt, f') /\ at_elem f' L1 e' L2 [] [] R /\
    lock_only (nodes f) (nodes f') /\ same_req e e' /\ qdone e' = true /\ err e' = x.
Proof.
  intros Ha Hx. destruct (unlock_element_ok f L1 e L2 Q1 Q2 R Ha) as (f1 & e1 & E1 & Ha1 & Hlo1 & Hs1 & _). rewrite (bind_step _ _ _ _ _ E1).
  pose proof Hs1 as [= Eq _ _ _ _ _ _ _ _]. rewrite <- Eq.
  destruct (at_elem_same f1 L1 e1 L2 [] [] R (with_done x) Ha1) as (f2 & E2 & Ha2 & HN); [done|done|]. exists f2, (with_done x e1). split; [done|]. split; [done|].
  split; [by rewrite HN|]. split; [|done]. by eapply same_req_trans.
Qed.

Lemma reason_again N p i nm wr x : reason N p i nm wr x -> x <> 0 -> negb (x =? 0) && negb (x =? - EAGAIN) = false -> blocked N p i nm wr.
Proof.
  intros Hr Hx. rewrite (proj2 (Z.eqb_neq _ _) Hx). cbn. intros Ex%negb_false_iff%Z.eqb_eq. destruct Hr as [->|[[-> _]|[_ Hb]]]; done.
Qed.

(** The two attempts are not enough because of a lock. *)
Lemma hindered_ok f f1 e e1 e2 x y : same_req e e1 -> second_only e1 e2 -> want2 e2 = want2 e1 -> lock_only (nodes f) (nodes f1) ->
  first_locked e2 && (second_locked e2 || negb (want2 e2)) = false ->
  negb (x =? 0) && negb (x =? - EAGAIN) = false -> negb (y =? 0) && negb (y =? - EAGAIN) = false ->
  (x = 0 /\ first_locked e1 = true /\ (nodes f1 = nodes f \/ exists p l w, ptr_in (nodes f) p (nodeid1 e) /\ full_path (nodes f) p l /\
        write_node f (nodeid1 e) (name1 e) (wr1 e) w /\ nodes f1 = relock read_lock l (write_locked (nodes f) w)) \/
   x <> 0 /\ first_locked e1 = false /\ first_locked e = false /\ exists p, ptr_in (nodes f) p (nodeid1 e) /\ reason (nodes f) p (nodeid1 e) (name1 e) (wr1 e) x) ->
  (y = 0 /\ (want2 e1 = true -> second_locked e2 = true) \/
   y <> 0 /\ second_locked e2 = false /\ second_locked e1 = false /\ want2 e1 = true /\
     exists p, ptr_in (nodes f1) p (nodeid2 e1) /\ reason (nodes f1) p (nodeid2 e1) (name2 e1) (wr2 e1) y) ->
  hindered (nodes f) e.
Proof.
  intros [= _ _ _ _ _ E2 E3 E4 E5] [= F1 _ _ _] Ew Hlo Hnd Hx Hy H1 H2.
  destruct H1 as [(-> & Hf1 & HN)|(Hx0 & _ & _ & p & Hp & Hr)]; [|left; exists p; split; [done|by eapply reason_again]]. right.
  rewrite F1, Hf1, Ew in Hnd. cbn in Hnd. apply orb_false_iff in Hnd as [Hs2 Hw2%negb_false_iff].
  destruct H2 as [[_ Hs]|(Hy0 & _ & _ & _ & p & Hp & Hr)]; [specialize (Hs Hw2); congruence|]. rewrite E2, E3, E5 in Hr. rewrite E2 in Hp. split; [congruence|].
  exists p, (nodes f1). split; [eapply ptr_lock_only, Hp; by symmetry|]. split; [by eapply reason_again|].
  destruct HN as [->|(p1 & l & w & Hp1 & Hfp & Hw & ->)]; [by left|right]. exists p1, l, w. split; [done|]. split; [done|]. split; [done|].
  intros q ->. destruct Hw as [? (s & ? & ?)]. eauto.
Qed.

Lemma wakeup_ok f L1 e L2 Q1 Q2 R : at_elem f L1 e L2 Q1 Q2 R ->
  exists f' e' Q1' Q2', queue_element_wakeup (qid e) f = Some (tt, f') /\ at_elem f' L1 e' L2 Q1' Q2' R /\ lock_only (nodes f) (nodes f') /\ same_req e e' /\
    (want1 e = true -> woken (nodes f) (bool_decide (L1 = [])) e e' Q1' Q2').
Proof.
  intros Ha. unfold queue_element_wakeup. rewrite (bind_step _ _ _ _ _ (qe_at_ok f L1 e L2 (a_queue _ _ _ _ _ _ _ Ha) (a_nodup _ _ _ _ _ _ _ Ha))), bind_get.
  destruct (want1 e) eqn:Ew; cbn [negb].
  2: { destruct (q_forget _ _ (a_req _ _ _ _ _ _ _ Ha) Ew) as (_ & _ & p & n & Hn & Hi & _).
       rewrite <- Hi, (bind_step _ _ _ _ _ (get_node_ok ∅ ∅ ∅ _ f p n (a_tree _ _ _ _ _ _ _ Ha) Hn (not_elem_of_empty p))), (bind_step _ _ _ _ _ (node_at_eq f p n Hn)).
       by exists f, e, Q1, Q2. }
  assert (bool_decide (qid <$> head (lockq f) = Some (qid e)) = bool_decide (L1 = [])) as ->.
  { rewrite (a_queue _ _ _ _ _ _ _ Ha). apply bool_decide_ext. destruct L1 as [|a L1]; [done|]. cbn. split; [|done]. intros [= Ea]. exfalso.
    pose proof (a_nodup _ _ _ _ _ _ _ Ha) as Hnd. rewrite (a_queue _ _ _ _ _ _ _ Ha) in Hnd. cbn in Hnd. apply NoDup_cons in Hnd as [Hnd _]. apply Hnd.
    rewrite Ea, fmap_app. apply elem_of_app. right. left. }
  destruct (try_first_ok f L1 e L2 Q1 Q2 R Ha Ew) as (x & f1 & e1 & Q1' & E1 & Ha1 & Hlo1 & Hs1 & Ho1 & Hx1). rewrite (bind_step _ _ _ _ _ E1).
  pose proof Hs1 as [= Eq1 _ _ Ew1 _ _ _ Ew21 _]. rewrite <- Eq1. destruct (negb (x =? 0) && negb (x =? - EAGAIN)) eqn:Ex.
  { apply andb_prop in Ex as [Ex%negb_true_iff%Z.eqb_neq _]. destruct (fail_ok f1 L1 e1 L2 Q1' Q2 R x Ha1 Ex) as (f2 & e2 & E2 & Ha2 & Hlo2 & Hs2 & Hd & He).
    exists f2, e2, [], []. split; [done|]. split; [done|]. split; [by transitivity (nodes f1)|]. split; [by eapply same_req_trans|]. intros _. right; left. by rewrite He. }
  destruct (try_second_ok f1 L1 e1 L2 Q1' Q2 R Ha1 ltac:(congruence)) as (y & f2 & e2 & Q2' & E2 & Ha2 & Hlo2 & Hs2 & Ho2 & Hx2). rewrite (bind_step _ _ _ _ _ E2).
  pose proof (same_req_trans _ _ _ Hs1 Hs2) as Hs12. pose proof Hs2 as [= Eq2 _ _ _ _ _ _ Ew22 _]. rewrite <- Eq2.
  assert (lock_only (nodes f) (nodes f2)) as Hlo12 by by transitivity (nodes f1). destruct (negb (y =? 0) && negb (y =? - EAGAIN)) eqn:Ey.
  { apply andb_prop in Ey as [Ey%negb_true_iff%Z.eqb_neq _]. destruct (fail_ok f2 L1 e2 L2 Q1' Q2' R y Ha2 Ey) as (f3 & e3 & E3 & Ha3 & Hlo3 & Hs3 & Hd & He).
    exists f3, e3, [], []. split; [done|]. split; [done|]. split; [by transitivity (nodes f2)|]. split; [by eapply same_req_trans|]. intros _. right; left. by rewrite He. }
  rewrite (bind_step _ _ _ _ _ (qe_at_ok f2 L1 e2 L2 (a_queue _ _ _ _ _ _ _ Ha2) (a_nodup _ _ _ _ _ _ _ Ha2))).
  destruct (first_locked e2 && (second_locked e2 || negb (want2 e2))) eqn:Edone.
  { destruct (at_elem_same f2 L1 e2 L2 Q1' Q2' R (with_done 0) Ha2) as (f3 & E3 & Ha3 & HN); [done|done|]. exists f3, (with_done 0 e2), Q1', Q2'.
    split; [done|]. split; [done|]. split; [by rewrite HN|]. split; [by eapply same_req_trans|]. intros _. left. split; [done|]. split; [done|].
    apply andb_prop in Edone as [Hfl Hsl]. split; [done|]. intros Hw2. cbn. apply orb_prop in Hsl as [?|?%negb_true_iff]; [done|]. congruence. }
  assert (hindered (nodes f) e) as Hhin by (by apply (hindered_ok f f1 e e1 e2 x y)).
  injection Ho1 as ? ? ? ?. injection Ho2 as ? ? ? ?. destruct (bool_decide (L1 = [])) eqn:EL; cbn [negb].
  { exists f2, e2, Q1', Q2'. split; [done|]. split; [done|]. split; [done|]. split; [done|]. intros _. right; right. split; [congruence|]. split; [by left|done]. }
  destruct (unlock_element_ok f2 L1 e2 L2 Q1' Q2' R Ha2) as (f3 & e3 & E3 & Ha3 & Hlo3 & Hs3 & Hd3 & _). exists f3, e3, [], []. split; [done|]. split; [done|].
  split; [by transitivity (nodes f2)|]. split; [by eapply same_req_trans|]. intros _. right; right. split; [injection Hd3; intros; congruence|]. split; [by right|done].
Qed.

(** ** The whole queue *)

Definition elem_inv f e (Q : list hold) : Prop := elem_req f e /\ exists Q1 Q2, Q = Q1 ++ Q2 /\
  part_holds (nodes f) (first_locked e) (nodeid1 e) (wr1 e) (wnode1 e) Q1 /\
  part_holds (nodes f) (second_locked e) (nodeid2 e) (wr2 e) (wnode2 e) Q2.

(** [G] are the holds of the requests that run. *)
Record sys_inv f (G : list hold) : Prop := {
  s_tree : tree_ok f; s_acyclic : acyclic (abs f); s_names : c_names (nodes f);
  s_nodup : NoDup (qid <$> lockq f);
  s_locks : exists Qs, Forall2 (elem_inv f) (lockq f) Qs /\ locks_inv (nodes f) (concat Qs ++ G);
  s_few : Z.of_nat (length G) + 2 * Z.of_nat (length (lockq f)) + 3 < 2 ^ 31 - 1 }.

Lemma elem_inv_lock_only f f' e Q : lock_only (nodes f) (nodes f') -> elem_inv f e Q -> elem_inv f' e Q.
Proof.
  intros E [Hr (Q1 & Q2 & -> & H1 & H2)]. split.
  - eapply (elem_lock_only f f' e e); try done; [intros Hw; by destruct (q_forget _ _ Hr Hw) as (? & ? & _)|apply (q_single _ _ Hr)].
  - exists Q1, Q2. split; [done|]. split; by eapply part_lock_only.
Qed.

Lemma elem_inv_length f e Q : elem_inv f e Q -> (length Q <= 2)%nat.
Proof. intros [_ (Q1 & Q2 & -> & H1%part_length & H2%part_length)]. rewrite length_app. lia. Qed.

Lemma concat_length f L Qs : Forall2 (elem_inv f) L Qs -> (length (concat Qs) <= 2 * length L)%nat.
Proof. induction 1 as [|e Q L Qs He%elem_inv_length _ IH]; cbn; [lia|]. rewrite length_app. lia. Qed.

Lemma sys_at f G L1 e L2 : sys_inv f G -> lockq f = L1 ++ e :: L2 ->
  exists Qs1 Q1 Q2 Qs2, Forall2 (elem_inv f) L1 Qs1 /\ Forall2 (elem_inv f) L2 Qs2 /\ at_elem f L1 e L2 Q1 Q2 (concat Qs1 ++ concat Qs2 ++ G).
Proof.
  intros [Ht Ha Hc Hnd (Qs & HQ & Hl) Hfew] HL. rewrite HL in HQ. apply Forall2_app_inv_l in HQ as (Qs1 & Qs' & H1 & H2 & ->).
  apply Forall2_cons_inv_l in H2 as (Q & Qs2 & [Hr (Q1 & Q2 & -> & Hp1 & Hp2)] & H2 & ->). exists Qs1, Q1, Q2, Qs2. split; [done|]. split; [done|].
  split; try done.
  - rewrite concat_app, concat_cons in Hl.
    assert (Q1 ++ Q2 ++ concat Qs1 ++ concat Qs2 ++ G ≡ₚ (concat Qs1 ++ (Q1 ++ Q2) ++ concat Qs2) ++ G) as -> by solve_Permutation. done.
  - pose proof (concat_length f L1 Qs1 H1). pose proof (concat_length f L2 Qs2 H2). rewrite HL, length_app in Hfew. cbn in Hfew. rewrite !length_app. lia.
Qed.

Lemma at_sys f G L1 e L2 Qs1 Q1 Q2 Qs2 : at_elem f L1 e L2 Q1 Q2 (concat Qs1 ++ concat Qs2 ++ G) ->
  Forall2 (elem_inv f) L1 Qs1 -> Forall2 (elem_inv f) L2 Qs2 -> Z.of_nat (length G) + 2 * Z.of_nat (length (L1 ++ e :: L2)) + 3 < 2 ^ 31 - 1 -> sys_inv f G.
Proof.
  intros Ha H1 H2 Hfew. pose proof (a_queue _ _ _ _ _ _ _ Ha) as HL. split; [apply Ha|apply Ha|apply Ha|apply Ha| |by rewrite HL].
  exists (Qs1 ++ (Q1 ++ Q2) :: Qs2). split.
  - rewrite HL. apply Forall2_app; [done|]. constructor; [|done]. split; [apply Ha|]. exists Q1, Q2. split; [done|]. split; apply Ha.
  - rewrite concat_app, concat_cons. pose proof (a_locks _ _ _ _ _ _ _ Ha) as Hl.
    assert ((concat Qs1 ++ (Q1 ++ Q2) ++ concat Qs2) ++ G ≡ₚ Q1 ++ Q2 ++ concat Qs1 ++ concat Qs2 ++ G) as -> by solve_Permutation. done.
Qed.

(** Waking up one element keeps the invariant of the queue. *)
Lemma wake_one_ok f G L1 e L2 : sys_inv f G -> lockq f = L1 ++ e :: L2 ->
  exists f' e', queue_element_wakeup (qid e) f = Some (tt, f') /\ sys_inv f' G /\ lockq f' = L1 ++ e' :: L2 /\ qid e' = qid e /\ lock_only (nodes f) (nodes f').
Proof.
  intros Hi HL. destruct (sys_at f G L1 e L2 Hi HL) as (Qs1 & Q1 & Q2 & Qs2 & H1 & H2 & Ha).
  destruct (wakeup_ok f L1 e L2 Q1 Q2 _ Ha) as (f' & e' & Q1' & Q2' & E & Ha' & Hlo & Hs & _). exists f', e'. split; [done|].
  pose proof Hs as [= Eq _ _ _ _ _ _ _ _]. split; [|split; [apply Ha'|done]].
  eapply (at_sys f' G L1 e' L2 Qs1 Q1' Q2' Qs2); [exact Ha'| | |].
  - eapply Forall2_impl; [exact H1|]. intros. by eapply elem_inv_lock_only.
  - eapply Forall2_impl; [exact H2|]. intros. by eapply elem_inv_lock_only.
  - pose proof (s_few _ _ Hi) as Hfew. rewrite HL, length_app in Hfew. rewrite length_app. cbn in *. lia.
Qed.

Lemma wake_all_ok L2 f G L1 : sys_inv f G -> lockq f = L1 ++ L2 ->
  exists f' L2', wake_up_all (qid <$> L2) f = Some (tt, f') /\ sys_inv f' G /\ lock_only (nodes f) (nodes f') /\ lockq f' = L1 ++ L2' /\ qid <$> L2' = qid <$> L2.
Proof.
  revert f L1. induction L2 as [|e L2 IH]; intros f L1 Hi HL; [by exists f, []|]. cbn [fmap list_fmap wake_up_all].
  destruct (wake_one_ok f G L1 e L2 Hi HL) as (f1 & e1 & E1 & Hi1 & HL1 & Eq & Hlo). rewrite (bind_step _ _ _ _ _ E1).
  destruct (IH f1 (L1 ++ [e1]) Hi1) as (f2 & L2' & E2 & Hi2 & Hlo2 & HL2 & Hq); [by rewrite <- app_assoc|]. exists f2, (e1 :: L2'). split; [done|]. split; [done|].
  split; [by transitivity (nodes f1)|]. split; [by rewrite HL2, <- app_assoc|]. rewrite fmap_cons, Hq, Eq. done.
Qed.

(** ** The sections of requests *)

Lemma unlock_ok f G i p l w : sys_inv f (Hold p l w :: G) -> ptr_in (nodes f) p i ->
  exists f1, unlock_path i w None f = Some (tt, f1) /\ sys_inv f1 G /\ lockq f1 = lockq f /\ lock_only (nodes f) (nodes f1).
Proof.
  intros [Ht Ha Hc Hnd (Qs & HQ & Hl) Hfew] Hp. rewrite <- Permutation_middle in Hl.
  destruct (unlock_path_ok f (concat Qs ++ G) i p l w Ht Ha (ptr_of _ _ _ Hp) Hl) as (N' & E & Hlo & HG). exists (set_nodes N' f). split; [done|]. split; [|done].
  pose proof (tree_ok_locks f N' _ (heap f) Ht Hlo HG) as Ht'. replace (set_heap (heap f) f) with f in Ht' by (by destruct f). split; try done.
  - change (acyclic (abs_nodes N')). by rewrite (abs_lock_only _ _ Hlo (tree_num f Ht)).
  - by eapply names_lock_only.
  - exists Qs. split; [|done]. eapply Forall2_impl; [exact HQ|]. intros. by eapply elem_inv_lock_only.
  - cbn in *. lia.
Qed.

Lemma wake_ok f G : sys_inv f G -> exists f', wake_up_queued f = Some (tt, f') /\ sys_inv f' G /\ lock_only (nodes f) (nodes f').
Proof. intros Hi. destruct (wake_all_ok (lockq f) f G [] Hi eq_refl) as (f' & L' & E & ? & ? & _). exists f'. split; [exact E|done]. Qed.

Lemma free_path_ok f G i p l w : sys_inv f (Hold p l w :: G) -> ptr_in (nodes f) p i ->
  exists f', free_path_wrlock i w f = Some (tt, f') /\ sys_inv f' G /\ lock_only (nodes f) (nodes f').
Proof.
  intros Hi Hp. unfold free_path_wrlock. destruct (unlock_ok f G i p l w Hi Hp) as (f1 & E & Hi1 & HL & Hlo). rewrite (bind_step _ _ _ _ _ E), bind_get.
  destruct (bool_decide (lockq f1 = [])); [by exists f1|]. destruct (wake_ok f1 G Hi1) as (f2 & E2 & Hi2 & Hlo2). exists f2. split; [done|]. split; [done|].
  by transitivity (nodes f1).
Qed.

Lemma free_path2_ok f G i1 p1 l1 w1 i2 p2 l2 w2 : sys_inv f (Hold p1 l1 w1 :: Hold p2 l2 w2 :: G) -> ptr_in (nodes f) p1 i1 -> ptr_in (nodes f) p2 i2 ->
  exists f', free_path2 i1 i2 w1 w2 f = Some (tt, f') /\ sys_inv f' G /\ lock_only (nodes f) (nodes f').
Proof.
  intros Hi Hp1 Hp2. unfold free_path2. destruct (unlock_ok f _ i1 p1 l1 w1 Hi Hp1) as (f1 & E & Hi1 & _ & Hlo). rewrite (bind_step _ _ _ _ _ E).
  destruct (unlock_ok f1 _ i2 p2 l2 w2 Hi1 (ptr_lock_only _ _ _ _ Hlo Hp2)) as (f2 & E2 & Hi2 & _ & Hlo2). rewrite (bind_step _ _ _ _ _ E2).
  destruct (wake_ok f2 G Hi2) as (f3 & E3 & Hi3 & Hlo3). exists f3. split; [done|]. split; [done|]. transitivity (nodes f2); [by transitivity (nodes f1)|done].
Qed.

(** A request for a path, in a state with a queue. *)
Lemma sys_try f G p i nm wr : sys_inv f G -> request_ok f p i nm wr -> Z.of_nat (length G) + 2 * Z.of_nat (length (lockq f)) + 4 < 2 ^ 31 - 1 ->
  exists r f', try_get_path i nm wr true f = Some (r, f') /\ lock_only (nodes f) (nodes f') /\ lockq f' = lockq f /\
    match r with
    | inr (s, w) => write_node f i nm wr w /\ exists l, full_path (nodes f) p l /\ s = shown (path_string (nodes f) l (tail_of nm)) /\ sys_inv f' (Hold p l w :: G)
    | inl x => sys_inv f' G /\ reason (nodes f) p i nm wr x
    end.
Proof.
  intros [Ht Ha Hc Hnd (Qs & HQ & Hl) Hfew] Hrq Hb. pose proof (concat_length f _ Qs HQ) as Hcl.
  destruct (try_get_path_ok f (concat Qs ++ G) p i nm wr Ht Ha Hc Hl Hrq) as (r & N' & h & E & Hlo & Hr); [rewrite length_app; lia|].
  exists r, (set_nodes N' (set_heap h f)). split; [done|]. split; [done|]. split; [done|].
  assert (forall G', locks_inv N' (concat Qs ++ G') -> Z.of_nat (length G') <= Z.of_nat (length G) + 1 -> sys_inv (set_nodes N' (set_heap h f)) G') as Hsys.
  { intros G' HG' Hlen. split; try done; [by apply (tree_ok_locks f N' _ h Ht Hlo HG')| | | |cbn; lia].
    - change (acyclic (abs_nodes N')). by rewrite (abs_lock_only _ _ Hlo (tree_num f Ht)).
    - by eapply names_lock_only.
    - exists Qs. split; [|done]. eapply Forall2_impl; [exact HQ|]. intros. by eapply elem_inv_lock_only. }
  destruct r as [x|[s w]].
  - destruct Hr as [HG Hre]. split; [apply Hsys; [done|lia]|done].
  - destruct Hr as (Hw & l & Hfp & -> & HG & _). split; [done|]. exists l. split; [done|]. split; [done|]. apply Hsys; [by rewrite <- Permutation_middle|cbn; lia].
Qed.

(** A new element at the end of the queue. *)
Lemma queue_ok f G e : sys_inv f G -> elem_req f e -> first_locked e = false -> second_locked e = false -> qid e ∉ (qid <$> lockq f) ->
  Z.of_nat (length G) + 2 * Z.of_nat (length (lockq f)) + 5 < 2 ^ 31 - 1 -> sys_inv (set_lockq (lockq f ++ [e]) f) G.
Proof.
  intros [Ht Ha Hc Hnd (Qs & HQ & Hl) Hfew] Hr H1 H2 Hq Hb. split; try done; [by apply tree_ok_lockq| | |cbn; rewrite length_app; cbn; lia].
  - cbn. rewrite fmap_app. apply NoDup_app. split; [done|]. split; [|apply NoDup_singleton]. intros x Hx ->%list_elem_of_singleton. done.
  - exists (Qs ++ [[]]). cbn [lockq set_lockq nodes]. split; [|by rewrite concat_app, app_nil_r].
    apply Forall2_app; [eapply Forall2_impl; [exact HQ|]; intros; by apply (elem_inv_lock_only f)|]. constructor; [|constructor].
    apply (elem_inv_lock_only f); [done|]. split; [done|]. exists [], []. by rewrite H1, H2.
Qed.

Lemma get_path_ok f G q p i nm wr : sys_inv f G -> request_ok f p i nm wr -> q ∉ (qid <$> lockq f) ->
  Z.of_nat (length G) + 2 * Z.of_nat (length (lockq f)) + 5 < 2 ^ 31 - 1 ->
  exists r f', get_path_common q i nm wr f = Some (r, f') /\ lock_only (nodes f) (nodes f') /\
    match r with
    | Some (inr (s, w)) => write_node f i nm wr w /\
        exists l, full_path (nodes f) p l /\ s = shown (path_string (nodes f) l (tail_of nm)) /\ sys_inv f' (Hold p l w :: G)
    | Some (inl x) => sys_inv f' G /\ (x = - ENOMEM \/ x = - ENOENT /\ forall l, ~ full_path (nodes f) p l)
    | None => sys_inv f' G /\ blocked (nodes f) p i nm wr
    end.
Proof.
  intros Hi Hrq Hq Hb. unfold get_path_common. destruct (sys_try f G p i nm wr Hi Hrq) as (r & f1 & E & Hlo & HL & Hr); [lia|].
  rewrite (bind_step _ _ _ _ _ E). destruct r as [x|[s w]]; [|eexists (Some (inr (s, w))), f1; by split]. destruct Hr as [Hi1 Hre].
  destruct (Z.eqb_spec x (- EAGAIN)) as [->|Hx].
  - eexists None, _. split; [reflexivity|]. split; [done|]. split; [|destruct Hre as [?|[[? _]|[_ ?]]]; done].
    rewrite <- HL in Hq, Hb. apply queue_ok; try done. split; try done. cbn. intros _. exists p. by eapply request_lock_only.
  - eexists (Some (inl x)), f1. split; [reflexivity|]. split; [done|]. split; [done|]. destruct Hre as [?|[?|[? _]]]; [by left|by right|done].
Qed.

(** A waiting thread runs again: what its element holds is now the holds of a
    request that runs. *)
(** An element leaves the queue; the holds it has are those of its request. *)
Lemma dequeue_ok f G L1 e L2 : sys_inv f G -> lockq f = L1 ++ e :: L2 ->
  dequeue_path (qid e) f = Some (tt, set_lockq (L1 ++ L2) f) /\ exists Q1 Q2, sys_inv (set_lockq (L1 ++ L2) f) (Q1 ++ Q2 ++ G) /\
    part_holds (nodes f) (first_locked e) (nodeid1 e) (wr1 e) (wnode1 e) Q1 /\ part_holds (nodes f) (second_locked e) (nodeid2 e) (wr2 e) (wnode2 e) Q2.
Proof.
  intros Hi HL. destruct (sys_at f G L1 e L2 Hi HL) as (Qs1 & Q1 & Q2 & Qs2 & H1 & H2 & Ha).
  pose proof (qe_at_ok f L1 e L2 HL (s_nodup _ _ Hi)) as Eq. unfold dequeue_path. rewrite (bind_step _ _ _ _ _ Eq). unfold modify.
  destruct Hi as [Ht Hac Hc Hnd _ Hfew].
  assert (filter (fun e0 => qid e0 <> qid e) (lockq f) = L1 ++ L2) as ->.
  { rewrite HL in Hnd |- *. rewrite fmap_app, fmap_cons in Hnd. apply NoDup_app in Hnd as (_ & Hno & [Hno2 _]%NoDup_cons).
    rewrite filter_app, filter_cons_False by (intros Hn; by apply Hn). f_equal; apply filter_all; intros x Hx Ex.
    - apply (Hno (qid e)); [rewrite <- Ex; by apply list_elem_of_fmap_2|left].
    - apply Hno2. rewrite <- Ex. by apply list_elem_of_fmap_2. }
  split; [done|]. exists Q1, Q2. split; [|split; apply Ha]. split; try done; [by apply tree_ok_lockq| | |].
  - cbn. rewrite HL, fmap_app, fmap_cons in Hnd. rewrite fmap_app. apply NoDup_app in Hnd as (Hn1 & Hn & [_ Hn2]%NoDup_cons). apply NoDup_app.
    split; [done|]. split; [|done]. intros x Hx Hx2. apply (Hn x Hx). by right.
  - exists (Qs1 ++ Qs2). cbn [nodes lockq set_lockq]. split; [apply Forall2_app; (eapply Forall2_impl; [eassumption|]); intros; by apply (elem_inv_lock_only f)|].
    rewrite concat_app. pose proof (a_locks _ _ _ _ _ _ _ Ha) as Hl.
    assert ((concat Qs1 ++ concat Qs2) ++ Q1 ++ Q2 ++ G ≡ₚ Q1 ++ Q2 ++ concat Qs1 ++ concat Qs2 ++ G) as -> by solve_Permutation. done.
  - pose proof (part_length _ _ _ _ _ _ (a_first _ _ _ _ _ _ _ Ha)). pose proof (part_length _ _ _ _ _ _ (a_second _ _ _ _ _ _ _ Ha)).
    cbn [lockq set_lockq]. rewrite HL in Hfew. rewrite !length_app in *. cbn in *. lia.
Qed.

Lemma wait_ok f G L1 e L2 : sys_inv f G -> lockq f = L1 ++ e :: L2 ->
  exists r f', wait_path (qid e) f = Some (r, f') /\ nodes f' = nodes f /\
    match r with
    | Some e' => e' = e /\ qdone e = true /\ exists Q1 Q2, sys_inv f' (Q1 ++ Q2 ++ G) /\
        part_holds (nodes f) (first_locked e) (nodeid1 e) (wr1 e) (wnode1 e) Q1 /\ part_holds (nodes f) (second_locked e) (nodeid2 e) (wr2 e) (wnode2 e) Q2
    | None => f' = f
    end.
Proof.
  intros Hi HL. unfold wait_path. rewrite (bind_step _ _ _ _ _ (qe_at_ok f L1 e L2 HL (s_nodup _ _ Hi))). destruct (qdone e) eqn:Ed; [|by exists None, f].
  destruct (dequeue_ok f G L1 e L2 Hi HL) as [E HQ]. rewrite (bind_step _ _ _ _ _ E). by eexists (Some e), _.
Qed.

(** Both paths at once, or none. *)
Lemma get_path2_ok f G q p1 i1 nm1 wr1 p2 i2 nm2 wr2 : sys_inv f G -> request_ok f p1 i1 nm1 wr1 -> request_ok f p2 i2 nm2 wr2 -> q ∉ (qid <$> lockq f) ->
  Z.of_nat (length G) + 2 * Z.of_nat (length (lockq f)) + 6 < 2 ^ 31 - 1 ->
  exists r f', get_path2 q i1 nm1 i2 nm2 wr1 wr2 f = Some (r, f') /\ lock_only (nodes f) (nodes f') /\
    match r with
    | Some (inr ((s1, w1), (s2, w2))) => exists l1 l2, full_path (nodes f) p1 l1 /\ full_path (nodes f) p2 l2 /\
        s1 = shown (path_string (nodes f) l1 (tail_of nm1)) /\ s2 = shown (path_string (nodes f) l2 (tail_of nm2)) /\
        sys_inv f' (Hold p1 l1 w1 :: Hold p2 l2 w2 :: G)
    | _ => sys_inv f' G
    end.
Proof.
  intros Hi Hr1 Hr2 Hq Hb. unfold get_path2, try_get_path2. rewrite bind_assoc.
  assert (forall f1, sys_inv f1 G -> lock_only (nodes f) (nodes f1) -> lockq f1 = lockq f -> exists r f', (match (inl (- EAGAIN) : Z + (bytes * option Z) * (bytes * option Z)) with
    | inl x => if x =? - EAGAIN then _ ← queue_path (Queued q i1 nm1 true wr1 None None i2 nm2 true wr2 None None 0 false false false); mret None else mret (Some (inl x))
    | inr pws => mret (Some (inr pws)) end) f1 = Some (r, f') /\ r = None /\ lock_only (nodes f) (nodes f') /\ sys_inv f' G) as Hwait.
  { intros f1 Hi1 Hlo HL. eexists None, _. split; [reflexivity|]. split; [done|]. split; [done|]. rewrite <- HL in Hq, Hb. apply queue_ok; try done; [|lia].
    split; try done; cbn; intros _; [exists p1|exists p2]; by eapply request_lock_only. }
  destruct (sys_try f G p1 i1 nm1 wr1 Hi Hr1) as (r1 & f1 & E1 & Hlo1 & HL1 & H1); [lia|]. rewrite (bind_step _ _ _ _ _ E1). destruct r1 as [x|[s1 w1]].
  { destruct H1 as [Hi1 _]. rewrite bind_ret. destruct (Z.eqb_spec x (- EAGAIN)) as [->|Hx].
    - destruct (Hwait f1 Hi1 Hlo1 HL1) as (r & f' & E & -> & ? & ?). by exists None, f'.
    - eexists (Some (inl x)), f1. done. }
  destruct H1 as (_ & l1 & Hfp1 & -> & Hi1). rewrite bind_assoc.
  destruct (sys_try f1 _ p2 i2 nm2 wr2 Hi1) as (r2 & f2 & E2 & Hlo2 & HL2 & H2); [by eapply request_lock_only|rewrite HL1; cbn; lia|]. rewrite (bind_step _ _ _ _ _ E2).
  assert (lock_only (nodes f) (nodes f2)) as Hlo12 by by transitivity (nodes f1). destruct r2 as [x|[s2 w2]].
  - destruct H2 as [Hi2 _]. rewrite bind_assoc. destruct (r_node _ _ _ _ _ Hr1) as (dn & Hdn & Hdi & _).
    destruct (unlock_ok f2 G i1 p1 l1 w1 Hi2) as (f3 & E3 & Hi3 & HL3 & Hlo3); [eapply ptr_lock_only; [exact Hlo12|by exists dn]|]. cbn [snd]. rewrite (bind_step _ _ _ _ _ E3), bind_ret.
    assert (lock_only (nodes f) (nodes f3)) as Hlo13 by by transitivity (nodes f2). destruct (Z.eqb_spec x (- EAGAIN)) as [->|Hx].
    + destruct (Hwait f3 Hi3 Hlo13) as (r & f' & E & -> & ? & ?); [congruence|]. by exists None, f'.
    + eexists (Some (inl x)), f3. done.
  - destruct H2 as (_ & l2 & Hfp2 & -> & Hi2). rewrite bind_ret. eexists (Some (inr (_, _))), f2. split; [reflexivity|]. split; [done|]. exists l1, l2.
    split; [done|]. split; [eapply full_path_lock_only; [symmetry; exact Hlo1|done]|]. split; [done|]. rewrite (path_string_lock_only _ _ l2 _ Hlo1). split; [done|].
    destruct Hi2 as [? ? ? ? (Qs & HQ & Hl) ?]. split; try done. exists Qs. split; [done|].
    assert (Hold p1 l1 w1 :: Hold p2 l2 w2 :: G ≡ₚ Hold p2 l2 w2 :: Hold p1 l1 w1 :: G) as -> by solve_Permutation. done.
Qed.
End Queue.
