(* ===== verification/PathTree.v ===== *)
(** * Operations on the tree while paths are locked

    Requests change the tree while others hold paths.  A request that removes or
    renames a file has it locked for writing, so the nodes on the paths of other
    requests stay where they are: every operation of [NodeTheorems] keeps the
    invariant of the locks, and the strings that were handed out remain the
    paths of their files. *)

From S2P Require Import Prelude NodeTable Wire Locks Node NodeTree NodeOps NodeSpec NodeTheorems Path PathSpec PathQueue.

(** ** What an operation changes in the abstract tree *)

(** Every entry stays, and those outside [I] keep their place; a place that was
    not taken before is in [K]. *)
Record edits (I : list Z) (K : list (Z * bytes)) (A A' : tree) : Prop := {
  ed_keep : forall i e, A !! i = Some e -> exists e', A' !! i = Some e' /\ (count e <> 0 -> count e' <> 0) /\ (i ∉ I -> place e' = place e);
  ed_zero : forall i e', A' !! i = Some e' -> count e' = 0 -> (i ∉ I) /\ exists e, A !! i = Some e /\ count e = 0;
  ed_place : forall i e' k, A' !! i = Some e' -> place e' = Some k -> k ∈ K \/ exists e, A !! i = Some e /\ place e = Some k }.

Lemma edits_refl A : edits [] [] A A.
Proof. split; [eauto| |eauto]. intros i e He Hc. split; [apply not_elem_of_nil|eauto]. Qed.

Lemma edits_trans I1 K1 I2 K2 A1 A2 A3 : edits I1 K1 A1 A2 -> edits I2 K2 A2 A3 -> edits (I1 ++ I2) (K1 ++ K2) A1 A3.
Proof.
  intros [k1 z1 p1] [k2 z2 p2]. split.
  - intros i e He. destruct (k1 i e He) as (e2 & He2 & Hc2 & Hp2), (k2 i e2 He2) as (e3 & He3 & Hc3 & Hp3). exists e3. split; [done|]. split; [auto|].
    rewrite not_elem_of_app. intros [Hi1 Hi2]. rewrite Hp3, Hp2; done.
  - intros i e He Hc. destruct (z2 i e He Hc) as (Hi2 & e2 & He2 & Hc2), (z1 i e2 He2 Hc2) as (Hi1 & ?). rewrite not_elem_of_app. done.
  - intros i e k He Hk. rewrite elem_of_app. destruct (p2 i e k He Hk) as [?|(e2 & He2 & Hk2)]; [auto|]. destruct (p1 i e2 k He2 Hk2); auto.
Qed.

(** A new entry, or an entry with a new count. *)
Lemma edits_add A i e : count e <> 0 -> (forall e0, A !! i = Some e0 -> place e = place e0) -> edits [] (option_list (place e)) A (<[i := e]> A).
Proof.
  intros Hc Hp. split.
  - intros j ej Hj. rewrite lookup_insert. case_decide; [subst; exists e|exists ej]; (split; [done|]; split; [done|]); [intros _; by apply Hp|done].
  - intros j ej [[<- <-]|[_ Hj]]%lookup_insert_Some Hz; [done|]. split; [apply not_elem_of_nil|eauto].
  - intros j ej k [[<- <-]|[_ Hj]]%lookup_insert_Some Hk; [left; rewrite Hk; by left|eauto].
Qed.

(** An entry gets another place. *)
Lemma edits_move A i e : count e <> 0 -> edits [i] (option_list (place e)) A (<[i := e]> A).
Proof.
  intros Hc. split.
  - intros j ej Hj. rewrite lookup_insert. case_decide as E; [subst; exists e|exists ej]; (split; [done|]; split; [done|]); [|done].
    intros Hn. destruct Hn. by left.
  - intros j ej [[<- <-]|[Hj Hej]]%lookup_insert_Some Hz; [done|]. split; [by intros ->%list_elem_of_singleton|eauto].
  - intros j ej k [[<- <-]|[_ Hj]]%lookup_insert_Some Hk; [left; rewrite Hk; by left|eauto].
Qed.

Lemma edits_set_place A i k e : A !! i = Some e -> count e <> 0 -> edits [i] (option_list k) A (set_place i k A).
Proof. intros He Hc. unfold set_place. rewrite He. by apply (edits_move A i (Entry (count e) k (gen e))). Qed.

Lemma edits_opt_place A o k : (forall i, o = Some i -> exists e, A !! i = Some e /\ count e <> 0) ->
  exists K, edits (option_list o) K A (opt_place o k A) /\ forall x, x ∈ K -> k = Some x.
Proof.
  intros Ho. destruct o as [i|]; [|exists []; split; [apply edits_refl|by intros x ?%not_elem_of_nil]].
  destruct (Ho i eq_refl) as (e & He & Hc). exists (option_list k). split; [by eapply edits_set_place|].
  destruct k; cbn; [by intros x ->%list_elem_of_singleton|by intros x ?%not_elem_of_nil].
Qed.

(** The places whose files an operation moves or removes, and those it fills. *)
Definition places (o : op) : list (Z * bytes) :=
  match o with
  | OFind _ _ | OForget _ _ => []
  | ORemove d nm => [(d, nm)]
  | ORename od on nd nn _ | OExchange od on nd nn => [(od, on); (nd, nn)]
  end.

Definition targets (o : op) : list (Z * bytes) :=
  match o with OFind d (Some nm) => [(d, nm)] | _ => places o end.

Lemma edits_count A i e e' : A !! i = Some e -> place e' = place e -> count e' <> 0 -> edits [] [] A (<[i := e']> A).
Proof.
  intros He Hp Hc. split.
  - intros j ej Hj. rewrite lookup_insert. case_decide as E; [subst; exists e'|exists ej]; (split; [done|]; split; [done|]); [congruence|done].
  - intros j ej [[<- <-]|[_ Hj]]%lookup_insert_Some Hz; [done|]. split; [apply not_elem_of_nil|eauto].
  - intros j ej k [[<- <-]|[_ Hj]]%lookup_insert_Some Hk; right; [rewrite Hp in Hk|]; eauto.
Qed.

(** The entries [I] are at places of [D]. *)
Definition at_places (A : tree) (D : list (Z * bytes)) (I : list Z) : Prop :=
  forall i, i ∈ I -> exists e k, A !! i = Some e /\ place e = Some k /\ k ∈ D.

Lemma at_places_app A D I J : at_places A D I -> at_places A D J -> at_places A D (I ++ J).
Proof. intros HI HJ i [?|?]%elem_of_app; auto. Qed.

Lemma at_places_nil A D : at_places A D [].
Proof. by intros i ?%not_elem_of_nil. Qed.

Lemma found_at A d nm o D : found A d nm o -> (d, nm) ∈ D -> at_places A D (option_list o).
Proof.
  intros Hf Hd. destruct o as [i|]; [|apply at_places_nil]. destruct Hf as (e & He & Hp). intros j ->%list_elem_of_singleton. eauto 6.
Qed.

Lemma displaced_edits rem A d nm A' D : displaced rem A d nm A' -> at_place A d nm (fun _ e => spare rem e) -> (d, nm) ∈ D ->
  exists I, edits I [] A A' /\ at_places A D I.
Proof.
  intros [[_ ->]|(i & e & He & Hp & ->)] Hs Hd; [exists []; split; [apply edits_refl|apply at_places_nil]|].
  exists [i]. split; [|intros j ->%list_elem_of_singleton; eauto 6]. apply (edits_move A i (unnamed rem e)).
  specialize (Hs i e He Hp). unfold spare, unnamed in *. cbn. destruct rem; lia.
Qed.

(** [A'] is [A] but for entries at the places [D], and new entries at [T]. *)
Definition edited (D T : list (Z * bytes)) (A A' : tree) : Prop :=
  exists I K, edits I K A A' /\ at_places A D I /\ forall x, x ∈ K -> x ∈ T.

Definition counted (A : tree) (o : option Z) : Prop := forall i, o = Some i -> exists e, A !! i = Some e /\ count e <> 0.

Lemma edited_refl D T A : edited D T A A.
Proof. exists [], []. split; [apply edits_refl|]. split; [apply at_places_nil|by intros x ?%not_elem_of_nil]. Qed.

Lemma found_counted A d nm o : found A d nm o -> at_place A d nm (fun _ e => count e <> 0) -> counted A o.
Proof. intros Hf Hc i ->. destruct Hf as (e & He & Hp). eauto. Qed.

Lemma edited_place D T A B o k : edited D T A B -> counted A o -> at_places A D (option_list o) -> (k = None \/ exists x, k = Some x /\ x ∈ T) ->
  edited D T A (opt_place o k B).
Proof.
  intros (I & K & He & HI & HK) Hc Ho Hk. destruct (edits_opt_place B o k) as (K' & He' & HK').
  { intros i Hi. destruct (Hc i Hi) as (e & Hie & Hce), (ed_keep _ _ _ _ He i e Hie) as (e' & He' & Hc' & _). eauto. }
  exists (I ++ option_list o), (K ++ K'). split; [by eapply edits_trans|]. split; [by apply at_places_app|].
  intros x [?|Hx%HK']%elem_of_app; [auto|]. destruct Hk as [->|(y & -> & ?)]; [done|]. by simplify_eq.
Qed.

Lemma displaced_edited rem A d nm A' D T : displaced rem A d nm A' -> at_place A d nm (fun _ e => spare rem e) -> (d, nm) ∈ D -> edited D T A A'.
Proof.
  intros [[_ ->]|(i & e & He & Hp & ->)] Hs Hd; [apply edited_refl|]. exists [i], []. split; [|split; [|by intros x ?%not_elem_of_nil]].
  - apply (edits_move A i (unnamed rem e)). specialize (Hs i e He Hp). unfold spare, unnamed in *. cbn. destruct rem; lia.
  - intros j ->%list_elem_of_singleton. eauto 6.
Qed.

(** The first [k] steps of an exchange. *)
Definition exchange_steps (od : Z) (on : bytes) (nd : Z) (nn : bytes) (o n : option Z) (k : nat) (A : tree) : tree :=
  match k with
  | 2%nat => opt_place n None (opt_place o None A)
  | 3%nat => opt_place o (Some (nd, nn)) (opt_place n None (opt_place o None A))
  | _ => opt_place n (Some (od, on)) (opt_place o (Some (nd, nn)) (opt_place n None (opt_place o None A)))
  end.

Lemma exchange_edited rem A od on nd nn o n k : found A od on o -> found A nd nn n -> allowed rem A (OExchange od on nd nn) ->
  edited [(od, on); (nd, nn)] [(od, on); (nd, nn)] A (exchange_steps od on nd nn o n k A).
Proof.
  intros Ho Hn (_ & _ & _ & Hso & Hsn).
  assert (counted A o) as Co by (eapply found_counted; [exact Ho|]; intros i e Hi Hp; by apply (Hso i e)).
  assert (counted A n) as Cn by (eapply found_counted; [exact Hn|]; intros i e Hi Hp; by apply (Hsn i e)).
  assert (at_places A [(od, on); (nd, nn)] (option_list o)) as Po by (eapply found_at; [exact Ho|by left]).
  assert (at_places A [(od, on); (nd, nn)] (option_list n)) as Pn by (eapply found_at; [exact Hn|right; by left]).
  assert (edited [(od, on); (nd, nn)] [(od, on); (nd, nn)] A (opt_place n None (opt_place o None A))) as H2.
  { apply edited_place; [|done|done|by left]. apply edited_place; [apply edited_refl|done|done|by left]. }
  assert (edited [(od, on); (nd, nn)] [(od, on); (nd, nn)] A (opt_place o (Some (nd, nn)) (opt_place n None (opt_place o None A)))) as H3.
  { apply edited_place; [done|done|done|]. right. eexists. split; [done|right; by left]. }
  assert (edited [(od, on); (nd, nn)] [(od, on); (nd, nn)] A (exchange_steps od on nd nn o n 4%nat A)) as H4.
  { apply edited_place; [done|done|done|]. right. eexists. split; [done|by left]. }
  destruct k as [|[|[|[|k]]]]; done.
Qed.

Lemma spec_edited rem A o r A' : spec rem A o r A' -> allowed rem A o -> (forall i e, A !! i = Some e -> 0 <= count e) ->
  match o with OForget _ _ => True | _ => edited (places o) (targets o) A A' end.
Proof.
  intros Hs Ha Hc. destruct Hs as [d e He|d nm i e He Hp|d nm i g Hv Hi Hr|d nm Hv|k|i k e A' Hi He Hcol|d nm A' Hd|od on nd nn hide Hv|od on nd nn i j Hi Hj
    |od on nd nn hide i A' Hi Hd Hh|od on nd nn hide i A' Hi Hd Hh|od on nd nn o n Ho Hn|od on nd nn i n Ho Hn|od on nd nn o j Ho Hn]; cbn [places targets]; try done; try apply edited_refl.
  - exists [], []. split; [|split; [apply at_places_nil|by intros x ?%not_elem_of_nil]]. apply (edits_count A d e); [done|done|]. specialize (Hc d e He). cbn. lia.
  - exists [], []. split; [|split; [apply at_places_nil|by intros x ?%not_elem_of_nil]]. apply (edits_count A i e); [done|done|]. specialize (Hc i e He). cbn. lia.
  - exists [], [(d, nm)]. split; [|split; [apply at_places_nil|done]]. apply (edits_add A i (Entry (if rem then 2 else 1) (Some (d, nm)) g)); [cbn; by destruct rem|congruence].
  - destruct Ha as [_ Ha]. eapply displaced_edited; [exact Hd|exact Ha|by left].
  - destruct Ha as (_ & _ & _ & Hs & Ht). apply (edited_place _ _ _ A' (Some i) (Some (nd, nn))).
    + eapply displaced_edited; [exact Hd|exact Ht|right; by left].
    + eapply found_counted; [exact Hi|]. intros j ej Hj Hp. by apply (Hs j ej).
    + eapply found_at; [exact Hi|by left].
    + right. eexists. split; [done|right; by left].
  - destruct Ha as (_ & _ & _ & Hs & Ht). apply (edited_place _ _ _ A' (Some i) None).
    + eapply displaced_edited; [exact Hd|exact Ht|right; by left].
    + eapply found_counted; [exact Hi|]. intros j ej Hj Hp. by apply (Hs j ej).
    + eapply found_at; [exact Hi|by left].
    + by left.
  - exact (exchange_edited rem A od on nd nn o n 4%nat Ho Hn Ha).
  - exact (exchange_edited rem A od on nd nn (Some i) n 2%nat Ho Hn Ha).
  - exact (exchange_edited rem A od on nd nn o (Some j) 3%nat Ho Hn Ha).
Qed.

(** ** Nodes and paths *)

Section Locked.
Context {M : Type} `{NodeMemLaws M}.
Implicit Types (f : fuse M) (N : gmap Z node).

Lemma node_kept f f' q n : settled f f' -> nodes f !! q = Some n -> is_Some (abs f' !! nodeid n) ->
  exists n', nodes f' !! q = Some n' /\ nodeid n' = nodeid n /\ treelock n' = treelock n.
Proof. intros Hs Hn Ha. destruct (st_gone _ _ Hs q n Hn Ha) as [n' Hn']. exists n'. split; [done|]. by apply (st_keep _ _ Hs q). Qed.

Lemma kept_number f f' q n n' : inv f' -> settled f f' -> nodes f !! q = Some n -> nodes f' !! q = Some n' -> is_Some (abs f' !! nodeid n).
Proof. intros [Hf _] Hs Hn Hn'. destruct (st_keep _ _ Hs q n n' Hn Hn') as [<- _]. eexists. apply abs_Some; [by apply tree_num|done]. Qed.

(** A path stays the same if its nodes keep their places. *)
Lemma segment_kept f f' p l z : inv f -> inv f' -> settled f f' -> segment (nodes f) p l z -> is_Some (nodes f' !! p) ->
  (forall q, q ∈ l -> is_Some (nodes f' !! q) -> key_in (nodes f') q = key_in (nodes f) q) ->
  segment (nodes f') p l z /\ (forall t, path_string (nodes f') l t = path_string (nodes f) l t) /\
  exists n n', nodes f !! z = Some n /\ nodes f' !! z = Some n' /\ nodeid n' = nodeid n.
Proof.
  intros [Hf Ha] [Hf' Ha'] Hs Hse. pose proof (tree_num f' Hf') as Hin'. induction Hse as [p [n Hn]|p n d nm l z Hn Hr Hd Hnm Hse IH]; intros [n' Hn'] Hk.
  { split; [by constructor|]. split; [done|]. exists n, n'. split; [done|]. split; [done|]. by apply (st_keep _ _ Hs p). }
  destruct (key_in_closed (nodes f) p n d (tree_closed f Hf) Hn Hd) as (dn & nm' & Hdn & Hnm' & Hkp). assert (nm' = nm) as -> by congruence.
  assert (key_in (nodes f') p = Some (nodeid dn, nm)) as Hkp' by (rewrite Hk; [done|by left|by eexists]).
  destruct (key_in_inv _ _ _ _ Hkp') as (m & d' & dn' & Hm & Hd' & Hdn' & Hi & Hnm2). assert (m = n') as -> by congruence.
  destruct (node_kept f f' d dn Hs Hdn) as (dm & Hdm & Hdi & _); [rewrite <- Hi; eexists; by apply abs_Some|].
  assert (d' = d) as -> by (apply (Hin' d' d dn' dm); congruence). destruct IH as (IH1 & IH2 & IH3); [by exists dm|intros q Hq; apply Hk; by right|].
  split; [|split; [|done]].
  - apply (seg_cons _ p n' d nm); try done. by destruct (st_keep _ _ Hs p n n' Hn Hn') as [-> _].
  - intros t. cbn [path_string]. rewrite IH2, Hn, Hn'. cbn. by rewrite Hnm, Hnm2.
Qed.

Lemma segment_in N p l z q : segment N p l z -> q ∈ l -> is_Some (N !! q).
Proof. induction 1 as [|p n d nm l z Hn Hr Hd Hnm _ IH]; [by intros ?%not_elem_of_nil|]. intros [->|?]%elem_of_cons; [by eexists|auto]. Qed.

Lemma filter_absent {A} (P : A -> Prop) `{forall x, Decision (P x)} (l : list A) : (forall x, x ∈ l -> ~ P x) -> filter P l = [].
Proof.
  induction l as [|a l IH]; intros Hl; [done|]. rewrite filter_cons_False by (apply Hl; by left). apply IH. intros x Hx. apply Hl. by right.
Qed.

(** The node of a hold is the root or locked. *)
Lemma hold_node_locked N G h n : locks_inv N G -> h ∈ G -> N !! h_node h = Some n -> treelock n <> 0 \/ nodeid n = FUSE_ROOT_ID.
Proof.
  intros HG Hh Hn. pose proof (l_holds _ _ HG) as Hall. rewrite Forall_forall in Hall. destruct (Hall h Hh) as ((z & Hse & (m & Hm & Hr)) & _).
  inversion Hse as [p Hp E1 E2 E3|p k d nm l z' Hk Hkr Hd Hnm Hs E1 E2 E3]; subst; [right; congruence|left].
  destruct (held_locked N G h (h_node h) n HG Hh) as (_ & (? & _) & _); [rewrite <- E2; by left|done|done].
Qed.

Lemma hold_write_locked N G h w n : locks_inv N G -> h ∈ G -> h_write h = Some w -> N !! w = Some n -> treelock n = TREELOCK_WRITE.
Proof.
  intros HG Hh Hw Hn. pose proof (writers_pos G h w Hh Hw). pose proof (l_value _ _ HG w n Hn) as Hv. unfold lock_value in Hv. lia.
Qed.

(** What an operation has to respect: nodes locked for reading keep their
    places, and locked nodes keep being looked up. *)
Definition respects f f' : Prop :=
  (forall q n n', nodes f !! q = Some n -> nodes f' !! q = Some n' -> locked_read (treelock n) -> key_in (nodes f') q = key_in (nodes f) q) /\
  (forall q n, nodes f !! q = Some n -> nlookup n <> 0 -> treelock n <> 0 \/ nodeid n = FUSE_ROOT_ID -> exists n', nodes f' !! q = Some n' /\ nlookup n' <> 0).

Lemma locks_kept f f' G : inv f -> inv f' -> settled f f' -> respects f f' -> locks_inv (nodes f) G ->
  locks_inv (nodes f') G /\ forall h t, h ∈ G -> path_string (nodes f') (h_path h) t = path_string (nodes f) (h_path h) t.
Proof.
  intros Hi Hi' Hs [Hkey Hcnt] HG. pose proof (l_holds _ _ HG) as Hall. rewrite Forall_forall in Hall.
  assert (forall h, h ∈ G -> hold_ok (nodes f') h /\ forall t, path_string (nodes f') (h_path h) t = path_string (nodes f) (h_path h) t) as Hh.
  { intros h Hh. destruct (Hall h Hh) as ((z & Hse & (m & Hm & Hr)) & (n & Hn & Hl) & Hw).
    destruct (Hcnt _ n Hn Hl) as (n' & Hn' & Hl'); [by eapply hold_node_locked|].
    destruct (segment_kept f f' _ _ z Hi Hi' Hs Hse) as (Hse' & Hstr & k & k' & Hk & Hk' & Ek); [by eexists| |].
    { intros q Hq [a' Ha']. assert (is_Some (nodes f !! q)) as [a Hqa] by (by eapply segment_in). apply (Hkey q a a' Hqa Ha').
      by destruct (held_locked _ G h q a HG Hh Hq Hqa) as (_ & ? & _). }
    split; [|done]. split; [exists z; split; [done|]; exists k'; split; [done|congruence]|]. split; [by exists n'|].
    intros w Ew. destruct (Hw w Ew) as (a & Hwa & Hla). apply (Hcnt w a Hwa Hla). left. by rewrite (hold_write_locked _ G h w a HG Hh Ew Hwa). }
  split; [split; [|..]|].
  - apply Forall_forall. intros h Hin. by apply Hh.
  - intros q n' Hn'. destruct (nodes f !! q) as [n|] eqn:Hn.
    + destruct (st_keep _ _ Hs q n n' Hn Hn') as [_ ->]. by apply (l_value _ _ HG).
    + rewrite (st_new _ _ Hs q n' Hn' Hn). left.
      assert (writers G q = 0 /\ readers G q = 0) as [-> ->]; [|by auto]. unfold readers, writers.
      rewrite !filter_absent; [done|..]; intros h Hh' Hq; destruct (Hall h Hh') as ((z & Hse & _) & _ & Hw).
      * destruct (segment_in _ _ _ _ _ Hse Hq). congruence.
      * destruct (Hw q Hq) as (a & ? & _). congruence.
  - apply (l_few _ _ HG).
  - intros h t Hin. by apply Hh.
Qed.

(** ** The queue *)

(** Nodes that waiting requests name, and files they want to lock. *)
Definition named_by f (i : Z) : Prop := exists e, e ∈ lockq f /\ (nodeid1 e = i \/ want2 e = true /\ nodeid2 e = i).

Definition wanted f (i : Z) (s : bytes) : Prop := exists e, e ∈ lockq f /\
  (want1 e = true /\ wr1 e = true /\ nodeid1 e = i /\ name1 e = Some s \/ want2 e = true /\ wr2 e = true /\ nodeid2 e = i /\ name2 e = Some s).

(** The paths waiting requests ask for are not longer than 4 GiB. *)
Definition queue_fits f : Prop := forall e p, e ∈ lockq f ->
  (want1 e = true -> ptr_in (nodes f) p (nodeid1 e) -> fits (nodes f) p (tail_of (name1 e))) /\
  (want2 e = true -> ptr_in (nodes f) p (nodeid2 e) -> fits (nodes f) p (tail_of (name2 e))).

(** Nodes named by waiting requests, and files they want, keep being looked up. *)
Definition attends f f' : Prop :=
  (forall q n, nodes f !! q = Some n -> nlookup n <> 0 -> named_by f (nodeid n) -> exists n', nodes f' !! q = Some n' /\ nlookup n' <> 0) /\
  (forall w n' i s, nodes f' !! w = Some n' -> nlookup n' = 0 -> key_in (nodes f') w = Some (i, s) -> wanted f i s ->
     exists n, nodes f !! w = Some n /\ nlookup n = 0 /\ key_in (nodes f) w = Some (i, s)).

Lemma request_kept f f' p i nm wr : settled f f' -> request_ok f p i nm wr ->
  (forall n, nodes f !! p = Some n -> nlookup n <> 0 -> nodeid n = i -> exists n', nodes f' !! p = Some n' /\ nlookup n' <> 0) ->
  (ptr_in (nodes f') p i -> fits (nodes f') p (tail_of nm)) ->
  (forall s w n', wr = true -> nm = Some s -> nodes f' !! w = Some n' -> nlookup n' = 0 -> key_in (nodes f') w = Some (i, s) ->
     exists n, nodes f !! w = Some n /\ nlookup n = 0 /\ key_in (nodes f) w = Some (i, s)) -> request_ok f' p i nm wr.
Proof.
  intros Hs [(dn & Hdn & Hi & Hl) Hnm _ Hw] Hp Hfit Hz. destruct (Hp dn Hdn Hl Hi) as (dn' & Hdn' & Hl').
  destruct (st_keep _ _ Hs p dn dn' Hdn Hdn') as [Hi' _]. rewrite Hi in Hi'. split; [by exists dn'|done|apply Hfit; by exists dn'|].
  intros Ewr. destruct (Hw Ewr) as (s & Es & Hk). exists s. split; [done|]. intros w n' Hn' Hkn Hz'.
  destruct (Hz s w n' Ewr Es Hn' Hz' Hkn) as (n & Hn & Hn0 & Hkn'). by apply (Hk w n Hn Hkn').
Qed.

Lemma elem_kept f f' e : settled f f' -> attends f f' -> queue_fits f' -> e ∈ lockq f -> elem_req f e -> elem_req f' e.
Proof.
  intros Hs [Ha Hb] Hq He [H1 H2 H3 H4]. pose proof He as He'. rewrite <- (st_queue _ _ Hs) in He'. split; [| | |done].
  - intros Hw. destruct (H1 Hw) as [p Hp]. exists p. apply (request_kept f f'); [done|done| |by apply (Hq e p)|].
    + intros n Hn Hl Hi. apply (Ha p n Hn Hl). exists e. split; [done|]. left. auto.
    + intros s w n' Ewr Es Hn' Hz Hk. apply (Hb w n' _ s Hn' Hz Hk). exists e. split; [done|]. left. auto.
  - intros Hw. destruct (H2 Hw) as [p Hp]. exists p. apply (request_kept f f'); [done|done| |by apply (Hq e p)|].
    + intros n Hn Hl Hi. apply (Ha p n Hn Hl). exists e. split; [done|]. right. auto.
    + intros s w n' Ewr Es Hn' Hz Hk. apply (Hb w n' _ s Hn' Hz Hk). exists e. split; [done|]. right. auto.
  - intros Hw. destruct (H3 Hw) as (? & ? & p & n & Hn & Hi & Hl). split; [done|]. split; [done|].
    destruct (Ha p n Hn Hl) as (n' & Hn' & Hl'); [exists e; split; [done|]; left; auto|]. exists p, n'. split; [done|]. split; [|done].
    destruct (st_keep _ _ Hs p n n' Hn Hn') as [-> _]. done.
Qed.

Lemma sys_kept f f' G : sys_inv f G -> inv f' -> settled f f' -> respects f f' -> attends f f' -> c_names (nodes f') -> queue_fits f' ->
  sys_inv f' G /\ forall h t, h ∈ G -> path_string (nodes f') (h_path h) t = path_string (nodes f) (h_path h) t.
Proof.
  intros [Ht Ha Hc Hnd (Qs & HQ & Hl) Hfew] Hi' Hs Hr Hat Hc' Hq. assert (inv f) as Hi by done.
  destruct (locks_kept f f' (concat Qs ++ G) Hi Hi' Hs Hr Hl) as [Hl' Hstr]. split; [|intros h t Hh; apply Hstr, elem_of_app; by right].
  destruct Hi' as [Ht' Ha']. split; try done; rewrite ?(st_queue _ _ Hs); [done| |done]. exists Qs. split; [|done].
  pose proof (l_holds _ _ Hl) as Hall. rewrite Forall_forall in Hall.
  apply Forall2_same_length_lookup_2; [by eapply Forall2_length|]. intros j e Q He HQj. destruct (Forall2_lookup_lr _ _ _ _ _ _ HQ He HQj) as [Hre (Q1 & Q2 & -> & HQ1 & HQ2)].
  assert (forall h, h ∈ Q1 ++ Q2 -> h ∈ concat Qs ++ G) as Hin.
  { intros h Hh. apply elem_of_app. left. apply list_elem_of_In, in_concat. exists (Q1 ++ Q2). rewrite <- !list_elem_of_In. split; [by eapply list_elem_of_lookup_2|done]. }
  assert (forall b i wr wn Q, part_holds (nodes f) b i wr wn Q -> (forall h, h ∈ Q -> h ∈ concat Qs ++ G) -> part_holds (nodes f') b i wr wn Q) as Hpart.
  { intros b i wr wn Q HP HQin. destruct b; [|done]. destruct HP as (p & l & (n & Hn & Hni) & ->). exists p, l. split; [|done].
    pose proof (HQin _ ltac:(by left)) as Hh. destruct (Hall _ Hh) as (_ & (n2 & Hn2 & Hl2) & _). cbn in Hn2. assert (n2 = n) as -> by congruence.
    destruct (proj2 Hr p n Hn Hl2) as (n' & Hn' & _); [by apply (hold_node_locked _ _ _ _ Hl Hh)|]. exists n'. split; [done|].
    destruct (st_keep _ _ Hs p n n' Hn Hn') as [-> _]. done. }
  split; [apply (elem_kept f f'); try done; by eapply list_elem_of_lookup_2|]. exists Q1, Q2. split; [done|].
  split; (apply Hpart; [done|]; intros h Hh; apply Hin, elem_of_app; auto).
Qed.

(** ** Operations *)

(** A request that moves or removes a file has locked it for writing; the kernel
    does not forget the last lookup of a node that is locked, or that a waiting
    request names. *)
Definition guarded f (G : list hold) (o : op) : Prop :=
  match o with
  | OForget i k => ready f o /\ forall e, abs f !! i = Some e -> k = count e -> ~ named_by f i /\ forall d s, place e = Some (d, s) -> ~ wanted f d s
  | _ => forall i e k, abs f !! i = Some e -> place e = Some k -> k ∈ places o -> exists h w, h ∈ G /\ h_write h = Some w /\ ptr_in (nodes f) w i
  end.

Definition op_names (o : op) : Prop := forall k, k ∈ targets o -> nonul k.2.

Lemma abs_node f q n : inv f -> nodes f !! q = Some n -> abs f !! nodeid n = Some (entry_of (nodes f) q n).
Proof. intros [Hf _] Hn. apply abs_Some; [by apply tree_num|done]. Qed.

(** A node that has an entry before and after. *)
Lemma entry_kept f f' q n e' : inv f' -> settled f f' -> nodes f !! q = Some n -> abs f' !! nodeid n = Some e' ->
  exists n', nodes f' !! q = Some n' /\ nlookup n' = count e' /\ key_in (nodes f') q = place e'.
Proof.
  intros Hi' Hs Hn He'. destruct (node_kept f f' q n Hs Hn) as (n' & Hn' & Hni & _); [by eexists|]. exists n'.
  pose proof (abs_node f' q n' Hi' Hn') as HA. rewrite Hni, He' in HA. by injection HA as ->.
Qed.

(** The converse: an entry before, for a node that is there after. *)
Lemma entry_before f f' w n' e : inv f -> inv f' -> settled f f' -> nodes f' !! w = Some n' -> abs f !! nodeid n' = Some e ->
  exists n, nodes f !! w = Some n /\ nodeid n = nodeid n' /\ nlookup n = count e /\ key_in (nodes f) w = place e.
Proof.
  intros [Hf Ha] Hi' Hs Hn' He. apply abs_iff in He as (q & n & Hn & Hni & ->); [|by apply tree_num].
  destruct (node_kept f f' q n Hs Hn) as (m & Hm & Hmi & _); [rewrite Hni; eexists; by apply abs_node|].
  assert (q = w) as -> by (apply (tree_num f' (proj1 Hi') q w m n'); congruence). by exists n.
Qed.

Lemma edited_kept f f' G Qs o : inv f -> inv f' -> settled f f' -> locks_inv (nodes f) (concat Qs ++ G) ->
  edited (places o) (targets o) (abs f) (abs f') ->
  (forall i e k, abs f !! i = Some e -> place e = Some k -> k ∈ places o -> exists h w, h ∈ G /\ h_write h = Some w /\ ptr_in (nodes f) w i) ->
  respects f f' /\ attends f f'.
Proof.
  intros Hi Hi' Hs HG (I & K & Hed & HI & _) Hgd.
  assert (forall q n, nodes f !! q = Some n -> exists n', nodes f' !! q = Some n' /\ (nlookup n <> 0 -> nlookup n' <> 0) /\
    (nodeid n ∉ I -> key_in (nodes f') q = key_in (nodes f) q)) as Hkeep.
  { intros q n Hn. destruct (ed_keep _ _ _ _ Hed _ _ (abs_node f q n Hi Hn)) as (e' & He' & Hc & Hp).
    destruct (entry_kept f f' q n e' Hi' Hs Hn He') as (n' & Hn' & Hl & Hk). exists n'. split; [done|]. rewrite Hl, Hk. by split. }
  split; split.
  - intros q n n' Hn _ Hlr. destruct (Hkeep q n Hn) as (m' & _ & _ & Hk). apply Hk. intros HiI. destruct (HI _ HiI) as (e & k & He & Hp & Hkp).
    destruct (Hgd _ e k He Hp Hkp) as (h & w & Hh & Hw & (m & Hm & Hmi)). assert (w = q) as -> by (apply (tree_num f (proj1 Hi) w q m n); congruence).
    destruct Hlr as (_ & _ & Hlr). apply Hlr. eapply (hold_write_locked _ (concat Qs ++ G) h); [done| |done|done]. apply elem_of_app. by right.
  - intros q n Hn Hl _. destruct (Hkeep q n Hn) as (n' & Hn' & Hl' & _). eauto.
  - intros q n Hn Hl _. destruct (Hkeep q n Hn) as (n' & Hn' & Hl' & _). eauto.
  - intros w n' i s Hn' Hz Hk _. destruct (ed_zero _ _ _ _ Hed _ _ (abs_node f' w n' Hi' Hn') Hz) as (HnI & e & He & Hc).
    destruct (entry_before f f' w n' e Hi Hi' Hs Hn' He) as (n & Hn & Hni & Hl & Hke). exists n. split; [done|]. split; [congruence|].
    destruct (Hkeep w n Hn) as (m & Hm & _ & Hkk). rewrite <- Hk. symmetry. apply Hkk. by rewrite Hni.
Qed.

Lemma edited_names f f' o : inv f -> inv f' -> edited (places o) (targets o) (abs f) (abs f') -> op_names o -> c_names (nodes f) -> c_names (nodes f').
Proof.
  intros Hi Hi' (I & K & Hed & _ & HK) Ho Hc p i nm Hk. destruct (key_in_inv _ _ _ _ Hk) as (n & _ & _ & Hn & _).
  destruct (ed_place _ _ _ _ Hed _ _ (i, nm) (abs_node f' p n Hi' Hn) Hk) as [Hin|(e & He & Hp)]; [exact (Ho _ (HK _ Hin))|].
  apply abs_iff in He as (q & m & Hm & _ & ->); [|by apply tree_num, Hi]. exact (Hc q i nm Hp).
Qed.

(** The same for a request of the kernel to forget a node. *)
Lemma forget_kept f f' i k e : inv f -> inv f' -> settled f f' -> abs f !! i = Some e -> 0 < k <= count e -> i <> FUSE_ROOT_ID ->
  guarded f [] (OForget i k) -> collect (<[i := Entry (count e - k) (place e) (gen e)]> (abs f)) (abs f') ->
  respects f f' /\ attends f f' /\ (c_names (nodes f) -> c_names (nodes f')).
Proof.
  intros Hi Hi' Hs He Hk Hir [Hrd Hgd] Hcol.
  assert (forall j e', abs f' !! j = Some e' -> exists e0, abs f !! j = Some e0 /\ place e' = place e0 /\ (j <> i -> count e' = count e0) /\
    (j = i -> e0 = e /\ count e' = count e - k)) as Hback.
  { intros j e' [Hj _]%Hcol. apply lookup_insert_Some in Hj as [[<- <-]|[Hne Hj]]; [exists e; by repeat split|exists e'; by repeat split]. }
  assert (forall q n, nodes f !! q = Some n -> nlookup n <> 0 -> (nodeid n = i -> k <> count e) -> exists n', nodes f' !! q = Some n' /\ nlookup n' <> 0) as Hkeep.
  { intros q n Hn Hl Hne. pose proof (abs_node f q n Hi Hn) as HA.
    assert (exists e1, <[i := Entry (count e - k) (place e) (gen e)]> (abs f) !! nodeid n = Some e1 /\ count e1 <> 0) as (e1 & He1 & Hc1).
    { rewrite lookup_insert. case_decide as E; [|by eexists]. eexists. split; [done|]. cbn. specialize (Hne (eq_sym E)). lia. }
    assert (abs f' !! nodeid n = Some e1) as He1' by (apply Hcol; split; [done|by eapply live_ref]).
    destruct (entry_kept f f' q n e1 Hi' Hs Hn He1') as (n' & Hn' & Hl' & _). exists n'. split; [done|congruence]. }
  assert (forall q n, nodes f !! q = Some n -> nodeid n = i -> nlookup n = count e) as Hce.
  { intros q n Hn Hni. pose proof (abs_node f q n Hi Hn) as HA. rewrite Hni, He in HA. by injection HA as ->. }
  split; [split|split; [split|]].
  - intros q n n' Hn Hn' _. pose proof (abs_node f q n Hi Hn) as HA. destruct (Hback _ _ (abs_node f' q n' Hi' Hn')) as (e0 & He0 & Hp & _).
    destruct (st_keep _ _ Hs q n n' Hn Hn') as [Hni _]. rewrite Hni, HA in He0. injection He0 as <-. exact Hp.
  - intros q n Hn Hl Hlk. apply (Hkeep q n Hn Hl). intros Hni ->. destruct Hlk as [Ht|Hr]; [|congruence]. apply Ht, (Hrd q n Hn Hni). by apply (Hce q).
  - intros q n Hn Hl Hnm. apply (Hkeep q n Hn Hl). intros Hni ->. destruct (Hgd e He eq_refl) as [Hno _]. apply Hno. by rewrite <- Hni.
  - intros w n' j s Hn' Hz Hkj Hw. destruct (Hback _ _ (abs_node f' w n' Hi' Hn')) as (e0 & He0 & Hp & Hc & Hc').
    destruct (entry_before f f' w n' e0 Hi Hi' Hs Hn' He0) as (n & Hn & Hni & Hl & Hke). exists n. split; [done|]. cbn in Hp, Hc, Hc'.
    destruct (decide (nodeid n' = i)) as [Eni|Eni].
    + destruct (Hc' Eni) as [-> Hcc]. exfalso. destruct (Hgd e He) as [_ Hno]; [lia|]. apply (Hno j s); [congruence|done].
    + rewrite Hl, Hke, <- (Hc Eni). split; [done|congruence].
  - intros Hc p j nm Hkj. destruct (key_in_inv _ _ _ _ Hkj) as (n & _ & _ & Hn & _).
    destruct (Hback _ _ (abs_node f' p n Hi' Hn)) as (e0 & He0 & Hp & _). apply abs_iff in He0 as (q & m & Hm & _ & ->); [|by apply tree_num, Hi].
    cbn in Hp. apply (Hc q j nm). by rewrite <- Hp.
Qed.

(** Every operation of a request keeps the invariant of the locks, and the
    paths that requests have. *)
Lemma tree_op_ok f G o : sys_inv f G -> allowed (remembers f) (abs f) o -> guarded f G o -> op_names o ->
  exists r f', run_op o f = Some (r, f') /\ meets f o r f' /\
    (queue_fits f' -> sys_inv f' G /\ forall h t, h ∈ G -> path_string (nodes f') (h_path h) t = path_string (nodes f) (h_path h) t).
Proof.
  intros Hsys Ha Hg Ho. assert (inv f) as Hi by (split; apply Hsys). assert (ready f o) as Hrd by (destruct o; [done|apply Hg|done..]).
  destruct (refine_op f o Hi Ha Hrd) as (r & f' & E & Hm). exists r, f'. split; [done|]. split; [done|]. intros Hq.
  destruct Hm as (Hi' & Hs & _ & _ & Hsp). pose proof (s_locks _ _ Hsys) as (Qs & _ & Hl).
  assert (forall i e, abs f !! i = Some e -> 0 <= count e) as Hc.
  { intros i e (p & n & Hn & _ & ->)%abs_iff; [|by apply tree_num, Hsys]. apply (t_nlookup _ _ _ _ _ (s_tree _ _ Hsys) p n Hn). }
  assert (edited (places o) (targets o) (abs f) (abs f') ->
    (forall i e k, abs f !! i = Some e -> place e = Some k -> k ∈ places o -> exists h w, h ∈ G /\ h_write h = Some w /\ ptr_in (nodes f) w i) ->
    respects f f' /\ attends f f' /\ c_names (nodes f')) as Hmost.
  { intros Hed Hg'. destruct (edited_kept f f' G Qs o Hi Hi' Hs Hl Hed Hg') as [Hr Hat]. split; [done|]. split; [done|].
    eapply (edited_names f f' o); try done. apply Hsys. }
  assert (respects f f' /\ attends f f' /\ c_names (nodes f')) as (Hr & Hat & Hcn); [|by apply sys_kept].
  pose proof (spec_edited _ _ _ _ _ Hsp Ha Hc) as Hed. destruct o as [d nm|i k|d nm|od on nd nn hide|od on nd nn]; try (apply Hmost; done).
  inversion Hsp as [| | | |k' Hk' Hx HA|j k' e A' Hne He Hcol| | | | | | | |]; subst.
  - apply Hmost; [rewrite <- HA; apply edited_refl|]. by intros i e x _ _ ?%not_elem_of_nil.
  - destruct Ha as [?|(e' & He' & Hk)]; [done|]. assert (e' = e) as -> by congruence.
    destruct (forget_kept f f' i k e Hi Hi' Hs He Hk Hne Hg Hcol) as (? & ? & Hcn). split; [done|]. split; [done|]. apply Hcn, Hsys.
Qed.

(** ** Forgetting a locked node *)

Lemma allowed_node f i k : inv f -> allowed (remembers f) (abs f) (OForget i k) -> i <> FUSE_ROOT_ID ->
  exists p n, get_node_ i f = Some (p, f) /\ nodes f !! p = Some n /\ nodeid n = i /\ 0 < k <= nlookup n.
Proof.
  intros Hi [?|(e & He & Hk)] Hr; [done|]. destruct (get_node_abs f i (proj1 Hi)) as (p & n & E & Hn & Hni); [by eexists|]. exists p, n.
  pose proof (abs_node f p n Hi Hn) as HA. rewrite Hni, He in HA. injection HA as ->. done.
Qed.

(** The kernel's request waits, and the element it puts into the queue waits for
    the node to be unlocked. *)
Lemma forget_wait_ok f G q i k f' : sys_inv f G -> allowed (remembers f) (abs f) (OForget i k) -> q ∉ (qid <$> lockq f) ->
  Z.of_nat (length G) + 2 * Z.of_nat (length (lockq f)) + 5 < 2 ^ 31 - 1 -> forget_begin q i k f = Some (false, f') ->
  sys_inv f' G /\ nodes f' = nodes f /\ ~ ready f (OForget i k).
Proof.
  intros Hs Ha Hq Hb E. assert (inv f) as Hi by (split; apply Hs). destruct (decide (i = FUSE_ROOT_ID)) as [->|Hr]; [done|].
  destruct (allowed_node f i k Hi Ha Hr) as (p & n & Eg & Hn & Hni & Hk). unfold forget_begin in E.
  assert (ready f (OForget i k) \/ nlookup n = k /\ treelock n <> 0) as [Hrd|[Hl Ht]].
  { destruct (decide (nlookup n = k /\ treelock n <> 0)) as [?|Hno]; [by right|left]. intros p' n' Hn' Hni' Hl'.
    assert (p' = p) as -> by (apply (tree_num f (proj1 Hi) p' p n' n); congruence). assert (n' = n) as -> by congruence.
    destruct (decide (treelock n = 0)); [done|]. by destruct Hno. }
  - exfalso. destruct (refine_forget f i k Hi Ha Hrd) as (r & f1 & E1 & _ & _ & _ & _ & Hsp). unfold run_op in E1.
    destruct (forget_node i k f) as [[[] f2]|] eqn:E2; [rewrite (bind_step _ _ _ _ _ E2) in E; done| |apply bind_Some in E1 as (? & ? & ? & _); congruence].
    rewrite (bind_step _ _ _ _ _ E2) in E1. injection E1 as <- <-. by inversion Hsp.
  - assert (forget_node i k f = Some (false, f)) as E2.
    { unfold forget_node. rewrite (proj2 (Z.eqb_neq _ _) Hr), (bind_step _ _ _ _ _ Eg), (bind_step _ _ _ _ _ (node_at_eq f p n Hn)).
      rewrite (proj2 (Z.eqb_eq _ _) Hl), (proj2 (Z.eqb_neq _ _) Ht). done. }
    rewrite (bind_step _ _ _ _ _ E2) in E. injection E as <-. split; [|split; [done|]].
    + apply queue_ok; try done. split; try done. intros _. split; [done|]. split; [done|]. exists p, n. split; [done|]. split; [done|lia].
    + intros Hrd. by apply Ht, (Hrd p n Hn Hni).
Qed.

Lemma forget_again_ok f G L1 e L2 k : sys_inv f G -> lockq f = L1 ++ e :: L2 -> want1 e = false -> nodeid1 e <> FUSE_ROOT_ID ->
  allowed (remembers f) (abs f) (OForget (nodeid1 e) k) -> guarded (set_lockq (L1 ++ L2) f) G (OForget (nodeid1 e) k) ->
  exists f', forget_again (qid e) (nodeid1 e) k f = Some (true, f') /\ spec (remembers f) (abs f) (OForget (nodeid1 e) k) RDone (abs f') /\
    (queue_fits f' -> sys_inv f' G /\ forall h t, h ∈ G -> path_string (nodes f') (h_path h) t = path_string (nodes f) (h_path h) t).
Proof.
  intros Hs HL Hw Hr Ha Hg. assert (inv f) as Hi by (split; apply Hs). destruct (allowed_node f _ k Hi Ha Hr) as (p & n & Eg & Hn & Hni & Hk).
  unfold forget_again. rewrite (bind_step _ _ _ _ _ Eg), (bind_step _ _ _ _ _ (node_at_eq f p n Hn)).
  assert ((nlookup n =? k) && negb (treelock n =? 0) = false) as ->.
  { destruct (Z.eqb_spec (nlookup n) k) as [El|]; [|done]. rewrite (proj1 Hg p n Hn Hni El). done. }
  destruct (sys_at f G L1 e L2 Hs HL) as (Qs1 & P1 & P2 & Qs2 & _ & _ & Hat). destruct (q_forget _ _ (a_req _ _ _ _ _ _ _ Hat) Hw) as (E1 & E2 & _).
  destruct (dequeue_ok f G L1 e L2 Hs HL) as [Ed (Q1 & Q2 & Hs1 & HQ1 & HQ2)]. rewrite (bind_step _ _ _ _ _ Ed). rewrite E1 in HQ1. rewrite E2 in HQ2. cbn in HQ1, HQ2. subst.
  set (f1 := set_lockq (L1 ++ L2) f) in *. destruct (tree_op_ok f1 G (OForget (nodeid1 e) k) Hs1 Ha Hg) as (r & f' & E & Hm & Hq); [by intros x ?%not_elem_of_nil|].
  destruct Hm as (_ & _ & _ & _ & Hsp). assert (r = RDone) as -> by (by inversion Hsp). exists f'. split; [|done]. unfold run_op in E.
  apply bind_Some in E as (b & f2 & E & Eb). destruct b; [|done]. by injection Eb as <-.
Qed.
End Locked.
