(* ===== verification/PathTheorems.v ===== *)
(** * Theorems about path locks

    Sections of requests, in any order: asking for a path, waiting, running
    again, releasing, and the operations on the tree of nodes in between.  The
    path that is returned is the path of the tree and stays so while the request
    runs, locks are never given twice, only a wait that fails may lose them, and
    the first request in the queue is served. *)

From stdpp Require Import relations.
From S2P Require Import Prelude NodeTable Wire Locks Node NodeTree NodeOps NodeSpec Slab NodeTheorems Path PathSpec PathQueue PathTree.

Section Histories.
Context {M : Type} `{NodeMemLaws M}.
Implicit Types (f : fuse M) (N : gmap Z node) (e : lock_queue_element).

(** ** Histories of requests *)

Definition no_locks f : Prop :=
  tree_ok f /\ acyclic (abs f) /\ c_names (nodes f) /\ lockq f = [] /\ forall p n, nodes f !! p = Some n -> treelock n = 0.

(** There is room for one more request. *)
Definition room f (G : list hold) : Prop := Z.of_nat (length G) + 2 * Z.of_nat (length (lockq f)) + 6 < 2 ^ 31 - 1.

(** One section of a request.  [G] are the holds of the requests that run, [X]
    the locks that were lost: a request whose wait ended with an error does not
    run and releases nothing, so what its queue element had locked by then joins
    [X] and stays.  A request that asks for paths may get them, fail, or wait in
    the queue; one that waits may go on when it is done; a request that runs may
    change the tree where it has locks. *)
Inductive lock_step f (G X : list hold) : fuse M -> list hold -> list hold -> Prop :=
  | ls_get q p i nm wr r f' l : request_ok f p i nm wr -> q ∉ (qid <$> lockq f) -> room f (G ++ X) ->
      get_path_common q i nm wr f = Some (r, f') -> full_path (nodes f) p l \/ (forall s w, r <> Some (inr (s, w))) ->
      lock_step f G X f' (match r with Some (inr (_, w)) => Hold p l w :: G | _ => G end) X
  | ls_get2 q p1 i1 nm1 wr1 p2 i2 nm2 wr2 r f' l1 l2 : request_ok f p1 i1 nm1 wr1 -> request_ok f p2 i2 nm2 wr2 ->
      q ∉ (qid <$> lockq f) -> room f (G ++ X) -> get_path2 q i1 nm1 i2 nm2 wr1 wr2 f = Some (r, f') ->
      full_path (nodes f) p1 l1 /\ full_path (nodes f) p2 l2 \/ (forall pws, r <> Some (inr pws)) ->
      lock_step f G X f' (match r with Some (inr ((_, w1), (_, w2))) => Hold p1 l1 w1 :: Hold p2 l2 w2 :: G | _ => G end) X
  | ls_wait L1 e L2 r f' Q1 Q2 : lockq f = L1 ++ e :: L2 -> wait_path (qid e) f = Some (r, f') ->
      part_holds (nodes f) (first_locked e) (nodeid1 e) (wr1 e) (wnode1 e) Q1 -> part_holds (nodes f) (second_locked e) (nodeid2 e) (wr2 e) (wnode2 e) Q2 ->
      Forall (fun h => full_path (nodes f) (h_node h) (h_path h)) (Q1 ++ Q2) ->
      lock_step f G X f' (match r with Some e' => if err e' =? 0 then Q1 ++ Q2 ++ G else G | None => G end)
                         (match r with Some e' => if err e' =? 0 then X else Q1 ++ Q2 ++ X | None => X end)
  | ls_free p l w i f' G' : G ≡ₚ Hold p l w :: G' -> ptr_in (nodes f) p i -> free_path_wrlock i w f = Some (tt, f') -> lock_step f G X f' G' X
  | ls_free2 p1 l1 w1 i1 p2 l2 w2 i2 f' G' : G ≡ₚ Hold p1 l1 w1 :: Hold p2 l2 w2 :: G' -> ptr_in (nodes f) p1 i1 -> ptr_in (nodes f) p2 i2 ->
      free_path2 i1 i2 w1 w2 f = Some (tt, f') -> lock_step f G X f' G' X
  | ls_tree o r f' : allowed (remembers f) (abs f) o -> guarded f G o -> op_names o -> run_op o f = Some (r, f') -> queue_fits f' -> lock_step f G X f' G X
  | ls_forget q i k f' : allowed (remembers f) (abs f) (OForget i k) -> q ∉ (qid <$> lockq f) -> room f (G ++ X) ->
      forget_begin q i k f = Some (false, f') -> lock_step f G X f' G X
  | ls_again L1 e L2 k f' : lockq f = L1 ++ e :: L2 -> want1 e = false -> nodeid1 e <> FUSE_ROOT_ID ->
      allowed (remembers f) (abs f) (OForget (nodeid1 e) k) -> guarded (set_lockq (L1 ++ L2) f) G (OForget (nodeid1 e) k) ->
      forget_again (qid e) (nodeid1 e) k f = Some (true, f') -> queue_fits f' -> lock_step f G X f' G X.

(** The states that sections of requests reach, in any order, from a state
    without locks. *)
Inductive lock_history (f0 : fuse M) : fuse M -> list hold -> list hold -> Prop :=
  | lh_start : lock_history f0 f0 [] []
  | lh_step f G X f' G' X' : lock_history f0 f G X -> lock_step f G X f' G' X' -> lock_history f0 f' G' X'.

Lemma guarded_more f G X o : guarded f G o -> guarded f (G ++ X) o.
Proof.
  destruct o; try done; intros Hg j e k Hj Hk Hp; destruct (Hg j e k Hj Hk Hp) as (h & w & Hh & Hw); exists h, w; (split; [apply elem_of_app; by left|done]).
Qed.

Lemma sys_perm f G G' : G ≡ₚ G' -> sys_inv f G -> sys_inv f G'.
Proof.
  intros E [? ? ? ? (Qs & HQ & Hl) Hf]. split; try done; [exists Qs; split; [done|]; by rewrite <- E|]. by rewrite <- E.
Qed.

Lemma no_locks_sys f : no_locks f -> sys_inv f [].
Proof.
  intros (Ht & Ha & Hc & HL & Hz). split; try done; [rewrite HL; constructor| |rewrite HL; cbn; lia]. exists []. rewrite HL. split; [constructor|].
  split; [constructor| |cbn; lia]. intros p n Hn. rewrite (Hz p n Hn). left. split; [done|by left].
Qed.

(** A node has one path. *)
Lemma full_path_fun N p l l' : full_path N p l -> full_path N p l' -> l = l'.
Proof.
  intros (e & Hs & He) (e' & Hs' & He'). revert l' Hs'. induction Hs as [p Hp|p n d nm l e Hn Hr Hd Hnm Hs IH]; intros l' Hs';
    inversion Hs' as [q Hq|q n' d' nm' l'' e'' Hn' Hr' Hd' Hnm' Hs'']; subst; [done| | |].
  - destruct He as (k & Hk & Hkr). congruence.
  - destruct He' as (k & Hk & Hkr). congruence.
  - f_equal. simplify_eq. by apply (IH He).
Qed.

Lemma ptr_fun N p p' i : num_inj N -> ptr_in N p i -> ptr_in N p' i -> p = p'.
Proof. intros Hin (n & Hn & Hi) (n' & Hn' & Hi'). apply (Hin p p' n n'); congruence. Qed.

Lemma part_fun N b i wr wn Q Q' : num_inj N -> part_holds N b i wr wn Q -> part_holds N b i wr wn Q' ->
  Forall (fun h => full_path N (h_node h) (h_path h)) Q -> Forall (fun h => full_path N (h_node h) (h_path h)) Q' -> Q = Q'.
Proof.
  intros Hin. destruct b; cbn; [|congruence]. intros (p & l & Hp & ->) (p' & l' & Hp' & ->) [HQ _]%Forall_cons [HQ' _]%Forall_cons.
  assert (p = p') as <- by (by eapply ptr_fun). cbn in HQ, HQ'. by rewrite (full_path_fun _ _ _ _ HQ HQ').
Qed.

Lemma sys_full f G h : sys_inv f G -> h ∈ G -> full_path (nodes f) (h_node h) (h_path h).
Proof.
  intros [_ _ _ _ (Qs & _ & Hl) _] Hh. pose proof (l_holds _ _ Hl) as Hall. rewrite Forall_forall in Hall.
  apply (Hall h), elem_of_app. by right.
Qed.

(** Each section keeps the invariant, and the paths of the requests that run. *)
Definition same_paths f f' (G : list hold) : Prop :=
  forall h t, h ∈ G -> path_string (nodes f') (h_path h) t = path_string (nodes f) (h_path h) t.

Lemma lock_only_paths f f' G : lock_only (nodes f) (nodes f') -> same_paths f f' G.
Proof. intros Hlo h t _. by apply path_string_lock_only. Qed.

Lemma lock_step_ok f G X f' G' X' : sys_inv f (G ++ X) -> lock_step f G X f' G' X' -> sys_inv f' (G' ++ X') /\ same_paths f f' (G ++ X).
Proof.
  intros Hi Hst. destruct Hst as [q p i nm wr r f' l Hr Hq Hrm E Hl|q p1 i1 nm1 wr1 p2 i2 nm2 wr2 r f' l1 l2 Hr1 Hr2 Hq Hrm E Hl
    |L1 e L2 r f' Q1 Q2 HL E H1 H2 HQ|p l w i f' G' Hp Hpi E|p1 l1 w1 i1 p2 l2 w2 i2 f' G' Hp Hpi1 Hpi2 E|o r f' Ha Hg Ho E Hq|q i k f' Ha Hq Hrm E|L1 e L2 k f' HL Hw Hne Ha Hg E Hq].
  - unfold room in Hrm. destruct (get_path_ok f (G ++ X) q p i nm wr Hi Hr Hq) as (r' & f1 & E' & Hlo & Hres); [lia|]. rewrite E in E'. injection E' as <- <-.
    split; [|by apply lock_only_paths]. destruct r as [[x|[s w]]|]; [apply Hres| |apply Hres]. destruct Hres as (_ & l' & Hl' & _ & Hs).
    destruct Hl as [Hl|Hl]; [|by destruct (Hl s w)]. by rewrite (full_path_fun _ _ _ _ Hl Hl').
  - unfold room in Hrm. destruct (get_path2_ok f (G ++ X) q p1 i1 nm1 wr1 p2 i2 nm2 wr2 Hi Hr1 Hr2 Hq) as (r' & f1 & E' & Hlo & Hres); [lia|]. rewrite E in E'. injection E' as <- <-.
    split; [|by apply lock_only_paths]. destruct r as [[x|[[s1 w1] [s2 w2]]]|]; try done. destruct Hres as (l1' & l2' & Hl1 & Hl2 & _ & _ & Hs).
    destruct Hl as [[Hl1' Hl2']|Hl]; [|by edestruct Hl]. by rewrite (full_path_fun _ _ _ _ Hl1' Hl1), (full_path_fun _ _ _ _ Hl2' Hl2).
  - destruct (wait_ok f (G ++ X) L1 e L2 Hi HL) as (r' & f1 & E' & HN & Hres). rewrite E in E'. injection E' as <- <-.
    split; [|apply lock_only_paths; by rewrite HN]. destruct r as [e'|]; [|by rewrite Hres].
    destruct Hres as (-> & _ & Q1' & Q2' & Hs & H1' & H2'). pose proof (tree_num f (s_tree _ _ Hi)) as Hin.
    assert (Forall (fun h => full_path (nodes f) (h_node h) (h_path h)) (Q1' ++ Q2')) as HQ'.
    { apply Forall_forall. intros h Hh. rewrite <- HN. eapply sys_full; [exact Hs|]. rewrite app_assoc. apply elem_of_app. by left. }
    apply Forall_app in HQ as [HQ1 HQ2], HQ' as [HQ1' HQ2'].
    rewrite (part_fun _ _ _ _ _ _ _ Hin H1 H1' HQ1 HQ1'), (part_fun _ _ _ _ _ _ _ Hin H2 H2' HQ2 HQ2').
    eapply sys_perm, Hs. destruct (err e =? 0); solve_Permutation.
  - destruct (free_path_ok f (G' ++ X) i p l w) as (f1 & E' & Hs & Hlo); [eapply sys_perm, Hi; by rewrite Hp|done|]. assert (f1 = f') as -> by congruence. split; [done|by apply lock_only_paths].
  - destruct (free_path2_ok f (G' ++ X) i1 p1 l1 w1 i2 p2 l2 w2) as (f1 & E' & Hs & Hlo); [eapply sys_perm, Hi; by rewrite Hp|done|done|]. assert (f1 = f') as -> by congruence.
    split; [done|by apply lock_only_paths].
  - destruct (tree_op_ok f (G ++ X) o Hi Ha (guarded_more f G X o Hg) Ho) as (r' & f1 & E' & _ & Hs). assert (f1 = f') as -> by congruence. by apply Hs.
  - unfold room in Hrm. destruct (forget_wait_ok f (G ++ X) q i k f' Hi Ha Hq) as (Hs & HN & _); [lia|done|]. split; [done|]. apply lock_only_paths. by rewrite HN.
  - destruct (forget_again_ok f (G ++ X) L1 e L2 k Hi HL Hw Hne Ha (guarded_more _ G X _ Hg)) as (f1 & E' & _ & Hs). assert (f1 = f') as -> by congruence. by apply Hs.
Qed.

Lemma history_sys f0 f G X : no_locks f0 -> lock_history f0 f G X -> sys_inv f (G ++ X).
Proof. intros Hst%no_locks_sys Hh. induction Hh as [|f G X f' G' X' _ IH Hs]; [done|]. by eapply lock_step_ok. Qed.

(** C8: path locks exclude, and only failed waits lose them: in every state that
    requests reach in any order — asking for one path or for two, waiting,
    running again and releasing — a file that a request has locked for writing is
    on the path of no request that runs, is locked for writing by no other, and
    neither is held by a lock that was lost; a request can release its locks,
    which fails no assertion; and when no request runs or waits, every node that
    is still locked is held by a lock that was lost, by a request whose wait ended
    with an error after its queue element was woken up once more
    ([failed_waiter_leaks]); without such a request all locks are free. *)
Theorem path_locks_exclude f0 f G X : no_locks f0 -> lock_history f0 f G X ->
  (forall h G' w, G ≡ₚ h :: G' -> h_write h = Some w ->
     w ∉ h_path h /\ forall h', h' ∈ G' ++ X -> w ∉ h_path h' /\ h_write h' <> Some w) /\
  (forall p l w i G', G ≡ₚ Hold p l w :: G' -> ptr_in (nodes f) p i -> exists f', free_path_wrlock i w f = Some (tt, f')) /\
  (G = [] -> lockq f = [] -> forall p n, nodes f !! p = Some n -> treelock n <> 0 ->
     exists h, h ∈ X /\ (p ∈ h_path h \/ h_write h = Some p)).
Proof.
  intros Hst Hh. pose proof (history_sys f0 f G X Hst Hh) as Hi. pose proof (s_locks _ _ Hi) as (Qs & HQ & Hl). split; [|split].
  - intros h G' w HG Hw. rewrite HG in Hl. assert (concat Qs ++ (h :: G') ++ X ≡ₚ h :: concat Qs ++ G' ++ X) as E by solve_Permutation. rewrite E in Hl.
    pose proof (l_holds _ _ Hl) as Hall. apply Forall_cons in Hall as [(_ & _ & Hwn) _]. destruct (Hwn w Hw) as (n & Hn & _).
    pose proof (l_value _ _ Hl w n Hn) as Hv. rewrite readers_cons, writers_cons, (bool_decide_eq_true_2 (h_write h = Some w)) in Hv by done.
    pose proof (readers_range (concat Qs ++ G' ++ X) w) as Hr. pose proof (writers_range (concat Qs ++ G' ++ X) w) as Hwr.
    assert (w ∉ h_path h /\ readers (concat Qs ++ G' ++ X) w = 0 /\ writers (concat Qs ++ G' ++ X) w = 0) as (Hp & Hr0 & Hw0).
    { unfold lock_value in Hv. destruct (bool_decide_reflect (w ∈ h_path h)); [exfalso; lia|split; [done|lia]]. }
    split; [done|]. intros h' Hh'. assert (h' ∈ concat Qs ++ G' ++ X) as Hin by (apply elem_of_app; by right).
    split; intros Hp'; [pose proof (readers_pos _ _ _ Hin Hp')|pose proof (writers_pos _ _ _ Hin Hp')]; lia.
  - intros p l w i G' HG Hp. destruct (free_path_ok f (G' ++ X) i p l w) as (f' & E & _); [eapply sys_perm, Hi; by rewrite HG|done|]. eauto.
  - intros -> HL p n Hn Hz. rewrite HL in HQ. apply Forall2_nil_inv_l in HQ as ->. pose proof (l_value _ _ Hl p n Hn) as Hv. cbn [concat app] in Hv.
    destruct (decide (Exists (fun h => p ∈ h_path h \/ h_write h = Some p) X)) as [(h & Hh' & Hp)%Exists_exists|He]; [by exists h|].
    exfalso. apply Hz. apply not_Exists_Forall in He; [|apply _]. assert (readers X p = 0 /\ writers X p = 0) as [Hr Hw]; [|unfold lock_value in Hv; lia].
    clear -He. induction He as [|h X Hh _ [IH1 IH2]]; [done|]. rewrite readers_cons, writers_cons, IH1, IH2.
    rewrite (bool_decide_eq_false_2 (p ∈ h_path h)), (bool_decide_eq_false_2 (h_write h = Some p)); [done|..]; intros Hp; apply Hh; [by right|by left].
Qed.

(** C11: a request gets the right path: in every state requests reach,
    [get_path] and its variants run to their end within the buffer they
    allocate, and return the names from the root to the node, each after a
    slash, then the name asked for, with the locks that keep the path as it is;
    or they report that memory is short, or that the node is no longer in the
    tree; or, and only if a lock of another request is in the way, they wait. *)
Theorem path_request f0 f G X q p i nm wr : no_locks f0 -> lock_history f0 f G X -> request_ok f p i nm wr -> q ∉ (qid <$> lockq f) -> room f (G ++ X) ->
  exists r f', get_path_common q i nm wr f = Some (r, f') /\
    match r with
    | Some (inr (s, w)) => write_node f i nm wr w /\ exists l, full_path (nodes f) p l /\ s = shown (path_string (nodes f) l (tail_of nm)) /\
        lock_history f0 f' (Hold p l w :: G) X
    | Some (inl x) => x = - ENOMEM \/ x = - ENOENT /\ forall l, ~ full_path (nodes f) p l
    | None => blocked (nodes f) p i nm wr /\ lock_history f0 f' G X
    end.
Proof.
  intros Hst Hh Hr Hq Hrm. pose proof (history_sys f0 f G X Hst Hh) as Hi. pose proof Hrm as Hrm'. unfold room in Hrm'.
  destruct (get_path_ok f (G ++ X) q p i nm wr Hi Hr Hq) as (r & f' & E & _ & Hres); [lia|]. exists r, f'. split; [done|]. destruct r as [[x|[s w]]|].
  - apply Hres.
  - destruct Hres as (Hw & l & Hl & Hs & _). split; [done|]. exists l. split; [done|]. split; [done|].
    exact (lh_step f0 f G X _ _ _ Hh (ls_get f G X q p i nm wr (Some (inr (s, w))) f' l Hr Hq Hrm E (or_introl Hl))).
  - split; [apply Hres|]. refine (lh_step f0 f G X _ _ _ Hh (ls_get f G X q p i nm wr None f' [] Hr Hq Hrm E _)). by right.
Qed.

(** C9: requests that run at the same time refine operations on the abstract
    tree: in every state that sections of requests reach in any order, a lookup,
    removal, rename or exchange by a request that has locked the files it moves,
    and a forget that need not wait, runs to its end with the result the
    specification allows, and the path of every request that runs is the same
    before and after. *)
Theorem concurrent_refines f0 f G X o : no_locks f0 -> lock_history f0 f G X -> allowed (remembers f) (abs f) o -> guarded f G o -> op_names o ->
  exists r f', run_op o f = Some (r, f') /\ spec (remembers f) (abs f) o r (abs f') /\ acyclic (abs f') /\
    (queue_fits f' -> lock_history f0 f' G X /\ same_paths f f' (G ++ X)).
Proof.
  intros Hst Hh Ha Hg Ho. destruct (tree_op_ok f (G ++ X) o (history_sys f0 f G X Hst Hh) Ha (guarded_more f G X o Hg) Ho) as (r & f' & E & ([_ Hac] & _ & _ & _ & Hsp) & Hq).
  exists r, f'. split; [done|]. split; [done|]. split; [done|]. intros Hqf. split; [|exact (proj2 (Hq Hqf))].
  exact (lh_step f0 f G X _ _ _ Hh (ls_tree f G X o r f' Ha Hg Ho E Hqf)).
Qed.

(** A section during which some request keeps the hold [h]. *)
Definition step_with (h : hold) (x y : fuse M * list hold * list hold) : Prop :=
  lock_step x.1.1 x.1.2 x.2 y.1.1 y.1.2 y.2 /\ h ∈ x.1.2 /\ h ∈ y.1.2.

(** C10: a path stays valid while it is held: from the moment a request has got
    a path until it releases it, whatever sections of other requests run in
    between — lookups, forgets, removals and renames, requests that wait and are
    served — the nodes it has locked are the way from its node to the root, and
    they spell the same string. *)
Theorem held_path_stable f0 f G X f' G' X' h : no_locks f0 -> lock_history f0 f G X -> h ∈ G ->
  rtc (step_with h) (f, G, X) (f', G', X') ->
  full_path (nodes f') (h_node h) (h_path h) /\ forall t, path_string (nodes f') (h_path h) t = path_string (nodes f) (h_path h) t.
Proof.
  intros Hst Hh Hin Hr. pose proof (history_sys f0 f G X Hst Hh) as Hi. clear Hst Hh.
  remember (f, G, X) as x eqn:Ex. remember (f', G', X') as y eqn:Ey. revert f G X Hi Hin Ex.
  induction Hr as [x|x [[f1 G1] X1] y (Hs & Hx & Hy) _ IH]; intros f G X Hi Hin ->.
  { injection Ey as -> -> ->. split; [eapply sys_full; [exact Hi|apply elem_of_app; by left]|done]. }
  cbn in Hs, Hx, Hy. destruct (lock_step_ok f G X f1 G1 X1 Hi Hs) as [Hi1 Hp]. destruct (IH Ey f1 G1 X1 Hi1 Hy eq_refl) as [IH1 IH2].
  split; [done|]. intros t. rewrite IH2. apply Hp, elem_of_app. by left.
Qed.

(** ** The first in the queue *)

(** A request is in its own way: the second path goes through the file the first
    locks for writing, the first path through the one of the second, or they
    are the same. *)
Definition self_conflict N e : Prop := want2 e = true /\
  ((exists w s p l, wr1 e = true /\ name1 e = Some s /\ key_in N w = Some (nodeid1 e, s) /\ ptr_in N p (nodeid2 e) /\ segment N p l w) \/
   (exists w s p l, wr2 e = true /\ name2 e = Some s /\ key_in N w = Some (nodeid2 e, s) /\ ptr_in N p (nodeid1 e) /\ full_path N p l /\ w ∈ l) \/
   (wr1 e = true /\ wr2 e = true /\ nodeid1 e = nodeid2 e /\ name1 e = name2 e)).

Lemma hindered_zero N e : (forall p n, N !! p = Some n -> treelock n = 0) -> hindered N e -> self_conflict N e.
Proof.
  intros Hz. assert (forall p i nm wr, ~ blocked N p i nm wr) as Hnb.
  { intros p i nm wr [(l & x & m & _ & Hm & Hneg)|(_ & w & m & s & _ & Hm & _ & Hne)]; specialize (Hz _ _ Hm); lia. }
  intros [(p & _ & Hb)|(Hw2 & p & N1 & Hp & Hb & [->|(p1 & l & w & Hp1 & Hfp & -> & Hw)])]; [by apply Hnb in Hb|by apply Hnb in Hb|].
  split; [done|]. assert (lock_only N (relock read_lock l (write_locked N w))) as Hlo by (transitivity (write_locked N w); [apply write_locked_only|apply relock_lock_only]).
  assert (forall q m, relock read_lock l (write_locked N w) !! q = Some m -> q ∈ l /\ 0 <= treelock m \/ q ∉ l /\ w = Some q \/ treelock m = 0) as Hval.
  { intros q m. rewrite relock_lookup. intros Hm. apply fmap_Some in Hm as (m1 & Hm1 & ->). apply write_locked_lookup in Hm1 as (n & Hn & Hcase). specialize (Hz q n Hn).
    destruct (bool_decide_reflect (q ∈ l)); [left|right]. 2: { destruct Hcase as [[? _]|[_ ->]]; [by left|by right]. }
    split; [done|]. cbn [treelock with_treelock]. destruct Hcase as [[_ ->]|[_ ->]]; [done|]. by rewrite Hz. }
  destruct Hb as [(l' & x & m & Hse & Hm & Hneg)|(Hwr2 & x & m & s & Hnm & Hm & Hk & Hne)].
  - left. destruct (Hval x m Hm) as [[_ ?]|[[_ ->]|?]]; [lia| |lia]. destruct (Hw x eq_refl) as (Hwr & s & Hs & Hk). exists x, s, p, l'.
    split; [done|]. split; [done|]. split; [done|]. split; [done|]. eapply segment_lock_only, Hse. by symmetry.
  - right. rewrite (key_lock_only _ _ x Hlo) in Hk. destruct (Hval x m Hm) as [[Hx _]|[[_ ->]|?]]; [left| |lia].
    + exists x, s, p1, l. done.
    + right. destruct (Hw x eq_refl) as (Hwr & s' & Hs' & Hk'). rewrite Hk in Hk'. injection Hk' as -> ->. split; [done|]. split; [done|]. split; [done|]. congruence.
Qed.

Lemma self_conflict_lock_only N N' e : lock_only N N' -> self_conflict N' e -> self_conflict N e.
Proof.
  intros E [Hw Hc]. assert (lock_only N' N) as E' by by symmetry. split; [done|]. destruct Hc as [(w & s & p & l & H1 & H2 & H3 & H4 & H5)|[(w & s & p & l & H1 & H2 & H3 & H4 & H5 & H6)|Hc]];
    [left|right; left|by right; right]; exists w, s, p, l; rewrite <- (key_lock_only _ _ w E); split_and!; try done; try (by eapply ptr_lock_only);
    [by eapply segment_lock_only|by eapply full_path_lock_only].
Qed.

(** Waking up the first element when no lock is held. *)
Lemma head_ok f e L : sys_inv f [] -> lockq f = e :: L -> want1 e = true ->
  (forall e', e' ∈ lockq f -> first_locked e' = false /\ second_locked e' = false) ->
  exists f' e', queue_element_wakeup (qid e) f = Some (tt, f') /\ sys_inv f' [] /\ lockq f' = e' :: L /\ same_req e e' /\
    (qdone e' = true \/ qdone e' = qdone e /\ self_conflict (nodes f) e).
Proof.
  intros Hi HL Hw Hfree. destruct (sys_at f [] [] e L Hi HL) as (Qs1 & Q1 & Q2 & Qs2 & H1 & H2 & Ha).
  apply Forall2_nil_inv_l in H1 as ->.
  assert (concat Qs2 = []) as HQ2.
  { assert (forall e', e' ∈ L -> first_locked e' = false /\ second_locked e' = false) as HfL by (intros e' He'; apply Hfree; rewrite HL; by right).
    clear Ha Hfree HL Hi. induction H2 as [|e' Q L' Qs [_ (Qa & Qb & -> & Ha & Hb)] _ IH]; [done|]. cbn. destruct (HfL e') as [E1 E2]; [left|]. rewrite E1 in Ha. rewrite E2 in Hb.
    cbn in Ha, Hb. subst. cbn. apply IH. intros x Hx. apply HfL. by right. }
  pose proof Ha as Ha0. rewrite HQ2 in Ha0. destruct (Hfree e) as [E1 E2]; [rewrite HL; left|].
  pose proof (a_first _ _ _ _ _ _ _ Ha) as Hq1. pose proof (a_second _ _ _ _ _ _ _ Ha) as Hq2. rewrite E1 in Hq1. rewrite E2 in Hq2. cbn in Hq1, Hq2. subst Q1 Q2.
  assert (forall p n, nodes f !! p = Some n -> treelock n = 0) as Hz.
  { intros p n Hn. pose proof (l_value _ _ (a_locks _ _ _ _ _ _ _ Ha0) p n Hn) as Hv. unfold lock_value, readers, writers in Hv. cbn in Hv. lia. }
  destruct (wakeup_ok f [] e L [] [] _ Ha) as (f' & e' & Q1' & Q2' & E & Ha' & Hlo & Hs & Hwk). exists f', e'. split; [done|]. split; [|split; [apply Ha'|split; [done|]]].
  - eapply (at_sys f' [] [] e' L [] Q1' Q2' Qs2); [exact Ha'|constructor| |]; [eapply Forall2_impl; [exact H2|]; intros; by eapply elem_inv_lock_only|].
    pose proof (s_few _ _ Hi) as Hfew. rewrite HL in Hfew. cbn in *. lia.
  - destruct (Hwk Hw) as [(? & _)|[(? & _)|(Hd & _ & Hhin)]]; [by left|by left|right]. injection Hd as Hd _. split; [done|]. by apply hindered_zero.
Qed.

(** the first request in the queue is served: if no request in the queue
    holds a lock, none was lost and the only request that runs releases its path, the wait of
    the first in the queue ends there and then, with its paths or with an error;
    unless it is in its own way — a rename that moves a directory below itself,
    or onto a directory above it, or onto itself, which the kernel does not ask
    for. *)
Theorem release_serves_head f0 f p l w i e L : no_locks f0 -> lock_history f0 f [Hold p l w] [] -> ptr_in (nodes f) p i -> lockq f = e :: L -> want1 e = true ->
  (forall e', e' ∈ lockq f -> first_locked e' = false /\ second_locked e' = false) ->
  exists f' e' L', free_path_wrlock i w f = Some (tt, f') /\ lockq f' = e' :: L' /\ same_req e e' /\
    (qdone e' = true \/ qdone e' = qdone e /\ self_conflict (nodes f) e).
Proof.
  intros Hst Hh Hp HL Hw Hfree. pose proof (history_sys f0 f _ _ Hst Hh) as Hi. unfold free_path_wrlock.
  destruct (unlock_ok f [] i p l w Hi Hp) as (f1 & E & Hi1 & HL1 & Hlo). rewrite (bind_step _ _ _ _ _ E), bind_get.
  rewrite bool_decide_eq_false_2 by (by rewrite HL1, HL). unfold wake_up_queued. rewrite bind_get, HL1, HL. cbn [fmap list_fmap wake_up_all]. rewrite <- HL1 in HL, Hfree.
  destruct (head_ok f1 e L Hi1 HL Hw Hfree) as (f2 & e2 & E2 & Hi2 & HL2 & Hs & Hd). rewrite (bind_step _ _ _ _ _ E2).
  destruct (wake_all_ok L f2 [] [e2] Hi2 HL2) as (f3 & L' & E3 & _ & _ & HL3 & _). exists f3, e2, L'. split; [exact E3|]. split; [done|]. split; [done|].
  destruct Hd as [?|[? Hc]]; [by left|right]. split; [done|]. by eapply self_conflict_lock_only.
Qed.

End Histories.

(** ** Runs *)

#[local] Existing Instance bump_pages.
#[local] Existing Instance bump_laws.

(** A tree: s, s/u, s/u/f and s/v, with the numbers 2 to 5. *)
Definition demo_tree : fuse slab_mem :=
  demo 0 [OFind FUSE_ROOT_ID (Some (lit "s")); OFind 2 (Some (lit "u")); OFind 3 (Some (lit "f")); OFind 2 (Some (lit "v"))].

Abbreviation P := (ST (fuse slab_mem)).

(** A request renames u, a second one waits to move f to v, a third is done, a
    fourth waits to rename s; then the first is done. *)
Definition deadlock_run : P unit :=
  a ← get_path_wrlock 1 2 (lit "u");
  _ ← get_path2 2 3 (Some (lit "f")) 5 (Some (lit "g")) true true;
  _ ← get_path 3 FUSE_ROOT_ID;
  _ ← free_path FUSE_ROOT_ID (Some (lit "/"));
  _ ← get_path_wrlock 4 FUSE_ROOT_ID (lit "s");
  match a with Some (inr (_, w)) => free_path_wrlock 2 w | _ => abort end.

(** waiting requests can wait for ever.  The first element of the queue may
    keep one of its two paths while it waits for the other; if another request
    then waits to write to a node on the path that is kept, its mark on the node
    also stops the first element from taking that node a second time for its
    other path.  In the run above the two requests that ran are done, both
    others are in the queue, and waking the queue up changes nothing: whatever
    else is released, neither is ever served. *)
Theorem queue_deadlock : exists f, deadlock_run demo_tree = Some (tt, f) /\
  map (fun e => (qid e, qdone e)) (lockq f) = [(2, false); (4, false)] /\
  map (fun e => (first_locked e, second_locked e)) (lockq f) = [(false, true); (false, false)] /\
  wake_up_queued f = Some (tt, f).
Proof. eexists. split; [by vm_compute|]. split; [by vm_compute|]. split; by vm_compute. Qed.

(** A request renames u; a second waits to move f to v, and when it is woken
    memory is short; before its thread runs, a third request locks v and
    another wakes the queue up again. *)
Definition leak_run : P (option lock_queue_element) :=
  a ← get_path_wrlock 1 2 (lit "u");
  _ ← get_path2 2 3 (Some (lit "f")) 5 (Some (lit "g")) true true;
  _ ← modify (set_heap [true; false]);
  _ ← match a with Some (inr (_, w)) => free_path_wrlock 2 w | _ => abort end;
  v ← get_path_wrlock 3 2 (lit "v");
  _ ← get_path 4 FUSE_ROOT_ID;
  _ ← free_path FUSE_ROOT_ID (Some (lit "/"));
  e ← wait_path 2;
  _ ← match v with Some (inr (_, w)) => free_path_wrlock 2 w | _ => abort end;
  mret e.

(** a request that fails can leave locks behind.  An element whose wait has
    ended with an error is woken up again if its thread has not run yet, and may
    then take one of its paths; the thread sees the old error, and nobody
    releases the locks.  In the run above the request to move f fails with
    ENOMEM, every other request is done and the queue is empty, but f is still
    locked for writing and u and s for reading. *)
Theorem failed_waiter_leaks : exists e f, leak_run demo_tree = Some (Some e, f) /\ err e = - ENOMEM /\ lockq f = [] /\
  map (fun kv => (nodeid kv.2, treelock kv.2)) (map_to_list (nodes f)) = [(4, TREELOCK_WRITE); (2, 1); (5, 0); (FUSE_ROOT_ID, 0); (3, 1)].
Proof. eexists _, _. split; [by vm_compute|]. split; [by vm_compute|]. split; by vm_compute. Qed.

(** The tree with a and b, a request that locks a, and one that waits for it. *)
Definition demo_ab : fuse slab_mem := demo 0 [find_a; find_b].

Definition run_on {A} (m : P A) (f : fuse slab_mem) : fuse slab_mem := default f (snd <$> m f).

Definition demo_locked : fuse slab_mem := run_on (get_path_wrlock 1 FUSE_ROOT_ID (lit "a")) demo_ab.
Definition demo_waiting : fuse slab_mem := run_on (get_path 2 2) demo_locked.

Lemma demo_no_locks : no_locks demo_ab.
Proof.
  destruct (history_ok _ _ _ _ demo_initial demo_history) as [(Hf & Ha) Hu]. split; [exact Hf|]. split; [exact Ha|]. split; [|split; [by vm_compute|exact Hu]].
  assert (map_Forall (fun _ n => Forall (fun c => c <> 0) (default [] (name n))) (nodes demo_ab)) as Hn by (apply (bool_decide_unpack _); by vm_compute).
  intros p i nm (n & _ & _ & Hp & _ & _ & _ & E)%key_in_inv. specialize (Hn p n Hp). cbn in Hn. by rewrite E in Hn.
Qed.

(** The way up from the root, and from a node in the root. *)
Lemma segment_root (N : gmap Z node) p n l e : N !! p = Some n -> nodeid n = FUSE_ROOT_ID -> segment N p l e -> l = [].
Proof. intros Hn Hr Hs. inversion Hs; [done|congruence]. Qed.

Lemma segment_child (N : gmap Z node) p n d l e : N !! p = Some n -> parent n = Some d -> is_root N d -> segment N p l e -> l = [] \/ l = [p].
Proof.
  intros Hn Hd (dn & Hdn & Hdr) Hs. inversion Hs; subst; [by left|right]. simplify_eq. f_equal. by eapply segment_root.
Qed.

Lemma demo_request_a : request_ok demo_ab 4240 FUSE_ROOT_ID (Some (lit "a")) true.
Proof.
  assert (exists dn, nodes demo_ab !! 4240 = Some dn /\ nodeid dn = FUSE_ROOT_ID /\ nlookup dn <> 0) as Hroot.
  { eexists. split; [vm_compute; reflexivity|]. split; [reflexivity|discriminate]. }
  split; [exact Hroot|split; [repeat constructor; discriminate|vm_compute; discriminate]| |].
  - destruct Hroot as (dn & Hdn & Hr & _). intros l e Hs. rewrite (segment_root _ _ _ _ _ Hdn Hr Hs). vm_compute. discriminate.
  - intros _. exists (lit "a"). split; [reflexivity|]. intros w n Hw _. revert w n Hw.
    apply (bool_decide_unpack (map_Forall (fun _ n => nlookup n <> 0) _)). by vm_compute.
Qed.

Lemma demo_request_path : request_ok demo_locked 4392 2 None false.
Proof.
  assert (exists n, nodes demo_locked !! 4392 = Some n /\ nodeid n = 2 /\ nlookup n <> 0 /\ parent n = Some 4240) as (n & Hn & Hi & Hl & Hp).
  { eexists. split; [vm_compute; reflexivity|]. split; [reflexivity|]. split; [discriminate|reflexivity]. }
  split; [exact (ex_intro _ n (conj Hn (conj Hi Hl)))|exact I| |intros Hw; discriminate Hw]. intros l e Hs. assert (is_root (nodes demo_locked) 4240) as Hr by (eexists; split; [vm_compute; reflexivity|reflexivity]).
  destruct (segment_child _ _ _ _ _ _ Hn Hp Hr Hs) as [->| ->]; vm_compute; discriminate.
Qed.

Lemma path_request_witness : no_locks demo_ab /\ request_ok demo_ab 4240 FUSE_ROOT_ID (Some (lit "a")) true /\ room demo_ab [] /\
  exists r f', get_path_common 1 FUSE_ROOT_ID (Some (lit "a")) true demo_ab = Some (r, f').
Proof.
  split; [exact demo_no_locks|]. split; [exact demo_request_a|]. assert (room demo_ab []) as Hrm by by vm_compute. split; [exact Hrm|].
  destruct (path_request _ _ _ _ 1 _ _ _ _ demo_no_locks (lh_start _) demo_request_a) as (r & f' & E & _); [apply not_elem_of_nil|exact Hrm|]. exists r, f'. exact E.
Defined.

Lemma demo_hold : lock_history demo_ab demo_locked [Hold 4240 [] (Some 4392)] [].
Proof.
  assert (full_path (nodes demo_ab) 4240 []) as Hp.
  { exists 4240. split; [apply seg_nil; eexists; vm_compute; reflexivity|eexists; split; [vm_compute; reflexivity|reflexivity]]. }
  assert (room demo_ab []) as Hrm by by vm_compute. assert (1 ∉ (qid <$> lockq demo_ab)) as Hq by apply not_elem_of_nil.
  refine (lh_step demo_ab _ _ _ _ _ _ (lh_start _) (ls_get demo_ab [] [] 1 4240 FUSE_ROOT_ID (Some (lit "a")) true (Some (inr (_, Some 4392))) demo_locked [] demo_request_a Hq Hrm _ (or_introl Hp))).
  vm_compute. reflexivity.
Qed.

Lemma path_locks_exclude_witness : no_locks demo_ab /\ lock_history demo_ab demo_locked [Hold 4240 [] (Some 4392)] [] /\
  exists f', free_path_wrlock FUSE_ROOT_ID (Some 4392) demo_locked = Some (tt, f').
Proof.
  split; [exact demo_no_locks|]. split; [exact demo_hold|].
  apply (proj1 (proj2 (path_locks_exclude _ _ _ _ demo_no_locks demo_hold)) 4240 [] (Some 4392) FUSE_ROOT_ID []); [reflexivity|].
  eexists. split; [vm_compute; reflexivity|reflexivity].
Defined.

Lemma release_serves_head_witness : lock_history demo_ab demo_waiting [Hold 4240 [] (Some 4392)] [] /\
  exists f' e' L', free_path_wrlock FUSE_ROOT_ID (Some 4392) demo_waiting = Some (tt, f') /\ lockq f' = e' :: L'.
Proof.
  assert (lock_history demo_ab demo_waiting [Hold 4240 [] (Some 4392)] []) as Hh.
  { assert (lockq demo_locked = []) as HL by (vm_compute; reflexivity).
    assert (2 ∉ (qid <$> lockq demo_locked)) as Hq by (rewrite HL; apply not_elem_of_nil).
    assert (room demo_locked ([Hold 4240 [] (Some 4392)] ++ [])) as Hrm by (unfold room; rewrite HL; reflexivity).
    assert (get_path_common 2 2 None false demo_locked = Some (None, demo_waiting)) as E by (vm_compute; reflexivity).
    assert (forall s w, (None : option (Z + bytes * option Z)) <> Some (inr (s, w))) as Hno by (intros s w Hw; discriminate Hw).
    exact (lh_step demo_ab _ _ _ _ _ _ demo_hold (ls_get demo_locked [Hold 4240 [] (Some 4392)] [] 2 4392 2 None false None demo_waiting [] demo_request_path Hq Hrm E (or_intror Hno))). }
  split; [exact Hh|]. destruct (release_serves_head demo_ab demo_waiting 4240 [] (Some 4392) FUSE_ROOT_ID
    (Queued 2 2 None true false None None 0 None false false None None 0 false false false) [] demo_no_locks Hh) as (f' & e' & L' & E & HL & _).
  - eexists. split; [vm_compute; reflexivity|reflexivity].
  - vm_compute. reflexivity.
  - reflexivity.
  - apply Forall_forall, (bool_decide_unpack (Forall (fun e' => first_locked e' = false /\ second_locked e' = false) _)). vm_compute. exact I.
  - exists f', e', L'. split; [exact E|exact HL].
Defined.

(** Another request gets the path of b while a is locked, and then a is removed. *)
Definition demo_both : fuse slab_mem := run_on (get_path 5 3) demo_locked.
Definition remove_a : op := ORemove FUSE_ROOT_ID (lit "a").
Definition demo_removed : fuse slab_mem := run_on (run_op remove_a) demo_both.
Definition demo_holds : list hold := [Hold 4544 [4544] None; Hold 4240 [] (Some 4392)].

Lemma demo_request_b : request_ok demo_locked 4544 3 None false.
Proof.
  assert (exists n, nodes demo_locked !! 4544 = Some n /\ nodeid n = 3 /\ nlookup n <> 0 /\ parent n = Some 4240) as (n & Hn & Hi & Hl & Hp).
  { eexists. split; [vm_compute; reflexivity|]. split; [reflexivity|]. split; [discriminate|reflexivity]. }
  split; [exact (ex_intro _ n (conj Hn (conj Hi Hl)))|exact I| |intros Hw; discriminate Hw]. intros l e Hs.
  assert (is_root (nodes demo_locked) 4240) as Hr by (eexists; split; [vm_compute; reflexivity|reflexivity]).
  destruct (segment_child _ _ _ _ _ _ Hn Hp Hr Hs) as [->| ->]; vm_compute; discriminate.
Qed.

Lemma demo_both_hold : lock_history demo_ab demo_both demo_holds [].
Proof.
  assert (full_path (nodes demo_locked) 4544 [4544]) as Hp.
  { exists 4240. split; [|eexists; split; [vm_compute; reflexivity|reflexivity]].
    eapply seg_cons; [vm_compute; reflexivity|discriminate|reflexivity|reflexivity|]. apply seg_nil. eexists. vm_compute. reflexivity. }
  assert (lockq demo_locked = []) as HL by (vm_compute; reflexivity).
  assert (5 ∉ (qid <$> lockq demo_locked)) as Hq by (rewrite HL; apply not_elem_of_nil).
  assert (room demo_locked ([Hold 4240 [] (Some 4392)] ++ [])) as Hrm by (unfold room; rewrite HL; reflexivity).
  refine (lh_step demo_ab _ _ _ _ _ _ demo_hold (ls_get demo_locked [Hold 4240 [] (Some 4392)] [] 5 4544 3 None false (Some (inr (_, None))) demo_both [4544] demo_request_b Hq Hrm _ (or_introl Hp))).
  vm_compute. reflexivity.
Qed.

(** The entry at a place, in a tree that is known. *)
Lemma at_place_paths (A : tree) d nm (P : Z -> entry -> Prop) : map_Forall (fun i e => place e = Some (d, nm) -> P i e) A -> at_place A d nm P.
Proof. intros HA i e He. exact (HA i e He). Qed.

Lemma demo_remove_allowed : allowed (remembers demo_both) (abs demo_both) remove_a.
Proof.
  split; [eexists; split; [vm_compute; reflexivity|discriminate]|]. apply at_place_paths.
  apply (bool_decide_unpack (map_Forall (fun _ e => place e = Some (FUSE_ROOT_ID, lit "a") -> (if remembers demo_both then 1 else 0) < count e) _)). by vm_compute.
Qed.

Lemma demo_remove_guarded : guarded demo_both demo_holds remove_a.
Proof.
  intros i e k He Hp Hk%list_elem_of_singleton. subst k.
  assert (map_Forall (fun i e => place e = Some (FUSE_ROOT_ID, lit "a") -> i = 2) (abs demo_both)) as Ha by (apply (bool_decide_unpack _); by vm_compute).
  pose proof (Ha i e He Hp) as Hi. subst i. exists (Hold 4240 [] (Some 4392)), 4392. split; [right; left|]. split; [reflexivity|].
  eexists. split; [vm_compute; reflexivity|reflexivity].
Qed.

Lemma demo_remove_names : op_names remove_a.
Proof. intros k Hk%list_elem_of_singleton. subst k. repeat constructor; discriminate. Qed.

Lemma empty_queue_fits (f : fuse slab_mem) : lockq f = [] -> queue_fits f.
Proof. intros HL e p He. rewrite HL in He. by apply not_elem_of_nil in He. Qed.

Lemma demo_removed_fits : queue_fits demo_removed.
Proof. apply empty_queue_fits. vm_compute. reflexivity. Qed.

Lemma concurrent_refines_witness : allowed (remembers demo_both) (abs demo_both) remove_a /\ guarded demo_both demo_holds remove_a /\
  exists r f', run_op remove_a demo_both = Some (r, f') /\ spec (remembers demo_both) (abs demo_both) remove_a r (abs f').
Proof.
  split; [exact demo_remove_allowed|]. split; [exact demo_remove_guarded|].
  destruct (concurrent_refines _ _ _ _ _ demo_no_locks demo_both_hold demo_remove_allowed demo_remove_guarded demo_remove_names) as (r & f' & E & Hs & _).
  exists r, f'. split; [exact E|exact Hs].
Defined.

Lemma held_path_stable_witness : path_string (nodes demo_both) [4544] [] = lit "/b" /\ path_string (nodes demo_removed) [4544] [] = lit "/b" /\
  find_name FUSE_ROOT_ID (lit "a") demo_removed = Some (None, demo_removed).
Proof.
  assert (path_string (nodes demo_both) [4544] [] = lit "/b") as Eb by (vm_compute; reflexivity). split; [exact Eb|]. split; [|vm_compute; reflexivity].
  assert (Hold 4544 [4544] None ∈ demo_holds) as Hin by left.
  assert (run_op remove_a demo_both = Some (RDone, demo_removed)) as E by (vm_compute; reflexivity).
  pose proof (ls_tree demo_both demo_holds [] remove_a RDone demo_removed demo_remove_allowed demo_remove_guarded demo_remove_names E demo_removed_fits) as Hstep.
  assert (step_with (Hold 4544 [4544] None) (demo_both, demo_holds, []) (demo_removed, demo_holds, [])) as Hsw.
  { unfold step_with. cbn [fst snd]. split; [exact Hstep|]. split; exact Hin. }
  pose proof (rtc_once _ _ Hsw) as Hr.
  destruct (held_path_stable _ _ _ _ _ _ _ _ demo_no_locks demo_both_hold Hin Hr) as [_ Hs]. cbn [h_path] in Hs. rewrite Hs. exact Eb.
Defined.
