(* ===== verification/FuseOpt.v ===== *)
(** * Option parsing: libfuse/lib/fuse_opt.c

    The argument vector, the comma-separated option string with its escapes,
    template matching and the parser loop.  [heap] is the outcome of the
    allocations still to come ([false] is a failed [malloc]; an exhausted list
    succeeds), [D] the structure the options write into, [proc] the callback of
    the caller. *)

From S2P Require Import Prelude.

(** ** Allocation *)

Abbreviation heap := (list bool).

Definition malloc : ST heap bool := fun h =>
  match h with
  | [] => Some (true, [])
  | r :: h => Some (r, h)
  end.

Definition alloc_failed : Z := -1.

(** ** Argument vectors *)

Record fuse_args := FuseArgs {
  argc : nat;
  argv : option (list bytes);
  allocated : bool }.

Definition FUSE_ARGS_INIT (n : nat) (v : option (list bytes)) : fuse_args :=
  FuseArgs n v false.

Definition fuse_opt_free_args (args : fuse_args) : fuse_args := FuseArgs 0 None false.

Definition args_list (args : fuse_args) : list bytes := default [] (argv args).

Definition fuse_opt_add_arg (args : fuse_args) (arg : bytes) : ST heap (Z * fuse_args) :=
  _ ← check (negb (bool_decide (is_Some (argv args))) || allocated args);
  ok ← malloc;
  if negb ok then mret (alloc_failed, args) else
  ok ← malloc;
  if negb ok then mret (alloc_failed, args) else
  mret (0, FuseArgs (S (argc args)) (Some (take (argc args) (args_list args) ++ [arg])) true).

Definition fuse_opt_insert_arg_common (args : fuse_args) (pos : nat) (arg : bytes)
    : ST heap (Z * fuse_args) :=
  _ ← check (bool_decide (pos <= argc args)%nat);
  r ← fuse_opt_add_arg args arg;
  if r.1 =? -1 then mret (-1, r.2) else
  let args := r.2 in
  if bool_decide (pos = (argc args - 1)%nat) then mret (0, args) else
  let v := args_list args in
  let newarg := default [] (v !! (argc args - 1)%nat) in
  let moved := take (argc args - pos - 1) (drop pos v) in
  mret (0, FuseArgs (argc args) (Some (take pos v ++ [newarg] ++ moved)) (allocated args)).

Definition fuse_opt_insert_arg := fuse_opt_insert_arg_common.

(** ** The option string *)

Definition chr_comma : Z := 44.
Definition chr_backslash : Z := 92.
Definition chr_0 : Z := 48.
Definition chr_3 : Z := 51.
Definition chr_7 : Z := 55.

(** The copying loop of [add_opt_common]. *)
Fixpoint esc_copy (esc : bool) (opt : bytes) : bytes :=
  match opt with
  | [] => []
  | c :: opt =>
      (if esc && ((c =? chr_comma) || (c =? chr_backslash)) then [chr_backslash] else [])
        ++ c :: esc_copy esc opt
  end.

Definition add_opt_common (opts : option bytes) (opt : bytes) (esc : bool)
    : ST heap (Z * option bytes) :=
  let old := default [] opts in
  ok ← malloc;
  if negb ok then mret (alloc_failed, opts) else
  mret (0, Some (old ++ (if bool_decide (length old = 0%nat) then [] else [chr_comma])
                     ++ esc_copy esc opt)).

Definition fuse_opt_add_opt (opts : option bytes) (opt : bytes) := add_opt_common opts opt false.

Definition fuse_opt_add_opt_escaped (opts : option bytes) (opt : bytes) :=
  add_opt_common opts opt true.

(** ** Templates *)

Record fuse_opt := FuseOpt {
  templ : bytes;
  offset : Z;
  value : Z }.

Definition NO_OFFSET : Z := 4294967295.

Definition FUSE_OPT_KEY (t : bytes) (key : Z) : fuse_opt := FuseOpt t NO_OFFSET key.

Definition FUSE_OPT_KEY_OPT : Z := -1.
Definition FUSE_OPT_KEY_NONOPT : Z := -2.
Definition FUSE_OPT_KEY_KEEP : Z := -3.
Definition FUSE_OPT_KEY_DISCARD : Z := -4.

Definition chr_eq : Z := 61.
Definition chr_space : Z := 32.
Definition chr_percent : Z := 37.
Definition chr_dash : Z := 45.
Definition chr_o : Z := 111.
Definition chr_s : Z := 115.

(** [Some sep] is a match that stores [sep] through [sepp]. *)
Definition match_template (t arg : bytes) : option nat :=
  let sep := match strchr t chr_eq with Some i => Some i | None => strchr t chr_space end in
  let exact := if streq t arg then Some 0%nat else None in
  match sep with
  | Some i =>
      if (char_at t (S i) =? 0) || (char_at t (S i) =? chr_percent) then
        let tlen := if char_at t i =? chr_eq then S i else i in
        if bool_decide (tlen <= length arg)%nat && strneq arg t tlen then Some i else exact
      else exact
  | None => exact
  end.

(** The first matching entry at or after the position the list starts at, with
    its separator and the entries behind it. *)
Fixpoint find_opt (opt : list fuse_opt) (arg : bytes) : option (fuse_opt * nat * list fuse_opt) :=
  match opt with
  | [] => None
  | o :: rest =>
      match match_template (templ o) arg with
      | Some sep => Some (o, sep, rest)
      | None => find_opt rest arg
      end
  end.

Definition fuse_opt_match (opts : list fuse_opt) (opt : bytes) : Z :=
  match find_opt opts opt with Some _ => 1 | None => 0 end.

(** ** The parser *)

(** How an option writes its variable: [store_int] is [*(int * )var = v],
    [store_str] replaces a string, [scan] is [sscanf(param, format, var)],
    [None] when it does not return 1. *)
Class OptData (D : Type) := {
  store_int : Z -> Z -> D -> D;
  store_str : Z -> bytes -> D -> D;
  scan : bytes -> bytes -> Z -> D -> option D }.

Record fuse_opt_context (D : Type) := Ctx {
  data : D;
  argctr : nat;
  outargs : fuse_args;
  opts : option bytes;
  nonopt : nat;
  mem : heap }.
Arguments Ctx {D}.
Arguments data {D}.
Arguments argctr {D}.
Arguments outargs {D}.
Arguments opts {D}.
Arguments nonopt {D}.
Arguments mem {D}.

Section Parser.
Context {D : Type} `{OptData D}.
(** The constant members of [struct fuse_opt_context]. *)
Context (opt_table : list fuse_opt).
Context (proc : option (bytes -> Z -> ST (D * fuse_args * heap) Z)).
Context (in_argv : list bytes).

Abbreviation ctx := (fuse_opt_context D).

Definition set_data (d : D) (c : ctx) : ctx :=
  Ctx d (argctr c) (outargs c) (opts c) (nonopt c) (mem c).
Definition set_argctr (n : nat) (c : ctx) : ctx :=
  Ctx (data c) n (outargs c) (opts c) (nonopt c) (mem c).
Definition set_nonopt (n : nat) (c : ctx) : ctx :=
  Ctx (data c) (argctr c) (outargs c) (opts c) n (mem c).

Definition with_heap {A} (m : ST heap A) (put : A -> ctx -> ctx) (c : ctx)
    : option (A * ctx) :=
  match m (mem c) with
  | Some (a, h) => Some (a, put a (Ctx (data c) (argctr c) (outargs c) (opts c) (nonopt c) h))
  | None => None
  end.

Definition put_outargs (r : Z * fuse_args) (c : ctx) : ctx :=
  Ctx (data c) (argctr c) r.2 (opts c) (nonopt c) (mem c).
Definition put_opts (r : Z * option bytes) (c : ctx) : ctx :=
  Ctx (data c) (argctr c) (outargs c) r.2 (nonopt c) (mem c).

Definition next_arg : ST ctx Z := fun c =>
  if bool_decide (length in_argv <= argctr c + 1)%nat then Some (-1, c)
  else Some (0, set_argctr (S (argctr c)) c).

Definition add_arg (arg : bytes) : ST ctx Z :=
  r ← (fun c => with_heap (fuse_opt_add_arg (outargs c) arg) put_outargs c);
  mret r.1.

Definition add_opt (opt : bytes) : ST ctx Z :=
  r ← (fun c => with_heap (add_opt_common (opts c) opt true) put_opts c);
  mret r.1.

Definition run_proc (p : bytes -> Z -> ST (D * fuse_args * heap) Z) (arg : bytes) (key : Z)
    : ST ctx Z := fun c =>
  match p arg key (data c, outargs c, mem c) with
  | Some (res, (d, a, h)) => Some (res, Ctx d (argctr c) a (opts c) (nonopt c) h)
  | None => None
  end.

Definition keep (arg : bytes) (iso : bool) : ST ctx Z :=
  if iso then add_opt arg else add_arg arg.

Definition call_proc (arg : bytes) (key : Z) (iso : bool) : ST ctx Z :=
  if key =? FUSE_OPT_KEY_DISCARD then mret 0 else
  match proc with
  | Some p =>
      if key =? FUSE_OPT_KEY_KEEP then keep arg iso else
      res ← run_proc p arg key;
      if (res =? -1) || (res =? 0) then mret res else keep arg iso
  | None => keep arg iso
  end.

Definition process_opt_param (off : Z) (format param arg : bytes) : ST ctx Z :=
  _ ← check (char_at format 0 =? chr_percent);
  if char_at format 1 =? chr_s then
    ok ← (fun c => with_heap malloc (fun _ c => c) c);
    if negb ok then mret alloc_failed else
    _ ← modify (fun c => set_data (store_str off param (data c)) c);
    mret 0
  else
    c ← get;
    match scan format param off (data c) with
    | Some d => _ ← put (set_data d c); mret 0
    | None => mret (-1)
    end.

Definition process_opt (opt : fuse_opt) (sep : nat) (arg : bytes) (iso : bool) : ST ctx Z :=
  if offset opt =? NO_OFFSET then
    r ← call_proc arg (value opt) iso;
    if r =? -1 then mret (-1) else mret 0
  else if bool_decide (sep <> 0%nat) && negb (char_at (templ opt) (S sep) =? 0) then
    let param := drop (if char_at (templ opt) sep =? chr_eq then S sep else sep) arg in
    r ← process_opt_param (offset opt) (drop (S sep) (templ opt)) param arg;
    if r =? -1 then mret (-1) else mret 0
  else
    _ ← modify (fun c => set_data (store_int (offset opt) (value opt) (data c)) c);
    mret 0.

Definition process_opt_sep_arg (opt : fuse_opt) (sep : nat) (arg : bytes) (iso : bool)
    : ST ctx Z :=
  r ← next_arg;
  if r =? -1 then mret (-1) else
  c ← get;
  let param := default [] (in_argv !! argctr c) in
  ok ← (fun c => with_heap malloc (fun _ c => c) c);
  if negb ok then mret alloc_failed else
  process_opt opt sep (take sep arg ++ param) iso.

(** The loop of [process_gopt] from its current match on. *)
Fixpoint gopt_loop (table : list fuse_opt) (arg : bytes) (iso : bool) : ST ctx Z :=
  match table with
  | [] => mret 0
  | opt :: rest =>
      match match_template (templ opt) arg with
      | None => gopt_loop rest arg iso
      | Some sep =>
          res ← (if bool_decide (sep <> 0%nat) && (char_at (templ opt) sep =? chr_space)
                    && (char_at arg sep =? 0)
                 then process_opt_sep_arg opt sep arg iso
                 else process_opt opt sep arg iso);
          if res =? -1 then mret (-1) else gopt_loop rest arg iso
      end
  end.

Definition process_gopt (arg : bytes) (iso : bool) : ST ctx Z :=
  match find_opt opt_table arg with
  | Some _ => gopt_loop opt_table arg iso
  | None => call_proc arg FUSE_OPT_KEY_OPT iso
  end.

Definition is_octal (s : bytes) : bool :=
  (chr_0 <=? char_at s 0) && (char_at s 0 <=? chr_3) &&
  (chr_0 <=? char_at s 1) && (char_at s 1 <=? chr_7) &&
  (chr_0 <=? char_at s 2) && (char_at s 2 <=? chr_7).

(** The copy is rewritten in place: [s] is the part not read yet and [d] what
    was written since [opts], which never passes [s].  A NUL written by an
    octal escape ends the option the callee sees. *)
Fixpoint option_group_loop (fuel : nat) (s d : bytes) : ST ctx Z :=
  match fuel with
  | O => abort
  | S fuel =>
      match s with
      | [] => res ← process_gopt (cstr d) true; if res =? -1 then mret (-1) else mret 0
      | c :: s' =>
          if c =? chr_comma then
            res ← process_gopt (cstr d) true;
            if res =? -1 then mret (-1) else option_group_loop fuel s' []
          else if (c =? chr_backslash) && negb (char_at s' 0 =? 0) then
            if is_octal s' then
              let v := (char_at s' 0 - chr_0) * 64 + (char_at s' 1 - chr_0) * 8
                       + (char_at s' 2 - chr_0) in
              option_group_loop fuel (drop 3 s') (d ++ [v])
            else option_group_loop fuel (drop 1 s') (d ++ [char_at s' 0])
          else option_group_loop fuel s' (d ++ [c])
      end
  end.

Definition process_real_option_group (opts : bytes) : ST ctx Z :=
  option_group_loop (S (length opts)) opts [].

Definition process_option_group (opts : bytes) : ST ctx Z :=
  ok ← (fun c => with_heap malloc (fun _ c => c) c);
  if negb ok then mret (-1) else process_real_option_group opts.

Definition process_one (arg : bytes) : ST ctx Z :=
  c ← get;
  if bool_decide (nonopt c <> 0%nat) || negb (char_at arg 0 =? chr_dash) then
    call_proc arg FUSE_OPT_KEY_NONOPT false
  else if char_at arg 1 =? chr_o then
    if negb (char_at arg 2 =? 0) then process_option_group (drop 2 arg)
    else
      r ← next_arg;
      if r =? -1 then mret (-1) else
      c ← get;
      process_option_group (default [] (in_argv !! argctr c))
  else if (char_at arg 1 =? chr_dash) && (char_at arg 2 =? 0) then
    r ← add_arg arg;
    if r =? -1 then mret (-1) else
    _ ← modify (fun c => set_nonopt (argc (outargs c)) c);
    mret 0
  else process_gopt arg false.

(** [for (ctx->argctr = 1; ctx->argctr < ctx->argc; ctx->argctr++)] *)
Fixpoint parse_loop (fuel : nat) : ST ctx Z :=
  match fuel with
  | O => abort
  | S fuel =>
      c ← get;
      if bool_decide (length in_argv <= argctr c)%nat then mret 0 else
      r ← process_one (default [] (in_argv !! argctr c));
      if r =? -1 then mret (-1) else
      _ ← modify (fun c => set_argctr (S (argctr c)) c);
      parse_loop fuel
  end.

Definition insert_out (pos : nat) (arg : bytes) : ST ctx Z :=
  r ← (fun c => with_heap (fuse_opt_insert_arg (outargs c) pos arg) put_outargs c);
  mret r.1.

(** If option separator (two dashes) is the last argument, remove it. *)
Definition drop_separator : ST ctx unit :=
  modify (fun c =>
    let a := outargs c in
    if bool_decide (nonopt c <> 0%nat) && bool_decide (nonopt c = argc a)
       && streq (default [] (args_list a !! (argc a - 1)%nat)) [chr_dash; chr_dash]
    then put_outargs (0, FuseArgs (argc a - 1) (Some (take (argc a - 1) (args_list a)))
                                  (allocated a)) c
    else c).

Definition opt_parse : ST ctx Z :=
  r ← (match in_argv with [] => mret 0 | a0 :: _ => add_arg a0 end);
  if r =? -1 then mret (-1) else
  _ ← modify (set_argctr 1);
  r ← parse_loop (S (length in_argv));
  if r =? -1 then mret (-1) else
  c ← get;
  r ← (match opts c with
       | None => mret 0
       | Some o =>
           r ← insert_out 1 [chr_dash; chr_o];
           if r =? -1 then mret (-1) else insert_out 2 o
       end);
  if r =? -1 then mret (-1) else
  _ ← drop_separator;
  mret 0.
End Parser.

Definition fuse_opt_parse {D} `{OptData D} (args : fuse_args) (d : D) (table : list fuse_opt)
    (proc : option (bytes -> Z -> ST (D * fuse_args * heap) Z)) (h : heap)
    : option (Z * fuse_args * D * heap) :=
  match argv args with
  | None => Some (0, args, d, h)
  | Some v =>
      if bool_decide (argc args = 0%nat) then Some (0, args, d, h) else
      match opt_parse table proc (take (argc args) v)
              (Ctx d 0 (FuseArgs 0 None false) None 0 h) with
      | Some (res, c) =>
          Some (res, if res =? -1 then args else outargs c, data c, mem c)
      | None => None
      end
  end.

(** ** Splitting an option string *)

(** The options [process_real_option_group] hands on, as a pure function. *)
Fixpoint split_loop (fuel : nat) (s d : bytes) : list bytes :=
  match fuel with
  | O => []
  | S fuel =>
      match s with
      | [] => [cstr d]
      | c :: s' =>
          if c =? chr_comma then cstr d :: split_loop fuel s' []
          else if (c =? chr_backslash) && negb (char_at s' 0 =? 0) then
            if is_octal s' then
              split_loop fuel (drop 3 s') (d ++ [(char_at s' 0 - chr_0) * 64
                + (char_at s' 1 - chr_0) * 8 + (char_at s' 2 - chr_0)])
            else split_loop fuel (drop 1 s') (d ++ [char_at s' 0])
          else split_loop fuel s' (d ++ [c])
      end
  end.

Definition split_group (s : bytes) : list bytes := split_loop (S (length s)) s [].

(** The option string built by adding the options one after the other. *)
Definition join_step (s o : bytes) : bytes :=
  s ++ (if bool_decide (length s = 0%nat) then [] else [chr_comma]) ++ esc_copy true o.

Definition join (os : list bytes) : bytes := fold_left join_step os [].

(** What remains of the options: leading empty ones vanish. *)
Fixpoint strip (os : list bytes) : list bytes :=
  match os with
  | [] => []
  | [o] => [o]
  | o :: os => if bool_decide (o = []) then strip os else o :: os
  end.

(** Adding options with [fuse_opt_add_opt_escaped], one after the other. *)
Fixpoint add_opts_escaped (acc : option bytes) (os : list bytes) : ST heap (Z * option bytes) :=
  match os with
  | [] => mret (0, acc)
  | o :: os =>
      r ← fuse_opt_add_opt_escaped acc o;
      if r.1 =? -1 then mret r else add_opts_escaped r.2 os
  end.

Section Group.
Context {D : Type} `{OptData D} (table : list fuse_opt)
  (proc : option (bytes -> Z -> ST (D * fuse_args * heap) Z)) (in_argv : list bytes).

(** Processing options in order, stopping at the first error. *)
Fixpoint run_gopts (os : list bytes) : ST (fuse_opt_context D) Z :=
  match os with
  | [] => mret 0
  | o :: os =>
      res ← process_gopt table proc in_argv o true;
      if res =? -1 then mret (-1) else run_gopts os
  end.

Lemma option_group_loop_split fuel s d c : (length s < fuel)%nat ->
  option_group_loop table proc in_argv fuel s d c = run_gopts (split_loop fuel s d) c.
Proof.
  revert s d c; induction fuel as [|fuel IH]; intros s d c Hf; [lia|].
  destruct s as [|x s]; simpl in Hf; cbn [option_group_loop split_loop].
  - done.
  - destruct (x =? chr_comma).
    + cbn [run_gopts]; unfold mbind, ST_bind.
      destruct (process_gopt _ _ _ _ _ _) as [[r c']|]; [|done].
      destruct (r =? -1); [done|]. apply IH; lia.
    + destruct (_ && _); [destruct (is_octal s)|];
        apply IH; rewrite ?length_drop; lia.
Qed.

Lemma process_real_option_group_split s c :
  process_real_option_group table proc in_argv s c = run_gopts (split_group s) c.
Proof. apply option_group_loop_split; lia. Qed.
End Group.

Lemma split_loop_fuel f1 f2 s d : (length s < f1)%nat -> (length s < f2)%nat ->
  split_loop f1 s d = split_loop f2 s d.
Proof.
  revert f2 s d; induction f1 as [|f1 IH]; intros f2 s d H1 H2; [lia|].
  destruct f2 as [|f2]; [lia|]. destruct s as [|x s]; simpl in *; [done|].
  destruct (x =? chr_comma); [f_equal; apply IH; lia|].
  destruct (_ && _); [destruct (is_octal s)|]; apply IH; rewrite ?length_drop; lia.
Qed.

Lemma length_esc_copy o : (length o <= length (esc_copy true o))%nat.
Proof. induction o as [|c o IH]; simpl; [done|]. rewrite length_app; simpl; lia. Qed.

Lemma split_loop_escaped fuel c r d : c = chr_comma \/ c = chr_backslash ->
  split_loop (S fuel) (chr_backslash :: c :: r) d = split_loop fuel r (d ++ [c]).
Proof. by intros [-> | ->]. Qed.

Lemma split_loop_plain fuel c r d : c <> chr_comma -> c <> chr_backslash ->
  split_loop (S fuel) (c :: r) d = split_loop fuel r (d ++ [c]).
Proof. intros Hc Hb; cbn [split_loop]. by rewrite (proj2 (Z.eqb_neq _ _) Hc), (proj2 (Z.eqb_neq _ _) Hb). Qed.

Lemma esc_copy_cons c o : esc_copy true (c :: o) =
  if (c =? chr_comma) || (c =? chr_backslash) then chr_backslash :: c :: esc_copy true o
  else c :: esc_copy true o.
Proof. simpl. by destruct (_ || _). Qed.

(** Reading back an escaped option appends it to the buffer. *)
Lemma split_loop_esc o rest d fuel : (length (esc_copy true o ++ rest) < fuel)%nat ->
  split_loop fuel (esc_copy true o ++ rest) d = split_loop fuel rest (d ++ o).
Proof.
  revert d fuel; induction o as [|c o IH]; intros d fuel Hf; [by rewrite app_nil_r|].
  destruct fuel as [|fuel]; [lia|].
  replace (d ++ c :: o) with ((d ++ [c]) ++ o) by (by rewrite <- app_assoc).
  rewrite esc_copy_cons in *.
  destruct (Z.eqb_spec c chr_comma) as [->|Hc]; [|destruct (Z.eqb_spec c chr_backslash) as [->|Hb]];
    cbn [orb app length] in *; rewrite length_app in Hf.
  1,2: rewrite split_loop_escaped by auto.
  3: rewrite split_loop_plain by done.
  all: rewrite IH by (rewrite length_app; lia); apply split_loop_fuel; lia.
Qed.

Lemma length_join_step s o : (length s <= length (join_step s o))%nat.
Proof. unfold join_step; rewrite !length_app; lia. Qed.

Lemma join_step_nil s o : join_step s o = [] -> s = [] /\ o = [].
Proof.
  intros E; assert (length (join_step s o) = 0%nat) as L by (by rewrite E).
  unfold join_step in L; rewrite !length_app in L.
  pose proof (length_esc_copy o). split; apply nil_length_inv; lia.
Qed.

(** The pieces behind a non-empty option string. *)
Lemma fold_join s os : s <> [] ->
  fold_left join_step os s = s ++ concat (map (fun o => chr_comma :: esc_copy true o) os).
Proof.
  revert s; induction os as [|o os IH]; intros s Hs; simpl; [by rewrite app_nil_r|].
  assert (join_step s o = s ++ chr_comma :: esc_copy true o) as E.
  { unfold join_step; rewrite bool_decide_false; [done|]. by destruct s. }
  rewrite IH; [rewrite E, <- app_assoc; done|]. rewrite E; by destruct s.
Qed.

Lemma split_loop_pieces os fuel d :
  (length (concat (map (fun o => chr_comma :: esc_copy true o) os)) < fuel)%nat ->
  Forall nonul os -> nonul d ->
  split_loop fuel (concat (map (fun o => chr_comma :: esc_copy true o) os)) d = d :: os.
Proof.
  revert fuel d; induction os as [|o os IH]; intros fuel d Hf Hos Hd.
  - destruct fuel; simpl in *; [lia|]. by rewrite cstr_id.
  - apply Forall_cons in Hos as [Ho Hos].
    destruct fuel as [|fuel]; [simpl in Hf; lia|].
    cbn [map concat app split_loop] in *; cbn [Z.eqb]. rewrite Z.eqb_refl, cstr_id by done.
    f_equal. simpl in Hf. rewrite length_app in Hf.
    rewrite split_loop_esc by (rewrite length_app; lia).
    rewrite (IH fuel); [done|lia|done|done].
Qed.

Lemma split_join_cons o os : o <> [] -> nonul o -> Forall nonul os ->
  split_group (join (o :: os)) = o :: os.
Proof.
  intros Hne Ho Hos. unfold join; cbn [fold_left].
  assert (join_step [] o = esc_copy true o) as -> by done.
  assert (esc_copy true o <> []) as Hn.
  { intros E; apply Hne; apply nil_length_inv. pose proof (length_esc_copy o).
    rewrite E in *; simpl in *; lia. }
  rewrite fold_join by done. unfold split_group.
  rewrite split_loop_esc by lia. apply split_loop_pieces; [|done|done].
  rewrite length_app; lia.
Qed.

Lemma join_strip os : join (strip os) = join os.
Proof.
  induction os as [|o os IH]; simpl; [done|]. destruct os as [|o' os]; [done|].
  case_bool_decide as E; [subst|done]. rewrite IH; done.
Qed.

Lemma split_join os : os <> [] -> Forall nonul os -> split_group (join os) = strip os.
Proof.
  induction os as [|o os IH]; intros Hne Hos; [done|].
  apply Forall_cons in Hos as [Ho Hos].
  destruct os as [|o' os].
  - destruct o as [|c o]; [done|]. by apply split_join_cons.
  - cbn [strip]. case_bool_decide as E; [subst; apply IH; done|]. by apply split_join_cons.
Qed.

Lemma add_opts_escaped_join os acc : add_opts_escaped acc os [] =
  Some ((0, match os with [] => acc | _ => Some (fold_left join_step os (default [] acc)) end), []).
Proof.
  revert acc; induction os as [|o os IH]; intros acc; [done|].
  transitivity (add_opts_escaped (Some (join_step (default [] acc) o)) os []); [done|].
  rewrite IH. by destruct os.
Qed.

(** ** Normal form of an argument vector

    What the parser does with an empty table and no callback: options behind
    [-o] are collected into one escaped string that moves to the front, every
    other argument is kept in place.  The result is the options, the arguments
    before the separator and, if there is one, those behind it. *)

Fixpoint canon (rest : list bytes) : option (list bytes * list bytes * option (list bytes)) :=
  match rest with
  | [] => Some ([], [], None)
  | a :: r =>
      if negb (char_at a 0 =? chr_dash) then
        '(os, pre, sep) ← canon r; Some (os, a :: pre, sep)
      else if char_at a 1 =? chr_o then
        if negb (char_at a 2 =? 0) then
          '(os, pre, sep) ← canon r; Some (split_group (drop 2 a) ++ os, pre, sep)
        else
          match r with
          | [] => None
          | o :: r => '(os, pre, sep) ← canon r; Some (split_group o ++ os, pre, sep)
          end
      else if (char_at a 1 =? chr_dash) && (char_at a 2 =? 0) then Some ([], [], Some r)
      else '(os, pre, sep) ← canon r; Some (os, a :: pre, sep)
  end.

(** The vector the parser produces from the parts. *)
Definition render (a0 : bytes) (parts : list bytes * list bytes * option (list bytes))
    : list bytes :=
  let '(os, pre, sep) := parts in
  a0 :: (match os with [] => [] | _ => [[chr_dash; chr_o]; join os] end) ++ pre ++
    match sep with
    | None => []
    | Some post =>
        match os, post with
        | [], [] => []
        | _, _ => [chr_dash; chr_dash] :: post
        end
    end.

Definition opts_after (O : option bytes) (os : list bytes) : option bytes :=
  match os with [] => O | _ => Some (fold_left join_step os (default [] O)) end.

Definition sep_args (sep : option (list bytes)) : list bytes :=
  match sep with None => [] | Some post => [chr_dash; chr_dash] :: post end.

Section Plain.
Context {D : Type} `{OptData D} (in_argv : list bytes).

(** A parser state in which no allocation fails any more. *)
Definition plain (d : D) (k : nat) (L : list bytes) (O : option bytes) (n : nat)
    : fuse_opt_context D :=
  Ctx d k (FuseArgs (length L) (Some L) true) O n [].

Lemma add_arg_plain d k L O n a :
  add_arg a (plain d k L O n) = Some (0, plain d k (L ++ [a]) O n).
Proof.
  unfold add_arg, plain, mbind, ST_bind, with_heap; simpl.
  rewrite firstn_all. unfold put_outargs; simpl.
  rewrite length_app; simpl. by rewrite Nat.add_comm.
Qed.

Lemma run_gopts_plain d k L O n os :
  run_gopts [] None in_argv os (plain d k L O n) = Some (0, plain d k L (opts_after O os) n).
Proof.
  revert O; induction os as [|o os IH]; intros O; [done|].
  transitivity (run_gopts (D:=D) [] None in_argv os
                  (plain d k L (Some (join_step (default [] O) o)) n)); [done|].
  rewrite IH. by destruct os.
Qed.

Lemma process_option_group_plain d k L O n s :
  process_option_group [] None in_argv s (plain d k L O n)
  = Some (0, plain d k L (opts_after O (split_group s)) n).
Proof.
  unfold process_option_group, mbind, ST_bind; simpl.
  change (Ctx d k _ O n []) with (plain d k L O n).
  rewrite process_real_option_group_split. apply run_gopts_plain.
Qed.

(** One step of the argument loop. *)
Lemma parse_loop_step fuel c a : in_argv !! argctr c = Some a ->
  parse_loop [] None in_argv (S fuel) c =
    match process_one [] None in_argv a c with
    | None => None
    | Some (r, c') =>
        if r =? -1 then Some (-1, c')
        else parse_loop (D:=D) [] None in_argv fuel (set_argctr (S (argctr c')) c')
    end.
Proof.
  intros Ha. cbn [parse_loop]. unfold mbind at 1, ST_bind at 1; simpl.
  rewrite Ha, bool_decide_false by (apply lookup_lt_Some in Ha; lia).
  unfold mbind, ST_bind; simpl. destruct (process_one _ _ _ _ _) as [[r c']|]; [|done].
  by destruct (r =? -1).
Qed.

Lemma parse_loop_done fuel c : (length in_argv <= argctr c)%nat ->
  parse_loop (D:=D) [] None in_argv (S fuel) c = Some (0, c).
Proof. intros Hk. cbn [parse_loop]. unfold mbind, ST_bind; simpl. by rewrite bool_decide_true. Qed.

(** Behind the separator every argument is kept. *)
Lemma parse_loop_nonopt fuel d k L O n : (length in_argv - k < fuel)%nat ->
  (k <= length in_argv)%nat -> n <> 0%nat ->
  parse_loop [] None in_argv fuel (plain d k L O n)
  = Some (0, plain d (length in_argv) (L ++ drop k in_argv) O n).
Proof.
  revert k L; induction fuel as [|fuel IH]; intros k L Hf Hk Hn; [lia|].
  destruct (drop k in_argv) as [|a r] eqn:E.
  - assert (k = length in_argv) as ->.
    { apply (f_equal length) in E; rewrite length_drop in E; simpl in E; lia. }
    rewrite parse_loop_done by done. by rewrite app_nil_r.
  - assert (in_argv !! k = Some a) as Ha
      by (rewrite <- (Nat.add_0_r k), <- lookup_drop, E; done).
    assert (drop (S k) in_argv = r) as Hr by (by rewrite <- Nat.add_1_r, <- drop_drop, E).
    rewrite (parse_loop_step _ (plain d k L O n) a Ha).
    assert (process_one [] None in_argv a (plain d k L O n)
            = Some (0, plain d k (L ++ [a]) O n)) as ->.
    { unfold process_one, mbind, ST_bind; simpl. rewrite bool_decide_true by done.
      apply add_arg_plain. }
    simpl. change (set_argctr _ _) with (plain d (S k) (L ++ [a]) O n).
    apply lookup_lt_Some in Ha. rewrite IH by lia.
    by rewrite Hr, <- app_assoc.
Qed.

Lemma process_one_keep d k L O a :
  (char_at a 0 <> chr_dash \/
   char_at a 1 <> chr_o /\ (char_at a 1 <> chr_dash \/ char_at a 2 <> 0)) ->
  process_one [] None in_argv a (plain d k L O 0) = Some (0, plain d k (L ++ [a]) O 0).
Proof.
  intros Ha. rewrite <- add_arg_plain. unfold process_one, mbind, ST_bind; simpl.
  destruct (Z.eqb_spec (char_at a 0) chr_dash); simpl; [|done].
  destruct (Z.eqb_spec (char_at a 1) chr_o); [by destruct Ha as [?|[? _]]|].
  destruct (Z.eqb_spec (char_at a 1) chr_dash); simpl; [|done].
  destruct (Z.eqb_spec (char_at a 2) 0); [by destruct Ha as [?|[_ [?|?]]]|done].
Qed.

Lemma process_one_o d k L O a : char_at a 0 = chr_dash -> char_at a 1 = chr_o ->
  char_at a 2 <> 0 ->
  process_one [] None in_argv a (plain d k L O 0)
  = Some (0, plain d k L (opts_after O (split_group (drop 2 a))) 0).
Proof.
  intros H0 H1 H2. rewrite <- process_option_group_plain.
  unfold process_one, mbind at 1, ST_bind at 1; simpl. rewrite H0, H1; simpl.
  by destruct (Z.eqb_spec (char_at a 2) 0).
Qed.

Lemma process_one_o_next d k L O a : char_at a 0 = chr_dash -> char_at a 1 = chr_o ->
  char_at a 2 = 0 ->
  process_one [] None in_argv a (plain d k L O 0) =
    match in_argv !! S k with
    | None => Some (-1, plain d k L O 0)
    | Some o => Some (0, plain d (S k) L (opts_after O (split_group o)) 0)
    end.
Proof.
  intros H0 H1 H2. unfold process_one, mbind at 1, ST_bind at 1; simpl. rewrite H0, H1, H2; simpl.
  unfold mbind at 1, ST_bind at 1, next_arg; simpl.
  destruct (in_argv !! S k) as [o|] eqn:E.
  - rewrite bool_decide_false by (apply lookup_lt_Some in E; lia).
    unfold mbind, ST_bind; simpl. rewrite E. simpl. apply process_option_group_plain.
  - rewrite bool_decide_true by (apply lookup_ge_None in E; lia). done.
Qed.

Lemma process_one_sep d k L O a : char_at a 0 = chr_dash -> char_at a 1 = chr_dash ->
  char_at a 2 = 0 ->
  process_one [] None in_argv a (plain d k L O 0)
  = Some (0, plain d k (L ++ [a]) O (S (length L))).
Proof.
  intros H0 H1 H2. unfold process_one, mbind at 1, ST_bind at 1; simpl. rewrite H0, H1, H2; simpl.
  unfold mbind at 1, ST_bind at 1. rewrite add_arg_plain; simpl.
  unfold mbind, ST_bind, modify; simpl. unfold set_nonopt; simpl.
  unfold plain. rewrite length_app; simpl. by rewrite (Nat.add_comm (length L)).
Qed.

Lemma dashes a : nonul a -> char_at a 0 = chr_dash -> char_at a 1 = chr_dash ->
  char_at a 2 = 0 -> a = [chr_dash; chr_dash].
Proof.
  intros Hn H0 H1 H2. destruct a as [|x [|y [|z a]]]; try done.
  - cbv in H0, H1. by subst.
  - cbv in H2. subst. inversion Hn as [|? ? ? Hn1]; subst.
    inversion Hn1 as [|? ? ? Hn2]; subst. by inversion Hn2.
Qed.

Lemma opts_after_app O os1 os2 : opts_after (opts_after O os1) os2 = opts_after O (os1 ++ os2).
Proof.
  destruct os1 as [|o1 os1]; [done|]. destruct os2 as [|o2 os2]; [by rewrite app_nil_r|].
  unfold opts_after. rewrite fold_left_app. done.
Qed.

Definition loop_result (d : D) (L : list bytes) (O : option bytes)
    (parts : option (list bytes * list bytes * option (list bytes)))
    (r : option (Z * fuse_opt_context D)) : Prop :=
  match parts with
  | None => exists c, r = Some (-1, c) /\ data c = d /\ mem c = []
  | Some (os, pre, sep) =>
      r = Some (0, plain d (length in_argv) (L ++ pre ++ sep_args sep) (opts_after O os)
                     (match sep with None => 0 | Some _ => S (length L + length pre) end)%nat)
  end.

Lemma loop_result_keep d L O a parts r :
  loop_result d (L ++ [a]) O parts r ->
  loop_result d L O ('(os, pre, sep) ← parts; Some (os, a :: pre, sep)) r.
Proof.
  destruct parts as [[[os pre] sep]|]; simpl; [|done]. intros ->.
  rewrite length_app; simpl. rewrite <- app_assoc; simpl.
  repeat f_equal; destruct sep; lia.
Qed.

Lemma loop_result_opts d L O os1 parts r :
  loop_result d L (opts_after O os1) parts r ->
  loop_result d L O ('(os, pre, sep) ← parts; Some (os1 ++ os, pre, sep)) r.
Proof.
  destruct parts as [[[os pre] sep]|]; simpl; [|done]. by rewrite opts_after_app.
Qed.

Lemma drop_cons_inv k a r : drop k in_argv = a :: r ->
  in_argv !! k = Some a /\ drop (S k) in_argv = r /\ (k < length in_argv)%nat.
Proof.
  intros E. assert (in_argv !! k = Some a) as Ha
    by (rewrite <- (Nat.add_0_r k), <- lookup_drop, E; done).
  split; [done|]. split; [by rewrite <- Nat.add_1_r, <- drop_drop, E|].
  by apply lookup_lt_Some in Ha.
Qed.

Lemma parse_loop_canon fuel d k L O : (length in_argv - k < fuel)%nat ->
  (k <= length in_argv)%nat -> Forall nonul (drop k in_argv) ->
  loop_result d L O (canon (drop k in_argv))
    (parse_loop [] None in_argv fuel (plain d k L O 0)).
Proof.
  revert k L O; induction fuel as [|fuel IH]; intros k L O Hf Hk Hn; [lia|].
  destruct (drop k in_argv) as [|a r] eqn:E.
  { assert (k = length in_argv) as ->.
    { apply (f_equal length) in E; rewrite length_drop in E; simpl in E; lia. }
    rewrite parse_loop_done by done. simpl. by rewrite app_nil_r. }
  apply drop_cons_inv in E as (Ha & Hr & Hlt). apply Forall_cons in Hn as [Hna Hnr].
  rewrite (parse_loop_step _ (plain d k L O 0) a Ha).
  pose proof (fun L O => IH (S k) L O ltac:(lia) ltac:(lia) ltac:(by rewrite Hr)) as IH1.
  rewrite Hr in IH1. cbn [canon].
  destruct (Z.eqb_spec (char_at a 0) chr_dash) as [H0|H0]; cbn [negb];
    [|rewrite process_one_keep by auto; apply loop_result_keep, IH1].
  destruct (Z.eqb_spec (char_at a 1) chr_o) as [H1|H1].
  - destruct (Z.eqb_spec (char_at a 2) 0) as [H2|H2]; cbn [negb];
      [|rewrite process_one_o by done; apply loop_result_opts, IH1].
    rewrite process_one_o_next by done. destruct r as [|o r].
    { rewrite (lookup_ge_None_2 in_argv) by
        (apply (f_equal length) in Hr; rewrite length_drop in Hr; simpl in Hr; lia).
      simpl. eauto. }
    apply drop_cons_inv in Hr as (Ho & Hr & Hlt2). apply Forall_cons in Hnr as [_ Hnr].
    rewrite Ho. apply loop_result_opts. rewrite <- Hr. apply IH; [lia|lia|by rewrite Hr].
  - destruct (Z.eqb_spec (char_at a 1) chr_dash) as [H1'|H1']; cbn [andb];
      [|rewrite process_one_keep by auto; apply loop_result_keep, IH1].
    destruct (Z.eqb_spec (char_at a 2) 0) as [H2|H2];
      [|rewrite process_one_keep by auto; apply loop_result_keep, IH1].
    rewrite process_one_sep by done. simpl.
    change (set_argctr _ _) with (plain d (S k) (L ++ [a]) O (S (length L))).
    rewrite parse_loop_nonopt by lia. rewrite Hr, (dashes a) by done.
    simpl. by rewrite <- app_assoc, Nat.add_0_r.
Qed.

Lemma fuse_opt_insert_arg_ok L pos a : (pos <= length L)%nat ->
  fuse_opt_insert_arg (FuseArgs (length L) (Some L) true) pos a []
  = Some ((0, FuseArgs (S (length L)) (Some (take pos L ++ a :: drop pos L)) true), []).
Proof.
  intros Hp. unfold fuse_opt_insert_arg, fuse_opt_insert_arg_common.
  unfold mbind at 1, ST_bind at 1; simpl. rewrite bool_decide_true by done; simpl.
  unfold args_list, mbind, ST_bind; simpl. rewrite firstn_all, Nat.sub_0_r.
  change (args_list (FuseArgs (length L) (Some L) true)) with L.
  case_bool_decide as E; simpl.
  - subst pos. by rewrite firstn_all, drop_all.
  - rewrite lookup_app_r, Nat.sub_diag by lia; simpl.
    rewrite take_app_le, drop_app_le by lia.
    rewrite take_app_length' by (rewrite length_drop; lia). done.
Qed.

Lemma insert_out_plain d k L O n pos a : (pos <= length L)%nat ->
  insert_out (D:=D) pos a (plain d k L O n)
  = Some (0, plain d k (take pos L ++ a :: drop pos L) O n).
Proof.
  intros Hp. assert (length (take pos L ++ a :: drop pos L) = S (length L)) as E.
  { rewrite length_app, length_cons, length_take, length_drop. lia. }
  unfold insert_out, plain, mbind, ST_bind, with_heap. cbn [mem outargs].
  rewrite fuse_opt_insert_arg_ok, E by done. done.
Qed.

Lemma drop_separator_last d k L O n :
  n = S (length L) ->
  drop_separator (D:=D) (plain d k (L ++ [[chr_dash; chr_dash]]) O n)
  = Some (tt, plain d k L O n).
Proof.
  intros ->. unfold drop_separator, modify, args_list; simpl.
  rewrite !length_app; simpl. rewrite (Nat.add_comm (length L)); simpl.
  rewrite !bool_decide_true by lia. rewrite Nat.sub_0_r, lookup_app_r, Nat.sub_diag by done.
  unfold streq; rewrite bool_decide_true by done. simpl.
  unfold put_outargs, plain; simpl. by rewrite take_app_length.
Qed.

Lemma drop_separator_other d k L O n :
  n = 0%nat \/ n <> length L ->
  drop_separator (D:=D) (plain d k L O n) = Some (tt, plain d k L O n).
Proof.
  intros Hn. unfold drop_separator, modify; simpl.
  destruct Hn as [-> | Hn]; [done|]. rewrite (bool_decide_false (n = _)) by done.
  by rewrite andb_false_r.
Qed.
End Plain.

(** The end of [opt_parse], behind the argument loop. *)
Definition parse_tail {D} : ST (fuse_opt_context D) Z :=
  c ← get;
  r ← (match opts c with
       | None => mret 0
       | Some o =>
           r ← insert_out 1 [chr_dash; chr_o];
           if r =? -1 then mret (-1) else insert_out 2 o
       end);
  if r =? -1 then mret (-1) else
  _ ← drop_separator;
  mret 0.

Lemma parse_tail_render {D} (d : D) k a0 os pre sep :
  exists O n, parse_tail (plain d k ([a0] ++ pre ++ sep_args sep) (opts_after None os)
      (match sep with None => 0 | Some _ => S (length [a0] + length pre) end)%nat)
  = Some (0, plain d k (render a0 (os, pre, sep)) O n).
Proof.
  unfold parse_tail. rewrite (bind_step get _ _ _ _ eq_refl).
  destruct os as [|o os]; cbn [opts plain opts_after].
  - rewrite (bind_step (mret 0) _ _ _ _ eq_refl); cbn [Z.eqb].
    destruct sep as [[|p post]|]; cbn [sep_args]; eexists _, _.
    + rewrite app_assoc. erewrite bind_step by (by apply drop_separator_last).
      unfold render. rewrite (app_nil_r pre). reflexivity.
    + erewrite bind_step by (apply drop_separator_other; right; rewrite !length_app; simpl; lia).
      reflexivity.
    + erewrite bind_step by (apply drop_separator_other; by left). reflexivity.
  - eexists _, _. erewrite bind_step.
    2: { erewrite bind_step by (apply insert_out_plain; simpl; lia). cbn [Z.eqb].
         apply insert_out_plain; simpl; lia. }
    cbn [Z.eqb]. erewrite bind_step; [reflexivity|]. apply drop_separator_other.
    destruct sep; [right|by left]. simpl; rewrite length_app; simpl; lia.
Qed.

Lemma opt_parse_unfold {D} `{OptData D} table proc a0 rest (c : fuse_opt_context D) :
  opt_parse table proc (a0 :: rest) c =
    match add_arg a0 c with
    | None => None
    | Some (r, c) =>
        if r =? -1 then Some (-1, c) else
        match parse_loop table proc (a0 :: rest) (S (length (a0 :: rest))) (set_argctr 1 c) with
        | None => None
        | Some (r, c) => if r =? -1 then Some (-1, c) else parse_tail c
        end
    end.
Proof.
  unfold opt_parse. unfold mbind at 1, ST_bind at 1.
  destruct (add_arg a0 c) as [[r c1]|]; [|done]. destruct (r =? -1); [done|].
  erewrite bind_step by reflexivity. unfold mbind at 1, ST_bind at 1.
  destruct (parse_loop _ _ _ _ _) as [[r2 c2]|]; [|done]. by destruct (r2 =? -1).
Qed.

Lemma fuse_opt_parse_canon {D} `{OptData D} a0 rest al (d : D) :
  Forall nonul rest ->
  fuse_opt_parse (FuseArgs (length (a0 :: rest)) (Some (a0 :: rest)) al) d [] None [] =
    match canon rest with
    | None => Some (-1, FuseArgs (length (a0 :: rest)) (Some (a0 :: rest)) al, d, [])
    | Some parts =>
        Some (0, FuseArgs (length (render a0 parts)) (Some (render a0 parts)) true, d, [])
    end.
Proof.
  intros Hn. unfold fuse_opt_parse. cbn [argv argc]. rewrite bool_decide_false by done.
  rewrite firstn_all.
  rewrite opt_parse_unfold.
  assert (add_arg a0 (Ctx d 0 (FuseArgs 0 None false) None 0 []) =
          Some (0, plain d 0 [a0] None 0)) as -> by done.
  cbn [Z.eqb]. change (set_argctr 1 _) with (plain d 1 [a0] None 0).
  pose proof (parse_loop_canon (a0 :: rest) (S (length (a0 :: rest))) d 1 [a0] None
                ltac:(simpl; lia) ltac:(simpl; lia) Hn) as HL.
  change (drop 1 (a0 :: rest)) with rest in HL.
  destruct (canon rest) as [[[os pre] sep]|]; cbn [loop_result] in HL.
  - rewrite HL. cbn [Z.eqb].
    destruct (parse_tail_render d (length (a0 :: rest)) a0 os pre sep) as (O & n & ->). done.
  - destruct HL as (c & -> & Hd & Hm); simpl. by rewrite Hd, Hm.
Qed.

(** ** Idempotence *)

Definition keepable (a : bytes) : Prop :=
  char_at a 0 <> chr_dash \/
  char_at a 1 <> chr_o /\ (char_at a 1 <> chr_dash \/ char_at a 2 <> 0).

Lemma split_group_nonul s : Forall nonul (split_group s).
Proof.
  unfold split_group. generalize (S (length s)) ([] : bytes). intros fuel; revert s.
  induction fuel as [|fuel IH]; intros s d; [constructor|].
  destruct s as [|c s]; cbn [split_loop]; [repeat constructor; apply cstr_nonul|].
  destruct (c =? chr_comma); [constructor; [apply cstr_nonul|apply IH]|].
  destruct (_ && _); [destruct (is_octal s)|]; apply IH.
Qed.

Lemma canon_parts rest os pre sep : canon rest = Some (os, pre, sep) ->
  Forall nonul os /\ Forall keepable pre.
Proof.
  revert os pre sep. induction rest as [rest IH] using (induction_ltof1 _ (@length _)).
  unfold ltof in IH. intros os pre sep. destruct rest as [|a r]; cbn [canon].
  { intros [= <- <- <-]; split; constructor. }
  destruct (Z.eqb_spec (char_at a 0) chr_dash) as [H0|H0]; cbn [negb].
  2: { destruct (canon r) as [[[os' pre'] sep']|] eqn:E; simpl; intros [= <- <- <-].
       destruct (IH r ltac:(simpl; lia) _ _ _ E); split; [done|]. constructor; [by left|done]. }
  destruct (Z.eqb_spec (char_at a 1) chr_o) as [H1|H1].
  - destruct (Z.eqb_spec (char_at a 2) 0) as [H2|H2]; cbn [negb]; [destruct r as [|o r]; [done|]|];
      (destruct (canon r) as [[[os' pre'] sep']|] eqn:E; simpl; intros [= <- <- <-];
       destruct (IH r ltac:(simpl; lia) _ _ _ E); split; [|done];
       apply Forall_app; split; [apply split_group_nonul|done]).
  - destruct (Z.eqb_spec (char_at a 1) chr_dash) as [H1'|H1']; cbn [andb];
      [destruct (Z.eqb_spec (char_at a 2) 0) as [H2|H2];
         [intros [= <- <- <-]; split; constructor|]|];
      (destruct (canon r) as [[[os' pre'] sep']|] eqn:E; simpl; intros [= <- <- <-];
       destruct (IH r ltac:(simpl; lia) _ _ _ E); split; [done|]; constructor; [|done];
       right; auto).
Qed.

Lemma canon_keep pre rest : Forall keepable pre ->
  canon (pre ++ rest) = '(os, p, sep) ← canon rest; Some (os, pre ++ p, sep).
Proof.
  induction 1 as [|a pre Ha _ IH]; [simpl; by destruct (canon rest) as [[[? ?] ?]|]|].
  assert (canon (a :: pre ++ rest) = '(os, p, sep) ← canon (pre ++ rest); Some (os, a :: p, sep))
    as E.
  { cbn [canon]. destruct (Z.eqb_spec (char_at a 0) chr_dash); cbn [negb]; [|done].
    destruct (Z.eqb_spec (char_at a 1) chr_o); [by destruct Ha as [?|[? _]]|].
    destruct (Z.eqb_spec (char_at a 1) chr_dash); cbn [andb]; [|done].
    destruct (Z.eqb_spec (char_at a 2) 0); [by destruct Ha as [?|[_ [?|?]]]|done]. }
  cbn [app]. rewrite E, IH. by destruct (canon rest) as [[[? ?] ?]|].
Qed.

Lemma render_canon a0 os pre sep : Forall nonul os -> Forall keepable pre ->
  exists parts, canon (drop 1 (render a0 (os, pre, sep))) = Some parts /\
    render a0 parts = render a0 (os, pre, sep).
Proof.
  intros Hos Hpre. unfold render at 1; cbn [drop]; rewrite drop_0.
  assert (forall Y sep', canon Y = Some ([], [], sep') -> canon (pre ++ Y) = Some ([], pre, sep')) as K.
  { intros Y sep' E. rewrite canon_keep, E by done. simpl. by rewrite app_nil_r. }
  destruct os as [|o os].
  - destruct sep as [[|p post]|]; simpl; eexists; (split; [by apply K|]); done.
  - cbn [app].
    assert (forall J Y, canon ([chr_dash; chr_o] :: J :: Y) =
      '(os, pre, sep) ← canon Y; Some (split_group J ++ os, pre, sep)) as -> by done.
    rewrite (K _ sep) by (by destruct sep). eexists; split; [reflexivity|].
    rewrite app_nil_r, split_join by done.
    assert (strip (o :: os) <> []) as Hs.
    { clear. revert o; induction os as [|o' os IH]; intros o; [done|]. cbn [strip].
      case_bool_decide; [apply IH|done]. }
    destruct (strip (o :: os)) as [|o' os'] eqn:E; [done|].
    cbn [render]. rewrite <- E, join_strip. done.
Qed.

Lemma canon_nonul rest os pre sep : Forall nonul rest -> canon rest = Some (os, pre, sep) ->
  Forall nonul pre /\ Forall nonul (sep_args sep).
Proof.
  revert os pre sep. induction rest as [rest IH] using (induction_ltof1 _ (@length _)).
  unfold ltof in IH. intros os pre sep Hn. destruct rest as [|a r]; cbn [canon].
  { intros [= <- <- <-]; split; constructor. }
  apply Forall_cons in Hn as [Ha Hr].
  assert (forall os' pre' sep', canon r = Some (os', pre', sep') ->
    Forall nonul (a :: pre') /\ Forall nonul (sep_args sep')) as K.
  { intros os' pre' sep' E. destruct (IH r ltac:(simpl; lia) _ _ _ Hr E). by split; [constructor|]. }
  destruct (char_at a 0 =? chr_dash); cbn [negb];
    [destruct (char_at a 1 =? chr_o);
      [destruct (char_at a 2 =? 0); cbn [negb]; [destruct r as [|o r]; [done|]|]|
       destruct (_ && _); [intros [= <- <- <-]; split; repeat (constructor; try done)|]]|].
  1: { apply Forall_cons in Hr as [_ Hr].
       destruct (canon r) as [[[os' pre'] sep']|] eqn:E; simpl; intros [= <- <- <-].
       apply (IH r ltac:(simpl; lia) _ _ _ Hr E). }
  all: destruct (canon r) as [[[os' pre'] sep']|] eqn:E; simpl; intros [= <- <- <-];
    destruct (K _ _ _ eq_refl) as [K1 K2]; try done.
  split; [|done]. by apply Forall_cons in K1 as [_ K1].
Qed.

Lemma esc_copy_nonul o : nonul o -> nonul (esc_copy true o).
Proof.
  induction 1 as [|c o Hc _ IH]; [constructor|]. rewrite esc_copy_cons.
  destruct (_ || _); repeat (constructor; try done).
Qed.

Lemma join_nonul os : Forall nonul os -> nonul (join os).
Proof.
  unfold join. assert (nonul []) as H0 by constructor. revert H0. generalize ([] : bytes).
  induction os as [|o os IH]; intros s Hs Hos; simpl; [done|].
  apply Forall_cons in Hos as [Ho Hos]. apply IH; [|done].
  unfold join_step, nonul. apply Forall_app; split; [done|]. apply Forall_app; split.
  - case_bool_decide; repeat constructor; done.
  - by apply esc_copy_nonul.
Qed.

Lemma render_nonul a0 os pre sep : Forall nonul os -> Forall nonul pre ->
  Forall nonul (sep_args sep) -> Forall nonul (drop 1 (render a0 (os, pre, sep))).
Proof.
  intros Hos Hpre Hsep. unfold render; cbn [drop]; rewrite drop_0.
  apply Forall_app; split; [|apply Forall_app; split; [done|]].
  - pose proof (join_nonul _ Hos). destruct os; repeat (constructor; try done).
  - destruct sep as [post|]; [|constructor]. destruct os, post; try done; constructor.
Qed.

(** ** The parser is total *)

Lemma match_template_percent t arg sep : match_template t arg = Some sep -> sep <> 0%nat ->
  char_at t (S sep) = 0 \/ char_at t (S sep) = chr_percent.
Proof.
  unfold match_template. set (o := match strchr t chr_eq with Some _ => _ | None => _ end).
  assert (forall r, (if streq t arg then Some 0%nat else None) = Some r -> r = 0%nat) as E0.
  { intros r; by destruct (streq t arg); [intros [= <-]|]. }
  destruct o as [i|]; [|intros E%E0; done].
  destruct (Z.eqb_spec (char_at t (S i)) 0); [|destruct (Z.eqb_spec (char_at t (S i)) chr_percent)];
    cbn [orb]; [| |intros E%E0; done].
  all: destruct (_ && _); [intros [= <-]; auto|intros E%E0; done].
Qed.

(** An argument vector the parser may extend. *)
Definition args_ok (a : fuse_args) : Prop :=
  exists v, argv a = Some v /\ argc a = length v /\ (1 <= argc a)%nat /\ allocated a = true.

Definition proc_ok {D} (proc : option (bytes -> Z -> ST (D * fuse_args * heap) Z)) : Prop :=
  forall p, proc = Some p -> forall arg key d a h, args_ok a ->
    exists r d' a' h', p arg key (d, a, h) = Some (r, (d', a', h')) /\ args_ok a'.

Section Total.
Context {D : Type} `{OptData D} (table : list fuse_opt)
  (proc : option (bytes -> Z -> ST (D * fuse_args * heap) Z)) (in_argv : list bytes).
Hypothesis Hproc : proc_ok proc.

(** [m] returns, keeps the output vector well formed and does not move the
    argument counter back. *)
Definition safe {A} (m : ST (fuse_opt_context D) A) : Prop :=
  forall c, args_ok (outargs c) ->
    exists r c', m c = Some (r, c') /\ args_ok (outargs c') /\ (argctr c <= argctr c')%nat.

Lemma safe_ret {A} (a : A) : safe (mret a).
Proof. intros c Hc; by eexists _, _. Qed.

Lemma safe_bind {A B} (m : ST _ A) (k : A -> ST _ B) :
  safe m -> (forall a, safe (k a)) -> safe (m ≫= k).
Proof.
  intros Hm Hk c Hc. destruct (Hm c Hc) as (a & c1 & E1 & H1 & L1).
  destruct (Hk a c1 H1) as (r & c2 & E2 & H2 & L2).
  exists r, c2. rewrite (bind_step _ _ _ _ _ E1). split; [done|]. split; [done|lia].
Qed.

Lemma safe_get : safe get.
Proof. intros c Hc; by eexists _, _. Qed.

Lemma safe_modify f : (forall c, outargs (f c) = outargs c /\ (argctr c <= argctr (f c))%nat) ->
  safe (modify f).
Proof. intros Hf c Hc; eexists _, _. split; [done|]. destruct (Hf c) as [-> ?]. done. Qed.

Lemma add_arg_args_ok a arg h : args_ok a ->
  exists r a' h', fuse_opt_add_arg a arg h = Some ((r, a'), h') /\ args_ok a' /\
    (r = -1 /\ a' = a \/ r = 0 /\ argc a' = S (argc a)).
Proof.
  intros (v & Hv & Hn & H1 & Hal). unfold fuse_opt_add_arg.
  erewrite bind_step; [|rewrite Hal, orb_true_r; reflexivity].
  assert (args_ok a) as Ha by (by exists v).
  destruct h as [|[] [|[] h]]; cbn; eexists _, _, _; (split; [reflexivity|]); split; auto;
    exists (take (argc a) (args_list a) ++ [arg]); (split; [done|]);
    unfold args_list; rewrite Hv; cbn [default argc allocated];
    rewrite length_app, length_take, Hn; simpl; repeat split; lia.
Qed.

Lemma insert_arg_args_ok a pos arg h : args_ok a -> (pos <= argc a)%nat ->
  exists r a' h', fuse_opt_insert_arg a pos arg h = Some ((r, a'), h') /\ args_ok a' /\
    (r = -1 \/ r = 0 /\ argc a' = S (argc a)).
Proof.
  intros Ha Hp. unfold fuse_opt_insert_arg, fuse_opt_insert_arg_common.
  erewrite bind_step; [|rewrite bool_decide_true by done; reflexivity].
  destruct (add_arg_args_ok a arg h Ha) as (r & a' & h' & E & Ha' & Hr).
  erewrite bind_step by exact E. cbn [fst snd].
  destruct Hr as [[-> ->]|[-> Hc]]; cbn [Z.eqb]; [by eexists _, _, _; eauto|].
  case_bool_decide; [by eexists _, _, _; eauto|].
  eexists _, _, _; split; [reflexivity|]. split; [|by right].
  destruct Ha' as (v & Hv & Hn & H1 & Hal). eexists. split; [reflexivity|].
  unfold args_list; rewrite Hv. cbn [default argc allocated].
  rewrite !length_app, !length_take, length_drop; simpl. repeat split; [lia|lia|done].
Qed.

Lemma safe_add_arg arg : safe (add_arg arg).
Proof.
  intros c Hc. destruct (add_arg_args_ok (outargs c) arg (mem c) Hc) as (r & a' & h' & E & Ha & _).
  eexists _, _. unfold add_arg, with_heap, mbind, ST_bind. rewrite E. split; [reflexivity|]. done.
Qed.

Lemma safe_malloc : safe (fun c => with_heap malloc (fun _ c => c) c).
Proof. intros c Hc. unfold with_heap. destruct (mem c); by eexists _, _. Qed.

Lemma safe_add_opt opt : safe (add_opt opt).
Proof.
  intros c Hc. unfold add_opt, with_heap, add_opt_common, mbind, ST_bind.
  destruct (mem c) as [|[] h]; by eexists _, _.
Qed.

Lemma safe_next_arg : safe (next_arg in_argv).
Proof.
  intros c Hc. unfold next_arg. case_bool_decide; eexists _, _; split; [done|done|done|].
  simpl; split; [done|lia].
Qed.

Lemma safe_call_proc arg key iso : safe (call_proc proc arg key iso).
Proof.
  assert (safe (keep (D:=D) arg iso)) as Hk.
  { unfold keep. destruct iso; [apply safe_add_opt|apply safe_add_arg]. }
  unfold call_proc. destruct (_ =? _); [apply safe_ret|].
  destruct proc as [p|] eqn:Ep; [|done]. destruct (_ =? _); [done|].
  apply safe_bind.
  - intros c Hc. unfold run_proc.
    destruct (Hproc p eq_refl arg key (data c) (outargs c) (mem c) Hc) as (r & d' & a' & h' & -> & Ha).
    by eexists _, _.
  - intros r. destruct (_ || _); [apply safe_ret|done].
Qed.

Lemma safe_process_opt opt sep arg arg0 iso : match_template (templ opt) arg0 = Some sep ->
  safe (process_opt proc opt sep arg iso).
Proof.
  intros Hm. unfold process_opt. destruct (_ =? _).
  { apply safe_bind; [apply safe_call_proc|]. intros r; destruct (_ =? _); apply safe_ret. }
  case_bool_decide as Hs; cbn [andb]; [destruct (Z.eqb_spec (char_at (templ opt) (S sep)) 0)|];
    cbn [negb]; try (apply safe_bind; [by apply safe_modify|intros; apply safe_ret]).
  apply safe_bind; [|intros r; destruct (_ =? _); apply safe_ret].
  assert (char_at (drop (S sep) (templ opt)) 0 = chr_percent) as Hp.
  { unfold char_at. rewrite lookup_drop, Nat.add_0_r.
    by destruct (match_template_percent _ _ _ Hm Hs). }
  unfold process_opt_param. apply safe_bind; [rewrite Hp; apply safe_ret|]. intros _.
  destruct (_ =? chr_s).
  - apply safe_bind; [apply safe_malloc|]. intros []; cbn [negb]; [|apply safe_ret].
    apply safe_bind; [by apply safe_modify|]. intros; apply safe_ret.
  - intros c Hc. erewrite bind_step by reflexivity.
    destruct (scan _ _ _ _); by eexists _, _.
Qed.

Lemma safe_gopt_loop tbl arg iso : safe (gopt_loop proc in_argv tbl arg iso).
Proof.
  induction tbl as [|opt tbl IH]; [apply safe_ret|]. cbn [gopt_loop].
  destruct (match_template (templ opt) arg) as [sep|] eqn:Hm; [|done].
  apply safe_bind; [|intros r; destruct (_ =? _); [apply safe_ret|done]].
  destruct (_ && _); [|by eapply safe_process_opt].
  unfold process_opt_sep_arg. apply safe_bind; [apply safe_next_arg|]. intros r.
  destruct (_ =? _); [apply safe_ret|]. apply safe_bind; [apply safe_get|]. intros c.
  apply safe_bind; [apply safe_malloc|]. intros []; cbn [negb]; [|apply safe_ret].
  by eapply safe_process_opt.
Qed.

Lemma safe_process_gopt arg iso : safe (process_gopt table proc in_argv arg iso).
Proof.
  unfold process_gopt. destruct (find_opt table arg); [apply safe_gopt_loop|apply safe_call_proc].
Qed.

Lemma safe_process_option_group s : safe (process_option_group table proc in_argv s).
Proof.
  apply safe_bind; [apply safe_malloc|]. intros []; cbn [negb]; [|apply safe_ret].
  assert (forall os, safe (run_gopts table proc in_argv os)) as Hr.
  { induction os as [|o os IH]; [apply safe_ret|].
    apply safe_bind; [apply safe_process_gopt|].
    intros r; destruct (_ =? _); [apply safe_ret|done]. }
  intros c Hc. rewrite process_real_option_group_split. by apply Hr.
Qed.

Lemma safe_process_one arg : safe (process_one table proc in_argv arg).
Proof.
  unfold process_one. apply safe_bind; [apply safe_get|]. intros c.
  destruct (_ || _); [apply safe_call_proc|].
  destruct (_ =? chr_o); [destruct (_ =? 0); cbn [negb]; [|apply safe_process_option_group]|].
  - apply safe_bind; [apply safe_next_arg|]. intros r. destruct (_ =? _); [apply safe_ret|].
    apply safe_bind; [apply safe_get|]. intros c'. apply safe_process_option_group.
  - destruct (_ && _); [|apply safe_process_gopt].
    apply safe_bind; [apply safe_add_arg|]. intros r. destruct (_ =? _); [apply safe_ret|].
    apply safe_bind; [by apply safe_modify|]. intros; apply safe_ret.
Qed.

Lemma parse_loop_total fuel c : (length in_argv - argctr c < fuel)%nat -> args_ok (outargs c) ->
  exists r c', parse_loop table proc in_argv fuel c = Some (r, c') /\ args_ok (outargs c') /\
    (r = 0 \/ r = -1).
Proof.
  revert c; induction fuel as [|fuel IH]; intros c Hf Hc; [lia|].
  cbn [parse_loop]. erewrite bind_step by reflexivity.
  case_bool_decide; [eexists _, _; split; [reflexivity|auto]|].
  destruct (safe_process_one (default [] (in_argv !! argctr c)) c Hc) as (r & c1 & E & Hc1 & HL).
  erewrite bind_step by exact E. destruct (_ =? _); [eexists _, _; split; [reflexivity|auto]|].
  erewrite bind_step by reflexivity. apply IH; [|done]. simpl; lia.
Qed.

Lemma insert_out_total pos arg c : args_ok (outargs c) -> (pos <= argc (outargs c))%nat ->
  exists r c', insert_out (D:=D) pos arg c = Some (r, c') /\ args_ok (outargs c') /\
    (r = -1 \/ r = 0 /\ argc (outargs c') = S (argc (outargs c))).
Proof.
  intros Hc Hp.
  destruct (insert_arg_args_ok (outargs c) pos arg (mem c) Hc Hp) as (r & a' & h' & E & Ha & Hr).
  eexists _, _. unfold insert_out, with_heap, mbind, ST_bind. rewrite E. split; [reflexivity|]. done.
Qed.

Lemma parse_tail_total c : args_ok (outargs c) ->
  exists r c', parse_tail (D:=D) c = Some (r, c') /\ (r = 0 \/ r = -1).
Proof.
  intros Hc. unfold parse_tail. erewrite bind_step by reflexivity.
  destruct (opts c) as [o|].
  2: { erewrite bind_step by reflexivity. cbn [Z.eqb].
       erewrite bind_step by reflexivity. eexists _, _; split; [reflexivity|auto]. }
  destruct (insert_out_total 1 [chr_dash; chr_o] c Hc) as (r & c1 & E1 & Hc1 & Hr).
  { destruct Hc as (v & _ & _ & ? & _). lia. }
  destruct Hr as [->|[-> Hn]].
  { erewrite bind_step; [|erewrite bind_step by exact E1; reflexivity].
    eexists _, _; split; [reflexivity|auto]. }
  destruct (insert_out_total 2 o c1 Hc1) as (r & c2 & E2 & Hc2 & Hr).
  { destruct Hc as (v & _ & _ & ? & _). lia. }
  erewrite bind_step; [|erewrite bind_step by exact E1; exact E2].
  destruct Hr as [->|[-> _]]; [eexists _, _; split; [reflexivity|auto]|].
  cbn [Z.eqb]. erewrite bind_step by reflexivity. eexists _, _; split; [reflexivity|auto].
Qed.
End Total.

Lemma add_arg_first {D} a0 (d : D) h :
  exists r c, add_arg a0 (Ctx d 0 (FuseArgs 0 None false) None 0 h) = Some (r, c) /\
    (r = -1 \/ r = 0 /\ args_ok (outargs c)).
Proof.
  destruct h as [|[] [|[] h]]; eexists _, _; (split; [reflexivity|]); auto;
    right; split; [done| |done| |done|]; by exists [a0].
Qed.

Lemma split_group_cons s : exists o os, split_group s = o :: os.
Proof.
  unfold split_group. assert (length s < S (length s))%nat as L by lia. revert L.
  generalize (S (length s)) ([] : bytes). intros fuel; revert s.
  induction fuel as [|fuel IH]; intros s d L; [lia|].
  destruct s as [|c s]; cbn [split_loop]; [eauto|]. simpl in L.
  destruct (c =? chr_comma); [eauto|].
  destruct (_ && _); [destruct (is_octal s)|]; apply IH; rewrite ?length_drop; lia.
Qed.

(** escaping and splitting are inverse.  Non-empty options without NUL
    bytes added one by one with [fuse_opt_add_opt_escaped] give a string that
    [process_real_option_group] takes apart into exactly these options, in
    order, whatever the option table, the callback and the parser state. *)
Theorem option_group_roundtrip (os : list bytes) (s : bytes) :
  os <> [] -> Forall (fun o => o <> [] /\ nonul o) os ->
  add_opts_escaped None os [] = Some ((0, Some s), []) ->
  forall (D : Type) (HD : OptData D) table proc in_argv (c : fuse_opt_context D),
    process_real_option_group table proc in_argv s c = run_gopts table proc in_argv os c.
Proof.
  intros Hne Hos Hadd D HD table proc in_argv c.
  rewrite process_real_option_group_split. f_equal.
  rewrite add_opts_escaped_join in Hadd. destruct os as [|o os]; [done|].
  injection Hadd as <-. apply Forall_cons in Hos as [[Ho1 Ho2] Hos].
  apply split_join_cons; [done|done|]. eapply Forall_impl; [exact Hos|]. by intros ? [].
Qed.

Definition option_group_example : list bytes := [lit "fsname=a,b"; lit "dir=c:\d"; lit "ro"].

Lemma option_group_roundtrip_witness :
  exists s, add_opts_escaped None option_group_example [] = Some ((0, Some s), []) /\
    forall (D : Type) (HD : OptData D) table proc in_argv (c : fuse_opt_context D),
      process_real_option_group table proc in_argv s c
      = run_gopts table proc in_argv option_group_example c.
Proof.
  eexists; split; [vm_compute; reflexivity|].
  apply (option_group_roundtrip option_group_example); [discriminate| |vm_compute; reflexivity].
  repeat constructor; discriminate.
Defined.

(** with no table and no callback the parser brings an argument vector to
    a normal form, and parsing the result again changes nothing.  No
    allocation fails; the strings are C strings. *)
Theorem fuse_opt_parse_idempotent {D} `{OptData D} args v (d : D) args' d' h' :
  argv args = Some v -> argc args = length v -> Forall nonul v ->
  fuse_opt_parse args d [] None [] = Some (0, args', d', h') ->
  fuse_opt_parse args' d' [] None h' = Some (0, args', d', h').
Proof.
  destruct args as [n v' al]; cbn [argv argc]; intros -> -> Hn.
  destruct v as [|a0 rest]; [by intros [= <- <- <-]|].
  apply Forall_cons in Hn as [_ Hn]. rewrite fuse_opt_parse_canon by done.
  destruct (canon rest) as [[[os pre] sep]|] eqn:E; [|done].
  destruct (canon_parts _ _ _ _ E) as [Hos Hpre].
  destruct (canon_nonul _ _ _ _ Hn E) as [Npre Nsep].
  destruct (render_canon a0 os pre sep Hos Hpre) as (parts & E2 & R).
  pose proof (render_nonul a0 os pre sep Hos Npre Nsep) as N.
  destruct (render a0 (os, pre, sep)) as [|a1 rest2] eqn:E3; [done|].
  assert (a1 = a0) as -> by (by injection E3).
  intros [= <- <- <-]. cbn [drop] in *; rewrite drop_0 in *.
  pose proof (fuse_opt_parse_canon a0 rest2 true d N) as P. by rewrite E2, R in P.
Qed.

(** C35: the parser is total.  For every option table, every outcome of the
    allocations and every callback that returns with a well-formed output
    vector, [fuse_opt_parse] terminates without a failed assertion with 0 or
    -1, and a -1 leaves the caller's argument vector as it was. *)
Theorem fuse_opt_parse_total {D} `{OptData D} args (d : D) table proc h :
  proc_ok proc -> argc args = length (args_list args) ->
  exists r args' d' h', fuse_opt_parse args d table proc h = Some (r, args', d', h') /\
    (r = 0 \/ r = -1 /\ args' = args).
Proof.
  intros Hp Hn. unfold fuse_opt_parse, args_list in *. destruct (argv args) as [v|]; [|by eauto 10].
  simpl in Hn. case_bool_decide; [by eauto 10|]. rewrite Hn, firstn_all.
  destruct v as [|a0 rest]; [done|]. rewrite opt_parse_unfold.
  destruct (add_arg_first a0 d h) as (r & c1 & -> & Hr).
  destruct Hr as [->|[-> Hc1]]; cbn [Z.eqb]; [by eauto 10|].
  destruct (parse_loop_total table proc (a0 :: rest) Hp (S (length (a0 :: rest))) (set_argctr 1 c1))
    as (r & c2 & -> & Hc2 & Hr); [simpl; lia|done|].
  destruct Hr as [->| ->]; cbn [Z.eqb]; [|by eauto 10].
  destruct (parse_tail_total c2 Hc2) as (r & c3 & -> & [->| ->]); cbn [Z.eqb]; eauto 10.
Qed.

(** the separator at the end.  Arguments that are no [-o] options are
    kept; a trailing separator is removed when no option was collected, but
    stays, behind the comment's promise, as soon as the vector has an [-o]
    group, because [nonopt] is not adjusted for the two inserted arguments. *)
Theorem separator_kept_with_options {D} `{OptData D} (d : D) al a0 o rest :
  nonul o -> Forall nonul rest -> Forall keepable rest ->
  let sep := [chr_dash; chr_dash] in
  let plain_args := a0 :: rest ++ [sep] in
  let opt_args := a0 :: [chr_dash; chr_o] :: o :: rest ++ [sep] in
  (exists n, fuse_opt_parse (FuseArgs (length plain_args) (Some plain_args) al) d [] None []
     = Some (0, FuseArgs n (Some (a0 :: rest)) true, d, [])) /\
  (exists n, fuse_opt_parse (FuseArgs (length opt_args) (Some opt_args) al) d [] None []
     = Some (0, FuseArgs n (Some (a0 :: [chr_dash; chr_o] :: join (split_group o)
                                     :: rest ++ [sep])) true, d, [])).
Proof.
  intros Ho Hn Hk sep plain_args opt_args.
  assert (Forall nonul (rest ++ [sep])) as Hn'.
  { apply Forall_app; split; [done|]. repeat constructor; done. }
  assert (canon (rest ++ [sep]) = Some ([], rest, Some [])) as E.
  { rewrite canon_keep by done. simpl. by rewrite app_nil_r. }
  split.
  - unfold plain_args. rewrite fuse_opt_parse_canon, E by done. eexists.
    unfold render. cbn [app]. by rewrite app_nil_r.
  - unfold opt_args. rewrite fuse_opt_parse_canon by (constructor; [repeat constructor; done|by constructor]).
    assert (canon ([chr_dash; chr_o] :: o :: rest ++ [sep]) =
      '(os, pre, sep) ← canon (rest ++ [sep]); Some (split_group o ++ os, pre, sep)) as -> by done.
    rewrite E. cbn [mbind option_bind]. rewrite app_nil_r.
    destruct (split_group_cons o) as (o1 & os & Es). rewrite Es. eexists. reflexivity.
Qed.

(** ** An instance: variables by offset, and a decimal [%u] *)

Definition vars : Type := gmap Z (Z + bytes).

Fixpoint scan_dec (s : bytes) (acc : option Z) : option Z :=
  match s with
  | [] => acc
  | c :: s =>
      if (chr_0 <=? c) && (c <=? 57) then scan_dec s (Some (10 * default 0 acc + (c - chr_0)))
      else acc
  end.

#[export] Instance vars_data : OptData vars := {|
  store_int off v m := <[off := inl v]> m;
  store_str off s m := <[off := inr s]> m;
  scan fmt s off m := (fun v => <[off := inl v]> m) <$> scan_dec s None |}.

Definition example_args : list bytes :=
  [lit "f3"; lit "-ofsname=hpps"; lit "/src"; lit "-o"; lit "ro,x\054y"; lit "--"; lit "-d"].

Lemma fuse_opt_parse_idempotent_witness :
  exists args', fuse_opt_parse (FUSE_ARGS_INIT 7 (Some example_args)) (∅ : vars) [] None []
    = Some (0, args', ∅, []) /\
    argc args' = 6%nat /\
    fuse_opt_parse args' (∅ : vars) [] None [] = Some (0, args', ∅, []).
Proof.
  eexists. split; [vm_compute; reflexivity|]. split; [reflexivity|].
  apply (fuse_opt_parse_idempotent (FUSE_ARGS_INIT 7 (Some example_args)) example_args (∅ : vars));
    [reflexivity|reflexivity| |vm_compute; reflexivity].
  repeat constructor; discriminate.
Defined.

Definition example_table : list fuse_opt :=
  [FuseOpt (lit "max_read=%u") 8 0; FuseOpt (lit "-n %s") 16 0; FUSE_OPT_KEY (lit "ro") FUSE_OPT_KEY_KEEP].

Lemma fuse_opt_parse_total_witness :
  exists r args' d' h', fuse_opt_parse (FUSE_ARGS_INIT 7 (Some example_args)) (∅ : vars)
      example_table None [true; true; false] = Some (r, args', d', h') /\
    (r = 0 \/ r = -1 /\ args' = FUSE_ARGS_INIT 7 (Some example_args)).
Proof. apply fuse_opt_parse_total; [by intros p|reflexivity]. Defined.

Lemma separator_kept_with_options_witness :
  exists n, fuse_opt_parse (FuseArgs 5 (Some [lit "f3"; lit "-o"; lit "ro"; lit "/src"; lit "--"]) false)
      (∅ : vars) [] None []
    = Some (0, FuseArgs n (Some [lit "f3"; lit "-o"; lit "ro"; lit "/src"; lit "--"]) true, ∅, []).
Proof.
  destruct (separator_kept_with_options (∅ : vars) false (lit "f3") (lit "ro") [lit "/src"]) as [_ H].
  - repeat constructor; discriminate.
  - repeat constructor; discriminate.
  - repeat constructor; discriminate.
  - exact H.
Defined.

(** A table at work: a parameter in the same argument, one in the next, and a
    key that is kept. *)
Example parse_table_example :
  fuse_opt_parse (FUSE_ARGS_INIT 5 (Some [lit "f3"; lit "-oro,max_read=4096"; lit "-n"; lit "x"; lit "y"]))
      (∅ : vars) example_table None []
  = Some (0, FuseArgs 4 (Some [lit "f3"; lit "-o"; lit "ro"; lit "y"]) true,
          <[16 := inr (lit "x")]> {[8 := inl 4096]}, []).
Proof. vm_compute. reflexivity. Qed.
