(* ===== verification/Buf.v ===== *)
(** * Buffer vectors: libfuse/lib/buffer.c

    Copying between scatter/gather vectors whose segments live in memory or
    behind file descriptors.  Memory is a map from addresses to bytes; the
    system calls are an interface ([FdOps], with what the manual promises in
    [FdLaws]); a failed [assert] is an abort.  Results of type [ssize_t] are
    converted from [size_t] with [i64], as the C return statements do. *)

From S2P Require Import Prelude.

(** ** Memory *)

Abbreviation memory := (gmap Z Z).

Definition load (m : memory) (addr : Z) (len : nat) : bytes :=
  (fun i => default 0 (m !! (addr + Z.of_nat i))) <$> seq 0 len.

Fixpoint store (m : memory) (addr : Z) (bs : bytes) : memory :=
  match bs with
  | [] => m
  | x :: bs => store (<[addr := x]> m) (addr + 1) bs
  end.

(** ** System calls

    [inl e] is a result of -1 with [errno = e]. *)
Class FdOps (OS : Type) := {
  sys_read : Z -> Z -> OS -> OS * (Z + bytes);
  sys_pread : Z -> Z -> Z -> OS -> OS * (Z + bytes);
  sys_write : Z -> bytes -> OS -> OS * (Z + Z);
  sys_pwrite : Z -> bytes -> Z -> OS -> OS * (Z + Z);
  (* fd_in, *off_in, fd_out, *off_out, len, flags *)
  sys_splice : Z -> option Z -> Z -> option Z -> Z -> Z -> OS -> OS * (Z + Z) }.

(** A transfer moves at most the bytes asked for; errno values are positive. *)
Class FdLaws (OS : Type) `{FdOps OS} := {
  read_le fd len s s' r : 0 <= len -> sys_read fd len s = (s', inr r) -> Z.of_nat (length r) <= len;
  pread_le fd len pos s s' r :
    0 <= len -> sys_pread fd len pos s = (s', inr r) -> Z.of_nat (length r) <= len;
  write_le fd bs s s' n : sys_write fd bs s = (s', inr n) -> 0 <= n <= Z.of_nat (length bs);
  pwrite_le fd bs pos s s' n : sys_pwrite fd bs pos s = (s', inr n) -> 0 <= n <= Z.of_nat (length bs);
  splice_le i pi o po len fl s s' n :
    0 <= len -> sys_splice i pi o po len fl s = (s', inr n) -> 0 <= n <= len;
  read_errno fd len s s' e : sys_read fd len s = (s', inl e) -> 0 < e;
  pread_errno fd len pos s s' e : sys_pread fd len pos s = (s', inl e) -> 0 < e;
  write_errno fd bs s s' e : sys_write fd bs s = (s', inl e) -> 0 < e;
  pwrite_errno fd bs pos s s' e : sys_pwrite fd bs pos s = (s', inl e) -> 0 < e;
  splice_errno i pi o po len fl s s' e : sys_splice i pi o po len fl s = (s', inl e) -> 0 < e }.

(** ** Data *)

Definition FUSE_BUF_IS_FD : Z := 2.
Definition FUSE_BUF_FD_SEEK : Z := 4.
Definition FUSE_BUF_FD_RETRY : Z := 8.
Definition FUSE_BUF_NO_SPLICE : Z := 2.
Definition FUSE_BUF_FORCE_SPLICE : Z := 4.
Definition FUSE_BUF_SPLICE_MOVE : Z := 8.
Definition FUSE_BUF_SPLICE_NONBLOCK : Z := 16.
Definition SPLICE_F_MOVE : Z := 1.
Definition SPLICE_F_NONBLOCK : Z := 2.
Definition SIZE_MAX : Z := 2 ^ 64 - 1.

Record fuse_buf := FuseBuf {
  bsize : Z;
  bflags : Z;
  bmem : Z;
  bfd : Z;
  bpos : Z }.

Record fuse_bufvec := FuseBufvec {
  bcount : nat;
  bidx : nat;
  boff : Z;
  bufs : list fuse_buf }.

(** [FUSE_BUFVEC_INIT(size)] *)
Definition FUSE_BUFVEC_INIT (sz : Z) : fuse_bufvec :=
  FuseBufvec 1 0 0 [FuseBuf sz 0 0 (-1) 0].

Definition no_buf : fuse_buf := FuseBuf 0 0 0 0 0.

(** [bufv->buf[i]] *)
Definition buf_at (v : fuse_bufvec) (i : nat) : fuse_buf := default no_buf (bufs v !! i).

Definition fuse_buf_size (v : fuse_bufvec) : Z :=
  fold_left (fun size bf => if bsize bf =? SIZE_MAX then SIZE_MAX else u64 (size + bsize bf))
    (take (bcount v) (bufs v)) 0.

Definition min_size (s1 s2 : Z) : Z := if s1 <? s2 then s1 else s2.

(** The state a copy changes: the system, the memory, and the address of the
    next allocation. *)
Record world (OS : Type) := World { os : OS; ram : memory; brk : Z }.
Arguments World {OS}.
Arguments os {OS}.
Arguments ram {OS}.
Arguments brk {OS}.

Section Copy.
Context {OS : Type} `{FdOps OS}.

Abbreviation W := (world OS).

Definition do_sys {A} (f : OS -> OS * A) : ST W A := fun w =>
  let '(o, a) := f (os w) in Some (a, World o (ram w) (brk w)).

Definition write_once (dst : fuse_buf) (dst_off : Z) (src : fuse_buf) (src_off len : Z)
    : ST W (Z + Z) :=
  w ← get;
  let data := load (ram w) (bmem src + src_off) (Z.to_nat len) in
  if has (bflags dst) FUSE_BUF_FD_SEEK then
    do_sys (sys_pwrite (bfd dst) data (i64 (bpos dst + dst_off)))
  else do_sys (sys_write (bfd dst) data).

(** The loop of [fuse_buf_write]. *)
Fixpoint write_loop (fuel : nat) (dst : fuse_buf) (dst_off : Z) (src : fuse_buf)
    (src_off len copied : Z) : ST W Z :=
  match fuel with
  | O => abort
  | S fuel =>
      if len =? 0 then mret (i64 copied) else
      r ← write_once dst dst_off src src_off len;
      match r with
      | inl e => if copied =? 0 then mret (- e) else mret (i64 copied)
      | inr res =>
          if res =? 0 then mret (i64 copied) else
          if negb (has (bflags dst) FUSE_BUF_FD_RETRY) then mret (i64 (copied + res)) else
          write_loop fuel dst (dst_off + res) src (src_off + res) (len - res) (copied + res)
      end
  end.

Definition fuse_buf_write (dst : fuse_buf) (dst_off : Z) (src : fuse_buf) (src_off len : Z)
    : ST W Z :=
  write_loop (S (Z.to_nat len)) dst dst_off src src_off len 0.

Definition read_once (dst : fuse_buf) (dst_off : Z) (src : fuse_buf) (src_off len : Z)
    : ST W (Z + Z) :=
  r ← (if has (bflags src) FUSE_BUF_FD_SEEK
       then do_sys (sys_pread (bfd src) len (i64 (bpos src + src_off)))
       else do_sys (sys_read (bfd src) len));
  match r with
  | inl e => mret (inl e)
  | inr data =>
      _ ← modify (fun w => World (os w) (store (ram w) (bmem dst + dst_off) data) (brk w));
      mret (inr (Z.of_nat (length data)))
  end.

(** The loop of [fuse_buf_read]. *)
Fixpoint read_loop (fuel : nat) (dst : fuse_buf) (dst_off : Z) (src : fuse_buf)
    (src_off len copied : Z) : ST W Z :=
  match fuel with
  | O => abort
  | S fuel =>
      if len =? 0 then mret (i64 copied) else
      r ← read_once dst dst_off src src_off len;
      match r with
      | inl e => if copied =? 0 then mret (- e) else mret (i64 copied)
      | inr res =>
          if res =? 0 then mret (i64 copied) else
          if negb (has (bflags src) FUSE_BUF_FD_RETRY) then mret (i64 (copied + res)) else
          read_loop fuel dst (dst_off + res) src (src_off + res) (len - res) (copied + res)
      end
  end.

Definition fuse_buf_read (dst : fuse_buf) (dst_off : Z) (src : fuse_buf) (src_off len : Z)
    : ST W Z :=
  read_loop (S (Z.to_nat len)) dst dst_off src src_off len 0.

Definition TMP_SIZE : Z := 131072.

(** The loop of [fuse_buf_fd_to_fd] through the temporary buffer [tmp]. *)
Fixpoint fd_to_fd_loop (fuel : nat) (tmp dst : fuse_buf) (dst_off : Z) (src : fuse_buf)
    (src_off len copied : Z) : ST W Z :=
  match fuel with
  | O => abort
  | S fuel =>
      if len =? 0 then mret (i64 copied) else
      let this_len := min_size (bsize tmp) len in
      res ← fuse_buf_read tmp 0 src src_off this_len;
      if res <? 0 then (if copied =? 0 then mret res else mret (i64 copied)) else
      if res =? 0 then mret (i64 copied) else
      res ← fuse_buf_write dst dst_off tmp 0 res;
      if res <? 0 then (if copied =? 0 then mret res else mret (i64 copied)) else
      if res =? 0 then mret (i64 copied) else
      if res <? this_len then mret (i64 (copied + res)) else
      fd_to_fd_loop fuel tmp dst (dst_off + res) src (src_off + res) (len - res) (copied + res)
  end.

Definition fuse_buf_fd_to_fd (dst : fuse_buf) (dst_off : Z) (src : fuse_buf) (src_off len : Z)
    : ST W Z :=
  w ← get;
  let buf := brk w in
  _ ← put (World (os w) (ram w) (buf + TMP_SIZE));
  r ← fd_to_fd_loop (S (Z.to_nat len)) (FuseBuf TMP_SIZE 0 buf 0 0) dst dst_off src src_off len 0;
  _ ← modify (fun w => World (os w) (ram w) buf);
  mret r.

(** The loop of [fuse_buf_splice]: the kernel advances the positions. *)
Fixpoint splice_loop (fuel : nat) (dst : fuse_buf) (dst_off : Z) (src : fuse_buf) (src_off : Z)
    (srcpos dstpos : option Z) (len copied flags splice_flags : Z) : ST W Z :=
  match fuel with
  | O => abort
  | S fuel =>
      if len =? 0 then mret (i64 copied) else
      r ← do_sys (sys_splice (bfd src) srcpos (bfd dst) dstpos len splice_flags);
      match r with
      | inl e =>
          if negb (copied =? 0) then mret (i64 copied) else
          if negb (e =? EINVAL) || has flags FUSE_BUF_FORCE_SPLICE then mret (- e) else
          fuse_buf_fd_to_fd dst dst_off src src_off len
      | inr res =>
          if res =? 0 then mret (i64 copied) else
          if negb (has (bflags src) FUSE_BUF_FD_RETRY) && negb (has (bflags dst) FUSE_BUF_FD_RETRY)
          then mret (i64 (copied + res)) else
          splice_loop fuel dst dst_off src src_off ((fun p => p + res) <$> srcpos)
            ((fun p => p + res) <$> dstpos) (len - res) (copied + res) flags splice_flags
      end
  end.

Definition fuse_buf_splice (dst : fuse_buf) (dst_off : Z) (src : fuse_buf) (src_off len flags : Z)
    : ST W Z :=
  let splice_flags :=
    Z.lor (if has flags FUSE_BUF_SPLICE_MOVE then SPLICE_F_MOVE else 0)
          (if has flags FUSE_BUF_SPLICE_NONBLOCK then SPLICE_F_NONBLOCK else 0) in
  let srcpos := if has (bflags src) FUSE_BUF_FD_SEEK
                then Some (i64 (bpos src + src_off)) else None in
  let dstpos := if has (bflags dst) FUSE_BUF_FD_SEEK
                then Some (i64 (bpos dst + dst_off)) else None in
  splice_loop (S (Z.to_nat len)) dst dst_off src src_off srcpos dstpos len 0 flags splice_flags.

Definition fuse_buf_copy_one (dst : fuse_buf) (dst_off : Z) (src : fuse_buf)
    (src_off len flags : Z) : ST W Z :=
  let src_is_fd := has (bflags src) FUSE_BUF_IS_FD in
  let dst_is_fd := has (bflags dst) FUSE_BUF_IS_FD in
  if negb src_is_fd && negb dst_is_fd then
    let dstmem := bmem dst + dst_off in
    let srcmem := bmem src + src_off in
    (* memcpy and memmove both store the bytes loaded before the store *)
    _ ← (if dstmem =? srcmem then mret tt else
         modify (fun w => World (os w)
           (store (ram w) dstmem (load (ram w) srcmem (Z.to_nat len))) (brk w)));
    mret (i64 len)
  else if negb src_is_fd then fuse_buf_write dst dst_off src src_off len
  else if negb dst_is_fd then fuse_buf_read dst dst_off src src_off len
  else if has flags FUSE_BUF_NO_SPLICE then fuse_buf_fd_to_fd dst dst_off src src_off len
  else fuse_buf_splice dst dst_off src src_off len flags.

Definition fuse_bufvec_current (v : fuse_bufvec) : option fuse_buf :=
  if bool_decide (bidx v < bcount v)%nat then Some (buf_at v (bidx v)) else None.

(** [Some (more, v')]; [None] is a failed assertion. *)
Definition fuse_bufvec_advance (v : fuse_bufvec) (len : Z) : option (bool * fuse_bufvec) :=
  match fuse_bufvec_current v with
  | None => Some (false, v)
  | Some buf =>
      let off := u64 (boff v + len) in
      if negb (off <=? bsize buf) then None else
      if off =? bsize buf then
        let idx := S (bidx v) in
        if bool_decide (idx = bcount v) then Some (false, FuseBufvec (bcount v) idx off (bufs v))
        else Some (true, FuseBufvec (bcount v) idx 0 (bufs v))
      else Some (true, FuseBufvec (bcount v) (bidx v) off (bufs v))
  end.

(** The loop of [fuse_buf_copy]; returns the vectors as they are left. *)
Fixpoint copy_loop (fuel : nat) (dstv srcv : fuse_bufvec) (flags copied : Z)
    : ST W (Z * fuse_bufvec * fuse_bufvec) :=
  match fuel with
  | O => abort
  | S fuel =>
      match fuse_bufvec_current srcv, fuse_bufvec_current dstv with
      | Some src, Some dst =>
          let src_len := u64 (bsize src - boff srcv) in
          let dst_len := u64 (bsize dst - boff dstv) in
          let len := min_size src_len dst_len in
          res ← fuse_buf_copy_one dst (boff dstv) src (boff srcv) len flags;
          if res <? 0 then mret (if copied =? 0 then res else i64 copied, dstv, srcv) else
          match fuse_bufvec_advance srcv res with
          | None => abort
          | Some (false, srcv) => mret (i64 (u64 (copied + res)), dstv, srcv)
          | Some (true, srcv) =>
              match fuse_bufvec_advance dstv res with
              | None => abort
              | Some (false, dstv) => mret (i64 (u64 (copied + res)), dstv, srcv)
              | Some (true, dstv) =>
                  if res <? len then mret (i64 (u64 (copied + res)), dstv, srcv)
                  else copy_loop fuel dstv srcv flags (u64 (copied + res))
              end
          end
      | _, _ => mret (i64 copied, dstv, srcv)
      end
  end.

(** [same] says that both arguments are the same vector. *)
Definition fuse_buf_copy (same : bool) (dstv srcv : fuse_bufvec) (flags : Z)
    : ST W (Z * fuse_bufvec * fuse_bufvec) :=
  if same then mret (i64 (fuse_buf_size dstv), dstv, srcv) else
  copy_loop (S (bcount dstv + bcount srcv)) dstv srcv flags 0.
End Copy.

(** ** Totality *)

Lemma i64_id z : - 2 ^ 63 <= z < 2 ^ 63 -> i64 z = z.
Proof. intros; apply swrap_id; simpl; lia. Qed.

Lemma u64_id z : 0 <= z < 2 ^ 64 -> u64 z = z.
Proof. apply wrap_id. Qed.

Lemma length_load m a n : length (load m a n) = n.
Proof. unfold load. by rewrite length_fmap, length_seq. Qed.

Lemma min_size_spec a c : min_size a c = Z.min a c.
Proof. unfold min_size. zcases. Qed.

Section Total.
Context {OS : Type} `{FdLaws OS}.

(** [m] returns an error or a count between [lo] and [hi]. *)
Definition yields (m : ST (world OS) Z) (lo hi : Z) : Prop :=
  forall w, exists r w', m w = Some (r, w') /\ (r < 0 \/ lo <= r <= hi).

Lemma yields_ret r lo hi : r < 0 \/ lo <= r <= hi -> yields (mret r) lo hi.
Proof. intros Hr w. by exists r, w. Qed.

Lemma write_once_spec dst dst_off src src_off len w : 0 <= len ->
  exists r w', write_once dst dst_off src src_off len w = Some (r, w') /\
    match r with inl e => 0 < e | inr n => 0 <= n <= len end.
Proof.
  intros Hl. unfold write_once. erewrite bind_step by reflexivity. unfold do_sys.
  set (data := load _ _ _). assert (Z.of_nat (length data) = len) as Hd.
  { unfold data. rewrite length_load. lia. }
  destruct (has _ _).
  - destruct (sys_pwrite _ _ _ _) as [o [e|n]] eqn:E; eexists _, _; (split; [reflexivity|]).
    + by eapply pwrite_errno.
    + rewrite <- Hd. by eapply pwrite_le.
  - destruct (sys_write _ _ _) as [o [e|n]] eqn:E; eexists _, _; (split; [reflexivity|]).
    + by eapply write_errno.
    + rewrite <- Hd. by eapply write_le.
Qed.

Lemma read_once_spec dst dst_off src src_off len w : 0 <= len ->
  exists r w', read_once dst dst_off src src_off len w = Some (r, w') /\
    match r with inl e => 0 < e | inr n => 0 <= n <= len end.
Proof.
  intros Hl. unfold read_once. destruct (has _ _).
  - destruct (sys_pread (bfd src) len (i64 (bpos src + src_off)) (os w)) as [o [e|d]] eqn:E;
      (erewrite bind_step; [|unfold do_sys; rewrite E; reflexivity]);
      eexists _, _; (split; [reflexivity|]).
    + by eapply pread_errno.
    + split; [lia|]. by eapply pread_le.
  - destruct (sys_read (bfd src) len (os w)) as [o [e|d]] eqn:E;
      (erewrite bind_step; [|unfold do_sys; rewrite E; reflexivity]);
      eexists _, _; (split; [reflexivity|]).
    + by eapply read_errno.
    + split; [lia|]. by eapply read_le.
Qed.

Lemma write_loop_yields fuel dst dst_off src src_off len copied :
  (Z.to_nat len < fuel)%nat -> 0 <= len -> 0 <= copied -> copied + len < 2 ^ 63 ->
  yields (write_loop fuel dst dst_off src src_off len copied) copied (copied + len).
Proof.
  revert dst_off src_off len copied.
  induction fuel as [|fuel IH]; intros dst_off src_off len copied Hf Hl Hc Hs; [lia|].
  cbn [write_loop]. destruct (Z.eqb_spec len 0) as [Hz|Hz]; [apply yields_ret; rewrite i64_id; lia|].
  intros w. destruct (write_once_spec dst dst_off src src_off len w Hl) as ([e|n] & w1 & E & Hn);
    rewrite (bind_step _ _ _ _ _ E).
  - destruct (copied =? 0); apply yields_ret; rewrite ?i64_id; lia.
  - destruct (Z.eqb_spec n 0) as [Hnz|Hnz]; [apply yields_ret; rewrite i64_id; lia|].
    destruct (has _ _); cbn [negb]; [|apply yields_ret; rewrite i64_id; lia].
    destruct (IH (dst_off + n) (src_off + n) (len - n) (copied + n)
      ltac:(lia) ltac:(lia) ltac:(lia) ltac:(lia) w1) as (r & w' & E' & Hr).
    exists r, w'. split; [done|lia].
Qed.

Lemma read_loop_yields fuel dst dst_off src src_off len copied :
  (Z.to_nat len < fuel)%nat -> 0 <= len -> 0 <= copied -> copied + len < 2 ^ 63 ->
  yields (read_loop fuel dst dst_off src src_off len copied) copied (copied + len).
Proof.
  revert dst_off src_off len copied.
  induction fuel as [|fuel IH]; intros dst_off src_off len copied Hf Hl Hc Hs; [lia|].
  cbn [read_loop]. destruct (Z.eqb_spec len 0) as [Hz|Hz]; [apply yields_ret; rewrite i64_id; lia|].
  intros w. destruct (read_once_spec dst dst_off src src_off len w Hl) as ([e|n] & w1 & E & Hn);
    rewrite (bind_step _ _ _ _ _ E).
  - destruct (copied =? 0); apply yields_ret; rewrite ?i64_id; lia.
  - destruct (Z.eqb_spec n 0) as [Hnz|Hnz]; [apply yields_ret; rewrite i64_id; lia|].
    destruct (has _ _); cbn [negb]; [|apply yields_ret; rewrite i64_id; lia].
    destruct (IH (dst_off + n) (src_off + n) (len - n) (copied + n)
      ltac:(lia) ltac:(lia) ltac:(lia) ltac:(lia) w1) as (r & w' & E' & Hr).
    exists r, w'. split; [done|lia].
Qed.

Lemma fuse_buf_write_yields dst dst_off src src_off len : 0 <= len < 2 ^ 63 ->
  yields (fuse_buf_write dst dst_off src src_off len) 0 len.
Proof. intros Hl. apply write_loop_yields; lia. Qed.

Lemma fuse_buf_read_yields dst dst_off src src_off len : 0 <= len < 2 ^ 63 ->
  yields (fuse_buf_read dst dst_off src src_off len) 0 len.
Proof. intros Hl. apply read_loop_yields; lia. Qed.

Lemma fd_to_fd_loop_yields fuel tmp dst dst_off src src_off len copied :
  (Z.to_nat len < fuel)%nat -> 0 < bsize tmp < 2 ^ 63 -> 0 <= len -> 0 <= copied ->
  copied + len < 2 ^ 63 ->
  yields (fd_to_fd_loop fuel tmp dst dst_off src src_off len copied) copied (copied + len).
Proof.
  intros Hf Ht. revert dst_off src_off len copied Hf.
  induction fuel as [|fuel IH]; intros dst_off src_off len copied Hf Hl Hc Hs; [lia|].
  cbn [fd_to_fd_loop]. destruct (Z.eqb_spec len 0) as [Hz|Hz]; [apply yields_ret; rewrite i64_id; lia|].
  rewrite min_size_spec. set (tl := Z.min (bsize tmp) len). intros w.
  destruct (fuse_buf_read_yields tmp 0 src src_off tl ltac:(lia) w) as (n & w1 & E & Hn).
  rewrite (bind_step _ _ _ _ _ E). clear E.
  destruct (Z.ltb_spec n 0); [destruct (copied =? 0); apply yields_ret; rewrite ?i64_id; lia|].
  destruct (Z.eqb_spec n 0) as [Hnz|Hnz]; [apply yields_ret; rewrite i64_id; lia|].
  destruct (fuse_buf_write_yields dst dst_off tmp 0 n ltac:(lia) w1) as (k & w2 & E & Hk).
  rewrite (bind_step _ _ _ _ _ E). clear E.
  destruct (Z.ltb_spec k 0); [destruct (copied =? 0); apply yields_ret; rewrite ?i64_id; lia|].
  destruct (Z.eqb_spec k 0) as [Hkz|Hkz]; [apply yields_ret; rewrite i64_id; lia|].
  destruct (Z.ltb_spec k tl); [apply yields_ret; rewrite i64_id; lia|].
  destruct (IH (dst_off + k) (src_off + k) (len - k) (copied + k)
    ltac:(lia) ltac:(lia) ltac:(lia) ltac:(lia) w2) as (r & w' & E' & Hr).
  exists r, w'. split; [done|lia].
Qed.

Lemma fuse_buf_fd_to_fd_yields dst dst_off src src_off len : 0 <= len < 2 ^ 63 ->
  yields (fuse_buf_fd_to_fd dst dst_off src src_off len) 0 len.
Proof.
  intros Hl w. unfold fuse_buf_fd_to_fd. do 2 (erewrite bind_step by reflexivity).
  destruct (fd_to_fd_loop_yields (S (Z.to_nat len)) (FuseBuf TMP_SIZE 0 (brk w) 0 0) dst dst_off
    src src_off len 0 ltac:(lia) ltac:(done) ltac:(lia) ltac:(lia) ltac:(lia)
    (World (os w) (ram w) (brk w + TMP_SIZE))) as (r & w' & E & Hr).
  rewrite (bind_step _ _ _ _ _ E). eexists _, _. split; [reflexivity|done].
Qed.

Lemma splice_loop_yields fuel dst dst_off src src_off sp dp len copied fl sfl :
  (Z.to_nat len < fuel)%nat -> 0 <= len -> 0 <= copied -> copied + len < 2 ^ 63 ->
  yields (splice_loop fuel dst dst_off src src_off sp dp len copied fl sfl) copied (copied + len).
Proof.
  revert sp dp len copied.
  induction fuel as [|fuel IH]; intros sp dp len copied Hf Hl Hc Hs; [lia|].
  cbn [splice_loop]. destruct (Z.eqb_spec len 0) as [Hz|Hz]; [apply yields_ret; rewrite i64_id; lia|].
  intros w. destruct (sys_splice (bfd src) sp (bfd dst) dp len sfl (os w)) as [o [e|n]] eqn:E;
    (erewrite bind_step; [|unfold do_sys; rewrite E; reflexivity]).
  - cbv beta iota.
    destruct (Z.eqb_spec copied 0) as [->|]; cbn [negb]; [|apply yields_ret; rewrite i64_id; lia].
    destruct (_ || _); [apply yields_ret; apply splice_errno in E; lia|].
    apply fuse_buf_fd_to_fd_yields; lia.
  - apply splice_le in E; [|done]. cbv beta iota. destruct (Z.eqb_spec n 0) as [Hnz|Hnz]; [apply yields_ret; rewrite i64_id; lia|].
    destruct (_ && _); [apply yields_ret; rewrite i64_id; lia|].
    destruct (IH ((fun p => p + n) <$> sp) ((fun p => p + n) <$> dp) (len - n) (copied + n)
      ltac:(lia) ltac:(lia) ltac:(lia) ltac:(lia) (World o (ram w) (brk w))) as (r & w' & E' & Hr).
    exists r, w'. split; [done|lia].
Qed.

Lemma fuse_buf_copy_one_yields dst dst_off src src_off len fl : 0 <= len < 2 ^ 63 ->
  yields (fuse_buf_copy_one dst dst_off src src_off len fl) 0 len.
Proof.
  intros Hl. unfold fuse_buf_copy_one.
  destruct (_ && _).
  { intros w. destruct (_ =? _); (erewrite bind_step by reflexivity);
      apply yields_ret; rewrite i64_id; lia. }
  destruct (negb _); [by apply fuse_buf_write_yields|].
  destruct (negb _); [by apply fuse_buf_read_yields|].
  destruct (has _ _); [by apply fuse_buf_fd_to_fd_yields|].
  apply splice_loop_yields; lia.
Qed.
End Total.

(** ** Buffer vectors *)

(** Every segment has a size, and the position is inside the current one. *)
Definition vec_ok (v : fuse_bufvec) : Prop :=
  bcount v = length (bufs v) /\
  Forall (fun bf => 0 <= bsize bf < 2 ^ 63) (bufs v) /\ 0 <= boff v /\
  ((bidx v < bcount v)%nat -> boff v <= bsize (buf_at v (bidx v))).

Definition sum_sizes (l : list fuse_buf) : Z := foldr (fun bf n => bsize bf + n) 0 l.

(** The bytes from the position to the end. *)
Definition remaining (v : fuse_bufvec) : Z :=
  if bool_decide (bidx v < bcount v)%nat then sum_sizes (drop (bidx v) (bufs v)) - boff v else 0.

Definition segments_left (v : fuse_bufvec) : nat := bcount v - bidx v.

Lemma sum_sizes_nonneg l : Forall (fun bf => 0 <= bsize bf < 2 ^ 63) l -> 0 <= sum_sizes l.
Proof. induction 1 as [|bf l Hb _ IH]; simpl; lia. Qed.

Lemma vec_current v bf : vec_ok v -> fuse_bufvec_current v = Some bf ->
  (bidx v < bcount v)%nat /\ bf = buf_at v (bidx v) /\ 0 <= boff v <= bsize bf /\ bsize bf < 2 ^ 63 /\
  drop (bidx v) (bufs v) = bf :: drop (S (bidx v)) (bufs v) /\
  0 <= sum_sizes (drop (S (bidx v)) (bufs v)).
Proof.
  intros (Hn & Hs & Ho & Hc). unfold fuse_bufvec_current. case_bool_decide as Hi; [|done].
  intros [= <-]. unfold buf_at in *. rewrite Hn in Hi.
  destruct (lookup_lt_is_Some_2 (bufs v) (bidx v) Hi) as [bf Hb].
  rewrite Hb in *; cbn [default] in *. rewrite Forall_forall in Hs.
  assert (bf ∈ bufs v) as Hin by (by eapply list_elem_of_lookup_2).
  split; [lia|]. split; [done|]. split; [split; [done|apply Hc; lia]|].
  split; [apply Hs, Hin|]. split; [by apply drop_S|].
  apply sum_sizes_nonneg. apply Forall_forall. intros x Hx. apply Hs.
  apply list_elem_of_In in Hx. apply list_elem_of_In.
  rewrite <- (take_drop (S (bidx v)) (bufs v)). apply in_app_iff; auto.
Qed.

Lemma remaining_nonneg v : vec_ok v -> 0 <= remaining v.
Proof.
  intros Hv. unfold remaining. case_bool_decide as Hi; [|done].
  destruct (vec_current v (buf_at v (bidx v)) Hv) as (_ & _ & Ho & _ & Hd & Hs).
  { unfold fuse_bufvec_current. by rewrite bool_decide_true. }
  rewrite Hd. simpl. lia.
Qed.

(** What advancing inside the current segment does. *)
Lemma advance_spec v bf len : vec_ok v -> fuse_bufvec_current v = Some bf ->
  0 <= len <= bsize bf - boff v ->
  exists more v', fuse_bufvec_advance v len = Some (more, v') /\ vec_ok v' /\
    remaining v' = remaining v - len /\ (more = false -> remaining v' = 0) /\
    (segments_left v' + (if bool_decide (len = bsize bf - boff v)%Z then 1 else 0)
      = segments_left v)%nat.
Proof.
  intros Hv Hcur Hl. pose proof (vec_current v bf Hv Hcur) as (Hi & Hb & Ho & Hm & Hd & Hs).
  destruct Hv as (Hn & Hsz & _ & _). unfold fuse_bufvec_advance. rewrite Hcur.
  rewrite u64_id by lia. unfold remaining, segments_left.
  rewrite (bool_decide_true (bidx v < bcount v)%nat), Hd by done. simpl sum_sizes.
  destruct (Z.leb_spec (boff v + len) (bsize bf)); cbn [negb]; [|lia].
  destruct (Z.eqb_spec (boff v + len) (bsize bf)) as [He|He].
  - rewrite (bool_decide_true (len = _)) by lia. case_bool_decide as Hlast.
    + eexists _, _; split; [reflexivity|]. unfold vec_ok; cbn [bcount bidx boff bufs].
      rewrite bool_decide_false by lia. rewrite drop_ge in * by lia. simpl in *.
      repeat split; auto; lia.
    + eexists _, _; split; [reflexivity|].
      assert (vec_ok (FuseBufvec (bcount v) (S (bidx v)) 0 (bufs v))) as Hv'.
      { repeat split; cbn [bcount bidx boff bufs]; try done. intros Hi'. unfold buf_at.
        destruct (lookup_lt_is_Some_2 (bufs v) (S (bidx v)) ltac:(cbn in *; lia)) as [b2 Hb2].
        cbn [bufs]. rewrite Hb2. cbn [default]. rewrite Forall_forall in Hsz.
        apply Hsz. by eapply list_elem_of_lookup_2. }
      split; [done|]. cbn [bcount bidx boff bufs]. rewrite bool_decide_true by lia.
      repeat split; [lia|done|lia].
  - rewrite (bool_decide_false (len = _)) by lia. eexists _, _; split; [reflexivity|].
    unfold vec_ok, buf_at; cbn [bcount bidx boff bufs].
    rewrite bool_decide_true, Hd by done. simpl.
    unfold buf_at in Hb. rewrite <- Hb. repeat split; auto; lia.
Qed.

Section CopyTotal.
Context {OS : Type} `{FdLaws OS}.

Lemma copy_loop_total fuel dv sv fl copied (w : world OS) :
  (segments_left dv + segments_left sv < fuel)%nat -> vec_ok dv -> vec_ok sv ->
  0 <= copied -> copied + Z.min (remaining dv) (remaining sv) < 2 ^ 63 ->
  exists r dv' sv' w', copy_loop fuel dv sv fl copied w = Some ((r, dv', sv'), w') /\
    (r < 0 \/ copied <= r <= copied + Z.min (remaining dv) (remaining sv)).
Proof.
  revert dv sv copied w.
  induction fuel as [|fuel IH]; intros dv sv copied w Hf Hdv Hsv Hc Hb; [lia|].
  pose proof (remaining_nonneg dv Hdv) as Rd. pose proof (remaining_nonneg sv Hsv) as Rs.
  cbn [copy_loop].
  destruct (fuse_bufvec_current sv) as [src|] eqn:Cs;
    [destruct (fuse_bufvec_current dv) as [dst|] eqn:Cd|];
    try (eexists _, _, _, _; split; [reflexivity|]; rewrite i64_id; lia).
  pose proof (vec_current sv src Hsv Cs) as (_ & _ & Hso & Hss & _).
  pose proof (vec_current dv dst Hdv Cd) as (_ & _ & Hdo & Hds & _).
  rewrite min_size_spec, !u64_id by lia. set (len := Z.min _ _).
  destruct (fuse_buf_copy_one_yields dst (boff dv) src (boff sv) len fl ltac:(lia) w)
    as (r & w1 & E & Hr). rewrite (bind_step _ _ _ _ _ E); clear E.
  destruct (Z.ltb_spec r 0) as [Hneg|Hneg].
  { eexists _, _, _, _; split; [reflexivity|].
    destruct (Z.eqb_spec copied 0); [lia|]. rewrite i64_id; lia. }
  destruct (advance_spec sv src r Hsv Cs ltac:(lia)) as (ms & sv1 & -> & Hsv1 & Rs1 & Zs & Ms).
  pose proof (remaining_nonneg sv1 Hsv1).
  destruct (advance_spec dv dst r Hdv Cd ltac:(lia)) as (md & dv1 & Ed & Hdv1 & Rd1 & Zd & Md).
  pose proof (remaining_nonneg dv1 Hdv1).
  assert (i64 (u64 (copied + r)) = copied + r) as Er by (rewrite u64_id, i64_id; lia).
  destruct ms; [rewrite Ed; destruct md|]; [|by eexists _, _, _, _; split; [reflexivity|]; lia..].
  destruct (Z.ltb_spec r len); [eexists _, _, _, _; split; [reflexivity|]; lia|].
  rewrite u64_id by lia.
  destruct (IH dv1 sv1 (copied + r) w1) as (r' & d' & s' & w' & E & Hr'); try done; try lia.
  { do 2 case_bool_decide; lia. }
  exists r', d', s', w'. split; [done|]. lia.
Qed.
End CopyTotal.

(** ** Copies inside memory *)

Definition byte_at (m : memory) (a : Z) : Z := default 0 (m !! a).

Lemma store_out m a bs x : x < a \/ a + Z.of_nat (length bs) <= x -> store m a bs !! x = m !! x.
Proof.
  revert m a; induction bs as [|y bs IH]; intros m a Hx; simpl in *; [done|].
  rewrite IH by lia. apply lookup_insert_ne. lia.
Qed.

Lemma store_in m a bs i y : bs !! i = Some y -> store m a bs !! (a + Z.of_nat i) = Some y.
Proof.
  revert m a i; induction bs as [|z bs IH]; intros m a i Hi; [done|].
  destruct i as [|i]; simpl in *.
  - injection Hi as ->. rewrite store_out by lia. rewrite Z.add_0_r. apply lookup_insert_eq.
  - replace (a + Z.of_nat (S i)) with (a + 1 + Z.of_nat i) by lia. by apply IH.
Qed.

Lemma load_lookup m a n i : (i < n)%nat -> load m a n !! i = Some (byte_at m (a + Z.of_nat i)).
Proof.
  intros Hi. unfold load. rewrite list_lookup_fmap, lookup_seq_lt by done. done.
Qed.

(** The first [n] addresses of [D] received the bytes at those of [S]; nothing
    else changed. *)
Definition copied_to (D S : list Z) (n : nat) (m m' : memory) : Prop :=
  (forall i d s, (i < n)%nat -> D !! i = Some d -> S !! i = Some s -> byte_at m' d = byte_at m s) /\
  (forall a, a ∉ take n D -> m' !! a = m !! a).

Lemma copied_to_app D1 S1 D2 S2 n m m1 m' :
  length D1 = length S1 -> NoDup (D1 ++ D2) -> (D1 ++ D2) ## (S1 ++ S2) ->
  copied_to D1 S1 (length D1) m m1 -> copied_to D2 S2 n m1 m' ->
  copied_to (D1 ++ D2) (S1 ++ S2) (length D1 + n) m m'.
Proof.
  intros HL HN HD [A1 B1] [A2 B2]. apply NoDup_app in HN as (N1 & N12 & N2). split.
  - intros i d s Hi Hd Hs. destruct (decide (i < length D1)%nat) as [Hlt|Hge].
    + rewrite lookup_app_l in Hd by done. rewrite lookup_app_l in Hs by lia.
      rewrite <- (A1 i d s) by done. unfold byte_at. rewrite B2; [done|].
      intros Hin. apply (N12 d); [by eapply list_elem_of_lookup_2|].
      eapply subseteq_take; eauto.
    + rewrite lookup_app_r in Hd by lia. rewrite lookup_app_r in Hs by lia.
      rewrite <- HL in Hs. rewrite (A2 (i - length D1)%nat d s) by (done || lia). unfold byte_at. rewrite B1; [done|].
      intros Hin. rewrite firstn_all in Hin. apply (HD s).
      * apply elem_of_app; auto.
      * apply elem_of_app; right. by eapply list_elem_of_lookup_2.
  - intros a Ha. rewrite take_app_add in Ha. rewrite elem_of_app in Ha.
    rewrite B2 by tauto. apply B1. rewrite firstn_all. tauto.
Qed.

Lemma copied_to_store m d s (n : Z) : 0 <= n -> seqZ d n ## seqZ s n ->
  copied_to (seqZ d n) (seqZ s n) (length (seqZ d n)) m
    (if d =? s then m else store m d (load m s (Z.to_nat n))).
Proof.
  intros Hn HD. destruct (decide (n = 0)) as [->|Hnz].
  { split; [simpl; lia|]. intros a _. by destruct (d =? s). }
  destruct (Z.eqb_spec d s) as [->|Hne].
  { exfalso. apply (HD s); apply elem_of_seqZ; lia. }
  split.
  - intros i x y Hi Hx Hy. apply lookup_seqZ in Hx as [-> Hx]. apply lookup_seqZ in Hy as [-> Hy].
    unfold byte_at at 1. erewrite store_in; [|apply load_lookup; lia]. done.
  - intros a Ha. rewrite firstn_all in Ha. apply store_out. rewrite length_load.
    rewrite elem_of_seqZ in Ha. lia.
Qed.

Definition seg_addrs (bf : fuse_buf) : list Z := seqZ (bmem bf) (bsize bf).

(** The addresses from the position to the end. *)
Definition addrs (v : fuse_bufvec) : list Z :=
  if bool_decide (bidx v < bcount v)%nat
  then drop (Z.to_nat (boff v)) (concat (map seg_addrs (drop (bidx v) (bufs v)))) else [].

Definition all_memory (v : fuse_bufvec) : Prop :=
  Forall (fun bf => has (bflags bf) FUSE_BUF_IS_FD = false) (bufs v).

Lemma addrs_current v bf : vec_ok v -> fuse_bufvec_current v = Some bf ->
  addrs v = seqZ (bmem bf + boff v) (bsize bf - boff v)
            ++ concat (map seg_addrs (drop (S (bidx v)) (bufs v))).
Proof.
  intros Hv Hc. destruct (vec_current v bf Hv Hc) as (Hi & _ & Ho & _ & Hd & _).
  unfold addrs. rewrite bool_decide_true, Hd by done. cbn [map concat].
  assert (seg_addrs bf = seqZ (bmem bf) (boff v) ++ seqZ (bmem bf + boff v) (bsize bf - boff v)) as ->.
  { unfold seg_addrs. rewrite <- seqZ_app by lia. f_equal; lia. }
  rewrite <- app_assoc. rewrite drop_app_length' by (rewrite length_seqZ; lia). done.
Qed.

Lemma addrs_end v : vec_ok v -> remaining v = 0 -> addrs v = [].
Proof.
  intros Hv. unfold remaining, addrs. case_bool_decide as Hi; [|done]. intros Hr.
  apply drop_ge. destruct Hv as (_ & Hs & _ & _).
  assert (forall l, Forall (fun bf => 0 <= bsize bf < 2 ^ 63) l ->
    Z.of_nat (length (concat (map seg_addrs l))) = sum_sizes l) as L.
  { induction 1 as [|b l Hb _ IH]; [done|]. cbn [map concat sum_sizes foldr].
    rewrite length_app. unfold seg_addrs at 1. rewrite length_seqZ.
    unfold sum_sizes in IH. lia. }
  pose proof (L (drop (bidx v) (bufs v)) ltac:(by apply Forall_drop)). lia.
Qed.

Lemma advance_addrs v bf len more v' : vec_ok v -> fuse_bufvec_current v = Some bf ->
  0 <= len <= bsize bf - boff v -> fuse_bufvec_advance v len = Some (more, v') ->
  addrs v = seqZ (bmem bf + boff v) len ++ addrs v' /\ bufs v' = bufs v.
Proof.
  intros Hv Hc Hl Ha. pose proof (addrs_current v bf Hv Hc) as Ea.
  destruct (vec_current v bf Hv Hc) as (Hi & Hb & Ho & Hm & Hd & _).
  pose proof Hv as (Hn & _ & _ & _).
  revert Ha. unfold fuse_bufvec_advance. rewrite Hc, u64_id by lia.
  destruct (Z.leb_spec (boff v + len) (bsize bf)); cbn [negb]; [|done].
  replace (bsize bf - boff v) with (len + (bsize bf - boff v - len)) in Ea by lia.
  rewrite seqZ_app, <- app_assoc in Ea by lia. rewrite Ea.
  destruct (Z.eqb_spec (boff v + len) (bsize bf)) as [He|He].
  - assert (bsize bf - boff v - len = 0) as -> by lia. cbn [seqZ Z.to_nat seq fmap list_fmap app].
    case_bool_decide as Hlast; intros [= <- <-]; cbn [bufs]; split; try done; f_equal;
      unfold addrs; cbn [bidx bcount boff bufs].
    + rewrite bool_decide_false, drop_ge by lia. done.
    + rewrite bool_decide_true by lia. by rewrite drop_0.
  - intros [= <- <-]; cbn [bufs]; split; [|done]. f_equal.
    unfold addrs; cbn [bidx bcount boff bufs]. rewrite bool_decide_true, Hd by done.
    cbn [map concat].
    assert (seg_addrs bf = seqZ (bmem bf) (boff v + len)
      ++ seqZ (bmem bf + boff v + len) (bsize bf - boff v - len)) as ->.
    { unfold seg_addrs. rewrite <- (Z.add_assoc (bmem bf)), <- seqZ_app by lia. f_equal; lia. }
    rewrite <- app_assoc. by rewrite drop_app_length' by (rewrite length_seqZ; lia).
Qed.

Lemma all_memory_current v bf : all_memory v -> vec_ok v -> fuse_bufvec_current v = Some bf ->
  has (bflags bf) FUSE_BUF_IS_FD = false.
Proof.
  intros Hm Hv Hc. destruct (vec_current v bf Hv Hc) as (Hi & -> & _).
  destruct Hv as (Hn & _). unfold buf_at.
  destruct (lookup_lt_is_Some_2 (bufs v) (bidx v) ltac:(lia)) as [b2 Hb2]. rewrite Hb2.
  unfold all_memory in Hm. rewrite Forall_forall in Hm. apply Hm. by eapply list_elem_of_lookup_2.
Qed.

Section CopyMemory.
Context {OS : Type} `{FdOps OS}.

Lemma copy_one_memory dst doff src soff len fl (w : world OS) :
  has (bflags src) FUSE_BUF_IS_FD = false -> has (bflags dst) FUSE_BUF_IS_FD = false ->
  0 <= len < 2 ^ 63 ->
  fuse_buf_copy_one dst doff src soff len fl w =
    Some (len, World (os w) (if bmem dst + doff =? bmem src + soff then ram w
      else store (ram w) (bmem dst + doff) (load (ram w) (bmem src + soff) (Z.to_nat len))) (brk w)).
Proof.
  intros Hs Hd Hl. unfold fuse_buf_copy_one. rewrite Hs, Hd; cbn [negb andb].
  destruct (_ =? _); (erewrite bind_step by reflexivity); rewrite i64_id by lia; by destruct w.
Qed.

(** The loop copies the concatenation of the source segments to that of the
    destination segments. *)
Lemma copy_loop_memory fuel dv sv fl copied (w : world OS) :
  (segments_left dv + segments_left sv < fuel)%nat -> vec_ok dv -> vec_ok sv ->
  all_memory dv -> all_memory sv -> NoDup (addrs dv) -> addrs dv ## addrs sv ->
  0 <= copied -> copied + Z.min (remaining dv) (remaining sv) < 2 ^ 63 ->
  let n := Nat.min (length (addrs dv)) (length (addrs sv)) in
  exists dv' sv' w',
    copy_loop fuel dv sv fl copied w = Some ((copied + Z.of_nat n, dv', sv'), w') /\
    copied_to (addrs dv) (addrs sv) n (ram w) (ram w') /\ os w' = os w.
Proof.
  revert dv sv copied w.
  induction fuel as [|fuel IH]; intros dv sv copied w Hf Hdv Hsv Md Ms HN HD Hc Hb n; [lia|].
  pose proof (remaining_nonneg dv Hdv) as Rd. pose proof (remaining_nonneg sv Hsv) as Rs.
  assert (forall v, fuse_bufvec_current v = None -> addrs v = []) as Hnil.
  { intros v. unfold fuse_bufvec_current, addrs. by case_bool_decide. }
  cbn [copy_loop].
  destruct (fuse_bufvec_current sv) as [src|] eqn:Cs;
    [destruct (fuse_bufvec_current dv) as [dst|] eqn:Cd|].
  2,3: assert (n = 0)%nat as -> by (unfold n; rewrite (Hnil _ ltac:(eassumption)); simpl; lia);
    eexists _, _, _; (split; [rewrite i64_id by lia; rewrite Z.add_0_r; reflexivity|]);
    split; [|done]; split; [lia|done].
  pose proof (vec_current sv src Hsv Cs) as (_ & _ & Hso & Hss & _).
  pose proof (vec_current dv dst Hdv Cd) as (_ & _ & Hdo & Hds & _).
  rewrite min_size_spec, !u64_id by lia. set (len := Z.min _ _).
  erewrite bind_step by (apply copy_one_memory; [exact (all_memory_current sv src Ms Hsv Cs)
    |exact (all_memory_current dv dst Md Hdv Cd)|lia]).
  destruct (Z.ltb_spec len 0); [lia|].
  destruct (advance_spec sv src len Hsv Cs ltac:(lia)) as (ms & sv1 & Es & Hsv1 & Rs1 & Zs & Qs).
  destruct (advance_spec dv dst len Hdv Cd ltac:(lia)) as (md & dv1 & Ed & Hdv1 & Rd1 & Zd & Qd).
  pose proof (remaining_nonneg sv1 Hsv1). pose proof (remaining_nonneg dv1 Hdv1).
  destruct (advance_addrs sv src len ms sv1 Hsv Cs ltac:(lia) Es) as [As Bs].
  destruct (advance_addrs dv dst len md dv1 Hdv Cd ltac:(lia) Ed) as [Ad Bd].
  unfold n; clear n. rewrite As, Ad in *.
  set (D1 := seqZ (bmem dst + boff dv) len) in *. set (S1 := seqZ (bmem src + boff sv) len) in *.
  assert (length D1 = Z.to_nat len /\ length S1 = Z.to_nat len) as [LD LS].
  { unfold D1, S1. by rewrite !length_seqZ. }
  rewrite !length_app, LD, LS, Nat.add_min_distr_l.
  assert (D1 ## S1) as HD1 by (intros x Hx Hy; apply (HD x); apply elem_of_app; auto).
  assert (addrs dv1 ## addrs sv1) as HD2 by (intros x Hx Hy; apply (HD x); apply elem_of_app; auto).
  pose proof (copied_to_store (ram w) (bmem dst + boff dv) (bmem src + boff sv) len ltac:(lia) HD1)
    as C1. fold D1 S1 in C1.
  assert (i64 (u64 (copied + len)) = copied + len) as Er by (rewrite u64_id, i64_id; lia).
  assert (forall m, copied_to D1 S1 (length D1) (ram w) m ->
    copied_to (D1 ++ addrs dv1) (S1 ++ addrs sv1) (Z.to_nat len) (ram w) m) as Cend.
  { intros m Cm. rewrite <- LD, <- (Nat.add_0_r (length D1)).
    eapply copied_to_app; [lia|done|done|exact Cm|]. split; [lia|done]. }
  rewrite Es. destruct ms; [rewrite Ed; destruct md|].
  2,3: rewrite Er; assert (Nat.min (length (addrs dv1)) (length (addrs sv1)) = 0)%nat as ->
    by (rewrite ?(addrs_end dv1), ?(addrs_end sv1) by auto; simpl; lia);
    rewrite Nat.add_0_r; eexists _, _, _; (split; [rewrite Z2Nat.id by lia; reflexivity|]);
    split; [by apply Cend|done].
  rewrite Z.ltb_irrefl, u64_id by lia.
  edestruct (IH dv1 sv1 (copied + len)) as (dv' & sv' & w' & E & C2 & Ho);
    [do 2 case_bool_decide; lia|done|done|unfold all_memory; rewrite Bd; done
    |unfold all_memory; rewrite Bs; done|by apply NoDup_app in HN as (_ & _ & ?)|done|lia|lia|].
  eexists dv', sv', w'. split.
  { rewrite Nat2Z.inj_add, Z2Nat.id, Z.add_assoc by lia. exact E. }
  split; [|by rewrite Ho].
  rewrite <- LD. eapply copied_to_app; [lia|done|done|exact C1|exact C2].
Qed.
End CopyMemory.

(** ** Copies between regular files *)

(** Overwriting a file's bytes from a position on; a gap reads as zeros. *)
Definition patch (c : bytes) (p : nat) (bs : bytes) : bytes :=
  match bs with
  | [] => c
  | _ => take p (c ++ replicate p 0) ++ bs ++ drop (p + length bs) c
  end.

Lemma length_patch_take (c : bytes) p : length (take p (c ++ replicate p 0)) = p.
Proof. rewrite length_take, length_app, length_replicate. lia. Qed.

Lemma patch_ne c p bs : bs <> [] ->
  patch c p bs = take p (c ++ replicate p 0) ++ bs ++ drop (p + length bs) c.
Proof. by destruct bs. Qed.

Lemma patch_app c p b1 b2 : patch (patch c p b1) (p + length b1) b2 = patch c p (b1 ++ b2).
Proof.
  destruct (decide (b1 = [])) as [->|H1]; [simpl; by rewrite Nat.add_0_r|].
  destruct (decide (b2 = [])) as [->|H2]; [by rewrite app_nil_r|].
  rewrite (patch_ne _ _ b2), (patch_ne _ _ (b1 ++ b2)), (patch_ne _ _ b1)
    by (done || (intros E; apply app_eq_nil in E; tauto)).
  pose proof (length_patch_take c p) as LT. set (T := take p (c ++ replicate p 0)) in *.
  rewrite (app_assoc T b1), <- (app_assoc (T ++ b1) _ (replicate _ 0)).
  rewrite take_app_length' by (rewrite length_app; lia).
  rewrite <- !app_assoc. do 3 f_equal. rewrite app_assoc, drop_app_ge by (rewrite length_app; lia).
  rewrite drop_drop, !length_app. f_equal. lia.
Qed.

(** A system whose descriptors include regular files: reads return everything
    up to the end of the file, writes are complete. *)
Class FileLaws (OS : Type) `{FdOps OS} := {
  is_file : OS -> Z -> Prop;
  content : OS -> Z -> bytes;
  pread_file s fd len pos : is_file s fd -> 0 <= len -> 0 <= pos ->
    sys_pread fd len pos s = (s, inr (take (Z.to_nat len) (drop (Z.to_nat pos) (content s fd))));
  pwrite_file s fd bs pos : is_file s fd -> 0 <= pos ->
    exists s', sys_pwrite fd bs pos s = (s', inr (Z.of_nat (length bs))) /\
      (forall fd', is_file s fd' -> is_file s' fd') /\
      forall fd', content s' fd'
        = if bool_decide (fd' = fd) then patch (content s fd) (Z.to_nat pos) bs else content s fd' }.

Section Files.
Context {OS : Type} `{FileLaws OS}.

Lemma load_store m a bs : load (store m a bs) a (length bs) = bs.
Proof.
  apply list_eq. intros i. destruct (decide (i < length bs)%nat) as [Hi|Hi].
  - rewrite load_lookup by done. destruct (lookup_lt_is_Some_2 bs i Hi) as [y Hy].
    unfold byte_at. by rewrite (store_in _ _ _ _ _ Hy), Hy.
  - by rewrite !lookup_ge_None_2 by (rewrite ?length_load; lia).
Qed.

(** One read into the temporary buffer, and one write out of it. *)
Lemma read_file tmp src soff len (w : world OS) :
  is_file (os w) (bfd src) -> bflags src = Z.lor FUSE_BUF_IS_FD FUSE_BUF_FD_SEEK ->
  0 < len < 2 ^ 63 -> 0 <= bpos src + soff < 2 ^ 63 ->
  let data := take (Z.to_nat len) (drop (Z.to_nat (bpos src + soff)) (content (os w) (bfd src))) in
  fuse_buf_read tmp 0 src soff len w
  = Some (Z.of_nat (length data), World (os w) (store (ram w) (bmem tmp) data) (brk w)).
Proof.
  intros Hfile Hfl Hl Hp data. unfold fuse_buf_read. cbn [read_loop].
  destruct (Z.eqb_spec len 0); [lia|]. erewrite bind_step.
  2: { unfold read_once. rewrite Hfl.
       change (has (Z.lor FUSE_BUF_IS_FD FUSE_BUF_FD_SEEK) FUSE_BUF_FD_SEEK) with true.
       erewrite bind_step by
         (unfold do_sys; rewrite i64_id, pread_file by (done || lia); reflexivity).
       cbv beta iota. erewrite bind_step by reflexivity. reflexivity. }
  cbv beta iota. fold data. rewrite Z.add_0_r. cbn [os ram brk].
  destruct (Z.eqb_spec (Z.of_nat (length data)) 0) as [E|E].
  - rewrite E. done.
  - rewrite Hfl.
  change (has (Z.lor FUSE_BUF_IS_FD FUSE_BUF_FD_SEEK) FUSE_BUF_FD_RETRY) with false. cbn [negb]. rewrite i64_id; [done|].
    unfold data. rewrite length_take. lia.
Qed.

Lemma write_file tmp dst doff data (w : world OS) :
  is_file (os w) (bfd dst) -> bflags dst = Z.lor FUSE_BUF_IS_FD FUSE_BUF_FD_SEEK ->
  data <> [] -> Z.of_nat (length data) < 2 ^ 63 -> 0 <= bpos dst + doff < 2 ^ 63 ->
  load (ram w) (bmem tmp) (length data) = data ->
  exists s', fuse_buf_write dst doff tmp 0 (Z.of_nat (length data)) w
    = Some (Z.of_nat (length data), World s' (ram w) (brk w)) /\
    (forall fd, is_file (os w) fd -> is_file s' fd) /\
    forall fd, content s' fd = if bool_decide (fd = bfd dst)
      then patch (content (os w) (bfd dst)) (Z.to_nat (bpos dst + doff)) data
      else content (os w) fd.
Proof.
  intros Hfile Hfl Hne Hl Hp Hload.
  destruct (pwrite_file (os w) (bfd dst) data (bpos dst + doff) Hfile ltac:(lia)) as (s' & E & Hf & Hc).
  exists s'. split; [|done]. unfold fuse_buf_write. cbn [write_loop].
  assert (Z.of_nat (length data) <> 0) by (destruct data; simpl; [done|lia]).
  destruct (Z.eqb_spec (Z.of_nat (length data)) 0); [lia|]. erewrite bind_step.
  2: { unfold write_once. erewrite bind_step by reflexivity. rewrite Hfl.
       change (has (Z.lor FUSE_BUF_IS_FD FUSE_BUF_FD_SEEK) FUSE_BUF_FD_SEEK) with true.
       unfold do_sys. rewrite Z.add_0_r, Nat2Z.id, Hload, i64_id, E by lia. reflexivity. }
  cbv beta iota. destruct (Z.eqb_spec (Z.of_nat (length data)) 0); [lia|].
  rewrite Hfl.
  change (has (Z.lor FUSE_BUF_IS_FD FUSE_BUF_FD_SEEK) FUSE_BUF_FD_RETRY) with false. cbn [negb]. by rewrite i64_id by lia.
Qed.

Definition file_seg (s : OS) (bf : fuse_buf) : Prop :=
  is_file s (bfd bf) /\ bflags bf = Z.lor FUSE_BUF_IS_FD FUSE_BUF_FD_SEEK.

(** The bytes of the file behind [bf] from [off] on, [len] at most. *)
Definition file_slice (s : OS) (bf : fuse_buf) (off len : Z) : bytes :=
  take (Z.to_nat len) (drop (Z.to_nat (bpos bf + off)) (content s (bfd bf))).

Lemma file_slice_split s bf off l1 l2 : 0 <= l1 -> 0 <= l2 -> 0 <= bpos bf + off ->
  file_slice s bf off (l1 + l2) = file_slice s bf off l1 ++ file_slice s bf (off + l1) l2.
Proof.
  intros H1 H2 H3. unfold file_slice. rewrite Z2Nat.inj_add, Z.add_assoc by lia.
  rewrite (Z2Nat.inj_add (bpos bf + off)), <- drop_drop by lia.
  generalize (drop (Z.to_nat (bpos bf + off)) (content s (bfd bf))). intros l.
  rewrite <- (take_drop (Z.to_nat l1) l) at 1.
  destruct (decide (Z.to_nat l1 <= length l)%nat) as [Hl|Hl].
  - rewrite take_app_add' by (rewrite length_take; lia). done.
  - rewrite (drop_ge l) by lia. rewrite app_nil_r, take_nil, app_nil_r.
    rewrite !take_ge; rewrite ?take_ge; try lia. done.
Qed.

Definition patched (s s' : OS) (bf : fuse_buf) (off : Z) (data : bytes) : Prop :=
  content s' (bfd bf) = patch (content s (bfd bf)) (Z.to_nat (bpos bf + off)) data /\
  forall fd, fd <> bfd bf -> content s' fd = content s fd.

Lemma fd_to_fd_loop_files fuel tmp dst doff src soff len copied (w : world OS) :
  (Z.to_nat len < fuel)%nat -> 0 < bsize tmp < 2 ^ 63 ->
  file_seg (os w) dst -> file_seg (os w) src -> bfd dst <> bfd src ->
  0 <= len -> 0 <= copied -> copied + len < 2 ^ 63 ->
  0 <= bpos src + soff -> bpos src + soff + len < 2 ^ 63 ->
  0 <= bpos dst + doff -> bpos dst + doff + len < 2 ^ 63 ->
  let data := file_slice (os w) src soff len in
  exists s' m, fd_to_fd_loop fuel tmp dst doff src soff len copied w
    = Some (copied + Z.of_nat (length data), World s' m (brk w)) /\ patched (os w) s' dst doff data.
Proof.
  intros Hf Ht. revert doff soff len copied w Hf.
  induction fuel as [|fuel IH];
    intros doff soff len copied w Hf Hd Hs Hne Hl Hc Hcl Hsp Hsl Hdp Hdl data; [lia|].
  cbn [fd_to_fd_loop]. destruct (Z.eqb_spec len 0) as [->|Hz].
  { eexists (os w), (ram w). split; [rewrite i64_id by lia; simpl; rewrite Z.add_0_r; by destruct w|].
    split; [|done]. done. }
  rewrite min_size_spec. set (tl := Z.min (bsize tmp) len).
  pose proof (read_file tmp src soff tl w (proj1 Hs) (proj2 Hs) ltac:(lia) ltac:(lia)) as R.
  cbv zeta in R. fold (file_slice (os w) src soff tl) in R.
  assert (data = file_slice (os w) src soff tl ++ file_slice (os w) src (soff + tl) (len - tl)) as Ed.
  { unfold data. rewrite <- file_slice_split by lia. f_equal. lia. }
  set (d1 := file_slice (os w) src soff tl) in *.
  assert (Z.of_nat (length d1) <= tl) as Ld1 by (unfold d1, file_slice; rewrite length_take; lia).
  assert (Z.of_nat (length d1) < tl -> file_slice (os w) src (soff + tl) (len - tl) = []) as Hshort.
  { unfold d1, file_slice. rewrite length_take, length_drop. intros Hlt.
    rewrite drop_ge by lia. apply take_nil. }
  rewrite (bind_step _ _ _ _ _ R). destruct (Z.ltb_spec (Z.of_nat (length d1)) 0); [lia|].
  destruct (Z.eqb_spec (Z.of_nat (length d1)) 0) as [E0|E0].
  { assert (d1 = []) as E1 by (apply nil_length_inv; lia).
    rewrite Hshort, E1 in Ed by lia. rewrite Ed. eexists _, _.
    split; [rewrite i64_id by lia; simpl; rewrite Z.add_0_r; reflexivity|]. by split. }
  destruct (write_file tmp dst doff d1 (World (os w) (store (ram w) (bmem tmp) d1) (brk w)))
    as (s1 & Ew & Hfile & Hcont); try done; try lia; [apply Hd|apply Hd|by destruct d1|apply load_store|].
  rewrite (bind_step _ _ _ _ _ Ew). cbn [os ram brk] in *.
  destruct (Z.ltb_spec (Z.of_nat (length d1)) 0); [lia|].
  destruct (Z.eqb_spec (Z.of_nat (length d1)) 0); [lia|].
  assert (patched (os w) s1 dst doff d1) as P1.
  { split; [rewrite Hcont, bool_decide_true by done; done|].
    intros fd Hfd. by rewrite Hcont, bool_decide_false by done. }
  destruct (Z.ltb_spec (Z.of_nat (length d1)) tl) as [Hlt|Hge].
  { rewrite Hshort, app_nil_r in Ed by done. rewrite Ed. eexists _, _.
    split; [by rewrite i64_id by lia|done]. }
  assert (Z.of_nat (length d1) = tl) as Et by lia. rewrite Et.
  destruct (IH (doff + tl) (soff + tl) (len - tl) (copied + tl)
    (World s1 (store (ram w) (bmem tmp) d1) (brk w)))
    as (s2 & m2 & E2 & P2); cbn [os ram brk] in *; try lia;
    [split; [apply Hfile, Hd|apply Hd]|split; [apply Hfile, Hs|apply Hs]|].
  cbn [os ram brk] in *.
  assert (file_slice s1 src (soff + tl) (len - tl)
    = file_slice (os w) src (soff + tl) (len - tl)) as Esl.
  { unfold file_slice. rewrite (proj2 P1) by done. done. }
  rewrite Esl in *. exists s2, m2. split.
  - rewrite E2, Ed, length_app, Nat2Z.inj_add, Et, Z.add_assoc. done.
  - destruct P1 as [A1 B1], P2 as [A2 B2]. split.
    + rewrite A2, A1, Ed, <- patch_app. f_equal. lia.
    + intros fd Hfd. by rewrite B2, B1.
Qed.
End Files.

(** ** A file system of regular files *)

Abbreviation files := (gmap Z bytes).

#[export] Instance files_ops : FdOps files := {|
  sys_read fd len s := (s, inl EINVAL);
  sys_pread fd len pos s :=
    match s !! fd with
    | Some c => if pos <? 0 then (s, inl EINVAL)
                else (s, inr (take (Z.to_nat len) (drop (Z.to_nat pos) c)))
    | None => (s, inl EBADF)
    end;
  sys_write fd bs s := (s, inl EINVAL);
  sys_pwrite fd bs pos s :=
    match s !! fd with
    | Some c => if pos <? 0 then (s, inl EINVAL)
                else (<[fd := patch c (Z.to_nat pos) bs]> s, inr (Z.of_nat (length bs)))
    | None => (s, inl EBADF)
    end;
  sys_splice i pi o po len fl s := (s, inl EINVAL) |}.

#[export] Instance files_fd_laws : FdLaws files.
Proof.
  split; cbn; intros; simplify_eq; try done;
    repeat (case_match; simplify_eq; try lia; try done).
  rewrite length_take. lia.
Qed.

#[export] Program Instance files_file_laws : FileLaws files := {|
  is_file (s : files) fd := is_Some (s !! fd);
  content (s : files) fd := default [] (s !! fd) |}.
Next Obligation.
  intros s fd len pos [c Hc] Hl Hp. cbn. rewrite Hc. destruct (Z.ltb_spec pos 0); [lia|done].
Qed.
Next Obligation.
  intros s fd bs pos [c Hc] Hp. cbn. rewrite Hc. destruct (Z.ltb_spec pos 0); [lia|].
  eexists; split; [reflexivity|]. split.
  - intros fd' Hfd. rewrite lookup_insert. case_decide; eauto.
  - intros fd'. rewrite lookup_insert. case_decide as E; case_bool_decide; simplify_eq; done.
Qed.

(** ** Vectors of one segment *)

Definition one_buf (bf : fuse_buf) : fuse_bufvec := FuseBufvec 1 0 0 [bf].

Lemma advance_one bf r : 0 <= r <= bsize bf -> bsize bf < 2 ^ 63 ->
  exists v, fuse_bufvec_advance (one_buf bf) r = Some (negb (r =? bsize bf), v).
Proof.
  intros Hr Hs. unfold fuse_bufvec_advance.
  change (fuse_bufvec_current (one_buf bf)) with (Some bf). cbn [boff one_buf].
  rewrite u64_id by lia. rewrite Z.add_0_l. destruct (Z.leb_spec r (bsize bf)); cbn [negb]; [|lia].
  destruct (r =? bsize bf); by eexists.
Qed.

(** A vector of one segment is copied in one round. *)
Lemma copy_loop_one {OS} `{FdOps OS} fuel dst src fl (w w1 : world OS) r :
  0 <= bsize src < 2 ^ 63 -> 0 <= bsize dst < 2 ^ 63 ->
  let len := Z.min (bsize src) (bsize dst) in
  fuse_buf_copy_one dst 0 src 0 len fl w = Some (r, w1) -> 0 <= r <= len ->
  exists dv sv, copy_loop (S fuel) (one_buf dst) (one_buf src) fl 0 w = Some ((r, dv, sv), w1).
Proof.
  intros Hs Hd len E Hr. cbn [copy_loop].
  change (fuse_bufvec_current (one_buf src)) with (Some src).
  change (fuse_bufvec_current (one_buf dst)) with (Some dst).
  cbv beta iota zeta. cbn [boff one_buf]. rewrite !Z.sub_0_r, !u64_id, min_size_spec by lia.
  fold len. rewrite (bind_step _ _ _ _ _ E). destruct (Z.ltb_spec r 0); [lia|].
  change (FuseBufvec 1 0 0 [src]) with (one_buf src).
  change (FuseBufvec 1 0 0 [dst]) with (one_buf dst).
  assert (i64 (u64 (0 + r)) = r) as Er by (rewrite u64_id, i64_id; lia).
  destruct (advance_one src r ltac:(lia) ltac:(lia)) as [sv ->].
  destruct (advance_one dst r ltac:(lia) ltac:(lia)) as [dv Ed].
  destruct (Z.eqb_spec r (bsize src)); cbn [negb]; [rewrite Er; by eexists _, _|].
  rewrite Ed. destruct (Z.eqb_spec r (bsize dst)); cbn [negb]; [rewrite Er; by eexists _, _|].
  destruct (Z.ltb_spec r len); [rewrite Er; by eexists _, _|lia].
Qed.

(** ** Properties *)

(** [fuse_buf_copy] terminates without a failed assertion on well-formed
    vectors, whatever a lawful system answers, and returns an error or a count
    that does not exceed what is left in either vector. *)
Theorem fuse_buf_copy_total {OS} `{FdLaws OS} dv sv fl (w : world OS) :
  vec_ok dv -> vec_ok sv -> Z.min (remaining dv) (remaining sv) < 2 ^ 63 ->
  exists r dv' sv' w', fuse_buf_copy false dv sv fl w = Some ((r, dv', sv'), w') /\
    (r < 0 \/ 0 <= r <= Z.min (remaining dv) (remaining sv)).
Proof.
  intros Hd Hs Hb. destruct (copy_loop_total (S (bcount dv + bcount sv)) dv sv fl 0 w)
    as (r & dv' & sv' & w' & E & Hr); try done; [unfold segments_left; lia|].
  exists r, dv', sv', w'. split; [done|lia].
Qed.

(** C36: between vectors of memory segments [fuse_buf_copy] is one linear copy:
    as many bytes as the shorter vector has left arrive, in order, at the
    addresses of the destination, and no other byte and no part of the system
    changes.  The destination segments do not overlap each other or the source. *)
Theorem fuse_buf_copy_memory {OS} `{FdOps OS} dv sv fl (w : world OS) :
  vec_ok dv -> vec_ok sv -> all_memory dv -> all_memory sv ->
  NoDup (addrs dv) -> addrs dv ## addrs sv -> Z.min (remaining dv) (remaining sv) < 2 ^ 63 ->
  let n := Nat.min (length (addrs dv)) (length (addrs sv)) in
  exists dv' sv' w', fuse_buf_copy false dv sv fl w = Some ((Z.of_nat n, dv', sv'), w') /\
    copied_to (addrs dv) (addrs sv) n (ram w) (ram w') /\ os w' = os w.
Proof.
  intros Hd Hs Md Ms HN HD Hb n.
  apply (copy_loop_memory (S (bcount dv + bcount sv)) dv sv fl 0 w); try done.
  unfold segments_left; lia.
Qed.

(** copying from one regular file to another without splice goes through
    the 131072-byte buffer in pieces, and has the effect of a single write of
    the requested slice of the source at the destination's position; the count
    is short exactly when the source file ends. *)
Theorem fuse_buf_copy_files {OS} `{FileLaws OS} dst src fl (w : world OS) :
  file_seg (os w) dst -> file_seg (os w) src -> bfd dst <> bfd src ->
  has fl FUSE_BUF_NO_SPLICE = true ->
  0 <= bsize src < 2 ^ 63 -> 0 <= bsize dst < 2 ^ 63 -> 0 <= bpos src -> 0 <= bpos dst ->
  bpos src + bsize src < 2 ^ 63 -> bpos dst + bsize dst < 2 ^ 63 ->
  let data := file_slice (os w) src 0 (Z.min (bsize src) (bsize dst)) in
  exists dv sv s' m, fuse_buf_copy false (one_buf dst) (one_buf src) fl w
    = Some ((Z.of_nat (length data), dv, sv), World s' m (brk w)) /\ patched (os w) s' dst 0 data.
Proof.
  intros Hd Hs Hne Hfl Hss Hds Hsp Hdp Hse Hde data. set (len := Z.min _ _) in *.
  destruct (fd_to_fd_loop_files (S (Z.to_nat len)) (FuseBuf TMP_SIZE 0 (brk w) 0 0) dst 0 src 0 len 0
    (World (os w) (ram w) (brk w + TMP_SIZE))) as (s' & m & E & P); cbn [os ram brk bsize] in *;
    try done; try lia.
  destruct (copy_loop_one 2 dst src fl w (World s' m (brk w)) (Z.of_nat (length data)))
    as (dv & sv & E'); try done.
  - unfold fuse_buf_copy_one. rewrite (proj2 Hs), (proj2 Hd), Hfl.
    change (has (Z.lor _ _) FUSE_BUF_IS_FD) with true. cbn [negb andb].
    unfold fuse_buf_fd_to_fd. do 2 (erewrite bind_step by reflexivity).
    rewrite (bind_step _ _ _ _ _ E). by erewrite bind_step by reflexivity.
  - unfold data, file_slice. rewrite length_take. lia.
  - by exists dv, sv, s', m.
Qed.

Definition seek_fd (fd sz pos : Z) : fuse_buf :=
  FuseBuf sz (Z.lor FUSE_BUF_IS_FD FUSE_BUF_FD_SEEK) 0 fd pos.

Definition mem_buf (a sz : Z) : fuse_buf := FuseBuf sz 0 a (-1) 0.

Definition example_world : world files :=
  World {[ 3 := lit "hello, world"; 4 := lit "........" ]}
    (store (store ∅ 100 (lit "abc")) 200 (lit "defgh")) 4096.

Lemma fuse_buf_copy_total_witness :
  exists r dv' sv' w', fuse_buf_copy false (one_buf (seek_fd 4 7 2)) (one_buf (seek_fd 9 7 0)) 0
      example_world = Some ((r, dv', sv'), w') /\ (r < 0 \/ 0 <= r <= 7).
Proof.
  apply (fuse_buf_copy_total (one_buf (seek_fd 4 7 2)) (one_buf (seek_fd 9 7 0)) 0 example_world);
    [| |reflexivity]; (split; [reflexivity|]);
    (split; [repeat constructor; discriminate|]); split; cbn; [lia|lia|lia|lia].
Defined.

(** Three segments into two, across the boundaries. *)
Definition gather_src : fuse_bufvec := FuseBufvec 2 0 1 [mem_buf 100 3; mem_buf 200 5].
Definition gather_dst : fuse_bufvec := FuseBufvec 3 0 0 [mem_buf 300 1; mem_buf 310 0; mem_buf 320 9].

Lemma fuse_buf_copy_memory_witness :
  exists dv' sv' w', fuse_buf_copy false gather_dst gather_src 0 example_world
      = Some ((7, dv', sv'), w') /\
    copied_to (addrs gather_dst) (addrs gather_src) 7 (ram example_world) (ram w') /\
    os w' = os example_world.
Proof.
  apply (fuse_buf_copy_memory gather_dst gather_src 0 example_world).
  - split; [reflexivity|]. split; [repeat constructor; discriminate|]. split; cbn; lia.
  - split; [reflexivity|]. split; [repeat constructor; discriminate|]. split; cbn; lia.
  - repeat constructor.
  - repeat constructor.
  - refine (bool_decide_eq_true_1 _ _). vm_compute. reflexivity.
  - intros x Hx Hy. revert x Hy Hx.
    apply (Forall_forall (fun x => x ∉ addrs gather_dst)).
    refine (bool_decide_eq_true_1 _ _). vm_compute. reflexivity.
  - reflexivity.
Defined.

Lemma fuse_buf_copy_files_witness :
  exists dv sv s' m, fuse_buf_copy false (one_buf (seek_fd 4 6 2)) (one_buf (seek_fd 3 100 7))
      FUSE_BUF_NO_SPLICE example_world = Some ((5, dv, sv), World s' m 4096) /\
    patched (os example_world) s' (seek_fd 4 6 2) 0 (lit "world").
Proof.
  destruct (fuse_buf_copy_files (seek_fd 4 6 2) (seek_fd 3 100 7) FUSE_BUF_NO_SPLICE example_world)
    as (dv & sv & s' & m & E & P);
    [split; [by eexists|reflexivity]|split; [by eexists|reflexivity]|discriminate|reflexivity
    |cbn; lia..|].
  assert (file_slice (os example_world) (seek_fd 3 100 7) 0
    (Z.min (bsize (seek_fd 3 100 7)) (bsize (seek_fd 4 6 2))) = lit "world") as Es
    by (vm_compute; reflexivity).
  rewrite Es in E, P. exists dv, sv, s', m. split; [exact E|exact P].
Defined.
