(* ===== verification/LowLevel.v ===== *)
(** * Sessions, requests and replies: libfuse/lib/fuse_lowlevel.c

    A session keeps the requests that are being worked on in one intrusive
    list, interrupts that arrived before their request in a second, and
    outstanding retrieve notifications in a third ([DList]).  A request is an
    object in a heap; replying to it frees it, and touching a freed request is
    the abort of the state monad.  Every message written to the device is
    appended to [sent], whatever the write returns.

    [OS] is the system ([FdOps] of [Buf] and [DevOps] here), [U] the state of
    the file system that the library serves. *)

From S2P Require Import Prelude DList Wire Buf.

(** ** The device and pipes *)

Class DevOps (OS : Type) := {
  sys_writev : Z -> bytes -> OS -> OS * (Z + Z);
  (* the pipe refers to the caller's pages; they are read when it is emptied *)
  sys_vmsplice : Z -> list (Z * Z) -> Z -> OS -> OS * (Z + Z);
  sys_splice_pipe : Z -> Z -> Z -> Z -> memory -> OS -> OS * (Z + Z);
  sys_setpipe_sz : Z -> Z -> OS -> OS * (Z + Z);
  sys_pipe2 : Z -> OS -> OS * (Z + Z * Z);
  sys_open : bytes -> Z -> OS -> OS * (Z + Z);
  sys_close : Z -> OS -> OS * (Z + unit) }.

(** ** Data *)

Record fuse_conn_info := ConnInfo {
  proto_major : Z; proto_minor : Z; max_write : Z; max_read : Z; max_readahead : Z;
  capable : Z; want : Z; max_background : Z; congestion_threshold : Z; time_gran : Z }.

Record fuse_ll_pipe := LlPipe { p_size : Z; p_can_grow : bool; p_rd : Z; p_wr : Z }.

(** [mo_max_read] is [get_max_read(se->mo)]; [cuse_data] is NULL. *)
Record fuse_session := Session {
  exited : bool; se_fd : Z; mo_max_read : Z; deny_others : bool; got_init : bool;
  owner : Z; conn : fuse_conn_info; got_destroy : bool;
  pipe : option fuse_ll_pipe; broken_splice_nonblock : bool; notify_ctr : Z;
  bufsize : Z; error : Z; pagesize : Z }.

Record fuse_ctx := ReqCtx { uid : Z; gid : Z; pid : Z; umask : Z }.

(** The union of a request: the target of an interrupt, or the interrupt
    callback of an ordinary request. *)
Inductive req_union :=
  | U_i (unique : Z)
  | U_ni (func : option Z) (data : Z).

Record fuse_req := Req {
  unique : Z; ctr : Z; ctx : fuse_ctx; ch : option Z; interrupted : bool;
  ioctl_64bit : bool; u : req_union }.

Record fuse_chan := Chan { ch_ctr : Z; ch_fd : Z }.

Record fuse_notify_req := NotifyReq { n_unique : Z; n_cookie : Z }.

(** The addresses of the three list heads inside the session. *)
Definition LIST : Z := -1.
Definition INTERRUPTS : Z := -2.
Definition NOTIFY_LIST : Z := -3.

Record LL (OS U : Type) := MkLL {
  se : fuse_session;
  reqs : gmap Z fuse_req;
  nreqs : gmap Z fuse_notify_req;
  lks : links;
  chans : gmap Z fuse_chan;
  fresh : Z;
  heap : list bool;
  mach : world OS;
  sent : list (Z * bytes);
  user : U }.
Arguments MkLL {OS U}.
Arguments se {OS U}.
Arguments reqs {OS U}.
Arguments nreqs {OS U}.
Arguments lks {OS U}.
Arguments chans {OS U}.
Arguments fresh {OS U}.
Arguments heap {OS U}.
Arguments mach {OS U}.
Arguments sent {OS U}.
Arguments user {OS U}.

(** *** Field updates *)

Definition with_conn (c : fuse_conn_info) (s : fuse_session) : fuse_session :=
  Session (exited s) (se_fd s) (mo_max_read s) (deny_others s) (got_init s) (owner s) c
    (got_destroy s) (pipe s) (broken_splice_nonblock s) (notify_ctr s) (bufsize s) (error s) (pagesize s).

Definition with_pipe (p : option fuse_ll_pipe) (s : fuse_session) : fuse_session :=
  Session (exited s) (se_fd s) (mo_max_read s) (deny_others s) (got_init s) (owner s) (conn s)
    (got_destroy s) p (broken_splice_nonblock s) (notify_ctr s) (bufsize s) (error s) (pagesize s).

Definition with_broken_splice (b : bool) (s : fuse_session) : fuse_session :=
  Session (exited s) (se_fd s) (mo_max_read s) (deny_others s) (got_init s) (owner s) (conn s)
    (got_destroy s) (pipe s) b (notify_ctr s) (bufsize s) (error s) (pagesize s).

Definition with_notify_ctr (n : Z) (s : fuse_session) : fuse_session :=
  Session (exited s) (se_fd s) (mo_max_read s) (deny_others s) (got_init s) (owner s) (conn s)
    (got_destroy s) (pipe s) (broken_splice_nonblock s) n (bufsize s) (error s) (pagesize s).

Definition with_got_init (b : bool) (s : fuse_session) : fuse_session :=
  Session (exited s) (se_fd s) (mo_max_read s) (deny_others s) b (owner s) (conn s)
    (got_destroy s) (pipe s) (broken_splice_nonblock s) (notify_ctr s) (bufsize s) (error s) (pagesize s).

Definition with_got_destroy (b : bool) (s : fuse_session) : fuse_session :=
  Session (exited s) (se_fd s) (mo_max_read s) (deny_others s) (got_init s) (owner s) (conn s)
    b (pipe s) (broken_splice_nonblock s) (notify_ctr s) (bufsize s) (error s) (pagesize s).

Definition with_bufsize (n : Z) (s : fuse_session) : fuse_session :=
  Session (exited s) (se_fd s) (mo_max_read s) (deny_others s) (got_init s) (owner s) (conn s)
    (got_destroy s) (pipe s) (broken_splice_nonblock s) (notify_ctr s) n (error s) (pagesize s).

Definition with_exited (b : bool) (s : fuse_session) : fuse_session :=
  Session b (se_fd s) (mo_max_read s) (deny_others s) (got_init s) (owner s) (conn s)
    (got_destroy s) (pipe s) (broken_splice_nonblock s) (notify_ctr s) (bufsize s) (error s) (pagesize s).

Definition with_error (n : Z) (s : fuse_session) : fuse_session :=
  Session (exited s) (se_fd s) (mo_max_read s) (deny_others s) (got_init s) (owner s) (conn s)
    (got_destroy s) (pipe s) (broken_splice_nonblock s) (notify_ctr s) (bufsize s) n (pagesize s).

Section LowLevel.
Context {OS U : Type} `{FdOps OS} `{DevOps OS}.

Abbreviation M := (ST (LL OS U)).

Definition set_se (f : fuse_session -> fuse_session) : M unit := modify (fun s =>
  MkLL (f (se s)) (reqs s) (nreqs s) (lks s) (chans s) (fresh s) (heap s) (mach s) (sent s) (user s)).

Definition set_reqs (f : gmap Z fuse_req -> gmap Z fuse_req) : M unit := modify (fun s =>
  MkLL (se s) (f (reqs s)) (nreqs s) (lks s) (chans s) (fresh s) (heap s) (mach s) (sent s) (user s)).

Definition set_nreqs (f : gmap Z fuse_notify_req -> gmap Z fuse_notify_req) : M unit := modify (fun s =>
  MkLL (se s) (reqs s) (f (nreqs s)) (lks s) (chans s) (fresh s) (heap s) (mach s) (sent s) (user s)).

Definition set_links (m : links) : M unit := modify (fun s =>
  MkLL (se s) (reqs s) (nreqs s) m (chans s) (fresh s) (heap s) (mach s) (sent s) (user s)).

Definition set_chans (f : gmap Z fuse_chan -> gmap Z fuse_chan) : M unit := modify (fun s =>
  MkLL (se s) (reqs s) (nreqs s) (lks s) (f (chans s)) (fresh s) (heap s) (mach s) (sent s) (user s)).

Definition set_mach (w : world OS) : M unit := modify (fun s =>
  MkLL (se s) (reqs s) (nreqs s) (lks s) (chans s) (fresh s) (heap s) w (sent s) (user s)).

Definition log_sent (fd : Z) (msg : bytes) : M unit := modify (fun s =>
  MkLL (se s) (reqs s) (nreqs s) (lks s) (chans s) (fresh s) (heap s) (mach s)
    (sent s ++ [(fd, msg)]) (user s)).

Definition set_user (f : U -> U) : M unit := modify (fun s =>
  MkLL (se s) (reqs s) (nreqs s) (lks s) (chans s) (fresh s) (heap s) (mach s) (sent s) (f (user s))).

(** A new address. *)
Definition new_ptr : M Z := fun s =>
  Some (fresh s, MkLL (se s) (reqs s) (nreqs s) (lks s) (chans s) (fresh s + 1) (heap s) (mach s)
                   (sent s) (user s)).

(** The outcome of the next allocation; an exhausted list succeeds. *)
Definition malloc : M bool := fun s =>
  match heap s with
  | [] => Some (true, s)
  | r :: h => Some (r, MkLL (se s) (reqs s) (nreqs s) (lks s) (chans s) (fresh s) h (mach s)
                         (sent s) (user s))
  end.

(** Run code of [Buf], and a single system call. *)
Definition lift_w {A} (m : ST (world OS) A) : M A := fun s =>
  match m (mach s) with
  | Some (a, w) => Some (a, MkLL (se s) (reqs s) (nreqs s) (lks s) (chans s) (fresh s) (heap s) w
                              (sent s) (user s))
  | None => None
  end.

Definition sys {A} (f : OS -> OS * A) : M A := lift_w (do_sys f).

Definition of_option {A} (o : option A) : M A :=
  match o with Some a => mret a | None => abort end.

Definition get_req (req : Z) : M fuse_req := s ← get; of_option (reqs s !! req).

Definition put_req (req : Z) (q : fuse_req) : M unit := set_reqs (fun m => <[req := q]> m).

Definition on_links (f : links -> option links) : M unit :=
  s ← get; m ← of_option (f (lks s)); set_links m.

(** ** Channels: libfuse/lib/fuse_loop_mt.c *)

Definition fuse_chan_get (c : Z) : M Z :=
  s ← get; k ← of_option (chans s !! c);
  _ ← check (0 <? ch_ctr k);
  _ ← set_chans (fun m => <[c := Chan (ch_ctr k + 1) (ch_fd k)]> m);
  mret c.

Definition fuse_chan_put (c : option Z) : M unit :=
  match c with
  | None => mret tt
  | Some c =>
      s ← get; k ← of_option (chans s !! c);
      if ch_ctr k - 1 =? 0 then
        _ ← sys (sys_close (ch_fd k));
        set_chans (delete c)
      else set_chans (fun m => <[c := Chan (ch_ctr k - 1) (ch_fd k)]> m)
  end.

(** ** Requests *)

Definition destroy_req (req : Z) : M unit :=
  _ ← get_req req;
  _ ← set_reqs (delete req);
  s ← get; set_links (delete req (lks s)).

Definition fuse_free_req (req : Z) : M unit :=
  q ← get_req req;
  _ ← on_links (list_del req);
  _ ← fuse_chan_put (ch q);
  _ ← put_req req (Req (unique q) (ctr q - 1) (ctx q) None (interrupted q) (ioctl_64bit q) (U_ni None 0));
  if ctr q - 1 =? 0 then destroy_req req else mret tt.

Definition fuse_ll_alloc_req : M (option Z) :=
  ok ← malloc;
  if negb ok then mret None else
  p ← new_ptr;
  _ ← put_req p (Req 0 1 (ReqCtx 0 0 0 0) None false false (U_ni None 0));
  _ ← on_links (fun m => Some (list_init p m));
  mret (Some p).

(** ** Sending *)

Definition iov_length (iov : list bytes) : Z :=
  fold_left (fun ret s => u64 (ret + Z.of_nat (length s))) iov 0.

Definition out_header (len err uniq : Z) : bytes := le 4 len ++ le 4 err ++ le 8 uniq.

(** [iov[0]] is the header, whose length field is filled in here. *)
Definition fuse_send_msg (c : option Z) (err uniq : Z) (iov : list bytes) : M Z :=
  s ← get;
  let len := u32 (iov_length (out_header 0 err uniq :: iov)) in
  fd ← match c with
       | Some c => k ← of_option (chans s !! c); mret (ch_fd k)
       | None => mret (se_fd (se s))
       end;
  let msg := mjoin (out_header len err uniq :: iov) in
  _ ← log_sent fd msg;
  res ← sys (sys_writev fd msg);
  match res with
  | inl e => mret (- e)
  | inr _ => mret 0
  end.

Definition fuse_send_reply_iov_nofree (req : Z) (err : Z) (iov : list bytes) : M Z :=
  q ← get_req req;
  let err := if (err <=? -1000) || (0 <? err) then - ERANGE else err in
  fuse_send_msg (ch q) err (unique q) iov.

Definition send_reply_iov (req : Z) (err : Z) (iov : list bytes) : M Z :=
  res ← fuse_send_reply_iov_nofree req err iov;
  _ ← fuse_free_req req;
  mret res.

Definition send_reply (req : Z) (err : Z) (arg : bytes) : M Z :=
  send_reply_iov req err (if bool_decide (arg = []) then [] else [arg]).

Definition send_reply_ok (req : Z) (arg : bytes) : M Z := send_reply req 0 arg.

Definition fuse_reply_err (req : Z) (err : Z) : M Z := send_reply req (- err) [].

Definition fuse_reply_none (req : Z) : M unit := fuse_free_req req.

Definition fuse_reply_iov (req : Z) (iov : list bytes) : M Z :=
  ok ← malloc;
  if negb ok then fuse_reply_err req ENOMEM else send_reply_iov req 0 iov.

(** ** Replies *)

(** [req->se->conn] *)
Definition req_conn (req : Z) : M fuse_conn_info :=
  _ ← get_req req; s ← get; mret (conn (se s)).

Definition FUSE_COMPAT_ENTRY_OUT_SIZE : nat := 120.
Definition FUSE_COMPAT_ATTR_OUT_SIZE : nat := 96.
Definition FUSE_COMPAT_STATFS_SIZE : nat := 48.

Definition fuse_reply_entry (req : Z) (e : fuse_entry_param) : M Z :=
  c ← req_conn req;
  let size := if proto_minor c <? 9 then FUSE_COMPAT_ENTRY_OUT_SIZE else 128%nat in
  if (e_ino e =? 0) && (proto_minor c <? 4) then fuse_reply_err req ENOENT else
  send_reply_ok req (take size (enc_fuse_entry_out (fill_entry e))).

(** The open part is written at [buf + entrysize], over the end of the entry. *)
Definition fuse_reply_create (req : Z) (e : fuse_entry_param) (f : fuse_file_info) : M Z :=
  c ← req_conn req;
  let entrysize := if proto_minor c <? 9 then FUSE_COMPAT_ENTRY_OUT_SIZE else 128%nat in
  send_reply_ok req (take entrysize (enc_fuse_entry_out (fill_entry e)) ++
                     enc_fuse_open_out (fill_open f)).

Definition fuse_reply_attr (req : Z) (attr : stat) (attr_timeout : double) : M Z :=
  c ← req_conn req;
  let size := if proto_minor c <? 9 then FUSE_COMPAT_ATTR_OUT_SIZE else 104%nat in
  send_reply_ok req (take size
    (le 8 (calc_timeout_sec attr_timeout) ++ le 4 (calc_timeout_nsec attr_timeout) ++ le 4 0 ++
     enc_fuse_attr (convert_stat attr))).

Definition fuse_reply_readlink (req : Z) (linkname : bytes) : M Z := send_reply_ok req linkname.

Definition fuse_reply_open (req : Z) (f : fuse_file_info) : M Z :=
  send_reply_ok req (enc_fuse_open_out (fill_open f)).

Definition fuse_reply_write (req : Z) (count : Z) : M Z := send_reply_ok req (le 4 count ++ le 4 0).

Definition fuse_reply_buf (req : Z) (buf : bytes) : M Z := send_reply_ok req buf.

Definition fuse_reply_statfs (req : Z) (stbuf : statvfs) : M Z :=
  c ← req_conn req;
  let size := if proto_minor c <? 4 then FUSE_COMPAT_STATFS_SIZE else 80%nat in
  send_reply_ok req (take size (convert_statfs stbuf)).

Definition fuse_reply_xattr (req : Z) (count : Z) : M Z := send_reply_ok req (le 4 count ++ le 4 0).

Definition fuse_reply_lock (req : Z) (lock : flock) : M Z :=
  send_reply_ok req (enc_fuse_file_lock (lock_out lock)).

Definition fuse_reply_bmap (req : Z) (idx : Z) : M Z := send_reply_ok req (le 8 idx).

(** An address and a length; [struct iovec] and [struct fuse_ioctl_iovec] have
    the same layout on a 64-bit machine. *)
Definition enc_iovec (v : Z * Z) : bytes := le 8 v.1 ++ le 8 v.2.

(** [None] is a failed allocation. *)
Definition fuse_ioctl_iovec_copy (iov : list (Z * Z)) : M (option bytes) :=
  ok ← malloc; mret (if negb ok then None else Some (mjoin (enc_iovec <$> iov))).

Definition FUSE_IOCTL_RETRY : Z := 4.

Definition enc_ioctl_out (result flags in_iovs out_iovs : Z) : bytes :=
  le 4 result ++ le 4 flags ++ le 4 in_iovs ++ le 4 out_iovs.

(** An empty vector is not put on the wire. *)
Definition nonempty_seg {A} (l : list A) (b : bytes) : list bytes :=
  match l with [] => [] | _ => [b] end.

Definition fuse_reply_ioctl_retry (req : Z) (in_iov out_iov : list (Z * Z)) : M Z :=
  c ← req_conn req;
  let arg := enc_ioctl_out 0 FUSE_IOCTL_RETRY (Z.of_nat (length in_iov)) (Z.of_nat (length out_iov)) in
  if proto_minor c <? 16 then
    send_reply_iov req 0 (arg :: nonempty_seg in_iov (mjoin (enc_iovec <$> in_iov)) ++
                                 nonempty_seg out_iov (mjoin (enc_iovec <$> out_iov)))
  else
    in_fiov ← match in_iov with [] => mret (Some []) | _ => fuse_ioctl_iovec_copy in_iov end;
    match in_fiov with
    | None => fuse_reply_err req ENOMEM
    | Some in_fiov =>
        out_fiov ← match out_iov with [] => mret (Some []) | _ => fuse_ioctl_iovec_copy out_iov end;
        match out_fiov with
        | None => fuse_reply_err req ENOMEM
        | Some out_fiov =>
            send_reply_iov req 0 (arg :: nonempty_seg in_iov in_fiov ++ nonempty_seg out_iov out_fiov)
        end
    end.

Definition fuse_reply_ioctl (req : Z) (result : Z) (buf : bytes) : M Z :=
  send_reply_iov req 0 (enc_ioctl_out result 0 0 0 :: nonempty_seg buf buf).

Definition fuse_reply_ioctl_iov (req : Z) (result : Z) (iov : list bytes) : M Z :=
  ok ← malloc;
  if negb ok then fuse_reply_err req ENOMEM else
  send_reply_iov req 0 (enc_ioctl_out result 0 0 0 :: iov).

Definition fuse_reply_poll (req : Z) (revents : Z) : M Z := send_reply_ok req (le 4 revents ++ le 4 0).

Definition fuse_reply_lseek (req : Z) (off : Z) : M Z := send_reply_ok req (le 8 off).

(** ** Data through pipes *)

Definition FUSE_CAP_SPLICE_WRITE : Z := 2 ^ 7.
Definition FUSE_CAP_SPLICE_MOVE : Z := 2 ^ 8.
Definition FUSE_CAP_SPLICE_READ : Z := 2 ^ 9.
Definition O_CLOEXEC_NONBLOCK : Z := Z.lor 524288 2048.

(** Memory from the allocator, given back in reverse order. *)
Definition brk_alloc (len : Z) : M Z :=
  s ← get; let w := mach s in
  _ ← set_mach (World (os w) (ram w) (brk w + len)); mret (brk w).

Definition brk_free (p : Z) : M unit :=
  s ← get; let w := mach s in set_mach (World (os w) (ram w) p).

Definition load_mem (addr len : Z) : M bytes :=
  s ← get; mret (load (ram (mach s)) addr (Z.to_nat len)).

Definition fuse_ll_pipe_free (llp : fuse_ll_pipe) : M unit :=
  _ ← sys (sys_close (p_rd llp)); _ ← sys (sys_close (p_wr llp)); mret tt.

Definition fuse_pipe : M (Z + Z * Z) := sys (sys_pipe2 O_CLOEXEC_NONBLOCK).

Definition fuse_ll_get_pipe : M (option fuse_ll_pipe) :=
  s ← get;
  match pipe (se s) with
  | Some llp => mret (Some llp)
  | None =>
      ok ← malloc;
      if negb ok then mret None else
      res ← fuse_pipe;
      match res with
      | inl _ => mret None
      | inr (r, w) =>
          let llp := LlPipe (pagesize (se s) * 16) true r w in
          _ ← set_se (with_pipe (Some llp)); mret (Some llp)
      end
  end.

Definition fuse_ll_clear_pipe : M unit :=
  s ← get;
  match pipe (se s) with
  | Some llp => _ ← set_se (with_pipe None); fuse_ll_pipe_free llp
  | None => mret tt
  end.

(** 0 on success; the bytes read are stored at [buf]. *)
Definition read_back (fd buf len : Z) : M Z :=
  r ← sys (sys_read fd len);
  match r with
  | inl _ => mret (- EIO)
  | inr data =>
      s ← get; let w := mach s in
      _ ← set_mach (World (os w) (store (ram w) buf data) (brk w));
      if negb (Z.of_nat (length data) =? len) then mret (- EIO) else mret 0
  end.

Definition grow_pipe_to_max (pipefd : Z) : M Z :=
  maxfd ← sys (sys_open (lit "/proc/sys/fs/pipe-max-size") 0);
  match maxfd with
  | inl e => mret (- e)
  | inr maxfd =>
      r ← sys (sys_read maxfd 31);
      match r with
      | inl e => _ ← sys (sys_close maxfd); mret (- e)
      | inr buf =>
          _ ← sys (sys_close maxfd);
          let max := atoi (cstr buf) in
          res ← sys (sys_setpipe_sz pipefd max);
          match res with inl e => mret (- e) | inr _ => mret max end
      end
  end.

(** [err] and [uniq] are the fields of the header in [iov[0]], [iov] the
    segments after it. *)
Definition fuse_send_data_iov_fallback (c : option Z) (err uniq : Z) (iov : list bytes)
    (buf : fuse_bufvec) (len : Z) : M (Z * fuse_bufvec) :=
  if bool_decide (bcount buf = 1%nat) && bool_decide (bidx buf = 0%nat) && (boff buf =? 0) &&
     negb (has (bflags (buf_at buf 0)) FUSE_BUF_IS_FD)
  then
    data ← load_mem (bmem (buf_at buf 0)) len;
    res ← fuse_send_msg c err uniq (iov ++ [data]); mret (res, buf)
  else
    ok ← malloc;
    if negb ok then mret (ENOMEM, buf) else
    mbuf ← brk_alloc len;
    r ← lift_w (fuse_buf_copy false (FuseBufvec 1 0 0 [FuseBuf len 0 mbuf (-1) 0]) buf 0);
    let '(res, _, buf) := r in
    let res := i32 res in
    if res <? 0 then _ ← brk_free mbuf; mret (- res, buf) else
    data ← load_mem mbuf res;
    res ← fuse_send_msg c err uniq (iov ++ [data]);
    _ ← brk_free mbuf; mret (res, buf).

(** The bytes left in a vector, counted as [fuse_send_data_iov] does. *)
Definition total_buf_size (buf : fuse_bufvec) : Z :=
  fold_left (fun t i => let t := u64 (t + bsize (buf_at buf i)) in
                        if bool_decide (i = bidx buf) then u64 (t - boff buf) else t)
    (seq (bidx buf) (bcount buf - bidx buf)) 0.

(** Make the pipe hold [pipesize] bytes; [None] sends the caller to its
    fallback. *)
Definition ensure_pipe (llp : fuse_ll_pipe) (pipesize : Z) : M (option fuse_ll_pipe) :=
  if negb (p_size llp <? pipesize) then mret (Some llp) else
  if p_can_grow llp then
    res ← sys (sys_setpipe_sz (p_rd llp) pipesize);
    match res with
    | inl _ =>
        res ← grow_pipe_to_max (p_rd llp);
        let size := if 0 <? res then res else p_size llp in
        _ ← set_se (with_pipe (Some (LlPipe size false (p_rd llp) (p_wr llp))));
        mret None
    | inr size =>
        let llp := LlPipe size true (p_rd llp) (p_wr llp) in
        _ ← set_se (with_pipe (Some llp));
        mret (if p_size llp <? pipesize then None else Some llp)
    end
  else mret None.

(** Put header segments in memory and return where each starts and its size. *)
Fixpoint place_iov (addr : Z) (iov : list bytes) : M (list (Z * Z)) :=
  match iov with
  | [] => mret []
  | b :: iov =>
      s ← get; let w := mach s in
      _ ← set_mach (World (os w) (store (ram w) addr b) (brk w));
      rest ← place_iov (addr + Z.of_nat (length b)) iov;
      mret ((addr, Z.of_nat (length b)) :: rest)
  end.

(** [out->len = len] *)
Definition set_out_len (hdr len : Z) : M unit :=
  s ← get; let w := mach s in
  set_mach (World (os w) (store (ram w) hdr (le 4 len)) (brk w)).

Definition clear_pipe_and {A} (r : A) : M A := _ ← fuse_ll_clear_pipe; mret r.

(** The tail of [fuse_send_data_iov]: [len] bytes of data are in the pipe
    behind the header at [hdr]. *)
Definition splice_out (c : option Z) (err uniq : Z) (llp : fuse_ll_pipe)
    (hdr headerlen len flags : Z) (buf : fuse_bufvec) : M (Z * fuse_bufvec) :=
  s ← get;
  let outlen := u32 (headerlen + len) in
  _ ← set_out_len hdr outlen;
  let splice_flags := if has flags FUSE_BUF_SPLICE_MOVE && has (want (conn (se s))) FUSE_CAP_SPLICE_MOVE
                      then SPLICE_F_MOVE else 0 in
  fd ← match c with
       | Some c => k ← of_option (chans s !! c); mret (ch_fd k)
       | None => mret (se_fd (se s))
       end;
  (* only the header is recorded; the data never pass through memory *)
  _ ← log_sent fd (out_header outlen err uniq);
  s ← get;
  res ← sys (sys_splice_pipe (p_rd llp) fd outlen splice_flags (ram (mach s)));
  match res with
  | inl e => clear_pipe_and (- e, buf)
  | inr n => if negb (n =? outlen) then clear_pipe_and (- EIO, buf) else mret (0, buf)
  end.

(** A short count: take the data back out of the pipe if there is more. *)
Definition splice_short (c : option Z) (err uniq : Z) (iov : list bytes) (llp : fuse_ll_pipe)
    (hdr headerlen len now_len flags : Z) (buf : fuse_bufvec) : M (Z * fuse_bufvec) :=
  ok ← malloc;
  if negb ok then clear_pipe_and (ENOMEM, buf) else
  mbuf ← brk_alloc len;
  r ← lift_w (fuse_buf_copy false (FuseBufvec 1 0 now_len [FuseBuf len 0 mbuf (-1) 0]) buf 0);
  let '(res, _, buf) := r in
  let res := i32 res in
  if 0 <? res then
    ok ← malloc;
    if negb ok then _ ← brk_free mbuf; clear_pipe_and (ENOMEM, buf) else
    tmpbuf ← brk_alloc headerlen;
    r ← read_back (p_rd llp) tmpbuf headerlen;
    _ ← brk_free tmpbuf;
    if negb (r =? 0) then _ ← brk_free mbuf; clear_pipe_and (r, buf) else
    r ← read_back (p_rd llp) mbuf now_len;
    if negb (r =? 0) then _ ← brk_free mbuf; clear_pipe_and (r, buf) else
    data ← load_mem mbuf (now_len + res);
    r ← fuse_send_msg c err uniq (iov ++ [data]);
    _ ← brk_free mbuf; mret (r, buf)
  else
    _ ← brk_free mbuf;
    splice_out c err uniq llp hdr headerlen now_len flags buf.

Definition fuse_send_data_iov (c : option Z) (err uniq : Z) (iov : list bytes)
    (buf : fuse_bufvec) (flags : Z) : M (Z * fuse_bufvec) :=
  s ← get;
  let len := fuse_buf_size buf in
  let psz := pagesize (se s) in
  if broken_splice_nonblock (se s) || has flags FUSE_BUF_NO_SPLICE ||
     (total_buf_size buf <? 2 * psz) ||
     (proto_minor (conn (se s)) <? 14) || negb (has (want (conn (se s))) FUSE_CAP_SPLICE_WRITE)
  then fuse_send_data_iov_fallback c err uniq iov buf len else
  llp ← fuse_ll_get_pipe;
  match llp with
  | None => fuse_send_data_iov_fallback c err uniq iov buf len
  | Some llp =>
      let headerlen := iov_length (out_header 0 err uniq :: iov) in
      let outlen := u32 (headerlen + len) in
      let pipesize := u64 (psz * (1 + Z.of_nat (length iov) + Z.of_nat (bcount buf) + 1) + outlen) in
      llp ← ensure_pipe llp pipesize;
      match llp with
      | None => fuse_send_data_iov_fallback c err uniq iov buf len
      | Some llp =>
          hdr ← brk_alloc headerlen;
          v ← place_iov hdr (out_header outlen err uniq :: iov);
          res ← sys (sys_vmsplice (p_wr llp) v SPLICE_F_NONBLOCK);
          match res with
          | inl _ => _ ← brk_free hdr; fuse_send_data_iov_fallback c err uniq iov buf len
          | inr n =>
              if negb (n =? headerlen) then _ ← brk_free hdr; clear_pipe_and (- EIO, buf) else
              r ← lift_w (fuse_buf_copy false
                    (FuseBufvec 1 0 0 [FuseBuf len FUSE_BUF_IS_FD 0 (p_wr llp) 0]) buf
                    (Z.lor FUSE_BUF_FORCE_SPLICE FUSE_BUF_SPLICE_NONBLOCK));
              let '(res, _, buf) := r in
              let res := i32 res in
              if res <? 0 then
                if (res =? - EAGAIN) || (res =? - EINVAL) then
                  _ ← (if res =? - EAGAIN then set_se (with_broken_splice true) else mret tt);
                  _ ← set_se (with_pipe None);
                  _ ← fuse_ll_pipe_free llp;
                  _ ← brk_free hdr;
                  fuse_send_data_iov_fallback c err uniq iov buf len
                else _ ← brk_free hdr; clear_pipe_and (- res, buf)
              else
                out ← (if negb (res =? 0) && (res <? len)
                       then splice_short c err uniq iov llp hdr headerlen len res flags buf
                       else splice_out c err uniq llp hdr headerlen res flags buf);
                _ ← brk_free hdr; mret out
          end
      end
  end.

Definition fuse_reply_data (req : Z) (bufv : fuse_bufvec) (flags : Z) : M Z :=
  q ← get_req req;
  r ← fuse_send_data_iov (ch q) 0 (unique q) [] bufv flags;
  if r.1 <=? 0 then _ ← fuse_free_req req; mret r.1
  else fuse_reply_err req r.1.
End LowLevel.

(** ** The invariant of a session

    [inv s l i n]: the three lists of the session are [l], [i] and [n], they
    share no node, their members are live, and every address in use is older
    than [fresh].  Sessions with cloned device descriptors ([ch]) are outside
    it. *)

Record inv {OS U} (s : LL OS U) (l i n : list Z) : Prop := MkInv {
  inv_list : dl (lks s) LIST l;
  inv_intr : dl (lks s) INTERRUPTS i;
  inv_notify : dl (lks s) NOTIFY_LIST n;
  inv_li : forall a, a ∈ LIST :: l -> a ∉ INTERRUPTS :: i;
  inv_ln : forall a, a ∈ LIST :: l -> a ∉ NOTIFY_LIST :: n;
  inv_in : forall a, a ∈ INTERRUPTS :: i -> a ∉ NOTIFY_LIST :: n;
  inv_l : forall r, r ∈ l -> exists q f d, reqs s !! r = Some q /\ ctr q = 1 /\ u q = U_ni f d;
  inv_i : forall r, r ∈ i -> exists q t, reqs s !! r = Some q /\ ctr q = 1 /\ u q = U_i t;
  inv_n : forall r, r ∈ n -> is_Some (nreqs s !! r);
  inv_fresh : forall p, is_Some (lks s !! p) -> p < fresh s;
  inv_ch : forall r q, reqs s !! r = Some q -> ch q = None }.

(** A request a handler may answer: live, and in the list or not linked yet. *)
Definition live {OS U} (s : LL OS U) (l i n : list Z) (r : Z) (q : fuse_req) : Prop :=
  reqs s !! r = Some q /\ ctr q = 1 /\ r <> LIST /\ (r ∉ INTERRUPTS :: i) /\ (r ∉ NOTIFY_LIST :: n) /\
  (r ∈ l \/ lks s !! r = Some (Link r r)).

(** [l] without [r] *)
Definition without (r : Z) (l : list Z) : list Z := filter (fun x => x <> r) l.

Lemma without_notin r l : r ∉ l -> without r l = l.
Proof.
  unfold without. induction l as [|x l IH]; [done|]. intros [Hx Hl]%not_elem_of_cons.
  rewrite filter_cons_True by done. by rewrite IH.
Qed.

Lemma without_split r l1 l2 : NoDup (l1 ++ r :: l2) -> without r (l1 ++ r :: l2) = l1 ++ l2.
Proof.
  intros Hn. apply NoDup_app in Hn as (_ & Hd & Hn). apply NoDup_cons in Hn as [Hn _].
  unfold without. rewrite filter_app, filter_cons_False by naive_solver.
  fold (without r l1) (without r l2). rewrite !without_notin; [done|done|].
  intros Hr. apply (Hd r Hr). by left.
Qed.

Lemma elem_of_without r l x : x ∈ without r l <-> x <> r /\ x ∈ l.
Proof. unfold without. by rewrite list_elem_of_filter. Qed.

Lemma list_del_self r (m : links) : m !! r = Some (Link r r) -> list_del r m = Some m.
Proof.
  intros E. unfold list_del, set_next, set_prev. rewrite E; simpl. rewrite E; simpl.
  rewrite lookup_insert_eq; simpl. rewrite insert_insert_eq. simpl. by rewrite insert_id.
Qed.

Lemma dl_delete r m h l : r ∉ h :: l -> dl m h l -> dl (delete r m) h l.
Proof.
  intros Hr. apply dl_frame. intros a Ha. unfold fields. rewrite lookup_delete_ne; [done|].
  intros ->. done.
Qed.

Lemma dl_insert r k m h l : r ∉ h :: l -> dl m h l -> dl (<[r := k]> m) h l.
Proof.
  intros Hr. apply dl_frame. intros a Ha. unfold fields. rewrite lookup_insert_ne; [done|].
  intros ->. done.
Qed.

(** Unlinking a live request, whether it is in the list or not. *)
Lemma unlink_live m h l r : dl m h l -> r <> h -> r ∈ l \/ m !! r = Some (Link r r) ->
  exists m', list_del r m = Some m' /\ dl (delete r m') h (without r l) /\ dom m' = dom m /\
    forall c, c ∉ h :: l -> fields m' c = fields m c.
Proof.
  intros D Hh Hr. destruct (decide (r ∈ l)) as [Hl|Hl].
  - apply list_elem_of_split in Hl as (l1 & l2 & ->). pose proof D as [Hn _].
    apply NoDup_cons in Hn as [_ Hn].
    destruct (list_del_spec _ _ _ _ _ D) as (m' & E & D' & Hf & Hd).
    exists m'. rewrite without_split by done. split; [done|]. split; [|split; [done|]].
    + apply dl_delete; [|done]. apply NoDup_app in Hn as (_ & Hx & Hn). apply NoDup_cons in Hn as [Hn _].
      intros [?|[Hr'|Hr']%elem_of_app]%elem_of_cons; [done| |done]. apply (Hx r Hr'). by left.
    + intros c Hc. apply Hf. intros [->|Hc']%elem_of_cons; apply Hc; [by left|].
      right. apply elem_of_app in Hc' as [?|?]; apply elem_of_app; [by left|right; by right].
  - destruct Hr as [?|E]; [done|]. exists m. rewrite without_notin by done.
    split; [by apply list_del_self|]. split; [|done]. apply dl_delete; [|done].
    by intros [?|?]%elem_of_cons.
Qed.

Section Replies.
Context {OS U : Type} `{FdOps OS} `{DevOps OS}.

(** Everything but the links and the request [r] is as before. *)
Definition freed (s s' : LL OS U) (r : Z) : Prop :=
  se s' = se s /\ reqs s' = delete r (reqs s) /\ nreqs s' = nreqs s /\ fresh s' = fresh s /\
  user s' = user s /\ chans s' = chans s.

Lemma fuse_free_req_spec s l i n r q : inv s l i n -> live s l i n r q ->
  exists s', fuse_free_req r s = Some (tt, s') /\ inv s' (without r l) i n /\ freed s s' r /\
    sent s' = sent s /\ mach s' = mach s /\ heap s' = heap s.
Proof.
  intros I (Er & Ec & Hh & Hri & Hrn & Hr).
  destruct (unlink_live _ _ _ _ (inv_list _ _ _ _ I) Hh Hr) as (m' & Em & Dl & Hd & Hf).
  set (m := delete r m') in *.
  assert (forall h k, r ∉ h :: k -> (forall a, a ∈ LIST :: l -> a ∉ h :: k) -> dl (lks s) h k ->
    dl m h k) as Hk.
  { intros h k Hrk Hdis D. apply dl_delete; [done|]. revert D. apply dl_frame. intros a Ha. apply Hf.
    intros Hal. by apply (Hdis a). }
  eexists. split.
  { unfold fuse_free_req. erewrite bind_step by (unfold get_req; erewrite bind_step by reflexivity;
      rewrite Er; reflexivity).
    erewrite bind_step by (unfold on_links; erewrite bind_step by reflexivity; rewrite Em; reflexivity).
    rewrite (inv_ch _ _ _ _ I _ _ Er), Ec. erewrite bind_step by reflexivity.
    erewrite bind_step by reflexivity. rewrite Z.sub_diag, Z.eqb_refl.
    unfold destroy_req. erewrite bind_step
      by (unfold get_req; erewrite bind_step by reflexivity; simpl; rewrite lookup_insert_eq; reflexivity).
    reflexivity. }
  simpl. rewrite delete_insert_eq. split; [|repeat split; done].
  split; simpl; fold m.
  - done.
  - apply Hk; [done|apply (inv_li _ _ _ _ I)|apply (inv_intr _ _ _ _ I)].
  - apply Hk; [done|apply (inv_ln _ _ _ _ I)|apply (inv_notify _ _ _ _ I)].
  - intros a Ha. apply (inv_li _ _ _ _ I). revert Ha. rewrite !elem_of_cons, elem_of_without. tauto.
  - intros a Ha. apply (inv_ln _ _ _ _ I). revert Ha. rewrite !elem_of_cons, elem_of_without. tauto.
  - apply (inv_in _ _ _ _ I).
  - intros x [Hx Hxl]%elem_of_without. rewrite lookup_delete_ne by done. by apply (inv_l _ _ _ _ I).
  - intros x Hx. rewrite lookup_delete_ne; [by apply (inv_i _ _ _ _ I)|].
    intros ->. apply Hri. by right.
  - apply (inv_n _ _ _ _ I).
  - intros p Hp. apply (inv_fresh _ _ _ _ I). apply elem_of_dom. rewrite <- Hd. apply elem_of_dom.
    unfold m in Hp. destruct (decide (p = r)) as [->|Hpr].
    + rewrite lookup_delete_eq in Hp. by destruct Hp.
    + by rewrite lookup_delete_ne in Hp.
  - intros x qx [_ Hx]%lookup_delete_Some. by apply (inv_ch _ _ _ _ I x).
Qed.
(** The invariant only looks at lists and requests. *)
Lemma inv_ext (s s' : LL OS U) l i n :
  lks s' = lks s -> reqs s' = reqs s -> nreqs s' = nreqs s -> fresh s' = fresh s ->
  inv s l i n -> inv s' l i n.
Proof. intros E1 E2 E3 E4 []. split; rewrite ?E1, ?E2, ?E3, ?E4; done. Qed.

Lemma live_ext (s s' : LL OS U) l i n r q : lks s' = lks s -> reqs s' = reqs s ->
  live s l i n r q -> live s' l i n r q.
Proof. intros E1 E2. unfold live. by rewrite E1, E2. Qed.

(** The message on the wire and the error code it carries. *)
Definition reply_msg (err uniq : Z) (iov : list bytes) : bytes :=
  mjoin (out_header (u32 (iov_length (out_header 0 err uniq :: iov))) err uniq :: iov).

Definition clamp_error (err : Z) : Z := if (err <=? -1000) || (0 <? err) then - ERANGE else err.

(** The result of sending: 0, or the error of the device. *)
Definition dev_result (a : Z + Z) : Z := match a with inl e => - e | inr _ => 0 end.

(** Sending on the session's own descriptor logs one message and changes only
    the system. *)
Lemma fuse_send_msg_answer err uniq iov (s : LL OS U) : exists a o,
  sys_writev (se_fd (se s)) (reply_msg err uniq iov) (os (mach s)) = (o, a) /\
  fuse_send_msg None err uniq iov s = Some (dev_result a,
    MkLL (se s) (reqs s) (nreqs s) (lks s) (chans s) (fresh s) (heap s)
      (World o (ram (mach s)) (brk (mach s)))
      (sent s ++ [(se_fd (se s), reply_msg err uniq iov)]) (user s)).
Proof.
  unfold fuse_send_msg. erewrite bind_step by reflexivity. erewrite bind_step by reflexivity.
  erewrite bind_step by reflexivity.
  destruct (sys_writev (se_fd (se s)) (reply_msg err uniq iov) (os (mach s))) as [o r] eqn:E.
  erewrite bind_step by (unfold sys, lift_w, do_sys; cbn [mach]; fold (reply_msg err uniq iov);
    rewrite E; reflexivity).
  exists r, o. split; [done|]. by destruct r.
Qed.

Lemma fuse_send_msg_spec err uniq iov (s : LL OS U) : exists res o,
  fuse_send_msg None err uniq iov s = Some (res,
    MkLL (se s) (reqs s) (nreqs s) (lks s) (chans s) (fresh s) (heap s)
      (World o (ram (mach s)) (brk (mach s)))
      (sent s ++ [(se_fd (se s), reply_msg err uniq iov)]) (user s)).
Proof. destruct (fuse_send_msg_answer err uniq iov s) as (a & o & _ & E). eauto. Qed.

(** [s'] is [s] after [r] has been answered with [msg]. *)
Definition answered (s s' : LL OS U) (l i n : list Z) (r : Z) (msg : bytes) : Prop :=
  inv s' (without r l) i n /\ freed s s' r /\ sent s' = sent s ++ [(se_fd (se s), msg)] /\
  heap s' = heap s.

Lemma get_req_Some (s : LL OS U) r q : reqs s !! r = Some q -> get_req r s = Some (q, s).
Proof. intros E. unfold get_req. erewrite bind_step by reflexivity. by rewrite E. Qed.

(** The reply and the answer of the device to it. *)
Lemma send_reply_iov_answer s l i n r q err iov : inv s l i n -> live s l i n r q ->
  exists a s', send_reply_iov r err iov s = Some (dev_result a, s') /\
    answered s s' l i n r (reply_msg (clamp_error err) (unique q) iov) /\ ram (mach s') = ram (mach s) /\
    sys_writev (se_fd (se s)) (reply_msg (clamp_error err) (unique q) iov) (os (mach s)) = (os (mach s'), a).
Proof.
  intros I L. pose proof L as (Er & _).
  destruct (fuse_send_msg_answer (clamp_error err) (unique q) iov s) as (res & o & Ew & E).
  set (s1 := MkLL _ _ _ _ _ _ _ _ _ _) in E.
  destruct (fuse_free_req_spec s1 l i n r q) as (s2 & E2 & I2 & F2 & S2 & W2 & H2);
    [by apply (inv_ext s)|by apply (live_ext s)|].
  exists res, s2. split; [|split; [split; [done|split; [done|split; [by rewrite S2|by rewrite H2]]]|by rewrite W2]].
  unfold send_reply_iov. erewrite bind_step.
  2:{ unfold fuse_send_reply_iov_nofree. erewrite bind_step by (by apply get_req_Some).
      rewrite (inv_ch _ _ _ _ I _ _ Er). exact E. }
  by erewrite bind_step by exact E2.
Qed.

Lemma send_reply_iov_spec s l i n r q err iov : inv s l i n -> live s l i n r q ->
  exists res s', send_reply_iov r err iov s = Some (res, s') /\
    answered s s' l i n r (reply_msg (clamp_error err) (unique q) iov) /\ ram (mach s') = ram (mach s).
Proof. intros I L. destruct (send_reply_iov_answer s l i n r q err iov I L) as (a & s' & E & A & W & _). eauto. Qed.

(** The segments [send_reply] puts behind the header. *)
Definition segs (arg : bytes) : list bytes := if bool_decide (arg = []) then [] else [arg].

Lemma send_reply_spec s l i n r q err arg : inv s l i n -> live s l i n r q ->
  exists res s', send_reply r err arg s = Some (res, s') /\
    answered s s' l i n r (reply_msg (clamp_error err) (unique q) (segs arg)) /\ ram (mach s') = ram (mach s).
Proof. apply send_reply_iov_spec. Qed.

Lemma fuse_reply_err_spec s l i n r q err : inv s l i n -> live s l i n r q ->
  exists res s', fuse_reply_err r err s = Some (res, s') /\
    answered s s' l i n r (reply_msg (clamp_error (- err)) (unique q) []) /\ ram (mach s') = ram (mach s).
Proof. intros I L. by apply (send_reply_spec s l i n r q (- err) []). Qed.

(** What every reply has in common. *)
Lemma answered_gone s s' l i n r msg : answered s s' l i n r msg ->
  (forall err, fuse_reply_err r err s' = None) /\ fuse_free_req r s' = None.
Proof.
  intros (_ & (_ & Er & _) & _).
  assert (get_req r s' = None) as Eg.
  { unfold get_req. erewrite bind_step by reflexivity. by rewrite Er, lookup_delete_eq. }
  split; [intros err|]; unfold fuse_reply_err, send_reply, send_reply_iov,
    fuse_send_reply_iov_nofree, fuse_free_req, mbind, ST_bind; by rewrite Eg.
Qed.
End Replies.

(** ** Headers *)

Lemma join_cons (b : bytes) (iov : list bytes) : mjoin (b :: iov) = b ++ mjoin iov.
Proof. done. Qed.

Lemma iov_length_spec iov : Z.of_nat (length (mjoin iov)) < 2 ^ 64 ->
  iov_length iov = Z.of_nat (length (mjoin iov)).
Proof.
  unfold iov_length. cut (forall acc, 0 <= acc -> acc + Z.of_nat (length (mjoin iov)) < 2 ^ 64 ->
    fold_left (fun ret s => u64 (ret + Z.of_nat (length s))) iov acc =
    acc + Z.of_nat (length (mjoin iov))).
  { intros C Hl. by rewrite C by lia. }
  induction iov as [|b iov IH]; intros acc Ha Hl; cbn [fold_left]; [cbn; lia|].
  rewrite join_cons, length_app, Nat2Z.inj_add in *.
  rewrite IH; rewrite wrap_id; lia.
Qed.

Lemma length_out_header len err uniq : length (out_header len err uniq) = 16%nat.
Proof. unfold out_header. by rewrite !length_app, !length_le. Qed.

(** The fields a reader finds in a message. *)
Lemma reply_msg_header err uniq iov :
  let msg := reply_msg err uniq iov in
  Z.of_nat (length msg) < 2 ^ 32 -> - 2 ^ 31 <= err < 2 ^ 31 -> 0 <= uniq < 2 ^ 64 ->
  u32_at msg 0 = Z.of_nat (length msg) /\ i32 (u32_at msg 4) = err /\ u64_at msg 8 = uniq /\
  drop 16 msg = mjoin iov.
Proof.
  intros msg Hl He Hu.
  assert (length msg = (16 + length (mjoin iov))%nat) as HL.
  { unfold msg, reply_msg. rewrite join_cons, length_app, length_out_header. done. }
  assert (iov_length (out_header 0 err uniq :: iov) = Z.of_nat (length msg)) as EL.
  { rewrite iov_length_spec; rewrite join_cons, length_app, length_out_header; lia. }
  unfold msg at 1 3 4 5, reply_msg. rewrite EL, (wrap_id 32) by lia.
  rewrite join_cons. unfold out_header. rewrite <- !app_assoc. split; [|split; [|split]].
  - pose proof (u32_at_app [] (Z.of_nat (length msg)) (le 4 err ++ le 8 uniq ++ mjoin iov) 0 eq_refl) as E.
    rewrite app_nil_l in E. rewrite E. apply wrap_id. lia.
  - rewrite u32_at_app by done. unfold swrap, wrap. rewrite Zplus_mod_idemp_l.
    fold (i32 err). apply swrap_id; lia.
  - rewrite (app_assoc (le 4 _)), u64_at_app by done. by apply wrap_id.
  - change 16%nat with (length (le 4 (Z.of_nat (length msg)) ++ le 4 err ++ le 8 uniq)).
    replace (le 4 (Z.of_nat (length msg)) ++ le 4 err ++ le 8 uniq ++ mjoin iov)
      with ((le 4 (Z.of_nat (length msg)) ++ le 4 err ++ le 8 uniq) ++ mjoin iov)
      by (by rewrite <- !app_assoc).
    apply drop_app_length.
Qed.

(** The number of a message, whatever else it holds. *)
Lemma reply_msg_unique err uniq iov : u64_at (reply_msg err uniq iov) 8 = u64 uniq.
Proof.
  unfold reply_msg. rewrite join_cons. unfold out_header.
  rewrite <- !app_assoc, (app_assoc (le 4 _)). by apply u64_at_app.
Qed.

Lemma clamp_error_range err : -1000 < clamp_error err <= 0.
Proof. unfold clamp_error, ERANGE. zcases; simpl; lia. Qed.

(** ** Data replies from memory *)

Lemma fuse_buf_size_sum v : vec_ok v -> sum_sizes (bufs v) < 2 ^ 63 ->
  fuse_buf_size v = sum_sizes (bufs v).
Proof.
  intros (Hc & Hs & _) Hb. unfold fuse_buf_size. rewrite Hc, firstn_all.
  cut (forall acc, 0 <= acc -> acc + sum_sizes (bufs v) < 2 ^ 63 ->
    fold_left (fun size bf => if bsize bf =? SIZE_MAX then SIZE_MAX else u64 (size + bsize bf))
      (bufs v) acc = acc + sum_sizes (bufs v)).
  { intros C. by rewrite C by lia. }
  clear Hc Hb. induction Hs as [|bf l Hbf Hs IH]; intros acc Ha Hb; cbn [fold_left sum_sizes foldr] in *; [lia|].
  fold (sum_sizes l) in *. pose proof (sum_sizes_nonneg l Hs).
  destruct (Z.eqb_spec (bsize bf) SIZE_MAX) as [He|He]; [unfold SIZE_MAX in He; lia|].
  rewrite u64_id by lia. rewrite IH; lia.
Qed.

Lemma length_seg_addrs l : Forall (fun bf => 0 <= bsize bf < 2 ^ 63) l ->
  Z.of_nat (length (concat (map seg_addrs l))) = sum_sizes l.
Proof.
  induction 1 as [|bf l Hb _ IH]; cbn [map concat sum_sizes foldr]; [done|].
  fold (sum_sizes l). rewrite length_app. unfold seg_addrs at 1. rewrite length_seqZ. lia.
Qed.

(** Bytes at consecutive addresses. *)
Lemma load_seqZ m a n : 0 <= n -> load m a (Z.to_nat n) = byte_at m <$> seqZ a n.
Proof.
  intros Hn. apply list_eq. intros i. destruct (decide (i < Z.to_nat n)%nat) as [Hi|Hi].
  - rewrite load_lookup, list_lookup_fmap, lookup_seqZ_lt by lia. done.
  - rewrite !lookup_ge_None_2; [done| |]; rewrite ?length_load, ?length_fmap, ?length_seqZ; lia.
Qed.

(** A vector at its start. *)
Definition at_start (v : fuse_bufvec) : Prop := bidx v = 0%nat /\ boff v = 0.

Lemma addrs_start v : vec_ok v -> at_start v -> addrs v = concat (map seg_addrs (bufs v)).
Proof.
  intros (Hc & _) [Hi Ho]. unfold addrs. rewrite Hi, Ho. simpl Z.to_nat. rewrite !drop_0.
  case_bool_decide as Hb; [done|]. by destruct (bufs v); simpl in *; [|lia].
Qed.

Class DevLaws (OS : Type) `{DevOps OS} := {
  writev_errno fd b s s' e : sys_writev fd b s = (s', inl e) -> 0 < e }.

Section Data.
Context {OS U : Type} `{FdOps OS} `{DevLaws OS}.

Lemma fuse_send_msg_le err uniq iov (s : LL OS U) res s' :
  fuse_send_msg None err uniq iov s = Some (res, s') -> res <= 0.
Proof.
  unfold fuse_send_msg. erewrite bind_step by reflexivity. erewrite bind_step by reflexivity.
  erewrite bind_step by reflexivity. set (msg := mjoin _).
  destruct (sys_writev (se_fd (se s)) msg (os (mach s))) as [o r] eqn:E.
  erewrite bind_step by (unfold sys, lift_w, do_sys; cbn [mach]; rewrite E; reflexivity).
  destruct r as [e|x]; intros [= <- _]; [|lia]. apply writev_errno in E. lia.
Qed.

(** The bytes of a vector. *)
Definition payload (m : memory) (v : fuse_bufvec) : bytes := byte_at m <$> addrs v.

(** What a reply through memory leaves unchanged. *)
Definition only_sent (s s' : LL OS U) (msg : bytes) : Prop :=
  se s' = se s /\ reqs s' = reqs s /\ nreqs s' = nreqs s /\ lks s' = lks s /\ chans s' = chans s /\
  fresh s' = fresh s /\ heap s' = heap s /\ user s' = user s /\
  sent s' = sent s ++ [(se_fd (se s), msg)].

(** Copying the vector into the bounce buffer at the break. *)
Lemma bounce_copy (w : world OS) v : vec_ok v -> at_start v -> all_memory v ->
  sum_sizes (bufs v) < 2 ^ 31 -> (forall a, a ∈ addrs v -> a < brk w) ->
  let len := sum_sizes (bufs v) in
  exists dv' sv' w', fuse_buf_copy false (FuseBufvec 1 0 0 [FuseBuf len 0 (brk w) (-1) 0]) v 0
      (World (os w) (ram w) (brk w + len)) = Some ((len, dv', sv'), w') /\
    load (ram w') (brk w) (Z.to_nat len) = payload (ram w) v /\ os w' = os w.
Proof.
  intros Hv Ha Hm Hb Hr len. pose proof Hv as (_ & Hsz & _).
  pose proof (sum_sizes_nonneg _ Hsz) as Hn. fold len in Hn.
  set (dv := FuseBufvec _ _ _ _).
  assert (vec_ok dv) as Hdv.
  { split; [done|]. split; [constructor; [simpl; lia|constructor]|]. split; [done|]. intros _. simpl. lia. }
  assert (addrs dv = seqZ (brk w) len) as Ed.
  { rewrite addrs_start by done. cbn. by rewrite app_nil_r. }
  assert (Z.of_nat (length (addrs v)) = len) as El.
  { rewrite addrs_start by done. by apply length_seg_addrs. }
  destruct (copy_loop_memory (S (bcount dv + bcount v)) dv v 0 0 (World (os w) (ram w) (brk w + len)))
    as (dv' & sv' & w' & E & [C1 _] & Eo).
  - unfold segments_left. lia.
  - done.
  - done.
  - by repeat constructor.
  - done.
  - rewrite Ed. apply NoDup_seqZ.
  - rewrite Ed. intros a Ha1 Ha2. apply elem_of_seqZ in Ha1. apply Hr in Ha2. lia.
  - done.
  - assert (remaining dv = len) as -> by (unfold remaining; cbn [bidx bcount dv bufs boff bool_decide drop sum_sizes foldr bsize]; simpl; lia). lia.
  - rewrite Ed, length_seqZ in *. replace (Nat.min (Z.to_nat len) (length (addrs v))) with (Z.to_nat len) in * by lia.
    rewrite Z.add_0_l, Z2Nat.id in E by lia. exists dv', sv', w'. split; [exact E|]. split; [|exact Eo].
    apply list_eq. intros i. unfold payload. destruct (decide (i < Z.to_nat len)%nat) as [Hi|Hi].
    + rewrite load_lookup, list_lookup_fmap by done.
      destruct (lookup_lt_is_Some_2 (addrs v) i ltac:(lia)) as [a Ea]. rewrite Ea. simpl.
      rewrite (C1 i (brk w + Z.of_nat i) a); [done|done| |done].
      apply lookup_seqZ_lt. lia.
    + rewrite !lookup_ge_None_2; [done| |]; rewrite ?length_load, ?length_fmap; lia.
Qed.

Lemma brk_alloc_spec len (s : LL OS U) : brk_alloc len s = Some (brk (mach s),
  MkLL (se s) (reqs s) (nreqs s) (lks s) (chans s) (fresh s) (heap s)
    (World (os (mach s)) (ram (mach s)) (brk (mach s) + len)) (sent s) (user s)).
Proof. reflexivity. Qed.

Lemma brk_free_spec p (s : LL OS U) : brk_free p s = Some (tt,
  MkLL (se s) (reqs s) (nreqs s) (lks s) (chans s) (fresh s) (heap s)
    (World (os (mach s)) (ram (mach s)) p) (sent s) (user s)).
Proof. reflexivity. Qed.

(** The memory fallback sends the bytes of the vector, in order. *)
Lemma fallback_memory (s : LL OS U) v uniq :
  vec_ok v -> at_start v -> all_memory v -> sum_sizes (bufs v) < 2 ^ 31 ->
  (forall a, a ∈ addrs v -> a < brk (mach s)) -> heap s = [] ->
  exists res v' s',
    fuse_send_data_iov_fallback None 0 uniq [] v (sum_sizes (bufs v)) s = Some ((res, v'), s') /\
    res <= 0 /\ only_sent s s' (reply_msg 0 uniq [payload (ram (mach s)) v]).
Proof.
  intros Hv Ha Hm Hb Hr Hh. pose proof Hv as (Hc & Hsz & _). pose proof (sum_sizes_nonneg _ Hsz) as Hn.
  unfold fuse_send_data_iov_fallback. destruct (_ && _) eqn:Eopt.
  - apply andb_prop in Eopt as [[[E1%bool_decide_eq_true_1 _]%andb_prop _]%andb_prop _].
    destruct (bufs v) as [|b [|]] eqn:Eb; simpl in Hc; [lia| |lia].
    erewrite bind_step by reflexivity. unfold buf_at. rewrite Eb. cbn [default lookup list_lookup].
    set (data := load _ _ _).
    assert (data = payload (ram (mach s)) v) as ->.
    { unfold data, payload. rewrite addrs_start, Eb by done. cbn in *. rewrite app_nil_r, Z.add_0_r in *.
      apply load_seqZ. lia. }
    destruct (fuse_send_msg_spec 0 uniq [payload (ram (mach s)) v] s) as (res & o & E).
    pose proof (fuse_send_msg_le _ _ _ _ _ _ E) as Hle.
    exists res, v. eexists. split; [by erewrite bind_step by exact E|]. split; [done|]. by repeat split.
  - erewrite bind_step by (unfold malloc; rewrite Hh; reflexivity). cbn [negb].
    erewrite bind_step by apply brk_alloc_spec.
    destruct (bounce_copy (mach s) v Hv Ha Hm Hb Hr) as (dv' & sv' & w' & Ec & El & Eo).
    erewrite bind_step by (unfold lift_w; cbn [mach]; rewrite Ec; reflexivity).
    cbv beta iota zeta. assert (i32 (sum_sizes (bufs v)) = sum_sizes (bufs v)) as -> by (apply swrap_id; lia).
    destruct (Z.ltb_spec (sum_sizes (bufs v)) 0); [lia|]. erewrite bind_step by reflexivity. cbn [mach ram].
    rewrite El.
    set (s1 := MkLL _ _ _ _ _ _ _ w' _ _).
    destruct (fuse_send_msg_spec 0 uniq [payload (ram (mach s)) v] s1) as (res & o & E).
    pose proof (fuse_send_msg_le _ _ _ _ _ _ E) as Hle.
    exists res, sv'. eexists. split.
    { erewrite bind_step by exact E. erewrite bind_step by apply brk_free_spec. reflexivity. }
    split; [done|]. by repeat split.
Qed.

(** A data reply from memory (no splicing) carries exactly the bytes of the
    vector, in order, behind a header with the request's number and error 0;
    the request is freed and every other request stays as it is. *)
Theorem reply_data_memory (s : LL OS U) l i n r q v flags :
  inv s l i n -> live s l i n r q -> vec_ok v -> at_start v -> all_memory v ->
  sum_sizes (bufs v) < 2 ^ 31 -> (forall a, a ∈ addrs v -> a < brk (mach s)) -> heap s = [] ->
  has flags FUSE_BUF_NO_SPLICE = true ->
  exists res s', fuse_reply_data r v flags s = Some (res, s') /\
    answered s s' l i n r (reply_msg 0 (unique q) [payload (ram (mach s)) v]).
Proof.
  intros I L Hv Ha Hm Hb Hr Hh Hf. pose proof L as (Er & _).
  destruct (fallback_memory s v (unique q) Hv Ha Hm Hb Hr Hh) as (res & v' & s1 & E & Hle & O).
  destruct O as (O1 & O2 & O3 & O4 & O5 & O6 & O7 & O8 & O9).
  destruct (fuse_free_req_spec s1 l i n r q) as (s2 & E2 & I2 & F2 & S2 & _ & H2);
    [by apply (inv_ext s)|by apply (live_ext s)|].
  exists res, s2. split.
  - unfold fuse_reply_data. erewrite bind_step by (by apply get_req_Some).
    rewrite (inv_ch _ _ _ _ I _ _ Er). erewrite bind_step.
    2:{ unfold fuse_send_data_iov. erewrite bind_step by reflexivity.
        rewrite Hf, fuse_buf_size_sum by (done || lia). rewrite orb_true_r. exact E. }
    cbn [fst]. destruct (Z.leb_spec res 0); [|lia]. by erewrite bind_step by exact E2.
  - destruct F2 as (F1 & F3 & F4 & F5 & F6 & F7).
    split; [done|]. split; [repeat split; congruence|]. split; congruence.
Qed.
End Data.

(** C37: Answering a live request succeeds whatever the device returns: one
    message goes out, its length field is its size, it carries the number of
    the request, an error code between -999 and 0 and the given segments; the
    request leaves the list and is freed, and answering it a second time
    touches freed memory. *)
Theorem reply_once {OS U} `{FdOps OS} `{DevOps OS} (s : LL OS U) l i n r q err iov :
  inv s l i n -> live s l i n r q -> 0 <= unique q < 2 ^ 64 ->
  Z.of_nat (length (mjoin iov)) < 2 ^ 32 - 16 ->
  exists res s' msg, send_reply_iov r err iov s = Some (res, s') /\
    inv s' (without r l) i n /\ reqs s' = delete r (reqs s) /\
    sent s' = sent s ++ [(se_fd (se s), msg)] /\
    u32_at msg 0 = Z.of_nat (length msg) /\ u64_at msg 8 = unique q /\
    -1000 < i32 (u32_at msg 4) <= 0 /\ (-1000 < err <= 0 -> i32 (u32_at msg 4) = err) /\
    drop 16 msg = mjoin iov /\
    forall err', fuse_reply_err r err' s' = None.
Proof.
  intros I L Hu Hl. destruct (send_reply_iov_spec s l i n r q err iov I L) as (res & s' & E & A & _).
  pose proof A as (I' & (_ & Er & _) & Es & _).
  pose proof (clamp_error_range err) as Hc. unfold ERANGE in Hc.
  destruct (reply_msg_header (clamp_error err) (unique q) iov) as (H1 & H2 & H3 & H4);
    [unfold reply_msg; rewrite join_cons, length_app, length_out_header; lia|lia|done|].
  exists res, s', (reply_msg (clamp_error err) (unique q) iov).
  split; [done|]. split; [done|]. split; [done|]. split; [done|]. split; [done|]. split; [done|].
  rewrite H2. split; [done|]. split; [|split; [done|]].
  - intros He. unfold clamp_error. zcases. done.
  - by apply (answered_gone s s' l i n r _ A).
Qed.

(** ** New sessions and requests *)

(** The three empty lists of [fuse_session_new]. *)
Definition empty_lists : links :=
  list_init NOTIFY_LIST (list_init INTERRUPTS (list_init LIST ∅)).

Definition start {OS U} (e : fuse_session) (w : world OS) (usr : U) : LL OS U :=
  MkLL e ∅ ∅ empty_lists ∅ 1 [] w [] usr.

Lemma inv_start {OS U} e (w : world OS) (usr : U) : inv (start e w usr) [] [] [].
Proof.
  assert (forall a h : Z, a ∈ [h] -> a = h) as Hs by (by intros a h ?%list_elem_of_singleton).
  split; cbn; try (intros ? []%elem_of_nil).
  - apply dl_insert; [by intros ?%Hs|]. apply dl_insert; [by intros ?%Hs|]. apply dl_init.
  - apply dl_insert; [by intros ?%Hs|]. apply dl_init.
  - apply dl_init.
  - by intros a ->%Hs ?%Hs.
  - by intros a ->%Hs ?%Hs.
  - by intros a ->%Hs ?%Hs.
  - intros p. unfold empty_lists, list_init. rewrite !lookup_insert.
    unfold LIST, INTERRUPTS, NOTIFY_LIST. repeat case_decide; subst; try lia.
    rewrite lookup_empty. by intros [].
  - intros r q. by rewrite lookup_empty.
Qed.

(** A state with one more request object at [fresh]. *)
Definition with_new_req {OS U} (q : fuse_req) (s : LL OS U) : LL OS U :=
  MkLL (se s) (<[fresh s := q]> (reqs s)) (nreqs s) (list_init (fresh s) (lks s)) (chans s)
    (fresh s + 1) (heap s) (mach s) (sent s) (user s).

Lemma fresh_outside {OS U} (s : LL OS U) l i n : inv s l i n ->
  (fresh s ∉ LIST :: l) /\ (fresh s ∉ INTERRUPTS :: i) /\ (fresh s ∉ NOTIFY_LIST :: n).
Proof.
  intros I. split; [|split]; intros Hf; [apply (dl_mem _ _ _ _ (inv_list _ _ _ _ I)) in Hf
    |apply (dl_mem _ _ _ _ (inv_intr _ _ _ _ I)) in Hf|apply (dl_mem _ _ _ _ (inv_notify _ _ _ _ I)) in Hf];
    apply (inv_fresh _ _ _ _ I) in Hf; lia.
Qed.

Lemma inv_new_req {OS U} (s : LL OS U) l i n q : inv s l i n -> ctr q = 1 -> ch q = None ->
  inv (with_new_req q s) l i n /\ live (with_new_req q s) l i n (fresh s) q.
Proof.
  intros I Hc Hch. destruct (fresh_outside s l i n I) as (Fl & Fi & Fn). split.
  - split; cbn; unfold list_init; try apply I.
    + apply dl_insert; [done|apply I].
    + apply dl_insert; [done|apply I].
    + apply dl_insert; [done|apply I].
    + intros r Hr. rewrite lookup_insert_ne; [by apply (inv_l _ _ _ _ I)|]. intros <-. apply Fl. by right.
    + intros r Hr. rewrite lookup_insert_ne; [by apply (inv_i _ _ _ _ I)|]. intros <-. apply Fi. by right.
    + intros p Hp. destruct (decide (p = fresh s)) as [->|Hne]; [lia|].
      rewrite lookup_insert_ne in Hp by done. apply (inv_fresh _ _ _ _ I) in Hp. lia.
    + intros r q' [[_ <-]|[_ Hr]]%lookup_insert_Some; [done|by apply (inv_ch _ _ _ _ I r)].
  - unfold live. cbn. unfold list_init. rewrite !lookup_insert_eq. repeat split; try done; [|by right].
    intros E. apply Fl. rewrite E. by left.
Qed.

Lemma fuse_ll_alloc_req_spec {OS U} (s : LL OS U) : heap s = [] ->
  fuse_ll_alloc_req s = Some (Some (fresh s),
    with_new_req (Req 0 1 (ReqCtx 0 0 0 0) None false false (U_ni None 0)) s).
Proof.
  intros Hh. unfold fuse_ll_alloc_req. erewrite bind_step by (unfold malloc; rewrite Hh; reflexivity).
  reflexivity.
Qed.

(** ** A device that accepts every message *)

#[export] Instance files_dev : DevOps files := {|
  sys_writev fd b s := (s, inr (Z.of_nat (length b)));
  sys_vmsplice fd v fl s := (s, inl EINVAL);
  sys_splice_pipe i o len fl m s := (s, inl EINVAL);
  sys_setpipe_sz fd n s := (s, inl EINVAL);
  sys_pipe2 fl s := (s, inl EMFILE);
  sys_open p fl s := (s, inl ENOENT);
  sys_close fd s := (s, inr tt) |}.

#[export] Instance files_dev_laws : DevLaws files.
Proof. split. intros fd b s s' e E. discriminate. Qed.

Definition example_conn : fuse_conn_info := ConnInfo 7 31 131072 0 131072 0 0 0 0 1.

Definition example_session : fuse_session :=
  Session false 9 0 false true 1000 example_conn false None false 1 135168 0 4096.

(** A session with one request, number 77, that is not in a list yet, and the
    bytes 1 2 3 at address 500. *)
Definition example_req : fuse_req := Req 77 1 (ReqCtx 1000 1000 42 0) None false false (U_ni None 0).

Definition example_ll : LL files unit :=
  with_new_req example_req
    (start example_session (World (∅ : files) (store ∅ 500 [1; 2; 3]) 1000) tt).

Lemma example_ok : inv example_ll [] [] [] /\ live example_ll [] [] [] 1 example_req.
Proof. apply inv_new_req; [apply inv_start|done|done]. Qed.

Lemma reply_once_witness : exists res s' msg,
  send_reply_iov 1 (-5) [[7; 8]] example_ll = Some (res, s') /\ sent s' = [(9, msg)] /\
  u64_at msg 8 = 77 /\ i32 (u32_at msg 4) = -5 /\ drop 16 msg = [7; 8] /\ fuse_reply_err 1 0 s' = None.
Proof.
  destruct example_ok as [I L].
  destruct (reply_once example_ll [] [] [] 1 example_req (-5) [[7; 8]] I L)
    as (res & s' & msg & E & _ & _ & Es & _ & Hu & _ & He & Hd & Hn); [done|done|].
  exists res, s', msg. split; [exact E|]. split; [exact Es|]. split; [exact Hu|].
  split; [apply He; done|]. split; [exact Hd|apply Hn].
Defined.

Lemma reply_data_memory_witness : exists res s',
  fuse_reply_data 1 (FuseBufvec 2 0 0 [FuseBuf 1 0 500 (-1) 0; FuseBuf 1 0 502 (-1) 0])
    FUSE_BUF_NO_SPLICE example_ll = Some (res, s') /\
  sent s' = [(9, [18; 0; 0; 0; 0; 0; 0; 0; 77; 0; 0; 0; 0; 0; 0; 0; 1; 3])].
Proof.
  destruct example_ok as [I L].
  destruct (reply_data_memory example_ll [] [] [] 1 example_req
    (FuseBufvec 2 0 0 [FuseBuf 1 0 500 (-1) 0; FuseBuf 1 0 502 (-1) 0]) FUSE_BUF_NO_SPLICE I L)
    as (res & s' & E & A); try done.
  - split; [done|]. split; [repeat constructor; done|]. split; [done|]. intros _; vm_compute; done.
  - by repeat constructor.
  - intros a. change (addrs _) with [500; 502]. cbn. set_solver by lia.
  - exists res, s'. split; [exact E|]. destruct A as (_ & _ & Es & _). rewrite Es. vm_compute. reflexivity.
Defined.

(** ** Changing lists and requests *)

Definition upd_links {OS U} (m : links) (s : LL OS U) : LL OS U :=
  MkLL (se s) (reqs s) (nreqs s) m (chans s) (fresh s) (heap s) (mach s) (sent s) (user s).

Definition upd_reqs {OS U} (m : gmap Z fuse_req) (s : LL OS U) : LL OS U :=
  MkLL (se s) m (nreqs s) (lks s) (chans s) (fresh s) (heap s) (mach s) (sent s) (user s).

Section Changes.
Context {OS U : Type}.
Implicit Types (s : LL OS U).

Lemma inv_del_req s l i n r : inv s l i n -> r ∉ l -> r ∉ i -> inv (upd_reqs (delete r (reqs s)) s) l i n.
Proof.
  intros I Hl Hi. split; cbn; try apply I.
  - intros x Hx. rewrite lookup_delete_ne; [by apply (inv_l _ _ _ _ I)|]. by intros ->.
  - intros x Hx. rewrite lookup_delete_ne; [by apply (inv_i _ _ _ _ I)|]. by intros ->.
  - intros x q [_ Hx]%lookup_delete_Some. by apply (inv_ch _ _ _ _ I x).
Qed.

(** Changing a request that is not a pending interrupt. *)
Lemma inv_put_req s l i n r q : inv s l i n -> r ∉ i -> ctr q = 1 -> ch q = None ->
  (exists f d, u q = U_ni f d) -> inv (upd_reqs (<[r := q]> (reqs s)) s) l i n.
Proof.
  intros I Hi Hc Hch (f & d & Hu). split; cbn; try apply I.
  - intros x Hx. destruct (decide (x = r)) as [->|Hne].
    + rewrite lookup_insert_eq. eauto 10.
    + rewrite lookup_insert_ne by done. by apply (inv_l _ _ _ _ I).
  - intros x Hx. rewrite lookup_insert_ne; [by apply (inv_i _ _ _ _ I)|]. by intros <-.
  - intros x q' [[_ <-]|[_ Hx]]%lookup_insert_Some; [done|by apply (inv_ch _ _ _ _ I x)].
Qed.

(** Any change of the links that keeps the lists. *)
Lemma inv_upd_links s l i n l' i' m : inv s l i n -> dl m LIST l' -> dl m INTERRUPTS i' ->
  dl m NOTIFY_LIST n -> (forall a, a ∈ l' -> a ∈ l \/ (a ∉ INTERRUPTS :: i) /\ (a ∉ NOTIFY_LIST :: n) /\
    exists q f d, reqs s !! a = Some q /\ ctr q = 1 /\ u q = U_ni f d) ->
  (forall a, a ∈ i' -> a ∈ i) -> dom m ⊆ dom (lks s) -> inv (upd_links m s) l' i' n.
Proof.
  intros I D1 D2 D3 Hl Hi Hd.
  assert (forall a, a ∈ LIST :: l' -> (a ∉ INTERRUPTS :: i) /\ (a ∉ NOTIFY_LIST :: n)) as Hl'.
  { intros a [->|[Ha|(Ha & Hb & _)]%Hl]%elem_of_cons; [| |done];
      (split; [apply (inv_li _ _ _ _ I)|apply (inv_ln _ _ _ _ I)]); [by left|by left|by right|by right]. }
  split; cbn; try done; try apply I.
  - intros a Ha. destruct (Hl' a Ha) as [Hx _]. intros [->|Hai]%elem_of_cons; apply Hx; [by left|right; auto].
  - intros a Ha. apply (Hl' a Ha).
  - intros a [->|Ha]%elem_of_cons; apply (inv_in _ _ _ _ I); [by left|right; auto].
  - intros r [Hr|(_ & _ & Hr)]%Hl; [by apply (inv_l _ _ _ _ I)|done].
  - intros r Hr. apply (inv_i _ _ _ _ I), Hi, Hr.
  - intros p Hp. apply (inv_fresh _ _ _ _ I), elem_of_dom, Hd, elem_of_dom, Hp.
Qed.

Lemma fields_lookup (m m' : links) x k : fields m' x = fields m x -> m !! x = Some k -> m' !! x = Some k.
Proof.
  unfold fields. intros Hf E. rewrite E in Hf. destruct (m' !! x) as [[a b]|], k; simpl in *; congruence.
Qed.

Lemma dom_delete_sub (m m' : links) c : dom m' = dom m -> dom (delete c m') ⊆ dom m.
Proof. rewrite dom_delete. intros ->. set_solver. Qed.

(** Taking an interrupt off its list. *)
Lemma unlink_intr s l i n c : inv s l i n -> c ∈ i ->
  exists m', list_del c (lks s) = Some m' /\ dom m' = dom (lks s) /\
    inv (upd_links (delete c m') s) l (without c i) n /\
    forall x k, x ∉ INTERRUPTS :: i -> lks s !! x = Some k -> m' !! x = Some k.
Proof.
  intros I Hc. pose proof (inv_intr _ _ _ _ I) as D.
  assert (c <> INTERRUPTS) as Hh.
  { intros ->. destruct D as [Hn _]. by apply NoDup_cons in Hn as [? _]. }
  destruct (unlink_live _ _ _ c D Hh (or_introl Hc)) as (m' & E & D' & Hd & Hf).
  exists m'. split; [done|]. split; [done|]. split; [|intros x k Hx; by apply fields_lookup, Hf].
  assert (forall h k, (forall a, a ∈ h :: k -> a ∉ INTERRUPTS :: i) -> dl (lks s) h k ->
    dl (delete c m') h k) as Hk.
  { intros h k Hdis Dk. apply dl_delete.
    - intros Hck. apply (Hdis _ Hck). by right.
    - revert Dk. apply dl_frame. intros a Ha. by apply Hf, Hdis. }
  apply (inv_upd_links s l i n); try done.
  - apply Hk; [apply (inv_li _ _ _ _ I)|apply I].
  - apply Hk; [|apply I]. intros a Ha Hai. by apply (inv_in _ _ _ _ I a).
  - intros a Ha. by left.
  - by intros a [_ Ha]%elem_of_without.
  - by apply dom_delete_sub.
Qed.

(** Putting the address of a detached node back in the links. *)
Lemma inv_link s l i n c k : inv s l i n -> (c ∉ LIST :: l) -> (c ∉ INTERRUPTS :: i) ->
  (c ∉ NOTIFY_LIST :: n) -> c < fresh s -> inv (upd_links (<[c := k]> (lks s)) s) l i n.
Proof.
  intros I Hl Hi Hn Hf. split; cbn; try apply I; try (apply dl_insert; [done|apply I]).
  intros p. rewrite lookup_insert. case_decide; [by intros; subst|apply I].
Qed.

(** Adding a new request to the list. *)
Lemma add_live s l i n r q f d : inv s l i n -> live s l i n r q -> r ∉ l -> u q = U_ni f d ->
  exists m', list_add r LIST (lks s) = Some m' /\ inv (upd_links m' s) (l ++ [r]) i n /\
    live (upd_links m' s) (l ++ [r]) i n r q.
Proof.
  intros I L Hl Hu. pose proof L as (Er & Ec & Hh & Hri & Hrn & [?|Ek]); [done|].
  destruct (list_add_spec _ _ _ r (inv_list _ _ _ _ I)) as (m' & E & D & Hf & Hd);
    [by intros [?|?]%elem_of_cons|by rewrite Ek|].
  exists m'. split; [done|].
  assert (forall h k, r ∉ h :: k -> (forall a, a ∈ h :: k -> a ∉ LIST :: l) -> dl (lks s) h k ->
    dl m' h k) as Hk.
  { intros h k Hrk Hdis. apply dl_frame. intros a Ha. apply Hf.
    intros [->|Ha']%elem_of_cons; [done|by apply (Hdis a)]. }
  split.
  - apply (inv_upd_links s l i n); try done.
    + apply Hk; [done| |apply I]. intros a Ha Hal. by apply (inv_li _ _ _ _ I a).
    + apply Hk; [done| |apply I]. intros a Ha Hal. by apply (inv_ln _ _ _ _ I a).
    + intros a [Ha| ->%list_elem_of_singleton]%elem_of_app; [by left|]. right. eauto 10.
    + by rewrite Hd.
  - repeat split; try done. left. apply elem_of_app. right. by left.
Qed.
End Changes.
