(* ===== verification/Dispatch.v ===== *)
(** * Dispatch: libfuse/lib/fuse_lowlevel.c, second half

    From a message of the kernel to the file system's handler: the decoding of
    each request, the interrupt bookkeeping, the INIT negotiation, the
    notifications, and the receive and process functions of the session loop.
    [op] is the table of handlers the file system installed ([se->op]); a
    request argument is the byte string that follows the message header. *)

From S2P Require Import Prelude DList Wire Buf LowLevel.

(** ** The table of handlers

    Handlers that a C structure passes by pointer and that they may change are
    returned: the connection by [init], the vector by [write_buf] and
    [retrieve_reply]. *)

Record fuse_lowlevel_ops (OS U : Type) := Ops {
  op_init : option (fuse_conn_info -> ST (LL OS U) fuse_conn_info);
  op_destroy : option (ST (LL OS U) unit);
  op_lookup : option (Z -> Z -> bytes -> ST (LL OS U) unit);
  op_forget : option (Z -> Z -> Z -> ST (LL OS U) unit);
  op_forget_multi : option (Z -> list (Z * Z) -> ST (LL OS U) unit);
  op_getattr : option (Z -> Z -> option fuse_file_info -> ST (LL OS U) unit);
  op_setattr : option (Z -> Z -> stat -> Z -> option fuse_file_info -> ST (LL OS U) unit);
  op_readlink : option (Z -> Z -> ST (LL OS U) unit);
  op_mknod : option (Z -> Z -> bytes -> Z -> Z -> ST (LL OS U) unit);
  op_mkdir : option (Z -> Z -> bytes -> Z -> ST (LL OS U) unit);
  op_unlink : option (Z -> Z -> bytes -> ST (LL OS U) unit);
  op_rmdir : option (Z -> Z -> bytes -> ST (LL OS U) unit);
  op_symlink : option (Z -> bytes -> Z -> bytes -> ST (LL OS U) unit);
  op_rename : option (Z -> Z -> bytes -> Z -> bytes -> Z -> ST (LL OS U) unit);
  op_link : option (Z -> Z -> Z -> bytes -> ST (LL OS U) unit);
  op_open : option (Z -> Z -> fuse_file_info -> ST (LL OS U) unit);
  op_read : option (Z -> Z -> Z -> Z -> fuse_file_info -> ST (LL OS U) unit);
  op_write : option (Z -> Z -> bytes -> Z -> fuse_file_info -> ST (LL OS U) unit);
  op_write_buf : option (Z -> Z -> fuse_bufvec -> Z -> fuse_file_info -> ST (LL OS U) fuse_bufvec);
  op_flush : option (Z -> Z -> fuse_file_info -> ST (LL OS U) unit);
  op_release : option (Z -> Z -> fuse_file_info -> ST (LL OS U) unit);
  op_fsync : option (Z -> Z -> Z -> fuse_file_info -> ST (LL OS U) unit);
  op_opendir : option (Z -> Z -> fuse_file_info -> ST (LL OS U) unit);
  op_readdir : option (Z -> Z -> Z -> Z -> fuse_file_info -> ST (LL OS U) unit);
  op_readdirplus : option (Z -> Z -> Z -> Z -> fuse_file_info -> ST (LL OS U) unit);
  op_releasedir : option (Z -> Z -> fuse_file_info -> ST (LL OS U) unit);
  op_fsyncdir : option (Z -> Z -> Z -> fuse_file_info -> ST (LL OS U) unit);
  op_statfs : option (Z -> Z -> ST (LL OS U) unit);
  op_setxattr : option (Z -> Z -> bytes -> bytes -> Z -> ST (LL OS U) unit);
  op_getxattr : option (Z -> Z -> bytes -> Z -> ST (LL OS U) unit);
  op_listxattr : option (Z -> Z -> Z -> ST (LL OS U) unit);
  op_removexattr : option (Z -> Z -> bytes -> ST (LL OS U) unit);
  op_access : option (Z -> Z -> Z -> ST (LL OS U) unit);
  op_create : option (Z -> Z -> bytes -> Z -> fuse_file_info -> ST (LL OS U) unit);
  op_getlk : option (Z -> Z -> fuse_file_info -> flock -> ST (LL OS U) unit);
  op_setlk : option (Z -> Z -> fuse_file_info -> flock -> bool -> ST (LL OS U) unit);
  op_bmap : option (Z -> Z -> Z -> Z -> ST (LL OS U) unit);
  op_ioctl : option (Z -> Z -> Z -> Z -> fuse_file_info -> Z -> bytes -> Z -> ST (LL OS U) unit);
  op_poll : option (Z -> Z -> fuse_file_info -> option Z -> ST (LL OS U) unit);
  op_retrieve_reply : option (Z -> Z -> Z -> Z -> fuse_bufvec -> ST (LL OS U) fuse_bufvec);
  op_flock : option (Z -> Z -> fuse_file_info -> Z -> ST (LL OS U) unit);
  op_fallocate : option (Z -> Z -> Z -> Z -> Z -> fuse_file_info -> ST (LL OS U) unit);
  op_copy_file_range : option (Z -> Z -> Z -> fuse_file_info -> Z -> Z -> fuse_file_info -> Z -> Z ->
                               ST (LL OS U) unit);
  op_lseek : option (Z -> Z -> Z -> Z -> fuse_file_info -> ST (LL OS U) unit) }.
Arguments op_init {OS U}.
Arguments op_destroy {OS U}.
Arguments op_lookup {OS U}.
Arguments op_forget {OS U}.
Arguments op_forget_multi {OS U}.
Arguments op_getattr {OS U}.
Arguments op_setattr {OS U}.
Arguments op_readlink {OS U}.
Arguments op_mknod {OS U}.
Arguments op_mkdir {OS U}.
Arguments op_unlink {OS U}.
Arguments op_rmdir {OS U}.
Arguments op_symlink {OS U}.
Arguments op_rename {OS U}.
Arguments op_link {OS U}.
Arguments op_open {OS U}.
Arguments op_read {OS U}.
Arguments op_write {OS U}.
Arguments op_write_buf {OS U}.
Arguments op_flush {OS U}.
Arguments op_release {OS U}.
Arguments op_fsync {OS U}.
Arguments op_opendir {OS U}.
Arguments op_readdir {OS U}.
Arguments op_readdirplus {OS U}.
Arguments op_releasedir {OS U}.
Arguments op_fsyncdir {OS U}.
Arguments op_statfs {OS U}.
Arguments op_setxattr {OS U}.
Arguments op_getxattr {OS U}.
Arguments op_listxattr {OS U}.
Arguments op_removexattr {OS U}.
Arguments op_access {OS U}.
Arguments op_create {OS U}.
Arguments op_getlk {OS U}.
Arguments op_setlk {OS U}.
Arguments op_bmap {OS U}.
Arguments op_ioctl {OS U}.
Arguments op_poll {OS U}.
Arguments op_retrieve_reply {OS U}.
Arguments op_flock {OS U}.
Arguments op_fallocate {OS U}.
Arguments op_copy_file_range {OS U}.
Arguments op_lseek {OS U}.

Section Dispatch.
Context {OS U : Type} `{FdOps OS} `{DevOps OS}.
Context (op : fuse_lowlevel_ops OS U).
(** A call through an interrupt callback pointer: function, request, data. *)
Context (intr_call : Z -> Z -> Z -> ST (LL OS U) unit).

Abbreviation M := (ST (LL OS U)).

(** [fuse_reply_err(req, err)] with its result ignored. *)
Definition err_reply (req err : Z) : M unit := _ ← fuse_reply_err req err; mret tt.

(** ** Requests one by one *)

Definition do_lookup (req nodeid : Z) (inarg : bytes) : M unit :=
  match op_lookup op with
  | Some f => f req nodeid (str_at inarg 0)
  | None => err_reply req ENOSYS
  end.

Definition do_forget (req nodeid : Z) (inarg : bytes) : M unit :=
  match op_forget op with
  | Some f => f req nodeid (u64_at inarg 0)
  | None => fuse_reply_none req
  end.

(** The array of [struct fuse_forget_one] behind a [fuse_batch_forget_in]. *)
Definition forget_param (inarg : bytes) : list (Z * Z) :=
  (fun i => (u64_at inarg (8 + 16 * i), u64_at inarg (16 + 16 * i)))
    <$> seq 0 (Z.to_nat (u32_at inarg 0)).

Fixpoint forget_loop (f : Z -> Z -> Z -> M unit) (req : Z) (param : list (Z * Z)) : M unit :=
  match param with
  | [] => mret tt
  | (nodeid, nlookup) :: param =>
      dummy_req ← fuse_ll_alloc_req;
      match dummy_req with
      | None => mret tt
      | Some d =>
          q ← get_req req; dq ← get_req d;
          _ ← put_req d (Req (unique q) (ctr dq) (ctx q) None (interrupted dq) (ioctl_64bit dq) (u dq));
          _ ← f d nodeid nlookup;
          forget_loop f req param
      end
  end.

Definition do_batch_forget (req nodeid : Z) (inarg : bytes) : M unit :=
  match op_forget_multi op, op_forget op with
  | Some f, _ => f req (forget_param inarg)
  | None, Some f => _ ← forget_loop f req (forget_param inarg); fuse_reply_none req
  | None, None => fuse_reply_none req
  end.

Definition FUSE_GETATTR_FH : Z := 1.

Definition do_getattr (req nodeid : Z) (inarg : bytes) : M unit :=
  c ← req_conn req;
  let fip := if (9 <=? proto_minor c) && has (u32_at inarg 0) FUSE_GETATTR_FH
             then Some (with_fh (u64_at inarg 8) fi0) else None in
  match op_getattr op with
  | Some f => f req nodeid fip
  | None => err_reply req ENOSYS
  end.

Definition FATTR_FH : Z := 2 ^ 6.
Definition FUSE_SET_ATTR_MODE : Z := 2 ^ 0.
Definition FUSE_SET_ATTR_UID : Z := 2 ^ 1.
Definition FUSE_SET_ATTR_GID : Z := 2 ^ 2.
Definition FUSE_SET_ATTR_SIZE : Z := 2 ^ 3.
Definition FUSE_SET_ATTR_ATIME : Z := 2 ^ 4.
Definition FUSE_SET_ATTR_MTIME : Z := 2 ^ 5.
Definition FUSE_SET_ATTR_ATIME_NOW : Z := 2 ^ 7.
Definition FUSE_SET_ATTR_MTIME_NOW : Z := 2 ^ 8.
Definition FUSE_SET_ATTR_CTIME : Z := 2 ^ 10.

Definition set_attr_mask : Z :=
  fold_right Z.lor 0 [FUSE_SET_ATTR_MODE; FUSE_SET_ATTR_UID; FUSE_SET_ATTR_GID; FUSE_SET_ATTR_SIZE;
    FUSE_SET_ATTR_ATIME; FUSE_SET_ATTR_MTIME; FUSE_SET_ATTR_ATIME_NOW; FUSE_SET_ATTR_MTIME_NOW;
    FUSE_SET_ATTR_CTIME].

Definition do_setattr (req nodeid : Z) (inarg : bytes) : M unit :=
  match op_setattr op with
  | Some f =>
      let valid := u32_at inarg 0 in
      let fi := if has valid FATTR_FH then Some (with_fh (u64_at inarg 8) fi0) else None in
      let valid := if has valid FATTR_FH then Z.land valid (Z.lnot FATTR_FH) else valid in
      f req nodeid (convert_attr inarg) (Z.land valid set_attr_mask) fi
  | None => err_reply req ENOSYS
  end.

Definition do_access (req nodeid : Z) (inarg : bytes) : M unit :=
  match op_access op with
  | Some f => f req nodeid (u32_at inarg 0)
  | None => err_reply req ENOSYS
  end.

Definition do_readlink (req nodeid : Z) (inarg : bytes) : M unit :=
  match op_readlink op with
  | Some f => f req nodeid
  | None => err_reply req ENOSYS
  end.

(** [req->ctx.umask = m] *)
Definition set_umask (req m : Z) : M unit :=
  q ← get_req req;
  let c := ctx q in
  put_req req (Req (unique q) (ctr q) (ReqCtx (uid c) (gid c) (pid c) m) (ch q) (interrupted q)
                 (ioctl_64bit q) (u q)).

(** [struct fuse_mknod_in]: mode 0, rdev 4, umask 8; the name follows, at 8
    before protocol 7.12. *)
Definition do_mknod (req nodeid : Z) (inarg : bytes) : M unit :=
  c ← req_conn req;
  _ ← (if 12 <=? proto_minor c then set_umask req (u32_at inarg 8) else mret tt);
  let name := if 12 <=? proto_minor c then str_at inarg 16 else str_at inarg 8 in
  match op_mknod op with
  | Some f => f req nodeid name (u32_at inarg 0) (u32_at inarg 4)
  | None => err_reply req ENOSYS
  end.

Definition do_mkdir (req nodeid : Z) (inarg : bytes) : M unit :=
  c ← req_conn req;
  _ ← (if 12 <=? proto_minor c then set_umask req (u32_at inarg 4) else mret tt);
  match op_mkdir op with
  | Some f => f req nodeid (str_at inarg 8) (u32_at inarg 0)
  | None => err_reply req ENOSYS
  end.

Definition do_unlink (req nodeid : Z) (inarg : bytes) : M unit :=
  match op_unlink op with
  | Some f => f req nodeid (str_at inarg 0)
  | None => err_reply req ENOSYS
  end.

Definition do_rmdir (req nodeid : Z) (inarg : bytes) : M unit :=
  match op_rmdir op with
  | Some f => f req nodeid (str_at inarg 0)
  | None => err_reply req ENOSYS
  end.

(** The string behind the string at [off]. *)
Definition next_str (b : bytes) (off : nat) : bytes := str_at b (off + length (str_at b off) + 1).

Definition do_symlink (req nodeid : Z) (inarg : bytes) : M unit :=
  match op_symlink op with
  | Some f => f req (next_str inarg 0) nodeid (str_at inarg 0)
  | None => err_reply req ENOSYS
  end.

Definition do_rename (req nodeid : Z) (inarg : bytes) : M unit :=
  match op_rename op with
  | Some f => f req nodeid (str_at inarg 8) (u64_at inarg 0) (next_str inarg 8) 0
  | None => err_reply req ENOSYS
  end.

Definition do_rename2 (req nodeid : Z) (inarg : bytes) : M unit :=
  match op_rename op with
  | Some f => f req nodeid (str_at inarg 16) (u64_at inarg 0) (next_str inarg 16) (u32_at inarg 8)
  | None => err_reply req ENOSYS
  end.

Definition do_link (req nodeid : Z) (inarg : bytes) : M unit :=
  match op_link op with
  | Some f => f req (u64_at inarg 0) nodeid (str_at inarg 8)
  | None => err_reply req ENOSYS
  end.

(** [struct fuse_create_in]: flags 0, mode 4, umask 8; the name at 16, at 8
    before protocol 7.12. *)
Definition do_create (req nodeid : Z) (inarg : bytes) : M unit :=
  match op_create op with
  | Some f =>
      c ← req_conn req;
      _ ← (if 12 <=? proto_minor c then set_umask req (u32_at inarg 8) else mret tt);
      let name := if 12 <=? proto_minor c then str_at inarg 16 else str_at inarg 8 in
      f req nodeid name (u32_at inarg 4) (with_flags (i32 (u32_at inarg 0)) fi0)
  | None => err_reply req ENOSYS
  end.

Definition do_open (req nodeid : Z) (inarg : bytes) : M unit :=
  let fi := with_flags (i32 (u32_at inarg 0)) fi0 in
  match op_open op with
  | Some f => f req nodeid fi
  | None => _ ← fuse_reply_open req fi; mret tt
  end.

(** [struct fuse_read_in]: fh 0, offset 8, size 16, read_flags 20, lock_owner
    24, flags 32. *)
Definition do_read (req nodeid : Z) (inarg : bytes) : M unit :=
  match op_read op with
  | Some f =>
      c ← req_conn req;
      let fi := with_fh (u64_at inarg 0) fi0 in
      let fi := if 9 <=? proto_minor c
                then with_flags (i32 (u32_at inarg 32)) (with_lock_owner (u64_at inarg 24) fi) else fi in
      f req nodeid (u32_at inarg 16) (i64 (u64_at inarg 8)) fi
  | None => err_reply req ENOSYS
  end.

Definition FUSE_WRITE_CACHE : Z := 1.
Definition FUSE_COMPAT_WRITE_IN_SIZE : nat := 24.

(** [struct fuse_write_in]: fh 0, offset 8, size 16, write_flags 20, lock_owner
    24, flags 32; the data at 40, at 24 before protocol 7.9. *)
Definition write_fi (minor : Z) (inarg : bytes) : fuse_file_info :=
  let fi := with_writepage (has (u32_at inarg 20) FUSE_WRITE_CACHE) (with_fh (u64_at inarg 0) fi0) in
  if minor <? 9 then fi
  else with_flags (i32 (u32_at inarg 32)) (with_lock_owner (u64_at inarg 24) fi).

Definition do_write (req nodeid : Z) (inarg : bytes) : M unit :=
  c ← req_conn req;
  let fi := write_fi (proto_minor c) inarg in
  let param := if proto_minor c <? 9 then FUSE_COMPAT_WRITE_IN_SIZE else 40%nat in
  match op_write op with
  | Some f => f req nodeid (take (Z.to_nat (u32_at inarg 16)) (drop param inarg))
                (i64 (u64_at inarg 8)) fi
  | None => err_reply req ENOSYS
  end.

Definition IN_HEADER : Z := 40.

(** [addr] is the address of [inarg], [ibuf] the buffer the message came in. *)
Definition do_write_buf (req nodeid : Z) (inarg : bytes) (addr : Z) (ibuf : fuse_buf) : M unit :=
  c ← req_conn req;
  let is_fd := has (bflags ibuf) FUSE_BUF_IS_FD in
  let fi := write_fi (proto_minor c) inarg in
  b ← (if proto_minor c <? 9 then
         _ ← check (negb is_fd);
         mret (FuseBuf (u64 (bsize ibuf - (IN_HEADER + 24))) (bflags ibuf) (addr + 24) (bfd ibuf) (bpos ibuf))
       else
         mret (FuseBuf (u64 (bsize ibuf - (IN_HEADER + 40))) (bflags ibuf)
                 (if is_fd then bmem ibuf else addr + 40) (bfd ibuf) (bpos ibuf)));
  let size := u32_at inarg 16 in
  bufv ← (if bsize b <? size then
            _ ← err_reply req EIO; mret (FuseBufvec 1 0 0 [b])
          else match op_write_buf op with
               | Some f => f req nodeid (FuseBufvec 1 0 0 [FuseBuf size (bflags b) (bmem b) (bfd b) (bpos b)])
                             (i64 (u64_at inarg 8)) fi
               | None => abort
               end);
  if is_fd && bool_decide (bidx bufv < bcount bufv)%nat then fuse_ll_clear_pipe else mret tt.

Definition do_flush (req nodeid : Z) (inarg : bytes) : M unit :=
  c ← req_conn req;
  let fi := with_flush true (with_fh (u64_at inarg 0) fi0) in
  let fi := if 7 <=? proto_minor c then with_lock_owner (u64_at inarg 16) fi else fi in
  match op_flush op with
  | Some f => f req nodeid fi
  | None => err_reply req ENOSYS
  end.

Definition FUSE_RELEASE_FLUSH : Z := 1.
Definition FUSE_RELEASE_FLOCK_UNLOCK : Z := 2.

(** [struct fuse_release_in]: fh 0, flags 8, release_flags 12, lock_owner 16. *)
Definition do_release (req nodeid : Z) (inarg : bytes) : M unit :=
  c ← req_conn req;
  let rf := u32_at inarg 12 in
  let fi := with_fh (u64_at inarg 0) (with_flags (i32 (u32_at inarg 8)) fi0) in
  let fi := if 8 <=? proto_minor c
            then with_lock_owner (u64_at inarg 16) (with_flush (has rf FUSE_RELEASE_FLUSH) fi) else fi in
  let fi := if has rf FUSE_RELEASE_FLOCK_UNLOCK
            then with_lock_owner (u64_at inarg 16) (with_flock_release true fi) else fi in
  match op_release op with
  | Some f => f req nodeid fi
  | None => err_reply req 0
  end.

Definition do_fsync (req nodeid : Z) (inarg : bytes) : M unit :=
  match op_fsync op with
  | Some f => f req nodeid (Z.land (u32_at inarg 8) 1) (with_fh (u64_at inarg 0) fi0)
  | None => err_reply req ENOSYS
  end.

Definition do_opendir (req nodeid : Z) (inarg : bytes) : M unit :=
  let fi := with_flags (i32 (u32_at inarg 0)) fi0 in
  match op_opendir op with
  | Some f => f req nodeid fi
  | None => _ ← fuse_reply_open req fi; mret tt
  end.

Definition do_readdir (req nodeid : Z) (inarg : bytes) : M unit :=
  match op_readdir op with
  | Some f => f req nodeid (u32_at inarg 16) (i64 (u64_at inarg 8)) (with_fh (u64_at inarg 0) fi0)
  | None => err_reply req ENOSYS
  end.

Definition do_readdirplus (req nodeid : Z) (inarg : bytes) : M unit :=
  match op_readdirplus op with
  | Some f => f req nodeid (u32_at inarg 16) (i64 (u64_at inarg 8)) (with_fh (u64_at inarg 0) fi0)
  | None => err_reply req ENOSYS
  end.

Definition do_releasedir (req nodeid : Z) (inarg : bytes) : M unit :=
  let fi := with_fh (u64_at inarg 0) (with_flags (i32 (u32_at inarg 8)) fi0) in
  match op_releasedir op with
  | Some f => f req nodeid fi
  | None => err_reply req 0
  end.

Definition do_fsyncdir (req nodeid : Z) (inarg : bytes) : M unit :=
  match op_fsyncdir op with
  | Some f => f req nodeid (Z.land (u32_at inarg 8) 1) (with_fh (u64_at inarg 0) fi0)
  | None => err_reply req ENOSYS
  end.

Definition do_statfs (req nodeid : Z) (inarg : bytes) : M unit :=
  match op_statfs op with
  | Some f => f req nodeid
  | None => _ ← fuse_reply_statfs req (Statvfs 512 0 0 0 0 0 0 255); mret tt
  end.

(** [struct fuse_setxattr_in]: size 0, flags 4; name and value follow. *)
Definition do_setxattr (req nodeid : Z) (inarg : bytes) : M unit :=
  let name := str_at inarg 8 in
  let value := take (Z.to_nat (u32_at inarg 0)) (drop (8 + length name + 1) inarg) in
  match op_setxattr op with
  | Some f => f req nodeid name value (i32 (u32_at inarg 4))
  | None => err_reply req ENOSYS
  end.

Definition do_getxattr (req nodeid : Z) (inarg : bytes) : M unit :=
  match op_getxattr op with
  | Some f => f req nodeid (str_at inarg 8) (u32_at inarg 0)
  | None => err_reply req ENOSYS
  end.

Definition do_listxattr (req nodeid : Z) (inarg : bytes) : M unit :=
  match op_listxattr op with
  | Some f => f req nodeid (u32_at inarg 0)
  | None => err_reply req ENOSYS
  end.

Definition do_removexattr (req nodeid : Z) (inarg : bytes) : M unit :=
  match op_removexattr op with
  | Some f => f req nodeid (str_at inarg 0)
  | None => err_reply req ENOSYS
  end.

(** [struct fuse_lk_in]: fh 0, owner 8, lk at 16 (start, end, type, pid),
    lk_flags 40. *)
Definition lk_of (inarg : bytes) : fuse_file_lock :=
  FileLock (u64_at inarg 16) (u64_at inarg 24) (u32_at inarg 32) (u32_at inarg 36).

Definition lk_fi (inarg : bytes) : fuse_file_info :=
  with_lock_owner (u64_at inarg 8) (with_fh (u64_at inarg 0) fi0).

Definition do_getlk (req nodeid : Z) (inarg : bytes) : M unit :=
  match op_getlk op with
  | Some f => f req nodeid (lk_fi inarg) (convert_fuse_file_lock (lk_of inarg))
  | None => err_reply req ENOSYS
  end.

Definition FUSE_LK_FLOCK : Z := 1.
Definition LOCK_SH : Z := 1.
Definition LOCK_EX : Z := 2.
Definition LOCK_NB : Z := 4.
Definition LOCK_UN : Z := 8.

Definition do_setlk_common (req nodeid : Z) (inarg : bytes) (sleep : bool) : M unit :=
  if has (u32_at inarg 40) FUSE_LK_FLOCK then
    let typ := lk_type (lk_of inarg) in
    let o := if typ =? F_RDLCK then LOCK_SH else if typ =? F_WRLCK then LOCK_EX
             else if typ =? F_UNLCK then LOCK_UN else 0 in
    let o := if sleep then o else Z.lor o LOCK_NB in
    match op_flock op with
    | Some f => f req nodeid (lk_fi inarg) o
    | None => err_reply req ENOSYS
    end
  else
    match op_setlk op with
    | Some f => f req nodeid (lk_fi inarg) (convert_fuse_file_lock (lk_of inarg)) sleep
    | None => err_reply req ENOSYS
    end.

Definition do_setlk (req nodeid : Z) (inarg : bytes) : M unit := do_setlk_common req nodeid inarg false.

Definition do_setlkw (req nodeid : Z) (inarg : bytes) : M unit := do_setlk_common req nodeid inarg true.
(** ** Interrupts *)

(** The first node of [l] whose request satisfies [p]. *)
Fixpoint find_req (p : fuse_req -> option bool) (l : list Z) : M (option Z) :=
  match l with
  | [] => mret None
  | curr :: l =>
      q ← get_req curr;
      found ← of_option (p q);
      if (found : bool) then mret (Some curr) else find_req p l
  end.

Definition nodes_of (head : Z) : M (list Z) := s ← get; of_option (list_nodes (lks s) head).

(** Reading [u.i] of a request that is not an interrupt is an abort. *)
Definition targets (uniq : Z) (q : fuse_req) : option bool :=
  match u q with U_i t => Some (t =? uniq) | U_ni _ _ => None end.

Definition set_interrupted (curr : Z) : M unit :=
  q ← get_req curr;
  put_req curr (Req (unique q) (ctr q) (ctx q) (ch q) true (ioctl_64bit q) (u q)).

Definition add_ctr (curr d : Z) : M unit :=
  q ← get_req curr;
  put_req curr (Req (unique q) (ctr q + d) (ctx q) (ch q) (interrupted q) (ioctl_64bit q) (u q)).

Definition find_interrupted (uniq : Z) : M bool :=
  l ← nodes_of LIST;
  curr ← find_req (fun q => Some (unique q =? uniq)) l;
  match curr with
  | Some curr =>
      _ ← add_ctr curr 1;
      _ ← set_interrupted curr;
      q ← get_req curr;
      _ ← match u q with
          | U_ni (Some func) data => intr_call func curr data
          | U_ni None _ => mret tt
          | U_i _ => abort
          end;
      _ ← add_ctr curr (-1);
      q ← get_req curr;
      _ ← (if ctr q =? 0 then destroy_req curr else mret tt);
      mret true
  | None =>
      l ← nodes_of INTERRUPTS;
      curr ← find_req (targets uniq) l;
      mret (bool_decide (is_Some curr))
  end.

Definition do_interrupt (req nodeid : Z) (inarg : bytes) : M unit :=
  q ← get_req req;
  let uniq := u64_at inarg 0 in
  _ ← put_req req (Req (unique q) (ctr q) (ctx q) (ch q) (interrupted q) (ioctl_64bit q) (U_i uniq));
  found ← find_interrupted uniq;
  if (found : bool) then destroy_req req else on_links (list_add req INTERRUPTS).

(** [free(curr)] *)
Definition free_req (curr : Z) : M unit :=
  _ ← set_reqs (delete curr); s ← get; set_links (delete curr (lks s)).

Definition check_interrupt (req : Z) : M (option Z) :=
  q ← get_req req;
  l ← nodes_of INTERRUPTS;
  curr ← find_req (targets (unique q)) l;
  match curr, l with
  | Some curr, _ =>
      _ ← set_interrupted req;
      _ ← on_links (list_del curr);
      _ ← free_req curr;
      mret None
  | None, curr :: _ =>
      _ ← on_links (list_del curr);
      _ ← on_links (fun m => Some (list_init curr m));
      mret (Some curr)
  | None, [] => mret None
  end.

Definition fuse_req_interrupt_func (req : Z) (func : option Z) (data : Z) : M unit :=
  q ← get_req req;
  _ ← put_req req (Req (unique q) (ctr q) (ctx q) (ch q) (interrupted q) (ioctl_64bit q) (U_ni func data));
  match interrupted q, func with
  | true, Some f => intr_call f req data
  | _, _ => mret tt
  end.

Definition fuse_req_interrupted (req : Z) : M bool := q ← get_req req; mret (interrupted q).

(** ** More requests *)

Definition do_bmap (req nodeid : Z) (inarg : bytes) : M unit :=
  match op_bmap op with
  | Some f => f req nodeid (u32_at inarg 8) (u64_at inarg 0)
  | None => err_reply req ENOSYS
  end.

Definition FUSE_IOCTL_DIR : Z := 2 ^ 4.
Definition FUSE_CAP_IOCTL_DIR : Z := 2 ^ 11.

(** [struct fuse_ioctl_in]: fh 0, flags 8, cmd 12, arg 16, in_size 24, out_size
    28; pointers have eight bytes. *)
Definition do_ioctl (req nodeid : Z) (inarg : bytes) : M unit :=
  c ← req_conn req;
  let flags := u32_at inarg 8 in
  if has flags FUSE_IOCTL_DIR && negb (has (want c) FUSE_CAP_IOCTL_DIR) then err_reply req ENOTTY else
  match op_ioctl op with
  | Some f => f req nodeid (u32_at inarg 12) (u64_at inarg 16) (with_fh (u64_at inarg 0) fi0) flags
                (take (Z.to_nat (u32_at inarg 24)) (drop 32 inarg)) (u32_at inarg 28)
  | None => err_reply req ENOSYS
  end.

Definition FUSE_POLL_SCHEDULE_NOTIFY : Z := 1.

(** The poll handle is the kernel's [kh]. *)
Definition do_poll (req nodeid : Z) (inarg : bytes) : M unit :=
  let fi := with_poll_events (u32_at inarg 20) (with_fh (u64_at inarg 0) fi0) in
  match op_poll op with
  | Some f =>
      if has (u32_at inarg 16) FUSE_POLL_SCHEDULE_NOTIFY then
        ok ← malloc;
        if negb ok then err_reply req ENOMEM else f req nodeid fi (Some (u64_at inarg 8))
      else f req nodeid fi None
  | None => err_reply req ENOSYS
  end.

Definition do_fallocate (req nodeid : Z) (inarg : bytes) : M unit :=
  match op_fallocate op with
  | Some f => f req nodeid (i32 (u32_at inarg 24)) (i64 (u64_at inarg 8)) (i64 (u64_at inarg 16))
                (with_fh (u64_at inarg 0) fi0)
  | None => err_reply req ENOSYS
  end.

Definition do_copy_file_range (req nodeid_in : Z) (inarg : bytes) : M unit :=
  match op_copy_file_range op with
  | Some f => f req nodeid_in (i64 (u64_at inarg 8)) (with_fh (u64_at inarg 0) fi0) (u64_at inarg 16)
                (i64 (u64_at inarg 32)) (with_fh (u64_at inarg 24) fi0) (u64_at inarg 40)
                (i32 (u64_at inarg 48))
  | None => err_reply req ENOSYS
  end.

Definition do_lseek (req nodeid : Z) (inarg : bytes) : M unit :=
  match op_lseek op with
  | Some f => f req nodeid (i64 (u64_at inarg 8)) (i32 (u32_at inarg 16)) (with_fh (u64_at inarg 0) fi0)
  | None => err_reply req ENOSYS
  end.

Definition fuse_session_exit : M unit := set_se (with_exited true).

Definition fuse_session_reset : M unit := set_se (fun s => with_error 0 (with_exited false s)).

Definition fuse_session_exited : M bool := s ← get; mret (exited (se s)).
(** ** INIT *)

Definition FUSE_CAP_ASYNC_READ : Z := 2 ^ 0.
Definition FUSE_CAP_POSIX_LOCKS : Z := 2 ^ 1.
Definition FUSE_CAP_ATOMIC_O_TRUNC : Z := 2 ^ 3.
Definition FUSE_CAP_EXPORT_SUPPORT : Z := 2 ^ 4.
Definition FUSE_CAP_DONT_MASK : Z := 2 ^ 6.
Definition FUSE_CAP_FLOCK_LOCKS : Z := 2 ^ 10.
Definition FUSE_CAP_AUTO_INVAL_DATA : Z := 2 ^ 12.
Definition FUSE_CAP_READDIRPLUS : Z := 2 ^ 13.
Definition FUSE_CAP_READDIRPLUS_AUTO : Z := 2 ^ 14.
Definition FUSE_CAP_ASYNC_DIO : Z := 2 ^ 15.
Definition FUSE_CAP_WRITEBACK_CACHE : Z := 2 ^ 16.
Definition FUSE_CAP_NO_OPEN_SUPPORT : Z := 2 ^ 17.
Definition FUSE_CAP_PARALLEL_DIROPS : Z := 2 ^ 18.
Definition FUSE_CAP_POSIX_ACL : Z := 2 ^ 19.
Definition FUSE_CAP_HANDLE_KILLPRIV : Z := 2 ^ 20.
Definition FUSE_CAP_CACHE_SYMLINKS : Z := 2 ^ 23.
Definition FUSE_CAP_NO_OPENDIR_SUPPORT : Z := 2 ^ 24.
Definition FUSE_CAP_EXPLICIT_INVAL_DATA : Z := 2 ^ 25.

Definition FUSE_ASYNC_READ : Z := 2 ^ 0.
Definition FUSE_POSIX_LOCKS : Z := 2 ^ 1.
Definition FUSE_ATOMIC_O_TRUNC : Z := 2 ^ 3.
Definition FUSE_EXPORT_SUPPORT : Z := 2 ^ 4.
Definition FUSE_BIG_WRITES : Z := 2 ^ 5.
Definition FUSE_DONT_MASK : Z := 2 ^ 6.
Definition FUSE_FLOCK_LOCKS : Z := 2 ^ 10.
Definition FUSE_AUTO_INVAL_DATA : Z := 2 ^ 12.
Definition FUSE_DO_READDIRPLUS : Z := 2 ^ 13.
Definition FUSE_READDIRPLUS_AUTO : Z := 2 ^ 14.
Definition FUSE_ASYNC_DIO : Z := 2 ^ 15.
Definition FUSE_WRITEBACK_CACHE : Z := 2 ^ 16.
Definition FUSE_NO_OPEN_SUPPORT : Z := 2 ^ 17.
Definition FUSE_PARALLEL_DIROPS : Z := 2 ^ 18.
Definition FUSE_HANDLE_KILLPRIV : Z := 2 ^ 19.
Definition FUSE_POSIX_ACL : Z := 2 ^ 20.
Definition FUSE_MAX_PAGES : Z := 2 ^ 22.
Definition FUSE_CACHE_SYMLINKS : Z := 2 ^ 23.
Definition FUSE_NO_OPENDIR_SUPPORT : Z := 2 ^ 24.
Definition FUSE_EXPLICIT_INVAL_DATA : Z := 2 ^ 25.

(** A run of [if (x & f) y |= c]. *)
Definition translate (tbl : list (Z * Z)) (x y : Z) : Z :=
  fold_left (fun y fc => if has x fc.1 then Z.lor y fc.2 else y) tbl y.

(** Kernel flags and the capabilities they announce. *)
Definition capable_table : list (Z * Z) :=
  [(FUSE_ASYNC_READ, FUSE_CAP_ASYNC_READ); (FUSE_POSIX_LOCKS, FUSE_CAP_POSIX_LOCKS);
   (FUSE_ATOMIC_O_TRUNC, FUSE_CAP_ATOMIC_O_TRUNC); (FUSE_EXPORT_SUPPORT, FUSE_CAP_EXPORT_SUPPORT);
   (FUSE_DONT_MASK, FUSE_CAP_DONT_MASK); (FUSE_FLOCK_LOCKS, FUSE_CAP_FLOCK_LOCKS);
   (FUSE_AUTO_INVAL_DATA, FUSE_CAP_AUTO_INVAL_DATA); (FUSE_DO_READDIRPLUS, FUSE_CAP_READDIRPLUS);
   (FUSE_READDIRPLUS_AUTO, FUSE_CAP_READDIRPLUS_AUTO); (FUSE_ASYNC_DIO, FUSE_CAP_ASYNC_DIO);
   (FUSE_WRITEBACK_CACHE, FUSE_CAP_WRITEBACK_CACHE); (FUSE_NO_OPEN_SUPPORT, FUSE_CAP_NO_OPEN_SUPPORT);
   (FUSE_PARALLEL_DIROPS, FUSE_CAP_PARALLEL_DIROPS); (FUSE_POSIX_ACL, FUSE_CAP_POSIX_ACL);
   (FUSE_HANDLE_KILLPRIV, FUSE_CAP_HANDLE_KILLPRIV); (FUSE_CACHE_SYMLINKS, FUSE_CAP_CACHE_SYMLINKS);
   (FUSE_NO_OPENDIR_SUPPORT, FUSE_CAP_NO_OPENDIR_SUPPORT);
   (FUSE_EXPLICIT_INVAL_DATA, FUSE_CAP_EXPLICIT_INVAL_DATA)].

(** Capabilities and the flags of the reply. *)
Definition want_table : list (Z * Z) :=
  [(FUSE_CAP_ASYNC_READ, FUSE_ASYNC_READ); (FUSE_CAP_POSIX_LOCKS, FUSE_POSIX_LOCKS);
   (FUSE_CAP_ATOMIC_O_TRUNC, FUSE_ATOMIC_O_TRUNC); (FUSE_CAP_EXPORT_SUPPORT, FUSE_EXPORT_SUPPORT);
   (FUSE_CAP_DONT_MASK, FUSE_DONT_MASK); (FUSE_CAP_FLOCK_LOCKS, FUSE_FLOCK_LOCKS);
   (FUSE_CAP_AUTO_INVAL_DATA, FUSE_AUTO_INVAL_DATA); (FUSE_CAP_READDIRPLUS, FUSE_DO_READDIRPLUS);
   (FUSE_CAP_READDIRPLUS_AUTO, FUSE_READDIRPLUS_AUTO); (FUSE_CAP_ASYNC_DIO, FUSE_ASYNC_DIO);
   (FUSE_CAP_WRITEBACK_CACHE, FUSE_WRITEBACK_CACHE); (FUSE_CAP_POSIX_ACL, FUSE_POSIX_ACL);
   (FUSE_CAP_CACHE_SYMLINKS, FUSE_CACHE_SYMLINKS);
   (FUSE_CAP_EXPLICIT_INVAL_DATA, FUSE_EXPLICIT_INVAL_DATA)].

Definition init_capable (minor flags : Z) : Z :=
  let c := if 6 <=? minor then translate capable_table flags 0 else 0 in
  let c := if 14 <=? minor
           then Z.lor (Z.lor c (Z.lor FUSE_CAP_SPLICE_WRITE FUSE_CAP_SPLICE_MOVE)) FUSE_CAP_SPLICE_READ
           else c in
  if 18 <=? minor then Z.lor c FUSE_CAP_IOCTL_DIR else c.

Definition is_some {A} (o : option A) : bool := match o with Some _ => true | None => false end.

(** The [LL_SET_DEFAULT] lines: conditions and capabilities. *)
Definition default_table : list (bool * Z) :=
  [(true, FUSE_CAP_ASYNC_READ); (true, FUSE_CAP_PARALLEL_DIROPS); (true, FUSE_CAP_AUTO_INVAL_DATA);
   (true, FUSE_CAP_HANDLE_KILLPRIV); (true, FUSE_CAP_ASYNC_DIO); (true, FUSE_CAP_IOCTL_DIR);
   (true, FUSE_CAP_ATOMIC_O_TRUNC); (is_some (op_write_buf op), FUSE_CAP_SPLICE_READ);
   (is_some (op_getlk op) && is_some (op_setlk op), FUSE_CAP_POSIX_LOCKS);
   (is_some (op_flock op), FUSE_CAP_FLOCK_LOCKS); (is_some (op_readdirplus op), FUSE_CAP_READDIRPLUS);
   (is_some (op_readdirplus op) && is_some (op_readdir op), FUSE_CAP_READDIRPLUS_AUTO)].

Definition default_want (cap : Z) : Z :=
  fold_left (fun w cc => if (cc.1 : bool) && has cap cc.2 then Z.lor w cc.2 else w) default_table 0.

Definition FUSE_BUFFER_HEADER_SIZE : Z := 4096.
Definition FUSE_DEFAULT_MAX_PAGES_PER_REQ : Z := 32.
Definition FUSE_MIN_READ_BUFFER : Z := 8192.
Definition FUSE_KERNEL_VERSION : Z := 7.
Definition FUSE_KERNEL_MINOR_VERSION : Z := 31.

Definition enc_init_out (major minor readahead flags background threshold write gran pages : Z) : bytes :=
  le 4 major ++ le 4 minor ++ le 4 readahead ++ le 4 flags ++ le 2 background ++ le 2 threshold ++
  le 4 write ++ le 4 gran ++ le 2 pages ++ le 2 0 ++ replicate 32 0.

(** The buffer size of the session after the limits of this request. *)
Definition init_bufsize (minor flags bufsz psz : Z) : Z :=
  let max_bufsize := FUSE_DEFAULT_MAX_PAGES_PER_REQ * psz + FUSE_BUFFER_HEADER_SIZE in
  let b := if (6 <=? minor) && negb (has flags FUSE_MAX_PAGES) && (max_bufsize <? bufsz)
           then max_bufsize else bufsz in
  if b <? FUSE_MIN_READ_BUFFER then FUSE_MIN_READ_BUFFER else b.

(** The connection as [op.init] gets it. *)
Definition init_conn (major minor readahead flags bufsz : Z) (c : fuse_conn_info) : fuse_conn_info :=
  let cap := init_capable minor flags in
  {| proto_major := major; proto_minor := minor;
     max_write := if bufsz - FUSE_BUFFER_HEADER_SIZE <? max_write c
                  then u32 (bufsz - FUSE_BUFFER_HEADER_SIZE) else max_write c;
     max_read := max_read c;
     max_readahead := if 6 <=? minor
                      then if readahead <? max_readahead c then readahead else max_readahead c
                      else 0;
     capable := cap; want := default_want cap;
     max_background := max_background c; congestion_threshold := congestion_threshold c;
     time_gran := 1 |}.

(** The limits on background requests, from protocol 7.13 on. *)
Definition init_background (c : fuse_conn_info) : fuse_conn_info :=
  if 13 <=? proto_minor c then
    let mb := if 65536 <=? max_background c then 65535 else max_background c in
    let ct := if mb <? congestion_threshold c then mb else congestion_threshold c in
    let ct := if ct =? 0 then u32 (mb * 3) / 4 else ct in
    ConnInfo (proto_major c) (proto_minor c) (max_write c) (max_read c) (max_readahead c)
      (capable c) (want c) mb ct (time_gran c)
  else c.

Definition init_fail (req : Z) : M unit :=
  _ ← err_reply req EPROTO;
  _ ← set_se (with_error (- EPROTO));
  fuse_session_exit.

(** The flags of the reply that do not depend on the file system. *)
Definition init_oflags (flags : Z) : Z :=
  Z.lor (if has flags FUSE_MAX_PAGES then FUSE_MAX_PAGES else 0) FUSE_BIG_WRITES.

(** The reply to an INIT that was accepted; [aminor] is the kernel's version. *)
Definition init_reply (req flags psz aminor : Z) : M unit :=
  s ← get;
  let c := conn (se s) in
  let oflags := init_oflags flags in
  let pages := if has flags FUSE_MAX_PAGES then u16 (u32 (max_write c - 1) / psz + 1) else 0 in
  let c := init_background c in
  _ ← set_se (with_conn c);
  let bg := if 13 <=? proto_minor c then u16 (max_background c) else 0 in
  let ct := if 13 <=? proto_minor c then u16 (congestion_threshold c) else 0 in
  let gran := if 23 <=? proto_minor c then time_gran c else 0 in
  let outarg := enc_init_out FUSE_KERNEL_VERSION FUSE_KERNEL_MINOR_VERSION (max_readahead c)
                  (translate want_table (want c) oflags) bg ct (max_write c) gran pages in
  let outargsize := if aminor <? 5 then 8%nat else if aminor <? 23 then 24%nat else 64%nat in
  _ ← send_reply_ok req (take outargsize outarg); mret tt.

(** [struct fuse_init_in]: major 0, minor 4, max_readahead 8, flags 12. *)
Definition do_init (req nodeid : Z) (inarg : bytes) : M unit :=
  s ← get;
  let major := u32_at inarg 0 in
  let minor := u32_at inarg 4 in
  let flags := u32_at inarg 12 in
  let c := conn (se s) in
  let c := ConnInfo major minor (max_write c) (max_read c) (max_readahead c) 0 0
             (max_background c) (congestion_threshold c) (time_gran c) in
  _ ← set_se (with_conn c);
  if major <? 7 then err_reply req EPROTO else
  if 7 <? major then
    _ ← send_reply_ok req (enc_init_out FUSE_KERNEL_VERSION FUSE_KERNEL_MINOR_VERSION 0 0 0 0 0 0 0);
    mret tt
  else
    let psz := pagesize (se s) in
    let bufsz := init_bufsize minor flags (bufsize (se s)) psz in
    let c := init_conn major minor (u32_at inarg 8) flags bufsz c in
    _ ← set_se (fun e => with_got_init true (with_bufsize bufsz (with_conn c e)));
    c ← match op_init op with
        | Some f => c ← f c; _ ← set_se (with_conn c); mret c
        | None => mret c
        end;
    if has (want c) (Z.land (Z.lnot (capable c)) (Z.ones 32)) then init_fail req else
    if negb (max_read c =? mo_max_read (se s)) then init_fail req else
    _ ← (if max_write c <? bufsz - FUSE_BUFFER_HEADER_SIZE
         then set_se (with_bufsize (u32 (max_write c + FUSE_BUFFER_HEADER_SIZE))) else mret tt);
    init_reply req flags psz minor.

Definition do_destroy (req nodeid : Z) (inarg : bytes) : M unit :=
  _ ← set_se (with_got_destroy true);
  _ ← match op_destroy op with Some f => f | None => mret tt end;
  _ ← send_reply_ok req []; mret tt.
(** ** Notifications *)

Definition FUSE_NOTIFY_POLL : Z := 1.
Definition FUSE_NOTIFY_INVAL_INODE : Z := 2.
Definition FUSE_NOTIFY_INVAL_ENTRY : Z := 3.
Definition FUSE_NOTIFY_STORE : Z := 4.
Definition FUSE_NOTIFY_RETRIEVE : Z := 5.
Definition FUSE_NOTIFY_DELETE : Z := 6.

Definition send_notify_iov (notify_code : Z) (iov : list bytes) : M Z :=
  s ← get;
  if negb (got_init (se s)) then mret (- ENOTCONN) else
  fuse_send_msg None notify_code 0 iov.

Definition fuse_lowlevel_notify_poll (ph : option Z) : M Z :=
  match ph with
  | Some kh => send_notify_iov FUSE_NOTIFY_POLL [le 8 kh]
  | None => mret 0
  end.

Definition fuse_lowlevel_notify_inval_inode (ino off len : Z) : M Z :=
  s ← get;
  if proto_minor (conn (se s)) <? 12 then mret (- ENOSYS) else
  send_notify_iov FUSE_NOTIFY_INVAL_INODE [le 8 ino ++ le 8 off ++ le 8 len].

(** The name is followed by its terminating NUL. *)
Definition fuse_lowlevel_notify_inval_entry (parent : Z) (name : bytes) : M Z :=
  s ← get;
  if proto_minor (conn (se s)) <? 12 then mret (- ENOSYS) else
  send_notify_iov FUSE_NOTIFY_INVAL_ENTRY
    [le 8 parent ++ le 4 (Z.of_nat (length name)) ++ le 4 0; name ++ [0]].

Definition fuse_lowlevel_notify_delete (parent child : Z) (name : bytes) : M Z :=
  s ← get;
  if proto_minor (conn (se s)) <? 18 then mret (- ENOSYS) else
  send_notify_iov FUSE_NOTIFY_DELETE
    [le 8 parent ++ le 8 child ++ le 4 (Z.of_nat (length name)) ++ le 4 0; name ++ [0]].

Definition fuse_lowlevel_notify_store (ino offset : Z) (bufv : fuse_bufvec) (flags : Z) : M Z :=
  s ← get;
  let size := fuse_buf_size bufv in
  if proto_minor (conn (se s)) <? 15 then mret (- ENOSYS) else
  r ← fuse_send_data_iov None FUSE_NOTIFY_STORE 0 [le 8 ino ++ le 8 offset ++ le 4 size ++ le 4 0] bufv flags;
  mret (if 0 <? r.1 then - r.1 else r.1).

(** [struct fuse_notify_retrieve_in]: offset 8, size 16. *)
Definition fuse_ll_retrieve_reply (nreq req ino : Z) (inarg : bytes) (addr : Z) (ibuf : fuse_buf) : M unit :=
  s ← get;
  nq ← of_option (nreqs s !! nreq);
  let is_fd := has (bflags ibuf) FUSE_BUF_IS_FD in
  let b := FuseBuf (u64 (bsize ibuf - (IN_HEADER + 40))) (bflags ibuf)
             (if is_fd then bmem ibuf else addr + 40) (bfd ibuf) (bpos ibuf) in
  let size := u32_at inarg 16 in
  bufv ← (if bsize b <? size then
            _ ← fuse_reply_none req; mret (FuseBufvec 1 0 0 [b])
          else
            let v := FuseBufvec 1 0 0 [FuseBuf size (bflags b) (bmem b) (bfd b) (bpos b)] in
            match op_retrieve_reply op with
            | Some f => f req (n_cookie nq) ino (i64 (u64_at inarg 8)) v
            | None => _ ← fuse_reply_none req; mret v
            end);
  _ ← set_nreqs (delete nreq);
  s ← get; _ ← set_links (delete nreq (lks s));
  if is_fd && bool_decide (bidx bufv < bcount bufv)%nat then fuse_ll_clear_pipe else mret tt.

(** The first node of the notify list with this number. *)
Fixpoint find_nreq (uniq : Z) (l : list Z) : M (option Z) :=
  match l with
  | [] => mret None
  | n :: l => s ← get; q ← of_option (nreqs s !! n);
              if n_unique q =? uniq then mret (Some n) else find_nreq uniq l
  end.

Definition do_notify_reply (req nodeid : Z) (inarg : bytes) (addr : Z) (buf : fuse_buf) : M unit :=
  q ← get_req req;
  l ← nodes_of NOTIFY_LIST;
  nreq ← find_nreq (unique q) l;
  match nreq with
  | Some n => _ ← on_links (list_del n); fuse_ll_retrieve_reply n req nodeid inarg addr buf
  | None => mret tt
  end.

Definition fuse_lowlevel_notify_retrieve (ino size offset cookie : Z) : M Z :=
  s ← get;
  if proto_minor (conn (se s)) <? 15 then mret (- ENOSYS) else
  ok ← malloc;
  if negb ok then mret (- ENOMEM) else
  rreq ← new_ptr;
  s ← get;
  let uniq := notify_ctr (se s) in
  _ ← set_nreqs (fun m => <[rreq := NotifyReq uniq cookie]> m);
  _ ← set_se (with_notify_ctr (u64 (uniq + 1)));
  _ ← on_links (fun m => list_add rreq NOTIFY_LIST (<[rreq := Link 0 0]> m));
  err ← send_notify_iov FUSE_NOTIFY_RETRIEVE
          [le 8 uniq ++ le 8 ino ++ le 8 offset ++ le 4 size ++ le 4 0];
  if negb (err =? 0) then
    _ ← on_links (list_del rreq);
    _ ← set_nreqs (delete rreq);
    s ← get; _ ← set_links (delete rreq (lks s));
    mret err
  else mret err.

(** ** The opcode table *)

Definition FUSE_INIT : Z := 26.
Definition FUSE_WRITE : Z := 16.
Definition FUSE_INTERRUPT : Z := 36.
Definition FUSE_NOTIFY_REPLY : Z := 41.
Definition CUSE_INIT : Z := 4096.

(** [NOTIFY_REPLY] and, for a FUSE session, [CUSE_INIT] are never called
    through the table. *)
Definition fuse_ll_ops : list (Z * (Z -> Z -> bytes -> M unit)) :=
  [(1, do_lookup); (2, do_forget); (3, do_getattr); (4, do_setattr); (5, do_readlink);
   (6, do_symlink); (8, do_mknod); (9, do_mkdir); (10, do_unlink); (11, do_rmdir);
   (12, do_rename); (13, do_link); (14, do_open); (15, do_read); (FUSE_WRITE, do_write);
   (17, do_statfs); (18, do_release); (20, do_fsync); (21, do_setxattr); (22, do_getxattr);
   (23, do_listxattr); (24, do_removexattr); (25, do_flush); (FUSE_INIT, do_init); (27, do_opendir);
   (28, do_readdir); (29, do_releasedir); (30, do_fsyncdir); (31, do_getlk); (32, do_setlk);
   (33, do_setlkw); (34, do_access); (35, do_create); (FUSE_INTERRUPT, do_interrupt);
   (37, do_bmap); (39, do_ioctl); (40, do_poll); (43, do_fallocate); (38, do_destroy);
   (FUSE_NOTIFY_REPLY, fun _ _ _ => abort); (42, do_batch_forget); (44, do_readdirplus);
   (45, do_rename2); (47, do_copy_file_range); (46, do_lseek); (CUSE_INIT, fun _ _ _ => abort)].

Definition ll_func (opcode : Z) : option (Z -> Z -> bytes -> M unit) :=
  snd <$> find (fun e => e.1 =? opcode) fuse_ll_ops.

(** ** Processing a message *)

Definition fuse_ll_copy_from_pipe (dst src : fuse_bufvec) : M (Z * fuse_bufvec) :=
  r ← lift_w (fuse_buf_copy false dst src 0);
  let '(res, _, src) := r in
  if res <? 0 then mret (i32 res, src) else
  if res <? fuse_buf_size dst then mret (-1, src) else mret (0, src).

(** Opcodes that [allow_root] lets through for every user. *)
Definition always_allowed : list Z := [FUSE_INIT; 15; FUSE_WRITE; 20; 18; 28; 30; 29; FUSE_NOTIFY_REPLY; 44].

(** Why a request is refused before it is dispatched. *)
Definition refusal (s : fuse_session) (opcode uid : Z) : option Z :=
  if (if negb (got_init s) then negb (opcode =? FUSE_INIT)
      else (opcode =? FUSE_INIT) || (opcode =? CUSE_INIT)) then Some EIO else
  if deny_others s && negb (uid =? owner s) && negb (uid =? 0) &&
     negb (existsb (Z.eqb opcode) always_allowed) then Some EACCES else
  match ll_func opcode with None => Some ENOSYS | Some _ => None end.

Definition clear_if_fd (buf : fuse_buf) : M unit :=
  if has (bflags buf) FUSE_BUF_IS_FD then fuse_ll_clear_pipe else mret tt.

Definition WRITE_HEADER : Z := 80.

(** The request has been registered: fetch the rest of the message and call the
    handler.  [in_] is the address of the header, [bufv] what is left in the
    pipe. *)
Definition dispatch (req : Z) (buf : fuse_buf) (in_ : Z) (bufv : fuse_bufvec) (opcode nodeid : Z) : M unit :=
  let is_fd := has (bflags buf) FUSE_BUF_IS_FD in
  let to_write_buf := (opcode =? FUSE_WRITE) && is_some (op_write_buf op) in
  fetched ← (if is_fd && (WRITE_HEADER <? bsize buf) && negb to_write_buf &&
                negb (opcode =? FUSE_NOTIFY_REPLY) then
               ok ← malloc;
               if negb ok then mret (Some ENOMEM) else
               r ← fuse_ll_copy_from_pipe
                     (FuseBufvec 1 0 0 [FuseBuf (bsize buf - WRITE_HEADER) 0 (in_ + WRITE_HEADER) (-1) 0]) bufv;
               mret (if r.1 <? 0 then Some (- r.1) else None)
             else mret None);
  match fetched with
  | Some err => _ ← err_reply req err; clear_if_fd buf
  | None =>
      inarg ← load_mem (in_ + IN_HEADER) (bsize buf - IN_HEADER);
      if to_write_buf then do_write_buf req nodeid inarg (in_ + IN_HEADER) buf
      else if opcode =? FUSE_NOTIFY_REPLY then do_notify_reply req nodeid inarg (in_ + IN_HEADER) buf
      else match ll_func opcode with Some f => f req nodeid inarg | None => abort end
  end.

(** [struct fuse_in_header]: opcode 4, unique 8, nodeid 16, uid 24, gid 28, pid
    32.  [in_] is the address of the header. *)
Definition process_request (buf : fuse_buf) (c : option Z) (in_ : Z) (bufv : fuse_bufvec) : M unit :=
  hdr ← load_mem in_ IN_HEADER;
  let uniq := u64_at hdr 8 in
  let opcode := u32_at hdr 4 in
  req ← fuse_ll_alloc_req;
  match req with
  | None => _ ← fuse_send_msg c (- ENOMEM) uniq []; clear_if_fd buf
  | Some req =>
      c ← match c with Some c => c ← fuse_chan_get c; mret (Some c) | None => mret None end;
      _ ← put_req req (Req uniq 1 (ReqCtx (u32_at hdr 24) (u32_at hdr 28) (u32_at hdr 32) 0) c false
                         false (U_ni None 0));
      s ← get;
      match refusal (se s) opcode (u32_at hdr 24) with
      | Some err => _ ← err_reply req err; clear_if_fd buf
      | None =>
          _ ← (if negb (opcode =? FUSE_INTERRUPT) then
                 intr ← check_interrupt req;
                 _ ← on_links (list_add req LIST);
                 match intr with Some i => err_reply i EAGAIN | None => mret tt end
               else mret tt);
          dispatch req buf in_ bufv opcode (u64_at hdr 16)
      end
  end.

Definition fuse_session_process_buf_int (buf : fuse_buf) (c : option Z) : M unit :=
  let bufv := FuseBufvec 1 0 0 [buf] in
  if has (bflags buf) FUSE_BUF_IS_FD then
    let hsize := if bsize buf <? WRITE_HEADER then bsize buf else WRITE_HEADER in
    ok ← malloc;
    if negb ok then clear_if_fd buf else
    mbuf ← brk_alloc (Z.max hsize (bsize buf));
    r ← fuse_ll_copy_from_pipe (FuseBufvec 1 0 0 [FuseBuf hsize 0 mbuf (-1) 0]) bufv;
    _ ← (if r.1 <? 0 then clear_if_fd buf else process_request buf c mbuf r.2);
    brk_free mbuf
  else process_request buf c (bmem buf) bufv.

Definition fuse_session_process_buf (buf : fuse_buf) : M unit := fuse_session_process_buf_int buf None.

(** ** Receiving *)

Definition dev_fd (c : option Z) : M Z :=
  s ← get;
  match c with
  | Some c => k ← of_option (chans s !! c); mret (ch_fd k)
  | None => mret (se_fd (se s))
  end.

(** [buf->mem = malloc(se->bufsize)] if there is none; [None] on failure. *)
Definition ensure_mem (buf : fuse_buf) : M (option fuse_buf) :=
  if negb (bmem buf =? 0) then mret (Some buf) else
  ok ← malloc;
  if negb ok then mret None else
  s ← get; p ← brk_alloc (bufsize (se s));
  mret (Some (FuseBuf (bsize buf) (bflags buf) p (bfd buf) (bpos buf))).

(** [read] is restarted while it reports an interrupted operation. *)
Fixpoint receive_read (fuel : nat) (fd : Z) (buf : fuse_buf) : M (Z * fuse_buf) :=
  match fuel with
  | O => abort
  | S fuel =>
      s ← get;
      r ← sys (sys_read fd (bufsize (se s)));
      if exited (se s) then mret (0, buf) else
      match r with
      | inl e =>
          if e =? ENOENT then receive_read fuel fd buf else
          if e =? ENODEV then _ ← fuse_session_exit; mret (0, buf) else mret (- e, buf)
      | inr data =>
          let n := Z.of_nat (length data) in
          s ← get; let w := mach s in
          _ ← set_mach (World (os w) (store (ram w) (bmem buf) data) (brk w));
          if n <? IN_HEADER then mret (- EIO, buf) else
          mret (i32 n, FuseBuf n (bflags buf) (bmem buf) (bfd buf) (bpos buf))
      end
  end.

Definition receive_fallback (fuel : nat) (buf : fuse_buf) (c : option Z) : M (Z * fuse_buf) :=
  b ← ensure_mem buf;
  match b with
  | None => mret (- ENOMEM, buf)
  | Some buf => fd ← dev_fd c; receive_read fuel fd buf
  end.

Definition fuse_session_receive_buf_int (fuel : nat) (buf : fuse_buf) (c : option Z) : M (Z * fuse_buf) :=
  s ← get;
  let bufsz := bufsize (se s) in
  if (proto_minor (conn (se s)) <? 14) || negb (has (want (conn (se s))) FUSE_CAP_SPLICE_READ)
  then receive_fallback fuel buf c else
  llp ← fuse_ll_get_pipe;
  match llp with
  | None => receive_fallback fuel buf c
  | Some llp =>
      llp ← ensure_pipe llp bufsz;
      match llp with
      | None => receive_fallback fuel buf c
      | Some llp =>
          fd ← dev_fd c;
          r ← sys (sys_splice fd None (p_wr llp) None bufsz 0);
          if exited (se s) then mret (0, buf) else
          match r with
          | inl e => if e =? ENODEV then _ ← fuse_session_exit; mret (0, buf) else mret (- e, buf)
          | inr n =>
              if n <? IN_HEADER then mret (- EIO, buf) else
              if n <? WRITE_HEADER + pagesize (se s) then
                b ← ensure_mem buf;
                match b with
                | None => mret (- ENOMEM, buf)
                | Some buf =>
                    let dst := FuseBuf bufsz 0 (bmem buf) (bfd buf) (bpos buf) in
                    r ← lift_w (fuse_buf_copy false (FuseBufvec 1 0 0 [dst])
                          (FuseBufvec 1 0 0 [FuseBuf n FUSE_BUF_IS_FD 0 (p_rd llp) 0]) 0);
                    let res := (r.1).1 in
                    if res <? 0 then _ ← fuse_ll_clear_pipe; mret (i32 res, dst) else
                    if res <? n then _ ← fuse_ll_clear_pipe; mret (- EIO, dst) else
                    _ ← check (res =? n);
                    mret (i32 res, FuseBuf n 0 (bmem buf) (bfd buf) (bpos buf))
                end
              else mret (i32 n, FuseBuf n FUSE_BUF_IS_FD (bmem buf) (p_rd llp) (bpos buf))
          end
      end
  end.

Definition fuse_session_receive_buf (fuel : nat) (buf : fuse_buf) : M (Z * fuse_buf) :=
  fuse_session_receive_buf_int fuel buf None.

Definition fuse_session_destroy : M unit :=
  s ← get;
  _ ← (if got_init (se s) && negb (got_destroy (se s))
       then match op_destroy op with Some f => f | None => mret tt end else mret tt);
  s ← get;
  _ ← match pipe (se s) with Some llp => fuse_ll_pipe_free llp | None => mret tt end;
  if negb (se_fd (se s) =? -1) then _ ← sys (sys_close (se_fd (se s))); mret tt else mret tt.
End Dispatch.

(** ** Interrupts that arrived first *)

Section Interrupt.
Context {OS U : Type} `{FdOps OS} `{DevOps OS}.
Implicit Types (s : LL OS U).

Lemma find_req_targets s uq k : (forall r, r ∈ k -> exists q t, reqs s !! r = Some q /\ ctr q = 1 /\ u q = U_i t) ->
  exists o, find_req (targets uq) k s = Some (o, s) /\ forall c, o = Some c -> c ∈ k.
Proof.
  induction k as [|c k IH]; intros Hk; [by exists None|]. cbn [find_req].
  destruct (Hk c) as (q & t & E & _ & Eu); [by left|].
  erewrite bind_step by (by apply get_req_Some).
  erewrite bind_step by (unfold targets; rewrite Eu; reflexivity).
  destruct (t =? uq).
  - exists (Some c). split; [done|]. intros ? [= ->]. by left.
  - destruct IH as (o & Eo & Ho); [intros r Hr; apply Hk; by right|].
    exists o. split; [done|]. intros c' Hc'. right. by apply Ho.
Qed.

Lemma nodes_of_spec s h k : dl (lks s) h k -> nodes_of h s = Some (k, s).
Proof.
  intros D. unfold nodes_of. erewrite bind_step by reflexivity. by rewrite (list_nodes_spec _ _ _ D).
Qed.

(** The parts of the state no interrupt bookkeeping touches. *)
Definition same_out (s s' : LL OS U) : Prop :=
  se s' = se s /\ sent s' = sent s /\ heap s' = heap s /\ user s' = user s /\ mach s' = mach s /\
  chans s' = chans s.

(** The interrupt was for this very request: it is dropped. *)
Lemma drop_interrupt s l i n r q c m' f d : inv s l i n -> live s l i n r q -> r ∉ l -> u q = U_ni f d ->
  c ∈ i -> inv (upd_links (delete c m') s) l (without c i) n ->
  (forall x k, x ∉ INTERRUPTS :: i -> lks s !! x = Some k -> m' !! x = Some k) ->
  let q' := Req (unique q) (ctr q) (ctx q) (ch q) true (ioctl_64bit q) (u q) in
  let s' := upd_reqs (delete c (<[r := q']> (reqs s))) (upd_links (delete c m') s) in
  inv s' l (without c i) n /\ live s' l (without c i) n r q'.
Proof.
  intros I (Er & Ec & Hh & Hri & Hrn & [?|Ek]) Hl Hu Hc I1 Hm q' s'; [done|].
  assert (c <> r) as Hcr by (intros ->; apply Hri; by right).
  assert (r ∉ INTERRUPTS :: without c i) as Hri'.
  { intros [->|[_ Hr]%elem_of_without]%elem_of_cons; apply Hri; [by left|by right]. }
  split.
  - set (s1 := upd_links (delete c m') s) in *. set (s2 := upd_reqs (<[r := q']> (reqs s1)) s1).
    assert (inv s2 l (without c i) n) as I2.
    { apply inv_put_req; [done| |done| |by exists f, d]; [|exact (inv_ch _ _ _ _ I r q Er)].
      intros Hr. apply Hri'. by right. }
    change s' with (upd_reqs (delete c (reqs s2)) s2). apply inv_del_req; [done| |].
    + intros Hcl. apply (inv_li _ _ _ _ I c); by right.
    + by intros [? _]%elem_of_without.
  - unfold live. cbn. rewrite lookup_delete_ne, lookup_insert_eq by done. repeat split; try done.
    right. rewrite lookup_delete_ne by done. by apply Hm.
Qed.

(** An interrupt for another request: it is detached, for the caller to answer. *)
Lemma detach_interrupt s l i n r q c m' : inv s l (c :: i) n -> live s l (c :: i) n r q -> r ∉ l ->
  inv (upd_links (delete c m') s) l i n ->
  (forall x k, x ∉ INTERRUPTS :: c :: i -> lks s !! x = Some k -> m' !! x = Some k) ->
  let s' := upd_links (list_init c m') s in
  inv s' l i n /\ live s' l i n r q /\ c <> r /\ (c ∉ i) /\ (c ∉ l) /\ exists qc, live s' l i n c qc.
Proof.
  intros I (Er & Ec & Hh & Hri & Hrn & [?|Ek]) Hl I1 Hm s'; [done|].
  assert (c <> r) as Hcr by (intros ->; apply Hri; right; by left).
  assert (c ∉ LIST :: l) as C1 by (intros Hc; apply (inv_li _ _ _ _ I c Hc); right; by left).
  assert (c ∉ NOTIFY_LIST :: n) as C3 by (apply (inv_in _ _ _ _ I); right; by left).
  destruct (inv_intr _ _ _ _ I) as [[Hn1 [Hn2 _]%NoDup_cons]%NoDup_cons _].
  assert (c ∉ INTERRUPTS :: i) as C2 by (intros [->|?]%elem_of_cons; [apply Hn1; by left|done]).
  assert (c < fresh s) as Hcf.
  { apply (inv_fresh _ _ _ _ I), (dl_mem _ _ _ _ (inv_intr _ _ _ _ I)). right; by left. }
  destruct (inv_i _ _ _ _ I c ltac:(by left)) as (qc & t & Eqc & Hqc & _).
  pose proof (inv_link _ _ _ _ c (Link c c) I1 C1 C2 C3 Hcf) as I2. cbn in I2. rewrite insert_delete_eq in I2.
  apply not_elem_of_cons in C1 as [C1a C1b]. split; [exact I2|]. split; [|split; [done|split; [done|split; [done|exists qc]]]].
  - unfold live. cbn. split; [done|]. split; [done|]. split; [done|]. split.
    { intros [->|Hr]%elem_of_cons; apply Hri; [by left|right; by right]. }
    split; [done|]. right. unfold list_init. rewrite lookup_insert_ne by done. by apply Hm.
  - unfold live. cbn. unfold list_init. rewrite lookup_insert_eq. by repeat split; try right.
Qed.

(** [check_interrupt] on a new request: either no interrupt is left to answer,
    or an unrelated one is taken off the list for the caller to answer. *)
Lemma check_interrupt_spec s l i n r q f d : inv s l i n -> live s l i n r q -> r ∉ l -> u q = U_ni f d ->
  exists o s' i' q', check_interrupt r s = Some (o, s') /\ inv s' l i' n /\ live s' l i' n r q' /\
    unique q' = unique q /\ u q' = u q /\ same_out s s' /\ (forall a, a ∈ i' -> a ∈ i) /\
    (forall c, o = Some c -> c <> r /\ (c ∉ i') /\ (c ∉ l) /\ exists qc, live s' l i' n c qc).
Proof.
  intros I L Hl Hu. pose proof L as (Er & _).
  unfold check_interrupt. erewrite bind_step by (by apply get_req_Some).
  erewrite bind_step by (apply nodes_of_spec, I).
  destruct (find_req_targets s (unique q) i) as (o & Eo & Ho); [apply I|].
  erewrite bind_step by exact Eo. destruct o as [c|]; [|destruct i as [|c i]].
  - specialize (Ho c eq_refl). destruct (unlink_intr s l i n c I Ho) as (m' & Em & Hd & I1 & Hm).
    destruct (drop_interrupt s l i n r q c m' f d I L Hl Hu Ho I1 Hm) as [I2 L2].
    eexists None, _, (without c i), _. split.
    { unfold set_interrupted.
      erewrite bind_step by (erewrite bind_step by (by apply get_req_Some); reflexivity).
      erewrite bind_step by (unfold on_links; erewrite bind_step by reflexivity; cbn [lks]; rewrite Em; reflexivity).
      reflexivity. }
    split; [exact I2|]. split; [exact L2|]. split; [done|]. split; [done|]. split; [by repeat split|].
    split; [by intros a [_ Ha]%elem_of_without|done].
  - exists None, s, [], q. split; [done|]. split; [done|]. split; [done|]. by repeat split.
  - destruct (unlink_intr s l (c :: i) n c I ltac:(by left)) as (m' & Em & Hd & I1 & Hm).
    assert (without c (c :: i) = i) as Ei.
    { destruct (inv_intr _ _ _ _ I) as [[_ [Hn _]%NoDup_cons]%NoDup_cons _].
      unfold without. rewrite filter_cons_False by naive_solver. by apply without_notin. }
    rewrite Ei in I1. destruct (detach_interrupt s l i n r q c m' I L Hl I1 Hm) as (I2 & L2 & Hcr & Hci & Hcl & Lc).
    eexists (Some c), _, i, q. split.
    { erewrite bind_step by (unfold on_links; erewrite bind_step by reflexivity; rewrite Em; reflexivity).
      reflexivity. }
    split; [exact I2|]. split; [exact L2|]. split; [done|]. split; [done|]. split; [by repeat split|].
    split; [by right|]. intros ? [= <-]. by repeat split.
Qed.
End Interrupt.

(** ** Every request is answered *)

Section Answered.
Context {OS U : Type} `{FdOps OS} `{DevOps OS}.
Context (op : fuse_lowlevel_ops OS U) (intr_call : Z -> Z -> Z -> ST (LL OS U) unit).
(** What the file system knows about its own state before a request and
    promises after it. *)
Context (P P' : U -> Prop) (keep : forall usr, P usr -> P' usr).
Implicit Types (s : LL OS U).

(** [h] answers request [r], which is not an interrupt: it sends exactly one
    message, with the number of [r], frees [r], and leaves the session and the
    file system in order. *)
Definition answers (r : Z) (h : ST (LL OS U) unit) : Prop :=
  forall s l i n q, inv s l i n -> live s l i n r q -> (exists f d, u q = U_ni f d) -> P (user s) ->
  exists s' fd msg, h s = Some (tt, s') /\ inv s' (without r l) i n /\ P' (user s') /\
    sent s' = sent s ++ [(fd, msg)] /\ u64_at msg 8 = u64 (unique q).

(** The function [dispatch] calls for a message in memory. *)
Definition handler (opcode : Z) (buf : fuse_buf) (req nodeid : Z) (inarg : bytes) : ST (LL OS U) unit :=
  if (opcode =? FUSE_WRITE) && is_some (op_write_buf op)
  then do_write_buf op req nodeid inarg (bmem buf + IN_HEADER) buf
  else if opcode =? FUSE_NOTIFY_REPLY
  then do_notify_reply op req nodeid inarg (bmem buf + IN_HEADER) buf
  else match ll_func op intr_call opcode with Some f => f req nodeid inarg | None => abort end.

Lemma dispatch_memory s r buf bufv opcode nodeid : has (bflags buf) FUSE_BUF_IS_FD = false ->
  dispatch op intr_call r buf (bmem buf) bufv opcode nodeid s =
  handler opcode buf r nodeid
    (load (ram (mach s)) (bmem buf + IN_HEADER) (Z.to_nat (bsize buf - IN_HEADER))) s.
Proof.
  intros Hf. unfold dispatch, handler. rewrite Hf. cbn [andb].
  erewrite bind_step by reflexivity. cbv beta iota. erewrite bind_step by reflexivity. done.
Qed.

(** Replying is answering. *)
Lemma err_reply_once r err s l i n q : inv s l i n -> live s l i n r q -> P (user s) ->
  exists s' fd msg, err_reply r err s = Some (tt, s') /\ inv s' (without r l) i n /\ P' (user s') /\
    sent s' = sent s ++ [(fd, msg)] /\ u64_at msg 8 = u64 (unique q).
Proof.
  intros I L HP. destruct (fuse_reply_err_spec s l i n r q err I L) as (res & s' & E & A & _).
  destruct A as (I' & (_ & _ & _ & _ & Hu & _) & Es & _).
  exists s', (se_fd (se s)), (reply_msg (clamp_error (- err)) (unique q) []).
  split; [unfold err_reply; by erewrite bind_step by exact E|]. split; [done|].
  split; [rewrite Hu; by apply keep|]. split; [done|apply reply_msg_unique].
Qed.

Lemma err_reply_answers r err : answers r (err_reply r err).
Proof. intros s l i n q I L _. by apply err_reply_once. Qed.

(** What happens between the header and the handler: a stale interrupt is
    answered, the request joins the list. *)
Definition register (req : Z) : ST (LL OS U) unit :=
  intr ← check_interrupt req;
  _ ← on_links (list_add req LIST);
  match intr with Some i => err_reply i EAGAIN | None => mret tt end.

Lemma register_spec s l i n r q f d : inv s l i n -> live s l i n r q -> r ∉ l -> u q = U_ni f d ->
  exists s' i' q' pre, register r s = Some (tt, s') /\ inv s' (l ++ [r]) i' n /\
    live s' (l ++ [r]) i' n r q' /\ unique q' = unique q /\ user s' = user s /\
    ram (mach s') = ram (mach s) /\ sent s' = sent s ++ pre /\ (length pre <= 1)%nat /\
    Forall (fun e => exists uq, e.2 = reply_msg (- EAGAIN) uq []) pre /\ (forall a, a ∈ i' -> a ∈ i).
Proof.
  intros I L Hl Hu.
  destruct (check_interrupt_spec s l i n r q f d I L Hl Hu)
    as (o & s1 & i' & q1 & E1 & I1 & L1 & Hq1 & Hu1 & (O1 & O2 & O3 & O4 & O5 & O6) & Hi' & Ho).
  destruct (add_live s1 l i' n r q1 f d I1 L1 Hl ltac:(congruence)) as (m' & E2 & I2 & L2).
  unfold register. erewrite bind_step by exact E1.
  erewrite bind_step by (unfold on_links; erewrite bind_step by reflexivity; rewrite E2; reflexivity).
  destruct o as [c|].
  - destruct (Ho c eq_refl) as (Hcr & Hci & Hcl & qc & Lc).
    assert (live (upd_links m' s1) (l ++ [r]) i' n c qc) as Lc'.
    { destruct Lc as (Ec & Cc & Hc1 & Hc2 & Hc3 & [?|Hk]); [done|]. repeat split; try done. right.
      destruct (list_add_spec (lks s1) LIST l r (inv_list _ _ _ _ I1)) as (m2 & Em & _ & Hf & _).
      - destruct L1 as (_ & _ & Hh & _). by intros [?|?]%elem_of_cons.
      - destruct L1 as (_ & _ & _ & _ & _ & [?|Hk']); [done|by rewrite Hk'].
      - rewrite E2 in Em. injection Em as <-. eapply fields_lookup; [|exact Hk].
        apply Hf. by intros [?|[?|?]%elem_of_cons]%elem_of_cons. }
    destruct (fuse_reply_err_spec _ _ _ _ c qc EAGAIN I2 Lc') as (res & s3 & E3 & (I3 & F3 & S3 & _) & R3).
    destruct F3 as (_ & Er3 & _ & _ & Eu3 & _).
    assert (without c (l ++ [r]) = l ++ [r]) as Ew.
    { apply without_notin. by intros [?|?%list_elem_of_singleton]%elem_of_app. }
    rewrite Ew in I3. eexists s3, i', q1, _. split; [unfold err_reply; by erewrite bind_step by exact E3|].
    split; [done|]. split.
    { destruct L2 as (La & Lb & Lc2 & Ld & Le & _). split; [|repeat split; try done].
      - rewrite Er3. by rewrite lookup_delete_ne.
      - left. apply elem_of_app. right. by left. }
    split; [done|]. split; [by rewrite Eu3|]. split; [rewrite R3; cbn; congruence|].
    split; [rewrite S3; cbn; by rewrite O2|]. split; [cbn; lia|].
    split; [constructor; [|done]; by exists (unique qc)|done].
  - eexists _, i', q1, []. split; [reflexivity|]. split; [exact I2|]. split; [exact L2|].
    split; [done|]. split; [done|]. split; [cbn; congruence|]. split; [by rewrite app_nil_r|]. split; [cbn; lia|]. by split; [constructor|].
Qed.

(** A new request object with the fields of the message header. *)
Lemma new_request s q : heap s = [] ->
  exists s1, fuse_ll_alloc_req s = Some (Some (fresh s), s1) /\
    put_req (fresh s) q s1 = Some (tt, with_new_req q s).
Proof.
  intros Hh. eexists. split; [by apply fuse_ll_alloc_req_spec|].
  unfold put_req, set_reqs, modify. cbn. unfold with_new_req. by rewrite insert_insert_eq.
Qed.

(** A message in memory whose handler keeps its contract. *)
Lemma process_answered s l i n buf :
  let hdr := load (ram (mach s)) (bmem buf) (Z.to_nat IN_HEADER) in
  let opcode := u32_at hdr 4 in
  let inarg := load (ram (mach s)) (bmem buf + IN_HEADER) (Z.to_nat (bsize buf - IN_HEADER)) in
  inv s l i n -> heap s = [] -> P (user s) -> has (bflags buf) FUSE_BUF_IS_FD = false ->
  opcode <> FUSE_INTERRUPT ->
  (refusal op intr_call (se s) opcode (u32_at hdr 24) = None ->
   forall r, answers r (handler opcode buf r (u64_at hdr 16) inarg)) ->
  exists s' i' pre fd msg,
    fuse_session_process_buf_int op intr_call buf None s = Some (tt, s') /\
    inv s' l i' n /\ P' (user s') /\ sent s' = sent s ++ pre ++ [(fd, msg)] /\
    u64_at msg 8 = u64 (u64_at hdr 8) /\ (length pre <= 1)%nat /\
    Forall (fun e => exists uq, e.2 = reply_msg (- EAGAIN) uq []) pre.
Proof.
  intros hdr opcode inarg I Hh HP Hf Hop Hans.
  set (q := Req (u64_at hdr 8) 1 (ReqCtx (u32_at hdr 24) (u32_at hdr 28) (u32_at hdr 32) 0) None false
    false (U_ni None 0)).
  destruct (new_request s q Hh) as (s0 & E0 & E1).
  destruct (inv_new_req s l i n q I eq_refl eq_refl) as [I1 L1]. set (s1 := with_new_req q s) in *.
  assert (fresh s ∉ l) as Fl by (intros ?; apply (proj1 (fresh_outside s l i n I)); by right).
  unfold fuse_session_process_buf_int. rewrite Hf. unfold process_request.
  erewrite bind_step by reflexivity. fold hdr. fold opcode.
  erewrite bind_step by exact E0. cbv beta iota. erewrite bind_step by reflexivity.
  fold q. erewrite bind_step by exact E1. erewrite bind_step by reflexivity. cbn [se s1 with_new_req].
  destruct (refusal _ _ _ _ _) as [err|] eqn:Eref.
  - destruct (err_reply_once (fresh s) err s1 l i n q I1 L1 HP) as (s2 & fd & msg & E2 & I2 & P2 & S2 & U2).
    rewrite without_notin in I2 by done. exists s2, i, [], fd, msg.
    split; [erewrite bind_step by exact E2; unfold clear_if_fd; by rewrite Hf|].
    split; [done|]. split; [done|]. split; [done|]. split; [done|]. by split; [cbn; lia|constructor].
  - destruct (Z.eqb_spec opcode FUSE_INTERRUPT) as [?|_]; [done|]. cbn [negb].
    destruct (register_spec s1 l i n (fresh s) q None 0 I1 L1 Fl eq_refl)
      as (s2 & i' & q' & pre & E2 & I2 & L2 & Hq & Hu & Hm & S2 & Hp & HF & _).
    assert (exists f d, u q' = U_ni f d) as Hni.
    { destruct (inv_l _ _ _ _ I2 (fresh s)) as (q2 & f & d & Eq2 & _ & Hu2); [apply elem_of_app; right; by left|].
      destruct L2 as (Eq & _). exists f, d. congruence. }
    destruct (Hans eq_refl (fresh s) s2 (l ++ [fresh s]) i' n q' I2 L2 Hni) as (s3 & fd & msg & E3 & I3 & P3 & S3 & U3);
      [by rewrite Hu|].
    assert (without (fresh s) (l ++ [fresh s]) = l) as Ew.
    { unfold without. rewrite filter_app, filter_cons_False by naive_solver. rewrite filter_nil, app_nil_r.
      by apply without_notin. }
    rewrite Ew in I3. exists s3, i', pre, fd, msg. split.
    { erewrite bind_step by exact E2. rewrite dispatch_memory by done. rewrite Hm. exact E3. }
    split; [done|]. split; [done|]. split; [rewrite S3, S2; cbn; by rewrite app_assoc|].
    split; [by rewrite U3, Hq|]. done.
Qed.
(** Every message that arrives in memory is answered: a request that is
    refused (before INIT, by [allow_root], or an unknown opcode) and a request
    whose handler keeps its contract both end with exactly one reply that
    carries the number of the request, preceded by at most one EAGAIN reply to
    a stale interrupt; the request is gone, every other request stays, and the
    session keeps its invariant. *)
Theorem request_answered s l i n buf :
  let hdr := load (ram (mach s)) (bmem buf) (Z.to_nat IN_HEADER) in
  let opcode := u32_at hdr 4 in
  let inarg := load (ram (mach s)) (bmem buf + IN_HEADER) (Z.to_nat (bsize buf - IN_HEADER)) in
  inv s l i n -> heap s = [] -> P (user s) -> has (bflags buf) FUSE_BUF_IS_FD = false ->
  opcode <> FUSE_INTERRUPT ->
  (refusal op intr_call (se s) opcode (u32_at hdr 24) = None ->
   forall r, answers r (handler opcode buf r (u64_at hdr 16) inarg)) ->
  exists s' i' pre fd msg,
    fuse_session_process_buf_int op intr_call buf None s = Some (tt, s') /\
    inv s' l i' n /\ P' (user s') /\ sent s' = sent s ++ pre ++ [(fd, msg)] /\
    u64_at msg 8 = u64 (u64_at hdr 8) /\ (length pre <= 1)%nat /\
    Forall (fun e => exists uq, e.2 = reply_msg (- EAGAIN) uq []) pre.
Proof. apply process_answered. Qed.
End Answered.

(** ** Flags *)

Lemma has_pow2 x k : 0 <= k -> has x (2 ^ k) = Z.testbit x k.
Proof.
  intros Hk. unfold has.
  assert (Z.land x (2 ^ k) = if Z.testbit x k then 2 ^ k else 0) as ->.
  { apply Z.bits_inj'. intros j Hj. rewrite Z.land_spec, Z.pow2_bits_eqb by done.
    destruct (Z.eqb_spec k j) as [->|Hne].
    - destruct (Z.testbit x j) eqn:E; rewrite ?Z.pow2_bits_true, ?Z.bits_0 by done; done.
    - rewrite andb_false_r. destruct (Z.testbit x k); [|by rewrite Z.bits_0].
      by rewrite Z.pow2_bits_false. }
  assert (0 < 2 ^ k) by (apply Z.pow_pos_nonneg; lia). by destruct (Z.testbit x k); [destruct (Z.eqb_spec (2 ^ k) 0); [lia|]|].
Qed.

(** No bit of [x] outside [y]. *)
Definition flags_in (x y : Z) : Prop := Z.land x (Z.lnot y) = 0.

Lemma flags_in_bits x y : flags_in x y <-> forall k, 0 <= k -> Z.testbit x k = true -> Z.testbit y k = true.
Proof.
  unfold flags_in. split.
  - intros E k Hk Hx. apply (f_equal (fun z => Z.testbit z k)) in E.
    rewrite Z.land_spec, Z.lnot_spec, Z.bits_0, Hx in E by done. by destruct (Z.testbit y k).
  - intros Hb. apply Z.bits_inj'. intros k Hk. rewrite Z.land_spec, Z.lnot_spec, Z.bits_0 by done.
    destruct (Z.testbit x k) eqn:E; [|done]. by rewrite Hb.
Qed.

Lemma translate_testbit tbl x y k :
  Z.testbit (translate tbl x y) k =
  Z.testbit y k || existsb (fun fc => has x fc.1 && Z.testbit fc.2 k) tbl.
Proof.
  unfold translate. revert y; induction tbl as [|[f c] tbl IH]; intros y; cbn [fold_left existsb fst snd].
  - by rewrite orb_false_r.
  - rewrite IH. destruct (has x f); [|done]. rewrite Z.lor_spec. by rewrite orb_assoc.
Qed.

(** A capability of the reply table was announced by its kernel flag. *)
Lemma capable_announced minor flags fc : fc ∈ want_table ->
  has (init_capable minor flags) fc.1 = true -> has flags fc.2 = true.
Proof.
  intros Hin Hc. unfold init_capable in Hc. unfold want_table in Hin.
  rewrite !elem_of_cons, elem_of_nil in Hin.
  destruct (6 <=? minor), (14 <=? minor), (18 <=? minor);
  repeat destruct Hin as [->|Hin]; try done; cbn [fst snd] in *;
  unfold FUSE_CAP_ASYNC_READ, FUSE_CAP_POSIX_LOCKS, FUSE_CAP_ATOMIC_O_TRUNC, FUSE_CAP_EXPORT_SUPPORT,
    FUSE_CAP_DONT_MASK, FUSE_CAP_FLOCK_LOCKS, FUSE_CAP_AUTO_INVAL_DATA, FUSE_CAP_READDIRPLUS,
    FUSE_CAP_READDIRPLUS_AUTO, FUSE_CAP_ASYNC_DIO, FUSE_CAP_WRITEBACK_CACHE, FUSE_CAP_POSIX_ACL,
    FUSE_CAP_CACHE_SYMLINKS, FUSE_CAP_EXPLICIT_INVAL_DATA in Hc;
  rewrite has_pow2 in Hc by lia; rewrite ?Z.lor_spec, ?translate_testbit in Hc;
  cbn -[has] in Hc; rewrite ?andb_false_r, ?andb_true_r, ?orb_false_r, ?orb_false_l in Hc; try done; exact Hc.
Qed.

(** The flags of the reply: announced by the kernel, or BIG_WRITES. *)
Lemma reply_flags_in minor flags w o : flags_in w (init_capable minor flags) ->
  flags_in o (Z.lor flags FUSE_BIG_WRITES) ->
  flags_in (translate want_table w o) (Z.lor flags FUSE_BIG_WRITES).
Proof.
  intros Hw Ho. apply flags_in_bits. intros k Hk. rewrite translate_testbit, orb_true_iff.
  intros [Hb|Hb]; [by eapply flags_in_bits|]. rewrite Z.lor_spec. apply orb_true_iff; left.
  apply existsb_exists in Hb as (fc & Hin%list_elem_of_In & [Hfc Hbit]%andb_prop).
  assert (forall cap flag, fc = (2 ^ cap, 2 ^ flag) -> 0 <= cap -> 0 <= flag -> Z.testbit flags k = true) as Hgo.
  { intros cap flag -> Hcap Hflag. cbn [fst snd] in *.
    assert (has (init_capable minor flags) (2 ^ cap) = true) as Hc.
    { rewrite has_pow2 in Hfc |- * by done. by eapply flags_in_bits. }
    apply (capable_announced minor flags _ Hin) in Hc. cbn [snd] in Hc.
    rewrite has_pow2 in Hc by done. rewrite Z.pow2_bits_eqb in Hbit by done.
    by apply Z.eqb_eq in Hbit as ->. }
  unfold want_table in Hin. rewrite !elem_of_cons, elem_of_nil in Hin.
  repeat destruct Hin as [->|Hin]; try done; (eapply Hgo; [reflexivity|lia|lia]).
Qed.

Definition with_want (w : Z) (c : fuse_conn_info) : fuse_conn_info :=
  ConnInfo (proto_major c) (proto_minor c) (max_write c) (max_read c) (max_readahead c)
    (capable c) w (max_background c) (congestion_threshold c) (time_gran c).

Definition upd_user {OS U} (usr : U) (s : LL OS U) : LL OS U :=
  MkLL (se s) (reqs s) (nreqs s) (lks s) (chans s) (fresh s) (heap s) (mach s) (sent s) usr.

Definition upd_se {OS U} (e : fuse_session) (s : LL OS U) : LL OS U :=
  MkLL e (reqs s) (nreqs s) (lks s) (chans s) (fresh s) (heap s) (mach s) (sent s) (user s).

Section Init.
Context {OS U : Type} `{FdOps OS} `{DevOps OS}.
Context (op : fuse_lowlevel_ops OS U).
Implicit Types (s : LL OS U).

(** The file system's [init] returns, changes nothing of the session but the
    connection, and there leaves the read-only fields, the version and the
    capabilities of the kernel, as they are.  It may set every other field:
    [want], [max_write], [max_read], the limits and the granularity. *)
Definition init_keeps (c c' : fuse_conn_info) : Prop :=
  proto_major c' = proto_major c /\ proto_minor c' = proto_minor c /\ capable c' = capable c /\
  0 <= want c' < 2 ^ 32 /\ 0 <= max_write c' < 2 ^ 32.

Definition init_law : Prop :=
  match op_init op with
  | None => True
  | Some f => forall c s, 0 <= want c < 2 ^ 32 -> 0 <= max_write c < 2 ^ 32 ->
      exists c' usr, init_keeps c c' /\ f c s = Some (c', upd_user usr s)
  end.

(** What [init] makes of the offer [c]. *)
Definition init_chooses (c c' : fuse_conn_info) : Prop :=
  match op_init op with
  | None => c' = c
  | Some f => exists s s', f c s = Some (c', s')
  end.

(** The call of [init] in [do_init]. *)
Lemma call_init c s : init_law -> conn (se s) = c -> 0 <= want c < 2 ^ 32 -> 0 <= max_write c < 2 ^ 32 ->
  exists c' usr, init_keeps c c' /\ init_chooses c c' /\
  (match op_init op with
   | Some f => c ← f c; _ ← set_se (with_conn c); mret c
   | None => mret c
   end) s = Some (c', upd_user usr (upd_se (with_conn c' (se s)) s)).
Proof.
  unfold init_law, init_chooses. intros Hl Hc Hw Hm. destruct (op_init op) as [f|].
  - destruct (Hl c s Hw Hm) as (c' & usr & Hk & E). exists c', usr. split; [done|]. split; [by eexists _, _|].
    by erewrite bind_step by exact E.
  - exists c, (user s). split; [done|]. split; [done|]. unfold mret, ST_ret, upd_user, upd_se, with_conn.
    subst c. by destruct s as [[]].
Qed.

Lemma length_enc_init_out a1 a2 a3 a4 a5 a6 a7 a8 a9 : length (enc_init_out a1 a2 a3 a4 a5 a6 a7 a8 a9) = 64%nat.
Proof. unfold enc_init_out. by rewrite !length_app, !length_le. Qed.

(** The fields of the reply that are sent from protocol 7.5 on. *)
Lemma init_out_fields rest n a1 a2 a3 a4 a5 a6 a7 : (24 <= n)%nat ->
  let b := take n (le 4 a1 ++ le 4 a2 ++ le 4 a3 ++ le 4 a4 ++ le 2 a5 ++ le 2 a6 ++ le 4 a7 ++ rest) in
  u32_at b 12 = u32 a4 /\ u32_at b 20 = u32 a7.
Proof.
  intros Hn b.
  assert (forall off z p r, length p = off -> (off + 4 <= n)%nat ->
    u32_at (take n (p ++ le 4 z ++ r)) off = u32 z) as Hu.
  { intros off z p r Hp Hle. unfold u32_at. rewrite skipn_firstn_comm, <- Hp, drop_app_length.
    rewrite firstn_firstn, Nat.min_l by lia. rewrite take_le. apply unle_le. }
  split.
  - rewrite <- (Hu 12%nat a4 (le 4 a1 ++ le 4 a2 ++ le 4 a3) (le 2 a5 ++ le 2 a6 ++ le 4 a7 ++ rest)); [|done|lia].
    unfold b. by rewrite <- !app_assoc.
  - rewrite <- (Hu 20%nat a7 (le 4 a1 ++ le 4 a2 ++ le 4 a3 ++ le 4 a4 ++ le 2 a5 ++ le 2 a6) rest); [|done|lia].
    unfold b. by rewrite <- !app_assoc.
Qed.

(** A flag set below 2^32 survives the wire. *)
Lemma translate_range tbl x y : 0 <= y < 2 ^ 32 -> Forall (fun fc => 0 <= fc.2 < 2 ^ 32) tbl ->
  0 <= translate tbl x y < 2 ^ 32.
Proof.
  intros Hy Ht. unfold translate. revert y Hy. induction Ht as [|fc tbl Hfc _ IH]; intros y Hy; cbn [fold_left]; [done|].
  apply IH. destruct (has x fc.1); [|done].
  assert (forall z, 0 <= z < 2 ^ 32 -> Z.land z (Z.ones 32) = z) as Hz.
  { intros z Hz. rewrite Z.land_ones by lia. by apply Z.mod_small. }
  rewrite <- (Hz y Hy), <- (Hz fc.2 Hfc), <- Z.land_lor_distr_l, Z.land_ones by lia.
  apply Z.mod_pos_bound. lia.
Qed.

Lemma init_fail_spec s l i n r q : inv s l i n -> live s l i n r q ->
  exists s' fd msg, init_fail r s = Some (tt, s') /\ inv s' (without r l) i n /\
    sent s' = sent s ++ [(fd, msg)] /\ error (se s') = - EPROTO /\ exited (se s') = true.
Proof.
  intros I L. destruct (err_reply_once (fun _ => True) (fun _ => True) (fun _ _ => Logic.I) r EPROTO s l i n q I L Logic.I)
    as (s1 & fd & msg & E & I1 & _ & S1 & _).
  eexists _, fd, msg. split; [unfold init_fail; erewrite bind_step by exact E; reflexivity|].
  split; [by apply (inv_ext s1)|]. done.
Qed.

Lemma init_oflags_spec flags :
  0 <= init_oflags flags < 2 ^ 32 /\ flags_in (init_oflags flags) (Z.lor flags FUSE_BIG_WRITES).
Proof.
  unfold init_oflags. destruct (has flags FUSE_MAX_PAGES) eqn:Ep; (split; [done|]); apply flags_in_bits;
    intros k Hk; rewrite !Z.lor_spec, !orb_true_iff; (intros [Hb|Hb]; [|by right]).
  - left. unfold FUSE_MAX_PAGES in *. rewrite has_pow2 in Ep by lia.
    rewrite Z.pow2_bits_eqb in Hb by lia. by apply Z.eqb_eq in Hb as <-.
  - by rewrite Z.bits_0 in Hb.
Qed.

Lemma init_flags_range w flags : 0 <= translate want_table w (init_oflags flags) < 2 ^ 32.
Proof.
  apply translate_range; [apply init_oflags_spec|]. unfold want_table. by repeat (constructor; [done|]).
Qed.

(** The payload of a reply with one non-empty segment. *)
Lemma reply_payload err uniq b : b <> [] -> drop 16 (reply_msg err uniq (segs b)) = b.
Proof.
  intros Hb. unfold segs. rewrite bool_decide_eq_false_2 by done. unfold reply_msg. rewrite join_cons.
  set (h := out_header _ _ _). change 16%nat with (length h). rewrite drop_app_length. apply app_nil_r.
Qed.

Lemma init_background_keeps c :
  want (init_background c) = want c /\ max_write (init_background c) = max_write c.
Proof. unfold init_background. destruct (13 <=? proto_minor c); by split. Qed.

Lemma init_reply_spec s l i n r q flags psz aminor : inv s l i n -> live s l i n r q ->
  5 <= aminor -> 0 <= max_write (conn (se s)) < 2 ^ 32 ->
  exists s' fd msg, init_reply r flags psz aminor s = Some (tt, s') /\ inv s' (without r l) i n /\
    sent s' = sent s ++ [(fd, msg)] /\ se s' = with_conn (init_background (conn (se s))) (se s) /\
    u32_at (drop 16 msg) 12 = translate want_table (want (conn (se s))) (init_oflags flags) /\
    u32_at (drop 16 msg) 20 = max_write (conn (se s)).
Proof.
  intros I L Ha Hm. unfold init_reply. erewrite bind_step by reflexivity.
  destruct (init_background_keeps (conn (se s))) as [Ew Em].
  erewrite bind_step by reflexivity. set (s1 := MkLL _ _ _ _ _ _ _ _ _ _).
  set (sz := if aminor <? 5 then _ else _).
  assert (24 <= sz)%nat as Hsz by (unfold sz; destruct (Z.ltb_spec aminor 5); [lia|destruct (_ <? _); lia]).
  set (outarg := enc_init_out _ _ _ _ _ _ _ _ _).
  destruct (send_reply_spec s1 l i n r q 0 (take sz outarg)) as (res & s2 & E & (I2 & F2 & S2 & _) & _);
    [by apply (inv_ext s)|by apply (live_ext s)|].
  eexists s2, _, _. split; [unfold send_reply_ok; by erewrite bind_step by exact E|].
  split; [done|]. split; [exact S2|]. split; [by destruct F2 as (-> & _)|].
  rewrite reply_payload.
  - unfold outarg, enc_init_out. rewrite Ew, Em.
    match goal with |- u32_at (take _ (le 4 ?a1 ++ le 4 ?a2 ++ le 4 ?a3 ++ le 4 ?a4 ++ le 2 ?a5 ++ le 2 ?a6 ++ le 4 ?a7 ++ ?rest)) _ = _ /\ _ =>
      destruct (init_out_fields rest sz a1 a2 a3 a4 a5 a6 a7 Hsz) as [Ef Eg] end.
    rewrite Ef, Eg. split; apply wrap_id; [apply init_flags_range|done].
  - intros E0. apply (f_equal length) in E0. rewrite length_take in E0. unfold outarg in E0.
    rewrite length_enc_init_out in E0. simpl in E0. lia.
Qed.

Lemma init_bufsize_range minor flags b psz : 0 <= b < 2 ^ 31 -> 0 < psz < 2 ^ 20 ->
  8192 <= init_bufsize minor flags b psz < 2 ^ 31.
Proof.
  intros Hb Hp. unfold init_bufsize, FUSE_DEFAULT_MAX_PAGES_PER_REQ, FUSE_BUFFER_HEADER_SIZE, FUSE_MIN_READ_BUFFER.
  destruct (_ && _) eqn:E.
  - apply andb_prop in E as [_ E]. apply Z.ltb_lt in E.
    destruct (Z.ltb_spec (32 * psz + 4096) 8192); lia.
  - destruct (Z.ltb_spec b 8192); lia.
Qed.

Lemma default_want_range cap : 0 <= default_want op cap < 2 ^ 32.
Proof.
  unfold default_want.
  assert (forall tbl w, 0 <= w < 2 ^ 32 -> Forall (fun cc : bool * Z => 0 <= cc.2 < 2 ^ 32) tbl ->
    0 <= fold_left (fun w cc => if (cc.1 : bool) && has cap cc.2 then Z.lor w cc.2 else w) tbl w < 2 ^ 32) as Hg.
  { intros tbl w Hw Ht. revert w Hw. induction Ht as [|cc tbl Hcc _ IH]; intros w Hw; cbn [fold_left]; [done|].
    apply IH. destruct (_ && _); [|done].
    pose proof (translate_range [(1, cc.2)] 1 w Hw) as Hl. unfold translate in Hl. cbn in Hl.
    apply Hl. by constructor. }
  apply Hg; [done|]. unfold default_table. by repeat (constructor; [done|]).
Qed.

Lemma want_check w cap : 0 <= w < 2 ^ 32 ->
  has w (Z.land (Z.lnot cap) (Z.ones 32)) = false <-> flags_in w cap.
Proof.
  unfold has, flags_in. intros Hw. rewrite negb_false_iff, Z.eqb_eq.
  by rewrite (Z.land_comm (Z.lnot cap)), Z.land_assoc, Z.land_ones, Z.mod_small by lia.
Qed.

(** The size of the buffer that messages are received in, while it is offered. *)
Definition offered_bufsize (s : LL OS U) (inarg : bytes) : Z :=
  init_bufsize (u32_at inarg 4) (u32_at inarg 12) (bufsize (se s)) (pagesize (se s)).

(** The connection that [init] is offered. *)
Definition init_offer (s : LL OS U) (inarg : bytes) : fuse_conn_info :=
  let c := conn (se s) in
  init_conn op (u32_at inarg 0) (u32_at inarg 4) (u32_at inarg 8) (u32_at inarg 12) (offered_bufsize s inarg)
    (ConnInfo (u32_at inarg 0) (u32_at inarg 4) (max_write c) (max_read c) (max_readahead c) 0 0
       (max_background c) (congestion_threshold c) (time_gran c)).

Lemma offer_write s inarg : 8192 <= offered_bufsize s inarg < 2 ^ 31 -> 0 <= max_write (conn (se s)) < 2 ^ 32 ->
  0 <= max_write (init_offer s inarg) <= offered_bufsize s inarg - FUSE_BUFFER_HEADER_SIZE.
Proof.
  intros Hb Hm. unfold init_offer, init_conn; cbn [max_write]. unfold FUSE_BUFFER_HEADER_SIZE.
  destruct (Z.ltb_spec (offered_bufsize s inarg - 4096) (max_write (conn (se s)))); [rewrite wrap_id; lia|lia].
Qed.

(** What follows the call of [init] when nothing is refused. *)
Lemma init_accepts s l i n r q c flags psz minor bufsz : inv s l i n -> live s l i n r q -> conn (se s) = c ->
  5 <= minor -> 0 <= max_write c < 2 ^ 32 -> bufsize (se s) = bufsz -> 8192 <= bufsz < 2 ^ 31 ->
  exists s' fd msg, (_ ← (if max_write c <? bufsz - FUSE_BUFFER_HEADER_SIZE
         then set_se (with_bufsize (u32 (max_write c + FUSE_BUFFER_HEADER_SIZE))) else mret tt);
      init_reply r flags psz minor) s = Some (tt, s') /\ inv s' (without r l) i n /\ sent s' = sent s ++ [(fd, msg)] /\
    error (se s') = error (se s) /\ exited (se s') = exited (se s) /\ got_init (se s') = got_init (se s) /\
    u32_at (drop 16 msg) 12 = translate want_table (want c) (init_oflags flags) /\
    u32_at (drop 16 msg) 20 = max_write c /\
    bufsize (se s') = Z.min bufsz (max_write c + FUSE_BUFFER_HEADER_SIZE).
Proof.
  intros I L Hc Hmin Hm Hbs Hb.
  set (s4 := if max_write c <? bufsz - FUSE_BUFFER_HEADER_SIZE
             then upd_se (with_bufsize (u32 (max_write c + FUSE_BUFFER_HEADER_SIZE)) (se s)) s else s).
  erewrite (bind_step _ _ s tt s4); [|unfold s4; by destruct (_ <? _)].
  assert (conn (se s4) = c) as Ec by (unfold s4; by destruct (_ <? _)).
  assert (inv s4 l i n) as I4 by (unfold s4; destruct (_ <? _); [by apply (inv_ext s)|done]).
  assert (live s4 l i n r q) as L4 by (unfold s4; destruct (_ <? _); [by apply (live_ext s)|done]).
  destruct (init_reply_spec s4 l i n r q flags psz minor I4 L4 Hmin)
    as (s' & fd & msg & E & I' & S' & Es & Hf & Hw); [by rewrite Ec|]. rewrite Ec in Es, Hf, Hw.
  exists s', fd, msg. split; [exact E|]. split; [done|]. split; [rewrite S'; unfold s4; by destruct (_ <? _)|].
  rewrite Es. split; [unfold s4; by destruct (_ <? _)|]. split; [unfold s4; by destruct (_ <? _)|].
  split; [unfold s4; by destruct (_ <? _)|]. split; [done|]. split; [done|].
  unfold s4, FUSE_BUFFER_HEADER_SIZE. destruct (Z.ltb_spec (max_write c) (bufsz - 4096)); cbn.
  - rewrite wrap_id; lia.
  - lia.
Qed.


(** Parallel directory operations and the handling of setuid bits are
    documented as enabled by default when the kernel supports them, and
    [do_init] puts them into [want]; but the reply never carries their flags,
    whatever the kernel offers and the file system wants. *)
Theorem default_caps_not_sent s l i n r q flags psz aminor :
  inv s l i n -> live s l i n r q -> 5 <= aminor -> 0 <= max_write (conn (se s)) < 2 ^ 32 ->
  exists s' fd msg, init_reply r flags psz aminor s = Some (tt, s') /\
    sent s' = sent s ++ [(fd, msg)] /\
    has (u32_at (drop 16 msg) 12) FUSE_PARALLEL_DIROPS = false /\
    has (u32_at (drop 16 msg) 12) FUSE_HANDLE_KILLPRIV = false.
Proof.
  intros I L Ha Hm. destruct (init_reply_spec s l i n r q flags psz aminor I L Ha Hm)
    as (s' & fd & msg & E & _ & S' & _ & Hf & _).
  exists s', fd, msg. split; [exact E|]. split; [exact S'|]. rewrite Hf.
  unfold FUSE_PARALLEL_DIROPS, FUSE_HANDLE_KILLPRIV. rewrite !has_pow2, !translate_testbit by lia.
  unfold init_oflags. rewrite !Z.lor_spec.
  split; destruct (has flags FUSE_MAX_PAGES); cbn -[has]; by rewrite ?andb_false_r.
Qed.
End Init.

(** ** A session without handlers *)

Definition no_ops (OS U : Type) : fuse_lowlevel_ops OS U :=
  Ops OS U None None None None None None None None None None None None None None None None None None
    None None None None None None None None None None None None None None None None None None
    None None None None None None None None.

Definition no_intr {OS U} (f r dt : Z) : ST (LL OS U) unit := mret tt.

(** A LOOKUP message, number 5, of user 1000 for the name a. *)
Definition lookup_msg : bytes :=
  le 4 42 ++ le 4 1 ++ le 8 5 ++ le 8 1 ++ le 4 1000 ++ le 4 1000 ++ le 4 42 ++ le 4 0 ++ lit "a" ++ [0].

Definition msg_at (b : bytes) (addr : Z) : fuse_buf := FuseBuf (Z.of_nat (length b)) 0 addr (-1) 0.

Definition lookup_ll : LL files unit :=
  start example_session (World (∅ : files) (store ∅ 2000 lookup_msg) 4000) tt.

Lemma request_answered_witness : exists s' i' pre fd msg,
  fuse_session_process_buf_int (no_ops files unit) no_intr (msg_at lookup_msg 2000) None lookup_ll = Some (tt, s') /\
  inv s' [] i' [] /\ sent s' = pre ++ [(fd, msg)] /\ u64_at msg 8 = 5.
Proof.
  destruct (request_answered (no_ops files unit) no_intr (fun _ => True) (fun _ => True) (fun _ _ => Logic.I) lookup_ll [] [] [] (msg_at lookup_msg 2000))
    as (s' & i' & pre & fd & msg & E & I' & _ & S' & U' & _).
  - apply inv_start.
  - reflexivity.
  - exact Logic.I.
  - reflexivity.
  - intros E. vm_compute in E. discriminate.
  - intros _ r. exact (err_reply_answers (fun _ => True) (fun _ => True) (fun _ _ => Logic.I) r ENOSYS).
  - exists s', i', pre, fd, msg. split; [exact E|]. split; [exact I'|]. split; [exact S'|].
    rewrite U'. vm_compute. reflexivity.
Defined.

Lemma default_caps_not_sent_witness : exists s' fd msg,
  init_reply 1 (Z.lor FUSE_PARALLEL_DIROPS FUSE_HANDLE_KILLPRIV) 4096 31 example_ll = Some (tt, s') /\
  sent s' = [(fd, msg)] /\ has (u32_at (drop 16 msg) 12) FUSE_PARALLEL_DIROPS = false.
Proof.
  destruct example_ok as [I L].
  destruct (default_caps_not_sent example_ll [] [] [] 1 example_req
    (Z.lor FUSE_PARALLEL_DIROPS FUSE_HANDLE_KILLPRIV) 4096 31 I L)
    as (s' & fd & msg & E & S' & Hp & _); [lia|vm_compute; split; [discriminate|reflexivity]|].
  exists s', fd, msg. split; [exact E|]. split; [exact S'|exact Hp].
Defined.

(** An INIT from a 7.31 kernel that offers asynchronous reads and 256 pages. *)
Definition init_inarg : bytes := le 4 7 ++ le 4 31 ++ le 4 65536 ++ le 4 (Z.lor FUSE_ASYNC_READ FUSE_MAX_PAGES).

