(* ===== verification/Loop.v ===== *)
(** * The session loops: libfuse/lib/fuse_loop.c and fuse_loop_mt.c

    fuse_session_loop reads and processes one message after the other.
    fuse_session_loop_mt keeps a pool of worker threads that all run
    fuse_do_work: a worker that takes the last idle place starts another one,
    a worker that finds too many idle ones leaves, and the main thread waits
    until the session is flagged as exited, then cancels and joins the workers
    that are left.

    The pool is a transition system.  The state holds struct fuse_mt, the list
    of workers through their prev and next fields ([DList]), the worker objects
    that are allocated, one thread per worker with its place in fuse_do_work,
    and the session ([LL]).  A step is an [event]: the main thread or a worker
    runs to its next blocking or unprotected action, a cancellation takes
    effect, a signal arrives.  A critical section of mt->lock is one step, and
    so is one call of fuse_session_receive_buf_int or
    fuse_session_process_buf_int; everything else interleaves freely. *)

From S2P Require Import Prelude DList Wire Buf LowLevel Dispatch.

(** The ioctl FUSE_DEV_IOC_CLONE, which binds a new descriptor of the device to
    the session of another one. *)
Class CloneOps (OS : Type) := { sys_clone : Z -> Z -> OS -> OS * (Z + unit) }.

Definition FUSE_FORGET : Z := 2.
Definition FUSE_BATCH_FORGET : Z := 42.

Section Loop.
Context {OS U : Type} `{FdOps OS} `{DevOps OS} `{CloneOps OS}.
Context (op : fuse_lowlevel_ops OS U) (intr_call : Z -> Z -> Z -> ST (LL OS U) unit).

Abbreviation M := (ST (LL OS U)).

(** ** fuse_loop.c *)

Definition buf0 : fuse_buf := FuseBuf 0 0 0 0 0.

(** The loop, with the last result of a receive.  [rfuel] bounds the restarts
    of one read, [fuel] the turns of the loop. *)
Fixpoint session_turns (rfuel fuel : nat) (res : Z) (fbuf : fuse_buf) : M Z :=
  match fuel with
  | O => abort
  | S fuel =>
      ex ← fuse_session_exited;
      if (ex : bool) then mret res else
      r ← fuse_session_receive_buf_int rfuel fbuf None;
      let '(res, fbuf) := r : Z * fuse_buf in
      if res =? - EINTR then session_turns rfuel fuel res fbuf else
      if res <=? 0 then mret res else
      _ ← fuse_session_process_buf_int op intr_call fbuf None;
      session_turns rfuel fuel res fbuf
  end.

Definition fuse_session_loop (rfuel fuel : nat) : M Z :=
  res ← session_turns rfuel fuel 0 buf0;
  let res := if 0 <? res then 0 else res in
  s ← get;
  let res := if negb (error (se s) =? 0) then error (se s) else res in
  _ ← fuse_session_reset;
  mret res.

(** ** The state of the pool *)

Record fuse_mt := Mt {
  numworker : Z; numavail : Z; finish : Z; mt_exit : bool; mt_error : Z;
  clone_fd : bool; max_idle : Z }.

(** The fields of struct fuse_worker other than its links; its thread has its
    address as a number. *)
Record fuse_worker := Worker { fbuf : fuse_buf; w_ch : option Z }.

(** Where a thread is in fuse_do_work. *)
Inductive place :=
  | W_test                      (* the condition of the loop *)
  | W_receive                   (* in fuse_session_receive_buf_int, cancellation enabled *)
  | W_got (res : Z)             (* cancellation disabled again *)
  | W_work (isforget : bool)    (* in fuse_session_process_buf_int *)
  | W_worked (isforget : bool)  (* before the second critical section *)
  | W_leave                     (* after it, having left the list *)
  | W_post                      (* before sem_post *)
  | W_end.                      (* the thread has ended *)

#[export] Instance place_eq_dec : EqDecision place.
Proof. solve_decision. Defined.

Record thread := Thread { at_ : place; cancelled : bool; detached : bool }.

(** Where the main thread is in fuse_session_loop_mt_32. *)
Inductive main_place :=
  | M_start           (* before the first fuse_loop_start_thread *)
  | M_test            (* the condition around sem_wait *)
  | M_wait            (* in sem_wait *)
  | M_cancel          (* before the loop over pthread_cancel *)
  | M_next            (* the condition of the loop over fuse_join_worker *)
  | M_join (w : Z)    (* in pthread_join *)
  | M_return (err : Z).

#[export] Instance main_place_eq_dec : EqDecision main_place.
Proof. solve_decision. Defined.

(** [outcomes] lists what malloc of a worker and pthread_create return next;
    an empty list succeeds. *)
Record pool := Pool {
  mt : fuse_mt; wlinks : links; workers : gmap Z fuse_worker; threads : gmap Z thread;
  wfresh : Z; main_at : main_place; outcomes : list bool; ses : LL OS U }.

(** The address of [mt.main]. *)
Definition MAIN : Z := 0.

Abbreviation P := (ST pool).

(** *** Field updates *)

Definition set_mt (f : fuse_mt -> fuse_mt) : P unit := modify (fun p =>
  Pool (f (mt p)) (wlinks p) (workers p) (threads p) (wfresh p) (main_at p) (outcomes p) (ses p)).

Definition set_wlinks (f : links -> option links) : P unit := fun p =>
  match f (wlinks p) with
  | Some m => Some (tt, Pool (mt p) m (workers p) (threads p) (wfresh p) (main_at p) (outcomes p) (ses p))
  | None => None
  end.

Definition set_workers (f : gmap Z fuse_worker -> gmap Z fuse_worker) : P unit := modify (fun p =>
  Pool (mt p) (wlinks p) (f (workers p)) (threads p) (wfresh p) (main_at p) (outcomes p) (ses p)).

Definition set_threads (f : gmap Z thread -> gmap Z thread) : P unit := modify (fun p =>
  Pool (mt p) (wlinks p) (workers p) (f (threads p)) (wfresh p) (main_at p) (outcomes p) (ses p)).

Definition goto_main (m : main_place) : P unit := modify (fun p =>
  Pool (mt p) (wlinks p) (workers p) (threads p) (wfresh p) m (outcomes p) (ses p)).

Definition at_place (a : place) (t : thread) : thread := Thread a (cancelled t) (detached t).

Definition goto (w : Z) (a : place) : P unit := set_threads (alter (at_place a) w).

(** Code of the session run by a thread of the pool. *)
Definition session {A} (m : M A) : P A := fun p =>
  match m (ses p) with
  | Some (a, s) => Some (a, Pool (mt p) (wlinks p) (workers p) (threads p) (wfresh p) (main_at p) (outcomes p) s)
  | None => None
  end.

Definition outcome : P bool := fun p =>
  match outcomes p with
  | [] => Some (true, p)
  | b :: bs => Some (b, Pool (mt p) (wlinks p) (workers p) (threads p) (wfresh p) (main_at p) bs (ses p))
  end.

Definition new_worker : P Z := fun p =>
  Some (wfresh p, Pool (mt p) (wlinks p) (workers p) (threads p) (wfresh p + 1) (main_at p) (outcomes p) (ses p)).

(** A field of a worker; it must not have been freed. *)
Definition get_worker (w : Z) : P fuse_worker := fun p =>
  match workers p !! w with Some k => Some (k, p) | None => None end.

Definition put_worker (w : Z) (k : fuse_worker) : P unit := set_workers (<[w := k]>).

Definition free_worker (w : Z) : P unit :=
  _ ← get_worker w; _ ← set_workers (delete w); set_wlinks (fun m => Some (delete w m)).

(** *** Counters *)

Definition with_numavail (d : Z) (m : fuse_mt) : fuse_mt :=
  Mt (numworker m) (numavail m + d) (finish m) (mt_exit m) (mt_error m) (clone_fd m) (max_idle m).

Definition with_numworker (d : Z) (m : fuse_mt) : fuse_mt :=
  Mt (numworker m + d) (numavail m) (finish m) (mt_exit m) (mt_error m) (clone_fd m) (max_idle m).

Definition with_finish (d : Z) (m : fuse_mt) : fuse_mt :=
  Mt (numworker m) (numavail m) (finish m + d) (mt_exit m) (mt_error m) (clone_fd m) (max_idle m).

Definition with_exit (m : fuse_mt) : fuse_mt :=
  Mt (numworker m) (numavail m) (finish m) true (mt_error m) (clone_fd m) (max_idle m).

Definition with_mt_error (e : Z) (m : fuse_mt) : fuse_mt :=
  Mt (numworker m) (numavail m) (finish m) (mt_exit m) e (clone_fd m) (max_idle m).

Definition without_clone_fd (m : fuse_mt) : fuse_mt :=
  Mt (numworker m) (numavail m) (finish m) (mt_exit m) (mt_error m) false (max_idle m).

(** ** Channels *)

(** Channels are numbered from 1 by the requests' supply of addresses. *)
Definition fuse_chan_new (fd : Z) : M (option Z) :=
  ok ← malloc;
  if negb ok then mret None else
  c ← new_ptr;
  _ ← set_chans (fun m => <[c := Chan 1 fd]> m);
  mret (Some c).

(** open with O_RDWR|O_CLOEXEC *)
Definition fuse_clone_chan : M (option Z) :=
  r ← sys (sys_open (lit "/dev/fuse") (Z.lor 2 524288));
  match r with
  | inl _ => mret None
  | inr clonefd =>
      s ← get;
      r ← sys (sys_clone clonefd (se_fd (se s)));
      match r with
      | inl _ => _ ← sys (sys_close clonefd); mret None
      | inr _ =>
          newch ← fuse_chan_new clonefd;
          match newch with
          | None => _ ← sys (sys_close clonefd); mret None
          | Some c => mret (Some c)
          end
      end
  end.

(** ** Starting and joining workers *)

Definition list_add_worker (w nxt : Z) : P unit := set_wlinks (list_add w nxt).

Definition list_del_worker (w : Z) : P unit := set_wlinks (list_del w).

(** pthread_create under fuse_start_thread: a new thread at the start of
    fuse_do_work. *)
Definition fuse_start_thread (w : Z) : P Z :=
  ok ← outcome;
  if negb ok then mret (-1) else
  _ ← set_threads (<[w := Thread W_test false false]>);
  mret 0.

(** The channel of a new worker; cloning is not tried again after a failure. *)
Definition worker_chan : P (option Z) :=
  p ← get;
  if clone_fd (mt p) then
    c ← session fuse_clone_chan;
    _ ← match c with None => set_mt without_clone_fd | Some _ => mret tt end;
    mret c
  else mret None.

Definition fuse_loop_start_thread : P Z :=
  ok ← outcome;
  if negb ok then mret (-1) else
  w ← new_worker;
  _ ← set_wlinks (fun m => Some (<[w := Link 0 0]> m));
  ch ← worker_chan;
  _ ← put_worker w (Worker buf0 ch);
  res ← fuse_start_thread w;
  if res =? -1 then
    _ ← session (fuse_chan_put ch);
    _ ← free_worker w;
    mret (-1)
  else
    _ ← list_add_worker w MAIN;
    _ ← set_mt (with_numavail 1);
    _ ← set_mt (with_numworker 1);
    mret 0.

(** free(w->fbuf.mem), fuse_chan_put(w->ch) and free(w).  Memory that is given
    back is not handed out again. *)
Definition release_worker (w : Z) : P unit :=
  k ← get_worker w;
  _ ← session (fuse_chan_put (w_ch k));
  free_worker w.

(** After pthread_join, which reaps the thread. *)
Definition fuse_join_worker (w : Z) : P unit :=
  _ ← set_threads (delete w);
  _ ← list_del_worker w;
  release_worker w.

(** ** fuse_do_work *)

(** A message in memory with a FORGET opcode. *)
Definition is_forget (b : fuse_buf) : M bool :=
  if has (bflags b) FUSE_BUF_IS_FD then mret false else
  hdr ← load_mem (bmem b) IN_HEADER;
  mret ((u32_at hdr 4 =? FUSE_FORGET) || (u32_at hdr 4 =? FUSE_BATCH_FORGET)).

(** The first critical section. *)
Definition take_request (w : Z) : P unit :=
  p ← get;
  if mt_exit (mt p) then goto w W_end else
  k ← get_worker w;
  isforget ← session (is_forget (fbuf k));
  _ ← (if negb isforget then set_mt (with_numavail (-1)) else mret tt);
  p ← get;
  _ ← (if numavail (mt p) =? 0 then _ ← fuse_loop_start_thread; mret tt else mret tt);
  goto w (W_work isforget).

(** The second critical section. *)
Definition request_done (w : Z) (isforget : bool) : P unit :=
  _ ← (if negb isforget then set_mt (with_numavail 1) else mret tt);
  p ← get;
  if max_idle (mt p) <? numavail (mt p) then
    if mt_exit (mt p) then goto w W_end else
    _ ← list_del_worker w;
    _ ← set_mt (with_numavail (-1));
    _ ← set_mt (with_numworker (-1));
    goto w W_leave
  else goto w W_test.

Definition fuse_do_work (rfuel : nat) (w : Z) (a : place) : P unit :=
  match a with
  | W_test =>
      ex ← session fuse_session_exited;
      goto w (if (ex : bool) then W_post else W_receive)
  | W_receive =>
      k ← get_worker w;
      r ← session (fuse_session_receive_buf_int rfuel (fbuf k) (w_ch k));
      _ ← put_worker w (Worker r.2 (w_ch k));
      goto w (W_got r.1)
  | W_got res =>
      if res =? - EINTR then goto w W_test else
      if res <=? 0 then
        _ ← (if res <? 0 then
               _ ← session fuse_session_exit; set_mt (with_mt_error res)
             else mret tt);
        goto w W_post
      else take_request w
  | W_work isforget =>
      k ← get_worker w;
      _ ← session (fuse_session_process_buf_int op intr_call (fbuf k) (w_ch k));
      goto w (W_worked isforget)
  | W_worked isforget => request_done w isforget
  | W_leave =>
      _ ← set_threads (alter (fun t => Thread (at_ t) (cancelled t) true) w);
      _ ← release_worker w;
      goto w W_end
  | W_post => _ ← set_mt (with_finish 1); goto w W_end
  | W_end => abort
  end.

(** ** fuse_session_loop_mt_32 *)

Definition mt0 (clone : bool) (max_idle_threads : Z) : fuse_mt := Mt 0 0 0 false 0 clone (i32 max_idle_threads).

(** The state at the start of the call, [s] being the session. *)
Definition pool0 (clone : bool) (max_idle_threads : Z) (outs : list bool) (s : LL OS U) : pool :=
  Pool (mt0 clone max_idle_threads) (list_init MAIN ∅) ∅ ∅ 1 M_start outs s.

(** From the destruction of the lock on. *)
Definition loop_return (err : Z) : P unit :=
  p ← get;
  let err := if negb (error (se (ses p)) =? 0) then error (se (ses p)) else err in
  _ ← session fuse_session_reset;
  goto_main (M_return err).

(** The loop over pthread_cancel, and [mt.exit = 1]. *)
Definition cancel_workers : P unit :=
  p ← get;
  match list_nodes (wlinks p) MAIN with
  | None => abort
  | Some ws =>
      _ ← set_threads (fun ts => foldr (alter (fun t => Thread (at_ t) true (detached t))) ts ws);
      set_mt with_exit
  end.

Definition fuse_session_loop_mt_32 (a : main_place) : P unit :=
  match a with
  | M_start =>
      err ← fuse_loop_start_thread;
      if negb (err =? 0) then loop_return err else goto_main M_test
  | M_test =>
      ex ← session fuse_session_exited;
      goto_main (if (ex : bool) then M_cancel else M_wait)
  | M_wait => _ ← set_mt (with_finish (-1)); goto_main M_test
  | M_cancel => _ ← cancel_workers; goto_main M_next
  | M_next =>
      p ← get;
      match wlinks p !! MAIN with
      | None => abort
      | Some k => if next k =? MAIN then loop_return (mt_error (mt p)) else goto_main (M_join (next k))
      end
  | M_join w => _ ← fuse_join_worker w; goto_main M_next
  | M_return _ => abort
  end.

(** fuse_session_loop_mt_31: at most ten idle threads. *)
Definition fuse_session_loop_mt_31 (clone : bool) (outs : list bool) (s : LL OS U) : pool :=
  pool0 clone 10 outs s.

(** exit_handler of fuse_signals.c, whose [fuse_instance] is the session. *)
Definition exit_handler (sig : Z) : M unit :=
  _ ← fuse_session_exit;
  _ ← check (0 <? sig);
  set_se (with_error sig).

(** ** Events *)

Inductive event :=
  | E_main               (* the main thread goes on *)
  | E_worker (w : Z)     (* a worker goes on *)
  | E_cancel (w : Z)     (* a worker that waits for a message acts on pthread_cancel *)
  | E_signal (sig : Z).  (* a signal interrupts the main thread *)

(** The main thread waits in sem_wait and pthread_join; a worker can always go
    on, as the device may answer at any time; workers block signals. *)
Definition enabled (e : event) (p : pool) : bool :=
  match e with
  | E_main =>
      match main_at p with
      | M_wait => 0 <? finish (mt p)
      | M_join w => match threads p !! w with Some t => bool_decide (at_ t = W_end) | None => false end
      | M_return _ => false
      | _ => true
      end
  | E_worker w => match threads p !! w with Some t => negb (bool_decide (at_ t = W_end)) | None => false end
  | E_cancel w =>
      match threads p !! w with
      | Some t => cancelled t && bool_decide (at_ t = W_receive)
      | None => false
      end
  | E_signal sig => (0 <? sig) && match main_at p with M_return _ => false | _ => true end
  end.

(** sem_wait returns on a signal. *)
Definition step (rfuel : nat) (e : event) : P unit :=
  p ← get;
  match e with
  | E_main => fuse_session_loop_mt_32 (main_at p)
  | E_worker w => match threads p !! w with Some t => fuse_do_work rfuel w (at_ t) | None => abort end
  | E_cancel w => goto w W_end
  | E_signal sig =>
      _ ← session (exit_handler sig);
      match main_at p with M_wait => goto_main M_test | _ => mret tt end
  end.

(** A sequence of enabled events. *)
Fixpoint run (rfuel : nat) (es : list event) (p : pool) : option pool :=
  match es with
  | [] => Some p
  | e :: es => if enabled e p then r ← step rfuel e p; run rfuel es r.2 else None
  end.

End Loop.
