(* ===== verification/LoopSpec.v ===== *)
(** * The worker pool: what every step keeps

    [pool_ok p l] says that the list of workers holds exactly [l], that every
    worker object is either in it or belongs to a thread on its way out, and
    that the two counters are exact while the pool runs. *)

From S2P Require Import Prelude DList Wire Buf LowLevel Dispatch Loop.

(** ** Counting *)

(** What numavail counts: the threads that are not occupied with a request other
    than a FORGET, wherever else in fuse_do_work they are (with a message that
    they have not looked at yet, with a FORGET, or at the end). *)
Definition avail (a : place) : Z :=
  match a with W_work false | W_worked false => 0 | _ => 1 end.

(** The sum of a weight of the places of some threads. *)
Definition weigh (f : place -> Z) (ts : gmap Z thread) (w : Z) : Z :=
  match ts !! w with Some t => f (at_ t) | None => 0 end.

Definition tally (f : place -> Z) (ts : gmap Z thread) (l : list Z) : Z := foldr (fun w n => weigh f ts w + n) 0 l.

Abbreviation avail_in := (weigh avail).
Abbreviation idle := (tally avail).

Section Tally.
Context (f : place -> Z).

Lemma tally_cons ts w l : tally f ts (w :: l) = weigh f ts w + tally f ts l.
Proof. done. Qed.

Lemma tally_app ts l1 l2 : tally f ts (l1 ++ l2) = tally f ts l1 + tally f ts l2.
Proof. induction l1 as [|w l1 IH]; cbn [app]; [done|]. rewrite !tally_cons. lia. Qed.

Lemma tally_ext ts ts' l : (forall w, w ∈ l -> weigh f ts' w = weigh f ts w) -> tally f ts' l = tally f ts l.
Proof.
  induction l as [|w l IH]; intros Hl; [done|]. rewrite !tally_cons, (Hl w) by left. f_equal. apply IH. intros v Hv. apply Hl. by right.
Qed.

(** A thread that moves changes the sum by what the move changes. *)
Lemma tally_move ts ts' l w : NoDup l -> w ∈ l -> (forall v, v <> w -> ts' !! v = ts !! v) ->
  tally f ts' l = tally f ts l + weigh f ts' w - weigh f ts w.
Proof.
  intros Hn [l1 [l2 ->]]%list_elem_of_split Ho. apply NoDup_app in Hn as (_ & Hd & [Hw _]%NoDup_cons).
  rewrite !tally_app, !tally_cons.
  rewrite (tally_ext ts ts' l1), (tally_ext ts ts' l2); [lia| |]; intros v Hv; unfold weigh; rewrite Ho; try done.
  - by intros ->.
  - intros ->. apply (Hd w Hv). by left.
Qed.

Lemma tally_without ts ts' l1 w l2 : NoDup (l1 ++ w :: l2) -> (forall v, v <> w -> ts' !! v = ts !! v) ->
  tally f ts' (l1 ++ l2) = tally f ts (l1 ++ w :: l2) - weigh f ts w.
Proof.
  intros Hn Ho. rewrite <- Permutation_middle in Hn. apply NoDup_cons in Hn as [Hw _]. rewrite (tally_ext ts).
  - rewrite !tally_app, tally_cons. lia.
  - intros v Hv. unfold weigh. rewrite Ho; [done|]. by intros ->.
Qed.

Lemma tally_insert ts l w t : w ∉ l -> tally f (<[w := t]> ts) (l ++ [w]) = tally f ts l + f (at_ t).
Proof.
  intros Hw. rewrite tally_app, tally_cons. unfold weigh at 1. rewrite lookup_insert_eq. change (tally f _ []) with 0.
  rewrite (tally_ext ts); [lia|]. intros v Hv. unfold weigh. rewrite lookup_insert_ne; [done|]. by intros <-.
Qed.

Lemma tally_pos ts l : 0 < tally f ts l -> exists w t, w ∈ l /\ ts !! w = Some t /\ 0 < f (at_ t).
Proof.
  induction l as [|w l IH]; [done|]. rewrite tally_cons. intros Hp.
  destruct (decide (0 < weigh f ts w)) as [Hw|Hw].
  - unfold weigh in Hw. destruct (ts !! w) as [t|] eqn:E; [|done]. exists w, t. split; [by left|done].
  - destruct IH as (v & t & ? & ?); [lia|]. exists v, t. split; [by right|done].
Qed.

Lemma tally_nonneg ts l : (forall a, 0 <= f a) -> 0 <= tally f ts l.
Proof.
  intros Hf. induction l as [|w l IH]; [done|]. rewrite tally_cons.
  assert (0 <= weigh f ts w) by (unfold weigh; destruct (ts !! w); [apply Hf|done]). lia.
Qed.
End Tally.

(** ** The invariant *)

Section Spec.
Context {OS U : Type} `{FdOps OS} `{DevOps OS} `{CloneOps OS}.
Context (op : fuse_lowlevel_ops OS U) (intr_call : Z -> Z -> Z -> ST (LL OS U) unit).

Implicit Types (p : @pool OS U) (l : list Z) (w : Z).

(** A worker of the list: its object is allocated and its thread neither left
    nor detached; once the pool stops, it is told to end. *)
Definition listed p w : Prop :=
  is_Some (workers p !! w) /\
  exists t, threads p !! w = Some t /\ at_ t <> W_leave /\ detached t = false /\
    (mt_exit (mt p) = true -> cancelled t = true).

(** A thread outside the list still owns its object, or has given it back and
    ended. *)
Definition outside p w (t : thread) : Prop :=
  (at_ t = W_leave /\ is_Some (workers p !! w)) \/
  (at_ t = W_end /\ workers p !! w = None /\ detached t = true).

Definition main_ok p l : Prop :=
  match main_at p with
  | M_start => l = [] /\ mt_exit (mt p) = false
  | M_test | M_wait | M_cancel => mt_exit (mt p) = false
  | M_next => mt_exit (mt p) = true
  | M_join w => mt_exit (mt p) = true /\ head l = Some w
  | M_return _ => l = []
  end.

(** Lists, objects and threads fit together. *)
Record shape p l : Prop := Shape {
  sh_list : dl (wlinks p) MAIN l;
  sh_fresh : 0 < wfresh p /\ forall w, is_Some (threads p !! w) \/ is_Some (workers p !! w) -> 0 < w < wfresh p;
  sh_listed : forall w, w ∈ l -> listed p w;
  sh_threads : forall w t, threads p !! w = Some t -> w ∈ l \/ outside p w t;
  sh_workers : forall w, is_Some (workers p !! w) -> is_Some (threads p !! w) /\ is_Some (wlinks p !! w) }.

(** The counters are exact while the pool runs. *)
Definition counts p l : Prop := mt_exit (mt p) = false ->
  numworker (mt p) = Z.of_nat (length l) /\ numavail (mt p) = idle (threads p) l.

Definition pool_ok p l : Prop := shape p l /\ counts p l /\ main_ok p l.

(** The only way for a step to abort: a function of the session aborts. *)
Definition session_aborts (rfuel : nat) p : Prop :=
  exists w k, workers p !! w = Some k /\
    (fuse_session_receive_buf_int rfuel (fbuf k) (w_ch k) (ses p) = None \/
     fuse_session_process_buf_int op intr_call (fbuf k) (w_ch k) (ses p) = None \/
     fuse_chan_put (w_ch k) (ses p) = None).

Lemma pool0_ok clone n outs s : pool_ok (pool0 clone n outs s) [].
Proof.
  split; [|by split]. split; cbn.
  - apply dl_init.
  - split; [done|]. intros w. rewrite !lookup_empty. intros [[? ?]|[? ?]]; done.
  - intros w Hw. by apply not_elem_of_nil in Hw.
  - done.
  - intros w. rewrite lookup_empty. by intros [? ?].
Qed.

Lemma shape_NoDup p l : shape p l -> NoDup l.
Proof. intros S. destruct (sh_list _ _ S) as [Hn _]. by apply NoDup_cons in Hn as [_ ?]. Qed.

Lemma shape_pos p l w : shape p l -> w ∈ l -> 0 < w < wfresh p.
Proof. intros S Hw. destruct (sh_listed _ _ S w Hw) as [Hk _]. apply (sh_fresh _ _ S). by right. Qed.

(** A thread inside the loop is in the list. *)
Lemma shape_in p l w t : shape p l -> threads p !! w = Some t -> at_ t <> W_leave -> at_ t <> W_end -> w ∈ l.
Proof. intros S Et H3 H4. destruct (sh_threads _ _ S w t Et) as [?|[[? _]|[? _]]]; [done|congruence|congruence]. Qed.

(** *** Changes that keep the shape *)

Lemma shape_same p p' l : wlinks p' = wlinks p -> (forall w, is_Some (workers p' !! w) <-> is_Some (workers p !! w)) ->
  threads p' = threads p -> wfresh p' = wfresh p -> mt_exit (mt p') = mt_exit (mt p) -> shape p l -> shape p' l.
Proof.
  intros El Ew Et Ef Ex [L F A T W]; split.
  - by rewrite El.
  - rewrite Ef, Et. split.
    + exact (proj1 F).
    + intros w. rewrite Ew. apply F.
  - intros w Hw. destruct (A w Hw) as [Hk Ht]. split; [by apply Ew|]. by rewrite Et, Ex.
  - intros w t. rewrite Et. intros E. destruct (T w t E) as [?|[[? ?]|(? & Hn & ?)]]; [by left|right; left|right; right].
    + split; [done|by apply Ew].
    + split; [done|]. split; [|done]. apply eq_None_not_Some. intros Hs%Ew. rewrite Hn in Hs. by destruct Hs.
  - intros w. rewrite Ew, Et, El. apply W.
Qed.

Definition moved p w a : @pool OS U :=
  Pool (mt p) (wlinks p) (workers p) (alter (at_place a) w (threads p)) (wfresh p) (main_at p) (outcomes p) (ses p).

Lemma moved_lookup p w a v t : threads (moved p w a) !! v = Some t ->
  exists t0, threads p !! v = Some t0 /\ t = if decide (v = w) then at_place a t0 else t0.
Proof.
  cbn. destruct (decide (v = w)) as [->|Hn].
  - rewrite lookup_alter_eq. destruct (threads p !! w) as [t0|]; [|done]. cbn. intros [= <-]. by exists t0.
  - rewrite lookup_alter_ne by done. eauto.
Qed.

Lemma moved_is_Some p w a v : is_Some (threads (moved p w a) !! v) <-> is_Some (threads p !! v).
Proof.
  cbn. destruct (decide (v = w)) as [->|Hn]; [by rewrite lookup_alter_eq, fmap_is_Some|by rewrite lookup_alter_ne].
Qed.

Lemma shape_moved p l w a : shape p l -> w ∈ l -> a <> W_leave -> shape (moved p w a) l.
Proof.
  intros [L F A T W] Hw Ha. split; [done| | | |].
  - split; [exact (proj1 F)|]. intros v. rewrite moved_is_Some. apply F.
  - intros v Hv. destruct (A v Hv) as (Hk & t & Et & H3 & H4 & H5). split; [done|].
    exists (if decide (v = w) then at_place a t else t). split.
    + cbn. destruct (decide (v = w)) as [->|Hn]; [by rewrite lookup_alter_eq, Et|by rewrite lookup_alter_ne].
    + by destruct (decide (v = w)).
  - intros v t (t0 & E0 & ->)%moved_lookup. destruct (decide (v = w)) as [->|Hn]; [by left|].
    by apply (T v t0).
  - intros v Hv. rewrite moved_is_Some. by apply W.
Qed.

Lemma idle_moved p l w a t : shape p l -> w ∈ l -> threads p !! w = Some t ->
  idle (threads (moved p w a)) l = idle (threads p) l + avail a - avail (at_ t).
Proof.
  intros S Hw Et. rewrite (tally_move avail (threads p) _ l w (shape_NoDup _ _ S) Hw).
  - unfold weigh. cbn. by rewrite lookup_alter_eq, Et.
  - intros v Hv. cbn. by rewrite lookup_alter_ne.
Qed.

(** ** Channels *)

(** Cloning a channel ends, leaves the session as it is, and makes a channel
    that can be given back. *)
Lemma clone_ends (s : LL OS U) : exists c s' s'',
  fuse_clone_chan s = Some (c, s') /\ fuse_chan_put c s' = Some (tt, s'') /\ se s' = se s /\ se s'' = se s.
Proof.
  unfold fuse_clone_chan. unfold mbind, ST_bind, sys, lift_w, do_sys, get. cbn.
  destruct (sys_open _ _ _) as [o [e|fd]]; cbn; [by eexists None, _, _|].
  destruct (sys_clone _ _ _) as [o2 [e|[]]]; cbn.
  { destruct (sys_close _ _) as [o3 r]; cbn. by eexists None, _, _. }
  unfold fuse_chan_new, mbind, ST_bind, malloc. cbn. destruct (sys_close fd o2) as [o3 r] eqn:Ec.
  destruct (heap s) as [|[] h]; cbn; unfold mret, ST_ret; cbn; rewrite ?Ec; cbn; [| |by eexists None, _, _].
  all: eexists _, _, _; split; [reflexivity|]; split; [
    unfold fuse_chan_put, mbind, ST_bind, get, of_option; cbn; rewrite lookup_insert_eq; cbn;
    unfold sys, lift_w, do_sys, mbind, ST_bind, get; cbn; change (1 - 1 =? 0) with true; cbn; rewrite Ec; reflexivity | split; reflexivity].
Qed.

Lemma is_forget_ends b (s : LL OS U) : exists f, is_forget b s = Some (f, s).
Proof. unfold is_forget. destruct (has _ _); [by eexists|]. unfold load_mem, mbind, ST_bind, get. cbn. by eexists. Qed.

Lemma chan_put_se c (s s' : LL OS U) : fuse_chan_put c s = Some (tt, s') -> se s' = se s.
Proof.
  unfold fuse_chan_put. destruct c as [c|]; [|by intros [= <-]].
  unfold mbind, ST_bind, get, of_option. destruct (chans s !! c) as [k|]; cbn; [|done].
  destruct (_ =? 0); [|by intros [= <-]]. unfold sys, lift_w, do_sys, mbind, ST_bind, get. cbn.
  destruct (sys_close _ _) as [o r]; cbn. by intros [= <-].
Qed.

(** ** Starting a worker *)

(** The fields of struct fuse_mt other than the counters. *)
Definition mt_like (m m' : fuse_mt) : Prop :=
  finish m' = finish m /\ mt_exit m' = mt_exit m /\ mt_error m' = mt_error m /\ max_idle m' = max_idle m.

Definition started p p' l : Prop := exists w,
  w ∉ l /\ threads p !! w = None /\ shape p' (l ++ [w]) /\
  threads p' = <[w := Thread W_test false false]> (threads p) /\
  numavail (mt p') = numavail (mt p) + 1 /\ numworker (mt p') = numworker (mt p) + 1.

Definition not_started p p' l : Prop :=
  outcomes p <> [] /\ shape p' l /\ threads p' = threads p /\
  numavail (mt p') = numavail (mt p) /\ numworker (mt p') = numworker (mt p).

(** A list with a new object that is not in it. *)
Lemma dl_spare m h l w k : dl m h l -> w ∉ h :: l -> dl (<[w := k]> m) h l.
Proof.
  intros D Hw. apply (dl_frame m); [|done]. intros a Ha. unfold fields. rewrite lookup_insert_ne; [done|]. by intros <-.
Qed.

Lemma dl_freed m h l w : dl m h l -> w ∉ h :: l -> dl (delete w m) h l.
Proof.
  intros D Hw. apply (dl_frame m); [|done]. intros a Ha. unfold fields. rewrite lookup_delete_ne; [done|]. by intros <-.
Qed.

Lemma fresh_new p l : shape p l -> wfresh p ∉ MAIN :: l /\ threads p !! wfresh p = None /\ workers p !! wfresh p = None.
Proof.
  intros S. destruct (sh_fresh _ _ S) as [F1 F2]. split.
  - intros [E|Hw]%elem_of_cons; [unfold MAIN in E; lia|]. pose proof (shape_pos _ _ _ S Hw). lia.
  - split; apply eq_None_not_Some; intros Hs; [pose proof (F2 (wfresh p) (or_introl Hs))|pose proof (F2 (wfresh p) (or_intror Hs))]; lia.
Qed.

(** A worker object that was just allocated joins the list with its thread. *)
Lemma shape_add p m1 l w k : shape p l -> mt_exit (mt p) = false -> w = wfresh p ->
  forall m o s mn, (mt_exit m = mt_exit (mt p)) -> list_add w MAIN (<[w := Link 0 0]> (wlinks p)) = Some m1 ->
  shape (Pool m m1 (<[w := k]> (workers p)) (<[w := Thread W_test false false]> (threads p)) (wfresh p + 1) mn o s) (l ++ [w]).
Proof.
  intros S Ex -> m o s mn Em Ea. destruct (fresh_new _ _ S) as (Hl & Ht & Hk). destruct S as [L F A T W].
  destruct (list_add_spec _ MAIN l (wfresh p) (dl_spare _ _ _ _ (Link 0 0) L Hl) Hl) as (m' & Ea' & D' & _ & Hd).
  { by rewrite lookup_insert_eq. }
  assert (m' = m1) as -> by congruence. split; cbn.
  - done.
  - destruct F as [F1 F2]. split; [lia|]. intros v Hv. destruct (decide (v = wfresh p)) as [->|Hn]; [lia|].
    rewrite !lookup_insert_ne in Hv by done. specialize (F2 v Hv). lia.
  - intros v [Hv|Hv]%elem_of_app.
    + assert (v <> wfresh p) as Hn by (intros ->; apply Hl; by right).
      destruct (A v Hv) as (Hw & t & Et & H3 & H4 & H5). unfold listed; cbn. rewrite !lookup_insert_ne by done.
      split; [done|]. exists t. by rewrite Em.
    + apply list_elem_of_singleton in Hv as ->. unfold listed; cbn. rewrite !lookup_insert_eq. split; [done|].
      eexists. split; [done|]. cbn. rewrite Em, Ex. done.
  - intros v t. destruct (decide (v = wfresh p)) as [->|Hn].
    + intros _. left. apply elem_of_app. right. by apply list_elem_of_singleton.
    + rewrite lookup_insert_ne by done. intros Et. destruct (T v t Et) as [?|Ho]; [left; apply elem_of_app; by left|right].
      unfold outside in *; cbn. by rewrite lookup_insert_ne.
  - intros v Hv. assert (is_Some (m1 !! v) <-> v ∈ dom m1) as -> by by rewrite elem_of_dom. rewrite Hd.
    rewrite elem_of_dom. destruct (decide (v = wfresh p)) as [->|Hn]; [by rewrite !lookup_insert_eq|].
    rewrite !lookup_insert_ne in * by done. by apply W.
Qed.

(** The object of a thread that is not in the list is given back. *)
Lemma shape_drop p l w m ts f mn o s : shape p l -> mt_exit m = mt_exit (mt p) -> w ∉ MAIN :: l ->
  (forall v, v <> w -> ts !! v = threads p !! v) ->
  (is_Some (threads p !! w) /\ (exists t, ts !! w = Some t /\ at_ t = W_end /\ detached t = true) \/ ts !! w = None) ->
  wfresh p <= f -> shape (Pool m (delete w (wlinks p)) (delete w (workers p)) ts f mn o s) l.
Proof.
  intros [L F A T W] Em Hw Ho Ht Hf. split; cbn.
  - by apply dl_freed.
  - destruct F as [F1 F2]. split; [lia|]. intros v Hv. enough (0 < v < wfresh p) by lia. apply F2.
    destruct (decide (v = w)) as [->|Hn]; [|by rewrite Ho, lookup_delete_ne in Hv].
    rewrite lookup_delete_eq in Hv. destruct Ht as [[? _]|Ht]; [by left|]. rewrite Ht in Hv. by destruct Hv as [[]%is_Some_None|[]%is_Some_None].
  - intros v Hv. assert (v <> w) as Hn by (intros ->; apply Hw; by right).
    destruct (A v Hv) as (Hk & Hr). unfold listed; cbn. rewrite lookup_delete_ne, Ho, Em by done. by split.
  - intros v t Et. destruct (decide (v = w)) as [->|Hn].
    + right; right; cbn. destruct Ht as [(_ & t' & Et' & ? & ?)|Ht]; [|congruence]. rewrite lookup_delete_eq.
      assert (t = t') as -> by congruence. done.
    + rewrite Ho in Et by done. destruct (T v t Et) as [?|Hs]; [by left|right]. unfold outside in *; cbn. by rewrite lookup_delete_ne.
  - intros v Hv. assert (v <> w) as Hn by (intros ->; rewrite lookup_delete_eq in Hv; by apply is_Some_None in Hv).
    rewrite !lookup_delete_ne in * by done. rewrite Ho by done. by apply W.
Qed.

Definition in_session p m s : @pool OS U :=
  Pool m (wlinks p) (workers p) (threads p) (wfresh p) (main_at p) (outcomes p) s.

Lemma worker_chan_ends p : exists c m s s',
  worker_chan p = Some (c, in_session p m s) /\ mt_like (mt p) m /\ numavail m = numavail (mt p) /\ numworker m = numworker (mt p) /\ se s = se (ses p) /\ fuse_chan_put c s = Some (tt, s') /\ se s' = se (ses p).
Proof.
  unfold worker_chan, mbind, ST_bind, get, session. destruct (clone_fd (mt p)); cbn.
  - destruct (clone_ends (ses p)) as (c & s & s' & E & Ep & Es & Es'). rewrite E.
    destruct c as [c|]; cbn; eexists _, _, s, s'; (split; [reflexivity|]); done.
  - destruct p. by eexists None, _, _, _.
Qed.

Definition with_outs p o : @pool OS U :=
  Pool (mt p) (wlinks p) (workers p) (threads p) (wfresh p) (main_at p) o (ses p).

Lemma outcome_cases p : exists b o, outcome p = Some (b, with_outs p o) /\ (outcomes p = [] -> b = true /\ o = []).
Proof.
  unfold outcome, with_outs. destruct (outcomes p) as [|b o] eqn:E.
  - exists true, []. split; [|done]. rewrite <- E. by destruct p.
  - by exists b, o.
Qed.

(** fuse_loop_start_thread either adds one worker, or fails and gives
    everything back. *)
Lemma start_thread_spec p l : shape p l -> mt_exit (mt p) = false ->
  exists res p', fuse_loop_start_thread p = Some (res, p') /\ mt_like (mt p) (mt p') /\
    main_at p' = main_at p /\ se (ses p') = se (ses p) /\ (outcomes p = [] -> outcomes p' = []) /\
    ((res = 0 /\ started p p' l) \/ (res = -1 /\ not_started p p' l)).
Proof.
  intros S Ex. destruct (fresh_new _ _ S) as (Hl & Ht & Hk).
  assert (exists m1, list_add (wfresh p) MAIN (<[wfresh p := Link 0 0]> (wlinks p)) = Some m1) as [m1 Ea].
  { destruct (list_add_spec _ MAIN l (wfresh p) (dl_spare _ _ _ _ (Link 0 0) (sh_list _ _ S) Hl) Hl) as (m1 & ? & _); [|by eauto].
    by rewrite lookup_insert_eq. }
  unfold fuse_loop_start_thread.
  destruct (outcome_cases p) as (b & o & E & Ho). erewrite bind_step by exact E. destruct b; cbn [negb].
  2: { eexists _, _. split; [reflexivity|]. split; [done|]. split; [done|]. split; [done|]. split; [intros E0; by apply Ho in E0 as [_ ?]|].
       right. split; [done|]. split; [intros E0; by apply Ho in E0 as [? _]|]. split; [by apply (shape_same p)|done]. }
  erewrite bind_step by reflexivity. erewrite bind_step by reflexivity.
  set (p1 := Pool _ _ _ _ _ _ _ _). destruct (worker_chan_ends p1) as (c & m & s & s' & Ec & Lm & Em1 & Em2 & Es & Ep & Es').
  erewrite bind_step by exact Ec. erewrite bind_step by reflexivity.
  unfold fuse_start_thread. set (p2 := Pool _ _ _ _ _ _ _ _).
  destruct (outcome_cases p2) as (b2 & o2 & E2 & Ho2). cbn [outcomes with_outs p1 p2 in_session] in Ho2.
  rewrite bind_assoc. erewrite bind_step by exact E2. destruct b2; cbn [negb].
  - erewrite bind_step by reflexivity. cbv beta iota.
    replace (0 =? -1) with false by done. unfold list_add_worker.
    erewrite bind_step by (unfold set_wlinks; cbn; rewrite Ea; reflexivity).
    eexists _, _. split; [reflexivity|]. cbn. split; [done|]. split; [done|]. split; [done|].
    split; [intros E0; by apply Ho2, Ho|]. left. split; [done|]. exists (wfresh p).
    split; [intros ?; apply Hl; by right|]. split; [done|]. split.
    + apply (shape_add p m1 l (wfresh p) (Worker buf0 c) S Ex eq_refl); [exact (proj1 (proj2 Lm))|exact Ea].
    + split; [done|]. cbn. rewrite Em1, Em2. done.
  - cbv beta iota. rewrite bind_ret. replace (-1 =? -1) with true by done.
    erewrite bind_step by (unfold session; cbn; rewrite Ep; reflexivity).
    erewrite bind_step by (unfold free_worker; erewrite bind_step by (unfold get_worker; cbn; rewrite lookup_insert_eq; reflexivity); reflexivity).
    eexists _, _. split; [reflexivity|]. cbn. split; [done|]. split; [done|]. split; [done|].
    split; [intros E0; by apply Ho2, Ho|]. right. split; [done|].
    split; [intros E0; apply Ho in E0 as [_ E0]; by apply Ho2 in E0 as [? _]|]. split; [|cbn; by rewrite Em1, Em2].
    rewrite !delete_insert_eq. apply (shape_drop p); try done; [|by right|cbn; lia].
    exact (proj1 (proj2 Lm)).
Qed.

(** ** Steps *)

(** With at least one idle thread allowed and no failures, somebody is always
    available, and never more than allowed. *)
Definition staffed (n : Z) p : Prop := outcomes p = [] /\ (1 <= max_idle (mt p) /\ max_idle (mt p) = n) /\
  (mt_exit (mt p) = false -> numavail (mt p) <= max_idle (mt p) /\
     match main_at p with M_start => numavail (mt p) = 0 | _ => 1 <= numavail (mt p) end).

(** What a step keeps. *)
Definition keeps p p' : Prop := exists l', pool_ok p' l' /\ (forall n, staffed n p -> staffed n p').

(** Nothing but the session and the fields [finish] and [error] changed. *)
Definition alike p p' : Prop :=
  wlinks p' = wlinks p /\ (forall w, is_Some (workers p' !! w) <-> is_Some (workers p !! w)) /\
  threads p' = threads p /\ wfresh p' = wfresh p /\ main_at p' = main_at p /\ outcomes p' = outcomes p /\
  numavail (mt p') = numavail (mt p) /\ numworker (mt p') = numworker (mt p) /\
  mt_exit (mt p') = mt_exit (mt p) /\ max_idle (mt p') = max_idle (mt p).

Lemma alike_ok p p' l : alike p p' -> pool_ok p l -> pool_ok p' l.
Proof.
  intros (El & Ew & Et & Ef & Em & Eo & Ea & En & Ex & Ei) (S & C & Mn). split; [by apply (shape_same p)|]. split.
  - intros Hx. rewrite Ea, En, Et. apply C. congruence.
  - unfold main_ok in *. by rewrite Em, Ex.
Qed.

Lemma alike_staffed n p p' : alike p p' -> staffed n p -> staffed n p'.
Proof.
  intros (El & Ew & Et & Ef & Em & Eo & Ea & En & Ex & Ei) (O & I & A). unfold staffed. by rewrite Eo, Ei, Ex, Ea, Em.
Qed.

(** A thread moves on without changing what it counts as. *)
Lemma moved_keeps p p1 l w t a : pool_ok p l -> alike p p1 -> threads p !! w = Some t -> w ∈ l ->
  a <> W_leave -> avail a = avail (at_ t) -> keeps p (moved p1 w a).
Proof.
  intros O A Et Hw Ha Hv. exists l. split; [|by intros n St%(alike_staffed _ _ _ A)].
  destruct (alike_ok _ _ _ A O) as (S & C & Mn). assert (threads p1 !! w = Some t) as Et1 by (destruct A as (_ & _ & -> & _); done).
  split; [by apply shape_moved|]. split; [|done]. intros Hx. rewrite (idle_moved p1 l w a t) by done. cbn in Hx |- *.
  destruct (C Hx). lia.
Qed.

Lemma pool_alike_refl p : alike p p.
Proof. by repeat split. Qed.

Lemma alike_session p m s k w : workers p !! w <> None ->
  numavail m = numavail (mt p) -> numworker m = numworker (mt p) -> (mt_exit m = mt_exit (mt p)) -> max_idle m = max_idle (mt p) ->
  alike p (Pool m (wlinks p) (<[w := k]> (workers p)) (threads p) (wfresh p) (main_at p) (outcomes p) s).
Proof.
  intros Hw Ha Hn Hx Hi. repeat (split; [done|]). split; [|done]. intros v. cbn. destruct (decide (v = w)) as [->|Hv].
  - rewrite lookup_insert_eq. split; [|done]. intros _. by apply not_eq_None_Some.
  - by rewrite lookup_insert_ne.
Qed.

(** The main thread moves on. *)
Lemma main_keeps p l m s mn : pool_ok p l -> numavail m = numavail (mt p) -> numworker m = numworker (mt p) ->
  (mt_exit m = mt_exit (mt p)) -> max_idle m = max_idle (mt p) -> main_at p <> M_start ->
  let p' := Pool m (wlinks p) (workers p) (threads p) (wfresh p) mn (outcomes p) s in
  main_ok p' l -> mn <> M_start -> keeps p p'.
Proof.
  intros (S & C & Mn) Ha Hn Hx Hi Hm p' Mo Hs. exists l. split.
  - split; [by apply (shape_same p)|]. split; [|done]. intros E. cbn in *. rewrite Ha, Hn. apply C. congruence.
  - intros n (O & I & A). split; [done|]. cbn. rewrite Hi, Hx, Ha. split; [done|]. intros E. destruct (A E) as [A1 A2].
    split; [done|]. by destruct (main_at p), mn.
Qed.

(** While the pool runs and has a worker, the main thread waits. *)
Lemma main_running p l p' l' w : main_ok p l -> mt_exit (mt p) = false -> w ∈ l ->
  main_at p' = main_at p -> mt_exit (mt p') = false -> main_ok p' l' /\ main_at p <> M_start.
Proof.
  unfold main_ok. intros Mo Ex Hw -> Ex'.
  assert (l <> []) by (intros ->; by apply not_elem_of_nil in Hw). destruct (main_at p); naive_solver congruence.
Qed.

(** Starting a thread when nobody is available. *)
Definition recruit p : option (unit * @pool OS U) :=
  (if numavail (mt p) =? 0 then _ ← fuse_loop_start_thread; mret tt else mret tt) p.

Lemma recruit_spec p l : shape p l -> mt_exit (mt p) = false -> exists p' l', recruit p = Some (tt, p') /\
  shape p' l' /\ mt_like (mt p) (mt p') /\ main_at p' = main_at p /\ se (ses p') = se (ses p) /\
  (outcomes p = [] -> outcomes p' = []) /\ (forall w, w ∈ l -> w ∈ l' /\ threads p' !! w = threads p !! w) /\
  numworker (mt p') - Z.of_nat (length l') = numworker (mt p) - Z.of_nat (length l) /\
  numavail (mt p') - idle (threads p') l' = numavail (mt p) - idle (threads p) l /\
  (outcomes p = [] -> numavail (mt p') = if numavail (mt p) =? 0 then 1 else numavail (mt p)).
Proof.
  intros S Ex. unfold recruit. destruct (Z.eqb_spec (numavail (mt p)) 0) as [E0|_].
  2: { exists p, l. by split_and!. }
  destruct (start_thread_spec p l S Ex) as (res & p' & E & Lm & Em & Es & Eo & Hc).
  erewrite bind_step by exact E. exists p'.
  destruct Hc as [(-> & w & Hw & Ht & S' & Et & Ea & En)|(-> & Ho & S' & Et & Ea & En)].
  - exists (l ++ [w]). split; [done|]. split; [done|]. split; [done|]. split; [done|]. split; [done|]. split; [done|]. split.
    + intros v Hv. split; [apply elem_of_app; by left|]. rewrite Et, lookup_insert_ne; [done|]. by intros <-.
    + rewrite Ea, En, Et, tally_insert, length_app by done. cbn. split; [lia|]. split; [lia|]. intros _. lia.
  - exists l. split; [done|]. split; [done|]. split; [done|]. split; [done|]. split; [done|]. split; [done|].
    rewrite Et, Ea, En. split; [done|]. split; [lia|]. split; [lia|]. done.
Qed.

(** The first critical section of a worker. *)
Lemma take_keeps p l w t : pool_ok p l -> w ∈ l -> threads p !! w = Some t -> avail (at_ t) = 1 ->
  exists p', take_request w p = Some (tt, p') /\ keeps p p'.
Proof.
  intros O Hw Et Ha. unfold take_request. rewrite bind_get. destruct (mt_exit (mt p)) eqn:Ex.
  { eexists. split; [reflexivity|]. by apply (moved_keeps p p l w t W_end O (pool_alike_refl p)). }
  destruct O as (S & C & Mo). destruct (C Ex) as [C1 C2].
  destruct (sh_listed _ _ S w Hw) as ([k Ek] & _).
  erewrite bind_step by (unfold get_worker; rewrite Ek; reflexivity).
  destruct (is_forget_ends (fbuf k) (ses p)) as [f Ef]. erewrite bind_step by (unfold session; rewrite Ef; reflexivity).
  set (p1 := Pool (if f then mt p else with_numavail (-1) (mt p)) (wlinks p) (workers p) (threads p) (wfresh p) (main_at p) (outcomes p) (ses p)).
  assert (shape p1 l) as S1 by (apply (shape_same p); try done; by destruct f).
  assert (mt_exit (mt p1) = false) as Ex1 by (by destruct f).
  destruct (recruit_spec p1 l S1 Ex1) as (p2 & l2 & E2 & S2 & Lm & Em & Es & Eo & Hl & En & Ea & Hs).
  exists (moved p2 w (W_work f)). split.
  { erewrite bind_step with (s' := p1) by (by destruct f). rewrite bind_get. by erewrite bind_step by exact E2. }
  destruct (Hl w Hw) as [Hw2 Et2]. cbn [threads p1] in Et2. rewrite Et in Et2.
  assert (mt_exit (mt p2) = false) as Ex2 by (destruct Lm as (_ & -> & _); done).
  exists l2. split.
  - split; [by apply shape_moved|]. split; [|by apply (main_running p l (moved p2 w (W_work f)) l2 w Mo Ex Hw Em)].
    intros _. rewrite (idle_moved p2 l2 w _ t) by done. cbn [mt moved]. rewrite Ha.
    cbn [threads p1] in Ea. rewrite <- C2 in Ea. destruct f; cbn in *; lia.
  - intros n (O & I & A). destruct (A Ex) as [A1 A2]. split; [by apply Eo|]. cbn [mt moved]. destruct Lm as (_ & _ & _ & ->).
    split; [by destruct f|]. intros _. specialize (Hs O). assert (1 <= numavail (mt p)) as A3.
    { destruct (main_running p l p l w Mo Ex Hw eq_refl Ex) as [_ Hm]. by destruct (main_at p). }
    cbn [main_at moved]. rewrite Em. cbn [main_at p1]. destruct (main_running p l p l w Mo Ex Hw eq_refl Ex) as [_ Hm].
    assert (1 <= numavail (mt p2) <= max_idle (mt p)) as [? ?].
    { rewrite Hs. destruct f; cbn; zcases. }
    split; [by destruct f|]. by destruct (main_at p).
Qed.

(** A worker leaves the list. *)
Lemma shape_left p m l1 w l2 mt' : shape p (l1 ++ w :: l2) -> list_del w (wlinks p) = Some m ->
  (mt_exit mt' = mt_exit (mt p)) ->
  shape (moved (Pool mt' m (workers p) (threads p) (wfresh p) (main_at p) (outcomes p) (ses p)) w W_leave) (l1 ++ l2).
Proof.
  intros S Ed Ex. pose proof (shape_NoDup _ _ S) as Hn. pose proof S as [L F A T W].
  destruct (list_del_spec _ _ _ _ _ L) as (m' & Ed' & D' & _ & Hd). assert (m' = m) as -> by congruence.
  assert (w ∉ l1 ++ l2) as Hw. { rewrite <- Permutation_middle in Hn. by apply NoDup_cons in Hn as [? _]. }
  set (p1 := Pool mt' m (workers p) (threads p) (wfresh p) (main_at p) (outcomes p) (ses p)). split.
  - done.
  - split; [exact (proj1 F)|]. intros v. rewrite moved_is_Some. apply F.
  - intros v Hv. assert (v <> w) as Hvw by (by intros ->). destruct (A v) as (Hk & Hr); [set_solver|].
    unfold listed. cbn. rewrite lookup_alter_ne, Ex by done. by split.
  - intros v t (t0 & E0 & ->)%moved_lookup. destruct (decide (v = w)) as [->|Hvw].
    + right; left. split; [done|]. apply (A w). set_solver.
    + destruct (T v t0 E0) as [?|?]; [left; set_solver|by right].
  - intros v Hv. rewrite moved_is_Some. destruct (W v Hv) as [? Hs]. split; [done|].
    apply elem_of_dom in Hs. apply elem_of_dom. cbn. by rewrite Hd.
Qed.

(** The second critical section of a worker. *)
Lemma done_keeps p l w t f : pool_ok p l -> w ∈ l -> threads p !! w = Some t -> at_ t = W_worked f ->
  exists p', request_done w f p = Some (tt, p') /\ keeps p p'.
Proof.
  intros O Hw Et Ha. set (p1 := Pool (if f then mt p else with_numavail 1 (mt p)) (wlinks p) (workers p) (threads p) (wfresh p) (main_at p) (outcomes p) (ses p)).
  destruct O as (S & C & Mo).
  assert (shape p1 l) as S1 by (apply (shape_same p); try done; by destruct f).
  unfold request_done. erewrite bind_step with (a := tt) (s' := p1) by (clear; destruct f, p; reflexivity). rewrite bind_get.
  assert (mt_exit (mt p1) = mt_exit (mt p)) as Ex1 by (by destruct f). rewrite Ex1.
  assert (max_idle (mt p1) = max_idle (mt p)) as Ei1 by (by destruct f).
  assert (numworker (mt p1) = numworker (mt p)) as En1 by (by destruct f).
  assert (numavail (mt p1) = numavail (mt p) + 1 - avail (W_worked f)) as Ea1 by (destruct f; cbn; lia).
  assert (main_ok (moved p1 w W_end) l) as Mo1 by (unfold main_ok in *; cbn [main_at mt moved]; by rewrite Ex1).
  destruct (Z.ltb_spec (max_idle (mt p1)) (numavail (mt p1))) as [Hlt|Hle].
  - destruct (mt_exit (mt p)) eqn:Ex.
    { eexists. split; [reflexivity|]. exists l. split.
      - split; [by apply shape_moved|]. split; [|done]. unfold counts. cbn [mt moved]. by rewrite Ex1.
      - intros n (O & I & A). split; [done|]. cbn [mt moved]. rewrite Ei1, Ex1. done. }
    pose proof Hw as (l1 & l2 & ->)%list_elem_of_split.
    destruct (list_del_spec _ _ _ _ _ (sh_list _ _ S1)) as (m & Ed & _).
    unfold list_del_worker. erewrite bind_step by (unfold set_wlinks; rewrite Ed; reflexivity).
    set (m2 := with_numworker (-1) (with_numavail (-1) (mt p1))).
    set (p2 := Pool m2 m (workers p) (threads p) (wfresh p) (main_at p) (outcomes p) (ses p)).
    exists (moved p2 w W_leave). split; [reflexivity|]. exists (l1 ++ l2). destruct (C Ex) as [C1 C2].
    assert (numworker m2 = numworker (mt p1) - 1 /\ numavail m2 = numavail (mt p1) - 1) as [E1 E2] by (cbn; lia).
    destruct (main_running p _ (moved p2 w W_leave) (l1 ++ l2) w Mo Ex Hw eq_refl Ex1) as [Mo2 Hm].
    split; [split; [exact (shape_left p1 m l1 w l2 m2 S1 Ed eq_refl)|]; split; [|done]|].
    + intros _. cbn [mt moved threads p2]. rewrite (tally_without avail (threads p) _ l1 w l2 (shape_NoDup _ _ S)).
      * unfold weigh. rewrite Et, Ha. rewrite length_app in *. cbn [length] in *. lia.
      * intros v Hv. by rewrite lookup_alter_ne.
    + intros n (O & I & A). split; [done|]. cbn [mt moved p2 main_at]. change (max_idle m2) with (max_idle (mt p1)).
      split; [lia|]. intros _. destruct (A Ex) as [A1 A2].
      assert (0 <= avail (W_worked f)) by (destruct f; cbn; lia).
      split; [lia|]. destruct (main_at p); try done; lia.
  - exists (moved p1 w W_test). split; [reflexivity|]. exists l. split.
    + split; [by apply shape_moved|]. split; [|done]. intros Ex. rewrite (idle_moved p1 l w _ t) by done.
      cbn [mt moved] in *. rewrite Ex1 in Ex. destruct (C Ex) as [C1 C2]. cbn [threads p1]. rewrite Ha. change (avail W_test) with 1. lia.
    + intros n (O & I & A). split; [done|]. cbn [moved main_at p1]. change (mt (moved p1 w W_test)) with (mt p1). rewrite Ex1. split; [lia|]. intros Ex.
      destruct (A Ex) as [A1 A2]. split; [done|]. assert (0 <= 1 - avail (W_worked f)) by (destruct f; cbn; lia).
      destruct (main_running p l p l w Mo Ex Hw eq_refl Ex) as [_ Hm]. destruct (main_at p); try done; lia.
Qed.

(** What a step may do: keep the invariant, or abort because the session does. *)
Definition fine (rfuel : nat) p (r : option (unit * @pool OS U)) : Prop :=
  match r with Some (_, p') => keeps p p' | None => session_aborts rfuel p end.

Lemma fine_Some rfuel p r : (exists p', r = Some (tt, p') /\ keeps p p') -> fine rfuel p r.
Proof. by intros (p' & -> & K). Qed.

(** A thread that left owns its object and is not in the list. *)
Lemma leaver p l w t : shape p l -> threads p !! w = Some t -> at_ t = W_leave ->
  w ∉ MAIN :: l /\ is_Some (workers p !! w).
Proof.
  intros S Et Ha.
  assert (w ∉ l) as Hw. { intros Hw. destruct (sh_listed _ _ S w Hw) as (_ & t' & Et' & Hn & _). congruence. }
  destruct (sh_threads _ _ S w t Et) as [?|[[_ Hk]|[? _]]]; [done| |congruence]. split; [|done].
  apply not_elem_of_cons. split; [|done]. destruct (sh_fresh _ _ S) as [_ F]. specialize (F w (or_intror Hk)). unfold MAIN. lia.
Qed.

Lemma leave_fine rfuel p l w t : pool_ok p l -> threads p !! w = Some t -> at_ t = W_leave ->
  fine rfuel p (fuse_do_work op intr_call rfuel w W_leave p).
Proof.
  intros (S & C & Mo) Et Ha. destruct (leaver p l w t S Et Ha) as [Hw [k Ek]].
  unfold fuse_do_work. erewrite bind_step by reflexivity. unfold release_worker. rewrite bind_assoc.
  erewrite bind_step by (unfold get_worker; cbn; rewrite Ek; reflexivity). rewrite bind_assoc.
  destruct (fuse_chan_put (w_ch k) (ses p)) as [[[] s']|] eqn:Ep.
  2: { unfold mbind at 1, ST_bind at 1, session. cbn. rewrite Ep. exists w, k. by split; [|right; right]. }
  erewrite bind_step by (unfold session; cbn; rewrite Ep; reflexivity).
  unfold free_worker. rewrite bind_assoc.
  erewrite bind_step by (unfold get_worker; cbn; rewrite Ek; reflexivity).
  apply fine_Some. eexists. split; [reflexivity|]. cbn. exists l. split; [|done]. split; [|split; [|done]].
  - apply (shape_drop p); try done.
    + intros v Hv. by rewrite !lookup_alter_ne.
    + left. split; [done|]. rewrite !lookup_alter_eq, Et. by eexists.
  - intros Ex. destruct (C Ex) as [C1 C2]. cbn in *. split; [done|]. rewrite C2. symmetry. apply tally_ext.
    intros v Hv. unfold weigh. rewrite !lookup_alter_ne; [done|intros <-; apply Hw; by right..].
Qed.

Lemma join_fine rfuel p l w t : pool_ok p l -> main_at p = M_join w -> threads p !! w = Some t -> at_ t = W_end ->
  fine rfuel p (fuse_session_loop_mt_32 (M_join w) p).
Proof.
  intros (S & C & Mo) Em Et Ha. unfold main_ok in Mo. rewrite Em in Mo. destruct Mo as [Ex Hh].
  destruct l as [|w' l]; [done|]. injection Hh as ->. pose proof (shape_NoDup _ _ S) as [Hw Hn]%NoDup_cons.
  destruct (list_del_spec _ _ [] _ _ (sh_list _ _ S)) as (m & Ed & D & _ & Hd).
  destruct (sh_listed _ _ S w) as ([k Ek] & _); [by left|].
  pose proof (shape_pos _ _ w S ltac:(by left)) as Hp.
  unfold fuse_session_loop_mt_32, fuse_join_worker. rewrite bind_assoc. erewrite bind_step by reflexivity.
  rewrite bind_assoc. unfold list_del_worker. erewrite bind_step by (unfold set_wlinks; cbn; rewrite Ed; reflexivity).
  unfold release_worker. rewrite bind_assoc.
  erewrite bind_step by (unfold get_worker; cbn; rewrite Ek; reflexivity). rewrite bind_assoc.
  destruct (fuse_chan_put (w_ch k) (ses p)) as [[[] s']|] eqn:Ep.
  2: { unfold mbind at 1, ST_bind at 1, session. cbn. rewrite Ep. exists w, k. by split; [|right; right]. }
  erewrite bind_step by (unfold session; cbn; rewrite Ep; reflexivity).
  unfold free_worker. rewrite bind_assoc.
  erewrite bind_step by (unfold get_worker; cbn; rewrite Ek; reflexivity).
  apply fine_Some. eexists. split; [reflexivity|]. cbn. exists l. split.
  - split; [|split; [|done]].
    + set (p1 := moved (Pool (mt p) m (workers p) (threads p) (wfresh p) (main_at p) (outcomes p) (ses p)) w W_leave).
      apply (shape_drop p1); [exact (shape_left p m [] w l (mt p) S Ed eq_refl)|done| | |by right; rewrite lookup_delete_eq|done].
      * apply not_elem_of_cons. split; [unfold MAIN; lia|done].
      * intros v Hv. cbn. by rewrite lookup_delete_ne, lookup_alter_ne.
    + intros Ex'. cbn in *. congruence.
  - intros n (O & I & A). split; [done|]. split; [done|]. cbn. congruence.
Qed.

Lemma cancel_spec ts ws v : (foldr (alter (fun t => Thread (at_ t) true (detached t))) ts ws : gmap Z thread) !! v =
  (fun t => Thread (at_ t) (cancelled t || bool_decide (v ∈ ws)) (detached t)) <$> ts !! v.
Proof.
  induction ws as [|x ws IH]; cbn [foldr].
  - destruct (ts !! v) as [[]|]; cbn; [|done]. by rewrite orb_false_r.
  - destruct (decide (v = x)) as [->|Hn].
    + rewrite lookup_alter_eq, IH. destruct (ts !! x) as [[]|]; cbn; [|done]. rewrite (bool_decide_true (x ∈ x :: ws)) by left. by rewrite orb_true_r.
    + rewrite lookup_alter_ne, IH by done. destruct (ts !! v) as [[]|]; cbn; [|done]. repeat f_equal.
      apply bool_decide_ext. rewrite elem_of_cons. naive_solver.
Qed.

Lemma cancel_keeps p l : pool_ok p l -> main_at p = M_cancel ->
  exists p', fuse_session_loop_mt_32 M_cancel p = Some (tt, p') /\ keeps p p'.
Proof.
  intros (S & C & Mo) Em. unfold fuse_session_loop_mt_32, cancel_workers. rewrite bind_assoc, bind_get.
  rewrite (list_nodes_spec _ _ _ (sh_list _ _ S)). eexists. split; [reflexivity|]. exists l. split; [|by intros n (O & I & A)].
  split; [|by split]. destruct S as [L F A T W]. split; cbn.
  - done.
  - split; [exact (proj1 F)|]. intros v. rewrite cancel_spec, fmap_is_Some. apply F.
  - intros v Hv. destruct (A v Hv) as (Hk & t & Et & H3 & H4 & _). split; [done|]. cbn. rewrite cancel_spec, Et.
    eexists. split; [done|]. cbn. split; [done|]. split; [done|]. rewrite bool_decide_true by done. by rewrite orb_true_r.
  - intros v t. rewrite cancel_spec. destruct (threads p !! v) as [t0|] eqn:Et; [|done]. cbn. intros [= <-]. by apply (T v t0).
  - intros v Hv. rewrite cancel_spec, fmap_is_Some. by apply W.
Qed.

Lemma return_step err p : loop_return err p =
  Some (tt, Pool (mt p) (wlinks p) (workers p) (threads p) (wfresh p)
    (M_return (if negb (error (se (ses p)) =? 0) then error (se (ses p)) else err)) (outcomes p)
    (MkLL (with_error 0 (with_exited false (se (ses p)))) (reqs (ses p)) (nreqs (ses p)) (lks (ses p)) (chans (ses p))
       (fresh (ses p)) (heap (ses p)) (mach (ses p)) (sent (ses p)) (user (ses p)))).
Proof. reflexivity. Qed.

Lemma start_keeps p l : pool_ok p l -> main_at p = M_start ->
  exists p', fuse_session_loop_mt_32 M_start p = Some (tt, p') /\ keeps p p'.
Proof.
  intros (S & C & Mo) Em. unfold main_ok in Mo. rewrite Em in Mo. destruct Mo as [-> Ex]. destruct (C Ex) as [C1 C2].
  unfold fuse_session_loop_mt_32.
  destruct (start_thread_spec p [] S Ex) as (res & p1 & E & (_ & Lx & _ & Li) & Em1 & Es & Eo & Hc). erewrite bind_step by exact E.
  destruct Hc as [(-> & w & Hw & Ht & S' & Et & Ea & En)|(-> & Ho & S' & Et & Ea & En)]; cbn [negb Z.eqb].
  - eexists. split; [reflexivity|]. exists [w]. cbn in C1, C2. split.
    + split; [by apply (shape_same p1)|]. split; [|by cbn; rewrite Lx]. intros _. cbn [mt threads length].
      rewrite Et. change [w] with ([] ++ [w]). rewrite tally_insert by apply not_elem_of_nil. cbn. lia.
    + intros n (O & I & A). split; [by apply Eo|]. cbn. rewrite Li. split; [done|]. intros _. lia.
  - rewrite return_step. eexists. split; [reflexivity|]. exists []. split.
    + split; [by apply (shape_same p1)|]. split; [|done]. intros _. cbn [mt threads]. rewrite Et. cbn in *. lia.
    + intros n (O & _). done.
Qed.

Lemma next_keeps p l : pool_ok p l -> main_at p = M_next ->
  exists p', fuse_session_loop_mt_32 M_next p = Some (tt, p') /\ keeps p p'.
Proof.
  intros O Em. pose proof O as (S & C & Mo). unfold main_ok in Mo. rewrite Em in Mo.
  unfold fuse_session_loop_mt_32. rewrite bind_get.
  destruct (sh_list _ _ S) as [Hn HF]. inversion HF as [|? b ? bs [Fb _] HF' E1 E2]; subst.
  destruct (wlinks p !! MAIN) as [k|] eqn:Ek; [|done]. cbn in Fb. injection Fb as Fb.
  destruct l as [|w l]; cbn in E2; injection E2 as Eb _.
  - replace (next k) with MAIN by congruence. rewrite Z.eqb_refl, return_step. eexists. split; [reflexivity|]. by apply (main_keeps p [] _ _ (M_return _) O); rewrite ?Em.
  - replace (next k) with w by congruence. pose proof (shape_pos _ _ w S ltac:(by left)). destruct (Z.eqb_spec w MAIN) as [->|_]; [unfold MAIN in *; lia|].
    eexists. split; [reflexivity|]. by apply (main_keeps p (w :: l) _ _ (M_join w) O); rewrite ?Em.
Qed.

(** Every step of a worker. *)
Lemma work_fine rfuel p l w t : pool_ok p l -> threads p !! w = Some t -> at_ t <> W_end ->
  fine rfuel p (fuse_do_work op intr_call rfuel w (at_ t) p).
Proof.
  intros O Et He. destruct (decide (at_ t = W_leave)) as [Hl|Hl]; [rewrite Hl; by apply (leave_fine rfuel p l w t)|].
  pose proof O as (S & _). pose proof (shape_in _ _ _ _ S Et Hl He) as Hw.
  destruct (sh_listed _ _ S w Hw) as ([k Ek] & _).
  assert (forall a m s, a <> W_leave -> avail a = avail (at_ t) -> numavail m = numavail (mt p) ->
    numworker m = numworker (mt p) -> (mt_exit m = mt_exit (mt p)) -> max_idle m = max_idle (mt p) ->
    keeps p (moved (in_session p m s) w a)) as HK.
  { intros a m s ? ? ? ? ? ?. by apply (moved_keeps p _ l w t). }
  destruct (at_ t) as [| |res|f|f| | |] eqn:Ha; try done; unfold fuse_do_work.
  - apply fine_Some. eexists. split; [reflexivity|]. apply HK; try done; by destruct (exited _).
  - erewrite bind_step by (unfold get_worker; rewrite Ek; reflexivity). unfold mbind, ST_bind, session.
    destruct (fuse_session_receive_buf_int _ _ _ _) as [[[res b] s]|] eqn:E; [|exists w, k; by split; [|left]].
    set (p1 := Pool (mt p) (wlinks p) (<[w := Worker b (w_ch k)]> (workers p)) (threads p) (wfresh p) (main_at p) (outcomes p) s).
    change (keeps p (moved p1 w (W_got res))). apply (moved_keeps p p1 l w t _ O); try done; [|by rewrite Ha]. apply (alike_session p (mt p)); try done. by rewrite Ek.
  - destruct (res =? - EINTR); [apply fine_Some; eexists; split; [reflexivity|]; by apply (HK W_test (mt p) (ses p))|].
    destruct (res <=? 0).
    + apply fine_Some. destruct (res <? 0).
      * eexists. split; [reflexivity|]. by apply (HK W_post (with_mt_error res (mt p)) _).
      * eexists. split; [reflexivity|]. by apply (HK W_post (mt p) (ses p)).
    + apply fine_Some. apply (take_keeps p l w t O Hw Et). by rewrite Ha.
  - erewrite bind_step by (unfold get_worker; rewrite Ek; reflexivity). unfold mbind, ST_bind, session.
    destruct (fuse_session_process_buf_int _ _ _ _ _) as [[[] s]|] eqn:E; [|exists w, k; by split; [|right; left]].
    change (keeps p (moved (in_session p (mt p) s) w (W_worked f))). apply HK; try done; by destruct f.
  - apply fine_Some. by apply (done_keeps p l w t f O Hw Et).
  - apply fine_Some. eexists. split; [reflexivity|]. by apply (HK W_end (with_finish 1 (mt p)) (ses p)).
Qed.

(** Every step keeps the invariant. *)
Lemma step_fine rfuel e p l : pool_ok p l -> enabled e p = true -> fine rfuel p (step op intr_call rfuel e p).
Proof.
  intros O He. pose proof O as (S & C & Mo). unfold step. rewrite bind_get. destruct e as [|w|w|sig]; cbn in He.
  - destruct (main_at p) eqn:Em.
    + by apply fine_Some, (start_keeps p l).
    + apply fine_Some. eexists. split; [reflexivity|]. apply (main_keeps p l _ _ _ O); rewrite ?Em; try done; [|by destruct (exited _)].
      unfold main_ok in *. rewrite Em in Mo. cbn. by destruct (exited _).
    + apply fine_Some. eexists. split; [reflexivity|]. unfold main_ok in Mo; rewrite Em in Mo. by apply (main_keeps p l _ _ M_test O); rewrite ?Em.
    + by apply fine_Some, (cancel_keeps p l).
    + by apply fine_Some, (next_keeps p l).
    + destruct (threads p !! w) as [t|] eqn:Et; [|done]. apply bool_decide_eq_true in He. by apply (join_fine rfuel p l w t).
    + done.
  - destruct (threads p !! w) as [t|] eqn:Et; [|done]. apply negb_true_iff, bool_decide_eq_false in He.
    by apply (work_fine rfuel p l w t).
  - destruct (threads p !! w) as [t|] eqn:Et; [|done]. apply andb_true_iff in He as [_ Ha%bool_decide_eq_true].
    apply fine_Some. eexists. split; [reflexivity|]. apply (moved_keeps p p l w t W_end O (pool_alike_refl p)); rewrite ?Ha; try done.
    apply (shape_in p l w t S Et); by rewrite Ha.
  - apply andb_true_iff in He as [He Hm]. apply fine_Some.
    exists (let s := MkLL (with_error sig (with_exited true (se (ses p)))) (reqs (ses p)) (nreqs (ses p)) (lks (ses p)) (chans (ses p))
       (fresh (ses p)) (heap (ses p)) (mach (ses p)) (sent (ses p)) (user (ses p)) in
      Pool (mt p) (wlinks p) (workers p) (threads p) (wfresh p) (match main_at p with M_wait => M_test | m => m end) (outcomes p) s).
    cbv zeta. split; [unfold exit_handler; rewrite He; destruct (main_at p) eqn:Em; [| |reflexivity| | | |]; rewrite <- Em; reflexivity|].
    assert (forall s, alike p (in_session p (mt p) s)) as HA by (intros s; by split_and!).
    destruct (main_at p) eqn:Em; try (exists l; rewrite <- Em; split; [by eapply alike_ok, O|intros n; apply alike_staffed, HA]).
    apply (main_keeps p l _ _ M_test O); rewrite ?Em; try done. unfold main_ok in *. by rewrite Em in Mo.
Qed.

(** Every state a run reaches. *)
Lemma pool_run_ok rfuel es p p' l : pool_ok p l -> run op intr_call rfuel es p = Some p' -> keeps p p'.
Proof.
  revert p l. induction es as [|e es IH]; intros p l O; cbn; [intros [= <-]; by exists l|].
  destruct (enabled e p) eqn:He; [|done]. pose proof (step_fine rfuel e p l O He) as Hf.
  destruct (step _ _ rfuel e p) as [[[] p1]|]; cbn; [|done]. intros Hr. destruct Hf as (l1 & O1 & H1').
  destruct (IH p1 l1 O1 Hr) as (l2 & O2 & H2'). exists l2. split; [done|]. intros n St. by apply H2', H1'.
Qed.

End Spec.
