(* ===== verification/LoopTheorems.v ===== *)
(** * The worker pool: theorems

    What holds in every state of the pool (counters, staffing), that stopping
    ends, and two runs in which it does not do what it should. *)

From S2P Require Import Prelude DList Wire Buf LowLevel Dispatch Loop LoopSpec.

(** ** Code that leaves the exit flag set *)

Section Flag.
Context {OS U : Type} `{FdOps OS} `{DevOps OS} `{CloneOps OS}.

Abbreviation M := (ST (LL OS U)).

Definition keeps_flag {A} (m : M A) : Prop :=
  forall s a s', m s = Some (a, s') -> exited (se s) = true -> exited (se s') = true.

Lemma kf_ret {A} (a : A) : keeps_flag (mret a).
Proof. intros s a' s' [= <- <-]. done. Qed.

Lemma kf_abort {A} : keeps_flag (abort : M A).
Proof. done. Qed.

Lemma kf_bind {A B} (m : M A) (k : A -> M B) : keeps_flag m -> (forall a, keeps_flag (k a)) -> keeps_flag (m ≫= k).
Proof. intros Hm Hk s b s' (a & s1 & E1 & E2)%bind_Some He. apply (Hk a s1 b s' E2), (Hm s a s1 E1 He). Qed.

Lemma kf_get : keeps_flag get.
Proof. intros s a s' [= <- <-]. done. Qed.

Lemma kf_modify (f : LL OS U -> LL OS U) : (forall s, exited (se s) = true -> exited (se (f s)) = true) -> keeps_flag (modify f).
Proof. intros Hf s a s' [= <- <-]. apply Hf. Qed.

Lemma kf_set_se f : (forall x, exited x = true -> exited (f x) = true) -> keeps_flag (set_se f).
Proof. intros Hf. apply kf_modify. intros s. apply Hf. Qed.

Lemma kf_lift_w {A} (m : ST (world OS) A) : keeps_flag (lift_w m).
Proof. intros s a s'. unfold lift_w. destruct (m (mach s)) as [[b w]|]; [|done]. by intros [= <- <-]. Qed.

Lemma kf_sys {A} (f : OS -> OS * A) : keeps_flag (sys f).
Proof. apply kf_lift_w. Qed.

Lemma kf_malloc : keeps_flag malloc.
Proof. intros s a s'. unfold malloc. destruct (heap s); by intros [= <- <-]. Qed.

Lemma kf_new_ptr : keeps_flag new_ptr.
Proof. intros s a s'. unfold new_ptr. by intros [= <- <-]. Qed.

Lemma kf_of_option {A} (o : option A) : keeps_flag (of_option o).
Proof. destruct o; [apply kf_ret|apply kf_abort]. Qed.

Lemma kf_check c : keeps_flag (check c).
Proof. destruct c; [apply kf_ret|apply kf_abort]. Qed.

End Flag.

Create HintDb flag.
#[export] Hint Resolve kf_ret kf_abort kf_get kf_lift_w kf_sys kf_malloc kf_new_ptr kf_of_option kf_check : flag.

Ltac flags :=
  repeat first
    [ solve [auto with flag nocore]
    | apply kf_bind; [|intros ?]
    | apply kf_set_se; intros ? ?; done
    | apply kf_modify; intros ? ?; done
    | case_match ].

Section Flag2.
Context {OS U : Type} `{FdOps OS} `{DevOps OS} `{CloneOps OS}.

Abbreviation M := (ST (LL OS U)).

Lemma kf_chan_put c : keeps_flag (fuse_chan_put c : M unit).
Proof. unfold fuse_chan_put. flags. Qed.

Lemma kf_get_pipe : keeps_flag (fuse_ll_get_pipe : M _).
Proof. unfold fuse_ll_get_pipe, fuse_pipe. flags. Qed.

Lemma kf_ensure_pipe llp n : keeps_flag (ensure_pipe llp n : M _).
Proof. unfold ensure_pipe, grow_pipe_to_max. flags. Qed.

Lemma kf_ensure_mem b : keeps_flag (ensure_mem b : M _).
Proof. unfold ensure_mem, brk_alloc. flags. Qed.

Lemma kf_dev_fd c : keeps_flag (dev_fd c : M _).
Proof. unfold dev_fd. flags. Qed.

Lemma kf_exit : keeps_flag (fuse_session_exit : M unit).
Proof. unfold fuse_session_exit. flags. Qed.

Lemma kf_clear_pipe : keeps_flag (fuse_ll_clear_pipe : M unit).
Proof. unfold fuse_ll_clear_pipe, fuse_ll_pipe_free. flags. Qed.

Lemma kf_read fuel fd b : keeps_flag (receive_read fuel fd b : M _).
Proof. pose proof kf_exit. revert fd b. induction fuel as [|fuel IH]; intros fd b; cbn [receive_read]; flags; apply IH. Qed.

Lemma kf_receive fuel b c : keeps_flag (fuse_session_receive_buf_int fuel b c : M _).
Proof.
  pose proof kf_exit. pose proof kf_read. pose proof kf_dev_fd. pose proof kf_ensure_mem. pose proof kf_clear_pipe.
  pose proof kf_get_pipe. pose proof kf_ensure_pipe.
  unfold fuse_session_receive_buf_int, receive_fallback. flags.
Qed.

Lemma kf_free_req r : keeps_flag (fuse_free_req r : M unit).
Proof. pose proof kf_chan_put. unfold fuse_free_req, destroy_req, get_req, put_req, set_reqs, on_links, set_links. flags. Qed.

Lemma kf_send_msg c e uq iov : keeps_flag (fuse_send_msg c e uq iov : M Z).
Proof. unfold fuse_send_msg, log_sent. flags. Qed.

Lemma kf_send r e iov : keeps_flag (send_reply_iov r e iov : M Z).
Proof. pose proof kf_free_req. pose proof kf_send_msg. unfold send_reply_iov, fuse_send_reply_iov_nofree, get_req. flags. Qed.

Lemma kf_err r e : keeps_flag (err_reply r e : M unit).
Proof. pose proof kf_send. unfold err_reply, fuse_reply_err, send_reply. flags. Qed.

Lemma kf_none r : keeps_flag (fuse_reply_none r : M unit).
Proof. pose proof kf_free_req. unfold fuse_reply_none. flags. Qed.

Lemma kf_ok r e : keeps_flag (send_reply_ok r e : M Z).
Proof. pose proof kf_send. unfold send_reply_ok, send_reply. flags. Qed.

Lemma kf_find_req g l : keeps_flag (find_req g l : M _).
Proof. induction l as [|r l IH]; cbn [find_req]; unfold get_req; flags. Qed.

Lemma kf_find_nreq uq l : keeps_flag (find_nreq uq l : M _).
Proof. induction l as [|r l IH]; cbn [find_nreq]; flags. Qed.

Lemma kf_clone : keeps_flag (fuse_clone_chan : M _).
Proof. unfold fuse_clone_chan, fuse_chan_new. flags. Qed.

Lemma kf_handler sig : keeps_flag (exit_handler sig : M unit).
Proof. pose proof kf_exit. unfold exit_handler. flags. Qed.

End Flag2.

#[export] Hint Resolve kf_chan_put kf_clear_pipe kf_exit kf_free_req kf_send_msg kf_err kf_none kf_ok kf_find_req kf_find_nreq kf_clone kf_handler kf_receive : flag.

Ltac head_of t := lazymatch t with ?f _ => head_of f | _ => t end.

(** The flag survives the function at the head of the goal. *)
Ltac unfold_flags := match goal with |- keeps_flag ?f => let h := head_of f in unfold h end; flags.

Section Process.
Context {OS U : Type} `{FdOps OS} `{DevOps OS} `{CloneOps OS}.
Context (op : fuse_lowlevel_ops OS U) (intr_call : Z -> Z -> Z -> ST (LL OS U) unit).

(** A message leaves the flag set if the handlers do. *)
Lemma kf_process buf c :
  (forall opcode f r nodeid inarg, ll_func op intr_call opcode = Some f -> keeps_flag (f r nodeid inarg)) ->
  (forall r nodeid inarg a b, keeps_flag (do_write_buf op r nodeid inarg a b)) ->
  (forall r nodeid inarg a b, keeps_flag (do_notify_reply op r nodeid inarg a b)) ->
  keeps_flag (fuse_session_process_buf_int op intr_call buf c).
Proof.
  intros Ht Hw Hn.
  assert (forall b, keeps_flag (clear_if_fd b : ST (LL OS U) unit)) as Hc by (intros b; unfold clear_if_fd; flags).
  assert (forall r b a v o n, keeps_flag (dispatch op intr_call r b a v o n)) as Hd.
  { intros. unfold dispatch, fuse_ll_copy_from_pipe, brk_alloc, load_mem. flags. eapply Ht; eauto. }
  unfold fuse_session_process_buf_int, fuse_ll_copy_from_pipe, brk_alloc, brk_free, process_request,
    fuse_ll_alloc_req, fuse_chan_get, check_interrupt, nodes_of, free_req, on_links, put_req, get_req, set_interrupted, load_mem.
  flags.
Qed.
End Process.

(** A session without handlers leaves the flag set. *)
Lemma kf_no_ops {OS U} `{FdOps OS} `{DevOps OS} buf c :
  keeps_flag (fuse_session_process_buf_int (no_ops OS U) no_intr buf c).
Proof.
  apply kf_process.
  - intros opcode f r nodeid inarg. unfold ll_func. destruct (find _ _) as [[o g]|] eqn:E; [|done]. cbn. intros [= <-].
    apply find_some in E as [E%list_elem_of_In _]. unfold fuse_ll_ops in E.
    repeat (apply elem_of_cons in E as [[= -> ->]|E]; [try solve [unfold_flags]|]).
    all: try solve [by apply not_elem_of_nil in E].
    all: unfold_flags; try discriminate; unfold_flags.
  - intros. unfold_flags.
  - intros. unfold_flags.
Qed.

(** ** The flag through the steps of the pool *)

Section Stop.
Context {OS U : Type} `{FdOps OS} `{DevOps OS} `{CloneOps OS}.
Context (op : fuse_lowlevel_ops OS U) (intr_call : Z -> Z -> Z -> ST (LL OS U) unit).

(** No handler of the file system clears the flag. *)
Hypothesis process_keeps : forall buf c, keeps_flag (fuse_session_process_buf_int op intr_call buf c).

Implicit Types (p : @pool OS U) (w : Z) (l : list Z).

Abbreviation P := (ST (@pool OS U)).

Definition flag p : bool := exited (se (ses p)).

Definition holds_flag {A} (m : P A) : Prop := forall p a p', m p = Some (a, p') -> flag p = true -> flag p' = true.

Lemma hf_ret {A} (a : A) : holds_flag (mret a).
Proof. intros p a' p' [= <- <-]. done. Qed.

Lemma hf_abort {A} : holds_flag (abort : P A).
Proof. done. Qed.

Lemma hf_bind {A B} (m : P A) (k : A -> P B) : holds_flag m -> (forall a, holds_flag (k a)) -> holds_flag (m ≫= k).
Proof. intros Hm Hk p b p' (a & p1 & E1 & E2)%bind_Some He. apply (Hk a p1 b p' E2), (Hm p a p1 E1 He). Qed.

Lemma hf_get : holds_flag get.
Proof. intros p a p' [= <- <-]. done. Qed.

Lemma hf_modify (f : @pool OS U -> @pool OS U) : (forall p, ses (f p) = ses p) -> holds_flag (modify f).
Proof. intros Hf p a p' [= <- <-]. unfold flag. by rewrite Hf. Qed.

Lemma hf_session {A} (m : ST (LL OS U) A) : keeps_flag m -> holds_flag (session m).
Proof. intros Hm p a p'. unfold session. destruct (m (ses p)) as [[b s]|] eqn:E; [|done]. intros [= <- <-]. by apply (Hm (ses p) b s). Qed.

Lemma hf_wlinks f : holds_flag (set_wlinks f).
Proof. intros p a p'. unfold set_wlinks. destruct (f (wlinks p)); [|done]. by intros [= <- <-]. Qed.

Lemma hf_outcome : holds_flag outcome.
Proof. intros p a p'. unfold outcome. destruct (outcomes p); by intros [= <- <-]. Qed.

Lemma hf_new_worker : holds_flag new_worker.
Proof. intros p a p'. by intros [= <- <-]. Qed.

Lemma hf_get_worker w : holds_flag (get_worker w).
Proof. intros p a p'. unfold get_worker. destruct (workers p !! w); [|done]. by intros [= <- <-]. Qed.

Ltac holds :=
  repeat first
    [ apply hf_ret | apply hf_abort | apply hf_get | apply hf_wlinks | apply hf_outcome | apply hf_new_worker | apply hf_get_worker
    | apply hf_session; solve [auto with flag nocore]
    | apply hf_modify; reflexivity
    | apply hf_bind; [|intros ?]
    | assumption
    | case_match ].

Lemma hf_start : holds_flag fuse_loop_start_thread.
Proof. unfold fuse_loop_start_thread, worker_chan, fuse_start_thread, free_worker, list_add_worker, put_worker. holds. Qed.

Lemma kf_is_forget b : keeps_flag (is_forget b : ST (LL OS U) bool).
Proof. unfold is_forget, load_mem. flags. Qed.

Lemma kf_exited : keeps_flag (fuse_session_exited : ST (LL OS U) bool).
Proof. unfold fuse_session_exited. flags. Qed.

Lemma hf_work rfuel w a : holds_flag (fuse_do_work op intr_call rfuel w a).
Proof.
  pose proof hf_start. pose proof kf_is_forget. pose proof kf_exited.
  unfold fuse_do_work, take_request, request_done, release_worker, free_worker, list_del_worker, put_worker. holds.
Qed.

Lemma hf_main a p p' : fuse_session_loop_mt_32 a p = Some (tt, p') -> flag p = true ->
  (forall err, main_at p' <> M_return err) -> flag p' = true.
Proof.
  pose proof kf_exited.
  assert (forall m : P unit, holds_flag m -> m p = Some (tt, p') -> flag p = true -> (forall err, main_at p' <> M_return err) -> flag p' = true) as Hh.
  { intros m Hm E He _. by apply (Hm p tt p'). }
  destruct a as [| | | | |w|err]; unfold fuse_session_loop_mt_32, cancel_workers, fuse_join_worker, release_worker, free_worker, list_del_worker;
    try (apply Hh; solve [holds]).
  - intros (e & p1 & E1 & E2)%bind_Some He Hr. destruct (negb (e =? 0)).
    + rewrite return_step in E2. injection E2 as <-. by edestruct Hr.
    + injection E2 as <-. by apply (hf_start p e p1 E1).
  - rewrite bind_get. destruct (wlinks p !! MAIN) as [k|]; [|done]. destruct (next k =? MAIN).
    + rewrite return_step. intros [= <-] _ Hr. by edestruct Hr.
    + by intros [= <-].
Qed.

(** Once the session is flagged it stays so until the loop returns. *)
Lemma step_flag rfuel e p p' : step op intr_call rfuel e p = Some (tt, p') -> flag p = true ->
  (forall err, main_at p' <> M_return err) -> flag p' = true.
Proof.
  unfold step. rewrite bind_get. destruct e as [|w|w|sig].
  - apply hf_main.
  - destruct (threads p !! w) as [t|]; [|done]. intros E He _. by apply (hf_work rfuel w (at_ t) p tt p').
  - by intros [= <-].
  - intros E He _. revert E He. assert (holds_flag (_ ← session (exit_handler sig); match main_at p with M_wait => goto_main M_test | _ => mret tt end)) as Hh.
    { holds. } apply Hh.
Qed.

(** ** Stopping *)

(** How many steps a thread has left at most, once it is told to end. *)
Definition rank (a : place) : Z :=
  match a with
  | W_end => 0 | W_post | W_leave => 1 | W_test => 2 | W_got _ | W_worked _ => 3 | W_receive | W_work _ => 4
  end.

Definition potential p : Z :=
  2 * Z.of_nat (length (default [] (list_nodes (wlinks p) MAIN))) + (if bool_decide (main_at p = M_next) then 1 else 0) +
  tally rank (threads p) (seqZ 1 (wfresh p - 1)).

Definition stopping p : Prop := mt_exit (mt p) = true /\ (flag p = true \/ exists err, main_at p = M_return err).

Lemma rank_nonneg a : 0 <= rank a.
Proof. destruct a; cbn; lia. Qed.

Lemma potential_nonneg p : 0 <= potential p.
Proof. unfold potential. pose proof (tally_nonneg rank (threads p) (seqZ 1 (wfresh p - 1)) rank_nonneg). case_bool_decide; lia. Qed.

(** A step of one thread lowers the potential. *)
Lemma potential_down p p' l w t t' : pool_ok p l -> threads p !! w = Some t -> threads p' !! w = Some t' ->
  rank (at_ t') < rank (at_ t) -> (forall v, v <> w -> threads p' !! v = threads p !! v) -> wfresh p' = wfresh p ->
  list_nodes (wlinks p') MAIN = list_nodes (wlinks p) MAIN -> main_at p' = main_at p -> potential p' < potential p.
Proof.
  intros (S & _) Et Et' Hr Ho Ef El Em. unfold potential. rewrite Ef, El, Em.
  rewrite (tally_move rank (threads p) (threads p') _ w (NoDup_seqZ _ _)); [|apply elem_of_seqZ|done].
  - unfold weigh. rewrite Et, Et'. lia.
  - destruct (sh_fresh _ _ S) as [_ F]. specialize (F w (or_introl (mk_is_Some _ _ Et))). lia.
Qed.

Lemma leave_stops rfuel p p' l w t : pool_ok p l -> threads p !! w = Some t -> at_ t = W_leave ->
  fuse_do_work op intr_call rfuel w W_leave p = Some (tt, p') ->
  potential p' < potential p /\ mt_exit (mt p') = mt_exit (mt p) /\ main_at p' = main_at p.
Proof.
  intros O Et Ha E. pose proof O as (S & _). destruct (leaver p l w t S Et Ha) as [Hw [k Ek]]. unfold fuse_do_work in E.
  apply bind_Some in E as ([] & p1 & E1 & E2). injection E1 as <-. unfold release_worker in E2. rewrite bind_assoc in E2.
  erewrite bind_step in E2 by (unfold get_worker; cbn; rewrite Ek; reflexivity). rewrite bind_assoc in E2.
  apply bind_Some in E2 as ([] & p3 & E3 & E4). unfold session in E3. cbn [ses] in E3.
  destruct (fuse_chan_put _ _) as [[[] s]|]; [|done]. injection E3 as <-.
  unfold free_worker, get_worker, mbind, ST_bind in E4. cbn in E4. rewrite Ek in E4. injection E4 as <-. split; [|done].
  apply (potential_down p _ l w t (Thread W_end (cancelled t) true) O Et); cbn; try done.
  - by rewrite !lookup_alter_eq, Et.
  - by rewrite Ha.
  - intros v Hv. by rewrite !lookup_alter_ne.
  - by rewrite (list_nodes_spec _ _ _ (sh_list _ _ S)), (list_nodes_spec _ _ _ (dl_freed _ _ _ _ (sh_list _ _ S) Hw)).
Qed.

(** The steps of a worker after the pool was told to stop. *)
Lemma work_stops rfuel p p' l w t : pool_ok p l -> mt_exit (mt p) = true -> flag p = true -> threads p !! w = Some t ->
  fuse_do_work op intr_call rfuel w (at_ t) p = Some (tt, p') ->
  potential p' < potential p /\ mt_exit (mt p') = true /\ main_at p' = main_at p.
Proof.
  intros O Hx Hf Et E. pose proof O as (S & _).
  assert (forall p1 a, threads p1 = threads p -> wfresh p1 = wfresh p -> list_nodes (wlinks p1) MAIN = list_nodes (wlinks p) MAIN ->
    main_at p1 = main_at p -> rank a < rank (at_ t) -> potential (moved p1 w a) < potential p) as Hd.
  { intros p1 a E1 E2 E3 E4 Hr. apply (potential_down p _ l w t (at_place a t) O Et); cbn; rewrite ?E1, ?E2, ?E3, ?E4; try done.
    - by rewrite lookup_alter_eq, Et.
    - intros v Hv. by rewrite lookup_alter_ne. }
  destruct (at_ t) as [| |res|f|f| | |] eqn:Ha; unfold fuse_do_work in E.
  - change (goto w (if flag p then W_post else W_receive) (in_session p (mt p) (ses p)) = Some (tt, p')) in E.
    rewrite Hf in E. injection E as <-. split; [|done]. by apply (Hd (in_session p (mt p) (ses p)) W_post).
  - apply bind_Some in E as (k & p1 & E1 & E2). unfold get_worker in E1. destruct (workers p !! w) as [k'|]; [|done]. injection E1 as -> <-.
    apply bind_Some in E2 as (r & p2 & E2 & E3). unfold session in E2.
    destruct (fuse_session_receive_buf_int _ _ _ _) as [[r' s]|]; [|done]. injection E2 as -> <-. injection E3 as <-.
    split; [|done].
    by apply (Hd (Pool (mt p) (wlinks p) (<[w := Worker r.2 (w_ch k)]> (workers p)) (threads p) (wfresh p) (main_at p) (outcomes p) s) (W_got r.1)).
  - destruct (res =? - EINTR); [injection E as <-; split; [by apply (Hd p W_test)|done]|].
    destruct (res <=? 0).
    + destruct (res <? 0); injection E as <-; split; try done.
      * by apply (Hd (in_session p (with_mt_error res (mt p)) _) W_post).
      * by apply (Hd p W_post).
    + unfold take_request in E. rewrite bind_get, Hx in E. injection E as <-. split; [by apply (Hd p W_end)|done].
  - apply bind_Some in E as (k & p1 & E1 & E2). unfold get_worker in E1. destruct (workers p !! w) as [k'|]; [|done]. injection E1 as -> <-.
    apply bind_Some in E2 as (r & p2 & E2 & E3). unfold session in E2.
    destruct (fuse_session_process_buf_int _ _ _ _ _) as [[r' s]|]; [|done]. injection E2 as -> <-. injection E3 as <-.
    split; [|done]. by apply (Hd (in_session p (mt p) s) (W_worked f)).
  - set (m1 := if f then mt p else with_numavail 1 (mt p)).
    assert (mt_exit m1 = true) as Hx1 by (by destruct f).
    unfold request_done in E. erewrite bind_step with (a := tt) (s' := in_session p m1 (ses p)) in E by (clear; destruct f, p; reflexivity).
    rewrite bind_get in E. cbn [mt in_session] in E. rewrite Hx1 in E.
    destruct (_ <? _); injection E as <-; split; try done.
    + by apply (Hd (in_session p m1 (ses p)) W_end).
    + by apply (Hd (in_session p m1 (ses p)) W_test).
  - rewrite <- Hx. by apply (leave_stops rfuel p p' l w t O Et Ha).
  - injection E as <-. split; [|done]. by apply (Hd (in_session p (with_finish 1 (mt p)) (ses p)) W_end).
  - done.
Qed.

(** The steps of the main thread from there. *)
Lemma main_stops p p' l : pool_ok p l -> mt_exit (mt p) = true -> (forall err, main_at p <> M_return err) ->
  fuse_session_loop_mt_32 (main_at p) p = Some (tt, p') -> enabled E_main p = true ->
  potential p' < potential p /\ mt_exit (mt p') = true.
Proof.
  intros O Hx Hr E He. pose proof O as (S & _ & Mo). unfold main_ok in Mo. cbn in He.
  assert (list_nodes (wlinks p) MAIN = Some l) as El by exact (list_nodes_spec _ _ _ (sh_list _ _ S)).
  destruct (main_at p) as [| | | | |w|err] eqn:Em; try (destruct Mo; congruence); try congruence.
  - unfold fuse_session_loop_mt_32 in E. rewrite bind_get in E. destruct (wlinks p !! MAIN) as [k|]; [|done].
    destruct (next k =? MAIN); [rewrite return_step in E|]; injection E as <-; (split; [|done]);
      unfold potential; cbn; rewrite Em, El, !bool_decide_false, bool_decide_true by done; lia.
  - destruct Mo as [_ Hh]. destruct l as [|w' l]; [done|]. injection Hh as ->.
    destruct (threads p !! w) as [t|] eqn:Et; [|done]. apply bool_decide_eq_true in He.
    destruct (list_del_spec _ _ [] w l (sh_list _ _ S)) as (m & Ed & D & _ & _).
    pose proof (shape_NoDup _ _ S) as [Hw _]%NoDup_cons. pose proof (shape_pos _ _ w S ltac:(by left)) as Hp.
    destruct (sh_listed _ _ S w) as ([k Ek] & _); [by left|].
    unfold fuse_session_loop_mt_32, fuse_join_worker, list_del_worker, release_worker in E. rewrite bind_assoc in E.
    erewrite bind_step in E by reflexivity. rewrite bind_assoc in E.
    erewrite bind_step in E by (unfold set_wlinks; cbn; rewrite Ed; reflexivity). rewrite bind_assoc in E.
    erewrite bind_step in E by (unfold get_worker; cbn; rewrite Ek; reflexivity). rewrite bind_assoc in E.
    apply bind_Some in E as ([] & p3 & E3 & E4). unfold session in E3. cbn [ses] in E3.
    destruct (fuse_chan_put _ _) as [[[] s]|]; [|done]. injection E3 as <-.
    unfold free_worker, get_worker, mbind, ST_bind in E4. cbn in E4. rewrite Ek in E4. injection E4 as <-. split; [|done].
    unfold potential; cbn [wlinks main_at threads wfresh]. rewrite El, Em, bool_decide_true, bool_decide_false by done.
    rewrite (list_nodes_spec _ _ l) by (apply dl_freed; [exact D|apply not_elem_of_cons; split; [unfold MAIN; lia|done]]).
    rewrite (tally_move rank (threads p) (delete w (threads p)) _ w (NoDup_seqZ _ _)).
    + unfold weigh. rewrite Et, lookup_delete_eq, He. cbn -[tally]. lia.
    + apply elem_of_seqZ. lia.
    + intros v Hv. by rewrite lookup_delete_ne.
Qed.

(** ** Every stop ends *)

Definition is_signal (e : event) : bool := match e with E_signal _ => true | _ => false end.

Lemma stop_step rfuel e p l p' : pool_ok p l -> stopping p -> enabled e p = true -> step op intr_call rfuel e p = Some (tt, p') ->
  stopping p' /\ (exists l', pool_ok p' l') /\ potential p' <= potential p - (if is_signal e then 0 else 1).
Proof.
  intros O [Hx Hf] He E. pose proof O as (S & _ & Mo).
  pose proof (step_fine op intr_call rfuel e p l O He) as Hfine. rewrite E in Hfine. destruct Hfine as (l' & O' & _).
  enough (mt_exit (mt p') = true /\ (flag p' = true \/ exists err, main_at p' = M_return err) /\
    potential p' <= potential p - (if is_signal e then 0 else 1)) as (? & ? & ?) by (split; [by split|split; [by exists l'|done]]).
  assert ((forall err, main_at p <> M_return err) -> flag p' = true \/ exists err, main_at p' = M_return err) as Hflag.
  { intros Hr. assert (flag p = true) as Hf' by (destruct Hf as [?|[err ?]]; [done|by edestruct Hr]).
    destruct (main_at p') eqn:Em; try (left; apply (step_flag rfuel e p p' E Hf'); by rewrite Em). right. eauto. }
  pose proof E as E0. unfold step in E0. rewrite bind_get in E0. destruct e as [|w|w|sig]; cbn [is_signal].
  - assert (forall err, main_at p <> M_return err) as Hr by (intros err Em; cbn in He; by rewrite Em in He).
    destruct (main_stops p p' l O Hx Hr E0 He) as [Hd Hx']. split; [done|]. split; [by apply Hflag|lia].
  - cbn in He. destruct (threads p !! w) as [t|] eqn:Et; [|done]. apply negb_true_iff, bool_decide_eq_false in He.
    destruct (decide (at_ t = W_leave)) as [Hl|Hl].
    + rewrite Hl in E0. destruct (leave_stops rfuel p p' l w t O Et Hl E0) as (Hd & Hx' & Em). split; [congruence|]. split; [|lia].
      destruct Hf as [Hf|Hf]; [|right; by rewrite Em]. left.
      by apply (hf_work rfuel w W_leave p tt p').
    + assert (flag p = true) as Hf'.
      { destruct Hf as [?|[err Em]]; [done|]. unfold main_ok in Mo. rewrite Em in Mo. subst l.
        pose proof (shape_in p [] w t S Et Hl He) as Hw. by apply not_elem_of_nil in Hw. }
      destruct (work_stops rfuel p p' l w t O Hx Hf' Et E0) as (Hd & Hx' & Em). split; [done|]. split; [|lia].
      left. by apply (hf_work rfuel w (at_ t) p tt p').
  - cbn in He. destruct (threads p !! w) as [t|] eqn:Et; [|done]. apply andb_true_iff in He as [_ Ha%bool_decide_eq_true].
    injection E0 as <-. split; [done|]. split; [exact Hf|]. change (potential (moved p w W_end) <= potential p - 1).
    enough (potential (moved p w W_end) < potential p) by lia.
    apply (potential_down p _ l w t (at_place W_end t) O Et); cbn; try done.
    + by rewrite lookup_alter_eq, Et.
    + by rewrite Ha.
    + intros v Hv. by rewrite lookup_alter_ne.
  - assert (forall err, main_at p <> M_return err) as Hr.
    { intros err Em. cbn in He. rewrite Em in He. by rewrite andb_false_r in He. }
    unfold main_ok in Mo. apply bind_Some in E0 as ([] & p1 & E1 & E2). unfold session in E1.
    destruct (exit_handler sig (ses p)) as [[[] s]|]; [|done]. injection E1 as <-.
    assert (main_at p <> M_wait) as Hm by (intros Em; rewrite Em in Mo; congruence).
    destruct (main_at p) eqn:Em; try done; try (exfalso; by eapply Hr); injection E2 as <-; cbn; (split; [done|]);
      (split; [by apply Hflag|unfold potential; cbn; rewrite Em; lia]).
Qed.

Lemma stop_run rfuel es p l p' : pool_ok p l -> stopping p -> run op intr_call rfuel es p = Some p' ->
  stopping p' /\ (exists l', pool_ok p' l') /\
  Z.of_nat (length (filter (fun e => is_signal e = false) es)) + potential p' <= potential p.
Proof.
  revert p l. induction es as [|e es IH]; intros p l O St; cbn [run]; [intros [= <-]; split; [done|split; [by exists l|cbn; lia]]|].
  destruct (enabled e p) eqn:He; [|done]. destruct (step op intr_call rfuel e p) as [[[] p1]|] eqn:E; [|done]. intros Hr.
  change (run op intr_call rfuel es p1 = Some p') in Hr.
  destruct (stop_step rfuel e p l p1 O St He E) as (St1 & (l1 & O1) & Hd).
  destruct (IH p1 l1 O1 St1 Hr) as (St' & O' & Hd'). split; [done|]. split; [done|].
  rewrite filter_cons. destruct e; case_decide; cbn [is_signal length] in *; try done; lia.
Qed.

(** ** Workers do not touch what the main thread decides *)

Definition steady {A} (m : P A) : Prop := forall p a p', m p = Some (a, p') -> main_at p' = main_at p /\ mt_exit (mt p') = mt_exit (mt p).

Lemma sd_ret {A} (a : A) : steady (mret a).
Proof. by intros p a' p' [= <- <-]. Qed.

Lemma sd_abort {A} : steady (abort : P A).
Proof. done. Qed.

Lemma sd_bind {A B} (m : P A) (k : A -> P B) : steady m -> (forall a, steady (k a)) -> steady (m ≫= k).
Proof. intros Hm Hk p b p' (a & p1 & E1 & E2)%bind_Some. destruct (Hm p a p1 E1), (Hk a p1 b p' E2). split; congruence. Qed.

Lemma sd_get : steady get.
Proof. by intros p a p' [= <- <-]. Qed.

Lemma sd_modify (f : @pool OS U -> @pool OS U) : (forall p, main_at (f p) = main_at p /\ mt_exit (mt (f p)) = mt_exit (mt p)) -> steady (modify f).
Proof. intros Hf p a p' [= <- <-]. apply Hf. Qed.

Lemma sd_session {A} (m : ST (LL OS U) A) : steady (session m).
Proof. intros p a p'. unfold session. destruct (m (ses p)) as [[b s]|]; [|done]. by intros [= <- <-]. Qed.

Lemma sd_wlinks f : steady (set_wlinks f).
Proof. intros p a p'. unfold set_wlinks. destruct (f (wlinks p)); [|done]. by intros [= <- <-]. Qed.

Lemma sd_outcome : steady outcome.
Proof. intros p a p'. unfold outcome. destruct (outcomes p); by intros [= <- <-]. Qed.

Lemma sd_get_worker w : steady (get_worker w).
Proof. intros p a p'. unfold get_worker. destruct (workers p !! w); [|done]. by intros [= <- <-]. Qed.

Lemma sd_new_worker : steady new_worker.
Proof. by intros p a p' [= <- <-]. Qed.

Ltac steadies :=
  repeat first
    [ apply sd_ret | apply sd_abort | apply sd_get | apply sd_wlinks | apply sd_outcome | apply sd_new_worker | apply sd_get_worker
    | apply sd_session | apply sd_modify; intros; split; reflexivity
    | apply sd_bind; [|intros ?] | assumption | case_match ].

Lemma sd_start : steady fuse_loop_start_thread.
Proof. unfold fuse_loop_start_thread, worker_chan, fuse_start_thread, free_worker, list_add_worker, put_worker. steadies. Qed.

Lemma sd_work rfuel w a : steady (fuse_do_work op intr_call rfuel w a).
Proof.
  pose proof sd_start.
  unfold fuse_do_work, take_request, request_done, release_worker, free_worker, list_del_worker, put_worker. steadies.
Qed.

(** The main thread stops the pool only when the session is flagged. *)
Definition flagged p : Prop := main_at p = M_cancel \/ mt_exit (mt p) = true -> flag p = true \/ exists err, main_at p = M_return err.

Lemma handler_flags sig (s s' : LL OS U) : exit_handler sig s = Some (tt, s') -> exited (se s') = true.
Proof.
  unfold exit_handler. intros ([] & s1 & [= <-] & ([] & s2 & E3 & E4)%bind_Some)%bind_Some.
  unfold check in E3. destruct (0 <? sig); [|done]. injection E3 as <-. by injection E4 as <-.
Qed.

Lemma step_flagged rfuel e p l p' : pool_ok p l -> flagged p -> enabled e p = true -> step op intr_call rfuel e p = Some (tt, p') -> flagged p'.
Proof.
  intros (S & _ & Mo) F He E Hc.
  assert (forall (Hp : main_at p = M_cancel \/ mt_exit (mt p) = true), (forall err, main_at p <> M_return err) -> flag p' = true \/ exists err, main_at p' = M_return err) as Hold.
  { intros Hp Hr. destruct (F Hp) as [Hf|[err Em]]; [|by edestruct Hr].
    destruct (main_at p') eqn:Em; try (left; apply (step_flag rfuel e p p' E Hf); by rewrite Em). right; eauto. }
  pose proof E as E0. unfold step in E0. rewrite bind_get in E0. destruct e as [|w|w|sig].
  - unfold main_ok in Mo. destruct (main_at p) eqn:Em; try (apply Hold; [tauto|done]).
    + apply bind_Some in E0 as (e & p1 & E1 & E2). destruct (sd_start p e p1 E1) as [Hm Hx].
      destruct (negb (e =? 0)); [rewrite return_step in E2; injection E2 as <-; right; eauto|].
      injection E2 as <-. cbn in Hc. destruct Hc; [done|]. destruct Mo. congruence.
    + change (goto_main (if flag p then M_cancel else M_wait) (in_session p (mt p) (ses p)) = Some (tt, p')) in E0.
      injection E0 as <-. cbn in Hc. destruct (flag p) eqn:Hf; [left; exact Hf|]. destruct Hc; [done|congruence].
    + injection E0 as <-. cbn in Hc. destruct Hc; [done|congruence].
    + cbn in He. by rewrite Em in He.
  - destruct (threads p !! w) as [t|]; [|done]. destruct (sd_work rfuel w (at_ t) p tt p' E0) as [Hm Hx].
    rewrite Hm, Hx in *. destruct (F Hc) as [Hf|Hr]; [left; by apply (hf_work rfuel w (at_ t) p tt p')|by right].
  - injection E0 as <-. by apply F.
  - left. apply bind_Some in E0 as ([] & p1 & E1 & E2). unfold session in E1.
    destruct (exit_handler sig (ses p)) as [[[] s]|] eqn:Es; [|done]. injection E1 as <-. apply handler_flags in Es.
    destruct (main_at p); injection E2 as <-; exact Es.
Qed.

Lemma run_flagged rfuel es p l p' : pool_ok p l -> flagged p -> run op intr_call rfuel es p = Some p' -> flagged p' /\ exists l', pool_ok p' l'.
Proof.
  revert p l. induction es as [|e es IH]; intros p l O F; cbn [run]; [intros [= <-]; split; [done|by exists l]|].
  destruct (enabled e p) eqn:He; [|done]. destruct (step op intr_call rfuel e p) as [[[] p1]|] eqn:E; [|done]. intros Hr.
  pose proof (step_fine op intr_call rfuel e p l O He) as Hf. rewrite E in Hf. destruct Hf as (l1 & O1 & _).
  apply (IH p1 l1 O1); [by apply (step_flagged rfuel e p l)|exact Hr].
Qed.

(** While the main thread waits for a worker, something other than the arrival
    of a message can happen. *)
Lemma stop_progress p l : pool_ok p l -> mt_exit (mt p) = true ->
  (exists err, main_at p = M_return err) \/
  exists e, enabled e p = true /\ is_signal e = false /\
    forall w t, e = E_worker w -> threads p !! w = Some t -> at_ t <> W_receive.
Proof.
  intros (S & _ & Mo) Hx. unfold main_ok in Mo. destruct (main_at p) as [| | | | |w|err] eqn:Em; try congruence;
    try (destruct Mo; congruence); [..|by left; exists err].
  - right. exists E_main. cbn. by rewrite Em.
  - right. destruct Mo as [_ Hh]. destruct l as [|w' l]; [done|]. injection Hh as ->.
    destruct (sh_listed _ _ S w) as (_ & t & Et & Hl & _ & Hc); [by left|].
    destruct (decide (at_ t = W_end)) as [He|He]; [|destruct (decide (at_ t = W_receive)) as [Hr|Hr]].
    + exists E_main. cbn. rewrite Em, Et, He. by rewrite bool_decide_true.
    + exists (E_cancel w). cbn. rewrite Et, Hr, (Hc Hx). by rewrite bool_decide_true.
    + exists (E_worker w). cbn. rewrite Et, bool_decide_false by done. split; [done|]. split; [done|].
      intros v t' [= <-]. congruence.
Qed.

End Stop.

(** ** Somebody gets to the next message *)

Section Staff.
Context {OS U : Type} `{FdOps OS} `{DevOps OS} `{CloneOps OS}.
Context (op : fuse_lowlevel_ops OS U) (intr_call : Z -> Z -> Z -> ST (LL OS U) unit) (rfuel : nat).
Implicit Types (p : @pool OS U).

(** A step of a thread here neither waits for the device nor is part of a request
    other than a FORGET. *)
Definition unoccupied (a : place) : bool :=
  match a with W_receive | W_work false | W_worked false | W_end => false | _ => true end.

(** Such steps of workers, one after the other. *)
Inductive quick : @pool OS U -> @pool OS U -> Prop :=
  | Quick_refl p : quick p p
  | Quick_step p w t p1 p2 : threads p !! w = Some t -> unoccupied (at_ t) = true ->
      step op intr_call rfuel (E_worker w) p = Some (tt, p1) -> quick p1 p2 -> quick p p2.

(** A worker of the list waits for a message, or has met the end of the session:
    it is about to wake the main thread, or has done so. *)
Definition at_device p : Prop := exists l w t, dl (wlinks p) MAIN l /\ w ∈ l /\ threads p !! w = Some t /\
  (at_ t = W_receive \/ at_ t = W_post \/ at_ t = W_end).

(** This happens in a few steps, unless a function of the session aborts. *)
Definition soon p : Prop := exists p', quick p p' /\ (at_device p' \/ session_aborts op intr_call rfuel p').

Definition manned (n : Z) p : Prop :=
  (exists l, pool_ok p l) /\ staffed n p /\ mt_exit (mt p) = false /\ main_at p <> M_start.

(** A step of one thread, and what follows it. *)
Lemma soon_step n p w t : manned n p -> threads p !! w = Some t -> unoccupied (at_ t) = true ->
  (forall p1, fuse_do_work op intr_call rfuel w (at_ t) p = Some (tt, p1) -> manned n p1 -> soon p1) -> soon p.
Proof.
  intros ([l O] & St & Hx & Hm) Et Hu Hk.
  assert (enabled (E_worker w) p = true) as He by (cbn; rewrite Et; by destruct (at_ t)).
  assert (step op intr_call rfuel (E_worker w) p = fuse_do_work op intr_call rfuel w (at_ t) p) as Es
    by (unfold step; rewrite bind_get; by rewrite Et).
  pose proof (step_fine op intr_call rfuel (E_worker w) p l O He) as Hf.
  destruct (step op intr_call rfuel (E_worker w) p) as [[[] p1]|] eqn:E; cbn in Hf.
  - destruct Hf as (l1 & O1 & St1). symmetry in Es. destruct (sd_work op intr_call rfuel w (at_ t) p tt p1 Es) as [Em Ex].
    destruct (Hk p1 Es) as (p' & Q & Hp'); [|exists p'; split; [by eapply Quick_step|done]].
    split; [by exists l1|]. split; [by apply St1|]. by rewrite Em, Ex.
  - exists p. split; [constructor|by right].
Qed.

Lemma soon_here p w t : (exists l, pool_ok p l) -> threads p !! w = Some t -> w ∈ default [] (list_nodes (wlinks p) MAIN) ->
  (at_ t = W_receive \/ at_ t = W_post \/ at_ t = W_end) -> soon p.
Proof.
  intros [l (S & _)] Et Hw Ha. exists p. split; [constructor|]. left. exists l, w, t.
  rewrite (list_nodes_spec _ _ _ (sh_list _ _ S)) in Hw. split; [apply S|]. by split.
Qed.

(** A thread that goes on inside the loop is still in the list. *)
Lemma manned_in n p w t : manned n p -> threads p !! w = Some t -> at_ t <> W_leave -> at_ t <> W_end ->
  w ∈ default [] (list_nodes (wlinks p) MAIN).
Proof.
  intros ([l (S & _)] & _) Et H3 H4. rewrite (list_nodes_spec _ _ _ (sh_list _ _ S)). by apply (shape_in p l w t).
Qed.

Lemma moved_at p w t a : threads p !! w = Some t -> threads (moved p w a) !! w = Some (at_place a t).
Proof. intros Et. cbn. by rewrite lookup_alter_eq, Et. Qed.

Lemma soon_test n p w t : manned n p -> threads p !! w = Some t -> at_ t = W_test -> soon p.
Proof.
  intros Hm Et Ha. apply (soon_step n p w t); [done|done|by rewrite Ha|]. rewrite Ha. intros p1 E Hm1.
  change (Some (tt, moved (in_session p (mt p) (ses p)) w (if exited (se (ses p)) then W_post else W_receive)) = Some (tt, p1)) in E.
  injection E as E. pose proof (moved_at (in_session p (mt p) (ses p)) w t (if exited (se (ses p)) then W_post else W_receive) Et) as Et1.
  rewrite E in Et1. apply (soon_here p1 w _ (proj1 Hm1) Et1).
  - eapply manned_in; [exact Hm1|exact Et1|..]; cbn; by destruct (exited _).
  - cbn. destruct (exited _); [right; by left|by left].
Qed.

Lemma soon_worked n p w t : manned n p -> threads p !! w = Some t -> at_ t = W_worked true -> soon p.
Proof.
  intros Hm Et Ha. apply (soon_step n p w t); [done|done|by rewrite Ha|]. rewrite Ha. intros p1 E Hm1.
  destruct Hm as (_ & (_ & _ & A) & Hx & _). destruct (A Hx) as [A1 _].
  unfold fuse_do_work, request_done in E. cbn [negb] in E. rewrite bind_ret, bind_get in E.
  destruct (Z.ltb_spec (max_idle (mt p)) (numavail (mt p))); [lia|].
  change (Some (tt, moved p w W_test) = Some (tt, p1)) in E. injection E as <-.
  by apply (soon_test n (moved p w W_test) w (at_place W_test t)); [|apply moved_at|].
Qed.

Lemma soon_forget n p w t : manned n p -> threads p !! w = Some t -> at_ t = W_work true -> soon p.
Proof.
  intros Hm Et Ha. apply (soon_step n p w t); [done|done|by rewrite Ha|]. rewrite Ha. intros p1 E Hm1.
  unfold fuse_do_work in E. apply bind_Some in E as (k & p2 & E1 & E2). unfold get_worker in E1.
  destruct (workers p !! w) as [k'|]; [|done]. injection E1 as -> <-.
  apply bind_Some in E2 as (r & p2 & E2 & E3). unfold session in E2.
  destruct (fuse_session_process_buf_int _ _ _ _ _) as [[r' s]|]; [|done]. injection E2 as -> <-.
  change (Some (tt, moved (in_session p (mt p) s) w (W_worked true)) = Some (tt, p1)) in E3. injection E3 as <-.
  by apply (soon_worked n _ w (at_place (W_worked true) t)); [|apply (moved_at (in_session p (mt p) s))|].
Qed.

(** Taking a request that is not a FORGET leaves one available thread fewer, or
    starts a thread. *)
Lemma take_starts n p w t p1 : manned n p -> threads p !! w = Some t -> avail (at_ t) = 1 -> at_ t <> W_leave -> at_ t <> W_end ->
  take_request w p = Some (tt, p1) ->
  threads p1 !! w = Some (at_place (W_work true) t) \/
  (1 < numavail (mt p) /\ numavail (mt p1) = numavail (mt p) - 1) \/
  exists v, threads p1 !! v = Some (Thread W_test false false).
Proof.
  intros ([l O] & (Ho & _ & A) & Hx & Hm) Et Ha H3 H4 E. destruct O as (S & _). pose proof (shape_in p l w t S Et H3 H4) as Hw.
  destruct (A Hx) as [_ A2]. assert (1 <= numavail (mt p)) as A3 by (by destruct (main_at p)).
  unfold take_request in E. rewrite bind_get, Hx in E. destruct (sh_listed _ _ S w Hw) as ([k Ek] & _).
  erewrite bind_step in E by (unfold get_worker; rewrite Ek; reflexivity).
  destruct (is_forget_ends (fbuf k) (ses p)) as [[] Ef]; erewrite bind_step in E by (unfold session; rewrite Ef; reflexivity); cbn [negb] in E.
  - rewrite bind_ret, bind_get in E. cbn [mt] in E. destruct (Z.eqb_spec (numavail (mt p)) 0); [lia|]. rewrite bind_ret in E.
    injection E as <-. left. exact (moved_at (in_session p (mt p) (ses p)) w t (W_work true) Et).
  - erewrite bind_step in E by reflexivity. rewrite bind_get in E. set (p2 := Pool _ _ _ _ _ _ _ _) in E. change (numavail (mt p2)) with (numavail (mt p) + -1) in E.
    destruct (Z.eqb_spec (numavail (mt p) + -1) 0) as [E0|E0].
    + destruct (start_thread_spec p2 l) as (res & p3 & E3 & _ & _ & _ & _ & Hc); [by apply (shape_same p)|done|].
      rewrite bind_assoc in E. erewrite bind_step in E by exact E3. rewrite bind_ret in E. injection E as <-.
      destruct Hc as [(_ & v & Hv & _ & _ & Et3 & _)|(_ & ? & _)]; [|done].
      right. right. exists v. cbn. rewrite lookup_alter_ne by (by intros <-). by rewrite Et3, lookup_insert_eq.
    + rewrite bind_ret in E. injection E as <-. right. left. cbn. lia.
Qed.

(** The available threads are tried one after the other. *)
Lemma soon_any n k p : manned n p -> (Z.to_nat (numavail (mt p)) <= k)%nat -> soon p.
Proof.
  revert p. induction k as [|k IH]; intros p Hm Hk; pose proof Hm as ([l O] & (_ & _ & A) & Hx & Hs); pose proof O as (S & C & _);
    destruct (A Hx) as [_ A2]; (assert (1 <= numavail (mt p)) as A3 by (by destruct (main_at p))); [lia|]. destruct (C Hx) as [_ C2].
  destruct (tally_pos avail (threads p) l) as (w & t & Hw & Et & Ha); [lia|].
  assert (w ∈ default [] (list_nodes (wlinks p) MAIN)) as Hw' by (by rewrite (list_nodes_spec _ _ _ (sh_list _ _ S))).
  destruct (sh_listed _ _ S w Hw) as (_ & t' & Et' & Hl & _). assert (t' = t) as -> by congruence.
  destruct (at_ t) as [| |res|[]|[]| | |] eqn:Ep; try done.
  - by apply (soon_test n p w t).
  - apply (soon_here p w t); [by exists l|done|done|by left].
  - apply (soon_step n p w t); [done|done|by rewrite Ep|]. rewrite Ep. intros p1 E Hm1. unfold fuse_do_work in E.
    destruct (res =? - EINTR).
    { injection E as <-. by apply (soon_test n (moved p w W_test) w (at_place W_test t)); [|apply moved_at|]. }
    destruct (res <=? 0).
    { assert (exists t1, threads p1 !! w = Some t1 /\ at_ t1 = W_post) as (t1 & Et1 & Ha1).
      { destruct (res <? 0); injection E as <-; eexists; (split; [cbn; rewrite lookup_alter_eq, Et; reflexivity|done]). }
      apply (soon_here p1 w t1 (proj1 Hm1) Et1); [|right; by left]. apply (manned_in n p1 w t1 Hm1 Et1); by rewrite Ha1. }
    destruct (take_starts n p w t p1 Hm Et) as [Et1|[[? ?]|[v Ev]]]; rewrite ?Ep; try done.
    + by apply (soon_forget n p1 w _ Hm1 Et1).
    + apply IH; [done|lia].
    + by apply (soon_test n p1 v _ Hm1 Ev).
  - by apply (soon_forget n p w t).
  - by apply (soon_worked n p w t).
  - apply (soon_here p w t); [by exists l|done|done|right; by left].
  - apply (soon_here p w t); [by exists l|done|done|right; by right].
Qed.
End Staff.

(** ** Theorems *)

Section Theorems.
Context {OS U : Type} `{FdOps OS} `{DevOps OS} `{CloneOps OS}.
Context (op : fuse_lowlevel_ops OS U) (intr_call : Z -> Z -> Z -> ST (LL OS U) unit).

(** C17: In every state that fuse_session_loop_mt reaches, in any interleaving
    of its threads and with any failures of malloc and pthread_create, the list
    of workers is well formed and holds exactly the workers that have not left,
    each with an allocated object and a thread that was neither detached nor
    joined; numworker and numavail are exact until the pool stops; and no step
    of a thread touches a freed worker, unlinks one twice or fails in another
    way, unless a function of the session it calls does. *)
Theorem pool_invariant clone n outs s rfuel es p :
  run op intr_call rfuel es (pool0 clone n outs s) = Some p ->
  exists l, pool_ok p l /\
    forall e, enabled e p = true -> step op intr_call rfuel e p = None -> session_aborts op intr_call rfuel p.
Proof.
  intros Hr. destruct (pool_run_ok op intr_call rfuel es _ p [] (pool0_ok clone n outs s) Hr) as (l & O & _).
  exists l. split; [done|]. intros e He E. pose proof (step_fine op intr_call rfuel e p l O He) as Hf. by rewrite E in Hf.
Qed.

(** C18: When at least one idle thread is allowed and threads can be created,
    then from the start of the first worker until the pool stops the requests in
    progress never keep the session from its next message: a few steps of
    workers that are not occupied with a request other than a FORGET, none of
    which waits for the device, bring a worker of the list to the device, unless
    it meets the end of the session or a function of the session aborts.  (At a
    given moment all of them may be on their way: one that holds a message starts
    another thread, if need be, before it processes it.)  And no more than the
    allowed number of workers are without such a request. *)
Theorem pool_staffed clone n s rfuel es p :
  run op intr_call rfuel es (pool0 clone n [] s) = Some p -> 1 <= i32 n ->
  mt_exit (mt p) = false -> main_at p <> M_start ->
  (exists p', quick op intr_call rfuel p p' /\ (at_device p' \/ session_aborts op intr_call rfuel p')) /\
  exists l, dl (wlinks p) MAIN l /\ idle (threads p) l <= i32 n.
Proof.
  intros Hr Hn Hx Hm. destruct (pool_run_ok op intr_call rfuel es _ p [] (pool0_ok clone n [] s) Hr) as (l & O & Hs).
  assert (staffed (i32 n) p) as St.
  { apply Hs. split; [done|]. split; [done|]. intros _. split; [cbn in *; lia|done]. }
  split.
  - apply (soon_any op intr_call rfuel (i32 n) (Z.to_nat (numavail (mt p))) p); [|done]. split; [by exists l|done].
  - destruct St as (_ & [_ Hi] & A). destruct (A Hx) as [A1 _]. destruct O as (S & C & _). destruct (C Hx) as [_ C2].
    exists l. split; [apply S|lia].
Qed.

(** C19: Once the main thread has told the pool to stop, every continuation
    has a bounded number of steps, signals apart, whatever the device delivers;
    until fuse_session_loop_mt returns some thread can go on without a message
    from the device; and when it returns, every thread has ended or only has
    its own object to free. *)
Theorem pool_stops clone n outs s rfuel es p :
  (forall buf c, keeps_flag (fuse_session_process_buf_int op intr_call buf c)) ->
  run op intr_call rfuel es (pool0 clone n outs s) = Some p -> mt_exit (mt p) = true ->
  forall es' p', run op intr_call rfuel es' p = Some p' ->
    Z.of_nat (length (filter (fun e => is_signal e = false) es')) <= potential p /\
    ((exists err, main_at p' = M_return err /\ forall w t, threads p' !! w = Some t -> at_ t = W_leave \/ at_ t = W_end) \/
     exists e, enabled e p' = true /\ is_signal e = false /\
       forall w t, e = E_worker w -> threads p' !! w = Some t -> at_ t <> W_receive).
Proof.
  intros Hk Hr Hx es' p' Hr'.
  assert (flagged (pool0 clone n outs s)) as F0 by (intros [?|?]; done).
  destruct (run_flagged op intr_call Hk rfuel es _ [] p (pool0_ok clone n outs s) F0 Hr) as (F & l & O).
  assert (stopping p) as St by (split; [done|apply F; by right]).
  destruct (stop_run op intr_call Hk rfuel es' p l p' O St Hr') as (St' & (l' & O') & Hd).
  pose proof (potential_nonneg p'). split; [lia|].
  destruct (stop_progress p' l' O' (proj1 St')) as [[err Em]|He]; [left; exists err|by right]. split; [done|].
  destruct O' as (S & _ & Mo). unfold main_ok in Mo. rewrite Em in Mo. subst l'. intros w t Et.
  destruct (sh_threads _ _ S w t Et) as [Hw|[[? _]|[? _]]]; [by apply not_elem_of_nil in Hw|by left|by right].
Qed.

End Theorems.

(** ** A device with a queue of messages *)

(** Reads take the next message; an empty queue means that the file system was
    unmounted. *)
Record device := Device { queue : list bytes }.

#[export] Instance device_fd : FdOps device := {|
  sys_read fd len d :=
    match queue d with [] => (d, inl ENODEV) | m :: q => (Device q, inr (take (Z.to_nat len) m)) end;
  sys_pread fd len pos d := (d, inl EBADF);
  sys_write fd b d := (d, inl EBADF);
  sys_pwrite fd b pos d := (d, inl EBADF);
  sys_splice i pi o po len fl d := (d, inl EINVAL) |}.

#[export] Instance device_dev : DevOps device := {|
  sys_writev fd b d := (d, inr (Z.of_nat (length b)));
  sys_vmsplice fd v fl d := (d, inl EINVAL);
  sys_splice_pipe i o len fl m d := (d, inl EINVAL);
  sys_setpipe_sz fd n d := (d, inl EINVAL);
  sys_pipe2 fl d := (d, inl EMFILE);
  sys_open p fl d := (d, inr 11);
  sys_close fd d := (d, inr tt) |}.

#[export] Instance device_clone : CloneOps device := {| sys_clone fd master d := (d, inr tt) |}.

(** Messages of user 1000: FORGET of node 7 and STATFS, each with a header of 40
    bytes. *)
Definition forget_msg : bytes :=
  le 4 48 ++ le 4 2 ++ le 8 5 ++ le 8 7 ++ le 4 1000 ++ le 4 1000 ++ le 4 42 ++ le 4 0 ++ le 8 1.

Definition statfs_msg : bytes :=
  le 4 40 ++ le 4 17 ++ le 8 6 ++ le 8 1 ++ le 4 1000 ++ le 4 1000 ++ le 4 42 ++ le 4 0.

Definition queue_session (q : list bytes) : LL device unit :=
  start example_session (World (Device q) ∅ 4096) tt.

Abbreviation no_run := (run (no_ops device unit) no_intr 3).

(** Nothing can happen but a signal or the arrival of a message for a worker
    that waits for one. *)
Definition blocked {OS U} (p : @pool OS U) : Prop := forall e, enabled e p = true ->
  is_signal e = true \/ exists w t, e = E_worker w /\ threads p !! w = Some t /\ at_ t = W_receive.

Definition sleeps (t : thread) : bool :=
  match at_ t with W_end => true | W_receive => negb (cancelled t) | _ => false end.

Lemma sleepers_blocked {OS U} (p : @pool OS U) : main_at p = M_wait -> finish (mt p) <= 0 ->
  bool_decide (map_Forall (fun _ t => sleeps t = true) (threads p)) = true -> blocked p.
Proof.
  intros Em Hf Hs%bool_decide_eq_true e. destruct e as [|w|w|sig]; cbn; [| | |by left];
    try (destruct (threads p !! w) as [t|] eqn:Et; [|done]; pose proof (Hs w t Et) as Ht; unfold sleeps in Ht).
  - rewrite Em. destruct (Z.ltb_spec 0 (finish (mt p))); [lia|done].
  - rewrite negb_true_iff, bool_decide_eq_false. intros He. right. exists w, t. split; [done|]. split; [done|]. by destruct (at_ t).
  - rewrite andb_true_iff, bool_decide_eq_true. intros [Hc Ha]. rewrite Ha, Hc in Ht. done.
Qed.

(** The workers of [l] go on, one after the other. *)
Definition turns (l : list Z) : list event := E_worker <$> l.

(** One worker takes a STATFS, starts a second one and answers; the device is
    unmounted, the second worker finds out and wakes the main thread. *)
Definition busy_events : list event := E_main :: E_main :: turns [1; 1; 1].
Definition stop_events : list event := busy_events ++ turns [1; 1; 2; 2; 2; 2] ++ [E_main; E_main; E_main].

(** [Q] holds of the state that a run reaches. *)
Definition reaches {OS U} (r : option (@pool OS U)) (Q : @pool OS U -> bool) : bool :=
  match r with Some p => Q p | None => false end.

Lemma reaches_state {OS U} (r : option (@pool OS U)) Q : reaches r Q = true -> exists p, r = Some p /\ Q p = true.
Proof. destruct r as [p|]; [|done]. by exists p. Qed.

Lemma busy_run : reaches (no_run busy_events (pool0 true 1 [] (queue_session [statfs_msg])))
  (fun p => bool_decide (mt_exit (mt p) = false) && bool_decide (main_at p <> M_start)) = true.
Proof. vm_compute. reflexivity. Qed.

Lemma stop_reached : reaches (no_run stop_events (pool0 true 1 [] (queue_session [statfs_msg]))) (fun p => mt_exit (mt p)) = true.
Proof. vm_compute. reflexivity. Qed.

Lemma pool_invariant_witness : exists p l,
  no_run busy_events (pool0 true 1 [] (queue_session [statfs_msg])) = Some p /\ pool_ok p l.
Proof.
  destruct (reaches_state _ _ busy_run) as (p & E & _).
  destruct (pool_invariant (no_ops device unit) no_intr true 1 [] _ 3 busy_events p E) as (l & O & _).
  exact (ex_intro _ p (ex_intro _ l (conj E O))).
Defined.

(** After these the only worker holds a message that it has not looked at. *)
Definition got_events : list event := E_main :: E_main :: turns [1; 1].

Lemma got_run : reaches (no_run got_events (pool0 true 1 [] (queue_session [statfs_msg])))
  (fun p => bool_decide (mt_exit (mt p) = false) && bool_decide (main_at p <> M_start) &&
            bool_decide (at_ <$> threads p !! 1 = Some (W_got 40))) = true.
Proof. vm_compute. reflexivity. Qed.

Lemma pool_staffed_witness : exists p p',
  no_run got_events (pool0 true 1 [] (queue_session [statfs_msg])) = Some p /\ at_ <$> threads p !! 1 = Some (W_got 40) /\
  quick (no_ops device unit) no_intr 3 p p' /\ (at_device p' \/ session_aborts (no_ops device unit) no_intr 3 p').
Proof.
  destruct (reaches_state _ _ got_run) as (p & E & Hb). apply andb_true_iff in Hb as [[Hx Hm]%andb_true_iff Hg].
  apply bool_decide_eq_true in Hx, Hm, Hg.
  destruct (pool_staffed (no_ops device unit) no_intr true 1 _ 3 got_events p E ltac:(vm_compute; discriminate) Hx Hm)
    as [(p' & Q & R) _].
  exact (ex_intro _ p (ex_intro _ p' (conj E (conj Hg (conj Q R))))).
Defined.

(** The pool of [stop_events] goes on for at most [potential] steps. *)
Lemma pool_stops_witness : exists p,
  no_run stop_events (pool0 true 1 [] (queue_session [statfs_msg])) = Some p /\
  forall es' p', no_run es' p = Some p' -> Z.of_nat (length (filter (fun e => is_signal e = false) es')) <= potential p.
Proof.
  destruct (reaches_state _ _ stop_reached) as (p & E & Hx). exists p. split; [exact E|]. intros es' p' Hr.
  exact (proj1 (pool_stops (no_ops device unit) no_intr true 1 [] _ 3 stop_events p kf_no_ops E Hx es' p' Hr)).
Defined.

(** ** Where the pool departs from its intention *)

(** With max_idle_threads = 0 one FORGET empties the pool: the worker
    that handles it was never counted as busy, so it finds one idle thread too
    many, itself, and leaves.  The main thread then waits for ever although the
    session was not asked to end: no worker is left to read the device. *)
Theorem last_worker_leaves : exists p,
  no_run (E_main :: E_main :: turns [1; 1; 1; 1; 1; 1]) (pool0 false 0 [] (queue_session [forget_msg; statfs_msg])) = Some p /\
  flag p = false /\ numworker (mt p) = 0 /\ workers p = ∅ /\ blocked p.
Proof.
  eexists. split; [vm_compute; reflexivity|]. split; [reflexivity|]. split; [reflexivity|]. split; [reflexivity|].
  apply sleepers_blocked; [reflexivity|vm_compute; discriminate|vm_compute; reflexivity].
Qed.

(** A file system whose STATFS ends the session. *)
Definition exit_ops : fuse_lowlevel_ops device unit :=
  Ops device unit None None None None None None None None None None None None None None None None None None
    None None None None None None None None None (Some (fun req _ => _ ← fuse_session_exit; err_reply req ENOSYS))
    None None None None None None None None
    None None None None None None None None.

(** A handler that calls fuse_session_exit may not end the loop: the
    worker that ran it leaves the pool because enough others are idle, without
    posting the semaphore, so the main thread keeps waiting and the other
    worker waits for a message, although the session is flagged as exited. *)
Theorem exit_unnoticed : exists p,
  run exit_ops no_intr 3 (E_main :: E_main :: turns [1; 1; 1; 2; 1; 1; 1]) (pool0 false 1 [] (queue_session [statfs_msg])) = Some p /\
  flag p = true /\ mt_exit (mt p) = false /\ blocked p.
Proof.
  eexists. split; [vm_compute; reflexivity|]. split; [reflexivity|]. split; [reflexivity|].
  apply sleepers_blocked; [reflexivity|vm_compute; discriminate|vm_compute; reflexivity].
Qed.
