(* ===== verification/Handler.v ===== *)
(** * A program logic for request handlers

    A handler runs on the state of a session and of the file system behind it,
    of type [U].  [wp R m Q u] says that [m], run where the state of the file
    system is [u], returns with [Q], whatever the system calls and allocations
    answer, and leaves the session as it is; if [R] is a request, [m] may also
    look at it and set its interrupt callback.  [replies r m Q u] says that [m]
    answers request [r] once and ends in [Q], which may speak of the message. *)

From S2P Require Import Prelude DList Wire Buf LowLevel Dispatch.

Section Rules.
Context {OS U : Type} `{FdOps OS} `{DevOps OS}.
Implicit Types (s : LL OS U) (w : U) (R : option Z).

Abbreviation M := (ST (LL OS U)).

(** A request with another sender, state of interruption or callback. *)
Definition alike (q q' : fuse_req) : Prop :=
  unique q' = unique q /\ LowLevel.ctr q' = LowLevel.ctr q /\ ch q' = ch q /\
  (u q' = u q \/ exists f d f' d', u q = U_ni f d /\ u q' = U_ni f' d').

(** The session is as before, but for the request [R]; the system, the
    allocator's future and the file system may have changed. *)
Definition same_reqs R (m m' : gmap Z fuse_req) : Prop :=
  match R with
  | None => m' = m
  | Some r => (forall x, x <> r -> m' !! x = m !! x) /\ option_Forall2 alike (m !! r) (m' !! r)
  end.

Definition quiet R s s' : Prop :=
  se s' = se s /\ same_reqs R (reqs s) (reqs s') /\ nreqs s' = nreqs s /\ lks s' = lks s /\
  fresh s' = fresh s /\ sent s' = sent s.

Definition has_req R s : Prop :=
  match R with Some r => exists q f d, reqs s !! r = Some q /\ u q = U_ni f d | None => True end.

Definition wp R {A} (m : M A) (Q : A -> U -> Prop) w : Prop :=
  forall s, user s = w -> has_req R s -> exists a s', m s = Some (a, s') /\ quiet R s s' /\ Q a (user s').

Definition replies {A} (r : Z) (m : M A) (Q : A -> bytes -> U -> Prop) w : Prop :=
  forall s l i n q, inv s l i n -> live s l i n r q -> has_req (Some r) s -> user s = w ->
  exists a s' fd msg, m s = Some (a, s') /\ inv s' (without r l) i n /\ Q a msg (user s') /\
    sent s' = sent s ++ [(fd, msg)] /\ u64_at msg 8 = u64 (unique q).

(** The same, where the answer of the device to the message matters: [Q] also
    speaks of the result of sending, and nothing has asked the system since. *)
Definition replies_dev {A} (r : Z) (m : M A) (Q : A -> bytes -> Z -> U -> Prop) w : Prop :=
  forall s l i n q, inv s l i n -> live s l i n r q -> has_req (Some r) s -> user s = w ->
  exists a s' fd msg o ans, m s = Some (a, s') /\ inv s' (without r l) i n /\ Q a msg (dev_result ans) (user s') /\
    sent s' = sent s ++ [(fd, msg)] /\ u64_at msg 8 = u64 (unique q) /\ sys_writev fd msg o = (os (mach s'), ans).

(** ** The session stays *)

Lemma alike_refl q : alike q q.
Proof. repeat split; by left. Qed.

Lemma alike_trans q1 q2 q3 : alike q1 q2 -> alike q2 q3 -> alike q1 q3.
Proof.
  intros (A1 & A2 & A3 & A4) (B1 & B2 & B3 & B4). split; [congruence|]. split; [congruence|]. split; [congruence|].
  destruct A4 as [A4|(f & d & f' & d' & A4 & A5)], B4 as [B4|(g & e & g' & e' & B4 & B5)];
    [left; congruence|right; exists g, e, g', e'|right; exists f, d, f', d'|right; exists f, d, g', e']; split; congruence.
Qed.

Lemma same_refl R m : same_reqs R m m.
Proof. destruct R as [r|]; [|done]. split; [done|]. destruct (m !! r); constructor. apply alike_refl. Qed.

Lemma same_trans R m1 m2 m3 : same_reqs R m1 m2 -> same_reqs R m2 m3 -> same_reqs R m1 m3.
Proof.
  destruct R as [r|]; cbn; [|congruence]. intros [A1 A2] [B1 B2]. split; [intros x Hx; rewrite B1, A1; done|].
  destruct A2 as [q1 q2 H12|]; inversion B2 as [q q3 H23|]; subst; constructor. by eapply alike_trans.
Qed.

Lemma same_insert r (m : gmap Z fuse_req) q q' : m !! r = Some q -> alike q q' -> same_reqs (Some r) m (<[r := q']> m).
Proof. intros E Ha. split; [intros x Hx; by rewrite lookup_insert_ne|]. rewrite E, lookup_insert_eq. by constructor. Qed.

Lemma quiet_same R s s' : se s' = se s -> reqs s' = reqs s -> nreqs s' = nreqs s -> lks s' = lks s -> fresh s' = fresh s -> sent s' = sent s -> quiet R s s'.
Proof. intros E1 E2 E3 E4 E5 E6. split; [done|]. split; [rewrite E2; apply same_refl|]. by repeat split. Qed.

Lemma quiet_refl R s : quiet R s s.
Proof. by apply quiet_same. Qed.

Lemma quiet_trans R s1 s2 s3 : quiet R s1 s2 -> quiet R s2 s3 -> quiet R s1 s3.
Proof.
  intros (A1 & A2 & A3 & A4 & A5 & A6) (B1 & B2 & B3 & B4 & B5 & B6). split; [congruence|]. split; [by eapply same_trans|repeat split; congruence].
Qed.

Lemma quiet_lookup R s s' r q : quiet R s s' -> reqs s !! r = Some q -> exists q', reqs s' !! r = Some q' /\ alike q q'.
Proof.
  intros (_ & HR & _) E. destruct R as [x|]; cbn in HR; [|rewrite HR; exists q; split; [done|apply alike_refl]]. destruct HR as [H1 H2].
  destruct (decide (r = x)) as [->|Hne]; [|rewrite (H1 r Hne); exists q; split; [done|apply alike_refl]].
  rewrite E in H2. inversion H2 as [? q' Ha E1 E2|]; subst. by exists q'.
Qed.

Lemma quiet_back R s s' r q' : quiet R s s' -> reqs s' !! r = Some q' -> exists q, reqs s !! r = Some q /\ alike q q'.
Proof.
  intros (_ & HR & _) E. destruct R as [x|]; cbn in HR; [|rewrite HR in E; exists q'; split; [done|apply alike_refl]]. destruct HR as [H1 H2].
  destruct (decide (r = x)) as [->|Hne]; [|rewrite (H1 r Hne) in E; exists q'; split; [done|apply alike_refl]].
  rewrite E in H2. inversion H2 as [q ? Ha E1 E2|]; subst. by exists q.
Qed.

Lemma quiet_weaken R s s' : quiet None s s' -> quiet R s s'.
Proof. intros (A1 & A2 & A3 & A4 & A5 & A6). by apply quiet_same. Qed.

Lemma quiet_inv R s s' l i n : quiet R s s' -> inv s l i n -> inv s' l i n.
Proof.
  intros Hq I. pose proof Hq as (_ & _ & E2 & E3 & E4 & _). split; rewrite ?E2, ?E3, ?E4; try apply I.
  - intros r Hr. destruct (inv_l _ _ _ _ I r Hr) as (q & f & d & Eq & Hc & Hu). destruct (quiet_lookup R s s' r q Hq Eq) as (q' & Eq' & _ & A2 & _ & A4).
    exists q'. destruct A4 as [A4|(f1 & d1 & f' & d' & _ & A5)]; [exists f, d|exists f', d']; (split; [done|]; split; congruence).
  - intros r Hr. destruct (inv_i _ _ _ _ I r Hr) as (q & t & Eq & Hc & Hu). destruct (quiet_lookup R s s' r q Hq Eq) as (q' & Eq' & _ & A2 & _ & A4).
    exists q', t. split; [done|]. split; [congruence|]. destruct A4 as [A4|(f1 & d1 & f' & d' & A4 & _)]; congruence.
  - intros r q' Hr. destruct (quiet_back R s s' r q' Hq Hr) as (q & Eq & _ & _ & -> & _). by apply (inv_ch _ _ _ _ I r).
Qed.

Lemma quiet_live R s s' l i n r q : quiet R s s' -> live s l i n r q -> exists q', live s' l i n r q' /\ unique q' = unique q.
Proof.
  intros Hq (Er & Hc & Hrest). destruct (quiet_lookup R s s' r q Hq Er) as (q' & Eq' & A1 & A2 & _). exists q'. split; [|done].
  split; [done|]. split; [congruence|]. destruct Hq as (_ & _ & _ & -> & _). exact Hrest.
Qed.

Lemma quiet_has s s' R R' : quiet R' s s' -> has_req R s -> has_req R s'.
Proof.
  intros Hq. destruct R as [r|]; [|done]. intros (q & f & d & Eq & Hu). destruct (quiet_lookup R' s s' r q Hq Eq) as (q' & Eq' & _ & _ & _ & A4).
  exists q'. destruct A4 as [A4|(f1 & d1 & f' & d' & _ & A5)]; [exists f, d|exists f', d']; split; congruence.
Qed.

(** ** Rules for [wp] *)

Lemma wp_mono R {A} (m : M A) (Q Q' : A -> U -> Prop) w : wp R m Q w -> (forall a w', Q a w' -> Q' a w') -> wp R m Q' w.
Proof. intros Hm HQ s E HR. destruct (Hm s E HR) as (a & s' & Em & Hq & Ha). exists a, s'. split; [done|]. split; [done|]. by apply HQ. Qed.

Lemma wp_weaken R {A} (m : M A) (Q : A -> U -> Prop) w : wp None m Q w -> wp R m Q w.
Proof. intros Hm s E _. destruct (Hm s E Logic.I) as (a & s' & Em & Hq & HQ). exists a, s'. split; [done|]. split; [by apply quiet_weaken|done]. Qed.

Lemma wp_ret R {A} (a : A) (Q : A -> U -> Prop) w : Q a w -> wp R (mret a) Q w.
Proof. intros HQ s <- _. exists a, s. split; [done|]. split; [apply quiet_refl|done]. Qed.

Lemma wp_bind R {A B} (m : M A) (k : A -> M B) (Q : B -> U -> Prop) w : wp R m (fun a => wp R (k a) Q) w -> wp R (m ≫= k) Q w.
Proof.
  intros Hm s E HR. destruct (Hm s E HR) as (a & s1 & E1 & H1 & Hk). destruct (Hk s1 eq_refl (quiet_has _ _ _ _ H1 HR)) as (b & s2 & E2 & H2 & HQ).
  exists b, s2. split; [by erewrite bind_step by exact E1|]. split; [by eapply quiet_trans|done].
Qed.

(** Two steps at the front, as one. *)
Lemma wp_two R {A B C} (m : M A) (k : A -> M B) (k' : B -> M C) (Q : C -> U -> Prop) w : wp R (m ≫= k) (fun a => wp R (k' a) Q) w -> wp R (a ← m; b ← k a; k' b) Q w.
Proof. intros Hm%wp_bind s Hs Hw. destruct (Hm s Hs Hw) as (c & s' & E & HQ). exists c, s'. split; [by rewrite <- bind_assoc|done]. Qed.

Lemma wp_set_user R g (Q : unit -> U -> Prop) w : Q tt (g w) -> wp R (set_user g) Q w.
Proof. intros HQ s <- _. eexists tt, _. split; [reflexivity|]. by split; [apply quiet_same|]. Qed.

Lemma wp_malloc R (Q : bool -> U -> Prop) w : (forall b, Q b w) -> wp R malloc Q w.
Proof.
  intros HQ s <- _. unfold malloc. destruct (LowLevel.heap s) as [|b h];
    (eexists _, _; split; [reflexivity|]; split; [by apply quiet_same|apply HQ]).
Qed.

Lemma wp_of_option R {A} (o : option A) a (Q : A -> U -> Prop) w : o = Some a -> Q a w -> wp R (of_option o) Q w.
Proof. intros -> HQ. by apply wp_ret. Qed.

Lemma wp_check R c (Q : unit -> U -> Prop) w : c = true -> Q tt w -> wp R (check c) Q w.
Proof. intros -> HQ. by apply wp_ret. Qed.

Lemma wp_lift_w R {A} (m : ST (world OS) A) (Q : A -> U -> Prop) w : (forall o, exists a o', m o = Some (a, o') /\ Q a w) -> wp R (lift_w m) Q w.
Proof.
  intros Hm s <- _. destruct (Hm (mach s)) as (a & o' & E & HQ). eexists a, _. split; [unfold lift_w; rewrite E; reflexivity|].
  split; [by apply quiet_same|done].
Qed.

Lemma wp_brk_alloc R len (Q : Z -> U -> Prop) w : (forall p, Q p w) -> wp R (brk_alloc len) Q w.
Proof. intros HQ s <- _. eexists _, _. split; [apply brk_alloc_spec|]. split; [by apply quiet_same|apply HQ]. Qed.

(** The request itself. *)
Lemma wp_get_req r (Q : fuse_req -> U -> Prop) w : (forall q, Q q w) -> wp (Some r) (get_req r) Q w.
Proof. intros HQ s <- (q & f & d & Eq & _). exists q, s. split; [by apply get_req_Some|]. split; [apply quiet_refl|apply HQ]. Qed.

(** Writing a request that is like the one that was read. *)
Lemma wp_change_req r {A} (g : fuse_req -> fuse_req) (k : fuse_req -> M A) (Q : A -> U -> Prop) w :
  (forall q f d, u q = U_ni f d -> alike q (g q)) -> (forall q, wp (Some r) (k q) Q w) ->
  wp (Some r) (q ← get_req r; _ ← put_req r (g q); k q) Q w.
Proof.
  intros Hg Hk s E HR. pose proof HR as (q & f & d & Eq & Hu). erewrite bind_step by (by apply get_req_Some).
  set (s1 := upd_reqs (<[r := g q]> (reqs s)) s).
  assert (quiet (Some r) s s1) as Hq1 by (split; [done|]; split; [apply (same_insert r _ q); [done|by eapply Hg]|by repeat split]).
  erewrite bind_step by reflexivity. destruct (Hk q s1 E (quiet_has _ _ _ _ Hq1 HR)) as (a & s2 & E2 & Hq2 & HQ).
  exists a, s2. split; [exact E2|]. split; [by eapply quiet_trans|done].
Qed.

Lemma wp_umask r m0 (Q : unit -> U -> Prop) w : Q tt w -> wp (Some r) (set_umask r m0) Q w.
Proof.
  intros HQ s E HR. pose proof HR as (q & f & d & Eq & Hu). unfold set_umask. erewrite bind_step by (by apply get_req_Some). cbv zeta.
  eexists tt, _. split; [reflexivity|]. split; [|by rewrite <- E in HQ]. split; [done|].
  split; [apply (same_insert r _ q); [done|repeat split; by left]|by repeat split].
Qed.

Lemma wp_interrupt_func intr_call r func data (Q : unit -> U -> Prop) w :
  (forall f, func = Some f -> wp (Some r) (intr_call f r data) (fun _ => eq w) w) -> Q tt w ->
  wp (Some r) (fuse_req_interrupt_func intr_call r func data) Q w.
Proof.
  intros Hf HQ. unfold fuse_req_interrupt_func.
  apply (wp_change_req r (fun q => Req (unique q) (LowLevel.ctr q) (ctx q) (ch q) (interrupted q) (ioctl_64bit q) (U_ni func data))).
  - intros q f d Hu. repeat split; try done. right. by do 4 eexists.
  - intros q. destruct (interrupted q); [|by apply wp_ret]. destruct func as [f|]; [|by apply wp_ret].
    eapply wp_mono; [by apply Hf|]. by intros [] ? <-.
Qed.

(** ** Rules for [replies] *)

Lemma replies_bind {A B} r (m : M A) (k : A -> M B) Q w :
  wp (Some r) m (fun a => replies r (k a) Q) w -> replies r (m ≫= k) Q w.
Proof.
  intros Hm s l i n q I L HR E. destruct (Hm s E HR) as (a & s1 & E1 & Hq & Hk).
  destruct (quiet_live _ s s1 l i n r q Hq L) as (q1 & L1 & Hu).
  destruct (Hk s1 l i n q1) as (b & s2 & fd & msg & E2 & I2 & Q2 & S2 & U2); [by eapply quiet_inv|done|by eapply quiet_has|done|].
  exists b, s2, fd, msg. split; [by erewrite bind_step by exact E1|]. split; [done|]. split; [done|]. rewrite <- Hu.
  destruct Hq as (_ & _ & _ & _ & _ & <-). done.
Qed.

(** Code after the reply. *)
Lemma replies_after {A B} r (m : M A) (k : A -> M B) Q w :
  replies r m (fun a msg => wp None (k a) (fun b => Q b msg)) w -> replies r (m ≫= k) Q w.
Proof.
  intros Hm s l i n q I L HR E. destruct (Hm s l i n q I L HR E) as (a & s1 & fd & msg & E1 & I1 & Hk & S1 & U1).
  destruct (Hk s1 eq_refl Logic.I) as (b & s2 & E2 & Hq & HQ). exists b, s2, fd, msg. split; [by erewrite bind_step by exact E1|].
  split; [by eapply quiet_inv|]. split; [done|]. split; [|done]. destruct Hq as (_ & _ & _ & _ & _ & ->). done.
Qed.

Lemma replies_mono {A} r (m : M A) (Q Q' : A -> bytes -> U -> Prop) w :
  replies r m Q w -> (forall a msg w', Q a msg w' -> Q' a msg w') -> replies r m Q' w.
Proof.
  intros Hm HP s l i n q I L HR E. destruct (Hm s l i n q I L HR E) as (a & s' & fd & msg & E1 & I1 & P1 & R1).
  exists a, s', fd, msg. split; [done|]. split; [done|]. split; [by apply HP|done].
Qed.

Lemma replies_ext {A} r (m m' : M A) Q w : (forall s, m s = m' s) -> replies r m Q w -> replies r m' Q w.
Proof.
  intros Hm Hf s l i n q I L HR E. destruct (Hf s l i n q I L HR E) as (a & s' & fd & msg & E' & R).
  exists a, s', fd, msg. by rewrite <- Hm.
Qed.

(** Replies that first look at the connection. *)
Lemma replies_conn {A} r (k : fuse_conn_info -> M A) Q w : (forall c, replies r (k c) Q w) -> replies r (c ← req_conn r; k c) Q w.
Proof.
  intros Hk s l i n q I L HR E. destruct (Hk (conn (se s)) s l i n q I L HR E) as (a & s' & fd & msg & E' & R).
  exists a, s', fd, msg. split; [|done]. rewrite <- E'.
  unfold req_conn, mbind, ST_bind. rewrite (get_req_Some _ _ _ (proj1 L)). reflexivity.
Qed.

(** A message of a reply: the error and the segments. *)
Definition is_reply (msg : bytes) (err : Z) (iov : list bytes) : Prop := exists uq, msg = reply_msg (clamp_error err) uq iov.

Lemma replies_iov r err iov (Q : Z -> bytes -> U -> Prop) w : (forall res msg, is_reply msg err iov -> Q res msg w) -> replies r (send_reply_iov r err iov) Q w.
Proof.
  intros HQ s l i n q I L _ <-.
  destruct (send_reply_iov_spec s l i n r q err iov I L) as (res & s' & E & (I' & (_ & _ & _ & _ & Hu & _) & Es & _) & _).
  eexists res, s', _, _. split; [exact E|]. split; [done|]. split; [rewrite Hu; apply HQ; by eexists|]. split; [done|apply reply_msg_unique].
Qed.

Lemma replies_send r err arg (Q : Z -> bytes -> U -> Prop) w : (forall res msg, is_reply msg err (segs arg) -> Q res msg w) ->
  replies r (send_reply r err arg) Q w.
Proof. apply replies_iov. Qed.

Lemma replies_err r err (Q : unit -> bytes -> U -> Prop) w : (forall msg, is_reply msg (- err) [] -> Q tt msg w) -> replies r (err_reply r err) Q w.
Proof. intros HQ. unfold err_reply. apply replies_after, (replies_send r (- err) []). intros res msg Hm. by apply wp_ret, HQ. Qed.

(** *** The answer of the device *)

Lemma dev_replies {A} r (m : M A) (Q : A -> bytes -> U -> Prop) w : replies_dev r m (fun a msg _ => Q a msg) w -> replies r m Q w.
Proof.
  intros Hm s l i n q I L HR E. destruct (Hm s l i n q I L HR E) as (a & s' & fd & msg & o & ans & E' & I' & HQ & S' & U' & _). by exists a, s', fd, msg.
Qed.

Lemma dev_mono {A} r (m : M A) (Q Q' : A -> bytes -> Z -> U -> Prop) w :
  replies_dev r m Q w -> (forall a msg res w', Q a msg res w' -> Q' a msg res w') -> replies_dev r m Q' w.
Proof.
  intros Hm HQ s l i n q I L HR E. destruct (Hm s l i n q I L HR E) as (a & s' & fd & msg & o & ans & E' & I' & Hq & R). exists a, s', fd, msg, o, ans. split; [done|]. split; [done|].
  split; [by apply HQ|done].
Qed.

Lemma dev_bind {A B} r (m : M A) (k : A -> M B) Q w : wp (Some r) m (fun a => replies_dev r (k a) Q) w -> replies_dev r (m ≫= k) Q w.
Proof.
  intros Hm s l i n q I L HR E. destruct (Hm s E HR) as (a & s1 & E1 & Hq & Hk). destruct (quiet_live _ s s1 l i n r q Hq L) as (q1 & L1 & Hu).
  destruct (Hk s1 l i n q1) as (b & s2 & fd & msg & o & ans & E2 & I2 & Q2 & S2 & U2 & W2); [by eapply quiet_inv|done|by eapply quiet_has|done|].
  exists b, s2, fd, msg, o, ans. split; [by erewrite bind_step by exact E1|]. split; [done|]. split; [done|]. rewrite <- Hu. destruct Hq as (_ & _ & _ & _ & _ & <-). done.
Qed.

Lemma dev_conn {A} r (k : fuse_conn_info -> M A) Q w : (forall c, replies_dev r (k c) Q w) -> replies_dev r (c ← req_conn r; k c) Q w.
Proof.
  intros Hk s l i n q I L HR E. destruct (Hk (conn (se s)) s l i n q I L HR E) as (a & s' & fd & msg & o & ans & E' & R). exists a, s', fd, msg, o, ans. split; [|done].
  rewrite <- E'. unfold req_conn, mbind, ST_bind. rewrite (get_req_Some _ _ _ (proj1 L)). reflexivity.
Qed.

(** Code after the reply that leaves the system alone. *)
Definition no_sys {A} (m : M A) : Prop := forall s a s', m s = Some (a, s') -> os (mach s') = os (mach s).

Lemma dev_after {A B} r (m : M A) (k : A -> M B) Q w : (forall a, no_sys (k a)) ->
  replies_dev r m (fun a msg res => wp None (k a) (fun b => Q b msg res)) w -> replies_dev r (m ≫= k) Q w.
Proof.
  intros Hn Hm s l i n q I L HR E. destruct (Hm s l i n q I L HR E) as (a & s1 & fd & msg & o & ans & E1 & I1 & Hk & S1 & U1 & W1).
  destruct (Hk s1 eq_refl Logic.I) as (b & s2 & E2 & Hq & HQ). exists b, s2, fd, msg, o, ans. split; [by erewrite bind_step by exact E1|].
  split; [by eapply quiet_inv|]. split; [done|]. rewrite (Hn a s1 b s2 E2). split; [|done]. destruct Hq as (_ & _ & _ & _ & _ & ->). done.
Qed.

Lemma dev_iov r err iov (Q : Z -> bytes -> Z -> U -> Prop) w : (forall res msg, is_reply msg err iov -> Q res msg res w) -> replies_dev r (send_reply_iov r err iov) Q w.
Proof.
  intros HQ s l i n q I L _ <-.
  destruct (send_reply_iov_answer s l i n r q err iov I L) as (ans & s' & E & (I' & (_ & _ & _ & _ & Hu & _) & Es & _) & _ & Ew).
  eexists _, s', _, _, _, ans. split; [exact E|]. split; [done|]. split; [rewrite Hu; apply HQ; by eexists|]. split; [done|]. split; [apply reply_msg_unique|done].
Qed.

Lemma dev_send r err arg (Q : Z -> bytes -> Z -> U -> Prop) w : (forall res msg, is_reply msg err (segs arg) -> Q res msg res w) -> replies_dev r (send_reply r err arg) Q w.
Proof. apply dev_iov. Qed.

Lemma no_sys_ret {A} (a : A) : no_sys (mret a : M A).
Proof. by intros s x s' [= <- <-]. Qed.

Lemma dev_err r err (Q : unit -> bytes -> Z -> U -> Prop) w : (forall res msg, is_reply msg (- err) [] -> Q tt msg res w) -> replies_dev r (err_reply r err) Q w.
Proof. intros HQ. unfold err_reply. apply dev_after, (dev_send r (- err) []); [intros; apply no_sys_ret|]. intros res msg Hm. by apply wp_ret, HQ. Qed.

(** The contract of [Dispatch]. *)
Lemma replies_answers r (m : M unit) (Q : unit -> bytes -> U -> Prop) (P : U -> Prop) w :
  replies r m Q w -> (forall msg w', Q tt msg w' -> P w') -> answers (eq w) P r m.
Proof.
  intros Hm HP s l i n q I L (f & d & Hu) Hw. destruct (Hm s l i n q I L) as ([] & s' & fd & msg & E & I' & HQ & S' & U'); [|done|].
  - exists q, f, d. split; [apply L|done].
  - exists s', fd, msg. split; [done|]. split; [done|]. split; [by eapply HP|done].
Qed.

(** The handler of an opcode is the one in the table. *)
Lemma handler_table (op : fuse_lowlevel_ops OS U) intr_call opcode buf r nodeid inarg h : opcode <> FUSE_WRITE -> opcode <> FUSE_NOTIFY_REPLY ->
  ll_func op intr_call opcode = Some h -> handler op intr_call opcode buf r nodeid inarg = h r nodeid inarg.
Proof. intros Hw%Z.eqb_neq Hn%Z.eqb_neq Hl. unfold handler. by rewrite Hw, Hn, Hl. Qed.

End Rules.

(** ** Data *)

Section Data.
Context {OS U : Type} `{FdOps OS} `{DevOps OS} `{!FdLaws OS} `{!DevLaws OS}.
Implicit Types (s : LL OS U).

(** A copy ends, and touches only the world. *)
Lemma copy_ends (dv sv : fuse_bufvec) fl (w : world OS) : vec_ok dv -> vec_ok sv ->
  remaining dv < 2 ^ 63 ->
  exists r dv' sv' w', fuse_buf_copy false dv sv fl w = Some ((r, dv', sv'), w') /\ r <= remaining dv.
Proof.
  intros Hd Hs Hr. pose proof (remaining_nonneg _ Hd). pose proof (remaining_nonneg _ Hs).
  destruct (copy_loop_total (S (bcount dv + bcount sv)) dv sv fl 0 w) as (r & dv' & sv' & w' & E & Hb); try done.
  - unfold segments_left. lia.
  - lia.
  - exists r, dv', sv', w'. split; [exact E|]. lia.
Qed.

Lemma wp_copy R dv sv fl w (Q : Z * fuse_bufvec * fuse_bufvec -> U -> Prop) : vec_ok dv -> vec_ok sv ->
  remaining dv < 2 ^ 63 -> (forall x, Q x w) -> wp R (lift_w (fuse_buf_copy false dv sv fl)) Q w.
Proof.
  intros Hd Hs Hr HQ. apply wp_lift_w. intros o. destruct (copy_ends dv sv fl o Hd Hs Hr) as (x & dv' & sv' & w' & E & _). eauto.
Qed.

(** The reply of a vector through memory: an error before anything is sent, or
    one message. *)
Lemma fallback_ends s (v : fuse_bufvec) len uniq : vec_ok v -> 0 <= len < 2 ^ 31 ->
  exists res v' s', fuse_send_data_iov_fallback None 0 uniq [] v len s = Some ((res, v'), s') /\
    user s' = user s /\ se s' = se s /\ lks s' = lks s /\ reqs s' = reqs s /\ nreqs s' = nreqs s /\ fresh s' = fresh s /\
    (0 < res /\ sent s' = sent s \/ res <= 0 /\ exists data, sent s' = sent s ++ [(se_fd (se s), reply_msg 0 uniq [data])]).
Proof.
  intros Hv Hl. unfold fuse_send_data_iov_fallback. destruct (_ && _).
  - erewrite bind_step by reflexivity. set (data := load _ _ _). destruct (fuse_send_msg_spec 0 uniq [data] s) as (res & o & E).
    pose proof (fuse_send_msg_le _ _ _ _ _ _ E) as Hle. eexists res, v, _. split; [cbn [app]; erewrite bind_step by exact E; reflexivity|].
    split; [done|]. do 5 (split; [done|]). right. split; [done|]. by exists data.
  - assert (exists ok s1, malloc s = Some (ok, s1) /\ user s1 = user s /\ se s1 = se s /\ reqs s1 = reqs s /\
      nreqs s1 = nreqs s /\ lks s1 = lks s /\ fresh s1 = fresh s /\ sent s1 = sent s) as (ok & s1 & E1 & U1 & A1 & A2 & A3 & A4 & A5 & A6).
    { unfold malloc. by destruct (heap s); eexists _, _. }
    erewrite bind_step by exact E1. destruct ok; cbn [negb]; [|by eexists _, _, s1; split; [reflexivity|]; split; [done|]; do 5 (split; [done|]); left].
    erewrite bind_step by apply brk_alloc_spec. cbv zeta. set (s2 := MkLL _ _ _ _ _ _ _ _ _ _).
    destruct (copy_ends (FuseBufvec 1 0 0 [FuseBuf len 0 (brk (mach s1)) (-1) 0]) v 0 (mach s2))
      as (r & dv' & sv' & w' & Ec & Hr).
    { split; [done|]. split; [by repeat constructor; simpl; lia|]. split; [done|]. intros _. cbn. lia. }
    { done. }
    { unfold remaining. case_bool_decide; simpl; lia. }
    erewrite bind_step by (unfold lift_w; rewrite Ec; reflexivity). cbv beta iota zeta.
    set (s3 := MkLL _ _ _ _ _ _ _ w' _ _). destruct (Z.ltb_spec (i32 r) 0) as [Hneg|Hpos].
    + erewrite bind_step by apply brk_free_spec. eexists _, _, _. split; [reflexivity|].
      split; [exact U1|]. do 5 (split; [done|]). left. split; [lia|done].
    + erewrite bind_step by reflexivity. set (data := load _ _ _).
      destruct (fuse_send_msg_spec 0 uniq [data] s3) as (res & o & E). pose proof (fuse_send_msg_le _ _ _ _ _ _ E) as Hle.
      eexists res, sv', _. split; [cbn [app]; erewrite bind_step by exact E; erewrite bind_step by apply brk_free_spec; reflexivity|].
      split; [exact U1|]. do 5 (split; [done|]). right. split; [done|]. exists data. cbn. by rewrite A1, A6.
Qed.

(** A session that does not write to the device with [splice]. *)
Definition no_splice (e : fuse_session) : Prop := has (want (conn e)) FUSE_CAP_SPLICE_WRITE = false.

Lemma reply_data_once s l i n r q v flags : inv s l i n -> live s l i n r q -> vec_ok v -> sum_sizes (bufs v) < 2 ^ 31 ->
  has flags FUSE_BUF_NO_SPLICE = true \/ no_splice (se s) ->
  exists res s' fd msg, fuse_reply_data r v flags s = Some (res, s') /\ inv s' (without r l) i n /\ user s' = user s /\
    sent s' = sent s ++ [(fd, msg)] /\ u64_at msg 8 = u64 (unique q).
Proof.
  intros I L Hv Hl Hf. pose proof Hv as (_ & Hsz & _). pose proof (sum_sizes_nonneg _ Hsz) as Hn.
  destruct (fallback_ends s v (sum_sizes (bufs v)) (unique q) Hv) as (res & v' & s1 & E & U1 & A1 & A2 & A3 & A4 & A5 & Hc); [lia|].
  assert (fuse_send_data_iov (ch q) 0 (unique q) [] v flags s = Some ((res, v'), s1)) as Hsend.
  { rewrite (inv_ch _ _ _ _ I _ _ (proj1 L)). unfold fuse_send_data_iov. erewrite bind_step by reflexivity. cbv zeta.
    rewrite fuse_buf_size_sum by (done || lia). destruct Hf as [-> | ->]; [by rewrite orb_true_r|by rewrite orb_true_r]. }
  assert (inv s1 l i n /\ live s1 l i n r q) as [I1 L1] by (split; [by apply (inv_ext s)|by apply (live_ext s)]).
  unfold fuse_reply_data. erewrite bind_step by (by apply get_req_Some, L). erewrite bind_step by exact Hsend. cbn [fst].
  destruct Hc as [[Hpos Hs]|(Hle & data & Hs)]; (destruct (Z.leb_spec res 0); [|]); try lia.
  - destruct (fuse_reply_err_spec s1 l i n r q res I1 L1) as (x & s2 & E2 & (I2 & (_ & _ & _ & _ & Hu & _) & Es & _) & _).
    eexists x, s2, _, _. split; [exact E2|]. split; [done|]. split; [congruence|]. split; [by rewrite Es, Hs|apply reply_msg_unique].
  - destruct (fuse_free_req_spec s1 l i n r q I1 L1) as (s2 & E2 & I2 & (_ & _ & _ & _ & Hu & _) & S2 & _).
    eexists res, s2, _, _. split; [by erewrite bind_step by exact E2|]. split; [done|]. split; [congruence|]. split; [by rewrite S2, Hs|apply reply_msg_unique].
Qed.
End Data.
