(* ===== verification/F3.v ===== *)
(** * The F3 file system: fuse/f3.cc, fuse/uds_client.cc

    F3 mirrors a shared source tree and keeps a second tree of ID files in a
    local cache directory: every node has a descriptor in both.  Files marked
    with the [user.f3.id] attribute live in the cache; opening one that is not
    cached starts a download through a Unix socket, and reads wait for it.

    The handlers run in the state monad of [LowLevel] with [Fs] as the state of
    the file system; the system calls are the interface [Posix], and [trace]
    records each call with its result.  [Inode] objects are in a heap, since the
    kernel is given their addresses; touching an erased one is an abort.  The
    loops whose length the system decides (copying a file, reading a directory)
    take [fuel].  Locks are left out: a handler runs to its end. *)

From S2P Require Import Prelude DList Wire Buf LowLevel Dispatch.
From Stdlib Require Import SpecFloat.

(** ** System calls *)

Inductive syscall :=
  | Openat (dirfd : Z) (name : bytes) (flags mode : Z)
  | Open (path : bytes) (flags : Z)
  | Close (fd : Z)
  | Dup (fd : Z)
  | Fstatat (fd : Z)
  | Fchmod (fd mode : Z)
  | Chmod (path : bytes) (mode : Z)
  | Fchownat (fd uid gid : Z)
  | Ftruncate (fd len : Z)
  | Truncate (path : bytes) (len : Z)
  | Futimens (fd : Z) (atim mtim : Z * Z)
  | Utimensat (path : bytes) (atim mtim : Z * Z)
  | Mkdirat (dirfd : Z) (name : bytes) (mode : Z)
  | Symlinkat (target : bytes) (dirfd : Z) (name : bytes)
  | Mknodat (dirfd : Z) (name : bytes) (mode rdev : Z)
  | Linkat (path : bytes) (dirfd : Z) (name : bytes)
  | Unlinkat (dirfd : Z) (name : bytes) (flags : Z)
  | Renameat (dirfd : Z) (name : bytes) (newdirfd : Z) (newname : bytes)
  | Readlinkat (fd size : Z)
  | Readlink (path : bytes) (size : Z)
  | Fdopendir (fd : Z)
  | Seekdir (dp off : Z)
  | Readdir (dp : Z)
  | Closedir (dp : Z)
  | Dirfd (dp : Z)
  | Fsync (fd : Z)
  | Fdatasync (fd : Z)
  | Fcntl_getfl (fd : Z)
  | Fstatvfs (fd : Z)
  | Posix_fallocate (fd off len : Z)
  | FlockFd (fd op : Z)
  | Fsetxattr (fd : Z) (name value : bytes)
  | Fgetxattr (fd : Z) (name : bytes) (size : Z)
  | Setxattr (path name value : bytes) (flags : Z)
  | Getxattr (path name : bytes) (size : Z)
  | Listxattr (path : bytes) (size : Z)
  | Removexattr (path name : bytes)
  | Sendfile (out_fd in_fd off count : Z)
  | Usleep (us : Z)
  | Sleep (s : Z)
  | Lstat (path : bytes)
  | Socket
  | Connect (fd : Z) (path : bytes)
  | Write (fd : Z) (data : bytes)
  | Read (fd size : Z)
  | Pthread_create.

(** The result of a call: the value it returns (-1 is an error, NULL is 0), and
    what it stores: [errno], a [struct stat], bytes, a directory entry, a
    [struct statvfs]. *)
Record sysres := Res {
  rv : Z; errno : Z; rstat : stat; rdata : bytes; rent : option dirent; rvfs : statvfs }.

Class Posix (OS : Type) := posix_call : syscall -> OS -> OS * sysres.

(** ** State *)

Record Inode := MkInode {
  fd : Z; id_fd : Z; src_dev : Z; src_ino : Z; generation : Z; nopen : Z; nlookup : Z;
  is_id : bool; needs_download : bool; servers : bytes; fname : bytes; client_fd : Z;
  download_done : Z; size : Z; target_size : Z }.

(** The default member initialisers; [client_fd] and the strings have none. *)
Definition Inode0 : Inode := MkInode (-1) (-1) 0 0 0 0 0 false false [] [] 0 0 0 0.

Record download_info := MkDownload {
  dl_fd : Z; dl_path : bytes; dl_servers : bytes; dl_end_byte : Z; dl_inode : Z }.

Record DirHandle := MkDir { dp : Z; offset : Z }.

(** [objs] are the [Inode] objects by address, [inodes] the map from source
    files to addresses, [dirs] the directory handles, [threads] the downloads
    that have been started and not finished. *)
Record Fs := MkFs {
  inodes : gmap (Z * Z) Z; objs : gmap Z Inode; next_obj : Z; root : Inode; timeout : double;
  fs_src_dev : Z; nosplice : bool; source : bytes; idroot : bytes; address : bytes; server_fd : Z;
  client_uds_path : bytes; dirs : gmap Z DirHandle; threads : list download_info;
  trace : list (syscall * sysres) }.

Definition with_objs (o : gmap Z Inode) (f : Fs) : Fs :=
  MkFs (inodes f) o (next_obj f) (root f) (timeout f) (fs_src_dev f) (nosplice f) (source f) (idroot f)
    (address f) (server_fd f) (client_uds_path f) (dirs f) (threads f) (trace f).

Definition with_inodes (m : gmap (Z * Z) Z) (f : Fs) : Fs :=
  MkFs m (objs f) (next_obj f) (root f) (timeout f) (fs_src_dev f) (nosplice f) (source f) (idroot f)
    (address f) (server_fd f) (client_uds_path f) (dirs f) (threads f) (trace f).

Definition with_root (r : Inode) (f : Fs) : Fs :=
  MkFs (inodes f) (objs f) (next_obj f) r (timeout f) (fs_src_dev f) (nosplice f) (source f) (idroot f)
    (address f) (server_fd f) (client_uds_path f) (dirs f) (threads f) (trace f).

Definition with_next_obj (n : Z) (f : Fs) : Fs :=
  MkFs (inodes f) (objs f) n (root f) (timeout f) (fs_src_dev f) (nosplice f) (source f) (idroot f)
    (address f) (server_fd f) (client_uds_path f) (dirs f) (threads f) (trace f).

Definition with_dirs (d : gmap Z DirHandle) (f : Fs) : Fs :=
  MkFs (inodes f) (objs f) (next_obj f) (root f) (timeout f) (fs_src_dev f) (nosplice f) (source f) (idroot f)
    (address f) (server_fd f) (client_uds_path f) d (threads f) (trace f).

Definition with_threads (t : list download_info) (f : Fs) : Fs :=
  MkFs (inodes f) (objs f) (next_obj f) (root f) (timeout f) (fs_src_dev f) (nosplice f) (source f) (idroot f)
    (address f) (server_fd f) (client_uds_path f) (dirs f) t (trace f).

Definition with_trace (t : list (syscall * sysres)) (f : Fs) : Fs :=
  MkFs (inodes f) (objs f) (next_obj f) (root f) (timeout f) (fs_src_dev f) (nosplice f) (source f) (idroot f)
    (address f) (server_fd f) (client_uds_path f) (dirs f) (threads f) t.

(** [timeout] as a C truth value. *)
Definition cached (f : Fs) : bool := negb (SFeqb (timeout f) (S754_zero false)).

(** ** Constants *)

Definition FUSE_ROOT_ID : Z := 1.
Definition PATH_MAX : Z := 4096.
Definition O_RDONLY : Z := 0.
Definition O_WRONLY : Z := 1.
Definition O_RDWR : Z := 2.
Definition O_ACCMODE : Z := 3.
Definition O_CREAT : Z := 64.
Definition O_APPEND : Z := 1024.
Definition O_NOFOLLOW : Z := 131072.
Definition O_PATH : Z := 2097152.
Definition AT_REMOVEDIR : Z := 512.
Definition S_IFDIR : Z := 16384.
Definition S_IFLNK : Z := 40960.
Definition UTIME_NOW : Z := 1073741823.
Definition UTIME_OMIT : Z := 1073741822.

Definition S_ISDIR (mode : Z) : bool := Z.land mode S_IFMT =? S_IFDIR.
Definition S_ISLNK (mode : Z) : bool := Z.land mode S_IFMT =? S_IFLNK.

(** The [%i] of a descriptor, and the path through which it can be opened. *)
Definition decimal_int (z : Z) : bytes := if z <? 0 then lit "-" ++ decimal (- z) else decimal z.
Definition proc_path (fd : Z) : bytes := lit "/proc/self/fd/" ++ decimal_int fd.

(** [strrchr]: the index of the last occurrence. *)
Fixpoint strrchr (s : bytes) (c : Z) : option nat :=
  match s with
  | [] => None
  | x :: s => match strrchr s c with
              | Some i => Some (S i)
              | None => if x =? c then Some O else None
              end
  end.

(** [strncmp(s, t, sizeof(t)) == 0] for a literal [t]: the terminating NUL is
    compared too. *)
Definition f3_is_id_ext (name : bytes) : bool :=
  match strrchr name 46 with
  | Some i => streq (drop (S i) name) (lit "id")
  | None => false
  end.

Definition is_dot_or_dotdot (name : bytes) : bool :=
  (char_at name 0 =? 46) &&
  ((char_at name 1 =? 0) || ((char_at name 1 =? 46) && (char_at name 2 =? 0))).

(** [INODE(i)] *)
Definition INODE (i : Inode) : Z := if is_id i then id_fd i else fd i.

Section F3.
Context {OS : Type} `{FdOps OS} `{DevOps OS} `{Posix OS}.
Context (fuel : nat).

Abbreviation M := (ST (LL OS Fs)).

Definition posix (c : syscall) : M sysres := fun s =>
  let w := mach s in
  let '(o, r) := posix_call c (os w) in
  Some (r, MkLL (se s) (reqs s) (nreqs s) (lks s) (chans s) (fresh s) (LowLevel.heap s)
             (World o (ram w) (brk w)) (sent s) (with_trace (trace (user s) ++ [(c, r)]) (user s))).

Definition get_fs : M Fs := s ← get; mret (user s).

(** An action whose result is not used. *)
Definition ign {A} (m : M A) : M unit := _ ← m; mret tt.

Definition F3_REPLY_ERR (req err : Z) : M unit := ign (fuse_reply_err req err).

(** ** Inodes *)

(** The object at an address; [None] of the map is a dangling pointer. *)
Definition read_obj (p : Z) : M Inode :=
  f ← get_fs;
  if p =? FUSE_ROOT_ID then mret (root f) else of_option (objs f !! p).

Definition write_obj (p : Z) (i : Inode) : M unit :=
  set_user (fun f => if p =? FUSE_ROOT_ID then with_root i f else with_objs (<[p := i]> (objs f)) f).

(** A reference to an inode: its address and its current fields. *)
Definition get_inode (ino : Z) : M Inode :=
  i ← read_obj ino;
  if negb (ino =? FUSE_ROOT_ID) && (fd i =? -1) then abort else mret i.

Definition get_fs_fd (ino : Z) : M Z := i ← get_inode ino; mret (fd i).
Definition get_fs_id_fd (ino : Z) : M Z := i ← get_inode ino; mret (id_fd i).

Definition set_nlookup (n : Z) (i : Inode) : Inode :=
  MkInode (fd i) (id_fd i) (src_dev i) (src_ino i) (generation i) (nopen i) n (is_id i)
    (needs_download i) (servers i) (fname i) (client_fd i) (download_done i) (size i) (target_size i).

Definition set_nopen (n : Z) (i : Inode) : Inode :=
  MkInode (fd i) (id_fd i) (src_dev i) (src_ino i) (generation i) n (nlookup i) (is_id i)
    (needs_download i) (servers i) (fname i) (client_fd i) (download_done i) (size i) (target_size i).

Definition set_src (ino dev : Z) (i : Inode) : Inode :=
  MkInode (fd i) (id_fd i) dev ino (generation i) (nopen i) (nlookup i) (is_id i)
    (needs_download i) (servers i) (fname i) (client_fd i) (download_done i) (size i) (target_size i).

Definition set_fd (x : Z) (i : Inode) : Inode :=
  MkInode x (id_fd i) (src_dev i) (src_ino i) (generation i) (nopen i) (nlookup i) (is_id i)
    (needs_download i) (servers i) (fname i) (client_fd i) (download_done i) (size i) (target_size i).

Definition set_id_fd (x : Z) (i : Inode) : Inode :=
  MkInode (fd i) x (src_dev i) (src_ino i) (generation i) (nopen i) (nlookup i) (is_id i)
    (needs_download i) (servers i) (fname i) (client_fd i) (download_done i) (size i) (target_size i).

Definition set_is_id (b : bool) (i : Inode) : Inode :=
  MkInode (fd i) (id_fd i) (src_dev i) (src_ino i) (generation i) (nopen i) (nlookup i) b
    (needs_download i) (servers i) (fname i) (client_fd i) (download_done i) (size i) (target_size i).

Definition set_generation (g : Z) (i : Inode) : Inode :=
  MkInode (fd i) (id_fd i) (src_dev i) (src_ino i) g (nopen i) (nlookup i) (is_id i)
    (needs_download i) (servers i) (fname i) (client_fd i) (download_done i) (size i) (target_size i).

Definition set_download (fn sv : bytes) (cfd : Z) (i : Inode) : Inode :=
  MkInode (fd i) (id_fd i) (src_dev i) (src_ino i) (generation i) (nopen i) (nlookup i) (is_id i)
    true sv fn cfd (download_done i) (size i) (target_size i).

Definition set_size (n : Z) (i : Inode) : Inode :=
  MkInode (fd i) (id_fd i) (src_dev i) (src_ino i) (generation i) (nopen i) (nlookup i) (is_id i)
    (needs_download i) (servers i) (fname i) (client_fd i) (download_done i) n (target_size i).

Definition set_target_size (n : Z) (i : Inode) : Inode :=
  MkInode (fd i) (id_fd i) (src_dev i) (src_ino i) (generation i) (nopen i) (nlookup i) (is_id i)
    (needs_download i) (servers i) (fname i) (client_fd i) (download_done i) (size i) n.

Definition set_download_done (n : Z) (i : Inode) : Inode :=
  MkInode (fd i) (id_fd i) (src_dev i) (src_ino i) (generation i) (nopen i) (nlookup i) (is_id i)
    (needs_download i) (servers i) (fname i) (client_fd i) n (size i) (target_size i).

(** [inode.field = v] through a reference. *)
Definition update (p : Z) (g : Inode -> Inode) : M unit := i ← read_obj p; write_obj p (g i).

(** [fs.inodes[id]]: the address of the entry, created if there is none; [None]
    is [std::bad_alloc]. *)
Definition inodes_at (id : Z * Z) : M (option Z) :=
  f ← get_fs;
  match inodes f !! id with
  | Some p => mret (Some p)
  | None =>
      ok ← LowLevel.malloc;
      if negb ok then mret None else
      let p := next_obj f in
      _ ← set_user (fun f => with_next_obj (p + 64) (with_inodes (<[id := p]> (inodes f))
                               (with_objs (<[p := Inode0]> (objs f)) f)));
      mret (Some p)
  end.

(** [fs.inodes.erase(id)], with the destructor of the entry. *)
Definition inodes_erase (id : Z * Z) : M unit :=
  f ← get_fs;
  match inodes f !! id with
  | None => mret tt
  | Some p =>
      i ← of_option (objs f !! p);
      _ ← (if 0 <? fd i then ign (posix (Close (fd i))) else mret tt);
      set_user (fun f => with_inodes (delete id (inodes f)) (with_objs (delete p (objs f)) f))
  end.
(** ** The download client: fuse/uds_client.cc *)

(** [snprintf] into a buffer of [size] bytes, then [write] of the length it
    returned: reading past the buffer is an abort. *)
Definition write_formatted (wfd size : Z) (text : bytes) : M sysres :=
  let len := length text in
  if size <? Z.of_nat len then abort else
  posix (Write wfd (take len (take (Z.to_nat size - 1) text ++ [0]))).

(** The path is copied into the 108 bytes of [sun_path]. *)
Definition setup_conn (uds_path : bytes) : M Z :=
  r ← posix Socket;
  if rv r =? -1 then mret (- errno r) else
  c ← posix (Connect (rv r) (take 107 uds_path));
  if rv c =? -1 then mret (- errno c) else mret (rv r).

Definition send_fname_done (wfd : Z) (fname : bytes) : M Z :=
  r ← write_formatted wfd PATH_MAX (fname ++ [10]);
  mret (if rv r <? 0 then -1 else 0).

Definition download_request (path : bytes) (end_byte : Z) (srv : bytes) : bytes :=
  path ++ lit "," ++ decimal end_byte ++ lit "," ++ srv ++ [10].

Definition download_file (wfd : Z) (path srv : bytes) (end_byte : Z) : M Z :=
  w ← write_formatted wfd 100 (download_request path end_byte srv);
  if rv w <? 0 then mret (- errno w) else
  r ← posix (Read wfd 100);
  if rv r <? 0 then mret (- errno r) else
  let buf := rdata r ++ replicate (100 - length (rdata r)) 0 in
  if char_at buf 0 =? 78 then mret (-1) else mret (strtol (cstr (drop 2 buf))).

(** The body of a download thread, run at some time after [sfs_open] started
    it. *)
Definition download_file_thread (d : download_info) : M unit :=
  _ ← download_file (dl_fd d) (dl_path d) (dl_servers d) (dl_end_byte d);
  update (dl_inode d) (set_download_done 1).

(** ** Attributes of ID files *)

(** [fd] may be an [O_PATH] descriptor, which has to be opened again. *)
Definition f3_get_full_fd (ofd mode : Z) : M Z := r ← posix (Open (proc_path ofd) mode); mret (rv r).

(** -1, or 0 and the path. *)
Definition f3_get_rel_path (ofd : Z) : M (Z * bytes) :=
  r ← posix (Readlink (proc_path ofd) PATH_MAX);
  mret (if rv r <? 0 then (-1, []) else (0, cstr (rdata r))).

Definition f3_mark_as_id (ofd : Z) (root_dir_len : nat) : M Z :=
  newfd ← f3_get_full_fd ofd O_RDONLY;
  if newfd =? -1 then mret 0 else
  f ← get_fs;
  r1 ← posix (Fsetxattr newfd (lit "user.f3.id") (lit "true" ++ [0]));
  res ← (if rv r1 =? -1 then mret (rv r1) else
         r2 ← posix (Fsetxattr newfd (lit "user.f3.servers") (cstr (address f)));
         if rv r2 =? -1 then mret (rv r2) else
         rel ← f3_get_rel_path newfd;
         if rel.1 <? 0 then mret rel.1 else
         r3 ← posix (Fsetxattr ofd (lit "user.f3.filepath") (drop root_dir_len rel.2));
         mret (rv r3));
  _ ← posix (Close newfd);
  mret res.

Definition f3_mark_write_done (ofd : Z) : M Z :=
  newfd ← f3_get_full_fd ofd O_RDONLY;
  if newfd =? -1 then mret 0 else
  r ← posix (Fsetxattr newfd (lit "user.f3.writedone") (lit "done" ++ [0]));
  _ ← posix (Close newfd);
  mret (rv r).

(** The size of the attribute, 0 if it is not there. *)
Definition f3_is_id (ofd : Z) : M Z :=
  newfd ← f3_get_full_fd ofd O_RDONLY;
  if newfd =? -1 then mret 0 else
  r ← posix (Fgetxattr newfd (lit "user.f3.id") 10);
  _ ← posix (Close newfd);
  mret (if rv r <? 0 then 0 else rv r).

Definition f3_is_new_id (parent : Z) (name : bytes) : M bool :=
  ip ← get_inode parent;
  r ← f3_is_id (fd ip);
  mret ((0 <? r) || f3_is_id_ext name).

(** The attribute as it lies in the zeroed buffer of the caller. *)
Definition get_attr (ofd : Z) (name : bytes) (sz : Z) : M bytes :=
  newfd ← f3_get_full_fd ofd O_RDONLY;
  if newfd =? -1 then mret [] else
  r ← posix (Fgetxattr newfd name sz);
  _ ← posix (Close newfd);
  mret (if rv r <? 0 then [] else rdata r).

Definition f3_get_servers (ofd sz : Z) : M bytes := get_attr ofd (lit "user.f3.servers") sz.
Definition f3_get_filepath (ofd sz : Z) : M bytes := get_attr ofd (lit "user.f3.filepath") sz.

Definition f3_update_size_xattr (ofd sz : Z) : M unit :=
  newfd ← f3_get_full_fd ofd O_RDONLY;
  if newfd =? -1 then mret tt else
  _ ← posix (Fsetxattr newfd (lit "user.f3.size") (decimal sz));
  ign (posix (Close newfd)).

(** A failed read leaves the zeroed buffer, which is the number 0. *)
Definition f3_get_size_xattr (ofd : Z) : M Z :=
  newfd ← f3_get_full_fd ofd O_RDONLY;
  if newfd =? -1 then mret 0 else
  r ← posix (Fgetxattr newfd (lit "user.f3.size") 23);
  _ ← posix (Close newfd);
  mret (u64 (strtol (cstr (if rv r <? 0 then [] else rdata r)))).

(** The copying loop; returns the result that ended it. *)
Fixpoint sendfile_loop (n : nat) (out_fd in_fd off : Z) : M sysres :=
  match n with
  | O => abort
  | S n => r ← posix (Sendfile out_fd in_fd off 4096);
           if 0 <? i32 (rv r) then sendfile_loop n out_fd in_fd (off + rv r) else mret r
  end.

Definition f3_make_id_fs (ino : Z) : M Z :=
  i ← get_inode ino;
  fs_fd ← f3_get_full_fd (fd i) O_RDWR;
  idfd ← f3_get_full_fd (id_fd i) O_RDWR;
  r ← sendfile_loop fuel fs_fd idfd 0;
  saverr ← (if i32 (rv r) =? -1 then mret (errno r) else
            t ← posix (Ftruncate idfd 0);
            _ ← update ino (set_is_id false);
            mret (if rv t <? 0 then errno t else 0));
  _ ← posix (Close fs_fd);
  _ ← posix (Close idfd);
  mret saverr.

(** ** Capabilities *)

(** [if (cond && conn->capable & cap) conn->want |= cap] *)
Definition ask (cond : bool) (cap : Z) (c : fuse_conn_info) (w : Z) : Z :=
  if cond && has (capable c) cap then Z.lor w cap else w.

Definition sfs_init (c : fuse_conn_info) : M fuse_conn_info :=
  f ← get_fs;
  let w := ask true FUSE_CAP_EXPORT_SUPPORT c (want c) in
  let w := ask (cached f) FUSE_CAP_WRITEBACK_CACHE c w in
  let w := ask true FUSE_CAP_FLOCK_LOCKS c w in
  let w := ask (negb (nosplice f)) FUSE_CAP_SPLICE_WRITE c w in
  let w := ask (negb (nosplice f)) FUSE_CAP_SPLICE_READ c w in
  mret (with_want w c).

(** ** Attributes *)

Definition with_st_size (n : Z) (a : stat) : stat :=
  Stat (st_dev a) (st_ino a) (st_mode a) (st_nlink a) (st_uid a) (st_gid a) (st_rdev a) n
    (st_blksize a) (st_blocks a) (st_atime a) (st_mtime a) (st_ctime a)
    (st_atimensec a) (st_mtimensec a) (st_ctimensec a).

Definition sfs_getattr (req ino : Z) (fi : option fuse_file_info) : M unit :=
  i ← get_inode ino;
  r ← posix (Fstatat (INODE i));
  if rv r =? -1 then F3_REPLY_ERR req (errno r) else
  let attr := if is_id i && (st_size (rstat r) <? i64 (target_size i))
              then with_st_size (i64 (target_size i)) (rstat r) else rstat r in
  f ← get_fs;
  ign (fuse_reply_attr req attr (timeout f)).

(** One step of [do_setattr]: skipped, or a call that may end it. *)
Definition setattr_step (cond : bool) (c : syscall) (k : M (option Z)) : M (option Z) :=
  if cond then r ← posix c; if rv r =? -1 then mret (Some (errno r)) else k else k.

Definition times (valid : Z) (attr : stat) : (Z * Z) * (Z * Z) :=
  (if has valid FUSE_SET_ATTR_ATIME_NOW then (0, UTIME_NOW)
   else if has valid FUSE_SET_ATTR_ATIME then (st_atime attr, st_atimensec attr) else (0, UTIME_OMIT),
   if has valid FUSE_SET_ATTR_MTIME_NOW then (0, UTIME_NOW)
   else if has valid FUSE_SET_ATTR_MTIME then (st_mtime attr, st_mtimensec attr) else (0, UTIME_OMIT)).

Definition do_setattr (req ino : Z) (attr : stat) (valid : Z) (fi : option fuse_file_info) : M unit :=
  i ← get_inode ino;
  let ifd := INODE i in
  let via f p := match fi with Some x => f (i32 (fi_fh x)) | None => p (proc_path ifd) end in
  let newuid := if has valid FUSE_SET_ATTR_UID then st_uid attr else 2 ^ 32 - 1 in
  let newgid := if has valid FUSE_SET_ATTR_GID then st_gid attr else 2 ^ 32 - 1 in
  let tv := times valid attr in
  err ← setattr_step (has valid FUSE_SET_ATTR_MODE)
          (via (fun h => Fchmod h (st_mode attr)) (fun q => Chmod q (st_mode attr)))
       (setattr_step (has valid (Z.lor FUSE_SET_ATTR_UID FUSE_SET_ATTR_GID)) (Fchownat ifd newuid newgid)
       (setattr_step (has valid FUSE_SET_ATTR_SIZE)
          (via (fun h => Ftruncate h (st_size attr)) (fun q => Truncate q (st_size attr)))
       (setattr_step (has valid (Z.lor FUSE_SET_ATTR_ATIME FUSE_SET_ATTR_MTIME))
          (via (fun h => Futimens h tv.1 tv.2) (fun q => Utimensat q tv.1 tv.2))
       (mret None))));
  match err with
  | Some e => F3_REPLY_ERR req e
  | None => sfs_getattr req ino fi
  end.

Definition sfs_setattr := do_setattr.
(** ** Lookup *)

(** The local placeholder of a node that is not in the cache yet; a file that
    is an ID is prepared for downloading (the allocation of its two strings is
    taken to succeed). *)
Definition make_placeholder (p parent : Z) (name : bytes) (mode : Z) : M Z :=
  if S_ISDIR mode then
    dfd ← get_fs_id_fd parent;
    _ ← posix (Mkdirat dfd name mode);
    r ← posix (Openat dfd name (Z.lor O_PATH O_NOFOLLOW) 0);
    mret (rv r)
  else
    dfd ← get_fs_id_fd parent;
    c ← posix (Openat dfd name (Z.land O_CREAT (Z.lnot O_NOFOLLOW)) mode);
    _ ← posix (Close (rv c));
    r ← posix (Openat dfd name (Z.lor O_PATH O_NOFOLLOW) 0);
    i ← read_obj p;
    _ ← (if is_id i then
           fn ← f3_get_filepath (fd i) PATH_MAX;
           sv ← f3_get_servers (fd i) 100;
           f ← get_fs;
           cfd ← setup_conn (client_uds_path f);
           update p (set_download fn sv cfd)
         else mret tt);
    mret (rv r).

(** The new inode [p] for the node that [newfd] refers to. *)
Definition fill_inode (p parent : Z) (name : bytes) (attr : stat) (newfd : Z) : M unit :=
  _ ← update p (fun i => set_fd newfd (set_nlookup (u64 (nlookup i + 1)) (set_src (st_ino attr) (st_dev attr) i)));
  new_id ← f3_is_new_id parent name;
  _ ← (if (new_id : bool) then update p (set_is_id true) else mret tt);
  dfd ← get_fs_id_fd parent;
  r ← posix (Openat dfd name (Z.lor O_PATH O_NOFOLLOW) 0);
  idfd ← (if (rv r =? -1) && (errno r =? ENOENT) then make_placeholder p parent name (st_mode attr)
          else mret (rv r));
  update p (set_id_fd idfd).

(** The attributes the kernel is told: those of the cached file for an ID, with
    the size the producer recorded if that is larger. *)
Definition lookup_attr (p newfd : Z) (e : fuse_entry_param) : M (Z * fuse_entry_param) :=
  i ← read_obj p;
  if negb (is_id i) then mret (0, e) else
  r ← posix (Fstatat (id_fd i));
  if rv r =? -1 then
    _ ← posix (Close newfd); mret (errno r, e)
  else
    xs ← f3_get_size_xattr (fd i);
    let a := if st_size (rstat r) <? i64 xs then with_st_size (i64 xs) (rstat r) else rstat r in
    _ ← update p (set_src (st_ino a) (st_dev a));
    mret (0, EntryParam (e_ino e) (e_generation e) a (e_attr_timeout e) (e_entry_timeout e)).

(** The error, 0 on success, and the entry. *)
Definition do_lookup (parent : Z) (name : bytes) : M (Z * fuse_entry_param) :=
  f ← get_fs;
  let e0 := EntryParam 0 0 stat0 (timeout f) (timeout f) in
  dfd ← get_fs_fd parent;
  o ← posix (Openat dfd name (Z.lor O_PATH O_NOFOLLOW) 0);
  if rv o =? -1 then mret (errno o, e0) else
  let newfd := rv o in
  r ← posix (Fstatat newfd);
  if rv r =? -1 then _ ← posix (Close newfd); mret (errno r, e0) else
  let attr := rstat r in
  let e1 := EntryParam 0 0 attr (timeout f) (timeout f) in
  if negb (st_dev attr =? fs_src_dev f) then mret (ENOTSUP, e1) else
  if st_ino attr =? FUSE_ROOT_ID then mret (EIO, e1) else
  p ← inodes_at (st_ino attr, st_dev attr);
  match p with
  | None => mret (ENOMEM, e1)
  | Some p =>
      i ← read_obj p;
      let e2 := EntryParam p (generation i) attr (timeout f) (timeout f) in
      _ ← (if 0 <? fd i then
             _ ← update p (fun i => set_nlookup (u64 (nlookup i + 1)) i);
             ign (posix (Close newfd))
           else fill_inode p parent name attr newfd);
      lookup_attr p newfd e2
  end.

(** A negative entry is cached like a positive one. *)
Definition sfs_lookup (req parent : Z) (name : bytes) : M unit :=
  r ← do_lookup parent name;
  let '(err, e) := r in
  if err =? ENOENT then
    f ← get_fs;
    let a := e_attr e in
    ign (fuse_reply_entry req (EntryParam 0 (e_generation e)
      (Stat (st_dev a) 0 (st_mode a) (st_nlink a) (st_uid a) (st_gid a) (st_rdev a) (st_size a)
         (st_blksize a) (st_blocks a) (st_atime a) (st_mtime a) (st_ctime a)
         (st_atimensec a) (st_mtimensec a) (st_ctimensec a)) (timeout f) (timeout f)))
  else if negb (err =? 0) then F3_REPLY_ERR req err
  else ign (fuse_reply_entry req e).

(** ** Creating and removing names *)

(** Mark the new directory as an ID in both trees. *)
Definition mark_dir (ip : Inode) (name : bytes) : M unit :=
  f ← get_fs;
  a ← posix (Openat (fd ip) name (Z.lor O_PATH O_NOFOLLOW) 0);
  _ ← f3_mark_as_id (rv a) (length (source f));
  _ ← posix (Close (rv a));
  b ← posix (Openat (id_fd ip) name (Z.lor O_PATH O_NOFOLLOW) 0);
  _ ← f3_mark_as_id (rv b) (length (idroot f));
  ign (posix (Close (rv b))).

(** The calls before the lookup; the error of the one that failed. *)
Definition mknod_trees (parent : Z) (name : bytes) (mode rdev : Z) (link : bytes) : M (option Z) :=
  ip ← get_inode parent;
  r ← posix (if S_ISDIR mode then Mkdirat (fd ip) name mode
             else if S_ISLNK mode then Symlinkat link (fd ip) name
             else Mknodat (fd ip) name mode rdev);
  if rv r =? -1 then mret (Some (errno r)) else
  if S_ISDIR mode then
    r ← posix (Mkdirat (id_fd ip) name mode);
    if rv r =? -1 then mret (Some (errno r)) else
    new_id ← f3_is_new_id parent name;
    _ ← (if (new_id : bool) then mark_dir ip name else mret tt);
    mret None
  else if S_ISLNK mode then
    r ← posix (Symlinkat link (id_fd ip) name);
    mret (if rv r =? -1 then Some (errno r) else None)
  else mret None.

Definition mknod_symlink (req parent : Z) (name : bytes) (mode rdev : Z) (link : bytes) : M unit :=
  err ← mknod_trees parent name mode rdev link;
  match err with
  | Some e => F3_REPLY_ERR req e
  | None =>
      r ← do_lookup parent name;
      if negb (r.1 =? 0) then F3_REPLY_ERR req r.1 else ign (fuse_reply_entry req r.2)
  end.

Definition sfs_mknod (req parent : Z) (name : bytes) (mode rdev : Z) : M unit :=
  mknod_symlink req parent name mode rdev [].

Definition sfs_mkdir (req parent : Z) (name : bytes) (mode : Z) : M unit :=
  mknod_symlink req parent name (Z.lor S_IFDIR mode) 0 [].

Definition sfs_symlink (req : Z) (link : bytes) (parent : Z) (name : bytes) : M unit :=
  mknod_symlink req parent name S_IFLNK 0 link.

(** The entry carries the address of the inode object, which is the node number
    for every node but the root; the root is a directory, for which linkat
    fails. *)
Definition sfs_link (req ino parent : Z) (name : bytes) : M unit :=
  i ← get_inode ino;
  ip ← get_inode parent;
  f ← get_fs;
  r ← posix (Linkat (proc_path (fd i)) (fd ip) name);
  if rv r =? -1 then F3_REPLY_ERR req (errno r) else
  r ← posix (Linkat (proc_path (id_fd i)) (id_fd ip) name);
  if rv r =? -1 then F3_REPLY_ERR req (errno r) else
  r ← posix (Fstatat (INODE i));
  if rv r =? -1 then F3_REPLY_ERR req (errno r) else
  _ ← update ino (fun i => set_nlookup (u64 (nlookup i + 1)) i);
  ign (fuse_reply_entry req (EntryParam ino 0 (rstat r) (timeout f) (timeout f))).

Definition sfs_rmdir (req parent : Z) (name : bytes) : M unit :=
  ip ← get_inode parent;
  r ← posix (Unlinkat (fd ip) name AT_REMOVEDIR);
  _ ← (if rv r =? -1 then F3_REPLY_ERR req (errno r) else mret tt);
  r ← posix (Unlinkat (id_fd ip) name AT_REMOVEDIR);
  F3_REPLY_ERR req (if rv r =? -1 then errno r else 0).

Definition sfs_rename (req parent : Z) (name : bytes) (newparent : Z) (newname : bytes) (flags : Z) : M unit :=
  ip ← get_inode parent;
  np ← get_inode newparent;
  if negb (flags =? 0) then F3_REPLY_ERR req EINVAL else
  r ← posix (Renameat (fd ip) name (fd np) newname);
  _ ← (if rv r =? -1 then F3_REPLY_ERR req (errno r) else mret tt);
  r ← posix (Renameat (id_fd ip) name (id_fd np) newname);
  F3_REPLY_ERR req (if rv r =? -1 then errno r else 0).

(** Without a cache timeout the descriptors of a file that loses its last name
    are given back, unless it is open; the error of the lookup, or 0. *)
Definition unlink_release (parent : Z) (name : bytes) : M Z :=
  r ← do_lookup parent name;
  if negb (r.1 =? 0) then mret r.1 else
  _ ← (if st_nlink (e_attr r.2) =? 1 then
         let p := e_ino r.2 in
         i ← get_inode p;
         if (0 <? fd i) && (nopen i =? 0) then
           _ ← posix (Close (fd i));
           _ ← posix (Close (id_fd i));
           update p (fun i => set_generation (i32 (generation i + 1)) (set_id_fd (- ENOENT) (set_fd (- ENOENT) i)))
         else mret tt
       else mret tt);
  mret 0.

Definition sfs_unlink (req parent : Z) (name : bytes) : M unit :=
  ip ← get_inode parent;
  f ← get_fs;
  err ← (if negb (cached f) then unlink_release parent name else mret 0);
  if negb (err =? 0) then F3_REPLY_ERR req err else
  r ← posix (Unlinkat (fd ip) name 0);
  _ ← (if rv r =? -1 then F3_REPLY_ERR req (errno r) else mret tt);
  r ← posix (Unlinkat (id_fd ip) name 0);
  _ ← (if rv r =? -1 then F3_REPLY_ERR req (errno r) else mret tt);
  F3_REPLY_ERR req 0.

(** ** Forget *)

Definition forget_one (ino n : Z) : M unit :=
  i ← get_inode ino;
  if nlookup i <? n then abort else
  _ ← update ino (set_nlookup (nlookup i - n));
  if nlookup i - n =? 0 then inodes_erase (src_ino i, src_dev i) else mret tt.

Definition sfs_forget (req ino n : Z) : M unit :=
  _ ← forget_one ino n; fuse_reply_none req.

Fixpoint forget_all (forgets : list (Z * Z)) : M unit :=
  match forgets with
  | [] => mret tt
  | (ino, n) :: forgets => _ ← forget_one ino n; forget_all forgets
  end.

Definition sfs_forget_multi (req : Z) (forgets : list (Z * Z)) : M unit :=
  _ ← forget_all forgets; fuse_reply_none req.

Definition sfs_readlink (req ino : Z) : M unit :=
  i ← get_inode ino;
  r ← posix (Readlinkat (INODE i) (PATH_MAX + 1));
  if rv r =? -1 then F3_REPLY_ERR req (errno r)
  else if rv r =? PATH_MAX + 1 then F3_REPLY_ERR req ENAMETOOLONG
  else ign (fuse_reply_readlink req (cstr (rdata r))).

(** ** Directories *)

Definition get_dir_handle (fi : fuse_file_info) : M DirHandle :=
  f ← get_fs; of_option (dirs f !! fi_fh fi).

Definition put_dir (h : Z) (d : DirHandle) : M unit :=
  set_user (fun f => with_dirs (<[h := d]> (dirs f)) f).

Definition sfs_opendir (req ino : Z) (fi : fuse_file_info) : M unit :=
  i ← get_inode ino;
  ok ← LowLevel.malloc;
  if negb ok then F3_REPLY_ERR req ENOMEM else
  o ← posix (Openat (INODE i) (lit ".") O_RDONLY 0);
  if rv o =? -1 then F3_REPLY_ERR req (errno o) else
  d ← posix (Fdopendir (rv o));
  if rv d =? 0 then F3_REPLY_ERR req (errno d) else
  f ← get_fs;
  let h := next_obj f in
  _ ← set_user (fun f => with_next_obj (h + 64) (with_dirs (<[h := MkDir (rv d) 0]> (dirs f)) f));
  let fi := with_fh h fi in
  let fi := if cached f then with_cache_readdir true (with_keep_cache true fi) else fi in
  ign (fuse_reply_open req fi).

(** One entry of the listing: its size and bytes, [None] if it does not fit, or
    an error.  An entry that does not fit gives its lookup back. *)
Definition readdir_entry (ino rem : Z) (plus : bool) (e : dirent) : M (Z + option (Z * bytes)) :=
  if plus then
    r ← do_lookup ino (d_name e);
    if negb (r.1 =? 0) then mret (inl r.1) else
    match fuse_add_direntry_plus true rem (d_name e) r.2 (d_off e) with
    | (n, Some b) => mret (inr (Some (n, b)))
    | (_, None) => _ ← forget_one (e_ino r.2) 1; mret (inr None)
    end
  else
    let a := Stat 0 (d_ino e) (Z.shiftl (d_type e) 12) 0 0 0 0 0 0 0 0 0 0 0 0 0 in
    match fuse_add_direntry true rem (d_name e) a (d_off e) with
    | (n, Some b) => mret (inr (Some (n, b)))
    | (_, None) => mret (inr None)
    end.

(** The loop over the directory stream: the error, the room left and what has
    been written. *)
Fixpoint readdir_loop (n : nat) (ino h : Z) (plus : bool) (rem : Z) (out : bytes)
    : M (Z * Z * bytes) :=
  match n with
  | O => abort
  | S n =>
      f ← get_fs;
      d ← of_option (dirs f !! h);
      r ← posix (Readdir (dp d));
      match rent r with
      | None => mret (errno r, rem, out)
      | Some e =>
          _ ← put_dir h (MkDir (dp d) (d_off e));
          if is_dot_or_dotdot (d_name e) then readdir_loop n ino h plus rem out else
          x ← readdir_entry ino rem plus e;
          match x with
          | inl err => mret (err, rem, out)
          | inr None => mret (0, rem, out)
          | inr (Some (sz, b)) => readdir_loop n ino h plus (rem - sz) (out ++ b)
          end
      end
  end.

Definition do_readdir (req ino size off : Z) (fi : fuse_file_info) (plus : bool) : M unit :=
  _ ← get_inode ino;
  ok ← LowLevel.malloc;
  if negb ok then F3_REPLY_ERR req ENOMEM else
  d ← get_dir_handle fi;
  _ ← (if negb (off =? offset d) then
         _ ← posix (Seekdir (dp d) off); put_dir (fi_fh fi) (MkDir (dp d) off)
       else mret tt);
  r ← readdir_loop fuel ino (fi_fh fi) plus size [];
  let '(err, rem, out) := r in
  if negb (err =? 0) && (rem =? size) then F3_REPLY_ERR req err
  else ign (fuse_reply_buf req out).

Definition sfs_readdir (req ino size off : Z) (fi : fuse_file_info) : M unit :=
  do_readdir req ino size off fi false.

Definition sfs_readdirplus (req ino size off : Z) (fi : fuse_file_info) : M unit :=
  do_readdir req ino size off fi true.

Definition sfs_releasedir (req ino : Z) (fi : fuse_file_info) : M unit :=
  d ← get_dir_handle fi;
  _ ← posix (Closedir (dp d));
  _ ← set_user (fun f => with_dirs (delete (fi_fh fi) (dirs f)) f);
  ign (fuse_reply_err req 0).

(** [res == -1 ? errno : 0] *)
Definition reply_result (req : Z) (r : sysres) : M unit :=
  F3_REPLY_ERR req (if rv r =? -1 then errno r else 0).

Definition sfs_fsyncdir (req ino datasync : Z) (fi : fuse_file_info) : M unit :=
  d ← get_dir_handle fi;
  dfd ← posix (Dirfd (dp d));
  r ← posix (if negb (datasync =? 0) then Fdatasync (rv dfd) else Fsync (rv dfd));
  reply_result req r.

(** ** Files *)

Definition create_flags (flags : Z) : Z := Z.land (Z.lor flags O_CREAT) (Z.lnot O_NOFOLLOW).

(** The file is created in both trees; an ID is written through the cache. *)
Definition sfs_create (req parent : Z) (name : bytes) (mode : Z) (fi : fuse_file_info) : M unit :=
  ip ← get_inode parent;
  a ← posix (Openat (fd ip) name (create_flags (fi_flags fi)) mode);
  if rv a =? -1 then F3_REPLY_ERR req (errno a) else
  b ← posix (Openat (id_fd ip) name (create_flags (fi_flags fi)) mode);
  if rv b =? -1 then F3_REPLY_ERR req (errno b) else
  new_id ← f3_is_new_id parent name;
  f ← get_fs;
  fh ← (if (new_id : bool) then
          _ ← f3_mark_as_id (rv a) (length (source f));
          _ ← f3_mark_as_id (rv b) (length (idroot f));
          _ ← posix (Close (rv a));
          mret (rv b)
        else mret (rv a));
  r ← do_lookup parent name;
  if negb (r.1 =? 0) then F3_REPLY_ERR req r.1 else
  _ ← get_inode (e_ino r.2);
  _ ← update (e_ino r.2) (fun i => set_nopen (u64 (nopen i + 1)) i);
  ign (fuse_reply_create req r.2 (with_fh (u64 fh) fi)).

(** With the writeback cache the kernel reads files opened for writing and
    handles [O_APPEND]. *)
Definition open_flags (cache : bool) (flags : Z) : Z :=
  let flags := if cache && (Z.land flags O_ACCMODE =? O_WRONLY)
               then Z.lor (Z.land flags (Z.lnot O_ACCMODE)) O_RDWR else flags in
  if cache && has flags O_APPEND then Z.land flags (Z.lnot O_APPEND) else flags.

(** Start the thread that downloads the file; [strdup] is taken to succeed. *)
Definition start_download (ino : Z) (i : Inode) : M unit :=
  path ← f3_get_filepath (fd i) PATH_MAX;
  srv ← f3_get_servers (fd i) 100;
  ok ← LowLevel.malloc;
  if negb ok then abort else
  t ← posix Pthread_create;
  _ ← (if rv t =? 0 then
         set_user (fun f => with_threads (threads f ++
           [MkDownload (client_fd i) (cstr path) (cstr srv) 0 ino]) f)
       else mret tt);
  sz ← f3_get_size_xattr (fd i);
  update ino (set_target_size sz).

Definition sfs_open (req ino : Z) (fi : fuse_file_info) : M unit :=
  i ← get_inode ino;
  f ← get_fs;
  let fi := with_flags (open_flags (cached f) (fi_flags fi)) fi in
  _ ← (if needs_download i then start_download ino i else mret tt);
  o ← posix (Open (proc_path (INODE i)) (Z.land (fi_flags fi) (Z.lnot O_NOFOLLOW)));
  if rv o =? -1 then F3_REPLY_ERR req (errno o) else
  _ ← update ino (fun i => set_nopen (u64 (nopen i + 1)) i);
  ign (fuse_reply_open req (with_fh (u64 (rv o)) (with_keep_cache (cached f) fi))).

(** A writer records the size it has written, a producer tells the server that
    the file is complete. *)
Definition sfs_release (req ino : Z) (fi : fuse_file_info) : M unit :=
  i ← get_inode ino;
  let fh := i32 (fi_fh fi) in
  fl ← posix (Fcntl_getfl fh);
  _ ← (if has (rv fl) O_RDWR || has (rv fl) O_WRONLY then f3_update_size_xattr (fd i) (size i)
       else mret tt);
  _ ← (if negb (needs_download i) then
         path ← f3_get_filepath (fd i) PATH_MAX;
         f ← get_fs;
         ign (send_fname_done (server_fd f) (cstr path))
       else mret tt);
  _ ← update ino (fun i => set_nopen (u64 (nopen i - 1)) i);
  _ ← posix (Close fh);
  F3_REPLY_ERR req 0.

Definition sfs_flush (req ino : Z) (fi : fuse_file_info) : M unit :=
  d ← posix (Dup (i32 (fi_fh fi)));
  r ← posix (Close (rv d));
  reply_result req r.

Definition sfs_fsync (req ino datasync : Z) (fi : fuse_file_info) : M unit :=
  let fh := i32 (fi_fh fi) in
  r ← posix (if negb (datasync =? 0) then Fdatasync fh else Fsync fh);
  reply_result req r.

Definition FUSE_BUF_COPY_FLAGS (f : Fs) : Z := if nosplice f then FUSE_BUF_NO_SPLICE else 0.

(** [FUSE_BUFVEC_INIT(size)] made to refer to a range of a file. *)
Definition fd_bufvec (size off : Z) (fi : fuse_file_info) : fuse_bufvec :=
  FuseBufvec 1 0 0 [FuseBuf size (Z.lor FUSE_BUF_IS_FD FUSE_BUF_FD_SEEK) 0 (i32 (fi_fh fi)) off].

Definition do_read (req size off : Z) (fi : fuse_file_info) : M unit :=
  f ← get_fs;
  ign (fuse_reply_data req (fd_bufvec size off fi) (FUSE_BUF_COPY_FLAGS f)).

(** The range is not in the cache yet, but within what the producer wrote. *)
Definition must_wait (st_sz target want : Z) : bool := (u64 st_sz <? want) && (want <? target).

(** The waiting loop, half a second a turn; a failed [fstatat] leaves the size
    as it was. *)
Fixpoint wait_download (turns : nat) (idfd target want st_sz : Z) : M unit :=
  match turns with
  | O => mret tt
  | S turns =>
      if must_wait st_sz target want then
        _ ← posix (Usleep 500000);
        r ← posix (Fstatat idfd);
        wait_download turns idfd target want (if rv r =? -1 then st_sz else st_size (rstat r))
      else mret tt
  end.

Definition READ_TURNS : nat := 24.

Definition sfs_read (req ino size off : Z) (fi : fuse_file_info) : M unit :=
  i ← get_inode ino;
  r ← posix (Fstatat (id_fd i));
  _ ← wait_download READ_TURNS (id_fd i) (target_size i) (u64 (off + size)) (st_size (rstat r));
  do_read req size off fi.

(** The size of an ID file is the end of the furthest write. *)
Definition do_write_buf (req size_ off : Z) (in_buf : fuse_bufvec) (fi : fuse_file_info) (ino : Z)
    : M fuse_bufvec :=
  f ← get_fs;
  r ← lift_w (fuse_buf_copy false (fd_bufvec size_ off fi) in_buf (FUSE_BUF_COPY_FLAGS f));
  let '(res, _, in_buf) := r in
  _ ← (if res <? 0 then F3_REPLY_ERR req (i32 (- res)) else
       i ← read_obj ino;
       _ ← (if is_id i && (size i <? u64 (off + res)) then write_obj ino (set_size (u64 (off + res)) i)
            else mret tt);
       ign (fuse_reply_write req res));
  mret in_buf.

Definition sfs_write_buf (req ino : Z) (in_buf : fuse_bufvec) (off : Z) (fi : fuse_file_info)
    : M fuse_bufvec :=
  _ ← get_inode ino;
  do_write_buf req (fuse_buf_size in_buf) off in_buf fi ino.

Definition sfs_statfs (req ino : Z) : M unit :=
  sfd ← get_fs_fd ino;
  r ← posix (Fstatvfs sfd);
  if rv r =? -1 then F3_REPLY_ERR req (errno r) else ign (fuse_reply_statfs req (rvfs r)).

Definition sfs_fallocate (req ino mode off len : Z) (fi : fuse_file_info) : M unit :=
  if negb (mode =? 0) then F3_REPLY_ERR req EOPNOTSUPP else
  r ← posix (Posix_fallocate (i32 (fi_fh fi)) off len);
  F3_REPLY_ERR req (rv r).

Definition sfs_flock (req ino : Z) (fi : fuse_file_info) (op : Z) : M unit :=
  r ← posix (FlockFd (i32 (fi_fh fi)) op);
  reply_result req r.

(** ** Extended attributes *)

(** The common body of [sfs_getxattr] and [sfs_listxattr]; [call] is the query
    with a buffer of the given size.  An empty value is answered with no data. *)
Definition query_xattr (req size : Z) (call : Z -> syscall) : M unit :=
  if negb (size =? 0) then
    ok ← LowLevel.malloc;
    if negb ok then F3_REPLY_ERR req ENOMEM else
    r ← posix (call size);
    if rv r =? -1 then F3_REPLY_ERR req (errno r) else
    if rv r =? 0 then F3_REPLY_ERR req 0 else
    ign (fuse_reply_buf req (take (Z.to_nat (rv r)) (rdata r)))
  else
    r ← posix (call 0);
    if rv r =? -1 then F3_REPLY_ERR req (errno r) else ign (fuse_reply_xattr req (rv r)).

Definition sfs_getxattr (req ino : Z) (name : bytes) (size : Z) : M unit :=
  i ← get_inode ino;
  query_xattr req size (Getxattr (proc_path (INODE i)) name).

Definition sfs_listxattr (req ino size : Z) : M unit :=
  i ← get_inode ino;
  query_xattr req size (Listxattr (proc_path (INODE i))).

Definition sfs_setxattr (req ino : Z) (name value : bytes) (flags : Z) : M unit :=
  i ← get_inode ino;
  r ← posix (Setxattr (proc_path (fd i)) name value flags);
  _ ← (if rv r =? -1 then F3_REPLY_ERR req (errno r) else mret tt);
  r ← posix (Setxattr (proc_path (id_fd i)) name value flags);
  reply_result req r.

(** Removing the mark turns an ID into a regular file. *)
Definition sfs_removexattr (req ino : Z) (name : bytes) : M unit :=
  i ← get_inode ino;
  r ← posix (Removexattr (proc_path (fd i)) name);
  _ ← (if rv r =? -1 then F3_REPLY_ERR req (errno r) else mret tt);
  r ← posix (Removexattr (proc_path (id_fd i)) name);
  _ ← (if rv r =? -1 then F3_REPLY_ERR req (errno r) else mret tt);
  ret ← (if streq name (lit "user.f3.id") then f3_make_id_fs ino else mret 0);
  F3_REPLY_ERR req ret.

Definition assign_operations : fuse_lowlevel_ops OS Fs :=
  Ops OS Fs (Some sfs_init) None (Some sfs_lookup) (Some sfs_forget) (Some sfs_forget_multi)
    (Some sfs_getattr) (Some sfs_setattr) (Some sfs_readlink) (Some sfs_mknod) (Some sfs_mkdir)
    (Some sfs_unlink) (Some sfs_rmdir) (Some sfs_symlink) (Some sfs_rename) (Some sfs_link)
    (Some sfs_open) (Some sfs_read) None (Some sfs_write_buf) (Some sfs_flush) (Some sfs_release)
    (Some sfs_fsync) (Some sfs_opendir) (Some sfs_readdir) (Some sfs_readdirplus)
    (Some sfs_releasedir) (Some sfs_fsyncdir) (Some sfs_statfs) (Some sfs_setxattr)
    (Some sfs_getxattr) (Some sfs_listxattr) (Some sfs_removexattr) None (Some sfs_create)
    None None None None None None (Some sfs_flock) (Some sfs_fallocate) None None.

(** ** Start up *)

(** The connection to the transfer server: while it is refused, ten tries a
    second apart. *)
Fixpoint connect_server (tries : nat) (path : bytes) : M unit :=
  match tries with
  | O => mret tt
  | S tries =>
      r ← setup_conn path;
      _ ← set_user (fun f => MkFs (inodes f) (objs f) (next_obj f) (root f) (timeout f) (fs_src_dev f)
            (nosplice f) (source f) (idroot f) (address f) r (client_uds_path f) (dirs f) (threads f)
            (trace f));
      if (r <? 0) && (- r =? ECONNREFUSED) then _ ← posix (Sleep 1); connect_server tries path
      else mret tt
  end.

Definition set_source (r : Inode) (t : double) (dev : Z) (f : Fs) : Fs :=
  MkFs (inodes f) (objs f) (next_obj f) r t dev (nosplice f) (source f) (idroot f)
    (address f) (server_fd f) (client_uds_path f) (dirs f) (threads f) (trace f).

(** 0.000000001, the cache timeout that only turns caching on. *)
Definition TIMEOUT : double := S754_finite false 4835703278458517 (-82).

(** The root of the file system, before the session is made: 1 is the exit code
    of a failure. *)
Definition init_root (nocache : bool) : M Z :=
  _ ← set_user (fun f => set_source (set_nlookup 9999 (set_fd (-1) (root f)))
        (if nocache then S754_zero false else TIMEOUT) (fs_src_dev f) f);
  f ← get_fs;
  r ← posix (Lstat (source f));
  if rv r =? -1 then mret 1 else
  if negb (S_ISDIR (st_mode (rstat r))) then mret 1 else
  _ ← set_user (fun f => set_source (root f) (timeout f) (st_dev (rstat r)) f);
  a ← posix (Open (source f) O_PATH);
  _ ← set_user (fun f => with_root (set_fd (rv a) (root f)) f);
  if rv a =? -1 then mret 1 else
  b ← posix (Open (idroot f) O_PATH);
  _ ← set_user (fun f => with_root (set_id_fd (rv b) (root f)) f);
  mret (if rv b =? -1 then 1 else 0).
End F3.
