(* ===== verification/F3Spec.v ===== *)
(** * The F3 file system: what its handlers promise

    The logic of [Handler] for F3: [wp m Q f] says that [m], run on a session
    whose file system state is [f], returns with [Q], whatever the system calls
    answer, and leaves the session itself alone; [finishes r m P f] says that
    [m] answers request [r] once and ends in [P].  The invariant [fs_ok] of the
    inode table is kept by every handler, and the handlers that reply once on
    every path answer every request the kernel may send. *)

From S2P Require Import Prelude DList Wire Buf LowLevel Dispatch Handler F3.
From Stdlib Require Import SpecFloat.

(** ** Running a handler *)

(** A call that fails sets [errno] to an error number, and the path stored with
    an ID leaves room for a newline and a NUL in [PATH_MAX] bytes. *)
Class PosixLaws (OS : Type) `{Posix OS} := {
  posix_errno c o o' r : posix_call c o = (o', r) -> rv r = -1 -> 0 < errno r }.

Section Rules.
Context {OS : Type} `{FdOps OS} `{DevOps OS} `{Posix OS}.
Implicit Types (s : LL OS Fs) (f : Fs).

Abbreviation M := (ST (LL OS Fs)).

(** The rules of [Handler] for code that does not look at its request, and for
    what it leaves in the file system. *)
Definition wp {A} (m : M A) (Q : A -> Fs -> Prop) f : Prop := Handler.wp None m Q f.

Definition finishes {A} (r : Z) (m : M A) (P : Fs -> Prop) f : Prop := replies r m (fun _ _ => P) f.

Lemma fwp_mono {A} (m : M A) (Q Q' : A -> Fs -> Prop) f :
  wp m Q f -> (forall a f', Q a f' -> Q' a f') -> wp m Q' f.
Proof. apply Handler.wp_mono. Qed.

Lemma fwp_ret {A} (a : A) (Q : A -> Fs -> Prop) f : Q a f -> wp (mret a) Q f.
Proof. apply Handler.wp_ret. Qed.

Lemma fwp_bind {A B} (m : M A) (k : A -> M B) (Q : B -> Fs -> Prop) f :
  wp m (fun a => wp (k a) Q) f -> wp (m ≫= k) Q f.
Proof. apply Handler.wp_bind. Qed.

Lemma wp_posix_sees c (Q : sysres -> Fs -> Prop) f :
  (forall o o' r, posix_call c o = (o', r) -> Q r (with_trace (trace f ++ [(c, r)]) f)) -> wp (posix c) Q f.
Proof.
  intros HQ s <- _. unfold posix. destruct (posix_call c (os (mach s))) as [o r] eqn:E.
  eexists r, _. split; [reflexivity|]. split; [by apply quiet_same|]. by eapply HQ.
Qed.

Lemma wp_posix c (Q : sysres -> Fs -> Prop) f :
  (forall r, Q r (with_trace (trace f ++ [(c, r)]) f)) -> wp (posix c) Q f.
Proof. intros HQ. apply wp_posix_sees. intros; apply HQ. Qed.

Lemma wp_posix_law `{!PosixLaws OS} c (Q : sysres -> Fs -> Prop) f :
  (forall r, (rv r = -1 -> errno r <> 0) -> Q r (with_trace (trace f ++ [(c, r)]) f)) -> wp (posix c) Q f.
Proof. intros HQ. apply wp_posix_sees. intros o o' r E. apply HQ. intros Hr%(posix_errno _ _ _ _ E). lia. Qed.

Lemma wp_get_fs (Q : Fs -> Fs -> Prop) f : Q f f -> wp get_fs Q f.
Proof. intros HQ s <- _. exists (user s), s. split; [done|]. split; [apply quiet_refl|done]. Qed.

Lemma fwp_set_user g (Q : unit -> Fs -> Prop) f : Q tt (g f) -> wp (set_user g) Q f.
Proof. apply Handler.wp_set_user. Qed.

Lemma fwp_malloc (Q : bool -> Fs -> Prop) f : (forall b, Q b f) -> wp LowLevel.malloc Q f.
Proof. apply Handler.wp_malloc. Qed.

Lemma fwp_of_option {A} (o : option A) a (Q : A -> Fs -> Prop) f : o = Some a -> Q a f -> wp (of_option o) Q f.
Proof. apply Handler.wp_of_option. Qed.

(** *** Replies *)

Lemma finishes_bind {A B} r (m : M A) (k : A -> M B) P f :
  wp m (fun a => finishes r (k a) P) f -> finishes r (m ≫= k) P f.
Proof. intros Hm. by apply replies_bind, wp_weaken. Qed.

(** Something after the reply that leaves everything alone. *)
Lemma finishes_then {A B} r (m : M A) (g : A -> B) P f :
  finishes r m P f -> finishes r (x ← m; mret (g x)) P f.
Proof. intros Hm. apply replies_after. eapply replies_mono; [exact Hm|]. intros a msg f' HP. by apply Handler.wp_ret. Qed.

Lemma finishes_mono {A} r (m : M A) (P P' : Fs -> Prop) f :
  finishes r m P f -> (forall f', P f' -> P' f') -> finishes r m P' f.
Proof. intros Hm HP. eapply replies_mono; [exact Hm|]. intros ???. apply HP. Qed.

Lemma finishes_answers r m (P : Fs -> Prop) f : finishes r m P f -> answers (eq f) P r m.
Proof. intros Hm. by eapply replies_answers. Qed.

(** Changing what a request says about its sender. *)
Lemma finishes_umask {A} r m0 (k : unit -> M A) P f :
  finishes r (k tt) P f -> finishes r (_ ← set_umask r m0; k tt) P f.
Proof. intros Hk. by apply replies_bind, wp_umask. Qed.

Lemma finishes_send r err arg P f : P f -> finishes r (ign (send_reply r err arg)) P f.
Proof. intros HP. apply (finishes_then r (send_reply r err arg) (fun _ => tt)), replies_send. done. Qed.

Lemma finishes_req_conn {A} r (k : fuse_conn_info -> M A) P f :
  (forall c, finishes r (k c) P f) -> finishes r (c ← req_conn r; k c) P f.
Proof. apply replies_conn. Qed.

Lemma finishes_conn r (k : fuse_conn_info -> M Z) P f :
  (forall c, finishes r (ign (k c)) P f) -> finishes r (ign (c ← req_conn r; k c)) P f.
Proof.
  intros Hk. apply (replies_ext r (c ← req_conn r; ign (k c))); [|by apply replies_conn].
  intros s. unfold ign, mbind, ST_bind. by destruct (req_conn r s) as [[]|].
Qed.
End Rules.

(** ** Code that only makes system calls *)

Section Calls.
Context {OS : Type} `{FdOps OS} `{DevOps OS} `{Posix OS}.
Implicit Types (f : Fs).

Definition calls {A} (m : ST (LL OS Fs) A) : Prop :=
  forall f (Q : A -> Fs -> Prop), (forall a t, Q a (with_trace t f)) -> wp m Q f.

Lemma with_trace_id f : with_trace (trace f) f = f.
Proof. by destruct f. Qed.

Lemma calls_ret {A} (a : A) : calls (mret a).
Proof. intros f Q HQ. apply fwp_ret. rewrite <- (with_trace_id f). apply HQ. Qed.

Lemma calls_bind {A B} (m : ST (LL OS Fs) A) (k : A -> ST (LL OS Fs) B) :
  calls m -> (forall a, calls (k a)) -> calls (m ≫= k).
Proof. intros Hm Hk f Q HQ. apply fwp_bind, Hm. intros a t. apply Hk. intros b t'. apply HQ. Qed.

Lemma calls_posix c : calls (posix c).
Proof. intros f Q HQ. apply wp_posix. intros r. apply HQ. Qed.

Lemma calls_get_fs : calls get_fs.
Proof. intros f Q HQ. apply wp_get_fs. pose proof (HQ f (trace f)) as Hf. by rewrite with_trace_id in Hf. Qed.

Lemma calls_malloc : calls LowLevel.malloc.
Proof. intros f Q HQ. apply fwp_malloc. intros b. rewrite <- (with_trace_id f). apply HQ. Qed.
End Calls.

(** Walk through a piece of code, one bind or one condition at a time. *)
Ltac calls_tac :=
  repeat first
    [ apply calls_ret | apply calls_posix | apply calls_get_fs | apply calls_malloc
    | apply calls_bind; [|intros ?]
    | match goal with |- calls (if ?c then _ else _) => destruct c end
    | match goal with |- calls (match ?c with _ => _ end) => destruct c end ].

Section Helpers.
Context {OS : Type} `{FdOps OS} `{DevOps OS} `{Posix OS}.

Lemma calls_close (x : Z) : calls (ign (posix (Close x))).
Proof. unfold ign. calls_tac. Qed.

Lemma calls_mark ofd n : calls (f3_mark_as_id ofd n).
Proof. unfold f3_mark_as_id, f3_get_full_fd, f3_get_rel_path. calls_tac. Qed.

Lemma calls_is_id ofd : calls (f3_is_id ofd).
Proof. unfold f3_is_id, f3_get_full_fd. calls_tac. Qed.

Lemma calls_get_attr ofd name n : calls (get_attr ofd name n).
Proof. unfold get_attr, f3_get_full_fd. calls_tac. Qed.

Lemma calls_size_xattr ofd : calls (f3_get_size_xattr ofd).
Proof. unfold f3_get_size_xattr, f3_get_full_fd. calls_tac. Qed.

Lemma calls_update_size ofd n : calls (f3_update_size_xattr ofd n).
Proof. unfold f3_update_size_xattr, f3_get_full_fd, ign. calls_tac. Qed.

Lemma calls_setup_conn path : calls (setup_conn path).
Proof. unfold setup_conn. calls_tac. Qed.

Lemma calls_mark_dir ip name : calls (mark_dir ip name).
Proof. unfold mark_dir. calls_tac; apply calls_mark. Qed.
End Helpers.

(** ** The inode table *)

(** Objects are reached from one entry each, have addresses in use, none of them
    the root's, and a descriptor. *)
Record table_ok (m : gmap (Z * Z) Z) (o : gmap Z Inode) (next : Z) : Prop := {
  ok_next : FUSE_ROOT_ID < next;
  ok_live : forall k p, m !! k = Some p -> is_Some (o !! p);
  ok_addr : forall p, is_Some (o !! p) -> FUSE_ROOT_ID < p < next;
  ok_inj : forall k k' p, m !! k = Some p -> m !! k' = Some p -> k = k';
  ok_fd : forall p i, o !! p = Some i -> fd i <> -1 }.

Definition fs_ok (f : Fs) : Prop := table_ok (inodes f) (objs f) (next_obj f).

(** A node the kernel may name. *)
Definition known (p : Z) (f : Fs) : Prop := p = FUSE_ROOT_ID \/ is_Some (objs f !! p).

(** [f'] is in order and knows the nodes of [f]. *)
Definition grows (f f' : Fs) : Prop := fs_ok f' /\ forall p, known p f -> known p f'.

Section Table.
Context {OS : Type} `{FdOps OS} `{DevOps OS} `{Posix OS}.
Implicit Types (f : Fs).

Lemma grows_refl f : fs_ok f -> grows f f.
Proof. by split. Qed.

Lemma grows_trans f g h : grows f g -> grows g h -> grows f h.
Proof. intros [_ A] [B C]. split; [done|auto]. Qed.

(** The object at a known address. *)
Lemma known_obj p f : fs_ok f -> known p f ->
  (p = FUSE_ROOT_ID /\ forall A (a : ST (LL OS Fs) A) b, (if p =? FUSE_ROOT_ID then a else b) = a) \/
  (exists i, objs f !! p = Some i /\ fd i <> -1 /\ (p =? FUSE_ROOT_ID) = false).
Proof.
  intros Hf [->|[i Hi]]; [by left|]. right. exists i. split; [done|]. split; [by apply (ok_fd _ _ _ Hf p)|].
  apply Z.eqb_neq. destruct (ok_addr _ _ _ Hf p); [by exists i|lia].
Qed.

Lemma wp_read_obj p (Q : Inode -> Fs -> Prop) f : fs_ok f -> known p f ->
  (forall i, (p =? FUSE_ROOT_ID) = false -> objs f !! p = Some i -> Q i f) ->
  (p = FUSE_ROOT_ID -> Q (root f) f) -> wp (read_obj p : ST (LL OS Fs) Inode) Q f.
Proof.
  intros Hf Hp HQ Hr. unfold read_obj. apply fwp_bind, wp_get_fs.
  destruct (known_obj p f Hf Hp) as [[-> Hb]|(i & Hi & _ & Hn)].
  - rewrite Hb. by apply fwp_ret, Hr.
  - rewrite Hn, Hi. by apply fwp_ret, HQ.
Qed.

Lemma wp_get_inode p (Q : Inode -> Fs -> Prop) f : fs_ok f -> known p f ->
  (forall i, Q i f) -> wp (get_inode p : ST (LL OS Fs) Inode) Q f.
Proof.
  intros Hf Hp HQ. unfold get_inode. apply fwp_bind. apply wp_read_obj; try done.
  - intros i Hn Hi. rewrite Hn. cbn [negb andb].
    destruct (Z.eqb_spec (fd i) (-1)) as [E|_]; [by apply (ok_fd _ _ _ Hf) in Hi|]. by apply fwp_ret.
  - intros ->. by apply fwp_ret.
Qed.

(** Changing a known object. *)
Lemma table_update m o n p i g : table_ok m o n -> o !! p = Some i -> fd (g i) <> -1 ->
  table_ok m (<[p := g i]> o) n.
Proof.
  intros Hf Hp Hg. split; try apply Hf.
  - intros k x Hx. rewrite lookup_insert. case_decide; [done|]. by apply (ok_live _ _ _ Hf k).
  - intros x. rewrite lookup_insert. case_decide; [intros _; subst; by apply (ok_addr _ _ _ Hf); exists i|apply Hf].
  - intros x j. rewrite lookup_insert. case_decide; [by intros [= <-]|apply Hf].
Qed.

Lemma wp_update p g (Q : unit -> Fs -> Prop) f : fs_ok f -> known p f ->
  (forall i, fd i <> -1 -> fd (g i) <> -1) ->
  (forall f', grows f f' -> Q tt f') -> wp (update p g : ST (LL OS Fs) unit) Q f.
Proof.
  intros Hf Hp Hg HQ. unfold update. apply fwp_bind, wp_read_obj; try done.
  - intros i Hn Hi. unfold write_obj. apply fwp_set_user. rewrite Hn. apply HQ. split.
    + apply (table_update _ _ _ _ i); [done|done|]. by apply Hg, (ok_fd _ _ _ Hf p).
    + intros x [->|Hx]; [by left|right]. cbn. rewrite lookup_insert. by case_decide.
  - intros ->. unfold write_obj. apply fwp_set_user. rewrite Z.eqb_refl. by apply HQ.
Qed.
End Table.

(** ** Lookup *)

(** [f] with the object [i] at [p] and another trace. *)
Definition at_obj (t : list (syscall * sysres)) (p : Z) (i : Inode) (f : Fs) : Fs :=
  with_trace t (with_objs (<[p := i]> (objs f)) f).

(** [f] with a new entry for [k]. *)
Definition with_entry (k : Z * Z) (f : Fs) : Fs :=
  with_next_obj (next_obj f + 64) (with_inodes (<[k := next_obj f]> (inodes f)) f).

Lemma table_new m o n k i : table_ok m o n -> m !! k = None -> fd i <> -1 ->
  table_ok (<[k := n]> m) (<[n := i]> o) (n + 64).
Proof.
  intros Hf Hk Hi. pose proof (ok_next _ _ _ Hf).
  assert (forall k' p, m !! k' = Some p -> p <> n) as Hne.
  { intros k' p Hp ->. destruct (ok_addr _ _ _ Hf n (ok_live _ _ _ Hf _ _ Hp)). lia. }
  split; [lia| | | |].
  - intros k' p [[_ <-]|[_ Hp]]%lookup_insert_Some; rewrite lookup_insert; case_decide; try done.
    by apply (ok_live _ _ _ Hf k').
  - intros p. rewrite lookup_insert. case_decide; [lia|]. intros Hp%(ok_addr _ _ _ Hf). lia.
  - intros k1 k2 p. rewrite !lookup_insert. repeat case_decide; try congruence.
    + intros [= <-] Hp. by apply Hne in Hp.
    + intros Hp [= <-]. by apply Hne in Hp.
    + apply (ok_inj _ _ _ Hf).
  - intros p j. rewrite lookup_insert. case_decide; [by intros [= <-]|apply Hf].
Qed.

Section Lookup.
Context {OS : Type} `{FdOps OS} `{DevOps OS} `{PosixLaws OS}.
Implicit Types (f g : Fs) (t : list (syscall * sysres)).

Lemma wp_read_at t p i g (Q : Inode -> Fs -> Prop) : p <> FUSE_ROOT_ID ->
  Q i (at_obj t p i g) -> wp (read_obj p : ST (LL OS Fs) Inode) Q (at_obj t p i g).
Proof.
  intros Hp%Z.eqb_neq HQ. unfold read_obj. apply fwp_bind, wp_get_fs. rewrite Hp.
  apply (fwp_of_option _ i); [cbn; apply lookup_insert_eq|done].
Qed.

Lemma wp_update_at t p i g h (Q : unit -> Fs -> Prop) : p <> FUSE_ROOT_ID ->
  Q tt (at_obj t p (h i) g) -> wp (update p h : ST (LL OS Fs) unit) Q (at_obj t p i g).
Proof.
  intros Hp HQ. unfold update. apply fwp_bind, wp_read_at; [done|]. unfold write_obj. apply fwp_set_user.
  apply Z.eqb_neq in Hp. rewrite Hp. unfold at_obj in *. cbn in *. unfold with_objs, with_trace in *. cbn in *.
  by rewrite insert_insert_eq.
Qed.

(** A parent that stays known while [p] is filled in. *)
Definition parent_ok (parent p : Z) g : Prop :=
  (forall t i, fd i <> -1 -> fs_ok (at_obj t p i g) /\ known parent (at_obj t p i g)) /\ p <> FUSE_ROOT_ID.

Lemma wp_parent parent p t i g (Q : Inode -> Fs -> Prop) : parent_ok parent p g -> fd i <> -1 ->
  (forall j, Q j (at_obj t p i g)) -> wp (get_inode parent : ST (LL OS Fs) Inode) Q (at_obj t p i g).
Proof. intros [Hg _] Hi HQ. destruct (Hg t i Hi). by apply wp_get_inode. Qed.

Lemma wp_is_new_id parent name p t i g (Q : bool -> Fs -> Prop) : parent_ok parent p g -> fd i <> -1 ->
  (forall b t', Q b (at_obj t' p i g)) -> wp (f3_is_new_id parent name) Q (at_obj t p i g).
Proof.
  intros Hg Hi HQ. unfold f3_is_new_id. apply fwp_bind, (wp_parent _ p); try done. intros j.
  apply fwp_bind, calls_is_id. intros x t'. apply fwp_ret, HQ.
Qed.

(** Fields that filling in does not touch. *)
Definition refilled (i i' : Inode) : Prop :=
  fd i' = fd i /\ nlookup i' = nlookup i /\ src_ino i' = src_ino i /\ src_dev i' = src_dev i /\ is_id i' = is_id i.

Lemma wp_placeholder p parent name mode t i g (Q : Z -> Fs -> Prop) : parent_ok parent p g -> fd i <> -1 ->
  (forall x t' i', refilled i i' -> Q x (at_obj t' p i' g)) ->
  wp (make_placeholder p parent name mode) Q (at_obj t p i g).
Proof.
  intros Hg Hi HQ. unfold make_placeholder, get_fs_id_fd.
  destruct (S_ISDIR mode); apply fwp_bind, fwp_bind, (wp_parent _ p); try done; intros j; apply fwp_ret;
    apply fwp_bind, wp_posix; intros r1; apply fwp_bind, wp_posix; intros r2.
  - by apply fwp_ret, HQ.
  - apply fwp_bind, wp_posix; intros r3. apply fwp_bind, wp_read_at; [apply Hg|]. apply fwp_bind.
    destruct (is_id i); [|by apply fwp_ret, fwp_ret, HQ].
    apply fwp_bind, calls_get_attr; intros fn t1. apply fwp_bind, calls_get_attr; intros sv t2.
    apply fwp_bind, wp_get_fs. apply fwp_bind, calls_setup_conn; intros cfd t3.
    apply wp_update_at; [apply Hg|]. by apply fwp_ret, HQ.
Qed.

Lemma wp_fill p parent name attr newfd t i g (Q : unit -> Fs -> Prop) : parent_ok parent p g -> newfd <> -1 ->
  (forall t' i', fd i' = newfd -> nlookup i' = u64 (nlookup i + 1) -> src_ino i' = st_ino attr ->
     src_dev i' = st_dev attr -> Q tt (at_obj t' p i' g)) ->
  wp (fill_inode p parent name attr newfd) Q (at_obj t p i g).
Proof.
  intros Hg Hn HQ. unfold fill_inode, get_fs_id_fd. apply fwp_bind, wp_update_at; [apply Hg|].
  set (i1 := set_fd _ _). apply fwp_bind, wp_is_new_id; [done|done|]. intros b t1. apply fwp_bind.
  set (i2 := if b then set_is_id true i1 else i1).
  assert (fd i2 = newfd /\ nlookup i2 = u64 (nlookup i + 1) /\ src_ino i2 = st_ino attr /\ src_dev i2 = st_dev attr)
    as (E1 & E2 & E3 & E4) by (unfold i2, i1; by destruct b).
  assert (forall Q : unit -> Fs -> Prop, Q tt (at_obj t1 p i2 g) ->
    wp (if b then update p (set_is_id true) else mret tt : ST (LL OS Fs) unit) Q (at_obj t1 p i1 g)) as Hb.
  { intros Q' HQ'. unfold i2 in *. destruct b; [apply wp_update_at; [apply Hg|done]|by apply fwp_ret]. }
  apply Hb. apply fwp_bind, fwp_bind, (wp_parent _ p); [done|congruence|]. intros j. apply fwp_ret.
  apply fwp_bind, wp_posix. intros r. apply fwp_bind.
  destruct (_ && _).
  - apply wp_placeholder; [done|congruence|]. intros x t2 i3 (? & ? & ? & ? & ?).
    apply wp_update_at; [apply Hg|]. apply HQ; cbn; congruence.
  - apply fwp_ret, wp_update_at; [apply Hg|]. by apply HQ.
Qed.

Lemma wp_lookup_attr p newfd e t i g (Q : Z * fuse_entry_param -> Fs -> Prop) : p <> FUSE_ROOT_ID ->
  (forall err e' t' i', fd i' = fd i -> nlookup i' = nlookup i -> e_ino e' = e_ino e ->
     (is_id i = false -> err = 0 /\ i' = i /\ e' = e) -> is_id i' = is_id i ->
     (is_id i' = true -> err = 0 -> src_ino i' = st_ino (e_attr e') /\ src_dev i' = st_dev (e_attr e')) ->
     Q (err, e') (at_obj t' p i' g)) ->
  wp (lookup_attr p newfd e) Q (at_obj t p i g).
Proof.
  intros Hp HQ. unfold lookup_attr. apply fwp_bind, wp_read_at; [done|].
  destruct (is_id i) eqn:Ei; cbn [negb]; [|apply fwp_ret, HQ; try done; congruence].
  apply fwp_bind, wp_posix_law. intros r Hr. destruct (Z.eqb_spec (rv r) (-1)) as [E|_].
  - apply fwp_bind, wp_posix. intros r2. apply fwp_ret, HQ; try done. intros _ E0. by apply Hr in E.
  - apply fwp_bind, calls_size_xattr. intros xs t'. apply fwp_bind, wp_update_at; [done|]. by apply fwp_ret, HQ.
Qed.

(** The entry for [k] before a lookup: [p] is its address, [i] its object, [g]
    the state without that object's update. *)
Definition entry_of (k : Z * Z) (p : Z) (i : Inode) f g : Prop :=
  inodes f !! k = Some p /\ objs f !! p = Some i /\ g = f \/
  inodes f !! k = None /\ p = next_obj f /\ i = Inode0 /\ g = with_entry k f.

(** What a lookup can do: fail early and change nothing, or count one more
    reference to one entry.  An ID whose attributes cannot be read fails although
    it has been counted. *)
Inductive lookup_outcome f : Z * fuse_entry_param -> Fs -> Prop :=
  | Refused err e t : err <> 0 -> lookup_outcome f (err, e) (with_trace t f)
  | Counted err e t k p i i' g :
      entry_of k p i f g -> e_ino e = p -> fd i' <> -1 -> nlookup i' = u64 (nlookup i + 1) ->
      (is_id i' = false -> err = 0) ->
      (0 < fd i -> is_id i' = false -> i' = set_nlookup (u64 (nlookup i + 1)) i) ->
      (fd i <= 0 -> is_id i' = false -> (src_ino i', src_dev i') = k) ->
      (is_id i' = true -> err = 0 -> src_ino i' = st_ino (e_attr e) /\ src_dev i' = st_dev (e_attr e)) ->
      lookup_outcome f (err, e) (at_obj t p i' g).

Lemma at_obj_id p i f : objs f !! p = Some i -> at_obj (trace f) p i f = f.
Proof. intros Hp. unfold at_obj, with_objs. rewrite insert_id by done. by destruct f. Qed.

Lemma entry_parent k p i f g parent : fs_ok f -> known parent f -> entry_of k p i f g -> parent_ok parent p g.
Proof.
  intros Hf Hk [(Hm & Hp & ->)|(Hm & -> & -> & ->)]; (split; [|]).
  - intros t j Hj. split; [by apply (table_update _ _ _ p i (fun _ => j))|].
    destruct Hk as [->|Hk]; [by left|right]. cbn. rewrite lookup_insert. by case_decide.
  - destruct (ok_addr _ _ _ Hf p); [by exists i|lia].
  - intros t j Hj. split; [by apply table_new|].
    destruct Hk as [->|Hk]; [by left|right]. cbn. rewrite lookup_insert. by case_decide.
  - pose proof (ok_next _ _ _ Hf). lia.
Qed.

Lemma wp_inodes_at k f (Q : option Z -> Fs -> Prop) : fs_ok f -> Q None f ->
  (forall p i g, entry_of k p i f g -> Q (Some p) (at_obj (trace f) p i g)) ->
  wp (inodes_at k : ST (LL OS Fs) (option Z)) Q f.
Proof.
  intros Hf Hn HQ. unfold inodes_at. apply fwp_bind, wp_get_fs. destruct (inodes f !! k) as [p|] eqn:Ek.
  - destruct (ok_live _ _ _ Hf _ _ Ek) as [i Hi]. apply fwp_ret.
    rewrite <- (at_obj_id p i f Hi). apply HQ. by left.
  - apply fwp_bind, fwp_malloc. intros [|]; cbn [negb]; [|by apply fwp_ret].
    apply fwp_bind, fwp_set_user, fwp_ret. apply (HQ _ Inode0 (with_entry k f)). by right.
Qed.

Local Ltac refused := match goal with |- lookup_outcome ?f _ ?X =>
  change X with (with_trace (trace X) f); apply Refused; auto end.

Lemma fwp_do_lookup parent name f (Q : Z * fuse_entry_param -> Fs -> Prop) : fs_ok f -> known parent f ->
  (forall r f', lookup_outcome f r f' -> Q r f') -> wp (do_lookup parent name) Q f.
Proof.
  intros Hf Hp HQ. unfold do_lookup, get_fs_fd. apply fwp_bind, wp_get_fs.
  apply fwp_bind, fwp_bind, wp_get_inode; [done|done|]. intros ip. apply fwp_ret.
  apply fwp_bind, wp_posix_law. intros o Ho. destruct (Z.eqb_spec (rv o) (-1)) as [E|Hnew].
  { apply fwp_ret, HQ. refused. }
  apply fwp_bind, wp_posix_law. intros r Hr. destruct (Z.eqb_spec (rv r) (-1)) as [E|_].
  { apply fwp_bind, wp_posix. intros c. apply fwp_ret, HQ. refused. }
  destruct (negb _); [by apply fwp_ret, HQ; refused|].
  destruct (_ =? FUSE_ROOT_ID); [by apply fwp_ret, HQ; refused|].
  set (k := (st_ino (rstat r), st_dev (rstat r))).
  set (f1 := with_trace _ _).
  apply fwp_bind, wp_inodes_at; [done|by apply fwp_ret, HQ; refused|].
  intros p i g1 He1. assert (exists g, entry_of k p i f g /\ at_obj (trace f1) p i g1 = at_obj (trace f1) p i g) as (g & He & ->).
  { destruct He1 as [(?&?& ->)|(?&?&?& ->)]; [exists f|exists (with_entry k f)]; (split; [|done]); [by left|by right]. }
  pose proof (entry_parent k p i f g parent Hf Hp He) as Hg. destruct Hg as [Hg1 Hg2].
  apply fwp_bind, wp_read_at; [done|]. apply fwp_bind. destruct (Z.ltb_spec 0 (fd i)) as [Hfd|Hfd].
  - apply fwp_bind, wp_update_at; [done|]. apply calls_close. intros _ t2.
    apply (wp_lookup_attr p (rv o) _ t2 _ g); [done|]. intros err e' t' i' E1 E2 E3 E4 E5 E6.
    apply HQ, (Counted _ _ _ _ k p i); cbn in *; try done; [lia| | |lia].
    + intros Hid. apply E4. congruence.
    + intros _ Hid. apply E4. congruence.
  - apply wp_fill; [done|done|]. intros t2 i2 F1 F2 F3 F4.
    apply wp_lookup_attr; [done|]. intros err e' t' i' E1 E2 E3 E4 E5 E6.
    apply HQ, (Counted _ _ _ _ k p i); try done; [congruence|congruence| |lia|].
    + intros Hid. apply E4. congruence.
    + intros _ Hid. destruct E4 as (_ & -> & _); [congruence|]. unfold k. congruence.
Qed.
End Lookup.

(** ** Handlers that answer once *)

Ltac reply_tac :=
  first [ apply finishes_send
        | unfold fuse_reply_entry, fuse_reply_attr, fuse_reply_create, fuse_reply_statfs;
          apply finishes_conn; intros ?; repeat match goal with |- finishes _ (ign (if ?c then _ else _)) _ _ => destruct c end;
          apply finishes_send ].

(** Split on the condition at the head of a handler, go past one bind, or
    reply. *)
Ltac fin_step :=
  match goal with
  | |- finishes _ (if ?c then _ else _) _ _ => let E := fresh "E" in destruct c eqn:E
  | |- finishes _ (_ ≫= _) _ _ => apply finishes_bind
  | |- wp (_ ≫= _) _ _ => apply fwp_bind
  | |- wp (mret _) _ _ => apply fwp_ret
  | |- wp (posix _) _ _ => apply wp_posix; intros ?
  | |- wp get_fs _ _ => apply wp_get_fs
  | |- wp LowLevel.malloc _ _ => apply fwp_malloc; intros ?
  | |- wp (get_inode _) _ _ => apply wp_get_inode; [assumption|assumption|intros ?]
  | |- wp (if ?c then _ else _) _ _ => let E := fresh "E" in destruct c eqn:E
  | |- finishes _ (F3_REPLY_ERR _ _) _ _ => apply finishes_send
  | |- finishes _ (ign _) _ _ => reply_tac
  end.

Section Once.
Context {OS : Type} `{FdOps OS} `{DevOps OS} `{PosixLaws OS}.
Implicit Types (f g : Fs) (t : list (syscall * sysres)).

Lemma outcome_grows f r f' : fs_ok f -> lookup_outcome f r f' -> grows f f'.
Proof.
  intros Hf [|err e t k p i i' g He Hp Hi _ _ _ _]; [by apply (grows_refl f)|]. split.
  - exact (proj1 (proj1 (entry_parent k p i f g FUSE_ROOT_ID Hf (or_introl eq_refl) He) t i' Hi)).
  - intros x Hx. exact (proj2 (proj1 (entry_parent k p i f g x Hf Hx He) t i' Hi)).
Qed.

Lemma outcome_known f e f' : lookup_outcome f (0, e) f' -> known (e_ino e) f'.
Proof.
  intros Ho. remember (0, e) as r eqn:Er. destruct Ho as [err e0 t Hn|err e0 t k p i i' g _ Hp _ _ _ _ _];
    injection Er as -> ->; [done|]. right. cbn. rewrite Hp, lookup_insert_eq. by eexists.
Qed.

Lemma sfs_getattr_fin r ino fi f : fs_ok f -> known ino f -> finishes r (sfs_getattr r ino fi) (grows f) f.
Proof.
  intros Hf Hk. unfold sfs_getattr. repeat fin_step; exact (grows_refl f Hf).
Qed.

Lemma sfs_lookup_fin r parent name f : fs_ok f -> known parent f ->
  finishes r (sfs_lookup r parent name) (grows f) f.
Proof.
  intros Hf Hk. unfold sfs_lookup. apply finishes_bind, fwp_do_lookup; [done|done|].
  intros [err e] f' Ho%outcome_grows; [|done]. repeat fin_step; exact Ho.
Qed.

Lemma setattr_step_wp cond c (k : ST (LL OS Fs) (option Z)) : calls k -> calls (setattr_step cond c k).
Proof. intros Hk. unfold setattr_step. calls_tac; exact Hk. Qed.

Lemma sfs_setattr_fin r ino attr valid fi f : fs_ok f -> known ino f ->
  finishes r (sfs_setattr r ino attr valid fi) (grows f) f.
Proof.
  intros Hf Hk. unfold sfs_setattr, do_setattr. do 2 fin_step. apply finishes_bind.
  apply setattr_step_wp; [repeat apply setattr_step_wp; apply calls_ret|].
  intros [e|] t; [fin_step; exact (grows_refl f Hf)|]. exact (sfs_getattr_fin r ino fi (with_trace t f) Hf Hk).
Qed.

Lemma sfs_readlink_fin r ino f : fs_ok f -> known ino f -> finishes r (sfs_readlink r ino) (grows f) f.
Proof. intros Hf Hk. unfold sfs_readlink. repeat fin_step; exact (grows_refl f Hf). Qed.

Lemma sfs_statfs_fin r ino f : fs_ok f -> known ino f -> finishes r (sfs_statfs r ino) (grows f) f.
Proof. intros Hf Hk. unfold sfs_statfs, get_fs_fd. repeat fin_step; exact (grows_refl f Hf). Qed.

Lemma is_new_id_wp parent name f (Q : bool -> Fs -> Prop) : fs_ok f -> known parent f ->
  (forall b t, Q b (with_trace t f)) -> wp (f3_is_new_id parent name) Q f.
Proof.
  intros Hf Hk HQ. unfold f3_is_new_id. repeat fin_step. apply calls_is_id. intros a t. apply fwp_ret, HQ.
Qed.

Lemma mknod_trees_wp parent name mode rdev link f (Q : option Z -> Fs -> Prop) : fs_ok f -> known parent f ->
  (forall e t, Q e (with_trace t f)) -> wp (mknod_trees parent name mode rdev link) Q f.
Proof.
  intros Hf Hk HQ. unfold mknod_trees. repeat fin_step; try apply HQ.
  apply is_new_id_wp; [exact Hf|exact Hk|]. intros [|] t1; fin_step; [apply calls_mark_dir; intros ? ?|fin_step]; fin_step; apply HQ.
Qed.

Lemma mknod_symlink_fin r parent name mode rdev link f : fs_ok f -> known parent f ->
  finishes r (mknod_symlink r parent name mode rdev link) (grows f) f.
Proof.
  intros Hf Hk. unfold mknod_symlink. apply finishes_bind, mknod_trees_wp; [done|done|].
  intros [e|] t; [fin_step; exact (grows_refl f Hf)|]. apply finishes_bind, fwp_do_lookup; [exact Hf|exact Hk|].
  intros [err e] f' Ho%outcome_grows; [|exact Hf]. repeat fin_step; exact Ho.
Qed.

Lemma sfs_link_fin r ino parent name f : fs_ok f -> known ino f -> known parent f ->
  finishes r (sfs_link r ino parent name) (grows f) f.
Proof.
  intros Hf Hk Hp. unfold sfs_link. repeat fin_step; try exact (grows_refl f Hf).
  apply wp_update; [exact Hf|exact Hk|done|]. intros f' Hg. reply_tac; exact Hg.
Qed.

Lemma grows_dirs f d n : fs_ok f -> next_obj f <= n -> grows f (with_next_obj n (with_dirs d f)).
Proof.
  intros Hf Hn. split; [|done]. pose proof (ok_next _ _ _ Hf).
  split; cbn [next_obj with_next_obj with_dirs inodes objs]; [lia|apply Hf| |apply Hf|apply Hf].
  intros p Hp%(ok_addr _ _ _ Hf). lia.
Qed.

Lemma sfs_opendir_fin r ino fi f : fs_ok f -> known ino f -> finishes r (sfs_opendir r ino fi) (grows f) f.
Proof.
  intros Hf Hk. unfold sfs_opendir. repeat fin_step; try exact (grows_refl f Hf).
  apply fwp_set_user. reply_tac. refine (grows_dirs f (dirs f) _ Hf _). cbn. lia.
Qed.

(** A directory handle the kernel was given and has not released. *)
Definition open_dir (h : Z) f : Prop := is_Some (dirs f !! h).

Lemma get_dir_wp fi f (Q : DirHandle -> Fs -> Prop) : open_dir (fi_fh fi) f ->
  (forall d, Q d f) -> wp (get_dir_handle fi : ST (LL OS Fs) DirHandle) Q f.
Proof. intros [d Hd] HQ. unfold get_dir_handle. repeat fin_step. by apply (fwp_of_option _ d). Qed.

Lemma sfs_releasedir_fin r ino fi f : fs_ok f -> open_dir (fi_fh fi) f ->
  finishes r (sfs_releasedir r ino fi) (grows f) f.
Proof.
  intros Hf Hd. unfold sfs_releasedir. fin_step. apply get_dir_wp; [done|]. intros d. repeat fin_step.
  apply fwp_set_user. reply_tac; exact (grows_refl f Hf).
Qed.

Lemma sfs_fsyncdir_fin r ino datasync fi f : fs_ok f -> open_dir (fi_fh fi) f ->
  finishes r (sfs_fsyncdir r ino datasync fi) (grows f) f.
Proof.
  intros Hf Hd. unfold sfs_fsyncdir. fin_step. apply get_dir_wp; [done|]. intros d.
  unfold reply_result. repeat fin_step. exact (grows_refl f Hf).
Qed.

Lemma sfs_create_fin r parent name mode fi f : fs_ok f -> known parent f ->
  finishes r (sfs_create r parent name mode fi) (grows f) f.
Proof.
  intros Hf Hk. unfold sfs_create. repeat fin_step; try exact (grows_refl f Hf).
  apply is_new_id_wp; [exact Hf|exact Hk|]. intros b t. do 2 fin_step.
  assert (calls (OS := OS) (if b then _ ← f3_mark_as_id (rv r0) (length (source f)); _ ← f3_mark_as_id (rv r1) (length (idroot f));
     _ ← posix (Close (rv r0)); mret (rv r1) else mret (rv r0))) as Hc by (calls_tac; apply calls_mark).
  fin_step. apply Hc. intros fh t'. fin_step. apply fwp_do_lookup; [exact Hf|exact Hk|].
  intros [err e] f' Ho. cbn [fst snd]. pose proof (outcome_grows (with_trace t' f) _ _ Hf Ho : grows f f') as Hg.
  destruct (Z.eqb_spec err 0) as [->|Hne]; cbn [negb]; [|fin_step; exact Hg].
  apply outcome_known in Ho. destruct Hg as [Hf' Hg']. repeat fin_step.
  apply wp_update; [done|done|done|]. intros f2 Hg2. reply_tac; exact (grows_trans f f' f2 (conj Hf' Hg') Hg2).
Qed.

(** The object behind a node number. *)
Definition obj_at (p : Z) f : option Inode := if p =? FUSE_ROOT_ID then Some (root f) else objs f !! p.

Lemma get_inode_sees p i (Q : Inode -> Fs -> Prop) f : fs_ok f -> obj_at p f = Some i ->
  Q i f -> wp (get_inode p : ST (LL OS Fs) Inode) Q f.
Proof.
  intros Hf Hp HQ. unfold get_inode, read_obj, obj_at in *. repeat fin_step; try done; try congruence.
  - apply (fwp_of_option _ i); [done|]. pose proof (ok_fd _ _ _ Hf _ _ Hp) as Hi%Z.eqb_neq. rewrite Hi.
    rewrite andb_false_r. by apply fwp_ret.
Qed.

Lemma sfs_open_fin r ino fi i f : fs_ok f -> obj_at ino f = Some i -> needs_download i = false ->
  finishes r (sfs_open r ino fi) (grows f) f.
Proof.
  intros Hf Hk Hd. unfold sfs_open. fin_step. apply (get_inode_sees _ i); [done|done|]. rewrite Hd.
  assert (known ino f) as Hkn.
  { unfold obj_at in Hk. destruct (Z.eqb_spec ino FUSE_ROOT_ID) as [->|]; [by left|right; by exists i]. }
  repeat fin_step; try exact (grows_refl f Hf).
  apply wp_update; [exact Hf|exact Hkn|done|]. intros f' Hg. reply_tac; exact Hg.
Qed.

(** The path recorded for the producer is a string that fits the buffer it is
    read into: what [send_fname_done] formats is then no longer than its own
    buffer. *)
Definition short_filepath : Prop := forall ofd o o' x,
  posix_call (Fgetxattr ofd (lit "user.f3.filepath") PATH_MAX) o = (o', x) ->
  Z.of_nat (length (cstr (rdata x))) < PATH_MAX.

Lemma filepath_wp ofd f (Q : bytes -> Fs -> Prop) : short_filepath ->
  (forall b t, Z.of_nat (length (cstr b)) < PATH_MAX -> Q b (with_trace t f)) -> wp (f3_get_filepath ofd PATH_MAX) Q f.
Proof.
  intros Hsh HQ. unfold f3_get_filepath, get_attr, f3_get_full_fd. do 5 fin_step; [apply fwp_ret; by apply HQ|].
  fin_step. apply wp_posix_sees. intros o o' a Ha%Hsh. repeat fin_step.
  destruct (_ <? 0); by apply HQ.
Qed.

(** A file that was downloaded is not announced, so its path does not matter. *)
Lemma sfs_release_fin r ino fi i f : fs_ok f -> obj_at ino f = Some i -> needs_download i = true \/ short_filepath ->
  finishes r (sfs_release r ino fi) (grows f) f.
Proof.
  intros Hf Hi Hsh. unfold sfs_release. fin_step. apply (get_inode_sees _ i); [done|done|].
  assert (known ino f) as Hk.
  { unfold obj_at in Hi. destruct (Z.eqb_spec ino FUSE_ROOT_ID) as [->|]; [by left|right; by exists i]. }
  do 2 fin_step. fin_step.
  assert (forall (c : bool) n m, calls (OS := OS) (if c then f3_update_size_xattr n m else mret tt)) as Hc.
  { intros. destruct c; [apply calls_update_size|apply calls_ret]. }
  apply Hc. intros _ t1.
  assert (forall x (Q : unit -> Fs -> Prop) g, (forall t, Q tt (with_trace t g)) -> wp (if negb (needs_download i) then
      path ← f3_get_filepath x PATH_MAX; f ← get_fs; ign (send_fname_done (server_fd f) (cstr path))
    else mret tt) Q g) as Hs.
  { intros x Q g HQ. destruct (needs_download i); cbn [negb]; [apply fwp_ret; rewrite <- (with_trace_id g); apply HQ|].
    destruct Hsh as [?|Hsh]; [done|].
    fin_step. apply filepath_wp; [done|]. intros b t Hb. do 2 fin_step.
    unfold ign, send_fname_done, write_formatted. rewrite length_app. cbn [length].
    destruct (Z.ltb_spec PATH_MAX (Z.of_nat (length (cstr b) + 1))); [lia|]. repeat fin_step. apply HQ. }
  fin_step. apply Hs. intros t2. fin_step. apply wp_update; [exact Hf|exact Hk|done|].
  intros f' Hg. repeat fin_step. exact Hg.
Qed.

Lemma sfs_flush_fin r ino fi f : fs_ok f -> finishes r (sfs_flush r ino fi) (grows f) f.
Proof. intros Hf. unfold sfs_flush, reply_result. repeat fin_step; exact (grows_refl f Hf). Qed.

Lemma sfs_fsync_fin r ino ds fi f : fs_ok f -> finishes r (sfs_fsync r ino ds fi) (grows f) f.
Proof. intros Hf. unfold sfs_fsync, reply_result. repeat fin_step; exact (grows_refl f Hf). Qed.

Lemma sfs_flock_fin r ino fi op f : fs_ok f -> finishes r (sfs_flock r ino fi op) (grows f) f.
Proof. intros Hf. unfold sfs_flock, reply_result. repeat fin_step; exact (grows_refl f Hf). Qed.

Lemma sfs_fallocate_fin r ino mode off len fi f : fs_ok f ->
  finishes r (sfs_fallocate r ino mode off len fi) (grows f) f.
Proof. intros Hf. unfold sfs_fallocate. repeat fin_step; exact (grows_refl f Hf). Qed.

Lemma query_xattr_fin r size call f : fs_ok f -> finishes r (query_xattr r size call) (grows f) f.
Proof. intros Hf. unfold query_xattr. repeat fin_step; exact (grows_refl f Hf). Qed.

Lemma sfs_getxattr_fin r ino name size f : fs_ok f -> known ino f ->
  finishes r (sfs_getxattr r ino name size) (grows f) f.
Proof. intros Hf Hk. unfold sfs_getxattr. do 2 fin_step. by apply query_xattr_fin. Qed.

Lemma sfs_listxattr_fin r ino size f : fs_ok f -> known ino f ->
  finishes r (sfs_listxattr r ino size) (grows f) f.
Proof. intros Hf Hk. unfold sfs_listxattr. do 2 fin_step. by apply query_xattr_fin. Qed.
End Once.

(** *** Reading and writing *)

Section Data.
Context {OS : Type} `{FdOps OS} `{DevOps OS} `{!FdLaws OS} `{!DevLaws OS} `{Posix OS} `{!PosixLaws OS}.
Implicit Types (f g : Fs) (s : LL OS Fs).

Lemma fd_bufvec_ok size off fi : 0 <= size < 2 ^ 63 -> vec_ok (fd_bufvec size off fi).
Proof.
  intros Hs. split; [done|]. split; [by repeat constructor; simpl; lia|]. split; [done|]. intros _. cbn. lia.
Qed.

Lemma do_read_fin r size off fi f : nosplice f = true -> 0 <= size < 2 ^ 31 ->
  finishes r (do_read r size off fi) (eq f) f.
Proof.
  intros Hn Hs s l i n q I L _ <-. destruct (reply_data_once s l i n r q (fd_bufvec size off fi) FUSE_BUF_NO_SPLICE) as (res & s' & fd & msg & E & I' & U' & S' & N');
    [done|done|apply fd_bufvec_ok; lia|cbn; lia|by left|].
  exists tt, s', fd, msg. split; [|done]. unfold do_read. erewrite bind_step by reflexivity. unfold FUSE_BUF_COPY_FLAGS. rewrite Hn. unfold ign.
  by erewrite bind_step by exact E.
Qed.

Lemma wait_calls turns idfd target want sz : calls (OS := OS) (wait_download turns idfd target want sz).
Proof. revert sz. induction turns as [|turns IH]; intros sz; cbn; calls_tac. apply IH. Qed.

Lemma sfs_read_fin r ino size off fi f : fs_ok f -> known ino f -> nosplice f = true -> 0 <= size < 2 ^ 31 ->
  finishes r (sfs_read r ino size off fi) (grows f) f.
Proof.
  intros Hf Hk Hn Hs. unfold sfs_read. do 4 fin_step. fin_step. apply wait_calls. intros _ t.
  eapply finishes_mono; [by apply do_read_fin|]. intros f' <-. exact (grows_refl f Hf).
Qed.

Lemma fwp_copy dv sv fl f (Q : Z * fuse_bufvec * fuse_bufvec -> Fs -> Prop) : vec_ok dv -> vec_ok sv ->
  remaining dv < 2 ^ 63 -> (forall x, Q x f) -> wp (lift_w (fuse_buf_copy false dv sv fl) : ST (LL OS Fs) _) Q f.
Proof. intros Hd Hs Hr HQ. by apply Handler.wp_copy. Qed.

Lemma sfs_write_buf_fin r ino v off fi f : fs_ok f -> known ino f -> vec_ok v -> sum_sizes (bufs v) < 2 ^ 63 ->
  finishes r (sfs_write_buf r ino v off fi) (grows f) f.
Proof.
  intros Hf Hk Hv Hs. pose proof Hv as (_ & Hsz & _). pose proof (sum_sizes_nonneg _ Hsz).
  unfold sfs_write_buf. do 2 fin_step. rewrite fuse_buf_size_sum by done. unfold do_write_buf. do 2 fin_step.
  fin_step. apply fwp_copy; [apply fd_bufvec_ok; lia|done| |].
  { unfold remaining. case_bool_decide; cbn; lia. }
  intros [[res dv'] v']. apply finishes_then. destruct (res <? 0); [fin_step; exact (grows_refl f Hf)|].
  fin_step. apply wp_read_obj; [done|done| |].
  - intros j Hj Hoj. fin_step. destruct (_ && _); [|fin_step; reply_tac; exact (grows_refl f Hf)].
    unfold write_obj. apply fwp_set_user. rewrite Hj. reply_tac. split.
    + apply (table_update _ _ _ _ j (fun _ => set_size _ j)); [done|done|]. exact (ok_fd _ _ _ Hf ino j Hoj).
    + intros x [->|Hx]; [by left|right]. cbn. rewrite lookup_insert. by case_decide.
  - intros ->. fin_step. destruct (_ && _); [|fin_step; reply_tac; exact (grows_refl f Hf)].
    unfold write_obj. apply fwp_set_user. rewrite Z.eqb_refl. reply_tac. exact (grows_refl f Hf).
Qed.
End Data.
