(* ===== verification/F3Theorems.v ===== *)
(** * The F3 file system: its theorems

    A session that serves F3 answers the requests of the kernel; lookups and
    forgets keep the reference counts of the inode table; reads wait for a
    download for a bounded time; writes record the size of an ID.  The last part
    shows where the code does not do what it means to. *)

From S2P Require Import Prelude DList Wire Buf LowLevel Dispatch Handler F3 F3Spec.
From Stdlib Require Import SpecFloat.

(** ** Every request is answered *)

(** What the kernel guarantees of a request: a node it names has been looked up
    and not forgotten, a directory handle has been opened and not released.
    OPEN is here for files that are in the cache, READ for sessions without
    splicing, RELEASE for files whose recorded path fits its buffer (or that are
    not announced because they were downloaded).  Left out are INIT and DESTROY,
    which change the session, FORGET and BATCH_FORGET, which have no reply,
    READDIR and READDIRPLUS, and the five handlers that may reply twice (UNLINK,
    RMDIR, RENAME, SETXATTR, REMOVEXATTR). *)
Definition node_ops : list Z := [1; 3; 4; 5; 6; 8; 9; 17; 22; 23; 27; 35].
Definition fd_ops : list Z := [20; 25; 31; 32; 33; 34; 43].

(** BMAP, IOCTL, POLL, LSEEK and COPY_FILE_RANGE, for which F3 has no handler. *)
Definition unhandled_ops : list Z := [37; 39; 40; 46; 47].

Section Served.
Context {OS : Type} `{Posix OS}.

Inductive served (f : Fs) (nodeid : Z) (inarg : bytes) : Z -> Prop :=
  | On_node op : op ∈ node_ops -> known nodeid f -> served f nodeid inarg op
  | On_fd op : op ∈ fd_ops -> served f nodeid inarg op
  | On_dir op : op ∈ [29; 30] -> open_dir (u64_at inarg 0) f -> served f nodeid inarg op
  | Link_node : known nodeid f -> known (u64_at inarg 0) f -> served f nodeid inarg 13
  | Open_cached i : obj_at nodeid f = Some i -> needs_download i = false -> served f nodeid inarg 14
  | Read_plain : known nodeid f -> nosplice f = true -> 0 <= u32_at inarg 16 < 2 ^ 31 -> served f nodeid inarg 15
  | Write_file : known nodeid f -> 0 <= u32_at inarg 16 < 2 ^ 32 -> served f nodeid inarg 16
  | Release_file i : obj_at nodeid f = Some i -> needs_download i = true \/ short_filepath (OS := OS) ->
      served f nodeid inarg 18
  | Unhandled op : op ∈ unhandled_ops -> served f nodeid inarg op.
End Served.

Section Session.
Context {OS : Type} `{FdOps OS} `{DevOps OS} `{!FdLaws OS} `{!DevLaws OS} `{Posix OS} `{!PosixLaws OS}.
Context (fuel : nat) (intr_call : Z -> Z -> Z -> ST (LL OS Fs) unit).
Implicit Types (f : Fs).

Abbreviation ops := (assign_operations (OS := OS) fuel).

Lemma err_reply_fin r e f : fs_ok f -> finishes r (err_reply (OS := OS) (U := Fs) r e) (grows f) f.
Proof. intros Hf. exact (finishes_send r (- e) [] (grows f) f (grows_refl f Hf)). Qed.

(** Handlers that set the umask of the request first. *)
Lemma umask_fin r (c : bool) um (m : ST (LL OS Fs) unit) P f : finishes r m P f ->
  finishes r (_ ← (if c then set_umask r um else mret tt); m) P f.
Proof. intros Hm. destruct c; [exact (finishes_umask r um (fun _ => m) P f Hm)|]. by apply finishes_bind, fwp_ret. Qed.

Lemma node_op_fin opcode buf r nodeid inarg f : fs_ok f -> opcode ∈ node_ops -> known nodeid f ->
  finishes r (handler ops intr_call opcode buf r nodeid inarg) (grows f) f.
Proof.
  intros Hf Hop Hk. unfold node_ops in Hop. rewrite !elem_of_cons, elem_of_nil in Hop.
  repeat destruct Hop as [->|Hop]; try done; (erewrite handler_table by (try reflexivity; done)); cbn [snd].
  - by apply sfs_lookup_fin.
  - apply finishes_req_conn. intros c. by apply sfs_getattr_fin.
  - by apply sfs_setattr_fin.
  - by apply sfs_readlink_fin.
  - by apply mknod_symlink_fin.
  - apply finishes_req_conn. intros c. by apply umask_fin, mknod_symlink_fin.
  - apply finishes_req_conn. intros c. by apply umask_fin, mknod_symlink_fin.
  - by apply sfs_statfs_fin.
  - by apply sfs_getxattr_fin.
  - by apply sfs_listxattr_fin.
  - by apply sfs_opendir_fin.
  - apply finishes_req_conn. intros c. by apply umask_fin, sfs_create_fin.
Qed.

Lemma fd_op_fin opcode buf r nodeid inarg f : fs_ok f -> opcode ∈ fd_ops ->
  finishes r (handler ops intr_call opcode buf r nodeid inarg) (grows f) f.
Proof.
  intros Hf Hop. unfold fd_ops in Hop. rewrite !elem_of_cons, elem_of_nil in Hop.
  repeat destruct Hop as [->|Hop]; try done; (erewrite handler_table by (try reflexivity; done)); cbn [snd].
  - by apply sfs_fsync_fin.
  - apply finishes_req_conn. intros c. by apply sfs_flush_fin.
  - by apply err_reply_fin.
  - unfold do_setlk, do_setlk_common. destruct (has (u32_at inarg 40) FUSE_LK_FLOCK); [by apply sfs_flock_fin|by apply err_reply_fin].
  - unfold do_setlkw, do_setlk_common. destruct (has (u32_at inarg 40) FUSE_LK_FLOCK); [by apply sfs_flock_fin|by apply err_reply_fin].
  - by apply err_reply_fin.
  - by apply sfs_fallocate_fin.
Qed.

Lemma unhandled_fin opcode buf r nodeid inarg f : fs_ok f -> opcode ∈ unhandled_ops ->
  finishes r (handler ops intr_call opcode buf r nodeid inarg) (grows f) f.
Proof.
  intros Hf Hop. unfold unhandled_ops in Hop. rewrite !elem_of_cons, elem_of_nil in Hop.
  repeat destruct Hop as [->|Hop]; try done; (erewrite handler_table by (try reflexivity; done)); cbn [snd];
    try by apply err_reply_fin.
  apply finishes_req_conn. intros c. destruct (_ && _); by apply err_reply_fin.
Qed.

Lemma write_fin buf r nodeid inarg f : fs_ok f -> known nodeid f -> 0 <= u32_at inarg 16 < 2 ^ 32 ->
  has (bflags buf) FUSE_BUF_IS_FD = false ->
  finishes r (handler ops intr_call FUSE_WRITE buf r nodeid inarg) (grows f) f.
Proof.
  intros Hf Hk Hs Hfd. unfold handler. rewrite Z.eqb_refl. cbn [andb is_some op_write_buf assign_operations].
  unfold Dispatch.do_write_buf. rewrite Hfd. cbn [negb]. apply finishes_req_conn. intros c.
  assert (forall b, finishes r (bufv ← (if bsize b <? u32_at inarg 16 then _ ← err_reply r EIO; mret (FuseBufvec 1 0 0 [b])
     else sfs_write_buf r nodeid (FuseBufvec 1 0 0 [FuseBuf (u32_at inarg 16) (bflags b) (bmem b) (bfd b) (bpos b)])
            (i64 (u64_at inarg 8)) (write_fi (proto_minor c) inarg)); mret tt) (grows f) f) as Hb.
  { intros b. apply finishes_then. destruct (_ <? _).
    - by apply (finishes_then r (err_reply r EIO) (fun _ => FuseBufvec 1 0 0 [b])), err_reply_fin.
    - apply sfs_write_buf_fin; [done|done| |cbn; lia]. split; [done|]. split; [by repeat constructor; cbn; lia|].
      split; [done|]. intros _. cbn. lia. }
  destruct (_ <? 9); apply finishes_bind; [apply fwp_bind, (fwp_ret tt)|]; apply fwp_ret; exact (Hb _).
Qed.

Lemma served_fin opcode buf r nodeid inarg f : fs_ok f -> served (OS := OS) f nodeid inarg opcode ->
  has (bflags buf) FUSE_BUF_IS_FD = false ->
  finishes r (handler ops intr_call opcode buf r nodeid inarg) (grows f) f.
Proof.
  intros Hf Hs Hfd. destruct Hs as [op Hop Hk|op Hop|op Hop Hd|Hk Hk2|i Hi Hd|Hk Hn Hs|Hk Hs|i Hi Hd|op Hop].
  - by apply node_op_fin.
  - by apply fd_op_fin.
  - rewrite !elem_of_cons, elem_of_nil in Hop. destruct Hop as [->|[->|[]]];
      (erewrite handler_table by (try reflexivity; done)).
    + by apply sfs_releasedir_fin.
    + by apply sfs_fsyncdir_fin.
  - erewrite handler_table by (try reflexivity; done). by apply sfs_link_fin.
  - erewrite handler_table by (try reflexivity; done). by apply (sfs_open_fin _ _ _ i).
  - erewrite handler_table by (try reflexivity; done). apply finishes_req_conn. intros c. by apply sfs_read_fin.
  - by apply write_fin.
  - erewrite handler_table by (try reflexivity; done). apply finishes_req_conn. intros c. by apply (sfs_release_fin _ _ _ i).
  - by apply unhandled_fin.
Qed.

Lemma served_no_intr f nodeid inarg : served (OS := OS) f nodeid inarg FUSE_INTERRUPT -> False.
Proof.
  inversion 1 as [? Hop|? Hop|? Hop| | | | | |? Hop]; unfold node_ops, fd_ops, unhandled_ops in *;
    rewrite !elem_of_cons, elem_of_nil in Hop; repeat destruct Hop as [Hop|Hop]; done.
Qed.

End Session.

(** ** Reference counts *)

(** The references the kernel holds to the node of a source file. *)
Definition count (k : Z * Z) (f : Fs) : Z :=
  match inodes f !! k with
  | Some p => match objs f !! p with Some i => nlookup i | None => 0 end
  | None => 0
  end.

Section Counts.
Context {OS : Type} `{FdOps OS} `{DevOps OS} `{Posix OS} `{!PosixLaws OS}.
Implicit Types (f g : Fs) (s : LL OS Fs).

Lemma wp_run {A} (m : ST (LL OS Fs) A) (Q : A -> Fs -> Prop) s : wp m Q (user s) ->
  exists a s', m s = Some (a, s') /\ Q a (user s').
Proof. intros Hm. destruct (Hm s eq_refl Logic.I) as (a & s' & E & _ & HQ). eauto. Qed.

Lemma outcome_lookup f t k p i i' g : fs_ok f -> entry_of k p i f g ->
  let f' := at_obj t p i' g in
  inodes f' !! k = Some p /\ count k f' = nlookup i' /\ count k f = nlookup i /\
  forall k', k' <> k -> inodes f' !! k' = inodes f !! k' /\ count k' f' = count k' f.
Proof.
  intros Hf He f'. destruct He as [(Hm & Hp & ->)|(Hm & -> & -> & ->)]; unfold count, f'; cbn.
  - rewrite Hm, Hp, lookup_insert_eq. repeat split; try done. destruct (inodes f !! k') as [p'|] eqn:E'; [|done].
    rewrite lookup_insert_ne; [done|]. intros <-. by apply H2, (ok_inj _ _ _ Hf _ _ p).
  - rewrite Hm, !lookup_insert_eq. repeat split; try done; rewrite !lookup_insert_ne by done; [done|].
    destruct (inodes f !! k') as [p'|] eqn:E'; [|done]. rewrite lookup_insert_ne; [done|]. intros <-.
    destruct (ok_addr _ _ _ Hf _ (ok_live _ _ _ Hf _ _ E')). lia.
Qed.

(** C2: A lookup always returns.  Either it fails and the inode table is as it
    was, or one entry has one more reference, every other entry and its count
    are unchanged, and the node number given to the kernel is the entry's; for a
    node that is not an ID the second case is a success. *)
Theorem lookup_counts parent name s : fs_ok (user s) -> known parent (user s) ->
  exists err e s', F3.do_lookup parent name s = Some ((err, e), s') /\ fs_ok (user s') /\
    (err <> 0 /\ inodes (user s') = inodes (user s) /\ objs (user s') = objs (user s) \/
     exists k i, inodes (user s') !! k = Some (e_ino e) /\ objs (user s') !! e_ino e = Some i /\
       count k (user s') = u64 (count k (user s) + 1) /\ (is_id i = false -> err = 0) /\
       forall k', k' <> k -> inodes (user s') !! k' = inodes (user s) !! k' /\
                             count k' (user s') = count k' (user s)).
Proof.
  intros Hf Hk. destruct (wp_run (F3.do_lookup parent name) (lookup_outcome (user s)) s) as ([err e] & s' & E & Ho).
  { by apply fwp_do_lookup. }
  exists err, e, s'. split; [exact E|]. split; [by apply (outcome_grows _ _ _ Hf Ho)|].
  remember (err, e) as r eqn:Er. remember (user s') as f' eqn:Ef.
  destruct Ho as [err0 e0 t Hn|err0 e0 t k p i i' g He Hp Hi Hc Hz _ _ _]; injection Er as -> ->; [by left|].
  right. destruct (outcome_lookup (user s) t k p i i' g Hf He) as (L1 & L2 & L3 & L4).
  exists k, i'. rewrite Hp, L2, L3. split; [done|]. split; [cbn; apply lookup_insert_eq|]. done.
Qed.

(** The entry at [p], if there is one, is open (its descriptor was not dropped by
    an unlink) and referenced, and its count has room for one more. *)
Definition referenced (p : Z) f : Prop :=
  forall i, objs f !! p = Some i -> 0 < fd i /\ 0 < nlookup i < 2 ^ 64 - 1.

(** Forgetting references to an object that is filed under its own key. *)
Lemma forget_one_wp p n i k f (Q : unit -> Fs -> Prop) : fs_ok f -> objs f !! p = Some i ->
  k = (src_ino i, src_dev i) -> (n = nlookup i -> inodes f !! k = Some p) -> n <= nlookup i ->
  (forall t, Q tt (if nlookup i - n =? 0
                   then with_trace t (with_inodes (delete k (inodes f)) (with_objs (delete p (objs f)) f))
                   else at_obj t p (set_nlookup (nlookup i - n) i) f)) ->
  wp (forget_one p n) Q f.
Proof.
  intros Hf Hp -> Hk Hn HQ.
  assert (p <> FUSE_ROOT_ID) as Hr by (destruct (ok_addr _ _ _ Hf p); [by exists i|lia]).
  unfold forget_one. apply fwp_bind, (get_inode_sees _ i); [done| |].
  { unfold obj_at. apply Z.eqb_neq in Hr. by rewrite Hr. }
  destruct (Z.ltb_spec (nlookup i) n); [lia|]. rewrite <- (at_obj_id p i f Hp).
  apply fwp_bind, wp_update_at; [done|]. destruct (Z.eqb_spec (nlookup i - n) 0) as [E|E]; [|by apply fwp_ret].
  unfold inodes_erase. apply fwp_bind, wp_get_fs. cbn [inodes at_obj with_trace with_objs]. rewrite Hk by lia.
  apply fwp_bind. eapply fwp_of_option; [cbn; apply lookup_insert_eq|]. apply fwp_bind.
  assert (forall t, wp (set_user (fun f => with_inodes (delete (src_ino i, src_dev i) (inodes f))
    (with_objs (delete p (objs f)) f)) : ST (LL OS Fs) unit) Q (at_obj t p (set_nlookup (nlookup i - n) i) f)) as Hdel.
  { intros t. apply fwp_set_user. pose proof (HQ t) as Ht. cbn in *. unfold with_inodes, with_objs, with_trace in *.
    cbn in *. by rewrite delete_insert_eq. }
  destruct (_ <? _); [apply calls_close; intros _ t; apply Hdel|apply fwp_ret, Hdel].
Qed.

(** C3: Looking a node up and forgetting that reference gives the inode table
    back as it was, object by object, when the node is not an ID: a new entry is
    erased, an old one has its count again.  An old entry must be open and
    referenced ([referenced]): one whose descriptor was dropped by the unlink of
    its last name is opened again by the lookup, and one that no reference holds
    any more would be erased. *)
Theorem lookup_forget parent name s e s1 i : fs_ok (user s) -> known parent (user s) ->
  F3.do_lookup parent name s = Some ((0, e), s1) -> referenced (e_ino e) (user s) ->
  objs (user s1) !! e_ino e = Some i -> is_id i = false ->
  exists s2, forget_one (e_ino e) 1 s1 = Some (tt, s2) /\
    inodes (user s2) = inodes (user s) /\ objs (user s2) = objs (user s).
Proof.
  intros Hf Hk E Href Hi Hid.
  destruct (wp_run (F3.do_lookup parent name) (lookup_outcome (user s)) s) as ([err e0] & s' & E' & Ho);
    [by apply fwp_do_lookup|]. rewrite E in E'. injection E' as <- <- <-.
  pose proof (outcome_grows _ _ _ Hf Ho) as [Hf1 _].
  remember (0, e) as r eqn:Er. remember (user s1) as f1 eqn:Ef.
  destruct Ho as [? ? ? Hn|err0 e1 t k p j i' g He Hp Hi' Hc Hz Hold Hnew _]; injection Er as -> ->; [done|].
  rewrite Hp in *. assert (i = i') as ->.
  { cbn in Hi. rewrite lookup_insert_eq in Hi. congruence. }
  enough (wp (forget_one (OS := OS) p 1) (fun _ f2 => inodes f2 = inodes (user s) /\ objs f2 = objs (user s)) (at_obj t p i' g))
    as Hw. { rewrite Ef in Hw. destruct (wp_run _ _ _ Hw) as ([] & s2 & E2 & R). by exists s2. }
  destruct He as [(Hm & Hj & ->)|(Hm & -> & -> & ->)].
  - destruct (Href j Hj) as [Hfd Hcnt]. rewrite (Hold Hfd Hid) in *.
    assert (nlookup (set_nlookup (u64 (nlookup j + 1)) j) = nlookup j + 1) as En by (apply u64_id; lia).
    eapply forget_one_wp; [done|cbn; apply lookup_insert_eq|done|lia|lia|]. intros t2. rewrite En.
    destruct (Z.eqb_spec (nlookup j + 1 - 1) 0); [lia|]. cbn. split; [done|]. rewrite insert_insert_eq.
    apply insert_id. rewrite Hj, Z.add_simpl_r. by destruct j.
  - assert (nlookup i' = 1) as En by (rewrite Hc; done).
    eapply forget_one_wp; [done|cbn; apply lookup_insert_eq|done| |lia|].
    + intros _. cbn. rewrite Hnew by (cbn; done || lia). apply lookup_insert_eq.
    + intros t2. rewrite En. cbn. rewrite Hnew by (cbn; done || lia). rewrite !delete_insert_id; [done| |done].
      destruct (objs (user s) !! next_obj (user s)) eqn:Ex; [|done].
      destruct (ok_addr _ _ _ Hf (next_obj (user s))); [by eexists|lia].
Qed.

(** Forgetting [n] of the references to an entry filed under its own key takes
    [n] from its count; the entry is erased exactly when none is left, and every
    other entry keeps its object. *)
Theorem forget_counts p n i s : fs_ok (user s) -> objs (user s) !! p = Some i ->
  inodes (user s) !! (src_ino i, src_dev i) = Some p -> n <= nlookup i ->
  exists s', forget_one p n s = Some (tt, s') /\ fs_ok (user s') /\
    count (src_ino i, src_dev i) (user s') = nlookup i - n /\
    (inodes (user s') !! (src_ino i, src_dev i) = None <-> n = nlookup i) /\
    forall p', p' <> p -> objs (user s') !! p' = objs (user s) !! p'.
Proof.
  intros Hf Hp Hk Hn. set (k := (src_ino i, src_dev i)) in *.
  destruct (wp_run (forget_one (OS := OS) p n) (fun _ f' => fs_ok f' /\ count k f' = nlookup i - n /\
    (inodes f' !! k = None <-> n = nlookup i) /\ forall p', p' <> p -> objs f' !! p' = objs (user s) !! p') s)
    as ([] & s' & E & R); [|by exists s'].
  apply (forget_one_wp p n i k); try done. intros t. destruct (Z.eqb_spec (nlookup i - n) 0) as [E|E].
  - unfold count. cbn. rewrite lookup_delete_eq. split; [|split; [lia|split; [split; [lia|done]|]]].
    + split; cbn; try apply Hf.
      * intros k' p' [Hne Hp']%lookup_delete_Some. rewrite lookup_delete_ne; [by apply (ok_live _ _ _ Hf k')|].
        intros <-. by apply Hne, (ok_inj _ _ _ Hf _ _ p).
      * intros p' [x [_ Hx]%lookup_delete_Some]. apply (ok_addr _ _ _ Hf). by exists x.
      * intros k1 k2 p' [_ H1']%lookup_delete_Some [_ H2']%lookup_delete_Some. by apply (ok_inj _ _ _ Hf _ _ p').
      * intros p' x [_ Hx]%lookup_delete_Some. by apply (ok_fd _ _ _ Hf p').
    + intros p' Hp'. by rewrite lookup_delete_ne.
  - unfold count. cbn. rewrite Hk, lookup_insert_eq. split; [|split; [done|split; [split; [done|lia]|]]].
    + apply (table_update _ _ _ _ i); [done|done|]. exact (ok_fd _ _ _ Hf p i Hp).
    + intros p' Hp'. by rewrite lookup_insert_ne.
Qed.

(** The object [i] at [p] is still filed, without references. *)
Definition leaked (p : Z) (i : Inode) f : Prop :=
  (exists k, inodes f !! k = Some p) /\ objs f !! p = Some (set_nlookup 0 i).

(** An ID is filed under the number of its source file, but carries the number
    of its cached file: when the kernel forgets its last reference, the entry is
    looked for under the wrong key, and the object stays in the table, with its
    descriptor open and no references. *)
Theorem id_entry_leaks parent name s e s1 i : fs_ok (user s) -> known parent (user s) ->
  F3.do_lookup parent name s = Some ((0, e), s1) ->
  objs (user s1) !! e_ino e = Some i -> is_id i = true ->
  inodes (user s1) !! (st_ino (e_attr e), st_dev (e_attr e)) = None ->
  exists s2, forget_one (e_ino e) (nlookup i) s1 = Some (tt, s2) /\ leaked (e_ino e) i (user s2).
Proof.
  intros Hf Hk E Hi Hid Hnone.
  destruct (wp_run (F3.do_lookup parent name) (lookup_outcome (user s)) s) as ([err e0] & s' & E' & Ho);
    [by apply fwp_do_lookup|]. rewrite E in E'. injection E' as <- <- <-.
  pose proof (outcome_grows _ _ _ Hf Ho) as [Hf1 _].
  remember (0, e) as r eqn:Er. remember (user s1) as f1 eqn:Ef.
  destruct Ho as [? ? ? Hn|err0 e1 t k p j i' g He Hp Hi' Hc Hz _ _ Hsrc]; injection Er as -> ->; [done|].
  rewrite Hp in *. assert (i = i') as ->.
  { cbn in Hi. rewrite lookup_insert_eq in Hi. congruence. }
  destruct (outcome_lookup (user s) t k p j i' g Hf He) as (L1 & _).
  destruct (entry_parent k p j (user s) g FUSE_ROOT_ID Hf (or_introl eq_refl) He) as [_ Hr].
  destruct (Hsrc Hid eq_refl) as [Es1 Es2]. rewrite <- Es1, <- Es2 in Hnone.
  enough (wp (forget_one (OS := OS) p (nlookup i')) (fun _ f2 => inodes f2 !! k = Some p /\
    objs f2 !! p = Some (set_nlookup 0 i')) (at_obj t p i' g)) as Hw.
  { rewrite Ef in Hw. destruct (wp_run _ _ _ Hw) as ([] & s2 & E2 & R1 & R2). exists s2. split; [done|]. split; [by exists k|done]. }
  unfold forget_one. apply fwp_bind, (get_inode_sees _ i'); [done| |].
  { unfold obj_at. apply Z.eqb_neq in Hr. rewrite Hr. exact Hi. }
  rewrite Z.ltb_irrefl, Z.sub_diag. apply fwp_bind, wp_update_at; [done|]. cbn [Z.eqb].
  unfold inodes_erase. apply fwp_bind, wp_get_fs. cbn in Hnone, L1 |- *. rewrite Hnone. apply fwp_ret.
  cbn. split; [done|apply lookup_insert_eq].
Qed.
End Counts.

(** ** Waiting for a download *)

(** The calls of [rs] turns of the loop, and the size the last one saw. *)
Definition waits (idfd : Z) (rs : list (sysres * sysres)) : list (syscall * sysres) :=
  concat ((fun r => [(Usleep 500000, r.1); (Fstatat idfd, r.2)]) <$> rs).

Fixpoint seen_size (sz : Z) (rs : list (sysres * sysres)) : Z :=
  match rs with
  | [] => sz
  | r :: rs => seen_size (if rv r.2 =? -1 then sz else st_size (rstat r.2)) rs
  end.

Section Waiting.
Context {OS : Type} `{FdOps OS} `{DevOps OS} `{Posix OS}.
Implicit Types (f : Fs) (s : LL OS Fs).

Lemma wait_download_wp turns idfd target want sz f (Q : unit -> Fs -> Prop) :
  (forall rs, (length rs <= turns)%nat ->
     ((length rs < turns)%nat -> must_wait (seen_size sz rs) target want = false) ->
     (forall rs1 r rs2, rs = rs1 ++ r :: rs2 -> must_wait (seen_size sz rs1) target want = true) ->
     Q tt (with_trace (trace f ++ waits idfd rs) f)) ->
  wp (wait_download (OS := OS) turns idfd target want sz) Q f.
Proof.
  revert sz f. induction turns as [|turns IH]; intros sz f HQ; cbn [wait_download].
  { apply fwp_ret. rewrite <- (with_trace_id f), <- (app_nil_r (trace f)).
    apply (HQ []); [cbn; lia|cbn; lia|]. by intros [] ? ? [=]. }
  destruct (must_wait sz target want) eqn:Ew.
  - apply fwp_bind, wp_posix. intros r1. apply fwp_bind, wp_posix. intros r2. apply IH. intros rs Hl Hm Hb.
    cbn [trace with_trace]. rewrite <- !app_assoc. apply (HQ ((r1, r2) :: rs)); [cbn; lia|cbn; intros; apply Hm; lia|].
    intros [|x rs1] r rs2; cbn [app]; [by intros _|]. intros [= <- E]. cbn. by eapply Hb.
  - apply fwp_ret. rewrite <- (with_trace_id f), <- (app_nil_r (trace f)).
    apply (HQ []); [cbn; lia|done|]. by intros [] ? ? [=].
Qed.

(** C4: When a read waits.  It sleeps only while the cached file is shorter than
    the end of the range and the range ends before the size the producer
    recorded, half a second at a time and at most 24 times, then goes on to the
    data; it changes nothing but the record of its calls.  A range that ends at
    or beyond the recorded size never waits, however little has been downloaded:
    the read of the tail of a file returns what is in the cache.  The comment of
    the code means such a read to wait as well, only that of a file whose
    producer recorded no size should go on at once. *)
Theorem read_waits r ino size off fi i s : fs_ok (user s) -> obj_at ino (user s) = Some i ->
  exists st rs s1, sfs_read r ino size off fi s = F3.do_read r size off fi s1 /\ quiet None s s1 /\
    user s1 = with_trace (trace (user s) ++ (Fstatat (id_fd i), st) :: waits (id_fd i) rs) (user s) /\
    (length rs <= 24)%nat /\
    (let reached := seen_size (st_size (rstat st)) rs in
     (length rs < 24)%nat -> u64 (off + size) <= u64 reached \/ target_size i <= u64 (off + size)) /\
    (forall rs1 x rs2, rs = rs1 ++ x :: rs2 ->
      u64 (seen_size (st_size (rstat st)) rs1) < u64 (off + size) < target_size i) /\
    (target_size i <= u64 (off + size) -> rs = []).
Proof.
  intros Hf Hi. unfold sfs_read.
  destruct (get_inode_sees (OS := OS) ino i (fun j f => j = i /\ f = user s) (user s) Hf Hi (conj eq_refl eq_refl) s eq_refl Logic.I)
    as (j & s0 & E0 & Q0 & -> & U0).
  erewrite bind_step by exact E0.
  destruct (wp_posix_sees (OS := OS) (Fstatat (id_fd i)) (fun st f => f = with_trace (trace (user s) ++ [(Fstatat (id_fd i), st)]) (user s))
    (user s) (fun _ _ _ _ => eq_refl) s0 U0 Logic.I) as (st & s1 & E1 & Q1 & U1).
  erewrite bind_step by exact E1.
  destruct (wait_download_wp READ_TURNS (id_fd i) (target_size i) (u64 (off + size)) (st_size (rstat st)) (user s1)
    (fun _ f => exists rs, (length rs <= 24)%nat /\
       ((length rs < 24)%nat -> must_wait (seen_size (st_size (rstat st)) rs) (target_size i) (u64 (off + size)) = false) /\
       (forall rs1 x rs2, rs = rs1 ++ x :: rs2 -> must_wait (seen_size (st_size (rstat st)) rs1) (target_size i) (u64 (off + size)) = true) /\
       f = with_trace (trace (user s1) ++ waits (id_fd i) rs) (user s1)))
    with (s := s1) as ([] & s2 & E2 & Q2 & rs & Hl & Hm & Hb & U2); [by intros rs; exists rs|done|done|].
  erewrite bind_step by exact E2. exists st, rs, s2. split; [done|].
  split. { by eapply quiet_trans, quiet_trans. }
  split. { rewrite U2, U1. cbn. by rewrite <- app_assoc. }
  split; [done|]. unfold must_wait in Hm, Hb. split; [|split].
  - intros Hlt. specialize (Hm Hlt). apply andb_false_iff in Hm as [?%Z.ltb_ge|?%Z.ltb_ge]; lia.
  - intros rs1 x rs2 Hrs. apply Hb in Hrs. apply andb_prop in Hrs as [?%Z.ltb_lt ?%Z.ltb_lt]. lia.
  - intros Hge. destruct rs as [|x rs]; [done|]. specialize (Hb [] x rs eq_refl). apply andb_prop in Hb as [_ ?%Z.ltb_lt]. lia.
Qed.
End Waiting.

(** ** The size of an ID *)

Section Writing.
Context {OS : Type} `{FdOps OS} `{DevOps OS} `{!FdLaws OS} `{Posix OS}.
Implicit Types (f : Fs) (s : LL OS Fs).

Lemma read_obj_at p i s : obj_at p (user s) = Some i -> read_obj p s = Some (i, s).
Proof.
  intros Hi. unfold read_obj. erewrite bind_step by reflexivity. unfold obj_at in Hi.
  destruct (_ =? _); [by injection Hi as ->|]. by rewrite Hi.
Qed.

Lemma write_obj_at p i s : let s' := upd_user (if p =? FUSE_ROOT_ID then with_root i (user s)
    else with_objs (<[p := i]> (objs (user s))) (user s)) s in
  write_obj p i s = Some (tt, s') /\ obj_at p (user s') = Some i.
Proof.
  cbn. split; [done|]. unfold obj_at, upd_user. cbn. destruct (p =? FUSE_ROOT_ID); [done|].
  cbn. by rewrite lookup_insert_eq.
Qed.

(** One message went out on the session's device. *)
Definition replied s s' (msg : bytes) : Prop := sent s' = sent s ++ [(se_fd (se s), msg)].

(** What the write does once the data has been copied. *)
Lemma write_done r ino off res i s l li n q : inv s l li n -> live s l li n r q ->
  obj_at ino (user s) = Some i -> is_id i = true -> 0 <= off + res < 2 ^ 64 ->
  exists s' i', (j ← read_obj ino;
     _ ← (if is_id j && (size j <? u64 (off + res)) then write_obj ino (set_size (u64 (off + res)) j) else mret tt);
     ign (fuse_reply_write r res)) s = Some (tt, s') /\
    obj_at ino (user s') = Some i' /\ size i' = Z.max (size i) (off + res) /\
    sent s' = sent s ++ [(se_fd (se s), reply_msg 0 (unique q) [le 4 res ++ le 4 0])].
Proof.
  intros I L Hi Hid Hb. erewrite bind_step by (apply read_obj_at; exact Hi). rewrite Hid, u64_id by done. cbn [andb].
  assert (exists s1 i1, (if size i <? off + res then write_obj ino (set_size (off + res) i) else mret tt) s = Some (tt, s1) /\
    obj_at ino (user s1) = Some i1 /\ size i1 = Z.max (size i) (off + res) /\ lks s1 = lks s /\ reqs s1 = reqs s /\
    nreqs s1 = nreqs s /\ fresh s1 = fresh s /\ sent s1 = sent s /\ se s1 = se s) as (s1 & i1 & E1 & O1 & Z1 & R).
  { destruct (Z.ltb_spec (size i) (off + res)).
    - destruct (write_obj_at ino (set_size (off + res) i) s) as [Ew Ow]. eexists _, _. split; [exact Ew|].
      split; [exact Ow|]. split; [cbn; lia|]. by repeat split.
    - exists s, i. split; [done|]. split; [done|]. split; [lia|]. by repeat split. }
  erewrite bind_step by exact E1. destruct R as (R1 & R2 & R3 & R4 & R5 & R6).
  destruct (send_reply_spec s1 l li n r q 0 (le 4 res ++ le 4 0)) as (x & s2 & E2 & (_ & (_ & _ & _ & _ & Hu & _) & Es & _) & _);
    [by apply (inv_ext s)|by apply (live_ext s)|].
  exists s2, i1. split; [unfold ign, fuse_reply_write, send_reply_ok; by erewrite bind_step by exact E2|].
  split; [by rewrite Hu|]. split; [done|]. rewrite Es, R5, R6. done.
Qed.

(** C5: Writing to an ID: when the copy fails, nothing is recorded; when it takes
    [res] bytes, the kernel is told [res], and the recorded size is the larger of
    the old size and the end of this write, so that writes may come in any
    order. *)
Theorem write_size r ino v off fi i s l li n q : inv s l li n -> live s l li n r q -> fs_ok (user s) ->
  obj_at ino (user s) = Some i -> is_id i = true -> vec_ok v -> 0 <= off -> off + sum_sizes (bufs v) < 2 ^ 63 ->
  exists v' s' i', sfs_write_buf r ino v off fi s = Some (v', s') /\ obj_at ino (user s') = Some i' /\
    ((exists err, i' = i /\ replied s s' (reply_msg err (unique q) [])) \/
     (exists res, 0 <= res <= sum_sizes (bufs v) /\ size i' = Z.max (size i) (off + res) /\
        replied s s' (reply_msg 0 (unique q) [le 4 res ++ le 4 0]))).
Proof.
  intros I L Hf Hi Hid Hv Hoff Hs. pose proof Hv as (_ & Hsz & _). pose proof (sum_sizes_nonneg _ Hsz).
  unfold sfs_write_buf.
  destruct (get_inode_sees (OS := OS) ino i (fun j f => f = user s) (user s) Hf Hi eq_refl s eq_refl Logic.I)
    as (j & s0 & E0 & Q0 & U0). erewrite bind_step by exact E0.
  rewrite fuse_buf_size_sum by (done || lia). unfold F3.do_write_buf. erewrite bind_step by reflexivity.
  set (dv := fd_bufvec _ _ _). set (fl := FUSE_BUF_COPY_FLAGS _).
  assert (remaining dv = sum_sizes (bufs v)) as Hr by (unfold remaining; case_bool_decide; cbn in *; lia).
  destruct (copy_ends dv v fl (mach s0)) as (res & dv' & v' & w' & Ec & Hle); [apply fd_bufvec_ok; lia|done|lia|].
  erewrite bind_step by (unfold lift_w; rewrite Ec; reflexivity). cbv beta iota zeta.
  set (s1 := MkLL _ _ _ _ _ _ _ w' _ _).
  assert (quiet None s s1 /\ user s1 = user s) as [Q1 U1] by done.
  pose proof (quiet_inv _ _ _ _ _ _ Q1 I) as I1. assert (live s1 l li n r q) as L1 by (destruct Q1 as (_ & B1 & _ & B2 & _); by apply (live_ext s)).
  assert (se s1 = se s /\ sent s1 = sent s) as [A1 A2] by (destruct Q1 as (? & _ & _ & _ & _ & ?); done).
  destruct (Z.ltb_spec res 0) as [Hneg|Hpos].
  - destruct (fuse_reply_err_spec s1 l li n r q (i32 (- res)) I1 L1) as (x & s2 & E2 & (_ & (_ & _ & _ & _ & Hu & _) & Es & _) & _).
    exists v', s2, i. split.
    { erewrite bind_step by (unfold F3_REPLY_ERR, ign; erewrite bind_step by exact E2; reflexivity). done. }
    split; [by rewrite Hu, U1|]. left. eexists. split; [done|]. unfold replied. by rewrite Es, A1, A2.
  - destruct (write_done r ino off res i s1 l li n q I1 L1) as (s2 & i' & E2 & O2 & Z2 & S2); [by rewrite U1|done|lia|].
    exists v', s2, i'. split; [by erewrite bind_step by exact E2|]. split; [done|]. right. exists res.
    split; [lia|]. split; [done|]. unfold replied. by rewrite S2, A1, A2.
Qed.
End Writing.

(** ** Names and numbers *)

Lemma strrchr_notin s c : c ∉ s -> strrchr s c = None.
Proof.
  induction s as [|x s IH]; [done|]. intros [Hx Hs]%not_elem_of_cons. cbn. rewrite (IH Hs).
  destruct (Z.eqb_spec x c); [by subst|done].
Qed.

Lemma strrchr_last s t c : c ∉ t -> strrchr (s ++ c :: t) c = Some (length s).
Proof.
  intros Ht. induction s as [|x s IH]; cbn.
  - rewrite strrchr_notin by done. by rewrite Z.eqb_refl.
  - by rewrite IH.
Qed.

Lemma strrchr_split s c i : strrchr s c = Some i -> s = take i s ++ c :: drop (S i) s.
Proof.
  revert i. induction s as [|x s IH]; intros i; cbn; [done|].
  destruct (strrchr s c) as [j|] eqn:E; [intros [= <-]; cbn; by rewrite <- IH|].
  destruct (Z.eqb_spec x c); [|done]. intros [= <-]. by subst.
Qed.

Definition ends_in_id (name : bytes) : Prop := exists stem, name = stem ++ lit ".id".

(** A name is an ID name exactly when it ends in .id: only the last dot
    counts. *)
Theorem id_ext_spec name : f3_is_id_ext name = true <-> ends_in_id name.
Proof.
  unfold f3_is_id_ext, ends_in_id. split.
  - destruct (strrchr name 46) as [i|] eqn:E; [|done]. intros Hd%bool_decide_eq_true_1.
    apply strrchr_split in E. exists (take i name). by rewrite E, Hd at 1.
  - intros [stem ->]. change (lit ".id") with (46 :: lit "id").
    rewrite strrchr_last by (by apply (bool_decide_eq_true_1 (46 ∉ lit "id"))).
    replace (drop (S (length stem)) (stem ++ 46 :: lit "id")) with (lit "id"); [done|].
    rewrite drop_app_ge by lia. by replace (S (length stem) - length stem)%nat with 1%nat by lia.
Qed.

Lemma digits_app acc s t : Forall (fun c => isdigit c = true) s -> digits acc (s ++ t) = digits (digits acc s) t.
Proof. intros Hs. revert acc. induction Hs as [|c s Hc _ IH]; intros acc; cbn; [done|]. by rewrite Hc, IH. Qed.

Lemma isdigit_small d : 0 <= d < 10 -> isdigit (48 + d) = true.
Proof. intros Hd. unfold isdigit. apply andb_true_intro. split; apply Z.leb_le; lia. Qed.

Lemma decimal_fuel_spec n z : 0 <= z < 2 ^ Z.of_nat n -> (0 < n)%nat ->
  Forall (fun c => isdigit c = true) (decimal_fuel n z) /\ digits 0 (decimal_fuel n z) = z /\ decimal_fuel n z <> [].
Proof.
  revert z. induction n as [|n IH]; intros z Hz Hn; [lia|]. cbn [decimal_fuel].
  pose proof (Z.mod_pos_bound z 10 ltac:(lia)) as Hm.
  destruct (Z.ltb_spec z 10) as [Hlt|Hge].
  - cbn [app]. rewrite Z.mod_small in * by lia. split; [constructor; [by apply isdigit_small|constructor]|].
    split; [|done]. cbn [digits]. rewrite isdigit_small by lia. lia.
  - rewrite Nat2Z.inj_succ, Z.pow_succ_r in Hz by lia.
    assert (z / 10 < 2 ^ Z.of_nat n) by (apply Z.div_lt_upper_bound; lia).
    assert (0 <= z / 10) by (apply Z.div_pos; lia).
    destruct n as [|n]; [change (2 ^ Z.of_nat 0) with 1 in *; lia|].
    destruct (IH (z / 10)) as (Hd & Hv & _); [lia|lia|]. split; [|split].
    + apply Forall_app. split; [done|]. constructor; [by apply isdigit_small|constructor].
    + rewrite digits_app, Hv by done. cbn [digits]. rewrite isdigit_small by lia.
      pose proof (Z.div_mod z 10). lia.
    + by destruct (decimal_fuel (S n) (z / 10)).
Qed.

Lemma decimal_spec z : 0 <= z ->
  Forall (fun c => isdigit c = true) (decimal z) /\ digits 0 (decimal z) = z /\ decimal z <> [].
Proof.
  intros Hz. apply decimal_fuel_spec; [|lia]. split; [done|]. rewrite Nat2Z.inj_succ, Z2Nat.id by apply Z.log2_nonneg.
  destruct (decide (z = 0)) as [->|Hne]; [done|]. apply Z.log2_spec. lia.
Qed.

Lemma decimal_length n k z : z < 10 ^ Z.of_nat k -> (0 < k)%nat -> (length (decimal_fuel n z) <= k)%nat.
Proof.
  revert k z. induction n as [|n IH]; intros k z Hz Hk; cbn [decimal_fuel]; [cbn; lia|].
  destruct (Z.ltb_spec z 10) as [Hlt|Hge]; [cbn; lia|]. rewrite length_app. cbn [length].
  destruct k as [|[|k]]; [lia|change (10 ^ Z.of_nat 1) with 10 in *; lia|].
  rewrite Nat2Z.inj_succ, Z.pow_succ_r in Hz by lia.
  assert (length (decimal_fuel n (z / 10)) <= S k)%nat; [|lia]. apply IH; [|lia].
  apply Z.div_lt_upper_bound; lia.
Qed.

Lemma strtol_decimal z : 0 <= z < 2 ^ 63 -> strtol (decimal z) = z.
Proof.
  intros Hz. destruct (decimal_spec z) as (Hd & Hv & Hn); [lia|].
  destruct (decimal z) as [|c s]; [done|]. apply Forall_cons in Hd as [Hc Hd].
  cbn [strtol]. rewrite Hv. unfold isdigit, isspace in *. apply andb_prop in Hc as [H1%Z.leb_le H2%Z.leb_le].
  destruct (Z.eqb_spec c 32); [lia|]. destruct (Z.leb_spec c 13); [lia|]. rewrite andb_false_r. cbn [orb].
  destruct (Z.eqb_spec c 45); [lia|]. destruct (Z.eqb_spec c 43); [lia|]. lia.
Qed.

Lemma cstr_digits s : Forall (fun c => isdigit c = true) s -> cstr s = s.
Proof.
  induction 1 as [|c s Hc _ IH]; cbn; [done|]. unfold isdigit in Hc. apply andb_prop in Hc as [Hc%Z.leb_le _].
  destruct (Z.eqb_spec c 0); [lia|]. by rewrite IH.
Qed.

Section Sizes.
Context {OS : Type} `{FdOps OS} `{DevOps OS} `{Posix OS}.
Implicit Types (s : LL OS Fs).

(** [posix] when the answer is known. *)
Lemma posix_known c s o r : posix_call c (os (mach s)) = (o, r) ->
  posix c s = Some (r, MkLL (se s) (reqs s) (nreqs s) (lks s) (chans s) (fresh s) (LowLevel.heap s)
     (World o (ram (mach s)) (brk (mach s))) (sent s) (with_trace (trace (user s) ++ [(c, r)]) (user s))).
Proof. intros E. unfold posix. by rewrite E. Qed.

(** The size attribute of the file behind [ofd] reads as [v]. *)
Definition reads_size (ofd : Z) (v : bytes) s : Prop :=
  exists o1 nfd o2 g, posix_call (Open (proc_path ofd) O_RDONLY) (os (mach s)) = (o1, nfd) /\ rv nfd <> -1 /\
    posix_call (Fgetxattr (rv nfd) (lit "user.f3.size") 23) o1 = (o2, g) /\ 0 <= rv g /\ rdata g = v.

Lemma get_size_reads ofd v s : reads_size ofd v s ->
  exists s', f3_get_size_xattr ofd s = Some (u64 (strtol (cstr v)), s').
Proof.
  intros (o1 & nfd & o2 & g & E1 & Hn%Z.eqb_neq & E2 & Hg & <-).
  unfold f3_get_size_xattr, f3_get_full_fd.
  erewrite bind_step by (erewrite bind_step by (apply posix_known; exact E1); reflexivity). rewrite Hn.
  erewrite bind_step by (apply posix_known; exact E2).
  match goal with |- context [(posix (Close ?x) ≫= _) ?s0] =>
    destruct (posix_call (Close x) (os (mach s0))) as [o3 c] eqn:E3; erewrite bind_step by (apply posix_known; exact E3) end.
  destruct (Z.ltb_spec (rv g) 0); [lia|]. by eexists.
Qed.

(** The size a writer stores in the attribute of the source file is the size a
    reader gets back: the text fits in the reader's buffer, and a reader whose
    query returns it computes the same number. *)
Theorem size_xattr_roundtrip ofd sz s : 0 <= sz < 2 ^ 63 ->
  exists s' opened t, f3_update_size_xattr ofd sz s = Some (tt, s') /\
    trace (user s') = trace (user s) ++ (Open (proc_path ofd) O_RDONLY, opened) :: t /\
    (rv opened = -1 \/ exists v r, (Fsetxattr (rv opened) (lit "user.f3.size") v, r) ∈ t /\
       (length v < 23)%nat /\
       forall s2, reads_size ofd v s2 -> exists s3, f3_get_size_xattr ofd s2 = Some (sz, s3)).
Proof.
  intros Hs. enough (wp (f3_update_size_xattr (OS := OS) ofd sz) (fun _ f' => exists opened t,
    trace f' = trace (user s) ++ (Open (proc_path ofd) O_RDONLY, opened) :: t /\
    (rv opened = -1 \/ exists r, (Fsetxattr (rv opened) (lit "user.f3.size") (decimal sz), r) ∈ t)) (user s)) as Hw.
  { destruct (Hw s eq_refl Logic.I) as ([] & s' & E & _ & opened & t & Et & Hor). exists s', opened, t.
    split; [done|]. split; [done|]. destruct Hor as [?|(r & Hr)]; [by left|right]. exists (decimal sz), r.
    split; [done|]. split.
    - assert (length (decimal sz) <= 19)%nat; [|lia]. apply decimal_length; [|lia]. change (10 ^ Z.of_nat 19) with 10000000000000000000. lia.
    - intros s2 Hr2. destruct (get_size_reads ofd _ s2 Hr2) as (s3 & E3). exists s3.
      rewrite cstr_digits, strtol_decimal, u64_id in E3; try done; [lia|]. apply decimal_spec. lia. }
  unfold f3_update_size_xattr, f3_get_full_fd, ign. apply fwp_bind, fwp_bind, wp_posix. intros r1. apply fwp_ret.
  destruct (Z.eqb_spec (rv r1) (-1)) as [E|E].
  - apply fwp_ret. exists r1, []. split; [done|by left].
  - apply fwp_bind, wp_posix. intros r2. apply fwp_bind, wp_posix. intros r3. apply fwp_ret. cbn. eexists r1, _.
    rewrite <- !app_assoc. split; [done|]. right. exists r2. apply elem_of_app. left. by left.
Qed.
End Sizes.

(** ** The INIT handler *)

Section Init.
Context {OS : Type} `{FdOps OS} `{DevOps OS} `{Posix OS}.

Lemma flags_in_lor x y z : flags_in x z -> flags_in y z -> flags_in (Z.lor x y) z.
Proof.
  rewrite !flags_in_bits. intros Hx Hy k Hk. rewrite Z.lor_spec, orb_true_iff. intros [?|?]; auto.
Qed.

Lemma flags_in_has k z : 0 <= k -> has z (2 ^ k) = true -> flags_in (2 ^ k) z.
Proof.
  intros Hk Hz. rewrite has_pow2 in Hz by done. apply flags_in_bits. intros j Hj.
  rewrite Z.pow2_bits_eqb by done. by intros <-%Z.eqb_eq.
Qed.

(** A set of capabilities between two. *)
Definition between (lo hi w : Z) : Prop := 0 <= w < 2 ^ 32 /\ flags_in w hi /\ flags_in lo w.

Lemma ask_between cond cap c lo w : 0 <= cap < 32 -> between lo (capable c) w ->
  between lo (capable c) (ask cond (2 ^ cap) c w).
Proof.
  intros Hc (Hw & Hf & Hl). unfold ask. destruct cond; cbn [andb]; [|done].
  destruct (has (capable c) (2 ^ cap)) eqn:E; [|done]. split; [|split].
  - apply (translate_range [(1, 2 ^ cap)] 1 w Hw). constructor; [|constructor]. cbn [snd].
    split; [apply Z.pow_nonneg; lia|apply Z.pow_lt_mono_r; lia].
  - apply flags_in_lor; [done|]. apply flags_in_has; [lia|done].
  - apply flags_in_bits. intros k Hk Hb. rewrite Z.lor_spec. apply orb_true_iff. left. by eapply flags_in_bits.
Qed.

(** F3's INIT handler only chooses capabilities, keeps its own state, and
    chooses only among what the kernel offers: started from a request within the
    offer it adds to it and stays within the offer, so that the negotiation is
    never closed on its account. *)
Theorem f3_init_offer (c : fuse_conn_info) (s : LL OS Fs) :
  0 <= want c < 2 ^ 32 -> flags_in (want c) (capable c) ->
  exists w, sfs_init c s = Some (with_want w c, s) /\ between (want c) (capable c) w.
Proof.
  intros Hw Hf. eexists. split; [unfold sfs_init; by erewrite bind_step by reflexivity|].
  unfold FUSE_CAP_EXPORT_SUPPORT, FUSE_CAP_WRITEBACK_CACHE, FUSE_CAP_FLOCK_LOCKS, FUSE_CAP_SPLICE_WRITE, FUSE_CAP_SPLICE_READ.
  do 5 (apply ask_between; [lia|]). split; [done|]. split; [done|]. apply flags_in_bits. auto.
Qed.
End Init.

(** ** Where the code goes wrong *)

Section Bugs.
Context {OS : Type} `{FdOps OS} `{DevOps OS} `{Posix OS}.
Implicit Types (s : LL OS Fs).

Definition fails (c : syscall) s : Prop := exists o r, posix_call c (os (mach s)) = (o, r) /\ rv r = -1.

Lemma reply_gone r e s : reqs s !! r = None -> F3_REPLY_ERR r e s = None.
Proof.
  intros Hr. unfold F3_REPLY_ERR, ign, fuse_reply_err, send_reply, send_reply_iov, fuse_send_reply_iov_nofree, mbind, ST_bind.
  unfold get_req, mbind, ST_bind, get. by rewrite Hr.
Qed.

(** A handler that goes on after it has replied, and replies again. *)
Lemma reply_again r e c s l i n q (k : sysres -> ST (LL OS Fs) unit) : inv s l i n -> live s l i n r q ->
  (forall x s', reqs s' !! r = None -> k x s' = None) ->
  (_ ← F3_REPLY_ERR r e; x ← posix c; k x) s = None.
Proof.
  intros I L Hk. destruct (fuse_reply_err_spec s l i n r q e I L) as (x & s1 & E & (_ & (_ & Er & _) & _) & _).
  erewrite bind_step by (unfold F3_REPLY_ERR, ign; erewrite bind_step by exact E; reflexivity).
  destruct (posix_call c (os (mach s1))) as [o y] eqn:Ec. erewrite bind_step by (apply posix_known; exact Ec).
  apply Hk. cbn. by rewrite Er, lookup_delete_eq.
Qed.

(** The first call of a handler fails. *)
Lemma first_fails c s (k : sysres -> ST (LL OS Fs) unit) l i n r q : fails c s -> inv s l i n -> live s l i n r q ->
  (forall x s1, rv x = -1 -> inv s1 l i n -> live s1 l i n r q -> k x s1 = None) -> (x ← posix c; k x) s = None.
Proof.
  intros (o & x & E & Hx) I L Hk. erewrite bind_step by (apply posix_known; exact E).
  apply Hk; [done|by apply (inv_ext s)|by apply (live_ext s)].
Qed.

Lemma get_inode_at p i s : fs_ok (user s) -> obj_at p (user s) = Some i -> get_inode p s = Some (i, s).
Proof.
  intros Hf Hp. unfold get_inode. erewrite bind_step by (by apply read_obj_at). unfold obj_at in Hp.
  destruct (Z.eqb_spec p FUSE_ROOT_ID); cbn [negb andb]; [done|].
  apply (ok_fd _ _ _ Hf), Z.eqb_neq in Hp. by rewrite Hp.
Qed.

(** C39: The handlers that change both trees reply to the request when the call on
    the source tree fails and do not stop: they go on to the cache tree and reply
    a second time, which uses the request after it has been freed. *)
Theorem replies_twice r node name name2 value flags i s l li n q :
  inv s l li n -> live s l li n r q -> fs_ok (user s) -> obj_at node (user s) = Some i ->
  (fails (Unlinkat (fd i) name AT_REMOVEDIR) s -> sfs_rmdir r node name s = None) /\
  (fails (Unlinkat (fd i) name 0) s -> cached (user s) = true -> sfs_unlink r node name s = None) /\
  (fails (Renameat (fd i) name (fd i) name2) s -> sfs_rename r node name node name2 0 s = None) /\
  (fails (Setxattr (proc_path (fd i)) name value flags) s -> sfs_setxattr r node name value flags s = None) /\
  (forall fuel, fails (Removexattr (proc_path (fd i)) name) s -> streq name (lit "user.f3.id") = false ->
     sfs_removexattr fuel r node name s = None).
Proof.
  intros I L Hf Hi. pose proof (get_inode_at node i s Hf Hi) as Eg.
  split; [|split; [|split; [|split]]].
  - intros Hc. unfold sfs_rmdir. erewrite bind_step by exact Eg. eapply first_fails; [done|done|done|].
    intros x s1 -> I1 L1. cbn [Z.eqb Pos.eqb]. eapply reply_again; [done|done|]. intros. by apply reply_gone.
  - intros Hc Hca. unfold sfs_unlink. erewrite bind_step by exact Eg. erewrite bind_step by reflexivity.
    rewrite Hca. cbn [negb]. erewrite bind_step by reflexivity. cbn [Z.eqb negb]. eapply first_fails; [done|done|done|].
    intros x s1 -> I1 L1. cbn [Z.eqb Pos.eqb]. eapply reply_again; [done|done|]. intros y s2 Hg.
    destruct (rv y =? -1); [|erewrite bind_step by reflexivity; by apply reply_gone].
    unfold mbind, ST_bind. by rewrite reply_gone.
  - intros Hc. unfold sfs_rename. erewrite bind_step by exact Eg. erewrite bind_step by exact Eg. cbn [Z.eqb negb].
    eapply first_fails; [done|done|done|].
    intros x s1 -> I1 L1. cbn [Z.eqb Pos.eqb]. eapply reply_again; [done|done|]. intros. by apply reply_gone.
  - intros Hc. unfold sfs_setxattr, reply_result. erewrite bind_step by exact Eg. eapply first_fails; [done|done|done|].
    intros x s1 -> I1 L1. cbn [Z.eqb Pos.eqb]. eapply reply_again; [done|done|]. intros. by apply reply_gone.
  - intros fuel Hc Hn. unfold sfs_removexattr. erewrite bind_step by exact Eg. eapply first_fails; [done|done|done|].
    intros x s1 -> I1 L1. cbn [Z.eqb Pos.eqb]. eapply reply_again; [done|done|]. intros y s2 Hg. rewrite Hn.
    destruct (rv y =? -1); [unfold mbind, ST_bind; by rewrite reply_gone|].
    erewrite bind_step by reflexivity. erewrite bind_step by reflexivity. by apply reply_gone.
Qed.

(** [m] writes [data] to a descriptor, and does nothing else. *)
Definition sends (wfd : Z) (data : bytes) (m : ST (LL OS Fs) sysres) s : Prop :=
  exists r s', m s = Some (r, s') /\ trace (user s') = trace (user s) ++ [(Write wfd data, r)].

(** A download request shorter than 100 bytes is written to the client whole,
    with its newline; one of exactly 100 bytes loses its newline to the
    terminating NUL, and for a longer one the client is sent memory from behind
    the buffer. *)
Theorem download_request_bounds wfd path srv end_byte s :
  let text := download_request path end_byte srv in
  ((length text < 100)%nat -> sends wfd text (write_formatted wfd 100 text) s) /\
  ((length text = 100)%nat -> sends wfd (take 99 text ++ [0]) (write_formatted wfd 100 text) s) /\
  ((100 < length text)%nat -> download_file wfd path srv end_byte s = None).
Proof.
  intros text. split; [|split]; intros Hl.
  - destruct (posix_call (Write wfd text) (os (mach s))) as [o r] eqn:E. eexists r, _. split.
    + unfold write_formatted. destruct (Z.ltb_spec 100 (Z.of_nat (length text))); [lia|].
      rewrite (take_ge text) by (cbn; lia). rewrite take_app_length. apply posix_known. exact E.
    + done.
  - set (cut := take 99 text). destruct (posix_call (Write wfd (cut ++ [0])) (os (mach s))) as [o r] eqn:E.
    eexists r, _. split.
    + unfold write_formatted. destruct (Z.ltb_spec 100 (Z.of_nat (length text))); [lia|].
      change (Z.to_nat 100 - 1)%nat with 99%nat. fold cut.
      rewrite (take_ge (cut ++ [0])); [apply posix_known; exact E|].
      unfold cut. rewrite length_app, length_take, Hl. cbn. lia.
    + done.
  - unfold download_file. unfold mbind, ST_bind, write_formatted. fold text.
    destruct (Z.ltb_spec 100 (Z.of_nat (length text))); [done|lia].
Qed.

(** [send_fname_done] has the same flaw with its 4096 bytes: a recorded path that
    fills the buffer it was read into is formatted with a newline, and the write
    of the length [snprintf] returned reads past the end. *)
Lemma fname_done_overreads wfd fname s : (Z.to_nat PATH_MAX <= length fname)%nat ->
  send_fname_done wfd fname s = None.
Proof.
  intros Hl. unfold send_fname_done. unfold mbind, ST_bind, write_formatted. rewrite length_app. cbn [length].
  unfold PATH_MAX in *. destruct (Z.ltb_spec 4096 (Z.of_nat (length fname + 1))); [done|lia].
Qed.
End Bugs.

(** ** Examples *)

(** A system whose calls answer by a function, on the files of [Buf]. *)
Definition answering (g : syscall -> sysres) : Posix files := fun c o => (o, g c).

Definition ok_res (v : Z) : sysres := Res v 0 stat0 [] None (Statvfs 0 0 0 0 0 0 0 0).
Definition err_res (e : Z) : sysres := Res (-1) e stat0 [] None (Statvfs 0 0 0 0 0 0 0 0).
Definition stat_res (dev ino sz : Z) : sysres :=
  Res 0 0 (Stat dev ino 33188 1 0 0 0 sz 0 0 0 0 0 0 0 0) [] None (Statvfs 0 0 0 0 0 0 0 0).

(** Descriptor 3 is the source tree with the files [a] and [b.id], 4 the cache;
    nothing can be removed, there are no attributes, and the cached file of
    [b.id] is node 900 of another device. *)
Definition sim_call (c : syscall) : sysres :=
  match c with
  | Openat 3 name _ _ => if streq name (lit "a") then ok_res 20 else if streq name (lit "b.id") then ok_res 21
                         else err_res ENOENT
  | Openat 4 _ _ _ => ok_res 30
  | Open _ _ => ok_res 40
  | Fstatat 20 => stat_res 5 77 10
  | Fstatat 21 => stat_res 5 78 10
  | Fstatat 30 => stat_res 6 900 4
  | Fgetxattr _ name _ => if streq name (lit "user.f3.size")
                          then Res 3 0 stat0 (lit "100") None (Statvfs 0 0 0 0 0 0 0 0) else err_res ENODATA
  | Unlinkat _ _ _ => err_res ENOENT
  | _ => ok_res 0
  end.

#[local] Instance sim_posix : Posix files := answering sim_call.

#[local] Instance sim_laws : PosixLaws files.
Proof.
  constructor. intros c o o' r [= <- <-]. unfold sim_call. by repeat case_match.
Qed.

(** The state after start-up: nothing looked up yet, caching on. *)
Definition sim_fs : Fs :=
  MkFs ∅ ∅ 4096 (set_nlookup 9999 (set_id_fd 4 (set_fd 3 Inode0))) TIMEOUT 5 true (lit "/src") (lit "/cache")
    (lit "10.0.0.1") 8 (lit "/run/f3.sock") ∅ [] [].

(** Request 1, number 77, is waiting for its answer. *)
Definition sim_ll : LL files Fs :=
  with_new_req example_req (start example_session (World (∅ : files) ∅ 1000) sim_fs).

Lemma sim_ok : inv sim_ll [] [] [] /\ live sim_ll [] [] [] 1 example_req.
Proof. apply inv_new_req; [apply inv_start|done|done]. Qed.

Lemma empty_table n : FUSE_ROOT_ID < n -> table_ok ∅ ∅ n.
Proof. intros Hn. split; [done|..]; intros *; rewrite ?lookup_empty; try done; by intros []. Qed.

Lemma sim_fs_ok : fs_ok sim_fs.
Proof. by apply empty_table. Qed.

(** LOOKUP of [b.id] in the root, as the kernel sends it. *)
Definition id_lookup_msg : bytes :=
  le 4 45 ++ le 4 1 ++ le 8 5 ++ le 8 1 ++ le 4 1000 ++ le 4 1000 ++ le 4 42 ++ le 4 0 ++ lit "b.id" ++ [0].

Definition lookup_session : LL files Fs :=
  start example_session (World (∅ : files) (store ∅ 2000 id_lookup_msg) 4000) sim_fs.


Lemma lookup_counts_witness : exists err e s',
  F3.do_lookup 1 (lit "a") sim_ll = Some ((err, e), s') /\ err = 0 /\ count (77, 5) (user s') = 1.
Proof.
  destruct (lookup_counts 1 (lit "a") sim_ll sim_fs_ok (or_introl eq_refl)) as (err & e & s' & E & _ & Hor).
  exists err, e, s'. split; [exact E|]. vm_compute in E. injection E as <- <- <-. vm_compute. split; reflexivity.
Defined.

Lemma sim_referenced p : referenced p sim_fs.
Proof. intros i. cbn. by rewrite lookup_empty. Qed.

Lemma lookup_forget_witness : exists e s1 s2,
  F3.do_lookup 1 (lit "a") sim_ll = Some ((0, e), s1) /\ e_ino e = 4096 /\
  forget_one (e_ino e) 1 s1 = Some (tt, s2) /\ inodes (user s2) = ∅ /\ objs (user s2) = ∅.
Proof.
  assert (exists e s1 i, F3.do_lookup 1 (lit "a") sim_ll = Some ((0, e), s1) /\ e_ino e = 4096 /\
    objs (user s1) !! e_ino e = Some i /\ is_id i = false) as (e & s1 & i & E & En & Hi & Hid).
  { eexists _, _, _. split; [vm_compute; reflexivity|]. split; [reflexivity|]. split; vm_compute; reflexivity. }
  destruct (lookup_forget 1 (lit "a") sim_ll e s1 i sim_fs_ok (or_introl eq_refl) E (sim_referenced _) Hi Hid)
    as (s2 & E2 & M2 & O2).
  exists e, s1, s2. split; [exact E|]. split; [exact En|]. split; [exact E2|]. split; [exact M2|exact O2].
Defined.

Lemma id_entry_leaks_witness : exists e s1 i k s2,
  F3.do_lookup 1 (lit "b.id") sim_ll = Some ((0, e), s1) /\ nlookup i = 1 /\ fd i = 21 /\
  forget_one (e_ino e) (nlookup i) s1 = Some (tt, s2) /\ inodes (user s2) !! k = Some (e_ino e).
Proof.
  assert (exists e s1 i, F3.do_lookup 1 (lit "b.id") sim_ll = Some ((0, e), s1) /\
    objs (user s1) !! e_ino e = Some i /\ is_id i = true /\ nlookup i = 1 /\ fd i = 21 /\
    inodes (user s1) !! (st_ino (e_attr e), st_dev (e_attr e)) = None) as (e & s1 & i & E & Hi & Hid & Hn & Hfd & Hnone).
  { eexists _, _, _. split; [vm_compute; reflexivity|]. repeat split; vm_compute; reflexivity. }
  destruct (id_entry_leaks 1 (lit "b.id") sim_ll e s1 i sim_fs_ok (or_introl eq_refl) E Hi Hid Hnone)
    as (s2 & E2 & [k M2] & _).
  exists e, s1, i, k, s2. split; [exact E|]. split; [exact Hn|]. split; [exact Hfd|]. split; [exact E2|exact M2].
Defined.

(** One entry: an ID at address 4096 whose producer wrote 1000 bytes, with
    [b.id] cached up to byte 4. *)
Definition sim_inode : Inode :=
  MkInode 21 30 5 78 0 1 3 true false [] [] 0 0 10 1000.

Definition one_fs : Fs :=
  with_next_obj 4160 (with_inodes {[(78, 5) := 4096]} (with_objs {[4096 := sim_inode]} sim_fs)).

Definition one_ll : LL files Fs :=
  with_new_req example_req (start example_session (World ({[7 := []]} : files) (store ∅ 500 [1; 2; 3]) 1000) one_fs).

Lemma one_fs_ok : fs_ok one_fs.
Proof.
  split; cbn [inodes objs next_obj one_fs with_next_obj with_inodes with_objs]; [done|..].
  - by intros k p [_ <-]%lookup_singleton_Some.
  - intros p [i [<- _]%lookup_singleton_Some]. unfold FUSE_ROOT_ID. lia.
  - intros k k' p [<- _]%lookup_singleton_Some [<- _]%lookup_singleton_Some. done.
  - intros p i [_ <-]%lookup_singleton_Some. done.
Qed.

Lemma one_ok : inv one_ll [] [] [] /\ live one_ll [] [] [] 1 example_req.
Proof. apply inv_new_req; [apply inv_start|done|done]. Qed.

Lemma forget_counts_witness : exists s', forget_one 4096 2 one_ll = Some (tt, s') /\ count (78, 5) (user s') = 1.
Proof.
  destruct (forget_counts 4096 2 sim_inode one_ll one_fs_ok) as (s' & E & _ & C & _);
    [vm_compute; reflexivity|vm_compute; reflexivity|vm_compute; discriminate|].
  exists s'. split; [exact E|exact C].
Defined.

(** Four of the thousand bytes are in the cache: a read of bytes 0 to 99 waits, one
    of bytes 900 to 999 does not. *)
Lemma read_waits_witness :
  (exists rs s1, sfs_read 1 4096 100 0 fi0 one_ll = F3.do_read 1 100 0 fi0 s1 /\ (length rs <= 24)%nat /\
    exists st, user s1 = with_trace ((Fstatat 30, st) :: waits 30 rs) one_fs) /\
  (exists s1 st, sfs_read 1 4096 100 900 fi0 one_ll = F3.do_read 1 100 900 fi0 s1 /\
    user s1 = with_trace [(Fstatat 30, st)] one_fs).
Proof.
  split.
  - destruct (read_waits 1 4096 100 0 fi0 sim_inode one_ll one_fs_ok) as (st & rs & s1 & E & _ & U & Hl & _);
      [vm_compute; reflexivity|].
    exists rs, s1. split; [exact E|]. split; [exact Hl|]. exists st. exact U.
  - destruct (read_waits 1 4096 100 900 fi0 sim_inode one_ll one_fs_ok) as (st & rs & s1 & E & _ & U & _ & _ & _ & Ht);
      [vm_compute; reflexivity|]. rewrite Ht in U by (vm_compute; discriminate).
    exists s1, st. split; [exact E|exact U].
Defined.

Definition three_bytes : fuse_bufvec := one_buf (mem_buf 500 3).

Lemma write_size_witness : exists v' s' i',
  sfs_write_buf 1 4096 three_bytes 20 (with_fh 7 fi0) one_ll = Some (v', s') /\
  obj_at 4096 (user s') = Some i' /\ size i' = 23.
Proof.
  destruct one_ok as [I L].
  destruct (write_size 1 4096 three_bytes 20 (with_fh 7 fi0) sim_inode one_ll [] [] [] example_req I L one_fs_ok)
    as (v' & s' & i' & E & O & _);
    [vm_compute; reflexivity|reflexivity| |discriminate|reflexivity|].
  { split; [reflexivity|]. split; [repeat constructor; discriminate|]. split; cbn; lia. }
  exists v', s', i'. split; [exact E|]. split; [exact O|].
  vm_compute in E. injection E as <- <-. vm_compute in O. injection O as <-. reflexivity.
Defined.

Lemma size_xattr_roundtrip_witness : exists s' opened t, f3_update_size_xattr 21 100 one_ll = Some (tt, s') /\
  trace (user s') = (Open (proc_path 21) O_RDONLY, opened) :: t.
Proof.
  destruct (size_xattr_roundtrip 21 100 one_ll) as (s' & opened & t & E & T & _); [lia|].
  exists s', opened, t. split; [exact E|exact T].
Defined.

Lemma replies_twice_witness : sfs_rmdir 1 1 (lit "d") sim_ll = None.
Proof.
  destruct sim_ok as [I L].
  refine (proj1 (replies_twice 1 1 (lit "d") [] [] 0 (set_nlookup 9999 (set_id_fd 4 (set_fd 3 Inode0))) sim_ll [] [] []
    example_req I L sim_fs_ok eq_refl) _).
  eexists _, _. split; [reflexivity|reflexivity].
Defined.

Lemma download_request_bounds_witness : exists r s', write_formatted 5 100 (download_request (lit "/b.id") 0 (lit "10.0.0.1")) sim_ll = Some (r, s') /\
  trace (user s') = [(Write 5 (lit "/b.id,0,10.0.0.1" ++ [10]), r)].
Proof.
  destruct (download_request_bounds 5 (lit "/b.id") (lit "10.0.0.1") 0 sim_ll) as [Hs _].
  destruct Hs as (r & s' & E & T); [vm_compute; lia|]. exists r, s'. split; [exact E|exact T].
Defined.

Lemma f3_init_offer_witness : exists w, sfs_init (with_want 0 example_conn) sim_ll = Some (with_want w example_conn, sim_ll) /\
  flags_in w (capable example_conn).
Proof.
  destruct (f3_init_offer (with_want 0 example_conn) sim_ll) as (w & E & _ & Hf & _);
    [vm_compute; split; [discriminate|reflexivity]|reflexivity|].
  exists w. split; [exact E|exact Hf].
Defined.
