(* ===== verification/Lib.v ===== *)
(** * The operations of a file system and its state: fuse.c, middle part

    The high-level library serves a file system that is written with paths: a
    table of callbacks, [struct fuse_operations].  This file holds the table, the
    state of the library around the nodes of [Node] and the locks of [Path], the
    wrappers [fuse_fs_*] that call the table or answer for a missing callback,
    and the helpers the request handlers of [LibOps] share.

    A callback gets the context of the request (who sent it), the state of the
    file system, of type [X], and the machine: it may make system calls and read
    and write memory.  It always returns.  A string that may be a null pointer is
    an [option].  Of the [struct fuse_file_info] a callback is handed, the
    changes that open, opendir and create make are kept, as the documentation of
    these callbacks says; changes by others are dropped.  Memory that is given
    back is not used again. *)

From Stdlib Require Import Floats.SpecFloat.
From S2P Require Import Prelude NodeTable Wire Locks Node Path Buf LowLevel Dispatch.

(** ** Data *)

(** What a readdir callback does with the [filler] it is given: it adds entries,
    looks at what the filler returns, and ends with a result and the new state. *)
Inductive dir_fill (S : Type) :=
  | DirDone (res : Z) (st : S)
  | DirAdd (nm : bytes) (st : option stat) (off flags : Z) (k : Z -> dir_fill S).
Arguments DirDone {S}.
Arguments DirAdd {S}.

(** A call of a callback. *)
Definition fsop (OS X A : Type) : Type := fuse_ctx -> X * world OS -> A * (X * world OS).

Record fuse_operations (OS X : Type) := FsOps {
  o_getattr : option (option bytes -> option fuse_file_info -> fsop OS X (Z * stat));
  o_readlink : option (option bytes -> Z -> fsop OS X (Z * bytes));
  o_mknod : option (option bytes -> Z -> Z -> fsop OS X Z);
  o_mkdir : option (option bytes -> Z -> fsop OS X Z);
  o_unlink : option (option bytes -> fsop OS X Z);
  o_rmdir : option (option bytes -> fsop OS X Z);
  o_symlink : option (bytes -> option bytes -> fsop OS X Z);
  o_rename : option (option bytes -> option bytes -> Z -> fsop OS X Z);
  o_link : option (option bytes -> option bytes -> fsop OS X Z);
  o_chmod : option (option bytes -> Z -> option fuse_file_info -> fsop OS X Z);
  o_chown : option (option bytes -> Z -> Z -> option fuse_file_info -> fsop OS X Z);
  o_truncate : option (option bytes -> Z -> option fuse_file_info -> fsop OS X Z);
  o_open : option (option bytes -> fuse_file_info -> fsop OS X (Z * fuse_file_info));
  o_read : option (option bytes -> Z -> Z -> Z -> fuse_file_info -> fsop OS X Z);
  o_write : option (option bytes -> Z -> Z -> Z -> fuse_file_info -> fsop OS X Z);
  o_statfs : option (option bytes -> fsop OS X (Z * statvfs));
  o_flush : option (option bytes -> fuse_file_info -> fsop OS X Z);
  o_release : option (option bytes -> fuse_file_info -> fsop OS X Z);
  o_fsync : option (option bytes -> Z -> fuse_file_info -> fsop OS X Z);
  o_setxattr : option (option bytes -> bytes -> bytes -> Z -> fsop OS X Z);
  o_getxattr : option (option bytes -> bytes -> Z -> fsop OS X (Z * bytes));
  o_listxattr : option (option bytes -> Z -> fsop OS X (Z * bytes));
  o_removexattr : option (option bytes -> bytes -> fsop OS X Z);
  o_opendir : option (option bytes -> fuse_file_info -> fsop OS X (Z * fuse_file_info));
  o_readdir : option (option bytes -> Z -> fuse_file_info -> Z -> fuse_ctx -> X * world OS -> dir_fill (X * world OS));
  o_releasedir : option (option bytes -> fuse_file_info -> fsop OS X Z);
  o_fsyncdir : option (option bytes -> Z -> fuse_file_info -> fsop OS X Z);
  o_init : option (fuse_conn_info -> fuse_config -> fsop OS X (fuse_conn_info * fuse_config));
  o_destroy : option (fsop OS X unit);
  o_access : option (option bytes -> Z -> fsop OS X Z);
  o_create : option (option bytes -> Z -> fuse_file_info -> fsop OS X (Z * fuse_file_info));
  o_lock : option (option bytes -> fuse_file_info -> Z -> flock -> fsop OS X (Z * flock));
  o_utimens : option (option bytes -> timespec * timespec -> option fuse_file_info -> fsop OS X Z);
  o_bmap : option (option bytes -> Z -> Z -> fsop OS X (Z * Z));
  o_ioctl : option (option bytes -> Z -> Z -> fuse_file_info -> Z -> bytes -> fsop OS X (Z * bytes));
  o_poll : option (option bytes -> fuse_file_info -> option Z -> fsop OS X (Z * Z));
  o_write_buf : option (option bytes -> fuse_bufvec -> Z -> fuse_file_info -> fsop OS X (Z * fuse_bufvec));
  o_read_buf : option (option bytes -> Z -> Z -> fuse_file_info -> fsop OS X (Z * option fuse_bufvec));
  o_flock : option (option bytes -> fuse_file_info -> Z -> fsop OS X Z);
  o_fallocate : option (option bytes -> Z -> Z -> Z -> fuse_file_info -> fsop OS X Z);
  o_copy_file_range : option (option bytes -> fuse_file_info -> Z -> option bytes -> fuse_file_info -> Z -> Z -> Z -> fsop OS X Z);
  o_lseek : option (option bytes -> Z -> Z -> fuse_file_info -> fsop OS X Z) }.
Arguments o_getattr {OS X}.
Arguments o_readlink {OS X}.
Arguments o_mknod {OS X}.
Arguments o_mkdir {OS X}.
Arguments o_unlink {OS X}.
Arguments o_rmdir {OS X}.
Arguments o_symlink {OS X}.
Arguments o_rename {OS X}.
Arguments o_link {OS X}.
Arguments o_chmod {OS X}.
Arguments o_chown {OS X}.
Arguments o_truncate {OS X}.
Arguments o_open {OS X}.
Arguments o_read {OS X}.
Arguments o_write {OS X}.
Arguments o_statfs {OS X}.
Arguments o_flush {OS X}.
Arguments o_release {OS X}.
Arguments o_fsync {OS X}.
Arguments o_setxattr {OS X}.
Arguments o_getxattr {OS X}.
Arguments o_listxattr {OS X}.
Arguments o_removexattr {OS X}.
Arguments o_opendir {OS X}.
Arguments o_readdir {OS X}.
Arguments o_releasedir {OS X}.
Arguments o_fsyncdir {OS X}.
Arguments o_init {OS X}.
Arguments o_destroy {OS X}.
Arguments o_access {OS X}.
Arguments o_create {OS X}.
Arguments o_lock {OS X}.
Arguments o_utimens {OS X}.
Arguments o_bmap {OS X}.
Arguments o_ioctl {OS X}.
Arguments o_poll {OS X}.
Arguments o_write_buf {OS X}.
Arguments o_read_buf {OS X}.
Arguments o_flock {OS X}.
Arguments o_fallocate {OS X}.
Arguments o_copy_file_range {OS X}.
Arguments o_lseek {OS X}.

(** [struct fuse_dh], an open directory.  [first] is the list of entries with
    [de->name] and [de->stat]; [contents] has [size] bytes, which are [junk]
    until they are written.  The pointers to the library and the request, and
    the mutex, are left out. *)
Record fuse_dh := Dh {
  dh_contents : bytes; dh_first : list (bytes * stat); dh_len : Z; dh_needlen : Z; dh_filled : bool;
  dh_fh : Z; dh_error : Z; dh_nodeid : Z }.

Definition dh_size (d : fuse_dh) : Z := Z.of_nat (length (dh_contents d)).

Definition with_contents (v : bytes) (d : fuse_dh) : fuse_dh :=
  Dh v (dh_first d) (dh_len d) (dh_needlen d) (dh_filled d) (dh_fh d) (dh_error d) (dh_nodeid d).
Definition with_first_entries (v : list (bytes * stat)) (d : fuse_dh) : fuse_dh :=
  Dh (dh_contents d) v (dh_len d) (dh_needlen d) (dh_filled d) (dh_fh d) (dh_error d) (dh_nodeid d).
Definition with_len (v : Z) (d : fuse_dh) : fuse_dh :=
  Dh (dh_contents d) (dh_first d) v (dh_needlen d) (dh_filled d) (dh_fh d) (dh_error d) (dh_nodeid d).
Definition with_needlen (v : Z) (d : fuse_dh) : fuse_dh :=
  Dh (dh_contents d) (dh_first d) (dh_len d) v (dh_filled d) (dh_fh d) (dh_error d) (dh_nodeid d).
Definition with_filled (v : bool) (d : fuse_dh) : fuse_dh :=
  Dh (dh_contents d) (dh_first d) (dh_len d) (dh_needlen d) v (dh_fh d) (dh_error d) (dh_nodeid d).
Definition with_dh_fh (v : Z) (d : fuse_dh) : fuse_dh :=
  Dh (dh_contents d) (dh_first d) (dh_len d) (dh_needlen d) (dh_filled d) v (dh_error d) (dh_nodeid d).
Definition with_dh_error (v : Z) (d : fuse_dh) : fuse_dh :=
  Dh (dh_contents d) (dh_first d) (dh_len d) (dh_needlen d) (dh_filled d) (dh_fh d) v (dh_nodeid d).

(** The library: the nodes, the state of the file system, whether [f->fs] is
    still set, the context of the thread (none before the first request), and
    the open directories by address. *)
Record lib (M X : Type) := Lib {
  fz : fuse M; fsx : X; fs_live : bool; context : option fuse_ctx; dhs : gmap Z fuse_dh; next_dh : Z }.
Arguments Lib {M X}.
Arguments fz {M X}.
Arguments fsx {M X}.
Arguments fs_live {M X}.
Arguments context {M X}.
Arguments dhs {M X}.
Arguments next_dh {M X}.

Definition with_fz {M X} (v : fuse M) (b : lib M X) : lib M X := Lib v (fsx b) (fs_live b) (context b) (dhs b) (next_dh b).
Definition with_fsx {M X} (v : X) (b : lib M X) : lib M X := Lib (fz b) v (fs_live b) (context b) (dhs b) (next_dh b).
Definition with_fs_live {M X} (v : bool) (b : lib M X) : lib M X := Lib (fz b) (fsx b) v (context b) (dhs b) (next_dh b).
Definition with_context {M X} (v : option fuse_ctx) (b : lib M X) : lib M X := Lib (fz b) (fsx b) (fs_live b) v (dhs b) (next_dh b).
Definition with_dhs {M X} (v : gmap Z fuse_dh) (n : Z) (b : lib M X) : lib M X := Lib (fz b) (fsx b) (fs_live b) (context b) v n.

(** [fi->direct_io = v] *)
Definition with_direct_io (v : bool) (f : fuse_file_info) : fuse_file_info :=
  FileInfo (fi_flags f) (fi_writepage f) v (fi_keep_cache f) (fi_flush f) (fi_nonseekable f)
    (fi_flock_release f) (fi_cache_readdir f) (fi_fh f) (fi_lock_owner f) (fi_poll_events f).

Definition set_conf {M} (c : fuse_config) (f : fuse M) : fuse M := MkFuse (name_table f) (id_table f) (lru_table f)
  (Node.ctr f) (fgeneration f) (hidectr f) c (lockq f) (slabs f) (nodes f) (forget_time f) (Node.heap f) (clock f).

(** ** Constants *)

Definition EPERM : Z := 1.
Definition ESTALE : Z := 116.
Definition S_IFREG : Z := 32768.
Definition S_ISREG (mode : Z) : bool := Z.land mode S_IFMT =? S_IFREG.
Definition PATH_MAX : Z := 4096.
Definition O_WRONLY : Z := 1.
Definition O_CREAT : Z := 64.
Definition O_EXCL : Z := 128.
Definition F_GETLK : Z := 5.
Definition F_SETLK : Z := 6.
Definition F_SETLKW : Z := 7.
Definition UTIME_NOW : Z := 1073741823.
Definition UTIME_OMIT : Z := 1073741822.
Definition RENAME_EXCHANGE : Z := 2.
Definition FUSE_READDIR_PLUS : Z := 1.
Definition FUSE_FILL_DIR_PLUS : Z := 2.
Definition FUSE_IOCTL_UNRESTRICTED : Z := 2.

Section Lib.
Context {OS M X : Type} `{FdOps OS} `{DevOps OS} `{NodeMem M}.
Context (op : fuse_operations OS X).

Abbreviation IO := (ST (LL OS (lib M X))).

(** ** Access to the state *)

(** A section that works on the nodes, under the mutex of the library. *)
Definition on_fuse {A} (m : ST (fuse M) A) : IO A := fun s =>
  match m (fz (user s)) with
  | Some (a, f) => Some (a, upd_user (with_fz f (user s)) s)
  | None => None
  end.

Definition get_lib : IO (lib M X) := s ← get; mret (user s).

Definition config : IO fuse_config := b ← get_lib; mret (conf (fz b)).

(** *** Requests *)

(** A file system that is gone, or a thread without a context, is a null
    pointer. *)
Definition fs_enter : IO unit :=
  b ← get_lib; _ ← check (fs_live b); _ ← of_option (context b); mret tt.

Definition fs_call {A} (o : fsop OS X A) : IO A :=
  s ← get;
  c ← of_option (context (user s));
  let '(a, (x, w)) := o c (fsx (user s), mach s) in
  _ ← set_user (with_fsx x); _ ← set_mach w; mret a.

(** [c->ctx.fuse] is not kept: there is one library. *)
Definition fuse_create_context (c : fuse_ctx) : IO unit :=
  b ← get_lib;
  match context b with
  | Some _ => set_user (with_context (Some c))
  | None => ok ← malloc; _ ← check ok; set_user (with_context (Some c))
  end.

Definition req_fuse_prepare (req : Z) : IO unit := q ← get_req req; fuse_create_context (ctx q).

(** *** Interrupts

    The data of an interrupt callback is the thread that works on the request.
    Only a thread that is interrupted by another one is sent a signal; a thread
    that finds its own request interrupted goes on. *)
Definition FUSE_INTERRUPT_FUNC : Z := 1.
Definition SELF : Z := 0.

Definition fuse_interrupt (func req d : Z) : IO unit :=
  _ ← get_req req; if (func =? FUSE_INTERRUPT_FUNC) && (d =? SELF) then mret tt else abort.

Definition fuse_do_prepare_interrupt (req : Z) : IO unit :=
  fuse_req_interrupt_func fuse_interrupt req (Some FUSE_INTERRUPT_FUNC) SELF.

Definition fuse_do_finish_interrupt (req : Z) : IO unit := fuse_req_interrupt_func fuse_interrupt req None 0.

Definition fuse_prepare_interrupt (req : Z) : IO unit :=
  c ← config; if intr c then fuse_do_prepare_interrupt req else mret tt.

Definition fuse_finish_interrupt (req : Z) : IO unit :=
  c ← config; if intr c then fuse_do_finish_interrupt req else mret tt.

(** *** Paths

    A handler here runs without others, so that no lock is in its way: [None],
    a wait, is an abort.  The error number, and the path: null if there is an
    error. *)
Definition path_of (r : option (Z + bytes * option Z)) : IO (Z * option bytes * option Z) :=
  match r with
  | Some (inl e) => mret (e, None, None)
  | Some (inr (s, w)) => mret (0, Some s, w)
  | None => abort
  end.

Definition get_path_ (ino : Z) : IO (Z * option bytes) := r ← on_fuse (get_path 0 ino); p ← path_of r; mret p.1.

Definition get_path_nullok (ino : Z) : IO (Z * option bytes) :=
  c ← config;
  if nullpath_ok c then mret (0, None) else
  r ← on_fuse (get_path_common 0 ino None false); p ← path_of r;
  mret (if p.1.1 =? - ENOENT then (0, p.1.2) else p.1).

Definition get_path_name_ (ino : Z) (nm : option bytes) : IO (Z * option bytes) :=
  r ← on_fuse (get_path_common 0 ino nm false); p ← path_of r; mret p.1.

Definition get_path_wrlock_ (ino : Z) (nm : bytes) : IO (Z * option bytes * option Z) :=
  r ← on_fuse (get_path_wrlock 0 ino nm); path_of r.

Definition get_path2_ (i1 : Z) (nm1 : option bytes) (i2 : Z) (nm2 : option bytes) (wr1 wr2 : bool) :
    IO (Z + (bytes * option Z) * (bytes * option Z)) :=
  r ← on_fuse (get_path2 0 i1 nm1 i2 nm2 wr1 wr2);
  match r with Some r => mret r | None => abort end.

Definition free_path_ (ino : Z) (path : option bytes) : IO unit := on_fuse (free_path ino path).

(** [forget_node]; the same for a wait. *)
Definition forget_node_ (ino n : Z) : IO unit :=
  r ← on_fuse (forget_begin 0 ino n); if r : bool then mret tt else abort.

(** ** The wrappers of the callbacks *)

Definition fs_op {T A} (o : option T) (call : T -> fsop OS X A) (missing : A) : IO A :=
  _ ← fs_enter; match o with Some f => fs_call (call f) | None => mret missing end.

Definition fuse_fs_getattr (path : option bytes) (fi : option fuse_file_info) : IO (Z * stat) :=
  fs_op (o_getattr op) (fun f => f path fi) (- ENOSYS, stat0).

Definition fuse_fs_rename (oldpath newpath : option bytes) (flags : Z) : IO Z :=
  fs_op (o_rename op) (fun f => f oldpath newpath flags) (- ENOSYS).

Definition fuse_fs_unlink (path : option bytes) : IO Z := fs_op (o_unlink op) (fun f => f path) (- ENOSYS).

Definition fuse_fs_rmdir (path : option bytes) : IO Z := fs_op (o_rmdir op) (fun f => f path) (- ENOSYS).

Definition fuse_fs_symlink (linkname : bytes) (path : option bytes) : IO Z :=
  fs_op (o_symlink op) (fun f => f linkname path) (- ENOSYS).

Definition fuse_fs_link (oldpath newpath : option bytes) : IO Z :=
  fs_op (o_link op) (fun f => f oldpath newpath) (- ENOSYS).

Definition fuse_fs_release (path : option bytes) (fi : fuse_file_info) : IO Z :=
  fs_op (o_release op) (fun f => f path fi) 0.

Definition fuse_fs_opendir (path : option bytes) (fi : fuse_file_info) : IO (Z * fuse_file_info) :=
  fs_op (o_opendir op) (fun f => f path fi) (0, fi).

Definition fuse_fs_open (path : option bytes) (fi : fuse_file_info) : IO (Z * fuse_file_info) :=
  fs_op (o_open op) (fun f => f path fi) (0, fi).

(** The memory of a vector that [read_buf] made is the callback's; here it has
    one buffer.  A callback that reports success without a vector makes the
    library follow a null pointer. *)
Definition fuse_fs_read_buf (path : option bytes) (size off : Z) (fi : fuse_file_info) : IO (Z * option fuse_bufvec) :=
  _ ← fs_enter;
  match o_read_buf op, o_read op with
  | Some f, _ =>
      r ← fs_call (f path size off fi);
      if r.1 <? 0 then mret r else _ ← of_option r.2; mret (0, r.2)
  | None, Some f =>
      ok ← malloc;
      if negb ok then mret (- ENOMEM, None) else
      ok ← malloc;
      if negb ok then mret (- ENOMEM, None) else
      mem ← brk_alloc size;
      res ← fs_call (f path mem size off fi);
      if res <? 0 then mret (res, Some (FuseBufvec 1 0 0 [FuseBuf size 0 mem (-1) 0]))
      else mret (0, Some (FuseBufvec 1 0 0 [FuseBuf res 0 mem (-1) 0]))
  | None, None => mret (- ENOSYS, None)
  end.

Definition fuse_fs_read (path : option bytes) (mem size off : Z) (fi : fuse_file_info) : IO Z :=
  _ ← fs_enter;
  match o_read_buf op, o_read op with
  | Some f, _ =>
      r ← fs_call (f path size off fi);
      if r.1 =? 0 then
        buf ← of_option r.2;
        c ← lift_w (fuse_buf_copy false (FuseBufvec 1 0 0 [FuseBuf size 0 mem (-1) 0]) buf 0);
        mret (i32 (c.1).1)
      else mret r.1
  | None, Some f => fs_call (f path mem size off fi)
  | None, None => mret (- ENOSYS)
  end.

(** The vector as it is afterwards. *)
Definition fuse_fs_write_buf (path : option bytes) (buf : fuse_bufvec) (off : Z) (fi : fuse_file_info) : IO (Z * fuse_bufvec) :=
  _ ← fs_enter;
  match o_write_buf op, o_write op with
  | None, None => mret (- ENOSYS, buf)
  | wb, w =>
      let size := fuse_buf_size buf in
      _ ← check (bool_decide (bidx buf = 0%nat) && (boff buf =? 0));
      match wb, w with
      | Some f, _ => fs_call (f path buf off fi)
      | None, Some f =>
          if bool_decide (bcount buf = 1%nat) && negb (has (bflags (buf_at buf 0)) FUSE_BUF_IS_FD) then
            let flatbuf := buf_at buf 0 in
            res ← fs_call (f path (bmem flatbuf) (bsize flatbuf) off fi); mret (res, buf)
          else
            ok ← malloc;
            if negb ok then mret (- ENOMEM, buf) else
            mem ← brk_alloc size;
            c ← lift_w (fuse_buf_copy false (FuseBufvec 1 0 0 [FuseBuf size 0 mem (-1) 0]) buf 0);
            let '(res, _, buf) := c in
            let res := i32 res in
            if res <=? 0 then mret (res, buf) else
            res ← fs_call (f path mem res off fi); mret (res, buf)
      | None, None => abort
      end
  end.

Definition fuse_fs_write (path : option bytes) (mem size off : Z) (fi : fuse_file_info) : IO Z :=
  r ← fuse_fs_write_buf path (FuseBufvec 1 0 0 [FuseBuf size 0 mem (-1) 0]) off fi; mret r.1.

Definition fuse_fs_fsync (path : option bytes) (datasync : Z) (fi : fuse_file_info) : IO Z :=
  fs_op (o_fsync op) (fun f => f path datasync fi) (- ENOSYS).

Definition fuse_fs_fsyncdir (path : option bytes) (datasync : Z) (fi : fuse_file_info) : IO Z :=
  fs_op (o_fsyncdir op) (fun f => f path datasync fi) (- ENOSYS).

Definition fuse_fs_flush (path : option bytes) (fi : fuse_file_info) : IO Z :=
  fs_op (o_flush op) (fun f => f path fi) (- ENOSYS).

(** The caller's buffer is zero. *)
Definition fuse_fs_statfs (path : option bytes) : IO (Z * statvfs) :=
  fs_op (o_statfs op) (fun f => f path) (0, Statvfs 512 0 0 0 0 0 0 255).

Definition fuse_fs_releasedir (path : option bytes) (fi : fuse_file_info) : IO Z :=
  fs_op (o_releasedir op) (fun f => f path fi) 0.

Definition fuse_fs_create (path : option bytes) (mode : Z) (fi : fuse_file_info) : IO (Z * fuse_file_info) :=
  fs_op (o_create op) (fun f => f path mode fi) (- ENOSYS, fi).

Definition fuse_fs_lock (path : option bytes) (fi : fuse_file_info) (cmd : Z) (lk : flock) : IO (Z * flock) :=
  fs_op (o_lock op) (fun f => f path fi cmd lk) (- ENOSYS, lk).

Definition fuse_fs_flock (path : option bytes) (fi : fuse_file_info) (o : Z) : IO Z :=
  fs_op (o_flock op) (fun f => f path fi o) (- ENOSYS).

Definition fuse_fs_chown (path : option bytes) (u g : Z) (fi : option fuse_file_info) : IO Z :=
  fs_op (o_chown op) (fun f => f path u g fi) (- ENOSYS).

Definition fuse_fs_truncate (path : option bytes) (size : Z) (fi : option fuse_file_info) : IO Z :=
  fs_op (o_truncate op) (fun f => f path size fi) (- ENOSYS).

Definition fuse_fs_utimens (path : option bytes) (tv : timespec * timespec) (fi : option fuse_file_info) : IO Z :=
  fs_op (o_utimens op) (fun f => f path tv fi) (- ENOSYS).

Definition fuse_fs_access (path : option bytes) (mask : Z) : IO Z :=
  fs_op (o_access op) (fun f => f path mask) (- ENOSYS).

Definition fuse_fs_readlink (path : option bytes) (len : Z) : IO (Z * bytes) :=
  fs_op (o_readlink op) (fun f => f path len) (- ENOSYS, []).

Definition fuse_fs_mknod (path : option bytes) (mode rdev : Z) : IO Z :=
  fs_op (o_mknod op) (fun f => f path mode rdev) (- ENOSYS).

Definition fuse_fs_mkdir (path : option bytes) (mode : Z) : IO Z :=
  fs_op (o_mkdir op) (fun f => f path mode) (- ENOSYS).

Definition fuse_fs_setxattr (path : option bytes) (nm value : bytes) (flags : Z) : IO Z :=
  fs_op (o_setxattr op) (fun f => f path nm value flags) (- ENOSYS).

Definition fuse_fs_getxattr (path : option bytes) (nm : bytes) (size : Z) : IO (Z * bytes) :=
  fs_op (o_getxattr op) (fun f => f path nm size) (- ENOSYS, []).

Definition fuse_fs_listxattr (path : option bytes) (size : Z) : IO (Z * bytes) :=
  fs_op (o_listxattr op) (fun f => f path size) (- ENOSYS, []).

Definition fuse_fs_bmap (path : option bytes) (blocksize idx : Z) : IO (Z * Z) :=
  fs_op (o_bmap op) (fun f => f path blocksize idx) (- ENOSYS, idx).

Definition fuse_fs_removexattr (path : option bytes) (nm : bytes) : IO Z :=
  fs_op (o_removexattr op) (fun f => f path nm) (- ENOSYS).

Definition fuse_fs_ioctl (path : option bytes) (cmd arg : Z) (fi : fuse_file_info) (flags : Z) (data : bytes) : IO (Z * bytes) :=
  fs_op (o_ioctl op) (fun f => f path cmd arg fi flags data) (- ENOSYS, data).

Definition fuse_fs_poll (path : option bytes) (fi : fuse_file_info) (ph : option Z) (revents : Z) : IO (Z * Z) :=
  fs_op (o_poll op) (fun f => f path fi ph) (- ENOSYS, revents).

Definition fuse_fs_fallocate (path : option bytes) (mode offset len : Z) (fi : fuse_file_info) : IO Z :=
  fs_op (o_fallocate op) (fun f => f path mode offset len fi) (- ENOSYS).

Definition fuse_fs_copy_file_range (path_in : option bytes) (fi_in : fuse_file_info) (off_in : Z)
    (path_out : option bytes) (fi_out : fuse_file_info) (off_out len flags : Z) : IO Z :=
  fs_op (o_copy_file_range op) (fun f => f path_in fi_in off_in path_out fi_out off_out len flags) (- ENOSYS).

Definition fuse_fs_lseek (path : option bytes) (off whence : Z) (fi : fuse_file_info) : IO Z :=
  fs_op (o_lseek op) (fun f => f path off whence fi) (- ENOSYS).

Definition fuse_fs_chmod (path : option bytes) (mode : Z) (fi : option fuse_file_info) : IO Z :=
  fs_op (o_chmod op) (fun f => f path mode fi) (- ENOSYS).

(** Capabilities that need a callback are given up without it; [conf] is the
    configuration the callback may change. *)
Definition give_up_cap (present : bool) (cap : Z) (c : fuse_conn_info) : fuse_conn_info :=
  if present then c else with_want (Z.land (want c) (Z.lnot cap)) c.

Definition fuse_fs_init (c : fuse_conn_info) : IO fuse_conn_info :=
  _ ← fs_enter;
  let c := give_up_cap (is_some (o_write_buf op)) FUSE_CAP_SPLICE_READ c in
  let c := give_up_cap (is_some (o_lock op)) FUSE_CAP_POSIX_LOCKS c in
  let c := give_up_cap (is_some (o_flock op)) FUSE_CAP_FLOCK_LOCKS c in
  match o_init op with
  | Some f =>
      cfg ← config;
      r ← fs_call (f c cfg);
      _ ← on_fuse (modify (set_conf r.2));
      mret r.1
  | None => mret c
  end.

(** The file system is freed. *)
Definition fuse_fs_destroy : IO unit :=
  _ ← fs_enter;
  match o_destroy op with Some f => fs_call f | None => mret tt end.

(** ** Hidden files

    A file that is removed while it is open is renamed to a hidden name instead,
    and removed when it is closed. *)

Definition hex_digit (d : Z) : Z := if d <? 10 then 48 + d else 87 + d.

(** [%08x] *)
Definition hex8 (z : Z) : bytes := (fun k => hex_digit (Z.shiftr (u32 z) (4 * k) mod 16)) <$> [7; 6; 5; 4; 3; 2; 1; 0].

Definition hidden_string (i c : Z) : bytes := lit ".fuse_hidden" ++ hex8 i ++ hex8 c.

(** The inner loop of [hidden_name]: the counter moves to a name that no node
    has.  Of more successive names than there are nodes one is free. *)
Fixpoint free_hidden (fuel : nat) (i dir : Z) : ST (fuse M) bytes :=
  match fuel with
  | O => abort
  | S fuel =>
      f ← get;
      let c := u32 (hidectr f + 1) in
      _ ← modify (set_hidectr c);
      r ← find_name dir (hidden_string i c);
      match r with
      | Some _ => free_hidden fuel i dir
      | None => mret (hidden_string i c)
      end
  end.

(** One turn of the outer loop under the mutex: the new name and its path;
    [None] if there is no such file, or no path. *)
Definition hidden_turn (dir : Z) (oldname : bytes) : ST (fuse M) (option (bytes * bytes)) :=
  r ← find_name dir oldname;
  match r with
  | None => mret None
  | Some p =>
      n ← node_at p;
      f ← get;
      newname ← free_hidden (S (size (nodes f))) (nodeid n) dir;
      r ← try_get_path dir (Some newname) false false;
      mret (match r with inl _ => None | inr (newpath, _) => Some (newname, newpath) end)
  end.

Fixpoint hidden_tries (failctr : nat) (dir : Z) (oldname : bytes) : IO (option (bytes * bytes)) :=
  match failctr with
  | O => mret None
  | S failctr =>
      r ← on_fuse (hidden_turn dir oldname);
      match r with
      | None => mret None
      | Some (newname, newpath) =>
          g ← fuse_fs_getattr (Some newpath) None;
          if g.1 =? - ENOENT then mret (Some (newname, newpath))
          else if g.1 =? 0 then hidden_tries failctr dir oldname else mret None
      end
  end.

Definition hidden_name (dir : Z) (oldname : bytes) : IO (option (bytes * bytes)) := hidden_tries 10 dir oldname.

Definition hide_node (oldpath : option bytes) (dir : Z) (oldname : bytes) : IO Z :=
  r ← hidden_name dir oldname;
  match r with
  | None => mret (- EBUSY)
  | Some (newname, newpath) =>
      err ← fuse_fs_rename oldpath (Some newpath) 0;
      if err =? 0 then on_fuse (rename_node dir oldname dir newname true) else mret err
  end.

(** ** Lookup and replies *)

(** The attributes are passed in [e]. *)
Definition lookup_path (nodeid : Z) (nm path : option bytes) (fi : option fuse_file_info) : IO (Z * fuse_entry_param) :=
  g ← fuse_fs_getattr path fi;
  let e := EntryParam 0 0 g.2 (S754_zero false) (S754_zero false) in
  if g.1 =? 0 then on_fuse (Node.do_lookup nodeid nm e) else mret (g.1, e).

Definition reply_err (req err : Z) : IO unit := err_reply req (- err).

Definition reply_entry (req : Z) (e : fuse_entry_param) (err : Z) : IO unit :=
  if err =? 0 then
    r ← fuse_reply_entry req e;
    if (r =? - ENOENT) && negb (e_ino e =? 0) then forget_node_ (e_ino e) 1 else mret tt
  else reply_err req err.

End Lib.
