(* ===== verification/LibOps.v ===== *)
(** * The request handlers of the high-level library: fuse.c

    One definition per handler [fuse_lib_*], the directory buffers they fill, and
    the table [fuse_path_ops] that makes them the low-level file system of
    [Dispatch].  A handler finds the path of its node and locks it, calls the
    file system, brings the nodes up to date, releases the path and replies. *)

From Stdlib Require Import Floats.SpecFloat.
From S2P Require Import Prelude NodeTable Wire Locks Node Path Buf LowLevel Dispatch Lib.

Section LibOps.
Context {OS M X : Type} `{FdOps OS} `{DevOps OS} `{NodeMem M}.
Context (op : fuse_operations OS X).

Abbreviation IO := (ST (LL OS (lib M X))).

Definition ign {A} (m : IO A) : IO unit := _ ← m; mret tt.

(** The part of most handlers between getting a path and replying: with a path,
    or an error that allows one to be missing, the body runs between preparing
    for an interrupt and releasing the path. *)
Definition path_block {A} (req ino : Z) (pr : Z * option bytes) (fail : Z -> A) (body : option bytes -> IO A) : IO A :=
  if pr.1 =? 0 then
    _ ← fuse_prepare_interrupt req;
    a ← body pr.2;
    _ ← fuse_finish_interrupt req;
    _ ← free_path_ ino pr.2;
    mret a
  else mret (fail pr.1).

Definition block_err (req ino : Z) (pr : Z * option bytes) (body : option bytes -> IO Z) : IO Z :=
  path_block req ino pr (fun e => e) body.

(** ** Start and end of a session *)

Definition fuse_lib_init (c : fuse_conn_info) : IO fuse_conn_info :=
  _ ← fuse_create_context (ReqCtx 0 0 0 0);
  let c := if has (capable c) FUSE_CAP_EXPORT_SUPPORT then with_want (Z.lor (want c) FUSE_CAP_EXPORT_SUPPORT) c else c in
  fuse_fs_init op c.

Definition fuse_lib_destroy : IO unit :=
  _ ← fuse_create_context (ReqCtx 0 0 0 0);
  _ ← fuse_fs_destroy op;
  set_user (with_fs_live false).

(** ** Lookup and forget *)

Definition is_dot (nm : bytes) : bool := bool_decide (nm = [46]).
Definition is_dotdot (nm : bytes) : bool := bool_decide (nm = [46; 46]).

(** [.] names the node itself, which is kept while the path is looked for; [..]
    the node above, which must exist. *)
Definition lookup_dots (parent : Z) (nm : bytes) : ST (fuse M) (option (Z * option bytes * option Z)) :=
  if is_dot nm then
    r ← find_id parent;
    match r with
    | None => mret None
    | Some p => _ ← update p (fun n => with_refctr (i32 (refctr n + 1)) n); mret (Some (parent, None, Some p))
    end
  else if is_dotdot nm then
    p ← get_node_ parent; n ← node_at p; d ← some (Node.parent n); dn ← node_at d;
    mret (Some (nodeid dn, None, None))
  else mret (Some (parent, Some nm, None)).

Definition fuse_lib_lookup (req parent : Z) (nm : bytes) : IO unit :=
  _ ← req_fuse_prepare req;
  r ← on_fuse (lookup_dots parent nm);
  match r with
  | None => reply_entry req entry0 (- ESTALE)
  | Some (parent, nm, dot) =>
      pr ← get_path_name_ parent nm;
      c ← config;
      r ← path_block req parent pr (fun e => (e, entry0)) (fun path =>
        r ← lookup_path op parent nm path None;
        mret (if (r.1 =? - ENOENT) && negb (SFeqb (negative_timeout c) (S754_zero false))
              then (0, EntryParam 0 (e_generation r.2) (e_attr r.2) (e_attr_timeout r.2) (negative_timeout c))
              else r));
      _ ← (match dot with Some p => on_fuse (unref_node p) | None => mret tt end);
      reply_entry req r.2 r.1
  end.

Definition do_forget_ (ino nlookup : Z) : IO unit := forget_node_ ino nlookup.

Definition fuse_lib_forget (req ino nlookup : Z) : IO unit :=
  _ ← get_req req; _ ← do_forget_ ino nlookup; fuse_reply_none req.

Fixpoint forget_all (forgets : list (Z * Z)) : IO unit :=
  match forgets with
  | [] => mret tt
  | (ino, nlookup) :: forgets => _ ← do_forget_ ino nlookup; forget_all forgets
  end.

Definition fuse_lib_forget_multi (req : Z) (forgets : list (Z * Z)) : IO unit :=
  _ ← get_req req; _ ← forget_all forgets; fuse_reply_none req.

(** ** Attributes *)

Definition path_or_null (ino : Z) (fi : option fuse_file_info) : IO (Z * option bytes) :=
  match fi with Some _ => get_path_nullok ino | None => get_path_ ino end.

(** The node's part of the attributes: a hidden file has one link less. *)
Definition refresh_stat (ino : Z) (hidden : bool) (buf : stat) : ST (fuse M) stat :=
  p ← get_node_ ino; n ← node_at p; f ← get;
  let buf := if hidden && is_hidden n && (0 <? st_nlink buf) then
      Stat (st_dev buf) (st_ino buf) (st_mode buf) (st_nlink buf - 1) (st_uid buf) (st_gid buf) (st_rdev buf)
        (st_size buf) (st_blksize buf) (st_blocks buf) (st_atime buf) (st_mtime buf) (st_ctime buf)
        (st_atimensec buf) (st_mtimensec buf) (st_ctimensec buf) else buf in
  _ ← (if auto_cache (conf f) then update_stat p buf else mret tt);
  set_stat ino buf.

Definition fuse_lib_getattr (req ino : Z) (fi : option fuse_file_info) : IO unit :=
  _ ← req_fuse_prepare req;
  pr ← path_or_null ino fi;
  r ← path_block req ino pr (fun e => (e, stat0)) (fun path => fuse_fs_getattr op path fi);
  if r.1 =? 0 then
    buf ← on_fuse (refresh_stat ino true r.2);
    c ← config; ign (fuse_reply_attr req buf (attr_timeout c))
  else reply_err req r.1.

(** [if (!err && c) err = m] *)
Definition step (err : Z) (c : bool) (m : IO Z) : IO Z := if (err =? 0) && c then m else mret err.

Definition setattr_times (valid : Z) (attr : stat) : timespec * timespec :=
  (if has valid FUSE_SET_ATTR_ATIME_NOW then Timespec 0 UTIME_NOW
   else if has valid FUSE_SET_ATTR_ATIME then Timespec (st_atime attr) (st_atimensec attr) else Timespec 0 UTIME_OMIT,
   if has valid FUSE_SET_ATTR_MTIME_NOW then Timespec 0 UTIME_NOW
   else if has valid FUSE_SET_ATTR_MTIME then Timespec (st_mtime attr) (st_mtimensec attr) else Timespec 0 UTIME_OMIT).

(** The calls in the middle of [fuse_lib_setattr], with [HAVE_UTIMENSAT]. *)
Definition setattr_calls (path : option bytes) (attr : stat) (valid : Z) (fi : option fuse_file_info) : IO Z :=
  err ← step 0 (has valid FUSE_SET_ATTR_MODE) (fuse_fs_chmod op path (st_mode attr) fi);
  err ← step err (has valid (Z.lor FUSE_SET_ATTR_UID FUSE_SET_ATTR_GID))
          (fuse_fs_chown op path (if has valid FUSE_SET_ATTR_UID then st_uid attr else 4294967295)
             (if has valid FUSE_SET_ATTR_GID then st_gid attr else 4294967295) fi);
  err ← step err (has valid FUSE_SET_ATTR_SIZE) (fuse_fs_truncate op path (st_size attr) fi);
  step err (has valid (Z.lor FUSE_SET_ATTR_ATIME FUSE_SET_ATTR_MTIME))
    (fuse_fs_utimens op path (setattr_times valid attr) fi).

Definition fuse_lib_setattr (req ino : Z) (attr : stat) (valid : Z) (fi : option fuse_file_info) : IO unit :=
  _ ← req_fuse_prepare req;
  pr ← path_or_null ino fi;
  r ← path_block req ino pr (fun e => (e, stat0)) (fun path =>
    err ← setattr_calls path attr valid fi;
    if err =? 0 then fuse_fs_getattr op path fi else mret (err, stat0));
  if r.1 =? 0 then
    buf ← on_fuse (refresh_stat ino false r.2);
    c ← config; ign (fuse_reply_attr req buf (attr_timeout c))
  else reply_err req r.1.

Definition fuse_lib_access (req ino mask : Z) : IO unit :=
  _ ← req_fuse_prepare req;
  pr ← get_path_ ino;
  err ← block_err req ino pr (fun path => fuse_fs_access op path mask);
  reply_err req err.

(** The buffer has [PATH_MAX + 1] bytes; the last one is set to zero. *)
Definition fuse_lib_readlink (req ino : Z) : IO unit :=
  _ ← req_fuse_prepare req;
  pr ← get_path_ ino;
  r ← path_block req ino pr (fun e => (e, [])) (fun path => fuse_fs_readlink op path (PATH_MAX + 1));
  if r.1 =? 0 then ign (fuse_reply_readlink req (cstr (take (Z.to_nat PATH_MAX) r.2))) else reply_err req r.1.

(** ** New files *)

Definition fuse_lib_mknod (req parent : Z) (nm : bytes) (mode rdev : Z) : IO unit :=
  _ ← req_fuse_prepare req;
  pr ← get_path_name_ parent (Some nm);
  r ← path_block req parent pr (fun e => (e, entry0)) (fun path =>
    r ← (if S_ISREG mode then
           c ← fuse_fs_create op path mode (with_flags (Z.lor (Z.lor O_CREAT O_EXCL) O_WRONLY) fi0);
           if c.1 =? 0 then
             r ← lookup_path op parent (Some nm) path (Some c.2);
             _ ← fuse_fs_release op path c.2; mret r
           else mret (c.1, entry0)
         else mret (- ENOSYS, entry0));
    if r.1 =? - ENOSYS then
      err ← fuse_fs_mknod op path mode rdev;
      if err =? 0 then lookup_path op parent (Some nm) path None else mret (err, entry0)
    else mret r);
  reply_entry req r.2 r.1.

(** [mkdir] and [symlink] have the same frame. *)
Definition make_entry (req parent : Z) (nm : bytes) (call : option bytes -> IO Z) : IO unit :=
  pr ← get_path_name_ parent (Some nm);
  r ← path_block req parent pr (fun e => (e, entry0)) (fun path =>
    err ← call path;
    if err =? 0 then lookup_path op parent (Some nm) path None else mret (err, entry0));
  reply_entry req r.2 r.1.

Definition fuse_lib_mkdir (req parent : Z) (nm : bytes) (mode : Z) : IO unit :=
  _ ← req_fuse_prepare req; make_entry req parent nm (fun path => fuse_fs_mkdir op path mode).

Definition fuse_lib_symlink (req : Z) (linkname : bytes) (parent : Z) (nm : bytes) : IO unit :=
  _ ← req_fuse_prepare req; make_entry req parent nm (fun path => fuse_fs_symlink op linkname path).

Definition fuse_lib_link (req ino newparent : Z) (newname : bytes) : IO unit :=
  _ ← req_fuse_prepare req;
  r ← get_path2_ ino None newparent (Some newname) false false;
  r ← match r with
      | inl err => mret (err, entry0)
      | inr (pw1, pw2) =>
          _ ← fuse_prepare_interrupt req;
          err ← fuse_fs_link op (Some pw1.1) (Some pw2.1);
          r ← (if err =? 0 then lookup_path op newparent (Some newname) (Some pw2.1) None else mret (err, entry0));
          _ ← fuse_finish_interrupt req;
          _ ← on_fuse (free_path2 ino newparent None None);
          mret r
      end;
  reply_entry req r.2 r.1.

(** ** Removing and renaming *)

Definition fuse_lib_unlink (req parent : Z) (nm : bytes) : IO unit :=
  _ ← req_fuse_prepare req;
  r ← get_path_wrlock_ parent nm;
  let '(err, path, wnode) := r in
  err ← (if err =? 0 then
           _ ← fuse_prepare_interrupt req;
           c ← config;
           hide ← (if hard_remove c then mret false else on_fuse (is_open parent nm));
           err ← (if hide : bool then hide_node op path parent nm else
                  err ← fuse_fs_unlink op path;
                  _ ← (if err =? 0 then on_fuse (remove_node parent nm) else mret tt); mret err);
           _ ← fuse_finish_interrupt req;
           _ ← on_fuse (free_path_wrlock parent wnode);
           mret err
         else mret err);
  reply_err req err.

Definition fuse_lib_rmdir (req parent : Z) (nm : bytes) : IO unit :=
  _ ← req_fuse_prepare req;
  r ← get_path_wrlock_ parent nm;
  let '(err, path, wnode) := r in
  err ← (if err =? 0 then
           _ ← fuse_prepare_interrupt req;
           err ← fuse_fs_rmdir op path;
           _ ← fuse_finish_interrupt req;
           _ ← (if err =? 0 then on_fuse (remove_node parent nm) else mret tt);
           _ ← on_fuse (free_path_wrlock parent wnode);
           mret err
         else mret err);
  reply_err req err.

Definition fuse_lib_rename (req olddir : Z) (oldname : bytes) (newdir : Z) (newname : bytes) (flags : Z) : IO unit :=
  _ ← req_fuse_prepare req;
  r ← get_path2_ olddir (Some oldname) newdir (Some newname) true true;
  err ← match r with
        | inl err => mret err
        | inr ((oldpath, wnode1), (newpath, wnode2)) =>
            _ ← fuse_prepare_interrupt req;
            c ← config;
            hide ← (if hard_remove c || has flags RENAME_EXCHANGE then mret false else on_fuse (is_open newdir newname));
            err ← (if hide : bool then hide_node op (Some newpath) newdir newname else mret 0);
            err ← (if err =? 0 then
                     err ← fuse_fs_rename op (Some oldpath) (Some newpath) flags;
                     if err =? 0 then
                       if has flags RENAME_EXCHANGE then on_fuse (exchange_node olddir oldname newdir newname)
                       else on_fuse (rename_node olddir oldname newdir newname false)
                     else mret err
                   else mret err);
            _ ← fuse_finish_interrupt req;
            _ ← on_fuse (free_path2 olddir newdir wnode1 wnode2);
            mret err
        end;
  reply_err req err.

(** ** Open files *)

(** The node loses an open: whether its hidden file is to be removed now. *)
Definition drop_open (ino : Z) : ST (fuse M) bool :=
  p ← get_node_ ino; n ← node_at p;
  _ ← check (0 <? open_count n);
  let last := is_hidden n && (open_count n - 1 =? 0) in
  _ ← update p (fun n => with_open_count (open_count n - 1) (if last then with_hidden false n else n));
  mret last.

Definition add_open (ino : Z) : ST (fuse M) unit :=
  p ← get_node_ ino; update p (fun n => with_open_count (i32 (open_count n + 1)) n).

Definition fuse_do_release (ino : Z) (path : option bytes) (fi : fuse_file_info) : IO unit :=
  _ ← fuse_fs_release op path fi;
  unlink_hidden ← on_fuse (drop_open ino);
  c ← config;
  if unlink_hidden : bool then
    match path with
    | Some _ => ign (fuse_fs_unlink op path)
    | None =>
        if nullpath_ok c then
          pr ← get_path_ ino;
          _ ← (if pr.1 =? 0 then ign (fuse_fs_unlink op pr.2) else mret tt);
          free_path_ ino pr.2
        else mret tt
    end
  else mret tt.

(** [fi->direct_io] and [fi->keep_cache] as configured. *)
Definition open_options (c : fuse_config) (fi : fuse_file_info) : fuse_file_info :=
  let fi := if direct_io c then with_direct_io true fi else fi in
  if kernel_cache c then with_keep_cache true fi else fi.

Definition fuse_lib_create (req parent : Z) (nm : bytes) (mode : Z) (fi : fuse_file_info) : IO unit :=
  _ ← req_fuse_prepare req;
  pr ← get_path_name_ parent (Some nm);
  r ← (if pr.1 =? 0 then
         _ ← fuse_prepare_interrupt req;
         k ← fuse_fs_create op pr.2 mode fi;
         let fi := k.2 in
         r ← (if k.1 =? 0 then
                r ← lookup_path op parent (Some nm) pr.2 (Some fi);
                if negb (r.1 =? 0) then _ ← fuse_fs_release op pr.2 fi; mret (r.1, r.2, fi)
                else if negb (S_ISREG (st_mode (e_attr r.2))) then
                  _ ← fuse_fs_release op pr.2 fi; _ ← forget_node_ (e_ino r.2) 1; mret (- EIO, r.2, fi)
                else c ← config; mret (0, r.2, open_options c fi)
              else mret (k.1, entry0, fi));
         _ ← fuse_finish_interrupt req;
         mret r
       else mret (pr.1, entry0, fi));
  let '(err, e, fi) := r in
  _ ← (if err =? 0 then
         _ ← on_fuse (add_open (e_ino e));
         res ← fuse_reply_create req e fi;
         if res =? - ENOENT then _ ← fuse_do_release (e_ino e) pr.2 fi; forget_node_ (e_ino e) 1 else mret tt
       else reply_err req err);
  free_path_ parent pr.2.

(** The node under the mutex, before and after the call of the file system:
    whether the attributes are too old, and what is done with new ones. *)
Definition cache_stale (ino : Z) : ST (fuse M) bool :=
  p ← get_node_ ino; n ← node_at p; f ← get;
  if cache_valid n then
    now ← curr_time; mret (SFltb (ac_attr_timeout (conf f)) (diff_timespec now (stat_updated n)))
  else mret false.

Definition cache_refresh (ino : Z) (r : Z * stat) : ST (fuse M) unit :=
  p ← get_node_ ino;
  if r.1 =? 0 then update_stat p r.2 else update p (with_cache_valid false).

Definition cache_open (ino : Z) : ST (fuse M) bool :=
  p ← get_node_ ino; n ← node_at p; _ ← update p (with_cache_valid true); mret (cache_valid n).

Definition open_auto_cache (ino : Z) (path : option bytes) (fi : fuse_file_info) : IO fuse_file_info :=
  stale ← on_fuse (cache_stale ino);
  _ ← (if stale : bool then r ← fuse_fs_getattr op path (Some fi); on_fuse (cache_refresh ino r) else mret tt);
  valid ← on_fuse (cache_open ino);
  mret (if valid : bool then with_keep_cache true fi else fi).

Definition fuse_lib_open (req ino : Z) (fi : fuse_file_info) : IO unit :=
  _ ← req_fuse_prepare req;
  pr ← get_path_ ino;
  r ← (if pr.1 =? 0 then
         _ ← fuse_prepare_interrupt req;
         k ← fuse_fs_open op pr.2 fi;
         r ← (if k.1 =? 0 then
                c ← config;
                let fi := open_options c k.2 in
                fi ← (if auto_cache c then open_auto_cache ino pr.2 fi else mret fi);
                mret (0, fi)
              else mret k);
         _ ← fuse_finish_interrupt req;
         mret r
       else mret (pr.1, fi));
  _ ← (if r.1 =? 0 then
         _ ← on_fuse (add_open ino);
         res ← fuse_reply_open req r.2;
         if res =? - ENOENT then fuse_do_release ino pr.2 r.2 else mret tt
       else reply_err req r.1);
  free_path_ ino pr.2.

Definition fuse_lib_read (req ino size off : Z) (fi : fuse_file_info) : IO unit :=
  _ ← req_fuse_prepare req;
  pr ← get_path_nullok ino;
  r ← path_block req ino pr (fun e => (e, None)) (fun path => fuse_fs_read_buf op path size off fi);
  if r.1 =? 0 then buf ← of_option r.2; ign (fuse_reply_data req buf FUSE_BUF_SPLICE_MOVE)
  else reply_err req r.1.

Definition fuse_lib_write_buf (req ino : Z) (buf : fuse_bufvec) (off : Z) (fi : fuse_file_info) : IO fuse_bufvec :=
  _ ← req_fuse_prepare req;
  pr ← get_path_nullok ino;
  r ← path_block req ino pr (fun e => (e, buf)) (fun path => fuse_fs_write_buf op path buf off fi);
  _ ← (if 0 <=? r.1 then ign (fuse_reply_write req r.1) else reply_err req r.1);
  mret r.2.

Definition fuse_lib_fsync (req ino datasync : Z) (fi : fuse_file_info) : IO unit :=
  _ ← req_fuse_prepare req;
  pr ← get_path_nullok ino;
  err ← block_err req ino pr (fun path => fuse_fs_fsync op path datasync fi);
  reply_err req err.

(** ** Directories *)

Definition dh_at (d : Z) : IO fuse_dh := b ← get_lib; of_option (dhs b !! d).

Definition dh_update (d : Z) (g : fuse_dh -> fuse_dh) : IO unit :=
  h ← dh_at d; set_user (fun b => with_dhs (<[d := g h]> (dhs b)) (next_dh b) b).

(** [free(dh)] *)
Definition dh_free (d : Z) : IO unit := _ ← dh_at d; set_user (fun b => with_dhs (delete d (dhs b)) (next_dh b) b).

(** The directory and the file system's own handle of it. *)
Definition get_dirhandle (llfi : fuse_file_info) : IO (Z * fuse_file_info) :=
  h ← dh_at (fi_fh llfi); mret (fi_fh llfi, with_fh (dh_fh h) fi0).

Definition fuse_lib_opendir (req ino : Z) (llfi : fuse_file_info) : IO unit :=
  _ ← req_fuse_prepare req;
  ok ← malloc;
  if negb ok then reply_err req (- ENOMEM) else
  b ← get_lib;
  let dh := next_dh b in
  _ ← set_user (fun b => with_dhs (<[dh := Dh [] [] 0 0 false 0 0 ino]> (dhs b)) (dh + 1) b);
  let llfi := with_fh dh llfi in
  let fi := with_flags (fi_flags llfi) fi0 in
  pr ← get_path_ ino;
  r ← (if pr.1 =? 0 then
         _ ← fuse_prepare_interrupt req;
         r ← fuse_fs_opendir op pr.2 fi;
         _ ← fuse_finish_interrupt req;
         _ ← dh_update dh (with_dh_fh (fi_fh r.2));
         mret r
       else mret (pr.1, fi));
  _ ← (if r.1 =? 0 then
         res ← fuse_reply_open req llfi;
         if res =? - ENOENT then _ ← fuse_fs_releasedir op pr.2 r.2; dh_free dh else mret tt
       else _ ← reply_err req r.1; dh_free dh);
  free_path_ ino pr.2.

(** *** The buffer of a directory

    Functions on the directory alone: the result is what the C function returns.
    [ok] are the outcomes of the allocations. *)

(** The doubling of [grow] is the loop of [extend_contents]. *)
Definition extend_contents (ok : bool) (minsize : Z) (d : fuse_dh) : option (Z * fuse_dh) :=
  if dh_size d <? minsize then
    newsize ← grow 34 (if dh_size d =? 0 then 1024 else dh_size d) minsize;
    if negb ok then Some (-1, with_dh_error (- ENOMEM) d)
    else Some (0, with_contents (dh_contents d ++ replicate (Z.to_nat (newsize - dh_size d)) junk) d)
  else Some (0, d).

Definition fuse_add_direntry_to_dh (ok1 ok2 : bool) (nm : bytes) (st : stat) (d : fuse_dh) : Z * fuse_dh :=
  if negb ok1 || negb ok2 then (-1, with_dh_error (- ENOMEM) d)
  else (0, with_first_entries (dh_first d ++ [(nm, st)]) d).

(** The end of [fill_dir] and of [fill_dir_plus] for an entry with an offset:
    [add] packs the entry into the room that is left. *)
Definition fill_offset (ok : bool) (add : Z -> Z * option bytes) (d : fuse_dh) : option (Z * fuse_dh) :=
  if dh_filled d then Some (1, with_dh_error (- EIO) d) else
  if negb (bool_decide (dh_first d = [])) then Some (1, with_dh_error (- EIO) d) else
  r ← extend_contents ok (dh_needlen d) d;
  let '(x, d) := r in
  if x =? -1 then Some (1, d) else
  let '(n, ent) := add (u32 (dh_needlen d - dh_len d)) in
  d ← (match ent with
       | Some bs => m ← Path.store (dh_contents d) (dh_len d) bs; Some (with_contents m d)
       | None => Some d
       end);
  let newlen := u64 (dh_len d + n) in
  if dh_needlen d <? newlen then Some (1, d) else Some (0, with_len (u32 newlen) d).

(** The same for an entry without one. *)
Definition fill_list (ok1 ok2 : bool) (nm : bytes) (st : stat) (d : fuse_dh) : Z * fuse_dh :=
  let '(x, d) := fuse_add_direntry_to_dh ok1 ok2 nm st (with_filled true d) in
  (if x =? -1 then 1 else 0, d).

(** An allocation that is made only if [c] holds. *)
Definition malloc_if (c : bool) : IO bool := if c then malloc else mret true.

(** Both, on the directory at [dh]. *)
Definition fill_end (dh : Z) (nm : bytes) (st : stat) (off : Z) (add : Z -> Z * option bytes) : IO Z :=
  d ← dh_at dh;
  if negb (off =? 0) then
    ok ← malloc_if (negb (dh_filled d) && bool_decide (dh_first d = []) && (dh_size d <? dh_needlen d));
    r ← of_option (fill_offset ok add d); _ ← dh_update dh (fun _ => r.2); mret r.1
  else
    ok1 ← malloc; ok2 ← malloc_if ok1;
    let r := fill_list ok1 ok2 nm st d in
    _ ← dh_update dh (fun _ => r.2); mret r.1.

Definition fill_error (dh : Z) (err : Z) : IO Z := _ ← dh_update dh (with_dh_error err); mret 1.

(** [st->st_ino = v] *)
Definition with_ino (v : Z) (st : stat) : stat :=
  Stat (st_dev st) v (st_mode st) (st_nlink st) (st_uid st) (st_gid st) (st_rdev st)
    (st_size st) (st_blksize st) (st_blocks st) (st_atime st) (st_mtime st) (st_ctime st)
    (st_atimensec st) (st_mtimensec st) (st_ctimensec st).

Definition fill_dir (dh : Z) (nm : bytes) (statp : option stat) (off flags : Z) : IO Z :=
  if negb (Z.land flags (Z.lnot FUSE_FILL_DIR_PLUS) =? 0) then fill_error dh (- EIO) else
  d ← dh_at dh;
  c ← config;
  let st := match statp with Some st => st | None => with_ino FUSE_UNKNOWN_INO stat0 end in
  st ← (if use_ino c then mret st else
        if readdir_ino c then i ← on_fuse (lookup_nodeid (dh_nodeid d) nm); mret (with_ino i st)
        else mret (with_ino FUSE_UNKNOWN_INO st));
  fill_end dh nm st off (fun room => fuse_add_direntry true room nm st off).

Definition is_dot_or_dotdot (nm : bytes) : bool := is_dot nm || is_dotdot nm.

(** [e.attr] with only the type and the number of the entry. *)
Definition bare_stat (mode ino : Z) : stat := Stat 0 ino mode 0 0 0 0 0 0 0 0 0 0 0 0 0.

Definition entry_with (st : stat) : fuse_entry_param := EntryParam 0 0 st (S754_zero false) (S754_zero false).

(** The entry for [fill_dir_plus]: an error, or the entry. *)
Definition plus_entry (d : fuse_dh) (nm : bytes) (statp : option stat) (flags : Z) : IO (Z * fuse_entry_param) :=
  c ← config;
  match statp with
  | Some st =>
      if has flags FUSE_FILL_DIR_PLUS then
        if is_dot_or_dotdot nm then mret (0, entry_with st)
        else on_fuse (Node.do_lookup (dh_nodeid d) (Some nm) (entry_with st))
      else
        i ← (if negb (use_ino c) && readdir_ino c then on_fuse (lookup_nodeid (dh_nodeid d) nm)
             else mret (if use_ino c then st_ino st else FUSE_UNKNOWN_INO));
        mret (0, entry_with (bare_stat (st_mode st) i))
  | None =>
      i ← (if negb (use_ino c) && readdir_ino c then on_fuse (lookup_nodeid (dh_nodeid d) nm) else mret FUSE_UNKNOWN_INO);
      mret (0, entry_with (bare_stat 0 i))
  end.

Definition fill_dir_plus (dh : Z) (nm : bytes) (statp : option stat) (off flags : Z) : IO Z :=
  if negb (Z.land flags (Z.lnot FUSE_FILL_DIR_PLUS) =? 0) then fill_error dh (- EIO) else
  d ← dh_at dh;
  r ← plus_entry d nm statp flags;
  if negb (r.1 =? 0) then fill_error dh r.1 else
  fill_end dh nm (e_attr r.2) off (fun room => fuse_add_direntry_plus true room nm r.2 off).

(** A readdir callback with its filler. *)
Fixpoint run_fill (filler : bytes -> option stat -> Z -> Z -> IO Z) (p : dir_fill (X * world OS)) : IO Z :=
  match p with
  | DirDone res (x, w) => _ ← set_user (with_fsx x); _ ← set_mach w; mret res
  | DirAdd nm st off flags k => r ← filler nm st off flags; run_fill filler (k r)
  end.

Definition fuse_fs_readdir (path : option bytes) (filler : bytes -> option stat -> Z -> Z -> IO Z)
    (off : Z) (fi : fuse_file_info) (flags : Z) : IO Z :=
  _ ← fs_enter;
  match o_readdir op with
  | Some f =>
      s ← get; c ← of_option (context (user s));
      run_fill filler (f path off fi flags c (fsx (user s), mach s))
  | None => mret (- ENOSYS)
  end.

(** The directory as [readdir_fill] hands it to the callback. *)
Definition dh_reset (size : Z) (d : fuse_dh) : fuse_dh :=
  Dh (dh_contents d) [] 0 (u32 size) false (dh_fh d) 0 (dh_nodeid d).

Definition readdir_fill (req ino size off dh : Z) (fi : fuse_file_info) (flags : Z) : IO Z :=
  pr ← (if is_some (o_readdir op) then get_path_nullok ino else get_path_ ino);
  if pr.1 =? 0 then
    let filler := if has flags FUSE_READDIR_PLUS then fill_dir_plus dh else fill_dir dh in
    _ ← dh_update dh (dh_reset size);
    _ ← fuse_prepare_interrupt req;
    err ← fuse_fs_readdir pr.2 filler off fi flags;
    _ ← fuse_finish_interrupt req;
    d ← dh_at dh;
    let err := if err =? 0 then dh_error d else err in
    _ ← (if negb (err =? 0) then dh_update dh (with_filled false) else mret tt);
    _ ← free_path_ ino pr.2;
    mret err
  else mret pr.1.

(** The entries of the list from [pos] on, as many as fit. *)
Fixpoint fill_entries (plus : bool) (pos : Z) (l : list (bytes * stat)) (d : fuse_dh) : option fuse_dh :=
  match l with
  | [] => Some d
  | (nm, st) :: l =>
      let pos := pos + 1 in
      let rem := u32 (dh_needlen d - dh_len d) in
      let '(n, ent) := if plus then fuse_add_direntry_plus true rem nm (entry_with st) pos
                       else fuse_add_direntry true rem nm st pos in
      d ← (match ent with
           | Some bs => m ← Path.store (dh_contents d) (dh_len d) bs; Some (with_contents m d)
           | None => Some d
           end);
      let newlen := u32 (dh_len d + u32 n) in
      if dh_needlen d <? newlen then Some d else fill_entries plus pos l (with_len newlen d)
  end.

Definition readdir_fill_from_list (ok : bool) (off : Z) (plus : bool) (d : fuse_dh) : option (Z * fuse_dh) :=
  r ← extend_contents ok (dh_needlen d) (with_len 0 d);
  let '(x, d) := r in
  if x =? -1 then Some (dh_error d, d) else
  let l := drop (Z.to_nat off) (dh_first d) in
  d ← fill_entries plus (Z.of_nat (length (dh_first d) - length l)) l d;
  Some (0, d).

(** The bytes that were put into the buffer. *)
Definition reply_contents (req : Z) (d : fuse_dh) : IO unit :=
  bs ← of_option (Path.load (dh_contents d) 0 (dh_len d)); ign (fuse_reply_buf req bs).

Definition fuse_readdir_common (req ino size off : Z) (llfi : fuse_file_info) (flags : Z) : IO unit :=
  _ ← req_fuse_prepare req;
  hf ← get_dirhandle llfi;
  let '(dh, fi) := hf in
  _ ← (if off =? 0 then dh_update dh (with_filled false) else mret tt);
  d ← dh_at dh;
  err ← (if dh_filled d then mret 0 else readdir_fill req ino size off dh fi flags);
  if negb (err =? 0) then reply_err req err else
  d ← dh_at dh;
  err ← (if dh_filled d then
           ok ← malloc_if (dh_size d <? u32 size);
           r ← of_option (readdir_fill_from_list ok off (has flags FUSE_READDIR_PLUS) (with_needlen (u32 size) d));
           _ ← dh_update dh (fun _ => r.2); mret r.1
         else mret 0);
  if negb (err =? 0) then reply_err req err else
  d ← dh_at dh; reply_contents req d.

Definition fuse_lib_readdir (req ino size off : Z) (llfi : fuse_file_info) : IO unit :=
  fuse_readdir_common req ino size off llfi 0.

Definition fuse_lib_readdirplus (req ino size off : Z) (llfi : fuse_file_info) : IO unit :=
  fuse_readdir_common req ino size off llfi FUSE_READDIR_PLUS.

(** The result of [get_path_nullok] is not looked at. *)
Definition fuse_lib_releasedir (req ino : Z) (llfi : fuse_file_info) : IO unit :=
  _ ← req_fuse_prepare req;
  hf ← get_dirhandle llfi;
  pr ← get_path_nullok ino;
  _ ← fuse_prepare_interrupt req;
  _ ← fuse_fs_releasedir op pr.2 hf.2;
  _ ← fuse_finish_interrupt req;
  _ ← free_path_ ino pr.2;
  _ ← dh_free hf.1;
  reply_err req 0.

Definition fuse_lib_fsyncdir (req ino datasync : Z) (llfi : fuse_file_info) : IO unit :=
  _ ← req_fuse_prepare req;
  hf ← get_dirhandle llfi;
  pr ← get_path_nullok ino;
  err ← block_err req ino pr (fun path => fuse_fs_fsyncdir op path datasync hf.2);
  reply_err req err.

(** ** File systems and extended attributes *)

Definition fuse_lib_statfs (req ino : Z) : IO unit :=
  _ ← req_fuse_prepare req;
  pr ← (if negb (ino =? 0) then get_path_ ino else mret (0, None));
  r ← path_block req ino pr (fun e => (e, Statvfs 0 0 0 0 0 0 0 0))
        (fun path => fuse_fs_statfs op (Some (default (lit "/") path)));
  if r.1 =? 0 then ign (fuse_reply_statfs req r.2) else reply_err req r.1.

Definition fuse_lib_setxattr (req ino : Z) (nm value : bytes) (flags : Z) : IO unit :=
  _ ← req_fuse_prepare req;
  pr ← get_path_ ino;
  err ← block_err req ino pr (fun path => fuse_fs_setxattr op path nm value flags);
  reply_err req err.

Definition common_getxattr (req ino : Z) (nm : bytes) (size : Z) : IO (Z * bytes) :=
  pr ← get_path_ ino;
  path_block req ino pr (fun e => (e, [])) (fun path => fuse_fs_getxattr op path nm size).

Definition common_listxattr (req ino size : Z) : IO (Z * bytes) :=
  pr ← get_path_ ino;
  path_block req ino pr (fun e => (e, [])) (fun path => fuse_fs_listxattr op path size).

(** Both queries end in the same way: a value in a buffer of [size] bytes, or
    its size.  Sending more than the buffer holds is an access out of bounds. *)
Definition reply_xattr_value (req size : Z) (r : Z * bytes) : IO unit :=
  if negb (size =? 0) then
    if 0 <? r.1 then _ ← check (r.1 <=? Z.of_nat (length r.2)); ign (fuse_reply_buf req (take (Z.to_nat r.1) r.2))
    else reply_err req r.1
  else if 0 <=? r.1 then ign (fuse_reply_xattr req r.1) else reply_err req r.1.

Definition fuse_lib_getxattr (req ino : Z) (nm : bytes) (size : Z) : IO unit :=
  _ ← req_fuse_prepare req;
  ok ← (if negb (size =? 0) then malloc else mret true);
  if negb ok then reply_err req (- ENOMEM) else
  r ← common_getxattr req ino nm size; reply_xattr_value req size r.

Definition fuse_lib_listxattr (req ino size : Z) : IO unit :=
  _ ← req_fuse_prepare req;
  ok ← (if negb (size =? 0) then malloc else mret true);
  if negb ok then reply_err req (- ENOMEM) else
  r ← common_listxattr req ino size; reply_xattr_value req size r.

Definition fuse_lib_removexattr (req ino : Z) (nm : bytes) : IO unit :=
  _ ← req_fuse_prepare req;
  pr ← get_path_ ino;
  err ← block_err req ino pr (fun path => fuse_fs_removexattr op path nm);
  reply_err req err.

(** ** Locks *)

(** [locks_insert] on the node, with its result ignored by the callers; it
    allocates unless everything is unlocked. *)
Definition insert_node_lock (ino : Z) (lk : lock) : ST (fuse M) unit :=
  p ← get_node_ ino; n ← node_at p;
  let all := (type lk =? F_UNLCK) && (Locks.start lk =? 0) && (lend lk =? OFFSET_MAX) in
  ok1 ← (if all then mret true else Node.malloc); ok2 ← (if all then mret true else Node.malloc);
  r ← some (locks_insert ok1 ok2 (locks n) lk);
  update p (with_locks r.1).

Definition fuse_flush_common (req ino : Z) (path : option bytes) (fi : fuse_file_info) : IO Z :=
  _ ← fuse_prepare_interrupt req;
  err ← fuse_fs_flush op path fi;
  el ← fuse_fs_lock op path fi F_SETLK (Flock F_UNLCK SEEK_SET 0 0 0);
  _ ← fuse_finish_interrupt req;
  if negb (el.1 =? - ENOSYS) then
    _ ← on_fuse (insert_node_lock ino (with_owner (fi_lock_owner fi) (flock_to_lock el.2)));
    mret (if err =? - ENOSYS then 0 else err)
  else mret err.

Definition fuse_lib_release (req ino : Z) (fi : fuse_file_info) : IO unit :=
  _ ← req_fuse_prepare req;
  pr ← get_path_nullok ino;
  err ← (if fi_flush fi then e ← fuse_flush_common req ino pr.2 fi; mret (if e =? - ENOSYS then 0 else e) else mret 0);
  _ ← fuse_prepare_interrupt req;
  _ ← fuse_do_release ino pr.2 fi;
  _ ← fuse_finish_interrupt req;
  _ ← free_path_ ino pr.2;
  reply_err req err.

Definition fuse_lib_flush (req ino : Z) (fi : fuse_file_info) : IO unit :=
  _ ← req_fuse_prepare req;
  pr ← get_path_nullok ino;
  err ← fuse_flush_common req ino pr.2 fi;
  _ ← free_path_ ino pr.2;
  reply_err req err.

Definition fuse_lock_common (req ino : Z) (fi : fuse_file_info) (lk : flock) (cmd : Z) : IO (Z * flock) :=
  _ ← req_fuse_prepare req;
  pr ← get_path_nullok ino;
  path_block req ino pr (fun e => (e, lk)) (fun path => fuse_fs_lock op path fi cmd lk).

Definition node_conflict (ino : Z) (lk : lock) : ST (fuse M) (option lock) :=
  p ← get_node_ ino; n ← node_at p; mret (locks_conflict (locks n) lk).

Definition fuse_lib_getlk (req ino : Z) (fi : fuse_file_info) (lk : flock) : IO unit :=
  _ ← get_req req;
  conflict ← on_fuse (node_conflict ino (with_owner (fi_lock_owner fi) (flock_to_lock lk)));
  r ← match conflict with
      | Some l => mret (0, lock_to_flock l lk)
      | None => fuse_lock_common req ino fi lk F_GETLK
      end;
  if r.1 =? 0 then ign (fuse_reply_lock req r.2) else reply_err req r.1.

Definition fuse_lib_setlk (req ino : Z) (fi : fuse_file_info) (lk : flock) (sleep : bool) : IO unit :=
  r ← fuse_lock_common req ino fi lk (if sleep then F_SETLKW else F_SETLK);
  _ ← (if r.1 =? 0 then on_fuse (insert_node_lock ino (with_owner (fi_lock_owner fi) (flock_to_lock r.2))) else mret tt);
  reply_err req r.1.

Definition fuse_lib_flock (req ino : Z) (fi : fuse_file_info) (o : Z) : IO unit :=
  _ ← req_fuse_prepare req;
  pr ← get_path_nullok ino;
  err ← block_err req ino pr (fun path => fuse_fs_flock op path fi o);
  reply_err req err.

(** ** The rest *)

Definition fuse_lib_bmap (req ino blocksize idx : Z) : IO unit :=
  _ ← req_fuse_prepare req;
  pr ← get_path_ ino;
  r ← path_block req ino pr (fun e => (e, idx)) (fun path => fuse_fs_bmap op path blocksize idx);
  if r.1 =? 0 then ign (fuse_reply_bmap req r.2) else reply_err req r.1.

(** The output buffer starts as the input, or as memory that is not
    initialised; without an output buffer the callback gets the input. *)
Definition fuse_lib_ioctl (req ino cmd arg : Z) (llfi : fuse_file_info) (flags : Z) (in_buf : bytes) (out_bufsz : Z) : IO unit :=
  _ ← req_fuse_prepare req;
  if has flags FUSE_IOCTL_UNRESTRICTED then reply_err req (- EPERM) else
  fi ← (if has flags FUSE_IOCTL_DIR then hf ← get_dirhandle llfi; mret hf.2 else mret llfi);
  ok ← (if negb (out_bufsz =? 0) then malloc else mret true);
  if negb ok then reply_err req (- ENOMEM) else
  let in_bufsz := Z.of_nat (length in_buf) in
  _ ← check ((in_bufsz =? 0) || (out_bufsz =? 0) || (in_bufsz =? out_bufsz));
  let data := if negb (out_bufsz =? 0) && (in_bufsz =? 0) then replicate (Z.to_nat out_bufsz) junk else in_buf in
  pr ← get_path_nullok ino;
  if negb (pr.1 =? 0) then reply_err req pr.1 else
  _ ← fuse_prepare_interrupt req;
  r ← fuse_fs_ioctl op pr.2 cmd arg fi flags data;
  _ ← fuse_finish_interrupt req;
  _ ← free_path_ ino pr.2;
  ign (fuse_reply_ioctl req r.1 (if negb (out_bufsz =? 0) then take (Z.to_nat out_bufsz) r.2 else [])).

Definition fuse_lib_poll (req ino : Z) (fi : fuse_file_info) (ph : option Z) : IO unit :=
  _ ← req_fuse_prepare req;
  pr ← get_path_nullok ino;
  r ← path_block req ino pr (fun e => (e, 0)) (fun path => fuse_fs_poll op path fi ph 0);
  if r.1 =? 0 then ign (fuse_reply_poll req r.2) else reply_err req r.1.

Definition fuse_lib_fallocate (req ino mode offset len : Z) (fi : fuse_file_info) : IO unit :=
  _ ← req_fuse_prepare req;
  pr ← get_path_nullok ino;
  err ← block_err req ino pr (fun path => fuse_fs_fallocate op path mode offset len fi);
  reply_err req err.

Definition fuse_lib_copy_file_range (req nodeid_in off_in : Z) (fi_in : fuse_file_info) (nodeid_out off_out : Z)
    (fi_out : fuse_file_info) (len flags : Z) : IO unit :=
  _ ← req_fuse_prepare req;
  pr ← get_path_nullok nodeid_in;
  if negb (pr.1 =? 0) then reply_err req pr.1 else
  pr' ← get_path_nullok nodeid_out;
  if negb (pr'.1 =? 0) then _ ← free_path_ nodeid_in pr.2; reply_err req pr'.1 else
  _ ← fuse_prepare_interrupt req;
  res ← fuse_fs_copy_file_range op pr.2 fi_in off_in pr'.2 fi_out off_out len flags;
  _ ← fuse_finish_interrupt req;
  _ ← (if 0 <=? res then ign (fuse_reply_write req res) else reply_err req (i32 res));
  _ ← free_path_ nodeid_in pr.2;
  free_path_ nodeid_out pr'.2.

Definition fuse_lib_lseek (req ino off whence : Z) (fi : fuse_file_info) : IO unit :=
  _ ← req_fuse_prepare req;
  pr ← get_path_ ino;
  if negb (pr.1 =? 0) then reply_err req pr.1 else
  _ ← fuse_prepare_interrupt req;
  res ← fuse_fs_lseek op pr.2 off whence fi;
  _ ← fuse_finish_interrupt req;
  _ ← free_path_ ino pr.2;
  if 0 <=? res then ign (fuse_reply_lseek req res) else reply_err req (i32 res).

(** ** The table of handlers *)

Definition fuse_path_ops : fuse_lowlevel_ops OS (lib M X) := {|
  op_init := Some fuse_lib_init;
  op_destroy := Some fuse_lib_destroy;
  op_lookup := Some fuse_lib_lookup;
  op_forget := Some fuse_lib_forget;
  op_forget_multi := Some fuse_lib_forget_multi;
  op_getattr := Some fuse_lib_getattr;
  op_setattr := Some fuse_lib_setattr;
  op_readlink := Some fuse_lib_readlink;
  op_mknod := Some fuse_lib_mknod;
  op_mkdir := Some fuse_lib_mkdir;
  op_unlink := Some fuse_lib_unlink;
  op_rmdir := Some fuse_lib_rmdir;
  op_symlink := Some fuse_lib_symlink;
  op_rename := Some fuse_lib_rename;
  op_link := Some fuse_lib_link;
  op_open := Some fuse_lib_open;
  op_read := Some fuse_lib_read;
  op_write := None;
  op_write_buf := Some fuse_lib_write_buf;
  op_flush := Some fuse_lib_flush;
  op_release := Some fuse_lib_release;
  op_fsync := Some fuse_lib_fsync;
  op_opendir := Some fuse_lib_opendir;
  op_readdir := Some fuse_lib_readdir;
  op_readdirplus := Some fuse_lib_readdirplus;
  op_releasedir := Some fuse_lib_releasedir;
  op_fsyncdir := Some fuse_lib_fsyncdir;
  op_statfs := Some fuse_lib_statfs;
  op_setxattr := Some fuse_lib_setxattr;
  op_getxattr := Some fuse_lib_getxattr;
  op_listxattr := Some fuse_lib_listxattr;
  op_removexattr := Some fuse_lib_removexattr;
  op_access := Some fuse_lib_access;
  op_create := Some fuse_lib_create;
  op_getlk := Some fuse_lib_getlk;
  op_setlk := Some fuse_lib_setlk;
  op_bmap := Some fuse_lib_bmap;
  op_ioctl := Some fuse_lib_ioctl;
  op_poll := Some fuse_lib_poll;
  op_retrieve_reply := None;
  op_flock := Some fuse_lib_flock;
  op_fallocate := Some fuse_lib_fallocate;
  op_copy_file_range := Some fuse_lib_copy_file_range;
  op_lseek := Some fuse_lib_lseek |}.

End LibOps.
