(* ===== verification/LibSpec.v ===== *)
(** * The request handlers of the high-level library: rules

    A handler runs between two states of the library in which no path is locked.
    [held b G] is the invariant while it has the paths [G]; the rules say what
    each step of a handler does to it, whatever the file system answers. *)

From S2P Require Import Prelude DList NodeTable Wire Locks Node NodeTree NodeOps NodeSpec NodeTheorems Path PathSpec PathQueue PathTree PathTheorems.
From S2P Require Import Buf LowLevel Dispatch Handler Lib LibOps.

Section Details.
Context {M : Type} `{NodeMemLaws M}.
Implicit Types (f : fuse M) (N : gmap Z node) (G : list hold).

(** ** Changes that the tree does not see *)

Definition core (n : node) := (shape n, generation n, refctr n, nlookup n, treelock n).

Definition frame f := (name_table f, id_table f, lru_table f, Node.ctr f, fgeneration f, conf f, lockq f, slabs f).

(** Nodes with other details: open files, attributes, locks. *)
Definition detail f f' : Prop := core <$> nodes f' = core <$> nodes f /\ frame f' = frame f.

#[export] Instance detail_preorder : PreOrder detail.
Proof. split; [by intros f|]. intros f1 f2 f3 [E1 E2] [E3 E4]. split; congruence. Qed.

Lemma detail_lookup f f' p n' : detail f f' -> nodes f' !! p = Some n' -> exists n, nodes f !! p = Some n /\ core n' = core n.
Proof.
  intros [E _] Hn. assert ((core <$> nodes f') !! p = Some (core n')) as Hc by (by rewrite lookup_fmap, Hn).
  rewrite E, lookup_fmap in Hc. by apply fmap_Some in Hc as (n & ? & ?); eauto.
Qed.

Lemma detail_sym f f' : detail f f' -> detail f' f.
Proof. intros [? ?]. by split. Qed.

Lemma detail_update f p n n' : nodes f !! p = Some n -> core n' = core n -> detail f (set_nodes (<[p := n']> (nodes f)) f).
Proof. intros Hn Hc. split; [|done]. cbn. rewrite fmap_insert, Hc. apply insert_id. by rewrite lookup_fmap, Hn. Qed.

Lemma detail_shape f f' : detail f f' -> same_shape (nodes f) (nodes f').
Proof.
  intros [E _]. unfold same_shape. change shape with ((fun c : Z * option Z * option bytes * Z * Z * Z * Z => c.1.1.1.1) ∘ core).
  by rewrite !map_fmap_compose, E.
Qed.

Lemma tree_inv_frame W U E x f f' : nodes f' = nodes f -> frame f' = frame f -> tree_inv W U E x f -> tree_inv W U E x f'.
Proof.
  intros EN [= E1 E2 E3 E4 E5 E6 E7 E8] [? ? ? ? ? ? ? ? ? ? ? ? ? ? ? ? ? ? ? ? ?].
  assert (lru_enabled f' = lru_enabled f) as El by (unfold lru_enabled; by rewrite E6).
  split; rewrite ?EN, ?El, ?E1, ?E2, ?E3, ?E4, ?E5, ?E8; done.
Qed.

Lemma detail_tree f f' : detail f f' -> tree_ok f -> tree_ok f'.
Proof.
  intros Hd Hf. apply (tree_inv_frame _ _ _ _ (set_nodes (nodes f') f)); [done|apply Hd|].
  apply (tree_inv_nodes _ _ _ (fun _ => 0)); [done|by apply detail_shape|done|]. intros p n' Hn'.
  destruct (detail_lookup f f' p n' Hd Hn') as (n & Hn & [= _ _ _ Eg Er El Et]). exists n. split; [done|].
  unfold looked_up. rewrite Er, El, Et. split; [done|]. split; [by apply (t_pos _ _ _ _ _ Hf p n Hn)|].
  split; [by apply (t_nlookup _ _ _ _ _ Hf p n Hn)|]. split; [by left|done].
Qed.

Lemma detail_abs f f' : detail f f' -> tree_ok f -> abs f' = abs f.
Proof.
  intros Hd Hf. pose proof (detail_tree f f' Hd Hf) as Hf'. pose proof (detail_shape f f' Hd) as Hs. unfold abs. apply map_eq. intros i. apply option_eq. intros e.
  rewrite !abs_iff by (by apply tree_num). split; intros (p & n & Hn & <- & ->).
  - destruct (detail_lookup f f' p n Hd Hn) as (m & Hm & [= ? ? ? Eg ? El ?]). exists p, m. split; [done|]. split; [congruence|].
    unfold entry_of. by rewrite <- (same_shape_key _ _ p Hs), El, Eg.
  - destruct (detail_lookup f' f p n (detail_sym _ _ Hd) Hn) as (m & Hm & [= ? ? ? Eg ? El ?]). exists p, m. split; [done|]. split; [congruence|].
    unfold entry_of. by rewrite <- (same_shape_key _ _ p Hs), El, Eg.
Qed.

Lemma no_queue_fits f : lockq f = [] -> queue_fits f.
Proof. intros E e p. by rewrite E, elem_of_nil. Qed.

Lemma detail_sys f f' G : detail f f' -> lockq f = [] -> sys_inv f G -> sys_inv f' G.
Proof.
  intros Hd HL Hs. pose proof (s_tree _ _ Hs) as Hf. pose proof (detail_shape f f' Hd) as Hss. pose proof (proj2 Hd) as [= _ _ _ _ _ _ EL _].
  apply (sys_kept f f' G Hs).
  - split; [by apply (detail_tree f)|]. rewrite (detail_abs f f' Hd Hf). apply Hs.
  - split; [|..].
    + intros q n n' Hn Hn'. destruct (detail_lookup f f' q n' Hd Hn') as (m & Hm & [= Ei _ _ _ _ _ Et]). simplify_eq. done.
    + intros q n' Hn' Hq. destruct (detail_lookup f f' q n' Hd Hn') as (m & Hm & _). congruence.
    + intros q n Hn _. destruct (detail_lookup f' f q n (detail_sym _ _ Hd) Hn) as (m & Hm & _). eauto.
    + done.
  - split; [intros q n n' Hn Hn' _; symmetry; by apply same_shape_key|]. intros q n Hn Hl _.
    destruct (detail_lookup f' f q n (detail_sym _ _ Hd) Hn) as (m & Hm & [= _ _ _ _ _ El _]). exists m. split; [done|congruence].
  - split; [intros q n _ _ (e & He & _)|intros w n' i s _ _ _ (e & He & _)]; rewrite HL in He; by apply elem_of_nil in He.
  - intros p i nm. rewrite <- (same_shape_key _ _ p Hss). apply Hs.
  - apply no_queue_fits. congruence.
Qed.

Lemma detail_ptr f f' p i : detail f f' -> ptr_in (nodes f) p i -> ptr_in (nodes f') p i.
Proof. intros Hd (n & Hn & Hi). destruct (detail_lookup f' f p n (detail_sym _ _ Hd) Hn) as (m & Hm & [= Ei _ _ _ _ _ _]). exists m. split; [done|congruence]. Qed.

(** Paths do not depend on details. *)
Lemma segment_shape N N' p l e : same_shape N N' -> segment N p l e -> segment N' p l e.
Proof.
  intros Hs. induction 1 as [p [n Hn]|p n d nm l e Hn Hr Hd Hnm Hse IH].
  - destruct (same_shape_lookup _ _ _ _ Hs Hn) as (n' & Hn' & _). constructor. eauto.
  - destruct (same_shape_lookup _ _ _ _ Hs Hn) as (n' & Hn' & [= E1 E2 E3]). apply (seg_cons _ _ n' d nm); congruence || done.
Qed.

Lemma path_string_shape N N' l t : same_shape N N' -> path_string N' l t = path_string N l t.
Proof.
  intros Hs. revert t. induction l as [|p l IH]; intros t; [done|]. cbn [path_string]. rewrite IH. do 3 f_equal. destruct (N !! p) as [n|] eqn:Hn.
  - destruct (same_shape_lookup _ _ _ _ Hs Hn) as (n' & -> & [= E1 E2 E3]). cbn. by rewrite E3.
  - destruct (N' !! p) as [n'|] eqn:Hn'; [|done]. destruct (same_shape_lookup _ _ _ _ (same_shape_sym _ _ Hs) Hn') as (n & ? & _). congruence.
Qed.

Lemma request_detail f f' p i nm wr : detail f f' -> request_ok f p i nm wr -> request_ok f' p i nm wr.
Proof.
  intros Hd [(dn & Hdn & Hi & Hl) Hn Hf Hw]. pose proof (detail_shape f f' Hd) as Hs. split; [|done|..].
  - destruct (detail_lookup f' f p dn (detail_sym _ _ Hd) Hdn) as (m & Hm & [= E1 _ _ _ _ E6 _]). exists m. split; [done|]. split; congruence.
  - intros l e Hse. rewrite (path_string_shape _ _ l _ Hs). apply (Hf l e). eapply segment_shape, Hse. by apply same_shape_sym.
  - intros Ht. destruct (Hw Ht) as (s & -> & Hk). exists s. split; [done|]. intros w n' Hn'. rewrite <- (same_shape_key _ _ w Hs).
    destruct (detail_lookup f f' w n' Hd Hn') as (n & Hnn & [= _ _ _ _ _ E6 _]). rewrite E6. by apply (Hk w n).
Qed.

End Details.

(** ** Memory *)

Section Memory.
Context {M : Type} `{NodeMem M}.
Implicit Types (f : fuse M).

(** An allocation is going to fail. *)
Definition short_memory f : Prop := false ∈ Node.heap f.

(** As long as none does, the result is in [P]. *)
Definition frugal {A} (m : ST (fuse M) A) (P : A -> Prop) : Prop :=
  forall f a f', m f = Some (a, f') -> ~ short_memory f -> ~ short_memory f' /\ P a.

Lemma frugal_ret {A} (a : A) (P : A -> Prop) : P a -> frugal (mret a) P.
Proof. by intros HP f x f' [= <- <-]. Qed.

Lemma frugal_bind {A B} (m : ST (fuse M) A) (k : A -> ST (fuse M) B) P Q : frugal m P -> (forall a, P a -> frugal (k a) Q) -> frugal (m ≫= k) Q.
Proof. intros Hm Hk f x f' (a & f1 & E1 & E2)%bind_Some Hf. destruct (Hm _ _ _ E1 Hf) as [Hf1 Ha]. by apply (Hk a Ha f1). Qed.

Lemma frugal_some {A} (o : option A) (P : A -> Prop) : (forall a, o = Some a -> P a) -> frugal (some o) P.
Proof. intros HP. destruct o; [by apply frugal_ret, HP|]. by intros f a f' [=]. Qed.

(** Code that does not allocate. *)
Lemma frugal_steady {A} (m : ST (fuse M) A) : (forall f a f', m f = Some (a, f') -> Node.heap f' = Node.heap f) -> frugal m (fun _ => True).
Proof. intros Hm f a f' E. unfold short_memory. by rewrite (Hm f a f' E). Qed.

Lemma frugal_get : frugal (get : ST (fuse M) (fuse M)) (fun _ => True).
Proof. apply frugal_steady. by intros f a f' [= <- <-]. Qed.

Lemma frugal_node_at p : frugal (node_at p) (fun _ => True).
Proof. eapply frugal_bind; [apply frugal_get|]. intros f _. by apply frugal_some. Qed.

Lemma frugal_modify (g : fuse M -> fuse M) : (forall f, Node.heap (g f) = Node.heap f) -> frugal (modify g) (fun _ => True).
Proof. intros Hg. apply frugal_steady. intros f a f' [= <- <-]. apply Hg. Qed.

Lemma frugal_update p g : frugal (update p g) (fun _ => True).
Proof. eapply frugal_bind; [apply frugal_node_at|]. intros n _. by apply frugal_modify. Qed.

Lemma frugal_check c : frugal (check c : ST (fuse M) unit) (fun _ => True).
Proof. apply frugal_steady. intros f a f' E. destruct c; [by injection E as <- <-|done]. Qed.

Lemma frugal_find_name d nm : frugal (find_name d nm) (fun _ => True).
Proof. eapply frugal_bind; [apply frugal_get|]. intros f _. by apply frugal_some. Qed.

Lemma frugal_get_node i : frugal (get_node_ i) (fun _ => True).
Proof.
  apply (frugal_bind _ _ (fun _ => True)); [|intros r _; by apply frugal_some]. eapply frugal_bind; [apply frugal_get|]. intros f _. by apply frugal_some.
Qed.

Lemma frugal_malloc : frugal (Node.malloc : ST (fuse M) bool) (eq true).
Proof.
  intros f a f'. unfold Node.malloc, short_memory. destruct (Node.heap f) as [|b h] eqn:E; intros [= <- <-] Hf; [by rewrite E|].
  cbn [Node.heap set_heap]. rewrite not_elem_of_cons in Hf. destruct Hf as [? ?]. by destruct b.
Qed.

Lemma bind_no_none {A B} (o : option A) (k : A -> option (option B)) : (forall a, k a <> Some None) -> (o ≫= k) <> Some None.
Proof. intros Hk. destruct o as [a|]; [apply Hk|done]. Qed.

Lemma room_not_none b len : make_room true b len <> Some None.
Proof. unfold make_room. cbv zeta. apply bind_no_none. intros z. cbn [negb]. apply bind_no_none. intros t. apply bind_no_none. done. Qed.

Lemma frugal_add_name b nm : frugal (add_name b nm) (fun r => r <> None).
Proof.
  unfold add_name. cbv zeta. apply (frugal_bind _ _ (fun r => r <> None)).
  - destruct (_ <=? _); [|by apply frugal_ret]. eapply frugal_bind; [apply frugal_malloc|]. intros ? <-. apply frugal_some. intros r Er ->. exact (room_not_none _ _ Er).
  - intros [b'|] Hr; [|done]. apply (frugal_bind _ _ (fun _ => True)); [by apply frugal_some|]. intros x _. by apply frugal_ret.
Qed.

Lemma frugal_lock_climb fuel need : forall p b, frugal (lock_climb fuel need p b) (fun r => forall q, r <> inl (- ENOMEM, q)).
Proof.
  induction fuel as [|fuel IH]; intros p b; cbn [lock_climb]; [by intros f a f' [=]|]. eapply frugal_bind; [apply frugal_node_at|]. intros n _.
  destruct (_ =? _); [by apply frugal_ret|]. destruct (name n), (parent n); try (apply frugal_ret; by intros q [=]).
  eapply frugal_bind; [apply frugal_add_name|]. intros [b'|] Hr; [|done]. destruct need; [|apply IH]. destruct (_ <? _); [apply frugal_ret; by intros q [=]|].
  eapply frugal_bind; [apply frugal_update|]. intros _ _. apply IH.
Qed.

Lemma frugal_unlock_climb fuel e : forall p, frugal (unlock_climb fuel p e) (fun _ => True).
Proof.
  induction fuel as [|fuel IH]; intros p; cbn [unlock_climb]; [by intros f a f' [=]|]. case_bool_decide; [by apply frugal_ret|].
  eapply frugal_bind; [apply frugal_node_at|]. intros n _. destruct (_ =? _); [by apply frugal_ret|]. do 3 (eapply frugal_bind; [apply frugal_check|]; intros _ _).
  cbv zeta. eapply frugal_bind; [apply frugal_update|]. intros _ _. apply (frugal_bind _ _ (fun _ => True)); [by apply frugal_some|]. intros d _. apply IH.
Qed.

Lemma frugal_unlock_path i w e : frugal (unlock_path i w e) (fun _ => True).
Proof.
  apply (frugal_bind _ _ (fun _ => True)).
  - destruct w; [|by apply frugal_ret]. eapply frugal_bind; [apply frugal_node_at|]. intros n _. eapply frugal_bind; [apply frugal_check|]. intros _ _. apply frugal_update.
  - intros _ _. eapply frugal_bind; [apply frugal_get_node|]. intros p _. eapply frugal_bind; [apply frugal_get|]. intros f _. apply frugal_unlock_climb.
Qed.

Lemma frugal_lock_wnode i nm : frugal (lock_wnode i nm) (fun r => r <> inl (- ENOMEM)).
Proof.
  apply (frugal_bind _ _ (fun _ => True)); [by apply frugal_some|]. intros s _. eapply frugal_bind; [apply frugal_find_name|]. intros [w|] _; [|by apply frugal_ret].
  eapply frugal_bind; [apply frugal_node_at|]. intros n _. destruct (negb _).
  - apply (frugal_bind _ _ (fun _ => True)); [destruct (_ <? _); [apply frugal_update|by apply frugal_ret]|]. intros _ _. by apply frugal_ret.
  - eapply frugal_bind; [apply frugal_update|]. intros _ _. by apply frugal_ret.
Qed.

Lemma frugal_try_get_path i nm wr need : frugal (try_get_path i nm wr need) (fun r => r <> inl (- ENOMEM)).
Proof.
  eapply frugal_bind; [apply frugal_malloc|]. intros ? <-. cbn [negb]. cbv zeta. apply (frugal_bind _ _ (fun r => r <> None)).
  { destruct nm; [apply frugal_add_name|by apply frugal_ret]. }
  intros [b|] Hr; [|done]. apply (frugal_bind _ _ (fun r => r <> inl (- ENOMEM))).
  { destruct wr; [|by apply frugal_ret]. eapply frugal_bind; [apply frugal_check|]. intros _ _. apply frugal_lock_wnode. }
  intros [e|w] He; [apply frugal_ret; intros [= ->]; by apply He|]. eapply frugal_bind; [apply frugal_get_node|]. intros p _. eapply frugal_bind; [apply frugal_get|]. intros f _.
  eapply frugal_bind; [apply frugal_lock_climb|]. intros [[e q]|b'] Hc; [|by apply frugal_ret].
  apply (frugal_bind _ _ (fun _ => True)); [destruct need; [apply frugal_unlock_path|by apply frugal_ret]|]. intros _ _. apply frugal_ret. intros [= ->]. by apply (Hc q).
Qed.

Lemma frugal_short {A} (m : ST (fuse M) A) P f a f' : frugal m P -> m f = Some (a, f') -> short_memory f' -> short_memory f.
Proof. intros Hm E Hs. destruct (decide (false ∈ Node.heap f)) as [|Hn]; [done|]. by destruct (Hm f a f' E Hn). Qed.

Lemma frugal_or {A} (m : ST (fuse M) A) P f a f' : frugal m P -> m f = Some (a, f') -> P a \/ short_memory f.
Proof. intros Hm E. destruct (decide (false ∈ Node.heap f)) as [|Hn]; [by right|]. left. by apply (Hm f a f' E). Qed.

(** Why there is no path: no memory, or a node above has been removed. *)
Definition no_path f (p x : Z) : Prop := x = - ENOMEM /\ short_memory f \/ x = - ENOENT /\ forall l, ~ full_path (nodes f) p l.

Lemma no_path_neg f p x : no_path f p x -> x < 0 /\ x <> - EAGAIN.
Proof. by intros [[-> _]|[-> _]]. Qed.

End Memory.

(** ** Rules *)

Section Rules.
Context {OS M X : Type} `{FdOps OS} `{DevOps OS} `{NodeMemLaws M}.
Context (fs : fuse_operations OS X).
Implicit Types (b : lib M X) (G : list hold) (R : option Z).

Abbreviation IO := (ST (LL OS (lib M X))).

(** The library while the paths [G] are locked: nobody waits, the file system is
    there, and the thread has a context. *)
Record held b G : Prop := {
  hd_sys : sys_inv (fz b) G; hd_queue : lockq (fz b) = []; hd_live : fs_live b = true; hd_ctx : is_Some (context b);
  hd_dirs : forall d, is_Some (dhs b !! d) -> d < next_dh b }.

(** The same nodes, but for their locks, and the same open directories. *)
Record like b b' : Prop := {
  lk_nodes : lock_only (nodes (fz b)) (nodes (fz b')); lk_conf : conf (fz b') = conf (fz b); lk_dhs : dhs b' = dhs b;
  lk_next : next_dh b' = next_dh b }.

#[export] Instance like_preorder : PreOrder like.
Proof. split; [by intros b|]. intros b1 b2 b3 [L1 ? ? ?] [L2 ? ? ?]. split; [by transitivity (nodes (fz b2))|congruence..]. Qed.

Lemma like_ptr b b' p i : like b b' -> ptr_in (nodes (fz b)) p i -> ptr_in (nodes (fz b')) p i.
Proof. intros Hl. by apply ptr_lock_only, Hl. Qed.

Lemma like_abs b b' G : held b G -> like b b' -> abs (fz b') = abs (fz b).
Proof. intros Hb Hl. apply abs_lock_only; [apply Hl|]. apply tree_num, (s_tree _ _ (hd_sys _ _ Hb)). Qed.

Lemma like_request b b' p i nm wr : like b b' -> request_ok (fz b) p i nm wr -> request_ok (fz b') p i nm wr.
Proof. intros Hl. apply request_lock_only, Hl. Qed.

Lemma held_sys b G f' G' : held b G -> sys_inv f' G' -> lockq f' = [] -> held (with_fz f' b) G'.
Proof. intros [? ? ? ? ?] ? ?. by split. Qed.

Lemma held_detail b G f' : held b G -> detail (fz b) f' -> held (with_fz f' b) G.
Proof.
  intros Hb Hd. pose proof (proj2 Hd) as [= _ _ _ _ _ EC EL _]. apply (held_sys b G); [done|apply (detail_sys (fz b)); [done|apply Hb..]|].
  rewrite EL. apply Hb.
Qed.

Lemma wp_fuse R {A} (m : ST (fuse M) A) a f' (Q : A -> lib M X -> Prop) b : m (fz b) = Some (a, f') -> Q a (with_fz f' b) -> wp R (on_fuse (OS := OS) m) Q b.
Proof. intros E HQ s <- _. eexists a, _. split; [unfold on_fuse; rewrite E; reflexivity|]. split; [by apply quiet_same|done]. Qed.

Lemma wp_get_lib R (Q : lib M X -> lib M X -> Prop) b : Q b b -> wp R (get_lib (OS := OS)) Q b.
Proof. intros HQ s <- _. exists (user s), s. split; [done|]. split; [apply quiet_refl|done]. Qed.

Lemma wp_config R (Q : fuse_config -> lib M X -> Prop) b : Q (conf (fz b)) b -> wp R (config (OS := OS)) Q b.
Proof. intros HQ. by apply wp_bind, wp_get_lib, wp_ret. Qed.

Lemma wp_fs_call R {A} (o : fsop OS X A) (Q : A -> lib M X -> Prop) b : is_Some (context b) -> (forall a x, Q a (with_fsx x b)) -> wp R (fs_call o) Q b.
Proof.
  intros [c Hc] HQ s <- _. unfold fs_call. rewrite bind_get, Hc. destruct (o c (fsx (user s), mach s)) as [a [x w]] eqn:E.
  eexists a, _. split; [unfold of_option; rewrite bind_ret, E; reflexivity|]. split; [by apply quiet_same|apply HQ].
Qed.

Lemma wp_fs_enter R (Q : unit -> lib M X -> Prop) b G : held b G -> Q tt b -> wp R (fs_enter (OS := OS)) Q b.
Proof.
  intros Hb HQ. apply wp_bind, wp_get_lib, wp_bind, wp_check; [apply Hb|]. destruct (hd_ctx _ _ Hb) as [c Hc].
  apply wp_bind, (wp_of_option _ _ c); [done|]. by apply wp_ret.
Qed.

(** *** Code that leaves the library as it is *)

(** The nodes and the directories are the same; the state of the file system and
    the context may be others. *)
Record same_lib b b' : Prop := {
  sl_fz : fz b' = fz b; sl_dhs : dhs b' = dhs b; sl_next : next_dh b' = next_dh b;
  sl_live : fs_live b' = fs_live b; sl_ctx : is_Some (context b) -> is_Some (context b') }.

#[export] Instance same_lib_preorder : PreOrder same_lib.
Proof. split; [by intros b|]. intros b1 b2 b3 [? ? ? ? ?] [? ? ? ? ?]. split; auto; congruence. Qed.

Lemma same_held b b' G : same_lib b b' -> held b G -> held b' G.
Proof. intros [E Ed En E' Hc] [? ? ? ? ?]. split; rewrite ?E, ?E', ?Ed, ?En; auto. Qed.

Lemma same_like b b' : same_lib b b' -> like b b'.
Proof. intros [E ? ? ? ?]. split; rewrite ?E; done. Qed.

Definition idle R {A} (m : IO A) : Prop := forall b, fs_live b = true -> is_Some (context b) -> wp R m (fun _ b' => same_lib b b') b.

Lemma idle_ret R {A} (a : A) : idle R (mret a).
Proof. intros b _ _. by apply wp_ret. Qed.

Lemma idle_bind R {A B} (m : IO A) (k : A -> IO B) : idle R m -> (forall a, idle R (k a)) -> idle R (m ≫= k).
Proof.
  intros Hm Hk b Hl Hc. apply wp_bind. eapply wp_mono; [by apply Hm|]. intros a b1 S1. eapply wp_mono; [apply Hk|].
  - by rewrite (sl_live _ _ S1).
  - by apply (sl_ctx _ _ S1).
  - intros a' b2 S2. by transitivity b1.
Qed.

Lemma idle_config R {A} (k : fuse_config -> IO A) : (forall c, idle R (k c)) -> idle R (c ← config; k c).
Proof. intros Hk b Hl Hc. by apply wp_bind, wp_config, Hk. Qed.

Lemma idle_malloc R : idle R LowLevel.malloc.
Proof. intros b _ _. by apply wp_malloc. Qed.

Lemma idle_if R {A} (c : bool) (m m' : IO A) : idle R m -> idle R m' -> idle R (if c then m else m').
Proof. by destruct c. Qed.

Lemma idle_ign R {A} (m : IO A) : idle R m -> idle R (ign m).
Proof. intros Hm. apply idle_bind; [done|]. intros. apply idle_ret. Qed.

Lemma idle_call R {A} (o : fsop OS X A) : idle R (fs_call o).
Proof. intros b Hl Hc. by apply wp_fs_call. Qed.

Lemma idle_enter R : idle R fs_enter.
Proof.
  intros b Hl [c Hc]. apply wp_bind, wp_get_lib, wp_bind, wp_check; [done|]. apply wp_bind, (wp_of_option _ _ c); [done|]. by apply wp_ret.
Qed.

Lemma idle_fs_op R {T A} (o : option T) (call : T -> fsop OS X A) missing : idle R (fs_op o call missing).
Proof. apply idle_bind; [apply idle_enter|]. intros _. destruct o; [apply idle_call|apply idle_ret]. Qed.

Lemma idle_prepare r : idle (Some r) (req_fuse_prepare r).
Proof.
  intros b Hl [c Hc]. apply wp_bind, wp_get_req. intros q. apply wp_bind, wp_get_lib. rewrite Hc. apply wp_set_user. by split.
Qed.

Lemma idle_intr_begin r : idle (Some r) (fuse_prepare_interrupt r).
Proof.
  apply idle_config. intros c. apply idle_if; [|apply idle_ret]. intros b Hl Hc. apply wp_interrupt_func; [|done].
  intros f [= <-]. apply wp_bind, wp_get_req. intros q. by apply wp_ret.
Qed.

Lemma idle_intr_end r : idle (Some r) (fuse_finish_interrupt r).
Proof. apply idle_config. intros c. apply idle_if; [|apply idle_ret]. intros b Hl Hc. apply wp_interrupt_func; [by intros ? [=]|done]. Qed.

Lemma wp_idle R {A} (m : IO A) (Q : A -> lib M X -> Prop) b G : idle R m -> held b G -> (forall a b', same_lib b b' -> held b' G -> Q a b') -> wp R m Q b.
Proof. intros Hm Hb HQ. eapply wp_mono; [apply Hm; apply Hb|]. intros a b' Hs. apply HQ; [exact Hs|exact (same_held b b' G Hs Hb)]. Qed.

(** *** Paths *)

Lemma held_zero b : held b [] -> forall p n, nodes (fz b) !! p = Some n -> treelock n = 0.
Proof.
  intros Hb p n Hn. destruct (s_locks _ _ (hd_sys _ _ Hb)) as (Qs & HQ & Hl). rewrite (hd_queue _ _ Hb) in HQ. apply Forall2_nil_inv_l in HQ as ->.
  pose proof (l_value _ _ Hl p n Hn) as Hv. unfold lock_value, readers, writers in Hv. cbn in Hv. lia.
Qed.

Lemma held_locks b G : held b G -> locks_inv (nodes (fz b)) G.
Proof.
  intros Hb. destruct (s_locks _ _ (hd_sys _ _ Hb)) as (Qs & HQ & Hl). rewrite (hd_queue _ _ Hb) in HQ. by apply Forall2_nil_inv_l in HQ as ->.
Qed.

(** No request waits for a lock to be released. *)
Definition unmarked b : Prop := forall p n, nodes (fz b) !! p = Some n -> 0 <= treelock n.

Lemma held_unmarked b : held b [] -> unmarked b.
Proof. intros Hb p n Hn. by rewrite (held_zero b Hb p n Hn). Qed.

Lemma unmarked_free b p i nm : unmarked b -> ~ blocked (nodes (fz b)) p i nm false.
Proof. intros Hu [(l & e & m & _ & Hm & Hneg)|[? _]]; [|done]. specialize (Hu e m Hm). lia. Qed.

(** The paths that are locked once a path has been asked for: [l] are the nodes
    on it. *)
Definition path_holds (p : Z) (l : list Z) (path : option bytes) (G : list hold) : list hold :=
  match path with Some _ => Hold p l None :: G | None => G end.

(** What [get_path] and its variants return. *)
Definition path_result b (p : Z) (nm : option bytes) (l : list Z) (pr : Z * option bytes) : Prop :=
  match pr.2 with
  | Some s => pr.1 = 0 /\ full_path (nodes (fz b)) p l /\ s = shown (path_string (nodes (fz b)) l (tail_of nm))
  | None => pr.1 <= 0
  end.

(** A path is taken if no lock is in its way. *)
Lemma try_path b G p i nm wr : held b G -> request_ok (fz b) p i nm wr -> Z.of_nat (length G) < 2 -> ~ blocked (nodes (fz b)) p i nm wr ->
  exists r f', try_get_path i nm wr true (fz b) = Some (r, f') /\ like b (with_fz f' b) /\
    (short_memory f' -> short_memory (fz b)) /\
    match r with
    | inl x => no_path (fz b) p x /\ held (with_fz f' b) G
    | inr (s, w) => write_node (fz b) i nm wr w /\ exists l, full_path (nodes (fz b)) p l /\ s = shown (path_string (nodes (fz b)) l (tail_of nm)) /\
        held (with_fz f' b) (Hold p l w :: G) /\ (unmarked b -> forall q n, nodes f' !! q = Some n -> 0 <= treelock n \/ w = Some q)
    end.
Proof.
  intros Hb Hr HG Hnb. pose proof (hd_sys _ _ Hb) as Hs. pose proof (hd_queue _ _ Hb) as HL.
  assert (Z.of_nat (length G) + 2 * Z.of_nat (length (lockq (fz b))) + 4 < 2 ^ 31 - 1) as Hfew by (rewrite HL; cbn; lia).
  destruct (sys_try _ G p i nm wr Hs Hr Hfew) as (r & f' & E & Hlo & HL' & Hres). rewrite HL in HL'.
  destruct (try_get_path_ok _ G p i nm wr (s_tree _ _ Hs) (s_acyclic _ _ Hs) (s_names _ _ Hs) (held_locks b G Hb) Hr) as (r' & N' & h & E' & _ & Hres'); [lia|].
  rewrite E in E'. injection E' as <- ->. exists r. set (f' := set_nodes N' _) in *. exists f'. split; [done|]. split; [done|]. split; [by eapply frugal_short; [apply frugal_try_get_path|]|]. destruct r as [x|[s w]].
  - destruct Hres as [Hs' Hre]. split; [|by eapply held_sys]. destruct Hre as [->|[?|[_ ?]]]; [left|by right|done].
    split; [done|]. by destruct (frugal_or _ _ _ _ _ (frugal_try_get_path i nm wr true) E).
  - destruct Hres as (Hw & l & Hfp & -> & Hs'). split; [done|]. exists l. split; [done|]. split; [done|]. split; [by eapply held_sys|]. intros Hu q m.
    destruct Hres' as (_ & l' & Hfp' & _ & _ & EN). cbn [nodes f' set_nodes]. rewrite EN, relock_lookup. intros Hm. apply fmap_Some in Hm as (m1 & Hm1 & ->).
    apply write_locked_lookup in Hm1 as (n & Hn & [[-> _]|[_ ->]]); [by right|left]. specialize (Hu q n Hn).
    destruct (bool_decide_reflect (q ∈ l')); [|done]. cbn [treelock with_treelock].
    unfold read_lock. pose proof (l_value _ _ (held_locks b G Hb) q n Hn) as Hv. pose proof (readers_range G q). unfold lock_value, TREELOCK_WAIT_OFFSET, TREELOCK_WRITE in Hv.
    rewrite swrap_id; [lia|lia|]. change (2 ^ (32 - 1)) with (2 ^ 31). lia.
Qed.

Lemma take_path b G p i nm wr : held b G -> request_ok (fz b) p i nm wr -> Z.of_nat (length G) < 2 -> ~ blocked (nodes (fz b)) p i nm wr ->
  exists r f', get_path_common 0 i nm wr (fz b) = Some (Some r, f') /\ like b (with_fz f' b) /\ (short_memory f' -> short_memory (fz b)) /\
    match r with
    | inl x => no_path (fz b) p x /\ held (with_fz f' b) G
    | inr (s, w) => write_node (fz b) i nm wr w /\ exists l, full_path (nodes (fz b)) p l /\ s = shown (path_string (nodes (fz b)) l (tail_of nm)) /\
        held (with_fz f' b) (Hold p l w :: G) /\ (unmarked b -> w = None -> unmarked (with_fz f' b))
    end.
Proof.
  intros Hb Hr HG Hnb. destruct (try_path b G p i nm wr Hb Hr HG Hnb) as (r & f' & E & Hl & Hsh & Hres). exists r, f'. unfold get_path_common. rewrite (bind_step _ _ _ _ _ E).
  destruct r as [x|[s w]].
  - destruct Hres as (Hx & Hb'). by rewrite (proj2 (Z.eqb_neq _ _) (proj2 (no_path_neg _ _ _ Hx))).
  - split; [done|]. split; [done|]. split; [done|]. destruct Hres as (Hw & l & Hfp & Hs & Hb' & Hu). split; [done|]. exists l. do 3 (split; [done|]). intros Hu0 -> q n Hn. by destruct (Hu Hu0 q n Hn).
Qed.

(** The state after a path has been asked for. *)
Definition after_path b G (p : Z) (nm : option bytes) (Q : Z * option bytes -> lib M X -> Prop) : Prop :=
  forall (pr : Z * option bytes) (l : list Z) b', path_result b p nm l pr -> (pr.1 <> 0 -> pr.2 = None) -> held b' (path_holds p l pr.2 G) -> like b b' ->
    (unmarked b -> unmarked b' \/ pr.2 = None) -> Q pr b'.

Lemma wp_get_path_name R b G p i nm Q : held b G -> unmarked b -> Z.of_nat (length G) < 2 -> request_ok (fz b) p i nm false ->
  after_path b G p nm Q -> wp R (get_path_name_ (OS := OS) i nm) Q b.
Proof.
  intros Hb Hu HG Hr HQ. destruct (take_path b G p i nm false Hb Hr HG (unmarked_free b p i nm Hu)) as (r & f' & E & Hst & _ & Hres).
  apply wp_bind, (wp_fuse _ _ (Some r) f' _ _ E). destruct r as [x|[s w]].
  - apply wp_bind, wp_ret, wp_ret. destruct Hres as [[Hx _]%no_path_neg Hb']. apply (HQ (x, None) [] (with_fz f' b)); auto. cbn. lia.
  - apply wp_bind, wp_ret, wp_ret. destruct Hres as (Hw & l & Hfp & -> & Hb' & Hu'). assert (w = None) as -> by (by eapply write_node_none).
    apply (HQ (0, Some _) l (with_fz f' b)); auto; done.
Qed.

Lemma wp_get_path R b G p i Q : held b G -> unmarked b -> Z.of_nat (length G) < 2 -> request_ok (fz b) p i None false ->
  after_path b G p None Q -> wp R (get_path_ (OS := OS) i) Q b.
Proof. apply (wp_get_path_name R b G p i None). Qed.

Lemma wp_get_path_nullok R b G p i Q : held b G -> unmarked b -> Z.of_nat (length G) < 2 -> request_ok (fz b) p i None false ->
  after_path b G p None Q -> wp R (get_path_nullok (OS := OS) i) Q b.
Proof.
  intros Hb Hu HG Hr HQ. apply wp_bind, wp_config. destruct (nullpath_ok _); [apply wp_ret, (HQ (0, None) [] b); done || by auto|].
  assert (wp R (get_path_name_ (OS := OS) i None) (fun p1 => Q (if p1.1 =? - ENOENT then (0, p1.2) else p1)) b) as Hw.
  { apply (wp_get_path_name R b G p i None); try done. intros pr l b' Hp Hn Hb' Hst Hu'. apply (HQ _ l); try done; destruct (Z.eqb_spec pr.1 (- ENOENT)) as [E|E]; try done; [|by auto..].
    unfold path_result in *. cbn [fst snd]. destruct pr.2; [|done]. destruct Hp as [? _]. by rewrite E in *. }
  intros s Es HR. destruct (Hw s Es HR) as (a & s' & E & Hq & HQ'). exists (if a.1 =? - ENOENT then (0, a.2) else a), s'. split; [|done].
  unfold get_path_name_ in E. apply bind_Some in E as (r & s1 & E1 & E). apply bind_Some in E as (pp & s2 & E2 & E3).
  rewrite (bind_step _ _ _ _ _ E1), (bind_step _ _ _ _ _ E2). injection E3 as <- <-. reflexivity.
Qed.

(** Releasing a path. *)
Lemma unlock_held b G i p l w : held b (Hold p l w :: G) -> ptr_in (nodes (fz b)) p i ->
  exists f', unlock_path i w None (fz b) = Some (tt, f') /\ lockq f' = [] /\ held (with_fz f' b) G /\ like b (with_fz f' b).
Proof.
  intros Hb Hp. pose proof (hd_sys _ _ Hb) as Hs. destruct (unlock_ok (fz b) G i p l w Hs Hp) as (f' & E & Hs' & HL & Hlo).
  destruct (unlock_path_ok (fz b) G i p l w (s_tree _ _ Hs) (s_acyclic _ _ Hs) (ptr_of _ _ _ Hp) (held_locks _ _ Hb)) as (N' & E' & _).
  rewrite E in E'. injection E' as ->. rewrite (hd_queue _ _ Hb) in HL. eexists. split; [exact E|]. split; [done|]. split; [by eapply held_sys|done].
Qed.

Lemma wp_free_wrlock R G p i l w b0 b : held b (Hold p l w :: G) -> ptr_in (nodes (fz b)) p i -> like b0 b ->
  wp R (on_fuse (OS := OS) (free_path_wrlock i w)) (fun _ b' => held b' G /\ like b0 b') b.
Proof.
  intros Hb Hp Hs. destruct (unlock_held b G i p l w Hb Hp) as (f' & E & HL & Hb' & Hst). eapply (wp_fuse _ _ tt f').
  - unfold free_path_wrlock. rewrite (bind_step _ _ _ _ _ E), bind_get, HL. done.
  - split; [done|by transitivity b].
Qed.

Lemma wp_free R G p i l path b0 b : held b (path_holds p l path G) -> ptr_in (nodes (fz b)) p i -> like b0 b ->
  wp R (free_path_ (OS := OS) i path) (fun _ b' => held b' G /\ like b0 b') b.
Proof.
  intros Hb Hp Hs. destruct path as [s|]; [by apply (wp_free_wrlock R G p i l None b0)|]. apply (wp_fuse _ _ tt (fz b)); [done|].
  by destruct b.
Qed.

Lemma wp_free2 R p1 i1 l1 w1 p2 i2 l2 w2 b0 b : held b [Hold p1 l1 w1; Hold p2 l2 w2] -> ptr_in (nodes (fz b)) p1 i1 -> ptr_in (nodes (fz b)) p2 i2 -> like b0 b ->
  wp R (on_fuse (OS := OS) (free_path2 i1 i2 w1 w2)) (fun _ b' => held b' [] /\ like b0 b') b.
Proof.
  intros Hb Hp1 Hp2 Hs. destruct (unlock_held b _ i1 p1 l1 w1 Hb Hp1) as (f1 & E1 & _ & Hb1 & Hst1).
  destruct (unlock_held _ [] i2 p2 l2 w2 Hb1 (like_ptr _ _ _ _ Hst1 Hp2)) as (f2 & E2 & HL & Hb2 & Hst2). eapply (wp_fuse _ _ tt f2).
  - unfold free_path2. rewrite (bind_step _ _ _ _ _ E1), (bind_step _ _ _ _ _ E2). unfold wake_up_queued. rewrite bind_get, HL. done.
  - split; [done|]. transitivity b; [done|]. by transitivity (with_fz f1 b).
Qed.

(** *** Two paths *)

(** A node is below each node on its path. *)
Lemma segment_below N p l e n m : num_inj N -> segment N p l e -> N !! p = Some n -> N !! e = Some m -> below (abs_nodes N) (nodeid m) (nodeid n).
Proof.
  intros Hin Hs. revert n. induction Hs as [p Hp|p k d nm l e Hk Hr Hd Hnm Hs IH]; intros n Hn Hm; [simplify_eq; constructor|]. assert (k = n) as -> by congruence.
  assert (exists dn, N !! d = Some dn) as [dn Hdn] by (inversion Hs as [? [x Hx]|]; subst; eauto).
  apply (below_dir _ _ _ (entry_of N p n) (nodeid dn) nm); [by apply abs_Some| |by apply IH]. cbn. unfold key_in. rewrite Hn. cbn. rewrite Hd. cbn. rewrite Hdn. cbn. by rewrite Hnm.
Qed.

Lemma segment_until N p l e q : segment N p l e -> q ∈ l -> exists l', segment N p l' q.
Proof.
  induction 1 as [p Hp|p n d nm l e Hn Hr Hd Hnm Hs IH]; [by intros ?%not_elem_of_nil|]. intros [->|Hq]%elem_of_cons; [exists []; constructor; eauto|].
  destruct (IH Hq) as [l' Hl']. exists (p :: l'). by eapply seg_cons.
Qed.

(** The files two paths lock for writing are not on each other's path, and not
    the same. *)
Definition no_conflict (A : tree) (i1 : Z) (nm1 : option bytes) (wr1 : bool) (i2 : Z) (nm2 : option bytes) (wr2 : bool) : Prop :=
  (forall s j e, wr1 = true -> nm1 = Some s -> A !! j = Some e -> place e = Some (i1, s) -> ~ below A j i2) /\
  (forall s j e, wr2 = true -> nm2 = Some s -> A !! j = Some e -> place e = Some (i2, s) -> ~ below A j i1) /\
  (wr1 = true -> wr2 = true -> (i1, nm1) <> (i2, nm2)).

Lemma second_free b (f1 : fuse M) p1 i1 nm1 wr1 l1 w1 p2 i2 nm2 wr2 : held b [] -> lock_only (nodes (fz b)) (nodes f1) -> locks_inv (nodes f1) [Hold p1 l1 w1] ->
  write_node (fz b) i1 nm1 wr1 w1 -> ptr_in (nodes (fz b)) p1 i1 -> ptr_in (nodes (fz b)) p2 i2 -> full_path (nodes (fz b)) p1 l1 ->
  (forall q n, nodes f1 !! q = Some n -> 0 <= treelock n \/ w1 = Some q) -> no_conflict (abs (fz b)) i1 nm1 wr1 i2 nm2 wr2 -> ~ blocked (nodes f1) p2 i2 nm2 wr2.
Proof.
  intros Hb Hlo Hl Hw (n1 & Hn1 & Hi1) (n2 & Hn2 & Hi2) (r & Hse1 & _) Hu (C1 & C2 & C3). pose proof (tree_num _ (s_tree _ _ (hd_sys _ _ Hb))) as Hin.
  assert (forall q, w1 = Some q -> exists s n, wr1 = true /\ nm1 = Some s /\ key_in (nodes (fz b)) q = Some (i1, s) /\ nodes (fz b) !! q = Some n) as Hw1.
  { intros q ->. destruct Hw as (? & s & ? & Hk). destruct (key_in_inv _ _ _ _ Hk) as (n & ? & ? & ? & _). eauto 8. }
  intros [(l & e & m & Hse & Hm & Hneg)|(-> & w & m & s & -> & Hm & Hk & Hne)].
  - destruct (Hu e m Hm) as [?|Ew]; [lia|]. destruct (Hw1 e Ew) as (s & n & ? & ? & Hk & Hn).
    apply (C1 s (nodeid n) (entry_of (nodes (fz b)) e n)); try done; [by apply abs_Some|]. rewrite <- Hi2. eapply segment_below; [done| |done|done].
    eapply segment_lock_only, Hse. by symmetry.
  - rewrite (key_lock_only _ _ w Hlo) in Hk. destruct (key_in_inv _ _ _ _ Hk) as (n & _ & _ & Hn & _).
    destruct (locked_held _ _ w m Hl Hm Hne) as (h & ->%list_elem_of_singleton & [Hq|Hq]); cbn in Hq.
    + destruct (segment_until _ _ _ _ _ Hse1 Hq) as [l' Hl']. apply (C2 s (nodeid n) (entry_of (nodes (fz b)) w n)); try done; [by apply abs_Some|].
      rewrite <- Hi1. by eapply segment_below.
    + destruct (Hw1 w Hq) as (s' & n' & ? & -> & Hk' & _). apply C3; [done|done|]. congruence.
Qed.

Lemma take_two b p1 i1 nm1 wr1 p2 i2 nm2 wr2 : held b [] -> request_ok (fz b) p1 i1 nm1 wr1 -> request_ok (fz b) p2 i2 nm2 wr2 -> no_conflict (abs (fz b)) i1 nm1 wr1 i2 nm2 wr2 ->
  exists r f', get_path2 0 i1 nm1 i2 nm2 wr1 wr2 (fz b) = Some (Some r, f') /\ like b (with_fz f' b) /\
    (short_memory f' -> short_memory (fz b)) /\
    match r with
    | inl x => (no_path (fz b) p1 x \/ no_path (fz b) p2 x) /\ held (with_fz f' b) []
    | inr ((s1, w1), (s2, w2)) => write_node (fz b) i1 nm1 wr1 w1 /\ write_node (fz b) i2 nm2 wr2 w2 /\
        exists l1 l2, held (with_fz f' b) [Hold p1 l1 w1; Hold p2 l2 w2] /\ full_path (nodes (fz b)) p1 l1 /\ full_path (nodes (fz b)) p2 l2 /\
          s1 = shown (path_string (nodes (fz b)) l1 (tail_of nm1)) /\ s2 = shown (path_string (nodes (fz b)) l2 (tail_of nm2))
    end.
Proof.
  intros Hb Hr1 Hr2 Hc. assert (forall p i nm wr, ~ blocked (nodes (fz b)) p i nm wr) as Hnb.
  { intros p i nm wr [(l & x & m & _ & Hm & Hneg)|(_ & w & m & s & _ & Hm & _ & Hne)]; pose proof (held_zero b Hb _ _ Hm); lia. }
  assert (ptr_in (nodes (fz b)) p1 i1 /\ ptr_in (nodes (fz b)) p2 i2) as [Hp1 Hp2].
  { split; [destruct (r_node _ _ _ _ _ Hr1) as (n & ? & ? & _)|destruct (r_node _ _ _ _ _ Hr2) as (n & ? & ? & _)]; by exists n. }
  unfold get_path2, try_get_path2. rewrite bind_assoc. destruct (try_path b [] p1 i1 nm1 wr1 Hb Hr1) as (r1 & f1 & E1 & Hl1 & Hsh1 & K1); [done|apply Hnb|].
  rewrite (bind_step _ _ _ _ _ E1). destruct r1 as [x|[s1 w1]].
  { destruct K1 as (Hx & Hb1). pose proof (no_path_neg _ _ _ Hx) as [_ Hne]. rewrite bind_ret, (proj2 (Z.eqb_neq _ _) Hne). exists (inl x), f1. split; [done|]. split; [done|]. split; [done|]. split; [by left|done]. }
  destruct K1 as (Hw1 & l1 & Hfp1 & Hs1 & Hb1 & Hu1). rewrite bind_assoc. set (b1 := with_fz f1 b) in *.
  destruct (try_path b1 [Hold p1 l1 w1] p2 i2 nm2 wr2 Hb1) as (r2 & f2 & E2 & Hl2 & Hsh2 & K2); [by eapply like_request|done| |].
  { eapply (second_free b f1 p1 i1 nm1 wr1 l1 w1); try done; [apply Hl1|exact (held_locks _ _ Hb1)|]. by apply Hu1, held_unmarked. }
  change (fz b1) with f1 in E2. rewrite (bind_step _ _ _ _ _ E2). change (with_fz f2 b1) with (with_fz f2 b) in *. assert (like b (with_fz f2 b)) as Hl by by transitivity b1.
  destruct r2 as [x|[s2 w2]].
  - destruct K2 as (Hx & Hb2). pose proof (no_path_neg _ _ _ Hx) as [_ Hne]. rewrite bind_assoc. destruct (unlock_held _ [] i1 p1 l1 w1 Hb2) as (f3 & E3 & _ & Hb3 & Hl3); [by eapply like_ptr|].
    cbn [snd]. change (fz (with_fz f2 b)) with f2 in E3. rewrite (bind_step _ _ _ _ _ E3), bind_ret, (proj2 (Z.eqb_neq _ _) Hne). exists (inl x), f3.
    pose proof (frugal_short _ _ _ _ _ (frugal_unlock_path i1 w1 None) E3) as Hsh3.
    split; [done|]. split; [by transitivity (with_fz f2 b)|]. split; [by auto|]. split; [right|done].
    destruct Hx as [[-> Hx]|[-> Hx]]; [left; auto|right]. split; [done|]. intros l Hfl. apply (Hx l). by eapply full_path_lock_only; [apply Hl1|].
  - destruct K2 as (Hw2 & l2 & Hfp2 & Hs2 & Hb2 & _). rewrite bind_ret. exists (inr ((s1, w1), (s2, w2))), f2. split; [done|]. split; [done|]. split; [by auto|]. split; [done|]. split.
    + destruct w2; [destruct Hw2 as (? & s & ? & Hk); split; [done|]; exists s; split; [done|]; by rewrite <- (key_lock_only _ _ _ (lk_nodes _ _ Hl1))|].
      intros Ht. destruct (Hw2 Ht) as (s & ? & Hv). exists s. split; [done|]. by rewrite <- (like_abs b b1 [] Hb Hl1).
    + exists l1, l2. split; [destruct Hb2 as [? ? ? ? ?]; split; try done; eapply sys_perm; [|done]; constructor|]. split; [done|].
      split; [by eapply full_path_lock_only; [symmetry; apply Hl1|]|]. split; [done|]. rewrite Hs2. f_equal. apply path_string_lock_only, Hl1.
Qed.

(** *** The frame of most handlers *)

Lemma wp_path_block r G b p i (l : list Z) pr {A} (fail : Z -> A) (body : option bytes -> IO A) Q : held b (path_holds p l pr.2 G) -> (pr.1 <> 0 -> pr.2 = None) ->
  (pr.1 <> 0 -> held b G -> Q (fail pr.1) b) ->
  (pr.1 = 0 -> forall b1, held b1 (path_holds p l pr.2 G) -> same_lib b b1 -> wp (Some r) (body pr.2) (fun a b2 =>
     held b2 (path_holds p l pr.2 G) /\ ptr_in (nodes (fz b2)) p i /\ forall b3, held b3 G -> like b2 b3 -> Q a b3) b1) ->
  wp (Some r) (path_block r i pr fail body) Q b.
Proof.
  intros Hb Hn Hf Hk. unfold path_block. destruct (Z.eqb_spec pr.1 0) as [E|E]; [|apply wp_ret, Hf; [done|by rewrite (Hn E) in Hb]].
  apply wp_bind. eapply wp_idle; [apply idle_intr_begin|exact Hb|]. intros _ b1 S1 Hb1. apply wp_bind. eapply wp_mono; [by apply Hk|].
  intros a b2 (Hb2 & Hp & HQ). apply wp_bind. eapply wp_idle; [apply idle_intr_end|exact Hb2|]. intros _ b3 S3 Hb3.
  apply wp_bind. eapply wp_mono; [apply (wp_free _ G p i l pr.2 b2); [done| |by apply same_like]|].
  - by apply (like_ptr b2), Hp; apply same_like.
  - intros _ b4 [Hb4 Hs4]. by apply wp_ret, HQ.
Qed.

Lemma idle_path_block r G b0 p i (l : list Z) pr {A} (fail : Z -> A) (body : option bytes -> IO A) b : held b (path_holds p l pr.2 G) -> (pr.1 <> 0 -> pr.2 = None) ->
  ptr_in (nodes (fz b0)) p i -> like b0 b -> idle (Some r) (body pr.2) ->
  wp (Some r) (path_block r i pr fail body) (fun _ b' => held b' G /\ like b0 b') b.
Proof.
  intros Hb Hn Hp Hs Hk. apply (wp_path_block r G b p i l); [done|done|done|]. intros _ b1 Hb1 Hs1. eapply wp_idle; [exact Hk|exact Hb1|].
  intros a b2 Hs2 Hb2. assert (like b0 b2) as Hl by (transitivity b1; [transitivity b; [done|by apply same_like]|by apply same_like]).
  split; [done|]. split; [by eapply like_ptr|]. intros b3 Hb3 Hs3. split; [done|by transitivity b2].
Qed.

End Rules.
