(* ===== verification/LibCalm.v ===== *)
(** * The request handlers that leave the tree as it is

    Handlers that read or change one file: they lock its path, call the file
    system, release the path and answer once, whatever the file system, the
    device and the allocator return. *)

From S2P Require Import Prelude DList NodeTable Wire Locks Node NodeTree NodeOps NodeSpec NodeTheorems Path PathSpec PathQueue PathTree PathTheorems.
From S2P Require Import Buf LowLevel Dispatch Handler Lib LibOps LibSpec.

Section Calm.
Context {OS M X : Type} `{FdOps OS} `{DevOps OS} `{!FdLaws OS} `{!DevLaws OS} `{NodeMemLaws M}.
Context (fs : fuse_operations OS X).
Implicit Types (b : lib M X) (G : list hold) (R : option Z).

Abbreviation IO := (ST (LL OS (lib M X))).

(** ** Answers *)

(** [m] answers [r] and does nothing else. *)
Definition sends {A} (r : Z) (m : IO A) : Prop := forall Q b, (forall a msg, Q a msg b) -> replies r m Q b.

Lemma sends_iov r err iov : sends r (send_reply_iov r err iov).
Proof. intros Q b HQ. apply replies_iov. auto. Qed.

Lemma sends_conn {A} r (k : fuse_conn_info -> IO A) : (forall c, sends r (k c)) -> sends r (c ← req_conn r; k c).
Proof. intros Hk Q b HQ. apply replies_conn. intros c. by apply Hk. Qed.

Lemma sends_if {A} r (c : bool) (m m' : IO A) : sends r m -> sends r m' -> sends r (if c then m else m').
Proof. by destruct c. Qed.

Lemma sends_ign {A} r (m : IO A) : sends r m -> sends r (ign m).
Proof. intros Hm Q b HQ. unfold ign. apply replies_after, Hm. intros a msg. by apply wp_ret. Qed.

Lemma sends_err r e : sends r (reply_err r e).
Proof. apply (sends_ign r (fuse_reply_err r (- e))), sends_iov. Qed.
End Calm.

Ltac send_step :=
  match goal with
  | |- sends _ (reply_err _ _) => apply sends_err
  | |- sends _ (ign _) => apply sends_ign
  | |- sends _ (if _ then _ else _) => apply sends_if
  | |- sends _ (send_reply_iov _ _ _) => apply sends_iov
  | |- sends _ (send_reply _ _ _) => unfold send_reply
  | |- sends _ (send_reply_ok _ _) => unfold send_reply_ok
  | |- sends _ (_ ≫= _) => apply sends_conn; intros ?; cbv zeta
  | |- sends _ _ => progress unfold fuse_reply_attr, fuse_reply_statfs, fuse_reply_entry, fuse_reply_create, fuse_reply_readlink, fuse_reply_open, fuse_reply_write,
      fuse_reply_buf, fuse_reply_xattr, fuse_reply_lock, fuse_reply_bmap, fuse_reply_ioctl, fuse_reply_poll, fuse_reply_lseek, fuse_reply_err
  end.

Ltac send_tac := repeat send_step.

Section Handlers.
Context {OS M X : Type} `{FdOps OS} `{DevOps OS} `{!FdLaws OS} `{!DevLaws OS} `{NodeMemLaws M}.
Context (fs : fuse_operations OS X).
Implicit Types (b : lib M X) (G : list hold) (R : option Z).

Abbreviation IO := (ST (LL OS (lib M X))).

(** ** One path *)

(** The same files, known to the kernel by the same numbers, and the same
    configuration; directories that were open still are. *)
Record same_tree b b' : Prop := { sm_abs : abs (fz b') = abs (fz b); sm_conf : conf (fz b') = conf (fz b); 
  sm_dirs : forall d, is_Some (dhs b !! d) -> is_Some (dhs b' !! d) }.

#[export] Instance same_tree_preorder : PreOrder same_tree.
Proof. split; [by intros b|]. intros b1 b2 b3 [? ? ?] [? ? ?]. split; auto; congruence. Qed.

Lemma like_tree b b' G : held b G -> like b b' -> same_tree b b'.
Proof. intros Hb Hl. split; [by eapply like_abs|apply Hl|by rewrite (lk_dhs _ _ Hl)]. Qed.

(** The request is answered, and the nodes are as before. *)
Definition serves {A} (r : Z) (m : IO A) b : Prop := replies r m (fun _ _ b' => held b' [] /\ same_tree b b') b.

Lemma replies_prepare r {A} (m : IO A) Q b : held b [] -> (forall b', held b' [] -> same_lib b b' -> replies r m Q b') -> replies r (_ ← req_fuse_prepare r; m) Q b.
Proof. intros Hb Hm. apply replies_bind. eapply wp_idle; [apply idle_prepare|exact Hb|]. auto. Qed.

Lemma same_lib_tree b b' : same_lib b b' -> same_tree b b'.
Proof. intros [E Ed ? ? ?]. split; rewrite ?E, ?Ed; done. Qed.

Lemma serves_prepare r {A} (m : IO A) b : held b [] -> (forall b', held b' [] -> same_lib b b' -> serves r m b') -> serves r (_ ← req_fuse_prepare r; m) b.
Proof.
  intros Hb Hm. apply replies_prepare; [done|]. intros b1 Hb1 S1. eapply replies_mono; [by apply Hm|].
  intros a msg b' [Hb' Hs']. split; [done|]. transitivity b1; [by apply same_lib_tree|done].
Qed.

Lemma serves_sends r {A} (m : IO A) b0 b : sends r m -> held b [] -> same_tree b0 b -> replies r m (fun _ _ b' => held b' [] /\ same_tree b0 b') b.
Proof. intros Hm Hb Hs. by apply Hm. Qed.

(** The ways to ask for the path of a node. *)
Definition getter r (i : Z) (nm : option bytes) (m : IO (Z * option bytes)) : Prop := forall b p Q, held b [] -> request_ok (fz b) p i nm false ->
  after_path b [] p nm Q -> wp (Some r) m Q b.

Lemma getter_path r i : getter r i None (get_path_ i).
Proof. intros b p Q Hb. by apply wp_get_path; [|apply held_unmarked|]. Qed.

Lemma getter_null r i : getter r i None (get_path_nullok i).
Proof. intros b p Q Hb. by apply wp_get_path_nullok; [|apply held_unmarked|]. Qed.

Lemma getter_name r i nm : getter r i nm (get_path_name_ i nm).
Proof. intros b p Q Hb. by apply wp_get_path_name; [|apply held_unmarked|]. Qed.

Lemma request_ptr b p i nm wr : request_ok (fz b) p i nm wr -> ptr_in (nodes (fz b)) p i.
Proof. intros Hr. destruct (r_node _ _ _ _ _ Hr) as (n & Hn & Hi & _). by exists n. Qed.

(** The frame of a handler with one path. *)
Lemma one_path r i p b nm {A B} (get : IO (Z * option bytes)) fail (body : option bytes -> IO A) (k : A -> IO B) Q : getter r i nm get -> held b [] ->
  request_ok (fz b) p i nm false -> (forall path, idle (Some r) (body path)) ->
  (forall a b', held b' [] -> like b b' -> replies r (k a) Q b') -> replies r (pr ← get; a ← path_block r i pr fail body; k a) Q b.
Proof.
  intros Hg Hb Hr Hk HQ. apply replies_bind, (Hg b p); [done|done|]. intros pr l b' _ Hn Hb' Hs' _. apply replies_bind.
  eapply wp_mono; [apply (idle_path_block r [] b p i l pr); try done; by eapply request_ptr|]. intros a b2 [Hb2 Hs2]. by apply HQ.
Qed.

Lemma one_path_err r i p b nm (get : IO (Z * option bytes)) (body : option bytes -> IO Z) : getter r i nm get -> held b [] ->
  request_ok (fz b) p i nm false -> (forall path, idle (Some r) (body path)) ->
  serves r (pr ← get; err ← block_err r i pr body; reply_err r err) b.
Proof.
  intros Hg Hb Hr Hk. apply (one_path r i p b nm get); try done. intros a b' Hb' Hs. apply serves_sends; [send_tac|done|by eapply like_tree].
Qed.

(** [known b i]: the kernel may name [i]. *)
Definition known b (i : Z) : Prop := exists p, request_ok (fz b) p i None false.

End Handlers.

Ltac idle_step :=
  match goal with
  | |- idle _ (fs_op _ _ _) => apply idle_fs_op
  | |- idle _ (mret _) => apply idle_ret
  | |- idle _ (if _ then _ else _) => apply idle_if
  | |- idle _ (ign _) => apply idle_ign
  | |- idle _ LowLevel.malloc => apply idle_malloc
  | |- idle _ (fuse_prepare_interrupt _) => apply idle_intr_begin
  | |- idle _ (fuse_finish_interrupt _) => apply idle_intr_end
  | |- idle _ (config ≫= _) => apply idle_config; intros ?
  | |- idle _ (_ ≫= _) => apply idle_bind; [|intros ?; cbv zeta]
  | |- idle _ (step _ _ _) => unfold step
  | |- idle _ (match ?o with Some _ => _ | None => _ end) => destruct o
  | |- idle _ _ => progress unfold fuse_fs_getattr, fuse_fs_rename, fuse_fs_unlink, fuse_fs_rmdir, fuse_fs_symlink, fuse_fs_link, fuse_fs_release,
      fuse_fs_opendir, fuse_fs_open, fuse_fs_fsync, fuse_fs_fsyncdir, fuse_fs_flush, fuse_fs_statfs, fuse_fs_releasedir, fuse_fs_create, fuse_fs_lock,
      fuse_fs_flock, fuse_fs_chown, fuse_fs_truncate, fuse_fs_utimens, fuse_fs_access, fuse_fs_readlink, fuse_fs_mknod, fuse_fs_mkdir, fuse_fs_setxattr,
      fuse_fs_getxattr, fuse_fs_listxattr, fuse_fs_bmap, fuse_fs_removexattr, fuse_fs_ioctl, fuse_fs_poll, fuse_fs_fallocate, fuse_fs_copy_file_range,
      fuse_fs_lseek, fuse_fs_chmod, setattr_calls
  end.

Ltac idle_tac := intros; repeat idle_step.

(** The answer at the end of a handler. *)
Ltac answer_tac := apply serves_sends; [send_tac|assumption|eapply like_tree; eassumption].

Ltac getter_tac :=
  match goal with
  | |- getter _ _ _ (get_path_ _) => apply getter_path
  | |- getter _ _ _ (get_path_nullok _) => apply getter_null
  | |- getter _ _ _ (path_or_null _ ?fi) => destruct fi; [apply getter_null|apply getter_path]
  | |- getter _ _ _ (get_path_name_ _ _) => apply getter_name
  end.

(** A handler with one path: what is left is the code after it. *)
Ltac path_tac Hb Hr :=
  apply serves_prepare; [exact Hb|];
  let b1 := fresh "b1" in let Hb1 := fresh "Hb1" in let S1 := fresh "S1" in intros b1 Hb1 S1;
  rewrite <- (sl_fz _ _ S1) in Hr;
  first [ eapply one_path_err; [getter_tac|exact Hb1|exact Hr|idle_tac]
        | eapply one_path; [getter_tac|exact Hb1|exact Hr|idle_tac|intros ? b' Hb' Hl; cbv beta zeta; try solve [answer_tac]] ].

Section One.
Context {OS M X : Type} `{FdOps OS} `{DevOps OS} `{!FdLaws OS} `{!DevLaws OS} `{NodeMemLaws M}.
Context (fs : fuse_operations OS X).
Implicit Types (b : lib M X) (G : list hold) (R : option Z).

Abbreviation IO := (ST (LL OS (lib M X))).

Lemma access_serves r i mask b : held b [] -> known b i -> serves r (fuse_lib_access fs r i mask) b.
Proof. intros Hb [p Hr]. path_tac Hb Hr. Qed.

Lemma readlink_serves r i b : held b [] -> known b i -> serves r (fuse_lib_readlink fs r i) b.
Proof. intros Hb [p Hr]. path_tac Hb Hr. Qed.

Lemma statfs_serves r i b : held b [] -> known b i -> serves r (fuse_lib_statfs fs r i) b.
Proof.
  intros Hb [p Hr]. assert (i <> 0) as Hi.
  { destruct (r_node _ _ _ _ _ Hr) as (n & Hn & <- & _). pose proof (t_nodeid _ _ _ _ _ (s_tree _ _ (hd_sys _ _ Hb)) p n Hn (not_elem_of_empty p)). lia. }
  unfold fuse_lib_statfs. rewrite (proj2 (Z.eqb_neq i 0) Hi). cbn [negb]. path_tac Hb Hr.
Qed.

Lemma setxattr_serves r i nm v fl b : held b [] -> known b i -> serves r (fuse_lib_setxattr fs r i nm v fl) b.
Proof. intros Hb [p Hr]. path_tac Hb Hr. Qed.

Lemma removexattr_serves r i nm b : held b [] -> known b i -> serves r (fuse_lib_removexattr fs r i nm) b.
Proof. intros Hb [p Hr]. path_tac Hb Hr. Qed.

Lemma bmap_serves r i sz idx b : held b [] -> known b i -> serves r (fuse_lib_bmap fs r i sz idx) b.
Proof. intros Hb [p Hr]. path_tac Hb Hr. Qed.

Lemma fsync_serves r i ds fi b : held b [] -> known b i -> serves r (fuse_lib_fsync fs r i ds fi) b.
Proof. intros Hb [p Hr]. path_tac Hb Hr. Qed.

Lemma flock_serves r i fi o b : held b [] -> known b i -> serves r (fuse_lib_flock fs r i fi o) b.
Proof. intros Hb [p Hr]. path_tac Hb Hr. Qed.

Lemma fallocate_serves r i mode off len fi b : held b [] -> known b i -> serves r (fuse_lib_fallocate fs r i mode off len fi) b.
Proof. intros Hb [p Hr]. path_tac Hb Hr. Qed.

Lemma poll_serves r i fi ph b : held b [] -> known b i -> serves r (fuse_lib_poll fs r i fi ph) b.
Proof. intros Hb [p Hr]. path_tac Hb Hr. Qed.

(** ** Details of a node *)

Lemma known_node b G p i : held b G -> ptr_in (nodes (fz b)) p i ->
  exists n, get_node_ i (fz b) = Some (p, fz b) /\ nodes (fz b) !! p = Some n /\ nodeid n = i.
Proof.
  intros Hb (n & Hn & <-). exists n. split; [|done]. exact (get_node_ok ∅ ∅ ∅ _ _ p n (s_tree _ _ (hd_sys _ _ Hb)) Hn (not_elem_of_empty p)).
Qed.

(** The open files stay open. *)
Definition opens (f f' : fuse M) : Prop := open_count <$> nodes f' = open_count <$> nodes f.

Lemma opens_lookup f f' p n : opens f f' -> nodes f !! p = Some n -> exists n', nodes f' !! p = Some n' /\ open_count n' = open_count n.
Proof.
  intros E Hn. assert ((open_count <$> nodes f) !! p = Some (open_count n)) as Hc by (by rewrite lookup_fmap, Hn).
  rewrite <- E, lookup_fmap in Hc. apply fmap_Some in Hc as (n' & ? & ?). by exists n'.
Qed.

Lemma update_detail (f : fuse M) p n g : nodes f !! p = Some n -> core (g n) = core n ->
  exists f', update p g f = Some (tt, f') /\ detail f f' /\ nodes f' !! p = Some (g n) /\ (open_count (g n) = open_count n -> opens f f').
Proof.
  intros Hn Hc. eexists. split; [by apply update_eq|]. split; [exact (detail_update f p n _ Hn Hc)|]. split; [apply lookup_insert_eq|].
  intros Ho. unfold opens. cbn. rewrite fmap_insert, Ho. apply insert_id. by rewrite lookup_fmap, Hn.
Qed.

Lemma time_detail (f : fuse M) : exists t f', curr_time f = Some (t, f') /\ detail f f' /\ nodes f' = nodes f.
Proof. destruct (curr_time_eq f) as (t & c & E). exists t, (set_clock c f). split; [done|]. by split; [split|]. Qed.

Lemma update_stat_detail (f : fuse M) p n st : nodes f !! p = Some n -> exists f', update_stat p st f = Some (tt, f') /\ detail f f' /\ opens f f'.
Proof.
  intros Hn. unfold update_stat. rewrite (bind_step _ _ _ _ _ (node_at_eq f p n Hn)).
  assert (exists f1 n1, (if cache_valid n && (negb (mtime_eq st (mtime n)) || negb (st_size st =? nsize n)) then update p (with_cache_valid false) else mret tt) f = Some (tt, f1) /\
    detail f f1 /\ opens f f1 /\ nodes f1 !! p = Some n1) as (f1 & n1 & E1 & D1 & O1 & Hn1).
  { destruct (_ && _); [|by exists f, n]. destruct (update_detail f p n (with_cache_valid false) Hn eq_refl) as (f1 & ? & ? & ? & HO). exists f1, (with_cache_valid false n). by auto. }
  rewrite (bind_step _ _ _ _ _ E1). destruct (time_detail f1) as (t & f2 & E2 & D2 & EN). rewrite (bind_step _ _ _ _ _ E2). rewrite <- EN in Hn1.
  destruct (update_detail f2 p n1 (with_stat t (Timespec (st_mtime st) (st_mtimensec st)) (st_size st)) Hn1 eq_refl) as (f3 & E3 & D3 & _ & O3).
  exists f3. split; [done|]. split; [transitivity f1; [done|]; by transitivity f2|]. specialize (O3 eq_refl). unfold opens in *. by rewrite O3, EN.
Qed.

Lemma refresh_detail b G p i h st : held b G -> ptr_in (nodes (fz b)) p i -> exists st' f', refresh_stat i h st (fz b) = Some (st', f') /\ detail (fz b) f'.
Proof.
  intros Hb Hp. destruct (known_node b G p i Hb Hp) as (n & Eg & Hn & Hi). unfold refresh_stat.
  rewrite (bind_step _ _ _ _ _ Eg), (bind_step _ _ _ _ _ (node_at_eq _ p n Hn)), bind_get. cbv zeta.
  set (st1 := if h && _ && _ then _ else _).
  assert (exists f', (if auto_cache (conf (fz b)) then update_stat p st1 else mret tt) (fz b) = Some (tt, f') /\ detail (fz b) f') as (f' & E & D).
  { destruct (auto_cache _); [destruct (update_stat_detail (fz b) p n st1 Hn) as (f' & ? & ? & _); by exists f'|by exists (fz b)]. }
  rewrite (bind_step _ _ _ _ _ E). unfold set_stat. rewrite bind_get. eexists _, f'. by split.
Qed.

Lemma add_open_detail b G p i n : held b G -> nodes (fz b) !! p = Some n -> nodeid n = i ->
  exists f', add_open i (fz b) = Some (tt, f') /\ detail (fz b) f' /\ nodes f' !! p = Some (with_open_count (i32 (open_count n + 1)) n).
Proof.
  intros Hb Hn Hi. destruct (known_node b G p i Hb) as (n' & Eg & Hn' & _); [by exists n|]. simplify_eq. unfold add_open. rewrite (bind_step _ _ _ _ _ Eg).
  destruct (update_detail _ p n (fun n => with_open_count (i32 (open_count n + 1)) n) Hn eq_refl) as (f' & ? & ? & ? & _). eauto.
Qed.

Lemma drop_open_detail b G p i n : held b G -> nodes (fz b) !! p = Some n -> nodeid n = i -> 0 < open_count n ->
  exists h f', drop_open i (fz b) = Some (h, f') /\ detail (fz b) f'.
Proof.
  intros Hb Hn Hi Ho. destruct (known_node b G p i Hb) as (n' & Eg & Hn' & _); [by exists n|]. simplify_eq. unfold drop_open.
  rewrite (bind_step _ _ _ _ _ Eg), (bind_step _ _ _ _ _ (node_at_eq _ p n Hn)). rewrite (proj2 (Z.ltb_lt 0 (open_count n)) Ho). cbn [check]. rewrite bind_ret. cbv zeta.
  set (last := is_hidden n && _).
  destruct (update_detail _ p n (fun n => with_open_count (open_count n - 1) (if last then with_hidden false n else n)) Hn) as (f' & E & D & _); [by destruct last|].
  rewrite (bind_step _ _ _ _ _ E). eexists _, f'. split; [reflexivity|done].
Qed.

Lemma detail_same b G f' : held b G -> detail (fz b) f' -> same_tree b (with_fz f' b).
Proof.
  intros Hb Hd. pose proof (proj2 Hd) as [= _ _ _ _ _ EC _ _]. split; [by apply detail_abs, (s_tree _ _ (hd_sys _ _ Hb))|done..].
Qed.

(** A section that changes details, and what follows it. *)
Lemma wp_detail R {A} (m : ST (fuse M) A) (Q : A -> lib M X -> Prop) b G : held b G -> (exists a f', m (fz b) = Some (a, f') /\ detail (fz b) f') ->
  (forall a f', held (with_fz f' b) G -> same_tree b (with_fz f' b) -> detail (fz b) f' -> Q a (with_fz f' b)) -> wp R (on_fuse (OS := OS) m) Q b.
Proof.
  intros Hb (a & f' & E & Hd) HQ. eapply wp_fuse; [exact E|]. apply HQ; [by apply (held_detail b G)|by apply (detail_same b G)|done].
Qed.

Lemma replies_config r {A} (k : fuse_config -> IO A) Q b : replies r (k (conf (fz b))) Q b -> replies r (c ← config; k c) Q b.
Proof. intros Hk. by apply replies_bind, wp_config. Qed.

(** The end of [getattr] and [setattr]. *)
Lemma attr_reply r i p h (a : Z * stat) b0 b : held b [] -> ptr_in (nodes (fz b)) p i -> same_tree b0 b ->
  replies r (if a.1 =? 0 then buf ← on_fuse (refresh_stat i h a.2); c ← config; ign (fuse_reply_attr r buf (attr_timeout c)) else reply_err r a.1)
    (fun _ _ b' => held b' [] /\ same_tree b0 b') b.
Proof.
  intros Hb Hp Hs. destruct (_ =? 0); [|by apply serves_sends; [send_tac|..]]. apply replies_bind. eapply wp_detail; [exact Hb|by eapply refresh_detail|].
  intros st f' Hb' Hs' _. apply replies_config, serves_sends; [send_tac|done|by transitivity b].
Qed.

Lemma getattr_serves r i fi b : held b [] -> known b i -> serves r (fuse_lib_getattr fs r i fi) b.
Proof.
  intros Hb [p Hr]. path_tac Hb Hr. apply (attr_reply r i p); [done| |by eapply like_tree]. eapply like_ptr; [exact Hl|]. by eapply request_ptr.
Qed.

Lemma setattr_serves r i st valid fi b : held b [] -> known b i -> serves r (fuse_lib_setattr fs r i st valid fi) b.
Proof.
  intros Hb [p Hr]. path_tac Hb Hr. apply (attr_reply r i p); [done| |by eapply like_tree]. eapply like_ptr; [exact Hl|]. by eapply request_ptr.
Qed.

(** ** Handlers with another frame *)

(** The call of the file system between preparing for an interrupt and
    releasing the path. *)
Lemma idle_block r G p i (l : list Z) path {A B} (body : IO A) (k : A -> IO B) Q b0 b : held b (path_holds p l path G) -> ptr_in (nodes (fz b0)) p i -> like b0 b ->
  idle (Some r) body -> (forall a b', held b' G -> like b0 b' -> replies r (k a) Q b') ->
  replies r (_ ← fuse_prepare_interrupt r; a ← body; _ ← fuse_finish_interrupt r; _ ← free_path_ i path; k a) Q b.
Proof.
  intros Hb Hp Hl Hm Hk. apply replies_bind. eapply wp_idle; [apply idle_intr_begin|exact Hb|]. intros _ b1 S1 Hb1. apply replies_bind.
  eapply wp_idle; [exact Hm|exact Hb1|]. intros a b2 S2 Hb2. apply replies_bind. eapply wp_idle; [apply idle_intr_end|exact Hb2|]. intros _ b3 S3 Hb3.
  assert (like b0 b3) as Hl3 by (transitivity b; [done|]; apply same_like; transitivity b2; [by transitivity b1|done]).
  apply replies_bind. eapply wp_mono; [apply (wp_free _ G p i l path b0); [done|by apply (like_ptr b0)|done]|]. intros _ b4 [Hb4 Hl4]. by apply Hk.
Qed.

Lemma lseek_serves r i off wh fi b : held b [] -> known b i -> serves r (fuse_lib_lseek fs r i off wh fi) b.
Proof.
  intros Hb [p Hr]. apply serves_prepare; [exact Hb|]. intros b1 Hb1 S1. rewrite <- (sl_fz _ _ S1) in Hr.
  apply replies_bind, (getter_path r i b1 p); [exact Hb1|exact Hr|]. intros pr l b2 _ Hn Hb2 Hl2 _. destruct (Z.eqb_spec pr.1 0) as [E|E]; cbn [negb].
  - eapply (idle_block r [] p i l pr.2 _ _ _ b1); [done|by eapply request_ptr|done|idle_tac|]. intros res b' Hb' Hl. answer_tac.
  - rewrite (Hn E) in Hb2. pose proof Hl2 as Hl. answer_tac.
Qed.

(** A result that the file system promises. *)
Lemma wp_fs_promise R {T A} (o : option T) (call : T -> fsop OS X A) missing (P : A -> Prop) b G (Q : A -> lib M X -> Prop) :
  held b G -> P missing -> (forall f c st, o = Some f -> P (call f c st).1) -> (forall a b', P a -> same_lib b b' -> held b' G -> Q a b') ->
  wp R (fs_op o call missing) Q b.
Proof.
  intros Hb Hm Hf HQ. apply wp_bind, (wp_fs_enter _ _ b G Hb). destruct o as [f|]; [|by apply wp_ret, HQ].
  intros s Es _. unfold fs_call. destruct (hd_ctx _ _ Hb) as [c Hc]. rewrite bind_get, Es, Hc. unfold of_option. rewrite bind_ret.
  specialize (Hf f c (fsx b, mach s) eq_refl). destruct (call f c (fsx b, mach s)) as [a [x w]] eqn:E. eexists a, _. split; [reflexivity|].
  split; [by apply quiet_same|]. cbn. rewrite Es. assert (same_lib b (with_fsx x b)) as S by by split. apply HQ; [done|done|by eapply same_held].
Qed.

(** The file system does not report more of an attribute than it has stored in
    the buffer. *)
Definition xattr_promise : Prop :=
  (forall f path nm size c st, o_getxattr fs = Some f -> let r := (f path nm size c st).1 in r.1 <= Z.of_nat (length r.2)) /\
  (forall f path size c st, o_listxattr fs = Some f -> let r := (f path size c st).1 in r.1 <= Z.of_nat (length r.2)).

Definition in_buffer (r : Z * bytes) : Prop := r.1 <= Z.of_nat (length r.2).

Lemma xattr_reply r size (a : Z * bytes) b0 b : in_buffer a -> held b [] -> same_tree b0 b ->
  replies r (reply_xattr_value r size a) (fun _ _ b' => held b' [] /\ same_tree b0 b') b.
Proof.
  intros Ha Hb Hs. unfold reply_xattr_value. destruct (negb _); [|by apply serves_sends; [send_tac|..]]. destruct (0 <? a.1); [|by apply serves_sends; [send_tac|..]].
  apply replies_bind, wp_check; [by apply Z.leb_le|]. by apply serves_sends; [send_tac|..].
Qed.

Lemma xattr_serves r i size p b (call : option bytes -> IO (Z * bytes)) : held b [] -> request_ok (fz b) p i None false ->
  (forall path b1 G Q, held b1 G -> (forall a b', in_buffer a -> same_lib b1 b' -> held b' G -> Q a b') -> wp (Some r) (call path) Q b1) ->
  serves r (ok ← (if negb (size =? 0) then LowLevel.malloc else mret true);
    if negb ok then reply_err r (- ENOMEM) else
    a ← (pr ← get_path_ i; path_block r i pr (fun e => (e, [])) call); reply_xattr_value r size a) b.
Proof.
  intros Hb Hr Hc. apply replies_bind. eapply wp_idle; [idle_tac|exact Hb|]. intros ok b1 S1 Hb1. assert (same_tree b b1) as Hs1 by by apply same_lib_tree.
  destruct ok; cbn [negb]; [|by apply serves_sends; [send_tac|..]]. rewrite <- (sl_fz _ _ S1) in Hr.
  apply replies_bind, wp_bind, (getter_path r i b1 p); [exact Hb1|exact Hr|]. intros pr l b2 Hp Hn Hb2 Hl2 _.
  apply (wp_path_block r [] b2 p i l pr); [done|done|..].
  - intros E Hb2'. apply xattr_reply; [|done|transitivity b1; [done|by eapply like_tree]]. unfold in_buffer. cbn.
    unfold path_result in Hp. rewrite (Hn E) in Hp. lia.
  - intros _ b3 Hb3 S3. apply (Hc pr.2 b3 _ _ Hb3). intros a b4 Ha S4 Hb4.
    assert (like b1 b4) as Hl4 by (transitivity b2; [done|]; apply same_like; by transitivity b3).
    split; [done|]. split; [eapply like_ptr; [exact Hl4|by eapply request_ptr]|]. intros b5 Hb5 Hl5. apply xattr_reply; [done|done|].
    transitivity b1; [done|]. eapply like_tree; [exact Hb1|]. by transitivity b4.
Qed.

Lemma getxattr_serves r i nm size b : xattr_promise -> held b [] -> known b i -> serves r (fuse_lib_getxattr fs r i nm size) b.
Proof.
  intros [Hx _] Hb [p Hr]. apply serves_prepare; [exact Hb|]. intros b1 Hb1 S1. rewrite <- (sl_fz _ _ S1) in Hr.
  apply (xattr_serves r i size p b1 (fun path => fuse_fs_getxattr fs path nm size)); [done|done|]. intros path b2 G Q Hb2 HQ.
  apply (wp_fs_promise _ _ _ _ in_buffer b2 G); [done|by unfold in_buffer; cbn|intros f c st E; by apply Hx|done].
Qed.

Lemma listxattr_serves r i size b : xattr_promise -> held b [] -> known b i -> serves r (fuse_lib_listxattr fs r i size) b.
Proof.
  intros [_ Hx] Hb [p Hr]. apply serves_prepare; [exact Hb|]. intros b1 Hb1 S1. rewrite <- (sl_fz _ _ S1) in Hr.
  apply (xattr_serves r i size p b1 (fun path => fuse_fs_listxattr fs path size)); [done|done|]. intros path b2 G Q Hb2 HQ.
  apply (wp_fs_promise _ _ _ _ in_buffer b2 G); [done|by unfold in_buffer; cbn|intros f c st E; by apply Hx|done].
Qed.

(** *** Locks, for a file system without its own *)

Lemma idle_missing R {T A B} (call : T -> fsop OS X A) missing (k : A -> IO B) : idle R (k missing) -> idle R (fs_op None call missing ≫= k).
Proof.
  intros Hk b Hl Hc. apply wp_bind, wp_bind. eapply wp_mono; [by apply idle_enter|]. intros ? b1 S1. apply wp_ret.
  eapply wp_mono; [apply Hk; [by rewrite (sl_live _ _ S1)|by apply (sl_ctx _ _ S1)]|]. intros ? b2 S2. by transitivity b1.
Qed.

Lemma idle_flush r i path fi : o_lock fs = None -> idle (Some r) (fuse_flush_common fs r i path fi : IO Z).
Proof.
  intros E. unfold fuse_flush_common, fuse_fs_lock. rewrite E. apply idle_bind; [idle_tac|]. intros _. apply idle_bind; [idle_tac|]. intros e.
  apply idle_missing, idle_bind; [idle_tac|]. intros _. cbn [fst]. rewrite Z.eqb_refl. cbn [negb]. idle_tac.
Qed.

Lemma flush_serves r i fi b : o_lock fs = None -> held b [] -> known b i -> serves r (fuse_lib_flush fs r i fi) b.
Proof.
  intros El Hb [p Hr]. apply serves_prepare; [exact Hb|]. intros b1 Hb1 S1. rewrite <- (sl_fz _ _ S1) in Hr.
  apply replies_bind, (getter_null r i b1 p); [exact Hb1|exact Hr|]. intros pr l b2 _ Hn Hb2 Hl2 _. apply replies_bind.
  eapply wp_idle; [by apply idle_flush|exact Hb2|]. intros e b3 S3 Hb3. assert (like b1 b3) as Hl3 by (transitivity b2; [done|by apply same_like]).
  apply replies_bind. eapply wp_mono; [apply (wp_free _ [] p i l pr.2 b1); [done| |done]|].
  - eapply like_ptr; [exact Hl3|by eapply request_ptr].
  - intros _ b' [Hb' Hl]. answer_tac.
Qed.

Lemma setlk_serves r i fi lk sl b : o_lock fs = None -> held b [] -> known b i -> serves r (fuse_lib_setlk fs r i fi lk sl) b.
Proof.
  intros El Hb [p Hr]. apply replies_bind. unfold fuse_lock_common, fuse_fs_lock. rewrite El. apply wp_bind.
  eapply wp_idle; [apply idle_prepare|exact Hb|]. intros _ b1 S1 Hb1. rewrite <- (sl_fz _ _ S1) in Hr.
  apply wp_bind, (getter_null r i b1 p); [exact Hb1|exact Hr|]. intros pr l b2 Hp Hn Hb2 Hl2 _.
  assert (forall e b3, e <> 0 -> held b3 [] -> like b1 b3 -> serves r (_ ← (if e =? 0 then on_fuse (insert_node_lock i (with_owner (fi_lock_owner fi) (flock_to_lock lk))) else mret tt); reply_err r e) b3 /\ same_tree b b3) as Hend.
  { intros e b3 He Hb3 Hl3. split; [|transitivity b1; [by apply same_lib_tree|by eapply like_tree]]. rewrite (proj2 (Z.eqb_neq _ _) He). apply replies_bind, wp_ret.
    by apply serves_sends; [send_tac|..]. }
  apply (wp_path_block r [] b2 p i l pr); [done|done|..].
  - intros E Hb2'. destruct (Hend pr.1 b2 E Hb2' Hl2) as [He Hs]. eapply replies_mono; [exact He|]. intros a msg b' [? ?]. split; [done|by transitivity b2].
  - intros _ b3 Hb3 S3. apply wp_bind, (wp_fs_enter _ _ b3 _ Hb3), wp_ret. split; [done|].
    assert (like b1 b3) as Hl3 by (transitivity b2; [done|by apply same_like]). split; [eapply like_ptr; [exact Hl3|by eapply request_ptr]|].
    intros b4 Hb4 Hl4. destruct (Hend (- ENOSYS) b4) as [He Hs]; [done|done|by transitivity b3|]. eapply replies_mono; [exact He|]. intros a msg b' [? ?]. split; [done|by transitivity b4].
Qed.

Lemma getlk_serves r i fi lk b : held b [] -> known b i -> serves r (fuse_lib_getlk fs r i fi lk) b.
Proof.
  intros Hb [p Hr]. apply replies_bind, wp_get_req. intros q. destruct (known_node b [] p i Hb (request_ptr _ _ _ _ _ Hr)) as (n & Eg & Hn & _).
  apply replies_bind. set (lk' := with_owner _ _). apply (wp_fuse _ _ (locks_conflict (locks n) lk') (fz b)).
  { unfold node_conflict. rewrite (bind_step _ _ _ _ _ Eg), (bind_step _ _ _ _ _ (node_at_eq _ p n Hn)). done. }
  replace (with_fz (fz b) b) with b by by destruct b. apply replies_bind. destruct (locks_conflict _ _).
  - apply wp_ret. by apply serves_sends; [send_tac|..].
  - unfold fuse_lock_common. apply wp_bind. eapply wp_idle; [apply idle_prepare|exact Hb|]. intros _ b1 S1 Hb1. rewrite <- (sl_fz _ _ S1) in Hr.
    apply wp_bind, (getter_null r i b1 p); [exact Hb1|exact Hr|]. intros pr l1 b2 _ Hn2 Hb2 Hl2 _.
    eapply wp_mono; [apply (idle_path_block r [] b1 p i l1 pr); try done; [by eapply request_ptr|idle_tac]|]. intros a b3 [Hb3 Hl3].
    apply serves_sends; [send_tac|done|]. transitivity b1; [by apply same_lib_tree|by eapply like_tree].
Qed.

(** *** Open files *)

(** The end of an open file; [l] is the path that is locked, if one is. *)
Lemma wp_do_release R b p i n (l : list Z) path fi : held b (path_holds p l path []) -> request_ok (fz b) p i None false -> nodes (fz b) !! p = Some n -> 0 < open_count n ->
  wp R (fuse_do_release fs i path fi : IO unit) (fun _ b' => held b' (path_holds p l path []) /\ same_tree b b' /\ ptr_in (nodes (fz b')) p i) b.
Proof.
  intros Hb Hr Hn Ho. pose proof (request_ptr _ _ _ _ _ Hr) as (n' & Hn' & Hi). simplify_eq. unfold fuse_do_release.
  apply wp_bind. eapply wp_idle; [idle_tac|exact Hb|]. intros _ b1 S1 Hb1. rewrite <- (sl_fz _ _ S1) in Hn, Hr. apply wp_bind.
  eapply wp_detail; [exact Hb1|by eapply (drop_open_detail b1)|]. intros h f' Hb2 Hs2 Hd. set (b2 := with_fz f' b1) in *.
  assert (same_tree b b2) as Hs by (transitivity b1; [by apply same_lib_tree|done]).
  assert (request_ok (fz b2) p (nodeid n) None false) as Hr2 by by apply (request_detail (fz b1)).
  assert (forall b' G, held b2 G -> same_lib b2 b' -> same_tree b b' /\ ptr_in (nodes (fz b')) p (nodeid n)) as Hend.
  { intros b' G Hg S'. split; [transitivity b2; [done|by apply same_lib_tree]|]. rewrite (sl_fz _ _ S'). by eapply request_ptr. }
  apply wp_bind, wp_config. destruct h; [|apply wp_ret; split; [done|by apply (Hend b2 _ Hb2)]]. destruct path as [s|].
  - eapply wp_idle; [idle_tac|exact Hb2|]. intros _ b3 S3 Hb3. split; [done|by apply (Hend b3 _ Hb2)].
  - destruct (nullpath_ok _); [|apply wp_ret; split; [done|by apply (Hend b2 _ Hb2)]]. apply wp_bind, (wp_get_path _ b2 [] p); [done|by apply held_unmarked|done|done|].
    intros pr l' b3 _ Hn3 Hb3 Hl3 _. apply wp_bind. eapply wp_idle; [idle_tac|exact Hb3|]. intros _ b4 S4 Hb4.
    assert (like b2 b4) as Hl4 by (transitivity b3; [done|by apply same_like]).
    eapply wp_mono; [apply (wp_free _ [] p (nodeid n) l' pr.2 b2); [done| |done]|].
    + eapply like_ptr; [exact Hl4|by eapply request_ptr].
    + intros _ b5 [Hb5 Hl5]. split; [done|]. split; [transitivity b2; [done|by eapply like_tree]|]. eapply like_ptr; [exact Hl5|by eapply request_ptr].
Qed.

(** The node is open. *)
Definition is_opened b (i : Z) : Prop := exists p n, request_ok (fz b) p i None false /\ nodes (fz b) !! p = Some n /\ 0 < open_count n.

Lemma release_serves r i fi b : o_lock fs = None -> held b [] -> is_opened b i -> serves r (fuse_lib_release fs r i fi) b.
Proof.
  intros El Hb (p & n & Hr & Hn & Ho). apply serves_prepare; [exact Hb|]. intros b1 Hb1 S1. rewrite <- (sl_fz _ _ S1) in Hr, Hn.
  apply replies_bind, (getter_null r i b1 p); [exact Hb1|exact Hr|]. intros pr l b2 _ _ Hb2 Hl2 _. apply replies_bind.
  eapply wp_idle; [apply idle_if; [apply idle_bind; [by apply idle_flush|]|]; idle_tac|exact Hb2|]. intros e b3 S3 Hb3.
  apply replies_bind. eapply wp_idle; [idle_tac|exact Hb3|]. intros _ b4 S4 Hb4. assert (like b1 b4) as Hl4 by (transitivity b2; [done|apply same_like; by transitivity b3]).
  destruct (lock_only_lookup _ _ _ _ (lk_nodes _ _ Hl4) Hn) as [v Hv]. apply replies_bind. eapply wp_mono; [apply (wp_do_release _ b4 p i (with_treelock v n) l pr.2); [done| |exact Hv|done]|].
  - by eapply like_request.
  - intros _ b5 (Hb5 & Hs5 & Hp5). apply replies_bind. eapply wp_idle; [idle_tac|exact Hb5|]. intros _ b6 S6 Hb6.
    apply replies_bind. eapply wp_mono; [apply (wp_free _ [] p i l pr.2 b6); [done|by rewrite (sl_fz _ _ S6)|done]|]. intros _ b7 [Hb7 Hl7].
    apply serves_sends; [send_tac|done|]. transitivity b4; [by eapply like_tree|]. transitivity b5; [done|]. transitivity b6; [by apply same_lib_tree|by eapply like_tree].
Qed.

(** The cache of an open file. *)
Lemma cache_stale_detail b G p i : held b G -> ptr_in (nodes (fz b)) p i -> exists v f', cache_stale i (fz b) = Some (v, f') /\ detail (fz b) f' /\ opens (fz b) f'.
Proof.
  intros Hb Hp. destruct (known_node b G p i Hb Hp) as (n & Eg & Hn & _). unfold cache_stale.
  rewrite (bind_step _ _ _ _ _ Eg), (bind_step _ _ _ _ _ (node_at_eq _ p n Hn)), bind_get. destruct (cache_valid n); [|by exists false, (fz b)].
  destruct (time_detail (fz b)) as (t & f' & E & D & EN). rewrite (bind_step _ _ _ _ _ E). eexists _, f'. split; [done|]. split; [done|]. unfold opens. by rewrite EN.
Qed.

Lemma cache_refresh_detail b G p i st : held b G -> ptr_in (nodes (fz b)) p i -> exists f', cache_refresh i st (fz b) = Some (tt, f') /\ detail (fz b) f' /\ opens (fz b) f'.
Proof.
  intros Hb Hp. destruct (known_node b G p i Hb Hp) as (n & Eg & Hn & _). unfold cache_refresh. rewrite (bind_step _ _ _ _ _ Eg).
  destruct (_ =? 0); [by eapply update_stat_detail|]. destruct (update_detail _ p n (with_cache_valid false) Hn eq_refl) as (f' & ? & ? & _ & HO). exists f'. by auto.
Qed.

Lemma cache_open_detail b G p i : held b G -> ptr_in (nodes (fz b)) p i -> exists v f', cache_open i (fz b) = Some (v, f') /\ detail (fz b) f' /\ opens (fz b) f'.
Proof.
  intros Hb Hp. destruct (known_node b G p i Hb Hp) as (n & Eg & Hn & _). unfold cache_open.
  rewrite (bind_step _ _ _ _ _ Eg), (bind_step _ _ _ _ _ (node_at_eq _ p n Hn)).
  destruct (update_detail _ p n (with_cache_valid true) Hn eq_refl) as (f' & E & D & _ & HO). rewrite (bind_step _ _ _ _ _ E). exists (cache_valid n), f'. by auto.
Qed.

(** [b'] is [b] with other details, and the same open files. *)
Definition kept b b' : Prop := same_tree b b' /\ opens (fz b) (fz b') /\ forall p i, request_ok (fz b) p i None false -> request_ok (fz b') p i None false.

#[local] Instance kept_preorder : PreOrder kept.
Proof.
  split; [by intros b|]. intros b1 b2 b3 (S1 & O1 & R1) (S2 & O2 & R2). split; [by transitivity b2|]. split; [unfold opens in *; congruence|auto].
Qed.

Lemma kept_lib b b' : same_lib b b' -> kept b b'.
Proof. intros Hs. split; [by apply same_lib_tree|]. rewrite (sl_fz _ _ Hs). by split. Qed.

Lemma kept_like b b' G : held b G -> like b b' -> kept b b'.
Proof.
  intros Hb Hl. split; [by eapply like_tree|]. split; [|intros p i; by apply like_request].
  unfold opens. apply map_eq. intros p. rewrite !lookup_fmap. pose proof (lk_nodes _ _ Hl p) as E.
  destruct (nodes (fz b) !! p), (nodes (fz b') !! p); cbn in *; try done. injection E. intros. by f_equal.
Qed.

Lemma wp_kept R {A} (m : ST (fuse M) A) (Q : A -> lib M X -> Prop) b G : held b G -> (exists a f', m (fz b) = Some (a, f') /\ detail (fz b) f' /\ opens (fz b) f') ->
  (forall a b', held b' G -> kept b b' -> Q a b') -> wp R (on_fuse (OS := OS) m) Q b.
Proof.
  intros Hb (a & f' & E & Hd & Ho) HQ. eapply wp_fuse; [exact E|]. apply HQ; [by apply (held_detail b G)|]. split; [by apply (detail_same b G)|]. split; [done|].
  intros p i. by apply request_detail.
Qed.

Lemma wp_auto_cache r i p path fi b G : held b G -> request_ok (fz b) p i None false ->
  wp (Some r) (open_auto_cache fs i path fi : IO fuse_file_info) (fun _ b' => held b' G /\ kept b b') b.
Proof.
  intros Hb Hr. unfold open_auto_cache. apply wp_bind. eapply wp_kept; [exact Hb|eapply cache_stale_detail; [exact Hb|by eapply request_ptr]|]. intros v b1 Hb1 K1.
  apply wp_bind.
  assert (wp (Some r) (if v : bool then a ← fuse_fs_getattr fs path (Some fi); on_fuse (cache_refresh i a) else mret tt : IO unit) (fun _ b' => held b' G /\ kept b b') b1) as Hm.
  { destruct v; [|by apply wp_ret]. apply wp_bind. eapply wp_idle; [idle_tac|exact Hb1|]. intros a b2 S2 Hb2.
    assert (kept b b2) as K2 by (transitivity b1; [done|by apply kept_lib]).
    eapply wp_kept; [exact Hb2|eexists tt; eapply cache_refresh_detail; [exact Hb2|by eapply request_ptr, K2]|]. intros [] b3 Hb3 K3. split; [done|by transitivity b2]. }
  eapply wp_mono; [exact Hm|]. intros [] b3 [Hb3 K3]. apply wp_bind.
  eapply wp_kept; [exact Hb3|eapply cache_open_detail; [exact Hb3|by eapply request_ptr, K3]|]. intros v' b4 Hb4 K4. apply wp_ret. split; [done|by transitivity b3].
Qed.

End One.
