(* ===== verification/LibOpen.v ===== *)
(** * The request handlers for open files and directories

    The rest of the handlers that leave the tree as it is: opening, writing,
    directories, and those that take two paths. *)

From S2P Require Import Prelude DList NodeTable Wire Locks Node NodeTree NodeOps NodeSpec NodeTheorems Path PathSpec PathQueue PathTree PathTheorems.
From S2P Require Import Buf LowLevel Dispatch Handler Lib LibOps LibSpec LibCalm.

Section Open.
Context {OS M X : Type} `{FdOps OS} `{DevOps OS} `{!FdLaws OS} `{!DevLaws OS} `{NodeMemLaws M}.
Context (fs : fuse_operations OS X).
Implicit Types (b : lib M X) (G : list hold) (R : option Z).

Abbreviation IO := (ST (LL OS (lib M X))).

#[local] Existing Instance kept_preorder.

(** A node that may be opened once more. *)
Definition openable b (i : Z) : Prop :=
  exists p n, request_ok (fz b) p i None false /\ nodes (fz b) !! p = Some n /\ 0 <= open_count n < 2 ^ 31 - 1.

(** The call of the file system in [fuse_lib_open]. *)
Lemma wp_open_call r i p pr fi b G : held b G -> request_ok (fz b) p i None false ->
  wp (Some r) (_ ← fuse_prepare_interrupt r;
    k ← fuse_fs_open fs pr fi;
    a ← (if k.1 =? 0 then
           c ← config;
           let fi := open_options c k.2 in
           fi ← (if auto_cache c then open_auto_cache fs i pr fi else mret fi);
           mret (0, fi)
         else mret k);
    _ ← fuse_finish_interrupt r;
    mret a : IO (Z * fuse_file_info)) (fun _ b' => held b' G /\ kept b b') b.
Proof.
  intros Hb Hr. apply wp_bind. eapply wp_idle; [idle_tac|exact Hb|]. intros _ b1 S1 Hb1. apply wp_bind. eapply wp_idle; [idle_tac|exact Hb1|]. intros k b2 S2 Hb2.
  assert (kept b b2) as K2 by (apply kept_lib; by transitivity b1). apply wp_bind.
  assert (wp (Some r) (if k.1 =? 0 then c ← config; let fi := open_options c k.2 in fi ← (if auto_cache c then open_auto_cache fs i pr fi else mret fi); mret (0, fi)
     else mret k : IO (Z * fuse_file_info)) (fun _ b' => held b' G /\ kept b b') b2) as Hm.
  { destruct (_ =? 0); [|by apply wp_ret]. apply wp_bind, wp_config. cbv zeta. apply wp_bind. destruct (auto_cache _); [|by apply wp_ret, wp_ret].
    eapply wp_mono; [apply (wp_auto_cache fs r i p); [exact Hb2|by apply K2]|]. intros fi' b3 [Hb3 K3]. apply wp_ret. split; [done|by transitivity b2]. }
  eapply wp_mono; [exact Hm|]. intros a b3 [Hb3 K3]. apply wp_bind. eapply wp_idle; [idle_tac|exact Hb3|]. intros _ b4 S4 Hb4. apply wp_ret.
  split; [done|]. transitivity b3; [done|by apply kept_lib].
Qed.

Lemma open_serves r i fi b : held b [] -> openable b i -> serves r (fuse_lib_open fs r i fi) b.
Proof.
  intros Hb (p & n & Hr & Hn & Ho). apply serves_prepare; [exact Hb|]. intros b1 Hb1 S1. rewrite <- (sl_fz _ _ S1) in Hr, Hn.
  apply replies_bind, (getter_path r i b1 p); [exact Hb1|exact Hr|]. intros pr l b2 _ Hnone Hb2 Hl2 _. pose proof (kept_like b1 b2 _ Hb1 Hl2) as K2.
  apply replies_bind.
  assert (forall a b3, held b3 (path_holds p l pr.2 []) -> kept b1 b3 -> replies r (_ ← (if a.1 =? 0 then
         _ ← on_fuse (add_open i);
         res ← fuse_reply_open r a.2;
         if res =? - ENOENT then fuse_do_release fs i pr.2 a.2 else mret tt
       else reply_err r a.1);
    free_path_ i pr.2) (fun _ _ b' => held b' [] /\ same_tree b1 b') b3) as Hend.
  { intros a b3 Hb3 K3. pose proof (proj2 (proj2 K3) p i Hr) as Hr3. destruct (opens_lookup _ _ p n (proj1 (proj2 K3)) Hn) as (n3 & Hn3 & Ho3).
    apply replies_after. apply (replies_mono _ _ (fun _ _ b' => held b' (path_holds p l pr.2 []) /\ same_tree b1 b' /\ ptr_in (nodes (fz b')) p i)).
    - destruct (_ =? 0); [|by apply sends_err; intros; split; [|split; [apply K3|eapply request_ptr]]]. apply replies_bind.
      pose proof (request_ptr _ _ _ _ _ Hr3) as (n0 & Hn0 & Hi). assert (n0 = n3) as -> by congruence. subst i.
      destruct (add_open_detail b3 _ p (nodeid n3) n3 Hb3 Hn3 eq_refl) as (f' & E & Hd & Hn4). eapply wp_fuse; [exact E|].
      set (b4 := with_fz f' b3). assert (held b4 (path_holds p l pr.2 [])) as Hb4 by by apply (held_detail b3).
      assert (same_tree b1 b4) as Hs4 by (transitivity b3; [apply K3|by eapply detail_same]).
      assert (request_ok (fz b4) p (nodeid n3) None false) as Hr4 by by apply (request_detail (fz b3)).
      apply replies_after. unfold fuse_reply_open. apply sends_iov. intros res msg. destruct (res =? _).
      + eapply wp_mono; [apply (wp_do_release fs None b4 p (nodeid n3) _ l pr.2 _ Hb4 Hr4 Hn4)|].
        * cbn. rewrite swrap_id; [lia|lia|]. change (2 ^ (32 - 1)) with (2 ^ 31). lia.
        * intros _ b5 (Hb5 & Hs5 & Hp5). split; [done|]. split; [by transitivity b4|done].
      + apply wp_ret. split; [done|]. split; [done|by eapply request_ptr].
    - intros _ _ b4 (Hb4 & Hs4 & Hp4). eapply wp_mono; [apply (wp_free _ [] p i l pr.2 b4); done|]. intros _ b5 [Hb5 Hl5].
      split; [done|]. transitivity b4; [done|by eapply like_tree]. }
  destruct (Z.eqb_spec pr.1 0) as [E|E].
  - eapply wp_mono; [apply (wp_open_call r i p); [exact Hb2|by apply K2]|]. intros a b3 [Hb3 K3]. apply Hend; [done|by transitivity b2].
  - apply wp_ret. by apply (Hend (pr.1, fi)).
Qed.

(** ** Directories *)

Lemma wp_dh_at R d h (Q : fuse_dh -> lib M X -> Prop) b : dhs b !! d = Some h -> Q h b -> wp R (dh_at (OS := OS) d) Q b.
Proof. intros E HQ. by apply wp_bind, wp_get_lib, (wp_of_option _ _ h). Qed.

Lemma wp_dh_update R d g h (Q : unit -> lib M X -> Prop) b : dhs b !! d = Some h -> Q tt (with_dhs (<[d := g h]> (dhs b)) (next_dh b) b) ->
  wp R (dh_update (OS := OS) d g) Q b.
Proof. intros E HQ. by apply wp_bind, (wp_dh_at _ _ h); [|apply wp_set_user]. Qed.

Lemma wp_dh_free R d h (Q : unit -> lib M X -> Prop) b : dhs b !! d = Some h -> Q tt (with_dhs (delete d (dhs b)) (next_dh b) b) -> wp R (dh_free (OS := OS) d) Q b.
Proof. intros E HQ. by apply wp_bind, (wp_dh_at _ _ h); [|apply wp_set_user]. Qed.

Lemma held_dhs b G m n : held b G -> (forall d, is_Some (m !! d) -> d < n) -> held (with_dhs m n b) G.
Proof. intros [? ? ? ? ?] Hm. by split. Qed.

(** The directory the kernel names is open. *)
Lemma wp_dirhandle R fi h (Q : Z * fuse_file_info -> lib M X -> Prop) b : dhs b !! fi_fh fi = Some h -> Q (fi_fh fi, with_fh (dh_fh h) fi0) b ->
  wp R (get_dirhandle (OS := OS) fi) Q b.
Proof. intros E HQ. by apply wp_bind, (wp_dh_at _ _ h); [|apply wp_ret]. Qed.

Definition open_dir b (fi : fuse_file_info) : Prop := is_Some (dhs b !! fi_fh fi).

Lemma fsyncdir_serves r i ds fi b : held b [] -> known b i -> open_dir b fi -> serves r (fuse_lib_fsyncdir fs r i ds fi) b.
Proof.
  intros Hb [p Hr] [h Hd]. apply serves_prepare; [exact Hb|]. intros b1 Hb1 S1. rewrite <- (sl_fz _ _ S1) in Hr. rewrite <- (sl_dhs _ _ S1) in Hd.
  apply replies_bind, (wp_dirhandle _ fi h); [done|]. eapply one_path_err; [getter_tac|exact Hb1|exact Hr|idle_tac].
Qed.

(** All but directory [d] is as before. *)
Lemma releasedir_serves r i fi b : held b [] -> known b i -> open_dir b fi ->
  replies r (fuse_lib_releasedir fs r i fi) (fun _ _ b' => held b' [] /\ abs (fz b') = abs (fz b) /\ conf (fz b') = conf (fz b) /\ dhs b' = delete (fi_fh fi) (dhs b)) b.
Proof.
  intros Hb [p Hr] [h Hd]. apply replies_prepare; [exact Hb|]. intros b1 Hb1 S1. rewrite <- (sl_fz _ _ S1) in Hr. rewrite <- (sl_dhs _ _ S1) in Hd.
  apply replies_bind, (wp_dirhandle _ fi h); [done|]. apply replies_bind, (getter_null r i b1 p); [exact Hb1|exact Hr|]. intros pr l b2 _ _ Hb2 Hl2 _. cbn [fst snd].
  eapply (idle_block r [] p i l pr.2 _ _ _ b1); [done|by eapply request_ptr|done|idle_tac|]. intros res b3 Hb3 Hl3. apply replies_bind.
  apply (wp_dh_free _ _ h); [by rewrite (lk_dhs _ _ Hl3)|]. set (b4 := with_dhs _ _ b3). apply sends_err. intros _ _.
  assert (held b4 []) as Hb4 by (apply held_dhs; [done|]; intros d [x [_ Hx]%lookup_delete_Some]; apply Hb3; by eexists).
  split; [done|]. destruct (like_tree _ _ _ Hb1 Hl3) as [E1 E2 _]. cbn. rewrite E1, E2, (lk_dhs _ _ Hl3), (sl_fz _ _ S1), (sl_dhs _ _ S1). done.
Qed.

(** [b] is [b0] but for locks and directory [d]. *)
Definition opening b0 (d : Z) b : Prop := lock_only (nodes (fz b0)) (nodes (fz b)) /\ conf (fz b) = conf (fz b0) /\ forall x, x <> d -> dhs b !! x = dhs b0 !! x.

Lemma opening_like b0 d b b' : opening b0 d b -> like b b' -> opening b0 d b'.
Proof.
  intros (Hlo & Hc & Hd) Hl. split; [transitivity (nodes (fz b)); [done|apply Hl]|]. split; [by rewrite (lk_conf _ _ Hl)|]. by rewrite (lk_dhs _ _ Hl).
Qed.

Lemma opening_tree b0 d b : held b0 [] -> dhs b0 !! d = None -> opening b0 d b -> same_tree b0 b.
Proof.
  intros Hb Hfresh (Hlo & Hc & Hd). split; [apply abs_lock_only; [done|]; apply tree_num, (s_tree _ _ (hd_sys _ _ Hb))|done|]. intros x Hx.
  rewrite Hd; [done|]. intros ->. rewrite Hfresh in Hx. by destruct Hx.
Qed.

(** The end of [fuse_lib_opendir]: the path is released, after the directory
    has been freed if it could not be opened. *)
Lemma wp_opendir_free R i p l path b0 d b : held b0 [] -> dhs b0 !! d = None -> ptr_in (nodes (fz b0)) p i -> held b (path_holds p l path []) -> opening b0 d b ->
  wp R (free_path_ (OS := OS) i path) (fun _ b' => held b' [] /\ same_tree b0 b') b.
Proof.
  intros Hb0 Hfresh Hp Hb Ho. eapply wp_mono; [apply (wp_free _ [] p i l path b); [done|eapply ptr_lock_only; [apply Ho|done]|done]|].
  intros _ b' [Hb' Hl]. split; [done|]. eapply opening_tree; [done|done|by eapply opening_like].
Qed.

Lemma wp_opendir_fail R i p l path b0 d h b : held b0 [] -> dhs b0 !! d = None -> ptr_in (nodes (fz b0)) p i -> held b (path_holds p l path []) -> opening b0 d b ->
  dhs b !! d = Some h -> wp R (dh_free (OS := OS) d) (fun _ => wp R (free_path_ (OS := OS) i path) (fun _ b' => held b' [] /\ same_tree b0 b')) b.
Proof.
  intros Hb0 Hfresh Hp Hb (Hlo & Hc & Hd) Hh. apply (wp_dh_free _ _ h); [done|]. apply (wp_opendir_free R i p l path b0 d); [done|done|done| |].
  - apply held_dhs; [done|]. intros x [y [_ Hx]%lookup_delete_Some]. apply (hd_dirs _ _ Hb). by eexists.
  - split; [done|]. split; [done|]. intros x Hx. cbn. rewrite lookup_delete_ne by done. by apply Hd.
Qed.

Lemma opendir_tail r i p l path b0 d h fi (a : Z * fuse_file_info) b : held b0 [] -> dhs b0 !! d = None -> ptr_in (nodes (fz b0)) p i -> held b (path_holds p l path []) -> opening b0 d b ->
  dhs b !! d = Some h ->
  replies r (_ ← (if a.1 =? 0 then
         res ← fuse_reply_open r (with_fh d fi);
         if res =? - ENOENT then _ ← fuse_fs_releasedir fs path a.2; dh_free d else mret tt
       else _ ← reply_err r a.1; dh_free d);
      free_path_ i path) (fun _ _ b' => held b' [] /\ same_tree b0 b') b.
Proof.
  intros Hb0 Hfresh Hp Hb Ho Hh. apply replies_after. destruct (_ =? 0); apply replies_after.
  - unfold fuse_reply_open. apply sends_iov. intros res msg. destruct (res =? _); [|by apply wp_ret, (wp_opendir_free _ i p l path b0 d)].
    apply wp_bind. eapply wp_idle; [idle_tac|exact Hb|]. intros _ b1 S1 Hb1.
    apply (wp_opendir_fail _ i p l path b0 d h); [done|done|done|done|eapply opening_like; [done|by apply same_like]|by rewrite (sl_dhs _ _ S1)].
  - apply sends_err. intros _ _. by apply (wp_opendir_fail _ i p l path b0 d h).
Qed.

Lemma opendir_serves r i fi b : held b [] -> known b i -> serves r (fuse_lib_opendir fs r i fi) b.
Proof.
  intros Hb [p Hr]. apply serves_prepare; [exact Hb|]. intros b1 Hb1 S1. rewrite <- (sl_fz _ _ S1) in Hr.
  apply replies_bind. eapply wp_idle; [idle_tac|exact Hb1|]. intros ok b2 S2 Hb2. rewrite <- (sl_fz _ _ S2) in Hr.
  assert (same_tree b1 b2) as Hs2 by by apply same_lib_tree. destruct ok; cbn [negb]; [|by apply serves_sends; [send_tac|..]].
  apply replies_bind, wp_get_lib. cbv zeta. set (d := next_dh b2). apply replies_bind, wp_set_user. set (b3 := with_dhs _ _ b2).
  assert (dhs b2 !! d = None) as Hfresh by (destruct (dhs b2 !! d) eqn:E; [|done]; assert (d < d) by (apply (hd_dirs _ _ Hb2); by eexists); lia).
  assert (held b3 []) as Hb3.
  { apply held_dhs; [done|]. intros x. rewrite lookup_insert. case_decide; [subst; lia|]. intros Hx%(hd_dirs _ _ Hb2). unfold d. lia. }
  assert (opening b2 d b3) as Ho3 by (split; [done|]; split; [done|]; intros x Hx; cbn; by rewrite lookup_insert_ne).
  apply replies_bind, (getter_path r i b3 p); [exact Hb3|exact Hr|]. intros pr l b4 _ Hnone Hb4 Hl4 _. pose proof (request_ptr _ _ _ _ _ Hr) as Hp. apply replies_bind.
  assert (forall a b5 h, held b5 (path_holds p l pr.2 []) -> opening b2 d b5 -> dhs b5 !! d = Some h -> replies r (_ ← (if a.1 =? 0 then
         res ← fuse_reply_open r (with_fh d fi);
         if res =? - ENOENT then _ ← fuse_fs_releasedir fs pr.2 a.2; dh_free d else mret tt
       else _ ← reply_err r a.1; dh_free d);
      free_path_ i pr.2) (fun _ _ b' => held b' [] /\ same_tree b1 b') b5) as Htail.
  { intros a b5 h Hb5 Ho5 Hh. eapply replies_mono; [by apply (opendir_tail r i p l pr.2 b2 d h)|]. intros _ _ b' [? ?]. split; [done|by transitivity b2]. }
  destruct (Z.eqb_spec pr.1 0) as [E|E].
  - apply wp_bind. eapply wp_idle; [idle_tac|exact Hb4|]. intros _ b5 S5 Hb5. apply wp_bind. eapply wp_idle; [idle_tac|exact Hb5|]. intros a b6 S6 Hb6.
    apply wp_bind. eapply wp_idle; [idle_tac|exact Hb6|]. intros _ b7 S7 Hb7. assert (like b3 b7) as Hl7 by (transitivity b4; [done|apply same_like; transitivity b6; [by transitivity b5|done]]).
    assert (dhs b7 !! d = Some (Dh [] [] 0 0 false 0 0 i)) as Hd7 by (rewrite (lk_dhs _ _ Hl7); apply lookup_insert_eq).
    apply wp_bind, (wp_dh_update _ _ _ _ _ _ Hd7), wp_ret. eapply (Htail a); [| |apply lookup_insert_eq].
    + apply held_dhs; [done|]. intros x. rewrite lookup_insert. case_decide; [subst; intros _; apply (hd_dirs _ _ Hb7); by eexists|apply (hd_dirs _ _ Hb7)].
    + destruct (opening_like _ _ _ _ Ho3 Hl7) as (? & ? & Hd). split; [done|]. split; [done|]. intros x Hx. cbn. rewrite lookup_insert_ne by done. by apply Hd.
  - eapply wp_ret, (Htail (pr.1, _)); [done|by eapply opening_like|rewrite (lk_dhs _ _ Hl4); apply lookup_insert_eq].
Qed.

(** ** Data and two paths *)

(** The buffers of the request fit together; for a directory, it is open. *)
Definition ioctl_ok b (fi : fuse_file_info) (flags in_size out_size : Z) : Prop :=
  (in_size = 0 \/ out_size = 0 \/ in_size = out_size) /\ (has flags FUSE_IOCTL_DIR = true -> open_dir b fi).

Lemma ioctl_serves r i cmd arg fi flags data out b : held b [] -> known b i -> ioctl_ok b fi flags (Z.of_nat (length data)) out ->
  serves r (fuse_lib_ioctl fs r i cmd arg fi flags data out) b.
Proof.
  intros Hb [p Hr] [Hsz Hd]. apply serves_prepare; [exact Hb|]. intros b1 Hb1 S1. rewrite <- (sl_fz _ _ S1) in Hr. unfold open_dir in Hd. rewrite <- (sl_dhs _ _ S1) in Hd.
  destruct (has flags FUSE_IOCTL_UNRESTRICTED); [by apply serves_sends; [send_tac|..]|]. apply replies_bind.
  assert (forall fi', serves r (ok ← (if negb (out =? 0) then LowLevel.malloc else mret true);
    if negb ok then reply_err r (- ENOMEM) else
    let in_bufsz := Z.of_nat (length data) in
    _ ← check ((in_bufsz =? 0) || (out =? 0) || (in_bufsz =? out));
    let data := if negb (out =? 0) && (in_bufsz =? 0) then replicate (Z.to_nat out) junk else data in
    pr ← get_path_nullok i;
    if negb (pr.1 =? 0) then reply_err r pr.1 else
    _ ← fuse_prepare_interrupt r;
    a ← fuse_fs_ioctl fs pr.2 cmd arg fi' flags data;
    _ ← fuse_finish_interrupt r;
    _ ← free_path_ i pr.2;
    ign (fuse_reply_ioctl r a.1 (if negb (out =? 0) then take (Z.to_nat out) a.2 else []))) b1) as Hk.
  { intros fi'. apply replies_bind. eapply wp_idle; [idle_tac|exact Hb1|]. intros ok b2 S2 Hb2. assert (same_tree b1 b2) as Hs2 by by apply same_lib_tree.
    destruct ok; cbn [negb]; [|by apply serves_sends; [send_tac|..]]. cbv zeta. apply replies_bind, wp_check.
    { destruct Hsz as [-> |[-> | ->]]; rewrite ?Z.eqb_refl, ?orb_true_r; done. }
    rewrite <- (sl_fz _ _ S2) in Hr. apply replies_bind, (getter_null r i b2 p); [exact Hb2|exact Hr|]. intros pr l b3 _ Hn Hb3 Hl3 _.
    destruct (Z.eqb_spec pr.1 0) as [E|E]; cbn [negb].
    - eapply (idle_block r [] p i l pr.2 _ _ _ b2); [done|by eapply request_ptr|done|idle_tac|]. intros res b' Hb' Hl.
      apply serves_sends; [send_tac|done|]. transitivity b2; [done|by eapply like_tree].
    - rewrite (Hn E) in Hb3. apply serves_sends; [send_tac|done|]. transitivity b2; [done|by eapply like_tree]. }
  destruct (has flags FUSE_IOCTL_DIR); [|by apply wp_ret, Hk]. destruct (Hd eq_refl) as [h Hh]. apply wp_bind, (wp_dirhandle _ fi h); [done|]. by apply wp_ret, Hk.
Qed.

Lemma idle_world R {A} (m : ST (world OS) A) : (forall o, exists a o', m o = Some (a, o')) -> idle R (lift_w m : IO A).
Proof. intros Hm b _ _. apply wp_lift_w. intros o. destruct (Hm o) as (a & o' & E). by exists a, o'. Qed.

Lemma idle_brk R len : idle R (brk_alloc len : IO Z).
Proof. intros b _ _. by apply wp_brk_alloc. Qed.

Lemma flat_vec len mem : 0 <= len < 2 ^ 63 -> vec_ok (FuseBufvec 1 0 0 [FuseBuf len 0 mem (-1) 0]).
Proof. intros Hl. split; [done|]. split; [by repeat constructor; cbn; lia|]. split; [done|]. intros _. cbn. lia. Qed.

Lemma idle_copy R len mem v fl : vec_ok v -> 0 <= len < 2 ^ 63 -> idle R (lift_w (fuse_buf_copy false (FuseBufvec 1 0 0 [FuseBuf len 0 mem (-1) 0]) v fl) : IO (Z * fuse_bufvec * fuse_bufvec)).
Proof.
  intros Hv Hl. apply idle_world. intros o. destruct (copy_ends (FuseBufvec 1 0 0 [FuseBuf len 0 mem (-1) 0]) v fl o) as (x & dv & sv & o' & E & _); [by apply flat_vec|done| |eauto].
  unfold remaining. case_bool_decide; cbn; lia.
Qed.

Lemma idle_write_buf R path v off fi : vec_ok v -> bidx v = 0%nat -> boff v = 0 -> sum_sizes (bufs v) < 2 ^ 63 -> idle R (fuse_fs_write_buf fs path v off fi : IO (Z * fuse_bufvec)).
Proof.
  intros Hv Hi Ho Hs. pose proof Hv as (_ & Hsz & _). pose proof (sum_sizes_nonneg _ Hsz) as Hnn. unfold fuse_fs_write_buf.
  apply idle_bind; [apply idle_enter|]. intros _. cbv zeta. rewrite fuse_buf_size_sum by done.
  assert (idle R (check (bool_decide (bidx v = 0%nat) && (boff v =? 0)) : IO unit)) as Hc.
  { intros b _ _. apply wp_check; [by rewrite bool_decide_eq_true_2, Ho|done]. }
  destruct (o_write_buf fs) as [wb|]; [apply idle_bind; [exact Hc|]; intros _; apply idle_call|]. destruct (o_write fs) as [w|]; [|idle_tac].
  apply idle_bind; [exact Hc|]. intros _. apply idle_if; [apply idle_bind; [apply idle_call|]; idle_tac|]. apply idle_bind; [idle_tac|]. intros ok. apply idle_if; [idle_tac|].
  apply idle_bind; [apply idle_brk|]. intros mem. apply idle_bind; [by apply idle_copy|]. intros [[x dv] sv]. cbv zeta. apply idle_if; [idle_tac|].
  apply idle_bind; [apply idle_call|]. idle_tac.
Qed.

Lemma write_buf_serves r i v off fi b : held b [] -> known b i -> vec_ok v -> bidx v = 0%nat -> boff v = 0 -> sum_sizes (bufs v) < 2 ^ 63 ->
  serves r (fuse_lib_write_buf fs r i v off fi) b.
Proof.
  intros Hb [p Hr] Hv Hi Ho Hs. apply serves_prepare; [exact Hb|]. intros b1 Hb1 S1. rewrite <- (sl_fz _ _ S1) in Hr.
  eapply one_path; [getter_tac|exact Hb1|exact Hr|intros path; by apply idle_write_buf|]. intros a b' Hb' Hl. apply replies_after.
  assert (sends r (if 0 <=? a.1 then ign (fuse_reply_write r a.1) else reply_err r a.1 : IO unit)) as Hsend by send_tac.
  apply Hsend. intros [] msg. apply wp_ret. split; [done|by eapply like_tree].
Qed.

Lemma copy_serves r i1 off1 fi1 i2 off2 fi2 len fl b : held b [] -> known b i1 -> known b i2 -> serves r (fuse_lib_copy_file_range fs r i1 off1 fi1 i2 off2 fi2 len fl) b.
Proof.
  intros Hb [p1 Hr1] [p2 Hr2]. apply serves_prepare; [exact Hb|]. intros b1 Hb1 S1. rewrite <- (sl_fz _ _ S1) in Hr1, Hr2.
  apply replies_bind, (getter_null r i1 b1 p1); [exact Hb1|exact Hr1|]. intros pr1 l1 b2 _ Hn1 Hb2 Hl2 Hu2. pose proof (request_ptr _ _ _ _ _ Hr1) as Hp1. pose proof (request_ptr _ _ _ _ _ Hr2) as Hp2.
  destruct (Z.eqb_spec pr1.1 0) as [E1|E1]; cbn [negb]; [|rewrite (Hn1 E1) in Hb2; by apply serves_sends; [send_tac| |eapply like_tree]].
  apply replies_bind. apply (wp_get_path_nullok _ b2 (path_holds p1 l1 pr1.2 []) p2 i2); [exact Hb2| |by destruct pr1.2|by eapply like_request|].
  { destruct (Hu2 (held_unmarked _ Hb1)) as [?|E]; [done|]. rewrite E in Hb2. by apply held_unmarked. }
  intros pr2 l2 b3 _ Hn2 Hb3 Hl3 _. assert (like b1 b3) as Hl13 by by transitivity b2.
  destruct (Z.eqb_spec pr2.1 0) as [E2|E2]; cbn [negb].
  - apply replies_bind. eapply wp_idle; [idle_tac|exact Hb3|]. intros _ b4 S4 Hb4. apply replies_bind. eapply wp_idle; [idle_tac|exact Hb4|]. intros res b5 S5 Hb5.
    apply replies_bind. eapply wp_idle; [idle_tac|exact Hb5|]. intros _ b6 S6 Hb6. assert (like b1 b6) as Hl6 by (transitivity b3; [done|apply same_like; transitivity b5; [by transitivity b4|done]]).
    assert (held b6 (path_holds p1 l1 pr1.2 (path_holds p2 l2 pr2.2 []))) as Hb6'.
    { destruct pr1.2, pr2.2; try done. destruct Hb6 as [? ? ? ? ?]. split; try done. eapply sys_perm; [|done]. constructor. }
    apply replies_after. assert (sends r (if 0 <=? res then ign (fuse_reply_write r res) else reply_err r (i32 res) : IO unit)) as Hsend by send_tac.
    apply Hsend. intros [] msg. apply wp_bind. eapply wp_mono; [apply (wp_free _ (path_holds p2 l2 pr2.2 []) p1 i1 l1 pr1.2 b1); [done|by eapply like_ptr|done]|].
    intros _ b7 [Hb7 Hl7]. eapply wp_mono; [apply (wp_free _ [] p2 i2 l2 pr2.2 b1); [done|by eapply like_ptr|done]|]. intros _ b8 [Hb8 Hl8]. split; [done|by eapply like_tree].
  - rewrite (Hn2 E2) in Hb3. apply replies_bind. eapply wp_mono; [apply (wp_free _ [] p1 i1 l1 pr1.2 b1); [done|by eapply like_ptr|done]|]. intros _ b4 [Hb4 Hl4].
    by apply serves_sends; [send_tac| |eapply like_tree].
Qed.

End Open.
