(* ===== verification/LibTree.v ===== *)
(** * The request handlers that change the tree

    Handlers that look a file up, make one, remove one or forget one.  The tree
    is the abstract one of [NodeSpec]: the files the kernel knows, each with the
    number of times it has been looked up. *)

From S2P Require Import Prelude DList NodeTable Wire Locks Node NodeTree NodeOps NodeSpec NodeTheorems Path PathSpec PathQueue PathTree PathTheorems.
From S2P Require Import Buf LowLevel Dispatch Handler Lib LibOps LibSpec LibCalm.

(** ** What a reply tells the kernel *)

(** The file a reply to a lookup names. *)
Definition told (msg : bytes) : option Z :=
  if (u32_at msg 4 =? 0) && negb (u64_at msg 16 =? 0) then Some (u64_at msg 16) else None.

Lemma told_error msg err : err <> 0 -> is_reply msg err [] -> told msg = None.
Proof.
  intros He (uq & ->). unfold told. pose proof (clamp_error_range err) as Hc. assert (clamp_error err <> 0) as Hz by (unfold clamp_error, ERANGE; zcases; done).
  assert (u32_at (reply_msg (clamp_error err) uq []) 4 = u32 (clamp_error err)) as ->.
  { unfold reply_msg. rewrite join_cons. unfold out_header. rewrite <- !app_assoc. by apply u32_at_app. }
  destruct (Z.eqb_spec (u32 (clamp_error err)) 0) as [E|]; [|done]. exfalso. unfold wrap in E. apply Z.mod_divide in E; [|done]. destruct E as [k E]. lia.
Qed.

Lemma told_entry msg n e t : (8 <= n)%nat -> 0 <= e_ino e < 2 ^ 64 -> is_reply msg 0 [take n (enc_fuse_entry_out (fill_entry e)) ++ t] ->
  told msg = if e_ino e =? 0 then None else Some (e_ino e).
Proof.
  intros Hn Hi (uq & ->). unfold told. change (clamp_error 0) with 0.
  assert (u32_at (reply_msg 0 uq [take n (enc_fuse_entry_out (fill_entry e)) ++ t]) 4 = 0) as ->.
  { unfold reply_msg. rewrite join_cons. unfold out_header. rewrite <- !app_assoc. by apply (u32_at_app (le 4 _)). }
  assert (u64_at (reply_msg 0 uq [take n (enc_fuse_entry_out (fill_entry e)) ++ t]) 16 = e_ino e) as ->.
  { unfold reply_msg. rewrite !join_cons. unfold enc_fuse_entry_out. rewrite take_app, length_le, take_ge by (rewrite length_le; lia). rewrite <- !app_assoc.
    rewrite u64_at_app by apply length_out_header. cbn [eo_nodeid fill_entry]. rewrite !(wrap_id 64) by (rewrite ?wrap_id; lia). done. }
  cbn [Z.eqb andb]. by destruct (_ =? 0).
Qed.

Section Tree.
Context {OS M X : Type} `{FdOps OS} `{DevOps OS} `{!FdLaws OS} `{!DevLaws OS} `{NodeMemLaws M}.
Context (fs : fuse_operations OS X).
Implicit Types (b : lib M X) (G : list hold) (R : option Z) (A : tree).

Abbreviation IO := (ST (LL OS (lib M X))).

(** ** Operations on the tree *)

Definition rem b : bool := remembers (fz b).

(** The operation is one the kernel may ask for, by a request that has locked
    the paths [G]. *)
Definition may b G (o : op) : Prop := allowed (rem b) (abs (fz b)) o /\ guarded (fz b) G o /\ op_names o.

(** [b'] is [b] with another tree. *)
Record others b b' : Prop := { ot_conf : conf (fz b') = conf (fz b); ot_dhs : dhs b' = dhs b; ot_next : next_dh b' = next_dh b }.

#[export] Instance others_preorder : PreOrder others.
Proof. split; [by intros b|]. intros b1 b2 b3 [? ? ?] [? ? ?]. split; congruence. Qed.

Lemma like_others b b' : like b b' -> others b b'.
Proof. by intros [? ? ? ?]. Qed.

Lemma lib_others b b' : same_lib b b' -> others b b'.
Proof. intros Hs. by apply like_others, same_like. Qed.

Lemma others_rem b b' : others b b' -> rem b' = rem b.
Proof. intros Ho. unfold rem, remembers. by rewrite (ot_conf _ _ Ho). Qed.

(** Nodes stay where they are as long as their files are in the tree. *)
Definition ptrs b b' : Prop := forall p i, ptr_in (nodes (fz b)) p i -> is_Some (abs (fz b') !! i) -> ptr_in (nodes (fz b')) p i.

Lemma settled_ptr (f f' : fuse M) p i : settled f f' -> ptr_in (nodes f) p i -> is_Some (abs f' !! i) -> ptr_in (nodes f') p i.
Proof.
  intros Hs (n & Hn & <-) Ha. destruct (st_gone _ _ Hs p n Hn Ha) as [n' Hn']. exists n'. split; [done|]. by apply (st_keep _ _ Hs p n n').
Qed.

Lemma tree_step b G o : held b G -> may b G o ->
  exists r f', run_op o (fz b) = Some (r, f') /\ spec (rem b) (abs (fz b)) o r (abs f') /\ held (with_fz f' b) G /\ others b (with_fz f' b) /\ ptrs b (with_fz f' b).
Proof.
  intros Hb (Ha & Hg & Ho). destruct (tree_op_ok (fz b) G o (hd_sys _ _ Hb) Ha Hg Ho) as (r & f' & E & (_ & Hs & Hc & _ & Hsp) & Hq).
  assert (lockq f' = []) as HL by (rewrite (st_queue _ _ Hs); apply Hb). exists r, f'. split; [done|]. split; [done|].
  split; [apply (held_sys b G); [done|by apply Hq, no_queue_fits|done]|]. split; [done|]. intros p i. by apply settled_ptr.
Qed.

(** *** Lookup *)

(** The result of a lookup of [nm] in [d], and the tree after it. *)
Definition looked_up_as (rm : bool) A (d : Z) (nm : option bytes) (r : Z * fuse_entry_param) A' : Prop :=
  r.1 <> 0 /\ A' = A \/ r.1 = 0 /\ spec rm A (OFind d nm) (RNode (Some (e_ino r.2, e_generation r.2))) A'.

Lemma spec_find_stays rm A d nm r A' i : spec rm A (OFind d nm) r A' -> is_Some (A !! i) -> is_Some (A' !! i).
Proof. inversion 1; subst; try done; intros Hi; (rewrite lookup_insert; by case_decide). Qed.

Lemma looked_stays rm A d nm r A' i : looked_up_as rm A d nm r A' -> is_Some (A !! i) -> is_Some (A' !! i).
Proof. intros [[_ ->]|[_ Hs]]; [done|by eapply spec_find_stays]. Qed.

Lemma wp_do_lookup R b G d nm e (Q : Z * fuse_entry_param -> lib M X -> Prop) : held b G -> may b G (OFind d nm) ->
  (forall r b', held b' G -> looked_up_as (rem b) (abs (fz b)) d nm r (abs (fz b')) -> others b b' -> ptrs b b' -> Q r b') ->
  wp R (on_fuse (OS := OS) (Node.do_lookup d nm e)) Q b.
Proof.
  intros Hb Hm HQ. destruct (tree_step b G _ Hb Hm) as (r & f1 & E & Hsp & Hb1 & Ho1 & Hp1). cbn [run_op] in E. apply bind_Some in E as (o & f2 & Ef & E).
  destruct o as [p|].
  - apply bind_Some in E as (n & f3 & En & E). injection E as <- <-. assert (f3 = f2 /\ nodes f2 !! p = Some n) as [-> Hn].
    { unfold node_at in En. rewrite bind_get in En. destruct (nodes f2 !! p) as [k|] eqn:Hk; [|done]. by injection En as -> <-. }
    assert (exists f4, (if auto_cache (conf f2) then update_stat p (e_attr e) else mret tt) f2 = Some (tt, f4) /\ detail f2 f4) as (f4 & E4 & D4).
    { destruct (auto_cache _); [|by exists f2]. destruct (update_stat_detail f2 p n (e_attr e) Hn) as (f4 & ? & ? & _). by exists f4. }
    eapply wp_fuse.
    { unfold Node.do_lookup. rewrite (bind_step _ _ _ _ _ Ef), (bind_step _ _ _ _ _ En), bind_get, (bind_step _ _ _ _ _ E4). unfold set_stat. rewrite bind_assoc, bind_get, bind_ret. reflexivity. }
    assert (held (with_fz f4 b) G) as Hb4 by (apply (held_detail (with_fz f2 b)); done).
    assert (abs f4 = abs f2) as EA by (apply detail_abs; [done|apply (s_tree _ _ (hd_sys _ _ Hb1))]). pose proof (proj2 D4) as [= _ _ _ _ _ EC _ _].
    apply HQ; [done|right; cbn; by rewrite EA| |].
    + destruct Ho1 as [C ? ?]. split; [cbn in *; congruence|done|done].
    + intros q i Hq Hi. cbn in Hi |- *. rewrite EA in Hi. eapply detail_ptr; [exact D4|]. by apply (Hp1 q i).
  - injection E as <- <-. eapply wp_fuse; [unfold Node.do_lookup; rewrite (bind_step _ _ _ _ _ Ef); reflexivity|].
    apply HQ; [done| |done|done]. left. split; [done|]. by inversion Hsp.
Qed.

(** The kernel may look [nm] up in [d]. *)
Definition may_find b (d : Z) (nm : option bytes) : Prop := allowed (rem b) (abs (fz b)) (OFind d nm) /\ op_names (OFind d nm).

Lemma may_find_may b G d nm : may_find b d nm -> may b G (OFind d nm).
Proof. intros [Ha Ho]. split; [done|]. split; [|done]. by intros i e k _ _ ?%not_elem_of_nil. Qed.

Lemma like_find b b' G d nm : held b G -> like b b' -> may_find b d nm -> may_find b' d nm.
Proof. intros Hb Hl [Ha Ho]. split; [|done]. by rewrite (others_rem b b'), (like_abs b b' G) by (done || by apply like_others). Qed.

(** Every node stays. *)
Definition stay b b' : Prop := forall p i, ptr_in (nodes (fz b)) p i -> ptr_in (nodes (fz b')) p i.

Lemma ptr_abs_some b G p i : held b G -> ptr_in (nodes (fz b)) p i -> is_Some (abs (fz b) !! i).
Proof. intros Hb (n & Hn & <-). rewrite (abs_node (fz b) p n); [by eexists|split; apply Hb|done]. Qed.

Lemma wp_lookup_path R b G d nm path fi (Q : Z * fuse_entry_param -> lib M X -> Prop) : held b G -> may_find b d nm ->
  (forall r b', held b' G -> looked_up_as (rem b) (abs (fz b)) d nm r (abs (fz b')) -> others b b' -> stay b b' -> Q r b') ->
  wp R (lookup_path fs d nm path fi : IO (Z * fuse_entry_param)) Q b.
Proof.
  intros Hb Hm HQ. unfold lookup_path. apply wp_bind. eapply wp_idle; [idle_tac|exact Hb|]. intros g b1 S1 Hb1.
  assert (abs (fz b1) = abs (fz b) /\ rem b1 = rem b) as [EA ER] by (unfold rem; by rewrite (sl_fz _ _ S1)). destruct (Z.eqb_spec g.1 0) as [E|E].
  - apply (wp_do_lookup R b1 G); [done|apply may_find_may; unfold may_find; by rewrite EA, ER|]. intros r b2 Hb2 Hl Ho Hps. rewrite EA, ER in Hl. apply HQ; [done|done| |].
    + transitivity b1; [by apply lib_others|done].
    + intros p i Hp. apply Hps; [by rewrite (sl_fz _ _ S1)|]. eapply looked_stays; [exact Hl|]. by eapply ptr_abs_some.
  - apply wp_ret, HQ; [done|by left|by apply lib_others|]. intros p i. by rewrite (sl_fz _ _ S1).
Qed.

(** *** Forget *)

Lemma wp_forget R b i k (Q : unit -> lib M X -> Prop) : held b [] -> allowed (rem b) (abs (fz b)) (OForget i k) ->
  (forall b', held b' [] -> spec (rem b) (abs (fz b)) (OForget i k) RDone (abs (fz b')) -> others b b' -> Q tt b') -> wp R (forget_node_ (OS := OS) i k) Q b.
Proof.
  intros Hb Ha HQ. assert (may b [] (OForget i k)) as Hm.
  { split; [done|]. split; [|by intros x ?%not_elem_of_nil]. split; [intros p n Hn _ _; by apply (held_zero b Hb p)|]. intros e _ _.
    split; [intros (q & Hq & _)|intros d s _ (q & Hq & _)]; rewrite (hd_queue _ _ Hb) in Hq; by apply elem_of_nil in Hq. }
  destruct (tree_step b [] _ Hb Hm) as (r & f1 & E & Hsp & Hb1 & Ho1 & _). cbn [run_op] in E. apply bind_Some in E as (v & f2 & Ef & E). injection E as <- <-.
  destruct v; [|by inversion Hsp]. apply wp_bind, (wp_fuse _ _ true f2); [unfold forget_begin; by rewrite (bind_step _ _ _ _ _ Ef)|].
  by apply wp_ret, HQ.
Qed.

(** ** Handlers that look a file up *)

(** If the reply names a file, the file has been looked up once more.  [res] is
    the answer of the device: ENOENT says that the kernel has not taken the reply,
    and then, and only then, the lookup is forgotten again.  If the reply names
    no file, the tree is as it was. *)
Definition entry_post b (d : Z) (nm : option bytes) (msg : bytes) (res : Z) b' : Prop := held b' [] /\ others b b' /\
  match told msg with
  | None => abs (fz b') = abs (fz b)
  | Some i => exists g A1, spec (rem b) (abs (fz b)) (OFind d nm) (RNode (Some (i, g))) A1 /\
      if res =? - ENOENT then spec (rem b) A1 (OForget i 1) RDone (abs (fz b')) else abs (fz b') = A1
  end.

Lemma no_sys_fuse {B} (m : ST (fuse M) B) : no_sys (on_fuse m : IO B).
Proof. intros s a s'. unfold on_fuse. by destruct (m _) as [[? ?]|]; [intros [= <- <-]|]. Qed.

Lemma no_sys_forget i k : no_sys (forget_node_ i k : IO unit).
Proof. intros s a s' E. apply bind_Some in E as (v & s1 & E1 & E). apply no_sys_fuse in E1. by destruct v; [injection E as <- <-|]. Qed.

Lemma dev_config r {B} (k : fuse_config -> IO B) Q b : replies_dev r (k (conf (fz b))) Q b -> replies_dev r (c ← config; k c) Q b.
Proof. intros Hk. by apply dev_bind, wp_config. Qed.

Lemma node_number b G i : held b G -> is_Some (abs (fz b) !! i) -> 0 < i < 2 ^ 64.
Proof.
  intros Hb [e He]. pose proof (s_tree _ _ (hd_sys _ _ Hb)) as Hf. apply abs_iff in He as (p & n & Hn & <- & _); [|by apply tree_num].
  pose proof (t_nodeid _ _ _ _ _ Hf p n Hn (not_elem_of_empty p)) as Hi. unfold FUSE_UNKNOWN_INO in Hi. lia.
Qed.

Lemma spec_found rm A d nm i g A' : spec rm A (OFind d nm) (RNode (Some (i, g))) A' -> (forall j e, A !! j = Some e -> 0 <= count e) ->
  exists e, A' !! i = Some e /\ 0 < count e.
Proof.
  intros Hs Hc. inversion Hs; subst; rewrite lookup_insert_eq; (eexists; split; [reflexivity|]); cbn; [|..|destruct rm; lia];
    match goal with Hl : _ !! _ = Some _ |- _ => pose proof (Hc _ _ Hl) end; unfold inc; cbn; lia.
Qed.

Lemma counts_nonneg b G i e : held b G -> abs (fz b) !! i = Some e -> 0 <= count e.
Proof.
  intros Hb He. pose proof (s_tree _ _ (hd_sys _ _ Hb)) as Hf. apply abs_iff in He as (p & n & Hn & _ & ->); [|by apply tree_num].
  apply (t_nlookup _ _ _ _ _ Hf p n Hn).
Qed.

Definition reply_entry_pre b0 b d nm (e : fuse_entry_param) (err : Z) : Prop :=
  abs (fz b) = abs (fz b0) /\ (err <> 0 \/ e_ino e = 0) \/
  err = 0 /\ spec (rem b0) (abs (fz b0)) (OFind d nm) (RNode (Some (e_ino e, e_generation e))) (abs (fz b)).

Lemma reply_entry_ok r b0 G0 b d nm e err : held b0 G0 -> held b [] -> others b0 b -> reply_entry_pre b0 b d nm e err ->
  replies_dev r (reply_entry r e err : IO unit) (fun _ msg res b' => entry_post b0 d nm msg res b') b.
Proof.
  intros Hb0 Hb Ho Hpre. unfold reply_entry. destruct (Z.eqb_spec err 0) as [->|He].
  2: { destruct Hpre as [[EA _]|[? _]]; [|done]. apply dev_err. intros res msg Hm. rewrite Z.opp_involutive in Hm. split; [done|]. split; [done|]. by rewrite (told_error _ _ He Hm). }
  assert (0 <= e_ino e < 2 ^ 64) as Hi.
  { destruct Hpre as [[_ [?| ->]]|[_ Hs]]; [done|lia|]. destruct (spec_found _ _ _ _ _ _ _ Hs) as (e' & He' & _); [intros j ej; by eapply counts_nonneg|].
    pose proof (node_number b [] (e_ino e) Hb (ex_intro _ _ He')). lia. }
  apply dev_after; [intros a; destruct (_ && _); [apply no_sys_forget|apply no_sys_ret]|]. unfold fuse_reply_entry. apply dev_conn. intros c. cbv zeta. destruct (_ && _) eqn:Ec.
  - apply dev_send. intros res msg Hm. apply andb_true_iff in Ec as [Ei _]. rewrite Ei, andb_false_r. apply wp_ret. split; [done|]. split; [done|].
    rewrite (told_error msg (- ENOENT)) by done. destruct Hpre as [[? _]|[_ Hs]]; [done|]. exfalso. apply Z.eqb_eq in Ei. rewrite Ei in Hs.
    destruct (spec_found _ _ _ _ _ _ _ Hs) as (e' & He' & _); [intros j ej; by eapply counts_nonneg|]. pose proof (node_number b [] 0 Hb (ex_intro _ _ He')). lia.
  - set (n := if _ <? 9 then _ else _). assert (8 <= n)%nat as Hn by (unfold n, FUSE_COMPAT_ENTRY_OUT_SIZE; destruct (_ <? 9); lia).
    apply dev_send. intros res msg Hm.
    assert (told msg = if e_ino e =? 0 then None else Some (e_ino e)) as Et.
    { apply (told_entry msg n e []); [done|done|]. rewrite app_nil_r. unfold segs in Hm. rewrite bool_decide_eq_false_2 in Hm; [done|].
      intros Hnil%(f_equal length). rewrite length_take, length_enc_fuse_entry_out in Hnil. cbn in Hnil. lia. }
    destruct (Z.eqb_spec (e_ino e) 0) as [Ei|Ei].
    + rewrite andb_false_r. apply wp_ret. split; [done|]. split; [done|]. rewrite Et. destruct Hpre as [[? _]|[_ Hs]]; [done|]. exfalso. rewrite Ei in Hs.
      destruct (spec_found _ _ _ _ _ _ _ Hs) as (e' & He' & _); [intros j ej; by eapply counts_nonneg|]. pose proof (node_number b [] 0 Hb (ex_intro _ _ He')). lia.
    + destruct Hpre as [[_ [?|?]]|[_ Hs]]; [done|done|]. destruct (spec_found _ _ _ _ _ _ _ Hs) as (e' & He' & Hc'); [intros j ej; by eapply counts_nonneg|].
      rewrite andb_true_r. destruct (res =? - ENOENT) eqn:Eres.
      * apply wp_forget; [done|right; exists e'; split; [done|lia]|]. intros b' Hb' Hf Ho'. split; [done|]. split; [by transitivity b|]. rewrite Et.
        exists (e_generation e), (abs (fz b)). split; [done|]. by rewrite Eres, <- (others_rem b0 b Ho).
      * apply wp_ret. split; [done|]. split; [done|]. rewrite Et. exists (e_generation e), (abs (fz b)). split; [done|by rewrite Eres].
Qed.

(** What the part of a handler that works with the path may end in. *)
Definition entry_result b d nm G (a : Z * fuse_entry_param) b' : Prop :=
  held b' G /\ stay b b' /\ others b b' /\ reply_entry_pre b b' d nm a.2 a.1.

Definition entry_body r b d nm (body : option bytes -> IO (Z * fuse_entry_param)) : Prop :=
  forall b1 G path, held b1 G -> like b b1 -> wp (Some r) (body path) (entry_result b d nm G) b1.

Lemma wp_entry_block r b d nm p (l : list Z) pr b1 body (Q : Z * fuse_entry_param -> lib M X -> Prop) : held b [] -> ptr_in (nodes (fz b)) p d ->
  held b1 (path_holds p l pr.2 []) -> like b b1 -> (pr.1 <> 0 -> pr.2 = None) ->
  entry_body r b d nm body -> (forall a b', held b' [] -> others b b' -> reply_entry_pre b b' d nm a.2 a.1 -> Q a b') ->
  wp (Some r) (path_block r d pr (fun e => (e, entry0)) body) Q b1.
Proof.
  intros Hb Hp Hb1 Hl Hn Hbody HQ. apply (wp_path_block r [] b1 p d l pr); [done|done|..].
  - intros E Hb1'. apply HQ; [done|by apply like_others|]. left. split; [by apply (like_abs b b1 [])|by left].
  - intros _ b2 Hb2 S2. eapply wp_mono; [apply (Hbody b2 (path_holds p l pr.2 []) pr.2); [done|transitivity b1; [done|by apply same_like]]|].
    intros a b3 (Hb3 & Hp3 & Ho3 & Hpre). split; [done|]. split; [by apply Hp3|]. intros b4 Hb4 Hl4. apply HQ; [done|transitivity b3; [done|by apply like_others]|].
    unfold reply_entry_pre. by rewrite (like_abs b3 b4 _ Hb3 Hl4).
Qed.

Lemma entry_path r d p nm b body : held b [] -> request_ok (fz b) p d (Some nm) false -> entry_body r b d (Some nm) body ->
  replies_dev r (pr ← get_path_name_ d (Some nm); a ← path_block r d pr (fun e => (e, entry0)) body; reply_entry r a.2 a.1) (fun _ msg res b' => entry_post b d (Some nm) msg res b') b.
Proof.
  intros Hb Hr Hbody. apply dev_bind, (getter_name r d (Some nm) b p); [done|done|]. intros pr l b1 _ Hn Hb1 Hl1 _. apply dev_bind.
  eapply (wp_entry_block r b d (Some nm) p l); try done; [by eapply request_ptr|]. intros a b2 Hb2 Ho2 Hpre. exact (reply_entry_ok r b [] b2 d (Some nm) a.2 a.1 Hb Hb2 Ho2 Hpre).
Qed.

Lemma looked_pre b d nm r b' : looked_up_as (rem b) (abs (fz b)) d nm r (abs (fz b')) -> reply_entry_pre b b' d nm r.2 r.1.
Proof. intros [[? ?]|[? ?]]; [left; auto|by right]. Qed.

(** The same tree and the same nodes. *)
Definition near b b1 : Prop := abs (fz b1) = abs (fz b) /\ others b b1 /\ stay b b1.

Lemma like_near b b1 : held b [] -> like b b1 -> near b b1.
Proof. intros Hb Hl. split; [exact (like_abs b b1 [] Hb Hl)|]. split; [by apply like_others|]. intros p i. exact (like_ptr b b1 p i Hl). Qed.

Lemma near_lib b b1 b2 : near b b1 -> same_lib b1 b2 -> near b b2.
Proof.
  intros (Ha & Ho & Hp) S. split; [by rewrite (sl_fz _ _ S)|]. split; [transitivity b1; [done|by apply lib_others]|]. intros p i. rewrite (sl_fz _ _ S). apply Hp.
Qed.

(** The last step of most of them: look the new file up. *)
Lemma lookup_body r b d nm b1 G path fi : may_find b d nm -> held b1 G -> near b b1 ->
  wp (Some r) (lookup_path fs d nm path fi : IO (Z * fuse_entry_param)) (entry_result b d nm G) b1.
Proof.
  intros Hm Hb1 (Ha & Ho & Hp). assert (may_find b1 d nm) as Hm1 by (unfold may_find; by rewrite Ha, (others_rem b b1 Ho)).
  apply (wp_lookup_path _ b1 G d); [done|done|]. intros a b2 Hb2 Hlk Ho2 Hp2.
  rewrite Ha, (others_rem b b1 Ho) in Hlk. split; [done|]. split; [intros p i Hpi; by apply Hp2, Hp|]. split; [by transitivity b1|]. by apply looked_pre.
Qed.

Lemma failed_result b d nm G b1 e err : held b1 G -> near b b1 -> err <> 0 -> entry_result b d nm G (err, e) b1.
Proof. intros Hb1 (Ha & Ho & Hp) He. split; [done|]. split; [done|]. split; [done|]. left. split; [done|by left]. Qed.

Lemma result_near b d nm G a b1 : entry_result b d nm G a b1 -> a.1 <> 0 -> near b b1.
Proof. intros (_ & Hp & Ho & [[Ha _]|[? _]]) He; [|done]. by split. Qed.

(** The kernel may ask for a file [nm] in the directory [d]. *)
Definition names b (d : Z) (nm : bytes) : Prop := may_find b d (Some nm) /\ exists p, request_ok (fz b) p d (Some nm) false.

Lemma names_lib b b' d nm : same_lib b b' -> names b d nm -> names b' d nm.
Proof. intros Hs. unfold names, may_find, rem. by rewrite (sl_fz _ _ Hs). Qed.

Lemma entry_post_lib b b1 d nm msg res b' : same_lib b b1 -> entry_post b1 d nm msg res b' -> entry_post b d nm msg res b'.
Proof.
  intros Hs (Hb' & Ho & Ht). assert (others b b1) as Ho1 by by apply lib_others. split; [done|]. split; [by transitivity b1|].
  by rewrite (others_rem b b1), (sl_fz _ _ Hs) in Ht.
Qed.

(** The start of a handler. *)
Lemma entry_prepare r d nm b (m : IO unit) : held b [] -> (forall b', held b' [] -> same_lib b b' -> replies_dev r m (fun _ msg res b2 => entry_post b' d nm msg res b2) b') ->
  replies_dev r (_ ← req_fuse_prepare r; m) (fun _ msg res b' => entry_post b d nm msg res b') b.
Proof.
  intros Hb Hm. apply dev_bind. eapply wp_idle; [apply idle_prepare|exact Hb|]. intros _ b1 S1 Hb1. eapply dev_mono; [by apply Hm|]. intros a msg res b2. by apply entry_post_lib.
Qed.

Lemma make_entry_ok r d nm b call : held b [] -> names b d nm -> (forall path, idle (Some r) (call path)) ->
  replies_dev r (make_entry fs r d nm call : IO unit) (fun _ msg res b' => entry_post b d (Some nm) msg res b') b.
Proof.
  intros Hb [Hm [p Hr]] Hc. apply (entry_path r d p); [done|done|]. intros b1 G path Hb1 Hl1. pose proof (request_ptr _ _ _ _ _ Hr) as Hp.
  apply wp_bind. eapply wp_idle; [apply Hc|exact Hb1|]. intros err b2 S2 Hb2.
  assert (near b b2) as Hn by (eapply near_lib; [by apply (like_near b b1)|done]).
  destruct (Z.eqb_spec err 0); [by apply lookup_body|]. by apply wp_ret, failed_result.
Qed.

Lemma mkdir_ok r d nm mode b : held b [] -> names b d nm -> replies_dev r (fuse_lib_mkdir fs r d nm mode) (fun _ msg res b' => entry_post b d (Some nm) msg res b') b.
Proof. intros Hb Hn. apply entry_prepare; [done|]. intros b1 Hb1 S1. apply make_entry_ok; [done|by eapply names_lib|idle_tac]. Qed.

Lemma symlink_ok r d nm ln b : held b [] -> names b d nm -> replies_dev r (fuse_lib_symlink fs r ln d nm) (fun _ msg res b' => entry_post b d (Some nm) msg res b') b.
Proof. intros Hb Hn. apply entry_prepare; [done|]. intros b1 Hb1 S1. apply make_entry_ok; [done|by eapply names_lib|idle_tac]. Qed.

Lemma mknod_ok r d nm mode rdev b : held b [] -> names b d nm -> replies_dev r (fuse_lib_mknod fs r d nm mode rdev) (fun _ msg res b' => entry_post b d (Some nm) msg res b') b.
Proof.
  intros Hb Hn. apply entry_prepare; [done|]. intros b1 Hb1 S1. destruct (names_lib _ _ _ _ S1 Hn) as [Hm [p Hr]]. pose proof (request_ptr _ _ _ _ _ Hr) as Hp.
  apply (entry_path r d p); [done|done|]. intros b2 G path Hb2 Hl2. pose proof (like_near b1 b2 Hb1 Hl2) as N2. apply wp_bind.
  assert (forall a b3, entry_result b1 d (Some nm) G a b3 -> wp (Some r) (if a.1 =? - ENOSYS then
      err ← fuse_fs_mknod fs path mode rdev;
      if err =? 0 then lookup_path fs d (Some nm) path None else mret (err, entry0)
    else mret a) (entry_result b1 d (Some nm) G) b3) as Hend.
  { intros a b3 Ha. destruct (Z.eqb_spec a.1 (- ENOSYS)) as [E|]; [|by apply wp_ret]. assert (near b1 b3) as N3 by (eapply result_near; [done|by rewrite E]).
    apply wp_bind. eapply wp_idle; [idle_tac|apply Ha|]. intros err b4 S4 Hb4. pose proof (near_lib _ _ _ N3 S4).
    destruct (Z.eqb_spec err 0); [by apply lookup_body|by apply wp_ret, failed_result]. }
  destruct (S_ISREG mode); [|by apply wp_ret, Hend, failed_result]. apply wp_bind. eapply wp_idle; [idle_tac|exact Hb2|]. intros k b3 S3 Hb3.
  pose proof (near_lib _ _ _ N2 S3) as N3. destruct (Z.eqb_spec k.1 0); [|by apply wp_ret, Hend, failed_result].
  apply wp_bind. eapply wp_mono; [by apply lookup_body|]. intros a b4 (Hb4 & Hp4 & Ho4 & Hpre). apply wp_bind. eapply wp_idle; [idle_tac|exact Hb4|]. intros _ b5 S5 Hb5.
  apply wp_ret, Hend. split; [done|]. unfold stay, reply_entry_pre. rewrite (sl_fz _ _ S5). split; [done|]. split; [transitivity b4; [done|by apply lib_others]|done].
Qed.

(** A name other than the two that name no file of the directory. *)
Definition plain (nm : bytes) : Prop := is_dot nm = false /\ is_dotdot nm = false.

Lemma lookup_ok r d nm b : held b [] -> names b d nm -> plain nm -> replies_dev r (fuse_lib_lookup fs r d nm) (fun _ msg res b' => entry_post b d (Some nm) msg res b') b.
Proof.
  intros Hb Hn [E1 E2]. apply entry_prepare; [done|]. intros b1 Hb1 S1. destruct (names_lib _ _ _ _ S1 Hn) as [Hm [p Hr]]. pose proof (request_ptr _ _ _ _ _ Hr) as Hp.
  apply dev_bind, (wp_fuse _ _ (Some (d, Some nm, None)) (fz b1)); [unfold lookup_dots; by rewrite E1, E2|]. replace (with_fz (fz b1) b1) with b1 by by destruct b1.
  apply dev_bind, (getter_name r d (Some nm) b1 p); [done|done|]. intros pr l b2 _ Hnone Hb2 Hl2 _. apply dev_config, dev_bind.
  eapply (wp_entry_block r b1 d (Some nm) p l); [done|done|done|done|done| |].
  - intros b3 G path Hb3 Hl3. apply wp_bind. eapply wp_mono; [apply (lookup_body r b1); [done|done|by apply like_near]|]. intros a b4 (Hb4 & Hp4 & Ho4 & Hpre). apply wp_ret.
    split; [done|]. split; [done|]. split; [done|]. destruct (_ && _) eqn:E; [|done]. apply andb_true_iff in E as [Ee%Z.eqb_eq _].
    destruct Hpre as [[Ha _]|[Hz _]]; [|by rewrite Ee in Hz]. left. split; [done|by right].
  - intros a b3 Hb3 Ho3 Hpre. apply dev_bind, wp_ret. exact (reply_entry_ok r b1 [] b3 d (Some nm) a.2 a.1 Hb1 Hb3 Ho3 Hpre).
Qed.

(** *** Forget *)

(** The trees after forgetting a list of lookups, one by one. *)
Inductive forgets (rm : bool) : tree -> list (Z * Z) -> tree -> Prop :=
  | forgets_nil A : forgets rm A [] A
  | forgets_cons A i k l A1 A' : spec rm A (OForget i k) RDone A1 -> forgets rm A1 l A' -> forgets rm A ((i, k) :: l) A'.

(** What the kernel may forget: no more than it has looked up. *)
Inductive may_forget (rm : bool) : tree -> list (Z * Z) -> Prop :=
  | may_nil A : may_forget rm A []
  | may_cons A i k l : allowed rm A (OForget i k) -> (forall A', spec rm A (OForget i k) RDone A' -> may_forget rm A' l) -> may_forget rm A ((i, k) :: l).

Lemma wp_forget_all R l b (Q : unit -> lib M X -> Prop) : held b [] -> may_forget (rem b) (abs (fz b)) l ->
  (forall b', held b' [] -> forgets (rem b) (abs (fz b)) l (abs (fz b')) -> others b b' -> Q tt b') -> wp R (forget_all l : IO unit) Q b.
Proof.
  revert b. induction l as [|[i k] l IH]; intros b Hb Hm HQ; [apply wp_ret, HQ; [done|constructor|done]|]. inversion Hm as [|? ? ? ? Ha Hr]; subst.
  apply wp_bind, wp_forget; [done|done|]. intros b1 Hb1 Hs Ho. apply IH; [done|rewrite (others_rem b b1 Ho); by apply Hr|].
  intros b2 Hb2 Hf Ho2. rewrite (others_rem b b1 Ho) in Hf. apply HQ; [done|by econstructor|by transitivity b1].
Qed.

(** A request that is not answered: it is freed. *)
Definition drops {B} (r : Z) (m : IO B) (Q : lib M X -> Prop) b : Prop :=
  forall s l i n q, LowLevel.inv s l i n -> LowLevel.live s l i n r q -> has_req (Some r) s -> user s = b ->
  exists a s', m s = Some (a, s') /\ LowLevel.inv s' (without r l) i n /\ Q (user s') /\ sent s' = sent s.

Lemma drops_none r (m : IO unit) (Q : lib M X -> Prop) b : wp (Some r) m (fun _ => Q) b -> drops r (_ ← m; fuse_reply_none r) Q b.
Proof.
  intros Hm s l i n q I L HR E. destruct (Hm s E HR) as ([] & s1 & E1 & Hq & HQ). destruct (quiet_live _ s s1 l i n r q Hq L) as (q1 & L1 & _).
  destruct (fuse_free_req_spec s1 l i n r q1 (quiet_inv _ _ _ _ _ _ Hq I) L1) as (s2 & E2 & I2 & (_ & _ & _ & _ & Hu & _) & S2 & _).
  exists tt, s2. split; [by rewrite (bind_step _ _ _ _ _ E1)|]. split; [done|]. split; [by rewrite Hu|]. rewrite S2. by destruct Hq as (_ & _ & _ & _ & _ & ->).
Qed.

Lemma drops_ext r (m m' : IO unit) (Q : lib M X -> Prop) b : (forall s, m s = m' s) -> drops r m' Q b -> drops r m Q b.
Proof. intros E Hm s l i n q I L HR Es. rewrite E. by apply (Hm s l i n q). Qed.

Lemma forget_multi_ok r l b : held b [] -> may_forget (rem b) (abs (fz b)) l ->
  drops r (fuse_lib_forget_multi r l : IO unit) (fun b' => held b' [] /\ others b b' /\ forgets (rem b) (abs (fz b)) l (abs (fz b'))) b.
Proof.
  intros Hb Hm. apply (drops_ext r _ (_ ← (_ ← get_req r; forget_all l : IO unit); fuse_reply_none r)); [intros s; by rewrite bind_assoc|].
  apply drops_none, wp_bind, wp_get_req. intros _. by apply wp_forget_all.
Qed.

Lemma forget_request_ok r i k b : held b [] -> allowed (rem b) (abs (fz b)) (OForget i k) ->
  drops r (fuse_lib_forget r i k : IO unit) (fun b' => held b' [] /\ others b b' /\ spec (rem b) (abs (fz b)) (OForget i k) RDone (abs (fz b'))) b.
Proof.
  intros Hb Hm. apply (drops_ext r _ (_ ← (_ ← get_req r; do_forget_ i k : IO unit); fuse_reply_none r)); [intros s; by rewrite bind_assoc|].
  apply drops_none, wp_bind, wp_get_req. intros _. by apply wp_forget.
Qed.

(** *** Link *)

(** [s] is the path from the root along [l] to the node [p], and then [nm]. *)
Definition spells (f : fuse M) (p : Z) (l : list Z) (nm : option bytes) (s : bytes) : Prop :=
  full_path (nodes f) p l /\ s = shown (path_string (nodes f) l (tail_of nm)).

(** The file system has not been asked, and memory is not more. *)
Definition spends b b' : Prop := (short_memory (fz b') -> short_memory (fz b)) /\ fsx b' = fsx b.

Lemma wp_get_path2 R b p1 i1 nm1 wr1 p2 i2 nm2 wr2 Q : held b [] -> request_ok (fz b) p1 i1 nm1 wr1 -> request_ok (fz b) p2 i2 nm2 wr2 ->
  no_conflict (abs (fz b)) i1 nm1 wr1 i2 nm2 wr2 ->
  (forall e b', no_path (fz b) p1 e \/ no_path (fz b) p2 e -> held b' [] -> like b b' -> spends b b' -> Q (inl e) b') ->
  (forall s1 w1 s2 w2 l1 l2 b', held b' [Hold p1 l1 w1; Hold p2 l2 w2] -> like b b' -> spends b b' -> write_node (fz b) i1 nm1 wr1 w1 -> write_node (fz b) i2 nm2 wr2 w2 ->
     spells (fz b) p1 l1 nm1 s1 -> spells (fz b) p2 l2 nm2 s2 -> Q (inr ((s1, w1), (s2, w2))) b') ->
  wp R (get_path2_ (OS := OS) i1 nm1 i2 nm2 wr1 wr2) Q b.
Proof.
  intros Hb Hr1 Hr2 Hc HE HQ. destruct (take_two b p1 i1 nm1 wr1 p2 i2 nm2 wr2 Hb Hr1 Hr2 Hc) as (r & f' & E & Hl & Hsh & Hres). eapply wp_bind, wp_fuse; [exact E|]. apply wp_ret.
  destruct r as [x|[[s1 w1] [s2 w2]]]; [destruct Hres as [? ?]; by apply HE|]. destruct Hres as (? & ? & l1 & l2 & ? & ? & ? & ? & ?). by eapply HQ.
Qed.

Lemma link_ok r i d nm b : held b [] -> known b i -> names b d nm -> replies_dev r (fuse_lib_link fs r i d nm) (fun _ msg res b' => entry_post b d (Some nm) msg res b') b.
Proof.
  intros Hb [p1 Hr1] Hn. apply entry_prepare; [done|]. intros b1 Hb1 S1. destruct (names_lib _ _ _ _ S1 Hn) as [Hm [p2 Hr2]]. rewrite <- (sl_fz _ _ S1) in Hr1.
  pose proof (request_ptr _ _ _ _ _ Hr1) as Hp1. pose proof (request_ptr _ _ _ _ _ Hr2) as Hp2.
  apply dev_bind, (wp_get_path2 _ b1 p1 i None false p2 d (Some nm) false); [done|done|done|done|..].
  { intros e b2 He Hb2 Hl2 _. apply dev_bind, wp_ret. apply (reply_entry_ok r b1 [] b2); [done|done|by apply like_others|]. left.
    split; [by apply (like_abs b1 b2 [])|left; cbn]. assert (e < 0); [|lia]. destruct He as [He|He]; apply (no_path_neg _ _ _ He). }
  intros s1 w1 s2 w2 l1 l2 b2 Hb2 Hl2 _ Hw1 Hw2 _ _. assert (w1 = None) as -> by (by eapply write_node_none). assert (w2 = None) as -> by (by eapply write_node_none). apply dev_bind, wp_bind.
  eapply wp_idle; [idle_tac|exact Hb2|]. intros _ b3 S3 Hb3. apply wp_bind. eapply wp_idle; [idle_tac|exact Hb3|]. intros err b4 S4 Hb4.
  assert (like b1 b4) as Hl4 by (transitivity b2; [done|apply same_like; by transitivity b3]). pose proof (like_near b1 b4 Hb1 Hl4) as N4. apply wp_bind. cbn [fst].
  apply (wp_mono _ _ (entry_result b1 d (Some nm) [Hold p1 l1 None; Hold p2 l2 None])).
  { destruct (Z.eqb_spec err 0); [by apply lookup_body|by apply wp_ret, failed_result]. }
  intros a b5 (Hb5 & Hp5 & Ho5 & Hpre5). apply wp_bind. eapply wp_idle; [idle_tac|exact Hb5|]. intros _ b6 S6 Hb6. apply wp_bind.
  eapply wp_mono; [apply (wp_free2 _ p1 i l1 None p2 d l2 None b6 b6); [done|rewrite (sl_fz _ _ S6); by apply Hp5|rewrite (sl_fz _ _ S6); by apply Hp5|done]|].
  intros _ b7 [Hb7 Hl7]. apply wp_ret. apply (reply_entry_ok r b1 [] b7); [done|done| |].
  - transitivity b5; [done|]. transitivity b6; [by apply lib_others|by apply like_others].
  - unfold reply_entry_pre. by rewrite (like_abs b6 b7 _ Hb6 Hl7), (sl_fz _ _ S6).
Qed.

End Tree.
