(* ===== verification/LibHide.v ===== *)
(** * Hidden names, and the handlers that remove and rename files

    A file that is removed or replaced while it is open gets a hidden name.  The
    name is free: the counter moves on until it is. *)

From S2P Require Import Prelude DList NodeTable Wire Locks Node NodeTree NodeOps NodeSpec NodeTheorems Path PathSpec PathQueue PathTree PathTheorems.
From S2P Require Import Buf LowLevel Dispatch Handler Lib LibOps LibSpec LibCalm LibTree.

(** ** The names *)

Lemma hex_digit_inj x y : 0 <= x < 16 -> 0 <= y < 16 -> hex_digit x = hex_digit y -> x = y.
Proof. unfold hex_digit. zcases; lia. Qed.

Lemma nibble_inj k x y : 0 <= k -> x mod 16 ^ k = y mod 16 ^ k -> Z.shiftr x (4 * k) mod 16 = Z.shiftr y (4 * k) mod 16 -> x mod 16 ^ (k + 1) = y mod 16 ^ (k + 1).
Proof.
  intros Hk E1 E2. rewrite !Z.shiftr_div_pow2 in E2 by lia. replace (2 ^ (4 * k)) with (16 ^ k) in E2 by (change 16 with (2 ^ 4); by rewrite <- Z.pow_mul_r by lia).
  assert (0 < 16 ^ k) by (apply Z.pow_pos_nonneg; lia). rewrite Z.pow_add_r, Z.pow_1_r, !Z.rem_mul_r by lia. by rewrite E1, E2.
Qed.

Lemma hex8_inj x y : hex8 x = hex8 y -> u32 x = u32 y.
Proof.
  assert (forall z k, 0 <= Z.shiftr (u32 z) (4 * k) mod 16 < 16) as Hr by (intros; by apply Z.mod_pos_bound).
  intros E. injection E. intros E0 E1 E2 E3 E4 E5 E6 E7. apply hex_digit_inj in E0, E1, E2, E3, E4, E5, E6, E7; try apply Hr.
  assert (u32 x mod 16 ^ 8 = u32 y mod 16 ^ 8) as E8.
  { apply (nibble_inj 7); [lia| |done]. apply (nibble_inj 6); [lia| |done]. apply (nibble_inj 5); [lia| |done]. apply (nibble_inj 4); [lia| |done].
    apply (nibble_inj 3); [lia| |done]. apply (nibble_inj 2); [lia| |done]. apply (nibble_inj 1); [lia| |done]. apply (nibble_inj 0); [lia| |done]. by rewrite !Z.mod_1_r. }
  change (16 ^ 8) with (2 ^ 32) in E8. unfold wrap in *. by rewrite !Z.mod_mod in E8.
Qed.

Lemma hidden_inj i c c' : hidden_string i c = hidden_string i c' -> u32 c = u32 c'.
Proof. unfold hidden_string. intros E%(app_inv_head (lit ".fuse_hidden"))%(app_inv_head (hex8 i)). by apply hex8_inj. Qed.

Lemma hex8_nonul z : nonul (hex8 z).
Proof.
  unfold hex8. apply Forall_fmap, Forall_forall. intros k _. cbn. unfold hex_digit. pose proof (Z.mod_pos_bound (Z.shiftr (u32 z) (4 * k)) 16). zcases; lia.
Qed.

Lemma hidden_nonul i c : nonul (hidden_string i c).
Proof. unfold hidden_string. apply Forall_app. split; [by repeat constructor|]. apply Forall_app. split; apply hex8_nonul. Qed.

Section Free.
Context {M : Type} `{NodeMemLaws M}.
Implicit Types (f : fuse M).

Lemma find_name_hidectr f c d nm r : find_name d nm f = Some (r, f) -> find_name d nm (set_hidectr c f) = Some (r, set_hidectr c f).
Proof.
  unfold find_name. rewrite !bind_get. unfold some. change (key_of (set_hidectr c f)) with (key_of f). cbn [name_table set_hidectr]. destruct (lookup_node _ _ _ _); [|done].
  by intros [= ->].
Qed.

Lemma hidden_u32 i c : hidden_string i (u32 c) = hidden_string i c.
Proof. unfold hidden_string, hex8. by rewrite (wrap_id 32 (u32 c)) by (unfold wrap; apply Z.mod_pos_bound; lia). Qed.

(** A free name, or a node for each name that was tried. *)
Lemma free_hidden_or n i d f : tree_ok f ->
  (exists c, free_hidden n i d f = Some (hidden_string i c, set_hidectr c f) /\ vacant (abs f) d (hidden_string i c)) \/
  forall k, (k < n)%nat -> exists p, is_Some (nodes f !! p) /\ key_in (nodes f) p = Some (d, hidden_string i (hidectr f + 1 + Z.of_nat k)).
Proof.
  revert f. induction n as [|n IH]; intros f Hf; [right; lia|]. cbn [free_hidden]. rewrite bind_get. cbv zeta. rewrite bind_modify. set (c := u32 (hidectr f + 1)).
  destruct (find_name_abs f d (hidden_string i c) Hf) as (r & E & Hr). rewrite (bind_step _ _ _ _ _ (find_name_hidectr f c _ _ _ E)). destruct r as [p|]; [|left; by exists c].
  destruct Hr as (m & Hm & Hk). destruct (IH (set_hidectr c f)) as [(c' & E' & Hv)|Hall]; [by apply (tree_inv_frame _ _ _ _ f)|left|right].
  - exists c'. split; [|done]. rewrite E'. by destruct f.
  - intros [|k] Hlt; [exists p; split; [by eexists|]|].
    + rewrite Hk. unfold c. by rewrite hidden_u32, Z.add_0_r.
    + destruct (Hall k) as (q & Hq & Hkq); [lia|]. exists q. split; [done|]. cbn [hidectr set_hidectr nodes] in Hkq. rewrite Hkq. do 2 f_equal. rewrite <- hidden_u32, <- (hidden_u32 i (_ + Z.of_nat (S k))). f_equal.
      unfold c, wrap. rewrite <- Z.add_assoc, Zplus_mod_idemp_l. f_equal. lia.
Qed.

Lemma choose_all {A B} (P : A -> B -> Prop) (l : list A) : (forall x, x ∈ l -> exists y, P x y) -> exists l', Forall2 P l l'.
Proof.
  induction l as [|x l IH]; intros Hl; [by exists []|]. destruct (Hl x) as [y Hy]; [left|]. destruct IH as [l' Hl']; [intros z Hz; apply Hl; by right|]. exists (y :: l'). by constructor.
Qed.

(** Of more names than there are nodes one is free. *)
Lemma free_hidden_ok i d f : tree_ok f -> exists c, free_hidden (S (size (nodes f))) i d f = Some (hidden_string i c, set_hidectr c f) /\ vacant (abs f) d (hidden_string i c).
Proof.
  intros Hf. destruct (free_hidden_or (S (size (nodes f))) i d f Hf) as [?|Hall]; [done|exfalso].
  destruct (choose_all (fun k p => is_Some (nodes f !! p) /\ key_in (nodes f) p = Some (d, hidden_string i (hidectr f + 1 + Z.of_nat k))) (seq 0 (S (size (nodes f))))) as [l Hl].
  { intros k Hk%elem_of_seq. apply Hall. lia. }
  pose proof (Forall2_length _ _ _ Hl) as Hlen. rewrite length_seq in Hlen.
  assert (NoDup l) as Hnd.
  { apply NoDup_alt. intros a b p Ha Hb. destruct (Forall2_lookup_r _ _ _ _ _ Hl Ha) as (ka & Hka & _ & K1), (Forall2_lookup_r _ _ _ _ _ Hl Hb) as (kb & Hkb & _ & K2).
    apply lookup_seq in Hka as [-> Ha'], Hkb as [-> Hb']. rewrite K1 in K2. apply (inj Some), (f_equal snd), hidden_inj in K2 as E.
    pose proof (t_size _ _ _ _ _ Hf). unfold wrap in E. assert ((Z.of_nat a - Z.of_nat b) mod 2 ^ 32 = 0) as Ed.
    { replace (Z.of_nat a - Z.of_nat b) with ((hidectr f + 1 + Z.of_nat (0 + a)) - (hidectr f + 1 + Z.of_nat (0 + b))) by (cbn; lia). rewrite Zminus_mod, E, Z.sub_diag. done. }
    apply Z.mod_divide in Ed as [q Hq]; [|done]. nia. }
  pose proof (nodup_bound l (dom (nodes f)) Hnd) as Hb. rewrite size_dom in Hb. assert (length l <= size (nodes f))%nat; [|lia]. apply Hb. intros p Hp.
  apply list_elem_of_lookup in Hp as [a Ha]. destruct (Forall2_lookup_r _ _ _ _ _ Hl Ha) as (ka & _ & Hs & _). by apply elem_of_dom.
Qed.

(** ** A path without locks *)

Lemma open_climb_ok fuel f p b t : sound (nodes f) -> is_Some (nodes f !! p) -> buf_ok b t -> fits (nodes f) p t ->
  (forall l e, segment (nodes f) p l e -> (length l < fuel)%nat) -> exists r h, lock_climb fuel false p b f = Some (r, set_heap h f) /\
    match r with
    | inl (e, _) => e = - ENOMEM \/ e = - ENOENT /\ forall l, ~ full_path (nodes f) p l
    | inr b' => exists l, full_path (nodes f) p l /\ buf_ok b' (path_string (nodes f) l t)
    end.
Proof.
  revert f p b t. induction fuel as [|fuel IH]; intros f p b t Hs [n Hn] Hb Hfit Hfuel.
  { specialize (Hfuel [] p (seg_nil _ p (ex_intro _ n Hn))). lia. }
  assert (forall r : (Z * Z) + path_buf, Some (r, f) = Some (r, set_heap (Node.heap f) f)) as Hsame by (intros; by destruct f).
  cbn [lock_climb]. rewrite (bind_step _ _ _ _ _ (node_at_eq f p n Hn)). destruct (Z.eqb_spec (nodeid n) FUSE_ROOT_ID) as [Hr|Hr].
  { eexists _, _. split; [apply Hsame|]. exists []. split; [|done]. exists p. split; [constructor; by eexists|by exists n]. }
  assert (forall l, full_path (nodes f) p l -> exists nm d l', name n = Some nm /\ parent n = Some d /\ l = p :: l' /\ full_path (nodes f) d l') as Hinv.
  { intros l (e & Hse & He). inversion Hse as [? Hp|? n' d nm l' ? Hn' Hne Hd Hnm Hse']; subst; [destruct He as (m & Hm & Hrt); congruence|].
    assert (n' = n) as -> by congruence. exists nm, d, l'. repeat (split; [done|]). by exists e. }
  destruct (name n) as [nm|] eqn:Enm, (parent n) as [d|] eqn:Ed; try (eexists _, _; split; [apply Hsame|]; right; split; [done|]; intros l (? & ? & ? & ? & ? & _)%Hinv; congruence).
  assert (forall l, path_string (nodes f) (p :: l) t = path_string (nodes f) l (lit "/" ++ nm ++ t)) as Hcons by (intros l; cbn [path_string]; rewrite Hn; cbn; by rewrite Enm).
  assert (forall l e, segment (nodes f) d l e -> segment (nodes f) p (p :: l) e) as Hseg by (intros; by apply (seg_cons _ p n d nm)).
  destruct (n_closed _ Hs p n d Hn Ed) as [Hd _]. destruct (add_name_ok f b t nm Hb) as (r & h & E & Hr').
  { specialize (Hfit _ _ (Hseg [] d (seg_nil _ d Hd))). rewrite Hcons in Hfit. cbn [path_string] in Hfit. rewrite !length_app in Hfit. change (length (lit "/")) with 1%nat in Hfit. lia. }
  rewrite (bind_step _ _ _ _ _ E). destruct r as [b1|]; [|eexists _, _; split; [done|by left]].
  destruct (IH (set_heap h f) d b1 (lit "/" ++ nm ++ t)) as (r & h' & E' & Hres); [done|done|done| | |].
  - intros l e Hse. rewrite <- Hcons. by apply (Hfit _ e), Hseg.
  - intros l e Hse. specialize (Hfuel _ _ (Hseg l e Hse)). cbn in Hfuel. lia.
  - exists r, h'. split; [rewrite E'; by destruct f|]. cbn [nodes set_heap] in Hres. destruct r as [[e q]|b'].
    + destruct Hres as [?|[? Hno]]; [by left|right]. split; [done|]. intros l (nm' & d' & l' & _ & Ed' & -> & Hl)%Hinv. apply (Hno l'). congruence.
    + destruct Hres as (l & (e & Hse & He) & Hb'). exists (p :: l). split; [exists e; split; [by apply Hseg|done]|]. by rewrite Hcons.
Qed.

Lemma open_path_ok f p i nm : tree_ok f -> acyclic (abs f) -> c_names (nodes f) -> nonul nm -> ptr_in (nodes f) p i -> Z.of_nat (length nm) + 2 <= 4294967295 ->
  fits (nodes f) p (tail_of (Some nm)) ->
  exists r h, try_get_path i (Some nm) false false f = Some (r, set_heap h f) /\
    match r with inl e => no_path f p e | inr (s, _) => exists l, spells f p l (Some nm) s end.
Proof.
  intros Hf Ha Hcn Hnm (n & Hn & <-) Hlen Hfit.
  assert (exists r h, try_get_path (nodeid n) (Some nm) false false f = Some (r, set_heap h f) /\
    match r with inl e => e = - ENOMEM \/ e = - ENOENT /\ (forall l, ~ full_path (nodes f) p l) | inr (s, _) => exists l, spells f p l (Some nm) s end) as (r & h & E & Hr).
  { unfold try_get_path. destruct (malloc_eq f) as (ok & h1 & E1). rewrite (bind_step _ _ _ _ _ E1). destruct ok; cbn [negb]; [|eexists _, _; split; [done|by left]].
    set (b0 := PathBuf _ _). destruct (add_name_ok (set_heap h1 f) b0 [] nm new_buf_ok) as (r & h2 & E2 & Hr); [cbn; lia|]. cbv zeta. rewrite (bind_step _ _ _ _ _ E2).
    destruct r as [b1|]; [|eexists _, h2; split; [done|by left]]. rewrite bind_ret. set (f2 := set_heap h2 _). assert (tree_ok f2) as Hf2 by by apply (tree_inv_frame _ _ _ _ f).
    rewrite (bind_step _ _ _ _ _ (get_node_ok ∅ ∅ ∅ _ f2 p n Hf2 Hn (not_elem_of_empty p))), bind_get. pose proof (tree_sound f Hf Ha) as Hs. rewrite app_nil_r in Hr.
    destruct (open_climb_ok (S (size (nodes f2))) f2 p b1 (tail_of (Some nm))) as (r & h & E & Hres); [done|by exists n|done|done| |].
    { intros l e Hse. destruct (segment_ok _ _ _ _ Hs Hse) as (_ & ? & _). cbn. lia. }
    rewrite (bind_step _ _ _ _ _ E). destruct r as [[x q]|b2]; [rewrite bind_ret; eexists _, h; by split|]. eexists _, h. split; [reflexivity|].
    destruct Hres as (l & Hl & Hb2). exists l. split; [done|]. destruct Hl as (e & Hse & _). rewrite (path_at_ok b2 _ Hb2); [done|]. eapply path_string_nonul; [done|done|by apply slash_nonul]. }
  exists r, h. split; [done|]. destruct r as [e|]; [|done]. destruct Hr as [->|?]; [left|by right]. split; [done|].
  by destruct (frugal_or _ _ _ _ _ (frugal_try_get_path (nodeid n) (Some nm) false false) E).
Qed.

(** The path of a file of a directory, and why there may be none. *)
Definition place_path f (d : Z) (nm s : bytes) : Prop := exists p l, ptr_in (nodes f) p d /\ spells f p l (Some nm) s.

Definition unreachable f (d x : Z) : Prop := exists p, ptr_in (nodes f) p d /\ no_path f p x.

(** The same nodes but for their locks, and not more memory. *)
Definition eases f f' : Prop := lock_only (nodes f) (nodes f') /\ (short_memory f' -> short_memory f).

Lemma eases_path f f' d nm s : eases f f' -> place_path f' d nm s -> place_path f d nm s.
Proof.
  intros [Hlo _] (p & l & Hp & Hl & ->). assert (lock_only (nodes f') (nodes f)) as Hlo' by by symmetry. exists p, l. split; [by eapply ptr_lock_only|].
  split; [by eapply full_path_lock_only|]. by rewrite (path_string_lock_only _ _ l _ Hlo).
Qed.

Lemma eases_no_path f f' p x : eases f f' -> no_path f' p x -> no_path f p x.
Proof. intros [Hlo Hm] [[-> ?]|[-> Hn]]; [left; auto|right]. split; [done|]. intros l Hl. apply (Hn l). by eapply full_path_lock_only. Qed.

Lemma eases_unreachable f f' d x : eases f f' -> unreachable f' d x -> unreachable f d x.
Proof. intros He (p & Hp & Hn). exists p. split; [eapply ptr_lock_only; [symmetry; apply He|done]|by eapply eases_no_path]. Qed.

(** A node with this name has been opened. *)
Definition open_file f (d : Z) (nm : bytes) : Prop := exists p n, nodes f !! p = Some n /\ key_in (nodes f) p = Some (d, nm) /\ 0 < open_count n.

Lemma is_open_ok f d nm : tree_ok f -> exists v, is_open d nm f = Some (v, f) /\ (v = true <-> open_file f d nm).
Proof.
  intros Hf. unfold is_open. destruct (find_name_abs f d nm Hf) as (r & E & Hr). rewrite (bind_step _ _ _ _ _ E). destruct r as [p|].
  - destruct Hr as (n & Hn & Hk). rewrite (bind_step _ _ _ _ _ (node_at_eq _ p n Hn)). eexists. split; [done|]. rewrite Z.ltb_lt. split; [by exists p, n|].
    intros (q & m & Hm & Hkm & Ho). assert (nodeid m = nodeid n) as Ei by (eapply (place_inj f); [done|by apply abs_Some, Hm; apply tree_num|by apply abs_Some, Hn; apply tree_num|done..]).
    assert (q = p) as -> by by apply (tree_num f Hf q p m n). congruence.
  - exists false. split; [done|]. split; [done|]. intros (q & m & Hm & Hkm & _). exfalso. by apply (Hr (nodeid m) (entry_of (nodes f) q m)); [apply abs_Some, Hm; apply tree_num|].
Qed.

Lemma open_file_eases f f' d nm : eases f f' -> open_file f d nm <-> open_file f' d nm.
Proof.
  intros [Hlo _]. assert (forall N N' : gmap Z node, lock_only N N' -> (exists p n, N !! p = Some n /\ key_in N p = Some (d, nm) /\ 0 < open_count n) ->
    exists p n, N' !! p = Some n /\ key_in N' p = Some (d, nm) /\ 0 < open_count n) as Hgo.
  { intros N N' E (p & n & Hn & Hk & Ho). destruct (lock_only_lookup N N' p n E Hn) as [v Hv]. exists p, (with_treelock v n). by rewrite (key_lock_only _ _ p E). }
  split; apply Hgo; [done|by symmetry].
Qed.

End Free.

(** ** Hiding a file *)

Section Hide.
Context {OS M X : Type} `{FdOps OS} `{DevOps OS} `{!FdLaws OS} `{!DevLaws OS} `{NodeMemLaws M}.
Context (fs : fuse_operations OS X).
Implicit Types (b : lib M X) (f : fuse M) (G : list hold) (R : option Z) (A : tree) (x : X).

Abbreviation IO := (ST (LL OS (lib M X))).

(** *** What the file system answers *)

(** The file system in the state [x], called with [o] in some context and on some
    machine, answers [r] and is in the state [x'].  A callback that is missing
    answers [missing]. *)
Definition fs_says {B} (o : option (fsop OS X B)) (missing : B) x (r : B) x' : Prop :=
  match o with Some call => exists c w w', call c (x, w) = (r, (x', w')) | None => r = missing /\ x' = x end.

Lemma wp_fs_op R {T B} (o : option T) (call : T -> fsop OS X B) missing b G Q : held b G ->
  (forall r b', same_lib b b' -> held b' G -> fs_says (call <$> o) missing (fsx b) r (fsx b') -> Q r b') -> wp R (fs_op o call missing) Q b.
Proof.
  intros Hb HQ. apply wp_bind, (wp_fs_enter _ _ b G Hb). destruct o as [t|]; [|apply wp_ret; by apply HQ]. destruct (hd_ctx _ _ Hb) as [c Hc].
  intros s Es _. unfold fs_call. rewrite bind_get, Es, Hc. unfold of_option. rewrite bind_ret. destruct (call t c (fsx b, mach s)) as [a [x w]] eqn:E. eexists a, _. split; [reflexivity|].
  split; [by apply quiet_same|]. cbn. rewrite Es. assert (same_lib b (with_fsx x b)) as S by by split. apply HQ; [done|by eapply same_held|]. by exists c, (mach s), w.
Qed.

(** Code that does not ask it. *)
Definition keeps_fsx {B} (m : IO B) : Prop := forall s a s', m s = Some (a, s') -> fsx (user s') = fsx (user s).

Lemma keeps_ret {B} (a : B) : keeps_fsx (mret a).
Proof. by intros s x s' [= <- <-]. Qed.

Lemma keeps_bind {B C} (m : IO B) (k : B -> IO C) : keeps_fsx m -> (forall a, keeps_fsx (k a)) -> keeps_fsx (m ≫= k).
Proof. intros Hm Hk s a s' (x & s1 & E1 & E2)%bind_Some. by rewrite (Hk x s1 a s' E2), (Hm s x s1 E1). Qed.

Lemma keeps_fuse {B} (m : ST (fuse M) B) : keeps_fsx (on_fuse m).
Proof. intros s a s'. unfold on_fuse. by destruct (m _) as [[? ?]|]; [intros [= <- <-]|]. Qed.

Lemma keeps_get_req r : keeps_fsx (get_req r).
Proof. intros s a s'. unfold get_req. rewrite bind_get. unfold of_option. by destruct (_ !! _); [intros [= <- <-]|]. Qed.

Lemma keeps_put_req r q : keeps_fsx (put_req r q).
Proof. by intros s a s' [= <- <-]. Qed.

Lemma keeps_get_lib : keeps_fsx get_lib.
Proof. by intros s a s' [= <- <-]. Qed.

Lemma keeps_config {B} (k : fuse_config -> IO B) : (forall c, keeps_fsx (k c)) -> keeps_fsx (c ← config; k c).
Proof. intros Hk. apply keeps_bind; [|done]. apply keeps_bind; [apply keeps_get_lib|]. intros. apply keeps_ret. Qed.

Lemma keeps_interrupt_func call r func data : (forall fn, keeps_fsx (call fn r data)) -> keeps_fsx (fuse_req_interrupt_func call r func data).
Proof.
  intros Hc. apply keeps_bind; [apply keeps_get_req|]. intros q. apply keeps_bind; [apply keeps_put_req|]. intros _. destruct (interrupted q); [|apply keeps_ret].
  destruct func; [apply Hc|apply keeps_ret].
Qed.

Lemma keeps_intr_call r data fn : keeps_fsx (fuse_interrupt fn r data).
Proof. apply keeps_bind; [apply keeps_get_req|]. intros q. destruct (_ && _); [apply keeps_ret|]. by intros s a s' [=]. Qed.

Lemma keeps_intr_begin r : keeps_fsx (fuse_prepare_interrupt r).
Proof.
  apply keeps_config. intros c. destruct (intr c); [|apply keeps_ret]. apply keeps_interrupt_func, keeps_intr_call.
Qed.

Lemma keeps_intr_end r : keeps_fsx (fuse_finish_interrupt r).
Proof.
  apply keeps_config. intros c. destruct (intr c); [|apply keeps_ret]. apply keeps_interrupt_func, keeps_intr_call.
Qed.

Lemma keeps_prepare r : keeps_fsx (req_fuse_prepare r).
Proof.
  apply keeps_bind; [apply keeps_get_req|]. intros q. apply keeps_bind; [apply keeps_get_lib|]. intros b. destruct (context b); [by intros s a s' [= <- <-]|].
  apply keeps_bind; [|intros ok; apply keeps_bind; [|intros _; by intros s a s' [= <- <-]]].
  - intros s a s'. unfold LowLevel.malloc. by destruct (LowLevel.heap s); intros [= <- <-].
  - intros s a s' E. destruct ok; [by injection E as <- <-|done].
Qed.

Lemma wp_keeps R {B} (m : IO B) Q b : keeps_fsx m -> wp R m Q b -> wp R m (fun a b' => Q a b' /\ fsx b' = fsx b) b.
Proof. intros Hk Hm s Es HR. destruct (Hm s Es HR) as (a & s' & E & Hq & HQ). exists a, s'. split; [done|]. split; [done|]. split; [done|]. by rewrite (Hk s a s' E), Es. Qed.

(** Idle code that does not ask it. *)
Lemma wp_still R {B} (m : IO B) (Q : B -> lib M X -> Prop) b G : idle R m -> keeps_fsx m -> held b G ->
  (forall a b', same_lib b b' -> fsx b' = fsx b -> held b' G -> Q a b') -> wp R m Q b.
Proof.
  intros Hm Hk Hb HQ. eapply wp_mono; [apply wp_keeps; [exact Hk|apply Hm; apply Hb]|]. intros a b' [S E]. apply HQ; [done|done|by eapply same_held].
Qed.

(** *** The search for a name *)

(** The paths of hidden files in the directory at [p] are not longer than
    4 GiB. *)
Definition roomy b (p : Z) : Prop := forall i c, fits (nodes (fz b)) p (tail_of (Some (hidden_string i c))).

(** The file [old] of [d] may get the name [nn]: a hidden name made of its number
    that no file of the directory has. *)
Definition hides A (d : Z) (old nn : bytes) : Prop :=
  vacant A d nn /\ nonul nn /\ exists i e c, A !! i = Some e /\ place e = Some (d, old) /\ nn = hidden_string i c.

Definition placed A (d : Z) (nm : bytes) : Prop := exists i e, A !! i = Some e /\ place e = Some (d, nm).

(** The attributes of the file at a path. *)
Definition says_attr (path : bytes) x (r : Z * stat) x' : Prop := fs_says ((fun call => call (Some path) None) <$> o_getattr fs) (- ENOSYS, stat0) x r x'.

(** The search: hidden names are tried on the file system, until it says of one
    that there is no such file.  It ends without one if there is no path, at an
    error, or after as many files that are there. *)
Inductive hunt (free : bytes -> bytes -> Prop) (stuck : Prop) : nat -> X -> option (bytes * bytes) -> X -> Prop :=
  | hunt_over x : hunt free stuck 0 x None x
  | hunt_stuck n x : stuck -> hunt free stuck (S n) x None x
  | hunt_found n x nn np st x' : free nn np -> says_attr np x (- ENOENT, st) x' -> hunt free stuck (S n) x (Some (nn, np)) x'
  | hunt_error n x nn np e st x' : free nn np -> says_attr np x (e, st) x' -> e <> 0 -> e <> - ENOENT -> hunt free stuck (S n) x None x'
  | hunt_used n x nn np st x1 r x' : free nn np -> says_attr np x (0, st) x1 -> hunt free stuck n x1 r x' -> hunt free stuck (S n) x r x'.

Lemma hunt_mono (free free' : bytes -> bytes -> Prop) (stuck stuck' : Prop) n x r x' :
  (forall nn np, free nn np -> free' nn np) -> (stuck -> stuck') -> hunt free stuck n x r x' -> hunt free' stuck' n x r x'.
Proof.
  intros Hf Hs. induction 1; [apply hunt_over|by apply hunt_stuck, Hs|eapply hunt_found; eauto|eapply hunt_error; eauto|eapply hunt_used; eauto].
Qed.

(** For the file [old] of the directory [d]. *)
Definition hunted f (d : Z) (old : bytes) : nat -> X -> option (bytes * bytes) -> X -> Prop :=
  hunt (fun nn np => hides (abs f) d old nn /\ place_path f d nn np) (exists e, unreachable f d e).

Lemma hunted_eases f f' d old n x r x' : abs f' = abs f -> eases f f' -> hunted f' d old n x r x' -> hunted f d old n x r x'.
Proof.
  intros EA He. apply hunt_mono; [intros nn np [Hh Hp]; rewrite <- EA; split; [done|by eapply eases_path]|]. intros [e Hu]. exists e. by eapply eases_unreachable.
Qed.

Lemma hidden_turn_ok b G p d old : held b G -> ptr_in (nodes (fz b)) p d -> roomy b p -> placed (abs (fz b)) d old ->
  exists a f', hidden_turn d old (fz b) = Some (a, f') /\ held (with_fz f' b) G /\ like b (with_fz f' b) /\ eases (fz b) f' /\
    match a with
    | Some (nn, np) => hides (abs (fz b)) d old nn /\ place_path (fz b) d nn np
    | None => exists e, unreachable (fz b) d e
    end.
Proof.
  intros Hb Hp Hroom (i0 & e0 & He0 & Hp0). pose proof (s_tree _ _ (hd_sys _ _ Hb)) as Hf. unfold hidden_turn. destruct (find_name_abs (fz b) d old Hf) as (r & E & Hr). rewrite (bind_step _ _ _ _ _ E).
  destruct r as [q|]; [|by destruct (Hr i0 e0)]. destruct Hr as (n & Hn & Hk). rewrite (bind_step _ _ _ _ _ (node_at_eq _ q n Hn)), bind_get.
  destruct (free_hidden_ok (nodeid n) d (fz b) Hf) as (c & E2 & Hv). rewrite (bind_step _ _ _ _ _ E2). set (nn := hidden_string (nodeid n) c) in *. set (f1 := set_hidectr c (fz b)).
  assert (tree_ok f1) as Hf1 by by apply (tree_inv_frame _ _ _ _ (fz b)).
  destruct (open_path_ok f1 p d nn Hf1) as (a & h & E3 & Ha); [apply (s_acyclic _ _ (hd_sys _ _ Hb))|apply (s_names _ _ (hd_sys _ _ Hb))|apply hidden_nonul|done|by vm_compute|apply Hroom|].
  rewrite (bind_step _ _ _ _ _ E3). pose proof (frugal_short _ _ _ _ _ (frugal_try_get_path d (Some nn) false false) E3) as Hsh.
  eexists _, (set_heap h f1). split; [reflexivity|]. split; [by apply (held_detail b G); [|split]|]. split; [by split|]. split; [by split|]. destruct a as [e|[s w]]; cbn in Ha |- *.
  - exists e, p. split; [done|]. exact Ha.
  - destruct Ha as [l Hl]. split; [|exists p, l; split; [done|exact Hl]]. split; [done|]. split; [apply hidden_nonul|]. exists (nodeid n), (entry_of (nodes (fz b)) q n), c.
    split; [by apply abs_Some, Hn; apply tree_num|done].
Qed.

Lemma roomy_like b b' p : like b b' -> roomy b p -> roomy b' p.
Proof.
  intros Hl Hr i c l e Hse. rewrite (path_string_lock_only _ _ l _ (lk_nodes _ _ Hl)). apply (Hr i c l e). eapply segment_lock_only, Hse. symmetry. apply Hl.
Qed.

Lemma like_eases b b' : like b b' -> (short_memory (fz b') -> short_memory (fz b)) -> eases (fz b) (fz b').
Proof. intros Hl Hs. split; [apply Hl|done]. Qed.

Lemma eases_trans f1 f2 f3 : eases f1 f2 -> eases f2 f3 -> eases f1 f3.
Proof. intros [L1 S1] [L2 S2]. split; [by transitivity (nodes f2)|auto]. Qed.

Lemma wp_hidden_tries R n b G p d old : held b G -> ptr_in (nodes (fz b)) p d -> roomy b p -> placed (abs (fz b)) d old ->
  wp R (hidden_tries fs n d old : IO (option (bytes * bytes))) (fun a b' => held b' G /\ like b b' /\ hunted (fz b) d old n (fsx b) a (fsx b')) b.
Proof.
  revert b. induction n as [|n IH]; intros b Hb Hp Hr Hpl; cbn [hidden_tries]; [apply wp_ret; split; [done|]; split; [done|apply hunt_over]|]. apply wp_bind.
  destruct (hidden_turn_ok b G p d old Hb Hp Hr Hpl) as (a & f' & E & Hb1 & Hl1 & He1 & Ha). eapply wp_fuse; [exact E|]. set (b1 := with_fz f' b) in *.
  destruct a as [[nn np]|]; [|apply wp_ret; split; [done|]; split; [done|by apply hunt_stuck]]. apply wp_bind, (wp_fs_op R _ _ _ b1 G); [done|]. intros [e st] b2 S2 Hb2 Hs.
  assert (like b b2) as Hl2 by (transitivity b1; [done|by apply same_like]). cbn [fst]. destruct (Z.eqb_spec e (- ENOENT)) as [->|He].
  { apply wp_ret. split; [done|]. split; [done|]. by eapply hunt_found. }
  destruct (Z.eqb_spec e 0) as [->|He0]; [|apply wp_ret; split; [done|]; split; [done|]; by eapply hunt_error].
  pose proof (like_abs b b2 G Hb Hl2) as EA. eapply wp_mono; [apply IH; [done|by eapply like_ptr|by eapply roomy_like|by rewrite EA]|]. intros a b3 (Hb3 & Hl3 & Hh).
  split; [done|]. split; [by transitivity b2|]. eapply hunt_used; [exact Ha|exact Hs|]. eapply hunted_eases; [exact EA| |exact Hh]. rewrite (sl_fz _ _ S2). exact He1.
Qed.

(** The file at a place is locked for writing. *)
Definition guard b G (d : Z) (nm : bytes) : Prop :=
  forall i e, abs (fz b) !! i = Some e -> place e = Some (d, nm) -> exists h w, h ∈ G /\ h_write h = Some w /\ ptr_in (nodes (fz b)) w i.

Lemma guard_near b b' G G0 d nm : held b G0 -> near b b' -> guard b G d nm -> guard b' G d nm.
Proof.
  intros Hb (Ha & _ & Hst) Hg i e He Hp. rewrite Ha in He. destruct (Hg i e He Hp) as (h & w & ? & ? & Hw). exists h, w. split; [done|]. split; [done|]. by apply Hst.
Qed.

Lemma write_guard b b' G0 p l w d nm G : held b G0 -> write_node (fz b) d (Some nm) true w -> like b b' -> Hold p l w ∈ G -> guard b' G d nm.
Proof.
  intros Hb Hw Hl HG i e He Hp. pose proof (s_tree _ _ (hd_sys _ _ Hb)) as Hf. rewrite (like_abs b b' G0 Hb Hl) in He. destruct w as [q|]; cbn in Hw.
  - destruct Hw as (_ & s & [= <-] & Hk). destruct (key_in_inv _ _ _ _ Hk) as (n & _ & _ & Hn & _). exists (Hold p l (Some q)), q. split; [done|]. split; [done|].
    apply (like_ptr b b'); [done|]. exists n. split; [done|]. eapply (place_inj (fz b) (nodeid n) i); [done|by apply abs_Some, Hn; apply tree_num|done|exact Hk|done].
  - destruct (Hw eq_refl) as (s & [= <-] & Hv). by destruct (Hv i e He).
Qed.

(** The file system moves a file, and then the tree follows: [err] is the result of
    both. *)
Definition renamed_by (o : option (fsop OS X Z)) (rm : bool) A (move : op) x (err : Z) A' x' : Prop :=
  exists e, fs_says o (- ENOSYS) x e x' /\ (e <> 0 /\ err = e /\ A' = A \/ e = 0 /\ spec rm A move (RCode err) A').

Definition call_rename (old new : bytes) (flags : Z) : option (fsop OS X Z) := (fun call => call (Some old) (Some new) flags) <$> o_rename fs.

(** The file [old] of [d], with the path [path], is hidden; the result is EBUSY if
    the search found no name. *)
Definition hidden_by f (d : Z) (old path : bytes) x (err : Z) A' x' : Prop :=
  exists r x1, hunted f d old 10 x r x1 /\
    match r with
    | None => err = - EBUSY /\ A' = abs f /\ x' = x1
    | Some (nn, np) => renamed_by (call_rename path np 0) (remembers f) (abs f) (ORename d old d nn true) x1 err A' x'
    end.

Lemma hidden_eases f f' d old path x err A' x' : abs f' = abs f -> remembers f' = remembers f -> eases f f' ->
  hidden_by f' d old path x err A' x' -> hidden_by f d old path x err A' x'.
Proof. intros EA ER He (r & x1 & Hh & Hr). rewrite EA, ER in Hr. exists r, x1. split; [by eapply hunted_eases|done]. Qed.

(** The names of a search are free. *)
Lemma hunted_free f d old n x r x' : hunted f d old n x r x' -> forall nn np, r = Some (nn, np) -> hides (abs f) d old nn.
Proof.
  unfold hunted. intros Hh. induction Hh as [y|n y Hs|n y n1 p1 st y' [Hf _] _|n y n1 p1 e st y' _ _ _ _|n y n1 p1 st y1 r y' _ _ _ IH]; intros nn np E; [done|done|by injection E as -> ->|done|by apply IH in E].
Qed.

(** A file that is hidden has one of them. *)
Lemma hidden_zero f d old path x A' x' : hidden_by f d old path x 0 A' x' -> exists nn, hides (abs f) d old nn /\ spec (remembers f) (abs f) (ORename d old d nn true) (RCode 0) A'.
Proof.
  intros ([[nn np]|] & x1 & Hh & Hr); [|by destruct Hr]. destruct Hr as (e & _ & [(? & <- & _)|(_ & Hs)]); [done|]. exists nn. split; [by eapply hunted_free|done].
Qed.

Lemma spec_rename_stays rm A od on nd nn h r A' i : spec rm A (ORename od on nd nn h) r A' -> is_Some (A !! i) -> is_Some (A' !! i).
Proof.
  assert (forall j k B, is_Some (B !! i) -> is_Some (set_place j k B !! i)) as Hset.
  { intros j k B Hi. unfold set_place. destruct (B !! j) eqn:Ej; [|done]. rewrite lookup_insert. by case_decide. }
  inversion 1 as [| | | | | | |? ? ? ? ? ?|? ? ? ? ? ? ? ?|? ? ? ? ? ? B ? Hd ?|? ? ? ? ? ? B ? Hd ?| | |]; subst; try done; intros Hi; apply Hset;
    (destruct Hd as [[_ ->]|(j & e & _ & _ & ->)]; [done|rewrite lookup_insert; by case_decide]).
Qed.

Lemma wp_hide R b G p path d old : held b G -> ptr_in (nodes (fz b)) p d -> roomy b p -> holds (abs (fz b)) d -> nonul old -> guard b G d old ->
  at_place (abs (fz b)) d old (fun _ e => count e <> 0) -> placed (abs (fz b)) d old ->
  wp R (hide_node fs (Some path) d old : IO Z)
    (fun err b' => held b' G /\ others b b' /\ stay b b' /\ hidden_by (fz b) d old path (fsx b) err (abs (fz b')) (fsx b')) b.
Proof.
  intros Hb Hp Hr Hd Hold Hg Hc Hpl. unfold hide_node, hidden_name. apply wp_bind. eapply wp_mono; [by apply (wp_hidden_tries R 10 b G p)|]. intros a b1 (Hb1 & Hl1 & Ha).
  pose proof (like_abs b b1 G Hb Hl1) as EA. assert (stay b b1) as St1 by (intros q j; by apply (like_ptr b)). destruct a as [[nn np]|].
  2: { apply wp_ret. split; [done|]. split; [by apply like_others|]. split; [done|]. by exists None, (fsx b1). }
  pose proof (hunted_free _ _ _ _ _ _ _ Ha nn np eq_refl) as (Hv & Hnn & i0 & e0 & c0 & He0 & Hp0 & _). apply wp_bind, (wp_fs_op R _ _ _ b1 G); [done|]. intros err b2 S2 Hb2 Hs.
  assert (others b b2) as Ho2 by (transitivity b1; [by apply like_others|by apply lib_others]).
  assert (abs (fz b2) = abs (fz b)) as EA2 by (by rewrite (sl_fz _ _ S2)). assert (stay b b2) as St2 by (intros q j; rewrite (sl_fz _ _ S2); apply St1).
  destruct (Z.eqb_spec err 0) as [->|Herr].
  2: { apply wp_ret. split; [done|]. split; [done|]. split; [done|]. exists (Some (nn, np)), (fsx b1). split; [done|]. exists err. split; [done|by left]. }
  assert (may b2 G (ORename d old d nn true)) as Hm.
  { split; [|split].
    - rewrite EA2. split; [done|]. split; [done|]. split; [intros [= ->]; by apply (Hv i0 e0)|]. split; [|intros i e He Hpe; by destruct (Hv i e He)].
      intros i e He Hpe. split; [by apply (Hc i e)|]. eapply acyclic_up; [apply (s_acyclic _ _ (hd_sys _ _ Hb))|done|done].
    - intros i e k He Hk Hin. cbn [places] in Hin. apply elem_of_cons in Hin as [-> | ->%list_elem_of_singleton].
      + rewrite EA2 in He. destruct (Hg i e He Hk) as (h & w & ? & ? & Hw). exists h, w. split; [done|]. split; [done|]. by apply St2.
      + exfalso. rewrite EA2 in He. by apply (Hv i e He).
    - intros k [-> | ->%list_elem_of_singleton]%elem_of_cons; done. }
  destruct (tree_step b2 G _ Hb2 Hm) as (r & f' & E & Hsp & Hb3 & Ho3 & Hp3). cbn [run_op] in E. apply bind_Some in E as (z & f2 & Ex & E). injection E as <- <-.
  eapply wp_fuse; [exact Ex|]. split; [done|]. split; [by transitivity b2|]. rewrite EA2, (others_rem b b2 Ho2) in Hsp. split.
  - intros q j Hq. apply Hp3; [by apply St2|]. eapply spec_rename_stays; [exact Hsp|]. by eapply ptr_abs_some.
  - exists (Some (nn, np)), (fsx b1). split; [done|]. exists 0. split; [exact Hs|by right].
Qed.

(** ** Removing files *)

(** The kernel may remove the file [nm] of [d]: it has looked it up, and the
    directory. *)
Definition removable b (d : Z) (nm : bytes) : Prop :=
  allowed (rem b) (abs (fz b)) (ORemove d nm) /\ nonul nm /\ exists p, request_ok (fz b) p d (Some nm) true /\ roomy b p.

Lemma wp_get_wrlock R b p i nm Q : held b [] -> request_ok (fz b) p i (Some nm) true ->
  (forall e b', no_path (fz b) p e -> held b' [] -> like b b' -> spends b b' -> Q (e, None, None) b') ->
  (forall s w l b', held b' [Hold p l w] -> like b b' -> spends b b' -> write_node (fz b) i (Some nm) true w -> spells (fz b) p l (Some nm) s -> Q (0, Some s, w) b') ->
  wp R (get_path_wrlock_ (OS := OS) i nm) Q b.
Proof.
  intros Hb Hr HE HQ. destruct (take_path b [] p i (Some nm) true Hb Hr) as (r & f' & E & Hl & Hsh & Hres); [done| |].
  { intros [(l & x & m & _ & Hm & Hneg)|(_ & w & m & s & _ & Hm & _ & Hne)]; pose proof (held_zero b Hb _ _ Hm); lia. }
  eapply wp_bind, wp_fuse; [exact E|]. destruct r as [x|[s w]]; apply wp_ret.
  - destruct Hres as [? ?]. by apply HE.
  - destruct Hres as (Hw & l & Hfp & Hs & Hb' & _). by eapply HQ.
Qed.

(** The tree after a request with the result [err]. *)
Definition remove_effect (rm : bool) A (d : Z) (nm : bytes) (err : Z) A' : Prop := err <> 0 /\ A' = A \/ err = 0 /\ spec rm A (ORemove d nm) RDone A'.

(** The file system removes a file, with the result [err], and then the tree
    follows. *)
Definition removed_by (o : option (fsop OS X Z)) f (d : Z) (nm : bytes) x (err : Z) A' x' : Prop :=
  fs_says o (- ENOSYS) x err x' /\ remove_effect (remembers f) (abs f) d nm err A'.

(** A file is hidden rather than removed: somebody has it open, and the
    configuration allows it. *)
Definition hidden_first f (d : Z) (nm : bytes) : Prop := hard_remove (conf f) = false /\ open_file f d nm.

(** The library is in the state [f] and the file system in the state [x]; the
    request has the result [err], and the tree and the state of the file system
    are then [A'] and [x']. *)
Definition unlink_effect f x (d : Z) (nm : bytes) (err : Z) A' x' : Prop :=
  unreachable f d err /\ A' = abs f /\ x' = x \/
  exists path, place_path f d nm path /\
    (hidden_first f d nm /\ hidden_by f d nm path x err A' x' \/
     ~ hidden_first f d nm /\ removed_by ((fun call => call (Some path)) <$> o_unlink fs) f d nm x err A' x').

Definition rmdir_effect f x (d : Z) (nm : bytes) (err : Z) A' x' : Prop :=
  unreachable f d err /\ A' = abs f /\ x' = x \/
  exists path, place_path f d nm path /\ removed_by ((fun call => call (Some path)) <$> o_rmdir fs) f d nm x err A' x'.

(** The request is answered with a result, and has the effect on the tree and on
    the file system. *)
Definition result_post b (P : Z -> tree -> X -> Prop) (msg : bytes) b' : Prop :=
  held b' [] /\ others b b' /\ exists err, is_reply msg err [] /\ P err (abs (fz b')) (fsx b').

Lemma replies_result r b0 (P : Z -> tree -> X -> Prop) err b : held b [] -> others b0 b -> P err (abs (fz b)) (fsx b) ->
  replies r (reply_err r err : IO unit) (fun _ msg b' => result_post b0 P msg b') b.
Proof. intros Hb Ho HP. apply replies_err. intros msg Hm. rewrite Z.opp_involutive in Hm. split; [done|]. split; [done|]. by exists err. Qed.

Lemma spec_remove_stays rm A d nm r A' i : spec rm A (ORemove d nm) r A' -> is_Some (A !! i) -> is_Some (A' !! i).
Proof. inversion 1 as [| | | | | |? ? ? Hd| | | | | | |]; subst. intros Hi. destruct Hd as [[_ ->]|(j & e & _ & _ & ->)]; [done|]. rewrite lookup_insert. by case_decide. Qed.

(** The node of a removed file, by a request that has locked it. *)
Lemma wp_remove R b G d nm : held b G -> allowed (rem b) (abs (fz b)) (ORemove d nm) -> nonul nm -> guard b G d nm ->
  wp R (on_fuse (OS := OS) (remove_node d nm)) (fun _ b' => held b' G /\ others b b' /\ stay b b' /\ spec (rem b) (abs (fz b)) (ORemove d nm) RDone (abs (fz b'))) b.
Proof.
  intros Hb Ha Hnm Hg. assert (may b G (ORemove d nm)) as Hm.
  { split; [done|]. split; [|by intros k ->%list_elem_of_singleton]. intros i e k He Hk ->%list_elem_of_singleton. by apply (Hg i e). }
  destruct (tree_step b G _ Hb Hm) as (r & f' & E & Hsp & Hb' & Ho & Hp). cbn [run_op] in E. apply bind_Some in E as ([] & f2 & Ex & E). injection E as <- <-.
  eapply wp_fuse; [exact Ex|]. split; [done|]. split; [done|]. split; [|done]. intros q j Hq. apply Hp; [done|]. eapply spec_remove_stays; [exact Hsp|]. by eapply ptr_abs_some.
Qed.

Lemma guard_lib b b' G d nm : same_lib b b' -> guard b G d nm -> guard b' G d nm.
Proof. intros Hs. unfold guard. by rewrite (sl_fz _ _ Hs). Qed.

(** The call of the file system for a file that is removed at once. *)
Lemma wp_remove_call R {T} (o : option T) (call : T -> fsop OS X Z) b G d nm : held b G -> allowed (rem b) (abs (fz b)) (ORemove d nm) -> nonul nm -> guard b G d nm ->
  wp R (err ← fs_op o call (- ENOSYS); _ ← (if err =? 0 then on_fuse (remove_node d nm) else mret tt); mret err)
    (fun err b' => held b' G /\ others b b' /\ stay b b' /\ removed_by (call <$> o) (fz b) d nm (fsx b) err (abs (fz b')) (fsx b')) b.
Proof.
  intros Hb Ha Hnm Hg. apply wp_bind, (wp_fs_op R o call _ b G); [done|]. intros err b1 S1 Hb1 Hs. assert (rem b1 = rem b /\ abs (fz b1) = abs (fz b)) as [ER EA] by (unfold rem; by rewrite (sl_fz _ _ S1)).
  assert (stay b b1) as St by (intros q j; by rewrite (sl_fz _ _ S1)). apply wp_bind. destruct (Z.eqb_spec err 0) as [->|Herr].
  - eapply wp_mono; [apply wp_keeps; [apply keeps_fuse|apply (wp_remove _ b1 G d nm); [done|by rewrite ER, EA|done|by eapply guard_lib]]|]. intros _ b2 [(Hb2 & Ho2 & St2 & Hsp) Ex]. apply wp_ret. rewrite ER, EA in Hsp.
    split; [done|]. split; [transitivity b1; [by apply lib_others|done]|]. split; [intros q j Hq; by apply St2, St|]. rewrite Ex. split; [done|by right].
  - apply wp_ret, wp_ret. split; [done|]. split; [by apply lib_others|]. split; [done|]. split; [done|]. left. by rewrite EA.
Qed.

(** The last part: the path is released. *)
Lemma wp_unlock_result R G p d l w err (P : Z -> tree -> X -> Prop) b0 b : held b (Hold p l w :: G) -> ptr_in (nodes (fz b)) p d -> others b0 b -> P err (abs (fz b)) (fsx b) ->
  wp R (_ ← on_fuse (OS := OS) (free_path_wrlock d w); mret err) (fun err b' => held b' G /\ others b0 b' /\ P err (abs (fz b')) (fsx b')) b.
Proof.
  intros Hb Hp Ho HP. apply wp_bind. eapply wp_mono; [apply wp_keeps; [apply keeps_fuse|by apply (wp_free_wrlock _ G p d l w b)]|]. intros _ b' [[Hb' Hl] Ex]. apply wp_ret. split; [done|].
  split; [transitivity b; [done|by apply like_others]|]. by rewrite (like_abs b b' _ Hb Hl), Ex.
Qed.

(** What both handlers do around it; [m] is the part between. *)
Lemma remove_frame r d nm b (m : option bytes -> option Z -> IO Z) P : held b [] -> removable b d nm ->
  (forall err, unreachable (fz b) d err -> P err (abs (fz b)) (fsx b)) ->
  (forall b1 path p l w, held b1 [Hold p l w] -> like b b1 -> spends b b1 -> guard b1 [Hold p l w] d nm -> ptr_in (nodes (fz b1)) p d -> roomy b1 p -> place_path (fz b) d nm path ->
     wp (Some r) (m (Some path) w) (fun err b2 => held b2 [] /\ others b1 b2 /\ P err (abs (fz b2)) (fsx b2)) b1) ->
  replies r (rr ← get_path_wrlock_ d nm;
    let '(err, path, wnode) := rr in
    err ← (if err =? 0 then m path wnode else mret err);
    reply_err r err) (fun _ msg b' => result_post b P msg b') b.
Proof.
  intros Hb (Ha & Hnm & p & Hr & Hroom) HE Hm. pose proof (request_ptr _ _ _ _ _ Hr) as Hp. apply replies_bind, (wp_get_wrlock _ b p); [done|done|..].
  { intros e b1 He Hb1 Hl1 [_ Ex]. pose proof (no_path_neg _ _ _ He) as [He0 _]. assert (e <> 0) as Hne by lia. apply replies_bind. rewrite (proj2 (Z.eqb_neq _ _) Hne).
    apply wp_ret, replies_result; [done|by apply like_others|]. rewrite (like_abs b b1 [] Hb Hl1), Ex. apply HE. by exists p. }
  intros s w l b1 Hb1 Hl1 Hsp Hw Hspl. cbn [Z.eqb]. apply replies_bind. pose proof (like_ptr b b1 p d Hl1 Hp) as Hp1.
  eapply wp_mono; [apply (Hm b1 s p l w Hb1 Hl1 Hsp); [|done|by eapply roomy_like|by exists p, l]|].
  - eapply (write_guard b b1 [] p l w); [done|done|done|left].
  - intros err b2 (Hb2 & Ho2 & HP). apply replies_result; [done|transitivity b1; [by apply like_others|done]|done].
Qed.

Lemma result_prepare r b (P : Z -> tree -> X -> Prop) (m : IO unit) : held b [] ->
  (forall b', held b' [] -> same_lib b b' -> fsx b' = fsx b -> replies r m (fun _ msg b2 => result_post b' P msg b2) b') ->
  replies r (_ ← req_fuse_prepare r; m) (fun _ msg b' => result_post b P msg b') b.
Proof.
  intros Hb Hm. apply replies_bind, (wp_still _ _ _ b []); [apply idle_prepare|apply keeps_prepare|done|]. intros _ b1 S1 Ex Hb1. eapply replies_mono; [by apply Hm|]. intros a msg b2 (Hb2 & Ho & HP).
  split; [done|]. split; [transitivity b1; [by apply lib_others|done]|done].
Qed.

Lemma removable_lib b b' d nm : same_lib b b' -> removable b d nm -> removable b' d nm.
Proof. intros Hs. unfold removable, roomy, rem. by rewrite (sl_fz _ _ Hs). Qed.

Lemma like_allowed b b' G o : held b G -> like b b' -> allowed (rem b) (abs (fz b)) o -> allowed (rem b') (abs (fz b')) o.
Proof. intros Hb Hl. by rewrite (like_abs b b' G Hb Hl), (others_rem b b' (like_others b b' Hl)). Qed.

Lemma rmdir_ok r d nm b : held b [] -> removable b d nm ->
  replies r (fuse_lib_rmdir fs r d nm) (fun _ msg b' => result_post b (rmdir_effect (fz b) (fsx b) d nm) msg b') b.
Proof.
  intros Hb Hrm. apply result_prepare; [done|]. intros b1 Hb1 S1 Ex1. pose proof (removable_lib _ _ _ _ S1 Hrm) as Hrm1. rewrite <- (sl_fz _ _ S1), <- Ex1.
  apply (remove_frame r d nm b1 (fun path wnode => _ ← fuse_prepare_interrupt r; err ← fuse_fs_rmdir fs path; _ ← fuse_finish_interrupt r;
    _ ← (if err =? 0 then on_fuse (remove_node d nm) else mret tt); _ ← on_fuse (free_path_wrlock d wnode); mret err)); [done|done|intros err He; by left|].
  intros b2 path p l w Hb2 Hl2 [_ Ex2] Hg Hp Hroom Hpath. apply wp_bind, (wp_still _ _ _ b2 [Hold p l w]); [apply idle_intr_begin|apply keeps_intr_begin|done|]. intros _ b3 S3 Ex3 Hb3.
  apply wp_bind, (wp_fs_op _ _ _ _ b3 [Hold p l w]); [done|]. intros err b4 S4 Hb4 Hs.
  apply wp_bind, (wp_still _ _ _ b4 [Hold p l w]); [apply idle_intr_end|apply keeps_intr_end|done|]. intros _ b5 S5 Ex5 Hb5. assert (same_lib b2 b5) as S25 by (transitivity b4; [by transitivity b3|done]).
  assert (like b1 b5) as Hl5 by (transitivity b2; [done|by apply same_like]). assert (ptr_in (nodes (fz b5)) p d) as Hp5 by by rewrite (sl_fz _ _ S25). rewrite <- Ex5, Ex3, Ex2 in Hs.
  apply wp_bind. destruct (Z.eqb_spec err 0) as [->|Herr].
  - eapply wp_mono; [apply wp_keeps; [apply keeps_fuse|apply (wp_remove _ b5 _ d nm Hb5); [eapply like_allowed; [exact Hb1|done|apply Hrm1]|apply Hrm1|by eapply guard_lib]]|]. intros _ b6 [(Hb6 & Ho6 & St6 & Hsp) Ex6].
    rewrite (like_abs b1 b5 [] Hb1 Hl5), (others_rem b1 b5 (like_others _ _ Hl5)) in Hsp.
    apply (wp_unlock_result _ [] p d l w 0 (rmdir_effect (fz b1) (fsx b1) d nm)); [done|by apply St6|transitivity b5; [by apply lib_others|done]|]. right. exists path. split; [done|]. rewrite Ex6. split; [done|by right].
  - apply wp_ret, (wp_unlock_result _ [] p d l w err (rmdir_effect (fz b1) (fsx b1) d nm)); [done|done|by apply lib_others|]. right. exists path. split; [done|]. split; [done|left].
    split; [done|by apply (like_abs b1 b5 [])].
Qed.

(** Whether a file is hidden first; [c] says that it is not. *)
Lemma wp_is_open R b G d nm (c : bool) (Q : bool -> lib M X -> Prop) : held b G -> (forall v, (v = true <-> c = false /\ open_file (fz b) d nm) -> Q v b) ->
  wp R (if c then mret false else on_fuse (OS := OS) (is_open d nm)) Q b.
Proof.
  intros Hb HQ. destruct c; [apply wp_ret, HQ; split; [done|by intros []]|]. destruct (is_open_ok (fz b) d nm (s_tree _ _ (hd_sys _ _ Hb))) as (v & E & Hv). eapply wp_fuse; [exact E|].
  replace (with_fz (fz b) b) with b by by destruct b. apply HQ. rewrite Hv. tauto.
Qed.

(** A file the kernel may remove has been looked up. *)
Lemma removable_counted rm A d nm : allowed rm A (ORemove d nm) -> at_place A d nm (fun _ e => count e <> 0).
Proof. intros [_ Hs] i e He Hp. specialize (Hs i e He Hp). unfold spare in Hs. cbn in *. destruct rm; lia. Qed.

Lemma open_placed f d nm : tree_ok f -> open_file f d nm -> placed (abs f) d nm.
Proof. intros Hf (p & n & Hn & Hk & _). exists (nodeid n), (entry_of (nodes f) p n). split; [by apply abs_Some, Hn; apply tree_num|done]. Qed.

Lemma unlink_request_ok r d nm b : held b [] -> removable b d nm ->
  replies r (fuse_lib_unlink fs r d nm) (fun _ msg b' => result_post b (unlink_effect (fz b) (fsx b) d nm) msg b') b.
Proof.
  intros Hb Hrm. apply result_prepare; [done|]. intros b1 Hb1 S1 Ex1. pose proof (removable_lib _ _ _ _ S1 Hrm) as Hrm1. rewrite <- (sl_fz _ _ S1), <- Ex1. set (P := unlink_effect (fz b1) (fsx b1) d nm).
  apply (remove_frame r d nm b1 (fun path wnode => _ ← fuse_prepare_interrupt r; c ← config; hide ← (if hard_remove c then mret false else on_fuse (is_open d nm));
    err ← (if hide : bool then hide_node fs path d nm else err ← fuse_fs_unlink fs path; _ ← (if err =? 0 then on_fuse (remove_node d nm) else mret tt); mret err);
    _ ← fuse_finish_interrupt r; _ ← on_fuse (free_path_wrlock d wnode); mret err)); [done|done|intros err He; by left|].
  intros b2 path p l w Hb2 Hl2 [Hsh2 Ex2] Hg Hp Hroom Hpath. apply wp_bind, (wp_still _ _ _ b2 [Hold p l w]); [apply idle_intr_begin|apply keeps_intr_begin|done|]. intros _ b3 S3 Ex3 Hb3.
  apply wp_bind, wp_config, wp_bind, (wp_is_open _ b3 _ d nm _ _ Hb3). intros hide Hhide.
  assert (like b1 b3) as Hl3 by (transitivity b2; [done|by apply same_like]). pose proof (like_abs b1 b3 [] Hb1 Hl3) as EA3. pose proof (others_rem b1 b3 (like_others _ _ Hl3)) as ER3.
  assert (eases (fz b1) (fz b3)) as He3 by (apply like_eases; [done|by rewrite (sl_fz _ _ S3)]).
  assert (hide = true <-> hidden_first (fz b1) d nm) as Hfirst by (rewrite Hhide; unfold hidden_first; by rewrite (lk_conf _ _ Hl3), (open_file_eases _ _ d nm He3)).
  pose proof (like_allowed b1 b3 [] _ Hb1 Hl3 (proj1 Hrm1)) as Ha3. pose proof (guard_lib _ _ _ _ _ S3 Hg) as Hg3. assert (ptr_in (nodes (fz b3)) p d) as Hp3 by by rewrite (sl_fz _ _ S3).
  apply wp_bind, (wp_mono _ _ (fun err (b4 : lib M X) => held b4 [Hold p l w] /\ others b3 b4 /\ stay b3 b4 /\ P err (abs (fz b4)) (fsx b4))).
  - destruct hide.
    + eapply wp_mono; [apply (wp_hide (Some r) b3 [Hold p l w] p path d nm); [done|done|by eapply roomy_like; [apply same_like|]|apply Ha3|apply Hrm1|done|by eapply removable_counted|]|].
      { apply open_placed; [apply (s_tree _ _ (hd_sys _ _ Hb3))|]. apply (open_file_eases _ _ d nm He3), Hfirst. done. }
      intros err b4 (Hb4 & Ho4 & St4 & He). split; [done|]. split; [done|]. split; [done|]. right. exists path. split; [done|]. left. split; [by apply Hfirst|].
      rewrite Ex3, Ex2 in He. by apply (hidden_eases (fz b1) (fz b3)).
    + eapply wp_mono; [apply (wp_remove_call (Some r) (o_unlink fs) _ b3 [Hold p l w] d nm); [done|done|apply Hrm1|done]|].
      intros err b4 (Hb4 & Ho4 & St4 & He). split; [done|]. split; [done|]. split; [done|]. right. exists path. split; [done|]. right. split; [by intros ?%Hfirst|].
      destruct He as [Hs He]. rewrite Ex3, Ex2 in Hs. split; [done|]. unfold rem in ER3. by rewrite EA3, ER3 in He.
  - intros err b4 (Hb4 & Ho4 & St4 & HP). apply wp_bind, (wp_still _ _ _ b4 [Hold p l w]); [apply idle_intr_end|apply keeps_intr_end|done|]. intros _ b5 S5 Ex5 Hb5.
    apply (wp_unlock_result _ [] p d l w err P); [done|rewrite (sl_fz _ _ S5); by apply St4| |by rewrite (sl_fz _ _ S5), Ex5].
    transitivity b3; [by apply lib_others|]. transitivity b4; [done|by apply lib_others].
Qed.

End Hide.
