(* ===== verification/LibRename.v ===== *)
(** * The handler of RENAME

    A rename locks both paths for writing.  If the file it replaces is open, that
    file gets a hidden name first; the move is still one the kernel may ask for. *)

From S2P Require Import Prelude DList NodeTable Wire Locks Node NodeTree NodeOps NodeSpec NodeTheorems Path PathSpec PathQueue PathTree PathTheorems.
From S2P Require Import Buf LowLevel Dispatch Handler Lib LibOps LibSpec LibCalm LibTree LibHide.

(** ** Moves in the tree *)

Section Moves.
Implicit Types (A : tree).

(** What RENAME does to the tree: it may exchange the files. *)
Definition move_op (exchange : bool) (od : Z) (on : bytes) (nd : Z) (nn : bytes) : op :=
  if exchange then OExchange od on nd nn else ORename od on nd nn false.

(** Places are not shared. *)
Definition apart A : Prop := forall i j e e' k, A !! i = Some e -> A !! j = Some e' -> place e = Some k -> place e' = Some k -> i = j.

Lemma hidden_move rm A d nm hn A1 : hides A d nm hn -> spec rm A (ORename d nm d hn true) (RCode 0) A1 ->
  exists j e, A !! j = Some e /\ place e = Some (d, nm) /\ A1 = <[j := Entry (count e) (Some (d, hn)) (gen e)]> A.
Proof.
  intros (Hv & _ & i0 & e0 & c0 & He0 & Hp0 & _). inversion 1 as [| | | | | | |? ? ? ? ? Hnone| |? ? ? ? ? j B (e & He & Hp) Hd _| | | |]; subst.
  - by destruct (Hnone i0 e0).
  - exists j, e. split; [done|]. split; [done|]. destruct Hd as [[_ ->]|(k & x & Hk & Hx & _)]; [unfold set_place; by rewrite He|by destruct (Hv k x Hk)].
Qed.

Lemma holds_moved A j e k d : A !! j = Some e -> holds A d -> holds (<[j := Entry (count e) k (gen e)]> A) d.
Proof.
  intros He (x & Hx & Hc). unfold holds. rewrite lookup_insert. case_decide as Hjd; [|eauto]. subst. rewrite He in Hx. injection Hx as ->. by eexists.
Qed.

Lemma below_renamed A j e d nm hn i k : A !! j = Some e -> place e = Some (d, nm) ->
  below (<[j := Entry (count e) (Some (d, hn)) (gen e)]> A) i k -> below A i k.
Proof.
  intros He Hp. induction 1 as [|k x d' nm' Hk Hx _ IH]; [constructor|]. apply lookup_insert_Some in Hk as [[<- <-]|[_ Hk]].
  - injection Hx as <- <-. by apply (below_dir A i j e d nm).
  - by apply (below_dir A i k x d' nm').
Qed.

Lemma allowed_hidden rm A od on nd nn hn A1 i : apart A -> found A od on (Some i) -> hides A nd nn hn -> spec rm A (ORename nd nn nd hn true) (RCode 0) A1 ->
  allowed rm A (ORename od on nd nn false) -> allowed rm A1 (ORename od on nd nn false) /\ vacant A1 nd nn /\ (forall k e, A1 !! k = Some e -> place e = Some (od, on) -> A !! k = Some e).
Proof.
  intros Hap (ei & Hei & Hpi) Hh Hsp (Ho & Hn & Hne & Hs & Ht). destruct (hidden_move _ _ _ _ _ _ Hh Hsp) as (j & e & He & Hp & ->). destruct Hh as (Hv & _ & _).
  assert (forall k x, <[j := Entry (count e) (Some (nd, hn)) (gen e)]> A !! k = Some x -> place x = Some (od, on) -> A !! k = Some x) as Hback.
  { intros k x [[<- <-]|[_ Hk]]%lookup_insert_Some Hx; [|done]. cbn in Hx. injection Hx as -> ->. by destruct (Hv i ei). }
  assert (vacant (<[j := Entry (count e) (Some (nd, hn)) (gen e)]> A) nd nn) as Hvac.
  { intros k x [[<- <-]|[Hjk Hk]]%lookup_insert_Some Hx; [|by eapply Hjk, (Hap j k)]. cbn in Hx. injection Hx as ->. by apply (Hv j e He). }
  split; [|done]. split; [by apply holds_moved|]. split; [by apply holds_moved|]. split; [done|]. split; [|intros k x Hk Hx; by destruct (Hvac k x)].
  intros k x Hk Hx. destruct (Hs k x (Hback k x Hk Hx) Hx) as [? Hnb]. split; [done|]. intros Hb. by eapply Hnb, below_renamed.
Qed.

Lemma spec_move_stays rm x A od on nd nn r A' i : spec rm A (move_op x od on nd nn) r A' -> is_Some (A !! i) -> is_Some (A' !! i).
Proof.
  assert (forall j k B, is_Some (B !! i) -> is_Some (set_place j k B !! i)) as Hset.
  { intros j k B Hi. unfold set_place. destruct (B !! j) eqn:Ej; [|done]. rewrite lookup_insert. by case_decide. }
  assert (forall j k B, is_Some (B !! i) -> is_Some (opt_place j k B !! i)) as Hopt by (intros [j|] k B; [apply Hset|done]).
  destruct x; cbn [move_op]; [|by apply spec_rename_stays]. inversion 1; subst; auto.
Qed.

End Moves.

(** ** The handler *)

Section Rename.
Context {OS M X : Type} `{FdOps OS} `{DevOps OS} `{!FdLaws OS} `{!DevLaws OS} `{NodeMemLaws M}.
Context (fs : fuse_operations OS X).
Implicit Types (b : lib M X) (f : fuse M) (G : list hold) (R : option Z) (A : tree) (x : X).

Abbreviation IO := (ST (LL OS (lib M X))).

(** The kernel may move the file [on] of [od] to the name [nn] of [nd]: it has
    looked up the file, the file that is there and both directories, and neither
    file is above the directory of the other. *)
Definition renamable b (exchange : bool) (od : Z) (on : bytes) (nd : Z) (nn : bytes) : Prop :=
  allowed (rem b) (abs (fz b)) (move_op exchange od on nd nn) /\ nonul on /\ nonul nn /\ (exists i, found (abs (fz b)) od on (Some i)) /\
  no_conflict (abs (fz b)) od (Some on) true nd (Some nn) true /\
  exists p1 p2, request_ok (fz b) p1 od (Some on) true /\ request_ok (fz b) p2 nd (Some nn) true /\ roomy b p2.

(** The effect of RENAME on the tree of the library and the state of the file
    system, from [f] and [x] to [A'] and [x'], with the result [err].  The file that
    is replaced is hidden first if it is open; if that fails nothing else is done,
    and if the file system then does not move the file it stays hidden. *)
Definition rename_effect f x (od : Z) (on : bytes) (nd : Z) (nn : bytes) (flags err : Z) A' x' : Prop :=
  let ex := has flags RENAME_EXCHANGE in
  (unreachable f od err \/ unreachable f nd err) /\ A' = abs f /\ x' = x \/
  exists old new, place_path f od on old /\ place_path f nd nn new /\
    let moved A1 x1 := renamed_by (call_rename fs old new flags) (remembers f) A1 (move_op ex od on nd nn) x1 err A' x' in
    (~ (ex = false /\ hidden_first f nd nn) /\ moved (abs f) x \/
     (ex = false /\ hidden_first f nd nn) /\ exists e A1 x1, hidden_by fs f nd nn new x e A1 x1 /\
       (e <> 0 /\ err = e /\ A' = A1 /\ x' = x1 \/ e = 0 /\ moved A1 x1)).

Lemma held_apart b G : held b G -> apart (abs (fz b)).
Proof. intros Hb i j e e' k. apply place_inj, (s_tree _ _ (hd_sys _ _ Hb)). Qed.

(** The move itself, by a request that has locked both files. *)
Lemma wp_move R b G ex od on nd nn : held b G -> allowed (rem b) (abs (fz b)) (move_op ex od on nd nn) -> nonul on -> nonul nn -> guard b G od on -> guard b G nd nn ->
  wp R (if ex then on_fuse (OS := OS) (exchange_node od on nd nn) else on_fuse (rename_node od on nd nn false))
    (fun err b' => held b' G /\ others b b' /\ stay b b' /\ fsx b' = fsx b /\ spec (rem b) (abs (fz b)) (move_op ex od on nd nn) (RCode err) (abs (fz b'))) b.
Proof.
  intros Hb Ha Hon Hnn Hg1 Hg2. assert (may b G (move_op ex od on nd nn)) as Hm.
  { split; [done|]. assert (places (move_op ex od on nd nn) = [(od, on); (nd, nn)] /\ PathTree.targets (move_op ex od on nd nn) = [(od, on); (nd, nn)]) as [EP ET] by by destruct ex.
    split; [|intros k; rewrite ET; by intros [-> | ->%list_elem_of_singleton]%elem_of_cons].
    assert (forall i e k, abs (fz b) !! i = Some e -> place e = Some k -> k ∈ [(od, on); (nd, nn)] -> exists h w, h ∈ G /\ h_write h = Some w /\ ptr_in (nodes (fz b)) w i) as Hgd.
    { intros i e k He Hk [-> | ->%list_elem_of_singleton]%elem_of_cons; [by apply (Hg1 i e)|by apply (Hg2 i e)]. }
    by destruct ex. }
  destruct (tree_step b G _ Hb Hm) as (r & f' & E & Hsp & Hb' & Ho & Hp).
  assert (stay b (with_fz f' b)) as Hst by (intros q j Hq; apply Hp; [done|]; eapply spec_move_stays; [exact Hsp|]; by eapply ptr_abs_some).
  destruct ex; cbn [move_op run_op] in E; apply bind_Some in E as (err & f2 & Ex & E); injection E as <- <-; by eapply wp_fuse; [exact Ex|].
Qed.

(** The file to be replaced has been hidden. *)
Lemma hidden_guards b b1 G od on nd nn path x1 : held b G -> stay b b1 -> (exists i, found (abs (fz b)) od on (Some i)) ->
  hidden_by fs (fz b) nd nn path (fsx b) 0 (abs (fz b1)) x1 -> allowed (rem b) (abs (fz b)) (ORename od on nd nn false) -> guard b G od on ->
  allowed (rem b) (abs (fz b1)) (ORename od on nd nn false) /\ guard b1 G od on /\ guard b1 G nd nn.
Proof.
  intros Hb Hst [i Hf] (hn & Hh & Hsp)%hidden_zero Ha Hg. destruct (allowed_hidden _ _ _ _ _ _ _ _ i (held_apart b G Hb) Hf Hh Hsp Ha) as (Ha1 & Hv & Hback).
  split; [done|]. split; [|intros k e Hk Hp; by destruct (Hv k e)].
  intros k e Hk Hp. destruct (Hg k e (Hback k e Hk Hp) Hp) as (h & w & ? & ? & Hw). exists h, w. split; [done|]. split; [done|]. by apply Hst.
Qed.

(** The file system renames the file, and then the tree follows. *)
Lemma wp_rename_call R b G ex od on nd nn old new flags : held b G -> allowed (rem b) (abs (fz b)) (move_op ex od on nd nn) -> nonul on -> nonul nn ->
  guard b G od on -> guard b G nd nn ->
  wp R (err ← fuse_fs_rename fs (Some old) (Some new) flags;
        if err =? 0 then if ex then on_fuse (exchange_node od on nd nn) else on_fuse (rename_node od on nd nn false) else mret err : IO Z)
    (fun err b' => held b' G /\ others b b' /\ stay b b' /\ renamed_by (call_rename fs old new flags) (rem b) (abs (fz b)) (move_op ex od on nd nn) (fsx b) err (abs (fz b')) (fsx b')) b.
Proof.
  intros Hb Ha Hon Hnn Hg1 Hg2. apply wp_bind, (wp_fs_op R _ _ _ b G); [done|]. intros err b1 S1 Hb1 Hs.
  assert (rem b1 = rem b /\ abs (fz b1) = abs (fz b)) as [ER EA] by (unfold rem; by rewrite (sl_fz _ _ S1)). assert (stay b b1) as St by (intros q j; by rewrite (sl_fz _ _ S1)).
  destruct (Z.eqb_spec err 0) as [->|Herr].
  - eapply wp_mono; [apply (wp_move R b1 G ex od on nd nn); [done|by rewrite ER, EA|done|done|by eapply guard_lib..]|]. intros err b2 (Hb2 & Ho2 & St2 & Ex & Hsp). rewrite ER, EA in Hsp.
    split; [done|]. split; [transitivity b1; [by apply lib_others|done]|]. split; [intros q j Hq; by apply St2, St|]. exists 0. rewrite Ex. split; [done|by right].
  - apply wp_ret. split; [done|]. split; [by apply lib_others|]. split; [done|]. exists err. split; [done|]. left. by rewrite EA.
Qed.

(** The part of the handler that has locked both paths, if no file is hidden and
    if one is. *)
Definition locked_effect f x (hide ex : bool) (od : Z) (on : bytes) (nd : Z) (nn old new : bytes) (flags err : Z) A' x' : Prop :=
  let moved A1 x1 := renamed_by (call_rename fs old new flags) (remembers f) A1 (move_op ex od on nd nn) x1 err A' x' in
  if hide then exists e A1 x1, hidden_by fs f nd nn new x e A1 x1 /\ (e <> 0 /\ err = e /\ A' = A1 /\ x' = x1 \/ e = 0 /\ moved A1 x1)
  else moved (abs f) x.

Lemma wp_rename_locked R b G ex od on nd nn p2 old new flags (hide : bool) : held b G -> allowed (rem b) (abs (fz b)) (move_op ex od on nd nn) -> nonul on -> nonul nn ->
  (exists i, found (abs (fz b)) od on (Some i)) -> ptr_in (nodes (fz b)) p2 nd -> roomy b p2 -> guard b G od on -> guard b G nd nn ->
  (hide = true -> ex = false /\ placed (abs (fz b)) nd nn) ->
  wp R (err ← (if hide then hide_node fs (Some new) nd nn else mret 0);
        (if err =? 0 then err ← fuse_fs_rename fs (Some old) (Some new) flags;
           if err =? 0 then if ex then on_fuse (exchange_node od on nd nn) else on_fuse (rename_node od on nd nn false) else mret err else mret err) : IO Z)
    (fun err b' => held b' G /\ others b b' /\ stay b b' /\ locked_effect (fz b) (fsx b) hide ex od on nd nn old new flags err (abs (fz b')) (fsx b')) b.
Proof.
  intros Hb Ha Hon Hnn Hf Hp Hroom Hg1 Hg2 Hx. apply wp_bind. destruct hide; cycle 1.
  { apply wp_ret. rewrite Z.eqb_refl. eapply wp_mono; [by apply (wp_rename_call R b G)|]. intros err b1 (Hb1 & Ho1 & St1 & Hor). by do 3 (split; [done|]). }
  destruct (Hx eq_refl) as [-> Hpl]. pose proof Ha as (Hod & Hnd & Hne & Hs & Ht). eapply wp_mono.
  { apply (wp_hide fs R b G p2 new nd nn); [done..| |done]. intros k e He Hk. specialize (Ht k e He Hk). unfold spare in Ht. destruct (rem b); lia. }
  intros err b1 (Hb1 & Ho1 & St1 & He). destruct (Z.eqb_spec err 0) as [->|Herr]; cycle 1.
  { apply wp_ret. do 3 (split; [done|]). exists err, (abs (fz b1)), (fsx b1). split; [done|by left]. }
  destruct (hidden_guards b b1 G od on nd nn new (fsx b1)) as (Ha1 & Hg3 & Hg4); [done..|]. rewrite <- (others_rem b b1 Ho1) in Ha1.
  eapply wp_mono; [by apply (wp_rename_call R b1 G false od on nd nn old new flags)|]. intros err b2 (Hb2 & Ho2 & St2 & Hor). rewrite (others_rem b b1 Ho1) in Hor.
  split; [done|]. split; [by transitivity b1|]. split; [intros q j Hq; by apply St2, St1|]. exists 0, (abs (fz b1)), (fsx b1). split; [done|by right].
Qed.

Lemma rename_ok r od on nd nn flags b : held b [] -> renamable b (has flags RENAME_EXCHANGE) od on nd nn ->
  replies r (fuse_lib_rename fs r od on nd nn flags) (fun _ msg b' => result_post b (rename_effect (fz b) (fsx b) od on nd nn flags) msg b') b.
Proof.
  set (ex := has flags RENAME_EXCHANGE). intros Hb Hrn. apply result_prepare; [done|]. intros b1 Hb1 S1 Ex1.
  assert (renamable b1 ex od on nd nn) as (Ha & Hon & Hnn & Hf & Hc & p1 & p2 & Hr1 & Hr2 & Hroom) by (revert Hrn; unfold renamable, roomy, rem; by rewrite (sl_fz _ _ S1)).
  rewrite <- (sl_fz _ _ S1), <- Ex1. set (P := rename_effect (fz b1) (fsx b1) od on nd nn flags). pose proof (request_ptr _ _ _ _ _ Hr1) as Hpp1. pose proof (request_ptr _ _ _ _ _ Hr2) as Hpp2.
  apply replies_bind, (wp_get_path2 _ b1 p1 od (Some on) true p2 nd (Some nn) true); [done..| |].
  { intros e b2 He Hb2 Hl2 [_ Ex2]. apply replies_bind, wp_ret, replies_result; [done|by apply like_others|]. left. split; [destruct He; [left; by exists p1|right; by exists p2]|].
    split; [by apply (like_abs b1 b2 [])|done]. }
  intros s1 w1 s2 w2 l1 l2 b2 Hb2 Hl2 [Hsh2 Ex2] Hw1 Hw2 Hsp1 Hsp2. set (G := [Hold p1 l1 w1; Hold p2 l2 w2]) in *.
  apply replies_bind, wp_bind, (wp_still _ _ _ b2 G); [apply idle_intr_begin|apply keeps_intr_begin|done|]. intros _ b3 S3 Ex3 Hb3.
  assert (like b1 b3) as Hl3 by (transitivity b2; [done|by apply same_like]). pose proof (like_abs b1 b3 [] Hb1 Hl3) as EA3. pose proof (others_rem b1 b3 (like_others _ _ Hl3)) as ER3.
  assert (eases (fz b1) (fz b3)) as He3 by (apply like_eases; [done|by rewrite (sl_fz _ _ S3)]).
  pose proof (like_ptr b1 b3 p1 od Hl3 Hpp1) as Hp1. pose proof (like_ptr b1 b3 p2 nd Hl3 Hpp2) as Hp2.
  assert (guard b2 G od on /\ guard b2 G nd nn) as [Hg1 Hg2].
  { split; [apply (write_guard b1 b2 [] p1 l1 w1)|apply (write_guard b1 b2 [] p2 l2 w2)]; try done; unfold G; rewrite !elem_of_cons; auto. }
  apply wp_bind, wp_config, wp_bind, (wp_is_open _ b3 G nd nn _ _ Hb3). intros hide Hhide. fold ex in Hhide |- *.
  assert (hide = true <-> ex = false /\ hidden_first (fz b1) nd nn) as Hfirst.
  { rewrite Hhide, orb_false_iff. unfold hidden_first. rewrite (lk_conf _ _ Hl3), (open_file_eases _ _ nd nn He3). tauto. }
  apply wp_two. eapply wp_mono.
  { apply (wp_rename_locked (Some r) b3 G ex od on nd nn p2); [done|by rewrite EA3, ER3|done|done|by rewrite EA3|done|by eapply roomy_like|by eapply guard_lib|by eapply guard_lib|].
    intros Hx. apply Hfirst in Hx as [? [_ Ho]]. split; [done|]. apply open_placed; [apply (s_tree _ _ (hd_sys _ _ Hb3))|]. by apply (open_file_eases _ _ nd nn He3). }
  intros err b4 (Hb4 & Ho4 & St4 & He). apply wp_bind, (wp_still _ _ _ b4 G); [apply idle_intr_end|apply keeps_intr_end|done|]. intros _ b5 S5 Ex5 Hb5. apply wp_bind.
  eapply wp_mono; [apply wp_keeps; [apply keeps_fuse|apply (wp_free2 _ p1 od l1 w1 p2 nd l2 w2 b5 b5); [done|rewrite (sl_fz _ _ S5); by apply St4..|done]]|]. intros _ b6 [[Hb6 Hl6] Ex6].
  apply wp_ret, replies_result; [done| |].
  - transitivity b3; [by apply like_others|]. transitivity b4; [done|]. transitivity b5; [by apply lib_others|by apply like_others].
  - rewrite (like_abs b5 b6 _ Hb5 Hl6), (sl_fz _ _ S5), Ex6, Ex5. right. exists s1, s2. split; [by exists p1, l1|]. split; [by exists p2, l2|].
    unfold locked_effect in He. cbv zeta in He |- *. fold ex. change (remembers (fz b3)) with (rem b3) in He. rewrite Ex3, Ex2, ER3 in He. destruct hide; [right|left].
    + split; [by apply Hfirst|]. destruct He as (e & A1 & x1 & Hh & Hr). exists e, A1, x1. split; [by apply (hidden_eases fs (fz b1) (fz b3))|done].
    + split; [by intros ?%Hfirst|]. by rewrite EA3 in He.
Qed.

End Rename.
