(* ===== verification/LibDir.v ===== *)
(** * Directories of the high-level library

    A file system that gives its entries without offsets has them collected in a
    list; READDIR then takes pages from the list.  A page is what [Wire] calls the
    entries that fit, numbered by their place in the list, so that a reader that
    goes on at the offset of the last entry of a page sees every entry once. *)

From S2P Require Import Prelude DList NodeTable Wire Locks Node NodeTree NodeOps NodeSpec NodeTheorems Path PathSpec PathQueue PathTree PathTheorems.
From S2P Require Import Buf LowLevel Dispatch Handler Lib LibOps LibSpec LibCalm LibOpen.

(** ** Pages *)

(** The entries of a list with their offsets, [pos] being the offset before. *)
Fixpoint numbered (pos : Z) (l : list (bytes * stat)) : list (bytes * stat * Z) :=
  match l with
  | [] => []
  | (nm, st) :: l => (nm, st, pos + 1) :: numbered (pos + 1) l
  end.

Lemma numbered_app pos l k : numbered pos (l ++ k) = numbered pos l ++ numbered (pos + Z.of_nat (length l)) k.
Proof.
  revert pos. induction l as [|[nm st] l IH]; intros pos; cbn [numbered app length]; [by rewrite Z.add_0_r|]. rewrite IH. do 3 f_equal. lia.
Qed.

Lemma length_numbered pos l : length (numbered pos l) = length l.
Proof. revert pos. induction l as [|[nm st] l IH]; intros pos; [done|]. cbn. by rewrite IH. Qed.

(** The names are not longer than a gigabyte. *)
Definition short (l : list (bytes * stat)) : Prop := Forall (fun e => Z.of_nat (length e.1) <= 2 ^ 30) l.

Lemma numbered_short pos l : short l -> Forall (fun e : bytes * stat * Z => Z.of_nat (length e.1.1) < 2 ^ 32) (numbered pos l).
Proof. intros Hl. revert pos. induction Hl as [|[nm st] l Hn _ IH]; intros pos; [constructor|]. constructor; [cbn in *; lia|apply IH]. Qed.

(** The buffer of a directory has room for the page that is asked for. *)
Definition has_room (d : fuse_dh) : Prop := 0 <= dh_len d <= dh_needlen d /\ dh_needlen d <= dh_size d /\ dh_needlen d < 2 ^ 31.

(** Bytes written behind the ones that are there. *)
Definition appended (d : fuse_dh) (s : bytes) (d' : fuse_dh) : Prop :=
  dh_len d' = dh_len d + Z.of_nat (length s) /\ dh_size d' = dh_size d /\ dh_needlen d' = dh_needlen d /\ dh_first d' = dh_first d /\ dh_filled d' = dh_filled d /\
  take (Z.to_nat (dh_len d')) (dh_contents d') = take (Z.to_nat (dh_len d)) (dh_contents d) ++ s.

Lemma appended_nil d : appended d [] d.
Proof. unfold appended. cbn. rewrite Z.add_0_r, app_nil_r. done. Qed.

Lemma appended_trans d s d1 t d2 : appended d s d1 -> appended d1 t d2 -> appended d (s ++ t) d2.
Proof. intros (L1 & S1 & N1 & F1 & G1 & T1) (L2 & S2 & N2 & F2 & G2 & T2). unfold appended. rewrite length_app, app_assoc, <- T1. repeat split; try congruence. lia. Qed.

Lemma append_ok d s : has_room d -> dh_len d + Z.of_nat (length s) <= dh_needlen d ->
  exists m, Path.store (dh_contents d) (dh_len d) s = Some m /\ appended d s (with_len (dh_len d + Z.of_nat (length s)) (with_contents m d)).
Proof.
  intros ((Hl & Hln) & Hns & _) Hs. unfold dh_size in Hns. eexists. split; [apply store_ok; lia|]. split; [done|]. split; [unfold dh_size; cbn; f_equal; apply length_store; lia|]. do 3 (split; [done|]).
  cbn. rewrite Z2Nat.inj_add, Nat2Z.id by lia. rewrite take_app_ge by (rewrite length_take; lia). rewrite length_take. f_equal.
  replace (_ - _)%nat with (length s) by lia. by rewrite take_app_length.
Qed.

Lemma fill_entries_ok pos l d : has_room d -> short l ->
  exists d', fill_entries false pos l d = Some d' /\ appended d (fill_dirents (dh_needlen d - dh_len d) (numbered pos l)) d'.
Proof.
  intros Hr Hl. revert pos d Hr. induction Hl as [|[nm st] l Hn Hl IH]; intros pos d Hr; cbn [fill_entries numbered fill_dirents]; [exists d; split; [done|apply appended_nil]|].
  pose proof Hr as ((Hl0 & Hln) & Hns & Hbig). cbn in Hn. set (n := Z.of_nat (length nm)) in *. assert (n < 2 ^ 32) as Hn32 by lia.
  rewrite (wrap_id 32 (dh_needlen d - dh_len d)) by lia. rewrite (add_direntry_Some true _ nm st (pos + 1) Hn32). cbv zeta. fold n. set (sz := FUSE_DIRENT_ALIGN (24 + n)).
  destruct (align_spec (24 + n) ltac:(lia)) as [Ha _]. fold sz in Ha. cbn [negb orb]. rewrite (wrap_id 32 sz) by lia.
  destruct (Z.ltb_spec (dh_needlen d - dh_len d) sz) as [Hlt|Hge].
  - exists d. cbn [mbind option_bind]. rewrite (wrap_id 32) by lia. destruct (Z.ltb_spec (dh_needlen d) (dh_len d + sz)); [|lia]. split; [done|apply appended_nil].
  - set (s := put_dirent _ _ _ _ _ _). assert (Z.of_nat (length s) = sz) as Hs by (unfold s; rewrite length_put_dirent by lia; fold n; lia).
    destruct (append_ok d s Hr ltac:(lia)) as (m & E & Happ). rewrite E. cbn [mbind option_bind]. cbn [dh_len dh_needlen with_contents]. rewrite (wrap_id 32) by lia.
    destruct (Z.ltb_spec (dh_needlen d) (dh_len d + sz)); [lia|]. rewrite Hs in Happ. set (d1 := with_len _ _) in *.
    destruct (IH (pos + 1) d1) as (d' & E' & Happ').
    { destruct Happ as (L1 & S1 & _). unfold has_room. rewrite S1. cbn. lia. }
    exists d'. split; [done|]. eapply appended_trans; [exact Happ|]. replace (dh_needlen d - dh_len d - sz) with (dh_needlen d1 - dh_len d1) by (cbn; lia). done.
Qed.

(** The page of the list [l] from [off] on. *)
Definition page (size off : Z) (l : list (bytes * stat)) : bytes := fill_dirents size (numbered off (drop (Z.to_nat off) l)).

Lemma extend_ok ok d : 0 <= dh_needlen d < 2 ^ 31 ->
  exists r d', extend_contents ok (dh_needlen d) d = Some (r, d') /\ dh_first d' = dh_first d /\ dh_filled d' = dh_filled d /\ dh_needlen d' = dh_needlen d /\ dh_len d' = dh_len d /\
    (r = 0 /\ dh_needlen d <= dh_size d' \/ ok = false /\ r = -1 /\ dh_error d' = - ENOMEM).
Proof.
  intros Hn. unfold extend_contents. destruct (Z.ltb_spec (dh_size d) (dh_needlen d)) as [Hlt|Hge]; [|exists 0, d; repeat (split; [done|]); by left].
  set (n := if dh_size d =? 0 then 1024 else dh_size d). assert (0 < n <= 4294967295) as Hn0 by (unfold n, dh_size in *; destruct (Z.eqb_spec (Z.of_nat (length (dh_contents d))) 0); lia).
  destruct (grow_ok 34 n (dh_needlen d)) as (m & E & Hm & Hneed); [done|lia|intros; change (2 ^ Z.of_nat 34) with 17179869184; lia|lia|]. rewrite E. cbn [mbind option_bind].
  destruct ok; cbn [negb]; (eexists _, _; split; [reflexivity|]; repeat (split; [done|])); [left|by right]. split; [done|]. unfold dh_size in *. cbn. rewrite length_app, length_replicate. lia.
Qed.

Lemma page_ok ok off d : 0 <= dh_needlen d < 2 ^ 31 -> 0 <= off -> short (dh_first d) ->
  exists e d', readdir_fill_from_list ok off false d = Some (e, d') /\ dh_first d' = dh_first d /\ dh_filled d' = dh_filled d /\
    (ok = false /\ e = - ENOMEM \/ e = 0 /\ Path.load (dh_contents d') 0 (dh_len d') = Some (page (dh_needlen d) off (dh_first d))).
Proof.
  intros Hn Ho Hs. unfold readdir_fill_from_list. destruct (extend_ok ok (with_len 0 d) Hn) as (r & d1 & E & F1 & G1 & N1 & L1 & Hr). cbn in E, F1, G1, N1, L1, Hr. rewrite E. cbn [mbind option_bind].
  destruct Hr as [[-> Hsz]|(-> & -> & He)]; cbn [Z.eqb Pos.eqb]; [|exists (dh_error d1), d1; repeat (split; [done|]); by left].
  rewrite F1. set (l := drop (Z.to_nat off) (dh_first d)). assert (has_room d1) as Hroom by (unfold has_room; rewrite L1, N1; lia).
  destruct (fill_entries_ok (Z.of_nat (length (dh_first d) - length l)) l d1 Hroom) as (d' & E' & L' & S' & N' & F' & G' & T'); [by apply Forall_drop|]. rewrite E'. cbn [mbind option_bind].
  eexists 0, d'. split; [done|]. split; [congruence|]. split; [congruence|]. right. split; [done|].
  assert (numbered (Z.of_nat (length (dh_first d) - length l)) l = numbered off l) as EN.
  { unfold l. rewrite length_drop. destruct (decide (Z.to_nat off <= length (dh_first d))%nat); [f_equal; lia|]. by rewrite drop_ge by lia. }
  rewrite EN, L1, N1, Z.sub_0_r in *. cbn [Z.to_nat take app] in T'. change (fill_dirents (dh_needlen d) (numbered off l)) with (page (dh_needlen d) off (dh_first d)) in T', L'. rewrite Z.add_0_l in L'.
  assert (Z.of_nat (length (page (dh_needlen d) off (dh_first d))) <= dh_needlen d) as Hle by (apply fill_parse; [by apply numbered_short, Forall_drop|lia]).
  unfold Path.load. rewrite Z.add_0_l, L'. unfold dh_size in *. destruct (Z.leb_spec 0 (Z.of_nat (length (page (dh_needlen d) off (dh_first d))))); [|lia].
  destruct (Z.leb_spec (Z.of_nat (length (page (dh_needlen d) off (dh_first d)))) (Z.of_nat (length (dh_contents d')))); [|lia]. cbn [andb Z.leb Z.compare]. rewrite L' in T'. rewrite drop_0. by f_equal.
Qed.

(** ** Listings *)

(** A reader of the directory: it asks for pages of [size] bytes, each from the
    offset of the last entry of the page before, until one is empty. *)
Fixpoint read_dir (fuel : nat) (size off : Z) (d : fuse_dh) : option (list dirent) :=
  match fuel with
  | O => None
  | S fuel =>
      r ← readdir_fill_from_list true off false (with_needlen (u32 size) d);
      bs ← Path.load (dh_contents r.2) 0 (dh_len r.2);
      es ← parse_dirents (length (dh_first d)) bs;
      match last es with
      | None => Some []
      | Some e => rest ← read_dir fuel size (d_off e) r.2; Some (es ++ rest)
      end
  end.

Lemma parse_more n m b es : (n <= m)%nat -> parse_dirents n b = Some es -> parse_dirents m b = Some es.
Proof.
  revert m b es. induction n as [|n IH]; intros m b es Hm; destruct b as [|x b]; try done; [by destruct m..|]. destruct m as [|m]; [lia|]. cbn [parse_dirents].
  case_bool_decide; [done|]. destruct (parse_dirents n _) as [l|] eqn:E; [|done]. intros [= <-]. by rewrite (IH m _ _ ltac:(lia) E).
Qed.

(** A page that does not end at once goes on with some entries, up to an
    offset. *)
Lemma fitting_numbered size pos l : exists k, (k <= length l)%nat /\ fitting size (numbered pos l) = numbered pos (take k l) /\
  (Forall (fun e : bytes * stat => FUSE_DIRENT_ALIGN (24 + Z.of_nat (length e.1)) <= size) l -> l <> [] -> (0 < k)%nat).
Proof.
  revert size pos. induction l as [|[nm st] l IH]; intros size pos; [by exists 0%nat|]. cbn [numbered fitting].
  destruct (Z.ltb_spec size (FUSE_DIRENT_ALIGN (24 + Z.of_nat (length nm)))) as [Hlt|Hge].
  - exists 0%nat. split; [lia|]. split; [done|]. intros Hf _. inversion Hf; subst. cbn in *. lia.
  - destruct (IH (size - FUSE_DIRENT_ALIGN (24 + Z.of_nat (length nm))) (pos + 1)) as (k & Hk & E & _). exists (S k). split; [cbn; lia|]. split; [|lia]. cbn. by rewrite E.
Qed.

Lemma last_numbered pos l : l <> [] -> exists e, last (seen <$> numbered pos l) = Some e /\ d_off e = u64 (pos + Z.of_nat (length l)).
Proof.
  intros Hl. destruct (exists_last Hl) as (l' & [nm st] & ->). rewrite numbered_app, fmap_app. cbn [numbered fmap list_fmap]. rewrite last_snoc. eexists. split; [done|].
  cbn. f_equal. rewrite length_app. cbn. lia.
Qed.

Lemma read_dir_ok fuel size off d : 0 <= size < 2 ^ 31 -> 0 <= off <= Z.of_nat (length (dh_first d)) -> (length (dh_first d) - Z.to_nat off < fuel)%nat -> short (dh_first d) ->
  Z.of_nat (length (dh_first d)) < 2 ^ 63 -> Forall (fun e : bytes * stat => FUSE_DIRENT_ALIGN (24 + Z.of_nat (length e.1)) <= size) (dh_first d) ->
  read_dir fuel size off d = Some (seen <$> numbered off (drop (Z.to_nat off) (dh_first d))).
Proof.
  intros Hsz. revert off d. induction fuel as [|fuel IH]; intros off d Ho Hf Hs Hlen Hfit; [lia|]. cbn [read_dir]. rewrite (wrap_id 32 size) by lia.
  destruct (page_ok true off (with_needlen size d) Hsz) as (e & d' & E & F & _ & [[? _]|[-> EL]]); [lia|done|done|]. rewrite E. cbn [mbind option_bind fst snd]. rewrite EL. cbn [mbind option_bind].
  cbn [dh_first dh_needlen with_needlen] in *. set (l := drop (Z.to_nat off) (dh_first d)). assert (length l = (length (dh_first d) - Z.to_nat off)%nat) as Hl by apply length_drop.
  destruct (fill_parse (numbered off l) size) as [Ep _]; [by apply numbered_short, Forall_drop|lia|]. destruct (fitting_numbered size off l) as (k & Hk & Efit & Hpos).
  rewrite Efit, length_numbered in Ep. unfold page. fold l. rewrite (parse_more (length l) (length (dh_first d)) _ _ ltac:(lia) Ep). cbn [mbind option_bind].
  specialize (Hpos (Forall_drop _ _ _ Hfit)). destruct k as [|k].
  { destruct l as [|x l']; [done|]. assert (0 < 0)%nat by (by apply Hpos). lia. }
  assert (take (S k) l <> []) as Hne by (intros Hnil%(f_equal length); rewrite length_take, Nat.min_l in Hnil by lia; discriminate Hnil).
  destruct (last_numbered off _ Hne) as (e & El & Eo). rewrite El, Eo, length_take, Nat.min_l by lia. rewrite wrap_id by lia. set (off' := off + Z.of_nat (S k)).
  rewrite (IH off' d') by (rewrite ?F; try done; unfold off'; lia). cbn [mbind option_bind]. f_equal. rewrite F, <- fmap_app. f_equal.
  assert (drop (Z.to_nat off') (dh_first d) = drop (S k) l) as -> by (unfold off', l; rewrite drop_drop; f_equal; lia).
  assert (numbered off l = numbered off (take (S k) l ++ drop (S k) l)) as -> by (by rewrite take_drop). by rewrite numbered_app, length_take, Nat.min_l by lia.
Qed.

(** ** The handler of READDIR *)

(** A directory whose page is being filled. *)
Definition dir_ok (d : fuse_dh) : Prop := 0 <= dh_len d <= dh_needlen d /\ dh_needlen d < 2 ^ 31 /\ dh_len d <= dh_size d /\ short (dh_first d).

Lemma dir_ok_reset size d : 0 <= size < 2 ^ 31 -> dir_ok (dh_reset size d).
Proof. intros Hs. unfold dir_ok, dh_size. cbn. rewrite wrap_id by lia. split; [lia|]. split; [lia|]. split; [lia|constructor]. Qed.

Lemma fill_offset_ok ok nm st off d : dir_ok d -> Z.of_nat (length nm) <= 2 ^ 30 ->
  exists r d', fill_offset ok (fun room => fuse_add_direntry true room nm st off) d = Some (r, d') /\ dir_ok d'.
Proof.
  intros (Hl & Hn & Hs & Hf) Hnm. unfold fill_offset. destruct (dh_filled d); [by eexists _, _|]. destruct (negb _); [by eexists _, _|].
  destruct (extend_ok ok d) as (r & d1 & E & F1 & _ & N1 & L1 & Hr); [lia|]. rewrite E. cbn [mbind option_bind].
  destruct Hr as [[-> Hsz]|(-> & -> & He)]; cbn [Z.eqb Pos.eqb].
  2: { revert E. unfold extend_contents. destruct (_ <? _); [|by intros [= <- <-]]. destruct (grow _ _ _); [|done]. cbn. intros [= <-]. by eexists _, _. }
  assert (has_room d1) as Hroom by (unfold has_room; rewrite L1, N1; lia). set (n := Z.of_nat (length nm)) in *. rewrite (wrap_id 32 (dh_needlen d1 - dh_len d1)) by lia.
  rewrite add_direntry_Some by lia. cbv zeta. fold n. set (sz := FUSE_DIRENT_ALIGN (24 + n)). destruct (align_spec (24 + n) ltac:(lia)) as [Ha _]. fold sz in Ha. cbn [negb orb].
  assert (dir_ok d1) as Hd1 by (unfold dir_ok; rewrite L1, N1, F1; repeat split; try done; lia).
  destruct (Z.ltb_spec (dh_needlen d1 - dh_len d1) sz) as [Hlt|Hge]; cbn [mbind option_bind].
  - rewrite (wrap_id 64) by lia. destruct (Z.ltb_spec (dh_needlen d1) (dh_len d1 + sz)); [|lia]. by eexists _, d1.
  - set (s := put_dirent _ _ _ _ _ _). assert (Z.of_nat (length s) = sz) as Hsl by (unfold s; rewrite length_put_dirent by lia; fold n; lia).
    destruct (append_ok d1 s Hroom ltac:(lia)) as (m & E' & Happ). rewrite E'. cbn [mbind option_bind]. cbn [dh_len dh_needlen with_contents]. rewrite (wrap_id 64) by lia.
    destruct (Z.ltb_spec (dh_needlen d1) (dh_len d1 + sz)); [lia|]. rewrite wrap_id by lia. rewrite Hsl in Happ. eexists _, _. split; [reflexivity|].
    destruct Happ as (_ & S' & _). unfold dir_ok. cbn [dh_len dh_needlen dh_first with_len with_contents]. rewrite S', F1, N1, L1. repeat split; try done; lia.
Qed.

Lemma fill_list_ok ok1 ok2 nm st d : dir_ok d -> Z.of_nat (length nm) <= 2 ^ 30 -> dir_ok (fill_list ok1 ok2 nm st d).2.
Proof.
  intros (Hl & Hn & Hs & Hf) Hnm. destruct ok1, ok2; try done. split; [done|]. split; [done|]. split; [done|]. cbn. apply Forall_app. split; [done|]. by repeat constructor.
Qed.

(** The names the file system adds are not longer than a gigabyte. *)
Inductive short_names {S} : dir_fill S -> Prop :=
  | short_done res s : short_names (DirDone res s)
  | short_add nm st off flags k : Z.of_nat (length nm) <= 2 ^ 30 -> (forall r, short_names (k r)) -> short_names (DirAdd nm st off flags k).

Section Readdir.
Context {OS M X : Type} `{FdOps OS} `{DevOps OS} `{!FdLaws OS} `{!DevLaws OS} `{NodeMemLaws M}.
Context (fs : fuse_operations OS X).
Implicit Types (b : lib M X) (G : list hold) (R : option Z).

Abbreviation IO := (ST (LL OS (lib M X))).

Definition readdir_promise : Prop := forall f path off fi flags c s, o_readdir fs = Some f -> short_names (f path off fi flags c s).

(** [b] with the directory at [dh] filled further. *)
Definition filling b (dh : Z) (d : fuse_dh) : lib M X := with_dhs (<[dh := d]> (dhs b)) (next_dh b) b.

Lemma filling_held b G dh d : held b G -> is_Some (dhs b !! dh) -> held (filling b dh d) G.
Proof. intros Hb Hd. apply held_dhs; [done|]. intros x. rewrite lookup_insert. case_decide; subst; intros ?; by apply (hd_dirs _ _ Hb). Qed.

Lemma filling_tree b dh d : same_tree b (filling b dh d).
Proof. split; [done|done|]. intros x Hx. cbn. rewrite lookup_insert. by case_decide. Qed.

Lemma lookup_nodeid_ok b d nm : tree_ok (fz b) -> exists i, lookup_nodeid d nm (fz b) = Some (i, fz b).
Proof.
  intros Hf. unfold lookup_nodeid. destruct (find_name_abs (fz b) d nm Hf) as (r & E & Hr). rewrite (bind_step _ _ _ _ _ E). destruct r as [p|]; [|by eexists].
  destruct Hr as (n & Hn & _). rewrite (bind_step _ _ _ _ _ (node_at_eq _ p n Hn)). by eexists.
Qed.

(** What a call of the filler leaves. *)
Definition fills b G (dh : Z) b' : Prop := held b' G /\ same_tree b b' /\ fz b' = fz b /\ exists d', dhs b' !! dh = Some d' /\ dir_ok d'.

Lemma fills_refl b G dh d : held b G -> dhs b !! dh = Some d -> dir_ok d -> fills b G dh b.
Proof. intros Hb Hd Ho. split; [done|]. split; [done|]. split; [done|]. by exists d. Qed.

Lemma fills_trans b G dh b1 b2 : fills b G dh b1 -> fills b1 G dh b2 -> fills b G dh b2.
Proof. intros (_ & S1 & E1 & _) (H2' & S2 & E2 & D2). split; [done|]. split; [by transitivity b1|]. split; [congruence|done]. Qed.

Lemma wp_fill_update R b G dh d g {A} (a : A) : held b G -> dhs b !! dh = Some d -> dir_ok (g d) -> wp R (_ ← dh_update (OS := OS) dh g; mret a) (fun _ b' => fills b G dh b') b.
Proof.
  intros Hb Hd Ho. apply wp_bind, (wp_dh_update _ _ _ d); [done|]. apply wp_ret. split; [apply (filling_held b); [done|by eexists]|]. split; [apply filling_tree|]. split; [done|].
  exists (g d). split; [apply lookup_insert_eq|done].
Qed.

Lemma wp_malloc_if R c (Q : bool -> lib M X -> Prop) b : (forall ok, Q ok b) -> wp R (malloc_if (OS := OS) c) Q b.
Proof. intros HQ. destruct c; [by apply wp_malloc|by apply wp_ret]. Qed.

Lemma wp_fill_end R b G dh d nm st off : held b G -> dhs b !! dh = Some d -> dir_ok d -> Z.of_nat (length nm) <= 2 ^ 30 ->
  wp R (fill_end dh nm st off (fun room => fuse_add_direntry true room nm st off) : IO Z) (fun _ b' => fills b G dh b') b.
Proof.
  intros Hb Hd Ho Hn. apply wp_bind, (wp_dh_at _ _ d); [done|]. destruct (negb _).
  - apply wp_bind, wp_malloc_if. intros ok. destruct (fill_offset_ok ok nm st off d Ho Hn) as (r & d' & E & Ho'). apply wp_bind, (wp_of_option _ _ (r, d')); [done|]. by apply (wp_fill_update _ _ _ _ d).
  - apply wp_bind, wp_malloc. intros ok1. apply wp_bind, wp_malloc_if. intros ok2. cbv zeta. apply (wp_fill_update _ _ _ _ d); [done|done|].
    by apply fill_list_ok.
Qed.

Lemma wp_fill_dir R b G dh d nm statp off flags : held b G -> dhs b !! dh = Some d -> dir_ok d -> Z.of_nat (length nm) <= 2 ^ 30 ->
  wp R (fill_dir dh nm statp off flags : IO Z) (fun _ b' => fills b G dh b') b.
Proof.
  intros Hb Hd Ho Hn. unfold fill_dir. destruct (negb _); [by apply (wp_fill_update _ _ _ _ d)|]. apply wp_bind, (wp_dh_at _ _ d); [done|]. apply wp_bind, wp_config. cbv zeta. apply wp_bind.
  destruct (use_ino _); [by apply wp_ret, (wp_fill_end _ _ _ _ d)|]. destruct (readdir_ino _); [|by apply wp_ret, (wp_fill_end _ _ _ _ d)].
  destruct (lookup_nodeid_ok b (dh_nodeid d) nm (s_tree _ _ (hd_sys _ _ Hb))) as [i E]. eapply wp_bind, wp_fuse; [exact E|]. replace (with_fz (fz b) b) with b by by destruct b.
  by apply wp_ret, (wp_fill_end _ _ _ _ d).
Qed.

Lemma same_fills b b' G dh d : held b G -> dhs b !! dh = Some d -> dir_ok d -> same_lib b b' -> fills b G dh b'.
Proof.
  intros Hb Hd Ho Hs. split; [by apply (same_held b)|]. split; [by apply same_lib_tree|]. split; [apply Hs|]. exists d. by rewrite (sl_dhs _ _ Hs).
Qed.

Lemma wp_set_mach R w (Q : unit -> lib M X -> Prop) b : Q tt b -> wp R (set_mach (OS := OS) w) Q b.
Proof. intros HQ s <- _. eexists tt, _. split; [reflexivity|]. split; [by apply quiet_same|done]. Qed.

Lemma wp_run_fill R b G dh d pg : held b G -> dhs b !! dh = Some d -> dir_ok d -> short_names pg -> wp R (run_fill (fill_dir dh) pg : IO Z) (fun _ b' => fills b G dh b') b.
Proof.
  intros Hb Hd Ho Hp. revert b d Hb Hd Ho. induction Hp as [res [x w]|nm st off flags k Hn _ IH]; intros b d Hb Hd Ho; cbn [run_fill].
  - apply wp_bind, wp_set_user, wp_bind, wp_set_mach, wp_ret. by eapply same_fills.
  - apply wp_bind. eapply wp_mono; [by apply (wp_fill_dir R b G dh d)|]. intros r b1 F1. pose proof F1 as (Hb1 & _ & _ & d1 & Hd1 & Ho1).
    eapply wp_mono; [by apply (IH r b1 d1)|]. intros a b2 F2. exact (fills_trans b G dh b1 b2 F1 F2).
Qed.

Lemma wp_readdir_call R b G dh d path off fi flags : readdir_promise -> held b G -> dhs b !! dh = Some d -> dir_ok d ->
  wp R (fuse_fs_readdir fs path (fill_dir dh) off fi flags : IO Z) (fun _ b' => fills b G dh b') b.
Proof.
  intros Hp Hb Hd Ho. apply wp_bind, (wp_fs_enter _ _ b G); [done|]. destruct (o_readdir fs) as [f|] eqn:Ef; [|by apply wp_ret; eapply fills_refl].
  destruct (hd_ctx _ _ Hb) as [c Hc]. intros s Es HR. rewrite bind_get, Es, Hc. unfold of_option. rewrite bind_ret. by apply (wp_run_fill R b G dh d _ Hb Hd Ho (Hp f path off fi flags c _ Ef)).
Qed.

(** Filling a page from the file system. *)
Definition filled_page b (dh err : Z) b' : Prop := held b' [] /\ same_tree b b' /\ exists d', dhs b' !! dh = Some d' /\ (err = 0 -> dir_ok d').

Lemma wp_readdir_fill r i p size off dh d fi b : readdir_promise -> held b [] -> request_ok (fz b) p i None false -> dhs b !! dh = Some d -> 0 <= size < 2 ^ 31 ->
  wp (Some r) (readdir_fill fs r i size off dh fi 0 : IO Z) (fun err b' => filled_page b dh err b') b.
Proof.
  intros Hpr Hb Hr Hd Hsz. unfold readdir_fill. apply wp_bind.
  assert (getter r i None (if is_some (o_readdir fs) then get_path_nullok i else get_path_ i : IO (Z * option bytes))) as Hg by (destruct (is_some _); [apply getter_null|apply getter_path]).
  apply (Hg b p); [done|done|]. intros pr l b1 _ Hnone Hb1 Hl1 _. pose proof (like_tree b b1 [] Hb Hl1) as T1. pose proof (like_ptr b b1 p i Hl1 (request_ptr _ _ _ _ _ Hr)) as Hp1.
  destruct (Z.eqb_spec pr.1 0) as [E|E].
  2: { apply wp_ret. rewrite (Hnone E) in Hb1. split; [done|]. split; [done|]. exists d. by rewrite (lk_dhs _ _ Hl1). }
  cbv zeta. change (has 0 FUSE_READDIR_PLUS) with false. cbv iota. set (G := path_holds p l pr.2 []) in *. rewrite <- (lk_dhs _ _ Hl1) in Hd.
  apply wp_bind, (wp_dh_update _ _ _ d); [done|]. set (b2 := with_dhs _ _ b1). assert (held b2 G) as Hb2 by (apply (filling_held b1); [done|by eexists]).
  assert (dhs b2 !! dh = Some (dh_reset size d)) as Hd2 by apply lookup_insert_eq. assert (same_tree b b2) as T2 by (transitivity b1; [done|apply filling_tree]).
  apply wp_bind. eapply wp_idle; [idle_tac|exact Hb2|]. intros _ b3 S3 Hb3. rewrite <- (sl_dhs _ _ S3) in Hd2.
  apply wp_bind. eapply wp_mono; [apply (wp_readdir_call _ b3 G dh _ pr.2 off fi 0 Hpr Hb3 Hd2); by apply dir_ok_reset|]. intros err b4 (Hb4 & T4 & E4 & d4 & Hd4 & Ho4).
  apply wp_bind. eapply wp_idle; [idle_tac|exact Hb4|]. intros _ b5 S5 Hb5. rewrite <- (sl_dhs _ _ S5) in Hd4. apply wp_bind, (wp_dh_at _ _ d4); [done|]. set (err' := if err =? 0 then _ else _).
  assert (same_tree b b5) as T5 by (transitivity b2; [done|]; transitivity b3; [by apply same_lib_tree|]; transitivity b4; [done|by apply same_lib_tree]).
  assert (ptr_in (nodes (fz b5)) p i) as Hp5 by by rewrite (sl_fz _ _ S5), E4, (sl_fz _ _ S3).
  apply wp_bind, (wp_mono _ _ (fun _ b' => held b' G /\ same_tree b b' /\ fz b' = fz b5 /\ exists d', dhs b' !! dh = Some d' /\ dir_ok d')).
  - destruct (negb _); [|apply wp_ret; by eauto 6]. apply (wp_dh_update _ _ _ d4); [done|]. split; [apply (filling_held b5); [done|by eexists]|].
    split; [transitivity b5; [done|apply filling_tree]|]. split; [done|]. eexists. split; [apply lookup_insert_eq|done].
  - intros _ b6 (Hb6 & T6 & E6 & d6 & Hd6 & Ho6). apply wp_bind. eapply wp_mono; [apply (wp_free _ [] p i l pr.2 b6); [done|by rewrite E6|done]|]. intros _ b7 [Hb7 Hl7].
    apply wp_ret. split; [done|]. split; [transitivity b6; [done|by eapply like_tree]|]. exists d6. by rewrite (lk_dhs _ _ Hl7).
Qed.

(** The page that is sent. *)
Lemma reply_contents_ok r b dh d (Q : unit -> bytes -> lib M X -> Prop) bs : dhs b !! dh = Some d -> Path.load (dh_contents d) 0 (dh_len d) = Some bs ->
  (forall msg, is_reply msg 0 (segs bs) -> Q tt msg b) -> replies r (d ← dh_at dh; reply_contents r d : IO unit) Q b.
Proof.
  intros Hd El HQ. apply replies_bind, (wp_dh_at _ _ d); [done|]. apply replies_bind, (wp_of_option _ _ bs); [done|]. apply replies_after, replies_send. intros res msg Hm. by apply wp_ret, HQ.
Qed.

Lemma dir_ok_load d : dir_ok d -> exists bs, Path.load (dh_contents d) 0 (dh_len d) = Some bs.
Proof.
  intros (Hl & _ & Hs & _). unfold dh_size in Hs. unfold Path.load. destruct (Z.leb_spec 0 (dh_len d)), (Z.leb_spec (0 + dh_len d) (Z.of_nat (length (dh_contents d)))); try lia. cbn. by eexists.
Qed.

(** The second half of READDIR. *)
Definition send_page (r : Z) (size off dh : Z) : IO unit :=
  d ← dh_at dh;
  err ← (if dh_filled d then
           ok ← malloc_if (dh_size d <? u32 size);
           r ← of_option (readdir_fill_from_list ok off false (with_needlen (u32 size) d));
           _ ← dh_update dh (fun _ => r.2); mret r.1
         else mret 0);
  if negb (err =? 0) then reply_err r err else
  d ← dh_at dh; reply_contents r d.

Lemma send_page_ok r size off dh d b0 b : held b [] -> same_tree b0 b -> dhs b !! dh = Some d -> (dh_filled d = false -> dir_ok d) -> short (dh_first d) -> 0 <= size < 2 ^ 31 -> 0 <= off ->
  replies r (send_page r size off dh) (fun _ msg b' => held b' [] /\ same_tree b0 b' /\
    (dh_filled d = true -> (is_reply msg (- ENOMEM) [] \/ is_reply msg 0 (segs (page size off (dh_first d)))) /\
       exists d', dhs b' !! dh = Some d' /\ dh_filled d' = true /\ dh_first d' = dh_first d)) b.
Proof.
  intros Hb Hs Hd Ho Hsh Hsz Hoff. apply replies_bind, (wp_dh_at _ _ d); [done|]. apply replies_bind. destruct (dh_filled d) eqn:Ef; cycle 1.
  { apply wp_ret. cbn [Z.eqb negb]. destruct (dir_ok_load d (Ho eq_refl)) as [bs El]. by apply (reply_contents_ok r b dh d _ bs). }
  apply wp_bind, wp_malloc_if. intros ok. rewrite (wrap_id 32 size) by lia. destruct (page_ok ok off (with_needlen size d) Hsz Hoff Hsh) as (e & d' & E & F & G & Hor). cbn in F, G, Hor.
  apply wp_bind, (wp_of_option _ _ (e, d')); [done|]. apply wp_bind, (wp_dh_update _ _ _ d); [done|]. apply wp_ret. cbn [fst snd]. set (b1 := with_dhs _ _ b).
  assert (held b1 []) as Hb1 by (apply (filling_held b); [done|by eexists]). assert (dhs b1 !! dh = Some d') as Hd1 by apply lookup_insert_eq.
  assert (same_tree b0 b1) as T1 by (transitivity b; [done|apply filling_tree]). rewrite Ef in G.
  destruct Hor as [[-> ->]|[-> El]]; cbn [Z.eqb negb Z.opp ENOMEM].
  - apply replies_err. intros msg Hm. rewrite Z.opp_involutive in Hm. split; [done|]. split; [done|]. intros _. split; [by left|eauto].
  - apply (reply_contents_ok r b1 dh d' _ _ Hd1 El). intros msg Hm. split; [done|]. split; [done|]. intros _. split; [by right|eauto].
Qed.

(** What a reader finds at the offset [off] of a directory [d] whose entries have
    been collected, unless memory is short; the entries are kept. *)
Definition page_post (size off dh : Z) (d : fuse_dh) (msg : bytes) b' : Prop :=
  (is_reply msg (- ENOMEM) [] \/ is_reply msg 0 (segs (page size off (dh_first d)))) /\
  exists d', dhs b' !! dh = Some d' /\ dh_filled d' = true /\ dh_first d' = dh_first d.

Lemma readdir_ok r i size off fi d b : readdir_promise -> held b [] -> known b i -> dhs b !! fi_fh fi = Some d -> short (dh_first d) -> 0 <= size < 2 ^ 31 -> 0 <= off ->
  replies r (fuse_lib_readdir fs r i size off fi)
    (fun _ msg b' => held b' [] /\ same_tree b b' /\ (dh_filled d = true -> off <> 0 -> page_post size off (fi_fh fi) d msg b')) b.
Proof.
  intros Hpr Hb [p Hr] Hd Hsh Hsz Hoff. apply replies_prepare; [done|]. intros b1 Hb1 S1. rewrite <- (sl_fz _ _ S1) in Hr. rewrite <- (sl_dhs _ _ S1) in Hd.
  pose proof (same_lib_tree _ _ S1) as T1. apply replies_bind, (wp_dirhandle _ fi d); [done|]. set (dh := fi_fh fi) in *. apply replies_bind.
  apply (wp_mono _ _ (fun _ b' => held b' [] /\ same_tree b b' /\ fz b' = fz b1 /\ dhs b' !! dh = Some (if off =? 0 then with_filled false d else d))).
  { destruct (off =? 0); [|by apply wp_ret]. apply (wp_dh_update _ _ _ d); [done|]. split; [apply (filling_held b1); [done|by eexists]|].
    split; [transitivity b1; [done|apply filling_tree]|]. split; [done|apply lookup_insert_eq]. }
  intros _ b2 (Hb2 & T2 & E2 & Hd2). set (d2 := if off =? 0 then _ else _) in *. apply replies_bind, (wp_dh_at _ _ d2); [done|]. apply replies_bind.
  apply (wp_mono _ _ (fun err b' => held b' [] /\ same_tree b b' /\ (dh_filled d2 = true -> err = 0) /\ exists d', dhs b' !! dh = Some d' /\ (err = 0 -> short (dh_first d') /\ (dh_filled d2 = true -> d' = d2) /\ (dh_filled d' = false -> dir_ok d')))).
  { destruct (dh_filled d2) eqn:Ef.
    - apply wp_ret. split; [done|]. split; [done|]. split; [done|]. exists d2. split; [done|]. intros _. split; [unfold d2; by destruct (off =? 0)|]. split; [done|congruence].
    - eapply wp_mono; [apply (wp_readdir_fill r i p size off dh d2 _ b2); try done; by rewrite E2|]. intros err b3 (Hb3 & T3 & d3 & Hd3 & Ho3). split; [done|].
      split; [by transitivity b2|]. split; [done|]. exists d3. split; [done|]. intros He. specialize (Ho3 He). split; [apply Ho3|]. by split. }
  intros err b3 (Hb3 & T3 & Hz & d3 & Hd3 & Ho3). destruct (Z.eqb_spec err 0) as [->|He]; cbn [negb].
  - destruct (Ho3 eq_refl) as (Hs3 & Ef3 & Hok). eapply replies_mono; [apply (send_page_ok r size off dh d3 b b3); done|]. intros _ msg b' (Hb' & T' & Hpage). split; [done|]. split; [done|].
    intros Ef Hne. assert (d2 = d) as Ed by (unfold d2; by rewrite (proj2 (Z.eqb_neq _ _) Hne)). rewrite Ed in Ef3. rewrite (Ef3 Ef) in Hpage. by apply Hpage.
  - apply replies_err. intros msg Hm. rewrite Z.opp_involutive in Hm. split; [done|]. split; [done|]. intros Ef Hne.
    destruct He. apply Hz. unfold d2. by rewrite (proj2 (Z.eqb_neq _ _) Hne).
Qed.

End Readdir.
