(* ===== verification/LibTheorems.v ===== *)
(** * The high-level library: its theorems

    A session that serves the library answers the requests of the kernel; the
    lookups the library counts are the ones its replies tell the kernel of; a file
    that is removed or replaced while it is open gets a hidden name that is free.
    The last part shows where the code does not do what it means to. *)

From S2P Require Import Prelude DList NodeTable Wire Locks Node NodeTree NodeOps NodeSpec Slab NodeTheorems Path PathSpec PathQueue PathTree PathTheorems.
From S2P Require Import Buf LowLevel Dispatch Handler Lib LibOps LibSpec LibCalm LibOpen LibTree LibHide LibRename LibDir.

(** ** Every request is answered *)

Section Session.
Context {OS M X : Type} `{FdOps OS} `{DevOps OS} `{!FdLaws OS} `{!DevLaws OS} `{NodeMemLaws M}.
Context (fs : fuse_operations OS X) (intr_call : Z -> Z -> Z -> ST (LL OS (lib M X)) unit).
Implicit Types (b : lib M X).

Abbreviation IO := (ST (LL OS (lib M X))).
Abbreviation ops := (fuse_path_ops (OS := OS) fs).

(** Requests that name one node the kernel has looked up. *)
Definition path_opcodes : list Z := [3; 4; 5; 17; 20; 21; 24; 27; 31; 34; 37; 40; 43; 46].

(** Requests that change the tree, or close a directory. *)
Definition tree_opcodes : list Z := [1; 6; 8; 9; 10; 11; 12; 13; 29; 45].

(** What the kernel guarantees of a request: a node it names has been looked up
    and not forgotten, a file or directory it closes has been opened.  Locks are
    here for file systems that leave them to the library, attributes for file
    systems that keep to their buffer.  READ, CREATE and READDIRPLUS are left out,
    and the requests without a reply. *)
Inductive lib_served b (nodeid : Z) (inarg : bytes) : Z -> Prop :=
  | On_path op : op ∈ path_opcodes -> known b nodeid -> lib_served b nodeid inarg op
  | On_xattr op : op ∈ [22; 23] -> xattr_promise fs -> known b nodeid -> lib_served b nodeid inarg op
  | On_lock op : op ∈ [25; 32; 33] -> o_lock fs = None -> known b nodeid -> lib_served b nodeid inarg op
  | Release_file : o_lock fs = None -> is_opened b nodeid -> lib_served b nodeid inarg 18
  | Open_file : openable b nodeid -> lib_served b nodeid inarg 14
  | Write_data : known b nodeid -> 0 <= u32_at inarg 16 < 2 ^ 32 -> lib_served b nodeid inarg 16
  | On_opened_dir op : op ∈ [29; 30] -> known b nodeid -> is_Some (dhs b !! u64_at inarg 0) -> lib_served b nodeid inarg op
  | Read_dir d : readdir_promise fs -> known b nodeid -> dhs b !! u64_at inarg 0 = Some d -> short (dh_first d) -> 0 <= u32_at inarg 16 < 2 ^ 31 ->
      0 <= i64 (u64_at inarg 8) -> lib_served b nodeid inarg 28
  | Ioctl_file : known b nodeid ->
      ioctl_ok b (with_fh (u64_at inarg 0) fi0) (u32_at inarg 8) (Z.of_nat (length (take (Z.to_nat (u32_at inarg 24)) (drop 32 inarg)))) (u32_at inarg 28) ->
      lib_served b nodeid inarg 39
  | Copy_range : known b nodeid -> known b (u64_at inarg 16) -> lib_served b nodeid inarg 47
  | Lookup_name : names b nodeid (str_at inarg 0) -> plain (str_at inarg 0) -> lib_served b nodeid inarg 1
  | Make_symlink : names b nodeid (str_at inarg 0) -> lib_served b nodeid inarg 6
  | Make_node : names b nodeid (str_at inarg 8) -> names b nodeid (str_at inarg 16) -> lib_served b nodeid inarg 8
  | Make_dir : names b nodeid (str_at inarg 8) -> lib_served b nodeid inarg 9
  | Make_link : known b (u64_at inarg 0) -> names b nodeid (str_at inarg 8) -> lib_served b nodeid inarg 13
  | Remove_name op : op ∈ [10; 11] -> removable b nodeid (str_at inarg 0) -> lib_served b nodeid inarg op
  | Rename_name : renamable b false nodeid (str_at inarg 8) (u64_at inarg 0) (next_str inarg 8) -> lib_served b nodeid inarg 12
  | Rename_flags : renamable b (has (u32_at inarg 8) RENAME_EXCHANGE) nodeid (str_at inarg 16) (u64_at inarg 0) (next_str inarg 16) ->
      lib_served b nodeid inarg 45.

(** The library is in order afterwards, and the tree changes only where it has
    to. *)
Definition in_order (op : Z) b b' : Prop := held b' [] /\ (op ∉ tree_opcodes -> same_tree b b').

Lemma served_order {A} r (m : IO A) op b : serves r m b -> replies r m (fun _ _ b' => in_order op b b') b.
Proof. intros Hm. eapply replies_mono; [exact Hm|]. intros a msg b' [? ?]. by split. Qed.

Lemma tree_order {A} r (m : IO A) op b (Q : A -> bytes -> lib M X -> Prop) : op ∈ tree_opcodes -> (forall a msg b', Q a msg b' -> held b' []) -> replies r m Q b ->
  replies r m (fun _ _ b' => in_order op b b') b.
Proof. intros Hop HQ Hm. eapply replies_mono; [exact Hm|]. intros a msg b' Hq. split; [by eapply HQ|done]. Qed.

Lemma entry_order {A} r (m : IO A) op b d nm : op ∈ tree_opcodes -> replies_dev r m (fun _ msg res b' => entry_post b d nm msg res b') b -> replies r m (fun _ _ b' => in_order op b b') b.
Proof. intros Hop Hm. apply dev_replies. eapply dev_mono; [exact Hm|]. intros _ msg res b' [? _]. by split. Qed.

Lemma result_order {A} r (m : IO A) op b P : op ∈ tree_opcodes -> replies r m (fun _ msg b' => result_post b P msg b') b -> replies r m (fun _ _ b' => in_order op b b') b.
Proof. intros Hop. apply tree_order; [done|]. by intros _ msg b' [? _]. Qed.

Lemma umask_order {A} r (c : bool) um (m : IO A) Q b : replies r m Q b -> replies r (_ ← (if c then set_umask r um else mret tt); m) Q b.
Proof. intros Hm. apply replies_bind. destruct c; [by apply wp_umask|by apply wp_ret]. Qed.

Ltac opcode_tac := erewrite handler_table by (try reflexivity; done); cbn [snd].
Ltac tree_op_tac := apply (bool_decide_unpack _); by vm_compute.

Lemma path_op_order op buf r nodeid inarg b : held b [] -> op ∈ path_opcodes -> known b nodeid ->
  replies r (handler ops intr_call op buf r nodeid inarg) (fun _ _ b' => in_order op b b') b.
Proof.
  intros Hb Hop Hk. unfold path_opcodes in Hop. rewrite !elem_of_cons, elem_of_nil in Hop.
  repeat destruct Hop as [->|Hop]; try done; opcode_tac; apply served_order.
  - apply replies_conn. intros c. by apply getattr_serves.
  - by apply setattr_serves.
  - by apply readlink_serves.
  - by apply statfs_serves.
  - by apply fsync_serves.
  - by apply setxattr_serves.
  - by apply removexattr_serves.
  - by apply opendir_serves.
  - by apply getlk_serves.
  - by apply access_serves.
  - by apply bmap_serves.
  - unfold do_poll. cbn [op_poll fuse_path_ops]. destruct (has (u32_at inarg 16) FUSE_POLL_SCHEDULE_NOTIFY); [|by apply poll_serves]. apply replies_bind, wp_malloc. intros [|]; cbn [negb]; [by apply poll_serves|].
    apply replies_err. by intros msg _.
  - by apply fallocate_serves.
  - by apply lseek_serves.
Qed.

Lemma lock_op_order op buf r nodeid inarg b : held b [] -> op ∈ [25; 32; 33] -> o_lock fs = None -> known b nodeid ->
  replies r (handler ops intr_call op buf r nodeid inarg) (fun _ _ b' => in_order op b b') b.
Proof.
  intros Hb Hop El Hk. rewrite !elem_of_cons, elem_of_nil in Hop. repeat destruct Hop as [->|Hop]; try done; opcode_tac; apply served_order.
  - apply replies_conn. intros c. by apply flush_serves.
  - unfold do_setlk, do_setlk_common. destruct (has (u32_at inarg 40) FUSE_LK_FLOCK); [by apply flock_serves|by apply setlk_serves].
  - unfold do_setlkw, do_setlk_common. destruct (has (u32_at inarg 40) FUSE_LK_FLOCK); [by apply flock_serves|by apply setlk_serves].
Qed.

Lemma write_order buf r nodeid inarg b : held b [] -> known b nodeid -> 0 <= u32_at inarg 16 < 2 ^ 32 -> has (bflags buf) FUSE_BUF_IS_FD = false ->
  replies r (handler ops intr_call FUSE_WRITE buf r nodeid inarg) (fun _ _ b' => in_order FUSE_WRITE b b') b.
Proof.
  intros Hb Hk Hs Hfd. apply served_order. unfold handler. rewrite Z.eqb_refl. cbn [andb is_some op_write_buf fuse_path_ops].
  unfold Dispatch.do_write_buf. rewrite Hfd. cbn [negb andb op_write_buf fuse_path_ops]. apply replies_conn. intros c.
  assert (forall bf, serves r (bufv ← (if bsize bf <? u32_at inarg 16 then _ ← err_reply r EIO; mret (FuseBufvec 1 0 0 [bf])
     else fuse_lib_write_buf fs r nodeid (FuseBufvec 1 0 0 [FuseBuf (u32_at inarg 16) (bflags bf) (bmem bf) (bfd bf) (bpos bf)])
            (i64 (u64_at inarg 8)) (write_fi (proto_minor c) inarg)); mret tt : IO unit) b) as Hbuf.
  { intros bf. apply replies_after. apply (replies_mono _ _ (fun _ _ b' => held b' [] /\ same_tree b b')); [|intros v msg b' Hq; by apply wp_ret].
    destruct (_ <? _); [apply replies_after, replies_err; intros msg _; by apply wp_ret|].
    apply write_buf_serves; [done|done| |done|done|cbn; lia]. split; [done|]. split; [by repeat constructor; cbn; lia|]. split; [done|]. intros _. cbn. lia. }
  destruct (_ <? 9); apply replies_bind; [apply wp_bind, (wp_ret _ tt)|]; apply wp_ret; exact (Hbuf _).
Qed.

Lemma remove_op_order op buf r nodeid inarg b : held b [] -> op ∈ [10; 11] -> removable b nodeid (str_at inarg 0) ->
  replies r (handler ops intr_call op buf r nodeid inarg) (fun _ _ b' => in_order op b b') b.
Proof.
  intros Hb Hop Hr. rewrite !elem_of_cons, elem_of_nil in Hop. destruct Hop as [->|[->|[]]]; opcode_tac; (eapply result_order; [tree_op_tac|]).
  - by apply unlink_request_ok.
  - by apply rmdir_ok.
Qed.

Lemma dir_op_order op buf r nodeid inarg b : held b [] -> op ∈ [29; 30] -> known b nodeid -> is_Some (dhs b !! u64_at inarg 0) ->
  replies r (handler ops intr_call op buf r nodeid inarg) (fun _ _ b' => in_order op b b') b.
Proof.
  intros Hb Hop Hk Hd. rewrite !elem_of_cons, elem_of_nil in Hop. destruct Hop as [->|[->|[]]]; opcode_tac.
  - eapply tree_order; [tree_op_tac| |by apply releasedir_serves]. by intros _ msg b' [? _].
  - by apply served_order, fsyncdir_serves.
Qed.

Lemma served_in_order op buf r nodeid inarg b : held b [] -> lib_served b nodeid inarg op -> has (bflags buf) FUSE_BUF_IS_FD = false ->
  replies r (handler ops intr_call op buf r nodeid inarg) (fun _ _ b' => in_order op b b') b.
Proof.
  intros Hb Hs Hfd. destruct Hs as [op Hop Hk|op Hop Hx Hk|op Hop El Hk|El Ho|Ho|Hk Hs|op Hop Hk Hd|d Hpr Hk Hd Hsh Hsz Hoff|Hk Hi|Hk Hk2|Hn Hp|Hn|Hn1 Hn2|Hn|Hk Hn|op Hop Hr|Hr|Hr].
  - by apply path_op_order.
  - rewrite !elem_of_cons, elem_of_nil in Hop. destruct Hop as [->|[->|[]]]; opcode_tac; apply served_order; [by apply getxattr_serves|by apply listxattr_serves].
  - by apply lock_op_order.
  - opcode_tac. apply served_order, replies_conn. intros c. by apply release_serves.
  - opcode_tac. by apply served_order, open_serves.
  - by apply write_order.
  - by apply dir_op_order.
  - opcode_tac. eapply replies_mono; [by apply (readdir_ok fs r nodeid (u32_at inarg 16) (i64 (u64_at inarg 8)) (with_fh (u64_at inarg 0) fi0) d)|]. intros _ msg b' (? & ? & _). by split.
  - opcode_tac. apply served_order, replies_conn. intros c. unfold do_ioctl. destruct (has (u32_at inarg 8) FUSE_IOCTL_DIR && _); [apply replies_err; by intros msg _|by apply ioctl_serves].
  - opcode_tac. by apply served_order, copy_serves.
  - opcode_tac. eapply entry_order; [tree_op_tac|by apply lookup_ok].
  - opcode_tac. eapply entry_order; [tree_op_tac|by apply symlink_ok].
  - opcode_tac. apply replies_conn. intros c. apply umask_order. cbv zeta. destruct (12 <=? _); (eapply entry_order; [tree_op_tac|by apply mknod_ok]).
  - opcode_tac. apply replies_conn. intros c. apply umask_order. eapply entry_order; [tree_op_tac|by apply mkdir_ok].
  - opcode_tac. eapply entry_order; [tree_op_tac|by apply link_ok].
  - by apply remove_op_order.
  - opcode_tac. eapply result_order; [tree_op_tac|by apply rename_ok].
  - opcode_tac. eapply result_order; [tree_op_tac|by apply rename_ok].
Qed.

(** C12: A session that serves the high-level library answers the requests of
    [lib_served].  These are all opcodes but INIT, DESTROY, READ, CREATE,
    READDIRPLUS, INTERRUPT and the requests that have no reply; without LOOKUP of
    the names [.] and [..] (of a removed directory the latter crashes,
    [dotdot_crashes]), and without FLUSH, SETLK, SETLKW and RELEASE on a file system
    that has a lock callback.  A request names nodes and open files the kernel
    knows; GETXATTR, LISTXATTR and READDIR need a file system that keeps to the
    buffer and the length of a name, IOCTL arguments that fit.  The library is idle
    when the request comes: no path is locked and none waits; the session has memory
    for the request and its message has not been spliced.
    Whatever else the file system, the system calls and the device return: one
    reply with the number of the request is sent (after at most one EAGAIN for a
    stale interrupt), the session keeps its invariant, the tree of nodes stays well
    formed, no path stays locked and no request waits; and but for the requests
    that are there to change it, the tree the kernel knows, the configuration and
    the open directories stay. *)
Theorem lib_request_answered (s : LL OS (lib M X)) l i n buf :
  let hdr := load (ram (mach s)) (bmem buf) (Z.to_nat IN_HEADER) in
  let opcode := u32_at hdr 4 in
  let inarg := load (ram (mach s)) (bmem buf + IN_HEADER) (Z.to_nat (bsize buf - IN_HEADER)) in
  LowLevel.inv s l i n -> LowLevel.heap s = [] -> held (user s) [] -> has (bflags buf) FUSE_BUF_IS_FD = false ->
  lib_served (user s) (u64_at hdr 16) inarg opcode ->
  exists s' i' pre fd msg,
    fuse_session_process_buf_int ops intr_call buf None s = Some (tt, s') /\
    LowLevel.inv s' l i' n /\ in_order opcode (user s) (user s') /\ sent s' = sent s ++ pre ++ [(fd, msg)] /\
    u64_at msg 8 = u64 (u64_at hdr 8) /\ (length pre <= 1)%nat /\
    Forall (fun e => exists uq, e.2 = reply_msg (- EAGAIN) uq []) pre.
Proof.
  intros hdr opcode inarg I Hh Hb Hfd Hs.
  refine (process_answered ops intr_call (eq (user s)) (in_order opcode (user s)) _ s l i n buf I Hh eq_refl Hfd _ _).
  - intros ? <-. by split.
  - intros E. assert (lib_served (user s) (u64_at hdr 16) inarg FUSE_INTERRUPT -> False) as Hn; [|apply Hn; by rewrite <- E].
    inversion 1 as [? Hop|? Hop|? Hop| | | |? Hop| | | | | | | | |? Hop| |]; unfold path_opcodes in *; rewrite !elem_of_cons, elem_of_nil in Hop;
      repeat destruct Hop as [Hop|Hop]; done.
  - intros _ r. eapply replies_answers; [by apply served_in_order|]. by intros.
Qed.

(** ** Requests that change the tree *)

(** C13: The lookups the library counts are the ones the kernel knows of: if the
    reply to LOOKUP (of a name other than [.] and [..]), MKNOD, MKDIR, SYMLINK or
    LINK names a node, the node is at the name that was asked for, and has one
    lookup more than before if and only if the device has taken the reply: if
    writing it to the device has the result ENOENT, the lookup is forgotten again,
    and with every other result it stays.  If the reply names no node, the tree has
    not changed. *)
Theorem lookups_agree r d nm b : held b [] -> names b d nm ->
  (plain nm -> replies_dev r (fuse_lib_lookup fs r d nm) (fun _ msg res b' => entry_post b d (Some nm) msg res b') b) /\
  (forall mode rdev, replies_dev r (fuse_lib_mknod fs r d nm mode rdev) (fun _ msg res b' => entry_post b d (Some nm) msg res b') b) /\
  (forall mode, replies_dev r (fuse_lib_mkdir fs r d nm mode) (fun _ msg res b' => entry_post b d (Some nm) msg res b') b) /\
  (forall target, replies_dev r (fuse_lib_symlink fs r target d nm) (fun _ msg res b' => entry_post b d (Some nm) msg res b') b) /\
  (forall i, known b i -> replies_dev r (fuse_lib_link fs r i d nm) (fun _ msg res b' => entry_post b d (Some nm) msg res b') b).
Proof.
  intros Hb Hn. split; [by apply lookup_ok|]. split; [intros; by apply mknod_ok|]. split; [intros; by apply mkdir_ok|]. split; [intros; by apply symlink_ok|]. intros. by apply link_ok.
Qed.

(** C14: UNLINK hides a file if and only if it is open and the configuration does
    not say [hard_remove]; RMDIR hides none.  A file that is not hidden is removed
    by the file system, which is called with its path: the reply is the result of
    the call, the tree is as it was if the result is not 0, and has lost the file if
    it is 0.  A file that is hidden is moved by the file system to a hidden name of
    the same directory that no file has, at a path the file system has just said to
    be free; the reply is the result of that call, or EBUSY if ten names were in
    use, their attributes could not be read, or there was no path.  Without a path
    for the file itself, because memory is short or a directory above has been
    removed, the file system is not called and nothing changes. *)
Theorem removes_or_hides r d nm b : held b [] -> removable b d nm ->
  replies r (fuse_lib_unlink fs r d nm) (fun _ msg b' => result_post b (unlink_effect fs (fz b) (fsx b) d nm) msg b') b /\
  replies r (fuse_lib_rmdir fs r d nm) (fun _ msg b' => result_post b (rmdir_effect fs (fz b) (fsx b) d nm) msg b') b.
Proof. intros Hb Hr. split; [by apply unlink_request_ok|by apply rmdir_ok]. Qed.

(** C15: RENAME first hides the file it replaces, if and only if that file is open,
    the files are not exchanged and the configuration does not say [hard_remove];
    if that fails the reply is its result.  Then the file system is called with
    both paths and the flags: if the result is not 0 it is the reply and the tree is
    as it was, but for the hidden file; if it is 0 the tree follows, the file is at
    the new name, or both files have changed places, unless there is no memory for
    a name.  Without both paths the file system is not called and nothing
    changes. *)
Theorem rename_moves r od on nd nn flags b : held b [] -> renamable b (has flags RENAME_EXCHANGE) od on nd nn ->
  replies r (fuse_lib_rename fs r od on nd nn flags) (fun _ msg b' => result_post b (rename_effect fs (fz b) (fsx b) od on nd nn flags) msg b') b.
Proof. apply rename_ok. Qed.

(** FORGET and BATCH_FORGET forget the lookups they name, one by one, free
    the request and send nothing. *)
Theorem forgets_drop r b : held b [] ->
  (forall i k, allowed (rem b) (abs (fz b)) (OForget i k) ->
     drops r (fuse_lib_forget r i k : IO unit) (fun b' => held b' [] /\ others b b' /\ spec (rem b) (abs (fz b)) (OForget i k) RDone (abs (fz b'))) b) /\
  (forall l, may_forget (rem b) (abs (fz b)) l ->
     drops r (fuse_lib_forget_multi r l : IO unit) (fun b' => held b' [] /\ others b b' /\ forgets (rem b) (abs (fz b)) l (abs (fz b'))) b).
Proof. intros Hb. split; intros; [by apply forget_request_ok|by apply forget_multi_ok]. Qed.

(** ** Directories *)

(** READDIR at an offset of a directory whose entries have been collected
    replies with the page of the entries from that offset on, as many as fit,
    numbered by their place, and keeps the entries; or with ENOMEM. *)
Theorem readdir_pages r i size off fi d b : readdir_promise fs -> held b [] -> known b i -> dhs b !! fi_fh fi = Some d -> dh_filled d = true ->
  short (dh_first d) -> 0 <= size < 2 ^ 31 -> 0 < off ->
  replies r (fuse_lib_readdir fs r i size off fi) (fun _ msg b' => held b' [] /\ same_tree b b' /\ page_post size off (fi_fh fi) d msg b') b.
Proof.
  intros Hp Hb Hk Hd Hf Hs Hsz Ho. eapply replies_mono; [apply (readdir_ok fs r i size off fi d); (done || lia)|]. intros _ msg b' (? & ? & Hpage). split; [done|]. split; [done|]. apply Hpage; [done|lia].
Qed.

(** ** Where the code fails *)

(** A LOOKUP of [..] in a directory that has been removed, or in the root,
    dereferences a null pointer: the node has no parent. *)
Theorem dotdot_crashes (s : LL OS (lib M X)) r i e : has_req (Some r) s -> held (user s) [] -> known (user s) i -> abs (fz (user s)) !! i = Some e -> place e = None ->
  fuse_lib_lookup fs r i (lit "..") s = None.
Proof.
  intros HR Hb [p Hr] He Hp. unfold fuse_lib_lookup.
  destruct (idle_prepare r (user s) (hd_live _ _ Hb) (hd_ctx _ _ Hb) s eq_refl HR) as ([] & s1 & E1 & _ & S1). rewrite (bind_step _ _ _ _ _ E1).
  pose proof (same_held _ _ [] S1 Hb) as Hb1. rewrite <- (sl_fz _ _ S1) in He, Hr. destruct (known_node (user s1) [] p i Hb1 (request_ptr _ _ _ _ _ Hr)) as (n & Eg & Hn & Hi).
  assert (parent n = None) as Epar.
  { pose proof (abs_node (fz (user s1)) p n (conj (s_tree _ _ (hd_sys _ _ Hb1)) (s_acyclic _ _ (hd_sys _ _ Hb1))) Hn) as Ha. rewrite Hi, He in Ha. injection Ha as ->.
    destruct (parent n) as [d|] eqn:Ed; [|done]. destruct (key_in_closed _ p n d (tree_closed _ (s_tree _ _ (hd_sys _ _ Hb1))) Hn Ed) as (? & ? & _ & _ & Hk). cbn in Hp. congruence. }
  assert (lookup_dots i (lit "..") (fz (user s1)) = None) as Ecrash.
  { unfold lookup_dots. change (is_dot (lit "..")) with false. change (is_dotdot (lit "..")) with true. cbv iota. rewrite (bind_step _ _ _ _ _ Eg), (bind_step _ _ _ _ _ (node_at_eq _ p n Hn)), Epar. done. }
  unfold mbind at 1, ST_bind at 1, on_fuse at 1. by rewrite Ecrash.
Qed.

End Session.

(** C16: A directory whose entries have been collected is read completely: a
    reader that asks for pages of [size] bytes, each from the offset of the last
    entry of the page before, until one is empty, gets every entry once, in
    order, with its name, number and type, whatever the size of the pages, as
    long as a page has room for every single entry. *)
Theorem dir_listing_complete size d : 0 <= size < 2 ^ 31 -> short (dh_first d) -> Z.of_nat (length (dh_first d)) < 2 ^ 63 ->
  Forall (fun e : bytes * stat => FUSE_DIRENT_ALIGN (24 + Z.of_nat (length e.1)) <= size) (dh_first d) ->
  read_dir (S (length (dh_first d))) size 0 d = Some (seen <$> numbered 0 (dh_first d)).
Proof. intros Hs Hn Hl Hf. apply (read_dir_ok _ size 0 d); [done|lia|lia|done..]. Qed.

(** ** A small file system *)

#[local] Existing Instance bump_pages.
#[local] Existing Instance bump_laws.

Definition demo_attr : stat := Stat 0 77 33188 1 0 0 0 0 0 0 0 0 0 0 0 0.

(** Every path is a file; the root lists [a], without an offset. *)
Definition demo_fs : fuse_operations files unit :=
  FsOps files unit
    (Some (fun _ _ _ s => ((0, demo_attr), s))
    ) None None None
    (Some (fun _ _ s => (0, s))) (Some (fun _ _ s => (0, s))) None
    (Some (fun _ _ _ _ s => (0, s))) None None None None None None None None None None None None None None None None
    (Some (fun _ _ _ _ _ s => DirAdd (lit "a") (Some demo_attr) 0 FUSE_FILL_DIR_PLUS (fun _ => DirDone 0 s)))
    None None None None None None None None None None None None None None None None None.

(** The library after lookups of [a] and [b] in the root, which is open. *)
Definition demo_dh : fuse_dh := Dh [] [(lit "a", demo_attr); (lit "b", demo_attr); (lit "c", demo_attr)] 0 0 true 0 0 FUSE_ROOT_ID.
Definition demo_lib : lib slab_mem unit := Lib demo_ab tt true (Some (ReqCtx 0 0 0 0)) {[1 := demo_dh]} 2.

Definition demo_start (mem : gmap Z Z) : LL files (lib slab_mem unit) := start example_session (World (∅ : files) mem 4000) demo_lib.
Definition demo_ll : LL files (lib slab_mem unit) := with_new_req example_req (demo_start ∅).

(** READDIRPLUS of a file system that gives its entries without offsets
    counts a lookup for each entry, but the reply names no node: the kernel never
    forgets what it has not been told, and the node stays for good. *)
Theorem readdirplus_leaks : exists s' fd msg,
  fuse_lib_readdirplus demo_fs 1 FUSE_ROOT_ID 4096 0 (with_fh 1 fi0) demo_ll = Some (tt, s') /\
  sent s' = [(fd, msg)] /\ u32_at msg 4 = 0 /\ u64_at msg 16 = 0 /\
  count <$> abs (fz (user demo_ll)) !! 2 = Some 1 /\ count <$> abs (fz (user s')) !! 2 = Some 2.
Proof.
  eexists _, _, _. split; [vm_compute; reflexivity|]. split; [vm_compute; reflexivity|]. split; [vm_compute; reflexivity|]. split; [vm_compute; reflexivity|].
  split; vm_compute; reflexivity.
Qed.

(** A file system that renames nothing but to hidden names, which are free. *)
Definition is_hidden_path (path : option bytes) : bool := bool_decide (take 13 (default [] path) = lit "/.fuse_hidden").

Definition picky_fs : fuse_operations files unit :=
  FsOps files unit
    (Some (fun path _ _ s => ((if is_hidden_path path then - ENOENT else 0, demo_attr), s))
    ) None None None
    (Some (fun _ _ s => (0, s))) (Some (fun _ _ s => (0, s))) None
    (Some (fun _ new _ _ s => (if is_hidden_path new then 0 else - EIO, s))) None None None None None None None None None None None None None None None None
    None None None None None None None None None None None None None None None None None None.

(** The file [b] has been opened. *)
Definition open_b_ll : LL files (lib slab_mem unit) :=
  with_new_req example_req (start example_session (World (∅ : files) ∅ 4000) (with_fz (run_on (add_open 3) demo_ab) demo_lib)).

(** A rename that fails costs the file it would have replaced its name: if
    that file is open it is hidden before the file system is asked, and stays
    hidden after the error; its last close removes it. *)
Theorem failed_rename_hides : exists s' fd msg,
  fuse_lib_rename picky_fs 1 FUSE_ROOT_ID (lit "a") FUSE_ROOT_ID (lit "b") 0 open_b_ll = Some (tt, s') /\
  sent s' = [(fd, msg)] /\ u32_at msg 4 = u32 (- EIO) /\
  place <$> abs (fz (user open_b_ll)) !! 3 = Some (Some (FUSE_ROOT_ID, lit "b")) /\
  place <$> abs (fz (user s')) !! 3 = Some (Some (FUSE_ROOT_ID, lit ".fuse_hidden0000000300000001")) /\
  place <$> abs (fz (user s')) !! 2 = Some (Some (FUSE_ROOT_ID, lit "a")).
Proof.
  eexists _, _, _. split; [vm_compute; reflexivity|]. split; [vm_compute; reflexivity|]. split; [vm_compute; reflexivity|]. split; [vm_compute; reflexivity|].
  split; vm_compute; reflexivity.
Qed.

(** ** The theorems on this file system *)

Lemma demo_held : held demo_lib [].
Proof.
  split; [exact (no_locks_sys _ demo_no_locks)|vm_compute; reflexivity|reflexivity|eexists; reflexivity|].
  intros d [h Hh]. cbn [dhs demo_lib] in Hh. apply lookup_singleton_Some in Hh as [<- _]. reflexivity.
Qed.

Lemma demo_root : exists n, nodes demo_ab !! 4240 = Some n /\ nodeid n = FUSE_ROOT_ID /\ nlookup n <> 0.
Proof. eexists. split; [vm_compute; reflexivity|]. split; [reflexivity|discriminate]. Qed.

(** A request for a name in the root, or for the root. *)
Lemma demo_request nm : match nm with Some s => nonul s /\ Z.of_nat (length s) <= 100 | None => True end -> request_ok demo_ab 4240 FUSE_ROOT_ID nm false.
Proof.
  intros Hn. destruct demo_root as (n & Hn0 & Hr & Hl). split; [exact (ex_intro _ n (conj Hn0 (conj Hr Hl)))| | |intros Hw; discriminate Hw].
  - destruct nm as [s|]; [|exact I]. destruct Hn as [? ?]. split; [assumption|lia].
  - intros l e Hs. rewrite (segment_root _ _ _ _ _ Hn0 Hr Hs). destruct nm as [s|]; [|vm_compute; discriminate]. destruct Hn as [_ Hn]. cbn [path_string tail_of length app]. cbn. lia.
Qed.

Lemma demo_known : known demo_lib FUSE_ROOT_ID.
Proof. exists 4240. exact (demo_request None Logic.I). Qed.

Lemma demo_names nm : nonul nm -> Z.of_nat (length nm) <= 100 -> names demo_lib FUSE_ROOT_ID nm.
Proof.
  intros Hn Hl. split; [split|exists 4240; exact (demo_request (Some nm) (conj Hn Hl))].
  - change (fz demo_lib) with demo_ab. eapply (allowed_find _ _ _ (Entry 1 None 0)); vm_compute; reflexivity.
  - intros k Hk%list_elem_of_singleton. subst k. exact Hn.
Qed.

Lemma demo_roomy : roomy demo_lib 4240.
Proof.
  destruct demo_root as (n & Hn0 & Hr & _). intros i c l e Hs. change (fz demo_lib) with demo_ab in *. rewrite (segment_root _ _ _ _ _ Hn0 Hr Hs). cbn [path_string tail_of]. vm_compute. discriminate.
Qed.

Lemma demo_removable : removable demo_lib FUSE_ROOT_ID (lit "a").
Proof.
  split; [|split; [repeat constructor; discriminate|exists 4240; split; [exact demo_request_a|exact demo_roomy]]]. change (fz demo_lib) with demo_ab.
  split; [eexists; split; [vm_compute; reflexivity|discriminate]|]. apply at_place_paths.
  apply (bool_decide_unpack (map_Forall (fun _ e => place e = Some (FUSE_ROOT_ID, lit "a") -> (if rem demo_lib then 1 else 0) < count e) _)). vm_compute. exact Logic.I.
Qed.

Lemma demo_write_b : request_ok demo_ab 4240 FUSE_ROOT_ID (Some (lit "b")) true.
Proof.
  destruct (demo_request (Some (lit "b"))) as [H1 H2 H3 _]; [split; [repeat constructor; discriminate|vm_compute; discriminate]|]. split; [exact H1|exact H2|exact H3|].
  intros _. exists (lit "b"). split; [reflexivity|]. intros w n Hw _. revert w n Hw. apply (bool_decide_unpack (map_Forall (fun _ n => nlookup n <> 0) _)). vm_compute. exact Logic.I.
Qed.

(** Nothing in the root is above it. *)
Lemma demo_below i e nm : abs demo_ab !! i = Some e -> place e = Some (FUSE_ROOT_ID, nm) -> ~ below (abs demo_ab) i FUSE_ROOT_ID.
Proof.
  assert (abs demo_ab !! FUSE_ROOT_ID = Some (Entry 1 None 0)) as Hr by (vm_compute; reflexivity). intros Hi Hp. apply (below_top _ _ _ _ Hr); [reflexivity|].
  intros ->. rewrite Hr in Hi. injection Hi as <-. discriminate Hp.
Qed.

Lemma demo_renamable : renamable demo_lib (has 0 RENAME_EXCHANGE) FUSE_ROOT_ID (lit "a") FUSE_ROOT_ID (lit "b").
Proof.
  change (has 0 RENAME_EXCHANGE) with false. change (fz demo_lib) with demo_ab. assert (holds (abs demo_ab) FUSE_ROOT_ID) as Hh by (eexists; split; [vm_compute; reflexivity|discriminate]).
  split; [|split; [repeat constructor; discriminate|split; [repeat constructor; discriminate|split; [|split]]]].
  - split; [exact Hh|]. split; [exact Hh|]. split; [discriminate|]. split; apply at_place_paths.
    + intros i e Hi Hp. split; [|exact (demo_below i e _ Hi Hp)]. revert i e Hi Hp.
      apply (bool_decide_unpack (map_Forall (fun _ e => place e = Some (FUSE_ROOT_ID, lit "a") -> count e <> 0) _)). vm_compute. exact Logic.I.
    + apply (bool_decide_unpack (map_Forall (fun _ e => place e = Some (FUSE_ROOT_ID, lit "b") -> (if rem demo_lib then 1 else 0) < count e) _)). vm_compute. exact Logic.I.
  - exists 2. eexists. split; vm_compute; reflexivity.
  - split; [|split].
    + intros s j e _ [= <-] Hj Hp. exact (demo_below j e _ Hj Hp).
    + intros s j e _ [= <-] Hj Hp. exact (demo_below j e _ Hj Hp).
    + discriminate.
  - exists 4240, 4240. split; [exact demo_request_a|]. split; [exact demo_write_b|exact demo_roomy].
Qed.

Lemma lib_request_answered_witness : exists s' pre fd msg,
  fuse_session_process_buf_int (fuse_path_ops demo_fs) no_intr (msg_at lookup_msg 2000) None (demo_start (store ∅ 2000 lookup_msg)) = Some (tt, s') /\
  held (user s') [] /\ sent s' = pre ++ [(fd, msg)] /\ u64_at msg 8 = 5.
Proof.
  destruct (lib_request_answered demo_fs no_intr (demo_start (store ∅ 2000 lookup_msg)) [] [] [] (msg_at lookup_msg 2000)) as (s' & i' & pre & fd & msg & E & _ & [Hb _] & S' & U' & _).
  - apply inv_start.
  - reflexivity.
  - exact demo_held.
  - reflexivity.
  - change (u32_at _ 4) with 1. apply Lookup_name; [|split; reflexivity]. apply demo_names; [repeat constructor; discriminate|vm_compute; discriminate].
  - exists s', pre, fd, msg. split; [exact E|]. split; [exact Hb|]. split; [exact S'|]. rewrite U'. vm_compute. reflexivity.
Defined.

Lemma lookups_agree_witness : held demo_lib [] /\ names demo_lib FUSE_ROOT_ID (lit "a") /\
  replies_dev 1 (fuse_lib_lookup demo_fs 1 FUSE_ROOT_ID (lit "a")) (fun _ msg res b' => entry_post demo_lib FUSE_ROOT_ID (Some (lit "a")) msg res b') demo_lib.
Proof.
  split; [exact demo_held|]. assert (names demo_lib FUSE_ROOT_ID (lit "a")) as Hn by (apply demo_names; [repeat constructor; discriminate|vm_compute; discriminate]).
  split; [exact Hn|]. apply (proj1 (lookups_agree demo_fs 1 FUSE_ROOT_ID (lit "a") demo_lib demo_held Hn)). split; reflexivity.
Defined.

Lemma removes_or_hides_witness : removable demo_lib FUSE_ROOT_ID (lit "a") /\
  replies 1 (fuse_lib_unlink demo_fs 1 FUSE_ROOT_ID (lit "a")) (fun _ msg b' => result_post demo_lib (unlink_effect demo_fs (fz demo_lib) (fsx demo_lib) FUSE_ROOT_ID (lit "a")) msg b') demo_lib.
Proof. split; [exact demo_removable|]. exact (proj1 (removes_or_hides demo_fs 1 FUSE_ROOT_ID (lit "a") demo_lib demo_held demo_removable)). Defined.

Lemma rename_moves_witness : renamable demo_lib (has 0 RENAME_EXCHANGE) FUSE_ROOT_ID (lit "a") FUSE_ROOT_ID (lit "b") /\
  replies 1 (fuse_lib_rename demo_fs 1 FUSE_ROOT_ID (lit "a") FUSE_ROOT_ID (lit "b") 0)
    (fun _ msg b' => result_post demo_lib (rename_effect demo_fs (fz demo_lib) (fsx demo_lib) FUSE_ROOT_ID (lit "a") FUSE_ROOT_ID (lit "b") 0) msg b') demo_lib.
Proof. split; [exact demo_renamable|]. exact (rename_moves demo_fs 1 FUSE_ROOT_ID (lit "a") FUSE_ROOT_ID (lit "b") 0 demo_lib demo_held demo_renamable). Defined.

Lemma forgets_drop_witness : allowed (rem demo_lib) (abs (fz demo_lib)) (OForget 2 1) /\ exists Q, drops (OS := files) 1 (fuse_lib_forget 1 2 1) Q demo_lib.
Proof.
  assert (allowed (rem demo_lib) (abs (fz demo_lib)) (OForget 2 1)) as Ha by (right; eexists; split; [vm_compute; reflexivity|vm_compute; split; [reflexivity|discriminate]]).
  split; [exact Ha|]. eexists. exact (proj1 (forgets_drop 1 demo_lib demo_held) 2 1 Ha).
Defined.

Lemma demo_short : short (dh_first demo_dh).
Proof. repeat constructor; vm_compute; discriminate. Qed.

Lemma readdir_pages_witness : exists Q, replies 1 (fuse_lib_readdir demo_fs 1 FUSE_ROOT_ID 64 1 (with_fh 1 fi0)) Q demo_lib /\
  parse_dirents 3 (page 64 1 (dh_first demo_dh)) = Some [Dirent 77 2 8 (lit "b"); Dirent 77 3 8 (lit "c")].
Proof.
  eexists. split; [|vm_compute; reflexivity]. apply (readdir_pages demo_fs 1 FUSE_ROOT_ID 64 1 (with_fh 1 fi0) demo_dh demo_lib).
  - intros f path off fi flags c s [= <-]. repeat constructor. vm_compute. discriminate.
  - exact demo_held.
  - exact demo_known.
  - reflexivity.
  - reflexivity.
  - exact demo_short.
  - lia.
  - lia.
Defined.

Lemma dir_listing_complete_witness : read_dir 4 40 0 demo_dh = Some [Dirent 77 1 8 (lit "a"); Dirent 77 2 8 (lit "b"); Dirent 77 3 8 (lit "c")].
Proof.
  refine (eq_trans (dir_listing_complete 40 demo_dh _ _ _ _) _).
  - lia.
  - exact demo_short.
  - reflexivity.
  - repeat constructor; vm_compute; discriminate.
  - vm_compute. reflexivity.
Defined.

Lemma dotdot_crashes_witness : fuse_lib_lookup demo_fs 1 FUSE_ROOT_ID (lit "..") demo_ll = None.
Proof.
  apply (dotdot_crashes demo_fs demo_ll 1 FUSE_ROOT_ID (Entry 1 None 0)).
  - exists example_req, None, 0. split; reflexivity.
  - exact demo_held.
  - exact demo_known.
  - vm_compute. reflexivity.
  - reflexivity.
Defined.
