(* ===== verification/Stack.v ===== *)
(** * Stacked modules: libfuse/lib/modules

    A module sits between the library and a file system, or between two other
    modules: it is a table of callbacks that call the next table, through the
    wrappers fuse_fs_* of fuse.c, with other paths.  subdir.c puts a directory
    in front of every path and iconv.c converts its character set; apart from
    the function that makes the new path, all but a few of their callbacks are
    the same code, which is here: [stack_getattr] and so on, for any function
    [conv] that makes a new path or fails.  [Subdir] and [Iconv] instantiate it.

    A module keeps its own state [Y]; [list bool] holds the outcomes of the next
    allocations, an empty list meaning success. *)

From S2P Require Import Prelude Wire Locks Node Buf LowLevel Dispatch Lib.

Section Next.
Context {OS X : Type} `{FdOps OS} `{DevOps OS}.
Context (next : fuse_operations OS X).

(** ** Calling the next file system

    fuse_fs_*(d->next, ...): the callback, or the answer for a missing one. *)
Definition fs_next {T A} (o : option T) (call : T -> fsop OS X A) (missing : A) : fsop OS X A :=
  fun c st => match o with Some f => call f c st | None => (missing, st) end.

Definition mst (Y : Type) : Type := list bool * Y.

Context {Y : Type}.
Abbreviation Sx := (mst Y * X)%type.

(** The next file system does not see the state of the module. *)
Definition under {A} (k : fsop OS X A) : fsop OS Sx A := fun c st =>
  let '((m, x), w) := st in
  let '(a, (x, w)) := k c (x, w) in (a, ((m, x), w)).

(** malloc *)
Definition take_outcome (m : mst Y) : bool * mst Y :=
  match m.1 with [] => (true, m) | b :: bs => (b, (bs, m.2)) end.

Definition allocate {A} (fail : A) (k : fsop OS Sx A) : fsop OS Sx A := fun c st =>
  let '((m, x), w) := st in
  let '(ok, m) := take_outcome m in
  if (ok : bool) then k c ((m, x), w) else (fail, ((m, x), w)).

(** A new block of [len] bytes. *)
Definition new_mem {A} (len : Z) (k : Z -> fsop OS Sx A) : fsop OS Sx A := fun c st =>
  let '(y, w) := st in k (brk w) c (y, World (os w) (ram w) (brk w + len)).

Definition fs_next_read_buf (path : option bytes) (size off : Z) (fi : fuse_file_info) : fsop OS Sx (Z * option fuse_bufvec) :=
  match o_read_buf next, o_read next with
  | Some f, _ => fun c st => let '(r, st) := under (f path size off fi) c st in
                             ((if r.1 <? 0 then r else (0, r.2)), st)
  | None, Some f =>
      allocate (- ENOMEM, None) (allocate (- ENOMEM, None) (new_mem size (fun mem c st =>
        let '(res, st) := under (f path mem size off fi) c st in
        ((if res <? 0 then (res, Some (FuseBufvec 1 0 0 [FuseBuf size 0 mem (-1) 0]))
          else (0, Some (FuseBufvec 1 0 0 [FuseBuf res 0 mem (-1) 0]))), st))))
  | None, None => fun c st => ((- ENOSYS, None), st)
  end.

(** Flattening: the vector is copied to memory for a callback that wants one
    buffer.  fuse_buf_copy ends on every well-formed vector
    ([Buf.fuse_buf_copy_total]); the other branch is there because a callback is
    a total function. *)
Definition copy_then (vec buf : fuse_bufvec) (k : Z -> fuse_bufvec -> fsop OS Sx (Z * fuse_bufvec)) : fsop OS Sx (Z * fuse_bufvec) := fun c st =>
  let '(y, w) := st in
  match fuse_buf_copy false vec buf 0 w with
  | Some ((res, _, buf'), w) => k (i32 res) buf' c (y, w)
  | None => ((- EIO, buf), st)
  end.

(** The library has checked [buf->idx] and [buf->off] when it called the
    module. *)
Definition fs_next_write_buf (path : option bytes) (buf : fuse_bufvec) (off : Z) (fi : fuse_file_info) : fsop OS Sx (Z * fuse_bufvec) :=
  match o_write_buf next, o_write next with
  | Some f, _ => under (f path buf off fi)
  | None, Some f =>
      if bool_decide (bcount buf = 1%nat) && negb (has (bflags (buf_at buf 0)) FUSE_BUF_IS_FD) then
        let flatbuf := buf_at buf 0 in
        fun c st => let '(res, st) := under (f path (bmem flatbuf) (bsize flatbuf) off fi) c st in ((res, buf), st)
      else
        allocate (- ENOMEM, buf) (new_mem (fuse_buf_size buf) (fun mem =>
          copy_then (FuseBufvec 1 0 0 [FuseBuf (fuse_buf_size buf) 0 mem (-1) 0]) buf (fun res buf =>
            if res <=? 0 then fun c st => ((res, buf), st) else
            fun c st => let '(res, st) := under (f path mem res off fi) c st in ((res, buf), st))))
  | None, None => fun c st => ((- ENOSYS, buf), st)
  end.

Definition fs_next_init (k : fuse_conn_info) (cfg : fuse_config) : fsop OS Sx (fuse_conn_info * fuse_config) :=
  let k := give_up_cap (is_some (o_write_buf next)) FUSE_CAP_SPLICE_READ k in
  let k := give_up_cap (is_some (o_lock next)) FUSE_CAP_POSIX_LOCKS k in
  let k := give_up_cap (is_some (o_flock next)) FUSE_CAP_FLOCK_LOCKS k in
  under (fs_next (o_init next) (fun f => f k cfg) (k, cfg)).

(** The entries a directory hands to the filler of the module. *)
Fixpoint under_fill (fill : bytes -> mst Y -> mst Y * option bytes) (m : mst Y) (d : dir_fill (X * world OS)) : dir_fill (Sx * world OS) :=
  match d with
  | DirDone res (x, w) => DirDone res ((m, x), w)
  | DirAdd nm st off flags k =>
      match fill nm m with
      | (m, Some nm) => DirAdd nm st off flags (fun r => under_fill fill m (k r))
      | (m, None) => under_fill fill m (k 0)
      end
  end.

(** ** The callbacks of a module *)

(** subdir_addpath, iconv_convpath: an error, or the new path; a null path stays
    null. *)
Context (conv : option bytes -> mst Y -> mst Y * (Z + option bytes)).

(** [int err = conv(path, &newpath); if (!err) { err = ...; free(newpath); }] *)
Definition with_path {A} (path : option bytes) (fail : Z -> A) (k : option bytes -> fsop OS Sx A) : fsop OS Sx A := fun c st =>
  let '((m, x), w) := st in
  match conv path m with
  | (m, inl e) => (fail e, ((m, x), w))
  | (m, inr newpath) => k newpath c ((m, x), w)
  end.

Definition stack_getattr (path : option bytes) (fi : option fuse_file_info) : fsop OS Sx (Z * stat) :=
  with_path path (fun e => (e, stat0)) (fun p => under (fs_next (o_getattr next) (fun f => f p fi) (- ENOSYS, stat0))).

Definition stack_access (path : option bytes) (mask : Z) : fsop OS Sx Z :=
  with_path path id (fun p => under (fs_next (o_access next) (fun f => f p mask) (- ENOSYS))).

Definition stack_opendir (path : option bytes) (fi : fuse_file_info) : fsop OS Sx (Z * fuse_file_info) :=
  with_path path (fun e => (e, fi)) (fun p => under (fs_next (o_opendir next) (fun f => f p fi) (0, fi))).

Definition stack_releasedir (path : option bytes) (fi : fuse_file_info) : fsop OS Sx Z :=
  with_path path id (fun p => under (fs_next (o_releasedir next) (fun f => f p fi) 0)).

(** A readdir callback that is handed the filler [fill] for its names. *)
Definition stack_readdir (fill : bytes -> mst Y -> mst Y * option bytes) (path : option bytes) (off : Z) (fi : fuse_file_info) (flags : Z)
    (c : fuse_ctx) (st : Sx * world OS) : dir_fill (Sx * world OS) :=
  let '((m, x), w) := st in
  match conv path m with
  | (m, inl e) => DirDone e ((m, x), w)
  | (m, inr p) =>
      match o_readdir next with
      | Some f => under_fill fill m (f p off fi flags c (x, w))
      | None => DirDone (- ENOSYS) ((m, x), w)
      end
  end.

Definition stack_mknod (path : option bytes) (mode rdev : Z) : fsop OS Sx Z :=
  with_path path id (fun p => under (fs_next (o_mknod next) (fun f => f p mode rdev) (- ENOSYS))).

Definition stack_mkdir (path : option bytes) (mode : Z) : fsop OS Sx Z :=
  with_path path id (fun p => under (fs_next (o_mkdir next) (fun f => f p mode) (- ENOSYS))).

Definition stack_unlink (path : option bytes) : fsop OS Sx Z :=
  with_path path id (fun p => under (fs_next (o_unlink next) (fun f => f p) (- ENOSYS))).

Definition stack_rmdir (path : option bytes) : fsop OS Sx Z :=
  with_path path id (fun p => under (fs_next (o_rmdir next) (fun f => f p) (- ENOSYS))).

Definition stack_rename (from to : option bytes) (flags : Z) : fsop OS Sx Z :=
  with_path from id (fun f => with_path to id (fun t => under (fs_next (o_rename next) (fun g => g f t flags) (- ENOSYS)))).

Definition stack_link (from to : option bytes) : fsop OS Sx Z :=
  with_path from id (fun f => with_path to id (fun t => under (fs_next (o_link next) (fun g => g f t) (- ENOSYS)))).

Definition stack_chmod (path : option bytes) (mode : Z) (fi : option fuse_file_info) : fsop OS Sx Z :=
  with_path path id (fun p => under (fs_next (o_chmod next) (fun f => f p mode fi) (- ENOSYS))).

Definition stack_chown (path : option bytes) (u g : Z) (fi : option fuse_file_info) : fsop OS Sx Z :=
  with_path path id (fun p => under (fs_next (o_chown next) (fun f => f p u g fi) (- ENOSYS))).

Definition stack_truncate (path : option bytes) (size : Z) (fi : option fuse_file_info) : fsop OS Sx Z :=
  with_path path id (fun p => under (fs_next (o_truncate next) (fun f => f p size fi) (- ENOSYS))).

Definition stack_utimens (path : option bytes) (ts : timespec * timespec) (fi : option fuse_file_info) : fsop OS Sx Z :=
  with_path path id (fun p => under (fs_next (o_utimens next) (fun f => f p ts fi) (- ENOSYS))).

Definition stack_create (path : option bytes) (mode : Z) (fi : fuse_file_info) : fsop OS Sx (Z * fuse_file_info) :=
  with_path path (fun e => (e, fi)) (fun p => under (fs_next (o_create next) (fun f => f p mode fi) (- ENOSYS, fi))).

Definition stack_open (path : option bytes) (fi : fuse_file_info) : fsop OS Sx (Z * fuse_file_info) :=
  with_path path (fun e => (e, fi)) (fun p => under (fs_next (o_open next) (fun f => f p fi) (0, fi))).

Definition stack_read_buf (path : option bytes) (size off : Z) (fi : fuse_file_info) : fsop OS Sx (Z * option fuse_bufvec) :=
  with_path path (fun e => (e, None)) (fun p => fs_next_read_buf p size off fi).

Definition stack_write_buf (path : option bytes) (buf : fuse_bufvec) (off : Z) (fi : fuse_file_info) : fsop OS Sx (Z * fuse_bufvec) :=
  with_path path (fun e => (e, buf)) (fun p => fs_next_write_buf p buf off fi).

Definition stack_statfs (path : option bytes) : fsop OS Sx (Z * statvfs) :=
  with_path path (fun e => (e, Statvfs 0 0 0 0 0 0 0 0))
    (fun p => under (fs_next (o_statfs next) (fun f => f p) (0, Statvfs 512 0 0 0 0 0 0 255))).

Definition stack_flush (path : option bytes) (fi : fuse_file_info) : fsop OS Sx Z :=
  with_path path id (fun p => under (fs_next (o_flush next) (fun f => f p fi) (- ENOSYS))).

Definition stack_release (path : option bytes) (fi : fuse_file_info) : fsop OS Sx Z :=
  with_path path id (fun p => under (fs_next (o_release next) (fun f => f p fi) 0)).

Definition stack_fsync (path : option bytes) (datasync : Z) (fi : fuse_file_info) : fsop OS Sx Z :=
  with_path path id (fun p => under (fs_next (o_fsync next) (fun f => f p datasync fi) (- ENOSYS))).

Definition stack_fsyncdir (path : option bytes) (datasync : Z) (fi : fuse_file_info) : fsop OS Sx Z :=
  with_path path id (fun p => under (fs_next (o_fsyncdir next) (fun f => f p datasync fi) (- ENOSYS))).

Definition stack_setxattr (path : option bytes) (nm value : bytes) (flags : Z) : fsop OS Sx Z :=
  with_path path id (fun p => under (fs_next (o_setxattr next) (fun f => f p nm value flags) (- ENOSYS))).

Definition stack_getxattr (path : option bytes) (nm : bytes) (size : Z) : fsop OS Sx (Z * bytes) :=
  with_path path (fun e => (e, [])) (fun p => under (fs_next (o_getxattr next) (fun f => f p nm size) (- ENOSYS, []))).

Definition stack_listxattr (path : option bytes) (size : Z) : fsop OS Sx (Z * bytes) :=
  with_path path (fun e => (e, [])) (fun p => under (fs_next (o_listxattr next) (fun f => f p size) (- ENOSYS, []))).

Definition stack_removexattr (path : option bytes) (nm : bytes) : fsop OS Sx Z :=
  with_path path id (fun p => under (fs_next (o_removexattr next) (fun f => f p nm) (- ENOSYS))).

Definition stack_lock (path : option bytes) (fi : fuse_file_info) (cmd : Z) (lk : flock) : fsop OS Sx (Z * flock) :=
  with_path path (fun e => (e, lk)) (fun p => under (fs_next (o_lock next) (fun f => f p fi cmd lk) (- ENOSYS, lk))).

Definition stack_flock (path : option bytes) (fi : fuse_file_info) (o : Z) : fsop OS Sx Z :=
  with_path path id (fun p => under (fs_next (o_flock next) (fun f => f p fi o) (- ENOSYS))).

Definition stack_bmap (path : option bytes) (blocksize idx : Z) : fsop OS Sx (Z * Z) :=
  with_path path (fun e => (e, idx)) (fun p => under (fs_next (o_bmap next) (fun f => f p blocksize idx) (- ENOSYS, idx))).

(** The result, an off_t, goes through the variable [int res]. *)
Definition stack_lseek (path : option bytes) (off whence : Z) (fi : fuse_file_info) : fsop OS Sx Z :=
  with_path path id (fun p c st =>
    let '(res, st) := under (fs_next (o_lseek next) (fun f => f p off whence fi) (- ENOSYS)) c st in (i32 res, st)).

Definition stack_init : fuse_conn_info -> fuse_config -> fsop OS Sx (fuse_conn_info * fuse_config) := fs_next_init.

Definition stack_destroy : fsop OS Sx unit := under (fs_next (o_destroy next) (fun f => f) tt).

(** The table.  [readlink], [symlink] and the filler differ between modules. *)
Definition stack_oper (readlink : option bytes -> Z -> fsop OS Sx (Z * bytes)) (symlink : bytes -> option bytes -> fsop OS Sx Z)
    (fill : bytes -> mst Y -> mst Y * option bytes) : fuse_operations OS Sx :=
  FsOps OS Sx
    (Some stack_getattr) (Some readlink) (Some stack_mknod) (Some stack_mkdir) (Some stack_unlink) (Some stack_rmdir)
    (Some symlink) (Some stack_rename) (Some stack_link) (Some stack_chmod) (Some stack_chown) (Some stack_truncate)
    (Some stack_open) None None (Some stack_statfs) (Some stack_flush) (Some stack_release) (Some stack_fsync)
    (Some stack_setxattr) (Some stack_getxattr) (Some stack_listxattr) (Some stack_removexattr) (Some stack_opendir)
    (Some (stack_readdir fill)) (Some stack_releasedir) (Some stack_fsyncdir) (Some stack_init) (Some stack_destroy)
    (Some stack_access) (Some stack_create) (Some stack_lock) (Some stack_utimens) (Some stack_bmap) None None
    (Some stack_write_buf) (Some stack_read_buf) (Some stack_flock) None None (Some stack_lseek).

End Next.
