(* ===== verification/StackSpec.v ===== *)
(** * Stacked modules: forwarding

    A call of the library as data: which callback, with which paths and
    arguments.  A module forwards a call: it makes new paths and calls the next
    file system with them, or fails without calling it. *)

From S2P Require Import Prelude Wire Locks Node Buf LowLevel Dispatch Lib Stack.

(** ** Calls *)

(** The callbacks that both modules forward unchanged but for the paths. *)
Inductive call :=
  | K_getattr (p : option bytes) (fi : option fuse_file_info)
  | K_access (p : option bytes) (mask : Z)
  | K_opendir (p : option bytes) (fi : fuse_file_info)
  | K_releasedir (p : option bytes) (fi : fuse_file_info)
  | K_mknod (p : option bytes) (mode rdev : Z)
  | K_mkdir (p : option bytes) (mode : Z)
  | K_unlink (p : option bytes)
  | K_rmdir (p : option bytes)
  | K_rename (p q : option bytes) (flags : Z)
  | K_link (p q : option bytes)
  | K_chmod (p : option bytes) (mode : Z) (fi : option fuse_file_info)
  | K_chown (p : option bytes) (u g : Z) (fi : option fuse_file_info)
  | K_truncate (p : option bytes) (size : Z) (fi : option fuse_file_info)
  | K_utimens (p : option bytes) (ts : timespec * timespec) (fi : option fuse_file_info)
  | K_create (p : option bytes) (mode : Z) (fi : fuse_file_info)
  | K_open (p : option bytes) (fi : fuse_file_info)
  | K_statfs (p : option bytes)
  | K_flush (p : option bytes) (fi : fuse_file_info)
  | K_release (p : option bytes) (fi : fuse_file_info)
  | K_fsync (p : option bytes) (datasync : Z) (fi : fuse_file_info)
  | K_fsyncdir (p : option bytes) (datasync : Z) (fi : fuse_file_info)
  | K_setxattr (p : option bytes) (nm value : bytes) (flags : Z)
  | K_getxattr (p : option bytes) (nm : bytes) (size : Z)
  | K_listxattr (p : option bytes) (size : Z)
  | K_removexattr (p : option bytes) (nm : bytes)
  | K_lock (p : option bytes) (fi : fuse_file_info) (cmd : Z) (lk : flock)
  | K_flock (p : option bytes) (fi : fuse_file_info) (o : Z)
  | K_bmap (p : option bytes) (blocksize idx : Z).

Inductive answer :=
  | A_res (r : Z)
  | A_stat (r : Z * stat)
  | A_file (r : Z * fuse_file_info)
  | A_bytes (r : Z * bytes)
  | A_statvfs (r : Z * statvfs)
  | A_lock (r : Z * flock)
  | A_num (r : Z * Z).

(** The error number of an answer. *)
Definition code (a : answer) : Z :=
  match a with
  | A_res r => r | A_stat r => r.1 | A_file r => r.1 | A_bytes r => r.1 | A_statvfs r => r.1 | A_lock r => r.1 | A_num r => r.1
  end.

Definition call_paths (k : call) : list (option bytes) :=
  match k with
  | K_rename p q _ | K_link p q => [p; q]
  | K_getattr p _ | K_access p _ | K_opendir p _ | K_releasedir p _ | K_mknod p _ _ | K_mkdir p _ | K_unlink p | K_rmdir p
  | K_chmod p _ _ | K_chown p _ _ _ | K_truncate p _ _ | K_utimens p _ _ | K_create p _ _ | K_open p _ | K_statfs p | K_flush p _
  | K_release p _ | K_fsync p _ _ | K_fsyncdir p _ _ | K_setxattr p _ _ _ | K_getxattr p _ _ | K_listxattr p _ | K_removexattr p _
  | K_lock p _ _ _ | K_flock p _ _ | K_bmap p _ _ => [p]
  end.

(** The same call with other paths. *)
Definition with_paths (p q : option bytes) (k : call) : call :=
  match k with
  | K_getattr _ fi => K_getattr p fi | K_access _ m => K_access p m | K_opendir _ fi => K_opendir p fi
  | K_releasedir _ fi => K_releasedir p fi | K_mknod _ m r => K_mknod p m r | K_mkdir _ m => K_mkdir p m
  | K_unlink _ => K_unlink p | K_rmdir _ => K_rmdir p | K_rename _ _ f => K_rename p q f | K_link _ _ => K_link p q
  | K_chmod _ m fi => K_chmod p m fi | K_chown _ u g fi => K_chown p u g fi | K_truncate _ s fi => K_truncate p s fi
  | K_utimens _ t fi => K_utimens p t fi | K_create _ m fi => K_create p m fi | K_open _ fi => K_open p fi
  | K_statfs _ => K_statfs p | K_flush _ fi => K_flush p fi | K_release _ fi => K_release p fi
  | K_fsync _ s fi => K_fsync p s fi | K_fsyncdir _ s fi => K_fsyncdir p s fi | K_setxattr _ n v f => K_setxattr p n v f
  | K_getxattr _ n s => K_getxattr p n s | K_listxattr _ s => K_listxattr p s | K_removexattr _ n => K_removexattr p n
  | K_lock _ fi c l => K_lock p fi c l | K_flock _ fi o => K_flock p fi o | K_bmap _ b i => K_bmap p b i
  end.

Section Perform.
Context {OS X : Type}.
Context (op : fuse_operations OS X).

Definition tagged {A} (tag : A -> answer) (o : fsop OS X A) : fsop OS X answer :=
  fun c st => let '(a, st) := o c st in (tag a, st).

(** What the wrapper fuse_fs_* of the call does. *)
Definition perform (k : call) : fsop OS X answer :=
  match k with
  | K_getattr p fi => tagged A_stat (fs_next (o_getattr op) (fun f => f p fi) (- ENOSYS, stat0))
  | K_access p m => tagged A_res (fs_next (o_access op) (fun f => f p m) (- ENOSYS))
  | K_opendir p fi => tagged A_file (fs_next (o_opendir op) (fun f => f p fi) (0, fi))
  | K_releasedir p fi => tagged A_res (fs_next (o_releasedir op) (fun f => f p fi) 0)
  | K_mknod p m r => tagged A_res (fs_next (o_mknod op) (fun f => f p m r) (- ENOSYS))
  | K_mkdir p m => tagged A_res (fs_next (o_mkdir op) (fun f => f p m) (- ENOSYS))
  | K_unlink p => tagged A_res (fs_next (o_unlink op) (fun f => f p) (- ENOSYS))
  | K_rmdir p => tagged A_res (fs_next (o_rmdir op) (fun f => f p) (- ENOSYS))
  | K_rename p q fl => tagged A_res (fs_next (o_rename op) (fun f => f p q fl) (- ENOSYS))
  | K_link p q => tagged A_res (fs_next (o_link op) (fun f => f p q) (- ENOSYS))
  | K_chmod p m fi => tagged A_res (fs_next (o_chmod op) (fun f => f p m fi) (- ENOSYS))
  | K_chown p u g fi => tagged A_res (fs_next (o_chown op) (fun f => f p u g fi) (- ENOSYS))
  | K_truncate p s fi => tagged A_res (fs_next (o_truncate op) (fun f => f p s fi) (- ENOSYS))
  | K_utimens p t fi => tagged A_res (fs_next (o_utimens op) (fun f => f p t fi) (- ENOSYS))
  | K_create p m fi => tagged A_file (fs_next (o_create op) (fun f => f p m fi) (- ENOSYS, fi))
  | K_open p fi => tagged A_file (fs_next (o_open op) (fun f => f p fi) (0, fi))
  | K_statfs p => tagged A_statvfs (fs_next (o_statfs op) (fun f => f p) (0, Statvfs 512 0 0 0 0 0 0 255))
  | K_flush p fi => tagged A_res (fs_next (o_flush op) (fun f => f p fi) (- ENOSYS))
  | K_release p fi => tagged A_res (fs_next (o_release op) (fun f => f p fi) 0)
  | K_fsync p s fi => tagged A_res (fs_next (o_fsync op) (fun f => f p s fi) (- ENOSYS))
  | K_fsyncdir p s fi => tagged A_res (fs_next (o_fsyncdir op) (fun f => f p s fi) (- ENOSYS))
  | K_setxattr p n v fl => tagged A_res (fs_next (o_setxattr op) (fun f => f p n v fl) (- ENOSYS))
  | K_getxattr p n s => tagged A_bytes (fs_next (o_getxattr op) (fun f => f p n s) (- ENOSYS, []))
  | K_listxattr p s => tagged A_bytes (fs_next (o_listxattr op) (fun f => f p s) (- ENOSYS, []))
  | K_removexattr p n => tagged A_res (fs_next (o_removexattr op) (fun f => f p n) (- ENOSYS))
  | K_lock p fi c l => tagged A_lock (fs_next (o_lock op) (fun f => f p fi c l) (- ENOSYS, l))
  | K_flock p fi o => tagged A_res (fs_next (o_flock op) (fun f => f p fi o) (- ENOSYS))
  | K_bmap p b i => tagged A_num (fs_next (o_bmap op) (fun f => f p b i) (- ENOSYS, i))
  end.
End Perform.

(** [perform] is what the wrappers of [Lib] do. *)
Lemma fs_op_next {OS M X T A} (o : option T) (call : T -> fsop OS X A) missing (s : LL OS (lib M X)) :
  fs_op o call missing s = (_ ← fs_enter; fs_call (fs_next o call missing)) s.
Proof.
  unfold fs_op, fs_enter, get_lib. rewrite !bind_assoc, !bind_get, !bind_ret. destruct (fs_live (user s)); [|done].
  rewrite !bind_assoc. unfold check. rewrite !bind_ret, !bind_assoc. destruct (context (user s)) as [c|] eqn:Ec; [|done].
  unfold of_option. rewrite !bind_ret. destruct o as [f|]; [done|]. unfold fs_call. rewrite bind_get, Ec. cbn.
  by destruct s as [? ? ? ? ? ? ? ? ? []].
Qed.

(** ** Forwarding *)

Section Forward.
Context {OS X Y : Type} `{FdOps OS} `{DevOps OS}.
Context (next : fuse_operations OS X).
Context (conv : option bytes -> mst Y -> mst Y * (Z + option bytes)).
Context (readlink : option bytes -> Z -> fsop OS (mst Y * X) (Z * bytes)) (symlink : bytes -> option bytes -> fsop OS (mst Y * X) Z).
Context (fill : bytes -> mst Y -> mst Y * option bytes).

(** The paths of a call, one after the other; a missing second one is null. *)
Definition conv_paths (k : call) (m : mst Y) : mst Y * (Z + option bytes * option bytes) :=
  match call_paths k with
  | [p] => match conv p m with (m, inr p) => (m, inr (p, None)) | (m, inl e) => (m, inl e) end
  | [p; q] =>
      match conv p m with
      | (m, inr p) => match conv q m with (m, inr q) => (m, inr (p, q)) | (m, inl e) => (m, inl e) end
      | (m, inl e) => (m, inl e)
      end
  | _ => (m, inl 0)
  end.

Lemma stack_forwards_gen k c m x w :
  match conv_paths k m with
  | (m', inr (p, q)) => perform (stack_oper next conv readlink symlink fill) k c ((m, x), w) =
      let '(a, (x', w')) := perform next (with_paths p q k) c (x, w) in (a, ((m', x'), w'))
  | (m', inl e) => exists a, perform (stack_oper next conv readlink symlink fill) k c ((m, x), w) = (a, ((m', x), w)) /\ code a = e
  end.
Proof.
  destruct k; unfold conv_paths; cbn [call_paths with_paths perform]; unfold tagged, fs_next;
    cbn [stack_oper o_getattr o_access o_opendir o_releasedir o_mknod o_mkdir o_unlink o_rmdir o_rename o_link o_chmod o_chown
         o_truncate o_utimens o_create o_open o_statfs o_flush o_release o_fsync o_fsyncdir o_setxattr o_getxattr o_listxattr
         o_removexattr o_lock o_flock o_bmap];
    unfold stack_getattr, stack_access, stack_opendir, stack_releasedir, stack_mknod, stack_mkdir, stack_unlink, stack_rmdir,
      stack_rename, stack_link, stack_chmod, stack_chown, stack_truncate, stack_utimens, stack_create, stack_open, stack_statfs,
      stack_flush, stack_release, stack_fsync, stack_fsyncdir, stack_setxattr, stack_getxattr, stack_listxattr, stack_removexattr,
      stack_lock, stack_flock, stack_bmap, with_path, under, fs_next, id;
    (destruct (conv p m) as [m1 [e|p1]]; [by eexists|]);
    try (destruct (conv q m1) as [m2 [e|q1]]; [by eexists|]);
    match goal with |- context [match ?o with Some f => _ | None => _ end] => destruct o as [f|]; [|done] end;
    by repeat case_match; simplify_eq.
Qed.
End Forward.
