(* ===== verification/Subdir.v ===== *)
(** * The subdir module: libfuse/lib/modules/subdir.c

    Every path gets a directory in front, [base], which ends with a slash or is
    empty.  With the option rellinks an absolute symbolic link that points below
    [base] is rewritten as a relative one. *)

From S2P Require Import Prelude Wire Locks Node Buf LowLevel Dispatch Lib Stack.

Definition SLASH : Z := 47.

(** [baselen] is [strlen(base)]: subdir_new sets both and nothing changes them. *)
Record subdir := Sd { base : bytes; rellinks : bool }.

Definition baselen (d : subdir) : Z := Z.of_nat (length (base d)).

(** ** Paths *)

(** The size of the block for the new path. *)
Definition addpath_size (d : subdir) (path : bytes) : Z := u32 (baselen d + Z.of_nat (length path)) + 2.

Definition newpath (d : subdir) (path : bytes) : bytes :=
  let path := match path with c :: p => if c =? SLASH then p else path | [] => [] end in
  match base d ++ path with [] => lit "." | p => p end.

Definition subdir_addpath {Y} (d : subdir) (path : option bytes) (m : mst Y) : mst Y * (Z + option bytes) :=
  match path with
  | None => (m, inr None)
  | Some p =>
      let '(ok, m) := take_outcome m in
      if (ok : bool) then (m, inr (Some (newpath d p))) else (m, inl (- ENOMEM))
  end.

(** ** Symbolic links *)

(** [for (; *p == '/'; p++);] *)
Fixpoint skip_slashes (p : bytes) : bytes :=
  match p with c :: q => if c =? SLASH then skip_slashes q else p | [] => [] end.

(** [for (; *p && *p != '/'; p++);] *)
Fixpoint skip_name (p : bytes) : bytes :=
  match p with c :: q => if c =? SLASH then p else skip_name q | [] => [] end.

Fixpoint count_loop (fuel : nat) (ctr : Z) (p : bytes) : Z :=
  match fuel, p with
  | S fuel, _ :: _ => count_loop fuel (ctr + 1) (skip_slashes (skip_name p))
  | _, _ => ctr
  end.

Definition count_components (p : bytes) : Z := count_loop (length p) 0 (skip_slashes p).

(** [for (; *s == *t && *s && *s != '/'; s++, t++);] *)
Fixpoint skip_common (s t : bytes) : bytes * bytes :=
  match s, t with
  | c :: s', c' :: t' => if (c =? c') && negb (c =? SLASH) then skip_common s' t' else (s, t)
  | _, _ => (s, t)
  end.

(** The condition of the do-while loop. *)
Definition both_end_name (s t : bytes) : bool :=
  match s, t with
  | c :: _, c' :: _ => c =? c'
  | [], c :: _ | c :: _, [] => c =? SLASH
  | [], [] => false
  end.

Fixpoint strip_loop (fuel : nat) (s t : bytes) : bytes * bytes :=
  let s := skip_slashes s in
  let t := skip_slashes t in
  let '(s', t') := skip_common s t in
  match fuel with
  | S fuel => if both_end_name s' t' then strip_loop fuel s' t' else (s, t)
  | O => (s, t)
  end.

Definition strip_common (s t : bytes) : bytes * bytes := strip_loop (length s + length t) s t.

Definition starts_with_slash (s : bytes) : bool := match s with c :: _ => c =? SLASH | [] => false end.

(** The string in the buffer afterwards; [size] is the size of the buffer. *)
Definition transform_symlink (d : subdir) (path buf : bytes) (size : Z) : bytes :=
  if negb (starts_with_slash buf) || negb (starts_with_slash (base d)) then buf else
  let '(l, path) := strip_common buf path in
  if Z.of_nat (length buf) - Z.of_nat (length l) <? baselen d then buf else
  let dotdots := count_components path in
  if dotdots =? 0 then buf else
  let dotdots := dotdots - 1 in
  let llen := Z.of_nat (length l) in
  if size <? dotdots * 3 + llen + 2 then buf else
  mjoin (replicate (Z.to_nat dotdots) (lit "../")) ++
    (if negb (llen =? 0) then l else if dotdots =? 0 then lit "." else []).

(** ** The table *)

Section Subdir.
Context {OS X : Type} `{FdOps OS} `{DevOps OS}.
Context (next : fuse_operations OS X) (d : subdir).

Abbreviation Sx := (mst unit * X)%type.
Abbreviation addpath := (@subdir_addpath unit d).

Definition subdir_getattr := stack_getattr next addpath.
Definition subdir_access := stack_access next addpath.

(** The library always has a path for a link. *)
Definition subdir_readlink (path : option bytes) (size : Z) : fsop OS Sx (Z * bytes) :=
  with_path addpath path (fun e => (e, [])) (fun p c st =>
    let '(r, st) := under (fs_next (o_readlink next) (fun f => f p size) (- ENOSYS, [])) c st in
    match p with
    | Some p => (if (r.1 =? 0) && rellinks d then (r.1, transform_symlink d p (cstr r.2) size) else r, st)
    | None => (r, st)
    end).

Definition subdir_opendir := stack_opendir next addpath.
Definition subdir_fill (nm : bytes) (m : mst unit) : mst unit * option bytes := (m, Some nm).
Definition subdir_readdir := stack_readdir next addpath subdir_fill.
Definition subdir_releasedir := stack_releasedir next addpath.
Definition subdir_mknod := stack_mknod next addpath.
Definition subdir_mkdir := stack_mkdir next addpath.
Definition subdir_unlink := stack_unlink next addpath.
Definition subdir_rmdir := stack_rmdir next addpath.

(** The target of a new link is not changed. *)
Definition subdir_symlink (from : bytes) (path : option bytes) : fsop OS Sx Z :=
  with_path addpath path id (fun p => under (fs_next (o_symlink next) (fun f => f from p) (- ENOSYS))).

Definition subdir_rename := stack_rename next addpath.
Definition subdir_link := stack_link next addpath.
Definition subdir_chmod := stack_chmod next addpath.
Definition subdir_chown := stack_chown next addpath.
Definition subdir_truncate := stack_truncate next addpath.
Definition subdir_utimens := stack_utimens next addpath.
Definition subdir_create := stack_create next addpath.
Definition subdir_open := stack_open next addpath.
Definition subdir_read_buf := stack_read_buf next addpath.
Definition subdir_write_buf := stack_write_buf next addpath.
Definition subdir_statfs := stack_statfs next addpath.
Definition subdir_flush := stack_flush next addpath.
Definition subdir_release := stack_release next addpath.
Definition subdir_fsync := stack_fsync next addpath.
Definition subdir_fsyncdir := stack_fsyncdir next addpath.
Definition subdir_setxattr := stack_setxattr next addpath.
Definition subdir_getxattr := stack_getxattr next addpath.
Definition subdir_listxattr := stack_listxattr next addpath.
Definition subdir_removexattr := stack_removexattr next addpath.
Definition subdir_lock := stack_lock next addpath.
Definition subdir_flock := stack_flock next addpath.
Definition subdir_bmap := stack_bmap next addpath.
Definition subdir_lseek := stack_lseek next addpath.
Definition subdir_init : fuse_conn_info -> fuse_config -> fsop OS Sx _ := stack_init next.
Definition subdir_destroy : fsop OS Sx unit := stack_destroy next.

(** There is no callback for read and write, which the library replaces by
    read_buf and write_buf, nor for ioctl, poll, fallocate and
    copy_file_range. *)
Definition subdir_oper : fuse_operations OS Sx :=
  FsOps OS Sx
    (Some subdir_getattr) (Some subdir_readlink) (Some subdir_mknod) (Some subdir_mkdir) (Some subdir_unlink) (Some subdir_rmdir)
    (Some subdir_symlink) (Some subdir_rename) (Some subdir_link) (Some subdir_chmod) (Some subdir_chown) (Some subdir_truncate)
    (Some subdir_open) None None (Some subdir_statfs) (Some subdir_flush) (Some subdir_release) (Some subdir_fsync)
    (Some subdir_setxattr) (Some subdir_getxattr) (Some subdir_listxattr) (Some subdir_removexattr) (Some subdir_opendir)
    (Some subdir_readdir) (Some subdir_releasedir) (Some subdir_fsyncdir) (Some subdir_init) (Some subdir_destroy)
    (Some subdir_access) (Some subdir_create) (Some subdir_lock) (Some subdir_utimens) (Some subdir_bmap) None None
    (Some subdir_write_buf) (Some subdir_read_buf) (Some subdir_flock) None None (Some subdir_lseek).

End Subdir.

(** ** subdir_new

    [opts] is what fuse_opt_parse found, the last subdir= and the last
    [no]rellinks, or [None] for its -1; [nexts] the number of file systems below;
    [calloc_ok], [realloc_ok] and [fs_ok] the outcomes of the allocations. *)
Definition subdir_new (calloc_ok : bool) (opts : option (option bytes * bool)) (nexts : nat) (realloc_ok fs_ok : bool) : option subdir :=
  if negb calloc_ok then None else
  match opts with
  | None => None
  | Some (b, rel) =>
      if negb (bool_decide (nexts = 1%nat)) then None else
      match b with
      | None => None
      | Some b =>
          let ends := match last b with Some c => c =? SLASH | None => true end in
          if negb ends && negb realloc_ok then None else
          if negb fs_ok then None else
          Some (Sd (if ends then b else b ++ [SLASH]) rel)
      end
  end.
