(* ===== verification/SubdirTheorems.v ===== *)
(** * The subdir module: theorems

    The components of a path are its names between slashes.  Putting [base] in
    front of a path puts its components in front; rewriting a link keeps the
    place it leads to and stays within the buffer. *)

From S2P Require Import Prelude Wire Locks Node Buf LowLevel Dispatch Lib Stack StackSpec Subdir.

(** ** Components *)

Definition flush (cur : bytes) : list bytes := match cur with [] => [] | _ => [cur] end.

Fixpoint comps_from (cur s : bytes) : list bytes :=
  match s with
  | [] => flush cur
  | c :: s => if c =? SLASH then flush cur ++ comps_from [] s else comps_from (cur ++ [c]) s
  end.

Definition comps (s : bytes) : list bytes := comps_from [] s.

Definition noslash (w : bytes) : Prop := Forall (fun c => c <> SLASH) w.

(** What can follow a name: nothing, or a slash. *)
Definition stops (s : bytes) : Prop := match s with [] => True | c :: _ => c = SLASH end.

Lemma comps_slash s : comps (SLASH :: s) = comps s.
Proof. done. Qed.

Lemma comps_skip s : comps (skip_slashes s) = comps s.
Proof.
  induction s as [|c s IH]; [done|]. cbn [skip_slashes]. destruct (Z.eqb_spec c SLASH) as [->|_]; [|done]. by rewrite comps_slash.
Qed.

Lemma comps_from_name cur w s : noslash w -> comps_from cur (w ++ s) = comps_from (cur ++ w) s.
Proof.
  revert cur. induction w as [|c w IH]; intros cur Hw; [by rewrite app_nil_r|]. inversion Hw as [|? ? Hc Hw']; subst. cbn.
  destruct (Z.eqb_spec c SLASH); [done|]. rewrite IH by done. by rewrite <- app_assoc.
Qed.

Lemma comps_name w s : noslash w -> w <> [] -> stops s -> comps (w ++ s) = w :: comps s.
Proof.
  intros Hw Hn Hs. unfold comps. rewrite comps_from_name by done. cbn [app].
  destruct s as [|c s]; cbn in Hs; [|subst c]; cbn; by destruct w.
Qed.

Lemma comps_app s t : stops t -> comps (s ++ t) = comps s ++ comps t.
Proof.
  intros Ht. unfold comps. generalize ([] : bytes) at 1 2. induction s as [|c s IH]; intros cur; cbn [app comps_from].
  - destruct t as [|c t]; cbn in Ht; [by rewrite app_nil_r|]. subst c. done.
  - destruct (c =? SLASH); [by rewrite IH, app_assoc|apply IH].
Qed.

Lemma comps_after_slash s t : comps (s ++ SLASH :: t) = comps s ++ comps t.
Proof. rewrite comps_app by done. by rewrite comps_slash. Qed.

(** The first name. *)
Lemma skip_name_cut s : exists w, s = w ++ skip_name s /\ noslash w /\ stops (skip_name s).
Proof.
  induction s as [|c s (w & E & Hw & Hs)]; [exists []; split_and!; try apply Forall_nil_2; try done; cbn; intros; try congruence|]. cbn [skip_name].
  destruct (Z.eqb_spec c SLASH) as [->|Hc]; [exists []; split_and!; try apply Forall_nil_2; try done; cbn; intros; try congruence|].
  exists (c :: w). split; [by rewrite E at 1|]. split; [by constructor|done].
Qed.

Lemma skip_slashes_head s : match skip_slashes s with c :: _ => c <> SLASH | [] => True end.
Proof. induction s as [|c s IH]; cbn; [done|]. by destruct (Z.eqb_spec c SLASH). Qed.

Lemma skip_slashes_length s : (length (skip_slashes s) <= length s)%nat.
Proof. induction s as [|c s IH]; cbn; [done|]. destruct (c =? SLASH); cbn; lia. Qed.

Lemma count_loop_comps fuel ctr s : (length s <= fuel)%nat -> match s with c :: _ => c <> SLASH | [] => True end ->
  count_loop fuel ctr s = ctr + Z.of_nat (length (comps s)).
Proof.
  revert ctr s. induction fuel as [|fuel IH]; intros ctr s Hl Hh; destruct s as [|c s]; cbn [length] in Hl; try (cbn; lia).
  cbn [count_loop]. destruct (skip_name_cut (c :: s)) as (w & E & Hw & Hs).
  assert (w <> []) as Hn. { intros ->. cbn in E, Hs. destruct (Z.eqb_spec c SLASH); [done|]. rewrite <- E in Hs. done. }
  assert (length (skip_name (c :: s)) < length (c :: s))%nat as Hd.
  { rewrite E at 2. rewrite length_app. destruct w; [done|]. cbn. lia. }
  rewrite IH; [|pose proof (skip_slashes_length (skip_name (c :: s))); cbn [length] in *; lia|apply skip_slashes_head].
  rewrite comps_skip. rewrite E at 2. rewrite comps_name by done. cbn [length]. lia.
Qed.

Lemma count_components_spec p : count_components p = Z.of_nat (length (comps p)).
Proof.
  unfold count_components. rewrite count_loop_comps; [by rewrite comps_skip|apply skip_slashes_length|apply skip_slashes_head].
Qed.

(** ** The common part of two paths *)

Lemma skip_common_cut s t : exists w, s = w ++ (skip_common s t).1 /\ t = w ++ (skip_common s t).2 /\ noslash w /\
  match (skip_common s t).1, (skip_common s t).2 with c :: _, c' :: _ => c = c' -> c = SLASH | _, _ => True end.
Proof.
  revert t. induction s as [|c s IH]; intros t; [exists []; split_and!; try apply Forall_nil_2; try done; cbn; intros; try congruence|].
  destruct t as [|c' t]; [exists []; split_and!; try apply Forall_nil_2; try done; cbn; intros; try congruence|]. cbn [skip_common].
  destruct (Z.eqb_spec c c') as [->|Hc]; cbn [andb]; [|exists []; split_and!; try apply Forall_nil_2; try done; cbn; intros; try congruence].
  destruct (Z.eqb_spec c' SLASH) as [->|Hs]; cbn [negb]; [exists []; split_and!; try apply Forall_nil_2; try done; cbn; intros; try congruence|].
  destruct (IH t) as (w & E1 & E2 & Hw & He). exists (c' :: w). cbn [app]. rewrite <- E1, <- E2.
  split; [done|]. split; [done|]. split; [by constructor|done].
Qed.

(** Two paths that agree up to the end of a name. *)
Lemma both_end_cut s t : match s with c :: _ => c <> SLASH | [] => True end -> match t with c :: _ => c <> SLASH | [] => True end ->
  both_end_name (skip_common s t).1 (skip_common s t).2 = true ->
  exists w, w <> [] /\ noslash w /\ s = w ++ (skip_common s t).1 /\ t = w ++ (skip_common s t).2 /\
    stops (skip_common s t).1 /\ stops (skip_common s t).2.
Proof.
  intros Hs Ht Hb. destruct (skip_common_cut s t) as (w & E1 & E2 & Hw & He). exists w.
  destruct (skip_common s t) as [s' t']; cbn [fst snd] in *.
  assert (stops s' /\ stops t') as [Ss St].
  { destruct s' as [|c s'], t' as [|c' t']; cbn in *; try done; try (by apply Z.eqb_eq in Hb).
    apply Z.eqb_eq in Hb. specialize (He Hb). subst. done. }
  split; [|done]. intros ->. cbn in E1, E2. subst s' t'.
  destruct s as [|c s], t as [|c' t]; cbn in *; try done; subst; done.
Qed.

Lemma strip_loop_common fuel s t : exists C, comps s = C ++ comps (strip_loop fuel s t).1 /\ comps t = C ++ comps (strip_loop fuel s t).2.
Proof.
  revert s t. induction fuel as [|fuel IH]; intros s t; cbn [strip_loop];
    destruct (skip_common (skip_slashes s) (skip_slashes t)) as [s' t'] eqn:E; try (exists []; cbn; by rewrite !comps_skip).
  destruct (both_end_name s' t') eqn:Hb; [|exists []; cbn; by rewrite !comps_skip].
  destruct (both_end_cut (skip_slashes s) (skip_slashes t) (skip_slashes_head s) (skip_slashes_head t)) as (w & Hn & Hw & E1 & E2 & S1 & S2).
  { by rewrite E. }
  rewrite E in *. cbn [fst snd] in *. destruct (IH s' t') as (C & C1 & C2). exists (w :: C).
  rewrite <- (comps_skip s), <- (comps_skip t), E1, E2, !comps_name by done. cbn [app]. by rewrite <- C1, <- C2.
Qed.

(** What strip_common leaves: the next names differ, or one path is used up, or
    both have the same last name. *)
Definition parted (s t : bytes) : Prop := both_end_name (skip_common s t).1 (skip_common s t).2 = false.

Lemma strip_loop_parted fuel s t : (length s + length t <= fuel)%nat -> parted (strip_loop fuel s t).1 (strip_loop fuel s t).2.
Proof.
  revert s t. induction fuel as [|fuel IH]; intros s t Hf; cbn [strip_loop];
    destruct (skip_common (skip_slashes s) (skip_slashes t)) as [s' t'] eqn:E.
  - destruct s, t; cbn in Hf; try lia. done.
  - destruct (both_end_name s' t') eqn:Hb; [|unfold parted; cbn; by rewrite E].
    destruct (both_end_cut (skip_slashes s) (skip_slashes t) (skip_slashes_head s) (skip_slashes_head t)) as (w & Hn & Hw & E1 & E2 & _).
    { by rewrite E. }
    rewrite E in *. cbn [fst snd] in *. apply IH.
    pose proof (skip_slashes_length s) as L1. pose proof (skip_slashes_length t) as L2. rewrite E1 in L1. rewrite E2 in L2.
    rewrite length_app in *. destruct w; [done|]. cbn [length] in *. lia.
Qed.

Lemma strip_common_spec s t : exists C, comps s = C ++ comps (strip_common s t).1 /\ comps t = C ++ comps (strip_common s t).2 /\
  parted (strip_common s t).1 (strip_common s t).2.
Proof.
  destruct (strip_loop_common (length s + length t) s t) as (C & E1 & E2). exists C. split; [done|]. split; [done|].
  by apply strip_loop_parted.
Qed.

Lemma strip_loop_head fuel s t : match (strip_loop fuel s t).1 with c :: _ => c <> SLASH | [] => True end.
Proof.
  revert s t. induction fuel as [|fuel IH]; intros s t; cbn [strip_loop]; destruct (skip_common _ _) as [s' t'];
    [apply skip_slashes_head|]. destruct (both_end_name s' t'); [apply IH|apply skip_slashes_head].
Qed.

(** ** The new path *)

(** [base] is empty or ends with a slash. *)
Definition base_ok (d : subdir) : Prop := match last (base d) with Some c => c = SLASH | None => True end.

Lemma base_cut d : base_ok d -> base d = [] \/ exists b, base d = b ++ [SLASH].
Proof.
  unfold base_ok. destruct (base d) as [|c b] using rev_ind; [by left|]. rewrite last_snoc. intros ->. right. by exists b.
Qed.

Lemma subdir_new_ok a opts n b c d : subdir_new a opts n b c = Some d -> base_ok d.
Proof.
  unfold subdir_new. destruct a; [|done]. destruct opts as [[[bs|] rel]|]; cbn [negb]; try done; [|by case_bool_decide].
  case_bool_decide; [|done]. destruct (negb _ && negb b); [done|]. destruct c; [|done]. cbn. intros [= <-].
  unfold base_ok. cbn. destruct (last bs) as [x|] eqn:El; [|by rewrite El]. destruct (Z.eqb_spec x SLASH); [by rewrite El|by rewrite last_snoc].
Qed.

Lemma comps_base d p : base_ok d -> comps (base d ++ p) = comps (base d) ++ comps p.
Proof.
  intros [->|[b ->]]%base_cut; [done|]. rewrite <- app_assoc. cbn [app]. rewrite comps_after_slash.
  replace (b ++ [SLASH]) with (b ++ SLASH :: []) by done. rewrite comps_after_slash. cbn. by rewrite app_nil_r.
Qed.

Definition unrooted (p : bytes) : bytes := match p with c :: q => if c =? SLASH then q else p | [] => [] end.

Lemma comps_unrooted p : comps (unrooted p) = comps p.
Proof. destruct p as [|c p]; [done|]. cbn [unrooted]. by destruct (Z.eqb_spec c SLASH) as [->|]. Qed.

Lemma newpath_cases d p : newpath d p = lit "." /\ base d ++ unrooted p = [] \/ newpath d p = base d ++ unrooted p /\ base d ++ unrooted p <> [].
Proof. unfold newpath. fold (unrooted p). destruct (base d ++ unrooted p) eqn:E; [by left|by right]. Qed.

(** subdir_addpath: for every module that subdir_new makes, the path
    given to the next file system fits into the block that was allocated for it,
    consists of the components of the directory followed by those of the path,
    or is the current directory if there are none, and different absolute paths
    never become the same path. *)
Theorem subdir_path_confined a opts n b c d p :
  subdir_new a opts n b c = Some d -> baselen d + Z.of_nat (length p) < 2 ^ 32 ->
  Z.of_nat (length (newpath d p)) + 1 <= addpath_size d p /\
  (comps (newpath d p) = comps (base d) ++ comps p \/ (newpath d p = lit "." /\ comps (base d) ++ comps p = [])) /\
  (base d <> [] -> forall q, newpath d (SLASH :: p) = newpath d (SLASH :: q) -> p = q).
Proof.
  intros Hd%subdir_new_ok Hl. split; [|split].
  - unfold addpath_size, baselen in *. rewrite wrap_id by lia.
    assert (length (unrooted p) <= length p)%nat by (destruct p as [|x p]; [done|]; cbn [unrooted]; destruct (x =? SLASH); cbn; lia).
    destruct (newpath_cases d p) as [[-> _]|[-> _]]; [change (length (lit ".")) with 1%nat; lia|rewrite length_app; lia].
  - destruct (newpath_cases d p) as [[-> E]|[-> _]].
    + right. split; [done|]. rewrite <- (comps_unrooted p), <- comps_base by done. by rewrite E.
    + left. by rewrite comps_base, comps_unrooted.
  - intros Hb q E. destruct (newpath_cases d (SLASH :: p)) as [[_ E1]|[E1 _]]; [by apply app_nil in E1 as [? _]|].
    destruct (newpath_cases d (SLASH :: q)) as [[_ E2]|[E2 _]]; [by apply app_nil in E2 as [? _]|].
    rewrite E1, E2 in E. by apply app_inv_head in E.
Qed.

(** ** Links *)

Definition DOT : bytes := lit ".".
Definition DOTDOT : bytes := lit "..".

(** Where a sequence of names leads, from a directory. *)
Definition walk_name (dir : list bytes) (c : bytes) : list bytes :=
  if bool_decide (c = DOT) then dir else if bool_decide (c = DOTDOT) then removelast dir else dir ++ [c].

Definition resolve (dir cs : list bytes) : list bytes := foldl walk_name dir cs.

(** Where a link in directory [dir] leads. *)
Definition link_target (dir : list bytes) (link : bytes) : list bytes :=
  resolve (if starts_with_slash link then [] else dir) (comps link).

Definition plain (cs : list bytes) : Prop := Forall (fun c => c <> DOT /\ c <> DOTDOT) cs.

Lemma resolve_app dir cs cs' : resolve dir (cs ++ cs') = resolve (resolve dir cs) cs'.
Proof. apply foldl_app. Qed.

Lemma resolve_plain dir cs : plain cs -> resolve dir cs = dir ++ cs.
Proof.
  revert dir. induction cs as [|c cs IH]; intros dir Hp; [by rewrite app_nil_r|]. inversion Hp as [|? ? [H1 H2] Hp']; subst.
  cbn. unfold walk_name at 2. rewrite !bool_decide_false by done. fold (resolve (dir ++ [c]) cs). rewrite IH by done. by rewrite <- app_assoc.
Qed.

Lemma resolve_up dir n : (n <= length dir)%nat -> resolve dir (replicate n DOTDOT) = take (length dir - n) dir.
Proof.
  revert dir. induction n as [|n IH]; intros dir Hn; cbn [replicate]; [by rewrite Nat.sub_0_r, firstn_all|].
  destruct dir as [|x dir _] using rev_ind; [cbn in Hn; lia|]. rewrite length_app in *. cbn [length] in *.
  change (resolve (dir ++ [x]) (DOTDOT :: replicate n DOTDOT)) with (resolve (removelast (dir ++ [x])) (replicate n DOTDOT)).
  rewrite removelast_last, IH by lia. rewrite take_app_le by lia. f_equal. lia.
Qed.

Lemma comps_updots n l : match l with c :: _ => c <> SLASH | [] => True end -> comps (mjoin (replicate n (lit "../")) ++ l) = replicate n DOTDOT ++ comps l.
Proof.
  intros Hl. induction n as [|n IH]; [done|]. cbn [replicate mjoin list_join]. rewrite <- app_assoc.
  change (lit "../") with (DOTDOT ++ [SLASH]). rewrite <- app_assoc. cbn [app].
  change (comps (DOTDOT ++ SLASH :: (mjoin (replicate n (lit "../")) ++ l)) = DOTDOT :: replicate n DOTDOT ++ comps l).
  rewrite comps_name; [|by repeat constructor|done|done]. by rewrite comps_slash, IH.
Qed.

(** The rewritten link: [n] times up, then the rest. *)
Definition rest_of (n : Z) (l : bytes) : bytes :=
  if negb (Z.of_nat (length l) =? 0) then l else if n =? 0 then lit "." else [].

Lemma transform_cases d path buf size :
  transform_symlink d path buf size = buf \/
  (starts_with_slash buf = true /\ exists C l P n, comps buf = C ++ comps l /\ comps path = C ++ P /\
     (match l with c :: _ => c <> SLASH | [] => True end) /\ Z.of_nat (length P) = n + 1 /\ 0 <= n /\
     n * 3 + Z.of_nat (length l) + 2 <= size /\
     transform_symlink d path buf size = mjoin (replicate (Z.to_nat n) (lit "../")) ++ rest_of n l).
Proof.
  unfold transform_symlink. destruct (starts_with_slash buf) eqn:Hs; cbn [negb orb]; [|by left].
  destruct (starts_with_slash (base d)); cbn [negb]; [|by left].
  destruct (strip_common_spec buf path) as (C & E1 & E2 & _). pose proof (strip_loop_head (length buf + length path) buf path) as Hh.
  fold (strip_common buf path) in Hh. destruct (strip_common buf path) as [l p]; cbn [fst snd] in *.
  destruct (_ <? baselen d); [by left|]. rewrite count_components_spec. destruct (Z.eqb_spec (Z.of_nat (length (comps p))) 0); [by left|].
  destruct (Z.ltb_spec size ((Z.of_nat (length (comps p)) - 1) * 3 + Z.of_nat (length l) + 2)); [by left|].
  right. split; [done|]. exists C, l, (comps p), (Z.of_nat (length (comps p)) - 1). split_and!; try done; lia.
Qed.

Lemma rest_of_head n l : match l with c :: _ => c <> SLASH | [] => True end -> match rest_of n l with c :: _ => c <> SLASH | [] => True end.
Proof. destruct l as [|c l]; [|done]. intros _. unfold rest_of. cbn. by destruct (n =? 0). Qed.

Lemma rest_of_resolves dir n l : resolve dir (comps (rest_of n l)) = resolve dir (comps l).
Proof. destruct l as [|c l]; [|done]. unfold rest_of. cbn [length Z.of_nat Z.eqb negb]. destruct (n =? 0); [|done]. done. Qed.

Lemma updots_relative n l : match l with c :: _ => c <> SLASH | [] => True end ->
  starts_with_slash (mjoin (replicate n (lit "../")) ++ l) = false.
Proof. destruct n; [|done]. destruct l as [|c l]; [done|]. cbn. intros Hc. by apply Z.eqb_neq. Qed.

Lemma length_updots n : length (mjoin (replicate n (lit "../"))) = (3 * n)%nat.
Proof. induction n as [|n IH]; [done|].
  change (mjoin (replicate (S n) (lit "../"))) with (lit "../" ++ mjoin (replicate n (lit "../"))). rewrite length_app, IH. change (length (lit "../")) with 3%nat. lia. Qed.

(** C29: transform_symlink: a link keeps its target.  Seen from the directory
    of the link, the string in the buffer leads to the same place before and
    after, provided the path of the link has no . or .. in it, and the new
    string still fits into the buffer with its terminating null. *)
Theorem link_target_kept d path buf size :
  plain (comps path) -> Z.of_nat (length buf) + 1 <= size ->
  let r := transform_symlink d path buf size in
  link_target (removelast (comps path)) r = link_target (removelast (comps path)) buf /\ Z.of_nat (length r) + 1 <= size.
Proof.
  intros Hp Hb r. subst r. destruct (transform_cases d path buf size) as [->|(Hs & C & l & P & n & E1 & E2 & Hl & Hn & Hn0 & Hz & ->)]; [done|].
  split.
  - unfold link_target. rewrite (updots_relative _ _ (rest_of_head n l Hl)), Hs, E1, E2.
    rewrite comps_updots by (by apply rest_of_head). rewrite !resolve_app.
    rewrite E2 in Hp. apply Forall_app in Hp as [HC _]. rewrite (resolve_plain [] C) by done. cbn [app].
    destruct P as [|x P _] using rev_ind; [cbn in Hn; lia|]. rewrite app_assoc, removelast_last. rewrite length_app in Hn. cbn in Hn.
    rewrite resolve_up by (rewrite length_app; lia). rewrite length_app, take_app_le by lia.
    replace (length C + length P - Z.to_nat n)%nat with (length C) by lia. rewrite firstn_all. apply rest_of_resolves.
  - rewrite length_app, length_updots. unfold rest_of. destruct (Z.eqb_spec (Z.of_nat (length l)) 0); cbn [negb]; [|lia].
    destruct (Z.eqb_spec n 0); [change (length (lit ".")) with 1%nat|cbn [length]]; lia.
Qed.

Lemma subdir_path_confined_witness :
  newpath (Sd (lit "/data/") true) (lit "/a/b") = lit "/data/a/b" /\
  comps (newpath (Sd (lit "/data/") true) (lit "/a/b")) = [lit "data"; lit "a"; lit "b"] /\
  Z.of_nat (length (newpath (Sd (lit "/data/") true) (lit "/a/b"))) + 1 <= addpath_size (Sd (lit "/data/") true) (lit "/a/b").
Proof.
  split; [reflexivity|]. split; [reflexivity|].
  exact (proj1 (subdir_path_confined true (Some (Some (lit "/data"), true)) 1 true true (Sd (lit "/data/") true) (lit "/a/b") eq_refl ltac:(vm_compute; reflexivity))).
Defined.

(** A link /data/a/b that points to /data/c becomes ../c. *)
Lemma link_target_kept_witness :
  transform_symlink (Sd (lit "/data/") true) (lit "/data/a/b") (lit "/data/c") 4097 = lit "../c" /\
  link_target [lit "data"; lit "a"] (lit "../c") = link_target [lit "data"; lit "a"] (lit "/data/c").
Proof.
  split; [reflexivity|].
  refine (proj1 (link_target_kept (Sd (lit "/data/") true) (lit "/data/a/b") (lit "/data/c") 4097 _ _)).
  - vm_compute. repeat constructor; discriminate.
  - vm_compute. discriminate.
Defined.

(** The test that keeps links out of the directory alone counts bytes, not
    components: a link that leads outside the directory but starts with more
    than one slash is made relative, and then leads to another place once the
    directory is mounted, where the link is not at /data/d/k but at /d/k. *)
Theorem outside_link_rewritten :
  let d := Sd (lit "/data/") true in
  transform_symlink d (lit "/data/d/k") (lit "//////etc") 4097 = lit "../../etc" /\
  transform_symlink d (lit "/data/d/k") (lit "/etc") 4097 = lit "/etc" /\
  link_target [lit "d"] (lit "/etc") = [lit "etc"] /\ link_target [lit "mnt"; lit "here"; lit "d"] (lit "../../etc") = [lit "mnt"; lit "etc"].
Proof. split_and!; reflexivity. Qed.

(** ** Forwarding *)

Section Forward.
Context {OS X : Type} `{FdOps OS} `{DevOps OS}.
Context (next : fuse_operations OS X) (d : subdir).

(** [q] is the path [p], without the slash it may start with, below the directory
    [dir]; an empty result is the current directory. *)
Definition below (dir p q : bytes) : Prop :=
  exists r, (p = SLASH :: r \/ (starts_with_slash p = false /\ p = r)) /\
    ((dir ++ r <> [] /\ q = dir ++ r) \/ (dir = [] /\ r = [] /\ q = lit ".")).

(** A null path stays null. *)
Definition opt_below (dir : bytes) (p q : option bytes) : Prop :=
  match p, q with
  | Some p, Some q => below dir p q
  | None, None => True
  | _, _ => False
  end.

(** [k'] is the call [k] with the directory in front of its paths. *)
Definition prefixed (dir : bytes) (k k' : call) : Prop :=
  match call_paths k with
  | [p; q] => exists p' q', opt_below dir p p' /\ opt_below dir q q' /\ k' = with_paths p' q' k
  | [p] => exists p', opt_below dir p p' /\ k' = with_paths p' None k
  | _ => False
  end.

(** How many paths have to be allocated. *)
Definition paths_given (k : call) : nat := length (omap id (call_paths k)).

Lemma newpath_below p : below (base d) p (newpath d p).
Proof.
  exists (unrooted p). split.
  - destruct p as [|c p]; [by right|]. cbn. destruct (Z.eqb_spec c SLASH) as [->|]; [by left|by right].
  - destruct (newpath_cases d p) as [[-> E]|[-> E]]; [right; apply app_nil in E as [? ?]; by repeat split|by left].
Qed.

(** One path: an outcome of malloc is used only for a path that is given. *)
Lemma addpath_cases (p : option bytes) h : let n := length (omap id [p]) in
  (forallb id (take n h) = true -> exists q, opt_below (base d) p q /\ subdir_addpath d p (h, tt) = ((drop n h, tt), inr q)) /\
  (forallb id (take n h) = false -> subdir_addpath d p (h, tt) = ((drop n h, tt), inl (- ENOMEM))).
Proof.
  intros n. subst n. destruct p as [p|]; cbn [omap list_omap id length].
  - destruct h as [|[] h]; (split; [|done]); try done; intros _; exists (Some (newpath d p)); (split; [apply newpath_below|done]).
  - split; [intros _; by exists None|done].
Qed.

(** C28: The callbacks of the subdir module (all but readlink, symlink,
    readdir, read_buf, write_buf, lseek, init and destroy) do exactly what the
    next file system does for the call with the directory in front of every
    path: the same answer and the same new state, whatever the module's
    allocations do, as long as there is memory for the paths that are given.
    Each path is the base directory followed by the path without its leading
    slash, or the current directory if that is empty.  If there is no memory for
    one of the paths, the first or the second, they answer ENOMEM and the next
    file system is not called. *)
Theorem subdir_forwards k c x w h :
  let n := paths_given k in
  (forallb id (take n h) = true -> exists k', prefixed (base d) k k' /\
     perform (subdir_oper next d) k c (((h, tt), x), w) =
       (let '(a, (x', w')) := perform next k' c (x, w) in (a, (((drop n h, tt), x'), w')))) /\
  (forallb id (take n h) = false -> exists a h',
     perform (subdir_oper next d) k c (((h, tt), x), w) = (a, (((h', tt), x), w)) /\ code a = - ENOMEM).
Proof.
  pose proof (stack_forwards_gen next (subdir_addpath d) (subdir_readlink next d) (subdir_symlink next d) subdir_fill k c (h, tt) x w) as Hf.
  change (stack_oper _ _ _ _ _) with (subdir_oper next d) in Hf. unfold conv_paths in Hf. unfold prefixed, paths_given.
  assert ((exists p, call_paths k = [p]) \/ exists p q, call_paths k = [p; q]) as [[p Ek]|(p & q & Ek)]
    by (destruct k; cbn; eauto); rewrite Ek in *.
  - destruct (addpath_cases p h) as [H1 H2]. split; intros Hh.
    + destruct (H1 Hh) as (p' & Hp & E). rewrite E in Hf. exists (with_paths p' None k). split; [by exists p'|exact Hf].
    + rewrite (H2 Hh) in Hf. destruct Hf as (a & E & Hc). by eexists a, _.
  - assert (length (omap id [p; q]) = (length (omap id [p]) + length (omap id [q]))%nat) as En by (by destruct p, q).
    destruct (addpath_cases p h) as [H1 H2]. set (n1 := length (omap id [p])) in *.
    destruct (addpath_cases q (drop n1 h)) as [H3 H4]. set (n2 := length (omap id [q])) in *.
    assert (take (n1 + n2) h = take n1 h ++ take n2 (drop n1 h)) as Et.
    { rewrite <- (take_drop n1 (take (n1 + n2) h)). by rewrite firstn_firstn, Nat.min_l, skipn_firstn_comm, Nat.add_sub' by lia. }
    rewrite En, Et, forallb_app. split.
    + intros [Ha Hb]%andb_prop. destruct (H1 Ha) as (p' & Hp & E). rewrite E in Hf. destruct (H3 Hb) as (q' & Hq & E').
      rewrite E', drop_drop in Hf. exists (with_paths p' q' k). split; [by exists p', q'|exact Hf].
    + intros [Ha|Hb]%andb_false_iff.
      * rewrite (H2 Ha) in Hf. destruct Hf as (a & E & Hc). by eexists a, _.
      * destruct (forallb id (take n1 h)) eqn:Ha.
        -- destruct (H1 eq_refl) as (p' & Hp & E). rewrite E in Hf. rewrite (H4 Hb) in Hf. destruct Hf as (a & E' & Hc). by eexists a, _.
        -- rewrite (H2 eq_refl) in Hf. destruct Hf as (a & E & Hc). by eexists a, _.
Qed.
End Forward.

(** ** Seeking *)

(** A file system that has only lseek, which goes where it is told. *)
Definition seek_ops (OS X : Type) : fuse_operations OS X :=
  FsOps OS X None None None None None None None None None None None None None None None None None None None None
    None None None None None None None None None None None None None None None None None None None None None
    (Some (fun path off whence fi c st => (off, st))).

(** subdir_lseek keeps the new offset, an off_t, in an int: a seek to 2
    GiB, which the next file system answers with that offset, is reported as the
    negative number -2147483648, that is, as an error. *)
Theorem lseek_truncated {OS X} `{FdOps OS} `{DevOps OS} d path fi c x (w : world OS) :
  o_lseek (seek_ops OS X) = Some (fun _ off _ _ _ st => (off, st)) /\
  subdir_lseek (seek_ops OS X) d (Some path) (2 ^ 31) 3 fi c ((([], tt), x), w) = (- 2 ^ 31, ((([], tt), x), w)).
Proof. done. Qed.

(** A file system that has only rename, and writes down what it was asked. *)
Definition rename_ops (OS : Type) : fuse_operations OS (list (option bytes)) :=
  FsOps OS (list (option bytes)) None None None None None None None
    (Some (fun p q fl c st => (0, (st.1 ++ [p; q], st.2)))) None None None None None None None None None None None
    None None None None None None None None None None None None None None None None None None None None None None None.

(** A rename below /data is forwarded; without memory for the second path it is
    not. *)
Lemma subdir_forwards_witness :
  let d := Sd (lit "/data/") true in
  let k := K_rename (Some (lit "/a")) (Some (lit "b/c")) 0 in
  let run h := perform (subdir_oper (rename_ops files) d) k (ReqCtx 0 0 0 0) (((h, tt), []), World ∅ ∅ 0) in
  (exists k', prefixed (lit "/data/") k k' /\ k' = K_rename (Some (lit "/data/a")) (Some (lit "/data/b/c")) 0 /\
     run [true; true; false] = (A_res 0, ((([false], tt), [Some (lit "/data/a"); Some (lit "/data/b/c")]), World ∅ ∅ 0))) /\
  exists a h, run [true; false] = (a, (((h, tt), []), World ∅ ∅ 0)) /\ code a = - ENOMEM.
Proof.
  cbn zeta. split.
  - destruct (proj1 (subdir_forwards (rename_ops files) (Sd (lit "/data/") true) (K_rename (Some (lit "/a")) (Some (lit "b/c")) 0)
      (ReqCtx 0 0 0 0) [] (World ∅ ∅ 0) [true; true; false]) eq_refl) as (k' & Hk & _).
    exists k'. split; [exact Hk|]. split; [|vm_compute; reflexivity].
    destruct Hk as (p' & q' & Hp & Hq & ->). destruct p' as [p'|]; [|destruct Hp]. destruct q' as [q'|]; [|destruct Hq].
    assert (p' = lit "/data/a") as ->.
    { destruct Hp as (r & [[= <-]|[? _]] & Hr); [|done]. destruct Hr as [[_ ->]|[? _]]; done. }
    assert (q' = lit "/data/b/c") as ->; [|reflexivity].
    destruct Hq as (r & [?|[_ <-]] & Hr); [done|]. destruct Hr as [[_ ->]|[? _]]; done.
  - exact (proj2 (subdir_forwards (rename_ops files) (Sd (lit "/data/") true) (K_rename (Some (lit "/a")) (Some (lit "b/c")) 0)
      (ReqCtx 0 0 0 0) [] (World ∅ ∅ 0) [true; false]) eq_refl).
Defined.
