(* ===== verification/Iconv.v ===== *)
(** * The iconv module: libfuse/lib/modules/iconv.c

    File names are converted from one character set to another: paths on their
    way to the next file system with the descriptor [tofs], names in directories
    and the targets of links on their way back with [fromfs].  The conversion
    itself is iconv(3), the interface [IconvOps]. *)

From S2P Require Import Prelude Wire Locks Node Buf LowLevel Dispatch Lib Stack.

Definition E2BIG : Z := 7.
Definition EILSEQ : Z := 84.

(** iconv(3): [iconv cd inp room] converts what it can into at most [room]
    bytes.  It returns the new state of the descriptor, an error number or 0,
    the input that is left, and the bytes it wrote.  With null pointers it puts
    the descriptor back to its initial state.  [mb_max] is the largest number of
    bytes that one character is converted to, with its shift sequence. *)
Class IconvOps (CD : Type) := {
  iconv : CD -> bytes -> Z -> CD * Z * bytes * bytes;
  iconv_reset : CD -> CD;
  mb_max : nat }.

(** What the manual says: at most [room] bytes are written, what is left is the
    end of the input, only a complete conversion returns 0; characters are
    converted one at a time, so that a call that uses up no input writes
    nothing, and with room for a character a full buffer is only reported after
    progress. *)
Class IconvLaws (CD : Type) `{IconvOps CD} := {
  iconv_room cd inp room : 0 <= room -> Z.of_nat (length (iconv cd inp room).2) <= room;
  iconv_rest cd inp room : exists done_, inp = done_ ++ (iconv cd inp room).1.2;
  iconv_all cd inp room : (iconv cd inp room).1.1.2 = 0 -> (iconv cd inp room).1.2 = [];
  iconv_pairs cd inp room : (iconv cd inp room).1.2 = inp -> (iconv cd inp room).2 = [];
  iconv_more cd inp room : Z.of_nat mb_max <= room -> (iconv cd inp room).1.1.2 = E2BIG -> (iconv cd inp room).1.2 <> inp }.

(** [struct iconv] without the mutex and the names of the character sets. *)
Record iconv_mod (CD : Type) := Ic { tofs : CD; fromfs : CD }.
Arguments Ic {CD}.
Arguments tofs {CD}.
Arguments fromfs {CD}.

Section Iconv.
Context {CD : Type} `{IconvOps CD}.

Definition pick (back : bool) (ic : iconv_mod CD) : CD := if back then fromfs ic else tofs ic.

Definition set_cd (back : bool) (cd : CD) (ic : iconv_mod CD) : iconv_mod CD :=
  if back then Ic (tofs ic) cd else Ic cd (fromfs ic).

(** The loop of iconv_convpath: [path] is the input that is left, [out] what was
    written, [newpathlen] the size of the block less one.  A turn that reports a
    full buffer makes the block larger; with [mb_max] bytes of room the next one
    gets on with the input, which bounds the turns.  The result has the final
    size of the block. *)
Fixpoint conv_loop (fuel : nat) (back : bool) (path out : bytes) (newpathlen : Z) (m : mst (iconv_mod CD)) : mst (iconv_mod CD) * (Z + bytes * Z) :=
  let plen := newpathlen - Z.of_nat (length out) in
  let '(cd, e, path', o) := iconv (pick back m.2) path plen in
  let m := (m.1, set_cd back cd m.2) in
  let reset := (m.1, set_cd back (iconv_reset cd) m.2) in
  if e =? 0 then (m, inr (out ++ o, newpathlen)) else
  if negb (e =? E2BIG) then (reset, inl (- EILSEQ)) else
  match fuel with
  | O => (reset, inl (- EILSEQ))
  | S fuel =>
      let inc := (Z.of_nat (length path') + 1) * 4 in
      let '(ok, m) := take_outcome m in
      if (ok : bool) then conv_loop fuel back path' (out ++ o) (newpathlen + inc) m
      else ((m.1, set_cd back (iconv_reset cd) m.2), inl (- ENOMEM))
  end.

Definition iconv_convpath (back : bool) (path : option bytes) (m : mst (iconv_mod CD)) : mst (iconv_mod CD) * (Z + option bytes) :=
  match path with
  | None => (m, inr None)
  | Some p =>
      let '(ok, m) := take_outcome m in
      if (ok : bool) then
        match conv_loop (S (length p) * S mb_max) back p [] (Z.of_nat (length p) * 4) m with
        | (m, inr (q, _)) => (m, inr (Some (cstr q)))
        | (m, inl e) => (m, inl e)
        end
      else (m, inl (- ENOMEM))
  end.

Section Table.
Context {OS X : Type} `{FdOps OS} `{DevOps OS}.
Context (next : fuse_operations OS X).

Abbreviation Sx := (mst (iconv_mod CD) * X)%type.
Abbreviation conv := (iconv_convpath false).

Definition iconv_getattr := stack_getattr next conv.
Definition iconv_access := stack_access next conv.

(** The target is converted back; [strncpy] cuts it to the buffer. *)
Definition iconv_readlink (path : option bytes) (size : Z) : fsop OS Sx (Z * bytes) :=
  with_path conv path (fun e => (e, [])) (fun p c st =>
    let '(r, ((m, x), w)) := under (fs_next (o_readlink next) (fun f => f p size) (- ENOSYS, [])) c st in
    if r.1 =? 0 then
      match iconv_convpath true (Some (cstr r.2)) m with
      | (m, inr (Some newlink)) => ((0, take (Z.to_nat (size - 1)) newlink), ((m, x), w))
      | (m, inr None) => (r, ((m, x), w))
      | (m, inl e) => ((e, r.2), ((m, x), w))
      end
    else (r, ((m, x), w))).

Definition iconv_opendir := stack_opendir next conv.

(** A name that cannot be converted is left out. *)
Definition iconv_dir_fill (nm : bytes) (m : mst (iconv_mod CD)) : mst (iconv_mod CD) * option bytes :=
  match iconv_convpath true (Some nm) m with
  | (m, inr (Some newname)) => (m, Some newname)
  | (m, _) => (m, None)
  end.

Definition iconv_readdir := stack_readdir next conv iconv_dir_fill.
Definition iconv_releasedir := stack_releasedir next conv.
Definition iconv_mknod := stack_mknod next conv.
Definition iconv_mkdir := stack_mkdir next conv.
Definition iconv_unlink := stack_unlink next conv.
Definition iconv_rmdir := stack_rmdir next conv.

(** The target of a new link is converted too. *)
Definition iconv_symlink (from : bytes) (to : option bytes) : fsop OS Sx Z :=
  with_path conv (Some from) id (fun f => with_path conv to id (fun t =>
    under (fs_next (o_symlink next) (fun g => g (default [] f) t) (- ENOSYS)))).

Definition iconv_rename := stack_rename next conv.
Definition iconv_link := stack_link next conv.
Definition iconv_chmod := stack_chmod next conv.
Definition iconv_chown := stack_chown next conv.
Definition iconv_truncate := stack_truncate next conv.
Definition iconv_utimens := stack_utimens next conv.
Definition iconv_create := stack_create next conv.
Definition iconv_open_file := stack_open next conv.
Definition iconv_read_buf := stack_read_buf next conv.
Definition iconv_write_buf := stack_write_buf next conv.
Definition iconv_statfs := stack_statfs next conv.
Definition iconv_flush := stack_flush next conv.
Definition iconv_release := stack_release next conv.
Definition iconv_fsync := stack_fsync next conv.
Definition iconv_fsyncdir := stack_fsyncdir next conv.
Definition iconv_setxattr := stack_setxattr next conv.
Definition iconv_getxattr := stack_getxattr next conv.
Definition iconv_listxattr := stack_listxattr next conv.
Definition iconv_removexattr := stack_removexattr next conv.
Definition iconv_lock := stack_lock next conv.
Definition iconv_flock := stack_flock next conv.
Definition iconv_bmap := stack_bmap next conv.
Definition iconv_lseek := stack_lseek next conv.
Definition iconv_init : fuse_conn_info -> fuse_config -> fsop OS Sx _ := stack_init next.
Definition iconv_destroy : fsop OS Sx unit := stack_destroy next.

Definition iconv_oper : fuse_operations OS Sx :=
  FsOps OS Sx
    (Some iconv_getattr) (Some iconv_readlink) (Some iconv_mknod) (Some iconv_mkdir) (Some iconv_unlink) (Some iconv_rmdir)
    (Some iconv_symlink) (Some iconv_rename) (Some iconv_link) (Some iconv_chmod) (Some iconv_chown) (Some iconv_truncate)
    (Some iconv_open_file) None None (Some iconv_statfs) (Some iconv_flush) (Some iconv_release) (Some iconv_fsync)
    (Some iconv_setxattr) (Some iconv_getxattr) (Some iconv_listxattr) (Some iconv_removexattr) (Some iconv_opendir)
    (Some iconv_readdir) (Some iconv_releasedir) (Some iconv_fsyncdir) (Some iconv_init) (Some iconv_destroy)
    (Some iconv_access) (Some iconv_create) (Some iconv_lock) (Some iconv_utimens) (Some iconv_bmap) None None
    (Some iconv_write_buf) (Some iconv_read_buf) (Some iconv_flock) None None (Some iconv_lseek).
End Table.

(** ** iconv_new

    [opts] is what fuse_opt_parse found, from_code= and to_code=, or [None] for
    its -1; [open] is iconv_open, [None] for (iconv_t) -1; [nexts] the number of
    file systems below.  The result is null, or the module with the two
    descriptors as they are. *)
Definition iconv_new (open : bytes -> bytes -> option CD) (calloc_ok : bool) (opts : option (option bytes * option bytes))
    (nexts : nat) (fs_ok : bool) : option (option CD * option CD) :=
  if negb calloc_ok then None else
  match opts with
  | None => None
  | Some (from_code, to_code) =>
      if negb (bool_decide (nexts = 1%nat)) then None else
      let from := default (lit "UTF-8") from_code in
      let to := default [] to_code in
      let tofs := open from to in
      if negb (is_some tofs) then None else
      let fromfs := open to from in
      (* tests ic->tofs again *)
      if negb (is_some tofs) then None else
      if negb fs_ok then None else Some (tofs, fromfs)
  end.
End Iconv.
