(* ===== verification/IconvTheorems.v ===== *)
(** * The iconv module: theorems

    The loop with the growing block computes the conversion of the whole path
    from the state of the descriptor, ends, and stays within the block; after an
    error the descriptor is in its initial state, after a success it is where the
    path left it.  A module is made although one of its two descriptors is not
    valid. *)

From S2P Require Import Prelude Wire Locks Node Buf LowLevel Dispatch Lib Stack Iconv.

(** ** Converters

    [run cd s] is the conversion of the bytes [s] from the state [cd]: what is
    written for them and the state after them, or nothing if [s] has no
    conversion.  A character set may have shift states, so that the bytes of a
    character depend on the state.  The initial state of a descriptor is the same
    wherever it is. *)
Class IconvSpec (CD : Type) `{IconvOps CD} := {
  run : CD -> bytes -> option (bytes * CD);
  spec_zero cd inp room : (iconv cd inp room).1.1.2 = 0 -> run cd inp = Some ((iconv cd inp room).2, (iconv cd inp room).1.1.1);
  spec_full cd inp room : (iconv cd inp room).1.1.2 = E2BIG ->
    run cd inp = prod_map (app (iconv cd inp room).2) id <$> run (iconv cd inp room).1.1.1 (iconv cd inp room).1.2;
  spec_bad cd inp room : (iconv cd inp room).1.1.2 <> 0 -> (iconv cd inp room).1.1.2 <> E2BIG -> run cd inp = None;
  spec_initial cd inp room : iconv_reset (iconv cd inp room).1.1.1 = iconv_reset cd }.

Section Loop.
Context {CD : Type} `{IconvLaws CD} `{!IconvSpec CD}.

Lemma pick_set back cd (ic : iconv_mod CD) : pick back (set_cd back cd ic) = cd.
Proof. by destruct back. Qed.

Lemma set_set back cd cd' (ic : iconv_mod CD) : set_cd back cd (set_cd back cd' ic) = set_cd back cd ic.
Proof. by destruct back. Qed.

(** How a conversion can end: with the bytes, as there are none, or without
    memory. *)
Inductive conv_result (back : bool) (path out : bytes) (h : list bool) (ic : iconv_mod CD) :
    mst (iconv_mod CD) * (Z + bytes * Z) -> Prop :=
  | Conv_done q cd h' n : run (pick back ic) path = Some (q, cd) -> Z.of_nat (length (out ++ q)) <= n ->
      conv_result back path out h ic ((h', set_cd back cd ic), inr (out ++ q, n))
  | Conv_invalid h' : run (pick back ic) path = None ->
      conv_result back path out h ic ((h', set_cd back (iconv_reset (pick back ic)) ic), inl (- EILSEQ))
  | Conv_nomem h' : false ∈ h ->
      conv_result back path out h ic ((h', set_cd back (iconv_reset (pick back ic)) ic), inl (- ENOMEM)).

(** A turn that filled the block, and what the rest does. *)
Lemma conv_result_step back path out o rest h h' ic cd r :
  run (pick back ic) path = prod_map (app o) id <$> run cd rest -> iconv_reset cd = iconv_reset (pick back ic) ->
  (false ∈ h' -> false ∈ h) ->
  conv_result back rest (out ++ o) h' (set_cd back cd ic) r -> conv_result back path out h ic r.
Proof.
  intros Hr Hi Hh [q cd' h2 n E Hn|h2 E|h2 Hf]; rewrite ?pick_set, ?set_set, ?Hi in *.
  - rewrite <- app_assoc in *. eapply Conv_done; [|done]. by rewrite Hr, E.
  - apply Conv_invalid. by rewrite Hr, E.
  - apply Conv_nomem. by apply Hh.
Qed.

(** What is left to do: the input, and the room that one character may lack. *)
Definition todo (path : bytes) (room : Z) : nat := length path * S mb_max + Z.to_nat (Z.of_nat mb_max - room).

Lemma todo_less (path rest : bytes) room room' : (exists d, path = d ++ rest) ->
  rest <> path \/ (rest = path /\ room < Z.of_nat mb_max /\ room < room') -> 0 <= room' -> (todo rest room' < todo path room)%nat.
Proof.
  intros [d ->] Hor Hr. unfold todo. rewrite length_app. destruct d as [|c d]; cbn [app length] in *.
  - destruct Hor as [?|(_ & ? & ?)]; [done|]. lia.
  - nia.
Qed.

Lemma conv_loop_spec fuel back path out n h ic :
  (todo path (n - Z.of_nat (length out)) < fuel)%nat -> Z.of_nat (length out) <= n ->
  conv_result back path out h ic (conv_loop fuel back path out n (h, ic)).
Proof.
  revert path out n h ic. induction fuel as [|fuel IH]; intros path out n h ic Hf Hn; [lia|]. cbn [conv_loop].
  set (room := n - Z.of_nat (length out)) in *. set (cd := pick back ic).
  pose proof (spec_zero cd path room) as Hz. pose proof (spec_full cd path room) as Hfull.
  pose proof (spec_bad cd path room) as Hbad. pose proof (spec_initial cd path room) as Hini.
  pose proof (iconv_room cd path room ltac:(lia)) as Hroom. pose proof (iconv_rest cd path room) as Hrest.
  pose proof (iconv_pairs cd path room) as Hpair. pose proof (iconv_more cd path room) as Hmore.
  cbn [snd fst]. fold cd. destruct (iconv cd path room) as [[[cd' e] rest] o]. cbn [snd fst] in *.
  rewrite !set_set, Hini.
  destruct (Z.eqb_spec e 0) as [He|He]; [apply Conv_done; [by apply Hz|rewrite length_app; lia]|].
  destruct (Z.eqb_spec e E2BIG) as [He2|He2]; cbn [negb]; [|apply Conv_invalid; by apply Hbad].
  assert (exists ok h', take_outcome (h, set_cd back cd' ic) = (ok, (h', set_cd back cd' ic)) /\ (false ∈ h' -> false ∈ h) /\
    (ok = false -> false ∈ h)) as (ok & h' & -> & Hin & Hno).
  { unfold take_outcome. destruct h as [|b h]; cbn; [by exists true, []|]. exists b, h.
    split; [done|]. split; [by right|]. intros ->. left. }
  destruct ok; cbn [fst snd].
  - eapply conv_result_step; [by apply Hfull|done|exact Hin|]. apply IH.
    + eapply Nat.lt_le_trans; [|apply Nat.lt_succ_r, Hf]. apply todo_less; [done| |rewrite length_app; lia].
      destruct (decide (rest = path)) as [->|Hne]; [right|by left]. specialize (Hpair eq_refl). subst o. rewrite app_nil_r.
      split; [done|]. split; [|lia]. destruct (Z.lt_ge_cases room (Z.of_nat mb_max)) as [|Hge]; [done|]. by destruct (Hmore Hge He2).
    + rewrite length_app. lia.
  - rewrite set_set. apply Conv_nomem. by apply Hno.
Qed.

(** How iconv_convpath can end.  The last two are without memory for the first
    block, before the descriptor is used, and for a larger one. *)
Inductive path_result (back : bool) (p : bytes) (h : list bool) (ic : iconv_mod CD) :
    mst (iconv_mod CD) * (Z + option bytes) -> Prop :=
  | Path_converted q cd h' : run (pick back ic) p = Some (q, cd) ->
      path_result back p h ic ((h', set_cd back cd ic), inr (Some (cstr q)))
  | Path_invalid h' : run (pick back ic) p = None ->
      path_result back p h ic ((h', set_cd back (iconv_reset (pick back ic)) ic), inl (- EILSEQ))
  | Path_no_block h' : false ∈ h -> path_result back p h ic ((h', ic), inl (- ENOMEM))
  | Path_no_larger h' : false ∈ h ->
      path_result back p h ic ((h', set_cd back (iconv_reset (pick back ic)) ic), inl (- ENOMEM)).

Definition loop_fuel (p : bytes) : nat := S (length p) * S mb_max.

Lemma convpath_loop back p h ic :
  conv_result back p [] h ic (conv_loop (loop_fuel p) back p [] (Z.of_nat (length p) * 4) (h, ic)).
Proof. apply conv_loop_spec; [unfold todo, loop_fuel; cbn [length]; nia|cbn; lia]. Qed.

(** C30: iconv_convpath, for a converter with the documented behaviour of iconv,
    shift states included, and for every outcome of its allocations.  It always
    ends, in one of these ways.  It returns the conversion of the whole path from
    the state the descriptor is in, up to its first null, and the descriptor is
    left in the state after the path (the code does not ask iconv for the
    sequence that would lead back to the initial state).  Or the path has no
    conversion: the answer is EILSEQ and the descriptor is put into its initial
    state.  Or an allocation failed: the answer is ENOMEM, and the descriptor has
    not been used or is put into its initial state.  The other descriptor is
    never touched.  The string and its null fit into the block, which the loop
    enlarges whenever iconv reports it full. *)
Theorem convpath_converts back p h ic :
  path_result back p h ic (iconv_convpath back (Some p) (h, ic)) /\
  forall m q n, conv_loop (loop_fuel p) back p [] (Z.of_nat (length p) * 4) (h, ic) = (m, inr (q, n)) ->
    Z.of_nat (length q) + 1 <= n + 1.
Proof.
  split.
  - unfold iconv_convpath. fold (loop_fuel p).
    assert (forall h1, (false ∈ h1 -> false ∈ h) -> path_result back p h ic
      match conv_loop (loop_fuel p) back p [] (Z.of_nat (length p) * 4) (h1, ic) with
      | (m, inr (q, _)) => (m, inr (Some (cstr q)))
      | (m, inl e) => (m, inl e)
      end) as Hloop.
    { intros h1 Hin. destruct (convpath_loop back p h1 ic) as [q cd h' n E _|h' E|h' Hf].
      - by apply Path_converted.
      - by apply Path_invalid.
      - by apply Path_no_larger, Hin. }
    destruct h as [|[] h]; unfold take_outcome; cbn [fst snd].
    + by apply Hloop.
    + apply Hloop. by right.
    + apply Path_no_block. left.
  - intros m q n E. pose proof (convpath_loop back p h ic) as Hr. rewrite E in Hr.
    inversion Hr as [q' cd h' n' _ Hn|h'|h']; subst. cbn [app] in Hn. lia.
Qed.

End Loop.

(** ** A converter with shift states

    Bytes from 128 on are written as seven bits after a shift-out, 14, and the
    bytes below after a shift-in, 15; the state says which of them came last.
    255 is not a character. *)

Definition shifted (cd : bool) (c : Z) : bytes * bool :=
  if c <? 128 then ((if cd then [15] else []) ++ [c], false) else ((if cd then [] else [14]) ++ [c - 128], true).

Fixpoint shift_conv (cd : bool) (inp : bytes) (room : Z) : bool * Z * bytes * bytes :=
  match inp with
  | [] => (cd, 0, [], [])
  | c :: rest =>
      if c =? 255 then (cd, EILSEQ, inp, []) else
      let '(o, cd1) := shifted cd c in
      if room <? Z.of_nat (length o) then (cd, E2BIG, inp, []) else
      let '(cd2, e, r, o2) := shift_conv cd1 rest (room - Z.of_nat (length o)) in (cd2, e, r, o ++ o2)
  end.

Fixpoint shift_run (cd : bool) (inp : bytes) : option (bytes * bool) :=
  match inp with
  | [] => Some ([], cd)
  | c :: rest => if c =? 255 then None else let '(o, cd1) := shifted cd c in prod_map (app o) id <$> shift_run cd1 rest
  end.

#[export] Instance shift_ops : IconvOps bool := {| iconv := shift_conv; iconv_reset cd := false; mb_max := 2 |}.

Lemma shifted_length cd c : (1 <= length (shifted cd c).1 <= 2)%nat.
Proof. unfold shifted. destruct (c <? 128), cd; cbn; lia. Qed.

(** What one call does. *)
Lemma shift_conv_spec inp cd room : let '(cd', e, r, o) := shift_conv cd inp room in
  (0 <= room -> Z.of_nat (length o) <= room) /\ (exists d, inp = d ++ r /\ (d = [] -> o = [])) /\
  (e = 0 /\ r = [] /\ shift_run cd inp = Some (o, cd') \/
   e = EILSEQ /\ shift_run cd inp = None \/
   e = E2BIG /\ shift_run cd inp = prod_map (app o) id <$> shift_run cd' r /\ (2 <= room -> r <> inp)).
Proof.
  revert cd room. induction inp as [|c inp IH]; intros cd room; cbn [shift_conv shift_run].
  { split; [cbn; lia|]. split; [by exists []|]. by left. }
  destruct (c =? 255) eqn:Ec.
  { split; [cbn; lia|]. split; [by exists []|]. right. by left. }
  pose proof (shifted_length cd c) as Hl. destruct (shifted cd c) as [o cd1] eqn:Es; cbn [fst] in Hl.
  destruct (Z.ltb_spec room (Z.of_nat (length o))) as [Hlt|Hge].
  { split; [cbn; lia|]. split; [by exists []|]. right. right. split; [done|]. split; [|lia].
    cbn [shift_run]. rewrite Ec, Es. destruct (shift_run cd1 inp) as [[]|]; done. }
  specialize (IH cd1 (room - Z.of_nat (length o))). destruct (shift_conv cd1 inp _) as [[[cd2 e] r] o2].
  destruct IH as (H1 & (d & -> & _) & H3). split; [rewrite length_app; lia|]. split; [exists (c :: d); done|].
  destruct H3 as [(-> & -> & ->)|[(-> & ->)|(-> & -> & _)]].
  - by left.
  - right. by left.
  - right. right. split; [done|]. split; [|intros _ E; apply (f_equal length) in E; cbn in E; rewrite length_app in E; lia].
    destruct (shift_run cd2 r) as [[]|]; cbn; [by rewrite app_assoc|done].
Qed.

#[export] Instance shift_laws : IconvLaws bool.
Proof.
  split; intros cd inp room; cbn; pose proof (shift_conv_spec inp cd room) as Hs;
    destruct (shift_conv cd inp room) as [[[cd' e] r] o]; destruct Hs as (H1 & (d & H2 & H2') & H3); cbn.
  - done.
  - by exists d.
  - intros ->. by destruct H3 as [(_ & ? & _)|[(? & _)|(? & _)]].
  - intros ->. apply H2'. by apply (app_inv_tail inp d []).
  - intros Hr ->. destruct H3 as [(? & _)|[(? & _)|(_ & _ & H3)]]; [done|done|]. apply H3. lia.
Qed.

#[export] Program Instance shift_spec : IconvSpec bool := {| run := shift_run |}.
Next Obligation.
  intros cd inp room. cbn. pose proof (shift_conv_spec inp cd room) as Hs. destruct (shift_conv cd inp room) as [[[cd' e] r] o].
  destruct Hs as (_ & _ & [(_ & _ & ?)|[(-> & _)|(-> & _)]]); done.
Qed.
Next Obligation.
  intros cd inp room. cbn. pose proof (shift_conv_spec inp cd room) as Hs. destruct (shift_conv cd inp room) as [[[cd' e] r] o].
  destruct Hs as (_ & _ & [(-> & _)|[(-> & _)|(_ & ? & _)]]); done.
Qed.
Next Obligation.
  intros cd inp room. cbn. pose proof (shift_conv_spec inp cd room) as Hs. destruct (shift_conv cd inp room) as [[[cd' e] r] o].
  destruct Hs as (_ & _ & [(-> & _)|[(_ & ?)|(-> & _)]]); done.
Qed.
Next Obligation. done. Qed.

(** The name a\xe9 is converted, and leaves the descriptor shifted out; a name
    with the byte 255 is refused, and the descriptor is in its initial state
    again. *)
Lemma convpath_converts_witness :
  iconv_convpath false (Some [97; 233]) ([], Ic false false) = (([], Ic true false), inr (Some [97; 14; 105])) /\
  iconv_convpath false (Some [233; 255]) ([], Ic false false) = (([], Ic false false), inl (- EILSEQ)) /\
  path_result false [97; 233] [] (Ic false false) (([], Ic true false), inr (Some [97; 14; 105])).
Proof.
  split; [reflexivity|]. split; [reflexivity|].
  exact (proj1 (convpath_converts false [97; 233] [] (Ic false false))).
Defined.

(** The state is carried over to the next path: after a\xe9 the name b gets a
    shift-in that it would not have had, so that the file b is not found. *)
Lemma shift_state_carried_over :
  let '(m, _) := iconv_convpath false (Some [97; 233]) ([], Ic false false) in
  (iconv_convpath false (Some [98]) m).2 = inr (Some [15; 98]) /\
  (iconv_convpath false (Some [98]) ([], Ic false false)).2 = inr (Some [98]).
Proof. split; reflexivity. Qed.

(** ** Making a module *)

(** iconv_new tests the first descriptor again where it means the second:
    when the character set can be converted in one direction only, it makes a
    module whose descriptor for the way back is not valid. *)
Theorem bad_descriptor_accepted (from to : bytes) : from <> to ->
  let one_way (t f : bytes) : option unit := if bool_decide (t = from /\ f = to) then Some tt else None in
  iconv_new one_way true (Some (Some from, Some to)) 1 true = Some (Some tt, None).
Proof.
  intros Hn one_way. unfold iconv_new, one_way. cbn [negb default option_map].
  rewrite bool_decide_true by done. cbn. rewrite bool_decide_true by done. cbn. rewrite bool_decide_false; [done|].
  intros [? _]. by apply Hn.
Qed.

Lemma bad_descriptor_accepted_witness :
  let one_way (t f : bytes) : option unit := if bool_decide (t = lit "UTF-8" /\ f = lit "KOI8-R") then Some tt else None in
  iconv_new one_way true (Some (Some (lit "UTF-8"), Some (lit "KOI8-R"))) 1 true = Some (Some tt, None).
Proof. exact (bad_descriptor_accepted (lit "UTF-8") (lit "KOI8-R") ltac:(discriminate)). Defined.
