(* ===== verification/Fusermount.v ===== *)
(** * The mount helper: libfuse/util/fusermount.c

    fusermount3 is installed set-user-ID root and mounts for ordinary users, so
    what it passes to mount(2) is what keeps a user from gaining more than his
    own file system.  This file holds its option parser and the call of mount(2),
    the checks of the mount point, the configuration file, the limit on mounts,
    and the test whether a user may unmount.

    System calls are inputs: [answers] lists what the next calls of mount(2)
    return ([None] for success), [heap] the outcomes of the next allocations
    (an empty list succeeds).  Every call of mount(2) is recorded in [calls].
    The program ends with an error, [F_error], or with exit(1), [F_exit]; both
    leave it with a failure status.  The messages are left out. *)

From S2P Require Import Prelude.

(** ** A monad for the program *)

Record mount_call := MountCall { mc_source : bytes; mc_target : bytes; mc_type : bytes; mc_flags : Z; mc_data : bytes }.

Inductive failure := F_error | F_exit.

(** [auto_unmount] is the global of that name.  [dropped] says that the file
    system user is the caller's; [touched] records it for every access to a file
    that the caller names, and a call of mount(2) is recorded with it. *)
Record fm := Fm {
  fm_heap : list bool; answers : list (option Z); calls : list (mount_call * bool); auto_unmount : bool;
  dropped : bool; touched : list bool }.

Definition FM (A : Type) : Type := fm -> (failure + A) * fm.

#[export] Instance FM_ret : MRet FM := fun A a s => (inr a, s).
#[export] Instance FM_bind : MBind FM := fun A B k m s =>
  match m s with
  | (inr a, s') => k a s'
  | (inl e, s') => (inl e, s')
  end.

Definition fail {A} (e : failure) : FM A := fun s => (inl e, s).

(** malloc, strdup, realloc *)
Definition fm_malloc : FM bool := fun s =>
  match fm_heap s with
  | [] => (inr true, s)
  | b :: h => (inr b, Fm h (answers s) (calls s) (auto_unmount s) (dropped s) (touched s))
  end.

(** [if (!p) goto err;] *)
Definition alloc : FM unit := ok ← fm_malloc; if (ok : bool) then mret tt else fail F_error.

Definition set_auto_unmount : FM unit := fun s => (inr tt, Fm (fm_heap s) (answers s) (calls s) true (dropped s) (touched s)).

(** mount(2): the error number, or [None]. *)
Definition sys_mount (c : mount_call) : FM (option Z) := fun s =>
  match answers s with
  | [] => (inr None, Fm (fm_heap s) [] (calls s ++ [(c, dropped s)]) (auto_unmount s) (dropped s) (touched s))
  | a :: l => (inr a, Fm (fm_heap s) l (calls s ++ [(c, dropped s)]) (auto_unmount s) (dropped s) (touched s))
  end.

(** An access to a file that the caller names. *)
Definition touch : FM unit := fun s =>
  (inr tt, Fm (fm_heap s) (answers s) (calls s) (auto_unmount s) (dropped s) (touched s ++ [dropped s])).

Definition set_dropped (b : bool) : FM unit := fun s =>
  (inr tt, Fm (fm_heap s) (answers s) (calls s) (auto_unmount s) b (touched s)).

(** ** Strings *)

Definition COMMA : Z := 44.
Definition BACKSLASH : Z := 92.

Definition begins_with (s beg : bytes) : bool := strneq s beg (length beg).

Definition opt_eq (s : bytes) (len : nat) (opt : bytes) : bool :=
  bool_decide (length opt = len) && strneq s opt len.

(** The length of the first option of [s]. *)
Fixpoint opt_len (escape_ok : bool) (s : bytes) : nat :=
  match s with
  | [] => O
  | c :: s' =>
      match s' with
      | c' :: s'' =>
          if escape_ok && (c =? BACKSLASH) then S (S (opt_len escape_ok s'')) else
          if c =? COMMA then O else S (opt_len escape_ok s')
      | [] => if c =? COMMA then O else 1%nat
      end
  end.

(** The loop of get_string_opt: a backslash before another character goes. *)
Fixpoint unescape (s : bytes) : bytes :=
  match s with
  | c :: (c' :: s'') as s' => if c =? BACKSLASH then c' :: unescape s'' else c :: unescape s'
  | _ => s
  end.

(** [printf("%o")] *)
Fixpoint octal_fuel (fuel : nat) (z : Z) : bytes :=
  match fuel with
  | O => []
  | S fuel => (if z <? 8 then [] else octal_fuel fuel (z / 8)) ++ [48 + z mod 8]
  end.

Definition octal (z : Z) : bytes := octal_fuel (S (Z.to_nat (Z.log2 z))) z.

(** [printf("%i")] *)
Definition signed (z : Z) : bytes := if z <? 0 then 45 :: decimal (- z) else decimal z.

(** ** Mount flags *)

Definition MS_RDONLY : Z := 1.
Definition MS_NOSUID : Z := 2.
Definition MS_NODEV : Z := 4.
Definition MS_NOEXEC : Z := 8.
Definition MS_SYNCHRONOUS : Z := 16.
Definition MS_DIRSYNC : Z := 128.
Definition MS_NOATIME : Z := 1024.

Record mount_flags := MountFlag { mf_opt : bytes; mf_flag : Z; mf_on : bool; mf_safe : bool }.

Definition mount_flags_table : list mount_flags :=
  [MountFlag (lit "rw") MS_RDONLY false true; MountFlag (lit "ro") MS_RDONLY true true;
   MountFlag (lit "suid") MS_NOSUID false false; MountFlag (lit "nosuid") MS_NOSUID true true;
   MountFlag (lit "dev") MS_NODEV false false; MountFlag (lit "nodev") MS_NODEV true true;
   MountFlag (lit "exec") MS_NOEXEC false true; MountFlag (lit "noexec") MS_NOEXEC true true;
   MountFlag (lit "async") MS_SYNCHRONOUS false true; MountFlag (lit "sync") MS_SYNCHRONOUS true true;
   MountFlag (lit "atime") MS_NOATIME false true; MountFlag (lit "noatime") MS_NOATIME true true;
   MountFlag (lit "dirsync") MS_DIRSYNC true true].

(** The caller: real user and group, effective user, name in the password file. *)
Record caller := Caller { uid : Z; gid : Z; euid : Z; user_name : option bytes }.

(** The globals that the configuration file sets. *)
Record config := Config { user_allow_other : bool; mount_max : Z }.

(** setfsuid and setfsgid, for an ordinary user *)
Definition drop_privs (me : caller) : FM unit := if negb (uid me =? 0) then set_dropped true else mret tt.

Definition restore_privs (me : caller) : FM unit := if negb (uid me =? 0) then set_dropped false else mret tt.

Section Fusermount.
Context (me : caller) (conf : config).

(** An unsafe option of an ordinary user has no effect. *)
Definition find_mount_flag (s : bytes) (len : nat) : option (bool * Z) :=
  match find (fun m => opt_eq s len (mf_opt m)) mount_flags_table with
  | Some m => Some (mf_on m, if negb (mf_safe m) && negb (uid me =? 0) then 0 else mf_flag m)
  | None => None
  end.

Definition add_option (opts : option bytes) (opt : bytes) : FM (option bytes) :=
  _ ← alloc;
  mret (Some match opts with None => opt | Some o => o ++ COMMA :: opt end).

Fixpoint add_flags (flags : Z) (table : list mount_flags) (opts : option bytes) : FM (option bytes) :=
  match table with
  | [] => mret opts
  | m :: table =>
      opts ← (if mf_on m && has flags (mf_flag m) then add_option opts (mf_opt m) else mret opts);
      add_flags flags table opts
  end.

Definition drop_last_comma (s : bytes) : bytes := if bool_decide (last s = Some COMMA) then removelast s else s.

(** The options for mtab. *)
Definition get_mnt_opts (flags : Z) (opts : bytes) : FM bytes :=
  o ← (if negb (has flags MS_RDONLY) then add_option None (lit "rw") else mret None);
  o ← add_flags flags mount_flags_table o;
  o ← add_option o opts;
  let o := drop_last_comma (default [] o) in
  if negb (uid me =? 0) then
    match user_name me with
    | None => fail F_error
    | Some user => o ← add_option (Some o) (lit "user="); mret (default [] o ++ user)
    end
  else mret o.

(** ** do_mount *)

(** The local variables of the option loop; [opt_d] is what was written to
    optbuf. *)
Record optstate := OptState { opt_flags : Z; opt_d : bytes; fsname : option bytes; subtype : option bytes; blkdev : bool }.

Definition opt0 : optstate := OptState (Z.lor MS_NOSUID MS_NODEV) [] None None false.

Definition get_string_opt (s : bytes) (len : nat) (opt : bytes) : FM bytes :=
  _ ← alloc; mret (unescape (drop (length opt) (take len s))).

(** Options that the loop passes over. *)
Definition is_ignored (s : bytes) (len : nat) : bool :=
  opt_eq s len (lit "nonempty") || begins_with s (lit "fd=") || begins_with s (lit "rootmode=") ||
  begins_with s (lit "user_id=") || begins_with s (lit "group_id=").

(** Options that go to the kernel as they are. *)
Definition is_passed (s : bytes) (len : nat) : bool :=
  opt_eq s len (lit "default_permissions") || opt_eq s len (lit "allow_other") ||
  begins_with s (lit "max_read=") || begins_with s (lit "blksize=").

Definition wants_others (s : bytes) (len : nat) : bool :=
  opt_eq s len (lit "allow_other") || opt_eq s len (lit "allow_root").

(** One turn of the loop.  [new_kernel] says that uname reports a kernel after
    2.4, where large_read is skipped. *)
Definition do_option (new_kernel : bool) (s : bytes) (len : nat) (o : optstate) : FM optstate :=
  if begins_with s (lit "fsname=") then
    v ← get_string_opt s len (lit "fsname=");
    mret (OptState (opt_flags o) (opt_d o) (Some v) (subtype o) (blkdev o))
  else if begins_with s (lit "subtype=") then
    v ← get_string_opt s len (lit "subtype=");
    mret (OptState (opt_flags o) (opt_d o) (fsname o) (Some v) (blkdev o))
  else if opt_eq s len (lit "blkdev") then
    if negb (uid me =? 0) then fail F_error
    else mret (OptState (opt_flags o) (opt_d o) (fsname o) (subtype o) true)
  else if opt_eq s len (lit "auto_unmount") then
    _ ← set_auto_unmount; mret o
  else if is_ignored s len then mret o
  else
    let skip_option := opt_eq s len (lit "large_read") && new_kernel in
    if negb (uid me =? 0) && negb (user_allow_other conf) && wants_others s len then fail F_error else
    if skip_option then mret o else
    match find_mount_flag s len with
    | Some (on, flag) =>
        mret (OptState (if on then Z.lor (opt_flags o) flag else Z.ldiff (opt_flags o) flag) (opt_d o) (fsname o) (subtype o) (blkdev o))
    | None =>
        if is_passed s len
        then mret (OptState (opt_flags o) (opt_d o ++ take len s ++ [COMMA]) (fsname o) (subtype o) (blkdev o))
        else fail F_exit
    end.

Fixpoint option_loop (fuel : nat) (new_kernel : bool) (s : bytes) (o : optstate) : FM optstate :=
  match fuel, s with
  | S fuel, _ :: _ =>
      let escape_ok := begins_with s (lit "fsname=") || begins_with s (lit "subtype=") in
      let len := opt_len escape_ok s in
      o ← do_option new_kernel s len o;
      option_loop fuel new_kernel (drop (S len) s) o
  | _, _ => mret o
  end.

(** [page_size] is what sysconf(_SC_PAGESIZE) says. *)
Definition mount_notrunc (page_size : Z) (source target type : bytes) (flags : Z) (data : bytes) : FM (option Z) :=
  if page_size - 1 <? Z.of_nat (length data) then mret (Some EINVAL)
  else sys_mount (MountCall source target type flags data).

(** What is printed behind the options. *)
Definition kernel_tail (fd rootmode : Z) : bytes :=
  lit "fd=" ++ signed fd ++ lit ",rootmode=" ++ octal rootmode ++ lit ",user_id=" ++ decimal (uid me).

Definition group_tail : bytes := lit ",group_id=" ++ decimal (gid me).

Definition base_type (blk : bool) : bytes := if blk then lit "fuseblk" else lit "fuse".

(** The result: source, type and the options for mtab. *)
Definition do_mount (page_size : Z) (new_kernel : bool) (mnt : bytes) (rootmode fd : Z) (opts dev : bytes) : FM (bytes * bytes * bytes) :=
  _ ← alloc;
  o ← option_loop (length opts) new_kernel opts opt0;
  mnt_opts ← get_mnt_opts (opt_flags o) (opt_d o);
  let data := opt_d o ++ kernel_tail fd rootmode ++ group_tail in
  _ ← alloc; _ ← alloc;
  let type := base_type (blkdev o) ++ match subtype o with Some t => lit "." ++ t | None => [] end in
  let source := match fsname o with Some f => f | None => default dev (subtype o) end in
  res ← mount_notrunc page_size source mnt type (opt_flags o) data;
  r ← match res, subtype o with
      | Some e, Some t =>
          if e =? ENODEV then
            let type := base_type (blkdev o) in
            let source := match fsname o with
                          | Some f => if blkdev o then source else t ++ lit "#" ++ f
                          | None => type
                          end in
            res ← mount_notrunc page_size source mnt type (opt_flags o) data;
            mret (res, source, type)
          else mret (res, source, type)
      | _, _ => mret (res, source, type)
      end;
  let '(res, source, type) := r in
  res ← match res with
        | Some e => if e =? EINVAL then mount_notrunc page_size source mnt type (opt_flags o) (opt_d o ++ kernel_tail fd rootmode)
                    else mret res
        | None => mret res
        end;
  match res with
  | Some _ => fail F_error
  | None => mret (source, type, mnt_opts)
  end.
End Fusermount.

(** ** The configuration file *)

Definition NEWLINE : Z := 10.
Definition HASH : Z := 35.

Fixpoint drop_spaces (s : bytes) : bytes :=
  match s with c :: s' => if isspace c then drop_spaces s' else s | [] => [] end.

Fixpoint until_hash (s : bytes) : bytes :=
  match s with c :: s' => if c =? HASH then [] else c :: until_hash s' | [] => [] end.

Definition strip_line (line : bytes) : bytes :=
  drop_spaces (reverse (drop_spaces (reverse (until_hash line)))).

(** The digits of a number in a base, and their value. *)
Definition digit_value (c : Z) : option Z :=
  if (48 <=? c) && (c <=? 57) then Some (c - 48) else
  if (97 <=? c) && (c <=? 102) then Some (c - 87) else
  if (65 <=? c) && (c <=? 70) then Some (c - 55) else None.

Fixpoint digits_in (b acc : Z) (s : bytes) : option Z :=
  match s with
  | c :: s' => match digit_value c with
               | Some v => if v <? b then Some (default (acc * b + v) (digits_in b (acc * b + v) s')) else None
               | None => None
               end
  | [] => None
  end.

(** The conversion %i: a sign, then hexadecimal, octal or decimal digits. *)
Definition scan_unsigned (s : bytes) : option Z :=
  match s with
  | 48 :: c :: s' => if (c =? 120) || (c =? 88) then digits_in 16 0 s' else digits_in 8 0 s
  | _ => digits_in 10 0 s
  end.

Definition scan_i (s : bytes) : option Z :=
  match drop_spaces s with
  | c :: s' => if c =? 45 then Z.opp <$> scan_unsigned s' else if c =? 43 then scan_unsigned s' else scan_unsigned (c :: s')
  | [] => None
  end.

(** The number is read as a long, which is saturated, and stored as an int. *)
Definition saturate (z : Z) : Z := Z.max (- 2 ^ 63) (Z.min z (2 ^ 63 - 1)).

(** [sscanf(line, "mount_max = %i", &tmp)] *)
Definition scan_mount_max (line : bytes) : option Z :=
  if begins_with line (lit "mount_max") then
    match drop_spaces (drop 9 line) with
    | c :: s => if c =? 61 then (fun z => i32 (saturate z)) <$> scan_i s else None
    | [] => None
    end
  else None.

Definition parse_line (line : bytes) (conf : config) : config :=
  if streq line (lit "user_allow_other") then Config true (mount_max conf) else
  match scan_mount_max line with
  | Some n => Config (user_allow_other conf) n
  | None => conf
  end.

(** fgets into a buffer of 256 bytes: up to 255 characters, ending after a
    newline. *)
Fixpoint fgets (n : nat) (s : bytes) : bytes * bytes :=
  match n, s with
  | S n, c :: s' => if c =? NEWLINE then ([c], s') else let '(l, r) := fgets n s' in (c :: l, r)
  | _, _ => ([], s)
  end.

(** A line that is too long is skipped: [isnewline] is cleared by a piece
    without a newline. *)
Fixpoint conf_loop (fuel : nat) (isnewline : bool) (s : bytes) (conf : config) : config :=
  match fuel, s with
  | S fuel, _ :: _ =>
      let '(piece, rest) := fgets 255 s in
      let line := cstr piece in
      let ended := bool_decide (last line = Some NEWLINE) in
      if isnewline then
        if ended then conf_loop fuel true rest (parse_line (strip_line line) conf) else conf_loop fuel false rest conf
      else conf_loop fuel ended rest conf
  | _, _ => conf
  end.

Definition config0 : config := Config false 1000.

Definition ELOOP : Z := 40.
Definition ENOTDIR : Z := 20.
Definition EOVERFLOW : Z := 75.

(** The contents of /etc/fuse.conf, or the error of fopen. *)
Definition read_conf (file : Z + bytes) : FM config :=
  match file with
  | inr s => mret (conf_loop (length s) true s config0)
  | inl e =>
      if existsb (Z.eqb e) [ENOENT; EACCES; ELOOP; ENAMETOOLONG; ENOTDIR; EOVERFLOW] then mret config0 else fail F_exit
  end.

(** ** The mount table *)

Record mntent := Mntent { mnt_dir : bytes; mnt_type : bytes; mnt_opts : bytes }.

Definition count_fuse_fs (mtab : option (list mntent)) : Z :=
  match mtab with
  | None => -1
  | Some l => Z.of_nat (length (filter (fun e => streq (mnt_type e) (lit "fuse") || begins_with (mnt_type e) (lit "fuse.") = true) l))
  end.

(** strstr: what is before the first occurrence, and the rest from there on. *)
Fixpoint strstr (s t : bytes) : option (bytes * bytes) :=
  if begins_with s t then Some ([], s) else
  match s with
  | c :: s' => '(a, b) ← strstr s' t; Some (c :: a, b)
  | [] => None
  end.

(** The first occurrence is at the start of an option. *)
Definition opt_value (opts key : bytes) : option bytes :=
  '(a, b) ← strstr opts key;
  if bool_decide (a = []) || bool_decide (last a = Some COMMA) then Some (drop (length key) b) else None.

Definition is_fuse_type (t : bytes) : bool :=
  streq t (lit "fuse") || streq t (lit "fuseblk") || begins_with t (lit "fuse.") || begins_with t (lit "fuseblk.").

Definition owned_by (me : caller) (user : bytes) (e : mntent) : bool :=
  match opt_value (mnt_opts e) (lit "user=") with
  | Some v => streq v user
  | None => false
  end ||
  match opt_value (mnt_opts e) (lit "user_id=") with
  | Some v => begins_with v (decimal (uid me)) &&
              match drop (length (decimal (uid me))) v with [] => true | c :: _ => c =? COMMA end
  | None => false
  end.

Definition may_unmount (me : caller) (mtab : option (list mntent)) (mnt : bytes) : bool :=
  match user_name me, mtab with
  | Some user, Some l => existsb (fun e => streq (mnt_dir e) mnt && is_fuse_type (mnt_type e) && owned_by me user e) l
  | _, _ => false
  end.

(** ** The mount point *)

Definition S_IFMT : Z := 61440.
Definition S_IFDIR : Z := 16384.
Definition S_IFREG : Z := 32768.
Definition S_ISVTX : Z := 512.

(** File systems that an ordinary user may mount over. *)
Definition f_type_whitelist : list Z :=
  [0x61756673; 0x00000187; 0xCA451A4E; 0x9123683E; 0x00C36400; 0xFF534D42; 0x0000F15F; 0x2011BAB0; 0x0000EF53;
   0xF2F52010; 0x65735546; 0x01161970; 0x47504653; 0x0000482b; 0x000072B6; 0x3153464A; 0x0BD00BD0; 0x00004D44;
   0x0000564C; 0x00006969; 0x00003434; 0x5346544E; 0x5346414f; 0x794C7630; 0x52654973; 0xFE534D42; 0x73717368;
   0x01021994; 0x24051905; 0x736675005346544e; 0x58465342; 0x2FC12FC1].

(** What the system says about the mount point: [None] is an error of the call.
    A mode comes with the owner. *)
Record mountpoint := Mountpoint {
  v_lstat : option (Z * Z);      (* lstat(mnt) *)
  v_chdir : bool;                (* chdir(mnt) *)
  v_lstat_dot : option (Z * Z);  (* lstat(".") *)
  v_access : bool;               (* access(".", W_OK) *)
  v_open : option Z;             (* open(mnt, O_WRONLY) *)
  v_fstat : option Z;            (* fstat of it: the mode *)
  v_statfs : option Z }.         (* f_type of the final mount point *)

Definition or_fail {A} (o : option A) : FM A := match o with Some a => mret a | None => fail F_error end.

(** [m], and [after] whatever its result. *)
Definition finally {A} (m : FM A) (after : FM unit) : FM A := fun s => let '(r, s) := m s in (r, (after s).2).

Definition require (b : bool) : FM unit := if b then mret tt else fail F_error.

Section Helper.
Context (me : caller).

(** The path to mount on, the mode, and the descriptor of a regular file. *)
Definition check_perm (v : mountpoint) (mnt : bytes) : FM (bytes * Z * option Z) :=
  _ ← touch;
  st ← or_fail (v_lstat v);
  if uid me =? 0 then mret (mnt, st.1, None) else
  r ← (if Z.land st.1 S_IFMT =? S_IFDIR then
         _ ← touch; _ ← require (v_chdir v);
         _ ← touch; st ← or_fail (v_lstat_dot v);
         _ ← require (negb (has st.1 S_ISVTX && negb (st.2 =? uid me)));
         _ ← touch; _ ← require (v_access v);
         mret (lit ".", st.1, None)
       else if Z.land st.1 S_IFMT =? S_IFREG then
         _ ← touch; fd ← or_fail (v_open v);
         mode ← or_fail (v_fstat v);
         _ ← require (Z.land mode S_IFMT =? S_IFREG);
         mret (lit "/proc/self/fd/" ++ signed fd, mode, Some fd)
       else fail F_error);
  _ ← touch; ft ← or_fail (v_statfs v);
  _ ← require (existsb (Z.eqb ft) f_type_whitelist);
  mret r.

(** open of /dev/fuse: the descriptor or the error; strdup of its name. *)
Definition open_fuse_device (dev : Z + Z) : FM Z :=
  _ ← drop_privs me;
  _ ← touch;
  ok ← match dev with
       | inr fd => ok ← fm_malloc; mret (if (ok : bool) then Some fd else None)
       | inl _ => mret None
       end;
  _ ← restore_privs me;
  or_fail ok.

(** [v] is the mount point, [dev] the device, [file] the configuration,
    [mtab] the mount table, [chdir_ok] the change to /, [add_ok] the update of
    mtab.  The result is the descriptor of the device and the type. *)
Definition mount_fuse (page_size : Z) (new_kernel : bool) (dev : Z + Z) (file : Z + bytes) (mtab : option (list mntent)) (v : mountpoint)
    (chdir_ok add_ok : bool) (mnt opts : bytes) : FM (Z * bytes) :=
  fd ← open_fuse_device dev;
  _ ← drop_privs me;
  _ ← touch; conf ← read_conf file;
  _ ← (if negb (uid me =? 0) && negb (mount_max conf =? -1) then
         _ ← touch; require (negb (mount_max conf <=? count_fuse_fs mtab))
       else mret tt);
  r ← finally (check_perm v mnt) (restore_privs me);
  let '(real_mnt, mode, _) := r in
  m ← do_mount me conf page_size new_kernel real_mnt (Z.land mode S_IFMT) fd opts (lit "/dev/fuse");
  _ ← require chdir_ok;
  _ ← (if euid me =? 0 then require add_ok else mret tt);
  mret (fd, m.1.2).

(** ** Unmounting *)

(** The directory and the last name of an absolute path; [None] is the internal
    error. *)
Definition split_last_name (p : bytes) : option (bytes * bytes) :=
  let r := reverse p in
  match strchr r 47 with
  | None => None
  | Some n =>
      let last := reverse (take n r) in
      let parent := reverse (drop (S n) r) in
      if bool_decide (last = []) then None else
      Some (if bool_decide (parent = []) then lit "/" else parent, last)
  end.

Definition UMOUNT_DETACH : Z := 2.
Definition UMOUNT_NOFOLLOW : Z := 8.

(** What the program does to the system; [as_caller] says that the file system
    user is the caller's. *)
Inductive um_action :=
  | Um_chdir (dir : bytes) (as_caller : bool)
  | Um_umount2 (name : bytes) (flags : Z) (as_caller : bool)
  | Um_remove_mount (mnt : bytes).

(** What the system answers: strdup, chdir to a directory and the getcwd after it
    ([None] if one of them failed), umount2, chdir to /, fuse_mnt_remove_mount. *)
Record um_answers := UmAnswers {
  um_strdup : bool; um_cwd : bytes -> option bytes; um_umount2 : bool; um_chdir_root : bool; um_remove : bool }.

(** The name in the directory, if the working directory is now that directory. *)
Definition chdir_to_parent (sys : um_answers) (as_caller : bool) (copy : bytes) : option bytes * list um_action :=
  match split_last_name copy with
  | None => (None, [])
  | Some (parent, last) =>
      (match um_cwd sys parent with
       | Some buf => if streq buf parent then Some last else None
       | None => None
       end, [Um_chdir parent as_caller])
  end.

(** The result and what was done, in order.  drop_privs and restore_privs are
    around chdir_to_parent, and do nothing for root. *)
Definition unmount_fuse_locked (sys : um_answers) (mtab : option (list mntent)) (mnt : bytes) (lazy : bool)
    : Z * list um_action :=
  let umount_flags := Z.lor (if lazy then UMOUNT_DETACH else 0) UMOUNT_NOFOLLOW in
  if negb (uid me =? 0) && negb (may_unmount me mtab mnt) then (-1, []) else
  if negb (um_strdup sys) then (-1, []) else
  let '(last, done) := chdir_to_parent sys (negb (uid me =? 0)) mnt in
  match last with
  | None => (-1, done)
  | Some last =>
      let done := done ++ [Um_umount2 last umount_flags false] in
      if negb (um_umount2 sys) then (-1, done) else
      let done := done ++ [Um_chdir (lit "/") false] in
      if negb (um_chdir_root sys) then (-1, done) else
      (if um_remove sys then 0 else -1, done ++ [Um_remove_mount mnt])
  end.
End Helper.
