(* ===== verification/FusermountTheorems.v ===== *)
(** * The mount helper: theorems

    What an ordinary user can make fusermount3 pass to mount(2), when it is
    called, with whose privileges files are looked at, and what a user may
    unmount. *)

From S2P Require Import Prelude Fusermount.

(** ** Option lists *)

(** The options as the kernel sees them: the data of mount(2) cut at its
    commas. *)
Fixpoint split_commas (s : bytes) : list bytes :=
  match s with
  | [] => [[]]
  | c :: s' => if c =? COMMA then [] :: split_commas s' else
               match split_commas s' with w :: l => (c :: w) :: l | [] => [[c]] end
  end.

Definition nocomma (w : bytes) : Prop := Forall (fun c => c <> COMMA) w.

Lemma split_word w : nocomma w -> split_commas w = [w].
Proof. induction 1 as [|c w Hc _ IH]; [done|]. cbn. destruct (Z.eqb_spec c COMMA); [done|]. by rewrite IH. Qed.

Lemma split_cons w s : nocomma w -> split_commas (w ++ COMMA :: s) = w :: split_commas s.
Proof. induction 1 as [|c w Hc _ IH]; [done|]. cbn. destruct (Z.eqb_spec c COMMA); [done|]. by rewrite IH. Qed.

(** Options, each followed by a comma. *)
Definition listed (l : list bytes) : bytes := mjoin ((fun w => w ++ [COMMA]) <$> l).

Lemma listed_snoc l w : listed (l ++ [w]) = listed l ++ w ++ [COMMA].
Proof.
  induction l as [|x l IH]; [cbn; by rewrite app_nil_r|].
  change (listed ((x :: l) ++ [w])) with ((x ++ [COMMA]) ++ listed (l ++ [w])).
  change (listed (x :: l)) with ((x ++ [COMMA]) ++ listed l). by rewrite IH, !app_assoc.
Qed.

Lemma split_listed l s : Forall nocomma l -> split_commas (listed l ++ s) = l ++ split_commas s.
Proof.
  induction 1 as [|x l Hx _ IH]; [done|]. change (listed (x :: l)) with ((x ++ [COMMA]) ++ listed l).
  rewrite <- !app_assoc. cbn [app]. by rewrite split_cons, IH.
Qed.

Lemma begins_with_spec s p : begins_with s p = true <-> exists t, s = p ++ t.
Proof.
  unfold begins_with, strneq. rewrite bool_decide_eq_true, firstn_all. split.
  - intros E. exists (drop (length p) s). by rewrite <- E at 1; rewrite take_drop.
  - intros [t ->]. by rewrite take_app_length.
Qed.

Lemma opt_eq_spec s len x : opt_eq s len x = true -> take len s = x.
Proof.
  unfold opt_eq, strneq. rewrite andb_true_iff, !bool_decide_eq_true. intros [<- E]. by rewrite firstn_all in E.
Qed.

(** An option without escapes ends at the first comma. *)
Lemma opt_len_nocomma s : nocomma (take (opt_len false s) s).
Proof.
  induction s as [|c s IH]; [constructor|]. cbn [opt_len]. destruct s as [|c' s].
  - destruct (Z.eqb_spec c COMMA); [constructor|]. by repeat constructor.
  - cbn [andb]. destruct (Z.eqb_spec c COMMA); [constructor|]. cbn [take]. by constructor.
Qed.

Lemma opt_len_prefix p t : nocomma p -> (length p <= opt_len false (p ++ t))%nat.
Proof.
  induction 1 as [|c p Hc _ IH]; [cbn; lia|]. cbn [app opt_len length]. destruct (p ++ t) as [|c' s] eqn:E.
  - apply app_nil in E as [-> ->]. cbn. destruct (Z.eqb_spec c COMMA); [done|lia].
  - cbn [andb]. destruct (Z.eqb_spec c COMMA); [done|]. lia.
Qed.

Lemma begins_take s p : nocomma p -> begins_with s p = true -> begins_with (take (opt_len false s) s) p = true.
Proof.
  intros Hp [t ->]%begins_with_spec. pose proof (opt_len_prefix p t Hp). apply begins_with_spec.
  exists (take (opt_len false (p ++ t) - length p) t). rewrite take_app. f_equal. rewrite take_ge; [done|lia].
Qed.

Lemma opt_len_le e s : (opt_len e s <= length s)%nat.
Proof.
  remember (length s) as n eqn:En. revert s En. induction n as [n IH] using lt_wf_ind. intros s ->.
  destruct s as [|c [|c' s]]; [done| |]; cbn [opt_len length].
  - destruct (c =? COMMA); lia.
  - pose proof (IH (length s) ltac:(cbn; lia) s eq_refl). pose proof (IH (length (c' :: s)) ltac:(cbn; lia) (c' :: s) eq_refl) as H2.
    cbn [opt_len length] in H2. destruct (e && (c =? BACKSLASH)); [lia|]. destruct (c =? COMMA); lia.
Qed.

(** ** Programs *)

(** [m] calls mount(2) only as [Q] allows, keeps the privileges as they are, and
    a result satisfies [R]. *)
Definition tr {A} (Q : mount_call -> Prop) (m : FM A) (R : A -> Prop) : Prop :=
  forall s r s', m s = (r, s') ->
    (exists l, calls s' = calls s ++ l /\ Forall (fun c => Q c.1 /\ c.2 = dropped s) l) /\
    dropped s' = dropped s /\ touched s' = touched s /\ forall a, r = inr a -> R a.

Lemma tr_ret {A} Q (a : A) (R : A -> Prop) : R a -> tr Q (mret a) R.
Proof. intros HR s r s' [= <- <-]. split; [exists []; by rewrite app_nil_r|]. split; [done|]. split; [done|]. by intros a' [= <-]. Qed.

Lemma tr_fail {A} Q e (R : A -> Prop) : tr Q (fail e) R.
Proof. intros s r s' [= <- <-]. split; [exists []; by rewrite app_nil_r|]. by split. Qed.

Lemma tr_bind {A B} Q (m : FM A) (k : A -> FM B) R R' : tr Q m R -> (forall a, R a -> tr Q (k a) R') -> tr Q (m ≫= k) R'.
Proof.
  intros Hm Hk s r s' E. unfold mbind, FM_bind in E. destruct (m s) as [[e|a] s1] eqn:E1.
  - injection E as <- <-. destruct (Hm s _ s1 E1) as (Hc & Hd & Ht & _). by split.
  - destruct (Hm s _ s1 E1) as ((l1 & C1 & F1) & D1 & T1 & R1). destruct (Hk a (R1 a eq_refl) s1 r s' E) as ((l2 & C2 & F2) & D2 & T2 & R2).
    split; [exists (l1 ++ l2); rewrite C2, C1, app_assoc; split; [done|]|split; [congruence|split; [congruence|done]]].
    apply Forall_app. split; [done|]. by rewrite D1 in F2.
Qed.

Lemma tr_alloc Q : tr Q alloc (fun _ => True).
Proof.
  intros s r s'. unfold alloc, mbind, FM_bind, fm_malloc. destruct (fm_heap s) as [|[] h]; cbn; intros [= <- <-]; cbn;
    (split; [exists []; by rewrite app_nil_r|]); done.
Qed.

Lemma tr_auto Q : tr Q set_auto_unmount (fun _ => True).
Proof. intros s r s' [= <- <-]. cbn. split; [exists []; by rewrite app_nil_r|]. done. Qed.

Lemma tr_mount Q c : Q c -> tr Q (sys_mount c) (fun _ => True).
Proof.
  intros HQ s r s'. unfold sys_mount. destruct (answers s); intros [= <- <-]; cbn; (split; [eexists; split; [done|by repeat constructor]|]); done.
Qed.

Lemma tr_mono {A} Q (m : FM A) (R R' : A -> Prop) : tr Q m R -> (forall a, R a -> R' a) -> tr Q m R'.
Proof. intros Hm HR s r s' E. destruct (Hm s r s' E) as (? & ? & ? & Hr). split; [done|]. split; [done|]. split; [done|]. intros a Ha. apply HR, Hr, Ha. Qed.

(** ** Options of an ordinary user *)

Section User.
Context (me : caller) (conf : config) (ordinary : uid me <> 0).

(** What may go to the kernel. *)
Definition permitted (w : bytes) : Prop :=
  w = lit "default_permissions" \/ (w = lit "allow_other" /\ user_allow_other conf = true) \/
  begins_with w (lit "max_read=") = true \/ begins_with w (lit "blksize=") = true.

Definition safe_flags (flags : Z) : Prop := Z.testbit flags 1 = true /\ Z.testbit flags 2 = true.

Definition opts_ok (o : optstate) : Prop :=
  safe_flags (opt_flags o) /\ blkdev o = false /\ exists l, opt_d o = listed l /\ Forall nocomma l /\ Forall permitted l.

(** An option that clears a flag is safe to clear. *)
Lemma clearing_flags : Forall (fun m => mf_on m = true \/ mf_safe m = false \/ Z.land (mf_flag m) 6 = 0) mount_flags_table.
Proof. repeat (apply Forall_cons_2; [first [by left | by right; left | by right; right]|]). apply Forall_nil_2. Qed.

Lemma flags_kept s len on flag f : find_mount_flag me s len = Some (on, flag) -> safe_flags f ->
  safe_flags (if on then Z.lor f flag else Z.ldiff f flag).
Proof.
  unfold find_mount_flag. destruct (find _ _) as [m|] eqn:E; [|done]. apply find_some in E as [Hm%list_elem_of_In _].
  intros [= <- <-] [H1 H2]. destruct (mf_on m) eqn:Eo; unfold safe_flags; [by rewrite !Z.lor_spec, H1, H2|].
  rewrite !Z.ldiff_spec, H1, H2. cbn [andb].
  destruct (Z.eqb_spec (uid me) 0); [done|]. cbn [negb]. rewrite andb_true_r.
  pose proof (proj1 (Forall_forall _ _) clearing_flags m Hm) as [?|[Hs|Hl]]; [congruence|by rewrite Hs|].
  destruct (negb (mf_safe m)); [by rewrite !Z.testbit_0_l|].
  assert (forall k, 0 <= k -> Z.testbit 6 k = true -> Z.testbit (mf_flag m) k = false) as Hk.
  { intros k _ H6. pose proof (f_equal (fun z => Z.testbit z k) Hl) as Hb. cbn in Hb. rewrite Z.land_spec, H6, andb_true_r, Z.bits_0 in Hb. done. }
  by rewrite !Hk.
Qed.

Lemma passed_permitted s : is_passed s (opt_len false s) = true ->
  (wants_others s (opt_len false s) = true -> user_allow_other conf = true) -> permitted (take (opt_len false s) s).
Proof.
  unfold is_passed. intros Hp Ha. rewrite !orb_true_iff in Hp. destruct Hp as [[[Hp|Hp]|Hp]|Hp].
  - left. by apply opt_eq_spec.
  - right; left. split; [by apply opt_eq_spec|]. apply Ha. unfold wants_others. by rewrite Hp.
  - right; right; left. apply begins_take; [by repeat constructor|done].
  - right; right; right. apply begins_take; [by repeat constructor|done].
Qed.

Lemma do_option_ok nk s o :
  let len := opt_len (begins_with s (lit "fsname=") || begins_with s (lit "subtype=")) s in
  opts_ok o -> tr (fun _ => False) (do_option me conf nk s len o) opts_ok.
Proof.
  intros len (Hf & Hb & l & Hd & Hc & Hp). unfold do_option. subst len.
  destruct (begins_with s (lit "fsname=")) eqn:E1.
  { unfold get_string_opt. eapply tr_bind; [eapply tr_bind; [apply tr_alloc|intros _ _; by apply (tr_ret _ _ (fun _ => True))]|].
    intros v _. apply tr_ret. split; [done|]. split; [done|]. by exists l. }
  destruct (begins_with s (lit "subtype=")) eqn:E2.
  { unfold get_string_opt. eapply tr_bind; [eapply tr_bind; [apply tr_alloc|intros _ _; by apply (tr_ret _ _ (fun _ => True))]|].
    intros v _. apply tr_ret. split; [done|]. split; [done|]. by exists l. }
  cbn [orb]. set (len := opt_len false s).
  assert (opts_ok o) as Ho by (split; [done|]; split; [done|]; by exists l).
  destruct (opt_eq s len (lit "blkdev")); [destruct (Z.eqb_spec (uid me) 0); [done|]; apply tr_fail|].
  destruct (opt_eq s len (lit "auto_unmount")); [eapply tr_bind; [apply tr_auto|]; intros _ _; by apply tr_ret|].
  destruct (is_ignored s len); [by apply tr_ret|].
  destruct (Z.eqb_spec (uid me) 0); [done|]. cbn [negb andb].
  destruct (negb (user_allow_other conf) && wants_others s len) eqn:Ew; [apply tr_fail|].
  destruct (opt_eq s len (lit "large_read") && nk); [by apply tr_ret|].
  destruct (find_mount_flag me s len) as [[on flag]|] eqn:Em.
  { apply tr_ret. split; [by eapply flags_kept|]. split; [done|]. by exists l. }
  destruct (is_passed s len) eqn:Ep; [|apply tr_fail]. apply tr_ret. split; [done|]. split; [done|].
  exists (l ++ [take len s]). cbn [opt_d]. split; [by rewrite listed_snoc, Hd|]. split; apply Forall_app; split; try done; constructor; try done.
  - apply opt_len_nocomma.
  - apply passed_permitted; [done|]. intros Hw. fold len in Hw. rewrite Hw, andb_true_r in Ew. by destruct (user_allow_other conf).
Qed.

Lemma option_loop_ok fuel nk s o : opts_ok o -> tr (fun _ => False) (option_loop me conf fuel nk s o) opts_ok.
Proof.
  revert s o. induction fuel as [|fuel IH]; intros s o Ho; cbn [option_loop]; [by destruct s; apply tr_ret|].
  destruct s as [|c s]; [by apply tr_ret|]. eapply tr_bind; [by apply do_option_ok|]. intros o' Ho'. by apply IH.
Qed.

Lemma opt0_ok : opts_ok opt0.
Proof. split; [done|]. split; [done|]. exists []. split; [done|]. by split. Qed.

End User.

(** *** Numbers *)

Lemma decimal_digits fuel z : Forall (fun c => 48 <= c <= 57) (decimal_fuel fuel z).
Proof.
  revert z. induction fuel as [|fuel IH]; intros z; cbn [decimal_fuel]; [constructor|]. apply Forall_app. split.
  - destruct (z <? 10); [constructor|apply IH].
  - constructor; [|constructor]. pose proof (Z.mod_pos_bound z 10 ltac:(lia)). lia.
Qed.

Lemma octal_digits fuel z : Forall (fun c => 48 <= c <= 57) (octal_fuel fuel z).
Proof.
  revert z. induction fuel as [|fuel IH]; intros z; cbn [octal_fuel]; [constructor|]. apply Forall_app. split.
  - destruct (z <? 8); [constructor|apply IH].
  - constructor; [|constructor]. pose proof (Z.mod_pos_bound z 8 ltac:(lia)). lia.
Qed.

Lemma digits_nocomma w : Forall (fun c => 48 <= c <= 57) w -> nocomma w.
Proof. intros Hw. eapply Forall_impl; [exact Hw|]. cbn. unfold COMMA. intros c ?. lia. Qed.

Lemma decimal_nocomma z : nocomma (decimal z).
Proof. apply digits_nocomma, decimal_digits. Qed.

Lemma octal_nocomma z : nocomma (octal z).
Proof. apply digits_nocomma, octal_digits. Qed.

Lemma signed_nocomma z : nocomma (signed z).
Proof. unfold signed. destruct (z <? 0); [constructor; [done|]|]; apply decimal_nocomma. Qed.

Lemma nocomma_app w v : nocomma w -> nocomma v -> nocomma (w ++ v).
Proof. intros ? ?. by apply Forall_app. Qed.

(** ** Calls of mount(2) *)

Section Calls.
Context (me : caller) (conf : config) (ordinary : uid me <> 0) (page_size : Z) (mnt : bytes) (fd rootmode : Z).

(** The options of the program itself. *)
Definition own_options : list bytes :=
  [lit "fd=" ++ signed fd; lit "rootmode=" ++ octal rootmode; lit "user_id=" ++ decimal (uid me)].

Definition group_option : bytes := lit "group_id=" ++ decimal (gid me).

Definition safe_call (c : mount_call) : Prop :=
  mc_target c = mnt /\ safe_flags (mc_flags c) /\ (mc_type c = lit "fuse" \/ exists t, mc_type c = lit "fuse." ++ t) /\
  Z.of_nat (length (mc_data c)) < page_size /\
  exists l, Forall (permitted conf) l /\
    (split_commas (mc_data c) = l ++ own_options \/ split_commas (mc_data c) = l ++ own_options ++ [group_option]).

Lemma kernel_options l rest : Forall nocomma l -> nocomma rest ->
  split_commas (listed l ++ kernel_tail me fd rootmode ++ rest) = l ++ [lit "fd=" ++ signed fd; lit "rootmode=" ++ octal rootmode; (lit "user_id=" ++ decimal (uid me)) ++ rest].
Proof.
  intros Hl Hr. rewrite split_listed by done. f_equal. unfold kernel_tail.
  replace ((lit "fd=" ++ signed fd ++ lit ",rootmode=" ++ octal rootmode ++ lit ",user_id=" ++ decimal (uid me)) ++ rest)
    with ((lit "fd=" ++ signed fd) ++ COMMA :: ((lit "rootmode=" ++ octal rootmode) ++ COMMA :: ((lit "user_id=" ++ decimal (uid me)) ++ rest)))
    by (change (lit ",rootmode=") with (COMMA :: lit "rootmode="); change (lit ",user_id=") with (COMMA :: lit "user_id=");
        rewrite <- ?app_assoc; cbn [app]; by rewrite <- ?app_assoc).
  rewrite split_cons by (apply nocomma_app; [by repeat constructor|apply signed_nocomma]).
  rewrite split_cons by (apply nocomma_app; [by repeat constructor|apply octal_nocomma]).
  rewrite split_word; [done|]. apply nocomma_app; [|done]. apply nocomma_app; [by repeat constructor|apply decimal_nocomma].
Qed.

Lemma kernel_options_group l : Forall nocomma l ->
  split_commas (listed l ++ kernel_tail me fd rootmode ++ group_tail me) = l ++ own_options ++ [group_option].
Proof.
  intros Hl. unfold group_tail. change (lit ",group_id=") with (COMMA :: lit "group_id="). 
  rewrite split_listed by done. f_equal. unfold kernel_tail.
  replace ((lit "fd=" ++ signed fd ++ lit ",rootmode=" ++ octal rootmode ++ lit ",user_id=" ++ decimal (uid me)) ++ (COMMA :: lit "group_id=") ++ decimal (gid me))
    with ((lit "fd=" ++ signed fd) ++ COMMA :: ((lit "rootmode=" ++ octal rootmode) ++ COMMA :: ((lit "user_id=" ++ decimal (uid me)) ++ COMMA :: group_option)))
    by (unfold group_option; change (lit ",rootmode=") with (COMMA :: lit "rootmode="); change (lit ",user_id=") with (COMMA :: lit "user_id=");
        rewrite <- ?app_assoc; cbn [app]; by rewrite <- ?app_assoc).
  rewrite split_cons by (apply nocomma_app; [by repeat constructor|apply signed_nocomma]).
  rewrite split_cons by (apply nocomma_app; [by repeat constructor|apply octal_nocomma]).
  rewrite split_cons by (apply nocomma_app; [by repeat constructor|apply decimal_nocomma]).
  by rewrite split_word by (apply nocomma_app; [by repeat constructor|apply decimal_nocomma]).
Qed.

Lemma add_option_tr Q o x : tr Q (add_option o x) (fun _ => True).
Proof. unfold add_option. eapply tr_bind; [apply tr_alloc|]. intros _ _. by apply tr_ret. Qed.

Lemma add_flags_tr Q f t o : tr Q (add_flags f t o) (fun _ => True).
Proof.
  revert o. induction t as [|m t IH]; intros o; cbn [add_flags]; [by apply tr_ret|].
  eapply tr_bind; [destruct (_ && _); [apply add_option_tr|by apply (tr_ret _ _ (fun _ => True))]|]. intros o' _. apply IH.
Qed.

Lemma get_mnt_opts_tr Q f o : tr Q (get_mnt_opts me f o) (fun _ => True).
Proof.
  unfold get_mnt_opts. eapply tr_bind; [destruct (negb _); [apply add_option_tr|by apply (tr_ret _ _ (fun _ => True))]|]. intros o1 _.
  eapply tr_bind; [apply add_flags_tr|]. intros o2 _. eapply tr_bind; [apply add_option_tr|]. intros o3 _.
  destruct (negb (uid me =? 0)); [|by apply tr_ret]. destruct (user_name me); [|apply tr_fail].
  eapply tr_bind; [apply add_option_tr|]. intros o4 _. by apply tr_ret.
Qed.

Lemma notrunc_tr src ty fl data : (Z.of_nat (length data) < page_size -> safe_call (MountCall src mnt ty fl data)) ->
  tr safe_call (mount_notrunc page_size src mnt ty fl data) (fun _ => True).
Proof.
  intros Hs. unfold mount_notrunc. destruct (Z.ltb_spec (page_size - 1) (Z.of_nat (length data))); [by apply tr_ret|].
  apply tr_mount, Hs. lia.
Qed.

Lemma tr_weaken {A} (Q Q' : mount_call -> Prop) (m : FM A) R : (forall c, Q c -> Q' c) -> tr Q m R -> tr Q' m R.
Proof.
  intros HQ Hm s r s' E. destruct (Hm s r s' E) as ((l & C & F) & Hr). split; [|done]. exists l. split; [done|].
  eapply Forall_impl; [exact F|]. intros c [? ?]. split; [by apply HQ|done].
Qed.

Lemma base_type_ok (sub : option bytes) : let ty := base_type false ++ match sub with Some t => lit "." ++ t | None => [] end in
  ty = lit "fuse" \/ exists t, ty = lit "fuse." ++ t.
Proof. destruct sub as [t|]; [right; by exists t|by left]. Qed.

Lemma do_mount_tr nk opts dev : tr safe_call (do_mount me conf page_size nk mnt rootmode fd opts dev) (fun _ => True).
Proof.
  unfold do_mount. eapply tr_bind; [apply tr_alloc|]. intros _ _.
  eapply tr_bind; [eapply tr_weaken; [|apply (option_loop_ok me conf ordinary); apply opt0_ok]; done|].
  intros o (Hf & Hb & l & Hd & Hc & Hp). eapply tr_bind; [apply get_mnt_opts_tr|]. intros mo _.
  eapply tr_bind; [apply tr_alloc|]. intros _ _. eapply tr_bind; [apply tr_alloc|]. intros _ _. rewrite Hb, Hd.
  assert (forall src ty, (ty = lit "fuse" \/ exists t, ty = lit "fuse." ++ t) ->
    tr safe_call (mount_notrunc page_size src mnt ty (opt_flags o) (listed l ++ kernel_tail me fd rootmode ++ group_tail me)) (fun _ => True)) as Hfull.
  { intros src ty Hty. apply notrunc_tr. intros Hl. split; [done|]. split; [done|]. split; [done|]. split; [done|]. exists l. split; [done|]. right.
    by apply kernel_options_group. }
  eapply tr_bind; [apply Hfull, base_type_ok|]. intros res _.
  eapply (tr_bind _ _ _ (fun r => r.2 = lit "fuse" \/ exists t, r.2 = lit "fuse." ++ t)).
  { assert (forall (x : option Z * bytes * bytes), (x.2 = lit "fuse" \/ exists t, x.2 = lit "fuse." ++ t) -> tr safe_call (mret x) (fun r => r.2 = lit "fuse" \/ exists t, r.2 = lit "fuse." ++ t)) as Hret.
    { intros x Hx. by apply tr_ret. }
    destruct res as [e|]; [|apply Hret, base_type_ok]. destruct (subtype o) as [t|] eqn:Est; [|apply Hret; by left].
    destruct (e =? ENODEV); [|apply Hret; right; by exists t].
    eapply tr_bind; [apply Hfull; by left|]. intros r _. apply Hret. by left. }
  intros [[res2 src] ty] Hty. cbn [snd] in Hty.
  eapply tr_bind; [|intros res3 _; destruct res3; [apply tr_fail|by apply tr_ret]].
  destruct res2 as [e|]; [|by apply (tr_ret _ _ (fun _ => True))]. destruct (e =? EINVAL); [|by apply (tr_ret _ _ (fun _ => True))].
  apply notrunc_tr. intros Hl. split; [done|]. split; [done|]. split; [done|]. split; [done|]. exists l. split; [done|]. left. cbn [mc_data].
  rewrite <- (app_nil_r (kernel_tail me fd rootmode)). rewrite kernel_options by (try done; constructor). by rewrite app_nil_r.
Qed.
End Calls.

(** C20: fusermount3, run by an ordinary user with any option string: every
    call of mount(2) is for the given mount point, has nosuid and nodev set and the type fuse or fuse.subtype,
    never fuseblk; cut at its commas, as the kernel does, its data consists of
    default_permissions, allow_other if the configuration permits it, max_read=
    and blksize= options, followed by the descriptor, the mode, the caller's own
    user and possibly his group, so that no other option and no second user or
    descriptor can be smuggled in; and the data is never so long that the kernel
    would cut it. *)
Theorem unprivileged_mount_safe me conf page_size nk mnt rootmode fd opts dev s r s' :
  uid me <> 0 -> do_mount me conf page_size nk mnt rootmode fd opts dev s = (r, s') ->
  exists l, calls s' = calls s ++ l /\ Forall (fun c => safe_call me conf page_size mnt fd rootmode c.1) l.
Proof.
  intros Hu E. destruct (do_mount_tr me conf Hu page_size mnt fd rootmode nk opts dev s r s' E) as ((l & C & F) & _).
  exists l. split; [done|]. eapply Forall_impl; [exact F|]. by intros c [? _].
Qed.

(** A user who asks for everything: suid has no effect, and neither has an
    attempt to name another user. *)
Lemma unprivileged_mount_safe_witness :
  let me := Caller 1000 100 0 (Some (lit "joe")) in
  let conf := Config true 1000 in
  let s := Fm [] [] [] false false [] in
  let opts := lit "allow_other,suid,user_id=0,max_read=4096,subtype=a\,suid" in
  exists c, calls (do_mount me conf 4096 true (lit ".") S_IFDIR 7 opts (lit "/dev/fuse") s).2 = [(c, false)] /\ safe_call me conf 4096 (lit ".") 7 S_IFDIR c /\
    mc_data c = lit "allow_other,max_read=4096,fd=7,rootmode=40000,user_id=1000,group_id=100" /\ mc_type c = lit "fuse.a,suid".
Proof.
  cbn zeta. destruct (do_mount _ _ _ _ _ _ _ _ _ _) as [r s'] eqn:E.
  destruct (unprivileged_mount_safe (Caller 1000 100 0 (Some (lit "joe"))) _ _ _ _ _ _ _ _ _ _ _ ltac:(done) E) as (l & C & F).
  vm_compute in E. injection E as <- <-. cbn [calls app snd] in C |- *. rewrite C. subst l.
  apply Forall_cons_1 in F as [F _]. cbn [fst] in F.
  eexists. split; [reflexivity|]. split; [exact F|]. by split.
Defined.

(** ** Privileges *)

(** [m] looks at files with the caller's privileges and mounts nothing. *)
Definition looks {A} (m : FM A) (R : A -> Prop) : Prop :=
  forall s r s', dropped s = true -> m s = (r, s') ->
    calls s' = calls s /\ dropped s' = true /\ (exists t, touched s' = touched s ++ t /\ Forall (eq true) t) /\ forall a, r = inr a -> R a.

Lemma looks_ret {A} (a : A) (R : A -> Prop) : R a -> looks (mret a) R.
Proof. intros HR s r s' Hd [= <- <-]. split; [done|]. split; [done|]. split; [exists []; by rewrite app_nil_r|]. by intros a' [= <-]. Qed.

Lemma looks_fail {A} e (R : A -> Prop) : looks (fail e) R.
Proof. intros s r s' Hd [= <- <-]. split; [done|]. split; [done|]. by split; [exists []; rewrite app_nil_r|]. Qed.

Lemma looks_bind {A B} (m : FM A) (k : A -> FM B) R R' : looks m R -> (forall a, R a -> looks (k a) R') -> looks (m ≫= k) R'.
Proof.
  intros Hm Hk s r s' Hd E. unfold mbind, FM_bind in E. destruct (m s) as [[e|a] s1] eqn:E1.
  - injection E as <- <-. destruct (Hm s _ s1 Hd E1) as (? & ? & ? & _). by repeat split.
  - destruct (Hm s _ s1 Hd E1) as (C1 & D1 & (t1 & T1 & F1) & R1).
    destruct (Hk a (R1 a eq_refl) s1 r s' D1 E) as (C2 & D2 & (t2 & T2 & F2) & R2).
    split; [congruence|]. split; [done|]. split; [|done]. exists (t1 ++ t2). split; [by rewrite T2, T1, app_assoc|by apply Forall_app].
Qed.

Lemma looks_touch : looks touch (fun _ => True).
Proof. intros s r s' Hd [= <- <-]. cbn. rewrite Hd. split; [done|]. split; [done|]. split; [|done]. exists [true]. by repeat constructor. Qed.

Lemma looks_require b : looks (require b) (fun _ => b = true).
Proof. destruct b; [by apply looks_ret|apply looks_fail]. Qed.

Lemma looks_or_fail {A} (o : option A) : looks (or_fail o) (fun a => o = Some a).
Proof. destruct o; [by apply looks_ret|apply looks_fail]. Qed.

Create HintDb looks.
#[export] Hint Resolve looks_touch looks_require looks_or_fail looks_fail : looks.

Ltac look := eapply looks_bind; [solve [auto with looks]|]; intros ? ?.

(** The mount point that an ordinary user may mount on: his working directory,
    after entering it, which he may write to and, if it is sticky, owns; or an
    open regular file; on a file system of the list. *)
Definition may_mount_on (me : caller) (v : mountpoint) (target : bytes) (mode : Z) : Prop :=
  (exists ft, v_statfs v = Some ft /\ In ft f_type_whitelist) /\
  ((v_chdir v = true /\ v_access v = true /\ target = lit "." /\
    exists owner, v_lstat_dot v = Some (mode, owner) /\ (has mode S_ISVTX = false \/ owner = uid me)) \/
   (exists fd, v_open v = Some fd /\ target = lit "/proc/self/fd/" ++ signed fd /\ v_fstat v = Some mode /\ Z.land mode S_IFMT = S_IFREG)).

Lemma check_perm_looks me v mnt : uid me <> 0 -> looks (check_perm me v mnt) (fun r => may_mount_on me v r.1.1 r.1.2).
Proof.
  intros Hu. unfold check_perm. look. look. destruct (Z.eqb_spec (uid me) 0); [done|].
  eapply (looks_bind _ _ (fun r => (exists ft, v_statfs v = Some ft /\ In ft f_type_whitelist) -> may_mount_on me v r.1.1 r.1.2)).
  - destruct (_ =? S_IFDIR).
    + look. look. look. eapply looks_bind; [apply looks_or_fail|]. intros [mode owner] Hst. cbn [fst snd].
      eapply looks_bind; [apply (looks_require (negb (has mode S_ISVTX && negb (owner =? uid me))))|]. intros ? Hv. look. look. apply looks_ret. intros Hft. split; [done|]. left. cbn [fst snd].
      split; [done|]. split; [done|]. split; [done|]. exists owner. split; [done|].
      destruct (has mode S_ISVTX); [right|by left]. cbn in Hv. destruct (Z.eqb_spec owner (uid me)); [done|by cbn in Hv].
    + destruct (_ =? S_IFREG); [|apply looks_fail]. look. look. look. eapply looks_bind; [apply looks_require|]. intros ? Hm.
      apply looks_ret. intros Hft. split; [done|]. right. exists a2. split; [done|]. split; [done|]. split; [done|]. by apply Z.eqb_eq.
  - intros r Hr. look. look. eapply looks_bind; [apply looks_require|]. intros ? He. apply looks_ret, Hr.
    apply existsb_exists in He as (x & Hx & Ex%Z.eqb_eq). exists a2. split; [done|]. by rewrite Ex.
Qed.

(** The configuration that the helper works with. *)
Definition config_of (file : Z + bytes) : config :=
  match file with inr s => conf_loop (length s) true s config0 | inl _ => config0 end.

Lemma read_conf_looks file : looks (read_conf file) (fun c => c = config_of file).
Proof. destruct file as [e|s]; cbn [read_conf config_of]; [destruct (existsb _ _); [by apply looks_ret|apply looks_fail]|by apply looks_ret]. Qed.

Lemma open_device_privs me dev s r s' : uid me <> 0 -> open_fuse_device me dev s = (r, s') ->
  calls s' = calls s /\ dropped s' = false /\ touched s' = touched s ++ [true].
Proof.
  intros Hu. unfold open_fuse_device, drop_privs, restore_privs. destruct (Z.eqb_spec (uid me) 0); [done|].
  cbn. destruct dev as [e|fd]; [by intros [= <- <-]|]. unfold mbind, FM_bind, fm_malloc. cbn.
  destruct (fm_heap s) as [|[] h]; by intros [= <- <-].
Qed.

(** Before the mount point is checked. *)
Definition under_limit (conf : config) (mtab : option (list mntent)) : Prop :=
  mount_max conf = -1 \/ count_fuse_fs mtab < mount_max conf.

Lemma limit_looks me conf mtab : uid me <> 0 ->
  looks (if negb (uid me =? 0) && negb (mount_max conf =? -1) then _ ← touch; require (negb (mount_max conf <=? count_fuse_fs mtab)) else mret tt)
    (fun _ => under_limit conf mtab).
Proof.
  intros Hu. destruct (Z.eqb_spec (uid me) 0); [done|]. cbn [negb andb]. unfold under_limit.
  destruct (Z.eqb_spec (mount_max conf) (-1)); [apply looks_ret; by left|]. cbn [negb]. look.
  destruct (Z.leb_spec (mount_max conf) (count_fuse_fs mtab)); [apply looks_fail|]. apply looks_ret. by right.
Qed.

(** What happens from [s] to [s']: files are looked at with the caller's
    privileges, and mount(2) is called as [Q] allows. *)
Definition guarded (Q : mount_call * bool -> Prop) (s s' : fm) : Prop :=
  (exists l, calls s' = calls s ++ l /\ Forall Q l) /\ exists t, touched s' = touched s ++ t /\ Forall (eq true) t.

Lemma guarded_trans Q s1 s2 s3 : guarded Q s1 s2 -> guarded Q s2 s3 -> guarded Q s1 s3.
Proof.
  intros [(l & C & F) (t & T & G)] [(l' & C' & F') (t' & T' & G')]. split.
  - exists (l ++ l'). split; [by rewrite C', C, app_assoc|by apply Forall_app].
  - exists (t ++ t'). split; [by rewrite T', T, app_assoc|by apply Forall_app].
Qed.

Lemma guarded_calm Q s s' t : calls s' = calls s -> touched s' = touched s ++ t -> Forall (eq true) t -> guarded Q s s'.
Proof. intros C T F. split; [exists []; by rewrite app_nil_r|by exists t]. Qed.

Lemma looks_guarded {A B} Q (m : FM A) (k : A -> FM B) R s r s' : looks m R -> dropped s = true -> (m ≫= k) s = (r, s') ->
  (forall a s1, dropped s1 = true -> R a -> k a s1 = (r, s') -> guarded Q s1 s') -> guarded Q s s'.
Proof.
  intros Hm Hd E Hk. unfold mbind, FM_bind in E. destruct (m s) as [[e|a] s1] eqn:E1;
    destruct (Hm s _ s1 Hd E1) as (C & D & (t & T & F) & Hr).
  - injection E as <- <-. by eapply guarded_calm.
  - eapply guarded_trans; [by eapply guarded_calm|]. eapply Hk; [done| |done]. by apply Hr.
Qed.

Lemma finally_guarded {A B} Q me (m : FM A) (k : A -> FM B) R s r s' : uid me <> 0 -> looks m R -> dropped s = true ->
  (finally m (restore_privs me) ≫= k) s = (r, s') ->
  (forall a s1, dropped s1 = false -> R a -> k a s1 = (r, s') -> guarded Q s1 s') -> guarded Q s s'.
Proof.
  intros Hu Hm Hd E Hk. unfold mbind, FM_bind, finally, restore_privs in E. destruct (Z.eqb_spec (uid me) 0); [done|].
  destruct (m s) as [[e|a] s1] eqn:E1; destruct (Hm s _ s1 Hd E1) as (C & D & (t & T & F) & Hr); cbn in E.
  - injection E as <- <-. by eapply guarded_calm.
  - eapply guarded_trans; [by eapply (guarded_calm _ s (set_dropped false s1).2)|]. eapply Hk; [|by apply Hr|exact E]. done.
Qed.

(** The end of mount_fuse neither mounts nor looks at files. *)
Lemma tail_tr {A} Q (b1 b2 b3 : bool) (x : A) : tr Q (_ ← require b1; _ ← (if b2 then require b3 else mret tt); mret x) (fun _ => True).
Proof.
  assert (forall b, tr Q (require b) (fun _ => True)) as Hr by (intros []; [by apply tr_ret|apply tr_fail]).
  eapply tr_bind; [apply Hr|]. intros _ _. eapply tr_bind; [destruct b2; [apply Hr|by apply (tr_ret _ _ (fun _ => True))]|]. intros _ _. by apply tr_ret.
Qed.

(** C21: fusermount3, run by an ordinary user with any options, configuration
    file, mount table and answers of the system: every file that the user names
    is looked at with the user's own privileges and every call of mount(2) is
    made with the privileges of the program; and mount(2) is called only if the
    number of FUSE mounts is under the limit of the configuration, and only on
    a mount point that passed the checks, with the options that the
    configuration allows: the working directory, entered, writable for the user
    and owned by him if it is sticky, or an open regular file, on a file system
    of the list. *)
Theorem unprivileged_mount_checked me page_size nk dev file mtab v chdir_ok add_ok mnt opts s r s' :
  uid me <> 0 -> mount_fuse me page_size nk dev file mtab v chdir_ok add_ok mnt opts s = (r, s') ->
  guarded (fun c => c.2 = false /\ under_limit (config_of file) mtab /\
             exists target fd mode, may_mount_on me v target mode /\ safe_call me (config_of file) page_size target fd (Z.land mode S_IFMT) c.1) s s'.
Proof.
  intros Hu E. unfold mount_fuse in E. unfold mbind at 1, FM_bind at 1 in E.
  destruct (open_fuse_device me dev s) as [[e|fd] s1] eqn:E1; destruct (open_device_privs _ _ _ _ _ Hu E1) as (C & D & T).
  { injection E as <- <-. eapply guarded_calm; [done..|]. by constructor. }
  eapply guarded_trans; [eapply (guarded_calm _ s s1); [done..|by constructor]|].
  assert (forall A (k : unit -> FM A), (drop_privs me ≫= k) s1 = k tt (set_dropped true s1).2) as Ed
    by (intros A k; unfold drop_privs, mbind, FM_bind; by destruct (Z.eqb_spec (uid me) 0)).
  rewrite Ed in E. clear Ed. eapply guarded_trans; [eapply (guarded_calm _ s1 (set_dropped true s1).2 []); [done|by rewrite app_nil_r|constructor]|].
  eapply looks_guarded; [apply looks_touch|done|exact E|]. clear E. intros [] s2 D2 _ E.
  eapply looks_guarded; [apply read_conf_looks|done|exact E|]. clear E. intros ? s3 D3 -> E.
  eapply looks_guarded; [by apply limit_looks|done|exact E|]. clear E. intros ? s4 D4 Hl E.
  eapply finally_guarded; [done|by apply check_perm_looks|done|exact E|]. clear E. intros [[target mode] fdopt] s5 D5 Hm E.
  cbn [fst snd] in Hm.
  destruct (tr_bind _ _ _ _ _ (do_mount_tr me (config_of file) Hu page_size target fd (Z.land mode S_IFMT) nk opts (lit "/dev/fuse"))
    (fun m _ => tail_tr _ chdir_ok (euid me =? 0) add_ok (fd, m.1.2)) s5 r s' E) as ((l & C5 & F5) & _ & T5 & _).
  split; [|exists []; by rewrite app_nil_r]. exists l. split; [done|]. eapply Forall_impl; [exact F5|]. intros c [Hc Hp].
  rewrite D5 in Hp. split; [done|]. split; [done|]. by exists target, fd, mode.
Qed.

(** A user mounts on his own sticky directory, below the limit that the
    configuration sets. *)
Lemma unprivileged_mount_checked_witness :
  let me := Caller 1000 100 0 (Some (lit "joe")) in
  let file := inr (lit "# limits" ++ [10] ++ lit " mount_max = 2 " ++ [10] ++ lit "user_allow_other" ++ [10]) in
  let mtab := Some [Mntent (lit "/a") (lit "fuse.x") (lit "rw"); Mntent (lit "/b") (lit "ext4") (lit "rw")] in
  let v := Mountpoint (Some (17407, 1000)) true (Some (17407, 1000)) true None None (Some 61267) in
  let s := Fm [] [Some ENODEV; Some EINVAL] [] false false [] in
  let s' := (mount_fuse me 4096 true (inr 7) file mtab v true true (lit "/tmp/joe") (lit "allow_other,subtype=x") s).2 in
  Forall (fun c => c.2 = false /\ under_limit (config_of file) mtab /\
    exists target fd mode, may_mount_on me v target mode /\ safe_call me (config_of file) 4096 target fd (Z.land mode S_IFMT) c.1) (calls s') /\
  length (calls s') = 3%nat /\ touched s' = [true; true; true; true; true; true; true; true].
Proof.
  cbn zeta. destruct (mount_fuse _ _ _ _ _ _ _ _ _ _ _ _) as [r s'] eqn:E.
  destruct (unprivileged_mount_checked (Caller 1000 100 0 (Some (lit "joe"))) _ _ _ _ _ _ _ _ _ _ _ _ _ ltac:(done) E) as [(l & C & F) _].
  vm_compute in E. injection E as <- <-. cbn [calls app snd] in C |- *. split; [|by split]. rewrite C. exact F.
Defined.

(** ** The buffer of the options *)

Lemma decimal_fuel_length fuel n z : (0 < n)%nat -> 0 <= z < 10 ^ Z.of_nat n -> (length (decimal_fuel fuel z) <= n)%nat.
Proof.
  revert n z. induction fuel as [|fuel IH]; intros n z Hn Hz; cbn [decimal_fuel length]; [lia|]. rewrite length_app. cbn [length].
  destruct (Z.ltb_spec z 10); [cbn [length]; lia|]. destruct n as [|[|n]]; [lia|cbn in Hz; lia|].
  assert (0 <= z / 10 < 10 ^ Z.of_nat (S n)) as Hd; [|pose proof (IH (S n) (z / 10) ltac:(lia) Hd); lia]. split; [by apply Z.div_pos; lia|].
  apply Z.div_lt_upper_bound; [lia|]. rewrite (Nat2Z.inj_succ (S n)), Z.pow_succ_r in Hz; lia.
Qed.

Lemma octal_fuel_length fuel n z : (0 < n)%nat -> 0 <= z < 8 ^ Z.of_nat n -> (length (octal_fuel fuel z) <= n)%nat.
Proof.
  revert n z. induction fuel as [|fuel IH]; intros n z Hn Hz; cbn [octal_fuel length]; [lia|]. rewrite length_app. cbn [length].
  destruct (Z.ltb_spec z 8); [cbn [length]; lia|]. destruct n as [|[|n]]; [lia|cbn in Hz; lia|].
  assert (0 <= z / 8 < 8 ^ Z.of_nat (S n)) as Hd; [|pose proof (IH (S n) (z / 8) ltac:(lia) Hd); lia]. split; [by apply Z.div_pos; lia|].
  apply Z.div_lt_upper_bound; [lia|]. rewrite (Nat2Z.inj_succ (S n)), Z.pow_succ_r in Hz; lia.
Qed.

Lemma signed_length z : - 2 ^ 31 <= z < 2 ^ 31 -> (length (signed z) <= 11)%nat.
Proof.
  intros Hz. unfold signed. destruct (Z.ltb_spec z 0); cbn [length].
  - pose proof (decimal_fuel_length (S (Z.to_nat (Z.log2 (- z)))) 10 (- z) ltac:(lia) ltac:(cbn; lia)). unfold decimal. lia.
  - pose proof (decimal_fuel_length (S (Z.to_nat (Z.log2 z))) 10 z ltac:(lia) ltac:(cbn; lia)). unfold decimal. lia.
Qed.

Lemma decimal_short z : 0 <= z < 2 ^ 32 -> (length (decimal z) <= 10)%nat.
Proof. intros Hz. apply decimal_fuel_length; [lia|cbn; lia]. Qed.

Lemma octal_length z : 0 <= z < 2 ^ 32 -> (length (octal z) <= 11)%nat.
Proof. intros Hz. apply octal_fuel_length; [lia|cbn; lia]. Qed.

Lemma tails_length me fd rootmode : - 2 ^ 31 <= fd < 2 ^ 31 -> 0 <= rootmode < 2 ^ 32 -> 0 <= uid me < 2 ^ 32 -> 0 <= gid me < 2 ^ 32 ->
  (length (kernel_tail me fd rootmode ++ group_tail me) <= 74)%nat.
Proof.
  intros Hf Hr Hu Hg. unfold kernel_tail, group_tail. rewrite !length_app. cbn [length lit map].
  pose proof (signed_length fd Hf). pose proof (octal_length rootmode Hr). pose proof (decimal_short _ Hu). pose proof (decimal_short _ Hg).
  change (length (lit "fd=")) with 3%nat. change (length (lit ",rootmode=")) with 10%nat.
  change (length (lit ",user_id=")) with 9%nat. change (length (lit ",group_id=")) with 10%nat. lia.
Qed.

Section Buffer.
Context (me : caller) (conf : config).

Lemma do_option_length nk s len o : tr (fun _ => False) (do_option me conf nk s len o) (fun o' => length (opt_d o') <= length (opt_d o) + len + 1)%nat.
Proof.
  assert (forall o', opt_d o' = opt_d o -> tr (fun _ => False) (mret o') (fun o' => length (opt_d o') <= length (opt_d o) + len + 1)%nat) as Hret.
  { intros o' Ho. apply tr_ret. rewrite Ho. lia. }
  assert (forall k : bytes, tr (fun _ => False) (get_string_opt s len k) (fun _ => True)) as Hget.
  { intros k. unfold get_string_opt. eapply tr_bind; [apply tr_alloc|]. intros _ _. by apply tr_ret. }
  unfold do_option. destruct (begins_with s (lit "fsname=")); [eapply tr_bind; [apply Hget|]; intros v _; by apply Hret|].
  destruct (begins_with s (lit "subtype=")); [eapply tr_bind; [apply Hget|]; intros v _; by apply Hret|].
  destruct (opt_eq s len (lit "blkdev")); [destruct (negb _); [apply tr_fail|by apply Hret]|].
  destruct (opt_eq s len (lit "auto_unmount")); [eapply tr_bind; [apply tr_auto|]; intros _ _; by apply Hret|].
  destruct (is_ignored s len); [by apply Hret|]. destruct (_ && _ && _); [apply tr_fail|]. destruct (_ && _); [by apply Hret|].
  destruct (find_mount_flag me s len) as [[on flag]|]; [by apply Hret|]. destruct (is_passed s len); [|apply tr_fail].
  apply tr_ret. cbn [opt_d]. rewrite !length_app, length_take. cbn [length]. lia.
Qed.

Lemma option_loop_length fuel nk s o : tr (fun _ => False) (option_loop me conf fuel nk s o) (fun o' => length (opt_d o') <= length (opt_d o) + length s + 1)%nat.
Proof.
  revert s o. induction fuel as [|fuel IH]; intros s o; cbn [option_loop]; [destruct s; apply tr_ret; lia|].
  destruct s as [|c s]; [apply tr_ret; lia|]. eapply tr_bind; [apply do_option_length|]. cbn zeta.
  set (n := opt_len _ (c :: s)). assert (n <= length (c :: s))%nat by apply opt_len_le. intros o' Ho. cbn beta in Ho.
  destruct (drop (S n) (c :: s)) as [|c' s'] eqn:E.
  - destruct fuel; apply tr_ret; lia.
  - pose proof (f_equal length E) as El. rewrite length_drop in El. eapply tr_mono; [apply IH|]. cbn beta. intros o2. cbn [length] in *. lia.
Qed.
End Buffer.

(** C27: The buffer that do_mount builds the options of mount(2) in, allocated
    as the length of the option string and 128 bytes, is large enough for every
    option string and every caller: after any number of turns of the loop, what
    was copied, the descriptor, mode, user and group printed behind it and the
    terminating byte fit. *)
Theorem option_buffer_fits me conf nk fuel opts fd rootmode s o s' :
  - 2 ^ 31 <= fd < 2 ^ 31 -> 0 <= rootmode < 2 ^ 32 -> 0 <= uid me < 2 ^ 32 -> 0 <= gid me < 2 ^ 32 ->
  option_loop me conf fuel nk opts opt0 s = (inr o, s') ->
  (length (opt_d o ++ kernel_tail me fd rootmode ++ group_tail me) + 1 <= length opts + 128)%nat.
Proof.
  intros Hf Hr Hu Hg E. destruct (option_loop_length me conf fuel nk opts opt0 s _ s' E) as (_ & _ & _ & Ho).
  specialize (Ho o eq_refl). cbn [opt0 opt_d length] in Ho. pose proof (tails_length me fd rootmode Hf Hr Hu Hg). rewrite length_app. lia.
Qed.

(** The longest numbers and no comma at the end. *)
Lemma option_buffer_fits_witness :
  let me := Caller 4294967295 4294967295 0 None in
  (match (option_loop me config0 30 true (lit "blksize=1,max_read=2") opt0 (Fm [] [] [] false false [])).1 with
   | inr o => length (opt_d o ++ kernel_tail me (-2147483648) 4294967295 ++ group_tail me)
   | inl _ => O
   end + 1 <= 20 + 128)%nat.
Proof.
  cbn zeta. destruct (option_loop _ _ _ _ _ _ _) as [r s'] eqn:E. cbn [fst]. destruct r as [e|o]; [exfalso; by vm_compute in E|].
  apply (option_buffer_fits (Caller 4294967295 4294967295 0 None) config0 true 30 (lit "blksize=1,max_read=2") (-2147483648) 4294967295 (Fm [] [] [] false false []) o s'); [lia|lia|cbn; lia|cbn; lia|exact E].
Defined.

(** ** Unmounting *)

Lemma strstr_spec s t a b : strstr s t = Some (a, b) -> s = a ++ b /\ begins_with b t = true.
Proof.
  revert a b. induction s as [|c s IH]; intros a b; cbn [strstr].
  - destruct (begins_with [] t) eqn:E; [|done]. by intros [= <- <-].
  - destruct (begins_with (c :: s) t) eqn:E; [by intros [= <- <-]|].
    destruct (strstr s t) as [[a' b']|] eqn:Es; [|done]. cbn. intros [= <- <-]. destruct (IH a' b' eq_refl) as [-> Hb]. done.
Qed.

(** Where an option starts. *)
Definition option_start (a : bytes) : Prop := a = [] \/ exists a', a = a' ++ [COMMA].

Lemma opt_value_spec opts key v : opt_value opts key = Some v -> exists a, option_start a /\ opts = a ++ key ++ v.
Proof.
  unfold opt_value. destruct (strstr opts key) as [[a b]|] eqn:E; [|done]. cbn. apply strstr_spec in E as [-> [t ->]%begins_with_spec].
  destruct (bool_decide (a = []) || bool_decide (last a = Some COMMA)) eqn:Ea; [|done]. intros [= <-].
  exists a. rewrite drop_app_length. split; [|done]. apply orb_true_iff in Ea as [Ea|Ea]; apply bool_decide_eq_true in Ea; [by left|].
  right. by apply last_Some in Ea.
Qed.

Lemma split_app_comma a s : split_commas (a ++ COMMA :: s) = split_commas a ++ split_commas s.
Proof.
  induction a as [|c a IH]; [done|]. cbn. rewrite IH. destruct (c =? COMMA); [done|].
  destruct (split_commas a) as [|w l] eqn:E; [|done]. destruct a; cbn in E; [done|]. destruct (_ =? _); [done|]. by destruct (split_commas a).
Qed.

Lemma split_start a w rest : option_start a -> nocomma w -> (rest = [] \/ exists r, rest = COMMA :: r) -> In w (split_commas (a ++ w ++ rest)).
Proof.
  intros Ha Hw Hr. assert (In w (split_commas (w ++ rest))) as Hin.
  { destruct Hr as [->|[r ->]]; [rewrite app_nil_r, split_word by done; by left|rewrite split_cons by done; by left]. }
  destruct Ha as [->|[a' ->]]; [done|]. rewrite <- app_assoc. cbn [app]. rewrite split_app_comma. apply in_app_iff. by right.
Qed.

(** The entry is one of FUSE and says that the caller mounted it: it has an
    option user_id= with his number, or its last option is user= with his name. *)
Definition mounted_by (me : caller) (user : bytes) (e : mntent) : Prop :=
  is_fuse_type (mnt_type e) = true /\
  (In (lit "user_id=" ++ decimal (uid me)) (split_commas (mnt_opts e)) \/
   exists a, option_start a /\ mnt_opts e = a ++ lit "user=" ++ user).

Lemma owned_mounted me user e : is_fuse_type (mnt_type e) = true -> owned_by me user e = true -> mounted_by me user e.
Proof.
  intros Ht Ho. split; [done|]. unfold owned_by in Ho. apply orb_true_iff in Ho as [Ho|Ho].
  - right. destruct (opt_value _ _) as [v|] eqn:E; [|done]. apply opt_value_spec in E as (a & Ha & E). apply bool_decide_eq_true in Ho as ->. by exists a.
  - left. destruct (opt_value _ _) as [v|] eqn:E; [|done]. apply opt_value_spec in E as (a & Ha & ->).
    apply andb_true_iff in Ho as [[t ->]%begins_with_spec Hc]. rewrite drop_app_length in Hc. rewrite (app_assoc (lit "user_id=")). apply split_start; [done| |].
    + apply nocomma_app; [by repeat constructor|apply decimal_nocomma].
    + destruct t as [|c t]; [by left|right]. apply Z.eqb_eq in Hc as ->. by exists t.
Qed.

Lemma may_unmount_spec me mtab mnt : may_unmount me mtab mnt = true ->
  exists user l e, user_name me = Some user /\ mtab = Some l /\ In e l /\ mnt_dir e = mnt /\ mounted_by me user e.
Proof.
  unfold may_unmount. destruct (user_name me) as [user|]; [|done]. destruct mtab as [l|]; [|done]. intros (e & Hin & He)%existsb_exists.
  apply andb_true_iff in He as [[Hd Ht]%andb_true_iff Ho]. apply bool_decide_eq_true in Hd.
  exists user, l, e. repeat (split; [done|]). by apply owned_mounted.
Qed.

Lemma split_last_name_spec p parent name : split_last_name p = Some (parent, name) ->
  name <> [] /\ (p = parent ++ 47 :: name \/ (parent = lit "/" /\ p = 47 :: name)).
Proof.
  unfold split_last_name. destruct (strchr (reverse p) 47) as [n|] eqn:E; [|done]. apply strchr_Some in E.
  destruct (bool_decide (reverse (take n (reverse p)) = [])) eqn:En; [done|]. apply bool_decide_eq_false in En. intros [= <- <-]. split; [done|].
  assert (p = reverse (drop (S n) (reverse p)) ++ 47 :: reverse (take n (reverse p))) as Hp.
  { rewrite <- (reverse_involutive p) at 1. rewrite <- (take_drop_middle _ _ _ E) at 1. rewrite reverse_app, reverse_cons, <- app_assoc. done. }
  destruct (bool_decide (reverse (drop (S n) (reverse p)) = [])) eqn:Eb; [right|by left].
  apply bool_decide_eq_true in Eb. rewrite Eb in Hp. done.
Qed.


