(* ===== verification/OptRule.v ===== *)
(** * A rule for the users of the option parser

    mount.c and helper.c hand a table and a callback to fuse_opt_parse.  This
    file says what they get: the command line is read as a list of options and
    other arguments ([handed]), and an assertion about the structure that the
    options are written to, indexed by the list read so far, holds at the end
    if every single option and argument keeps it. *)

From S2P Require Import Prelude FuseOpt.

Inductive item := Opt (o : bytes) | Non (a : bytes).

(** The options and other arguments of a command line without its first word;
    [sep] says that two dashes were seen. *)
Fixpoint handed (v : list bytes) (sep : bool) : list item :=
  match v with
  | [] => []
  | arg :: rest =>
      if sep || negb (char_at arg 0 =? chr_dash) then Non arg :: handed rest sep else
      if char_at arg 1 =? chr_o then
        if negb (char_at arg 2 =? 0) then (Opt <$> split_group (drop 2 arg)) ++ handed rest sep else
        match rest with
        | o :: rest => (Opt <$> split_group o) ++ handed rest sep
        | [] => []
        end
      else if (char_at arg 1 =? chr_dash) && (char_at arg 2 =? 0) then handed rest true
      else Opt arg :: handed rest sep
  end.

Section Rule.
Context {D : Type} `{OptData D} (table : list fuse_opt)
  (proc : option (bytes -> Z -> ST (D * fuse_args * heap) Z)) (in_argv : list bytes).
Context (I : list item -> D -> Prop).

(** [m] returns 0 or -1 with a well-formed output vector; if it is 0, the
    assertion holds with [l] read in addition. *)
Definition reads (m : ST (fuse_opt_context D) Z) (l : list item) : Prop :=
  forall c L, args_ok (outargs c) -> I L (data c) ->
    exists r c', m c = Some (r, c') /\ args_ok (outargs c') /\ argctr c' = argctr c /\ nonopt c' = nonopt c /\
      (r = -1 \/ r = 0 /\ I (L ++ l) (data c')).

Context (Hopt : forall arg iso, reads (process_gopt table proc in_argv arg iso) [Opt arg])
        (Hnon : forall arg, reads (call_proc proc arg FUSE_OPT_KEY_NONOPT false) [Non arg]).

Lemma reads_gopts os : reads (run_gopts table proc in_argv os) (Opt <$> os).
Proof.
  induction os as [|o os IH]; intros c L Hc HI; cbn [run_gopts fmap list_fmap].
  - exists 0, c. rewrite app_nil_r. repeat (split; [done|]). by right.
  - destruct (Hopt o true c L Hc HI) as (r & c1 & E & H1 & A1 & N1 & Hr). erewrite bind_step by exact E.
    destruct Hr as [->|[-> Hr]]; cbn [Z.eqb Pos.eqb]; [exists (-1), c1; repeat (split; [done|]); by left|].
    destruct (IH c1 _ H1 Hr) as (r & c2 & -> & H2 & A2 & N2 & Hr2). exists r, c2. rewrite <- app_assoc in Hr2.
    split; [done|]. split; [done|]. split; [congruence|]. split; [congruence|done].
Qed.

Lemma reads_group s : reads (process_option_group table proc in_argv s) (Opt <$> split_group s).
Proof.
  intros c L Hc HI. unfold process_option_group, mbind, ST_bind, with_heap, malloc. destruct (mem c) as [|[] h]; cbn [negb].
  - rewrite process_real_option_group_split. exact (reads_gopts _ (Ctx (data c) (argctr c) (outargs c) (opts c) (nonopt c) []) L Hc HI).
  - rewrite process_real_option_group_split. exact (reads_gopts _ (Ctx (data c) (argctr c) (outargs c) (opts c) (nonopt c) h) L Hc HI).
  - eexists _, _. split; [done|]. split; [done|]. split; [done|]. split; [done|]. by left.
Qed.

Definition seen_sep (c : fuse_opt_context D) : bool := bool_decide (nonopt c <> 0%nat).

Lemma process_one_reads arg rest c L : drop (argctr c) in_argv = arg :: rest -> args_ok (outargs c) -> I L (data c) ->
  exists r c', process_one table proc in_argv arg c = Some (r, c') /\ args_ok (outargs c') /\ (argctr c <= argctr c')%nat /\
    (r = -1 \/ r = 0 /\ exists l, I (L ++ l) (data c') /\
      handed (arg :: rest) (seen_sep c) = l ++ handed (drop (S (argctr c')) in_argv) (seen_sep c')).
Proof.
  intros Hd Hc HI. assert (drop (S (argctr c)) in_argv = rest) as Hr.
  { rewrite <- Nat.add_1_r, <- drop_drop, Hd. done. }
  remember (handed (arg :: rest) (seen_sep c)) as hh eqn:Eh. cbn [handed] in Eh.
  assert (forall m l, reads m l -> hh = l ++ handed rest (seen_sep c) ->
    exists r c', m c = Some (r, c') /\ args_ok (outargs c') /\ (argctr c <= argctr c')%nat /\
      (r = -1 \/ r = 0 /\ exists l, I (L ++ l) (data c') /\ hh = l ++ handed (drop (S (argctr c')) in_argv) (seen_sep c'))) as Hreads.
  { intros m l Hm Hh. destruct (Hm c L Hc HI) as (r & c' & E & H' & A & N & Hq). exists r, c'. split; [done|]. split; [done|]. split; [lia|].
    destruct Hq as [->|[-> Hq]]; [by left|right]. split; [done|]. exists l. split; [done|]. unfold seen_sep in *. by rewrite A, N, Hr. }
  unfold process_one. rewrite bind_get. fold (seen_sep c). destruct (seen_sep c || negb (char_at arg 0 =? chr_dash)) eqn:Es.
  { eapply Hreads; [apply Hnon|done]. }
  destruct (char_at arg 1 =? chr_o).
  { destruct (char_at arg 2 =? 0); cbn [negb] in *; [|eapply Hreads; [apply reads_group|done]].
    unfold next_arg. unfold mbind at 1, ST_bind at 1. destruct rest as [|o rest].
    - apply (f_equal length) in Hr. rewrite length_drop in Hr. cbn in Hr. rewrite bool_decide_true by lia.
      exists (-1), c. by repeat (split; [done|]); left.
    - pose proof (f_equal length Hr) as Hl. rewrite length_drop in Hl. cbn in Hl. rewrite bool_decide_false by lia. cbn [Z.eqb].
      rewrite bind_get. cbn [argctr set_argctr]. assert (in_argv !! S (argctr c) = Some o) as ->.
      { by rewrite <- (Nat.add_0_r (S (argctr c))), <- lookup_drop, Hr. }
      destruct (reads_group o (set_argctr (S (argctr c)) c) L Hc HI) as (r & c' & E & H' & A & N & Hq). exists r, c'.
      split; [exact E|]. split; [done|]. cbn [argctr set_argctr nonopt] in A, N. split; [lia|].
      destruct Hq as [->|[-> Hq]]; [by left|right]. split; [done|]. eexists. split; [exact Hq|]. unfold seen_sep in *. rewrite A, N, Eh. f_equal.
      f_equal. rewrite <- Nat.add_1_r, <- drop_drop, Hr. done. }
  destruct ((char_at arg 1 =? chr_dash) && (char_at arg 2 =? 0)).
  - destruct (add_arg_args_ok (outargs c) arg (mem c) Hc) as (r & a' & h' & E & Ha & Hq).
    assert (add_arg arg c = Some (r, Ctx (data c) (argctr c) a' (opts c) (nonopt c) h')) as Ea
      by (unfold add_arg, mbind, ST_bind, with_heap; by rewrite E).
    rewrite (bind_step _ _ _ _ _ Ea).
    destruct Hq as [[-> ->]|[-> Hn]]; cbn [Z.eqb Pos.eqb]; [eexists _, _; by repeat (split; [done|]); left|].
    eexists _, _. split; [reflexivity|]. split; [done|]. split; [done|]. right. split; [done|]. exists []. rewrite app_nil_r. split; [done|].
    cbn [argctr set_nonopt]. rewrite Hr, Eh. unfold seen_sep. cbn [nonopt set_nonopt outargs app]. by rewrite bool_decide_true by lia.
  - eapply Hreads; [apply Hopt|done].
Qed.

Lemma parse_loop_reads fuel c L : (length in_argv - argctr c < fuel)%nat -> args_ok (outargs c) -> I L (data c) ->
  exists r c', parse_loop table proc in_argv fuel c = Some (r, c') /\ args_ok (outargs c') /\
    (r = -1 \/ r = 0 /\ I (L ++ handed (drop (argctr c) in_argv) (seen_sep c)) (data c')).
Proof.
  revert c L; induction fuel as [|fuel IH]; intros c L Hf Hc HI; [lia|].
  cbn [parse_loop]. rewrite bind_get. case_bool_decide as Hn.
  { rewrite drop_ge by done. exists 0, c. rewrite app_nil_r. by repeat (split; [done|]); right. }
  destruct (lookup_lt_is_Some_2 in_argv (argctr c) ltac:(lia)) as [arg Ha]. pose proof (drop_S _ _ _ Ha) as Hd. rewrite Ha. cbn [default from_option id].
  destruct (process_one_reads _ _ c L Hd Hc HI) as (r & c1 & E & H1 & A1 & Hr). erewrite bind_step by exact E.
  destruct Hr as [->|(-> & l & Hl & Eh)]; cbn [Z.eqb Pos.eqb]; [exists (-1), c1; by repeat (split; [done|]); left|].
  rewrite bind_modify. destruct (IH (set_argctr (S (argctr c1)) c1) (L ++ l)) as (r & c' & -> & H' & Hr); [cbn; lia|done|done|].
  exists r, c'. split; [done|]. split; [done|]. rewrite Hd, Eh, app_assoc. exact Hr.
Qed.

Lemma insert_out_data pos arg c c' r : insert_out (D:=D) pos arg c = Some (r, c') -> data c' = data c.
Proof.
  unfold insert_out, with_heap, mbind, ST_bind. destruct (fuse_opt_insert_arg _ _ _ _) as [[a h]|]; [|done]. by intros [= _ <-].
Qed.

Lemma parse_tail_data c c' r : parse_tail (D:=D) c = Some (r, c') -> data c' = data c.
Proof.
  unfold parse_tail. rewrite bind_get. intros (r1 & c1 & E1 & E2)%bind_Some.
  assert (data c1 = data c) as <-.
  { destruct (opts c) as [o|]; [|by injection E1 as _ <-]. apply bind_Some in E1 as (r2 & c2 & E3 & E4). apply insert_out_data in E3 as <-.
    destruct (r2 =? -1); [by injection E4 as _ <-|]. by apply insert_out_data in E4. }
  destruct (r1 =? -1); [by injection E2 as _ <-|]. unfold drop_separator in E2. rewrite bind_modify in E2. injection E2 as _ <-. by destruct (_ && _ && _).
Qed.

(** The output vector stays the parser's own, and its length is right. *)
Lemma parse_tail_allocated c c' : args_ok (outargs c) -> parse_tail (D:=D) c = Some (0, c') ->
  allocated (outargs c') = true /\ argc (outargs c') = length (args_list (outargs c')).
Proof.
  intros Hc. unfold parse_tail. rewrite bind_get. intros (r1 & c1 & E1 & E2)%bind_Some.
  assert (r1 =? -1 = false /\ c' = (fun c => let a := outargs c in if bool_decide (nonopt c <> 0%nat) && bool_decide (nonopt c = argc a)
       && streq (default [] (args_list a !! (argc a - 1)%nat)) [chr_dash; chr_dash]
    then put_outargs (0, FuseArgs (argc a - 1) (Some (take (argc a - 1) (args_list a))) (allocated a)) c else c) c1) as [Er ->].
  { destruct (r1 =? -1); [done|]. unfold drop_separator in E2. rewrite bind_modify in E2. by injection E2. }
  assert (allocated (outargs c1) = true /\ argc (outargs c1) = length (args_list (outargs c1))) as [Ha Hl1].
  { assert (forall a, args_ok a -> allocated a = true /\ argc a = length (args_list a)) as Hok by (intros a (v & Hv & ? & _ & ?); unfold args_list; by rewrite Hv).
    destruct (opts c) as [o|]; [|injection E1 as _ <-; by apply Hok]. apply bind_Some in E1 as (r2 & c2 & E3 & E4).
    destruct (insert_out_total 1 [chr_dash; chr_o] c Hc) as (r & c3 & E5 & H3 & Hr); [destruct Hc as (v & _ & _ & ? & _); lia|].
    rewrite E5 in E3. injection E3 as <- <-. destruct (Z.eqb_spec r (-1)) as [->|Hne]; [by injection E4 as <- _|]. destruct Hr as [?|[_ Hl]]; [done|].
    destruct (insert_out_total 2 o c3 H3) as (r' & c4 & E6 & H4 & _); [destruct Hc as (v & _ & _ & ? & _); lia|].
    rewrite E6 in E4. injection E4 as _ <-. by apply Hok. }
  cbv beta zeta. destruct (_ && _ && _); [|done]. split; [done|]. unfold args_list at 1. cbn. rewrite length_take. unfold args_list in *. lia.
Qed.
End Rule.

(** The rule: fuse_opt_parse ends; if it succeeds, the assertion holds for the
    whole command line. *)
Lemma parse_rule {D} `{OptData D} (I : list item -> D -> Prop) args (d : D) table proc h :
  (forall in_argv arg iso, reads I (process_gopt table proc in_argv arg iso) [Opt arg]) ->
  (forall arg, reads I (call_proc proc arg FUSE_OPT_KEY_NONOPT false) [Non arg]) ->
  argc args = length (args_list args) -> I [] d ->
  exists r args' d' h', fuse_opt_parse args d table proc h = Some (r, args', d', h') /\
    (r = -1 /\ args' = args \/ r = 0 /\ I (handed (drop 1 (args_list args)) false) d' /\ (args_list args <> [] -> allocated args' = true) /\
       argc args' = length (args_list args')).
Proof.
  intros Hopt Hnon Hn HI. unfold fuse_opt_parse, args_list in *. destruct (argv args) as [v|] eqn:Ev; [|exists 0, args, d, h; split; [done|right; rewrite ?Ev; by repeat (split; [done|])]].
  cbn [default from_option id] in Hn. case_bool_decide as Hz.
  { destruct v; [|cbn in *; lia]. exists 0, args, d, h. split; [done|right; rewrite ?Ev; by repeat (split; [done|])]. }
  rewrite Hn, firstn_all. destruct v as [|a0 rest]; [done|]. rewrite opt_parse_unfold. cbn [default from_option id drop].
  assert (exists r c, add_arg a0 (Ctx d 0 (FuseArgs 0 None false) None 0 h) = Some (r, c) /\
    (r = -1 \/ r = 0 /\ args_ok (outargs c) /\ data c = d /\ nonopt c = 0%nat)) as (r & c1 & -> & Hr).
  { destruct h as [|[] [|[] h]]; eexists _, _; (split; [reflexivity|]); auto; right; (split; [done|]); (split; [by exists [a0]|done]). }
  destruct Hr as [->|(-> & H1 & Hd & Hs)]; cbn [Z.eqb Pos.eqb]; [eexists _, _, _, _; split; [done|by left]|].
  destruct (parse_loop_reads table proc (a0 :: rest) I (Hopt _) Hnon (S (length (a0 :: rest))) (set_argctr 1 c1) []) as (r & c2 & -> & Hc2 & Hr);
    [cbn; lia|done|by cbn; rewrite Hd|].
  destruct Hr as [->|[-> Hr]]; cbn [Z.eqb Pos.eqb]; [eexists _, _, _, _; split; [done|by left]|].
  destruct (parse_tail_total c2 Hc2) as (r & c3 & Et & Hr3). rewrite Et.
  destruct Hr3 as [->| ->]; cbn [Z.eqb Pos.eqb]; eexists _, _, _, _; (split; [done|]); [|by left].
  right. split; [done|]. split; [|destruct (parse_tail_allocated _ _ Hc2 Et); by split]. rewrite (parse_tail_data _ _ _ Et). cbn [argctr set_argctr app drop] in Hr. unfold seen_sep in Hr. cbn [nonopt set_argctr] in Hr.
  by rewrite Hs in Hr.
Qed.

(** ** The effect of a command line

    For a table without separate parameters: what each option does to the
    structure, as a function. *)

(** The entries that an option matches, with their separators. *)
Fixpoint matches (table : list fuse_opt) (arg : bytes) : list (fuse_opt * nat) :=
  match table with
  | [] => []
  | o :: table => match match_template (templ o) arg with
                  | Some sep => (o, sep) :: matches table arg
                  | None => matches table arg
                  end
  end.

Section Effect.
Context {D : Type} `{OptData D} (table : list fuse_opt)
  (proc : option (bytes -> Z -> ST (D * fuse_args * heap) Z)) (in_argv : list bytes).

(** What the callback does to the structure, when it succeeds. *)
Context (eff : bytes -> Z -> D -> D).

Definition key_effect (arg : bytes) (key : Z) (d : D) : D :=
  if (key =? FUSE_OPT_KEY_DISCARD) || (key =? FUSE_OPT_KEY_KEEP) then d else eff arg key d.

Definition entry_effect (arg : bytes) (d : D) (m : fuse_opt * nat) : D :=
  let '(o, sep) := m in
  if offset o =? NO_OFFSET then key_effect arg (value o) d else
  if bool_decide (sep <> 0%nat) && negb (char_at (templ o) (S sep) =? 0) then
    let param := drop (if char_at (templ o) sep =? chr_eq then S sep else sep) arg in
    let format := drop (S sep) (templ o) in
    if char_at format 1 =? chr_s then store_str (offset o) param d else default d (scan format param (offset o) d)
  else store_int (offset o) (value o) d.

Definition item_effect (d : D) (i : item) : D :=
  match i with
  | Opt arg => match matches table arg with
               | [] => key_effect arg FUSE_OPT_KEY_OPT d
               | l => fold_left (entry_effect arg) l d
               end
  | Non arg => key_effect arg FUSE_OPT_KEY_NONOPT d
  end.

(** The callback is as [eff] says for the arguments that it is called with, or
    reports an error. *)
Definition proc_does (arg : bytes) (key : Z) : Prop :=
  match proc with
  | Some p => forall d a h, exists r d' h', p arg key (d, a, h) = Some (r, (d', a, h')) /\ (r = -1 \/ d' = eff arg key d)
  | None => forall d, eff arg key d = d
  end.

Definition no_space (o : fuse_opt) : Prop := Forall (fun c => c <> chr_space) (templ o).

Definition does (m : ST (fuse_opt_context D) Z) (f : D -> D) : Prop :=
  forall c, args_ok (outargs c) ->
    exists r c', m c = Some (r, c') /\ args_ok (outargs c') /\ argctr c' = argctr c /\ nonopt c' = nonopt c /\
      (r = -1 \/ r = 0 /\ data c' = f (data c)).

Lemma does_ret f : (forall d, f d = d) -> does (mret 0) f.
Proof. intros Hf c Hc. exists 0, c. repeat (split; [done|]). right. by rewrite Hf. Qed.

Lemma does_fail f : does (mret (-1)) f.
Proof. intros c Hc. exists (-1), c. repeat (split; [done|]). by left. Qed.

Lemma does_then m k f g : does m f -> does k g ->
  does (r ← m; if r =? -1 then mret (-1) else k) (fun d => g (f d)).
Proof.
  intros Hm Hk c Hc. destruct (Hm c Hc) as (r & c1 & E & H1 & A1 & N1 & Hr). rewrite (bind_step _ _ _ _ _ E).
  destruct Hr as [->|[-> Hd]]; cbn [Z.eqb Pos.eqb]; [exists (-1), c1; repeat (split; [done|]); by left|].
  destruct (Hk c1 H1) as (r & c2 & -> & H2 & A2 & N2 & Hr). exists r, c2. rewrite Hd in Hr.
  split; [done|]. split; [done|]. split; [congruence|]. split; [congruence|done].
Qed.

Lemma does_keep arg iso : does (keep (D:=D) arg iso) id.
Proof.
  intros c Hc. unfold keep. destruct iso.
  - unfold add_opt, with_heap, add_opt_common, mbind, ST_bind. destruct (mem c) as [|[] h]; eexists _, _; (split; [reflexivity|]); repeat (split; [done|]);
      [by right|by right|by left].
  - destruct (add_arg_args_ok (outargs c) arg (mem c) Hc) as (r & a' & h' & E & Ha & Hr). unfold add_arg, with_heap, mbind, ST_bind. rewrite E.
    eexists _, _. split; [reflexivity|]. split; [done|]. split; [done|]. split; [done|]. destruct Hr as [[-> _]|[-> _]]; [by left|by right].
Qed.

Lemma does_call_proc arg key iso : proc_does arg key -> does (call_proc proc arg key iso) (key_effect arg key).
Proof.
  intros Hp. unfold call_proc, key_effect. destruct (key =? FUSE_OPT_KEY_DISCARD); cbn [orb]; [by apply does_ret|].
  unfold proc_does in Hp. destruct proc as [p|].
  - destruct (key =? FUSE_OPT_KEY_KEEP); [apply does_keep|]. intros c Hc. unfold run_proc, mbind, ST_bind.
    destruct (Hp (data c) (outargs c) (mem c)) as (r & d' & h' & -> & Hr).
    destruct (Z.eqb_spec r (-1)) as [->|Hne]; cbn [orb]; [eexists _, _; split; [reflexivity|]; repeat (split; [done|]); by left|].
    destruct Hr as [? | ->]; [done|]. destruct (Z.eqb_spec r 0) as [->|Hz]; [eexists _, _; split; [reflexivity|]; repeat (split; [done|]); by right|].
    destruct (does_keep arg iso (Ctx (eff arg key (data c)) (argctr c) (outargs c) (opts c) (nonopt c) h') Hc) as (r' & c' & E & Hrest).
    exists r', c'. split; [exact E|]. exact Hrest.
  - intros c Hc. destruct (does_keep arg iso c Hc) as (r & c' & E & H1 & A & N & Hr). exists r, c'. repeat (split; [done|]).
    destruct Hr as [->|[-> Hd]]; [by left|right]. split; [done|]. rewrite Hd. destruct (key =? _); [done|by rewrite Hp].
Qed.

Lemma does_process_opt o sep arg iso : match_template (templ o) arg = Some sep ->
  (offset o = NO_OFFSET -> proc_does arg (value o)) ->
  does (process_opt proc o sep arg iso) (fun d => entry_effect arg d (o, sep)).
Proof.
  intros Hm Hp. unfold process_opt, entry_effect. destruct (Z.eqb_spec (offset o) NO_OFFSET) as [Ho|Ho].
  { intros c Hc. destruct (does_then _ _ _ _ (does_call_proc arg (value o) iso (Hp Ho)) (does_ret id (fun _ => eq_refl)) c Hc) as (r & c' & E & Hr).
    exists r, c'. split; [|exact Hr]. exact E. }
  destruct (bool_decide (sep <> 0%nat) && negb (char_at (templ o) (S sep) =? 0)) eqn:Es.
  - apply andb_true_iff in Es as [Es%bool_decide_eq_true Ez]. apply negb_true_iff, Z.eqb_neq in Ez.
    assert (char_at (drop (S sep) (templ o)) 0 = chr_percent) as Hpc.
    { unfold char_at. rewrite lookup_drop, Nat.add_0_r. destruct (match_template_percent _ _ _ Hm Es) as [?|E]; [done|exact E]. }
    unfold process_opt_param. rewrite Hpc. intros c Hc. destruct (char_at (drop (S sep) (templ o)) 1 =? chr_s).
    + unfold mbind, ST_bind, check, with_heap, malloc. cbn. destruct (mem c) as [|[] h]; cbn; eexists _, _; (split; [reflexivity|]); repeat (split; [done|]);
        [by right|by right|by left].
    + unfold mbind, ST_bind, check, get, put. cbn. destruct (scan _ _ _ _) as [d'|]; cbn; eexists _, _; (split; [reflexivity|]); repeat (split; [done|]);
        [by right|by left].
  - intros c Hc. eexists _, _. split; [reflexivity|]. repeat (split; [done|]). by right.
Qed.

Lemma sep_not_space o arg sep : no_space o -> match_template (templ o) arg = Some sep -> bool_decide (sep <> 0%nat) && (char_at (templ o) sep =? chr_space) = false.
Proof.
  intros Hn _. apply andb_false_iff. right. apply Z.eqb_neq. unfold char_at. destruct (templ o !! sep) as [c|] eqn:E; [|done].
  by apply (proj1 (Forall_lookup _ _) Hn) in E.
Qed.

Lemma does_gopt_loop tbl arg iso : Forall no_space tbl ->
  (forall o sep, In (o, sep) (matches tbl arg) -> offset o = NO_OFFSET -> proc_does arg (value o)) ->
  does (gopt_loop proc in_argv tbl arg iso) (fun d => fold_left (entry_effect arg) (matches tbl arg) d).
Proof.
  induction 1 as [|o tbl Ho _ IH]; intros Hp; cbn [gopt_loop matches]; [by apply does_ret|]. cbn [matches] in Hp.
  destruct (match_template (templ o) arg) as [sep|] eqn:Hm; [|by apply IH]. rewrite (sep_not_space o arg sep Ho Hm).
  cbn [fold_left]. apply (does_then _ _ (fun d => entry_effect arg d (o, sep))).
  - apply does_process_opt; [done|]. apply (Hp o sep). by left.
  - apply IH. intros o' sep' Hin. apply (Hp o' sep'). by right.
Qed.

Lemma find_opt_matches tbl arg : find_opt tbl arg = None <-> matches tbl arg = [].
Proof. induction tbl as [|o tbl IH]; [done|]. cbn. by destruct (match_template (templ o) arg). Qed.

Lemma does_process_gopt arg iso : Forall no_space table ->
  (forall o sep, In (o, sep) (matches table arg) -> offset o = NO_OFFSET -> proc_does arg (value o)) ->
  proc_does arg FUSE_OPT_KEY_OPT ->
  does (process_gopt table proc in_argv arg iso) (fun d => item_effect d (Opt arg)).
Proof.
  intros Hs Hp Hopt. unfold process_gopt. cbn [item_effect]. destruct (find_opt table arg) eqn:E.
  - destruct (matches table arg) as [|m l] eqn:Em; [by apply find_opt_matches in Em; rewrite Em in E|]. rewrite <- Em. apply does_gopt_loop; [done|].
    by rewrite Em.
  - apply find_opt_matches in E as ->. by apply does_call_proc.
Qed.
End Effect.

(** fuse_opt_parse ends; if it succeeds, the structure is the result of the
    options and arguments of the command line, one after the other. *)
Lemma parse_effect {D} `{OptData D} (eff : bytes -> Z -> D -> D) args (d : D) table proc h :
  Forall no_space table ->
  (forall arg o sep, In (o, sep) (matches table arg) -> offset o = NO_OFFSET -> proc_does proc eff arg (value o)) ->
  (forall arg, proc_does proc eff arg FUSE_OPT_KEY_OPT) -> (forall arg, proc_does proc eff arg FUSE_OPT_KEY_NONOPT) ->
  argc args = length (args_list args) ->
  exists r args' d' h', fuse_opt_parse args d table proc h = Some (r, args', d', h') /\
    (r = -1 /\ args' = args \/ r = 0 /\ d' = fold_left (item_effect table eff) (handed (drop 1 (args_list args)) false) d /\ (args_list args <> [] -> allocated args' = true) /\
       argc args' = length (args_list args')).
Proof.
  intros Hs Hp Hopt Hnon Hn. apply (parse_rule (fun L d' => d' = fold_left (item_effect table eff) L d)); [| |done|done].
  - intros in_argv arg iso c L Hc Hd. cbn beta in *. destruct (does_process_gopt table proc in_argv eff arg iso Hs (Hp arg) (Hopt arg) c Hc) as (r & c' & E & H1 & A & N & Hr).
    exists r, c'. repeat (split; [done|]). destruct Hr as [->|[-> Hr]]; [by left|right]. split; [done|]. by rewrite fold_left_app, Hr, Hd.
  - intros arg c L Hc Hd. cbn beta in *. destruct (does_call_proc proc eff arg FUSE_OPT_KEY_NONOPT false (Hnon arg) c Hc) as (r & c' & E & H1 & A & N & Hr).
    exists r, c'. repeat (split; [done|]). destruct Hr as [->|[-> Hr]]; [by left|right]. split; [done|]. by rewrite fold_left_app, Hr, Hd.
Qed.

(** ** Templates *)

Definition found {A} (o : option A) : bool := match o with Some _ => true | None => false end.

Definition exact_templ (t : bytes) : bool := match strchr t chr_eq, strchr t chr_space with None, None => true | _, _ => false end.

Lemma exact_match t arg sep : exact_templ t = true -> match_template t arg = Some sep -> arg = t.
Proof.
  unfold exact_templ, match_template. destruct (strchr t chr_eq); [done|]. destruct (strchr t chr_space); [done|]. intros _.
  unfold streq. case_bool_decide; [done|discriminate].
Qed.

(** The name before the value of a template with a value. *)
Definition value_templ (t : bytes) : option nat :=
  match strchr t chr_eq with
  | Some i => if (char_at t (S i) =? 0) || (char_at t (S i) =? chr_percent) then Some i else None
  | None => None
  end.

(** A simpler reading of match_template. *)
Definition template_match (t arg : bytes) : option nat :=
  match value_templ t with
  | Some i => if strneq arg t (S i) then Some i else None
  | None => if streq t arg then Some O else None
  end.

Lemma template_match_ok t arg : strchr t chr_space = None -> match_template t arg = template_match t arg.
Proof.
  unfold match_template, template_match, value_templ. destruct (strchr t chr_eq) as [i|] eqn:E; [|by intros ->]. intros _.
  destruct ((char_at t (S i) =? 0) || (char_at t (S i) =? chr_percent)) eqn:Ec; [|done].
  assert (char_at t i = chr_eq) as He. { apply strchr_Some in E. unfold char_at. by rewrite E. }
  assert (S i <= length t)%nat as Hl. { apply strchr_Some, lookup_lt_Some in E. lia. }
  rewrite He, Z.eqb_refl. unfold strneq.
  case_bool_decide as H1; cbn [andb]; case_bool_decide as H2; try done.
  - unfold streq. case_bool_decide as H3; [|done]. by subst.
  - exfalso. apply H1. pose proof (f_equal length H2) as H4. rewrite !length_take in H4. lia.
  - unfold streq. case_bool_decide as H3; [|done]. by subst.
Qed.

Lemma strchr_None s c : Forall (fun d => d <> c) s -> strchr s c = None.
Proof. induction 1 as [|d s Hd _ IH]; [done|]. cbn. destruct (Z.eqb_spec d c); [done|]. by rewrite IH. Qed.

(** [matches] for such a table. *)
Fixpoint matching (table : list fuse_opt) (arg : bytes) : list (fuse_opt * nat) :=
  match table with
  | [] => []
  | o :: table => match template_match (templ o) arg with
                  | Some sep => (o, sep) :: matching table arg
                  | None => matching table arg
                  end
  end.

Lemma matching_ok table arg : Forall no_space table -> matches table arg = matching table arg.
Proof. induction 1 as [|o table Ho _ IH]; [done|]. cbn. by rewrite template_match_ok, IH by (by apply strchr_None). Qed.

Lemma matches_In table arg o sep : In (o, sep) (matches table arg) -> In o table /\ match_template (templ o) arg = Some sep.
Proof.
  induction table as [|x table IH]; [done|]. cbn. destruct (match_template (templ x) arg) eqn:E; cbn; [|intros Hi; destruct (IH Hi); auto].
  intros [[= -> ->]|Hi]; [auto|]. destruct (IH Hi). auto.
Qed.

(** [no_space] of a table, as a test. *)
Lemma table_no_space table : forallb (fun o => forallb (fun c => negb (c =? chr_space)) (templ o)) table = true -> Forall no_space table.
Proof.
  intros Hb. apply Forall_forall. intros o Ho. apply list_elem_of_In in Ho. unfold no_space. apply Forall_forall. intros c Hc. apply list_elem_of_In in Hc.
  rewrite List.forallb_forall in Hb. specialize (Hb o Ho). rewrite List.forallb_forall in Hb. specialize (Hb c Hc). by apply negb_true_iff, Z.eqb_neq in Hb.
Qed.
