(* ===== verification/Mount.v ===== *)
(** * Mounting: libfuse/lib/mount.c and the paths of mount_util.c

    A file system program mounts itself: its mount options are taken from the
    command line with the option parser ([parse_mount_opts]), then mount(2) is
    called directly ([fuse_mount_sys]), and if that is not permitted, or the
    mount is to disappear with the program, the helper fusermount3 is run with
    the options as one string ([fuse_mount_fusermount]).

    System calls are inputs, and what the program does is recorded in
    [mount_state]. *)

From S2P Require Import Prelude FuseOpt Fusermount.

(** ** Options *)

Record mount_opts := MountOpts {
  mo_allow_other : Z; mo_flags : Z; mo_auto_unmount : Z; mo_blkdev : Z;
  mo_fsname : option bytes; mo_subtype : option bytes; mo_subtype_opt : option bytes;
  mo_mtab_opts : option bytes; mo_fusermount_opts : option bytes; mo_kernel_opts : option bytes; mo_max_read : Z }.

Definition KEY_KERN_FLAG : Z := 0.
Definition KEY_KERN_OPT : Z := 1.
Definition KEY_FUSERMOUNT_OPT : Z := 2.
Definition KEY_SUBTYPE_OPT : Z := 3.
Definition KEY_MTAB_OPT : Z := 4.
Definition KEY_ALLOW_OTHER : Z := 5.
Definition KEY_RO : Z := 6.

(** The offsets of the members. *)
Definition OFF_allow_other : Z := 0.
Definition OFF_auto_unmount : Z := 8.
Definition OFF_blkdev : Z := 12.
Definition OFF_fsname : Z := 16.
Definition OFF_subtype : Z := 24.
Definition OFF_max_read : Z := 64.

(** [sscanf("%u")]: a sign, then digits; stored in 32 bits. *)
Definition scan_u (s : bytes) : option Z :=
  match drop_spaces s with
  | c :: s' =>
      u32 <$> (if c =? 45 then Z.opp <$> digits_in 10 0 s' else if c =? 43 then digits_in 10 0 s' else digits_in 10 0 (c :: s'))
  | [] => None
  end.

#[export] Instance mount_opts_data : OptData mount_opts := {|
  store_int off v m :=
    if off =? OFF_allow_other then
      MountOpts v (mo_flags m) (mo_auto_unmount m) (mo_blkdev m) (mo_fsname m) (mo_subtype m) (mo_subtype_opt m) (mo_mtab_opts m) (mo_fusermount_opts m) (mo_kernel_opts m) (mo_max_read m)
    else if off =? OFF_auto_unmount then
      MountOpts (mo_allow_other m) (mo_flags m) v (mo_blkdev m) (mo_fsname m) (mo_subtype m) (mo_subtype_opt m) (mo_mtab_opts m) (mo_fusermount_opts m) (mo_kernel_opts m) (mo_max_read m)
    else if off =? OFF_blkdev then
      MountOpts (mo_allow_other m) (mo_flags m) (mo_auto_unmount m) v (mo_fsname m) (mo_subtype m) (mo_subtype_opt m) (mo_mtab_opts m) (mo_fusermount_opts m) (mo_kernel_opts m) (mo_max_read m)
    else m;
  store_str off s m :=
    if off =? OFF_fsname then
      MountOpts (mo_allow_other m) (mo_flags m) (mo_auto_unmount m) (mo_blkdev m) (Some s) (mo_subtype m) (mo_subtype_opt m) (mo_mtab_opts m) (mo_fusermount_opts m) (mo_kernel_opts m) (mo_max_read m)
    else if off =? OFF_subtype then
      MountOpts (mo_allow_other m) (mo_flags m) (mo_auto_unmount m) (mo_blkdev m) (mo_fsname m) (Some s) (mo_subtype_opt m) (mo_mtab_opts m) (mo_fusermount_opts m) (mo_kernel_opts m) (mo_max_read m)
    else m;
  scan fmt s off m :=
    (fun v => MountOpts (mo_allow_other m) (mo_flags m) (mo_auto_unmount m) (mo_blkdev m) (mo_fsname m) (mo_subtype m) (mo_subtype_opt m) (mo_mtab_opts m) (mo_fusermount_opts m) (mo_kernel_opts m) v) <$> scan_u s |}.

Definition FUSE_MOUNT_OPT (t : bytes) (off : Z) : fuse_opt := FuseOpt t off 1.

Definition fuse_mount_opts : list fuse_opt :=
  [FUSE_MOUNT_OPT (lit "allow_other") OFF_allow_other; FUSE_MOUNT_OPT (lit "blkdev") OFF_blkdev;
   FUSE_MOUNT_OPT (lit "auto_unmount") OFF_auto_unmount; FUSE_MOUNT_OPT (lit "fsname=%s") OFF_fsname;
   FUSE_MOUNT_OPT (lit "max_read=%u") OFF_max_read; FUSE_MOUNT_OPT (lit "subtype=%s") OFF_subtype;
   FUSE_OPT_KEY (lit "allow_other") KEY_KERN_OPT; FUSE_OPT_KEY (lit "auto_unmount") KEY_FUSERMOUNT_OPT;
   FUSE_OPT_KEY (lit "blkdev") KEY_FUSERMOUNT_OPT; FUSE_OPT_KEY (lit "fsname=") KEY_FUSERMOUNT_OPT;
   FUSE_OPT_KEY (lit "subtype=") KEY_SUBTYPE_OPT; FUSE_OPT_KEY (lit "blksize=") KEY_KERN_OPT;
   FUSE_OPT_KEY (lit "default_permissions") KEY_KERN_OPT; FUSE_OPT_KEY (lit "context=") KEY_KERN_OPT;
   FUSE_OPT_KEY (lit "fscontext=") KEY_KERN_OPT; FUSE_OPT_KEY (lit "defcontext=") KEY_KERN_OPT;
   FUSE_OPT_KEY (lit "rootcontext=") KEY_KERN_OPT; FUSE_OPT_KEY (lit "max_read=") KEY_KERN_OPT;
   FUSE_OPT_KEY (lit "user=") KEY_MTAB_OPT; FUSE_OPT_KEY (lit "-r") KEY_RO;
   FUSE_OPT_KEY (lit "ro") KEY_KERN_FLAG; FUSE_OPT_KEY (lit "rw") KEY_KERN_FLAG;
   FUSE_OPT_KEY (lit "suid") KEY_KERN_FLAG; FUSE_OPT_KEY (lit "nosuid") KEY_KERN_FLAG;
   FUSE_OPT_KEY (lit "dev") KEY_KERN_FLAG; FUSE_OPT_KEY (lit "nodev") KEY_KERN_FLAG;
   FUSE_OPT_KEY (lit "exec") KEY_KERN_FLAG; FUSE_OPT_KEY (lit "noexec") KEY_KERN_FLAG;
   FUSE_OPT_KEY (lit "async") KEY_KERN_FLAG; FUSE_OPT_KEY (lit "sync") KEY_KERN_FLAG;
   FUSE_OPT_KEY (lit "dirsync") KEY_KERN_FLAG; FUSE_OPT_KEY (lit "atime") KEY_KERN_FLAG;
   FUSE_OPT_KEY (lit "noatime") KEY_KERN_FLAG].

(** The table of mount.c, which has no column for unsafe flags. *)
Record kern_flag := KernFlag { kf_opt : bytes; kf_flag : Z; kf_on : bool }.

Definition kern_flags : list kern_flag :=
  [KernFlag (lit "rw") MS_RDONLY false; KernFlag (lit "ro") MS_RDONLY true;
   KernFlag (lit "suid") MS_NOSUID false; KernFlag (lit "nosuid") MS_NOSUID true;
   KernFlag (lit "dev") MS_NODEV false; KernFlag (lit "nodev") MS_NODEV true;
   KernFlag (lit "exec") MS_NOEXEC false; KernFlag (lit "noexec") MS_NOEXEC true;
   KernFlag (lit "async") MS_SYNCHRONOUS false; KernFlag (lit "sync") MS_SYNCHRONOUS true;
   KernFlag (lit "atime") MS_NOATIME false; KernFlag (lit "noatime") MS_NOATIME true;
   KernFlag (lit "dirsync") MS_DIRSYNC true].

(** [None] is the internal error, which aborts. *)
Definition set_mount_flag (s : bytes) (flags : Z) : option Z :=
  match find (fun m => streq (kf_opt m) s) kern_flags with
  | Some m => Some (if kf_on m then Z.lor flags (kf_flag m) else Z.ldiff flags (kf_flag m))
  | None => None
  end.

Definition with_flags (f : Z) (m : mount_opts) : mount_opts :=
  MountOpts (mo_allow_other m) f (mo_auto_unmount m) (mo_blkdev m) (mo_fsname m) (mo_subtype m) (mo_subtype_opt m) (mo_mtab_opts m) (mo_fusermount_opts m) (mo_kernel_opts m) (mo_max_read m).

Definition with_kernel_opts (o : option bytes) (m : mount_opts) : mount_opts :=
  MountOpts (mo_allow_other m) (mo_flags m) (mo_auto_unmount m) (mo_blkdev m) (mo_fsname m) (mo_subtype m) (mo_subtype_opt m) (mo_mtab_opts m) (mo_fusermount_opts m) o (mo_max_read m).

Definition with_fusermount_opts (o : option bytes) (m : mount_opts) : mount_opts :=
  MountOpts (mo_allow_other m) (mo_flags m) (mo_auto_unmount m) (mo_blkdev m) (mo_fsname m) (mo_subtype m) (mo_subtype_opt m) (mo_mtab_opts m) o (mo_kernel_opts m) (mo_max_read m).

Definition with_subtype_opt (o : option bytes) (m : mount_opts) : mount_opts :=
  MountOpts (mo_allow_other m) (mo_flags m) (mo_auto_unmount m) (mo_blkdev m) (mo_fsname m) (mo_subtype m) o (mo_mtab_opts m) (mo_fusermount_opts m) (mo_kernel_opts m) (mo_max_read m).

Definition with_mtab_opts (o : option bytes) (m : mount_opts) : mount_opts :=
  MountOpts (mo_allow_other m) (mo_flags m) (mo_auto_unmount m) (mo_blkdev m) (mo_fsname m) (mo_subtype m) (mo_subtype_opt m) o (mo_fusermount_opts m) (mo_kernel_opts m) (mo_max_read m).

(** [fuse_opt_add_opt(&mo->member, arg)] *)
Definition add_member (add : option bytes -> bytes -> ST heap (Z * option bytes)) (member : mount_opts -> option bytes)
    (put : option bytes -> mount_opts -> mount_opts) (arg : bytes) : ST (mount_opts * fuse_args * heap) Z := fun st =>
  let '(m, a, h) := st in
  match add (member m) arg h with
  | Some ((r, o), h) => Some (r, (put o m, a, h))
  | None => None
  end.

Definition fuse_mount_opt_proc (arg : bytes) (key : Z) : ST (mount_opts * fuse_args * heap) Z :=
  let set_flag (arg : bytes) : ST (mount_opts * fuse_args * heap) Z := fun st =>
    let '(m, a, h) := st in f ← set_mount_flag arg (mo_flags m); Some (0, (with_flags f m, a, h)) in
  if key =? KEY_RO then set_flag (lit "ro") else
  if key =? KEY_KERN_FLAG then set_flag arg else
  if key =? KEY_KERN_OPT then add_member fuse_opt_add_opt mo_kernel_opts with_kernel_opts arg else
  if key =? KEY_FUSERMOUNT_OPT then add_member fuse_opt_add_opt_escaped mo_fusermount_opts with_fusermount_opts arg else
  if key =? KEY_SUBTYPE_OPT then add_member fuse_opt_add_opt mo_subtype_opt with_subtype_opt arg else
  if key =? KEY_MTAB_OPT then add_member fuse_opt_add_opt mo_mtab_opts with_mtab_opts arg else
  mret 1.

Definition mount_opts0 : mount_opts := MountOpts 0 (Z.lor MS_NOSUID MS_NODEV) 0 0 None None None None None None 0.

(** The outer [None] is an abort; the structure is missing if there is no memory
    or an option is bad. *)
Definition parse_mount_opts (args : option fuse_args) (h : heap) : option (option mount_opts * option fuse_args * heap) :=
  match h with
  | false :: h => Some (None, args, h)
  | _ =>
      let h := drop 1 h in
      match args with
      | None => Some (Some mount_opts0, None, h)
      | Some a =>
          match fuse_opt_parse a mount_opts0 fuse_mount_opts (Some fuse_mount_opt_proc) h with
          | Some (r, a, m, h) => Some (if r =? -1 then None else Some m, Some a, h)
          | None => None
          end
      end
  end.

(** ** Mounting *)

(** [ms_answers] are the next answers of mount(2); descriptors that were closed,
    lazy unmounts and the runs of fusermount3 (mount point and option string)
    are recorded. *)
Record mount_state := MountState {
  ms_heap : heap; ms_answers : list (option Z); ms_calls : list mount_call; ms_closed : list Z;
  ms_umounts : list bytes; ms_helpers : list (bytes * option bytes) }.

Abbreviation MS := (ST mount_state).

Definition on_heap {A} (m : ST heap A) : MS A := fun s =>
  match m (ms_heap s) with
  | Some (a, h) => Some (a, MountState h (ms_answers s) (ms_calls s) (ms_closed s) (ms_umounts s) (ms_helpers s))
  | None => None
  end.

Definition mount2 (c : mount_call) : MS (option Z) := fun s =>
  match ms_answers s with
  | [] => Some (None, MountState (ms_heap s) [] (ms_calls s ++ [c]) (ms_closed s) (ms_umounts s) (ms_helpers s))
  | a :: l => Some (a, MountState (ms_heap s) l (ms_calls s ++ [c]) (ms_closed s) (ms_umounts s) (ms_helpers s))
  end.

Definition close_fd (fd : Z) : MS unit := modify (fun s =>
  MountState (ms_heap s) (ms_answers s) (ms_calls s) (ms_closed s ++ [fd]) (ms_umounts s) (ms_helpers s)).

Definition lazy_umount (mnt : bytes) : MS unit := modify (fun s =>
  MountState (ms_heap s) (ms_answers s) (ms_calls s) (ms_closed s) (ms_umounts s ++ [mnt]) (ms_helpers s)).

Definition run_helper (mnt : bytes) (opts : option bytes) : MS unit := modify (fun s =>
  MountState (ms_heap s) (ms_answers s) (ms_calls s) (ms_closed s) (ms_umounts s) (ms_helpers s ++ [(mnt, opts)])).

(** What the system says: the mode of the mount point, the device, the resolved
    mount point and the update of the mount table, and what fusermount3 run
    with an option string sends back, a descriptor or -1. *)
Record mount_env := MountEnv {
  me_ : caller; st_mode : option Z; dev_fd : Z + Z; newmnt : option bytes; mtab_res : Z; helper_fd : option bytes -> Z }.

Definition devname : bytes := lit "/dev/fuse".

Section Mount.
Context (env : mount_env).

(** The string printed into [tmp], 128 bytes. *)
Definition own_opts (fd mode : Z) : bytes :=
  take 127 (kernel_tail (me_ env) fd (Z.land mode S_IFMT) ++ group_tail (me_ env)).

Definition mount_type (mo : mount_opts) (sub : bool) : bytes :=
  base_type (negb (mo_blkdev mo =? 0)) ++ match mo_subtype mo with Some t => if sub then lit "." ++ t else [] | None => [] end.

Definition EPERM : Z := 1.

(** From the first call of mount(2) on.  The result comes with the structure,
    whose options the function has extended. *)
Definition mount_calls (mnt : bytes) (mo : mount_opts) (fd : Z) : MS Z :=
  let flags := mo_flags mo in
  let data := default [] (mo_kernel_opts mo) in
  let source := match mo_fsname mo with Some f => f | None => default devname (mo_subtype mo) end in
  let type := mount_type mo true in
  res ← mount2 (MountCall source mnt type flags data);
  r ← match res, mo_subtype mo with
      | Some e, Some t =>
          if e =? ENODEV then
            let type := mount_type mo false in
            let source := match mo_fsname mo with
                          | Some f => if negb (mo_blkdev mo =? 0) then source else t ++ lit "#" ++ f
                          | None => type
                          end in
            res ← mount2 (MountCall source mnt type flags data); mret (res, source, type)
          else mret (res, source, type)
      | _, _ => mret (res, source, type)
      end;
  let '(res, source, type) := r in
  match res with
  | Some e => _ ← close_fd fd; mret (if e =? EPERM then -2 else -1)
  | None =>
      if euid (me_ env) =? 0 then
        match newmnt env with
        | None => _ ← lazy_umount mnt; _ ← close_fd fd; mret (-1)
        | Some _ => if mtab_res env =? -1 then _ ← lazy_umount mnt; _ ← close_fd fd; mret (-1) else mret fd
        end
      else mret fd
  end.

Definition fuse_mount_sys (mnt : option bytes) (mo : mount_opts) : MS (Z * mount_opts) :=
  match mnt, st_mode env with
  | None, _ => mret (-1, mo)
  | _, None => mret (-1, mo)
  | Some mnt, Some mode =>
      if negb (mo_auto_unmount mo =? 0) then mret (-2, mo) else
      match dev_fd env with
      | inl _ => mret (-1, mo)
      | inr fd =>
          r ← on_heap (fuse_opt_add_opt (mo_kernel_opts mo) (own_opts fd mode));
          let '(res, o) := r in
          let mo := with_kernel_opts o mo in
          if res =? -1 then _ ← close_fd fd; mret (res, mo) else
          ok1 ← on_heap malloc; ok2 ← on_heap malloc;
          if negb ok1 || negb ok2 then _ ← close_fd fd; mret (res, mo) else
          res ← mount_calls mnt mo fd;
          mret (res, mo)
      end
  end.

Fixpoint add_kern_flags (flags : Z) (table : list kern_flag) (opts : option bytes) : MS (Z * option bytes) :=
  match table with
  | [] => mret (0, opts)
  | m :: table =>
      if kf_on m && has flags (kf_flag m) then
        r ← on_heap (fuse_opt_add_opt opts (kf_opt m));
        if r.1 =? -1 then mret (-1, r.2) else add_kern_flags flags table r.2
      else add_kern_flags flags table opts
  end.

Definition get_mnt_flag_opts (opts : option bytes) (flags : Z) : MS (Z * option bytes) :=
  r ← (if negb (has flags MS_RDONLY) then on_heap (fuse_opt_add_opt opts (lit "rw")) else mret (0, opts));
  if r.1 =? -1 then mret (-1, r.2) else add_kern_flags flags kern_flags r.2.

(** The child process is fusermount3 with [opts] and the mount point. *)
Definition fuse_mount_fusermount (mountpoint : option bytes) (opts : option bytes) : MS Z :=
  match mountpoint with
  | None => mret (-1)
  | Some mnt => _ ← run_helper mnt opts; mret (helper_fd env opts)
  end.

(** [mo->member && fuse_opt_add_opt(&mnt_opts, mo->member) == -1] *)
Definition add_if (opts member : option bytes) : MS (Z * option bytes) :=
  match member with
  | Some o => on_heap (fuse_opt_add_opt opts o)
  | None => mret (0, opts)
  end.

(** The fallback. *)
Definition mount_with_helper (mountpoint : option bytes) (mo : mount_opts) (mnt_opts : option bytes) : MS Z :=
  r ← add_if mnt_opts (mo_fusermount_opts mo);
  let mnt_opts := r.2 in
  if r.1 =? -1 then mret (-2) else
  match mo_subtype mo with
  | Some _ =>
      r ← on_heap (fuse_opt_add_opt None (default [] mnt_opts));
      if r.1 =? -1 then mret (-1) else
      r ← on_heap (fuse_opt_add_opt r.2 (default [] (mo_subtype_opt mo)));
      if r.1 =? -1 then mret (-1) else
      res ← fuse_mount_fusermount mountpoint r.2;
      if res =? -1 then fuse_mount_fusermount mountpoint mnt_opts else mret res
  | None => fuse_mount_fusermount mountpoint mnt_opts
  end.

(** The result: a descriptor, or an error, with the options of the structure as
    fuse_mount_sys has left them. *)
Definition fuse_kern_mount (mountpoint : option bytes) (mo : mount_opts) : MS (Z * mount_opts) :=
  r ← get_mnt_flag_opts None (mo_flags mo);
  if r.1 =? -1 then mret (-1, mo) else
  r ← add_if r.2 (mo_kernel_opts mo);
  if r.1 =? -1 then mret (-1, mo) else
  r ← add_if r.2 (mo_mtab_opts mo);
  if r.1 =? -1 then mret (-1, mo) else
  q ← fuse_mount_sys mountpoint mo;
  let '(res, mo) := q in
  if res =? -2 then res ← mount_with_helper mountpoint mo r.2; mret (res, mo) else mret (res, mo).
End Mount.

(** ** Paths *)

Fixpoint drop_slashes (s : bytes) : bytes :=
  match s with c :: s' => if c =? 47 then drop_slashes s' else s | [] => [] end.

(** The path without its trailing slashes. *)
Definition strip_slashes (p : bytes) : bytes := reverse (drop_slashes (reverse p)).

(** What is resolved, and the last component that is put behind it again. *)
Definition path_parts (orig : bytes) : bytes * option bytes :=
  let copy := strip_slashes orig in
  if bool_decide (copy = []) then (orig, None) else
  let r := reverse copy in
  let '(toresolv, lastcomp) :=
    match strchr r 47 with
    | None => (lit ".", copy)
    | Some n => (if bool_decide (drop (S n) r = []) then lit "/" else reverse (drop (S n) r), reverse (take n r))
    end in
  if streq lastcomp (lit ".") || streq lastcomp (lit "..") then (copy, None) else (toresolv, Some lastcomp).

(** [realpath] is the call of that name. *)
Definition fuse_mnt_resolve_path (realpath : bytes -> option bytes) (orig : bytes) : ST heap (option bytes) :=
  if bool_decide (orig = []) then mret None else
  ok ← malloc;
  if negb ok then mret None else
  let '(toresolv, lastcomp) := path_parts orig in
  match realpath toresolv with
  | None => mret None
  | Some buf =>
      ok ← malloc;
      if negb ok then mret None else
      mret (Some match lastcomp with
                 | None => buf
                 | Some l => if bool_decide (last buf = Some 47) then buf ++ l else buf ++ 47 :: l
                 end)
  end.

(** [sscanf(mountpoint, "/dev/fd/%u%n", &fd, &len) == 1 && len == strlen] *)
Definition fuse_mnt_parse_fuse_fd (mountpoint : bytes) : Z :=
  if begins_with mountpoint (lit "/dev/fd/") then
    let s := drop_spaces (drop 8 mountpoint) in
    let s' := match s with c :: s' => if (c =? 45) || (c =? 43) then s' else s | [] => [] end in
    match scan_u s with
    | Some fd => if forallb (fun c => (48 <=? c) && (c <=? 57)) s' then i32 fd else -1
    | None => -1
    end
  else -1.

(** ** Unmounting *)

Inductive umount_action :=
  | U_close (fd : Z)         (* close the device *)
  | U_mtab (mnt : bytes)     (* fuse_mnt_umount, lazily *)
  | U_umount2 (mnt : bytes)  (* umount2, lazily *)
  | U_helper (mnt : bytes).  (* fusermount3 -u -q -z -- mnt *)

(** [pollerr]: poll reports POLLERR on the device, the file system is unmounted
    already. *)
Definition fuse_kern_unmount (me : caller) (pollerr umount_ok fork_ok : bool) (mnt : bytes) (fd : Z) : list umount_action :=
  let close := if fd =? -1 then [] else [U_close fd] in
  if negb (fd =? -1) && pollerr then close else
  close ++
  if euid me =? 0 then [U_mtab mnt] else
  U_umount2 mnt :: (if umount_ok then [] else if fork_ok then [U_helper mnt] else []).

(** fuse_session_mount, behind the loop that opens the standard descriptors: the
    result, the descriptor and the mount point of the session; [valid] says
    whether a descriptor is open.  The mount point is not saved when there is
    no memory: then the file system is unmounted again. *)
Definition fuse_session_mount (env : mount_env) (valid : Z -> bool) (mnt : bytes) (mo : mount_opts) : MS (Z * Z * option bytes * mount_opts) :=
  let fd := fuse_mnt_parse_fuse_fd mnt in
  if negb (fd =? -1) then
    mret (if valid fd then (0, fd, None, mo) else (-1, -1, None, mo))
  else
    r ← fuse_kern_mount env (Some mnt) mo;
    let '(fd, mo) := r in
    if fd =? -1 then mret (-1, -1, None, mo) else
    ok ← on_heap malloc;
    mret (if (ok : bool) then (0, fd, Some mnt, mo) else (-1, fd, None, mo)).
