(* ===== verification/MountTheorems.v ===== *)
(** * Mounting: theorems

    The options of the command line arrive in the structure, mount(2) or the
    helper gets them, and the helper reads the string that it is given as the
    options that were meant. *)

From S2P Require Import Prelude FuseOpt OptRule Fusermount FusermountTheorems Mount.

(** ** Parsing *)

Definition joined (old : option bytes) (o : bytes) (esc : bool) : option bytes :=
  Some (default [] old ++ (if bool_decide (length (default [] old) = 0%nat) then [] else [chr_comma]) ++ esc_copy esc o).

(** What the callback does to the structure. *)
Definition mount_eff (arg : bytes) (key : Z) (m : mount_opts) : mount_opts :=
  if key =? KEY_RO then with_flags (default (mo_flags m) (set_mount_flag (lit "ro") (mo_flags m))) m else
  if key =? KEY_KERN_FLAG then with_flags (default (mo_flags m) (set_mount_flag arg (mo_flags m))) m else
  if key =? KEY_KERN_OPT then with_kernel_opts (joined (mo_kernel_opts m) arg false) m else
  if key =? KEY_FUSERMOUNT_OPT then with_fusermount_opts (joined (mo_fusermount_opts m) arg true) m else
  if key =? KEY_SUBTYPE_OPT then with_subtype_opt (joined (mo_subtype_opt m) arg false) m else
  if key =? KEY_MTAB_OPT then with_mtab_opts (joined (mo_mtab_opts m) arg false) m else m.

Lemma add_member_does add esc member put arg : (forall o x, add o x = add_opt_common o x esc) ->
  forall d a h, exists r d' h', add_member add member put arg (d, a, h) = Some (r, (d', a, h')) /\ (r = -1 \/ d' = put (joined (member d) arg esc) d).
Proof.
  intros Ha d a h. unfold add_member. rewrite Ha. unfold add_opt_common, mbind, ST_bind, malloc.
  destruct h as [|[] h]; cbn [negb]; eexists _, _, _; (split; [reflexivity|]); [by right|by right|by left].
Qed.

(** Every flag that the parser accepts is in the table of flags. *)
Definition flag_known (o : fuse_opt) : bool :=
  negb ((offset o =? NO_OFFSET) && (value o =? KEY_KERN_FLAG)) ||
  (exact_templ (templ o) && found (find (fun m => streq (kf_opt m) (templ o)) kern_flags)).

Lemma table_flags_known : Forall (fun o => flag_known o = true) fuse_mount_opts.
Proof. apply Forall_forall. intros o Ho. apply list_elem_of_In in Ho. revert o Ho. apply List.forallb_forall. vm_compute. reflexivity. Qed.

Lemma set_flag_known s f : found (find (fun m => streq (kf_opt m) s) kern_flags) = true -> exists f', set_mount_flag s f = Some f'.
Proof. unfold set_mount_flag. destruct (find _ _); [|done]. by eexists. Qed.

Lemma mount_proc_does arg o sep : In (o, sep) (matches fuse_mount_opts arg) -> offset o = NO_OFFSET ->
  proc_does (Some fuse_mount_opt_proc) mount_eff arg (value o).
Proof.
  intros Hin Ho. apply matches_In in Hin as [Hin Hm]. intros d a h. unfold fuse_mount_opt_proc, mount_eff.
  destruct (value o =? KEY_RO).
  { eexists _, _, _. split; [reflexivity|]. by right. }
  destruct (Z.eqb_spec (value o) KEY_KERN_FLAG) as [Hk|Hk].
  { pose proof (proj1 (Forall_forall _ _) table_flags_known o (proj2 (list_elem_of_In _ _) Hin)) as Hf. unfold flag_known in Hf. rewrite Ho, Hk in Hf. cbn [negb andb orb Z.eqb] in Hf.
    apply andb_true_iff in Hf as [He Hf]. apply (exact_match _ _ _ He) in Hm as ->. destruct (set_flag_known _ (mo_flags d) Hf) as [f' Ef].
    unfold mbind, option_bind. rewrite Ef. eexists _, _, _. split; [reflexivity|]. by right. }
  destruct (value o =? KEY_KERN_OPT); [by apply (add_member_does _ false)|]. destruct (value o =? KEY_FUSERMOUNT_OPT); [by apply (add_member_does _ true)|].
  destruct (value o =? KEY_SUBTYPE_OPT); [by apply (add_member_does _ false)|]. destruct (value o =? KEY_MTAB_OPT); [by apply (add_member_does _ false)|].
  eexists _, _, _. split; [reflexivity|]. by right.
Qed.

Lemma mount_table_no_space : Forall no_space fuse_mount_opts.
Proof. apply table_no_space. vm_compute. reflexivity. Qed.

Lemma mount_proc_other arg key : key = FUSE_OPT_KEY_OPT \/ key = FUSE_OPT_KEY_NONOPT -> proc_does (Some fuse_mount_opt_proc) mount_eff arg key.
Proof. intros [-> | ->] d a h; eexists _, _, _; (split; [reflexivity|]); by right. Qed.

(** What an option does to the structure. *)
Abbreviation mount_item := (item_effect fuse_mount_opts mount_eff).

(** C24: parse_mount_opts ends without the internal error of set_mount_flag,
    for every command line and every outcome of the allocations: every flag of
    the option table has an entry in the table of flags.  If it returns a
    structure, that is the result of the options of the command line, from -o
    groups with their escapes and from single arguments, applied in order to
    the defaults nosuid and nodev. *)
Theorem mount_options_read args h : argc args = length (args_list args) ->
  exists r a' h', parse_mount_opts (Some args) h = Some (r, a', h') /\
    (r = None \/ r = Some (fold_left mount_item (handed (drop 1 (args_list args)) false) mount_opts0)).
Proof.
  intros Hn.
  assert (forall h, exists r a' h', match fuse_opt_parse args mount_opts0 fuse_mount_opts (Some fuse_mount_opt_proc) h with
     | Some (r, a, m, h) => Some (if r =? -1 then None else Some m, Some a, h) | None => None end = Some (r, a', h') /\
     (r = None \/ r = Some (fold_left mount_item (handed (drop 1 (args_list args)) false) mount_opts0))) as Hp.
  { intros k. destruct (parse_effect mount_eff args mount_opts0 fuse_mount_opts (Some fuse_mount_opt_proc) k mount_table_no_space
      mount_proc_does (fun arg => mount_proc_other arg _ (or_introl eq_refl)) (fun arg => mount_proc_other arg _ (or_intror eq_refl)) Hn)
      as (r & a' & d' & h' & -> & [[-> ->]|(-> & -> & _)]); cbn [Z.eqb Pos.eqb]; eexists _, _, _; (split; [reflexivity|]); [by left|by right]. }
  unfold parse_mount_opts. destruct h as [|[] h]; [apply Hp|apply Hp|]. eexists _, _, _. split; [reflexivity|]. by left.
Qed.

Lemma mount_options_read_witness :
  let args := FuseArgs 5 (Some [lit "f3"; lit "-o"; lit "suid,fsname=a\,b,blksize=512"; lit "-r"; lit "/mnt"]) false in
  exists r a' h', parse_mount_opts (Some args) [] = Some (r, a', h') /\
    (r = None \/ r = Some (fold_left mount_item (handed (drop 1 (args_list args)) false) mount_opts0)) /\
    r = Some (MountOpts 0 5 0 0 (Some (lit "a,b")) None None None (Some (lit "fsname=a\,b")) (Some (lit "blksize=512")) 0).
Proof.
  intros args. destruct (mount_options_read args [] eq_refl) as (r & a' & h' & E & Hr). exists r, a', h'. split; [exact E|]. split; [exact Hr|].
  vm_compute in E. injection E as <- _ _. reflexivity.
Defined.

(** ** The options as they are meant *)

(** Options whose values are not cut by a comma.  The options that fusermount3
    does not know (context and its kin, user) are left out. *)
Inductive plain_opt : bytes -> Prop :=
  | P_flag m : In m kern_flags -> plain_opt (kf_opt m)
  | P_ro : plain_opt (lit "-r")
  | P_allow : plain_opt (lit "allow_other")
  | P_perm : plain_opt (lit "default_permissions")
  | P_blksize v : nocomma v -> plain_opt (lit "blksize=" ++ v)
  | P_max_read v : nocomma v -> plain_opt (lit "max_read=" ++ v)
  | P_auto : plain_opt (lit "auto_unmount")
  | P_blkdev : plain_opt (lit "blkdev")
  | P_fsname v : plain_opt (lit "fsname=" ++ v)
  | P_subtype v : nocomma v -> Forall (fun c => c <> BACKSLASH) v -> plain_opt (lit "subtype=" ++ v)
  | P_other o : matches fuse_mount_opts o = [] -> plain_opt o.

(** *** Words and commas *)

Fixpoint commas (l : list bytes) : bytes :=
  match l with
  | [] => []
  | [w] => w
  | w :: l => w ++ COMMA :: commas l
  end.

Definition joins (esc : bool) (l : list bytes) : option bytes := fold_left (fun o w => joined o w esc) l None.

Lemma commas_cons w l : l <> [] -> commas (w :: l) = w ++ COMMA :: commas l.
Proof. by destruct l. Qed.

Lemma commas_app a b : a <> [] -> b <> [] -> commas (a ++ b) = commas a ++ COMMA :: commas b.
Proof.
  intros Ha Hb. induction a as [|x a IH]; [done|]. destruct a as [|y a]; [cbn [app]; by rewrite commas_cons|].
  cbn [app] in *. rewrite (commas_cons x (y :: a)) by done. rewrite commas_cons by done. rewrite IH by done. by rewrite <- app_assoc.
Qed.

Lemma commas_nonempty l : l <> [] -> Forall (fun w => w <> []) l -> commas l <> [].
Proof. intros Hl Hn. destruct l as [|x [|y l]]; [done| |]; apply Forall_cons_1 in Hn as [Hx _]; [done|]. cbn. by destruct x. Qed.

Lemma joins_commas esc l : Forall (fun w => w <> []) l ->
  joins esc l = match l with [] => None | _ => Some (commas (esc_copy esc <$> l)) end.
Proof.
  induction l as [|w l IH] using rev_ind; [done|]. intros [Hl Hw]%Forall_app. unfold joins in *. rewrite fold_left_app. cbn [fold_left]. rewrite IH by done.
  destruct l as [|x l]; [done|]. unfold joined. cbn [default from_option id]. rewrite bool_decide_false.
  - rewrite fmap_app. cbn [fmap list_fmap]. change (esc_copy esc x :: list_fmap _ _ (esc_copy esc) l ++ [esc_copy esc w]) with ((esc_copy esc <$> (x :: l)) ++ [esc_copy esc w]).
    by rewrite commas_app.
  - intros E%length_zero_iff_nil. revert E. apply commas_nonempty; [done|]. apply Forall_fmap. eapply Forall_impl; [exact Hl|].
    intros y Hy. destruct y; [done|]. cbn. by destruct (esc && _).
Qed.

Lemma esc_copy_id o : esc_copy false o = o.
Proof. induction o as [|c o IH]; [done|]. cbn. by rewrite IH. Qed.

Lemma unescape_cons c s : c <> BACKSLASH -> unescape (c :: s) = c :: unescape s.
Proof. intros Hc. destruct s; [done|]. cbn [unescape]. by destruct (Z.eqb_spec c BACKSLASH). Qed.

Lemma unescape_esc v : unescape (esc_copy true v) = v.
Proof.
  induction v as [|c v IH]; [done|]. cbn [esc_copy andb]. destruct ((c =? chr_comma) || (c =? chr_backslash)) eqn:E; cbn [app].
  - cbn [unescape]. change (chr_backslash =? BACKSLASH) with true. cbv iota. by rewrite IH.
  - apply orb_false_iff in E as [_ E%Z.eqb_neq]. by rewrite unescape_cons, IH.
Qed.

Lemma unescape_plain v : Forall (fun c => c <> BACKSLASH) v -> unescape v = v.
Proof. induction 1 as [|c v Hc _ IH]; [done|]. by rewrite unescape_cons, IH. Qed.

Lemma opt_len_cons e c s : (e = true -> c <> BACKSLASH) -> c <> COMMA -> opt_len e (c :: s) = S (opt_len e s).
Proof.
  intros He Hc. cbn [opt_len]. destruct s as [|c' s]; [by destruct (Z.eqb_spec c COMMA)|].
  destruct e; cbn [andb]; [destruct (Z.eqb_spec c BACKSLASH); [by destruct (He eq_refl)|]|]; by destruct (Z.eqb_spec c COMMA).
Qed.

Lemma opt_len_tail e t : (t = [] \/ exists r, t = COMMA :: r) -> opt_len e t = O.
Proof. intros [->|[r ->]]; [done|]. cbn [opt_len]. change (COMMA =? BACKSLASH) with false. rewrite andb_false_r. by destruct r. Qed.

(** What may follow a word. *)
Definition tail_ok (t : bytes) : Prop := t = [] \/ exists r, t = COMMA :: r.

Lemma opt_len_plain e w t : nocomma w -> (e = true -> Forall (fun c => c <> BACKSLASH) w) -> tail_ok t -> opt_len e (w ++ t) = length w.
Proof.
  intros Hw He Ht. induction Hw as [|c w Hc Hw IH]; [by apply opt_len_tail|]. cbn [app length].
  rewrite opt_len_cons; [|intros E; by apply He, Forall_cons_1 in E as [? _]|done]. rewrite IH; [done|]. intros E. by apply He, Forall_cons_1 in E as [_ ?].
Qed.

Lemma opt_len_escaped v t : tail_ok t -> opt_len true (esc_copy true v ++ t) = length (esc_copy true v).
Proof.
  intros Ht. induction v as [|c v IH]; [by apply opt_len_tail|].
  cbn [esc_copy andb]. destruct ((c =? chr_comma) || (c =? chr_backslash)) eqn:E; cbn [app length].
  - cbn [opt_len andb]. change (chr_backslash =? BACKSLASH) with true. cbv iota. by rewrite IH.
  - apply orb_false_iff in E as [Ec%Z.eqb_neq Eb%Z.eqb_neq]. by rewrite opt_len_cons, IH.
Qed.

Lemma begins_tail w t p : tail_ok t -> nocomma p -> begins_with (w ++ t) p = begins_with w p.
Proof.
  intros Ht Hp. apply eq_true_iff_eq. rewrite !begins_with_spec. split; [|intros [u ->]; exists (u ++ t); by rewrite app_assoc].
  intros [u E]. destruct Ht as [->|[r ->]]; [exists u; by rewrite app_nil_r in E|].
  assert (length p <= length w)%nat as Hl.
  { destruct (decide (length p <= length w)%nat) as [|Hn]; [done|]. exfalso.
    assert ((w ++ COMMA :: r) !! length w = Some COMMA) as H1 by (by rewrite list_lookup_middle).
    rewrite E, lookup_app_l in H1 by lia. by apply (proj1 (Forall_lookup _ _) Hp) in H1. }
  exists (drop (length p) w). pose proof (f_equal (take (length p)) E) as Et. rewrite take_app_length, take_app_le in Et by done.
  by rewrite <- Et at 1; rewrite take_drop.
Qed.

(** *** The helper reads words *)

Lemma opt_eq_tail w t x : opt_eq (w ++ t) (length w) x = opt_eq w (length w) x.
Proof. unfold opt_eq, strneq. by rewrite take_app_length, firstn_all. Qed.

Lemma find_ext {A} (f g : A -> bool) l : (forall x, f x = g x) -> find f l = find g l.
Proof. intros E. induction l as [|x l IH]; [done|]. cbn. by rewrite E, IH. Qed.

Lemma flag_tail me w t : find_mount_flag me (w ++ t) (length w) = find_mount_flag me w (length w).
Proof. unfold find_mount_flag. rewrite (find_ext _ (fun m => opt_eq w (length w) (mf_opt m))); [done|]. intros m. apply opt_eq_tail. Qed.

Lemma do_option_tail me conf nk w t o : tail_ok t -> do_option me conf nk (w ++ t) (length w) o = do_option me conf nk w (length w) o.
Proof.
  intros Ht. unfold do_option, is_ignored, is_passed, wants_others, get_string_opt.
  rewrite !opt_eq_tail, flag_tail, take_app_length, firstn_all. rewrite !begins_tail by (try done; by repeat constructor). done.
Qed.

Definition escapes (w : bytes) : bool := begins_with w (lit "fsname=") || begins_with w (lit "subtype=").

Definition word_ok (w : bytes) : Prop := w <> [] /\ forall t, tail_ok t -> opt_len (escapes w) (w ++ t) = length w.

Fixpoint run_words (me : caller) (conf : config) (nk : bool) (W : list bytes) (o : optstate) : FM optstate :=
  match W with
  | [] => mret o
  | w :: W => o ← do_option me conf nk w (length w) o; run_words me conf nk W o
  end.

Lemma loop_words me conf nk W fuel o s : Forall word_ok W -> (length (commas W) <= fuel)%nat ->
  option_loop me conf fuel nk (commas W) o s = run_words me conf nk W o s.
Proof.
  revert fuel o s. induction W as [|w W IH]; intros fuel o s Hw Hf; [by destruct fuel|].
  apply Forall_cons_1 in Hw as [[Hn Hlen] HW].
  assert (exists t, tail_ok t /\ commas (w :: W) = w ++ t /\ drop (S (length w)) (w ++ t) = commas W) as (t & Ht & Ec & Ed).
  { destruct W as [|v W]; [exists []; split; [by left|]; split; [cbn; by rewrite app_nil_r|]; rewrite app_nil_r; by apply drop_ge; lia|].
    exists (COMMA :: commas (v :: W)). split; [right; by eexists|]. split; [by apply commas_cons|]. by rewrite drop_app_ge, Nat.sub_succ_l, Nat.sub_diag by lia. }
  rewrite Ec in *. cbn [run_words]. destruct w as [|c w]; [done|]. cbn [app length] in Hf. destruct fuel as [|fuel]; [lia|].
  cbn [option_loop]. change ((c :: w) ++ t) with (c :: w ++ t) at 1. cbv iota beta.
  replace (begins_with ((c :: w) ++ t) (lit "fsname=") || begins_with ((c :: w) ++ t) (lit "subtype=")) with (escapes (c :: w))
    by (unfold escapes; by rewrite !begins_tail by (try done; by repeat constructor)).
  rewrite Hlen by done. rewrite do_option_tail by done. unfold mbind, FM_bind. destruct (do_option _ _ _ _ _ _ _) as [[e|o'] s']; [done|].
  rewrite Ed. apply IH; [done|]. rewrite length_app in Hf. rewrite <- Ed. change ((c :: w) ++ t) with (c :: (w ++ t)). cbn [drop length]. rewrite length_drop, length_app. lia.
Qed.

(** *** What single words do *)

Lemma opt_eq_self w x : opt_eq w (length w) x = streq w x.
Proof.
  unfold opt_eq, strneq, streq. rewrite firstn_all. apply eq_true_iff_eq. rewrite andb_true_iff, !bool_decide_eq_true. split.
  - intros [El E]. rewrite E. by rewrite <- El, firstn_all.
  - intros ->. by rewrite firstn_all.
Qed.

(** Neither a string option, nor blkdev, nor auto_unmount, nor ignored. *)
Definition ordinary_word (w : bytes) : bool :=
  negb (begins_with w (lit "fsname=")) && negb (begins_with w (lit "subtype=")) && negb (streq w (lit "blkdev")) && negb (streq w (lit "auto_unmount")) &&
  negb (streq w (lit "nonempty") || begins_with w (lit "fd=") || begins_with w (lit "rootmode=") || begins_with w (lit "user_id=") || begins_with w (lit "group_id=")) &&
  negb (streq w (lit "large_read")).

Section Words.
Context (me : caller) (conf : config) (nk : bool).

Lemma do_ordinary w o : ordinary_word w = true ->
  do_option me conf nk w (length w) o =
    (if negb (uid me =? 0) && negb (user_allow_other conf) && (streq w (lit "allow_other") || streq w (lit "allow_root")) then fail F_error else
     match find_mount_flag me w (length w) with
     | Some (on, flag) =>
         mret (OptState (if on then Z.lor (opt_flags o) flag else Z.ldiff (opt_flags o) flag) (opt_d o) (fsname o) (subtype o) (blkdev o))
     | None =>
         if streq w (lit "default_permissions") || streq w (lit "allow_other") || begins_with w (lit "max_read=") || begins_with w (lit "blksize=")
         then mret (OptState (opt_flags o) (opt_d o ++ w ++ [COMMA]) (fsname o) (subtype o) (blkdev o))
         else fail F_exit
     end).
Proof.
  unfold ordinary_word. rewrite !andb_true_iff, !negb_true_iff. intros [[[[[H1 H2] H3] H4] H5] H6].
  unfold do_option, is_ignored, is_passed, wants_others. rewrite !opt_eq_self, H1, H2, H3, H4, H5, H6. cbn [andb]. by rewrite firstn_all.
Qed.

Inductive kern_word : bytes -> Prop :=
  | K_allow : kern_word (lit "allow_other")
  | K_perm : kern_word (lit "default_permissions")
  | K_blksize v : nocomma v -> kern_word (lit "blksize=" ++ v)
  | K_max_read v : nocomma v -> kern_word (lit "max_read=" ++ v).

Definition others_ok (w : bytes) : Prop := uid me = 0 \/ user_allow_other conf = true \/ w <> lit "allow_other".

Lemma not_flag w : forallb (fun m => negb (streq w (mf_opt m))) mount_flags_table = true -> find_mount_flag me w (length w) = None.
Proof.
  intros Hf. unfold find_mount_flag. rewrite (find_ext _ (fun m => streq w (mf_opt m))) by (intros m; apply opt_eq_self).
  destruct (find _ _) as [m|] eqn:E; [|done]. apply find_some in E as [Hm Hs]. rewrite List.forallb_forall in Hf. specialize (Hf m Hm). by rewrite Hs in Hf.
Qed.

Lemma do_kern_word w o : kern_word w -> others_ok w ->
  do_option me conf nk w (length w) o = mret (OptState (opt_flags o) (opt_d o ++ w ++ [COMMA]) (fsname o) (subtype o) (blkdev o)).
Proof.
  intros Hw Ho. assert (ordinary_word w = true /\ forallb (fun m => negb (streq w (mf_opt m))) mount_flags_table = true /\
    streq w (lit "default_permissions") || streq w (lit "allow_other") || begins_with w (lit "max_read=") || begins_with w (lit "blksize=") = true /\
    streq w (lit "allow_root") = false) as (H1 & H2 & H3 & H4).
  { destruct Hw as [| |v Hv|v Hv]; (split; [reflexivity|]); (split; [reflexivity|]); split; try reflexivity. }
  rewrite do_ordinary by done. rewrite not_flag by done. rewrite H3, H4, orb_false_r.
  destruct (negb (uid me =? 0) && negb (user_allow_other conf) && streq w (lit "allow_other")) eqn:E; [|done]. exfalso.
  rewrite !andb_true_iff, !negb_true_iff, Z.eqb_neq in E. destruct E as [[E1 E2] E3]. apply bool_decide_eq_true in E3.
  destruct Ho as [?|[?|?]]; [done|congruence|done].
Qed.

Lemma run_kern ks o s : Forall kern_word ks -> Forall others_ok ks ->
  run_words me conf nk ks o s = (inr (OptState (opt_flags o) (opt_d o ++ listed ks) (fsname o) (subtype o) (blkdev o)), s).
Proof.
  intros Hk. revert o. induction Hk as [|w ks Hw _ IH]; intros o Ho.
  - cbn [run_words]. unfold listed. cbn. rewrite app_nil_r. by destruct o.
  - apply Forall_cons_1 in Ho as [Hw' Ho]. cbn [run_words]. rewrite do_kern_word by done. unfold mbind at 1, FM_bind at 1, mret at 1, FM_ret at 1.
    rewrite IH by done. cbn [opt_flags opt_d fsname subtype blkdev]. change (listed (w :: ks)) with ((w ++ [COMMA]) ++ listed ks). by rewrite !app_assoc.
Qed.

(** The words that are escaped. *)
Inductive helper_word : bytes -> Prop :=
  | H_auto : helper_word (lit "auto_unmount")
  | H_blkdev : helper_word (lit "blkdev")
  | H_fsname v : helper_word (lit "fsname=" ++ v).

Definition with_auto (b : bool) (s : fm) : fm := Fm (fm_heap s) (answers s) (calls s) b (dropped s) (touched s).

Definition helper_effect (o : optstate) (w : bytes) : optstate :=
  if streq w (lit "blkdev") then OptState (opt_flags o) (opt_d o) (fsname o) (subtype o) true else
  if begins_with w (lit "fsname=") then OptState (opt_flags o) (opt_d o) (Some (drop 7 w)) (subtype o) (blkdev o) else o.

Definition auto_effect (s : fm) (w : bytes) : fm := if streq w (lit "auto_unmount") then with_auto true s else s.

Lemma get_string_ok (key v : bytes) (f : bytes -> optstate) s : fm_heap s = [] ->
  (v' ← get_string_opt (key ++ v) (length (key ++ v)) key; mret (f v')) s = (inr (f (unescape v)), s).
Proof.
  intros Hh. unfold get_string_opt. rewrite firstn_all, drop_app_length. unfold alloc, fm_malloc, mbind, FM_bind. by rewrite Hh.
Qed.

Lemma do_helper_word w o s : helper_word w -> fm_heap s = [] -> (uid me = 0 \/ w <> lit "blkdev") ->
  do_option me conf nk (esc_copy true w) (length (esc_copy true w)) o s = (inr (helper_effect o w), auto_effect s w).
Proof.
  intros Hw Hh Hb. destruct Hw as [| |v].
  - reflexivity.
  - destruct Hb as [Hb|Hb]; [|done]. unfold do_option. rewrite !opt_eq_self. change (streq _ (lit "blkdev")) with true. cbv iota beta.
    destruct (Z.eqb_spec (uid me) 0); [|done]. reflexivity.
  - change (esc_copy true (lit "fsname=" ++ v)) with (lit "fsname=" ++ esc_copy true v). unfold do_option.
    assert (forall u, begins_with (lit "fsname=" ++ u) (lit "fsname=") = true) as Hf by (intros u; apply begins_with_spec; by exists u). rewrite Hf.
    rewrite (get_string_ok (lit "fsname=") (esc_copy true v) (fun v => OptState (opt_flags o) (opt_d o) (Some v) (subtype o) (blkdev o))) by done.
    rewrite unescape_esc. unfold helper_effect. rewrite Hf. reflexivity.
Qed.

Lemma run_helper_words fs o s : Forall helper_word fs -> fm_heap s = [] -> (uid me = 0 \/ ~ In (lit "blkdev") fs) ->
  run_words me conf nk (esc_copy true <$> fs) o s = (inr (fold_left helper_effect fs o), fold_left auto_effect fs s).
Proof.
  intros Hf. revert o s. induction Hf as [|w fs Hw _ IH]; intros o s Hh Hb; [done|]. cbn [fmap list_fmap run_words fold_left].
  unfold mbind at 1, FM_bind at 1. rewrite do_helper_word; [|done|done|]. 2: { destruct Hb as [?|Hb]; [by left|right]. intros ->. apply Hb. by left. }
  apply IH; [unfold auto_effect; by destruct (streq _ _)|]. destruct Hb as [?|Hb]; [by left|right]. intros ?. apply Hb. by right.
Qed.

(** The subtype, which is not escaped. *)
Inductive subtype_word : bytes -> Prop :=
  | S_subtype v : nocomma v -> Forall (fun c => c <> BACKSLASH) v -> subtype_word (lit "subtype=" ++ v).

Definition subtype_effect (o : optstate) (w : bytes) : optstate :=
  OptState (opt_flags o) (opt_d o) (fsname o) (Some (drop 8 w)) (blkdev o).

Lemma run_subtype ss o s : Forall subtype_word ss -> fm_heap s = [] -> run_words me conf nk ss o s = (inr (fold_left subtype_effect ss o), s).
Proof.
  intros Hs. revert o. induction Hs as [|w ss [v Hv Hn] _ IH]; intros o Hh; [done|]. cbn [run_words fold_left]. unfold mbind at 1, FM_bind at 1.
  unfold do_option. assert (begins_with (lit "subtype=" ++ v) (lit "subtype=") = true) as Hb by (apply begins_with_spec; by exists v).
  change (begins_with (lit "subtype=" ++ v) (lit "fsname=")) with false. rewrite Hb. cbv iota.
  rewrite (get_string_ok (lit "subtype=") v (fun v => OptState (opt_flags o) (opt_d o) (fsname o) (Some v) (blkdev o))) by done.
  rewrite unescape_plain by done. by rewrite IH.
Qed.

(** *** Flags *)

Definition flag_bits : list Z := [MS_RDONLY; MS_NOSUID; MS_NODEV; MS_NOEXEC; MS_SYNCHRONOUS; MS_DIRSYNC; MS_NOATIME].

Definition flag_sets : list Z := foldr (fun b l => l ++ map (Z.lor b) l) [0] flag_bits.

(** The words that get_mnt_flag_opts writes. *)
Definition flag_words (f : Z) : list bytes :=
  (if negb (has f MS_RDONLY) then [lit "rw"] else []) ++ map kf_opt (List.filter (fun m => kf_on m && has f (kf_flag m)) kern_flags).

Definition flag_effect (x : Z) (w : bytes) : Z := default x (set_mount_flag w x).

Definition written_flags : list bytes := lit "rw" :: map kf_opt (List.filter kf_on kern_flags).

Lemma do_flag_word w o : In w written_flags ->
  do_option me conf nk w (length w) o = mret (OptState (flag_effect (opt_flags o) w) (opt_d o) (fsname o) (subtype o) (blkdev o)).
Proof.
  intros Hw.
  assert (forall w' on flag, ordinary_word w' = true -> streq w' (lit "allow_other") || streq w' (lit "allow_root") = false ->
    find_mount_flag me w' (length w') = Some (on, flag) -> (if (on : bool) then Z.lor (opt_flags o) flag else Z.ldiff (opt_flags o) flag) = flag_effect (opt_flags o) w' ->
    do_option me conf nk w' (length w') o = mret (OptState (flag_effect (opt_flags o) w') (opt_d o) (fsname o) (subtype o) (blkdev o))) as Hd.
  { intros w' on flag H1 H2 H3 H4. rewrite do_ordinary, H2, andb_false_r, H3, H4 by done. done. }
  cbn in Hw. repeat (destruct Hw as [<- | Hw]; [eapply Hd; reflexivity|]). done.
Qed.

Lemma run_flag_words W o s : Forall (fun w => In w written_flags) W ->
  run_words me conf nk W o s = (inr (OptState (fold_left flag_effect W (opt_flags o)) (opt_d o) (fsname o) (subtype o) (blkdev o)), s).
Proof.
  intros HW. revert o. induction HW as [|w W Hw _ IH]; intros o; [by destruct o|]. cbn [run_words fold_left]. rewrite do_flag_word by done.
  unfold mbind at 1, FM_bind at 1, mret at 1, FM_ret at 1. by rewrite IH.
Qed.
End Words.

Lemma flag_words_written f : Forall (fun w => In w written_flags) (flag_words f).
Proof.
  unfold flag_words. apply Forall_app. split; [destruct (negb _); repeat constructor|]. apply Forall_forall. intros w Hw. apply list_elem_of_In in Hw.
  apply in_map_iff in Hw as (m & <- & Hm). apply filter_In in Hm as [Hm Hf]. apply andb_true_iff in Hf as [Ho _]. right. apply in_map, filter_In. done.
Qed.

(** What is written is read back, with nosuid and nodev. *)
Lemma flags_read_back f : In f flag_sets -> fold_left flag_effect (flag_words f) (Z.lor MS_NOSUID MS_NODEV) = Z.lor f (Z.lor MS_NOSUID MS_NODEV).
Proof.
  assert (forallb (fun f => fold_left flag_effect (flag_words f) (Z.lor MS_NOSUID MS_NODEV) =? Z.lor f (Z.lor MS_NOSUID MS_NODEV)) flag_sets = true) as Hb by (vm_compute; reflexivity).
  intros Hf. rewrite List.forallb_forall in Hb. by apply Z.eqb_eq, Hb.
Qed.

Lemma flag_sets_closed f s f' : In f flag_sets -> set_mount_flag s f = Some f' -> In f' flag_sets.
Proof.
  assert (forallb (fun f => forallb (fun m => existsb (Z.eqb (if kf_on m then Z.lor f (kf_flag m) else Z.ldiff f (kf_flag m))) flag_sets) kern_flags) flag_sets = true) as Hb
    by (vm_compute; reflexivity).
  intros Hf. unfold set_mount_flag. destruct (find _ _) as [m|] eqn:E; [|done]. apply find_some in E as [Hm _]. intros [= <-].
  rewrite List.forallb_forall in Hb. specialize (Hb f Hf). rewrite List.forallb_forall in Hb. specialize (Hb m Hm).
  apply existsb_exists in Hb as (x & Hx & Ex%Z.eqb_eq). by rewrite Ex.
Qed.

(** *** What the structure says *)

Ltac mo := cbn [mo_allow_other mo_flags mo_auto_unmount mo_blkdev mo_fsname mo_subtype mo_subtype_opt mo_mtab_opts mo_fusermount_opts mo_kernel_opts mo_max_read
  with_flags with_kernel_opts with_fusermount_opts with_subtype_opt with_mtab_opts].

Definition over {A} (new old : option A) : option A := match new with Some a => Some a | None => old end.

(** The structure [m] holds the words [ks] for the kernel, [fs] for the helper
    and [ss] for the subtype. *)
Record described (m : mount_opts) (ks fs ss : list bytes) : Prop := Described {
  d_flags : In (mo_flags m) flag_sets;
  d_kernel : mo_kernel_opts m = joins false ks;
  d_kern_words : Forall kern_word ks;
  d_others : mo_allow_other m = 0 -> ~ In (lit "allow_other") ks;
  d_helper : mo_fusermount_opts m = joins true fs;
  d_helper_words : Forall helper_word fs;
  d_fsname : forall o, fsname (fold_left helper_effect fs o) = over (mo_fsname m) (fsname o);
  d_blkdev : forall o, blkdev (fold_left helper_effect fs o) = blkdev o || negb (mo_blkdev m =? 0);
  d_no_blkdev : mo_blkdev m = 0 -> ~ In (lit "blkdev") fs;
  d_auto : forall s, auto_unmount (fold_left auto_effect fs s) = auto_unmount s || negb (mo_auto_unmount m =? 0);
  d_subtypes : mo_subtype_opt m = joins false ss;
  d_subtype_words : Forall subtype_word ss;
  d_subtype : forall o, subtype (fold_left subtype_effect ss o) = over (mo_subtype m) (subtype o);
  d_no_subtype : mo_subtype m = None <-> ss = [];
  d_mtab : mo_mtab_opts m = None }.

Lemma described0 : described mount_opts0 [] [] [].
Proof.
  constructor; try done; try (by intros ? []); try (intros; cbn; by rewrite orb_false_r). vm_compute. tauto.
Qed.

Lemma joins_snoc esc l w : joins esc (l ++ [w]) = joined (joins esc l) w esc.
Proof. unfold joins. by rewrite fold_left_app. Qed.

Lemma mount_item_eq m o : mount_item m (Opt o) =
  match matching fuse_mount_opts o with [] => m | l => fold_left (entry_effect mount_eff o) l m end.
Proof. cbn [item_effect]. by rewrite (matching_ok _ _ mount_table_no_space). Qed.

Lemma described_flags m ks fs ss f s : described m ks fs ss -> f = flag_effect (mo_flags m) s -> described (with_flags f m) ks fs ss.
Proof.
  intros [] ->. constructor; try done. cbn [mo_flags with_flags]. unfold flag_effect. destruct (set_mount_flag s (mo_flags m)) as [f'|] eqn:E; [|done].
  by eapply flag_sets_closed.
Qed.

Lemma described_kern m ks fs ss w a r : described m ks fs ss -> kern_word w -> (w = lit "allow_other" -> a <> 0) -> (mo_allow_other m <> 0 -> a <> 0) ->
  described (with_kernel_opts (joined (mo_kernel_opts m) w false)
    (MountOpts a (mo_flags m) (mo_auto_unmount m) (mo_blkdev m) (mo_fsname m) (mo_subtype m) (mo_subtype_opt m) (mo_mtab_opts m) (mo_fusermount_opts m) (mo_kernel_opts m) r))
    (ks ++ [w]) fs ss.
Proof.
  intros [] Hw Ha Ha'. constructor; try done; mo.
  - by rewrite joins_snoc, <- d_kernel0.
  - apply Forall_app. split; [done|]. by constructor.
  - intros Hz Hin. apply in_app_iff in Hin as [Hin|[E|[]]]; [|by apply Ha]. revert Hin. apply d_others0. destruct (decide (mo_allow_other m = 0)); [done|]. by destruct Ha'.
Qed.

Lemma described_helper m ks fs ss w au bd fn a' b' fn' : described m ks fs ss -> helper_word w ->
  (forall o, fsname (helper_effect o w) = over fn' (fsname o)) -> fn = over fn' (mo_fsname m) ->
  (forall o, blkdev (helper_effect o w) = blkdev o || b') -> negb (bd =? 0) = negb (mo_blkdev m =? 0) || b' -> (w = lit "blkdev" -> b' = true) ->
  (forall s, auto_unmount (auto_effect s w) = auto_unmount s || a') -> negb (au =? 0) = negb (mo_auto_unmount m =? 0) || a' ->
  described (with_fusermount_opts (joined (mo_fusermount_opts m) w true)
    (MountOpts (mo_allow_other m) (mo_flags m) au bd fn (mo_subtype m) (mo_subtype_opt m) (mo_mtab_opts m) (mo_fusermount_opts m) (mo_kernel_opts m) (mo_max_read m)))
    ks (fs ++ [w]) ss.
Proof.
  intros [] Hw Hf -> Hb Ebd Hbw Ha Eau. constructor; try done; mo.
  - by rewrite joins_snoc, <- d_helper0.
  - apply Forall_app. split; [done|]. by constructor.
  - intros o. rewrite fold_left_app. cbn [fold_left]. rewrite Hf, d_fsname0. by destruct fn'.
  - intros o. rewrite fold_left_app. cbn [fold_left]. by rewrite Hb, d_blkdev0, Ebd, orb_assoc.
  - intros Hz Hin. rewrite Hz in Ebd. cbn in Ebd. symmetry in Ebd. apply orb_false_iff in Ebd as [Em Eb]. apply in_app_iff in Hin as [Hin|[E|[]]].
    + revert Hin. apply d_no_blkdev0. by apply negb_false_iff, Z.eqb_eq in Em.
    + rewrite Hbw in Eb; done.
  - intros s. rewrite fold_left_app. cbn [fold_left]. by rewrite Ha, d_auto0, Eau, orb_assoc.
Qed.

Lemma described_subtype m ks fs ss v : described m ks fs ss -> nocomma v -> Forall (fun c => c <> BACKSLASH) v ->
  described (with_subtype_opt (joined (mo_subtype_opt m) (lit "subtype=" ++ v) false)
    (MountOpts (mo_allow_other m) (mo_flags m) (mo_auto_unmount m) (mo_blkdev m) (mo_fsname m) (Some v) (mo_subtype_opt m) (mo_mtab_opts m) (mo_fusermount_opts m) (mo_kernel_opts m) (mo_max_read m)))
    ks fs (ss ++ [lit "subtype=" ++ v]).
Proof.
  intros [] Hv Hn. constructor; try done; mo.
  - by rewrite joins_snoc, <- d_subtypes0.
  - apply Forall_app. split; [done|]. by repeat constructor.
  - intros o. by rewrite fold_left_app.
  - split; [done|]. by destruct ss.
Qed.

Lemma begins_key k v : begins_with (k ++ v) k = true.
Proof. apply begins_with_spec. by exists v. Qed.

(** One option more. *)
Lemma described_step m ks fs ss o : described m ks fs ss -> plain_opt o ->
  exists ks' fs' ss', described (mount_item m (Opt o)) ks' fs' ss'.
Proof.
  intros D Ho. destruct Ho as [k Hk| | | |v Hv|v Hv| | |v|v Hv Hn|o Ho].
  - exists ks, fs, ss. rewrite mount_item_eq. cbn in Hk.
    repeat (destruct Hk as [<- | Hk]; [eapply described_flags; [exact D|reflexivity]|]). done.
  - exists ks, fs, ss. rewrite mount_item_eq. by apply (described_flags m ks fs ss _ (lit "ro")).
  - exists (ks ++ [lit "allow_other"]), fs, ss. rewrite mount_item_eq. by apply (described_kern m ks fs ss (lit "allow_other") 1 (mo_max_read m)); [|constructor|..].
  - exists (ks ++ [lit "default_permissions"]), fs, ss. rewrite mount_item_eq.
    pose proof (described_kern m ks fs ss (lit "default_permissions") (mo_allow_other m) (mo_max_read m) D K_perm ltac:(done) ltac:(done)) as H.
    by destruct m.
  - exists (ks ++ [lit "blksize=" ++ v]), fs, ss. rewrite mount_item_eq.
    pose proof (described_kern m ks fs ss (lit "blksize=" ++ v) (mo_allow_other m) (mo_max_read m) D (K_blksize v Hv) ltac:(done) ltac:(done)) as H.
    by destruct m.
  - exists (ks ++ [lit "max_read=" ++ v]), fs, ss. rewrite mount_item_eq.
    pose proof (fun r => described_kern m ks fs ss (lit "max_read=" ++ v) (mo_allow_other m) r D (K_max_read v Hv) ltac:(done) ltac:(done)) as H.
    assert (match matching fuse_mount_opts (lit "max_read=" ++ v) with [] => m | l => fold_left (entry_effect mount_eff (lit "max_read=" ++ v)) l m end =
      let m' := default m ((fun r => MountOpts (mo_allow_other m) (mo_flags m) (mo_auto_unmount m) (mo_blkdev m) (mo_fsname m) (mo_subtype m) (mo_subtype_opt m)
        (mo_mtab_opts m) (mo_fusermount_opts m) (mo_kernel_opts m) r) <$> scan_u v) in
      with_kernel_opts (joined (mo_kernel_opts m') (lit "max_read=" ++ v) false) m') as ->.
    { reflexivity. }
    destruct (scan_u v) as [r|]; [exact (H r)|]. specialize (H (mo_max_read m)). by destruct m.
  - exists ks, (fs ++ [lit "auto_unmount"]), ss. rewrite mount_item_eq.
    apply (described_helper m ks fs ss (lit "auto_unmount") 1 (mo_blkdev m) (mo_fsname m) true false None D H_auto);
      try done; intros; rewrite ?orb_false_r, ?orb_true_r; done.
  - exists ks, (fs ++ [lit "blkdev"]), ss. rewrite mount_item_eq.
    apply (described_helper m ks fs ss (lit "blkdev") (mo_auto_unmount m) 1 (mo_fsname m) false true None D H_blkdev);
      try done; intros; rewrite ?orb_false_r, ?orb_true_r; done.
  - exists ks, (fs ++ [lit "fsname=" ++ v]), ss. rewrite mount_item_eq.
    apply (described_helper m ks fs ss (lit "fsname=" ++ v) (mo_auto_unmount m) (mo_blkdev m) (Some v) false false (Some v) D (H_fsname v));
      try done; intros; rewrite ?orb_false_r, ?orb_true_r; try done; unfold helper_effect; by rewrite begins_key.
  - exists ks, fs, (ss ++ [lit "subtype=" ++ v]). rewrite mount_item_eq. exact (described_subtype m ks fs ss v D Hv Hn).
  - exists ks, fs, ss. cbn [item_effect]. rewrite Ho. exact D.
Qed.

Lemma described_all L : Forall plain_opt L -> exists ks fs ss, described (fold_left mount_item (Opt <$> L) mount_opts0) ks fs ss.
Proof.
  induction L as [|o L IH] using rev_ind; [exists [], [], []; exact described0|]. intros [HL Ho]%Forall_app. apply Forall_cons_1 in Ho as [Ho _].
  destruct (IH HL) as (ks & fs & ss & D). rewrite fmap_app, fold_left_app. by apply (described_step _ ks fs ss).
Qed.

(** ** The string for the helper *)

Lemma plain_word_ok w : nocomma w -> w <> [] -> escapes w = false -> word_ok w.
Proof. intros Hc Hn He. split; [done|]. intros t Ht. rewrite He. by apply opt_len_plain. Qed.

Lemma flag_words_ok f : Forall word_ok (flag_words f).
Proof.
  eapply Forall_impl; [apply flag_words_written|]. intros w Hw. cbn in Hw.
  repeat (destruct Hw as [<- | Hw]; [apply plain_word_ok; [by repeat constructor|done|reflexivity]|]). done.
Qed.

Lemma kern_words_ok ks : Forall kern_word ks -> Forall word_ok ks.
Proof.
  intros H. eapply Forall_impl; [exact H|]. intros w Hw. destruct Hw as [| |v Hv|v Hv]; apply plain_word_ok; try reflexivity; try done;
    try (by repeat constructor); apply nocomma_app; try done; by repeat constructor.
Qed.

Lemma helper_words_ok fs : Forall helper_word fs -> Forall word_ok (esc_copy true <$> fs).
Proof.
  intros H. apply Forall_fmap. eapply Forall_impl; [exact H|]. intros w Hw. destruct Hw as [| |v]; cbn [compose].
  - apply plain_word_ok; [by repeat constructor|done|reflexivity].
  - apply plain_word_ok; [by repeat constructor|done|reflexivity].
  - split; [done|]. intros t Ht. change (esc_copy true (lit "fsname=" ++ v)) with (lit "fsname=" ++ esc_copy true v) at 1.
    unfold escapes. rewrite begins_key. by apply opt_len_escaped.
Qed.

Lemma subtype_words_ok ss : Forall subtype_word ss -> Forall word_ok ss.
Proof.
  intros H. eapply Forall_impl; [exact H|]. intros w [v Hv Hn]. split; [done|]. intros t Ht. unfold escapes. rewrite begins_key, orb_true_r.
  apply opt_len_plain; [apply nocomma_app; [by repeat constructor|done]| |done]. intros _. apply Forall_app. split; [by repeat constructor|done].
Qed.

Lemma words_nonempty W : Forall word_ok W -> Forall (fun w => w <> []) W.
Proof. intros H. eapply Forall_impl; [exact H|]. by intros w [? _]. Qed.

(** Adding to an option string, with memory. *)
Lemma add_opt_ok o x st : ms_heap st = [] -> on_heap (fuse_opt_add_opt o x) st = Some ((0, joined o x false), st).
Proof. intros Hh. destruct st. cbn in Hh. subst. reflexivity. Qed.

Lemma joined_words W x : W <> [] -> Forall word_ok W -> joined (Some (commas W)) x false = Some (commas W ++ COMMA :: x).
Proof.
  intros Hn HW. unfold joined. cbn [default from_option id]. rewrite bool_decide_false, esc_copy_id; [done|].
  intros E%length_zero_iff_nil. revert E. apply commas_nonempty; [done|by apply words_nonempty].
Qed.

Lemma add_if_ok W l esc st : W <> [] -> Forall word_ok W -> Forall (fun w => w <> []) l -> ms_heap st = [] ->
  add_if (Some (commas W)) (joins esc l) st = Some ((0, Some (commas (W ++ (esc_copy esc <$> l)))), st).
Proof.
  intros Hn HW Hl Hh. rewrite joins_commas by done. destruct l as [|w l]; cbn [add_if]; [by rewrite app_nil_r|].
  rewrite add_opt_ok by done. rewrite joined_words by done. rewrite commas_app by done. done.
Qed.

Lemma flag_opts_ok f st : ms_heap st = [] -> get_mnt_flag_opts None f st = Some ((0, joins false (flag_words f)), st).
Proof.
  intros Hh.
  assert (forall t o, add_kern_flags f t o st = Some ((0, fold_left (fun o w => joined o w false) (map kf_opt (List.filter (fun m => kf_on m && has f (kf_flag m)) t)) o), st)) as Ht.
  { induction t as [|m t IH]; intros o; [done|]. cbn [add_kern_flags List.filter]. destruct (kf_on m && has f (kf_flag m)); [|apply IH].
    rewrite (bind_step _ _ _ _ _ (add_opt_ok _ _ _ Hh)). apply IH. }
  unfold get_mnt_flag_opts, joins, flag_words. rewrite fold_left_app. destruct (negb (has f MS_RDONLY)).
  - rewrite (bind_step _ _ _ _ _ (add_opt_ok _ _ _ Hh)). apply Ht.
  - rewrite bind_ret. apply Ht.
Qed.

Lemma flag_words_some f : flag_words f <> [].
Proof.
  unfold flag_words. destruct (has f MS_RDONLY) eqn:E; cbn [negb app]; [|done]. cbn [List.filter kern_flags kf_on kf_flag andb]. rewrite E. done.
Qed.

(** fuse_mount_sys does not run the helper and keeps the other options. *)
Definition quiet (m : mount_opts) (r : option ((Z * mount_opts) * mount_state)) (st : mount_state) : Prop :=
  exists res k st', r = Some ((res, with_kernel_opts k m), st') /\ ms_heap st' = [] /\ ms_helpers st' = ms_helpers st.

Lemma mount_calls_quiet env mnt m fd st : ms_heap st = [] ->
  exists res st', mount_calls env mnt m fd st = Some (res, st') /\ ms_heap st' = [] /\ ms_helpers st' = ms_helpers st.
Proof.
  intros Hh.
  assert (forall c s, ms_heap s = [] -> exists a s', mount2 c s = Some (a, s') /\ ms_heap s' = [] /\ ms_helpers s' = ms_helpers s) as H2.
  { intros c s Hs. unfold mount2. destruct (ms_answers s); by eexists _, _. }
  unfold mount_calls. destruct (H2 (MountCall match mo_fsname m with Some f => f | None => default devname (mo_subtype m) end mnt (mount_type m true) (mo_flags m) (default [] (mo_kernel_opts m))) st Hh)
    as (a1 & s1 & E1 & H1 & P1). rewrite (bind_step _ _ _ _ _ E1). clear E1.
  match goal with |- context [(?p ≫= ?k) s1] => assert (exists x s', p s1 = Some (x, s') /\ ms_heap s' = [] /\ ms_helpers s' = ms_helpers st) as (x & s2 & E2 & Hs2 & P2) end.
  { destruct a1 as [e|]; [|by eexists _, _]. destruct (mo_subtype m) as [t|]; [|by eexists _, _]. destruct (e =? ENODEV); [|by eexists _, _].
    match goal with |- context [(mount2 ?c ≫= _) s1] => destruct (H2 c s1 H1) as (a2 & s2 & E2 & Hs2 & P2) end.
    rewrite (bind_step _ _ _ _ _ E2). eexists _, _. split; [reflexivity|]. split; [done|congruence]. }
  rewrite (bind_step _ _ _ _ _ E2). destruct x as [[res src] ty]. destruct res as [e|]; [by eexists _, _|].
  destruct (euid (me_ env) =? 0); [|by eexists _, _]. destruct (newmnt env); [|by eexists _, _]. by destruct (mtab_res env =? -1); eexists _, _.
Qed.

Lemma with_kernel_same m : with_kernel_opts (mo_kernel_opts m) m = m.
Proof. by destruct m. Qed.

Lemma mount_sys_quiet env mnt m st : ms_heap st = [] -> quiet m (fuse_mount_sys env mnt m st) st.
Proof.
  intros Hh. assert (forall res, quiet m (Some ((res, m), st)) st) as Hret.
  { intros res. exists res, (mo_kernel_opts m), st. by rewrite with_kernel_same. }
  unfold fuse_mount_sys. destruct mnt as [mnt|]; [|apply Hret]. destruct (st_mode env) as [mode|]; [|apply Hret].
  destruct (negb (mo_auto_unmount m =? 0)); [apply Hret|]. destruct (dev_fd env) as [e|fd]; [apply Hret|].
  rewrite (bind_step _ _ _ _ _ (add_opt_ok _ _ _ Hh)). cbn [Z.eqb]. set (m' := with_kernel_opts _ m).
  assert (on_heap malloc st = Some (true, st)) as Ea by (destruct st; cbn in Hh; by subst).
  rewrite (bind_step _ _ _ _ _ Ea), (bind_step _ _ _ _ _ Ea). cbn [negb orb].
  destruct (mount_calls_quiet env mnt m' fd st Hh) as (res & st' & E & H1 & H2). rewrite (bind_step _ _ _ _ _ E). by eexists _, _, _.
Qed.

(** The helper reads the string as the structure says. *)
Definition read_as (me : caller) (conf : config) (nk : bool) (m : mount_opts) (s : fm) (str : bytes) : Prop :=
  exists o s', option_loop me conf (length str) nk str opt0 s = (inr o, s') /\
    opt_flags o = Z.lor (mo_flags m) (Z.lor MS_NOSUID MS_NODEV) /\
    opt_d o = match mo_kernel_opts m with Some k => k ++ [COMMA] | None => [] end /\
    fsname o = mo_fsname m /\ blkdev o = negb (mo_blkdev m =? 0) /\
    (subtype o = mo_subtype m \/ subtype o = None) /\
    auto_unmount s' = auto_unmount s || negb (mo_auto_unmount m =? 0).

Lemma run_words_app me conf nk A B o s : run_words me conf nk (A ++ B) o s = (o ← run_words me conf nk A o; run_words me conf nk B o) s.
Proof.
  revert o s. induction A as [|w A IH]; intros o s; [done|]. cbn [app run_words]. unfold mbind, FM_bind in *.
  destruct (do_option _ _ _ _ _ _ _) as [[e|o'] s']; [done|]. apply IH.
Qed.

Lemma listed_commas ks : ks <> [] -> listed ks = commas ks ++ [COMMA].
Proof.
  induction ks as [|w ks IH]; [done|]. intros _. change (listed (w :: ks)) with ((w ++ [COMMA]) ++ listed ks).
  destruct ks as [|v ks]; [unfold listed; cbn; by rewrite app_nil_r|]. rewrite IH by done. rewrite (commas_cons w (v :: ks)) by done. rewrite <- !app_assoc. done.
Qed.

Lemma helper_effect_kept fs o : opt_flags (fold_left helper_effect fs o) = opt_flags o /\ opt_d (fold_left helper_effect fs o) = opt_d o /\ subtype (fold_left helper_effect fs o) = subtype o.
Proof.
  revert o. induction fs as [|w fs IH]; intros o; [done|]. cbn [fold_left]. destruct (IH (helper_effect o w)) as (-> & -> & ->).
  unfold helper_effect. destruct (streq _ _); [done|]. by destruct (begins_with _ _).
Qed.

Lemma subtype_effect_kept ss o : let o' := fold_left subtype_effect ss o in
  opt_flags o' = opt_flags o /\ opt_d o' = opt_d o /\ fsname o' = fsname o /\ blkdev o' = blkdev o.
Proof. revert o. induction ss as [|w ss IH]; intros o; [done|]. cbn [fold_left]. by destruct (IH (subtype_effect o w)) as (-> & -> & -> & ->). Qed.

Lemma auto_heap fs s : fm_heap (fold_left auto_effect fs s) = fm_heap s.
Proof. revert s. induction fs as [|w fs IH]; intros s; [done|]. cbn [fold_left]. rewrite IH. unfold auto_effect. by destruct (streq _ _). Qed.

Lemma words_read me conf nk m ks fs ss tail s : described m ks fs ss -> fm_heap s = [] ->
  (uid me = 0 \/ mo_blkdev m = 0) -> (uid me = 0 \/ user_allow_other conf = true \/ mo_allow_other m = 0) -> tail = [] \/ tail = ss ->
  read_as me conf nk m s (commas (flag_words (mo_flags m) ++ ks ++ (esc_copy true <$> fs) ++ tail)).
Proof.
  intros D Hh Hb Ho Ht. destruct D.
  assert (Forall subtype_word tail) as Htw by (by destruct Ht as [->| ->]).
  unfold read_as. rewrite loop_words; [|apply Forall_app; split; [apply flag_words_ok|]; apply Forall_app; split; [by apply kern_words_ok|]; apply Forall_app; split; [by apply helper_words_ok|by apply subtype_words_ok]|done].
  rewrite run_words_app. unfold mbind at 1, FM_bind at 1. rewrite run_flag_words by apply flag_words_written.
  rewrite run_words_app. unfold mbind at 1, FM_bind at 1. rewrite run_kern; [|done|].
  2: { apply Forall_forall. intros w Hw. destruct Ho as [?|[?|Hz]]; [by left|by right; left|]. right; right. intros ->. apply list_elem_of_In in Hw. by apply d_others0. }
  rewrite run_words_app. unfold mbind at 1, FM_bind at 1. rewrite run_helper_words; [|done|done|destruct Hb; [by left|right; by apply d_no_blkdev0]].
  rewrite run_subtype; [|done|by rewrite auto_heap]. eexists _, _. split; [reflexivity|].
  destruct (subtype_effect_kept tail (fold_left helper_effect fs (OptState (fold_left flag_effect (flag_words (mo_flags m)) (opt_flags opt0)) ([] ++ listed ks) None None false))) as (E1 & E2 & E3 & E4).
  destruct (helper_effect_kept fs (OptState (fold_left flag_effect (flag_words (mo_flags m)) (opt_flags opt0)) ([] ++ listed ks) None None false)) as (F1 & F2 & F3).
  cbn [opt0 opt_flags opt_d fsname subtype blkdev] in *. rewrite E1, E2, E3, E4, F1, F2, d_fsname0, d_blkdev0, d_auto0. cbn [opt_flags opt_d fsname blkdev app orb].
  split; [by apply flags_read_back|]. split.
  { rewrite d_kernel0, joins_commas by (by apply words_nonempty, kern_words_ok). destruct ks as [|w ks]; [done|].
    rewrite listed_commas by done. f_equal. f_equal. change (esc_copy false w :: (esc_copy false <$> ks)) with (esc_copy false <$> (w :: ks)).
    clear. induction (w :: ks) as [|x l IH]; [done|]. cbn [fmap list_fmap]. by rewrite esc_copy_id, <- IH. }
  split; [by destruct (mo_fsname m)|]. split; [done|]. split; [|done].
  destruct Ht as [->| ->]; [right; exact F3|]. rewrite d_subtype0. left. destruct (mo_subtype m); [done|exact F3].
Qed.

(** The fallback runs the helper with the words collected, with or without the
    subtype. *)
Lemma helper_runs env mnt m m' ks fs ss W st : described m' ks fs ss -> mo_fusermount_opts m = mo_fusermount_opts m' -> mo_subtype m = mo_subtype m' ->
  mo_subtype_opt m = mo_subtype_opt m' -> W <> [] -> Forall word_ok W -> ms_heap st = [] ->
  exists res st' hs, mount_with_helper env (Some mnt) m (Some (commas W)) st = Some (res, st') /\ ms_helpers st' = ms_helpers st ++ hs /\
    Forall (fun call => exists tail, (tail = [] \/ tail = ss) /\ call = (mnt, Some (commas (W ++ (esc_copy true <$> fs) ++ tail)))) hs.
Proof.
  intros [] E1 E2 E3 Hn HW Hh. unfold mount_with_helper. rewrite E1, E2, E3, d_helper0, d_subtypes0.
  assert (Forall (fun w => w <> []) fs) as Hfn by (eapply Forall_impl; [exact d_helper_words0|]; by intros w []).
  rewrite (bind_step _ _ _ _ _ (add_if_ok W fs true st Hn HW Hfn Hh)). cbn [fst snd Z.eqb]. set (V := W ++ (esc_copy true <$> fs)).
  assert (V <> []) as HVn by (unfold V; by destruct W). assert (Forall word_ok V) as HV by (apply Forall_app; split; [done|by apply helper_words_ok]).
  assert (forall tail (st0 : mount_state), tail = [] \/ tail = ss -> exists res st',
    fuse_mount_fusermount env (Some mnt) (Some (commas (V ++ tail))) st0 = Some (res, st') /\ ms_helpers st' = ms_helpers st0 ++ [(mnt, Some (commas (W ++ (esc_copy true <$> fs) ++ tail)))]) as Hrun.
  { intros tail st0 _. rewrite (app_assoc W). fold V. by eexists _, _. }
  destruct (mo_subtype m') as [t|] eqn:Et.
  - assert (ss <> []) as Hss by (intros Hz; apply d_no_subtype0 in Hz; done).
    assert (Forall word_ok ss) as Hsw by (by apply subtype_words_ok).
    rewrite (bind_step _ _ _ _ _ (add_opt_ok _ _ _ Hh)). cbn [fst snd Z.eqb].
    assert (joined None (default [] (Some (commas V))) false = Some (commas V)) as -> by (unfold joined; cbn; by rewrite esc_copy_id).
    rewrite (bind_step _ _ _ _ _ (add_opt_ok _ _ _ Hh)). cbn [fst snd Z.eqb]. rewrite joined_words by done.
    replace (commas V ++ COMMA :: default [] (joins false ss)) with (commas (V ++ ss)).
    2: { rewrite commas_app by done. f_equal. f_equal. rewrite joins_commas by (by apply words_nonempty). destruct ss as [|x ss']; [done|]. cbn [default from_option id].
         f_equal. symmetry. clear. induction (x :: ss') as [|y l IH]; [done|]. cbn [fmap list_fmap]. by rewrite esc_copy_id, IH. }
    destruct (Hrun ss st (or_intror eq_refl)) as (r1 & s1 & Q1 & P1). rewrite (bind_step _ _ _ _ _ Q1).
    destruct (r1 =? -1); [|eexists _, _, _; split; [reflexivity|]; split; [exact P1|]; constructor; [exists ss; by split; [right|]|constructor]].
    destruct (Hrun [] s1 (or_introl eq_refl)) as (r2 & s2 & Q2 & P2). rewrite app_nil_r in Q2. rewrite Q2.
    eexists _, _, _. split; [reflexivity|]. rewrite P2, P1, <- app_assoc. split; [reflexivity|].
    constructor; [exists ss; by split; [right|]|constructor; [exists []; by split; [left|]|constructor]].
  - destruct (Hrun [] st (or_introl eq_refl)) as (r2 & s2 & Q2 & P2). rewrite app_nil_r in Q2. rewrite Q2.
    eexists _, _, _. split; [reflexivity|]. split; [exact P2|]. constructor; [exists []; by split; [left|]|constructor].
Qed.

(** C23: Mount options survive the way through the helper, when all of them are
    of [plain_opt]: the flags (ro, suid, ...), -r, allow_other,
    default_permissions, auto_unmount, blkdev, blksize= and max_read= with values
    without commas, fsname= with any value, subtype= with a value without commas
    and backslashes, and options that the library does not take for itself.  Not
    among them are context=, fscontext=, defcontext=, rootcontext= and user=,
    with which fusermount3 exits.  For every list of such options, when no
    allocation fails, fuse_kern_mount runs to its end, and every option string
    that it starts fusermount3 with is read by fusermount3 without an error and
    as the same options: the same flags with nosuid and nodev added, the same
    string for the kernel, the same name, the same subtype or, in a second
    attempt, none, and blkdev and auto_unmount exactly if they were given.  The
    caller must be allowed to use them: blkdev needs root, allow_other root or
    user_allow_other in the configuration. *)
Theorem helper_gets_options env mnt L me conf nk st s :
  Forall plain_opt L -> ms_heap st = [] -> fm_heap s = [] ->
  let m := fold_left mount_item (Opt <$> L) mount_opts0 in
  (uid me = 0 \/ mo_blkdev m = 0) -> (uid me = 0 \/ user_allow_other conf = true \/ mo_allow_other m = 0) ->
  exists res m' st' hs, fuse_kern_mount env (Some mnt) m st = Some ((res, m'), st') /\ ms_helpers st' = ms_helpers st ++ hs /\
    Forall (fun call => exists str, call = (mnt, Some str) /\ read_as me conf nk m s str) hs.
Proof.
  intros HL Hh Hs m Hb Ho. destruct (described_all L HL) as (ks & fs & ss & D). fold m in D. pose proof D as D0. destruct D0.
  pose proof (flag_words_some (mo_flags m)) as Hf. pose proof (flag_words_ok (mo_flags m)) as Hfw.
  assert (Forall word_ok ks) as Hkw by (by apply kern_words_ok).
  unfold fuse_kern_mount. rewrite (bind_step _ _ _ _ _ (flag_opts_ok _ _ Hh)). cbn [fst snd Z.eqb].
  rewrite joins_commas by (by apply words_nonempty). destruct (flag_words (mo_flags m)) as [|w0 W0] eqn:EW; [done|]. rewrite <- EW in *.
  assert (forall l : list bytes, esc_copy false <$> l = l) as Hid by (intros l; induction l as [|x l IH]; [done|]; cbn [fmap list_fmap]; by rewrite esc_copy_id, IH).
  rewrite Hid, d_kernel0. rewrite (bind_step _ _ _ _ _ (add_if_ok _ ks false st Hf Hfw (words_nonempty _ Hkw) Hh)). cbn [fst snd Z.eqb]. rewrite Hid, d_mtab0.
  cbn [add_if]. rewrite bind_ret. cbn [fst snd Z.eqb].
  destruct (mount_sys_quiet env (Some mnt) m st Hh) as (res & k & st1 & E1 & H1 & P1). rewrite (bind_step _ _ _ _ _ E1).
  destruct (res =? -2); [|exists res, (with_kernel_opts k m), st1, []; rewrite app_nil_r; by repeat split].
  destruct (helper_runs env mnt (with_kernel_opts k m) m ks fs ss (flag_words (mo_flags m) ++ ks) st1 D eq_refl eq_refl eq_refl) as (res2 & st2 & hs & E2 & P2 & F2);
    [by destruct (flag_words (mo_flags m))|by apply Forall_app|done|]. rewrite (bind_step _ _ _ _ _ E2).
  exists res2, (with_kernel_opts k m), st2, hs. split; [reflexivity|]. split; [congruence|]. eapply Forall_impl; [exact F2|].
  intros call (tail & Ht & ->). eexists. split; [reflexivity|]. rewrite <- app_assoc. by apply (words_read me conf nk m ks fs ss tail s D).
Qed.

(** An ordinary user mounts with auto_unmount, so that the helper is run; it is
    run again without the subtype, as it fails in this environment. *)
Lemma helper_gets_options_witness :
  let me := Caller 1000 100 1000 (Some (lit "joe")) in
  let env := MountEnv me (Some S_IFDIR) (inr 5) None 0 (fun _ => -1) in
  let L := [lit "suid"; lit "allow_other"; lit "fsname=a,b"; lit "subtype=f3"; lit "auto_unmount"; lit "-r"] in
  let m := fold_left mount_item (Opt <$> L) mount_opts0 in
  let st := MountState [] [] [] [] [] [] in
  exists res m' st', fuse_kern_mount env (Some (lit "/m")) m st = Some ((res, m'), st') /\
    ms_helpers st' = [(lit "/m", Some (lit "ro,nodev,allow_other,fsname=a\,b,auto_unmount,subtype=f3"));
                      (lit "/m", Some (lit "ro,nodev,allow_other,fsname=a\,b,auto_unmount"))] /\
    Forall (fun call => exists str, call = (lit "/m", Some str) /\ read_as me (Config true 10) true m (Fm [] [] [] false false []) str) (ms_helpers st').
Proof.
  intros me env L m st.
  destruct (helper_gets_options env (lit "/m") L me (Config true 10) true st (Fm [] [] [] false false [])) as (res & m' & st' & hs & E & P & F).
  - assert (In (KernFlag (lit "suid") MS_NOSUID false) kern_flags) as Hs by (vm_compute; tauto).
    constructor; [exact (P_flag _ Hs)|]. constructor; [constructor|]. constructor; [exact (P_fsname (lit "a,b"))|].
    constructor; [apply (P_subtype (lit "f3")); repeat constructor; discriminate|]. constructor; [constructor|]. constructor; [constructor|]. constructor.
  - reflexivity.
  - reflexivity.
  - right. reflexivity.
  - right. left. reflexivity.
  - exists res, m', st'. split; [exact E|]. cbn [ms_helpers app] in P. vm_compute in E. injection E as _ _ <-. rewrite P. split; [symmetry; exact P|exact F].
Defined.

(** Without memory for the source or the type of the mount, fuse_mount_sys closes
    the device and returns the result of the call before, 0, which its callers
    take for the descriptor of the mounted device. *)
Theorem mount_sys_reports_zero (env : mount_env) (mnt : bytes) (m : mount_opts) (mode fd : Z) (ok : bool) :
  st_mode env = Some mode -> dev_fd env = inr fd -> mo_auto_unmount m = 0 ->
  exists m' st', fuse_mount_sys env (Some mnt) m (MountState [true; ok; negb ok] [] [] [] [] []) = Some ((0, m'), st') /\
    ms_calls st' = [] /\ ms_closed st' = [fd].
Proof.
  intros Hm Hf Ha. unfold fuse_mount_sys. rewrite Hm, Hf, Ha. destruct ok; by eexists _, _.
Qed.
