(* ===== verification/Helper.v ===== *)
(** * Command line and main program: libfuse/lib/helper.c

    The options that every file system has, the options of the connection, and
    the main program of the high-level interface, which acquires and gives back
    what a mounted file system needs. *)

From S2P Require Import Prelude Wire Buf LowLevel Dispatch FuseOpt Fusermount Mount.

(** ** The command line *)

Record fuse_cmdline_opts := CmdOpts {
  singlethread : Z; foreground : Z; debug : Z; nodefault_subtype : Z; mountpoint : option bytes;
  show_version : Z; show_help : Z; cl_clone_fd : Z; max_idle_threads : Z }.

Definition CO_singlethread : Z := 0.
Definition CO_foreground : Z := 4.
Definition CO_debug : Z := 8.
Definition CO_nodefault_subtype : Z := 12.
Definition CO_show_version : Z := 24.
Definition CO_show_help : Z := 28.
Definition CO_clone_fd : Z := 32.
Definition CO_max_idle_threads : Z := 36.

#[export] Instance cmdline_data : OptData fuse_cmdline_opts := {|
  store_int off v c :=
    let at_ (o x : Z) : Z := if off =? o then v else x in
    CmdOpts (at_ CO_singlethread (singlethread c)) (at_ CO_foreground (foreground c)) (at_ CO_debug (debug c)) (at_ CO_nodefault_subtype (nodefault_subtype c))
      (mountpoint c) (at_ CO_show_version (show_version c)) (at_ CO_show_help (show_help c)) (at_ CO_clone_fd (cl_clone_fd c)) (max_idle_threads c);
  store_str off s c := c;
  scan fmt s off c :=
    (fun v => CmdOpts (singlethread c) (foreground c) (debug c) (nodefault_subtype c) (mountpoint c) (show_version c) (show_help c) (cl_clone_fd c) v) <$> scan_u s |}.

Definition FUSE_HELPER_OPT (t : bytes) (off : Z) : fuse_opt := FuseOpt t off 1.

Definition fuse_helper_opts : list fuse_opt :=
  [FUSE_HELPER_OPT (lit "-h") CO_show_help; FUSE_HELPER_OPT (lit "--help") CO_show_help;
   FUSE_HELPER_OPT (lit "-V") CO_show_version; FUSE_HELPER_OPT (lit "--version") CO_show_version;
   FUSE_HELPER_OPT (lit "-d") CO_debug; FUSE_HELPER_OPT (lit "debug") CO_debug;
   FUSE_HELPER_OPT (lit "-d") CO_foreground; FUSE_HELPER_OPT (lit "debug") CO_foreground;
   FUSE_OPT_KEY (lit "-d") FUSE_OPT_KEY_KEEP; FUSE_OPT_KEY (lit "debug") FUSE_OPT_KEY_KEEP;
   FUSE_HELPER_OPT (lit "-f") CO_foreground; FUSE_HELPER_OPT (lit "-s") CO_singlethread;
   FUSE_HELPER_OPT (lit "fsname=") CO_nodefault_subtype; FUSE_OPT_KEY (lit "fsname=") FUSE_OPT_KEY_KEEP;
   FUSE_HELPER_OPT (lit "subtype=") CO_nodefault_subtype; FUSE_OPT_KEY (lit "subtype=") FUSE_OPT_KEY_KEEP;
   FUSE_HELPER_OPT (lit "clone_fd") CO_clone_fd; FUSE_HELPER_OPT (lit "max_idle_threads=%u") CO_max_idle_threads].

Definition set_mountpoint (p : option bytes) (c : fuse_cmdline_opts) : fuse_cmdline_opts :=
  CmdOpts (singlethread c) (foreground c) (debug c) (nodefault_subtype c) p (show_version c) (show_help c) (cl_clone_fd c) (max_idle_threads c).

(** [realpath] is the call of that name. *)
Definition fuse_helper_opt_proc (realpath : bytes -> option bytes) (arg : bytes) (key : Z) : ST (fuse_cmdline_opts * fuse_args * heap) Z := fun st =>
  let '(c, a, h) := st in
  if negb (key =? FUSE_OPT_KEY_NONOPT) then Some (1, st) else
  match mountpoint c with
  | Some _ => Some (-1, st)
  | None =>
      let add (p : bytes) := match fuse_opt_add_opt (mountpoint c) p h with
                             | Some ((r, p), h) => Some (r, (set_mountpoint p c, a, h))
                             | None => None
                             end in
      if negb (fuse_mnt_parse_fuse_fd arg =? -1) then add arg else
      match realpath arg with
      | None => Some (-1, st)
      | Some p => add p
      end
  end.

(** The name of the program, without its directory. *)
Definition basename (progname : bytes) : bytes :=
  let r := reverse progname in
  match strchr r 47 with
  | None => progname
  | Some O => lit "/"
  | Some n => reverse (take n r)
  end.

Definition add_default_subtype (progname : bytes) (args : fuse_args) : ST heap (Z * fuse_args) :=
  ok ← FuseOpt.malloc;
  if negb ok then mret (-1, args) else fuse_opt_add_arg args (lit "-osubtype=" ++ basename progname).

Definition cmdline0 : fuse_cmdline_opts := CmdOpts 0 0 0 0 None 0 0 0 10.

Definition fuse_parse_cmdline (realpath : bytes -> option bytes) (args : fuse_args) (h : heap) : option (Z * fuse_args * fuse_cmdline_opts * heap) :=
  match fuse_opt_parse args cmdline0 fuse_helper_opts (Some (fuse_helper_opt_proc realpath)) h with
  | None => None
  | Some (r, args, c, h) =>
      if r =? -1 then Some (-1, args, c, h) else
      if nodefault_subtype c =? 0 then
        match add_default_subtype (default [] (args_list args !! 0%nat)) args h with
        | Some ((r, args), h) => Some (if r =? -1 then -1 else 0, args, c, h)
        | None => None
        end
      else Some (0, args, c, h)
  end.

(** ** The connection *)

(** struct fuse_conn_info_opts, zeroed, as a map from offsets. *)
Definition fuse_conn_info_opts : Type := gmap Z Z.

Definition co (off : Z) (c : fuse_conn_info_opts) : Z := default 0 (c !! off).

Definition CI_no_remote_posix_lock : Z := 4.
Definition CI_no_remote_flock : Z := 8.
Definition CI_splice_write : Z := 12.
Definition CI_splice_move : Z := 16.
Definition CI_splice_read : Z := 20.
Definition CI_no_splice_write : Z := 24.
Definition CI_no_splice_move : Z := 28.
Definition CI_no_splice_read : Z := 32.
Definition CI_auto_inval_data : Z := 36.
Definition CI_no_auto_inval_data : Z := 40.
Definition CI_no_readdirplus : Z := 44.
Definition CI_no_readdirplus_auto : Z := 48.
Definition CI_async_dio : Z := 52.
Definition CI_no_async_dio : Z := 56.
Definition CI_writeback_cache : Z := 60.
Definition CI_no_writeback_cache : Z := 64.
Definition CI_async_read : Z := 68.
Definition CI_sync_read : Z := 72.
Definition CI_max_write : Z := 76.
Definition CI_max_readahead : Z := 80.
Definition CI_max_background : Z := 84.
Definition CI_congestion_threshold : Z := 88.
Definition CI_time_gran : Z := 92.
Definition CI_set_max_write : Z := 96.
Definition CI_set_max_readahead : Z := 100.
Definition CI_set_max_background : Z := 104.
Definition CI_set_congestion_threshold : Z := 108.
Definition CI_set_time_gran : Z := 112.

#[export] Instance conn_info_data : OptData fuse_conn_info_opts := {|
  store_int off v c := <[off := v]> c;
  store_str off s c := c;
  scan fmt s off c := (fun v => <[off := v]> c) <$> scan_u s |}.

(** The member [atomic_o_trunc] is at offset 0. *)
Definition conn_info_opt_spec : list fuse_opt :=
  [FuseOpt (lit "max_write=%u") CI_max_write 0; FuseOpt (lit "max_write=") CI_set_max_write 1;
   FuseOpt (lit "max_readahead=%u") CI_max_readahead 0; FuseOpt (lit "max_readahead=") CI_set_max_readahead 1;
   FuseOpt (lit "max_background=%u") CI_max_background 0; FuseOpt (lit "max_background=") CI_set_max_background 1;
   FuseOpt (lit "congestion_threshold=%u") CI_congestion_threshold 0; FuseOpt (lit "congestion_threshold=") CI_set_congestion_threshold 1;
   FuseOpt (lit "sync_read") CI_sync_read 1; FuseOpt (lit "async_read") CI_async_read 1;
   FuseOpt (lit "atomic_o_trunc") 0 1; FuseOpt (lit "no_remote_lock") CI_no_remote_posix_lock 1;
   FuseOpt (lit "no_remote_lock") CI_no_remote_flock 1; FuseOpt (lit "no_remote_flock") CI_no_remote_flock 1;
   FuseOpt (lit "no_remote_posix_lock") CI_no_remote_posix_lock 1; FuseOpt (lit "splice_write") CI_splice_write 1;
   FuseOpt (lit "no_splice_write") CI_no_splice_write 1; FuseOpt (lit "splice_move") CI_splice_move 1;
   FuseOpt (lit "no_splice_move") CI_no_splice_move 1; FuseOpt (lit "splice_read") CI_splice_read 1;
   FuseOpt (lit "no_splice_read") CI_no_splice_read 1; FuseOpt (lit "auto_inval_data") CI_auto_inval_data 1;
   FuseOpt (lit "no_auto_inval_data") CI_no_auto_inval_data 1; FuseOpt (lit "readdirplus=no") CI_no_readdirplus 1;
   FuseOpt (lit "readdirplus=yes") CI_no_readdirplus 0; FuseOpt (lit "readdirplus=yes") CI_no_readdirplus_auto 1;
   FuseOpt (lit "readdirplus=auto") CI_no_readdirplus 0; FuseOpt (lit "readdirplus=auto") CI_no_readdirplus_auto 0;
   FuseOpt (lit "async_dio") CI_async_dio 1; FuseOpt (lit "no_async_dio") CI_no_async_dio 1;
   FuseOpt (lit "writeback_cache") CI_writeback_cache 1; FuseOpt (lit "no_writeback_cache") CI_no_writeback_cache 1;
   FuseOpt (lit "time_gran=%u") CI_time_gran 0; FuseOpt (lit "time_gran=") CI_set_time_gran 1].

Definition fuse_parse_conn_info_opts (args : fuse_args) (h : heap) : option (option fuse_conn_info_opts * fuse_args * heap) :=
  match h with
  | false :: h => Some (None, args, h)
  | _ =>
      match fuse_opt_parse args (∅ : fuse_conn_info_opts) conn_info_opt_spec None (drop 1 h) with
      | Some (r, args, c, h) => Some (if r =? -1 then None else Some c, args, h)
      | None => None
      end
  end.

Definition LL_ENABLE (c : fuse_conn_info_opts) (off cap w : Z) : Z := if co off c =? 0 then w else Z.lor w cap.
Definition LL_DISABLE (c : fuse_conn_info_opts) (off cap w : Z) : Z := if co off c =? 0 then w else Z.ldiff w cap.

Definition fuse_apply_conn_info_opts (c : fuse_conn_info_opts) (conn : fuse_conn_info) : fuse_conn_info :=
  let set (flag off old : Z) : Z := if co flag c =? 0 then old else co off c in
  let w := want conn in
  let w := LL_DISABLE c CI_no_splice_read FUSE_CAP_SPLICE_READ (LL_ENABLE c CI_splice_read FUSE_CAP_SPLICE_READ w) in
  let w := LL_DISABLE c CI_no_splice_write FUSE_CAP_SPLICE_WRITE (LL_ENABLE c CI_splice_write FUSE_CAP_SPLICE_WRITE w) in
  let w := LL_DISABLE c CI_no_splice_move FUSE_CAP_SPLICE_MOVE (LL_ENABLE c CI_splice_move FUSE_CAP_SPLICE_MOVE w) in
  let w := LL_DISABLE c CI_no_auto_inval_data FUSE_CAP_AUTO_INVAL_DATA (LL_ENABLE c CI_auto_inval_data FUSE_CAP_AUTO_INVAL_DATA w) in
  let w := LL_DISABLE c CI_no_readdirplus FUSE_CAP_READDIRPLUS w in
  let w := LL_DISABLE c CI_no_readdirplus_auto FUSE_CAP_READDIRPLUS_AUTO w in
  let w := LL_DISABLE c CI_no_async_dio FUSE_CAP_ASYNC_DIO (LL_ENABLE c CI_async_dio FUSE_CAP_ASYNC_DIO w) in
  let w := LL_DISABLE c CI_no_writeback_cache FUSE_CAP_WRITEBACK_CACHE (LL_ENABLE c CI_writeback_cache FUSE_CAP_WRITEBACK_CACHE w) in
  let w := LL_DISABLE c CI_sync_read FUSE_CAP_ASYNC_READ (LL_ENABLE c CI_async_read FUSE_CAP_ASYNC_READ w) in
  let w := LL_DISABLE c CI_no_remote_posix_lock FUSE_CAP_POSIX_LOCKS w in
  let w := LL_DISABLE c CI_no_remote_flock FUSE_CAP_FLOCK_LOCKS w in
  ConnInfo (proto_major conn) (proto_minor conn) (set CI_set_max_write CI_max_write (max_write conn)) (max_read conn)
    (set CI_set_max_readahead CI_max_readahead (max_readahead conn)) (capable conn) w
    (set CI_set_max_background CI_max_background (max_background conn))
    (set CI_set_congestion_threshold CI_congestion_threshold (congestion_threshold conn))
    (set CI_set_time_gran CI_time_gran (time_gran conn)).

(** ** The main program *)

(** What it does, in order.  [A_loop] has the kind of loop and its options,
    [A_free] is the end, where the mount point and the arguments are freed. *)
Inductive action :=
  | A_version | A_help | A_new | A_mount (mnt : bytes) | A_daemonize (fg : Z) | A_set_handlers
  | A_loop (mt : bool) (clone : Z) (idle : Z) | A_remove_handlers | A_unmount | A_destroy | A_free.

(** Whether the calls succeed, and the result of the loop. *)
Record main_env := MainEnv { new_ok : bool; mount_ok : bool; daemon_ok : bool; signals_ok : bool; loop_res : Z }.

Definition main_body (env : main_env) (c : fuse_cmdline_opts) : Z * list action :=
  if negb (show_version c =? 0) then (0, [A_version; A_free]) else
  if negb (show_help c =? 0) then (0, [A_help; A_free]) else
  match mountpoint c with
  | None => (2, [A_free])
  | Some mnt =>
      if negb (new_ok env) then (3, [A_new; A_free]) else
      let out2 (l : list action) := l ++ [A_destroy; A_free] in
      if negb (mount_ok env) then (4, out2 [A_new; A_mount mnt]) else
      let out3 (l : list action) := out2 (l ++ [A_unmount]) in
      if negb (daemon_ok env) then (5, out3 [A_new; A_mount mnt; A_daemonize (foreground c)]) else
      if negb (signals_ok env) then (6, out3 [A_new; A_mount mnt; A_daemonize (foreground c); A_set_handlers]) else
      (if loop_res env =? 0 then 0 else 7,
       out3 [A_new; A_mount mnt; A_daemonize (foreground c); A_set_handlers;
             A_loop (singlethread c =? 0) (cl_clone_fd c) (max_idle_threads c); A_remove_handlers])
  end.

Definition fuse_main_real (realpath : bytes -> option bytes) (env : main_env) (args : fuse_args) (h : heap) : option (Z * list action) :=
  match fuse_parse_cmdline realpath args h with
  | None => None
  | Some (r, _, c, _) => Some (if negb (r =? 0) then (1, []) else main_body env c)
  end.

(** fuse_open_channel: the result is the descriptor or an error. *)
Definition fuse_open_channel (env : mount_env) (mnt options : bytes) : ST mount_state Z := fun st =>
  match parse_mount_opts (Some (FuseArgs 3 (Some [[]; lit "-o"; options]) false)) (ms_heap st) with
  | None => None
  | Some (r, _, h) =>
      let st := MountState h (ms_answers st) (ms_calls st) (ms_closed st) (ms_umounts st) (ms_helpers st) in
      match r with
      | None => Some (-1, st)
      | Some mo => r ← fuse_kern_mount env (Some mnt) mo st; Some (r.1.1, r.2)
      end
  end.
