(* ===== verification/HelperTheorems.v ===== *)
(** * Command line and main program: theorems *)

From S2P Require Import Prelude Wire Buf LowLevel Dispatch FuseOpt OptRule Fusermount Mount Helper.

(** ** The command line *)

(** What the callback does to the options. *)
Definition helper_eff (realpath : bytes -> option bytes) (arg : bytes) (key : Z) (c : fuse_cmdline_opts) : fuse_cmdline_opts :=
  if negb (key =? FUSE_OPT_KEY_NONOPT) then c else
  set_mountpoint (if negb (fuse_mnt_parse_fuse_fd arg =? -1) then Some arg else realpath arg) c.

Lemma helper_table_no_space : Forall no_space fuse_helper_opts.
Proof. apply table_no_space. vm_compute. reflexivity. Qed.

Lemma esc_copy_plain o : esc_copy false o = o.
Proof. induction o as [|x o IH]; [done|]. cbn. by rewrite IH. Qed.

Lemma helper_proc_does realpath arg key : proc_does (Some (fuse_helper_opt_proc realpath)) (helper_eff realpath) arg key.
Proof.
  intros c a h. unfold fuse_helper_opt_proc, helper_eff. destruct (negb (key =? FUSE_OPT_KEY_NONOPT)); [eexists _, _, _; split; [reflexivity|]; by right|].
  destruct (mountpoint c) as [p|] eqn:Em; [eexists _, _, _; split; [reflexivity|]; by left|].
  assert (forall p : bytes, exists r d' h', match fuse_opt_add_opt None p h with Some ((r, p), h) => Some (r, (set_mountpoint p c, a, h)) | None => None end = Some (r, (d', a, h')) /\
    (r = -1 \/ d' = set_mountpoint (Some p) c)) as Hadd.
  { intros p. unfold fuse_opt_add_opt, add_opt_common, mbind, ST_bind, FuseOpt.malloc. destruct h as [|[] h]; cbn [negb]; eexists _, _, _; (split; [reflexivity|]);
      [right|right|by left]; cbn; by rewrite esc_copy_plain. }
  destruct (negb (fuse_mnt_parse_fuse_fd arg =? -1)); [apply Hadd|]. destruct (realpath arg) as [p|]; [apply Hadd|]. eexists _, _, _. split; [reflexivity|]. by left.
Qed.

(** What an option or argument does. *)
Abbreviation cmdline_item realpath := (item_effect fuse_helper_opts (helper_eff realpath)).

Lemma default_subtype_ok progname args h : allocated args = true -> exists r args' h', add_default_subtype progname args h = Some ((r, args'), h').
Proof.
  intros Ha. unfold add_default_subtype, fuse_opt_add_arg, check. rewrite Ha, orb_true_r. unfold mbind, ST_bind, FuseOpt.malloc, mret, ST_ret.
  destruct h as [|[] [|[] [|[] h]]]; cbn; by eexists _, _, _.
Qed.

Lemma parse_cmdline_ok realpath args h : argc args = length (args_list args) -> args_list args <> [] ->
  exists r args' c h', fuse_parse_cmdline realpath args h = Some (r, args', c, h') /\
    (r = -1 \/ r = 0 /\ c = fold_left (cmdline_item realpath) (handed (drop 1 (args_list args)) false) cmdline0).
Proof.
  intros Hn Hne. unfold fuse_parse_cmdline.
  destruct (parse_effect (helper_eff realpath) args cmdline0 fuse_helper_opts (Some (fuse_helper_opt_proc realpath)) h helper_table_no_space
    (fun arg o sep _ _ => helper_proc_does realpath arg (value o)) (fun arg => helper_proc_does realpath arg _) (fun arg => helper_proc_does realpath arg _) Hn)
    as (r & a' & c & h' & -> & [[-> ->]|(-> & Hc & Ha)]); cbn [Z.eqb Pos.eqb]; [eexists _, _, _, _; split; [reflexivity|by left]|].
  destruct (nodefault_subtype c =? 0); [|eexists _, _, _, _; split; [reflexivity|by right]].
  destruct (default_subtype_ok (default [] (args_list a' !! 0%nat)) a' h' (proj1 Ha Hne)) as (r & a2 & h2 & ->).
  eexists _, _, _, _. split; [reflexivity|]. destruct (r =? -1); [by left|by right].
Qed.

(** ** The main program *)

(** What is held: the file system object, the mount, the signal handlers. *)
Record held := Held { h_fuse : bool; h_mount : bool; h_handlers : bool }.

Definition nothing : held := Held false false false.

(** An action with what must be held for it, and what is held afterwards. *)
Definition act (env : main_env) (a : action) (s : held) : option held :=
  match a with
  | A_version | A_help => if negb (h_fuse s) then Some s else None
  | A_new => if negb (h_fuse s) then Some (Held (new_ok env) (h_mount s) (h_handlers s)) else None
  | A_mount _ => if h_fuse s && negb (h_mount s) then Some (Held true (mount_ok env) (h_handlers s)) else None
  | A_daemonize _ => if h_mount s && negb (h_handlers s) then Some s else None
  | A_set_handlers => if h_fuse s && negb (h_handlers s) then Some (Held true (h_mount s) (signals_ok env)) else None
  | A_loop _ _ _ => if h_fuse s && h_mount s && h_handlers s then Some s else None
  | A_remove_handlers => if h_handlers s then Some (Held (h_fuse s) (h_mount s) false) else None
  | A_unmount => if h_fuse s && h_mount s && negb (h_handlers s) then Some (Held true false false) else None
  | A_destroy => if h_fuse s && negb (h_mount s) && negb (h_handlers s) then Some nothing else None
  | A_free => if negb (h_fuse s) && negb (h_mount s) && negb (h_handlers s) then Some s else None
  end.

Fixpoint acts (env : main_env) (l : list action) (s : held) : option held :=
  match l with [] => Some s | a :: l => s ← act env a s; acts env l s end.

Definition is_loop (a : action) : bool := match a with A_loop _ _ _ => true | _ => false end.

(** fuse_main_real: for every command line with a program name, every
    outcome of the allocations and of the steps, it runs to its end.  Each step
    is taken only when what it needs is there (a mount needs the object, the
    loop needs the mount and the handlers), everything that was acquired is
    given back once and in the opposite order, and the file system is served
    exactly if the exit status is 7, or 0 without a request for help or the
    version, with the loop, clone_fd and number of idle threads that the command
    line asks for, read option by option. *)
Theorem main_gives_back realpath env args h : argc args = length (args_list args) -> args_list args <> [] ->
  exists code l, fuse_main_real realpath env args h = Some (code, l) /\ acts env l nothing = Some nothing /\
    (code = 1 /\ l = [] \/
     let c := fold_left (cmdline_item realpath) (handed (drop 1 (args_list args)) false) cmdline0 in
     last l = Some A_free /\
     filter (fun a => is_loop a = true) l =
       if (code =? 7) || ((code =? 0) && (show_version c =? 0) && (show_help c =? 0))
       then [A_loop (singlethread c =? 0) (cl_clone_fd c) (max_idle_threads c)] else []).
Proof.
  intros Hn Hne. destruct (parse_cmdline_ok realpath args h Hn Hne) as (r & args' & c & h' & E & Hr). unfold fuse_main_real. rewrite E.
  destruct Hr as [->|[-> Hc]]; cbn [Z.eqb negb]; [exists 1, []; split; [done|]; split; [done|by left]|]. cbn zeta. rewrite <- Hc. clear Hc E.
  destruct (main_body env c) as [code l] eqn:Em. exists code, l. split; [done|]. unfold main_body in Em.
  destruct (Z.eqb_spec (show_version c) 0) as [Ev|Ev]; cbn [negb] in Em; [|injection Em as <- <-; split; [done|by right]].
  destruct (Z.eqb_spec (show_help c) 0) as [Eh|Eh]; cbn [negb] in Em; [|injection Em as <- <-; split; [done|by right]].
  destruct (mountpoint c) as [mnt|]; [|injection Em as <- <-; split; [done|by right]].
  destruct env as [nw mo dm sg lr]. cbn [new_ok mount_ok daemon_ok signals_ok loop_res] in Em.
  destruct nw; cbn [negb] in Em; [|injection Em as <- <-; split; [done|by right]].
  destruct mo; cbn [negb] in Em; [|injection Em as <- <-; split; [done|by right]].
  destruct dm; cbn [negb] in Em; [|injection Em as <- <-; split; [done|by right]].
  destruct sg; cbn [negb] in Em; [|injection Em as <- <-; split; [done|by right]].
  destruct (lr =? 0); injection Em as <- <-; (split; [done|by right]).
Qed.

(** A successful run in the foreground. *)
Lemma main_gives_back_witness :
  let args := FuseArgs 4 (Some [lit "/bin/f3"; lit "-f"; lit "-omax_idle_threads=3,clone_fd"; lit "/mnt"]) false in
  let env := MainEnv true true true true 0 in
  exists code l, fuse_main_real Some env args [] = Some (code, l) /\ acts env l nothing = Some nothing /\ code = 0 /\
    l = [A_new; A_mount (lit "/mnt"); A_daemonize 1; A_set_handlers; A_loop true 1 3; A_remove_handlers; A_unmount; A_destroy; A_free].
Proof.
  intros args env. destruct (main_gives_back Some env args [] eq_refl ltac:(discriminate)) as (code & l & E & H1 & _). exists code, l.
  split; [exact E|]. split; [exact H1|]. vm_compute in E. injection E as <- <-. by split.
Defined.

(** ** The options of the connection *)

Definition options (l : list item) : list bytes := omap (fun i => match i with Opt o => Some o | Non _ => None end) l.

Definition same_eff (arg : bytes) (key : Z) (c : fuse_conn_info_opts) : fuse_conn_info_opts := c.

Lemma conn_table_no_space : Forall no_space conn_info_opt_spec.
Proof. apply table_no_space. vm_compute. reflexivity. Qed.

(** The options that set the member at [off]. *)
Definition sets (off : Z) (o : bytes) : bool := existsb (fun e => (offset e =? off) && found (template_match (templ e) o)) conn_info_opt_spec.

(** The member at [off] is only ever set to 1, by options without a number. *)
Definition one_entry (off : Z) (e : fuse_opt) : bool :=
  negb (offset e =? NO_OFFSET) && (negb (offset e =? off) || ((value e =? 1) && match value_templ (templ e) with None => true | Some i => char_at (templ e) (S i) =? 0 end)).

Definition one_flag (off : Z) : bool := forallb (one_entry off) conn_info_opt_spec.

Lemma entry_co off o e sep c : one_entry off e = true -> template_match (templ e) o = Some sep ->
  co off (entry_effect same_eff o c (e, sep)) = if offset e =? off then 1 else co off c.
Proof.
  unfold one_entry. rewrite andb_true_iff, negb_true_iff. intros [Hno Hone] Hm. unfold entry_effect. rewrite Hno.
  assert (forall v, co off (<[offset e := v]> c) = if offset e =? off then v else co off c) as Hst.
  { intros v. unfold co. destruct (Z.eqb_spec (offset e) off) as [->|Hne];
      [by rewrite (lookup_insert_eq (M := gmap Z) c)|by rewrite (lookup_insert_ne (M := gmap Z) c)]. }
  destruct (bool_decide (sep <> 0%nat) && negb (char_at (templ e) (S sep) =? 0)) eqn:Es.
  - destruct (Z.eqb_spec (offset e) off) as [Ho|Ho]; cbn [negb orb] in Hone.
    + exfalso. apply andb_true_iff in Hone as [_ Hv]. apply andb_true_iff in Es as [Es%bool_decide_eq_true Ez]. unfold template_match in Hm.
      destruct (value_templ (templ e)) as [i|]; [|destruct (streq _ _); [injection Hm as <-; by apply Es|done]]. destruct (strneq _ _ _); [|done]. injection Hm as <-. by rewrite Hv in Ez.
    + destruct (char_at (drop (S sep) (templ e)) 1 =? chr_s); [done|]. cbn [scan conn_info_data]. destruct (scan_u _) as [v|]; [|done]. cbn [fmap option_fmap option_map default from_option id].
      rewrite Hst. by destruct (Z.eqb_spec (offset e) off).
  - cbn [store_int conn_info_data]. rewrite Hst. destruct (Z.eqb_spec (offset e) off); [|done]. cbn [negb orb] in Hone. by apply andb_true_iff in Hone as [->%Z.eqb_eq _].
Qed.

Lemma item_co off o c : one_flag off = true -> co off (item_effect conn_info_opt_spec same_eff c (Opt o)) = if sets off o then 1 else co off c.
Proof.
  unfold one_flag, sets. intros Hf. cbn [item_effect]. rewrite (matching_ok _ _ conn_table_no_space).
  assert (forall tbl c, forallb (one_entry off) tbl = true -> co off (fold_left (entry_effect same_eff o) (matching tbl o) c) =
    if existsb (fun e => (offset e =? off) && found (template_match (templ e) o)) tbl then 1 else co off c) as Ht.
  { induction tbl as [|e tbl IH]; intros c0 Hb; [done|]. cbn [forallb] in Hb. apply andb_true_iff in Hb as [He Hb]. cbn [matching existsb].
    destruct (template_match (templ e) o) as [sep|] eqn:Em; cbn [found].
    - cbn [fold_left]. rewrite IH, (entry_co off o e sep c0 He Em) by done. rewrite andb_true_r. destruct (offset e =? off); cbn [orb]; [by destruct (existsb _ _)|done].
    - rewrite andb_false_r. cbn [orb]. by apply IH. }
  specialize (Ht conn_info_opt_spec c Hf). destruct (matching conn_info_opt_spec o); exact Ht.
Qed.

Lemma items_co off l : one_flag off = true -> co off (fold_left (item_effect conn_info_opt_spec same_eff) l ∅) = if existsb (sets off) (options l) then 1 else 0.
Proof.
  intros Hf. induction l as [|i l IH] using rev_ind; [done|]. rewrite fold_left_app. unfold options. rewrite omap_app, existsb_app. fold (options l).
  cbn [fold_left]. destruct i as [o|a]; [|cbn; rewrite orb_false_r; exact IH]. rewrite item_co, IH by done. cbn [omap list_omap existsb].
  rewrite orb_false_r. destruct (sets off o); [by rewrite orb_true_r|by rewrite orb_false_r].
Qed.

(** The names of the options that set a member. *)
Definition names_of (off : Z) : list bytes := map templ (List.filter (fun e => offset e =? off) conn_info_opt_spec).

Definition given (names L : list bytes) : bool := existsb (fun o => existsb (fun n => streq n o) names) L.

Lemma sets_names off o : forallb (fun n => negb (found (value_templ n))) (names_of off) = true -> sets off o = existsb (fun n => streq n o) (names_of off).
Proof.
  unfold sets, names_of. induction conn_info_opt_spec as [|e tbl IH]; [done|]. cbn [existsb List.filter]. destruct (offset e =? off); cbn [andb orb map forallb]; [|exact IH].
  intros [Hv Hr]%andb_true_iff. cbn [existsb]. rewrite IH by done. f_equal. unfold template_match. destruct (value_templ (templ e)); [done|]. by destruct (streq _ _).
Qed.

Lemma flag_given off L : one_flag off = true -> forallb (fun n => negb (found (value_templ n))) (names_of off) = true ->
  co off (fold_left (item_effect conn_info_opt_spec same_eff) L ∅) =? 0 = negb (given (names_of off) (options L)).
Proof.
  intros Hf Hn. rewrite items_co by done. unfold given.
  assert (existsb (sets off) (options L) = existsb (fun o => existsb (fun n => streq n o) (names_of off)) (options L)) as ->.
  { induction (options L) as [|o l IH]; [done|]. cbn [existsb]. by rewrite IH, sets_names. }
  by destruct (existsb _ _).
Qed.

Lemma enable_bit c off k w j : 0 <= k -> 0 <= j -> Z.testbit (LL_ENABLE c off (2 ^ k) w) j = Z.testbit w j || ((j =? k) && negb (co off c =? 0)).
Proof.
  intros Hk Hj. unfold LL_ENABLE. destruct (co off c =? 0); cbn [negb]; [by rewrite andb_false_r, orb_false_r|]. rewrite Z.lor_spec, Z.pow2_bits_eqb by done.
  by rewrite (Z.eqb_sym k j), andb_true_r.
Qed.

Lemma disable_bit c off k w j : 0 <= k -> 0 <= j -> Z.testbit (LL_DISABLE c off (2 ^ k) w) j = Z.testbit w j && negb ((j =? k) && negb (co off c =? 0)).
Proof.
  intros Hk Hj. unfold LL_DISABLE. destruct (co off c =? 0); cbn [negb]; [by rewrite andb_false_r, andb_true_r|]. rewrite Z.ldiff_spec, Z.pow2_bits_eqb by done.
  by rewrite (Z.eqb_sym k j), andb_true_r.
Qed.

(** A capability with the options that ask for it and against it. *)
Record cap_option := CapOption { cap_bit : Z; cap_on : list bytes; cap_off : list bytes }.

Definition cap_options : list cap_option :=
  [CapOption 0 [lit "async_read"] [lit "sync_read"];
   CapOption 1 [] [lit "no_remote_lock"; lit "no_remote_posix_lock"];
   CapOption 7 [lit "splice_write"] [lit "no_splice_write"]; CapOption 8 [lit "splice_move"] [lit "no_splice_move"];
   CapOption 9 [lit "splice_read"] [lit "no_splice_read"]; CapOption 10 [] [lit "no_remote_lock"; lit "no_remote_flock"];
   CapOption 12 [lit "auto_inval_data"] [lit "no_auto_inval_data"]; CapOption 15 [lit "async_dio"] [lit "no_async_dio"];
   CapOption 16 [lit "writeback_cache"] [lit "no_writeback_cache"]].

(** Asking against wins. *)
Definition cap_wanted (conn : fuse_conn_info) (L : list bytes) (x : cap_option) : bool :=
  (Z.testbit (want conn) (cap_bit x) || given (cap_on x) L) && negb (given (cap_off x) L).

Lemma given_nil L : given [] L = false.
Proof. induction L; done. Qed.

(** The members that stand for options without a value. *)
Definition flag_members : list (Z * list bytes) :=
  [(CI_async_read, [lit "async_read"]); (CI_sync_read, [lit "sync_read"]);
   (CI_no_remote_posix_lock, [lit "no_remote_lock"; lit "no_remote_posix_lock"]); (CI_no_remote_flock, [lit "no_remote_lock"; lit "no_remote_flock"]);
   (CI_splice_write, [lit "splice_write"]); (CI_no_splice_write, [lit "no_splice_write"]);
   (CI_splice_move, [lit "splice_move"]); (CI_no_splice_move, [lit "no_splice_move"]);
   (CI_splice_read, [lit "splice_read"]); (CI_no_splice_read, [lit "no_splice_read"]);
   (CI_auto_inval_data, [lit "auto_inval_data"]); (CI_no_auto_inval_data, [lit "no_auto_inval_data"]);
   (CI_async_dio, [lit "async_dio"]); (CI_no_async_dio, [lit "no_async_dio"]);
   (CI_writeback_cache, [lit "writeback_cache"]); (CI_no_writeback_cache, [lit "no_writeback_cache"])].

Lemma flag_members_ok : forallb (fun x => one_flag x.1 && bool_decide (names_of x.1 = x.2) && forallb (fun n => negb (found (value_templ n))) x.2) flag_members = true.
Proof. vm_compute. reflexivity. Qed.

Lemma members_given it : Forall (fun x => co x.1 (fold_left (item_effect conn_info_opt_spec same_eff) it ∅) =? 0 = negb (given x.2 (options it))) flag_members.
Proof.
  apply Forall_forall. intros x Hx. apply list_elem_of_In in Hx. pose proof flag_members_ok as Hb. rewrite List.forallb_forall in Hb. specialize (Hb x Hx).
  rewrite !andb_true_iff, bool_decide_eq_true in Hb. destruct Hb as [[H1 <-] H3]. by apply flag_given.
Qed.

(** The options of the connection do what the header says of capabilities:
    for every command line, after fuse_parse_conn_info_opts and
    fuse_apply_conn_info_opts a capability of the list is wanted exactly if it
    was before or its option is given, and the option against it is not given,
    wherever they stand on the command line; and no other capability than these
    and the two of readdirplus changes. *)
Theorem conn_caps_applied args h conn c args' h' : argc args = length (args_list args) ->
  fuse_parse_conn_info_opts args h = Some (Some c, args', h') ->
  let L := options (handed (drop 1 (args_list args)) false) in
  Forall (fun x => Z.testbit (want (fuse_apply_conn_info_opts c conn)) (cap_bit x) = cap_wanted conn L x) cap_options /\
  forall k, 0 <= k -> ~ In k (13 :: 14 :: map cap_bit cap_options) ->
    Z.testbit (want (fuse_apply_conn_info_opts c conn)) k = Z.testbit (want conn) k.
Proof.
  intros Hn E L.
  assert (c = fold_left (item_effect conn_info_opt_spec same_eff) (handed (drop 1 (args_list args)) false) ∅) as ->.
  { assert (forall arg key, proc_does (D := fuse_conn_info_opts) None same_eff arg key) as Hp by (by intros arg key d).
    unfold fuse_parse_conn_info_opts in E.
    assert (forall k, match fuse_opt_parse args (∅ : fuse_conn_info_opts) conn_info_opt_spec None k with Some (r, args, c, h) => Some (if r =? -1 then None else Some c, args, h) | None => None end
      = Some (Some c, args', h') -> c = fold_left (item_effect conn_info_opt_spec same_eff) (handed (drop 1 (args_list args)) false) ∅) as Hk.
    { intros k Ek. destruct (parse_effect same_eff args (∅ : fuse_conn_info_opts) conn_info_opt_spec None k conn_table_no_space (fun arg o _ _ _ => Hp arg (value o)) (fun arg => Hp arg _) (fun arg => Hp arg _) Hn)
        as (r & a' & d' & k' & Er & Hr). rewrite Er in Ek. destruct Hr as [[-> _]|(-> & -> & _)]; cbn [Z.eqb Pos.eqb] in Ek; [done|]. by injection Ek as <-. }
    destruct h as [|[] h]; [by eapply Hk|by eapply Hk|done]. }
  set (it := handed _ _) in *.
  pose proof (members_given it) as HF. fold L in HF.
  set (c := fold_left _ it ∅) in *. clearbody c. unfold fuse_apply_conn_info_opts. cbn [want].
  change FUSE_CAP_SPLICE_READ with (2 ^ 9). change FUSE_CAP_SPLICE_WRITE with (2 ^ 7). change FUSE_CAP_SPLICE_MOVE with (2 ^ 8).
  unfold FUSE_CAP_AUTO_INVAL_DATA, FUSE_CAP_READDIRPLUS, FUSE_CAP_READDIRPLUS_AUTO, FUSE_CAP_ASYNC_DIO, FUSE_CAP_WRITEBACK_CACHE, FUSE_CAP_ASYNC_READ, FUSE_CAP_POSIX_LOCKS, FUSE_CAP_FLOCK_LOCKS.
  split.
  - unfold flag_members in HF. rewrite !Forall_cons in HF. destruct HF as (F1 & F2 & F3 & F4 & F5 & F6 & F7 & F8 & F9 & F10 & F11 & F12 & F13 & F14 & F15 & F16 & _).
    cbn [fst snd] in *. unfold cap_options, cap_wanted. repeat (apply Forall_cons_2; [|]); [..|apply Forall_nil_2]; cbn [cap_bit cap_on cap_off];
      repeat first [rewrite disable_bit by lia | rewrite enable_bit by lia]; cbn [Z.eqb Pos.eqb andb orb negb];
      rewrite ?andb_true_r, ?orb_false_r, ?given_nil, ?orb_false_r; cbn [negb]; rewrite ?andb_true_r, ?negb_involutive;
      rewrite ?F1, ?F2, ?F3, ?F4, ?F5, ?F6, ?F7, ?F8, ?F9, ?F10, ?F11, ?F12, ?F13, ?F14, ?F15, ?F16, ?negb_involutive; reflexivity.
  - intros k Hk Hin. repeat first [rewrite disable_bit by lia | rewrite enable_bit by lia].
    repeat match goal with |- context [k =? ?x] => rewrite (proj2 (Z.eqb_neq k x)) by (intros ->; apply Hin; vm_compute; tauto) end.
    cbn [andb negb]. by rewrite ?andb_true_r, ?orb_false_r.
Qed.

Lemma conn_caps_applied_witness :
  let args := FuseArgs 3 (Some [lit "f3"; lit "-osplice_read,no_remote_lock,async_dio"; lit "-ono_async_dio,atomic_o_trunc"]) false in
  let conn := ConnInfo 7 31 0 0 0 0 1026 0 0 0 in
  exists c a' h', fuse_parse_conn_info_opts args [] = Some (Some c, a', h') /\ want (fuse_apply_conn_info_opts c conn) = 512 /\
    Forall (fun x => Z.testbit (want (fuse_apply_conn_info_opts c conn)) (cap_bit x) =
      cap_wanted conn [lit "splice_read"; lit "no_remote_lock"; lit "async_dio"; lit "no_async_dio"; lit "atomic_o_trunc"] x) cap_options.
Proof.
  intros args conn. destruct (fuse_parse_conn_info_opts args []) as [[[c a'] h']|] eqn:E; [|by vm_compute in E].
  destruct c as [c|]; [|by vm_compute in E]. exists c, a', h'. split; [done|].
  destruct (conn_caps_applied args [] conn c a' h' eq_refl E) as [F _]. split; [vm_compute in E; by injection E as <- _ _|exact F].
Defined.

(** The header says that atomic_o_trunc sets FUSE_CAP_ATOMIC_O_TRUNC; the option
    is accepted and stored, and has no effect. *)
Theorem atomic_o_trunc_ignored c v conn : fuse_apply_conn_info_opts (<[0 := v]> c) conn = fuse_apply_conn_info_opts c conn.
Proof.
  assert (forall off, off <> 0 -> co off (<[0 := v]> c) = co off c) as Hc by (intros off Ho; unfold co; by rewrite (lookup_insert_ne (M := gmap Z) c)).
  assert (forall off cap w, off <> 0 -> LL_ENABLE (<[0 := v]> c) off cap w = LL_ENABLE c off cap w /\ LL_DISABLE (<[0 := v]> c) off cap w = LL_DISABLE c off cap w) as HL
    by (intros off cap w Ho; unfold LL_ENABLE, LL_DISABLE; by rewrite Hc).
  unfold fuse_apply_conn_info_opts. cbv zeta. f_equal; try (rewrite !Hc by discriminate; reflexivity).
  repeat match goal with
    | |- LL_DISABLE _ ?off ?cap _ = _ => rewrite (proj2 (HL off cap _ ltac:(discriminate))); f_equal
    | |- LL_ENABLE _ ?off ?cap _ = _ => rewrite (proj1 (HL off cap _ ltac:(discriminate))); f_equal
    end.
Qed.
