(* ===== verification/Signals.v ===== *)
(** * Signal handlers: libfuse/lib/fuse_signals.c

    While a session is served, SIGHUP, SIGINT and SIGTERM end it and SIGPIPE
    does nothing, unless the program has its own handlers.  The state is the
    disposition of every signal, the session that the handler ends, and the
    outcomes of the next calls of sigaction (an empty list means success). *)

From S2P Require Import Prelude.

Inductive handler := SIG_DFL | SIG_IGN | H_exit | H_nothing | H_intr | H_user (n : Z).

#[export] Instance handler_eq_dec : EqDecision handler.
Proof. solve_decision. Defined.

Record signals := Signals { dispositions : gmap Z handler; fuse_instance : option Z; outcomes : list bool }.

Definition SIGHUP : Z := 1.
Definition SIGINT : Z := 2.
Definition SIGUSR1 : Z := 10.
Definition SIGPIPE : Z := 13.
Definition SIGTERM : Z := 15.

Definition disp (s : signals) (sig : Z) : handler := default SIG_DFL (dispositions s !! sig).

(** A call of sigaction: whether it succeeds. *)
Definition sigaction_ok : ST signals bool := fun s =>
  match outcomes s with
  | [] => Some (true, s)
  | b :: l => Some (b, Signals (dispositions s) (fuse_instance s) l)
  end.

Definition install (sig : Z) (h : handler) : ST signals unit :=
  modify (fun s => Signals (<[sig := h]> (dispositions s)) (fuse_instance s) (outcomes s)).

Definition set_one_signal_handler (sig : Z) (h : handler) (remove : bool) : ST signals Z :=
  ok ← sigaction_ok;
  if negb ok then mret (-1) else
  s ← get;
  if decide (disp s sig = (if remove then h else SIG_DFL)) then
    ok ← sigaction_ok;
    if negb ok then mret (-1) else _ ← install sig (if remove then SIG_DFL else h); mret 0
  else mret 0.

(** The handlers, in the order in which they are installed. *)
Definition own_handlers : list (Z * handler) := [(SIGHUP, H_exit); (SIGINT, H_exit); (SIGTERM, H_exit); (SIGPIPE, H_nothing)].

Fixpoint set_all (l : list (Z * handler)) : ST signals Z :=
  match l with
  | [] => mret 0
  | (sig, h) :: l => r ← set_one_signal_handler sig h false; if r =? -1 then mret (-1) else set_all l
  end.

Definition fuse_set_signal_handlers (se : Z) : ST signals Z :=
  r ← set_all own_handlers;
  if r =? -1 then mret (-1) else
  _ ← modify (fun s => Signals (dispositions s) (Some se) (outcomes s)); mret 0.

Fixpoint remove_all (l : list (Z * handler)) : ST signals unit :=
  match l with
  | [] => mret tt
  | (sig, h) :: l => _ ← set_one_signal_handler sig h true; remove_all l
  end.

Definition fuse_remove_signal_handlers (se : Z) : ST signals unit :=
  s ← get;
  _ ← (if decide (fuse_instance s = Some se) then modify (fun s => Signals (dispositions s) None (outcomes s)) else mret tt);
  remove_all own_handlers.

(** The signal that interrupts a request, in fuse.c: the result, and whether
    the handler was installed. *)
Definition fuse_init_intr_signal (signum : Z) : ST signals (Z * bool) :=
  ok ← sigaction_ok;
  if negb ok then mret (-1, false) else
  s ← get;
  if decide (disp s signum = SIG_DFL) then
    ok ← sigaction_ok;
    if negb ok then mret (-1, false) else _ ← install signum H_intr; mret (0, true)
  else mret (0, false).

Definition fuse_restore_intr_signal (signum : Z) : ST signals unit :=
  ok ← sigaction_ok; if (ok : bool) then install signum SIG_DFL else mret tt.

(** What a signal does: the default action, nothing, the end of a session, or
    something of the program. *)
Inductive reaction := R_default | R_nothing | R_exit (se : Z) | R_user (n : Z).

Definition deliver (s : signals) (sig : Z) : reaction :=
  match disp s sig with
  | SIG_DFL => R_default
  | SIG_IGN | H_nothing | H_intr => R_nothing
  | H_exit => match fuse_instance s with Some se => R_exit se | None => R_nothing end
  | H_user n => R_user n
  end.

(** ** Setting and removing *)

Lemma sigaction_eq s : exists ok o, sigaction_ok s = Some (ok, Signals (dispositions s) (fuse_instance s) o) /\
  (outcomes s = [] -> ok = true /\ o = []).
Proof. destruct s as [d i [|b o]]; [exists true, []|exists b, o]; by split. Qed.

Lemma disp_insert d i o sig sig' h : disp (Signals (<[sig := h]> d) i o) sig' = if decide (sig = sig') then h else disp (Signals d i o) sig'.
Proof. unfold disp. cbn. rewrite lookup_insert. by case_decide. Qed.

(** A default is replaced, or there is an error and nothing changes. *)
Lemma set_one_ok sig h s : exists r s', set_one_signal_handler sig h false s = Some (r, s') /\ fuse_instance s' = fuse_instance s /\
  (outcomes s = [] -> outcomes s' = [] /\ r = 0) /\
  (r = -1 /\ dispositions s' = dispositions s \/
   r = 0 /\ forall x, disp s' x = if decide (x = sig /\ disp s x = SIG_DFL) then h else disp s x).
Proof.
  unfold set_one_signal_handler. destruct (sigaction_eq s) as (ok & o & E & Ho). rewrite (bind_step _ _ _ _ _ E). destruct ok; cbn [negb].
  2:{ eexists _, _. split; [reflexivity|]. split; [done|]. split; [intros He; by destruct (Ho He)|by left]. }
  rewrite bind_get. set (s1 := Signals _ _ _). change (disp s1 sig) with (disp s sig). case_decide as Ed.
  2:{ eexists _, _. split; [reflexivity|]. split; [done|]. split; [intros He; by destruct (Ho He)|right]. split; [done|]. intros x. rewrite decide_False; [done|]. intros [-> ?]. done. }
  destruct (sigaction_eq s1) as (ok & o2 & E2 & Ho2). rewrite (bind_step _ _ _ _ _ E2). destruct ok; cbn [negb].
  2:{ eexists _, _. split; [reflexivity|]. split; [done|]. split; [intros He; destruct (Ho He) as [_ ->]; by destruct (Ho2 eq_refl)|by left]. }
  unfold install. rewrite bind_modify. eexists _, _. split; [reflexivity|]. split; [done|]. split; [intros He; destruct (Ho He) as [_ ->]; by destruct (Ho2 eq_refl)|right].
  split; [done|]. intros x. cbn [dispositions]. rewrite disp_insert. change (disp (Signals (dispositions s) _ _) x) with (disp s x).
  destruct (decide (sig = x)) as [->|Hne]; [by rewrite decide_True|]. rewrite decide_False; [done|]. intros [-> _]. done.
Qed.

Lemma remove_one_ok sig h s : outcomes s = [] -> exists r s', set_one_signal_handler sig h true s = Some (r, s') /\ fuse_instance s' = fuse_instance s /\
  outcomes s' = [] /\ forall x, disp s' x = if decide (x = sig /\ disp s x = h) then SIG_DFL else disp s x.
Proof.
  intros Ho. destruct s as [d i o]. cbn in Ho. subst o. unfold set_one_signal_handler. cbn [sigaction_ok outcomes].
  unfold mbind at 1, ST_bind at 1. cbn [sigaction_ok outcomes negb]. rewrite bind_get. case_decide as Ed.
  - unfold mbind at 1, ST_bind at 1. cbn [sigaction_ok outcomes negb]. unfold install. rewrite bind_modify. eexists _, _. split; [reflexivity|]. split; [done|]. split; [done|].
    intros x. cbn [dispositions]. rewrite disp_insert. destruct (decide (sig = x)) as [->|Hne]; [by rewrite decide_True|]. rewrite decide_False; [done|]. intros [-> _]. done.
  - eexists _, _. split; [reflexivity|]. split; [done|]. split; [done|]. intros x. rewrite decide_False; [done|]. intros [-> ?]. done.
Qed.

(** The handler for [x] in a list. *)
Fixpoint own_for (l : list (Z * handler)) (x : Z) : option handler :=
  match l with [] => None | (sig, h) :: l => if decide (x = sig) then Some h else own_for l x end.

Lemma own_for_None l x : x ∉ l.*1 -> own_for l x = None.
Proof.
  induction l as [|[sig h] l IH]; [done|]. cbn. rewrite not_elem_of_cons. intros [? ?]. rewrite decide_False by done. auto.
Qed.

Lemma set_all_ok l : NoDup l.*1 -> forall s, exists r s', set_all l s = Some (r, s') /\ fuse_instance s' = fuse_instance s /\ (outcomes s = [] -> outcomes s' = [] /\ r = 0) /\
  (r = -1 \/ r = 0 /\ forall x h, own_for l x = Some h -> disp s x = SIG_DFL -> disp s' x = h) /\
  forall x, disp s' x = disp s x \/ disp s x = SIG_DFL /\ own_for l x = Some (disp s' x).
Proof.
  induction l as [|[sig h] l IH]; intros Hnd s; cbn [set_all]; [exists 0, s; split; [done|]; split; [done|]; split; [done|]; split; [by right|by left]|].
  cbn in Hnd. apply NoDup_cons in Hnd as [Hn Hnd].
  destruct (set_one_ok sig h s) as (r & s1 & E & I1 & O1 & Hr). rewrite (bind_step _ _ _ _ _ E). destruct Hr as [[-> Hd]|[-> Hd]]; cbn [Z.eqb Pos.eqb].
  { exists (-1), s1. split; [done|]. split; [done|]. split; [intros He; by destruct (O1 He)|]. split; [by left|]. intros x. left. unfold disp. by rewrite Hd. }
  destruct (IH Hnd s1) as (r & s' & E' & I' & O' & Hset & Hall). exists r, s'. split; [done|]. split; [congruence|].
  split; [intros He; destruct (O1 He); auto|].
  assert (disp s' sig = disp s1 sig) as Hsig by (destruct (Hall sig) as [?|[_ Ho]]; [done|]; by rewrite own_for_None in Ho). split.
  - destruct Hset as [?|[-> Hset]]; [by left|right]. split; [done|]. intros x h' Ho Hdef. cbn [own_for] in Ho. case_decide as Ex.
    + injection Ho as <-. subst x. by rewrite Hsig, Hd, decide_True.
    + apply Hset; [done|]. rewrite Hd, decide_False; [done|]. by intros [-> _].
  - intros x. cbn [own_for]. case_decide as Ex.
    + subst x. rewrite Hsig, Hd. case_decide as Ed; [right; by destruct Ed|by left].
    + specialize (Hall x). rewrite Hd in Hall. rewrite decide_False in Hall by (by intros [-> _]). done.
Qed.

Lemma remove_all_ok l : NoDup l.*1 -> forall s, outcomes s = [] -> exists s', remove_all l s = Some (tt, s') /\ fuse_instance s' = fuse_instance s /\
  forall x, disp s' x = if decide (own_for l x = Some (disp s x)) then SIG_DFL else disp s x.
Proof.
  induction l as [|[sig h] l IH]; intros Hnd s Ho; cbn [remove_all]; [by exists s|]. cbn in Hnd. apply NoDup_cons in Hnd as [Hn Hnd].
  destruct (remove_one_ok sig h s Ho) as (r & s1 & E & I1 & O1 & Hd). rewrite (bind_step _ _ _ _ _ E).
  destruct (IH Hnd s1 O1) as (s' & E' & I' & Hall). exists s'. split; [done|]. split; [congruence|]. intros x. rewrite Hall, Hd. cbn [own_for].
  destruct (decide (x = sig)) as [->|Hne].
  - rewrite own_for_None by done. rewrite decide_False by done. destruct (decide (disp s sig = h)) as [<-|Hh]; [by rewrite !decide_True|].
    rewrite !decide_False; [done| |]; [congruence|tauto].
  - rewrite (decide_False (P := x = sig /\ disp s x = h)) by tauto. done.
Qed.

(** Whether or not all handlers could be set, removing them afterwards leaves
    every signal as it was, if none of them had one of these handlers before;
    while they are set, a signal that had its default action ends the session
    (SIGPIPE does nothing) and all others do what they did. *)
Theorem handlers_given_back s se :
  (forall x, own_for own_handlers x <> Some (disp s x)) ->
  exists r s1, fuse_set_signal_handlers se s = Some (r, s1) /\
    (r = 0 /\ fuse_instance s1 = Some se /\
       (forall sig, sig ∈ [SIGHUP; SIGINT; SIGTERM] -> disp s sig = SIG_DFL -> deliver s1 sig = R_exit se) /\
       (disp s SIGPIPE = SIG_DFL -> deliver s1 SIGPIPE = R_nothing) \/
     r = -1 /\ fuse_instance s1 = fuse_instance s) /\
    (forall x, disp s x <> SIG_DFL -> disp s1 x = disp s x) /\
    exists s2, fuse_remove_signal_handlers se (Signals (dispositions s1) (fuse_instance s1) []) = Some (tt, s2) /\
      forall x, disp s2 x = disp s x.
Proof.
  intros Hown. assert (NoDup own_handlers.*1) as Hnd by (vm_compute; repeat constructor; set_solver).
  destruct (set_all_ok own_handlers Hnd s) as (r & s1 & E & I1 & _ & Hset & Hall). unfold fuse_set_signal_handlers. rewrite (bind_step _ _ _ _ _ E).
  assert (forall i, exists s2, fuse_remove_signal_handlers se (Signals (dispositions s1) i []) = Some (tt, s2) /\ forall x, disp s2 x = disp s x) as Hrem.
  { intros i. unfold fuse_remove_signal_handlers. rewrite bind_get. cbn [fuse_instance].
    assert (exists j, (if decide (i = Some se) then modify (fun s => Signals (dispositions s) None (outcomes s)) else mret tt) (Signals (dispositions s1) i []) =
      Some (tt, Signals (dispositions s1) j [])) as (j & Ej) by (case_decide; by eexists). rewrite (bind_step _ _ _ _ _ Ej).
    destruct (remove_all_ok own_handlers Hnd (Signals (dispositions s1) j []) eq_refl) as (s2 & E2 & _ & Hd). exists s2. split; [done|]. intros x. rewrite Hd.
    change (disp (Signals (dispositions s1) j []) x) with (disp s1 x). destruct (Hall x) as [Ex|[Edef Ho]].
    - rewrite Ex. by rewrite decide_False.
    - by rewrite decide_True. }
  assert (forall x, disp s x <> SIG_DFL -> disp s1 x = disp s x) as Hkeep by (intros x Hx; by destruct (Hall x) as [?|[? _]]).
  destruct Hset as [->|[-> Hset]]; cbn [Z.eqb Pos.eqb].
  - exists (-1), s1. split; [done|]. split; [by right|]. split; [done|]. apply Hrem.
  - rewrite bind_modify. eexists 0, _. split; [reflexivity|]. split; [left|split; [done|apply Hrem]]. split; [done|]. split; [done|]. unfold deliver. split.
    + intros sig Hs Hdef. change (disp (Signals (dispositions s1) (Some se) (outcomes s1)) sig) with (disp s1 sig).
      rewrite (Hset sig H_exit); [done| |done]. by repeat (apply elem_of_cons in Hs as [->|Hs]; [done|]); apply elem_of_nil in Hs.
    + intros Hdef. change (disp (Signals (dispositions s1) (Some se) (outcomes s1)) SIGPIPE) with (disp s1 SIGPIPE). by rewrite (Hset SIGPIPE H_nothing).
Qed.

Lemma handlers_given_back_witness :
  let s := Signals {[SIGTERM := H_user 7]} None [true; true; true; true; true; false] in
  exists r s1, fuse_set_signal_handlers 5 s = Some (r, s1) /\ r = -1 /\ disp s1 SIGHUP = H_exit /\ deliver s1 SIGHUP = R_nothing /\
    disp s1 SIGTERM = H_user 7 /\
    exists s2, fuse_remove_signal_handlers 5 (Signals (dispositions s1) (fuse_instance s1) []) = Some (tt, s2) /\ forall x, disp s2 x = disp s x.
Proof.
  intros s. destruct (handlers_given_back s 5) as (r & s1 & E & _ & _ & Hrem).
  { intros x. cbn [own_for own_handlers]. unfold disp. cbn [s dispositions].
    repeat (case_decide; [subst x; vm_compute; congruence|]). done. }
  exists r, s1. split; [exact E|]. vm_compute in E. injection E as <- <-. split; [done|]. split; [done|]. split; [done|]. split; [done|]. exact Hrem.
Defined.

(** fuse_main_real does not remove handlers when setting them fails: then those
    that were set stay, without a session, and the signal is lost. *)
Example failed_set_swallows : exists s1,
  fuse_set_signal_handlers 5 (Signals ∅ None [true; true; false]) = Some (-1, s1) /\ deliver s1 SIGHUP = R_nothing.
Proof. eexists. split; reflexivity. Qed.
