(* ===== verification/Modules.v ===== *)
(** * The modules of a process: libfuse/lib/fuse.c

    The library keeps a list of modules, each with a counter and perhaps the
    shared object it was loaded from, and a stack of file systems: a module put
    on top of another file system refers to that file system and to its entry
    in the list.  Modules are found by name or loaded, and given back when
    their file system goes; what has been given back is freed.

    dlopen and dlsym are a parameter, and so is what a module makes of its
    options. *)

From S2P Require Import Prelude FuseOpt.

(** [struct fuse_module], [struct fusemod_so] (its counter) and the part of
    [struct fuse_fs] that the library looks at; [fs_next] is the file system
    below, which the module keeps in its own data. *)
Record fuse_module := FuseModule { m_name : bytes; m_ctr : Z; m_so : option Z }.

Record fuse_fs := FuseFs { fs_m : option Z; fs_next : option Z }.

(** The static variables of fuse.c and the objects they refer to. *)
Record process := Process {
  fuse_modules : list Z; mods : gmap Z fuse_module; sos : gmap Z Z; builtin_modules_registered : bool;
  fuse_context_ref : Z; fss : gmap Z fuse_fs; p_next : Z; p_heap : heap }.

Definition set_modules (l : list Z) (m : gmap Z fuse_module) (p : process) : process :=
  Process l m (sos p) (builtin_modules_registered p) (fuse_context_ref p) (fss p) (p_next p) (p_heap p).
Definition set_sos (s : gmap Z Z) (p : process) : process :=
  Process (fuse_modules p) (mods p) s (builtin_modules_registered p) (fuse_context_ref p) (fss p) (p_next p) (p_heap p).
Definition set_builtin (b : bool) (p : process) : process :=
  Process (fuse_modules p) (mods p) (sos p) b (fuse_context_ref p) (fss p) (p_next p) (p_heap p).
Definition set_context_ref (c : Z) (p : process) : process :=
  Process (fuse_modules p) (mods p) (sos p) (builtin_modules_registered p) c (fss p) (p_next p) (p_heap p).
Definition set_fss (m : gmap Z fuse_fs) (p : process) : process :=
  Process (fuse_modules p) (mods p) (sos p) (builtin_modules_registered p) (fuse_context_ref p) m (p_next p) (p_heap p).
Definition set_p_next (a : Z) (p : process) : process :=
  Process (fuse_modules p) (mods p) (sos p) (builtin_modules_registered p) (fuse_context_ref p) (fss p) a (p_heap p).
Definition set_p_heap (h : heap) (p : process) : process :=
  Process (fuse_modules p) (mods p) (sos p) (builtin_modules_registered p) (fuse_context_ref p) (fss p) (p_next p) h.

(** A process before its first file system. *)
Definition process0 (h : heap) : process := Process [] ∅ ∅ false 0 ∅ 1 h.

Abbreviation PM := (ST process).

Definition on_p_heap {A} (m : ST heap A) : PM A := fun p =>
  match m (p_heap p) with Some (a, h) => Some (a, set_p_heap h p) | None => None end.

(** The address of a new object. *)
Definition new_addr : PM Z := p ← get; _ ← put (set_p_next (p_next p + 1) p); mret (p_next p).

(** Dereference an object; a freed one aborts. *)
Definition deref {A} (o : option A) : PM A := match o with Some a => mret a | None => abort end.
Definition mod_at (a : Z) : PM fuse_module := p ← get; deref (mods p !! a).
Definition so_at (a : Z) : PM Z := p ← get; deref (sos p !! a).
Definition fs_at (a : Z) : PM fuse_fs := p ← get; deref (fss p !! a).

Definition set_ctr (c : Z) (m : fuse_module) : fuse_module := FuseModule (m_name m) c (m_so m).

(** ** The list of modules *)

Definition fuse_register_module (name : bytes) (so : option Z) : PM Z :=
  ok ← on_p_heap malloc;
  if negb ok then mret (-1) else
  ok ← on_p_heap malloc;
  if negb ok then mret (-1) else
  a ← new_addr;
  _ ← match so with Some s => c ← so_at s; modify (fun p => set_sos (<[s := i32 (c + 1)]> (sos p)) p) | None => mret tt end;
  _ ← modify (fun p => set_modules (a :: fuse_modules p) (<[a := FuseModule name 0 so]> (mods p)) p);
  mret 0.

(** The first occurrence in the list. *)
Fixpoint list_without (a : Z) (l : list Z) : list Z :=
  match l with [] => [] | b :: l => if b =? a then l else b :: list_without a l end.

Definition fuse_unregister_module (a : Z) : PM unit :=
  _ ← mod_at a;
  modify (fun p => set_modules (list_without a (fuse_modules p)) (delete a (mods p)) p).

(** What dlopen and dlsym say about the file and the symbol of a module. *)
Inductive so_file := No_file | No_symbol | Loadable.

Section Code.
Context (so_of : bytes -> so_file).

(** What a module makes of the arguments: whether it can be set up, and the
    arguments that it leaves. *)
Context (factory : bytes -> fuse_args -> bool * fuse_args).

Definition fuse_load_so_module (name : bytes) : PM Z :=
  ok ← on_p_heap malloc;
  if negb ok then mret (-1) else
  ok ← on_p_heap malloc;
  if negb ok then mret (-1) else
  so ← new_addr;
  match so_of name with
  | Loadable =>
      _ ← modify (fun p => set_sos (<[so := 0]> (sos p)) p);
      ret ← fuse_register_module name (Some so);
      _ ← (if negb (ret =? 0) then modify (fun p => set_sos (delete so (sos p)) p) else mret tt);
      mret ret
  | _ => mret (-1)
  end.

(** The first module of that name, with one more user. *)
Fixpoint find_module_in (l : list Z) (name : bytes) : PM (option Z) :=
  match l with
  | [] => mret None
  | a :: l =>
      m ← mod_at a;
      if streq name (m_name m) then
        _ ← modify (fun p => set_modules (fuse_modules p) (<[a := set_ctr (i32 (m_ctr m + 1)) m]> (mods p)) p);
        mret (Some a)
      else find_module_in l name
  end.

Definition fuse_find_module (name : bytes) : PM (option Z) := p ← get; find_module_in (fuse_modules p) name.

Definition fuse_get_module (name : bytes) : PM (option Z) :=
  m ← fuse_find_module name;
  match m with
  | Some a => mret (Some a)
  | None => err ← fuse_load_so_module name; if err =? 0 then fuse_find_module name else mret None
  end.

(** The loop over the list that unregisters the modules of a shared object. *)
Fixpoint unregister_so (so : Z) (l : list Z) : PM unit :=
  match l with
  | [] => mret tt
  | a :: l =>
      m ← mod_at a;
      _ ← (if bool_decide (m_so m = Some so) then fuse_unregister_module a else mret tt);
      unregister_so so l
  end.

Definition fuse_put_module (a : Z) : PM unit :=
  m ← mod_at a;
  _ ← check (bool_decide (m_so m = None) || (0 <? m_ctr m));
  let c := if 0 <? m_ctr m then m_ctr m - 1 else m_ctr m in
  _ ← modify (fun p => set_modules (fuse_modules p) (<[a := set_ctr c m]> (mods p)) p);
  if negb (c =? 0) then mret tt else
  match m_so m with
  | Some so =>
      k ← so_at so;
      _ ← check (0 <? k);
      _ ← modify (fun p => set_sos (<[so := k - 1]> (sos p)) p);
      if k - 1 =? 0 then
        p ← get; _ ← unregister_so so (fuse_modules p); modify (fun p => set_sos (delete so (sos p)) p)
      else mret tt
  | None => fuse_unregister_module a
  end.

(** ** The stack of file systems *)

Definition fuse_fs_new (next : option Z) : PM (option Z) :=
  ok ← on_p_heap malloc;
  if negb ok then mret None else
  a ← new_addr; _ ← modify (fun p => set_fss (<[a := FuseFs None next]> (fss p)) p); mret (Some a).

(** [top] is [f->fs]; the result is the new one, or null. *)
Definition fuse_push_module (top : Z) (name : bytes) (args : fuse_args) : PM (option Z * fuse_args) :=
  m ← fuse_get_module name;
  match m with
  | None => mret (None, args)
  | Some m =>
      let '(ok, args) := factory name args in
      newfs ← (if ok then fuse_fs_new (Some top) else mret None);
      match newfs with
      | None => _ ← fuse_put_module m; mret (None, args)
      | Some a =>
          x ← fs_at a;
          _ ← modify (fun p => set_fss (<[a := FuseFs (Some m) (fs_next x)]> (fss p)) p);
          mret (Some a, args)
      end
  end.

(** The names between colons. *)
Fixpoint module_names (s cur : bytes) : list bytes :=
  match s with
  | [] => [cur]
  | c :: s => if c =? 58 then cur :: module_names s [] else module_names s (cur ++ [c])
  end.

(** The loop over the names in fuse_new_31: the file system on top, and whether
    all modules could be pushed. *)
Fixpoint push_modules (top : Z) (names : list bytes) (args : fuse_args) : PM (bool * Z * fuse_args) :=
  match names with
  | [] => mret (true, top, args)
  | n :: names =>
      if bool_decide (n = []) then push_modules top names args else
      r ← fuse_push_module top n args;
      match r with
      | (Some top, args) => push_modules top names args
      | (None, args) => mret (false, top, args)
      end
  end.

(** The destroy callback of a module calls fuse_fs_destroy on the file system
    below, before it returns; [fuel] bounds the height of the stack. *)
Fixpoint fs_destroy_loop (fuel : nat) (a : Z) : PM unit :=
  match fuel with
  | O => abort
  | S fuel =>
      x ← fs_at a;
      _ ← match fs_next x with Some b => fs_destroy_loop fuel b | None => mret tt end;
      _ ← match fs_m x with Some m => fuse_put_module m | None => mret tt end;
      modify (fun p => set_fss (delete a (fss p)) p)
  end.

Definition fuse_fs_destroy (a : Z) : PM unit := p ← get; fs_destroy_loop (S (size (fss p))) a.

(** [while (fuse_modules) fuse_put_module(fuse_modules)] *)
Fixpoint put_all_loop (fuel : nat) : PM unit :=
  match fuel with
  | O => abort
  | S fuel =>
      p ← get;
      match fuse_modules p with [] => mret tt | a :: _ => _ ← fuse_put_module a; put_all_loop fuel end
  end.

(** One turn for every user of every module suffices. *)
Definition users (p : process) : nat :=
  sum_list_with (fun a => match mods p !! a with Some m => S (Z.to_nat (m_ctr m)) | None => 1%nat end) (fuse_modules p).

Definition put_all : PM unit := p ← get; put_all_loop (S (users p)).

(** ** Contexts and the built-in modules *)

(** [key_ok]: the outcome of pthread_key_create. *)
Definition fuse_create_context_key (key_ok : bool) : PM Z :=
  p ← get;
  if (fuse_context_ref p =? 0) && negb key_ok then mret (-1) else
  _ ← put (set_context_ref (i32 (fuse_context_ref p + 1)) p); mret 0.

(** The key goes with its last user. *)
Definition fuse_delete_context_key : PM unit := modify (fun p => set_context_ref (i32 (fuse_context_ref p - 1)) p).

(** The results are not looked at. *)
Definition register_builtin : PM unit :=
  p ← get;
  if builtin_modules_registered p then mret tt else
  _ ← fuse_register_module (lit "subdir") None;
  _ ← fuse_register_module (lit "iconv") None;
  modify (set_builtin true).
End Code.
