(* ===== verification/ModulesSpec.v ===== *)
(** * The modules of a process: the invariant

    The counter of a module is the number of file systems that refer to it, no
    file system refers to a module that is gone, and a shared object stays as
    long as its module. *)

From S2P Require Import Prelude FuseOpt Modules.

(** The file systems that refer to the module [a]. *)
Definition uses (F : gmap Z fuse_fs) (a : Z) : nat := size (filter (fun kv => fs_m kv.2 = Some a) F).

(** The list of modules; [x] counts the references of running code. *)
Record list_ok (p : process) : Prop := {
  l_nodup : NoDup (fuse_modules p);
  l_dom : forall a, a ∈ fuse_modules p <-> is_Some (mods p !! a);
  l_so : forall a m so, mods p !! a = Some m -> m_so m = Some so -> sos p !! so = Some 1 /\ 0 < m_ctr m;
  l_one : forall a b m n so, mods p !! a = Some m -> mods p !! b = Some n -> m_so m = Some so -> m_so n = Some so -> a = b;
  l_sos : forall so, is_Some (sos p !! so) -> exists a m, mods p !! a = Some m /\ m_so m = Some so;
  l_pos : forall a m, mods p !! a = Some m -> 0 <= m_ctr m;
  l_next : forall a, is_Some (mods p !! a) \/ is_Some (sos p !! a) \/ is_Some (fss p !! a) -> a < p_next p }.

Record mods_ok (x : Z -> Z) (p : process) : Prop := {
  g_list : list_ok p;
  g_ctr : forall a m, mods p !! a = Some m -> m_ctr m = x a + Z.of_nat (uses (fss p) a);
  g_live : forall f y a, fss p !! f = Some y -> fs_m y = Some a -> is_Some (mods p !! a);
  g_held : forall a, 0 <= x a /\ (0 < x a -> is_Some (mods p !! a)) }.

Definition bump (a : Z) (x : Z -> Z) (b : Z) : Z := if decide (b = a) then x b + 1 else x b.

Definition none : Z -> Z := fun _ => 0.

(** No counter is about to overflow. *)
Definition room (p : process) : Prop := forall a m, mods p !! a = Some m -> m_ctr m < 2 ^ 31 - 1.

(** What getting and putting modules leaves alone; modules keep their names. *)
Record same_but (p p' : process) : Prop := {
  b_fss : fss p' = fss p; b_builtin : builtin_modules_registered p' = builtin_modules_registered p;
  b_ref : fuse_context_ref p' = fuse_context_ref p; b_next : p_next p <= p_next p' }.

Definition names_kept (p p' : process) : Prop := forall a m, mods p !! a = Some m -> exists m', mods p' !! a = Some m' /\ m_name m' = m_name m.

#[export] Instance same_but_preorder : PreOrder same_but.
Proof. split; [by split|]. intros p q r [? ? ? ?] [? ? ? ?]. split; (congruence || lia). Qed.

#[export] Instance names_kept_preorder : PreOrder names_kept.
Proof.
  split; [by intros p a m ?; exists m|]. intros p q r H1 H2 a m (m' & Hm & En)%H1. apply H2 in Hm as (n & ? & ?). exists n. split; congruence.
Qed.

Lemma p_malloc p : exists ok h, on_p_heap malloc p = Some (ok, set_p_heap h p).
Proof. unfold on_p_heap, malloc. destruct (p_heap p) as [|b h]; by eexists _, _. Qed.

Lemma list_ok_heap p h : list_ok p <-> list_ok (set_p_heap h p).
Proof. split; intros []; by split. Qed.

Lemma mods_ok_heap x p h : mods_ok x p <-> mods_ok x (set_p_heap h p).
Proof. split; intros [L ? ? ?]; split; try done; by apply list_ok_heap in L || apply (list_ok_heap p h). Qed.

Lemma same_heap p h : same_but p (set_p_heap h p).
Proof. by split. Qed.

(** ** Lists *)

Lemma without_elem a b l : NoDup l -> b ∈ list_without a l <-> b ∈ l /\ b <> a.
Proof.
  induction 1 as [|c l Hc Hl IH]; cbn [list_without]; [set_solver|]. destruct (Z.eqb_spec c a) as [->|Hne].
  - rewrite elem_of_cons. split; [|naive_solver]. intros Hb. split; [by right|]. by intros ->.
  - rewrite !elem_of_cons, IH. naive_solver.
Qed.

Lemma without_NoDup a l : NoDup l -> NoDup (list_without a l).
Proof.
  induction 1 as [|c l Hc Hl IH]; cbn [list_without]; [constructor|]. destruct (Z.eqb_spec c a); [done|]. constructor; [|done].
  intros [? _]%without_elem; done.
Qed.

(** ** Counting *)

Lemma uses_insert F a f y : F !! f = None -> uses (<[f := y]> F) a = ((if decide (fs_m y = Some a) then 1 else 0) + uses F a)%nat.
Proof.
  intros Hf. unfold uses. case_decide as E.
  - rewrite map_filter_insert_True by done. rewrite map_size_insert_None; [done|]. apply map_lookup_filter_None. by left.
  - rewrite map_filter_insert_False by done. by rewrite delete_id.
Qed.

Lemma uses_delete F a f y : F !! f = Some y -> uses F a = ((if decide (fs_m y = Some a) then 1 else 0) + uses (delete f F) a)%nat.
Proof. intros Hf. rewrite <- (insert_delete_id F f y) at 1 by done. apply uses_insert. apply lookup_delete_eq. Qed.

Lemma uses_zero F a : uses F a = 0%nat -> forall f y, F !! f = Some y -> fs_m y <> Some a.
Proof.
  intros E f y Hf Hy. unfold uses in E. apply map_size_empty_inv in E.
  assert (filter (fun kv : Z * fuse_fs => fs_m kv.2 = Some a) F !! f = Some y) as Hl by (by apply map_lookup_filter_Some). by rewrite E in Hl.
Qed.

Lemma uses_none F a : (forall f y, F !! f = Some y -> fs_m y <> Some a) -> uses F a = 0%nat.
Proof. intros Hn. apply map_size_empty_iff, map_empty. intros f. apply map_lookup_filter_None. right. intros y Hy. by apply (Hn f y). Qed.

(** ** Giving a module back *)

Lemma unregister_none so l p : Forall (fun a => exists m, mods p !! a = Some m /\ m_so m <> Some so) l -> unregister_so so l p = Some (tt, p).
Proof.
  induction 1 as [|a l (m & Hm & Hs) _ IH]; [done|]. cbn [unregister_so]. unfold mod_at, deref. rewrite bind_assoc, bind_get, Hm, bind_ret.
  rewrite bool_decide_false by done. rewrite bind_ret. apply IH.
Qed.

Lemma unregister_one so l p a : NoDup l -> a ∈ l -> (forall b, b ∈ l -> exists m, mods p !! b = Some m /\ (m_so m = Some so <-> b = a)) ->
  unregister_so so l p = Some (tt, set_modules (list_without a (fuse_modules p)) (delete a (mods p)) p).
Proof.
  induction 1 as [|b l Hb Hl IH]; intros Ha Hall; [by apply elem_of_nil in Ha|]. cbn [unregister_so].
  destruct (Hall b) as (m & Hm & Hs); [by left|]. assert (mod_at b p = Some (m, p)) as Em by (unfold mod_at, deref; by rewrite bind_get, Hm).
  rewrite (bind_step _ _ _ _ _ Em). apply elem_of_cons in Ha as [->|Ha].
  - rewrite bool_decide_true by tauto. unfold fuse_unregister_module. rewrite bind_assoc, (bind_step _ _ _ _ _ Em), bind_modify.
    apply unregister_none. rewrite Forall_forall. intros c Hc. destruct (Hall c) as (n & Hn & Hns); [by right|]. exists n. cbn.
    rewrite lookup_delete_ne by (intros ->; done). split; [done|]. rewrite Hns. by intros ->.
  - rewrite bool_decide_false by (rewrite Hs; by intros ->). rewrite bind_ret. apply IH; [done|]. intros c Hc. apply Hall. by right.
Qed.

Lemma unregister_ok a p m : mods p !! a = Some m ->
  fuse_unregister_module a p = Some (tt, set_modules (list_without a (fuse_modules p)) (delete a (mods p)) p).
Proof. intros Hm. unfold fuse_unregister_module, mod_at, deref. by rewrite bind_assoc, bind_get, Hm, bind_ret. Qed.

(** A module without users is gone, and so is its shared object. *)
Definition gone (a : Z) (m : fuse_module) (p : process) : process :=
  let p := set_modules (list_without a (fuse_modules p)) (delete a (mods p)) p in
  match m_so m with Some so => set_sos (delete so (sos p)) p | None => p end.

Definition put_result (a : Z) (m : fuse_module) (p : process) : process :=
  if m_ctr m <=? 1 then gone a m p else set_modules (fuse_modules p) (<[a := set_ctr (m_ctr m - 1) m]> (mods p)) p.

Lemma put_module_eq p a m : list_ok p -> mods p !! a = Some m -> fuse_put_module a p = Some (tt, put_result a m p).
Proof.
  intros L Hm. assert (mod_at a p = Some (m, p)) as Em by (unfold mod_at, deref; by rewrite bind_get, Hm).
  unfold fuse_put_module, put_result. rewrite (bind_step _ _ _ _ _ Em). pose proof (l_pos _ L a m Hm) as Hpos.
  assert (bool_decide (m_so m = None) || (0 <? m_ctr m) = true) as ->.
  { destruct (m_so m) as [so|] eqn:Es; [|done]. apply orb_true_iff. right. apply Z.ltb_lt, (l_so _ L a m so Hm Es). }
  cbn [check]. rewrite bind_ret, bind_modify. set (p1 := set_modules _ _ p). set (c := if 0 <? m_ctr m then _ else _) in *.
  assert (c = 0 /\ m_ctr m <= 1 \/ c = m_ctr m - 1 /\ 1 < m_ctr m) as [[Hc Hle]|[Hc Hlt]].
  { unfold c. destruct (Z.ltb_spec 0 (m_ctr m)); lia. }
  2:{ rewrite Hc. destruct (Z.eqb_spec (m_ctr m - 1) 0); [lia|]. cbn [negb]. destruct (Z.leb_spec (m_ctr m) 1); [lia|]. unfold p1. by rewrite Hc. }
  rewrite Hc. cbn [Z.eqb negb]. destruct (Z.leb_spec (m_ctr m) 1); [|lia]. unfold gone.
  assert (delete a (<[a := set_ctr 0 m]> (mods p)) = delete a (mods p)) as Ed by apply delete_insert_eq.
  destruct (m_so m) as [so|] eqn:Es.
  2:{ rewrite (unregister_ok a p1 (set_ctr c m)) by (cbn; apply lookup_insert_eq). unfold p1. cbn [set_modules mods fuse_modules]. by rewrite Hc, Ed. }
  destruct (l_so _ L a m so Hm Es) as [Hso _]. unfold so_at, deref. rewrite bind_assoc, bind_get. change (sos p1) with (sos p). rewrite Hso, bind_ret.
  cbn [Z.ltb Z.compare check]. rewrite bind_ret, bind_modify. cbn [Z.sub Z.opp Z.add Z.eqb Pos.sub]. change (1 - 1 =? 0) with true. cbv iota. rewrite bind_get. set (p2 := set_sos _ p1).
  change (fuse_modules p2) with (fuse_modules p).
  erewrite bind_step. 2:{ apply (unregister_one so (fuse_modules p) p2 a (l_nodup _ L)).
    - apply (l_dom _ L). by eexists.
    - intros b Hb. destruct (proj1 (l_dom _ L b) Hb) as [n Hn]. destruct (decide (b = a)) as [->|Hne].
      + exists (set_ctr c m). split; [cbn; apply lookup_insert_eq|]. split; [done|]. by intros _.
      + exists n. split; [cbn; by rewrite lookup_insert_ne|]. split; [|done]. intros Hns. by apply (l_one _ L b a n m so). }
  unfold modify, p2, p1, set_sos, set_modules. cbn [fuse_modules mods sos builtin_modules_registered fuse_context_ref fss p_next p_heap].
  by rewrite Hc, Ed, delete_insert_eq.
Qed.

Lemma gone_ok p a m : list_ok p -> mods p !! a = Some m -> list_ok (gone a m p).
Proof.
  intros L Hm. assert (forall b n, mods (gone a m p) !! b = Some n <-> b <> a /\ mods p !! b = Some n) as HL.
  { intros b n. unfold gone. destruct (m_so m); cbn; rewrite lookup_delete_Some; naive_solver. }
  assert (fuse_modules (gone a m p) = list_without a (fuse_modules p)) as El by (unfold gone; by destruct (m_so m)).
  assert (fss (gone a m p) = fss p /\ p_next (gone a m p) = p_next p) as [Ef En] by (unfold gone; by destruct (m_so m)).
  assert (forall so k, sos (gone a m p) !! so = Some k <-> sos p !! so = Some k /\ m_so m <> Some so) as HS.
  { intros so k. unfold gone. destruct (m_so m) as [s|]; cbn; [rewrite lookup_delete_Some|]; naive_solver. }
  split; rewrite ?El, ?Ef, ?En.
  - apply without_NoDup, L.
  - intros b. rewrite without_elem by apply L. rewrite (l_dom _ L). unfold is_Some. setoid_rewrite HL. naive_solver.
  - intros b n so [Hb Hn]%HL Es. rewrite HS. destruct (l_so _ L b n so Hn Es). split; [|done]. split; [done|]. intros Em.
    apply Hb. by apply (l_one _ L b a n m so).
  - intros b c n n' so [_ Hb]%HL [_ Hc]%HL. by apply (l_one _ L).
  - intros so [k [Hk Hne]%HS]. destruct (l_sos _ L so) as (b & n & Hb & Hn); [by eexists|]. exists b, n. rewrite HL. split; [|done]. split; [|done].
    intros ->. congruence.
  - intros b n [_ Hb]%HL. by apply (l_pos _ L b).
  - intros b Hb. apply (l_next _ L). destruct Hb as [[n [_ Hn]%HL]|[[k [Hk _]%HS]|Hb]]; [left; by eexists|right; left; by eexists|by right; right].
Qed.

Lemma ctr_ok p a m c : list_ok p -> mods p !! a = Some m -> 0 < c -> list_ok (set_modules (fuse_modules p) (<[a := set_ctr c m]> (mods p)) p).
Proof.
  intros L Hm Hc. assert (forall b n, <[a := set_ctr c m]> (mods p) !! b = Some n -> exists n', mods p !! b = Some n' /\ m_so n = m_so n' /\ (m_ctr n = c \/ m_ctr n = m_ctr n')) as HL.
  { intros b n [[<- <-]|[_ Hn]]%lookup_insert_Some; [exists m|exists n]; auto. }
  split; cbn.
  - apply L.
  - intros b. rewrite (l_dom _ L), lookup_insert_is_Some. destruct (decide (a = b)) as [<-|]; [|naive_solver]. split; [auto|]. by eexists.
  - intros b n so (n' & Hn' & Es & Hx)%HL Hn. rewrite Es in Hn. destruct (l_so _ L b n' so Hn' Hn). split; [done|]. destruct Hx; lia.
  - intros b d n n' so (n1 & H1 & E1 & _)%HL (n2 & H2 & E2 & _)%HL. rewrite E1, E2. by apply (l_one _ L).
  - intros so (b & n & Hb & Hn)%(l_sos _ L). destruct (decide (a = b)) as [<-|Hne]; [exists a, (set_ctr c m)|exists b, n].
    + rewrite lookup_insert_eq. split; [done|]. cbn. congruence.
    + by rewrite lookup_insert_ne.
  - intros b n (n' & Hn' & _ & [->| ->])%HL; [lia|by apply (l_pos _ L b)].
  - intros b. rewrite lookup_insert_is_Some. intros Hb. apply (l_next _ L). destruct Hb as [[<-|[_ ?]]|?]; [left; by eexists|by left|by right].
Qed.

Lemma put_list_ok p a m : list_ok p -> mods p !! a = Some m -> list_ok (put_result a m p).
Proof.
  intros L Hm. unfold put_result. destruct (Z.leb_spec (m_ctr m) 1); [by apply gone_ok|]. apply ctr_ok; [done..|lia].
Qed.

Lemma put_same p a m : same_but p (put_result a m p).
Proof. unfold put_result, gone. destruct (_ <=? _); [destruct (m_so m)|]; by split. Qed.

Lemma put_lookup p a m b n : mods p !! a = Some m -> mods (put_result a m p) !! b = Some n <->
  (b <> a /\ mods p !! b = Some n \/ b = a /\ 1 < m_ctr m /\ n = set_ctr (m_ctr m - 1) m).
Proof.
  intros Hm. unfold put_result. destruct (Z.leb_spec (m_ctr m) 1).
  - unfold gone. destruct (m_so m); cbn; rewrite lookup_delete_Some; naive_solver lia.
  - cbn. rewrite lookup_insert_Some. naive_solver.
Qed.

(** A reference that running code holds is given back. *)
Lemma put_module_ok x p a : mods_ok (bump a x) p -> (forall b, 0 <= x b) ->
  exists p', fuse_put_module a p = Some (tt, p') /\ mods_ok x p' /\ same_but p p'.
Proof.
  intros [L C V H] Hx. destruct (H a) as [_ Ha]. unfold bump in Ha. rewrite decide_True in Ha by done. destruct Ha as [m Hm]; [specialize (Hx a); lia|].
  exists (put_result a m p). split; [by apply put_module_eq|]. pose proof (put_same p a m) as B. split; [|done].
  assert (m_ctr m = x a + 1 + Z.of_nat (uses (fss p) a)) as Ec by (rewrite (C a m Hm); unfold bump; by rewrite decide_True).
  assert (forall b, b <> a -> bump a x b = x b) as Hb by (intros b Hb; unfold bump; by rewrite decide_False).
  split; [by apply put_list_ok|..]; rewrite ?(b_fss _ _ B).
  - intros b n [[Hne Hn]|(-> & H1 & ->)]%put_lookup; [| |done]; [rewrite <- Hb by done; by apply C|]. cbn. lia.
  - intros f y b Hf Hy. destruct (V f y b Hf Hy) as [n Hn]. destruct (decide (b = a)) as [->|Hne].
    + destruct (decide (1 < m_ctr m)) as [?|Hle]; [eexists; apply put_lookup; [done|]; right; eauto|]. exfalso.
      apply (uses_zero (fss p) a ltac:(specialize (Hx a); lia) f y Hf Hy).
    + exists n. apply put_lookup; [done|]. by left.
  - intros b. split; [done|]. intros Hpos. destruct (decide (b = a)) as [->|Hne].
    + eexists. apply put_lookup; [done|]. right. split; [done|]. split; [lia|done].
    + destruct (H b) as [_ Hs]. rewrite Hb in Hs by done. destruct (Hs Hpos) as [n Hn]. exists n. apply put_lookup; [done|]. by left.
Qed.

(** ** Getting a module *)

Lemma new_addr_eq p : new_addr p = Some (p_next p, set_p_next (p_next p + 1) p).
Proof. done. Qed.

(** A new module at the head of the list. *)
Definition registered (name : bytes) (so : option Z) (p : process) : process :=
  let p := match so with Some s => set_sos (<[s := 1]> (sos p)) p | None => p end in
  set_modules (p_next p :: fuse_modules p) (<[p_next p := FuseModule name 0 so]> (mods p)) (set_p_next (p_next p + 1) p).

Lemma register_eq name so p : match so with Some s => sos p !! s = Some 0 | None => True end ->
  exists h, fuse_register_module name so p = Some (-1, set_p_heap h p) \/
    fuse_register_module name so p = Some (0, registered name so (set_p_heap h p)).
Proof.
  intros Hs. unfold fuse_register_module. destruct (p_malloc p) as (ok & h1 & E1). rewrite (bind_step _ _ _ _ _ E1).
  destruct ok; cbn [negb]; [|by exists h1; left]. destruct (p_malloc (set_p_heap h1 p)) as (ok & h2 & E2). rewrite (bind_step _ _ _ _ _ E2).
  exists h2. destruct ok; cbn [negb]; [right|by left]. rewrite (bind_step _ _ _ _ _ (new_addr_eq _)). destruct so as [s|].
  - unfold so_at, deref. rewrite !bind_assoc, bind_get. cbn [sos set_p_next set_p_heap]. rewrite Hs, bind_ret, bind_modify, bind_modify. done.
  - by rewrite bind_ret, bind_modify.
Qed.

Lemma registered_lookup name so p a m : mods (registered name so p) !! a = Some m <->
  a = p_next p /\ m = FuseModule name 0 so \/ a <> p_next p /\ mods p !! a = Some m.
Proof. unfold registered. destruct so; cbn; rewrite lookup_insert_Some; naive_solver. Qed.

Lemma next_free p : list_ok p -> mods p !! p_next p = None /\ sos p !! p_next p = None /\ fss p !! p_next p = None.
Proof.
  intros L. pose proof (l_next _ L (p_next p)) as Hn. assert (forall A (o : option A), (is_Some o -> p_next p < p_next p) -> o = None) as E.
  { intros A [a|] Ho; [|done]. specialize (Ho (ex_intro _ a eq_refl)). lia. }
  split; [|split]; apply E; tauto.
Qed.

Lemma uses_next x p : mods_ok x p -> uses (fss p) (p_next p) = 0%nat /\ x (p_next p) = 0.
Proof.
  intros [L C V H]. destruct (next_free p L) as (Hm & _ & _). split.
  - apply uses_none. intros f y Hf Hy. destruct (V f y _ Hf Hy). congruence.
  - destruct (H (p_next p)) as [H0 H1]. destruct (decide (0 < x (p_next p))) as [Hp|]; [|lia]. destruct (H1 Hp). congruence.
Qed.

Lemma registered_ok x name p : mods_ok x p -> mods_ok x (registered name None p).
Proof.
  intros Hp. destruct (uses_next x p Hp) as [Hu Hx]. destruct Hp as [L C V H]. destruct (next_free p L) as (Hm & Hs & Hf).
  pose proof (registered_lookup name None p) as HL. split; [split|..].
  - cbn. constructor; [|apply L]. intros Hin%(l_dom _ L). rewrite Hm in Hin. by destruct Hin.
  - intros a. unfold is_Some. setoid_rewrite HL. cbn. rewrite elem_of_cons, (l_dom _ L). split.
    + intros [->|[m Ha]]; [eauto|]. exists m. right. split; [|done]. congruence.
    + intros (m & [[-> _]|[_ Ha]]); [by left|right; by exists m].
  - intros a m so [[-> ->]|[_ Ha]]%HL; [done|]. cbn. by apply (l_so _ L a).
  - intros a b m n so [[-> ->]|[_ Ha]]%HL [[-> ->]|[_ Hb]]%HL; try done. by apply (l_one _ L).
  - intros so (a & m & Ha & Hso)%(l_sos _ L). exists a, m. rewrite HL. split; [|done]. right. split; [congruence|done].
  - intros a m [[-> ->]|[_ Ha]]%HL; [done|by apply (l_pos _ L a)].
  - intros a Ha. cbn. assert (a < p_next p \/ a = p_next p) as [?| ->]; [|lia..]. destruct Ha as [[m [[-> _]|[_ Ha]]%HL]|Ha]; [by right|left; apply (l_next _ L); left; by exists m|].
    left. apply (l_next _ L). by right.
  - intros a m [[-> ->]|[_ Ha]]%HL; [cbn; lia|]. by apply C.
  - intros f y a Hy1 Hy2. destruct (V f y a Hy1 Hy2) as [m Ha]. exists m. apply HL. right. split; [congruence|done].
  - intros a. destruct (H a) as [H0 H1]. split; [done|]. intros [m Ha]%H1. exists m. apply HL. right. split; [congruence|done].
Qed.

Definition counted (a : Z) (m : fuse_module) (p : process) : process :=
  set_modules (fuse_modules p) (<[a := set_ctr (i32 (m_ctr m + 1)) m]> (mods p)) p.

Lemma find_module_eq l name p : (forall a, a ∈ l -> is_Some (mods p !! a)) ->
  find_module_in l name p = Some (None, p) \/
  exists a m, a ∈ l /\ mods p !! a = Some m /\ m_name m = name /\ find_module_in l name p = Some (Some a, counted a m p).
Proof.
  induction l as [|a l IH]; intros Hl; [by left|]. cbn [find_module_in]. destruct (Hl a) as [m Hm]; [by left|].
  unfold mod_at, deref. rewrite bind_assoc, bind_get, Hm, bind_ret. unfold streq. case_bool_decide as E.
  - right. exists a, m. rewrite bind_modify. split; [by left|]. done.
  - destruct IH as [?|(b & n & Hb & ?)]; [intros; apply Hl; by right|by left|]. right. exists b, n. split; [by right|done].
Qed.

Lemma counted_ok x p a m : mods_ok x p -> mods p !! a = Some m -> m_ctr m < 2 ^ 31 - 1 -> mods_ok (bump a x) (counted a m p).
Proof.
  intros [L C V H] Hm Hc. pose proof (l_pos _ L a m Hm) as Hpos. assert (i32 (m_ctr m + 1) = m_ctr m + 1) as Ei by (apply swrap_id; lia).
  unfold counted. rewrite Ei. split; [apply ctr_ok; [done..|lia]|..]; cbn; unfold bump.
  - intros b n [[<- <-]|[Hne Hn]]%lookup_insert_Some; [rewrite decide_True by done; cbn; rewrite (C a m Hm); lia|]. rewrite decide_False by done. by apply C.
  - intros f y b Hf Hy. apply lookup_insert_is_Some'. right. by apply (V f y).
  - intros b. destruct (H b) as [H0 H1]. case_decide as E; [split; [lia|]; intros _; subst; rewrite lookup_insert_eq; by eexists|].
    split; [done|]. intros Hp. apply lookup_insert_is_Some'. right. by apply H1.
Qed.

Lemma counted_names p a m : mods p !! a = Some m -> names_kept p (counted a m p).
Proof.
  intros Hm b n Hn. unfold counted. cbn. destruct (decide (a = b)) as [<-|]; [rewrite lookup_insert_eq; eexists; split; [done|]; cbn; congruence|].
  rewrite lookup_insert_ne by done. by exists n.
Qed.

(** A module that was just loaded and found. *)
Lemma loaded_ok x name p so : mods_ok x p -> so = p_next p ->
  let p1 := set_sos (<[so := 0]> (sos p)) (set_p_next (so + 1) p) in
  let p2 := registered name (Some so) p1 in
  mods_ok (bump (so + 1) x) (counted (so + 1) (FuseModule name 0 (Some so)) p2).
Proof.
  intros Hp -> p1 p2. destruct (uses_next x p Hp) as [_ Hx0]. destruct Hp as [L C V H]. destruct (next_free p L) as (Hm & Hs & Hf).
  set (so := p_next p) in *. set (a := so + 1). assert (mods p !! a = None) as Hma.
  { destruct (mods p !! a) as [m|] eqn:E; [|done]. assert (a < so); [apply (l_next _ L); left; by eexists|lia]. }
  assert (uses (fss p) a = 0%nat) as Hu.
  { apply uses_none. intros f y Hf' Hy. destruct (V f y _ Hf' Hy). congruence. }
  assert (x a = 0) as Hxa. { destruct (H a) as [H0 H1]. destruct (decide (0 < x a)) as [Hp|]; [|lia]. destruct (H1 Hp). congruence. }
  assert (forall b m, mods (counted a (FuseModule name 0 (Some so)) p2) !! b = Some m <->
    b = a /\ m = FuseModule name 1 (Some so) \/ b <> a /\ mods p !! b = Some m) as HL.
  { intros b m. unfold counted. cbn. rewrite insert_insert_eq, lookup_insert_Some. naive_solver. }
  assert (forall s k, sos (counted a (FuseModule name 0 (Some so)) p2) !! s = Some k <-> s = so /\ k = 1 \/ s <> so /\ sos p !! s = Some k) as HS.
  { intros s k. unfold counted. cbn. rewrite insert_insert_eq, lookup_insert_Some. naive_solver. }
  assert (forall b n, mods p !! b = Some n -> m_so n <> Some so) as Hno.
  { intros b n Hb Hn. destruct (l_so _ L b n so Hb Hn). congruence. }
  split; [split|..].
  - cbn. constructor; [|apply L]. intros Hin%(l_dom _ L). fold a in Hin. rewrite Hma in Hin. by destruct Hin.
  - intros b. unfold is_Some. setoid_rewrite HL. cbn. fold a. rewrite elem_of_cons, (l_dom _ L). split.
    + intros [->|[m Hb]]; [eauto|]. exists m. right. split; [congruence|done].
    + intros (m & [[-> _]|[_ Hb]]); [by left|right; by exists m].
  - intros b m s [[-> ->]|[_ Hb]]%HL Es; rewrite HS.
    + injection Es as <-. split; [by left|done].
    + destruct (l_so _ L b m s Hb Es). split; [|done]. right. split; [|done]. intros ->. by apply (Hno b m Hb).
  - intros b c m n s [[-> ->]|[_ Hb]]%HL [[-> ->]|[_ Hc]]%HL E1 E2; [done| | |by apply (l_one _ L b c m n s)]; exfalso.
    + injection E1 as <-. by apply (Hno c n Hc).
    + injection E2 as <-. by apply (Hno b m Hb).
  - intros s [k [[-> ->]|[_ Hk]]%HS]; [exists a, (FuseModule name 1 (Some so)); split; [apply HL; by left|done]|].
    destruct (l_sos _ L s) as (b & n & Hb & Hn); [by eexists|]. exists b, n. split; [|done]. apply HL. right. split; [congruence|done].
  - intros b m [[-> ->]|[_ Hb]]%HL; [done|by apply (l_pos _ L b)].
  - intros b Hb. cbn. destruct Hb as [[m [[-> _]|[_ Hb]]%HL]|[[k [[-> _]|[_ Hk]]%HS]|Hb]]; [lia| |lia| |].
    + assert (b < so) by (apply (l_next _ L); left; by eexists). lia.
    + assert (b < so) by (apply (l_next _ L); right; left; by eexists). lia.
    + assert (b < so) by (apply (l_next _ L); by right; right). lia.
  - intros b m [[-> ->]|[Hne Hb]]%HL; unfold bump; [rewrite decide_True by done; cbn; fold a; lia|]. rewrite decide_False by done. by apply C.
  - intros f y b Hf' Hy. destruct (V f y b Hf' Hy) as [m Hb]. exists m. apply HL. right. split; [congruence|done].
  - intros b. destruct (H b) as [H0 H1]. unfold bump. case_decide as E; [split; [lia|]; intros _; subst; eexists; apply HL; by left|].
    split; [done|]. intros [m Hb]%H1. exists m. apply HL. right. done.
Qed.

Lemma find_module_ok x name p : mods_ok x p -> room p ->
  fuse_find_module name p = Some (None, p) \/
  exists a m, mods p !! a = Some m /\ m_name m = name /\ fuse_find_module name p = Some (Some a, counted a m p) /\ mods_ok (bump a x) (counted a m p).
Proof.
  intros Hp Hr. unfold fuse_find_module. rewrite bind_get. pose proof (g_list _ _ Hp) as L.
  destruct (find_module_eq (fuse_modules p) name p) as [?|(a & m & Ha & Hm & Hn & E)]; [intros a; apply (l_dom _ L)|by left|].
  right. exists a, m. split; [done|]. split; [done|]. split; [done|]. apply counted_ok; [done..|]. by apply (Hr a).
Qed.

(** One more user of the module [a], called [name]. *)
Definition got (x : Z -> Z) (name : bytes) (a : Z) (p : process) : Prop :=
  mods_ok (bump a x) p /\ exists m, mods p !! a = Some m /\ m_name m = name.

Lemma get_module_ok so_of x name p : mods_ok x p -> room p ->
  exists r p', fuse_get_module so_of name p = Some (r, p') /\ same_but p p' /\ names_kept p p' /\
    match r with Some a => got x name a p' | None => mods_ok x p' end.
Proof.
  intros Hp Hr. unfold fuse_get_module. destruct (find_module_ok x name p Hp Hr) as [E|(a & m & Hm & Hn & E & Hok)]; rewrite (bind_step _ _ _ _ _ E).
  2:{ exists (Some a), (counted a m p). split; [done|]. split; [by split|]. split; [by apply counted_names|]. split; [done|].
      exists (set_ctr (i32 (m_ctr m + 1)) m). split; [apply lookup_insert_eq|done]. }
  assert (forall h, exists r p', (@Some (option Z * process) (None, set_p_heap h p)) = Some (r, p') /\ same_but p p' /\ names_kept p p' /\
    match r with Some a => got x name a p' | None => mods_ok x p' end) as Hnone.
  { intros h. exists None, (set_p_heap h p). split; [done|]. split; [by split|]. split; [by intros a m ?; exists m|]. by apply mods_ok_heap. }
  unfold fuse_load_so_module. rewrite bind_assoc. destruct (p_malloc p) as (ok & h1 & E1). rewrite (bind_step _ _ _ _ _ E1). destruct ok; cbn [negb].
  2:{ rewrite bind_ret. apply Hnone. }
  rewrite bind_assoc. destruct (p_malloc (set_p_heap h1 p)) as (ok & h2 & E2). rewrite (bind_step _ _ _ _ _ E2). destruct ok; cbn [negb].
  2:{ rewrite bind_ret. apply Hnone. }
  rewrite bind_assoc, (bind_step _ _ _ _ _ (new_addr_eq _)). cbn [set_p_heap]. set (p0 := set_p_heap h2 (set_p_heap h1 p)).
  assert (mods_ok x p0) as Hp0 by (by do 2 apply mods_ok_heap). set (so := p_next p0).
  assert (same_but p (set_p_next (so + 1) p0)) as B0 by (split; try done; cbn; lia).
  assert (mods_ok x (set_p_next (so + 1) p0)) as Hp1.
  { destruct Hp0 as [[] C V H]. split; [split|..]; try done. intros a Ha. assert (a < p_next p0) by (by apply l_next0). change (a < p_next p0 + 1). lia. }
  assert (forall h, exists r p', (@Some (option Z * process) (None, set_p_heap h (set_p_next (so + 1) p0))) = Some (r, p') /\ same_but p p' /\ names_kept p p' /\
    match r with Some a => got x name a p' | None => mods_ok x p' end) as Hnone1.
  { intros h. eexists None, _. split; [reflexivity|]. split; [by destruct B0|]. split; [by intros a m ?; exists m|]. by apply mods_ok_heap. }
  assert (forall h, set_p_heap h (set_p_next (so + 1) p0) = set_p_next (so + 1) (set_p_heap h p0)) as Hcomm by done.
  destruct (so_of name).
  - rewrite bind_ret. apply (Hnone1 h2).
  - rewrite bind_ret. apply (Hnone1 h2).
  - rewrite bind_assoc, bind_modify. set (p1 := set_sos _ _). rewrite bind_assoc.
    destruct (register_eq name (Some so) p1) as (h3 & [Er|Er]); [apply lookup_insert_eq| |]; rewrite (bind_step _ _ _ _ _ Er).
    + cbn [Z.eqb negb]. rewrite bind_assoc, bind_modify, bind_ret. cbn [Z.eqb]. destruct (Hnone1 h3) as (r & p' & E' & Hrest). exists r, p'. split; [|exact Hrest].
      rewrite <- E'. unfold mret, ST_ret. do 2 f_equal. unfold set_sos, p1. cbn. rewrite delete_insert_id; [done|].
      apply (next_free p0 (g_list _ _ Hp0)).
    + cbn [Z.eqb negb]. rewrite bind_assoc, bind_ret, bind_ret. cbn [Z.eqb].
      pose proof (loaded_ok x name (set_p_heap h3 p0) so ltac:(by apply (mods_ok_heap x p0 h3)) eq_refl) as Hl. cbv zeta in Hl.
      change (set_sos (<[so:=0]> (sos (set_p_heap h3 p0))) (set_p_next (so + 1) (set_p_heap h3 p0))) with (set_p_heap h3 p1) in Hl.
      set (p2 := registered name (Some so) (set_p_heap h3 p1)) in *. set (m := FuseModule name 0 (Some so)) in *.
      assert (fuse_find_module name p2 = Some (Some (so + 1), counted (so + 1) m p2)) as ->.
      { unfold fuse_find_module. rewrite bind_get. change (fuse_modules p2) with (so + 1 :: fuse_modules p). cbn [find_module_in].
        unfold mod_at, deref. rewrite bind_assoc, bind_get. assert (mods p2 !! (so + 1) = Some m) as -> by (unfold p2; cbn; apply lookup_insert_eq).
        rewrite bind_ret. unfold streq. rewrite bool_decide_true by done. by rewrite bind_modify. }
      eexists _, _. split; [reflexivity|]. split; [split; try done; cbn; lia|]. split.
      * intros a n Hn. exists n. split; [|done]. cbn. assert (so + 1 <> a).
        { assert (a < so); [apply (l_next _ (g_list _ _ Hp0)); left; by exists n|lia]. }
        by rewrite !lookup_insert_ne.
      * split; [exact Hl|]. eexists. split; [cbn; apply lookup_insert_eq|done].
Qed.

(** ** The stack *)

(** The file system [a] is the modules [l], the last one pushed first, on top of
    [base]. *)
Inductive stacked (p : process) (base : Z) : Z -> list bytes -> Prop :=
  | S_base : stacked p base base []
  | S_module a b m x l : fss p !! a = Some (FuseFs (Some m) (Some b)) -> mods p !! m = Some x -> stacked p base b l ->
      stacked p base a (m_name x :: l).

Lemma stacked_mono p p' base a l : (forall f y, fss p !! f = Some y -> fss p' !! f = Some y) -> names_kept p p' ->
  stacked p base a l -> stacked p' base a l.
Proof.
  intros HF HN. induction 1 as [|a b m x l Ha Hm Hs IH]; [constructor|]. destruct (HN m x Hm) as (x' & Hx' & <-). eapply S_module; [by apply HF|done|done].
Qed.

Lemma fs_new_ok x p next : mods_ok x p -> exists r p', fuse_fs_new next p = Some (r, p') /\ mods_ok x p' /\ mods p' = mods p /\
  builtin_modules_registered p' = builtin_modules_registered p /\ fuse_context_ref p' = fuse_context_ref p /\
  match r with Some a => fss p !! a = None /\ fss p' = <[a := FuseFs None next]> (fss p) | None => fss p' = fss p end.
Proof.
  intros Hp. unfold fuse_fs_new. destruct (p_malloc p) as (ok & h & E). rewrite (bind_step _ _ _ _ _ E). destruct ok; cbn [negb].
  2:{ eexists None, _. split; [done|]. split; [by apply mods_ok_heap|done]. }
  rewrite (bind_step _ _ _ _ _ (new_addr_eq _)), bind_modify. cbn [p_next set_p_heap set_p_next fss]. eexists (Some _), _. split; [reflexivity|].
  destruct Hp as [L C V H]. destruct (next_free p L) as (_ & _ & Hf). split; [|done]. destruct L. split; [split|..]; try done; cbn.
  - intros a Ha. rewrite lookup_insert_is_Some' in Ha. destruct (decide (a = p_next p)) as [->|]; [lia|]. assert (a < p_next p); [|lia]. apply l_next0. naive_solver.
  - intros a m Hm. rewrite (C a m Hm), uses_insert by done. done.
  - intros f y a [[<- <-]|[_ Hy]]%lookup_insert_Some; [done|]. by apply (V f y).
Qed.
