(* ===== verification/ModulesOps.v ===== *)
(** * The modules of a process: pushing, destroying and emptying the list

    Pushing a list of modules builds a stack in that order; destroying a stack
    from its top gives back every module it refers to; the list of modules can
    always be emptied. *)

From S2P Require Import Prelude FuseOpt Modules ModulesSpec.

(** ** Pushing *)

Lemma uses_size F a : (uses F a <= size F)%nat.
Proof. unfold uses. apply map_subseteq_size, map_filter_subseteq. Qed.

Lemma room_size p : mods_ok none p -> Z.of_nat (size (fss p)) < 2 ^ 31 - 1 -> room p.
Proof. intros Hp Hs a m Hm. rewrite (g_ctr _ _ Hp a m Hm). pose proof (uses_size (fss p) a). unfold none. lia. Qed.

(** A reference of running code becomes one of a file system. *)
Lemma adopt_ok p a m next : mods_ok (bump m none) p -> fss p !! a = Some (FuseFs None next) ->
  mods_ok none (set_fss (<[a := FuseFs (Some m) next]> (fss p)) p).
Proof.
  intros [L C V H] Ha. assert (forall b, uses (<[a := FuseFs (Some m) next]> (fss p)) b = ((if decide (b = m) then 1 else 0) + uses (fss p) b)%nat) as Hu.
  { intros b. rewrite <- insert_delete_eq, uses_insert by apply lookup_delete_eq. rewrite (uses_delete (fss p) b a _ Ha). cbn [fs_m].
    rewrite (decide_False (P := None = Some b)) by done. repeat case_decide; naive_solver. }
  split; [destruct L; split; try done|..]; cbn.
  - intros b Hb. apply l_next. rewrite lookup_insert_is_Some' in Hb. destruct (decide (a = b)) as [<-|]; [right; right; by eexists|naive_solver].
  - intros b x Hx. rewrite Hu, (C b x Hx). unfold bump, none. case_decide; lia.
  - intros f y b [[<- <-]|[_ Hy]]%lookup_insert_Some Hb; [|by apply (V f y)]. injection Hb as <-. apply (H m). unfold bump, none. by rewrite decide_True.
  - intros b. split; [done|]. unfold none. lia.
Qed.

Section Push.
Context (so_of : bytes -> so_file) (factory : bytes -> fuse_args -> bool * fuse_args).

(** The other static variables. *)
Definition statics (p p' : process) : Prop :=
  builtin_modules_registered p' = builtin_modules_registered p /\ fuse_context_ref p' = fuse_context_ref p.

Lemma push_module_ok p top name args : mods_ok none p -> Z.of_nat (size (fss p)) < 2 ^ 31 - 1 ->
  exists r args' p', fuse_push_module so_of factory top name args p = Some ((r, args'), p') /\ mods_ok none p' /\ statics p p' /\
    match r with
    | Some a => names_kept p p' /\ fss p !! a = None /\
        exists m x, fss p' = <[a := FuseFs (Some m) (Some top)]> (fss p) /\ mods p' !! m = Some x /\ m_name x = name
    | None => fss p' = fss p
    end.
Proof.
  intros Hp Hs. unfold fuse_push_module. destruct (get_module_ok so_of none name p Hp (room_size p Hp Hs)) as (r & p1 & E1 & B1 & N1 & Hr).
  rewrite (bind_step _ _ _ _ _ E1). destruct r as [m|].
  2:{ eexists None, _, p1. split; [reflexivity|]. split; [done|]. split; [by destruct B1|]. by destruct B1. }
  destruct Hr as [Hp1 (x & Hx & Hn)]. destruct (factory name args) as [ok args'].
  assert (forall p2, mods_ok (bump m none) p2 -> statics p1 p2 -> fss p2 = fss p1 ->
    exists r args0 p', (_ ← fuse_put_module m; mret (@None Z, args')) p2 = Some ((r, args0), p') /\ mods_ok none p' /\ statics p p' /\
    match r with
    | Some a => names_kept p p' /\ fss p !! a = None /\
        exists m x, fss p' = <[a := FuseFs (Some m) (Some top)]> (fss p) /\ mods p' !! m = Some x /\ m_name x = name
    | None => fss p' = fss p
    end) as Hfail.
  { intros p2 Hp2 [S1 S2] F2. destruct (put_module_ok none p2 m Hp2) as (p3 & E3 & Hp3 & B3); [done|]. rewrite (bind_step _ _ _ _ _ E3).
    eexists None, _, p3. split; [reflexivity|]. split; [done|]. destruct B1, B3. split; [split; congruence|congruence]. }
  destruct ok; [|rewrite bind_ret; by apply Hfail].
  destruct (fs_new_ok (bump m none) p1 (Some top) Hp1) as (r & p2 & E2 & Hp2 & M2 & S1 & S2 & F2). rewrite (bind_step _ _ _ _ _ E2).
  destruct r as [a|]; [|by apply Hfail]. destruct F2 as [Ha F2]. unfold fs_at, deref. rewrite bind_assoc, bind_get.
  assert (fss p2 !! a = Some (FuseFs None (Some top))) as Ha2 by (rewrite F2; apply lookup_insert_eq). rewrite Ha2, bind_ret, bind_modify. cbn [fs_next].
  eexists (Some a), _, _. split; [reflexivity|]. split; [by apply adopt_ok|]. destruct B1. split; [split; cbn; congruence|]. split; [|split; [congruence|]].
  - intros b n (n' & Hn' & Ename)%N1. exists n'. split; [cbn; congruence|done].
  - exists m, x. cbn. rewrite M2, F2, insert_insert_eq. split; [congruence|done].
Qed.

(** The names that are not empty. *)
Definition wanted (names : list bytes) : list bytes := filter (fun n => n <> []) names.

(** Pushing: the stack has the modules in the order of the names, the last on
    top; if one fails, those before it stay. *)
Lemma push_modules_ok base names : forall p top l args, mods_ok none p -> Z.of_nat (size (fss p) + length names) < 2 ^ 31 - 1 ->
  stacked p base top l -> is_Some (fss p !! top) ->
  exists ok top' args' p' done_, push_modules so_of factory top names args p = Some ((ok, top', args'), p') /\ mods_ok none p' /\ statics p p' /\
    done_ `prefix_of` wanted names /\ (ok = true -> done_ = wanted names) /\ is_Some (fss p' !! top') /\
    (forall f y, fss p !! f = Some y -> fss p' !! f = Some y) /\
    (ok = true -> stacked p' base top' (reverse done_ ++ l)).
Proof.
  induction names as [|n names IH]; intros p top l args Hp Hs Hst Ht; cbn [push_modules].
  { eexists true, top, args, p, []. split; [reflexivity|]. by repeat (split; [done|]). }
  case_bool_decide as En.
  { subst n. destruct (IH p top l args) as (ok & top' & args' & p' & d & E & Hrest); [done|cbn in Hs; lia|done|done|]. exists ok, top', args', p', d. split; [done|]. exact Hrest. }
  cbn [length] in Hs. assert (Z.of_nat (size (fss p)) < 2 ^ 31 - 1) as Hsz by lia. assert (wanted (n :: names) = n :: wanted names) as Ew by (unfold wanted; by rewrite filter_cons_True).
  destruct (push_module_ok p top n args Hp Hsz) as (r & args1 & p1 & E1 & Hp1 & S1 & Hr). rewrite (bind_step _ _ _ _ _ E1). destruct r as [a|].
  2:{ eexists false, top, args1, p1, []. split; [reflexivity|]. split; [done|]. split; [done|]. split; [apply prefix_nil|]. split; [done|]. rewrite Hr. done. }
  destruct Hr as (N1 & Ha & m & x & F1 & Hm & Hn).
  assert (forall f y, fss p !! f = Some y -> fss p1 !! f = Some y) as Hmono.
  { intros f y Hy. rewrite F1, lookup_insert_ne; [done|]. congruence. }
  destruct (IH p1 a (n :: l) args1) as (ok & top' & args' & p' & d & E & Hp' & S' & Hpre & Hall & Ht' & Hmono' & Hst'); [done| | | |].
  - rewrite F1, map_size_insert_None by done. lia.
  - rewrite <- Hn. apply (S_module p1 base a top m x); [rewrite F1; apply lookup_insert_eq|done|]. by apply (stacked_mono p p1).
  - rewrite F1, lookup_insert_eq. by eexists.
  - exists ok, top', args', p', (n :: d). split; [done|]. split; [done|]. split; [destruct S1, S'; split; congruence|]. rewrite Ew.
    split; [by apply prefix_cons|]. split; [intros Ho; by rewrite (Hall Ho)|]. split; [done|]. split; [by auto|].
    intros Ho. rewrite reverse_cons, <- app_assoc. by apply Hst'.
Qed.
End Push.

(** ** Destroying a stack *)

(** The file systems from [a] down to the one that is on top of nothing. *)
Inductive down (F : gmap Z fuse_fs) : Z -> list Z -> Prop :=
  | D_base a y : F !! a = Some y -> fs_next y = None -> down F a [a]
  | D_next a y b l : F !! a = Some y -> fs_next y = Some b -> down F b l -> down F a (a :: l).

Lemma down_det F a l l' : down F a l -> down F a l' -> l = l'.
Proof.
  intros Hd. revert l'. induction Hd as [a y Hy Hn|a y b l Hy Hn _ IH]; intros l'; inversion 1; subst; try congruence.
  f_equal. apply IH. congruence.
Qed.

Lemma down_below F a l c : down F a l -> c ∈ l -> exists l', down F c l' /\ (length l' <= length l)%nat.
Proof.
  induction 1 as [a y Hy Hn|a y b l Hy Hn Hd IH]; intros Hc.
  - apply list_elem_of_singleton in Hc as ->. exists [a]. split; [by apply (D_base F a y)|done].
  - apply elem_of_cons in Hc as [->|Hc]; [exists (a :: l); split; [by apply (D_next F a y b)|done]|].
    destruct (IH Hc) as (l' & ? & ?). exists l'. split; [done|cbn; lia].
Qed.

Lemma down_NoDup F a l : down F a l -> NoDup l.
Proof.
  induction 1 as [a y Hy Hn|a y b l Hy Hn Hd IH]; [apply NoDup_singleton|]. constructor; [|done]. intros Ha.
  destruct (down_below F b l a Hd Ha) as (l' & Hl' & Hlen). pose proof (down_det F a _ _ Hl' (D_next F a y b l Hy Hn Hd)) as ->. cbn in Hlen. lia.
Qed.

Lemma down_in F a l c : down F a l -> c ∈ l -> is_Some (F !! c).
Proof.
  induction 1 as [a y Hy Hn|a y b l Hy Hn Hd IH]; intros Hc; [apply list_elem_of_singleton in Hc as ->; by eexists|].
  apply elem_of_cons in Hc as [->|Hc]; [by eexists|auto].
Qed.

Lemma down_size F a l : down F a l -> (length l <= size F)%nat.
Proof.
  intros Hd. rewrite <- size_dom, <- (size_list_to_set (C := gset Z) l) by (by apply (down_NoDup F a)). apply subseteq_size.
  intros c Hc%elem_of_list_to_set. by apply elem_of_dom, (down_in F a l).
Qed.

Lemma stacked_down p base a l : stacked p base a l -> (exists y, fss p !! base = Some y /\ fs_next y = None) ->
  exists d, down (fss p) a d /\ length d = S (length l).
Proof.
  intros Hs (y & Hy & Hn). induction Hs as [|a b m x l Ha Hm _ (d & Hd & Hl)]; [exists [base]; split; [by apply (D_base _ _ y)|done]|].
  exists (a :: d). split; [by apply (D_next _ a _ b d Ha)|cbn; lia].
Qed.

(** Freeing a file system after its module is given back. *)
Lemma put_result_fss a m p F : put_result a m (set_fss F p) = set_fss F (put_result a m p).
Proof. unfold put_result, gone. destruct (_ <=? _); [destruct (m_so m)|]; done. Qed.

Lemma drop_fs_ok p a y : mods_ok none p -> fss p !! a = Some y ->
  mods_ok (match fs_m y with Some m => bump m none | None => none end) (set_fss (delete a (fss p)) p).
Proof.
  intros [L C V H] Ha. split; [destruct L; split; try done|..]; cbn.
  - intros b Hb. apply l_next. rewrite lookup_delete_is_Some in Hb. naive_solver.
  - intros b x Hx. rewrite (C b x Hx), (uses_delete (fss p) b a y Ha). unfold none, bump.
    destruct (fs_m y) as [m|]; repeat case_decide; naive_solver lia.
  - intros f z b Hf. apply lookup_delete_Some in Hf as [_ Hf]. by apply (V f z).
  - intros b. unfold none, bump. destruct (fs_m y) as [m|] eqn:Em; [case_decide as E|]; (split; [lia|]); try lia. intros _. subst. by apply (V a y).
Qed.

Lemma fs_free_ok p a y : mods_ok none p -> fss p !! a = Some y ->
  exists p', (_ ← match fs_m y with Some m => fuse_put_module m | None => mret tt end; modify (fun p => set_fss (delete a (fss p)) p)) p = Some (tt, p') /\
    mods_ok none p' /\ fss p' = delete a (fss p) /\ statics p p'.
Proof.
  intros Hp Ha. pose proof (drop_fs_ok p a y Hp Ha) as Hq. destruct (fs_m y) as [m|] eqn:Em.
  - destruct (g_live _ _ Hp a y m Ha Em) as [x Hx]. rewrite (bind_step _ _ _ _ _ (put_module_eq p m x (g_list _ _ Hp) Hx)). eexists. split; [reflexivity|].
    destruct (put_module_ok none _ m Hq) as (p' & E & Hp' & B); [done|].
    rewrite (put_module_eq _ m x (g_list _ _ Hq)) in E by done. injection E as <-. rewrite put_result_fss in Hp', B.
    destruct (put_same p m x). rewrite b_fss. split; [done|]. split; [done|]. by split.
  - rewrite bind_ret. eexists. split; [reflexivity|]. done.
Qed.

Lemma fs_destroy_ok fuel : forall p a l, mods_ok none p -> down (fss p) a l -> (length l <= fuel)%nat ->
  exists p', fs_destroy_loop fuel a p = Some (tt, p') /\ mods_ok none p' /\ statics p p' /\
    forall f, fss p' !! f = if decide (f ∈ l) then None else fss p !! f.
Proof.
  induction fuel as [|fuel IH]; intros p a l Hp Hd Hf; [destruct Hd; cbn in Hf; lia|]. cbn [fs_destroy_loop].
  pose proof (down_NoDup _ _ _ Hd) as Hnd. inversion Hd as [? y Hy Hn|? y b l' Hy Hn Hd']; subst;
    unfold fs_at, deref; rewrite bind_assoc, bind_get, Hy, bind_ret, Hn.
  - rewrite bind_ret. destruct (fs_free_ok p a y Hp Hy) as (p' & E & Hp' & F & S). exists p'. split; [exact E|]. split; [done|]. split; [done|].
    intros f. rewrite F, lookup_delete. case_decide as E1; case_decide as E2; try done; rewrite list_elem_of_singleton in E2; by subst.
  - apply NoDup_cons in Hnd as [Ha Hnd]. destruct (IH p b l' Hp Hd') as (p1 & E1 & Hp1 & [S1 S2] & F1); [cbn in Hf; lia|]. rewrite (bind_step _ _ _ _ _ E1).
    destruct (fs_free_ok p1 a y Hp1) as (p' & E & Hp' & F & [S3 S4]); [rewrite F1, decide_False by done; done|].
    exists p'. split; [exact E|]. split; [done|]. split; [split; congruence|]. intros f. rewrite F, lookup_delete, F1.
    case_decide as D1; [subst; by rewrite decide_True by left|]. assert (f ∈ a :: l' <-> f ∈ l') by (rewrite elem_of_cons; naive_solver).
    repeat case_decide; tauto.
Qed.

(** ** Emptying the list *)

Lemma users_put p a m l : list_ok p -> fuse_modules p = a :: l -> mods p !! a = Some m -> (users (put_result a m p) < users p)%nat.
Proof.
  intros L El Hm. pose proof (l_nodup _ L) as Hnd. rewrite El in Hnd. apply NoDup_cons in Hnd as [Ha _]. unfold users. rewrite El. cbn [sum_list_with]. rewrite Hm.
  set (cnt := fun q b => match mods q !! b with Some m => S (Z.to_nat (m_ctr m)) | None => 1%nat end).
  assert (forall q, (forall b, b <> a -> mods q !! b = mods p !! b) -> sum_list_with (cnt q) l = sum_list_with (cnt p) l) as Hsum.
  { intros q Hq. clear L El. induction l as [|b l IH]; [done|]. apply not_elem_of_cons in Ha as [Hb Ha]. cbn [sum_list_with]. rewrite IH by done. unfold cnt. by rewrite Hq. }
  fold (cnt p). unfold put_result. destruct (Z.leb_spec (m_ctr m) 1) as [Hle|Hgt].
  - assert (fuse_modules (gone a m p) = l) as -> by (unfold gone; rewrite El; cbn [list_without]; rewrite Z.eqb_refl; by destruct (m_so m)).
    fold (cnt (gone a m p)). rewrite Hsum; [lia|]. intros b Hb. unfold gone. destruct (m_so m); cbn; by rewrite lookup_delete_ne.
  - cbn [fuse_modules set_modules]. rewrite El. cbn [sum_list_with]. set (q := set_modules _ _ p). fold (cnt q).
    rewrite (Hsum q) by (intros b Hb; cbn; by rewrite lookup_insert_ne). change (mods q) with (<[a := set_ctr (m_ctr m - 1) m]> (mods p)). rewrite lookup_insert_eq. cbn [m_ctr set_ctr]. lia.
Qed.

Lemma put_all_ok p : list_ok p -> exists p', put_all p = Some (tt, p') /\ same_but p p' /\ fuse_modules p' = [] /\ mods p' = ∅ /\ sos p' = ∅.
Proof.
  intros L. unfold put_all. rewrite bind_get. assert (users p < S (users p))%nat as Hf by lia.
  set (fuel := S (users p)) in *. clearbody fuel. revert p L Hf. induction fuel as [|fuel IH]; intros p L Hf; [lia|]. cbn [put_all_loop]. rewrite bind_get. destruct (fuse_modules p) as [|a l] eqn:El.
  - exists p. split; [done|]. split; [done|]. split; [done|]. assert (mods p = ∅) as Em.
    { apply map_empty. intros a. destruct (mods p !! a) eqn:Ea; [|done]. assert (a ∈ fuse_modules p) as Ha by (apply (l_dom _ L); by eexists). rewrite El in Ha. by apply elem_of_nil in Ha. }
    split; [done|]. apply map_empty. intros so. destruct (sos p !! so) eqn:Es; [|done]. destruct (l_sos _ L so) as (a & m & Ha & _); [by eexists|]. by rewrite Em in Ha.
  - assert (is_Some (mods p !! a)) as [m Hm] by (apply (l_dom _ L); rewrite El; left). rewrite (bind_step _ _ _ _ _ (put_module_eq p a m L Hm)).
    destruct (IH (put_result a m p)) as (p' & E & B & Hrest); [by apply put_list_ok|pose proof (users_put p a m l L El Hm); lia|].
    exists p'. split; [exact E|]. split; [etrans; [apply put_same|done]|done].
Qed.

(** Without modules there is nothing that a file system on a module could give
    back. *)
Lemma destroy_dead fuel p a y m : mods p = ∅ -> fss p !! a = Some y -> fs_m y = Some m -> fs_destroy_loop fuel a p = None.
Proof.
  intros Hm Hy Em. destruct fuel as [|fuel]; [done|]. cbn [fs_destroy_loop]. unfold fs_at, deref. rewrite bind_assoc, bind_get, Hy, bind_ret, Em.
  assert (forall fuel b p p', mods p = ∅ -> fs_destroy_loop fuel b p = Some (tt, p') -> mods p' = ∅) as Hkeep.
  { clear. induction fuel as [|fuel IH]; intros b p p' Hm; [done|]. cbn [fs_destroy_loop]. intros (x & p1 & E1 & E)%bind_Some.
    assert (p1 = p) as ->. { unfold fs_at in E1. rewrite bind_get in E1. destruct (fss p !! b); [by injection E1|done]. }
    apply bind_Some in E as ([] & p2 & E2 & E). assert (mods p2 = ∅) as Hm2 by (destruct (fs_next x); [by apply (IH z p)|by injection E2 as <-]).
    apply bind_Some in E as ([] & p3 & E3 & E). assert (mods p3 = ∅) as Hm3.
    { destruct (fs_m x) as [m|]; [|by injection E3 as <-]. unfold fuse_put_module, mod_at in E3. rewrite bind_assoc, bind_get, Hm2, lookup_empty in E3. done. }
    by injection E as <-. }
  unfold mbind at 1, ST_bind at 1. destruct (match fs_next y with Some b => fs_destroy_loop fuel b | None => mret tt end p) as [[[] p1]|] eqn:E; [|done].
  assert (mods p1 = ∅) as H1 by (destruct (fs_next y); [by apply (Hkeep fuel z p)|by injection E as <-]).
  unfold fuse_put_module, mod_at. rewrite !bind_assoc, bind_get, H1, lookup_empty. done.
Qed.
