(* ===== verification/Startup.v ===== *)
(** * Start and end of a file system: fuse_new and fuse_destroy

    fuse_session_new (fuse_lowlevel.c) takes the options of the session and of
    the mount from the command line.  fuse_new_31 (fuse.c) takes the options of
    the library, pushes the modules that are asked for, makes a session and the
    root node; fuse_destroy removes hidden files, frees all nodes and gives the
    modules back.

    [process] of [Modules] and [signals] of [Signals] are what a process has
    besides the file system. *)

From S2P Require Import Prelude DList NodeTable Wire Locks Node NodeTree Slab Path Buf LowLevel Dispatch Loop FuseOpt Lib LibOps.
From S2P Require Import Fusermount Mount Signals Modules.

(** ** fuse_session_new *)

(** The members of struct fuse_session that options set. *)
Record ll_opts := LlOpts { ll_debug : Z; ll_deny_others : Z }.

Definition LL_debug : Z := 0.
Definition LL_deny_others : Z := 4.

#[export] Instance ll_opts_data : OptData ll_opts := {|
  store_int off v o := LlOpts (if off =? LL_debug then v else ll_debug o) (if off =? LL_deny_others then v else ll_deny_others o);
  store_str off s o := o;
  scan fmt s off o := Some o |}.

Definition LL_OPTION (t : bytes) (off v : Z) : fuse_opt := FuseOpt t off v.

Definition fuse_ll_opts : list fuse_opt :=
  [LL_OPTION (lit "debug") LL_debug 1; LL_OPTION (lit "-d") LL_debug 1; LL_OPTION (lit "--debug") LL_debug 1;
   LL_OPTION (lit "allow_root") LL_deny_others 1].

(** What the system says at start: the page size, the user, whether thread keys
    can be made. *)
Record start_env := StartEnv { page : Z; getuid : Z; context_key_ok : bool; pipe_key_ok : bool }.

Definition FUSE_MAX_MAX_PAGES : Z := 256.

(** A session as calloc, the options and the rest of the function leave it. *)
Definition new_session (env : start_env) (deny : bool) (mo : mount_opts) : fuse_session :=
  Session false (-1) (Mount.mo_max_read mo) deny false (getuid env) (ConnInfo 0 0 4294967295 0 4294967295 0 0 0 0 0) false None false 1
    (FUSE_MAX_MAX_PAGES * page env + FUSE_BUFFER_HEADER_SIZE) 0 (page env).

(** The session with its mount options, or null, and the arguments that are
    left. *)
Definition fuse_session_new (env : start_env) (args : fuse_args) : ST heap (option (fuse_session * mount_opts) * fuse_args) := fun h =>
  if bool_decide (argc args = 0%nat) then Some ((None, args), h) else
  match FuseOpt.malloc h with
  | None => None
  | Some (false, h) => Some ((None, args), h)
  | Some (true, h) =>
      match fuse_opt_parse args (LlOpts 0 0) fuse_ll_opts None h with
      | None => None
      | Some (r, args, o, h) =>
          if r =? -1 then Some ((None, args), h) else
          let deny := negb (ll_deny_others o =? 0) in
          match (if deny then fuse_opt_add_arg args (lit "-oallow_other") else mret (0, args)) h with
          | None => None
          | Some ((r, args), h) =>
              if r =? -1 then Some ((None, args), h) else
              match parse_mount_opts (Some args) h with
              | None => None
              | Some (mo, args', h) =>
                  let args := default args args' in
                  match mo with
                  | None => Some ((None, args), h)
                  | Some mo =>
                      if bool_decide (argc args <> 1%nat) then Some ((None, FuseArgs 0 None false), h) else
                      if negb (pipe_key_ok env) then Some ((None, FuseArgs 0 None false), h) else
                      Some ((Some (new_session env deny mo, mo), args), h)
                  end
              end
          end
      end
  end.

(** ** The options of the library *)

(** [sscanf] with %lf. *)
Class Strtod := { strtod : bytes -> option double }.

(** struct fuse_config: the members that [Node] has, and the others. *)
Record lib_conf := LibConf {
  lc : fuse_config; intr_signal : Z; ac_attr_timeout_set : Z; show_help : Z; modules : option bytes; lc_debug : Z }.

Definition FC_set_gid : Z := 0.
Definition FC_gid : Z := 4.
Definition FC_set_uid : Z := 8.
Definition FC_uid : Z := 12.
Definition FC_set_mode : Z := 16.
Definition FC_umask : Z := 20.
Definition FC_entry_timeout : Z := 24.
Definition FC_negative_timeout : Z := 32.
Definition FC_attr_timeout : Z := 40.
Definition FC_remember : Z := 56.
Definition FC_kernel_cache : Z := 76.
Definition FC_auto_cache : Z := 80.
Definition FC_ac_attr_timeout_set : Z := 84.
Definition FC_ac_attr_timeout : Z := 88.
Definition FC_show_help : Z := 100.
Definition FC_modules : Z := 104.
Definition FC_debug : Z := 112.

(** An int, a number and a double stored at an offset. *)
Definition store_flag (off : Z) (b : bool) (c : fuse_config) : fuse_config :=
  let at_ (o : Z) (x : bool) : bool := if off =? o then b else x in
  Node.Config (at_ FC_set_gid (set_gid c)) (c_gid c) (at_ FC_set_uid (set_uid c)) (c_uid c) (at_ FC_set_mode (set_mode c)) (c_umask c)
    (entry_timeout c) (negative_timeout c) (attr_timeout c) (intr c) (remember c) (hard_remove c) (use_ino c) (readdir_ino c) (direct_io c)
    (at_ FC_kernel_cache (kernel_cache c)) (at_ FC_auto_cache (auto_cache c)) (ac_attr_timeout c) (nullpath_ok c).

Definition store_num (off v : Z) (c : fuse_config) : fuse_config :=
  let at_ (o x : Z) : Z := if off =? o then v else x in
  Node.Config (set_gid c) (at_ FC_gid (c_gid c)) (set_uid c) (at_ FC_uid (c_uid c)) (set_mode c) (at_ FC_umask (c_umask c))
    (entry_timeout c) (negative_timeout c) (attr_timeout c) (intr c) (at_ FC_remember (remember c)) (hard_remove c) (use_ino c) (readdir_ino c) (direct_io c)
    (kernel_cache c) (auto_cache c) (ac_attr_timeout c) (nullpath_ok c).

Definition store_dbl (off : Z) (v : double) (c : fuse_config) : fuse_config :=
  let at_ (o : Z) (x : double) : double := if off =? o then v else x in
  Node.Config (set_gid c) (c_gid c) (set_uid c) (c_uid c) (set_mode c) (c_umask c)
    (at_ FC_entry_timeout (entry_timeout c)) (at_ FC_negative_timeout (negative_timeout c)) (at_ FC_attr_timeout (attr_timeout c)) (intr c) (remember c)
    (hard_remove c) (use_ino c) (readdir_ino c) (direct_io c) (kernel_cache c) (auto_cache c) (at_ FC_ac_attr_timeout (ac_attr_timeout c)) (nullpath_ok c).

Definition on_lc (g : fuse_config -> fuse_config) (c : lib_conf) : lib_conf :=
  LibConf (g (lc c)) (intr_signal c) (ac_attr_timeout_set c) (show_help c) (modules c) (lc_debug c).

(** The conversions %o, %d and %u. *)
Definition scan_o (s : bytes) : option Z :=
  match drop_spaces s with
  | c :: s' => u32 <$> (if c =? 45 then Z.opp <$> digits_in 8 0 s' else if c =? 43 then digits_in 8 0 s' else digits_in 8 0 (c :: s'))
  | [] => None
  end.

#[export] Instance lib_conf_data `{Strtod} : OptData lib_conf := {|
  store_int off v c :=
    if off =? FC_ac_attr_timeout_set then LibConf (lc c) (intr_signal c) v (show_help c) (modules c) (lc_debug c) else
    if off =? FC_show_help then LibConf (lc c) (intr_signal c) (ac_attr_timeout_set c) v (modules c) (lc_debug c) else
    if off =? FC_debug then LibConf (lc c) (intr_signal c) (ac_attr_timeout_set c) (show_help c) (modules c) v else
    if off =? FC_remember then on_lc (store_num off v) c else on_lc (store_flag off (negb (v =? 0))) c;
  store_str off s c := LibConf (lc c) (intr_signal c) (ac_attr_timeout_set c) (show_help c) (Some s) (lc_debug c);
  scan fmt s off c :=
    if off =? FC_umask then (fun v => on_lc (store_num off v) c) <$> scan_o s else
    if (off =? FC_uid) || (off =? FC_gid) then (fun v => on_lc (store_num off v) c) <$> scan_u s else
    if off =? FC_remember then (fun v => on_lc (store_num off (i32 v)) c) <$> scan_u s else
    (fun v => on_lc (store_dbl off v) c) <$> strtod s |}.

Definition FUSE_LIB_OPT (t : bytes) (off v : Z) : fuse_opt := FuseOpt t off v.

Definition fuse_lib_opts : list fuse_opt :=
  [FUSE_OPT_KEY (lit "debug") FUSE_OPT_KEY_KEEP; FUSE_OPT_KEY (lit "-d") FUSE_OPT_KEY_KEEP;
   FUSE_LIB_OPT (lit "debug") FC_debug 1; FUSE_LIB_OPT (lit "-d") FC_debug 1;
   FUSE_LIB_OPT (lit "kernel_cache") FC_kernel_cache 1; FUSE_LIB_OPT (lit "auto_cache") FC_auto_cache 1;
   FUSE_LIB_OPT (lit "noauto_cache") FC_auto_cache 0; FUSE_LIB_OPT (lit "umask=") FC_set_mode 1;
   FUSE_LIB_OPT (lit "umask=%o") FC_umask 0; FUSE_LIB_OPT (lit "uid=") FC_set_uid 1; FUSE_LIB_OPT (lit "uid=%d") FC_uid 0;
   FUSE_LIB_OPT (lit "gid=") FC_set_gid 1; FUSE_LIB_OPT (lit "gid=%d") FC_gid 0;
   FUSE_LIB_OPT (lit "entry_timeout=%lf") FC_entry_timeout 0; FUSE_LIB_OPT (lit "attr_timeout=%lf") FC_attr_timeout 0;
   FUSE_LIB_OPT (lit "ac_attr_timeout=%lf") FC_ac_attr_timeout 0; FUSE_LIB_OPT (lit "ac_attr_timeout=") FC_ac_attr_timeout_set 1;
   FUSE_LIB_OPT (lit "negative_timeout=%lf") FC_negative_timeout 0; FUSE_LIB_OPT (lit "noforget") FC_remember (-1);
   FUSE_LIB_OPT (lit "remember=%u") FC_remember 0; FUSE_LIB_OPT (lit "modules=%s") FC_modules 0].

Definition fuse_lib_opt_proc (arg : bytes) (key : Z) : ST (lib_conf * fuse_args * heap) Z := mret 1.

(** The defaults of fuse_new_31. *)
Definition lib_conf0 : lib_conf :=
  LibConf (Node.Config false 0 false 0 false 0 (dbl_of_Z 1) (dbl_of_Z 0) (dbl_of_Z 1) false 0 false false false false false false (dbl_of_Z 0) false)
    SIGUSR1 0 0 None 0.

(** ac_attr_timeout is attr_timeout unless it was given. *)
Definition final_conf (c : lib_conf) : fuse_config :=
  if ac_attr_timeout_set c =? 0 then store_dbl FC_ac_attr_timeout (attr_timeout (lc c)) (lc c) else lc c.

(** ** fuse_new_31 *)

(** What struct fuse holds besides its nodes. *)
Record fuse_obj := FuseObj {
  f_fs : Z; f_conf : lib_conf; intr_installed : bool; f_se : fuse_session; f_mo : mount_opts; f_nodes : fuse slab_mem }.

Abbreviation SM := (ST (process * signals)).

Definition on_proc {S A} (m : PM A) : ST (process * S) A := fun '(p, s) => match m p with Some (a, p) => Some (a, (p, s)) | None => None end.
Definition on_sigs {P A} (m : ST signals A) : ST (P * signals) A := fun '(p, s) => match m s with Some (a, s) => Some (a, (p, s)) | None => None end.

Definition parse_args {D} `{OptData D} (args : fuse_args) (d : D) (table : list fuse_opt)
    (cb : option (bytes -> Z -> ST (D * fuse_args * heap) Z)) : PM (Z * fuse_args * D) := fun p =>
  match fuse_opt_parse args d table cb (p_heap p) with
  | Some (r, args, d, h) => Some ((r, args, d), set_p_heap h p)
  | None => None
  end.

(** Make the root with the allocations of the process. *)
Definition new_root `{Pages} (c : fuse_config) (psz : Z) : PM (option (fuse slab_mem)) := fun p =>
  match make_root (empty_fuse c (no_slabs psz (0 <? remember c)) (p_heap p) []) with
  | Some (r, f) => Some (match r with Some _ => Some f | None => None end, set_p_heap (Node.heap f) p)
  | None => None
  end.

Section New.
Context `{Strtod} `{Pages} (so_of : bytes -> so_file) (factory : bytes -> fuse_args -> bool * fuse_args) (env : start_env).

(** [out_free_fs] and what follows it; the end of a session that has served no
    request, before it, only frees memory. *)
Definition free_top (top : Z) : PM unit :=
  x ← fs_at top;
  _ ← match fs_m x with Some m => fuse_put_module m | None => mret tt end;
  _ ← modify (fun p => set_fss (delete top (fss p)) p);
  fuse_delete_context_key.

(** From the file system to the session. *)
Definition new_stack (c : lib_conf) (args : fuse_args) : PM (option (Z * fuse_session * mount_opts * fuse (slab_mem)) * fuse_args) :=
  fs ← fuse_fs_new None;
  match fs with
  | None => _ ← fuse_delete_context_key; mret (None, args)
  | Some fs =>
      r ← (match modules c with Some s => push_modules so_of factory fs (module_names s []) args | None => mret (true, fs, args) end);
      let '(ok, top, args) := r in
      if negb ok then _ ← free_top top; mret (None, args) else
      q ← on_p_heap (fuse_session_new env args);
      let '(se, args) := q in
      match se with
      | None => _ ← free_top top; mret (None, args)
      | Some (se, mo) =>
          f ← new_root (final_conf c) (page env);
          match f with
          | None => _ ← free_top top; mret (None, args)
          | Some f => mret (Some (top, se, mo, f), args)
          end
      end
  end.

(** The root is made before the signal is looked at; [free(root)] of a node
    that a slab holds is an abort. *)
Definition fuse_new_31 (args : fuse_args) : SM (option fuse_obj * fuse_args) :=
  ok ← on_proc (on_p_heap FuseOpt.malloc);
  if negb ok then mret (None, args) else
  r ← on_proc (parse_args args lib_conf0 fuse_lib_opts (Some fuse_lib_opt_proc));
  let '(res, args, c) := r in
  if res =? -1 then mret (None, args) else
  _ ← on_proc register_builtin;
  k ← on_proc (fuse_create_context_key (context_key_ok env));
  if k =? -1 then mret (None, args) else
  r ← on_proc (new_stack c args);
  let '(o, args) := r in
  match o with
  | None => mret (None, args)
  | Some (top, se, mo, f) =>
      i ← (if intr (lc c) then on_sigs (fuse_init_intr_signal (intr_signal c)) else mret (0, false));
      if i.1 =? -1 then abort else
      mret (Some (FuseObj top c i.2 se mo f), args)
  end.
End New.

(** fuse_new_30 answers a call for help with null. *)
Definition help_opts : list fuse_opt := [FUSE_LIB_OPT (lit "-h") FC_show_help 1; FUSE_LIB_OPT (lit "--help") FC_show_help 1].

Definition zero_conf : lib_conf :=
  LibConf (Node.Config false 0 false 0 false 0 (dbl_of_Z 0) (dbl_of_Z 0) (dbl_of_Z 0) false 0 false false false false false false (dbl_of_Z 0) false) 0 0 0 None 0.

Definition fuse_new_30 `{Strtod} `{Pages} (so_of : bytes -> so_file) (factory : bytes -> fuse_args -> bool * fuse_args) (env : start_env) (args : fuse_args) :
    SM (option fuse_obj * fuse_args) :=
  r ← on_proc (parse_args args zero_conf help_opts (Some fuse_lib_opt_proc));
  let '(res, args, c) := r in
  if res =? -1 then mret (None, args) else
  if negb (show_help c =? 0) then mret (None, args) else
  fuse_new_31 so_of factory env args.

(** The handlers of the session: without byte-range locks of its own, a file
    system leaves them to the kernel. *)
Definition without_locks {OS U} (o : fuse_lowlevel_ops OS U) : fuse_lowlevel_ops OS U :=
  Ops OS U (op_init o) (op_destroy o) (op_lookup o) (op_forget o) (op_forget_multi o) (op_getattr o) (op_setattr o) (op_readlink o) (op_mknod o)
    (op_mkdir o) (op_unlink o) (op_rmdir o) (op_symlink o) (op_rename o) (op_link o) (op_open o) (op_read o) (op_write o) (op_write_buf o) (op_flush o)
    (op_release o) (op_fsync o) (op_opendir o) (op_readdir o) (op_readdirplus o) (op_releasedir o) (op_fsyncdir o) (op_statfs o) (op_setxattr o)
    (op_getxattr o) (op_listxattr o) (op_removexattr o) (op_access o) (op_create o) None None (op_bmap o) (op_ioctl o) (op_poll o) (op_retrieve_reply o)
    (op_flock o) (op_fallocate o) (op_copy_file_range o) (op_lseek o).

(** ** fuse_loop

    With the option remember, the loop with one thread cleans the cache of
    forgotten nodes while it waits: poll gives an error number, or the number of
    descriptors that are ready. *)
Class PollOps (OS : Type) := { sys_poll : Z -> Z -> OS -> OS * (Z + Z) }.

Section FuseLoop.
Context {OS X : Type} `{FdOps OS} `{DevOps OS} `{PollOps OS} `{Pages}.
Context (op : fuse_lowlevel_ops OS (lib slab_mem X)) (intr_call : Z -> Z -> Z -> ST (LL OS (lib slab_mem X)) unit).

(** The loop, with the last result; [rfuel] bounds the restarts of a read and
    [fuel] the turns. *)
Fixpoint remember_turns (rfuel fuel : nat) (next_clean res : Z) (fbuf : fuse_buf) : ST (LL OS (lib slab_mem X)) Z :=
  match fuel with
  | O => abort
  | S fuel =>
      ex ← fuse_session_exited;
      if (ex : bool) then mret res else
      now ← on_fuse curr_time;
      let timeout := if tv_sec now <? next_clean then u32 (next_clean - tv_sec now) else 0 in
      s ← get;
      p ← sys (sys_poll (se_fd (se s)) (i32 (timeout * 1000)));
      match p with
      | inl e => if e =? EINTR then remember_turns rfuel fuel next_clean (-1) fbuf else mret (-1)
      | inr n =>
          if 0 <? n then
            r ← fuse_session_receive_buf_int rfuel fbuf None;
            let '(res, fbuf) := r : Z * fuse_buf in
            if res =? - EINTR then remember_turns rfuel fuel next_clean res fbuf else
            if res <=? 0 then mret res else
            _ ← fuse_session_process_buf_int op intr_call fbuf None;
            remember_turns rfuel fuel next_clean res fbuf
          else
            t ← on_fuse fuse_clean_cache;
            now ← on_fuse curr_time;
            remember_turns rfuel fuel (tv_sec now + u32 t) n fbuf
      end
  end.

Definition fuse_session_loop_remember (rfuel fuel : nat) : ST (LL OS (lib slab_mem X)) Z :=
  now ← on_fuse curr_time;
  res ← remember_turns rfuel fuel (tv_sec now) 0 buf0;
  _ ← fuse_session_reset;
  mret (if res <? 0 then -1 else 0).

Definition fuse_loop (rfuel fuel : nat) : ST (LL OS (lib slab_mem X)) Z :=
  b ← get_lib;
  if lru_enabled (fz b) then fuse_session_loop_remember rfuel fuel else fuse_session_loop op intr_call rfuel fuel.
End FuseLoop.

(** ** fuse_destroy *)

Section Destroy.
Context {OS X : Type} `{FdOps OS} `{DevOps OS} `{Pages}.
Context (op : fuse_operations OS X).

Abbreviation IO := (ST (LL OS (lib slab_mem X))).
Abbreviation DM := (ST (LL OS (lib slab_mem X) * (process * signals))).

Definition llop : fuse_lowlevel_ops OS (lib slab_mem X) :=
  match o_lock op with Some _ => fuse_path_ops op | None => without_locks (fuse_path_ops op) end.

Definition on_io {P A} (m : IO A) : ST (LL OS (lib slab_mem X) * P) A := fun '(s, p) => match m s with Some (a, s) => Some (a, (s, p)) | None => None end.
Definition on_sys {A} (m : SM A) : DM A := fun '(s, p) => match m p with Some (a, p) => Some (a, (s, p)) | None => None end.

(** The nodes in the order of the table by number. *)
Definition table_nodes (f : fuse slab_mem) : list Z := concat (take (Z.to_nat (tsize (id_table f))) (array (id_table f))).

Fixpoint unlink_hidden (l : list Z) : IO unit :=
  match l with
  | [] => mret tt
  | p :: l =>
      n ← on_fuse (node_at p);
      _ ← (if is_hidden n then
             r ← on_fuse (try_get_path (nodeid n) None false false);
             match r with inr (path, _) => _ ← fuse_fs_unlink op (Some path); mret tt | inl _ => mret tt end
           else mret tt);
      unlink_hidden l
  end.

Fixpoint free_nodes (l : list Z) : ST (fuse slab_mem) unit :=
  match l with
  | [] => mret tt
  | p :: l =>
      _ ← free_node p;
      _ ← modify (fun f => set_id_table (with_use (u64 (use (id_table f) - 1)) (id_table f)) f);
      free_nodes l
  end.

(** Hidden files, nodes, and the two assertions. *)
Definition destroy_nodes : IO unit :=
  b ← get_lib;
  let l := table_nodes (fz b) in
  _ ← (if fs_live b then _ ← fuse_create_context (ReqCtx 0 0 0 0); unlink_hidden l else mret tt);
  _ ← on_fuse (free_nodes l);
  b ← get_lib;
  _ ← check (bool_decide (partial_slabs (slabs (fz b)) = []));
  check (bool_decide (full_slabs (slabs (fz b)) = [])).

(** [f] is what fuse_new_31 returned.  The end of the session calls the destroy
    callbacks of the stack, unless a DESTROY request has: then [f->fs] is
    destroyed already. *)
Definition fuse_destroy (f : fuse_obj) : DM unit :=
  b ← on_io get_lib;
  _ ← (if intr (conf (fz b)) && intr_installed f then on_sys (on_sigs (fuse_restore_intr_signal (intr_signal (f_conf f)))) else mret tt);
  _ ← on_io destroy_nodes;
  _ ← on_sys (on_proc put_all);
  s ← on_io get;
  _ ← on_io (fuse_session_destroy llop);
  _ ← (if got_init (se s) && negb (got_destroy (se s)) then on_sys (on_proc (Modules.fuse_fs_destroy (f_fs f))) else mret tt);
  on_sys (on_proc fuse_delete_context_key).
End Destroy.
