(* ===== verification/StartupTheorems.v ===== *)
(** * Start and end of a file system: theorems

    Pushing the modules of the command line, taking the options, and the end of
    a file system: hidden files are removed, every node is freed and the slabs
    with them, and the modules go before the file systems that refer to them. *)

From S2P Require Import Prelude DList NodeTable Wire Locks Node NodeTree NodeOps NodeSpec NodeTheorems Slab Path PathSpec PathQueue PathTheorems Buf LowLevel Dispatch FuseOpt Lib LibOps LibSpec LibTheorems.
From S2P Require Import Fusermount OptRule Mount MountTheorems Signals Modules ModulesSpec ModulesOps Startup.

(** ** Paths when there is memory *)

Section Open.
Context {M : Type} `{NodeMemLaws M}.
Implicit Types (f : fuse M).

Lemma make_room_some b len r : make_room true b len = Some r -> is_Some r.
Proof.
  unfold make_room. destruct (grow _ _ _); [|done]. cbn [mbind option_bind negb]. destruct (Path.load _ _ _); [|done]. cbn [mbind option_bind].
  destruct (Path.store _ _ _); [|done]. cbn [mbind option_bind]. intros [= <-]. by eexists.
Qed.

Lemma malloc_full f : Node.heap f = [] -> Node.malloc f = Some (true, f).
Proof. intros Hh. unfold Node.malloc. by rewrite Hh. Qed.

Lemma add_name_full f b t nm : Node.heap f = [] -> buf_ok b t -> Z.of_nat (length t) + Z.of_nat (length nm) + 2 <= 4294967295 ->
  exists b', add_name b nm f = Some (Some b', f) /\ buf_ok b' (lit "/" ++ nm ++ t).
Proof.
  intros Hh Hb Hl. unfold add_name.
  assert (exists b1, (if pos b <=? Z.of_nat (length nm) then ok ← Node.malloc; some (make_room ok b (Z.of_nat (length nm))) else mret (Some b)) f = Some (Some b1, f) /\
    buf_ok b1 t /\ Z.of_nat (length nm) < pos b1) as (b1 & E & Hb1 & Hp).
  { destruct (Z.leb_spec (pos b) (Z.of_nat (length nm))); [|by exists b]. rewrite (bind_step _ _ _ _ _ (malloc_full f Hh)).
    destruct (make_room_ok true b t (Z.of_nat (length nm)) Hb) as (r & E & Hr); [lia..|]. destruct (make_room_some _ _ _ E) as [b1 ->].
    rewrite E. by exists b1. }
  rewrite (bind_step _ _ _ _ _ E). destruct (prepend_ok b1 t nm Hb1 Hp) as (b2 & E2 & Hb2). rewrite E2. by exists b2.
Qed.

(** Climbing finds the way to the root, or a node without a place. *)
Lemma climb_full fuel : forall f p b t, Node.heap f = [] -> sound (nodes f) -> is_Some (nodes f !! p) -> buf_ok b t -> fits (nodes f) p t ->
  (forall l e, segment (nodes f) p l e -> (length l < fuel)%nat) ->
  exists r, lock_climb fuel false p b f = Some (r, f) /\
    match r with
    | inr b' => exists l, full_path (nodes f) p l /\ buf_ok b' (path_string (nodes f) l t)
    | inl _ => forall l, ~ full_path (nodes f) p l
    end.
Proof.
  induction fuel as [|fuel IH]; intros f p b t Hh Hs [n Hn] Hb Hfit Hfuel.
  { specialize (Hfuel [] p (seg_nil _ p (ex_intro _ n Hn))). lia. }
  cbn [lock_climb]. rewrite (bind_step _ _ _ _ _ (node_at_eq f p n Hn)). destruct (Z.eqb_spec (nodeid n) FUSE_ROOT_ID) as [Hr|Hr].
  { eexists. split; [reflexivity|]. exists []. split; [|done]. exists p. split; [constructor; by eexists|by exists n]. }
  assert (forall l, full_path (nodes f) p l -> exists nm d l', name n = Some nm /\ parent n = Some d /\ l = p :: l' /\ full_path (nodes f) d l') as Hinv.
  { intros l (e & Hse & He). inversion Hse as [? Hp|? n' d nm l' ? Hn' Hne Hd Hnm Hse']; subst.
    - destruct He as (m & Hm & Hrt). congruence.
    - assert (n' = n) as -> by congruence. exists nm, d, l'. repeat (split; [done|]). by exists e. }
  destruct (name n) as [nm|] eqn:Enm, (parent n) as [d|] eqn:Ed; try (eexists; split; [reflexivity|]; intros l (? & ? & ? & ? & ? & _)%Hinv; congruence).
  assert (path_string (nodes f) [p] t = lit "/" ++ nm ++ t) as Hps by (cbn [path_string]; rewrite Hn; cbn; by rewrite Enm).
  assert (forall l e, segment (nodes f) d l e -> segment (nodes f) p (p :: l) e) as Hseg by (intros; by apply (seg_cons _ p n d nm)).
  destruct (n_closed _ Hs p n d Hn Ed) as [Hd _].
  destruct (add_name_full f b t nm Hh Hb) as (b1 & E & Hb1).
  { specialize (Hfit _ _ (Hseg [] d (seg_nil _ d Hd))). rewrite Hps, !length_app in Hfit. change (length (lit "/")) with 1%nat in Hfit. lia. }
  rewrite (bind_step _ _ _ _ _ E).
  assert (forall l, path_string (nodes f) (p :: l) t = path_string (nodes f) l (lit "/" ++ nm ++ t)) as Hcons by (intros l; cbn [path_string]; rewrite Hn; cbn; by rewrite Enm).
  destruct (IH f d b1 (lit "/" ++ nm ++ t) Hh Hs Hd Hb1) as (r & E' & Hres).
  - intros l e Hse. rewrite <- Hcons. by apply (Hfit _ e), Hseg.
  - intros l e Hse. specialize (Hfuel _ _ (Hseg l e Hse)). cbn in Hfuel. lia.
  - exists r. split; [done|]. destruct r as [er|b'].
    + intros l (nm' & d' & l' & _ & Ed' & -> & Hl)%Hinv. apply (Hres l'). congruence.
    + destruct Hres as (l & (e & Hse & He) & Hb'). exists (p :: l). split; [exists e; split; [by apply Hseg|done]|]. by rewrite Hcons.
Qed.

(** The path of a node, without locks. *)
Lemma path_full f p n : Node.heap f = [] -> tree_ok f -> acyclic (abs f) -> c_names (nodes f) -> nodes f !! p = Some n -> fits (nodes f) p [] ->
  exists r, try_get_path (nodeid n) None false false f = Some (r, f) /\
    match r with
    | inr (s, _) => exists l, full_path (nodes f) p l /\ s = shown (path_string (nodes f) l [])
    | inl _ => forall l, ~ full_path (nodes f) p l
    end.
Proof.
  intros Hh Hf Ha Hc Hn Hfit. unfold try_get_path. rewrite (bind_step _ _ _ _ _ (malloc_full f Hh)). cbn [negb]. rewrite bind_ret, bind_ret.
  rewrite (bind_step _ _ _ _ _ (get_node_ok ∅ ∅ ∅ _ f p n Hf Hn (not_elem_of_empty p))), bind_get. pose proof (tree_sound f Hf Ha) as Hs.
  destruct (climb_full (S (size (nodes f))) f p (PathBuf (replicate 255 junk ++ [0]) 255) [] Hh Hs) as (r & E & Hr); [by eexists|apply new_buf_ok|done| |].
  { intros l e Hse. destruct (segment_ok _ _ _ _ Hs Hse) as (_ & ? & _). lia. }
  rewrite (bind_step _ _ _ _ _ E). destruct r as [[er q]|b]; [rewrite bind_ret; by eexists (inl er)|].
  destruct Hr as (l & Hl & Hb). eexists (inr (_, None)). split; [reflexivity|]. exists l. split; [done|]. destruct Hl as (e & Hse & _).
  rewrite (path_at_ok b _ Hb); [done|]. apply (path_string_nonul _ p l e); [done|done|constructor].
Qed.
End Open.

(** ** Freeing nodes *)

Section Free.
Context `{PagesLaws}.
Implicit Types (f : fuse slab_mem).

Lemma concat_lookup {A} (L : list (list A)) x : x ∈ concat L <-> exists j l, L !! j = Some l /\ x ∈ l.
Proof.
  rewrite list_elem_of_In, in_concat. split.
  - intros (l & Hl & Hx). apply list_elem_of_In, list_elem_of_lookup in Hl as [j Hj]. exists j, l. by rewrite list_elem_of_In.
  - intros (j & l & Hj & Hx). exists l. rewrite <- !list_elem_of_In. split; [by apply list_elem_of_lookup_2 in Hj|done].
Qed.

Lemma concat_NoDup {A} (L : list (list A)) : (forall j l, L !! j = Some l -> NoDup l) ->
  (forall i j l m x, L !! i = Some l -> L !! j = Some m -> x ∈ l -> x ∈ m -> i = j) -> NoDup (concat L).
Proof.
  induction L as [|l L IH]; intros Hn Hd; [constructor|]. cbn [concat]. apply NoDup_app. split; [by apply (Hn 0%nat)|]. split.
  - intros x Hx (j & m & Hj & Hm)%concat_lookup. by specialize (Hd 0%nat (S j) l m x eq_refl Hj Hx Hm).
  - apply IH; [intros j m Hj; by apply (Hn (S j))|]. intros i j a b x Hi Hj Ha Hb. specialize (Hd (S i) (S j) a b x Hi Hj Ha Hb). lia.
Qed.

(** The table by number holds every node once. *)
Lemma table_nodes_ok f : tree_ok f -> NoDup (table_nodes f) /\ forall p, p ∈ table_nodes f <-> is_Some (nodes f !! p).
Proof.
  intros Hf. destruct (t_ids _ _ _ _ _ Hf) as (Hsh & [Hmem Hnd Hhas] & _ & _). unfold table_nodes.
  set (T := take _ _). assert (forall j l, T !! j = Some l -> array (id_table f) !! j = Some l) as HT by (intros j l [? _]%lookup_take_Some; done).
  split.
  - apply concat_NoDup; [intros j l Hj; by apply (Hnd j), HT|]. intros i j l m x Hi%HT Hj%HT Hl Hm.
    destruct (Hmem i l x Hi Hl) as [_ Ei], (Hmem j m x Hj Hm) as [_ Ej]. lia.
  - intros p. rewrite concat_lookup. split.
    + intros (j & l & Hj%HT & Hp). destruct (Hmem j l p Hj Hp) as [Hd _]. apply elem_of_dom. set_solver.
    + intros Hp%elem_of_dom. destruct (Hhas p) as (l & Hl & Hpl); [set_solver|]. pose proof (bucket_range (id_table f) (id_g (nodes f) p) Hsh) as Hr.
      destruct Hsh as (_ & Hsp & _). exists (Z.to_nat (bucket (id_table f) (id_g (nodes f) p))), l. split; [|done]. unfold T. apply lookup_take_Some. split; [exact Hl|].
      assert (2 * (tsize (id_table f) / 2) <= tsize (id_table f)) by (apply Z.mul_div_le; lia). lia.
Qed.

Lemma free_nodes_ok l : forall f, NoDup l -> (forall p, p ∈ l -> is_Some (nodes f !! p)) -> mem_ok (slabs f) (dom (nodes f)) ->
  exists f', free_nodes l f = Some (tt, f') /\ mem_ok (slabs f') (dom (nodes f')) /\ (forall p, nodes f' !! p = if decide (p ∈ l) then None else nodes f !! p).
Proof.
  induction l as [|p l IH]; intros f Hnd Hin Hm; [exists f; split; [done|]; split; [done|]; intros p; by rewrite decide_False by apply not_elem_of_nil|].
  apply NoDup_cons in Hnd as [Hp Hnd]. destruct (Hin p) as [n Hn]; [left|]. cbn [free_nodes].
  destruct (free_law (slabs f) (dom (nodes f)) p Hm) as (m' & Em & Hm'); [apply elem_of_dom; by eexists|].
  assert (free_node p f = Some (tt, set_slabs m' (set_nodes (delete p (nodes f)) f))) as E.
  { unfold free_node. rewrite (bind_step _ _ _ _ _ (node_at_eq f p n Hn)), bind_get. rewrite Em. cbn [some]. by rewrite bind_ret. }
  rewrite (bind_step _ _ _ _ _ E), bind_modify. set (f1 := set_id_table _ _). destruct (IH f1) as (f' & E' & Hm1 & Hl); [done| | |].
  - intros q Hq. change (nodes f1) with (delete p (nodes f)). rewrite lookup_delete_ne; [apply Hin; by right|]. by intros <-.
  - change (mem_ok m' (dom (delete p (nodes f)))). by rewrite dom_delete_L.
  - exists f'. split; [done|]. split; [done|]. intros q. rewrite Hl. change (nodes f1) with (delete p (nodes f)). rewrite lookup_delete.
    destruct (decide (q ∈ l)) as [Hq|Hq]; [by rewrite decide_True by by right|]. destruct (decide (p = q)) as [->|Hne]; [by rewrite decide_True by left|].
    rewrite decide_False; [done|]. by intros [->|?]%elem_of_cons.
Qed.

(** Without nodes there are no slabs. *)
Lemma no_nodes_no_slabs m : slabs_ok m ∅ -> mapped m = ∅ /\ partial_slabs m = [] /\ full_slabs m = [].
Proof.
  intros Hm. assert (mapped m = ∅) as Em.
  { apply map_empty. intros a. destruct (mapped m !! a) as [sl|] eqn:Ea; [|done]. exfalso. pose proof (m_used _ _ _ Hm a sl Ea (not_elem_of_empty a)) as Hu.
    pose proof (m_slab _ _ _ Hm a sl Ea) as Hs. rewrite (s_used _ _ _ _ Hs) in Hu.
    assert (exists p, p ∈ cells (Slab.pagesize m) (get_node_size m) a /\ p ∉ freelist sl) as (p & Hp & Hfree).
    { destruct (decide (Exists (fun p => p ∉ freelist sl) (cells (Slab.pagesize m) (get_node_size m) a))) as [(p & ? & ?)%Exists_exists|Hno]; [by exists p|]. exfalso.
      assert (length (cells (Slab.pagesize m) (get_node_size m) a) <= length (freelist sl))%nat; [|lia].
      apply submseteq_length, NoDup_submseteq; [apply cells_NoDup|]. intros q Hq. destruct (decide (q ∈ freelist sl)); [done|]. exfalso. apply Hno, Exists_exists. by exists q. }
    assert (p ∈ (∅ : gset Z)) as Hpe by (apply (m_taken _ _ _ Hm); exists a, sl; done). set_solver. }
  split; [done|]. split.
  - destruct (partial_slabs m) as [|a l] eqn:E; [done|]. assert (a ∈ partial_slabs m) as Ha by (rewrite E; left). apply (m_partial _ _ _ Hm) in Ha as (sl & Hsl & _). by rewrite Em in Hsl.
  - destruct (full_slabs m) as [|a l] eqn:E; [done|]. assert (a ∈ full_slabs m) as Ha by (rewrite E; left). apply (m_full _ _ _ Hm) in Ha as (sl & Hsl & _). by rewrite Em in Hsl.
Qed.
End Free.

(** ** Removing hidden files *)

Section Hidden.
Context {OS X : Type} `{FdOps OS} `{DevOps OS} `{PagesLaws}.
Context (op : fuse_operations OS X).
Implicit Types (s : LL OS (lib slab_mem X)) (f : fuse slab_mem).

(** The paths of the hidden files among [l], in that order. *)
Inductive hidden_paths (N : gmap Z node) : list Z -> list bytes -> Prop :=
  | HP_nil : hidden_paths N [] []
  | HP_skip p n l ps : N !! p = Some n -> is_hidden n = false \/ (forall k, ~ full_path N p k) -> hidden_paths N l ps -> hidden_paths N (p :: l) ps
  | HP_path p n l ps k : N !! p = Some n -> is_hidden n = true -> full_path N p k -> hidden_paths N l ps ->
      hidden_paths N (p :: l) (shown (path_string N k []) :: ps).

(** The file system after it has been asked to unlink [ps]. *)
Definition run_unlinks (c : fuse_ctx) (ps : list bytes) (st : X * world OS) : X * world OS :=
  match o_unlink op with Some g => fold_left (fun st p => (g (Some p) c st).2) ps st | None => st end.

(** [s] with another state of the file system and the system. *)
Definition io_state s (st : X * world OS) : LL OS (lib slab_mem X) :=
  MkLL (se s) (reqs s) (nreqs s) (lks s) (chans s) (fresh s) (LowLevel.heap s) st.2 (sent s) (with_fsx st.1 (user s)).

Lemma io_state_id s : io_state s (fsx (user s), mach s) = s.
Proof. destruct s as [? ? ? ? ? ? ? ? ? []]. done. Qed.

Lemma fs_unlink_eq s c p : context (user s) = Some c -> fs_live (user s) = true ->
  exists r, fuse_fs_unlink op (Some p) s = Some (r, io_state s (run_unlinks c [p] (fsx (user s), mach s))).
Proof.
  intros Hc Hl. unfold fuse_fs_unlink, fs_op, fs_enter, get_lib. rewrite !bind_assoc, bind_get, bind_ret, Hl. cbn [check]. rewrite bind_assoc, bind_ret, Hc.
  cbn [of_option]. rewrite !bind_assoc, !bind_ret. unfold run_unlinks. destruct (o_unlink op) as [g|]; [|eexists; by rewrite io_state_id].
  unfold fs_call. rewrite bind_get, Hc. cbn [of_option]. rewrite bind_ret. cbn [fold_left]. destruct (g (Some p) c _) as [a [x w]]. unfold set_user, set_mach. rewrite !bind_modify. by exists a.
Qed.

(** A library between two requests, with memory. *)
Record quiet (b : lib slab_mem X) : Prop := {
  z_sys : sys_inv (fz b) []; z_heap : Node.heap (fz b) = []; z_live : fs_live b = true -> is_Some (context b);
  z_fits : forall p, fits (nodes (fz b)) p [] }.

Lemma on_fuse_same {A} (m : ST (fuse slab_mem) A) s a : m (fz (user s)) = Some (a, fz (user s)) -> on_fuse (OS := OS) m s = Some (a, s).
Proof. intros E. unfold on_fuse. rewrite E. do 2 f_equal. by destruct s as [? ? ? ? ? ? ? ? ? []]. Qed.

Lemma unlink_hidden_ok l c : forall s, quiet (user s) -> fs_live (user s) = true -> context (user s) = Some c ->
  (forall p, p ∈ l -> is_Some (nodes (fz (user s)) !! p)) ->
  exists ps, hidden_paths (nodes (fz (user s))) l ps /\ unlink_hidden op l s = Some (tt, io_state s (run_unlinks c ps (fsx (user s), mach s))).
Proof.
  induction l as [|p l IH]; intros s Hq Hl Hc Hin.
  { exists []. split; [constructor|]. unfold run_unlinks. cbn [unlink_hidden fold_left]. destruct (o_unlink op); by rewrite io_state_id. }
  destruct (Hin p) as [n Hn]; [left|]. cbn [unlink_hidden]. destruct Hq as [Hs Hh Hlc Hfit].
  rewrite (bind_step _ _ _ _ _ (on_fuse_same (node_at p) s n (node_at_eq _ p n Hn))).
  assert (forall q, q ∈ l -> is_Some (nodes (fz (user s)) !! q)) as Hin' by (intros q Hq; apply Hin; by right).
  destruct (is_hidden n) eqn:Eh.
  2:{ rewrite bind_ret. destruct (IH s) as (ps & Hps & E); [by split|done..|]. exists ps. split; [|done]. apply (HP_skip _ p n); auto. }
  destruct (path_full (fz (user s)) p n Hh (s_tree _ _ Hs) (s_acyclic _ _ Hs) (s_names _ _ Hs) Hn (Hfit p)) as (r & E & Hr).
  rewrite bind_assoc, (bind_step _ _ _ _ _ (on_fuse_same _ s r E)). destruct r as [er|[path w]].
  { rewrite bind_ret. destruct (IH s) as (ps & Hps & E'); [by split|done..|]. exists ps. split; [|done]. apply (HP_skip _ p n); auto. }
  destruct Hr as (k & Hk & ->). destruct (fs_unlink_eq s c (shown (path_string (nodes (fz (user s))) k [])) Hc Hl) as (r & Eu).
  rewrite bind_assoc, (bind_step _ _ _ _ _ Eu), bind_ret. set (st := run_unlinks c _ _).
  destruct (IH (io_state s st)) as (ps & Hps & E'); [by split|done..|]. exists (shown (path_string (nodes (fz (user s))) k []) :: ps).
  split; [by apply (HP_path _ p n)|]. rewrite E'. do 2 f_equal. unfold io_state at 2. cbn [user mach fsx with_fsx]. destruct st as [x wd] eqn:Est. cbn [fst snd].
  assert (run_unlinks c ps (x, wd) = run_unlinks c (shown (path_string (nodes (fz (user s))) k []) :: ps) (fsx (user s), mach s)) as <-; [|done].
  unfold st in Est. unfold run_unlinks in *. destruct (o_unlink op); [|done]. cbn [fold_left] in *. by rewrite Est.
Qed.

(** What the end of a file system does before its session goes: the file system
    is asked to remove each hidden file that has a path, by that path and once,
    unless it is gone already; every node is freed; and the two assertions
    about slabs hold. *)
Lemma destroy_nodes_ok s : quiet (user s) ->
  exists s', destroy_nodes op s = Some (tt, s') /\ se s' = se s /\ sent s' = sent s /\ LowLevel.heap s' = LowLevel.heap s /\
    nodes (fz (user s')) = ∅ /\ mapped (slabs (fz (user s'))) = ∅ /\ conf (fz (user s')) = conf (fz (user s)) /\
    fs_live (user s') = fs_live (user s) /\ (fs_live (user s) = true -> is_Some (context (user s'))) /\
    if fs_live (user s) then
      exists ps, hidden_paths (nodes (fz (user s))) (table_nodes (fz (user s))) ps /\
        (fsx (user s'), mach s') = run_unlinks (ReqCtx 0 0 0 0) ps (fsx (user s), mach s)
    else fsx (user s') = fsx (user s) /\ mach s' = mach s.
Proof.
  intros Hq. pose proof (s_tree _ _ (z_sys _ Hq)) as Hf. destruct (table_nodes_ok _ Hf) as [Hnd Hin]. unfold destroy_nodes, get_lib.
  rewrite bind_assoc, bind_get, bind_ret. set (l := table_nodes (fz (user s))) in *.
  assert (exists s1, (if fs_live (user s) then _ ← fuse_create_context (ReqCtx 0 0 0 0); unlink_hidden op l else mret tt) s = Some (tt, s1) /\
    se s1 = se s /\ sent s1 = sent s /\ LowLevel.heap s1 = LowLevel.heap s /\ fz (user s1) = fz (user s) /\ fs_live (user s1) = fs_live (user s) /\
    (fs_live (user s) = true -> is_Some (context (user s1))) /\
    if fs_live (user s) then exists ps, hidden_paths (nodes (fz (user s))) l ps /\ (fsx (user s1), mach s1) = run_unlinks (ReqCtx 0 0 0 0) ps (fsx (user s), mach s)
    else fsx (user s1) = fsx (user s) /\ mach s1 = mach s) as (s1 & E1 & S1 & S2 & S3 & F1 & L1 & C1 & U1).
  { destruct (fs_live (user s)) eqn:El; [|by exists s]. destruct (z_live _ Hq El) as [c0 Hc0]. unfold fuse_create_context, get_lib.
    rewrite !bind_assoc, bind_get, bind_ret, Hc0. unfold set_user. rewrite bind_modify. set (s0 := MkLL _ _ _ _ _ _ _ _ _ _).
    destruct (unlink_hidden_ok l (ReqCtx 0 0 0 0) s0) as (ps & Hps & E); [destruct Hq; by split|done|done|intros p Hp; by apply Hin|].
    eexists. split; [exact E|]. repeat (split; [done|]). exists ps. split; [done|]. cbn [io_state user with_fsx fsx mach].
    change (fsx (user s0), mach s0) with (fsx (user s), mach s). by destruct (run_unlinks _ ps _). }
  rewrite (bind_step _ _ _ _ _ E1). destruct (free_nodes_ok l (fz (user s)) Hnd) as (f' & Ef & Hm & Hlk); [intros p Hp; by apply Hin|apply (t_mem _ _ _ _ _ Hf)|].
  assert (nodes f' = ∅) as En.
  { apply map_empty. intros p. rewrite Hlk. case_decide as Hp; [done|]. destruct (nodes (fz (user s)) !! p) eqn:E; [|done]. exfalso. apply Hp, Hin. by eexists. }
  assert (conf f' = conf (fz (user s))) as Ec.
  { clear -Ef. revert Ef. generalize (fz (user s)) as f. generalize l. clear. induction l as [|p l IH]; intros f; [by intros [= <-]|]. cbn [free_nodes].
    intros ([] & f1 & E & E')%bind_Some. rewrite bind_modify in E'. rewrite (IH _ E'). clear -E. unfold free_node in E.
    apply bind_Some in E as (n & f2 & E & E2). apply bind_Some in E2 as (f3 & f4 & E3 & E4). injection E3 as -> ->. apply bind_Some in E4 as (m & f5 & E4 & E5).
    injection E5 as <-. destruct (free_node_mem p (slabs f4)); [|done]. injection E4 as _ <-. unfold node_at in E. rewrite bind_get in E. destruct (nodes f !! p); [|done]. by injection E as _ <-. }
  rewrite En, dom_empty_L in Hm. destruct (no_nodes_no_slabs _ Hm) as (Hmap & Hp & Hfull).
  assert (on_fuse (OS := OS) (free_nodes l) s1 = Some (tt, upd_user (with_fz f' (user s1)) s1)) as E2 by (unfold on_fuse; rewrite F1; by rewrite Ef).
  rewrite (bind_step _ _ _ _ _ E2), bind_assoc, bind_get, bind_ret. cbn [user upd_user with_fz fz]. rewrite Hp, Hfull, !bool_decide_true by done.
  eexists. split; [reflexivity|]. cbn [upd_user with_fz user fz se sent LowLevel.heap fs_live context fsx mach]. repeat (split; [done|]). exact U1.
Qed.
End Hidden.

(** ** The end of the session and of the modules *)

Section End_.
Context {OS X : Type} `{FdOps OS} `{DevOps OS} `{PagesLaws}.
Context (op : fuse_operations OS X).
Implicit Types (s : LL OS (lib slab_mem X)) (p : process) (sg : signals) (f : fuse_obj).

(** The destroy callback is still to be called. *)
Definition to_destroy s : bool := got_init (se s) && negb (got_destroy (se s)).

Lemma sys_total {A} (g : OS -> OS * A) s : exists a s', sys g s = Some (a, s') /\ se s' = se s /\ user s' = user s.
Proof. unfold sys, lift_w, do_sys. destruct (g (os (mach s))) as [o a]. by eexists _, _. Qed.

Lemma lib_destroy_ok s : fs_live (user s) = true -> is_Some (context (user s)) -> exists s', fuse_lib_destroy op s = Some (tt, s') /\ se s' = se s.
Proof.
  intros Hl [c Hc]. unfold fuse_lib_destroy, fuse_create_context, Lib.fuse_fs_destroy, fs_enter, fs_call, get_lib, set_user, set_mach, check, of_option, mbind, ST_bind, get, modify, mret, ST_ret.
  rewrite Hc. cbn. rewrite Hl. cbn. destruct (o_destroy op) as [g|]; cbn; [destruct (g _ _) as [[] [x w]]; cbn|]; by eexists.
Qed.

Lemma session_destroy_ok s : (to_destroy s = true -> fs_live (user s) = true /\ is_Some (context (user s))) ->
  exists s', fuse_session_destroy (llop op) s = Some (tt, s').
Proof.
  intros Hd. unfold fuse_session_destroy. rewrite bind_get. fold (to_destroy s). assert (op_destroy (llop op) = Some (fuse_lib_destroy op)) as -> by (unfold llop; by destruct (o_lock op)).
  assert (exists s1, (if to_destroy s then fuse_lib_destroy op else mret tt) s = Some (tt, s1)) as (s1 & E1).
  { destruct (to_destroy s); [|by exists s]. destruct (Hd eq_refl) as [Hl Hc]. destruct (lib_destroy_ok s Hl Hc) as (s1 & ? & _). by exists s1. }
  rewrite (bind_step _ _ _ _ _ E1), bind_get.
  assert (exists s2, (match pipe (se s1) with Some llp => fuse_ll_pipe_free llp | None => mret tt end) s1 = Some (tt, s2)) as (s2 & E2).
  { destruct (pipe (se s1)) as [llp|]; [|by exists s1]. unfold fuse_ll_pipe_free. destruct (sys_total (sys_close (p_rd llp)) s1) as (? & s2 & E & _). rewrite (bind_step _ _ _ _ _ E).
    destruct (sys_total (sys_close (p_wr llp)) s2) as (? & s3 & E3 & _). rewrite (bind_step _ _ _ _ _ E3). by exists s3. }
  rewrite (bind_step _ _ _ _ _ E2). destruct (negb _); [|by eexists].
  destruct (sys_total (sys_close (se_fd (se s1))) s2) as (? & s3 & E3 & _). rewrite (bind_step _ _ _ _ _ E3). by eexists.
Qed.

(** A library that is about to be destroyed: the file system is there as long
    as its destroy callback has not been called. *)
Definition ending s : Prop := quiet (user s) /\ (to_destroy s = true -> fs_live (user s) = true).

Lemma on_io_eq {P A} (m : ST (LL OS (lib slab_mem X)) A) s a s' (q : P) : m s = Some (a, s') -> on_io m (s, q) = Some (a, (s', q)).
Proof. intros E. unfold on_io. by rewrite E. Qed.

Lemma on_proc_eq {A} (m : PM A) s p a p' sg : m p = Some (a, p') -> on_sys (OS := OS) (X := X) (on_proc m) (s, (p, sg)) = Some (a, (s, (p', sg))).
Proof. intros E. unfold on_sys, on_proc. by rewrite E. Qed.

(** Up to the point where the file systems are destroyed. *)
Lemma destroy_until s p sg f : ending s -> list_ok p ->
  exists s1 s2 p1 sg1, nodes (fz (user s1)) = ∅ /\ mapped (slabs (fz (user s1))) = ∅ /\ to_destroy s1 = to_destroy s /\ same_but p p1 /\ mods p1 = ∅ /\ sos p1 = ∅ /\ fuse_modules p1 = [] /\
    (if fs_live (user s) then
      exists ps, hidden_paths (nodes (fz (user s))) (table_nodes (fz (user s))) ps /\ (fsx (user s1), mach s1) = run_unlinks op (ReqCtx 0 0 0 0) ps (fsx (user s), mach s)
     else fsx (user s1) = fsx (user s) /\ mach s1 = mach s) /\
    destroy_nodes op s = Some (tt, s1) /\ fuse_session_destroy (llop op) s1 = Some (tt, s2) /\
    fuse_destroy op f (s, (p, sg)) =
      (_ ← (if to_destroy s then on_sys (on_proc (Modules.fuse_fs_destroy (f_fs f))) else mret tt);
       on_sys (on_proc fuse_delete_context_key)) (s2, (p1, sg1)).
Proof.
  intros [Hq Hl] L. unfold fuse_destroy. rewrite (bind_step _ _ _ (user s) (s, (p, sg))) by done.
  assert (exists sg1, (if intr (conf (fz (user s))) && intr_installed f then on_sys (on_sigs (fuse_restore_intr_signal (intr_signal (f_conf f)))) else mret tt) (s, (p, sg)) =
    Some (tt, (s, (p, sg1)))) as (sg1 & E0).
  { destruct (_ && _); [|by exists sg]. unfold on_sys, on_sigs, fuse_restore_intr_signal. destruct (sigaction_eq sg) as (ok & o & E & _). rewrite (bind_step _ _ _ _ _ E).
    destruct ok; by eexists. }
  rewrite (bind_step _ _ _ _ _ E0). destruct (destroy_nodes_ok op s Hq) as (s1 & E1 & Se & _ & _ & N1 & M1 & _ & L1 & C1 & U1).
  rewrite (bind_step _ _ _ _ _ (on_io_eq _ _ _ _ (p, sg1) E1)). destruct (put_all_ok p L) as (p1 & E2 & B & Hl1 & Hm & Hs).
  rewrite (bind_step _ _ _ _ _ (on_proc_eq _ s1 p tt p1 sg1 E2)). rewrite (bind_step _ _ _ s1 (s1, (p1, sg1))) by done.
  assert (to_destroy s1 = to_destroy s) as Et by (unfold to_destroy; by rewrite Se). fold (to_destroy s1). rewrite Et.
  destruct (session_destroy_ok s1) as (s2 & E3); [rewrite Et, L1; intros Hd; auto|]. rewrite (bind_step _ _ _ _ _ (on_io_eq _ _ _ _ (p1, sg1) E3)).
  exists s1, s2, p1, sg1. repeat (split; [done|]). done.
Qed.

(** C26: A file system that is not put on modules comes to its end in an orderly
    way: whatever nodes, open files and hidden files the library has when
    fuse_destroy is called, it runs to its end; the file system has been asked
    to remove each hidden file that has a path, once and by that path (unless a
    DESTROY request has ended it before); every node is freed and with the
    nodes every slab, so that the two assertions of the code hold; the file
    system object is freed if no DESTROY request has, and no module stays
    registered. *)
Theorem destroy_frees_all s p sg f : ending s -> mods_ok none p -> fss p !! f_fs f = Some (FuseFs None None) ->
  exists s' p' sg', fuse_destroy op f (s, (p, sg)) = Some (tt, (s', (p', sg'))) /\
    mods p' = ∅ /\ sos p' = ∅ /\ fss p' = (if to_destroy s then delete (f_fs f) (fss p) else fss p) /\
    exists s1, destroy_nodes op s = Some (tt, s1) /\ nodes (fz (user s1)) = ∅ /\ mapped (slabs (fz (user s1))) = ∅ /\
      if fs_live (user s) then
        exists ps, hidden_paths (nodes (fz (user s))) (table_nodes (fz (user s))) ps /\
          (fsx (user s1), mach s1) = run_unlinks op (ReqCtx 0 0 0 0) ps (fsx (user s), mach s)
      else fsx (user s1) = fsx (user s) /\ mach s1 = mach s.
Proof.
  intros He Hp Hf. destruct (destroy_until s p sg f He (g_list _ _ Hp)) as (s1 & s2 & p1 & sg1 & N1 & M1 & _ & B & Hm & Hs & _ & U & E1 & _ & ->).
  assert (exists p2, (if to_destroy s then on_sys (OS := OS) (X := X) (on_proc (Modules.fuse_fs_destroy (f_fs f))) else mret tt) (s2, (p1, sg1)) = Some (tt, (s2, (p2, sg1))) /\
    mods p2 = ∅ /\ sos p2 = ∅ /\ fss p2 = if to_destroy s then delete (f_fs f) (fss p) else fss p) as (p2 & E2 & Hm2 & Hs2 & F2).
  { destruct (to_destroy s); [|exists p1; split; [done|]; split; [done|]; split; [done|]; apply B]. unfold on_sys, on_proc, Modules.fuse_fs_destroy. rewrite bind_get. cbn [fs_destroy_loop].
    unfold fs_at, deref. rewrite bind_assoc, bind_get, (b_fss _ _ B), Hf, bind_ret. cbn [fs_next fs_m]. rewrite !bind_ret. eexists. split; [reflexivity|]. cbn. by rewrite (b_fss _ _ B). }
  rewrite (bind_step _ _ _ _ _ E2). eexists _, _, _. split; [reflexivity|]. cbn. split; [done|]. split; [done|]. split; [done|]. exists s1. by repeat (split; [done|]).
Qed.

(** C40: If the file system is on top of a module and no DESTROY request has
    ended it, then fuse_destroy uses freed memory: it gives every module back
    and frees it before the end of the session calls the destroy callbacks,
    which give back their modules again.  This is so for every state of the
    library and of the modules; after a DESTROY request, where the callbacks
    have run, fuse_destroy ends as it should. *)
Theorem destroy_uses_freed_module s p sg f y m : ending s -> mods_ok none p -> fss p !! f_fs f = Some y -> fs_m y = Some m ->
  (to_destroy s = true -> fuse_destroy op f (s, (p, sg)) = None) /\
  (forall l, down (fss p) (f_fs f) l -> to_destroy s = false ->
    exists p0 s' p' sg', Modules.fuse_fs_destroy (f_fs f) p = Some (tt, p0) /\ fuse_destroy op f (s, (p0, sg)) = Some (tt, (s', (p', sg'))) /\
      mods p' = ∅ /\ forall a, fss p' !! a = if decide (a ∈ l) then None else fss p !! a).
Proof.
  intros He Hp Hy Hm. split.
  - intros Ht. destruct (destroy_until s p sg f He (g_list _ _ Hp)) as (s1 & s2 & p1 & sg1 & _ & _ & _ & B & Hm1 & _ & _ & _ & _ & _ & ->). rewrite Ht.
    assert (Modules.fuse_fs_destroy (f_fs f) p1 = None) as Ed.
    { unfold Modules.fuse_fs_destroy. rewrite bind_get. apply (destroy_dead _ p1 _ y m); [done| |done]. by rewrite (b_fss _ _ B). }
    unfold mbind, ST_bind, on_sys, on_proc. by rewrite Ed.
  - intros l Hd Ht. destruct (fs_destroy_ok (S (size (fss p))) p (f_fs f) l Hp Hd) as (p0 & E0 & Hp0 & _ & F0); [pose proof (down_size _ _ _ Hd); lia|].
    destruct (destroy_until s p0 sg f He (g_list _ _ Hp0)) as (s1 & s2 & p1 & sg1 & _ & _ & _ & B & Hm1 & _ & _ & _ & _ & _ & E). rewrite Ht, bind_ret in E.
    eexists p0, s2, _, sg1. split; [exact E0|]. split; [exact E|]. split; [done|]. cbn. intros a. by rewrite (b_fss _ _ B), F0.
Qed.
End End_.

(** ** The options *)

Section Options.
Context `{Strtod}.

Definition keep_eff {D} (arg : bytes) (key : Z) (d : D) : D := d.

Definition shaped (a : fuse_args) : Prop := argc a = length (args_list a).

Lemma lib_proc_does arg key : proc_does (Some fuse_lib_opt_proc) keep_eff arg key.
Proof. intros d a h. exists 1, d, h. split; [done|by right]. Qed.

Lemma lib_table_no_space : Forall no_space fuse_lib_opts.
Proof. apply table_no_space. vm_compute. reflexivity. Qed.

Lemma ll_table_no_space : Forall no_space fuse_ll_opts.
Proof. apply table_no_space. vm_compute. reflexivity. Qed.

(** What an option does to the configuration of the library. *)
Abbreviation lib_item := (item_effect fuse_lib_opts keep_eff).

Lemma parse_lib_ok args p : shaped args -> exists r args' c h,
  parse_args args lib_conf0 fuse_lib_opts (Some fuse_lib_opt_proc) p = Some ((r, args', c), set_p_heap h p) /\
  (r = -1 /\ args' = args \/ r = 0 /\ c = fold_left lib_item (handed (drop 1 (args_list args)) false) lib_conf0) /\ shaped args'.
Proof.
  intros Hs. unfold parse_args.
  destruct (parse_effect keep_eff args lib_conf0 fuse_lib_opts (Some fuse_lib_opt_proc) (p_heap p) lib_table_no_space
    (fun arg o sep _ _ => lib_proc_does arg (value o)) (fun arg => lib_proc_does arg _) (fun arg => lib_proc_does arg _) Hs)
    as (r & a' & c & h & -> & [[-> ->]|(-> & -> & _ & Ha)]); eexists _, _, _, _; (split; [reflexivity|]); [split; [by left|done]|split; [by right|done]].
Qed.

(** No option sets the member [intr]. *)
Lemma lib_item_intr c i : intr (lc (lib_item c i)) = intr (lc c).
Proof.
  assert (forall arg c m, intr (lc (entry_effect keep_eff arg c m)) = intr (lc c)) as He.
  { intros arg d [o sep]. unfold entry_effect. destruct (offset o =? NO_OFFSET); [unfold key_effect; by destruct (_ || _)|]. destruct (_ && _).
    - destruct (_ =? chr_s); [done|]. cbn [scan lib_conf_data]. destruct (offset o =? FC_umask); [by destruct (scan_o _)|]. destruct (_ || _); [by destruct (scan_u _)|].
      destruct (offset o =? FC_remember); [by destruct (scan_u _)|by destruct (strtod _)].
    - cbn [store_int lib_conf_data]. repeat (match goal with |- context [if ?b then _ else _] => destruct b end); done. }
  unfold item_effect. destruct i as [arg|arg]; [|unfold key_effect; by destruct (_ || _)].
  destruct (matches fuse_lib_opts arg) as [|m l]; [unfold key_effect; by destruct (_ || _)|]. generalize (m :: l). intros k. revert c.
  induction k as [|m' k IH]; intros c; [done|]. cbn [fold_left]. by rewrite IH, He.
Qed.

Lemma lib_items_intr l c : intr (lc (fold_left lib_item l c)) = intr (lc c).
Proof. revert c. induction l as [|i l IH]; intros c; [done|]. cbn [fold_left]. by rewrite IH, lib_item_intr. Qed.

Lemma add_arg_ok a arg h : allocated a = true -> shaped a -> exists r a' h', fuse_opt_add_arg a arg h = Some ((r, a'), h') /\ shaped a' /\ (allocated a' = true).
Proof.
  intros Ha Hs. unfold fuse_opt_add_arg, check. rewrite Ha, orb_true_r. unfold mbind, ST_bind, FuseOpt.malloc, mret, ST_ret. unfold shaped, args_list in *.
  destruct h as [|[] [|[] h]]; cbn; eexists _, _, _; (split; [reflexivity|]); cbn; rewrite ?length_app, ?length_take; cbn; (split; [|done]); lia.
Qed.

(** A session is made only if every option was taken; it has not been told
    anything by the kernel. *)
Lemma session_new_ok env args h : shaped args -> exists r args' h', fuse_session_new env args h = Some ((r, args'), h') /\
  match r with Some (e, mo) => argc args' = 1%nat /\ exists deny, e = new_session env deny mo | None => True end.
Proof.
  intros Hs. unfold fuse_session_new. case_bool_decide as H0; [by eexists None, _, _|].
  assert (args_list args <> []) as Hne by (intros E; rewrite Hs, E in H0; done).
  unfold FuseOpt.malloc. destruct (match h with [] => Some (true, []) | r :: h => Some (r, h) end) as [[[] h1]|] eqn:Em; [|by eexists None, _, _|by destruct h].
  destruct (parse_effect keep_eff args (LlOpts 0 0) fuse_ll_opts None h1 ll_table_no_space (fun _ _ _ _ _ _ => eq_refl) (fun _ _ => eq_refl) (fun _ _ => eq_refl) Hs)
    as (r & a1 & o & h2 & -> & [[-> ->]|(-> & _ & Hal & Hs1)]); cbn [Z.eqb Pos.eqb]; [by eexists None, _, _|]. specialize (Hal Hne).
  assert (exists r a2 h3, (if negb (ll_deny_others o =? 0) then fuse_opt_add_arg a1 (lit "-oallow_other") else mret (0, a1)) h2 = Some ((r, a2), h3) /\ shaped a2) as (r & a2 & h3 & -> & Hs2).
  { destruct (negb _); [|by eexists _, _, _]. destruct (add_arg_ok a1 (lit "-oallow_other") h2 Hal Hs1) as (r & a2 & h3 & -> & ? & _). by eexists _, _, _. }
  destruct (r =? -1); [by eexists None, _, _|].
  assert (exists mo a3 h4, parse_mount_opts (Some a2) h3 = Some (mo, a3, h4)) as (mo & a3 & h4 & ->).
  { assert (forall h, exists mo a3 h4, match fuse_opt_parse a2 mount_opts0 fuse_mount_opts (Some fuse_mount_opt_proc) h with
        | Some (r, a, m, h) => Some (if r =? -1 then None else Some m, Some a, h) | None => None end = Some (mo, a3, h4)) as Hp.
    { intros h'. destruct (parse_effect mount_eff a2 mount_opts0 fuse_mount_opts (Some fuse_mount_opt_proc) h' mount_table_no_space mount_proc_does
        (fun arg => mount_proc_other arg _ (or_introl eq_refl)) (fun arg => mount_proc_other arg _ (or_intror eq_refl)) Hs2) as (? & ? & ? & ? & -> & _). by eexists _, _, _. }
    unfold parse_mount_opts. destruct h3 as [|[] h3]; [apply Hp|apply Hp|by eexists _, _, _]. }
  destruct mo as [mo|]; [|by eexists None, _, _]. case_bool_decide as Hc; [by eexists None, _, _|]. destruct (pipe_key_ok env); cbn [negb]; [|by eexists None, _, _].
  eexists (Some _), _, _. split; [reflexivity|]. split; [|by eexists]. destruct (decide (argc (default a2 a3) = 1%nat)); [done|]. by destruct Hc.
Qed.
End Options.

(** ** Starting *)

(** The invariant does not look at the other static variables. *)
Lemma mods_ok_builtin x p b : mods_ok x p -> mods_ok x (set_builtin b p).
Proof. intros [[] ? ? ?]. split; [by split|done..]. Qed.

Lemma mods_ok_ref x p c : mods_ok x p -> mods_ok x (set_context_ref c p).
Proof. intros [[] ? ? ?]. split; [by split|done..]. Qed.

Lemma register_builtin_ok p : mods_ok none p -> exists p', register_builtin p = Some (tt, p') /\ mods_ok none p' /\ fss p' = fss p /\
  fuse_context_ref p' = fuse_context_ref p /\ builtin_modules_registered p' = true /\ (builtin_modules_registered p = true -> p' = p).
Proof.
  intros Hp. unfold register_builtin. rewrite bind_get. destruct (builtin_modules_registered p) eqn:Eb; [by exists p|].
  assert (forall n q, mods_ok none q -> exists r q', fuse_register_module n None q = Some (r, q') /\ mods_ok none q' /\ fss q' = fss q /\ fuse_context_ref q' = fuse_context_ref q) as Hr.
  { intros n q Hq. destruct (register_eq n None q I) as (h & [E|E]); eexists _, _; (split; [exact E|]); [split; [by apply mods_ok_heap|done]|].
    split; [by apply registered_ok, mods_ok_heap|done]. }
  destruct (Hr (lit "subdir") p Hp) as (r1 & p1 & E1 & H1 & F1 & C1). rewrite (bind_step _ _ _ _ _ E1).
  destruct (Hr (lit "iconv") p1 H1) as (r2 & p2 & E2 & H2 & F2 & C2). rewrite (bind_step _ _ _ _ _ E2).
  eexists. split; [reflexivity|]. split; [by apply mods_ok_builtin|]. cbn. split; [congruence|]. split; [congruence|]. done.
Qed.

Lemma free_top_ok p top y : mods_ok none p -> fss p !! top = Some y -> exists p', free_top top p = Some (tt, p') /\ mods_ok none p' /\
  fss p' = delete top (fss p) /\ fuse_context_ref p' = i32 (fuse_context_ref p - 1).
Proof.
  intros Hp Hy. unfold free_top, fs_at, deref. rewrite bind_assoc, bind_get, Hy, bind_ret. destruct (fs_free_ok p top y Hp Hy) as (p' & E & Hp' & F & [_ S]).
  rewrite <- bind_assoc. rewrite (bind_step _ _ _ _ _ E). eexists. split; [reflexivity|]. split; [by apply mods_ok_ref|]. cbn. by rewrite S.
Qed.

Section Start.
Context `{Strtod} `{PagesLaws} (so_of : bytes -> so_file) (factory : bytes -> fuse_args -> bool * fuse_args) (env : start_env).
Context (Hfactory : forall n a, shaped a -> shaped (factory n a).2) (Hpage : Slab.page_size (page env)).

Abbreviation lib_item := (item_effect fuse_lib_opts keep_eff).

Definition module_list (c : lib_conf) : list bytes := match modules c with Some s => module_names s [] | None => [] end.

(** The configuration that the command line asks for. *)
Definition conf_of (args : fuse_args) : lib_conf := fold_left lib_item (handed (drop 1 (args_list args)) false) lib_conf0.

Lemma push_args names : forall top args p ok top' args' p', push_modules so_of factory top names args p = Some ((ok, top', args'), p') -> shaped args -> shaped args'.
Proof using Hfactory.
  induction names as [|n names IH]; intros top args p ok top' args' p'; cbn [push_modules]; [by intros [= _ _ <- _]|].
  case_bool_decide; [apply IH|]. intros ([r a1] & p1 & E1 & E)%bind_Some Hs. assert (shaped a1) as Hs1.
  { unfold fuse_push_module in E1. apply bind_Some in E1 as (m & p2 & _ & E1). destruct m as [m|]; [|by injection E1 as _ <- _].
    specialize (Hfactory n args Hs). destruct (factory n args) as [b a2]. apply bind_Some in E1 as (x & p3 & _ & E1). destruct x as [a|].
    - apply bind_Some in E1 as (y & p4 & _ & E1). apply bind_Some in E1 as (z & p5 & _ & E1). by injection E1 as _ <- _.
    - apply bind_Some in E1 as (z & p5 & _ & E1). by injection E1 as _ <- _. }
  destruct r as [t|]; [by apply (IH _ _ _ _ _ _ _ E)|by injection E as _ _ <- _].
Qed.

Lemma new_root_ok c p : exists r h, new_root c (page env) p = Some (r, set_p_heap h p) /\
  match r with Some f => NodeTheorems.inv f /\ unlocked f /\ conf f = c /\ abs f = root_tree | None => True end.
Proof using Hpage.
  unfold new_root. assert (mem_ok (no_slabs (page env) (0 <? remember c)) ∅) as Hm by exact (no_slabs_ok _ _ Hpage).
  destruct (make_root_ok c _ (p_heap p) [] Hm) as (r & f & -> & Hr).
  exists (match r with Some _ => Some f | None => None end), (Node.heap f). split; [done|]. destruct r; [|done]. tauto.
Qed.

(** The stack, the session and the root; [o] is what there is of them. *)
Lemma new_stack_ok c args p : mods_ok none p -> shaped args -> Z.of_nat (S (size (fss p)) + length (module_list c)) < 2 ^ 31 - 1 ->
  exists o args' p', new_stack so_of factory env c args p = Some ((o, args'), p') /\ mods_ok none p' /\
    match o with
    | Some (top, e, mo, f) => fuse_context_ref p' = fuse_context_ref p /\ argc args' = 1%nat /\ (exists deny, e = new_session env deny mo) /\
        (exists base, fss p !! base = None /\ fss p' !! base = Some (FuseFs None None) /\ stacked p' base top (reverse (wanted (module_list c)))) /\
        NodeTheorems.inv f /\ unlocked f /\ conf f = final_conf c /\ abs f = root_tree
    | None => fuse_context_ref p' = i32 (fuse_context_ref p - 1)
    end.
Proof using Hfactory Hpage.
  intros Hp Hs Hfew. unfold new_stack. destruct (fs_new_ok none p None Hp) as (r & p1 & E1 & Hp1 & _ & _ & C1 & F1). rewrite (bind_step _ _ _ _ _ E1).
  destruct r as [base|].
  2:{ unfold fuse_delete_context_key. rewrite bind_modify. eexists None, _, _. split; [reflexivity|]. split; [by apply mods_ok_ref|]. cbn. by rewrite C1. }
  destruct F1 as [Hb F1].
  assert (exists ok top a2 p2 d, (match modules c with Some s => push_modules so_of factory base (module_names s []) args | None => mret (true, base, args) end) p1 = Some ((ok, top, a2), p2) /\
    shaped a2 /\ mods_ok none p2 /\ statics p1 p2 /\ is_Some (fss p2 !! top) /\ (forall f y, fss p1 !! f = Some y -> fss p2 !! f = Some y) /\
    (ok = true -> d = wanted (module_list c) /\ stacked p2 base top (reverse d))) as (ok & top & a2 & p2 & d & E2 & Hs2 & Hp2 & [_ S2] & Ht & Hmono & Hst).
  { assert (is_Some (fss p1 !! base)) as Hb1 by (rewrite F1, lookup_insert_eq; by eexists). unfold module_list in *. destruct (modules c) as [s|].
    - destruct (push_modules_ok so_of factory base (module_names s []) p1 base [] args Hp1) as (ok & top & a2 & p2 & d & E & H2 & S2 & _ & Hall & Ht & Hm & Hst);
        [rewrite F1, map_size_insert_None by done; exact Hfew|constructor|done|].
      exists ok, top, a2, p2, d. split; [exact E|]. split; [by apply (push_args _ _ _ _ _ _ _ _ E)|]. repeat (split; [done|]). intros Ho. rewrite <- (app_nil_r (reverse d)). split; [by apply Hall|by apply Hst].
    - exists true, base, args, p1, []. split; [done|]. split; [done|]. split; [done|]. split; [done|]. split; [done|]. split; [done|]. intros _. split; [done|constructor]. }
  rewrite (bind_step _ _ _ _ _ E2). destruct Ht as [y Hy].
  assert (forall a q h, q = set_p_heap h p2 -> exists o args' p', (_ ← free_top top; mret (@None (Z * fuse_session * mount_opts * fuse slab_mem), a)) q = Some ((o, args'), p') /\ mods_ok none p' /\
    match o with
    | Some (top, e, mo, f) => fuse_context_ref p' = fuse_context_ref p /\ argc args' = 1%nat /\ (exists deny, e = new_session env deny mo) /\
        (exists base, fss p !! base = None /\ fss p' !! base = Some (FuseFs None None) /\ stacked p' base top (reverse (wanted (module_list c)))) /\
        NodeTheorems.inv f /\ unlocked f /\ conf f = final_conf c /\ abs f = root_tree
    | None => fuse_context_ref p' = i32 (fuse_context_ref p - 1)
    end) as Hfail.
  { intros a q h ->. destruct (free_top_ok (set_p_heap h p2) top y) as (p' & E & Hp' & _ & C); [by apply (mods_ok_heap none p2 h)|done|]. rewrite (bind_step _ _ _ _ _ E).
    eexists None, _, _. split; [reflexivity|]. split; [done|]. rewrite C. cbn. congruence. }
  destruct ok; cbn [negb]; [|apply (Hfail a2 p2 (p_heap p2)); by destruct p2].
  destruct (session_new_ok env a2 (p_heap p2) Hs2) as (r & a3 & h3 & E3 & Hr).
  assert (on_p_heap (fuse_session_new env a2) p2 = Some ((r, a3), set_p_heap h3 p2)) as E3' by (unfold on_p_heap; by rewrite E3). rewrite (bind_step _ _ _ _ _ E3').
  destruct r as [[e mo]|]; [|by apply (Hfail a3 _ h3)]. destruct Hr as [Hac Hdeny].
  destruct (new_root_ok (final_conf c) (set_p_heap h3 p2)) as (r & h4 & E4 & Hroot). rewrite (bind_step _ _ _ _ _ E4). destruct r as [f|]; [|by apply (Hfail a3 _ h4)].
  destruct (Hst eq_refl) as [-> Hstack]. eexists (Some _), _, _. split; [reflexivity|]. split; [by apply (mods_ok_heap none p2 h4)|].
  split; [cbn; congruence|]. split; [done|]. split; [done|]. split; [|tauto]. exists base. split; [done|]. split; [cbn; apply Hmono; rewrite F1; apply lookup_insert_eq|].
  apply (stacked_mono p2); [done|by intros a m ?; exists m|done].
Qed.

(** C25: Starting a file system ends for every command line, module and outcome
    of the allocations, and keeps the counters of the modules exact.  If
    fuse_new_31 returns a file system, then: its configuration is the options
    of the command line applied in order to the defaults; on top of the new
    file system are the modules that were asked for, in that order; every
    argument but the first has been taken; the nodes are the tree that has
    only a root; and no signal handler is installed, since no option can ask
    for interrupts.  If it returns null, the context key is given back. *)
Theorem new_starts args p sg : mods_ok none p -> shaped args -> 0 <= fuse_context_ref p < 2 ^ 30 ->
  Z.of_nat (S (size (fss p)) + length (module_list (conf_of args))) < 2 ^ 31 - 1 ->
  exists o args' p', fuse_new_31 so_of factory env args (p, sg) = Some ((o, args'), (p', sg)) /\ mods_ok none p' /\
    match o with
    | Some f => fuse_context_ref p' = fuse_context_ref p + 1 /\ f_conf f = conf_of args /\ argc args' = 1%nat /\
        (exists base, fss p !! base = None /\ fss p' !! base = Some (FuseFs None None) /\
           stacked p' base (f_fs f) (reverse (wanted (module_list (conf_of args))))) /\
        (exists deny, f_se f = new_session env deny (f_mo f)) /\
        NodeTheorems.inv (f_nodes f) /\ unlocked (f_nodes f) /\ abs (f_nodes f) = root_tree /\ conf (f_nodes f) = final_conf (conf_of args) /\
        intr_installed f = false /\ intr (conf (f_nodes f)) = false
    | None => fuse_context_ref p' = fuse_context_ref p
    end.
Proof using Hfactory Hpage.
  intros Hp Hs Hc Hfew. unfold fuse_new_31. destruct (p_malloc p) as (ok & h1 & E1).
  assert (forall A (m : PM A) q a q', m q = Some (a, q') -> on_proc (S := signals) m (q, sg) = Some (a, (q', sg))) as Hon by (intros A m q a q' E; unfold on_proc; by rewrite E).
  rewrite (bind_step _ _ _ _ _ (Hon _ _ _ _ _ E1)). destruct ok; cbn [negb]; [|eexists None, _, _; split; [reflexivity|]; split; [by apply mods_ok_heap|done]].
  destruct (parse_lib_ok args (set_p_heap h1 p) Hs) as (r & a1 & c & h2 & E2 & Hr & Hs1). rewrite (bind_step _ _ _ _ _ (Hon _ _ _ _ _ E2)).
  set (p2 := set_p_heap h2 _) in *. assert (mods_ok none p2) as Hp2 by (by do 2 apply mods_ok_heap).
  destruct Hr as [[-> _]|[-> Hconf]]; cbn [Z.eqb Pos.eqb]; [by eexists None, _, _|]. fold (conf_of args) in Hconf. subst c.
  destruct (register_builtin_ok p2 Hp2) as (p3 & E3 & Hp3 & F3 & C3 & _). rewrite (bind_step _ _ _ _ _ (Hon _ _ _ _ _ E3)).
  assert (fuse_context_ref p3 = fuse_context_ref p) as C3' by (by rewrite C3).
  destruct ((fuse_context_ref p3 =? 0) && negb (context_key_ok env)) eqn:Ek.
  { rewrite (bind_step _ _ _ _ _ (Hon _ (fuse_create_context_key (context_key_ok env)) p3 (-1) p3 ltac:(unfold fuse_create_context_key; rewrite bind_get, Ek; done))). cbn [Z.eqb Pos.eqb].
    by eexists None, _, _. }
  set (p4 := set_context_ref (i32 (fuse_context_ref p3 + 1)) p3).
  rewrite (bind_step _ _ _ _ _ (Hon _ (fuse_create_context_key (context_key_ok env)) p3 0 p4 ltac:(unfold fuse_create_context_key; rewrite bind_get, Ek; done))). cbn [Z.eqb Pos.eqb].
  assert (mods_ok none p4) as Hp4 by (by apply mods_ok_ref).
  assert (i32 (fuse_context_ref p3 + 1) = fuse_context_ref p + 1) as Ei by (rewrite C3'; apply swrap_id; lia).
  destruct (new_stack_ok (conf_of args) a1 p4 Hp4 Hs1) as (o & a5 & p5 & E5 & Hp5 & Ho); [change (fss p4) with (fss p3); rewrite F3; exact Hfew|].
  rewrite (bind_step _ _ _ _ _ (Hon _ _ _ _ _ E5)). change (fuse_context_ref p4) with (i32 (fuse_context_ref p3 + 1)) in Ho. rewrite Ei in Ho.
  change (fss p4) with (fss p3) in Ho. rewrite F3 in Ho. change (fss p2) with (fss p) in Ho.
  destruct o as [[[[top e] mo] f]|].
  2:{ eexists None, _, _. split; [reflexivity|]. split; [done|]. rewrite Ho. replace (fuse_context_ref p + 1 - 1) with (fuse_context_ref p) by lia. apply swrap_id; lia. }
  assert (intr (lc (conf_of args)) = false) as Hi by (unfold conf_of; by rewrite lib_items_intr). rewrite Hi, bind_ret. cbn [fst snd Z.eqb Pos.eqb].
  destruct Ho as (Cr & Hac & Hdeny & Hbase & Hinv & Hul & Hcf & Habs).
  eexists (Some _), _, _. split; [reflexivity|]. split; [done|]. cbn [f_conf f_fs f_se f_mo f_nodes intr_installed]. split; [done|]. split; [done|]. split; [done|]. split; [done|].
  split; [done|]. split; [done|]. split; [done|]. split; [done|]. split; [done|]. split; [done|]. rewrite Hcf. unfold final_conf. destruct (ac_attr_timeout_set _ =? 0); exact Hi.
Qed.
End Start.

(** fuse_destroy unregisters the built-in modules, and nothing registers
    them again: a file system started afterwards in the same process cannot be
    put on subdir or iconv, unless a shared object of that name is found. *)
Theorem builtin_modules_lost so_of factory p top name args : mods_ok none p -> builtin_modules_registered p = true -> so_of name <> Loadable ->
  exists p1 p2 p3, put_all p = Some (tt, p1) /\ register_builtin p1 = Some (tt, p2) /\
    fuse_push_module so_of factory top name args p2 = Some ((None, args), p3).
Proof.
  intros Hp Hb Hso. destruct (put_all_ok p (g_list _ _ Hp)) as (p1 & E1 & B & El & _ & _). exists p1, p1.
  assert (builtin_modules_registered p1 = true) as Hb1 by (by rewrite (b_builtin _ _ B)).
  assert (exists p3, fuse_get_module so_of name p1 = Some (None, p3)) as (p3 & E3).
  { unfold fuse_get_module, fuse_find_module. rewrite bind_assoc, bind_get, El. cbn [find_module_in]. rewrite bind_ret. unfold fuse_load_so_module.
    destruct (p_malloc p1) as (ok & h1 & Em). rewrite bind_assoc, (bind_step _ _ _ _ _ Em). destruct ok; cbn [negb]; [|rewrite bind_ret; by eexists].
    destruct (p_malloc (set_p_heap h1 p1)) as (ok & h2 & Em2). rewrite bind_assoc, (bind_step _ _ _ _ _ Em2). destruct ok; cbn [negb]; [|rewrite bind_ret; by eexists].
    rewrite bind_assoc, (bind_step _ _ _ _ _ (new_addr_eq _)). destruct (so_of name); [rewrite bind_ret; by eexists..|done]. }
  exists p3. split; [done|]. split; [unfold register_builtin; by rewrite bind_get, Hb1|]. unfold fuse_push_module. by rewrite (bind_step _ _ _ _ _ E3).
Qed.

(** ** A run *)

(** Short names in a small tree make short paths. *)
Lemma path_length N k l t : (forall p n nm, N !! p = Some n -> name n = Some nm -> (length nm <= k)%nat) ->
  (length (path_string N l t) <= length t + length l * (k + 1))%nat.
Proof.
  intros Hk. revert t. induction l as [|p l IH]; intros t; cbn [path_string length]; [lia|]. etrans; [apply IH|]. rewrite !length_app. change (length (lit "/")) with 1%nat.
  assert (length (default [] (n ← N !! p; name n)) <= k)%nat; [|lia]. destruct (N !! p) as [n|] eqn:En; [|cbn; lia]. cbn. destruct (name n) as [nm|] eqn:Enm; [|cbn; lia]. by apply (Hk p n).
Qed.

Lemma fits_small N k p : sound N -> (forall p n nm, N !! p = Some n -> name n = Some nm -> (length nm <= k)%nat) ->
  Z.of_nat (size N) * (Z.of_nat k + 1) + 1 <= 4294967295 -> fits N p [].
Proof.
  intros Hs Hk Hb l e Hse. destruct (segment_ok _ _ _ _ Hs Hse) as (_ & Hl & _). pose proof (path_length N k l [] Hk). cbn [length] in *. nia.
Qed.

#[local] Existing Instance bump_pages.
#[local] Existing Instance bump_laws.

(** A file system that notes the paths it is asked to unlink. *)
Definition noting_fs : fuse_operations files (list bytes) :=
  FsOps files (list bytes) None None None None (Some (fun path _ s => (0, (s.1 ++ [default [] path], s.2)))) None None None None None None None None None None None None None None None
    None None None None None None None None None None None None None None None None None None None None None None.

(** The tree with the files [a] and [b], where [b] is hidden. *)
Definition hidden_b : fuse slab_mem :=
  set_nodes ((fun n => if nodeid n =? 3 then MkNode (nodeid n) (generation n) (refctr n) (parent n) (name n) (nlookup n) (open_count n) (stat_updated n) (mtime n) (nsize n) (locks n) true (cache_valid n) (treelock n) else n)
    <$> nodes demo_ab) demo_ab.

Definition ending_lib : lib slab_mem (list bytes) := Lib hidden_b [] true (Some (ReqCtx 0 0 0 0)) ∅ 1.

Definition ending_ll : LL files (lib slab_mem (list bytes)) := start (with_got_init true example_session) (World (∅ : files) ∅ 4000) ending_lib.

Lemma detail_fmap (g : node -> node) (f : fuse slab_mem) : (forall n, core (g n) = core n) -> detail f (set_nodes (g <$> nodes f) f).
Proof. intros Hg. split; [|done]. cbn. rewrite <- map_fmap_compose. apply map_fmap_ext. intros p n _. apply Hg. Qed.

Lemma hidden_b_detail : detail demo_ab hidden_b.
Proof. apply detail_fmap. intros n. by destruct (nodeid n =? 3). Qed.

Definition short_name (n : node) : bool := match name n with Some nm => (length nm <=? 10)%nat | None => true end.

Lemma ending_ok : ending ending_ll.
Proof.
  assert (sys_inv hidden_b []) as Hs by (apply (detail_sys demo_ab); [exact hidden_b_detail|vm_compute; reflexivity|exact (no_locks_sys _ demo_no_locks)]).
  split; [|reflexivity]. split; [exact Hs|vm_compute; reflexivity|eexists; reflexivity|]. intros p. change (fz (user ending_ll)) with hidden_b.
  apply (fits_small _ 10); [exact (tree_sound _ (s_tree _ _ Hs) (s_acyclic _ _ Hs))| |vm_compute; discriminate].
  intros q n nm Hq Hnm. assert (short_name n = true) as Hl.
  { revert q n Hq Hnm. intros q n Hq _. revert q n Hq. apply (bool_decide_unpack (map_Forall (fun _ n => short_name n = true) _)). vm_compute. exact Logic.I. }
  unfold short_name in Hl. rewrite Hnm in Hl. by apply Nat.leb_le in Hl.
Qed.

Definition plain_process : process := Process [] ∅ ∅ true 1 {[5 := FuseFs None None]} 6 [].
Definition on_fs (a : Z) : fuse_obj := FuseObj a lib_conf0 false example_session mount_opts0 hidden_b.


Lemma plain_process_ok : mods_ok none plain_process.
Proof.
  split; [split|..]; cbn [plain_process fuse_modules mods sos fss p_next].
  - constructor.
  - intros a. rewrite lookup_empty. split; [by intros ?%elem_of_nil|by intros []].
  - intros a m so Hm. by rewrite lookup_empty in Hm.
  - intros a b m n so Hm. by rewrite lookup_empty in Hm.
  - intros so [k Hk]. by rewrite lookup_empty in Hk.
  - intros a m Hm. by rewrite lookup_empty in Hm.
  - intros a. rewrite !lookup_empty. intros [[? Hs]|[[? Hs]|Hs]]; try done. apply lookup_singleton_is_Some in Hs as <-. lia.
  - intros a m Hm. by rewrite lookup_empty in Hm.
  - intros f y a Hf Ha. apply lookup_singleton_Some in Hf as [_ <-]. done.
  - intros a. split; [done|]. unfold none. lia.
Qed.

(** The hidden file is removed, by the path that it has. *)
Lemma destroy_frees_all_witness : exists s' p' sg', fuse_destroy noting_fs (on_fs 5) (ending_ll, (plain_process, Signals ∅ None [])) = Some (tt, (s', (p', sg'))) /\
  fss p' = ∅ /\ nodes (fz (user s')) = ∅ /\ fsx (user s') = [lit "/b"].
Proof.
  destruct (destroy_frees_all noting_fs ending_ll plain_process (Signals ∅ None []) (on_fs 5) ending_ok plain_process_ok eq_refl) as (s' & p' & sg' & E & _ & _ & F & _).
  exists s', p', sg'. split; [exact E|]. split; [rewrite F; vm_compute; reflexivity|]. vm_compute in E. injection E as <- _ _. split; vm_compute; reflexivity.
Defined.

Definition subdir_process : process :=
  Process [1] {[1 := FuseModule (lit "subdir") 1 None]} ∅ true 1 {[2 := FuseFs None None; 3 := FuseFs (Some 1) (Some 2)]} 6 [].

Lemma subdir_process_ok : mods_ok none subdir_process.
Proof.
  assert (forall a m, mods subdir_process !! a = Some m -> a = 1 /\ m = FuseModule (lit "subdir") 1 None) as Hm by (intros a m Hm; cbn [subdir_process mods] in Hm; apply lookup_singleton_Some in Hm as [<- <-]; done).
  assert (forall f y, fss subdir_process !! f = Some y -> f = 2 /\ y = FuseFs None None \/ f = 3 /\ y = FuseFs (Some 1) (Some 2)) as Hf.
  { intros f y Hf. cbn [subdir_process fss] in Hf. apply lookup_insert_Some in Hf as [[<- <-]|[_ Hf]]; [by left|]. apply lookup_singleton_Some in Hf as [<- <-]. by right. }
  split; [split|..]; cbn [subdir_process fuse_modules sos p_next].
  - repeat constructor. by intros ?%elem_of_nil.
  - intros a. rewrite list_elem_of_singleton. split; [intros ->; by eexists|by intros [m [-> _]%Hm]].
  - by intros a m so [_ ->]%Hm.
  - by intros a b m n so [_ ->]%Hm.
  - intros so [k Hk]. by rewrite lookup_empty in Hk.
  - by intros a m [_ ->]%Hm.
  - intros a. rewrite lookup_empty. intros [[m [-> _]%Hm]|[[? Hs]|[y [[-> _]|[-> _]]%Hf]]]; (done || lia).
  - intros a m [-> ->]%Hm. vm_compute. reflexivity.
  - intros f y a [[_ ->]|[_ ->]]%Hf; [done|]. intros [= <-]. by eexists.
  - intros a. split; [done|]. unfold none. lia.
Qed.

Lemma destroy_uses_freed_module_witness :
  fuse_destroy noting_fs (on_fs 3) (ending_ll, (subdir_process, Signals ∅ None [])) = None.
Proof.
  apply (proj1 (destroy_uses_freed_module noting_fs ending_ll subdir_process (Signals ∅ None []) (on_fs 3) (FuseFs (Some 1) (Some 2)) 1 ending_ok subdir_process_ok eq_refl eq_refl)).
  reflexivity.
Defined.

Lemma builtin_modules_lost_witness : exists p1 p2 p3, put_all subdir_process = Some (tt, p1) /\ register_builtin p1 = Some (tt, p2) /\
  fuse_push_module (fun _ => No_file) (fun _ a => (true, a)) 9 (lit "subdir") (FuseArgs 0 None false) p2 = Some ((None, FuseArgs 0 None false), p3).
Proof. apply (builtin_modules_lost (fun _ => No_file)); [exact subdir_process_ok|reflexivity|discriminate]. Defined.

#[local] Instance no_strtod : Strtod := {| strtod := fun _ => None |}.

Definition start_args : fuse_args := FuseArgs 3 (Some [lit "f3"; lit "-o"; lit "modules=subdir:iconv,remember=7,allow_root"]) false.

Lemma process0_ok : mods_ok none (process0 []).
Proof.
  split; [split|..]; cbn [process0 fuse_modules mods sos fss p_next].
  - constructor.
  - intros a. rewrite lookup_empty. split; [by intros ?%elem_of_nil|by intros []].
  - intros a m so Hm. by rewrite lookup_empty in Hm.
  - intros a b m n so Hm. by rewrite lookup_empty in Hm.
  - intros so [k Hk]. by rewrite lookup_empty in Hk.
  - intros a m Hm. by rewrite lookup_empty in Hm.
  - intros a. rewrite !lookup_empty. by intros [[? ?]|[[? ?]|[? ?]]].
  - intros a m Hm. by rewrite lookup_empty in Hm.
  - intros f y a Hf. by rewrite lookup_empty in Hf.
  - intros a. split; [done|]. unfold none. lia.
Qed.

(** iconv is on top of subdir, and the kernel is told to let everybody in. *)
Lemma new_starts_witness : exists f args' p', fuse_new_31 (fun _ => No_file) (fun _ a => (true, a)) (StartEnv 4096 1000 true true) start_args (process0 [], Signals ∅ None []) =
    Some ((Some f, args'), (p', Signals ∅ None [])) /\
  (exists base, stacked p' base (f_fs f) [lit "iconv"; lit "subdir"]) /\ remember (conf (f_nodes f)) = 7 /\ deny_others (f_se f) = true /\ mo_allow_other (f_mo f) = 1.
Proof.
  assert (Slab.page_size 4096) as Hpage by (exists 12; split; [lia|reflexivity]).
  destruct (new_starts (fun _ => No_file) (fun _ a => (true, a)) (StartEnv 4096 1000 true true) (fun _ _ H => H) Hpage
    start_args (process0 []) (Signals ∅ None []) process0_ok eq_refl) as (o & args' & p' & E & _ & Ho); [done|vm_compute; reflexivity|].
  destruct o as [f|]; [|vm_compute in E; discriminate]. exists f, args', p'. split; [exact E|]. destruct Ho as (_ & _ & _ & (base & _ & _ & Hst) & _). split; [exists base; exact Hst|].
  vm_compute in E. injection E as <- _ _. split; [vm_compute; reflexivity|]. split; vm_compute; reflexivity.
Defined.
